(* ===== verification/_CoqProject ===== *)
-Q . S2P
Prelude.v
Bitmap.v
ByteMem.v
Libc.v
LibProps.v
Threads.v
ThreadsRef.v
SchedRef.v
SchedInv.v
SchedSteps.v
SchedProps.v
Semaphore.v
SemProps.v
BlockDev.v
Tfs.v
TfsSpec.v
TfsRead.v
TfsIO.v
TfsAlloc.v
TfsCreate.v
TfsLock.v
TfsView.v
TfsProps.v
Vfs.v
VfsSpec.v
VfsInv.v
VfsOps.v
VfsTfs.v
VfsProps.v
Filesystems.v
FsProps.v
TfsTool.v
TfsImage.v
TfsToolOps.v
TfsToolCmds.v
TfsToolProps.v
PhysMem.v
BootArgs.v
PageTable.v
X86Cpu.v
X86Bits.v
X86Phys.v
X86Boot.v
X86Paging.v
X86Map.v
X86Space.v
X86Kernel.v
X86Spaces.v
X86Props.v
Elf.v
Process.v
ProcLoad.v
ProcStart.v
ProcSetup.v
ProcProps.v
UserHeap.v
UserHeapOps.v
UserHeapClient.v
UserHeapProps.v
UserString.v
UserInput.v
Printf.v
PrintfSpec.v
PrintfRender.v
PrintfProps.v
UserShell.v
Devices.v
Interrupts.v
Disk.v
DiskSpec.v
DiskOps.v
DiskHistory.v
DiskProps.v
Tty.v
TtySpec.v
TtyOps.v
TtyProps.v
X86Keyboard.v
X86Screen.v
X86Disk.v
