(* ===== verification/Prelude.v ===== *)
(** * KUDOS: a verification library for the KUDOS teaching operating system

    KUDOS (sources under src/kudos and src/userland) is a small operating system
    in C for the MIPS32 machine of the YAMS simulator (big-endian) and for
    x86-64.  This library is a shallow embedding of its machine-independent core,
    of the memory management of both machines, of the start of processes, and of
    the interrupts, the disk and the terminal of the MIPS machine, of the console of
    x86-64, and of the library of user programs: C functions are Rocq functions, C
    structures are records, global variables are fields of a state record that
    is passed explicitly, and every result is an [outcome] (this file): a normal
    return, a kernel panic, an access outside an object, a wait that the code
    cannot end by itself, or a loop that reached the iteration bound of the
    model.  [returns m Q] is total correctness: [m] is a normal return that
    satisfies [Q].  All definitions are executable.

    ** Parts of the system and the files that model them

    - lib/bitmap.c: Bitmap.v.  lib/libc.c (strings, memory blocks, [atoi], byte
      order): Libc.v.  Their properties: LibProps.v.
    - kernel/thread.c, scheduler.c, sleepq.c, mips32/cswitch.c: Threads.v.  The
      state [kernel] is the thread table with the lists that are threaded
      through its [next] fields (the ready list and the chains of the sleep
      queue), the current thread of each CPU, the two spinlocks and the
      interrupt flag.  ThreadsRef.v relates these lists to queues ([athreads],
      [krep]) and states the specification of each operation on queues
      ([a_schedule], [a_wake], [a_wake_all], ...); SchedRef.v proves that the code
      refines it; SchedInv.v is the invariant of the kernel ([kinv]), SchedSteps.v
      the reachable states and that every step keeps it; SchedProps.v the
      properties.
    - kernel/semaphore.c: Semaphore.v on top of the sleep queue and scheduler;
      SemProps.v the properties, for every interleaving of calls.
    - drivers/gbd.h: BlockDev.v, the interface of block devices as the class
      [BlockDevice] with the promises of a driver as the class
      [BlockDeviceSpec], and a RAM disk with transfer errors as an instance.
    - fs/tfs.c: Tfs.v, every operation of the Trivial File System on any
      [BlockDevice].  TfsSpec.v says when a volume is well formed ([fs_rep]),
      TfsRead.v, TfsIO.v, TfsAlloc.v and TfsCreate.v prove the operations,
      TfsLock.v that the volume's lock is balanced on every path, TfsView.v
      relates a volume to an abstract file system (a map from names to
      contents) and holds example volumes, TfsProps.v the properties.
    - fs/vfs.c: Vfs.v, every operation of the Virtual File System on any driver
      (the class [FsDriver], the function pointers of [fs_t]).  VfsSpec.v
      specifies path names, VfsInv.v states the contract of drivers
      ([FsDriverSpec]) and the invariant of the tables, VfsOps.v an abstract VFS
      that the operations refine, VfsTfs.v that TFS keeps the contract of drivers
      and the protocol between operations and the forced unmount; VfsProps.v the
      properties.
    - fs/filesystems.c and the mounting part of vfs.c: Filesystems.v (partition
      tables, the driver table); FsProps.v the properties.
    - kernel/stalloc.c and vm/mips32/mm_phys.c: PhysMem.v.  vm/mips32/mm_virt.c
      and tlb.c: PageTable.v, with the properties of both.
    - The heap of userland/lib.c ([malloc], [free], [calloc], [realloc]):
      UserHeap.v, on the bytes of the heap with the free list in them and the
      relation of the list to blocks.  UserHeapOps.v proves the operations,
      UserHeapClient.v the histories of a program; UserHeapProps.v the
      properties.
    - The string functions of userland/lib.c: UserString.v.  Its character and
      line input ([gets], [readline_static], [readline]): UserInput.v, on the
      heap of UserHeap.v and any terminal (the class [Console], the system calls
      that read and write); [edit] is the line editor they implement.
    - userland/oldshell.c: UserShell.v, the commands and the command line, on the
      terminal of UserInput.v and any files and processes (the class [Syscalls],
      and [Files] what the commands rely on).
    - lib/xprintf.c and its copy in userland/lib.c: Printf.v, the engine
      [vxnprintf] with its entry points; the two copies differ by a [variant].
      PrintfSpec.v is the text of numbers, PrintfRender.v the abstract syntax of
      formats, its concrete syntax ([fmt_of]) and its meaning ([render]);
      PrintfProps.v that the engine writes the meaning, and the properties.
    - util/tfstool.c, the host program that makes disk images: TfsTool.v, over a
      host file system that maps names to contents.  TfsImage.v makes an image
      file a block device and gives the proof rules of the tool's computations;
      TfsToolOps.v and TfsToolCmds.v prove the commands on the volumes of
      TfsSpec.v; TfsToolProps.v the properties.
    - vm/x86_64/mm_phys.c and the 64-bit kernel/stalloc.c: X86Phys.v, the
      allocator and its invariant ([frames]), with the flags of a bitmap in
      X86Bits.v; X86Boot.v proves its start.  vm/x86_64/mm_virt.c: X86Paging.v, the
      page tables in their pool, the walk of the processor through them
      ([translate]) and their invariant ([tables_ok]); X86Map.v and X86Space.v prove
      [vm_map], X86Kernel.v the kernel's space and [kmalloc], X86Spaces.v the
      histories of address spaces ([srep]); X86Props.v the properties.
    - proc/elf.c: Elf.v, the parser of program headers, which segments a file has
      and what an open file is, and that the parser finds them.
    - proc/process.c, proc/x86_64/_proc.c and kernel/x86_64/cswitch.c: Process.v,
      on the state [machine] of all the parts a process start uses; an access to
      memory goes through the page tables in force.  ProcLoad.v relates pages to
      frames and, with ProcStart.v, proves the loading of the image ([loaded]),
      ProcSetup.v the whole of [setup_new_process] and the frame from which a
      process starts; ProcProps.v is an example executable and the properties,
      with those of the parser.
    - drivers/device.h and drivers/mips32/device.c: Devices.v, the table of devices,
      for any drivers.  kernel/mips32/interrupt.c: Interrupts.v, the table of
      handlers and the service of an interrupt, for handlers on any state that
      contains the kernel (the class [HasKernel]).
    - drivers/mips32/disk.c and drivers/disksched.c: Disk.v, on the kernel of
      Semaphore.v and any controller (the classes [DiskHw], its registers, and
      [DiskHwSpec], what the driver relies on).  DiskSpec.v is the
      linked list of requests ([linked]), the disk as a queue of transfers
      ([adisk]) and the facts about requests and semaphores ([rfacts]), DiskOps.v
      proves the operations ([drep]), DiskHistory.v the histories ([dsteps]);
      DiskProps.v the properties, with those of devices and interrupts.
    - drivers/mips32/tty.c and tty.h, drivers/gcd.h: Tty.v, on the kernel of
      Threads.v and any terminal (the classes [TtyHw], its registers, and
      [TtyHwSpec], what the driver relies on).  A call that goes to sleep ends
      there ([Sleeps]); what follows the switch is a function of its own
      ([tty_write_resume], [tty_read_resume]).  TtySpec.v relates the ring buffers
      to queues ([trep]), TtyOps.v proves the operations, TtyProps.v the histories
      ([tsteps]) and the properties.
    - drivers/bootargs.c: BootArgs.v, the parser and the lookup, with the meaning
      of a command line ([arguments]).
    - drivers/x86_64/keyboard.c and the [tty_read] of drivers/x86_64/tty.c:
      X86Keyboard.v, scan codes and the dialogue with the keyboard controller over
      any ports (the classes [Ports] and [Controller]).  The rest of
      drivers/x86_64/tty.c and polltty.c: X86Screen.v, video memory, which stands
      for a [screen] of lines ([srep]).
    - kernel/x86_64/gdt.c, idt.c, tss.c, exception.c, interrupt.c and pic.c,
      drivers/x86_64/pit.c, proc/syscall.c and proc/x86_64/_syscall.c: X86Cpu.v, the
      tables as the bytes the processor reads, ports as a parameter.
    - drivers/x86_64/disk.c: X86Disk.v, transfers over any ports, behind which the
      class [IdeBus] puts a [drive] that is busy now and then.
    - ByteMem.v is memory as bytes, for the parts that read and write it.

    ** What the theorems show

    - Scheduling: in every reachable state each thread is on exactly the list
      its state says, the queue operations return, they refine round-robin
      scheduling and first-come wake-ups, and no wake-up is lost; a semaphore
      never lets more callers pass than it was told to.
    - File systems: any history of operations on a TFS volume is the history of
      the abstract file system; each operation is characterised on each branch;
      on failing devices the lock is still released.  The VFS refines an abstract
      VFS for any driver that keeps the contract, TFS is such a driver, a disk
      with a TFS volume is found and mounted, and the shutdown runs only when no
      operation is inside.
    - Memory: pages are never handed out twice, the page table is a partial map.
    - Library: bit search, copying, comparing, number and byte-order routines are
      their specifications.
    - Userland heap: whatever a program does with its blocks, they stay disjoint
      and inside the heap, and freeing them all makes the heap whole again.
    - Formatted output: the engine writes the text a format means, cut off at
      the size of the buffer.
    - TFS tool: any history of commands on an image is the history of the
      abstract file system, and the kernel mounts a new image after any history
      with the files it leaves.  Files with a length below 65024 that is a multiple
      of 512, for which the tool takes a block too many, are left aside.
    - x86-64 memory: any history of address spaces is, in the page tables, the
      history of independent maps; frames are handed out once.
    - Processes: the parser finds exactly the segments of a file or answers the
      first test that fails, and a started
      process sees exactly the image of its executable.
    - Disk: whatever clients, controller and kernel do in between, requests are
      served once and in order, and a synchronous read returns with the block.
    - Interrupts: the handlers of a cause run in the order of registration.
    - Terminal: whatever writers, readers, device and kernel do in between, the
      text written is shown once and in order, and up to the size of the buffer
      the input is read once and in order.
    - Boot arguments: the lookup answers what the command line says, and a command
      line written for a list of pairs is parsed back into exactly them.
    - Line input: the buffer holds the line as an editor makes it of the keys, and
      the screen shows it, also when the buffer is moved to a larger one; strings are compared, copied and searched as specified.
    - Console of x86-64: the screen is one of 25 lines of 80 characters that
      scrolls, and a typed line is the line that is read.
    - Processor tables of x86-64: after start-up each interrupt has its gate and
      the segments are those the processor expects.
    - IDE disk: a block that is read is the sector of the drive, a block that is
      written is the one read back, whatever the drive's delays.
    - Shell: a line is split into its words, cp makes the copy that cmp then judges,
      show, cmp and echo print what they should and change no file.
    - Some theorems state what the code does where it does not do what it means
      to: [failed_close_blocks_shutdown], [unmounted_name_stays_taken],
      [circular_partition_diverges], [vm_getmap_unmapped], the last clause of
      [byte_order_correct],
      [malloc_huge_request], the last clause of [realloc_correct],
      [printf_nine_diverges], [printf_sign_overflow],
      [full_block_refused], [long_name_faults],
      [kmalloc_aliases], [setup_leaves_frames_free],
      [setup_new_process_rejects], the second clause of [frames64_exclusive],
      the last clause of [interrupt_register_correct],
      [tty_full_buffer_overwrites], [bootargs_overflow], [gets_off_by_one],
      [strncmp_reads_too_far], [readline_unchecked], [readline_long_line],
      [snprintf_renders], the last clause of
      [strstr_correct], [keyboard_key_correct], [keyboard_leds_lost],
      the last clause of [interrupt_init64_correct], [tables_off_by_one], the last
      clauses of [ide_blocks_correct],
      [shell_copy_correct], [wait_blocks_background], [leading_space_lost],
      [touch_without_size].

    ** Conventions and bounds

    Integers are [Z]; a conversion to a fixed width is written out ([u8], [u32],
    [s32], ...).  A [char *] is the list of bytes from the pointer to the end of
    its object.  A spinlock that is held and a semaphore that is not positive are
    [Blocked], except where the scheduler is part of the model.  List traversals
    of the sleep queue have [list_fuel] iterations, one per thread of the table,
    and [queue_operations_return] proves that this is enough; the links of
    extended partition tables are followed with a fuel argument of the caller,
    and [circular_partition_diverges] proves that no fuel is enough there.
    Traversals of the free list have [heap_fuel] iterations, more than there can
    be blocks in the heap.  The formatting engine takes its fuel as an argument;
    more than the length of the format is enough for every format that does not
    contain the digits 0 and 9 in a width, and no fuel is enough for a width that
    starts with 9.
    The search of [physmem_init] on x86-64 for a frame above the static memory has
    a fuel argument, and [physmem_init64_correct] says how much is enough.
    Starting a process is proved for page tables and frames enough for its pages,
    three tables for each page being more than any layout needs.
    The walk along the requests of the disk has one iteration more than there are
    requests, and [disk_submit_correct] proves that this is enough.
    The loop of the terminal's handler that empties the device has one iteration
    more than characters wait, and the waits of the line editors and of the
    keyboard for input have a fuel argument that the theorems bound by the number
    of keys or bytes that come.
    The wait for an IDE drive has a fuel argument; more than the number of times the
    drive can be found busy in a row is enough.
    The loops of the shell's commands that read files have a fuel argument; more than
    the length of the file is enough.
    [_get_rand], link-time addresses, allocated pages and the other device drivers are
    parameters.  TFS and the conversions exist for both byte orders; the
    correctness theorems of TFS are for the big-endian machine (on the
    little-endian one the code stores a directory field unswapped).

    ** Not modelled

    Assembler (context switch, TLB instructions, boot code), the registers of
    other devices, start-up code that only calls the
    initialisation functions, console output ([kprintf] calls inside modelled
    functions are left out), compiler run-time code in lib/gcc,
    [task_switch] of x86-64, the system-call
    wrappers of the userland library. *)

From Stdlib Require Export ZArith Lia.
From stdpp Require Export base option numbers strings gmap list.
From stdpp Require Import options.

#[global] Open Scope Z_scope.

(** ** Results of kernel code

    Every modelled C function is a total Rocq function into [outcome].  [Done]
    is a normal return, [Panic] a call of [KERNEL_PANIC] or a failed
    [KERNEL_ASSERT], [Fault] an access the C code makes outside the object it
    was given, [Blocked] a wait (on a semaphore or on a spinlock that is
    already held) that the executed code cannot finish by itself, and
    [OutOfFuel] a loop that was still running when the model's iteration bound
    was reached. *)
Inductive outcome (A : Type) : Type :=
| Done (a : A)
| Panic (why : string)
| Fault
| Blocked
| OutOfFuel.

Arguments Done {A} a.
Arguments Panic {A} why.
Arguments Fault {A}.
Arguments Blocked {A}.
Arguments OutOfFuel {A}.

Definition outcome_bind {A B} (k : A → outcome B) (m : outcome A) : outcome B :=
  match m with
  | Done a => k a
  | Panic why => Panic why
  | Fault => Fault
  | Blocked => Blocked
  | OutOfFuel => OutOfFuel
  end.

#[global] Instance outcome_mret : MRet outcome := @Done.
#[global] Instance outcome_mbind : MBind outcome := @outcome_bind.

(** [returns m Q]: the code returns normally and its result satisfies [Q].
    A statement of this form is a statement of total correctness: it excludes
    panics, faults, blocking and running out of fuel. *)
Definition returns {A} (m : outcome A) (Q : A → Prop) : Prop :=
  match m with Done a => Q a | _ => False end.

Definition kassert (b : bool) : outcome unit :=
  if b then Done () else Panic "Assertion failed".

(** ** Machine integers

    C integers are [Z] values; a conversion to a fixed-width type is written
    out with one of the following. *)
Definition u8 (z : Z) : Z := z mod 2 ^ 8.
Definition u16 (z : Z) : Z := z mod 2 ^ 16.
Definition u32 (z : Z) : Z := z mod 2 ^ 32.
Definition u64 (z : Z) : Z := z mod 2 ^ 64.
Definition s8 (z : Z) : Z := (z + 2 ^ 7) mod 2 ^ 8 - 2 ^ 7.
Definition s32 (z : Z) : Z := (z + 2 ^ 31) mod 2 ^ 32 - 2 ^ 31.
Definition s64 (z : Z) : Z := (z + 2 ^ 63) mod 2 ^ 64 - 2 ^ 63.

Definition is_u8 (z : Z) : Prop := 0 ≤ z < 2 ^ 8.
Definition is_u32 (z : Z) : Prop := 0 ≤ z < 2 ^ 32.
Definition is_s32 (z : Z) : Prop := - 2 ^ 31 ≤ z < 2 ^ 31.

#[global] Instance is_u8_dec z : Decision (is_u8 z).
Proof. unfold is_u8. apply _. Defined.
#[global] Instance is_u32_dec z : Decision (is_u32 z).
Proof. unfold is_u32. apply _. Defined.

Definition MIN (a b : Z) : Z := if b <? a then b else a.
Definition MAX (a b : Z) : Z := if b <? a then a else b.

(** ** Arrays

    An array is a list; an index outside it is a [Fault]. *)
Definition aread {A} (l : list A) (i : Z) : outcome A :=
  if i <? 0 then Fault else
  match l !! Z.to_nat i with Some x => Done x | None => Fault end.

Definition awrite {A} (l : list A) (i : Z) (x : A) : outcome (list A) :=
  if (0 <=? i) && (i <? Z.of_nat (length l))
  then Done (<[Z.to_nat i := x]> l) else Fault.

(** ** Loops

    [for_loop lo hi body s] is [for (i = lo; i < hi; i++) body]: the body
    answers [inl s'] to go on and [inr r] to leave the loop with [r] (a
    [return], or a [break] carrying its value).  [while_loop] is a [while (1)]
    whose body decides to leave, with an explicit bound on the iterations. *)
Fixpoint for_from {S R} (n : nat) (i : Z) (body : Z → S → outcome (S + R)) (s : S)
    : outcome (S + R) :=
  match n with
  | O => Done (inl s)
  | Datatypes.S n' =>
      match body i s with
      | Done (inl s') => for_from n' (i + 1) body s'
      | r => r
      end
  end.

Definition for_loop {S R} (lo hi : Z) (body : Z → S → outcome (S + R)) (s : S)
    : outcome (S + R) :=
  for_from (Z.to_nat (hi - lo)) lo body s.

Fixpoint while_loop {S R} (fuel : nat) (body : S → outcome (S + R)) (s : S) : outcome R :=
  match fuel with
  | O => OutOfFuel
  | Datatypes.S f =>
      match body s with
      | Done (inl s') => while_loop f body s'
      | Done (inr r) => Done r
      | Panic w => Panic w
      | Fault => Fault
      | Blocked => Blocked
      | OutOfFuel => OutOfFuel
      end
  end.

(** [for_each] is a [for] loop whose body never leaves it. *)
Definition for_each {S} (lo hi : Z) (body : Z → S → outcome S) (s : S) : outcome S :=
  outcome_bind (λ r : S + S, Done (match r with inl s' => s' | inr s' => s' end))
    (for_loop lo hi (λ i s', outcome_bind (λ s'', Done (inl s'')) (body i s')) s).

(** ** Notation of the development *)
Declare Scope kudos_scope.
Delimit Scope kudos_scope with K.
Notation "'let*' x ':=' m 'in' k" := (outcome_bind (fun x => k) m)
  (at level 10, x name, m at level 200, k at level 200) : kudos_scope.
Notation "'let*' ' p ':=' m 'in' k" := (outcome_bind (fun p => k) m)
  (at level 10, p strict pattern, m at level 200, k at level 200) : kudos_scope.
Notation "m ;* k" := (outcome_bind (fun _ => k) m)
  (at level 199, right associativity) : kudos_scope.
#[global] Open Scope kudos_scope.

(** ** Lemmas on outcomes *)
Lemma returns_inv {A} (m : outcome A) Q : returns m Q → ∃ a, m = Done a ∧ Q a.
Proof. destruct m; simpl; naive_solver. Qed.

Lemma returns_done {A} (a : A) (Q : A → Prop) : Q a → returns (Done a) Q.
Proof. done. Qed.

Lemma returns_bind {A B} (m : outcome A) (k : A → outcome B) (Q : B → Prop) :
  returns m (λ a, returns (k a) Q) → returns (outcome_bind k m) Q.
Proof. by destruct m. Qed.

Lemma returns_mono {A} (m : outcome A) (P Q : A → Prop) :
  returns m P → (∀ a, P a → Q a) → returns m Q.
Proof. destruct m; simpl; eauto. Qed.

Lemma bind_Done_inv {A B} (m : outcome A) (k : A → outcome B) b :
  outcome_bind k m = Done b → ∃ a, m = Done a ∧ k a = Done b.
Proof. destruct m; simpl; naive_solver. Qed.

Lemma kassert_true b : b = true → kassert b = Done ().
Proof. by intros ->. Qed.

Lemma bind_assoc {A B C} (m : outcome A) (f : A → outcome B) (g : B → outcome C) :
  outcome_bind (λ a, outcome_bind g (f a)) m = outcome_bind g (outcome_bind f m).
Proof. by destruct m. Qed.

Lemma kassert_bind {B} b (f : unit → outcome B) :
  b = true → outcome_bind f (kassert b) = f ().
Proof. by intros ->. Qed.

(** ** Lemmas on machine integers *)
Lemma u32_range z : is_u32 (u32 z).
Proof. unfold is_u32, u32. apply Z.mod_pos_bound. lia. Qed.

Lemma u8_range z : is_u8 (u8 z).
Proof. unfold is_u8, u8. apply Z.mod_pos_bound. lia. Qed.

Lemma u8_id z : is_u8 z → u8 z = z.
Proof. unfold is_u8, u8. intros. by apply Z.mod_small. Qed.

Lemma u32_id z : is_u32 z → u32 z = z.
Proof. unfold is_u32, u32. intros. by apply Z.mod_small. Qed.

Lemma s32_id z : is_s32 z → s32 z = z.
Proof. unfold is_s32, s32. intros. rewrite Z.mod_small; lia. Qed.

Lemma s32_range z : is_s32 (s32 z).
Proof.
  unfold is_s32, s32. pose proof (Z.mod_pos_bound (z + 2 ^ 31) (2 ^ 32)). lia.
Qed.

Lemma u32_s32 z : u32 (s32 z) = u32 z.
Proof.
  unfold u32, s32. rewrite Zminus_mod_idemp_l. f_equal. lia.
Qed.

Lemma s8_spec c : is_u8 c → s8 c = if c <? 128 then c else c - 256.
Proof.
  unfold is_u8, s8. intros Hc. destruct (Z.ltb_spec c 128).
  - rewrite Z.mod_small; lia.
  - replace (c + 2 ^ 7) with (c - 2 ^ 7 + 1 * 2 ^ 8) by lia.
    rewrite Z.mod_add, Z.mod_small; lia.
Qed.

Lemma s8_inj a b : is_u8 a → is_u8 b → s8 a = s8 b → a = b.
Proof.
  intros Ha Hb. rewrite !s8_spec by done. unfold is_u8 in *.
  destruct (Z.ltb_spec a 128), (Z.ltb_spec b 128); lia.
Qed.

Lemma MIN_spec a b : MIN a b = Z.min a b.
Proof. unfold MIN. destruct (Z.ltb_spec b a); lia. Qed.

Lemma MAX_spec a b : MAX a b = Z.max a b.
Proof. unfold MAX. destruct (Z.ltb_spec b a); lia. Qed.

(** ** Lemmas on arrays *)
Lemma aread_Some {A} (l : list A) i x :
  0 ≤ i → l !! Z.to_nat i = Some x → aread l i = Done x.
Proof.
  intros Hi Hx. unfold aread.
  destruct (Z.ltb_spec i 0); [lia|]. by rewrite Hx.
Qed.

Lemma aread_Done {A} (l : list A) i x :
  aread l i = Done x ↔ 0 ≤ i ∧ l !! Z.to_nat i = Some x.
Proof.
  unfold aread. destruct (Z.ltb_spec i 0).
  - split; [done|lia].
  - destruct (l !! Z.to_nat i); split; intros; destruct_and?; by simplify_eq.
Qed.

Lemma aread_in_range {A} (l : list A) i :
  0 ≤ i < Z.of_nat (length l) → ∃ x, l !! Z.to_nat i = Some x ∧ aread l i = Done x.
Proof.
  intros Hi. destruct (lookup_lt_is_Some_2 l (Z.to_nat i)) as [x Hx]; [lia|].
  exists x. split; [done|]. apply aread_Some; [lia|done].
Qed.

Lemma awrite_in_range {A} (l : list A) i x :
  0 ≤ i < Z.of_nat (length l) → awrite l i x = Done (<[Z.to_nat i := x]> l).
Proof.
  intros Hi. unfold awrite.
  destruct (Z.leb_spec 0 i), (Z.ltb_spec i (Z.of_nat (length l))); simpl; done || lia.
Qed.

Lemma awrite_Done {A} (l l' : list A) i x :
  awrite l i x = Done l' ↔
  0 ≤ i < Z.of_nat (length l) ∧ l' = <[Z.to_nat i := x]> l.
Proof.
  unfold awrite.
  destruct (Z.leb_spec 0 i), (Z.ltb_spec i (Z.of_nat (length l))); simpl;
    split; intros; destruct_and?; simplify_eq; done || lia || (split; [lia|done]).
Qed.

Lemma aread_middle {A} (l r : list A) x i : i = Z.of_nat (length l) → aread (l ++ x :: r) i = Done x.
Proof.
  intros ->. unfold aread. rewrite (proj2 (Z.ltb_ge _ _)) by lia. by rewrite Nat2Z.id, list_lookup_middle.
Qed.

Lemma awrite_middle {A} (l r : list A) x y i :
  i = Z.of_nat (length l) → awrite (l ++ x :: r) i y = Done (l ++ y :: r).
Proof.
  intros ->. rewrite awrite_in_range by (rewrite length_app; simpl; lia).
  by rewrite Nat2Z.id, insert_app_r_alt, Nat.sub_diag by lia.
Qed.

Lemma awrite_outside {A} (l : list A) i x : ¬ 0 ≤ i < Z.of_nat (length l) → awrite l i x = Fault.
Proof.
  intros Hi. unfold awrite. destruct (Z.leb_spec 0 i), (Z.ltb_spec i (Z.of_nat (length l))); try done. lia.
Qed.

Lemma aread_drop {A} (l r : list A) n x : drop n l = x :: r → aread l (Z.of_nat n) = Done x.
Proof.
  intros E. apply aread_Some; [lia|]. rewrite Nat2Z.id, <- (Nat.add_0_r n), <- lookup_drop, E. done.
Qed.

Lemma drop_tail {A} (l r : list A) n x : drop n l = x :: r → drop (S n) l = r.
Proof. intros E. by rewrite <- (Nat.add_1_r n), <- drop_drop, E. Qed.

Lemma while_loop_S {S R} f (body : S → outcome (S + R)) s :
  while_loop (Datatypes.S f) body s = (let* r := body s in
    match r with inl s' => while_loop f body s' | inr r => Done r end).
Proof. cbn [while_loop]. by destruct (body s) as [[|]| | | |]. Qed.

(** ** Proof rules for loops *)
Section loop_rules.
Context {S R : Type}.
Implicit Types (s : S) (r : R).

(** The invariant rule of [for_loop]: [Inv i] holds before iteration [i], [Q]
    of every result that leaves the loop early. *)
Lemma for_from_inv (Inv : Z → S → Prop) (Q : R → Prop) body n i s :
  Inv i s →
  (∀ j s', i ≤ j < i + Z.of_nat n → Inv j s' →
     returns (body j s') (λ x, match x with inl s'' => Inv (j + 1) s'' | inr r => Q r end)) →
  returns (for_from n i body s)
    (λ x, match x with inl s' => Inv (i + Z.of_nat n) s' | inr r => Q r end).
Proof.
  revert i s. induction n as [|n IH]; intros i s Hs Hbody; cbn [for_from returns].
  { by rewrite Z.add_0_r. }
  assert (Hi : returns (body i s)
    (λ x, match x with inl s'' => Inv (i + 1) s'' | inr r => Q r end))
    by (apply Hbody; [lia|done]).
  destruct (body i s) as [[s'|r]| | | |]; simpl in Hi; try done.
  rewrite Nat2Z.inj_succ, <- Z.add_1_l, Z.add_assoc.
  apply IH; [done|]. intros j s'' Hj. apply Hbody. lia.
Qed.

Lemma for_loop_inv (Inv : Z → S → Prop) (Q : R → Prop) body lo hi s :
  lo ≤ hi →
  Inv lo s →
  (∀ j s', lo ≤ j < hi → Inv j s' →
     returns (body j s') (λ x, match x with inl s'' => Inv (j + 1) s'' | inr r => Q r end)) →
  returns (for_loop lo hi body s)
    (λ x, match x with inl s' => Inv hi s' | inr r => Q r end).
Proof.
  intros Hle Hs Hbody. unfold for_loop.
  assert (Hhi : hi = lo + Z.of_nat (Z.to_nat (hi - lo))) by lia.
  eapply returns_mono; [apply (for_from_inv Inv Q)|]; [done| |].
  - intros j s' Hj. apply Hbody. lia.
  - by rewrite <- Hhi.
Qed.

(** The rule of [while_loop]: a natural-number measure bounds the iterations. *)
Lemma while_loop_inv (Inv : S → Prop) (m : S → nat) (Q : R → Prop) fuel body s :
  Inv s →
  (m s < fuel)%nat →
  (∀ s', Inv s' →
     returns (body s')
       (λ x, match x with inl s'' => Inv s'' ∧ (m s'' < m s')%nat | inr r => Q r end)) →
  returns (while_loop fuel body s) Q.
Proof.
  intros Hs Hm Hbody. revert s Hs Hm.
  induction fuel as [|fuel IH]; intros s Hs Hm; [lia|]. simpl.
  specialize (Hbody s Hs) as Hb.
  destruct (body s) as [[s'|r]| | | |]; simpl in *; try done.
  destruct Hb as [? ?]. apply IH; [done|lia].
Qed.
End loop_rules.

Lemma for_each_inv {S} (Inv : Z → S → Prop) body lo hi s :
  lo ≤ hi →
  Inv lo s →
  (∀ j s', lo ≤ j < hi → Inv j s' → returns (body j s') (Inv (j + 1))) →
  returns (for_each lo hi body s) (Inv hi).
Proof.
  intros Hle Hs Hbody. unfold for_each. apply returns_bind.
  eapply returns_mono; [apply (for_loop_inv Inv (λ _, False)); [done|done|]|].
  - intros j s' Hj Hs'. apply returns_bind. specialize (Hbody j s' Hj Hs').
    by destruct (body j s').
  - by intros [?|?].
Qed.

(** A fact about all numbers of a range, checked one by one. *)
Lemma forallb_seqZ (P : Z → bool) lo n x :
  forallb P (seqZ lo n) = true → lo ≤ x < lo + n → P x = true.
Proof.
  intros H Hx. apply (proj1 (forallb_forall _ _) H), list_elem_of_In, elem_of_seqZ. lia.
Qed.

(** A loop that searches an array: it leaves with the first index whose element
    passes the test. *)
Lemma for_from_find {A R} (P : A → Prop) `{∀ x, Decision (P x)} (g : Z → R) (l : list A)
    (k : Z) (body : Z → unit → outcome (unit + R)) :
  (∀ i x, l !! i = Some x →
     body (k + Z.of_nat i) () = Done (if decide (P x) then inr (g (k + Z.of_nat i)) else inl ())) →
  for_from (length l) k body () =
    Done (match list_find P l with Some (i, _) => inr (g (k + Z.of_nat i)) | None => inl () end).
Proof.
  revert k. induction l as [|x l IH]; intros k Hb; [done|]. cbn [length for_from list_find].
  pose proof (Hb 0%nat x eq_refl) as H0. rewrite Z.add_0_r in H0. rewrite H0.
  destruct (decide (P x)); [by rewrite Z.add_0_r|].
  rewrite IH.
  - destruct (list_find P l) as [[i y]|]; simpl; [|done]. do 3 f_equal. lia.
  - intros i y Hi. replace (k + 1 + Z.of_nat i) with (k + Z.of_nat (S i)) by lia. by apply Hb.
Qed.

Lemma for_loop_find {A R} (P : A → Prop) `{∀ x, Decision (P x)} (g : Z → R) (l : list A) n
    (body : Z → unit → outcome (unit + R)) :
  n = Z.of_nat (length l) →
  (∀ i x, l !! i = Some x →
     body (Z.of_nat i) () = Done (if decide (P x) then inr (g (Z.of_nat i)) else inl ())) →
  for_loop 0 n body () =
    Done (match list_find P l with Some (i, _) => inr (g (Z.of_nat i)) | None => inl () end).
Proof.
  intros -> Hb. unfold for_loop. rewrite Z.sub_0_r, Nat2Z.id. by apply (for_from_find P g l 0).
Qed.

(** ** Overwriting a prefix

    Storing the elements of [src] one after the other at the start of [dst]. *)
Lemma overwrite_step {A} (src dst : list A) i c :
  src !! i = Some c → (i < length dst)%nat →
  <[i:=c]> (take i src ++ drop i dst) = take (S i) src ++ drop (S i) dst.
Proof.
  intros Hs Hi. pose proof (lookup_lt_Some _ _ _ Hs).
  destruct (lookup_lt_is_Some_2 dst i Hi) as [d Hd].
  rewrite insert_app_r_alt by (rewrite length_take; lia).
  rewrite length_take, Nat.min_l, Nat.sub_diag by lia.
  rewrite (drop_S _ _ _ Hd). simpl. by rewrite (take_S_r _ _ _ Hs), <- app_assoc.
Qed.

(** The buffer [dst] after its first [k] elements were overwritten with those
    of [src]. *)
Definition overwrite {A} (src dst : list A) (k : Z) : list A :=
  take (Z.to_nat k) src ++ drop (Z.to_nat k) dst.

Lemma length_overwrite {A} (src dst : list A) k :
  k ≤ Z.of_nat (length src) → k ≤ Z.of_nat (length dst) →
  length (overwrite src dst k) = length dst.
Proof. intros. unfold overwrite. rewrite length_app, length_take, length_drop. lia. Qed.

Lemma overwrite_next {A} (src dst : list A) k c :
  0 ≤ k < Z.of_nat (length dst) → src !! Z.to_nat k = Some c →
  <[Z.to_nat k := c]> (overwrite src dst k) = overwrite src dst (k + 1).
Proof.
  intros Hk Hc. unfold overwrite. rewrite overwrite_step by (done || lia).
  by replace (Z.to_nat (k + 1)) with (S (Z.to_nat k)) by lia.
Qed.

(** A loop that copies [n] elements of [src] to [dst], from position [k] on. *)
Lemma copy_loop_from (src dst : list Z) k n :
  0 ≤ k → 0 ≤ n → k + n ≤ Z.of_nat (length src) → k + n ≤ Z.of_nat (length dst) →
  for_each 0 n (λ i t, let* c := aread src (k + i) in awrite t (k + i) c)
    (overwrite src dst k) = Done (overwrite src dst (k + n)).
Proof.
  intros Hk Hn Hs Hd.
  match goal with |- ?m = _ => destruct (returns_inv m (λ t, t = overwrite src dst (k + n)))
    as (t & -> & ->); [|done] end.
  apply (for_each_inv (λ i t, t = overwrite src dst (k + i)));
    [done|by rewrite Z.add_0_r|].
  intros i t Hi ->. destruct (aread_in_range src (k + i)) as (c & Hc & ->); [lia|].
  cbn [outcome_bind]. rewrite awrite_in_range by (rewrite length_overwrite; lia).
  simpl. rewrite overwrite_next by (done || lia). f_equal. lia.
Qed.

Lemma copy_loop (src dst : list Z) n :
  0 ≤ n ≤ Z.of_nat (length src) → n ≤ Z.of_nat (length dst) →
  for_each 0 n (λ i t, let* c := aread src i in awrite t i c) dst
  = Done (overwrite src dst n).
Proof. intros. apply (copy_loop_from src dst 0 n); lia. Qed.

Lemma elem_of_concat {A} (x : A) (ls : list (list A)) :
  x ∈ concat ls ↔ ∃ i l, ls !! i = Some l ∧ x ∈ l.
Proof.
  rewrite list_elem_of_In, in_concat. setoid_rewrite <- list_elem_of_In.
  split; [|naive_solver eauto using list_elem_of_lookup_2].
  intros (l & Hl & Hx). apply list_elem_of_lookup in Hl as [i Hi]. eauto.
Qed.

(** The other lists of a family, whatever list [q] holds. *)
Lemma concat_split (ls : list (list Z)) q l :
  ls !! q = Some l →
  ∃ rest, concat ls ≡ₚ l ++ rest ∧ (∀ l', concat (<[q:=l']> ls) ≡ₚ l' ++ rest) ∧
    (∀ i l2, i ≠ q → ls !! i = Some l2 → l2 ⊆ rest).
Proof.
  intros Hq. pose proof (lookup_lt_Some _ _ _ Hq).
  exists (concat (take q ls) ++ concat (drop (S q) ls)). split_and!.
  - rewrite <- (take_drop_middle ls q l Hq) at 1. rewrite concat_app. simpl.
    solve_Permutation.
  - intros l'. rewrite insert_take_drop, concat_app by done. simpl. solve_Permutation.
  - intros i l2 Hi Hl2 x Hx. apply elem_of_app.
    destruct (decide (i < q)%nat); [left|right]; apply elem_of_concat.
    + exists i, l2. by rewrite lookup_take_lt.
    + exists (i - S q)%nat, l2. rewrite lookup_drop, <- Hl2. split; [f_equal; lia|done].
Qed.

(** ** Automation

    [kauto] discharges the side conditions the components leave: linear
    arithmetic after unfolding the width predicates, and the hint database
    [kudos]. *)
Create HintDb kudos.
#[export] Hint Resolve u32_range u8_range s32_range : kudos.
#[export] Hint Rewrite @length_insert @length_app @length_take @length_drop
  @length_replicate : kudos_len.

Ltac kunfold := unfold is_u8, is_u32, is_s32 in *.
Ltac klia := kunfold; autorewrite with kudos_len in *; lia.
Ltac kauto := eauto with kudos; try solve [klia].

(** Case analysis on the boolean comparisons of the code. *)
Ltac kcase :=
  match goal with
  | |- context [?a <? ?b] => destruct (Z.ltb_spec a b)
  | |- context [?a <=? ?b] => destruct (Z.leb_spec a b)
  | |- context [?a =? ?b] => destruct (Z.eqb_spec a b)
  end.
