(* ===== verification/Bitmap.v ===== *)
(** * Bitmaps (kudos/lib/bitmap.c)

    A [bitmap_t *] is a list of 32-bit words.  The operations are translated
    word for word; [bit] is the reference view of a bitmap as a set of
    positions, against which they are specified. *)

From S2P Require Import Prelude.

(** ** The operations *)
Definition bitmap_sizeof (num_bits : Z) : Z := s32 (num_bits + 31) `quot` 32 * 4.

Definition bitmap_init (bitmap : list Z) (size : Z) : outcome (list Z) :=
  kassert (0 <=? size) ;*
  for_each 0 (s32 (size + 31) `quot` 32) (λ i bm, awrite bm i 0) bitmap.

Definition bitmap_get (bitmap : list Z) (pos : Z) : outcome Z :=
  kassert (0 <=? pos) ;*
  let i := pos `quot` 32 in
  let j := pos `rem` 32 in
  let* w := aread bitmap i in
  Done (Z.land (Z.shiftr w j) 0x01).

Definition bitmap_set (bitmap : list Z) (pos value : Z) : outcome (list Z) :=
  kassert (0 <=? pos) ;*
  let i := pos `quot` 32 in
  let j := pos `rem` 32 in
  if value =? 0 then
    let* w := aread bitmap i in
    awrite bitmap i (Z.land w (u32 (Z.lnot (s32 (Z.shiftl 1 j)))))
  else if value =? 1 then
    let* w := aread bitmap i in
    awrite bitmap i (Z.lor w (u32 (s32 (Z.shiftl 1 j))))
  else Panic "bit value other than 0 or 1".

(** The pair returned is the function's result and the bitmap it leaves. *)
Definition bitmap_findnset (bitmap : list Z) (l : Z) : outcome (Z * list Z) :=
  kassert (0 <=? l) ;*
  let* r :=
    for_loop 0 (bitmap_sizeof l `quot` 4) (λ i _,
      let* w := aread bitmap i in
      if negb (w =? 0xffffffff) then
        let basepos := i * 32 in
        for_loop 0 32 (λ j _,
          let* b := bitmap_get bitmap (basepos + j) in
          if b =? 0 then
            if l <=? basepos + j then Done (inr (-1, bitmap))
            else
              let* bitmap' := bitmap_set bitmap (basepos + j) 1 in
              Done (inr (basepos + j, bitmap'))
          else Done (inl ())) ()
      else Done (inl ())) () in
  match r with
  | inl _ => Done (-1, bitmap)
  | inr res => Done res
  end.

(** ** Reference view *)

(** Bit [p] of the bitmap. *)
Definition bit (bm : list Z) (p : Z) : bool :=
  match bm !! Z.to_nat (p / 32) with
  | Some w => Z.testbit w (p mod 32)
  | None => false
  end.

(** A bitmap of at least [l] bits whose words are 32-bit values. *)
Definition bitmap_ok (bm : list Z) (l : Z) : Prop :=
  Forall is_u32 bm ∧ 0 ≤ l ≤ 32 * Z.of_nat (length bm) ∧ l < 2 ^ 31 - 32.

(** The number of positions below [n] that satisfy [f]. *)
Fixpoint count_below (f : Z → bool) (n : nat) : Z :=
  match n with
  | O => 0
  | S n' => (if f (Z.of_nat n') then 1 else 0) + count_below f n'
  end.

(** The number of clear bits among the first [l]. *)
Definition free_bits (bm : list Z) (l : Z) : Z :=
  count_below (λ p, negb (bit bm p)) (Z.to_nat l).

(** ** Lemmas on bits *)
Lemma u32_testbit z i : 0 ≤ i < 32 → Z.testbit (u32 z) i = Z.testbit z i.
Proof. intros. unfold u32. by rewrite Z.mod_pow2_bits_low by lia. Qed.

Lemma u32_testbit_high z i : is_u32 z → 32 ≤ i → Z.testbit z i = false.
Proof.
  intros Hz Hi. rewrite <- (u32_id z Hz). unfold u32. apply Z.mod_pow2_bits_high. lia.
Qed.

Lemma testbit_is_u32 z : 0 ≤ z → (∀ i, 32 ≤ i → Z.testbit z i = false) → is_u32 z.
Proof.
  intros Hz Hi. split; [done|].
  assert (z = u32 z) as ->; [|apply u32_range].
  apply Z.bits_inj'. intros n Hn. destruct (decide (n < 32)).
  - by rewrite u32_testbit by lia.
  - rewrite Hi by lia. symmetry. apply u32_testbit_high; [apply u32_range|lia].
Qed.

Lemma one_bit_testbit j i :
  0 ≤ j < 32 → 0 ≤ i < 32 → Z.testbit (u32 (s32 (Z.shiftl 1 j))) i = bool_decide (i = j).
Proof.
  intros. rewrite u32_s32, u32_testbit by lia.
  rewrite Z.shiftl_1_l, Z.pow2_bits_eqb by lia.
  destruct (Z.eqb_spec j i); case_bool_decide; done || lia.
Qed.

Lemma mask_bit_testbit j i :
  0 ≤ j < 32 → 0 ≤ i < 32 →
  Z.testbit (u32 (Z.lnot (s32 (Z.shiftl 1 j)))) i = negb (bool_decide (i = j)).
Proof.
  intros. rewrite u32_testbit, Z.lnot_spec by lia.
  rewrite <- (one_bit_testbit j i) by lia. by rewrite u32_testbit by lia.
Qed.

Lemma lor_is_u32 a b : is_u32 a → is_u32 b → is_u32 (Z.lor a b).
Proof.
  intros Ha Hb. apply testbit_is_u32.
  - apply Z.lor_nonneg. kunfold. lia.
  - intros i Hi. by rewrite Z.lor_spec, !u32_testbit_high by done.
Qed.

Lemma land_is_u32 a b : is_u32 a → is_u32 b → is_u32 (Z.land a b).
Proof.
  intros Ha Hb. apply testbit_is_u32.
  - apply Z.land_nonneg. kunfold. lia.
  - intros i Hi. by rewrite Z.land_spec, !u32_testbit_high by done.
Qed.
#[export] Hint Resolve lor_is_u32 land_is_u32 : kudos.

(** Replacing one word changes only the bits of that word. *)
Lemma bit_insert_word bm i w p :
  0 ≤ p → 0 ≤ i < Z.of_nat (length bm) →
  bit (<[Z.to_nat i := w]> bm) p =
  if bool_decide (p / 32 = i) then Z.testbit w (p mod 32) else bit bm p.
Proof.
  intros Hp Hi. unfold bit. case_bool_decide.
  - subst. by rewrite list_lookup_insert_eq by lia.
  - rewrite list_lookup_insert_ne; [done|].
    pose proof (Z.div_pos p 32). lia.
Qed.

Lemma bit_word bm w p :
  bm !! Z.to_nat (p / 32) = Some w → bit bm p = Z.testbit w (p mod 32).
Proof. unfold bit. by intros ->. Qed.

(** ** Functional behaviour of the operations *)
Section bitmap_ops.
Context (bm : list Z) (l : Z) (Hok : bitmap_ok bm l).

Lemma bitmap_word_lookup p :
  0 ≤ p < 32 * Z.of_nat (length bm) →
  ∃ w, bm !! Z.to_nat (p / 32) = Some w ∧ aread bm (p / 32) = Done w ∧ is_u32 w.
Proof using Hok.
  intros Hp. pose proof (Z.div_pos p 32).
  destruct (aread_in_range bm (p / 32)) as (w & Hw & Hr).
  { split; [lia|]. apply Z.div_lt_upper_bound; lia. }
  exists w. split_and!; [done|done|]. destruct Hok as [Hall _].
  by eapply Forall_lookup_1.
Qed.

Lemma bitmap_get_spec p :
  0 ≤ p < 32 * Z.of_nat (length bm) →
  bitmap_get bm p = Done (Z.b2z (bit bm p)).
Proof using Hok.
  intros Hp. destruct (bitmap_word_lookup p Hp) as (w & Hw & Hr & Hu).
  unfold bitmap_get. rewrite kassert_true by lia. cbn [outcome_bind].
  rewrite Z.quot_div_nonneg, Z.rem_mod_nonneg, Hr by lia. cbn [outcome_bind].
  rewrite (bit_word _ _ _ Hw). f_equal.
  change 1 with (Z.ones 1). rewrite Z.land_ones by lia.
  rewrite <- Z.bit0_mod, Z.shiftr_spec by lia. done.
Qed.

(** Setting or clearing a bit changes that bit and no other. *)
Lemma bitmap_set_spec p v :
  0 ≤ p < 32 * Z.of_nat (length bm) → v = 0 ∨ v = 1 →
  ∃ bm', bitmap_set bm p v = Done bm' ∧ length bm' = length bm ∧ Forall is_u32 bm' ∧
    ∀ q, 0 ≤ q → bit bm' q = if bool_decide (q = p) then v =? 1 else bit bm q.
Proof using Hok.
  intros Hp Hv. destruct (bitmap_word_lookup p Hp) as (w & Hw & Hr & Hu).
  pose proof (Z.mod_pos_bound p 32) as Hm. pose proof (Z.div_pos p 32) as Hd.
  assert (Hi : 0 ≤ p / 32 < Z.of_nat (length bm))
    by (split; [lia|apply Z.div_lt_upper_bound; lia]).
  unfold bitmap_set. rewrite kassert_true by lia. cbn [outcome_bind].
  rewrite Z.quot_div_nonneg, Z.rem_mod_nonneg by lia.
  assert (Hsplit : ∀ q, 0 ≤ q → q / 32 = p / 32 → (q mod 32 = p mod 32 ↔ q = p)).
  { intros q Hq Hdiv. rewrite (Z.div_mod q 32), (Z.div_mod p 32) at 2 by lia.
    rewrite Hdiv. lia. }
  destruct Hok as [Hall _].
  destruct Hv as [-> | ->]; cbn [Z.eqb Pos.eqb]; rewrite Hr; cbn [outcome_bind];
    rewrite awrite_in_range by lia; eexists; (split; [done|]);
    (split; [by rewrite length_insert|]); (split; [apply Forall_insert; kauto|]);
    intros q Hq; rewrite bit_insert_word by lia;
    pose proof (Z.mod_pos_bound q 32); specialize (Hsplit q Hq);
    rewrite (bool_decide_ext (q = p) (q / 32 = p / 32 ∧ q mod 32 = p mod 32))
      by (split; [by intros ->|intros [? ?]; by apply Hsplit]);
    rewrite bool_decide_and; destruct (decide (q / 32 = p / 32)) as [E|E];
    [rewrite !(bool_decide_eq_true_2 (q / 32 = p / 32)) by done
    |by rewrite !(bool_decide_eq_false_2 (q / 32 = p / 32)) by done
    |rewrite !(bool_decide_eq_true_2 (q / 32 = p / 32)) by done
    |by rewrite !(bool_decide_eq_false_2 (q / 32 = p / 32)) by done];
    rewrite <- E in Hw; cbn [andb].
  - rewrite Z.land_spec, mask_bit_testbit, (bit_word _ _ _ Hw) by lia.
    case_bool_decide; simpl; by rewrite ?andb_true_r, ?andb_false_r.
  - rewrite Z.lor_spec, one_bit_testbit, (bit_word _ _ _ Hw) by lia.
    case_bool_decide; simpl; by rewrite ?orb_true_r, ?orb_false_r.
Qed.

(** A word all of whose bits are set is the constant the code compares with. *)
Lemma full_word_bits w : is_u32 w → w = 0xffffffff ↔ ∀ j, 0 ≤ j < 32 → Z.testbit w j = true.
Proof using.
  intros Hw. change 0xffffffff with (Z.ones 32). split.
  - intros -> j Hj. by apply Z.ones_spec_low.
  - intros Hall. apply Z.bits_inj'. intros n Hn. destruct (decide (n < 32)).
    + by rewrite Hall, Z.ones_spec_low by lia.
    + by rewrite u32_testbit_high, Z.ones_spec_high by (done || lia).
Qed.
End bitmap_ops.

(** What [bitmap_findnset] promises: the position it returns is the least clear
    one, only that bit changes, and the failure code means there is none. *)
Definition findnset_post (bm : list Z) (l : Z) (res : Z * list Z) : Prop :=
  let '(r, bm') := res in
  (r = -1 ∧ bm' = bm ∧ ∀ p, 0 ≤ p < l → bit bm p = true) ∨
  (0 ≤ r < l ∧ bit bm r = false ∧ (∀ p, 0 ≤ p < r → bit bm p = true) ∧
   length bm' = length bm ∧ Forall is_u32 bm' ∧
   ∀ p, 0 ≤ p → bit bm' p = if bool_decide (p = r) then true else bit bm p).

Lemma bitmap_sizeof_words l :
  0 ≤ l < 2 ^ 31 - 32 → bitmap_sizeof l `quot` 4 = (l + 31) / 32.
Proof.
  intros Hl. unfold bitmap_sizeof. rewrite s32_id by klia.
  rewrite Z.quot_mul by lia. by rewrite Z.quot_div_nonneg by lia.
Qed.

Lemma findnset_returns bm l :
  bitmap_ok bm l → returns (bitmap_findnset bm l) (findnset_post bm l).
Proof.
  intros Hok. pose proof Hok as (Hall & Hl & Hmax).
  unfold bitmap_findnset. rewrite kassert_true by lia. cbn [outcome_bind].
  rewrite bitmap_sizeof_words by lia. apply returns_bind.
  assert (Hwords : 0 ≤ (l + 31) / 32 ≤ Z.of_nat (length bm)).
  { split; [apply Z.div_pos; lia|]. apply Z.lt_succ_r, Z.div_lt_upper_bound; lia. }
  eapply returns_mono.
  - apply (for_loop_inv (λ i _, ∀ p, 0 ≤ p < 32 * i → bit bm p = true)
      (findnset_post bm l)); [lia|lia|].
    intros i [] Hi Hfull.
    destruct (bitmap_word_lookup bm l Hok (32 * i)) as (w & Hw & Hr & Hu); [lia|].
    rewrite (Z.mul_comm 32), Z.div_mul in Hw, Hr by lia. rewrite Hr. cbn [outcome_bind].
    assert (Hbit : ∀ j, 0 ≤ j < 32 → bit bm (i * 32 + j) = Z.testbit w j).
    { intros j Hj. assert ((i * 32 + j) / 32 = i) as Hq
        by (rewrite Z.div_add_l by lia; rewrite Z.div_small; lia).
      rewrite (bit_word _ w) by by rewrite Hq.
      f_equal. rewrite Z.add_comm, Z.mod_add, Z.mod_small; lia. }
    destruct (Z.eqb_spec w 0xffffffff) as [Hf|Hf]; cbn [negb].
    + simpl. intros p Hp. destruct (decide (p < 32 * i)); [apply Hfull; lia|].
      replace p with (i * 32 + (p - i * 32)) by lia. rewrite Hbit by lia.
      apply (proj1 (full_word_bits w Hu)); [done|lia].
    + eapply returns_mono; [apply (for_loop_inv
        (λ j _, ∀ p, 0 ≤ p < i * 32 + j → bit bm p = true) (findnset_post bm l));
        [lia|intros p Hp; apply Hfull; lia|]|].
      * intros j [] Hj Hset.
        rewrite (bitmap_get_spec bm l Hok) by lia. cbn [outcome_bind].
        destruct (bit bm (i * 32 + j)) eqn:Hb; cbn [Z.b2z Z.eqb].
        { simpl. intros p Hp. destruct (decide (p = i * 32 + j)) as [->|]; [done|].
          apply Hset. lia. }
        destruct (Z.leb_spec l (i * 32 + j)).
        { simpl. left. split_and!; [done|done|]. intros p Hp. apply Hset. lia. }
        destruct (bitmap_set_spec bm l Hok (i * 32 + j) 1) as (bm' & -> & ? & ? & ?);
          [lia|by right|].
        simpl. right. split_and!; try done || lia.
      * intros [[]|res]; [|done]. intros Hset. exfalso. apply Hf.
        apply (proj2 (full_word_bits w Hu)). intros j Hj. rewrite <- Hbit by lia.
        apply Hset. lia.
  - intros [[]|res]; [|done]. intros Hfull. simpl. left. split_and!; [done|done|].
    intros p Hp. apply Hfull. split; [lia|]. pose proof (Z.mul_div_le (l + 31) 32).
    pose proof (Z.mod_pos_bound (l + 31) 32). pose proof (Z.div_mod (l + 31) 32). lia.
Qed.

(** ** Counting bits *)
Lemma count_below_ext f g n :
  (∀ p, 0 ≤ p < Z.of_nat n → f p = g p) → count_below f n = count_below g n.
Proof.
  induction n as [|n IH]; intros Hfg; [done|]. cbn [count_below].
  rewrite Hfg by lia. rewrite IH; [done|]. intros p Hp. apply Hfg. lia.
Qed.

Lemma count_below_flip f g n r :
  0 ≤ r < Z.of_nat n → f r = true → g r = false →
  (∀ p, 0 ≤ p < Z.of_nat n → p ≠ r → f p = g p) →
  count_below f n = count_below g n + 1.
Proof.
  induction n as [|n IH]; intros Hr Hf Hg Hne; [lia|]. cbn [count_below].
  destruct (decide (r = Z.of_nat n)) as [->|].
  - rewrite Hf, Hg. rewrite (count_below_ext f g n); [lia|].
    intros p Hp. apply Hne; lia.
  - rewrite (Hne (Z.of_nat n)) by lia. rewrite IH; [lia|lia|done|done|].
    intros p Hp. apply Hne. lia.
Qed.

Lemma count_below_range f n : 0 ≤ count_below f n ≤ Z.of_nat n.
Proof. induction n as [|n IH]; cbn [count_below]; [lia|]. destruct (f _); lia. Qed.

Lemma count_below_pos f n : 0 < count_below f n → ∃ p, 0 ≤ p < Z.of_nat n ∧ f p = true.
Proof.
  induction n as [|n IH]; cbn [count_below]; [lia|]. intros Hpos.
  destruct (f (Z.of_nat n)) eqn:E; [exists (Z.of_nat n); split; [lia|done]|].
  destruct IH as (p & Hp & Hfp); [lia|]. exists p. split; [lia|done].
Qed.

Lemma count_below_zero f n : (∀ p, 0 ≤ p < Z.of_nat n → f p = false) → count_below f n = 0.
Proof.
  induction n as [|n IH]; intros Hf; [done|]. cbn [count_below].
  rewrite Hf by lia. rewrite IH; [done|]. intros p Hp. apply Hf. lia.
Qed.

(** Changing bit [r] from clear to set uses up exactly one free bit. *)
Lemma free_bits_set bm bm' l r :
  0 ≤ r < l → bit bm r = false →
  (∀ p, 0 ≤ p → bit bm' p = if bool_decide (p = r) then true else bit bm p) →
  free_bits bm l = free_bits bm' l + 1.
Proof.
  intros Hr Hb Hb'. unfold free_bits. apply (count_below_flip _ _ _ r).
  - lia.
  - by rewrite Hb.
  - rewrite Hb' by lia. by rewrite bool_decide_eq_true_2.
  - intros p Hp Hne. rewrite Hb' by lia. by rewrite bool_decide_eq_false_2.
Qed.

(** [bitmap_init] makes every one of the [size] bits clear. *)
Lemma bitmap_init_spec bm size :
  0 ≤ size < 2 ^ 31 - 32 → size ≤ 32 * Z.of_nat (length bm) →
  returns (bitmap_init bm size) (λ bm',
    length bm' = length bm ∧ (Forall is_u32 bm → Forall is_u32 bm') ∧
    ∀ p, 0 ≤ p < size → bit bm' p = false).
Proof.
  intros Hs Hlen. unfold bitmap_init. rewrite kassert_true by lia. cbn [outcome_bind].
  rewrite s32_id by klia. rewrite Z.quot_div_nonneg by lia.
  assert (Hn : 0 ≤ (size + 31) / 32 ≤ Z.of_nat (length bm)).
  { split; [apply Z.div_pos; lia|]. apply Z.lt_succ_r, Z.div_lt_upper_bound; lia. }
  eapply returns_mono; [apply (for_each_inv (λ i b, length b = length bm ∧
    (Forall is_u32 bm → Forall is_u32 b) ∧
    ∀ p, 0 ≤ p < 32 * i → bit b p = false)); [lia|split_and!; try done; lia|]|].
  - intros i b Hi (Hlb & Hu & Hz). rewrite awrite_in_range by lia. simpl.
    split_and!; [by rewrite length_insert| |].
    + intros Hbm. apply Forall_insert; [auto|]. kunfold. lia.
    + intros p Hp. rewrite bit_insert_word by lia. case_bool_decide.
      * apply Z.testbit_0_l.
      * apply Hz. split; [lia|]. assert (p / 32 < i + 1) by (apply Z.div_lt_upper_bound; lia).
        pose proof (Z.mod_pos_bound p 32). pose proof (Z.div_mod p 32). lia.
  - intros b (? & ? & Hz). split_and!; [done|done|]. intros p Hp. apply Hz.
    pose proof (Z.mod_pos_bound (size + 31) 32). pose proof (Z.div_mod (size + 31) 32). lia.
Qed.
