(* ===== verification/ByteMem.v ===== *)
(** * Memory as bytes

    Physical memory is a function from addresses to bytes. *)

From S2P Require Import Prelude.

(** [n] bytes of physical memory from [p] on, and memory with bytes written. *)
Definition mem_slice (p : Z) (n : nat) (mem : Z → Z) : list Z := (λ i, mem (p + Z.of_nat i)) <$> seq 0 n.
Fixpoint mem_write (p : Z) (bytes : list Z) (mem : Z → Z) : Z → Z :=
  match bytes with
  | [] => mem
  | b :: r => mem_write (p + 1) r (λ q, if q =? p then b else mem q)
  end.

Lemma length_mem_slice p n mem : length (mem_slice p n mem) = n.
Proof. unfold mem_slice. by rewrite length_fmap, length_seq. Qed.

Lemma mem_slice_S p n mem : mem_slice p (S n) mem = mem p :: mem_slice (p + 1) n mem.
Proof.
  unfold mem_slice. cbn [seq]. rewrite fmap_cons, Z.add_0_r. f_equal. rewrite <- fmap_S_seq, <- list_fmap_compose.
  apply list_fmap_ext. intros i x _. simpl. f_equal. lia.
Qed.

Lemma mem_write_lookup bytes : ∀ p mem q,
  mem_write p bytes mem q =
  if (p <=? q) && (q <? p + Z.of_nat (length bytes)) then default 0 (bytes !! Z.to_nat (q - p)) else mem q.
Proof.
  induction bytes as [|b r IH]; intros p mem q; cbn [mem_write length].
  - destruct (Z.leb_spec p q), (Z.ltb_spec q (p + Z.of_nat 0)); simpl; done || lia.
  - rewrite IH. destruct (Z.eqb_spec q p) as [->|Hne].
    + destruct (Z.leb_spec (p + 1) p), (Z.leb_spec p p), (Z.ltb_spec p (p + Z.of_nat (S (length r)))); simpl; try lia.
      by rewrite Z.sub_diag.
    + destruct (Z.leb_spec (p + 1) q), (Z.leb_spec p q), (Z.ltb_spec q (p + 1 + Z.of_nat (length r))),
        (Z.ltb_spec q (p + Z.of_nat (S (length r)))); simpl; try lia; try done.
      replace (Z.to_nat (q - p)) with (S (Z.to_nat (q - (p + 1)))) by lia. done.
Qed.

Lemma mem_slice_write bytes p mem : mem_slice p (length bytes) (mem_write p bytes mem) = bytes.
Proof.
  apply list_eq. intros i. unfold mem_slice. rewrite list_lookup_fmap. destruct (decide (i < length bytes)%nat) as [Hi|Hi].
  - rewrite lookup_seq_lt by done. simpl. rewrite mem_write_lookup.
    destruct (Z.leb_spec p (p + Z.of_nat i)), (Z.ltb_spec (p + Z.of_nat i) (p + Z.of_nat (length bytes)));
      try (exfalso; lia).
    cbn [andb]. replace (Z.to_nat (p + Z.of_nat i - p)) with i by lia.
    by destruct (lookup_lt_is_Some_2 bytes i Hi) as [b ->].
  - rewrite lookup_seq_ge by lia. simpl. symmetry. apply lookup_ge_None. lia.
Qed.
