(* ===== verification/Libc.v ===== *)
(** * Library routines (kudos/lib/libc.c)

    Strings and buffers are lists of bytes: a [char *] is the list of the bytes
    from the pointer to the end of the object it points into, so that reading
    or writing past the object is a [Fault].  The file also holds the two byte
    orders the kernel is compiled for ([SMALL_ENDIAN] on x86-64) and the native
    32-bit accesses the file-system code makes through casted pointers. *)

From S2P Require Import Prelude.

(** ** Strings *)

(** [stringcmp]: both pointers are read in every iteration. *)
Fixpoint stringcmp (str1 str2 : list Z) : outcome Z :=
  match str1, str2 with
  | c1 :: r1, c2 :: r2 =>
      if (c1 =? 0) && (c2 =? 0) then Done 0
      else if (c1 =? 0) || (c2 =? 0) || negb (c1 =? c2) then Done (s8 c1 - s8 c2)
      else stringcmp r1 r2
  | _, _ => Fault
  end.

(** [stringcopy]: [k] is how far [target] and [source] have been advanced. The
    inner loop stores its zeros through the pointer it does not advance. *)
Definition stringcopy (target source : list Z) (buflen : Z) : outcome (list Z) :=
  let* r :=
    for_loop 0 (buflen - 1) (λ i '(tgt, k),
      let* c := aread source k in
      let* tgt' := awrite tgt k c in
      if c =? 0 then
        let* tgt'' := for_each (i + 1) buflen (λ _ t, awrite t k 0) tgt' in
        Done (inr tgt'')
      else Done (inl (tgt', k + 1))) (target, 0) in
  match r with
  | inr tgt => Done tgt
  | inl (tgt, k) => awrite tgt k 0
  end.

(** [strlen]: counts up to the terminating zero. *)
Fixpoint strlen (str : list Z) : outcome Z :=
  match str with
  | [] => Fault
  | c :: r => if c =? 0 then Done 0 else let* l := strlen r in Done (s32 (l + 1))
  end.

(** ** Memory blocks *)

(** One word copied through [uint32_t *] pointers that have advanced [k] bytes. *)
Definition copy_word (target source : list Z) (k : Z) : outcome (list Z) :=
  for_each 0 4 (λ b t, let* c := aread source (k + b) in awrite t (k + b) c) target.

(** [memcopy]: [taddr] and [saddr] are the addresses of the two buffers, whose
    alignment selects the byte loop or the word loop. *)
Definition memcopy (buflen : Z) (taddr : Z) (target : list Z) (saddr : Z) (source : list Z)
    : outcome (list Z) :=
  if negb (taddr mod 4 =? 0) || negb (saddr mod 4 =? 0) then
    for_each 0 buflen (λ i t, let* c := aread source i in awrite t i c) target
  else
    let* target' := for_each 0 (buflen `quot` 4)
      (λ i t, copy_word t source (4 * i)) target in
    let base := 4 * Z.max 0 (buflen `quot` 4) in
    for_each 0 (buflen `rem` 4)
      (λ i t, let* c := aread source (base + i) in awrite t (base + i) c) target'.

Definition memoryset (target : list Z) (value size : Z) : outcome (list Z) :=
  for_each 0 size (λ i t, awrite t i (u8 value)) target.

(** ** Numbers in strings *)
Definition is_space (c : Z) : bool :=
  (c =? 32) || (c =? 9) || (c =? 13) || (c =? 10).

(** The first loop of [atoi]: skip leading white space. *)
Fixpoint atoi_skip (s : list Z) : outcome (list Z) :=
  match s with
  | [] => Fault
  | c :: r => if negb (c =? 0) && is_space c then atoi_skip r else Done s
  end.

(** The second loop of [atoi]: accumulate digits. *)
Fixpoint atoi_digits (sign value : Z) (s : list Z) : outcome Z :=
  match s with
  | [] => Fault
  | c :: r =>
      if (48 <=? s8 c) && (s8 c <=? 57)
      then atoi_digits sign (s32 (10 * value + sign * (s8 c - 48))) r
      else Done value
  end.

Definition atoi (s : list Z) : outcome Z :=
  let* s1 := atoi_skip s in
  match s1 with
  | [] => Fault
  | c :: r =>
      if c =? 0 then Done 0
      else if c =? 45 then atoi_digits (-1) 0 r
      else if c =? 43 then atoi_digits 1 0 r
      else atoi_digits 1 0 s1
  end.

(** ** Byte order *)
Inductive endian := Big | Little.

(** Least-significant-first bytes of a number, and back. *)
Fixpoint le_bytes (n : nat) (z : Z) : list Z :=
  match n with O => [] | S n' => z mod 2 ^ 8 :: le_bytes n' (z / 2 ^ 8) end.

Fixpoint le_num (bs : list Z) : Z :=
  match bs with [] => 0 | b :: r => b + 2 ^ 8 * le_num r end.

(** The object representation of a [uint32_t] on the two machines. *)
Definition bytes_of_u32 (en : endian) (z : Z) : list Z :=
  match en with Little => le_bytes 4 z | Big => reverse (le_bytes 4 z) end.

Definition u32_of_bytes (en : endian) (bs : list Z) : Z :=
  match en with Little => le_num bs | Big => le_num (reverse bs) end.

(** Native load and store of a [uint32_t] at a byte offset. *)
Definition load32 (en : endian) (buf : list Z) (off : Z) : outcome Z :=
  if (0 <=? off) && (off + 4 <=? Z.of_nat (length buf))
  then Done (u32_of_bytes en (take 4 (drop (Z.to_nat off) buf))) else Fault.

Definition store32 (en : endian) (buf : list Z) (off v : Z) : outcome (list Z) :=
  if (0 <=? off) && (off + 4 <=? Z.of_nat (length buf))
  then Done (take (Z.to_nat off) buf ++ bytes_of_u32 en v ++ drop (Z.to_nat off + 4) buf)
  else Fault.

Definition swap16 (in_ : Z) : Z :=
  u16 (Z.lor (Z.shiftl (Z.land in_ 0xFF) 8) (Z.shiftr (Z.land in_ 0xFF00) 8)).

(** [swap32] copies the four bytes of [in] to [out] in reverse order. *)
Definition swap32 (in_ : Z) : Z := le_num (reverse (le_bytes 4 in_)).

Definition from_big_endian16 (en : endian) (in_ : Z) : Z :=
  match en with Little => swap16 in_ | Big => in_ end.
Definition from_big_endian32 (en : endian) (in_ : Z) : Z :=
  match en with Little => swap32 in_ | Big => in_ end.
Definition to_big_endian16 (en : endian) (in_ : Z) : Z :=
  match en with Little => u16 (swap32 in_) | Big => in_ end.
Definition to_big_endian32 (en : endian) (in_ : Z) : Z :=
  match en with Little => swap32 in_ | Big => in_ end.

Definition wordpad (in_ : Z) : Z :=
  if negb (in_ mod 4 =? 0) then u32 (in_ + (4 - in_ mod 4)) else in_.

(** ** C strings as contents *)

(** [cstr mem s]: the memory [mem] starts with the zero-terminated string [s]. *)
Definition cstr (mem s : list Z) : Prop :=
  0 ∉ s ∧ ∃ rest, mem = s ++ 0 :: rest.

(** ** Lemmas: strings *)
Lemma cstr_nil rest : cstr (0 :: rest) [].
Proof. split; [apply not_elem_of_nil|by exists rest]. Qed.

Lemma cstr_cons c mem s : c ≠ 0 → cstr mem s → cstr (c :: mem) (c :: s).
Proof.
  intros Hc [Hs [rest ->]]. split; [|by exists rest].
  rewrite elem_of_cons. naive_solver.
Qed.

Lemma cstr_uncons c mem s :
  cstr (c :: mem) s → (c = 0 ∧ s = []) ∨ (c ≠ 0 ∧ ∃ s', s = c :: s' ∧ cstr mem s').
Proof.
  intros [Hs [rest E]]. destruct s as [|c' s']; simplify_eq/=; [by left|].
  apply not_elem_of_cons in Hs as [? ?]. right. split; [done|].
  exists s'. split; [done|]. split; [done|by exists rest].
Qed.

Lemma cstr_not_nil s : ¬ cstr [] s.
Proof. intros [_ [rest E]]. by destruct s. Qed.

Lemma cstr_inj mem s1 s2 : cstr mem s1 → cstr mem s2 → s1 = s2.
Proof.
  revert s1 s2. induction mem as [|c mem IH]; intros s1 s2 H1 H2;
    [by apply cstr_not_nil in H1|].
  apply cstr_uncons in H1 as [[? ->]|(? & s1' & -> & ?)];
  apply cstr_uncons in H2 as [[? ->]|(? & s2' & -> & ?)]; try done.
  f_equal. by apply IH.
Qed.

(** [stringcmp] decides equality of strings: it returns, and its result is zero
    exactly for equal strings. *)
Lemma stringcmp_eq mem1 mem2 s1 s2 :
  cstr mem1 s1 → cstr mem2 s2 → Forall is_u8 s1 → Forall is_u8 s2 →
  returns (stringcmp mem1 mem2) (λ r, r = 0 ↔ s1 = s2).
Proof.
  revert mem2 s1 s2. induction mem1 as [|c1 mem1 IH]; intros mem2 s1 s2 H1 H2 Hu1 Hu2;
    [by apply cstr_not_nil in H1|].
  destruct mem2 as [|c2 mem2]; [by apply cstr_not_nil in H2|]. simpl.
  assert (Hs8 : ∀ a b, is_u8 a → is_u8 b → a ≠ b → s8 a - s8 b = 0 ↔ False).
  { intros a b Ha Hb Hne. split; [|done]. intros E. apply Hne, s8_inj; [done..|lia]. }
  assert (H0 : is_u8 0) by (kunfold; lia).
  destruct (cstr_uncons _ _ _ H1) as [[-> ->]|(Hn1 & s1' & -> & H1')];
  destruct (cstr_uncons _ _ _ H2) as [[-> ->]|(Hn2 & s2' & -> & H2')]; simpl.
  - done.
  - apply Forall_cons_1 in Hu2 as [Hc2 _].
    destruct (Z.eqb_spec c2 0); [done|]. simpl. rewrite (Hs8 0 c2); done.
  - apply Forall_cons_1 in Hu1 as [Hc1 _].
    destruct (Z.eqb_spec c1 0); [done|]. simpl. rewrite (Hs8 c1 0); done.
  - apply Forall_cons_1 in Hu1 as [Hc1 Hu1], Hu2 as [Hc2 Hu2].
    destruct (Z.eqb_spec c1 0), (Z.eqb_spec c2 0); try done.
    destruct (Z.eqb_spec c1 c2) as [->|Hne]; simpl.
    + eapply returns_mono; [exact (IH mem2 s1' s2' H1' H2' Hu1 Hu2)|].
      intros r Hr. naive_solver.
    + rewrite (Hs8 c1 c2) by done. naive_solver.
Qed.

Lemma cstr_lookup mem s i : cstr mem s → (i < length s)%nat → mem !! i = s !! i.
Proof. intros [_ [rest ->]] Hi. by rewrite lookup_app_l. Qed.

Lemma cstr_lookup_end mem s : cstr mem s → mem !! length s = Some 0.
Proof. intros [_ [rest ->]]. by rewrite list_lookup_middle. Qed.

Lemma cstr_length mem s : cstr mem s → (length s < length mem)%nat.
Proof. intros [_ [rest ->]]. rewrite length_app. simpl. lia. Qed.

Lemma cstr_elem_ne mem s i c : cstr mem s → s !! i = Some c → c ≠ 0.
Proof. intros [Hs _] Hc ->. apply Hs. by eapply list_elem_of_lookup_2. Qed.

(** What a copied string leaves in the target: at most [buflen - 1] characters,
    a terminating zero and then what the target held before. *)
Definition stringcopy_result (target s : list Z) (buflen : Z) : list Z :=
  let s' := take (Z.to_nat (buflen - 1)) s in
  s' ++ 0 :: drop (length s' + 1) target.

Lemma repeated_zero_store (t : list Z) (k : Z) lo hi :
  lo ≤ hi → 0 ≤ k < Z.of_nat (length t) → t !! Z.to_nat k = Some 0 →
  for_each lo hi (λ _ t', awrite t' k 0) t = Done t.
Proof.
  intros Hlo Hk Ht.
  destruct (returns_inv (for_each lo hi (λ _ t', awrite t' k 0) t) (λ t', t' = t))
    as (t' & -> & ->); [|done].
  apply (for_each_inv (λ _ t', t' = t)); [done|done|].
  intros j t' Hj ->. rewrite awrite_in_range by done. simpl. by rewrite list_insert_id.
Qed.

Lemma stringcopy_spec target source s buflen :
  cstr source s → 1 ≤ buflen ≤ Z.of_nat (length target) →
  stringcopy target source buflen = Done (stringcopy_result target s buflen).
Proof.
  intros Hs Hb. unfold stringcopy.
  match goal with |- context [for_loop 0 _ ?body _] => set (f := body) end.
  destruct (returns_inv (for_loop 0 (buflen - 1) f (target, 0)) (λ r, match r with
    | inl (t, k) => k = buflen - 1 ∧ k ≤ Z.of_nat (length s) ∧
        t = take (Z.to_nat k) s ++ drop (Z.to_nat k) target
    | inr t => t = stringcopy_result target s buflen end)) as (r & -> & Hr).
  - apply (for_loop_inv (λ i '(t, k), k = i ∧ k ≤ Z.of_nat (length s) ∧
        t = take (Z.to_nat k) s ++ drop (Z.to_nat k) target)); [lia|naive_solver lia|].
    intros i [t k] Hi (-> & Hle & ->). unfold f.
    assert (Hlen : length (take (Z.to_nat i) s ++ drop (Z.to_nat i) target) = length target)
      by (rewrite length_app, length_take, length_drop; lia).
    destruct (decide (i = Z.of_nat (length s))) as [Hend|].
    + pose proof (cstr_lookup_end _ _ Hs) as He.
      rewrite (aread_Some _ _ 0); [|lia|by rewrite Hend, Nat2Z.id].
      cbn [outcome_bind Z.eqb]. rewrite awrite_in_range by (rewrite Hlen; lia).
      cbn [outcome_bind]. rewrite repeated_zero_store; [|lia| |].
      * simpl. unfold stringcopy_result. rewrite (take_ge s (Z.to_nat (buflen - 1))) by lia.
        rewrite (take_ge s) by lia. rewrite insert_app_r_alt by lia.
        replace (Z.to_nat i - length s)%nat with 0%nat by lia.
        destruct (lookup_lt_is_Some_2 target (Z.to_nat i)) as [d Hd]; [lia|].
        rewrite (drop_S _ _ _ Hd). simpl. do 3 f_equal. lia.
      * rewrite length_insert, Hlen. lia.
      * rewrite list_lookup_insert_eq; [done|]. rewrite Hlen. lia.
    + destruct (lookup_lt_is_Some_2 s (Z.to_nat i)) as [c Hc]; [lia|].
      rewrite (aread_Some _ _ c); [|lia|by rewrite (cstr_lookup _ s) by (done || lia)].
      cbn [outcome_bind]. rewrite awrite_in_range by (rewrite Hlen; lia).
      cbn [outcome_bind]. pose proof (cstr_elem_ne _ _ _ _ Hs Hc).
      destruct (Z.eqb_spec c 0); [done|]. simpl.
      rewrite overwrite_step by (done || lia).
      split_and!; [done|lia|]. by replace (Z.to_nat (i + 1)) with (S (Z.to_nat i)) by lia.
  - cbn [outcome_bind]. destruct r as [[t k]|t]; [|by subst].
    destruct Hr as (-> & Hle & ->).
    rewrite awrite_in_range by (rewrite length_app, length_take, length_drop; lia).
    unfold stringcopy_result. f_equal.
    destruct (lookup_lt_is_Some_2 target (Z.to_nat (buflen - 1))) as [d Hd]; [lia|].
    rewrite insert_app_r_alt by (rewrite length_take; lia).
    rewrite length_take, Nat.min_l, Nat.sub_diag by lia.
    rewrite (drop_S _ _ _ Hd). simpl. do 2 f_equal. rewrite Nat.add_1_r. done.
Qed.

Lemma strlen_spec mem s :
  cstr mem s → Z.of_nat (length s) < 2 ^ 31 → strlen mem = Done (Z.of_nat (length s)).
Proof.
  revert s. induction mem as [|c mem IH]; intros s Hs Hl; [by apply cstr_not_nil in Hs|].
  simpl. destruct (cstr_uncons _ _ _ Hs) as [[-> ->]|(Hc & s' & -> & Hs')]; [done|].
  destruct (Z.eqb_spec c 0); [done|]. simpl in Hl. rewrite (IH s') by (done || lia).
  simpl. rewrite s32_id by klia. f_equal. lia.
Qed.

(** ** Lemmas: memory blocks *)

(** The word loop and the byte loop of [memcopy] compute the same result, which
    is the copy of the first [buflen] bytes. *)
Lemma memcopy_spec buflen taddr target saddr source :
  0 ≤ buflen ≤ Z.of_nat (length source) → buflen ≤ Z.of_nat (length target) →
  memcopy buflen taddr target saddr source = Done (overwrite source target buflen).
Proof.
  intros Hs Ht. unfold memcopy.
  destruct (negb (taddr mod 4 =? 0) || negb (saddr mod 4 =? 0)); [by apply copy_loop|].
  rewrite Z.quot_div_nonneg, Z.rem_mod_nonneg by lia.
  pose proof (Z.div_pos buflen 4). pose proof (Z.mod_pos_bound buflen 4).
  pose proof (Z.div_mod buflen 4). rewrite Z.max_r by lia.
  match goal with |- context [for_each 0 (buflen / 4) ?f target] =>
    assert (Hw : for_each 0 (buflen / 4) f target
                 = Done (overwrite source target (4 * (buflen / 4)))) end.
  { match goal with |- ?m = _ => destruct (returns_inv m
      (λ t, t = overwrite source target (4 * (buflen / 4)))) as (t & -> & ->); [|done] end.
    apply (for_each_inv (λ i t, t = overwrite source target (4 * i))); [lia|done|].
    intros i t Hi ->. unfold copy_word. rewrite copy_loop_from by lia. simpl. f_equal. lia. }
  rewrite Hw. cbn [outcome_bind]. rewrite copy_loop_from by lia. do 2 f_equal. lia.
Qed.

Lemma memoryset_spec target value size :
  0 ≤ size ≤ Z.of_nat (length target) →
  memoryset target value size =
  Done (replicate (Z.to_nat size) (u8 value) ++ drop (Z.to_nat size) target).
Proof.
  intros Hs. unfold memoryset.
  assert (E : for_each 0 size (λ i t, awrite t i (u8 value)) target =
    Done (overwrite (replicate (Z.to_nat size) (u8 value)) target size)).
  { match goal with |- ?m = Done ?t0 => destruct (returns_inv m (λ t, t = t0))
      as (t & -> & ->); [|done] end.
    apply (for_each_inv (λ i t, t = overwrite (replicate (Z.to_nat size) (u8 value)) target i));
      [lia|done|].
    intros i t Hi ->.
    rewrite awrite_in_range by (rewrite length_overwrite by (rewrite ?length_replicate; lia); lia).
    simpl. apply overwrite_next; [lia|]. apply lookup_replicate_2. lia. }
  rewrite E. unfold overwrite. by rewrite take_ge by (rewrite length_replicate; lia).
Qed.

(** The bytewise copying loops. *)
Lemma copy_loop_spec (target source : list Z) n :
  (n ≤ length source)%nat → (n ≤ length target)%nat →
  for_each 0 (Z.of_nat n) (λ i t, let* c := aread source i in awrite t i c) target =
  Done (take n source ++ drop n target).
Proof.
  intros Hs Ht.
  assert (Hr : returns (for_each 0 (Z.of_nat n) (λ i t, let* c := aread source i in awrite t i c) target)
    (λ t, t = take (Z.to_nat (Z.of_nat n)) source ++ drop (Z.to_nat (Z.of_nat n)) target)).
  { apply (for_each_inv (λ i t, t = take (Z.to_nat i) source ++ drop (Z.to_nat i) target)); [lia|done|].
    intros j t Hj ->. destruct (aread_in_range source j) as (c & Hc & ->); [lia|]. cbn [outcome_bind].
    destruct (lookup_lt_is_Some_2 target (Z.to_nat j)) as [x Hx]; [lia|].
    rewrite (drop_S _ _ _ Hx). rewrite (awrite_middle _ _ x) by (rewrite length_take; lia). cbn [returns].
    replace (Z.to_nat (j + 1)) with (S (Z.to_nat j)) by lia.
    by rewrite (take_S_r _ _ _ Hc), <- (assoc_L (++)). }
  destruct (for_each _ _ _ _); try done. simpl in Hr. by rewrite Hr, Nat2Z.id.
Qed.

(** ** Lemmas: byte order *)
Lemma length_le_bytes n z : length (le_bytes n z) = n.
Proof. revert z. induction n as [|n IH]; intros z; simpl; [done|by rewrite IH]. Qed.

Lemma le_bytes_u8 n z : Forall is_u8 (le_bytes n z).
Proof.
  revert z. induction n as [|n IH]; intros z; simpl; [constructor|].
  constructor; [|apply IH]. apply u8_range.
Qed.

Lemma le_num_bytes n z : le_num (le_bytes n z) = z mod 2 ^ (8 * Z.of_nat n).
Proof.
  revert z. induction n as [|n IH]; intros z; [by rewrite Z.mod_1_r|].
  cbn [le_bytes le_num]. rewrite IH.
  replace (8 * Z.of_nat (S n)) with (8 + 8 * Z.of_nat n) by lia.
  rewrite Z.pow_add_r, Z.rem_mul_r; lia.
Qed.

Lemma le_bytes_num bs n : Forall is_u8 bs → length bs = n → le_bytes n (le_num bs) = bs.
Proof.
  intros Hbs <-. induction Hbs as [|b bs Hb Hbs IH]; [done|]. cbn [length le_bytes le_num].
  kunfold. f_equal.
  - rewrite Z.mul_comm, Z.mod_add, Z.mod_small by lia. done.
  - rewrite Z.mul_comm, Z.div_add, Z.div_small by lia. by rewrite Z.add_0_l.
Qed.

Lemma le_num_range bs : Forall is_u8 bs → 0 ≤ le_num bs < 2 ^ (8 * Z.of_nat (length bs)).
Proof.
  induction 1 as [|b bs Hb Hbs IH]; simpl length; cbn [le_num]; [lia|].
  replace (8 * Z.of_nat (S (length bs))) with (8 + 8 * Z.of_nat (length bs)) by lia.
  rewrite Z.pow_add_r by lia. kunfold. nia.
Qed.

Lemma u32_bytes_roundtrip en z : is_u32 z → u32_of_bytes en (bytes_of_u32 en z) = z.
Proof.
  intros Hz. destruct en; unfold u32_of_bytes, bytes_of_u32;
    rewrite ?reverse_involutive, le_num_bytes; by apply Z.mod_small.
Qed.

Lemma length_bytes_of_u32 en z : length (bytes_of_u32 en z) = 4%nat.
Proof. destruct en; simpl; by rewrite ?length_reverse. Qed.

Lemma bytes_of_u32_u8 en z : Forall is_u8 (bytes_of_u32 en z).
Proof.
  destruct en; unfold bytes_of_u32; [apply Forall_reverse|]; apply le_bytes_u8.
Qed.

Lemma u32_of_bytes_range en bs : Forall is_u8 bs → length bs = 4%nat → is_u32 (u32_of_bytes en bs).
Proof.
  intros Hbs Hl. unfold is_u32. destruct en; simpl.
  - pose proof (le_num_range (reverse bs)) as H. rewrite length_reverse, Hl in H.
    apply H. by apply Forall_reverse.
  - pose proof (le_num_range bs Hbs) as H. by rewrite Hl in H.
Qed.
#[export] Hint Resolve bytes_of_u32_u8 le_bytes_u8 : kudos.
#[export] Hint Rewrite length_bytes_of_u32 length_le_bytes : kudos_len.

(** Reading a big-endian field through [from_big_endian32] gives the same number
    on both machines: the most-significant-first value of its bytes. *)
Lemma from_big_endian32_native en bs :
  Forall is_u8 bs → length bs = 4%nat →
  from_big_endian32 en (u32_of_bytes en bs) = u32_of_bytes Big bs.
Proof.
  intros Hbs Hl. destruct en; [done|]. simpl. unfold swap32.
  by rewrite le_bytes_num.
Qed.

Lemma swap32_involutive z : is_u32 z → swap32 (swap32 z) = z.
Proof.
  intros Hz. unfold swap32. rewrite le_bytes_num.
  - rewrite reverse_involutive, le_num_bytes. by apply Z.mod_small.
  - apply Forall_reverse, le_bytes_u8.
  - by rewrite length_reverse, length_le_bytes.
Qed.

Lemma swap32_range z : is_u32 (swap32 z).
Proof.
  apply (u32_of_bytes_range Little); [apply Forall_reverse, le_bytes_u8|].
  by rewrite length_reverse, length_le_bytes.
Qed.

Lemma from_big_endian32_range en z : is_u32 z → is_u32 (from_big_endian32 en z).
Proof. destruct en; [done|]. intros _. apply swap32_range. Qed.

Lemma from_big_endian32_involutive en z :
  is_u32 z → from_big_endian32 en (from_big_endian32 en z) = z.
Proof. destruct en; [done|]. apply swap32_involutive. Qed.

(** On the little-endian build [to_big_endian16] uses the 32-bit swap and loses
    its argument. *)
Lemma to_big_endian16_little_zero z : 0 ≤ z < 2 ^ 16 → to_big_endian16 Little z = 0.
Proof.
  intros Hz. unfold to_big_endian16, swap32, u16, le_bytes.
  change (2 ^ 8) with 256. rewrite reverse_cons. simpl.
  rewrite (Z.div_small (z / 256 / 256)), (Z.div_small (z/256)) by
    (try rewrite Z.div_div by lia; try split; try (apply Z.div_pos; lia);
     try apply Z.div_lt_upper_bound; lia).
  replace (0 mod 256) with 0 by done.
  rewrite !Z.add_0_l. cbn [le_num].
  match goal with |- ?x mod _ = 0 => replace x with
    ((z / 256 mod 256 + 256 * (z mod 256)) * 2 ^ 16) by lia end.
  by apply Z.mod_mul.
Qed.

Lemma wordpad_spec z :
  0 ≤ z ≤ 2 ^ 32 - 4 → wordpad z mod 4 = 0 ∧ z ≤ wordpad z < z + 4.
Proof.
  intros Hz. unfold wordpad. pose proof (Z.mod_pos_bound z 4). pose proof (Z.div_mod z 4).
  destruct (Z.eqb_spec (z mod 4) 0); simpl; [lia|].
  assert (z / 4 < 2 ^ 30 - 1 ∨ z / 4 = 2 ^ 30 - 1) as [|] by
    (assert (z / 4 < 2 ^ 30) by (apply Z.div_lt_upper_bound; lia); lia); [|lia].
  rewrite u32_id by klia. split; [|lia].
  replace (z + (4 - z mod 4)) with ((z / 4 + 1) * 4) by lia. by apply Z.mod_mul.
Qed.

(** ** Lemmas: native loads and stores *)
Lemma load32_in_range en buf off :
  0 ≤ off → off + 4 ≤ Z.of_nat (length buf) →
  load32 en buf off = Done (u32_of_bytes en (take 4 (drop (Z.to_nat off) buf))).
Proof.
  intros. unfold load32.
  destruct (Z.leb_spec 0 off), (Z.leb_spec (off + 4) (Z.of_nat (length buf))); done || lia.
Qed.

Lemma store32_in_range en buf off v :
  0 ≤ off → off + 4 ≤ Z.of_nat (length buf) →
  store32 en buf off v =
  Done (take (Z.to_nat off) buf ++ bytes_of_u32 en v ++ drop (Z.to_nat off + 4) buf).
Proof.
  intros. unfold store32.
  destruct (Z.leb_spec 0 off), (Z.leb_spec (off + 4) (Z.of_nat (length buf))); done || lia.
Qed.

Lemma store32_length en buf off v buf' :
  store32 en buf off v = Done buf' → length buf' = length buf.
Proof.
  unfold store32.
  destruct (Z.leb_spec 0 off), (Z.leb_spec (off + 4) (Z.of_nat (length buf)));
    simpl; intros; simplify_eq.
  rewrite !length_app, length_take, length_drop, length_bytes_of_u32. lia.
Qed.

Lemma store32_u8 en buf off v buf' :
  store32 en buf off v = Done buf' → Forall is_u8 buf → Forall is_u8 buf'.
Proof.
  unfold store32. destruct ((0 <=? off) && (off + 4 <=? Z.of_nat (length buf)));
    intros; simplify_eq.
  rewrite !Forall_app. eauto using Forall_take, Forall_drop, bytes_of_u32_u8.
Qed.

(** Bytes outside the stored word are unchanged. *)
Lemma store32_lookup_other en buf off v buf' i :
  store32 en buf off v = Done buf' →
  (Z.of_nat i < off ∨ off + 4 ≤ Z.of_nat i) → buf' !! i = buf !! i.
Proof.
  unfold store32.
  destruct (Z.leb_spec 0 off), (Z.leb_spec (off + 4) (Z.of_nat (length buf)));
    simpl; intros Hst [Hi|Hi]; simplify_eq.
  - rewrite lookup_app_l by (rewrite length_take; lia). by rewrite lookup_take_lt by lia.
  - rewrite lookup_app_r by (rewrite length_take; lia).
    rewrite lookup_app_r by (rewrite length_bytes_of_u32, length_take; lia).
    rewrite lookup_drop, length_bytes_of_u32, length_take. f_equal. lia.
Qed.

Lemma store32_slice_same en buf off v buf' :
  store32 en buf off v = Done buf' →
  take 4 (drop (Z.to_nat off) buf') = bytes_of_u32 en v.
Proof.
  unfold store32.
  destruct (Z.leb_spec 0 off), (Z.leb_spec (off + 4) (Z.of_nat (length buf)));
    simpl; intros; simplify_eq.
  rewrite drop_app_length' by (rewrite length_take; lia).
  by rewrite take_app_length' by (by rewrite length_bytes_of_u32).
Qed.

Lemma load_store32_same en buf off v buf' :
  is_u32 v → store32 en buf off v = Done buf' → load32 en buf' off = Done v.
Proof.
  intros Hv Hst. pose proof (store32_length _ _ _ _ _ Hst) as Hl.
  pose proof (store32_slice_same _ _ _ _ _ Hst) as Hs. revert Hst. unfold store32, load32.
  rewrite Hl.
  destruct (Z.leb_spec 0 off), (Z.leb_spec (off + 4) (Z.of_nat (length buf)));
    simpl; intros; simplify_eq.
  rewrite Hs. by rewrite u32_bytes_roundtrip.
Qed.

Lemma slice_ext (l l' : list Z) (i n : nat) :
  (∀ j, (i ≤ j < i + n)%nat → l !! j = l' !! j) →
  take n (drop i l) = take n (drop i l').
Proof.
  intros Hj. apply list_eq. intros k. destruct (decide (k < n)%nat).
  - rewrite !lookup_take_lt, !lookup_drop by lia. apply Hj. lia.
  - by rewrite !lookup_take_ge by lia.
Qed.

Lemma load_store32_other en buf off v buf' off' :
  store32 en buf off v = Done buf' → 0 ≤ off' →
  off' + 4 ≤ off ∨ off + 4 ≤ off' →
  load32 en buf' off' = load32 en buf off'.
Proof.
  intros Hst H0 Hd. unfold load32. rewrite (store32_length _ _ _ _ _ Hst).
  destruct ((0 <=? off') && (off' + 4 <=? Z.of_nat (length buf))); [|done].
  do 2 f_equal. apply slice_ext. intros j Hj. eapply store32_lookup_other; [done|lia].
Qed.

(** ** Lemmas: [atoi] *)

(** The number a list of decimal digits denotes, most significant first. *)
Definition digits_value (ds : list Z) : Z :=
  fold_left (λ v c, 10 * v + (c - 48)) ds 0.

Definition is_digit (c : Z) : Prop := 48 ≤ c ≤ 57.

Lemma digits_fold_mono ds v :
  Forall is_digit ds → 0 ≤ v → v ≤ fold_left (λ v c, 10 * v + (c - 48)) ds v.
Proof.
  intros Hds. revert v. induction Hds as [|d ds Hd Hds IH]; intros v Hv; simpl; [lia|].
  unfold is_digit in Hd. etrans; [|apply IH; lia]. lia.
Qed.

Lemma atoi_digits_acc sign ds c rest v :
  (sign = 1 ∨ sign = -1) → Forall is_digit ds → is_u8 c → ¬ is_digit c → 0 ≤ v →
  fold_left (λ v c, 10 * v + (c - 48)) ds v < 2 ^ 31 →
  atoi_digits sign (sign * v) (ds ++ c :: rest) =
  Done (sign * fold_left (λ v c, 10 * v + (c - 48)) ds v).
Proof.
  intros Hsign Hds Hc Hnd. revert v. induction Hds as [|d ds Hd Hds IH]; intros v Hv Hb; simpl.
  - rewrite s8_spec by done. unfold is_digit in *. kunfold.
    destruct (Z.ltb_spec c 128); destruct (Z.leb_spec 48 c), (Z.leb_spec c 57);
      destruct (Z.leb_spec 48 (c - 256)); simpl; done || lia.
  - pose proof Hd as Hd'. unfold is_digit in Hd'.
    rewrite s8_spec by klia. destruct (Z.ltb_spec d 128); [|lia].
    destruct (Z.leb_spec 48 d), (Z.leb_spec d 57); try lia. simpl in Hb |- *.
    pose proof (digits_fold_mono ds (10 * v + (d - 48)) Hds ltac:(lia)).
    rewrite s32_id by (destruct Hsign as [-> | ->]; klia).
    rewrite <- IH by lia. f_equal. lia.
Qed.

(** [atoi] on white space, an optional sign and digits that fit an [int]. *)
Lemma atoi_spec ws sg ds c rest :
  Forall (λ w, is_space w = true) ws →
  sg = [] ∨ sg = [45] ∨ sg = [43] →
  Forall is_digit ds → ds ≠ [] → is_u8 c → ¬ is_digit c →
  digits_value ds < 2 ^ 31 →
  atoi (ws ++ sg ++ ds ++ c :: rest) =
  Done ((if bool_decide (sg = [45]) then -1 else 1) * digits_value ds).
Proof.
  intros Hws Hsg Hds Hne Hc Hnd Hb.
  destruct ds as [|d ds']; [done|]. pose proof (Forall_inv Hds) as Hd. unfold is_digit in Hd.
  assert (Hskip : ∀ s, (∃ x s', s = x :: s' ∧ is_space x = false) →
    atoi_skip (ws ++ s) = Done s).
  { intros s (x & s' & -> & Hx). clear -Hws Hx. induction Hws as [|w ws Hw Hws IH]; simpl.
    - by rewrite Hx, andb_false_r.
    - rewrite Hw. destruct (Z.eqb_spec w 0); [by subst|]. done. }
  assert (Hns : ∀ x, 43 ≤ x ≤ 57 → is_space x = false)
    by (intros x Hx; unfold is_space; repeat kcase; done || lia).
  unfold atoi, digits_value in *. rewrite Hskip.
  - cbn [outcome_bind]. destruct Hsg as [-> | [-> | ->]]; cbn [app].
    + destruct (Z.eqb_spec d 0), (Z.eqb_spec d 45), (Z.eqb_spec d 43); try lia.
      rewrite bool_decide_eq_false_2 by done.
      apply (atoi_digits_acc 1 (d :: ds') c rest 0); kauto.
    + rewrite bool_decide_eq_true_2 by done.
      apply (atoi_digits_acc (-1) (d :: ds') c rest 0); kauto.
    + rewrite bool_decide_eq_false_2 by done.
      apply (atoi_digits_acc 1 (d :: ds') c rest 0); kauto.
  - destruct Hsg as [-> | [-> | ->]]; simpl; eauto 10 using Hns with lia.
    all: eexists _, _; split; [done|apply Hns; lia].
Qed.
