(* ===== verification/LibProps.v ===== *)
(** * Properties of the kernel's library routines (lib/bitmap.c, lib/libc.c) *)

From S2P Require Import Prelude Bitmap Libc.

(** ** Lemmas *)

(** The 16-bit swap exchanges the two bytes: checked on all 65536 values. *)
Definition swap16_row (a : Z) : bool :=
  forallb (λ b, swap16 (256 * a + b) =? 256 * b + a) (seqZ 0 256).

Lemma swap16_table : forallb swap16_row (seqZ 0 256) = true.
Proof. vm_compute. reflexivity. Qed.

Lemma swap16_bytes a b : 0 ≤ a < 256 → 0 ≤ b < 256 → swap16 (256 * a + b) = 256 * b + a.
Proof.
  intros Ha Hb. apply Z.eqb_eq.
  apply (forallb_seqZ (λ b, swap16 (256 * a + b) =? 256 * b + a) 0 256 b); [|done].
  exact (forallb_seqZ swap16_row 0 256 a swap16_table Ha).
Qed.

Lemma swap16_involutive z : 0 ≤ z < 2 ^ 16 → swap16 (swap16 z) = z.
Proof.
  intros Hz. pose proof (Z.mod_pos_bound z 256). pose proof (Z.div_mod z 256).
  assert (0 ≤ z / 256 < 256) by (split; [apply Z.div_pos|apply Z.div_lt_upper_bound]; lia).
  replace z with (256 * (z / 256) + z mod 256) by lia.
  rewrite !swap16_bytes by lia. done.
Qed.

(** ** Properties *)

(** [bitmap_findnset] on a bitmap of [l] bits returns, reading no word past
    the bitmap: it answers the least clear bit and sets exactly that bit, or -1
    with the bitmap unchanged when all of the [l] bits are set. *)
Theorem bitmap_findnset_correct bm l :
  bitmap_ok bm l →
  returns (bitmap_findnset bm l) (λ '(r, bm'),
    (r = -1 ∧ bm' = bm ∧ ∀ p, 0 ≤ p < l → bit bm p = true) ∨
    (0 ≤ r < l ∧ bit bm r = false ∧ (∀ p, 0 ≤ p < r → bit bm p = true) ∧
     bitmap_ok bm' l ∧
     ∀ p, 0 ≤ p → bit bm' p = if bool_decide (p = r) then true else bit bm p)).
Proof.
  intros Hok. eapply returns_mono; [by apply findnset_returns|].
  intros [r bm'] [?|(? & ? & ? & E & ? & ?)]; [by left|right].
  destruct Hok as (_ & ? & ?). split_and!; try done || lia. split; [done|]. rewrite E. lia.
Qed.

(** [memcopy] is the byte-by-byte copy for every length and whatever the
    alignment of the two buffers: the word loop and the byte loop for the rest
    write exactly the first [buflen] bytes of the source, and nothing after
    them. *)
Theorem memcopy_is_bytewise buflen taddr target saddr source :
  0 ≤ buflen ≤ Z.of_nat (length source) → buflen ≤ Z.of_nat (length target) →
  memcopy buflen taddr target saddr source =
  Done (take (Z.to_nat buflen) source ++ drop (Z.to_nat buflen) target).
Proof. apply memcopy_spec. Qed.

(** [atoi] of white space, an optional sign and at least one digit, followed
    by anything that is not a digit, is the signed decimal number, for every
    number of digits whose value fits an [int]. *)
Theorem atoi_decimal ws sg ds c rest :
  Forall (λ w, is_space w = true) ws → sg = [] ∨ sg = [45] ∨ sg = [43] →
  Forall is_digit ds → ds ≠ [] → is_u8 c → ¬ is_digit c → digits_value ds < 2 ^ 31 →
  atoi (ws ++ sg ++ ds ++ c :: rest) =
  Done ((if bool_decide (sg = [45]) then -1 else 1) * digits_value ds).
Proof. apply atoi_spec. Qed.

(** Byte order: on both machines [to_big_endian32] and [from_big_endian32]
    are inverse to each other, a word stored natively after [to_big_endian32]
    lies in memory most significant byte first, and the bytes of a big-endian
    word loaded natively and passed through [from_big_endian32] are its value;
    [from_big_endian16] is its own inverse.  But [to_big_endian16] of the
    little-endian machine maps every number to 0. *)
Theorem byte_order_correct en z h :
  is_u32 z → 0 ≤ h < 2 ^ 16 →
  from_big_endian32 en (to_big_endian32 en z) = z ∧
  bytes_of_u32 en (to_big_endian32 en z) = bytes_of_u32 Big z ∧
  from_big_endian32 en (u32_of_bytes en (bytes_of_u32 Big z)) = z ∧
  from_big_endian16 en (from_big_endian16 en h) = h ∧
  to_big_endian16 en h = (match en with Big => h | Little => 0 end).
Proof.
  intros Hz Hh. destruct en;
    cbn [to_big_endian32 from_big_endian32 to_big_endian16 from_big_endian16 bytes_of_u32 u32_of_bytes].
  - split_and!; try done. by apply (u32_bytes_roundtrip Big).
  - split_and!; [by apply swap32_involutive| | |by apply swap16_involutive
      |by apply (to_big_endian16_little_zero h)].
    + unfold swap32. apply le_bytes_num; [apply Forall_reverse, le_bytes_u8|].
      by rewrite length_reverse, length_le_bytes.
    + apply swap32_involutive in Hz. exact Hz.
Qed.

(** Strings: [stringcmp] answers 0 exactly for equal strings, [strlen] the
    length, and [stringcopy] leaves in the target the longest prefix of the
    source that fits with its terminator; the bytes after the terminator stay as
    they were. *)
Theorem strings_correct mem1 mem2 s1 s2 target buflen :
  cstr mem1 s1 → cstr mem2 s2 → Forall is_u8 s1 → Forall is_u8 s2 →
  Z.of_nat (length s1) < 2 ^ 31 → 1 ≤ buflen ≤ Z.of_nat (length target) →
  let s := take (Z.to_nat (buflen - 1)) s1 in
  returns (stringcmp mem1 mem2) (λ r, r = 0 ↔ s1 = s2) ∧
  strlen mem1 = Done (Z.of_nat (length s1)) ∧
  stringcopy target mem1 buflen = Done (s ++ 0 :: drop (length s + 1) target) ∧
  cstr (s ++ 0 :: drop (length s + 1) target) s.
Proof.
  intros H1 H2 ? ? ? ? s. split_and!.
  - by apply stringcmp_eq.
  - by apply strlen_spec.
  - by apply stringcopy_spec.
  - split; [|by eexists]. intros Hin. apply (proj1 H1). by eapply elem_of_take in Hin as (? & ? & _);
      eapply list_elem_of_lookup_2.
Qed.

(** ** Witnesses *)
Lemma demo_bitmap : bitmap_ok [0xffffffff; 5] 40.
Proof. split; [by apply (bool_decide_unpack _)|split; by vm_compute]. Qed.

Lemma bitmap_findnset_correct_witness :
  returns (bitmap_findnset [0xffffffff; 5] 40) (λ '(r, bm'), bitmap_ok bm' 40).
Proof.
  refine (returns_mono _ _ _ (bitmap_findnset_correct [0xffffffff; 5] 40 demo_bitmap) _).
  intros [r bm'] [(_ & -> & _)|(_ & _ & _ & H & _)]; [exact demo_bitmap|exact H].
Defined.

Lemma memcopy_is_bytewise_witness : memcopy 6 8 [0; 0; 0; 0; 0; 0; 7] 16 [1; 2; 3; 4; 5; 6] =
  Done [1; 2; 3; 4; 5; 6; 7].
Proof. apply (memcopy_is_bytewise 6 8 [0; 0; 0; 0; 0; 0; 7] 16 [1; 2; 3; 4; 5; 6]); simpl; lia. Defined.

Lemma atoi_decimal_witness : atoi ([32] ++ [45] ++ [52; 50] ++ 33 :: []) = Done (-1 * 42).
Proof.
  apply (atoi_decimal [32] [45] [52; 50] 33 []); try done.
  - repeat constructor.
  - auto.
  - repeat constructor; done.
  - intros [H _]. by apply H.
Defined.

Lemma byte_order_correct_witness : from_big_endian32 Little (to_big_endian32 Little 0x12345678) = 0x12345678.
Proof. apply (byte_order_correct Little 0x12345678 5); done. Defined.

Lemma strings_correct_witness :
  stringcopy [9; 9; 9] [104; 105; 33; 0] 3 = Done [104; 105; 0].
Proof.
  apply (strings_correct [104; 105; 33; 0] [104; 0] [104; 105; 33] [104] [9; 9; 9] 3); try done.
  - by repeat apply cstr_cons; try apply cstr_nil.
  - by repeat apply cstr_cons; try apply cstr_nil.
  - by apply (bool_decide_unpack _).
  - by apply (bool_decide_unpack _).
Defined.
