(* ===== verification/Threads.v ===== *)
(** * Threads, scheduler and sleep queue

    kudos/kernel/thread.c, scheduler.c, sleepq.c and the MIPS32 context set-up
    of kudos/kernel/mips32/cswitch.c.  The three C files share the thread table:
    the ready list and the chains of the sleep queue's hash table are threaded
    through its [next] fields, and they are modelled that way.

    A [kernel] is the shared state together with the interrupt-enable flag of
    the CPU that executes the modelled code; the functions that depend on the
    CPU take its number, and [rnd] is the value [_get_rand] returns.  Spinlocks
    are the integers of the source; acquiring one that is held is [Blocked]. *)

From S2P Require Import Prelude.

(** ** Configuration (kernel/config.h, kernel/thread.h, sleepq.c) *)
Definition CONFIG_MAX_THREADS : Z := 32.
Definition CONFIG_THREAD_STACKSIZE : Z := 4096.
Definition CONFIG_MAX_CPUS : Z := 4.
Definition CONFIG_SCHEDULER_TIMESLICE : Z := 750.
Definition IDLE_THREAD_TID : Z := 0.
Definition SLEEPQ_HASHTABLE_SIZE : Z := 127.

(** ** Data *)
Inductive thread_state_t :=
| THREAD_FREE
| THREAD_RUNNING
| THREAD_READY
| THREAD_SLEEPING
| THREAD_NONREADY
| THREAD_DYING.

#[export] Instance thread_state_eq_dec : EqDecision thread_state_t.
Proof. solve_decision. Defined.

(** The MIPS32 register context. *)
Record context_t := Context {
  cpu_regs : list Z;
  hi_reg : Z;
  lo_reg : Z;
  pc : Z;
  status : Z;
  prev_context : Z
}.

Definition MIPS_REGISTER_A0 : Z := 3.
Definition MIPS_REGISTER_SP : Z := 26.
Definition MIPS_REGISTER_RA : Z := 28.
Definition sizeof_context : Z := 34 * 4.
Definition INTERRUPT_MASK : Z := Z.lor 0xff00 0x1.

(** One row of the thread table.  [cxt] is the structure the [context] pointer
    designates. *)
Record thread_table_t := Thread {
  context : Z;
  cxt : context_t;
  user_context : Z;
  state : thread_state_t;
  sleeps_on : Z;
  pagetable : Z;
  process_id : Z;
  next : Z;
  attribs : Z
}.

Definition set_state (x : thread_state_t) (t : thread_table_t) : thread_table_t :=
  Thread (context t) (cxt t) (user_context t) x (sleeps_on t) (pagetable t)
    (process_id t) (next t) (attribs t).
Definition set_sleeps_on (x : Z) (t : thread_table_t) : thread_table_t :=
  Thread (context t) (cxt t) (user_context t) (state t) x (pagetable t)
    (process_id t) (next t) (attribs t).
Definition set_next (x : Z) (t : thread_table_t) : thread_table_t :=
  Thread (context t) (cxt t) (user_context t) (state t) (sleeps_on t) (pagetable t)
    (process_id t) x (attribs t).
Definition set_cxt (x : context_t) (t : thread_table_t) : thread_table_t :=
  Thread (context t) x (user_context t) (state t) (sleeps_on t) (pagetable t)
    (process_id t) (next t) (attribs t).

Record kernel := Kernel {
  thread_table : list thread_table_t;
  thread_table_slock : Z;
  next_tid : Z;
  scheduler_current_thread : list Z;
  ready_head : Z;
  ready_tail : Z;
  sleepq_hashtable : list Z;
  sleepq_slock : Z;
  intr : bool;
  timer : Z
}.

Definition set_thread_table x k := Kernel x (thread_table_slock k) (next_tid k)
  (scheduler_current_thread k) (ready_head k) (ready_tail k) (sleepq_hashtable k)
  (sleepq_slock k) (intr k) (timer k).
Definition set_thread_table_slock x k := Kernel (thread_table k) x (next_tid k)
  (scheduler_current_thread k) (ready_head k) (ready_tail k) (sleepq_hashtable k)
  (sleepq_slock k) (intr k) (timer k).
Definition set_next_tid x k := Kernel (thread_table k) (thread_table_slock k) x
  (scheduler_current_thread k) (ready_head k) (ready_tail k) (sleepq_hashtable k)
  (sleepq_slock k) (intr k) (timer k).
Definition set_current x k := Kernel (thread_table k) (thread_table_slock k) (next_tid k)
  x (ready_head k) (ready_tail k) (sleepq_hashtable k)
  (sleepq_slock k) (intr k) (timer k).
Definition set_ready (h t : Z) k := Kernel (thread_table k) (thread_table_slock k) (next_tid k)
  (scheduler_current_thread k) h t (sleepq_hashtable k)
  (sleepq_slock k) (intr k) (timer k).
Definition set_hashtable x k := Kernel (thread_table k) (thread_table_slock k) (next_tid k)
  (scheduler_current_thread k) (ready_head k) (ready_tail k) x
  (sleepq_slock k) (intr k) (timer k).
Definition set_sleepq_slock x k := Kernel (thread_table k) (thread_table_slock k) (next_tid k)
  (scheduler_current_thread k) (ready_head k) (ready_tail k) (sleepq_hashtable k)
  x (intr k) (timer k).
Definition set_intr x k := Kernel (thread_table k) (thread_table_slock k) (next_tid k)
  (scheduler_current_thread k) (ready_head k) (ready_tail k) (sleepq_hashtable k)
  (sleepq_slock k) x (timer k).
Definition set_timer x k := Kernel (thread_table k) (thread_table_slock k) (next_tid k)
  (scheduler_current_thread k) (ready_head k) (ready_tail k) (sleepq_hashtable k)
  (sleepq_slock k) (intr k) x.

(** ** Interrupt state and spinlocks *)

(** [spinlock_acquire] spins while the lock is non-zero. *)
Definition spin (slock : Z) : outcome Z := if slock =? 0 then Done 1 else Blocked.

Definition acquire_thread_table (k : kernel) : outcome kernel :=
  let* s := spin (thread_table_slock k) in Done (set_thread_table_slock s k).
Definition release_thread_table (k : kernel) : kernel := set_thread_table_slock 0 k.
Definition acquire_sleepq (k : kernel) : outcome kernel :=
  let* s := spin (sleepq_slock k) in Done (set_sleepq_slock s k).
Definition release_sleepq (k : kernel) : kernel := set_sleepq_slock 0 k.

(** [thread_table[t] = f(thread_table[t])]. *)
Definition upd_thread (t : Z) (f : thread_table_t → thread_table_t) (k : kernel)
    : outcome kernel :=
  let* th := aread (thread_table k) t in
  let* tab := awrite (thread_table k) t (f th) in
  Done (set_thread_table tab k).

(** ** Scheduler (scheduler.c) *)
Definition scheduler_init (k : kernel) : outcome kernel :=
  let* cur := for_each 0 CONFIG_MAX_CPUS (λ i c, awrite c i 0)
    (scheduler_current_thread k) in
  Done (set_current cur k).

Definition scheduler_add_to_ready_list (t : Z) (k : kernel) : outcome kernel :=
  kassert (negb (t =? IDLE_THREAD_TID)) ;*
  kassert ((0 <=? t) && (t <? CONFIG_MAX_THREADS)) ;*
  if ready_tail k <? 0 then
    upd_thread t (set_next (-1)) (set_ready t t k)
  else
    let* k1 := upd_thread (ready_tail k) (set_next t) k in
    let* k2 := upd_thread t (set_next (-1)) k1 in
    Done (set_ready (ready_head k2) t k2).

Definition scheduler_remove_first_ready (k : kernel) : outcome (Z * kernel) :=
  let t := ready_head k in
  kassert (negb (t =? IDLE_THREAD_TID)) ;*
  if 0 <=? t then
    let* th := aread (thread_table k) t in
    kassert (bool_decide (state th = THREAD_READY)) ;*
    let tail := if ready_tail k =? t then -1 else ready_tail k in
    Done (t, set_ready (next th) tail k)
  else Done (IDLE_THREAD_TID, k).

Definition scheduler_add_ready (t : Z) (k : kernel) : outcome kernel :=
  let intr_status := intr k in
  let k := set_intr false k in
  let* k := acquire_thread_table k in
  let* k := scheduler_add_to_ready_list t k in
  let* k := upd_thread t (set_state THREAD_READY) k in
  let k := release_thread_table k in
  Done (set_intr intr_status k).

Definition scheduler_schedule (cpu rnd : Z) (k : kernel) : outcome kernel :=
  let* k := acquire_thread_table k in
  let* cur := aread (scheduler_current_thread k) cpu in
  let* current_thread := aread (thread_table k) cur in
  let* k :=
    if bool_decide (state current_thread = THREAD_DYING) then
      upd_thread cur (set_state THREAD_FREE) k
    else if negb (sleeps_on current_thread =? 0) then
      upd_thread cur (set_state THREAD_SLEEPING) k
    else
      let* k := if negb (cur =? IDLE_THREAD_TID)
                then scheduler_add_to_ready_list cur k else Done k in
      upd_thread cur (set_state THREAD_READY) k in
  let* '(t, k) := scheduler_remove_first_ready k in
  let* k := upd_thread t (set_state THREAD_RUNNING) k in
  let k := release_thread_table k in
  let* curs := awrite (scheduler_current_thread k) cpu t in
  let k := set_current curs k in
  Done (set_timer (u32 (rnd + CONFIG_SCHEDULER_TIMESLICE `quot` 2)) k).

(** ** Sleep queue (sleepq.c) *)
Definition SLEEPQ_HASH (res : Z) : Z := res mod SLEEPQ_HASHTABLE_SIZE.

Definition sleepq_init (k : kernel) : outcome kernel :=
  let* h := for_each 0 SLEEPQ_HASHTABLE_SIZE (λ i h, awrite h i (-1))
    (sleepq_hashtable k) in
  Done (set_sleepq_slock 0 (set_hashtable h k)).

(** A list has at most one element per thread: the bound on list traversals. *)
Definition list_fuel : nat := Z.to_nat CONFIG_MAX_THREADS.

(** [while (thread_table[prev].next > 0) prev = thread_table[prev].next;] *)
Definition sleepq_last (tab : list thread_table_t) (prev : Z) : outcome Z :=
  while_loop list_fuel (λ p,
    let* th := aread tab p in
    if 0 <? next th then Done (inl (next th)) else Done (inr p)) prev.

Definition sleepq_add (cpu resource : Z) (k : kernel) : outcome kernel :=
  if intr k then Done k
  else
    let hash := SLEEPQ_HASH resource in
    let* my_tid := aread (scheduler_current_thread k) cpu in
    let* k := upd_thread my_tid (set_next (-1)) k in
    let* k := upd_thread my_tid (set_sleeps_on (u32 resource)) k in
    kassert (negb (my_tid =? IDLE_THREAD_TID)) ;*
    let* k := acquire_sleepq k in
    let* first := aread (sleepq_hashtable k) hash in
    let* k :=
      if first <=? 0 then
        let* h := awrite (sleepq_hashtable k) hash my_tid in Done (set_hashtable h k)
      else
        let* prev := sleepq_last (thread_table k) first in
        upd_thread prev (set_next my_tid) k in
    Done (release_sleepq k).

(** [while (first > 0 && thread_table[first].sleeps_on != resource)
      prev = first, first = thread_table[first].next;] *)
Definition sleepq_find (tab : list thread_table_t) (resource prev first : Z)
    : outcome (Z * Z) :=
  while_loop list_fuel (λ '(p, f),
    if 0 <? f then
      let* th := aread tab f in
      if negb (sleeps_on th =? resource) then Done (inl (f, next th))
      else Done (inr (p, f))
    else Done (inr (p, f))) (prev, first).

(** Clear [sleeps_on] and make the thread ready if it sleeps already: the part
    of [sleepq_wake] and [sleepq_wake_all] under the thread-table lock. *)
Definition sleepq_release_thread (first : Z) (k : kernel) : outcome kernel :=
  let* k := acquire_thread_table k in
  let* k := upd_thread first (set_sleeps_on 0) k in
  let* k := upd_thread first (set_next (-1)) k in
  let* th := aread (thread_table k) first in
  let* k :=
    if bool_decide (state th = THREAD_SLEEPING) then
      let* k := upd_thread first (set_state THREAD_READY) k in
      scheduler_add_to_ready_list first k
    else Done k in
  Done (release_thread_table k).

(** Unlink [first], whose predecessor in the chain is [prev]; the result is the
    thread that followed it. *)
Definition sleepq_unlink (hash prev first : Z) (k : kernel) : outcome (Z * kernel) :=
  let* th := aread (thread_table k) first in
  if prev <=? 0 then
    let* h := awrite (sleepq_hashtable k) hash (next th) in
    Done (next th, set_hashtable h k)
  else
    let* k := upd_thread prev (set_next (next th)) k in
    Done (next th, k).

Definition sleepq_wake (resource : Z) (k : kernel) : outcome kernel :=
  let hash := SLEEPQ_HASH resource in
  let intr_state := intr k in
  let k := set_intr false k in
  let* k := acquire_sleepq k in
  let* first := aread (sleepq_hashtable k) hash in
  let* '(prev, first) := sleepq_find (thread_table k) resource (-1) first in
  let* k :=
    if 0 <? first then
      let* '(_, k) := sleepq_unlink hash prev first k in
      sleepq_release_thread first k
    else Done k in
  Done (set_intr intr_state (release_sleepq k)).

Definition sleepq_wake_all (resource : Z) (k : kernel) : outcome kernel :=
  let hash := SLEEPQ_HASH resource in
  let intr_state := intr k in
  let k := set_intr false k in
  let* k := acquire_sleepq k in
  let* first := aread (sleepq_hashtable k) hash in
  let* k := while_loop (S list_fuel) (λ '(prev, first, k),
    if 0 <? first then
      let* '(prev, first) := sleepq_find (thread_table k) resource prev first in
      if 0 <? first then
        let* '(nxt, k) := sleepq_unlink hash prev first k in
        let* k := sleepq_release_thread first k in
        Done (inl (prev, nxt, k))
      else Done (inl (prev, first, k))
    else Done (inr k)) (-1, first, k) in
  Done (set_intr intr_state (release_sleepq k)).

(** ** Threads (thread.c, mips32/cswitch.c) *)
Definition context_zero : context_t := Context (replicate 29 0) 0 0 0 0 0.

Definition _context_init (c : context_t) (entry endentry stack args : Z) : outcome context_t :=
  let* r := awrite (cpu_regs c) MIPS_REGISTER_SP (u32 (stack - 4)) in
  let* r := awrite r MIPS_REGISTER_A0 args in
  let* r := awrite r MIPS_REGISTER_RA endentry in
  Done (Context r (hi_reg c) (lo_reg c) entry INTERRUPT_MASK (prev_context c)).

Definition _context_set_ip (ip : Z) (c : context_t) : context_t :=
  Context (cpu_regs c) (hi_reg c) (lo_reg c) ip (status c) (prev_context c).
Definition _context_set_sp (sp : Z) (c : context_t) : outcome context_t :=
  let* r := awrite (cpu_regs c) MIPS_REGISTER_SP sp in
  Done (Context r (hi_reg c) (lo_reg c) (pc c) (status c) (prev_context c)).
Definition _context_enable_ints (c : context_t) : context_t :=
  Context (cpu_regs c) (hi_reg c) (lo_reg c) (pc c) INTERRUPT_MASK (prev_context c).

Section thread_functions.
(** Link-time addresses: the stack areas, [thread_finish] and the idle loop. *)
Variables (thread_stack_areas addr_thread_finish addr_idle_loop : Z).

(** The address of a thread's context, at the top of its stack area. *)
Definition context_address (tid : Z) : Z :=
  thread_stack_areas + CONFIG_THREAD_STACKSIZE * tid + CONFIG_THREAD_STACKSIZE
  - sizeof_context.

Definition thread_table_init (k : kernel) : outcome kernel :=
  let k := set_thread_table_slock 0 k in
  let* k := for_each 0 CONFIG_MAX_THREADS (λ i k, upd_thread i (λ th,
      Thread (context_address i) (cxt th) 0 THREAD_FREE 0 0 (-1) (-1) 0) k) k in
  let* th := aread (thread_table k) IDLE_THREAD_TID in
  let c := _context_set_ip addr_idle_loop (cxt th) in
  let* c := _context_set_sp
    (thread_stack_areas + CONFIG_THREAD_STACKSIZE - 4 - sizeof_context) c in
  let c := _context_enable_ints c in
  let c := Context (cpu_regs c) (hi_reg c) (lo_reg c) (pc c) (status c) (context th) in
  upd_thread IDLE_THREAD_TID (λ th, set_state THREAD_READY (set_cxt c th)) k.

(** The search loop of [thread_create]: the first free row from [next_tid] on. *)
Definition find_free_thread (k : kernel) : outcome Z :=
  let* r := for_loop 0 CONFIG_MAX_THREADS (λ i _,
    let t := (i + next_tid k) `rem` CONFIG_MAX_THREADS in
    if t =? IDLE_THREAD_TID then Done (inl ())
    else
      let* th := aread (thread_table k) t in
      if bool_decide (state th = THREAD_FREE) then Done (inr t) else Done (inl ())) () in
  Done (match r with inl _ => -1 | inr t => t end).

Definition thread_create (func arg : Z) (k : kernel) : outcome (Z * kernel) :=
  let intr_status := intr k in
  let k := set_intr false k in
  let* k := acquire_thread_table k in
  let* tid := find_free_thread k in
  if tid <? 0 then Done (tid, set_intr intr_status (release_thread_table k))
  else
    let k := set_next_tid ((tid + 1) `rem` CONFIG_MAX_THREADS) k in
    let* k := upd_thread tid (set_state THREAD_NONREADY) k in
    let k := set_intr intr_status (release_thread_table k) in
    let ctx_addr := context_address tid in
    let c := Context (cpu_regs context_zero) 0 0 0 0 ctx_addr in
    let* c := _context_init c func addr_thread_finish
      (thread_stack_areas + CONFIG_THREAD_STACKSIZE * tid + CONFIG_THREAD_STACKSIZE
       - 4 - sizeof_context) arg in
    let* k := upd_thread tid (λ th, Thread ctx_addr c 0 (state th) 0 0 (-1) (-1) 0) k in
    Done (tid, k).
End thread_functions.

Definition thread_run (t : Z) (k : kernel) : outcome kernel := scheduler_add_ready t k.

(** [_interrupt_yield] enters the scheduler with interrupts disabled; when it is
    left the CPU executes the selected thread, which was itself suspended with
    interrupts enabled. *)
Definition _interrupt_yield (cpu rnd : Z) (k : kernel) : outcome kernel :=
  let* k := scheduler_schedule cpu rnd (set_intr false k) in
  Done (set_intr true k).

(** [thread_switch] up to the switch; the [_interrupt_set_state] after it is
    executed by the suspended thread when it runs again. *)
Definition thread_switch (cpu rnd : Z) (k : kernel) : outcome kernel :=
  _interrupt_yield cpu rnd (set_intr true k).

Definition thread_get_current_thread (cpu : Z) (k : kernel) : outcome Z :=
  aread (scheduler_current_thread k) cpu.

Definition thread_get_thread_entry (tid : Z) (k : kernel) : outcome thread_table_t :=
  aread (thread_table k) tid.

Definition thread_get_current_thread_entry (cpu : Z) (k : kernel) : outcome thread_table_t :=
  let* t := aread (scheduler_current_thread k) cpu in thread_get_thread_entry t k.

(** [thread_finish] up to the switch away from the dying thread. *)
Definition thread_finish (cpu rnd : Z) (k : kernel) : outcome kernel :=
  let* my_tid := thread_get_current_thread cpu k in
  let k := set_intr false k in
  let* th := aread (thread_table k) my_tid in
  kassert (pagetable th =? 0) ;*
  let* k := acquire_thread_table k in
  let* k := upd_thread my_tid (set_state THREAD_DYING) k in
  let k := release_thread_table k in
  _interrupt_yield cpu rnd (set_intr true k).
