(* ===== verification/ThreadsRef.v ===== *)
(** * The thread queues refine lists

    The abstract specification of the scheduler and of the sleep queue: an
    abstract state holds the thread table without its [next] links, the ready
    list as a list of thread identifiers, and one list per row of the sleep
    queue's hash table.  [krep] relates a [kernel] to an abstract state; the
    theorems of this file show that every queue operation of Threads.v, started
    in a represented state, returns and implements its abstract counterpart. *)

From S2P Require Import Prelude Threads.

(** ** Abstract state and operations *)
Definition erase (th : thread_table_t) : thread_table_t := set_next (-1) th.

Record athreads := AThreads {
  a_tab : list thread_table_t;
  a_ready : list Z;
  a_sleep : list (list Z)
}.

Definition a_upd (t : Z) (f : thread_table_t → thread_table_t) (a : athreads) : athreads :=
  AThreads (alter f (Z.to_nat t) (a_tab a)) (a_ready a) (a_sleep a).

Definition a_push (t : Z) (a : athreads) : athreads :=
  AThreads (a_tab a) (a_ready a ++ [t]) (a_sleep a).

Definition a_pop (a : athreads) : Z * athreads :=
  match a_ready a with
  | [] => (IDLE_THREAD_TID, a)
  | t :: r => (t, AThreads (a_tab a) r (a_sleep a))
  end.

Definition a_bucket (a : athreads) (res : Z) : list Z :=
  default [] (a_sleep a !! Z.to_nat (SLEEPQ_HASH res)).

Definition a_set_bucket (res : Z) (l : list Z) (a : athreads) : athreads :=
  AThreads (a_tab a) (a_ready a) (<[Z.to_nat (SLEEPQ_HASH res) := l]> (a_sleep a)).

(** The row of thread [t]. *)
Definition a_thread (a : athreads) (t : Z) : option thread_table_t := a_tab a !! Z.to_nat t.

Definition waits_on (a : athreads) (res t : Z) : bool :=
  match a_thread a t with Some th => sleeps_on th =? res | None => false end.

(** The current thread [t] starts waiting for [res]: last in its row. *)
Definition a_sleep_add (t res : Z) (a : athreads) : athreads :=
  a_set_bucket res (a_bucket a res ++ [t]) (a_upd t (set_sleeps_on res) a).

(** The effect of a wake-up on one thread. *)
Definition a_release (t : Z) (a : athreads) : athreads :=
  let a1 := a_upd t (set_sleeps_on 0) a in
  match a_thread a1 t with
  | Some th =>
      if bool_decide (state th = THREAD_SLEEPING)
      then a_push t (a_upd t (set_state THREAD_READY) a1) else a1
  | None => a1
  end.

(** The first thread of a row that waits for [res], and the row without it. *)
Fixpoint split_first (p : Z → bool) (l : list Z) : option (Z * list Z) :=
  match l with
  | [] => None
  | t :: r =>
      if p t then Some (t, r)
      else match split_first p r with Some (u, r') => Some (u, t :: r') | None => None end
  end.

Definition a_wake (res : Z) (a : athreads) : athreads :=
  match split_first (waits_on a res) (a_bucket a res) with
  | Some (t, l) => a_release t (a_set_bucket res l a)
  | None => a
  end.

Definition a_wake_all (res : Z) (a : athreads) : athreads :=
  let l := a_bucket a res in
  foldl (λ a' t, a_release t a')
    (a_set_bucket res (List.filter (λ t, negb (waits_on a res t)) l) a)
    (List.filter (waits_on a res) l).

(** What happens to the thread that gives up the CPU. *)
Definition a_retire (cur : Z) (a : athreads) : athreads :=
  match a_thread a cur with
  | Some th =>
      if bool_decide (state th = THREAD_DYING) then a_upd cur (set_state THREAD_FREE) a
      else if negb (sleeps_on th =? 0) then a_upd cur (set_state THREAD_SLEEPING) a
      else a_upd cur (set_state THREAD_READY)
             (if negb (cur =? IDLE_THREAD_TID) then a_push cur a else a)
  | None => a
  end.

(** One call of the scheduler for the CPU whose current thread is [cur]: the
    thread selected, and the state after it. *)
Definition a_schedule (cur : Z) (a : athreads) : Z * athreads :=
  let '(t, a') := a_pop (a_retire cur a) in (t, a_upd t (set_state THREAD_RUNNING) a').

(** ** Representation *)

(** Following [next] from [s] visits exactly [l] and ends at [e]. *)
Fixpoint seg (tab : list thread_table_t) (s : Z) (l : list Z) (e : Z) : Prop :=
  match l with
  | [] => s = e
  | t :: l' => s = t ∧ 0 < t ∧ ∃ th, tab !! Z.to_nat t = Some th ∧ seg tab (next th) l' e
  end.

Definition chain (tab : list thread_table_t) (s : Z) (l : list Z) : Prop := seg tab s l (-1).

(** The heads [hs] start the disjoint queues [ls]: the ready list first, then
    the rows of the sleep queue. *)
Record qrep (tab : list thread_table_t) (hs : list Z) (ls : list (list Z)) : Prop := {
  q_chains : Forall2 (chain tab) hs ls;
  q_nodup : NoDup (concat ls)
}.

Definition queues (a : athreads) : list (list Z) := a_ready a :: a_sleep a.

Record krep (k : kernel) (a : athreads) : Prop := {
  kr_tab : erase <$> thread_table k = a_tab a;
  kr_len : Z.of_nat (length (thread_table k)) = CONFIG_MAX_THREADS;
  kr_queues : qrep (thread_table k) (ready_head k :: sleepq_hashtable k) (queues a);
  kr_tail : ready_tail k = default (-1) (last (a_ready a));
  kr_hlen : Z.of_nat (length (sleepq_hashtable k)) = SLEEPQ_HASHTABLE_SIZE
}.

(** What the queue operations leave alone: locks, current threads, interrupt
    flag, timer and the thread allocator's position. *)
Record kframe (k k' : kernel) : Prop := {
  kf_tslock : thread_table_slock k' = thread_table_slock k;
  kf_sslock : sleepq_slock k' = sleepq_slock k;
  kf_cur : scheduler_current_thread k' = scheduler_current_thread k;
  kf_tid : next_tid k' = next_tid k;
  kf_intr : intr k' = intr k;
  kf_timer : timer k' = timer k
}.

#[export] Instance kframe_refl : Reflexive kframe.
Proof. by constructor. Qed.
#[export] Instance kframe_trans : Transitive kframe.
Proof. intros ??? [] []. constructor; congruence. Qed.

(** ** Segments *)
Lemma seg_app tab s l1 l2 e :
  seg tab s (l1 ++ l2) e ↔ ∃ m, seg tab s l1 m ∧ seg tab m l2 e.
Proof.
  revert s. induction l1 as [|t l1 IH]; intros s; simpl; [naive_solver|].
  setoid_rewrite IH. naive_solver.
Qed.

Lemma seg_pos tab s l e t : seg tab s l e → t ∈ l → 0 < t < Z.of_nat (length tab).
Proof.
  revert s. induction l as [|u l IH]; intros s Hc Ht; [by apply not_elem_of_nil in Ht|].
  destruct Hc as (-> & Hu & th & Hth & Hc). apply elem_of_cons in Ht as [->|Ht].
  - apply lookup_lt_Some in Hth. lia.
  - by eapply IH.
Qed.

(** Changing a row keeps every segment that does not visit it. *)
Lemma seg_alter_ne tab s l e t f :
  0 ≤ t → t ∉ l → seg tab s l e → seg (alter f (Z.to_nat t) tab) s l e.
Proof.
  intros Ht. revert s. induction l as [|u l IH]; intros s Hni; [done|].
  apply not_elem_of_cons in Hni as [Hne Hni]. intros (-> & Hu & th & Hth & Hc).
  split_and!; [done|done|]. exists th. rewrite list_lookup_alter_ne by lia. auto.
Qed.

(** Changing a row without changing its link keeps every segment. *)
Lemma seg_alter tab s l e i f :
  (∀ th, next (f th) = next th) → seg tab s l e → seg (alter f i tab) s l e.
Proof.
  intros Hf. revert s. induction l as [|u l IH]; intros s; [done|].
  intros (-> & Hu & th & Hth & Hc). split_and!; [done|done|].
  rewrite list_lookup_alter. case_decide; subst.
  - exists (f th). rewrite Hth, Hf. auto.
  - exists th. auto.
Qed.

(** Redirecting the last link of a segment. *)
Lemma seg_relink tab s l p e x :
  seg tab s (l ++ [p]) e → p ∉ l → seg (alter (set_next x) (Z.to_nat p) tab) s (l ++ [p]) x.
Proof.
  rewrite !seg_app. intros (m & Hl & -> & Hp & th & Hth & Hn) Hni. exists p. split.
  - apply seg_alter_ne; [lia|done..].
  - split_and!; [done|done|]. exists (set_next x th).
    by rewrite list_lookup_alter_eq, Hth.
Qed.

Lemma seg_single tab t th e :
  0 < t → tab !! Z.to_nat t = Some th → next th = e → seg tab t [t] e.
Proof. intros Ht Hth He. simpl. eauto. Qed.

Lemma chain_start tab s l : chain tab s l → s = default (-1) (head l).
Proof. destruct l; simpl; [done|]. unfold chain. simpl. naive_solver. Qed.

(** ** Queue families *)

Section queue_family.
Context (tab : list thread_table_t) (hs : list Z) (ls : list (list Z)).
Hypothesis Hrep : qrep tab hs ls.

Lemma qrep_chain q l :
  ls !! q = Some l → ∃ s, hs !! q = Some s ∧ chain tab s l.
Proof. intros Hl. by apply (Forall2_lookup_r _ _ _ _ _ (q_chains _ _ _ Hrep)). Qed.

Lemma qrep_pos t : t ∈ concat ls → 0 < t < Z.of_nat (length tab).
Proof.
  intros (q & l & Hl & Ht)%elem_of_concat. destruct (qrep_chain q l Hl) as (s & _ & Hc).
  by eapply seg_pos.
Qed.

(** Replacing queue [q] by [l'], where the table changed only at rows that no
    other queue visits. *)
Lemma qrep_replace tab' q l s' l' :
  ls !! q = Some l → NoDup l' →
  (∀ t, t ∈ l' → t ∈ l ∨ t ∉ concat ls) →
  (∀ s i l2, i ≠ q → ls !! i = Some l2 → chain tab s l2 → chain tab' s l2) →
  chain tab' s' l' →
  qrep tab' (<[q:=s']> hs) (<[q:=l']> ls).
Proof.
  intros Hl Hnd Hsub Hoth Hc. destruct Hrep as [Hcs Hndc].
  destruct (concat_split ls q l Hl) as (rest & Hp & Hins & _). split.
  - apply Forall2_same_length_lookup. split.
    { rewrite !length_insert. by eapply Forall2_length. }
    intros i s l2. rewrite !list_lookup_insert.
    destruct (decide (q = i)) as [->|Hne].
    + repeat case_decide; [naive_solver|intros _ E..]; simplify_eq;
        apply lookup_lt_Some in Hl; apply Forall2_length in Hcs; lia.
    + rewrite !decide_False by naive_solver. intros Hs Hl2.
      eapply Hoth; [by apply not_eq_sym|done|]. by eapply Forall2_lookup_lr.
  - rewrite Hins. rewrite Hp in Hndc. apply NoDup_app in Hndc as (_ & Hd & Hr).
    apply NoDup_app. split_and!; [done| |done]. intros t Ht Hrest.
    destruct (Hsub t Ht) as [Hin|Hout]; [by eapply Hd|].
    apply Hout. rewrite Hp. apply elem_of_app. by right.
Qed.

(** Two queues never share a thread. *)
Lemma qrep_disjoint q l i l2 t :
  ls !! q = Some l → i ≠ q → ls !! i = Some l2 → t ∈ l → t ∉ l2.
Proof.
  intros Hl Hi Hl2 Ht Ht2. destruct (concat_split ls q l Hl) as (rest & Hp & _ & Hs).
  pose proof (q_nodup _ _ _ Hrep) as Hnd. rewrite Hp in Hnd.
  apply NoDup_app in Hnd as (_ & Hd & _). by eapply Hd, Hs.
Qed.

Lemma qrep_nodup q l : ls !! q = Some l → NoDup l.
Proof.
  intros Hl. destruct (concat_split ls q l Hl) as (rest & Hp & _ & _).
  pose proof (q_nodup _ _ _ Hrep) as Hnd. rewrite Hp in Hnd.
  by apply NoDup_app in Hnd as (? & _ & _).
Qed.

(** A row in no queue may change freely; any row may change off its link. *)
Lemma qrep_alter_free t f :
  0 ≤ t → t ∉ concat ls → qrep (alter f (Z.to_nat t) tab) hs ls.
Proof.
  intros Ht Hni. split; [|by destruct Hrep]. apply Forall2_same_length_lookup.
  destruct Hrep as [Hcs _]. split; [by eapply Forall2_length|].
  intros i s l Hs Hl. apply seg_alter_ne; [done| |exact (Forall2_lookup_lr _ _ _ _ _ _ Hcs Hs Hl)].
  contradict Hni. apply elem_of_concat. eauto.
Qed.

Lemma qrep_alter i f :
  (∀ th, next (f th) = next th) → qrep (alter f i tab) hs ls.
Proof.
  intros Hf. destruct Hrep as [Hcs Hnd]. split; [|done].
  eapply Forall2_impl; [exact Hcs|]. intros s l. by apply seg_alter.
Qed.

(** Appending thread [t], whose link is [-1], to queue [q]. *)
Lemma qrep_push_nil q t th :
  ls !! q = Some [] → t ∉ concat ls → 0 < t →
  tab !! Z.to_nat t = Some th → next th = -1 →
  qrep tab (<[q:=t]> hs) (<[q:=[t]]> ls).
Proof.
  intros Hq Hni Ht Hth Hn. eapply qrep_replace; [done|apply NoDup_singleton|..].
  - intros u ->%list_elem_of_singleton. by right.
  - done.
  - by eapply seg_single.
Qed.

Lemma qrep_push q l p t th :
  ls !! q = Some (l ++ [p]) → t ∉ concat ls → 0 < t →
  tab !! Z.to_nat t = Some th → next th = -1 →
  qrep (alter (set_next t) (Z.to_nat p) tab) hs (<[q:=l ++ [p] ++ [t]]> ls).
Proof.
  intros Hq Hni Ht Hth Hn. destruct (qrep_chain _ _ Hq) as (s & Hs & Hc).
  assert (Hp : p ∈ l ++ [p]) by (apply elem_of_app; right; by left).
  assert (Htl : t ∉ l ++ [p]) by (contradict Hni; apply elem_of_concat; eauto).
  pose proof (qrep_nodup _ _ Hq) as Hnd. pose proof (seg_pos _ _ _ _ _ Hc Hp).
  rewrite <- (list_insert_id hs q s Hs). rewrite (assoc_L (++)).
  eapply qrep_replace; [done|..].
  - apply NoDup_app. split_and!; [done| |apply NoDup_singleton].
    intros u Hu ->%list_elem_of_singleton. done.
  - intros u [?|Hu]%elem_of_app; [by left|right]. by apply list_elem_of_singleton in Hu as ->.
  - intros s2 i l2 Hi Hl2. apply seg_alter_ne; [lia|]. by eapply (qrep_disjoint q _ i).
  - apply seg_app. exists t. split.
    + eapply seg_relink; [done|]. apply NoDup_app in Hnd as (_ & Hd & _).
      intros Hpl. eapply Hd; [done|by left].
    + eapply seg_single; [done| |exact Hn].
      rewrite list_lookup_alter_ne; [done|]. intros E.
      assert (t = p) as -> by lia. done.
Qed.

(** Removing the head of queue [q], or the successor of [p] in it. *)
Lemma qrep_pop q t l th :
  ls !! q = Some (t :: l) → tab !! Z.to_nat t = Some th →
  qrep tab (<[q:=next th]> hs) (<[q:=l]> ls) ∧ t ∉ concat (<[q:=l]> ls).
Proof.
  intros Hq Hth. destruct (qrep_chain _ _ Hq) as (s & Hs & Hc).
  pose proof (qrep_nodup _ _ Hq) as Hnd. apply NoDup_cons in Hnd as [Hni Hnd].
  destruct Hc as (-> & Ht & th' & Hth' & Hc). simplify_eq. split.
  - eapply qrep_replace; [done|done|..|done]; [|done]. intros u Hu. left. by right.
  - destruct (concat_split ls q _ Hq) as (rest & Hp & Hins & _). rewrite Hins.
    pose proof (q_nodup _ _ _ Hrep) as Hnd2. rewrite Hp in Hnd2.
    by apply NoDup_cons in Hnd2 as [? _].
Qed.

Lemma qrep_unlink q l1 p t l2 th :
  ls !! q = Some (l1 ++ p :: t :: l2) → tab !! Z.to_nat t = Some th →
  qrep (alter (set_next (next th)) (Z.to_nat p) tab) hs (<[q:=l1 ++ p :: l2]> ls) ∧
  t ∉ concat (<[q:=l1 ++ p :: l2]> ls).
Proof.
  intros Hq Hth. destruct (qrep_chain _ _ Hq) as (s & Hs & Hc).
  pose proof (qrep_nodup _ _ Hq) as Hnd.
  assert (Hpin : p ∈ l1 ++ p :: t :: l2) by (apply elem_of_app; right; by left).
  pose proof (seg_pos _ _ _ _ _ Hc Hpin).
  assert (Hperm : l1 ++ p :: t :: l2 ≡ₚ t :: l1 ++ p :: l2) by solve_Permutation.
  rewrite Hperm in Hnd. apply NoDup_cons in Hnd as [Htni Hnd].
  pose proof Hnd as (Hnd1 & Hd1 & Hnd2)%NoDup_app. apply NoDup_cons in Hnd2 as [Hp2 _].
  rewrite (cons_middle p), (assoc_L (++)) in Hc. apply seg_app in Hc as (m & Hc1 & Hc2).
  destruct Hc2 as (-> & _ & th' & Hth' & Hc2). simplify_eq. split.
  - rewrite <- (list_insert_id hs q s Hs). eapply qrep_replace; [done|done|..].
    + intros u Hu. left. rewrite Hperm. by right.
    + intros s2 i l3 Hi Hl3. apply seg_alter_ne; [lia|]. by eapply (qrep_disjoint q _ i).
    + rewrite (cons_middle p), (assoc_L (++)). apply seg_app. exists (next th). split.
      * eapply seg_relink; [done|]. intros ?. eapply Hd1; [done|by left].
      * apply seg_alter_ne; [lia|done|done].
  - destruct (concat_split ls q _ Hq) as (rest & Hp & Hins & _). rewrite Hins.
    pose proof (q_nodup _ _ _ Hrep) as Hndc. rewrite Hp, Hperm in Hndc.
    by apply NoDup_cons in Hndc as [? _].
Qed.
End queue_family.
