(* ===== verification/SchedRef.v ===== *)
(** * The scheduler and the sleep queue implement their specification

    Each queue operation of Threads.v, started in a kernel that represents an
    abstract state of ThreadsRef.v, returns in a kernel that represents the
    abstract successor state, and leaves locks, current threads and timer as
    they were.  The statements are total: no fault, no failed assertion, no
    unbounded traversal. *)

From S2P Require Import Prelude Threads ThreadsRef.

(** [m], started in [k], returns in a kernel that represents [a]. *)
Definition refines (m : outcome kernel) (k : kernel) (a : athreads) : Prop :=
  returns m (λ k', krep k' a ∧ kframe k k').

Definition tid_ok (t : Z) : Prop := 0 ≤ t < CONFIG_MAX_THREADS.

Lemma refines_bind m k a (f : kernel → outcome kernel) a' :
  refines m k a → (∀ k1, krep k1 a → kframe k k1 → refines (f k1) k1 a') →
  refines (outcome_bind f m) k a'.
Proof.
  intros Hm Hf. apply returns_bind. eapply returns_mono; [exact Hm|].
  intros k1 [Hr Hk]. eapply returns_mono; [by apply Hf|].
  intros k2 [Hr2 Hk2]. split; [done|]. by etrans.
Qed.

Lemma refines_step {B} m k a (f : kernel → outcome B) Q :
  refines m k a → (∀ k1, krep k1 a → kframe k k1 → returns (f k1) Q) →
  returns (outcome_bind f m) Q.
Proof.
  intros Hm Hf. apply returns_bind. eapply returns_mono; [exact Hm|].
  intros k1 [??]. by apply Hf.
Qed.

Lemma refines_done k a : krep k a → refines (Done k) k a.
Proof. by intros. Qed.

Lemma alter_insert_lookup {A} (f : A → A) (l : list A) (i : nat) x :
  l !! i = Some x → alter f i l = <[i:=f x]> l.
Proof.
  intros Hx. apply list_eq. intros j. rewrite list_lookup_alter, list_lookup_insert.
  pose proof (lookup_lt_Some _ _ _ Hx).
  destruct (decide (i = j)) as [->|].
  - rewrite decide_True by done. by rewrite Hx.
  - by rewrite decide_False by naive_solver.
Qed.

Lemma upd_thread_in_range t f k :
  0 ≤ t < Z.of_nat (length (thread_table k)) →
  upd_thread t f k = Done (set_thread_table (alter f (Z.to_nat t) (thread_table k)) k).
Proof.
  intros Ht. unfold upd_thread. destruct (aread_in_range _ _ Ht) as (th & Hth & ->).
  cbn [outcome_bind]. rewrite awrite_in_range by done. cbn [outcome_bind].
  by rewrite (alter_insert_lookup _ _ _ _ Hth).
Qed.

Lemma alter_commute {A} (f g : A → A) (l : list A) (i j : nat) :
  i ≠ j → alter f i (alter g j l) = alter g j (alter f i l).
Proof.
  intros Hij. apply list_eq. intros n. rewrite !list_lookup_alter.
  repeat case_decide; congruence.
Qed.

(** Links are not part of the abstract table. *)
Lemma erase_alter_next (tab : list thread_table_t) (i : nat) x : erase <$> alter (set_next x) i tab = erase <$> tab.
Proof.
  rewrite (list_fmap_alter _ _ id); [|by apply Forall_forall]. by rewrite list_alter_id.
Qed.

Section refinement.
Context (k : kernel) (a : athreads).
Hypothesis Hk : krep k a.

Lemma krep_aread t :
  tid_ok t → ∃ th, aread (thread_table k) t = Done th ∧ a_thread a t = Some (erase th) ∧
    thread_table k !! Z.to_nat t = Some th.
Proof.
  intros Ht. destruct (aread_in_range (thread_table k) t) as (th & Hth & E).
  { rewrite (kr_len _ _ Hk). done. }
  exists th. split_and!; [done| |done]. unfold a_thread.
  by rewrite <- (kr_tab _ _ Hk), list_lookup_fmap, Hth.
Qed.

Lemma krep_upd_raw t f :
  tid_ok t →
  upd_thread t f k = Done (set_thread_table (alter f (Z.to_nat t) (thread_table k)) k).
Proof. intros Ht. apply upd_thread_in_range. by rewrite (kr_len _ _ Hk). Qed.

(** Updating a field other than the link. *)
Lemma krep_upd t f :
  (∀ th, erase (f th) = f (erase th)) → (∀ th, next (f th) = next th) → tid_ok t →
  refines (upd_thread t f k) k (a_upd t f a).
Proof.
  intros Hf Hn Ht. rewrite krep_upd_raw by done. destruct Hk as [Htab Hlen Hq Htl Hhl].
  split; [|done]. split; simpl; try done.
  - rewrite (list_fmap_alter _ _ f); [by f_equal|]. apply Forall_forall. auto.
  - by rewrite length_alter.
  - by apply qrep_alter.
Qed.

(** Updating the link of a thread that is in no queue. *)
Lemma krep_upd_next t x :
  tid_ok t → t ∉ concat (queues a) → refines (upd_thread t (set_next x) k) k a.
Proof.
  intros Ht Hni. rewrite krep_upd_raw by done. destruct Hk as [Htab Hlen Hq Htl Hhl].
  split; [|done]. split; simpl; try done.
  - by rewrite erase_alter_next.
  - by rewrite length_alter.
  - apply qrep_alter_free; [done|by destruct Ht|done].
Qed.

Lemma krep_ready_pos t : t ∈ a_ready a → 0 < t < CONFIG_MAX_THREADS.
Proof.
  intros Ht. rewrite <- (kr_len _ _ Hk). eapply qrep_pos; [apply (kr_queues _ _ Hk)|].
  apply elem_of_app. by left.
Qed.

Lemma krep_head : ready_head k = default (-1) (head (a_ready a)).
Proof.
  destruct (kr_queues _ _ Hk) as [Hc _]. apply Forall2_cons in Hc as [Hc _].
  by eapply chain_start.
Qed.
End refinement.

Lemma tid_ok_bool t : tid_ok t → (0 <=? t) && (t <? CONFIG_MAX_THREADS) = true.
Proof. unfold tid_ok. intros. kcase; [|lia]. kcase; [done|lia]. Qed.

(** ** Ready list *)

(** [scheduler_add_to_ready_list] appends. *)
Lemma add_to_ready_list_refines k a t :
  krep k a → 0 < t < CONFIG_MAX_THREADS → t ∉ concat (queues a) →
  refines (scheduler_add_to_ready_list t k) k (a_push t a).
Proof.
  intros Hk Ht Hni. assert (tid_ok t) by (unfold tid_ok; lia).
  unfold scheduler_add_to_ready_list.
  rewrite kassert_bind by (destruct (Z.eqb_spec t IDLE_THREAD_TID); [unfold IDLE_THREAD_TID in *; lia|done]).
  rewrite kassert_bind by (by apply tid_ok_bool).
  destruct (krep_aread k a Hk t) as (th & _ & _ & Hth); [done|].
  pose proof Hk as [Htab Hlen Hq Htl Hhl]. rewrite Htl.
  assert (Hfree := qrep_alter_free _ _ _ Hq t (set_next (-1)) ltac:(lia) Hni).
  assert (Hth' : alter (set_next (-1)) (Z.to_nat t) (thread_table k) !! Z.to_nat t
                 = Some (set_next (-1) th)) by (by rewrite list_lookup_alter_eq, Hth).
  destruct (a_ready a) as [|u l] eqn:Er using rev_ind.
  - change (default (-1) (last []) <? 0) with true. cbn iota.
    rewrite upd_thread_in_range by (simpl; lia). split; [|done]. split; simpl; try done.
    + by rewrite erase_alter_next.
    + by rewrite length_alter.
    + unfold queues in *. rewrite Er in Hfree, Hni. unfold a_push. simpl. rewrite Er.
      eapply (qrep_push_nil _ _ _ Hfree 0 t _ eq_refl); [done|lia|done|done].
    + by rewrite Er.
  - clear IHl. rewrite last_snoc. cbn [default from_option id].
    assert (Hu : 0 < u < CONFIG_MAX_THREADS).
    { eapply krep_ready_pos; [done|]. rewrite Er. apply elem_of_app. right. by left. }
    assert (Hut : u ≠ t).
    { intros ->. apply Hni. apply elem_of_app. left. rewrite Er.
      apply elem_of_app. right. by left. }
    destruct (Z.ltb_spec u 0); [lia|].
    rewrite upd_thread_in_range by lia. cbn [outcome_bind].
    rewrite upd_thread_in_range by (simpl; rewrite length_alter; lia). cbn [outcome_bind].
    split; [|done]. split; simpl; try done.
    + by rewrite !erase_alter_next.
    + by rewrite !length_alter.
    + rewrite alter_commute by lia. unfold queues in *. rewrite Er in Hfree, Hni. simpl.
      rewrite Er, <- (assoc_L (++)).
      eapply (qrep_push _ _ _ Hfree 0 l u t _ eq_refl); [done|lia|done|done].
    + by rewrite last_snoc.
Qed.

(** [scheduler_remove_first_ready] takes the head, or selects the idle thread. *)
Lemma remove_first_ready_refines k a :
  krep k a →
  (∀ t th, t ∈ a_ready a → a_thread a t = Some th → state th = THREAD_READY) →
  returns (scheduler_remove_first_ready k)
    (λ '(t, k'), t = fst (a_pop a) ∧ krep k' (snd (a_pop a)) ∧ kframe k k').
Proof.
  intros Hk Hst. unfold scheduler_remove_first_ready, a_pop. rewrite (krep_head k a Hk).
  destruct (a_ready a) as [|t l] eqn:Er; [done|]. cbn [default from_option id head].
  assert (Ht : 0 < t < CONFIG_MAX_THREADS).
  { eapply krep_ready_pos; [done|]. rewrite Er. by left. }
  destruct (Z.eqb_spec t IDLE_THREAD_TID); [unfold IDLE_THREAD_TID in *; lia|].
  destruct (Z.leb_spec 0 t); [|lia]. cbn [negb kassert outcome_bind].
  destruct (krep_aread k a Hk t) as (th & -> & Ha & Hth); [unfold tid_ok; lia|].
  cbn [outcome_bind]. rewrite kassert_bind.
  2: { apply bool_decide_eq_true. eapply (Hst t (erase th)); [by left|done]. }
  pose proof Hk as [Htab Hlen Hq Htl Hhl]. unfold queues in Hq. rewrite Er in Hq.
  destruct (qrep_pop _ _ _ Hq 0 t l th eq_refl Hth) as [Hq' Hni].
  split_and!; [done| |done]. split; simpl; try done.
  rewrite Htl, Er. destruct l as [|u l].
  - simpl. by rewrite Z.eqb_refl.
  - rewrite last_cons_cons. destruct (last (u :: l)) as [p|] eqn:El.
    2: { by apply last_None in El. }
    cbn [default from_option id]. destruct (Z.eqb_spec p t) as [->|]; [|done].
    exfalso. apply Hni. apply (elem_of_app (u :: l)). left. by apply last_Some_elem_of.
Qed.

(** ** Traversals of a sleep-queue row *)

(** A queue is shorter than the thread table. *)
Lemma queue_length k a q l :
  krep k a → queues a !! q = Some l → (length l < list_fuel)%nat.
Proof.
  intros Hk Hl. destruct Hk as [_ Hlen Hq _ _].
  assert (l ⊆+ seqZ 1 (CONFIG_MAX_THREADS - 1)) as Hs%submseteq_length.
  { apply NoDup_submseteq; [by eapply qrep_nodup|]. intros t Ht. apply elem_of_seqZ.
    assert (0 < t < CONFIG_MAX_THREADS); [|lia].
    rewrite <- Hlen. eapply qrep_pos; [done|]. apply elem_of_concat. eauto. }
  rewrite length_seqZ in Hs. unfold list_fuel, CONFIG_MAX_THREADS in *. lia.
Qed.

Lemma seg_next_pos tab s t l e : seg tab s (t :: l) e → s = t ∧ 0 < t.
Proof. simpl. naive_solver. Qed.

Lemma sleepq_last_from tab s l p fuel :
  chain tab s (l ++ [p]) → (length l < fuel)%nat →
  while_loop fuel (λ p0, let* th := aread tab p0 in
    if 0 <? next th then Done (inl (next th)) else Done (inr p0)) s = Done p.
Proof.
  revert s fuel. induction l as [|t l IH]; intros s fuel Hc Hf;
    (destruct fuel as [|fuel]; [simpl in Hf; lia|]);
    destruct Hc as (-> & Ht & th & Hth & Hc); cbn [while_loop];
    rewrite (aread_Some _ _ th) by (done || lia); cbn [outcome_bind].
  - simpl in Hc. by rewrite Hc.
  - assert (0 < next th).
    { destruct l as [|u l]; apply seg_next_pos in Hc as [-> ?]; done. }
    destruct (Z.ltb_spec 0 (next th)); [|lia]. apply IH; [done|simpl in Hf; lia].
Qed.

Definition waits (tab : list thread_table_t) (res t : Z) : bool :=
  match tab !! Z.to_nat t with Some th => sleeps_on th =? res | None => false end.

Lemma waits_on_eq k a res t : krep k a → waits (thread_table k) res t = waits_on a res t.
Proof.
  intros [Htab _ _ _ _]. unfold waits, waits_on, a_thread. rewrite <- Htab, list_lookup_fmap.
  by destruct (_ !! _).
Qed.

Lemma split_first_Some p l t r :
  split_first p l = Some (t, r) →
  ∃ l1 l2, l = l1 ++ t :: l2 ∧ r = l1 ++ l2 ∧ p t = true ∧ Forall (λ u, p u = false) l1.
Proof.
  revert r. induction l as [|u l IH]; intros r; simpl; [done|].
  destruct (p u) eqn:Ep; intros E.
  - simplify_eq. by exists [], r.
  - destruct (split_first p l) as [[v r']|]; simplify_eq.
    destruct (IH r' eq_refl) as (l1 & l2 & -> & -> & ? & ?).
    exists (u :: l1), l2. split_and!; auto.
Qed.

Lemma split_first_None p l : split_first p l = None → Forall (λ u, p u = false) l.
Proof.
  induction l as [|u l IH]; simpl; [by intros; constructor|].
  destruct (p u) eqn:?; [done|]. destruct (split_first p l) as [[??]|]; [done|].
  intros _. constructor; auto.
Qed.

Lemma default_last_cons (x y : Z) l : default x (last (y :: l)) = default y (last l).
Proof.
  destruct l as [|z l]; [done|]. rewrite last_cons_cons.
  destruct (last (z :: l)) eqn:E; [done|]. by apply last_None in E.
Qed.

(** The search stops at the first waiter, remembering its predecessor. *)
Lemma sleepq_find_at tab res prev s l1 l2 e :
  seg tab s (l1 ++ l2) e → e = -1 → Forall (λ u, waits tab res u = false) l1 →
  match l2 with t :: _ => waits tab res t = true | [] => True end →
  (length l1 < list_fuel)%nat →
  sleepq_find tab res prev s = Done (default prev (last l1), default (-1) (head l2)).
Proof.
  intros Hc -> Hl1 Hl2. unfold sleepq_find. generalize list_fuel as fuel.
  intros fuel Hf. revert prev s fuel Hc Hf. induction l1 as [|t l1 IH]; intros prev s fuel Hc Hf;
    (destruct fuel as [|fuel]; [simpl in Hf; lia|]); cbn [while_loop].
  - destruct l2 as [|t l2]; [simpl in Hc; by subst|].
    destruct Hc as (-> & Ht & th & Hth & _).
    destruct (Z.ltb_spec 0 t); [|lia]. rewrite (aread_Some _ _ th) by (done || lia).
    cbn [outcome_bind]. unfold waits in Hl2. rewrite Hth in Hl2. by rewrite Hl2.
  - destruct Hc as (-> & Ht & th & Hth & Hc). apply Forall_cons in Hl1 as [Hw Hl1].
    destruct (Z.ltb_spec 0 t); [|lia]. rewrite (aread_Some _ _ th) by (done || lia).
    cbn [outcome_bind]. unfold waits in Hw. rewrite Hth in Hw. rewrite Hw. cbn [negb].
    rewrite (IH Hl1 t _ fuel Hc) by (simpl in Hf; lia). by rewrite default_last_cons.
Qed.

(** ** Sleep queue *)
Lemma hash_range res : 0 ≤ SLEEPQ_HASH res < SLEEPQ_HASHTABLE_SIZE.
Proof. apply Z.mod_pos_bound. done. Qed.

(** Locks and the interrupt flag are not represented. *)
Lemma krep_sleepq_slock k a x : krep (set_sleepq_slock x k) a ↔ krep k a.
Proof. split; intros []; by split. Qed.
Lemma krep_thread_slock k a x : krep (set_thread_table_slock x k) a ↔ krep k a.
Proof. split; intros []; by split. Qed.
Lemma krep_intr k a x : krep (set_intr x k) a ↔ krep k a.
Proof. split; intros []; by split. Qed.

Lemma krep_bucket k a res :
  krep k a →
  ∃ s, aread (sleepq_hashtable k) (SLEEPQ_HASH res) = Done s ∧
    chain (thread_table k) s (a_bucket a res) ∧
    queues a !! S (Z.to_nat (SLEEPQ_HASH res)) = Some (a_bucket a res).
Proof.
  intros [_ _ Hq _ Hhl]. pose proof (hash_range res).
  destruct (aread_in_range (sleepq_hashtable k) (SLEEPQ_HASH res)) as (s & Hs & E); [lia|].
  exists s. split; [done|]. destruct Hq as [Hc _]. apply Forall2_cons in Hc as [_ Hc].
  destruct (Forall2_lookup_l _ _ _ _ _ Hc Hs) as (l & Hl & Hch).
  assert (a_bucket a res = l) as -> by (unfold a_bucket; by rewrite Hl).
  split; [done|]. by simpl.
Qed.

(** A refinement inside a critical section is one of the whole section. *)
Lemma acquire_thread_free k :
  thread_table_slock k = 0 → acquire_thread_table k = Done (set_thread_table_slock 1 k).
Proof. intros Hs. unfold acquire_thread_table. by rewrite Hs. Qed.

Lemma acquire_sleepq_free k :
  sleepq_slock k = 0 → acquire_sleepq k = Done (set_sleepq_slock 1 k).
Proof. intros Hs. unfold acquire_sleepq. by rewrite Hs. Qed.

Lemma refines_release_thread k m a :
  thread_table_slock k = 0 → refines m (set_thread_table_slock 1 k) a →
  refines (let* k2 := m in Done (release_thread_table k2)) k a.
Proof.
  intros Hs Hm. apply returns_bind. eapply returns_mono; [exact Hm|].
  intros k2 [Hr []]. split; [by apply krep_thread_slock|]. by split; simpl in *.
Qed.

Lemma refines_release_sleepq k m a :
  sleepq_slock k = 0 → refines m (set_sleepq_slock 1 k) a →
  refines (let* k2 := m in Done (release_sleepq k2)) k a.
Proof.
  intros Hs Hm. apply returns_bind. eapply returns_mono; [exact Hm|].
  intros k2 [Hr []]. split; [by apply krep_sleepq_slock|]. by split; simpl in *.
Qed.

Lemma refines_release_intr k m a :
  sleepq_slock k = 0 → refines m (set_sleepq_slock 1 (set_intr false k)) a →
  refines (let* k2 := m in Done (set_intr (intr k) (release_sleepq k2))) k a.
Proof.
  intros Hs Hm. apply returns_bind. eapply returns_mono; [exact Hm|].
  intros k2 [Hr []]. split; [by apply krep_intr, krep_sleepq_slock|].
  by split; simpl in *.
Qed.

(** Linking a free thread with link [-1] at the end of its row. *)
Lemma sleepq_append k a t res :
  krep k a → 0 < t → t ∉ concat (queues a) →
  (∃ th, thread_table k !! Z.to_nat t = Some th ∧ next th = -1) →
  refines (let* first := aread (sleepq_hashtable k) (SLEEPQ_HASH res) in
    if first <=? 0 then
      let* h := awrite (sleepq_hashtable k) (SLEEPQ_HASH res) t in Done (set_hashtable h k)
    else
      let* prev := sleepq_last (thread_table k) first in
      upd_thread prev (set_next t) k) k (a_set_bucket res (a_bucket a res ++ [t]) a).
Proof.
  intros Hk Ht Hni (th & Hth & Hn). destruct (krep_bucket k a res Hk) as (s & -> & Hc & Hb).
  pose proof Hk as [Htab Hlen Hq Htl Hhl]. pose proof (hash_range res).
  cbn [outcome_bind]. assert (Hlen' := queue_length k a _ _ Hk Hb).
  destruct (a_bucket a res) as [|p l _] eqn:Eb using rev_ind.
  - change (s = -1) in Hc. subst s. cbn [Z.leb Z.compare]. rewrite awrite_in_range by lia.
    split; [|done]. split; simpl; try done.
    + by apply (qrep_push_nil _ _ _ Hq _ t th Hb).
    + by rewrite length_insert.
  - assert (0 < s).
    { destruct l; apply seg_next_pos in Hc as [-> ?]; done. }
    destruct (Z.leb_spec s 0); [lia|]. unfold sleepq_last.
    rewrite (sleepq_last_from _ s l p) by (done || (rewrite length_app in Hlen'; lia)).
    cbn [outcome_bind].
    assert (0 < p < Z.of_nat (length (thread_table k))).
    { eapply seg_pos; [exact Hc|]. apply elem_of_app. right. by left. }
    rewrite upd_thread_in_range by lia. split; [|done]. split; simpl; try done.
    + by rewrite erase_alter_next.
    + by rewrite length_alter.
    + rewrite <- (assoc_L (++)). by apply (qrep_push _ _ _ Hq _ l p t th Hb).
Qed.

Lemma concat_queues_upd t f a : queues (a_upd t f a) = queues a.
Proof. done. Qed.

(** [sleepq_add] puts the current thread last in the row of the resource. *)
Lemma sleepq_add_refines k a cpu t res :
  krep k a → intr k = false → sleepq_slock k = 0 →
  aread (scheduler_current_thread k) cpu = Done t →
  0 < t < CONFIG_MAX_THREADS → t ∉ concat (queues a) → is_u32 res →
  refines (sleepq_add cpu res k) k (a_sleep_add t res a).
Proof.
  intros Hk Hi Hs Hcur Ht Hni Hres. assert (Hok : tid_ok t) by (unfold tid_ok; lia).
  unfold sleepq_add. rewrite (u32_id res), Hi, Hcur by done. cbn [outcome_bind].
  rewrite (krep_upd_raw k a Hk) by done. cbn [outcome_bind].
  set (k1 := set_thread_table _ k).
  assert (Hk1 : krep k1 a).
  { pose proof (krep_upd_next k a Hk t (-1) Hok Hni) as Hu.
    rewrite (krep_upd_raw k a Hk) in Hu by done. by destruct Hu. }
  rewrite (krep_upd_raw k1 a Hk1) by done. cbn [outcome_bind].
  set (k2 := set_thread_table _ k1).
  assert (Hk2 : krep k2 (a_upd t (set_sleeps_on res) a)).
  { pose proof (krep_upd k1 a Hk1 t (set_sleeps_on res) (λ _, eq_refl) (λ _, eq_refl) Hok) as Hu.
    rewrite (krep_upd_raw k1 a Hk1) in Hu by done. by destruct Hu. }
  rewrite kassert_bind.
  2: { destruct (Z.eqb_spec t IDLE_THREAD_TID); [unfold IDLE_THREAD_TID in *; lia|done]. }
  rewrite acquire_sleepq_free by done. cbn [outcome_bind].
  destruct (krep_aread k a Hk t Hok) as (th & _ & _ & Hth).
  rewrite bind_assoc. eapply returns_mono; [apply (refines_release_sleepq k2); [done|]|].
  - apply sleepq_append; [by apply krep_sleepq_slock|lia|done|].
    eexists. simpl. rewrite !list_lookup_alter_eq, Hth. simpl. done.
  - intros k3 [Hr Hf]. split; [exact Hr|]. etrans; [|exact Hf]. done.
Qed.

(** Releasing a thread that has been unlinked. *)
Lemma sleepq_release_refines k a t :
  krep k a → thread_table_slock k = 0 → 0 < t < CONFIG_MAX_THREADS →
  t ∉ concat (queues a) →
  refines (sleepq_release_thread t k) k (a_release t a).
Proof.
  intros Hk Hs Ht Hni. assert (Hok : tid_ok t) by (unfold tid_ok; lia).
  unfold sleepq_release_thread, a_release. rewrite acquire_thread_free by done.
  cbn [outcome_bind].
  eapply refines_step.
  { apply krep_upd; [by apply krep_thread_slock|done|done|done]. }
  intros k1 Hk1 Hf1. eapply refines_step; [by apply krep_upd_next|]. intros k2 Hk2 Hf2.
  destruct (krep_aread k2 _ Hk2 t Hok) as (th & -> & Ha & _). cbn [outcome_bind].
  rewrite Ha. change (state (erase th)) with (state th).
  assert (Hf : kframe (set_thread_table_slock 1 k) k2) by (by etrans).
  destruct Hf as [Hf1' Hf2' Hf3' Hf4' Hf5' Hf6'].
  eapply refines_step with (k := k2).
  - instantiate (1 := if bool_decide (state th = THREAD_SLEEPING) then _ else _).
    case_bool_decide; [|by apply refines_done].
    eapply refines_bind; [by apply krep_upd|]. intros k3 Hk3 _.
    by apply add_to_ready_list_refines.
  - intros k3 Hk3 []. split; [by apply krep_thread_slock|].
    split; simpl in *; congruence.
Qed.

(** Unlinking [t], which follows [l1] in its row. *)
Lemma sleepq_unlink_refines k a res l1 t l2 :
  krep k a → a_bucket a res = l1 ++ t :: l2 →
  returns (sleepq_unlink (SLEEPQ_HASH res) (default (-1) (last l1)) t k)
    (λ '(nxt, k'), krep k' (a_set_bucket res (l1 ++ l2) a) ∧ kframe k k' ∧
       chain (thread_table k') nxt l2 ∧
       t ∉ concat (queues (a_set_bucket res (l1 ++ l2) a)) ∧ 0 < t < CONFIG_MAX_THREADS).
Proof.
  intros Hk Eb. destruct (krep_bucket k a res Hk) as (s & _ & Hc & Hb).
  pose proof Hk as [Htab Hlen Hq Htl Hhl]. pose proof (hash_range res). rewrite Eb in Hc, Hb.
  assert (Ht : 0 < t < CONFIG_MAX_THREADS).
  { rewrite <- Hlen. eapply seg_pos; [exact Hc|]. apply elem_of_app. right. by left. }
  pose proof (qrep_nodup _ _ _ Hq _ _ Hb) as Hnd.
  destruct (krep_aread k a Hk t) as (th & Ea & _ & Hth); [unfold tid_ok; lia|].
  unfold sleepq_unlink. rewrite Ea. cbn [outcome_bind].
  pose proof Hc as Hc'. apply seg_app in Hc' as (m & Hc1 & -> & _ & th' & Hth' & Hc2).
  simplify_eq. destruct l1 as [|p l1 _] using rev_ind.
  - cbn [last default from_option id Z.leb Z.compare].
    rewrite awrite_in_range by lia. cbn [outcome_bind returns].
    destruct (qrep_pop _ _ _ Hq _ t l2 th Hb Hth) as [Hq' Hni].
    split_and!; [|done|done|done|lia|lia]. split; simpl; try done. by rewrite length_insert.
  - rewrite last_snoc. cbn [default from_option id].
    assert (0 < p < CONFIG_MAX_THREADS).
    { rewrite <- Hlen. eapply seg_pos; [exact Hc|]. rewrite <- (assoc_L (++)).
      apply elem_of_app. right. by left. }
    destruct (Z.leb_spec p 0); [lia|].
    rewrite <- (assoc_L (++)) in Hb, Hnd. cbn [app] in Hb, Hnd.
    destruct (qrep_unlink _ _ _ Hq _ l1 p t l2 th Hb Hth) as [Hq' Hni].
    rewrite upd_thread_in_range by lia. cbn [outcome_bind returns].
    rewrite <- (assoc_L (++)). split_and!; [|done| |done|lia|lia].
    + split; simpl; try done; [by rewrite erase_alter_next|by rewrite length_alter].
    + apply seg_alter_ne; [lia| |done]. apply NoDup_app in Hnd as (_ & _ & Hnd).
      apply NoDup_cons in Hnd as [Hni2 _]. intros ?. apply Hni2. by right.
Qed.

(** [sleepq_wake] releases the first waiter, if there is one. *)
Lemma sleepq_wake_refines k a res :
  krep k a → sleepq_slock k = 0 → thread_table_slock k = 0 →
  refines (sleepq_wake res k) k (a_wake res a).
Proof.
  intros Hk Hs Hts. unfold sleepq_wake. rewrite acquire_sleepq_free by done.
  cbn [outcome_bind]. set (k1 := set_sleepq_slock 1 _).
  assert (Hk1 : krep k1 a) by (by apply krep_sleepq_slock, krep_intr).
  destruct (krep_bucket k1 a res Hk1) as (s & -> & Hc & Hb). cbn [outcome_bind].
  pose proof (queue_length _ _ _ _ Hk1 Hb) as Hlen. unfold a_wake.
  assert (Hw : ∀ l, Forall (λ u, waits_on a res u = false) l →
    Forall (λ u, waits (thread_table k1) res u = false) l).
  { intros l Hl. eapply Forall_impl; [exact Hl|]. intros u. by rewrite (waits_on_eq k1 a). }
  destruct (split_first _ _) as [[t r]|] eqn:Es.
  - apply split_first_Some in Es as (l1 & l2 & Eb & -> & Ht & Hl1). rewrite Eb in Hc, Hlen.
    rewrite (sleepq_find_at _ _ _ _ l1 (t :: l2) _ Hc) by
      (eauto; first [by rewrite (waits_on_eq k1 a) | rewrite length_app in Hlen; lia]).
    cbn [default from_option id head outcome_bind].
    assert (0 < t).
    { eapply seg_pos; [exact Hc|]. apply elem_of_app. right. by left. }
    destruct (Z.ltb_spec 0 t); [|lia]. apply refines_release_intr; [done|].
    apply returns_bind. eapply returns_mono; [by apply sleepq_unlink_refines|].
    intros [nxt k2] (Hk2 & Hf & _ & Hni & Ht').
    eapply returns_mono; [apply sleepq_release_refines; [done| |done|done]|].
    + by rewrite (kf_tslock _ _ Hf).
    + intros k3 [? ?]. split; [done|]. by etrans.
  - apply split_first_None in Es.
    rewrite (sleepq_find_at _ _ _ _ (a_bucket a res) [] (-1)) by
      (rewrite ?app_nil_r; eauto; done).
    cbn [default from_option id head outcome_bind Z.ltb Z.compare].
    by apply (refines_release_intr k (Done k1)).
Qed.

(** ** Waking all waiters *)
Lemma a_release_set_bucket t res l a :
  a_set_bucket res l (a_release t a) = a_release t (a_set_bucket res l a).
Proof.
  unfold a_release, a_thread, a_set_bucket. simpl.
  destruct (alter _ _ _ !! _); [|done]. by case_bool_decide.
Qed.

Lemma a_set_bucket_twice res l l' a :
  a_set_bucket res l (a_set_bucket res l' a) = a_set_bucket res l a.
Proof. unfold a_set_bucket. simpl. by rewrite list_insert_insert_eq. Qed.

Lemma a_bucket_set res l a :
  (Z.to_nat (SLEEPQ_HASH res) < length (a_sleep a))%nat →
  a_bucket (a_set_bucket res l a) res = l.
Proof. intros. unfold a_bucket. simpl. by rewrite list_lookup_insert_eq. Qed.

Lemma a_release_sleep t a : a_sleep (a_release t a) = a_sleep a.
Proof.
  unfold a_release. destruct (a_thread _ _); [|done]. by case_bool_decide.
Qed.

Lemma a_thread_upd t f a u :
  0 ≤ t → 0 ≤ u →
  a_thread (a_upd t f a) u = if decide (t = u) then f <$> a_thread a u else a_thread a u.
Proof.
  intros Ht Hu. unfold a_thread. simpl. rewrite list_lookup_alter.
  destruct (decide (t = u)) as [->|Hne]; [by rewrite decide_True|].
  rewrite decide_False; [done|lia].
Qed.

Lemma a_release_thread_ne t a u :
  0 ≤ t → 0 ≤ u → t ≠ u → a_thread (a_release t a) u = a_thread a u.
Proof.
  intros Ht Hu Hne. unfold a_release.
  assert (E : a_thread (a_upd t (set_sleeps_on 0) a) u = a_thread a u).
  { rewrite a_thread_upd by done. by rewrite decide_False. }
  destruct (a_thread _ t); [|done]. case_bool_decide; [|done].
  change (a_thread (a_push t ?b)) with (a_thread b).
  rewrite a_thread_upd by done. by rewrite decide_False.
Qed.

Lemma sleep_length k a res :
  krep k a → (Z.to_nat (SLEEPQ_HASH res) < length (a_sleep a))%nat.
Proof.
  intros Hk. destruct (krep_bucket k a res Hk) as (_ & _ & _ & Hb).
  apply lookup_lt_Some in Hb. simpl in Hb. lia.
Qed.

(** What is left of [a_wake_all] when the row is [l1 ++ l2] and [l1] has been
    scanned. *)
Definition wake_rest (res : Z) (a : athreads) (l1 l2 : list Z) : athreads :=
  foldl (λ a' t, a_release t a')
    (a_set_bucket res (l1 ++ List.filter (λ t, negb (waits_on a res t)) l2) a)
    (List.filter (waits_on a res) l2).

Lemma filter_none (p : Z → bool) l :
  Forall (λ u, p u = false) l →
  List.filter p l = [] ∧ List.filter (λ u, negb (p u)) l = l.
Proof.
  induction 1 as [|u l Hu _ [IH1 IH2]]; [done|]. simpl. rewrite Hu. simpl.
  by rewrite IH1, IH2.
Qed.

Lemma filter_agree (p q : Z → bool) l :
  (∀ u, u ∈ l → p u = q u) → List.filter p l = List.filter q l.
Proof.
  induction l as [|u l IH]; intros H; [done|]. simpl.
  rewrite IH by (intros; apply H; by right). by rewrite (H u) by (by left).
Qed.

Lemma wake_rest_step res a l1 m1 t m2 :
  Forall (λ u, waits_on a res u = false) m1 → waits_on a res t = true →
  0 ≤ t → (∀ u, u ∈ m2 → 0 ≤ u ∧ t ≠ u) →
  wake_rest res (a_release t (a_set_bucket res ((l1 ++ m1) ++ m2) a)) (l1 ++ m1) m2
  = wake_rest res a l1 (m1 ++ t :: m2).
Proof.
  intros Hm1 Ht Ht0 Hm2. destruct (filter_none _ _ Hm1) as [E1 E2].
  set (a' := a_release _ _).
  assert (Hw : ∀ u, u ∈ m2 → waits_on a' res u = waits_on a res u).
  { intros u [??]%Hm2. unfold waits_on. subst a'. by rewrite a_release_thread_ne. }
  unfold wake_rest. rewrite !List.filter_app. simpl. rewrite E1, E2, Ht. simpl.
  rewrite (filter_agree (waits_on a' res) (waits_on a res) m2) by done.
  rewrite (filter_agree (λ u, negb (waits_on a' res u)) (λ u, negb (waits_on a res u)) m2)
    by (intros; by rewrite Hw).
  subst a'. by rewrite a_release_set_bucket, a_set_bucket_twice, (assoc_L (++)).
Qed.

Lemma chain_cons_pos tab s t l : chain tab s (t :: l) → 0 < s.
Proof. by intros [-> ?]%seg_next_pos. Qed.

(** The first waiter splits the unscanned part of the row. *)
Lemma first_waiter p (l : list Z) :
  (∃ m1 t m2, l = m1 ++ t :: m2 ∧ p t = true ∧ Forall (λ u, p u = false) m1)
  ∨ Forall (λ u, p u = false) l.
Proof.
  destruct (split_first p l) as [[t r]|] eqn:E.
  - apply split_first_Some in E as (l1 & l2 & ? & _ & ? & ?). left. eauto 6.
  - right. by apply split_first_None.
Qed.

Definition wake_all_body (res : Z) : Z * Z * kernel → outcome ((Z * Z * kernel) + kernel) :=
  λ '(prev, first, k),
    if 0 <? first then
      let* '(prev, first) := sleepq_find (thread_table k) res prev first in
      if 0 <? first then
        let* '(nxt, k) := sleepq_unlink (SLEEPQ_HASH res) prev first k in
        let* k := sleepq_release_thread first k in
        Done (inl (prev, nxt, k))
      else Done (inl (prev, first, k))
    else Done (inr k).

(** The unscanned part of the row is a chain from its head. *)
Lemma bucket_suffix k a res l1 l2 :
  krep k a → a_bucket a res = l1 ++ l2 →
  chain (thread_table k) (default (-1) (head l2)) l2 ∧
  (length l1 + length l2 < list_fuel)%nat ∧ Forall (λ t, 0 < t) l2 ∧ NoDup (l1 ++ l2).
Proof.
  intros Hk Eb. destruct (krep_bucket k a res Hk) as (s & _ & Hc & Hb).
  pose proof (queue_length _ _ _ _ Hk Hb) as Hlen.
  pose proof (qrep_nodup _ _ _ (kr_queues _ _ Hk) _ _ Hb) as Hnd.
  rewrite Eb in Hc, Hlen, Hnd. rewrite length_app in Hlen.
  apply seg_app in Hc as (m & _ & Hc). pose proof (chain_start _ _ _ Hc). subst m.
  split_and!; [done|lia| |done]. apply Forall_forall. intros t Ht.
  by apply (seg_pos _ _ _ _ _ Hc).
Qed.

(** One iteration that finds a waiter. *)
Lemma wake_all_iter res k a l1 m1 t m2 :
  krep k a → thread_table_slock k = 0 → a_bucket a res = l1 ++ m1 ++ t :: m2 →
  Forall (λ u, waits_on a res u = false) m1 → waits_on a res t = true →
  returns (wake_all_body res (default (-1) (last l1), default (-1) (head (m1 ++ t :: m2)), k))
    (λ r, ∃ k', r = inl (default (-1) (last (l1 ++ m1)), default (-1) (head m2), k') ∧
       krep k' (a_release t (a_set_bucket res ((l1 ++ m1) ++ m2) a)) ∧ kframe k k').
Proof.
  intros Hk Hs Eb Hm1 Ht. destruct (bucket_suffix k a res _ _ Hk Eb) as (Hc & Hlen & Hp & _).
  apply Forall_app in Hp as [_ [Hp _]%Forall_cons].
  assert (Hpos : 0 < default (-1) (head (m1 ++ t :: m2))) by (destruct m1; by eapply chain_cons_pos).
  unfold wake_all_body. destruct (Z.ltb_spec 0 (default (-1) (head (m1 ++ t :: m2)))); [|lia].
  assert (Hw : Forall (λ u, waits (thread_table k) res u = false) m1).
  { eapply Forall_impl; [exact Hm1|]. intros u. by rewrite (waits_on_eq k a). }
  rewrite length_app in Hlen.
  rewrite (sleepq_find_at _ _ _ _ m1 (t :: m2) _ Hc) by
    (eauto; first [by rewrite (waits_on_eq k a) | lia]).
  cbn [default from_option id head outcome_bind].
  destruct (Z.ltb_spec 0 t); [|lia].
  assert (El : from_option id (from_option id (-1) (last l1)) (last m1)
               = default (-1) (last (l1 ++ m1))).
  { destruct m1 as [|p m1 _] using rev_ind; [by rewrite app_nil_r|].
    by rewrite (assoc_L (++)), !last_snoc. }
  rewrite El. apply returns_bind.
  eapply returns_mono; [apply (sleepq_unlink_refines k a res (l1 ++ m1) t m2); [done|]|].
  { by rewrite <- (assoc_L (++)). }
  intros [nxt k2] (Hk2 & Hf & Hc2 & Hni & Ht').
  eapply refines_step; [apply sleepq_release_refines; [done| |done|done]|].
  { by rewrite (kf_tslock _ _ Hf). }
  intros k3 Hk3 Hf3. exists k3. rewrite (chain_start _ _ _ Hc2).
  split_and!; [done|done|by etrans].
Qed.

Lemma a_set_bucket_same k a res : krep k a → a_set_bucket res (a_bucket a res) a = a.
Proof.
  intros Hk. unfold a_set_bucket, a_bucket.
  destruct (lookup_lt_is_Some_2 (a_sleep a) _ (sleep_length k a res Hk)) as [l El].
  rewrite El. simpl. rewrite list_insert_id by done. by destruct a.
Qed.

Lemma wake_rest_none k a res l1 l2 :
  krep k a → a_bucket a res = l1 ++ l2 → Forall (λ u, waits_on a res u = false) l2 →
  wake_rest res a l1 l2 = a.
Proof.
  intros Hk Eb Hw. destruct (filter_none _ _ Hw) as [E1 E2]. unfold wake_rest.
  rewrite E1, E2, <- Eb. simpl. by eapply a_set_bucket_same.
Qed.

(** The last scan finds nobody: the loop ends. *)
Lemma wake_all_end res k a l1 l2 fuel :
  krep k a → a_bucket a res = l1 ++ l2 → Forall (λ u, waits_on a res u = false) l2 →
  (length l2 < fuel)%nat →
  while_loop fuel (wake_all_body res) (default (-1) (last l1), default (-1) (head l2), k)
  = Done k.
Proof.
  intros Hk Eb Hw Hf. destruct (bucket_suffix k a res _ _ Hk Eb) as (Hc & Hlen & _ & _).
  destruct l2 as [|t l2]; (destruct fuel as [|fuel]; [simpl in Hf; lia|]); [done|].
  cbn [while_loop wake_all_body]. pose proof (chain_cons_pos _ _ _ _ Hc).
  destruct (Z.ltb_spec 0 (default (-1) (head (t :: l2)))); [|lia].
  rewrite (sleepq_find_at _ _ _ _ (t :: l2) [] (-1)).
  - cbn [outcome_bind default from_option id head Z.ltb Z.compare].
    destruct fuel; [simpl in Hf; lia|done].
  - by rewrite app_nil_r.
  - done.
  - eapply Forall_impl; [exact Hw|]. intros u. by rewrite (waits_on_eq k a).
  - done.
  - lia.
Qed.

Lemma wake_all_loop n : ∀ l2 l1 res k a fuel,
  (length l2 ≤ n)%nat → (n < fuel)%nat →
  krep k a → thread_table_slock k = 0 → a_bucket a res = l1 ++ l2 →
  refines (while_loop fuel (wake_all_body res)
    (default (-1) (last l1), default (-1) (head l2), k)) k (wake_rest res a l1 l2).
Proof.
  induction n as [|n IH]; intros l2 l1 res k a fuel Hn Hf Hk Hs Eb;
    destruct (first_waiter (waits_on a res) l2) as [(m1 & t & m2 & -> & Ht & Hm1)|Hw];
    try (rewrite (wake_all_end _ _ a) by (done || lia);
         rewrite (wake_rest_none k) by done; by apply refines_done).
  { rewrite length_app in Hn. simpl in Hn. lia. }
  destruct (bucket_suffix k a res _ _ Hk Eb) as (_ & _ & Hp & Hnd).
  destruct fuel as [|fuel]; [lia|]. cbn [while_loop].
  pose proof (wake_all_iter res k a l1 m1 t m2 Hk Hs Eb Hm1 Ht) as Hi.
  apply returns_inv in Hi as (r & -> & k' & -> & Hk' & Hfr).
  apply Forall_app in Hp as [_ [Hpt Hp2]%Forall_cons].
  apply NoDup_app in Hnd as (_ & _ & Hnd). apply NoDup_app in Hnd as (_ & _ & Hnd).
  apply NoDup_cons in Hnd as [Htm2 _].
  rewrite <- (wake_rest_step res a l1 m1 t m2); [|done|done|lia|].
  - eapply returns_mono; [apply (IH m2 (l1 ++ m1)); try done|].
    + rewrite length_app in Hn. simpl in Hn. lia.
    + lia.
    + by rewrite (kf_tslock _ _ Hfr).
    + unfold a_bucket at 1. rewrite a_release_sleep. by apply a_bucket_set, (sleep_length k).
    + intros k2 [??]. split; [done|]. by etrans.
  - intros u Hu. rewrite Forall_forall in Hp2. specialize (Hp2 u Hu).
    split; [lia|]. by intros ->.
Qed.

(** [sleepq_wake_all] releases every waiter, in queue order. *)
Lemma sleepq_wake_all_refines k a res :
  krep k a → sleepq_slock k = 0 → thread_table_slock k = 0 →
  refines (sleepq_wake_all res k) k (a_wake_all res a).
Proof.
  intros Hk Hs Hts. unfold sleepq_wake_all. rewrite acquire_sleepq_free by done.
  cbn [outcome_bind]. set (k1 := set_sleepq_slock 1 _).
  assert (Hk1 : krep k1 a) by (by apply krep_sleepq_slock, krep_intr).
  destruct (krep_bucket k1 a res Hk1) as (s & -> & Hc & Hb). cbn [outcome_bind].
  apply refines_release_intr; [done|]. rewrite (chain_start _ _ _ Hc).
  apply (wake_all_loop list_fuel (a_bucket a res) [] res k1 a (S list_fuel));
    [|lia|done|done|done].
  pose proof (queue_length _ _ _ _ Hk1 Hb). lia.
Qed.

(** ** The represented state is unique *)
Lemma chain_inj tab s l1 l2 : chain tab s l1 → chain tab s l2 → l1 = l2.
Proof.
  unfold chain. revert s l2. induction l1 as [|t l1 IH]; intros s [|u l2]; simpl.
  - done.
  - intros -> (? & ? & _). lia.
  - intros (-> & ? & _) ?. lia.
  - intros (-> & _ & th & Hth & H1) (-> & _ & th' & Hth' & H2). simplify_eq.
    f_equal. by eapply IH.
Qed.

(** A kernel represents at most one abstract state. *)
Lemma krep_functional k a b : krep k a → krep k b → a = b.
Proof.
  intros Ha Hb. destruct (kr_queues _ _ Ha) as [Ca _], (kr_queues _ _ Hb) as [Cb _].
  assert (Hq : queues a = queues b).
  { revert Ca Cb. generalize (queues a) (queues b) (ready_head k :: sleepq_hashtable k).
    intros la lb hs Ca. revert lb. induction Ca as [|s l hs la Hc _ IH]; intros lb Cb.
    - by apply Forall2_nil_inv_l in Cb.
    - apply Forall2_cons_inv_l in Cb as (l' & lb' & Hc' & Cb & ->).
      f_equal; [by eapply chain_inj|by apply IH]. }
  unfold queues in Hq. injection Hq as Hr Hs.
  pose proof (kr_tab _ _ Ha). pose proof (kr_tab _ _ Hb). destruct a, b. simpl in *. congruence.
Qed.
