(* ===== verification/SchedInv.v ===== *)
(** * Threads are never lost

    The invariant of thread.c, scheduler.c and sleepq.c: a thread is on the
    ready list exactly when it is ready, current on a CPU exactly when it runs
    (or is dying), and in the sleep queue's row of the resource it waits for
    exactly when it waits; nothing sleeps without waiting.  Every operation
    returns and preserves it, so it holds after every sequence of operations
    from boot ([kstep]). *)

From S2P Require Import Prelude Threads ThreadsRef SchedRef.

(** ** The invariant of the abstract state

    [det] lists the threads a wake-up in progress has unlinked from their row
    but not released yet. *)
Record tinv (a : athreads) (curs det : list Z) (t : Z) (th : thread_table_t) : Prop := {
  ti_ready : t ∈ a_ready a ↔ state th = THREAD_READY;
  ti_cur : t ∈ curs ↔ state th = THREAD_RUNNING ∨ state th = THREAD_DYING;
  ti_sleep : ∀ h, t ∈ default [] (a_sleep a !! h) ↔
    sleeps_on th ≠ 0 ∧ t ∉ det ∧ h = Z.to_nat (SLEEPQ_HASH (sleeps_on th));
  ti_det : t ∈ det → sleeps_on th ≠ 0;
  ti_wait : sleeps_on th ≠ 0 → state th = THREAD_RUNNING ∨ state th = THREAD_SLEEPING;
  ti_blocked : state th = THREAD_SLEEPING → sleeps_on th ≠ 0
}.

Record ainv (a : athreads) (curs det : list Z) : Prop := {
  ai_threads : ∀ t th, 0 < t → a_thread a t = Some th → tinv a curs det t th;
  ai_idle : ∀ th, a_thread a IDLE_THREAD_TID = Some th →
    sleeps_on th = 0 ∧ (state th = THREAD_READY ∨ state th = THREAD_RUNNING);
  ai_curs : Forall tid_ok curs;
  ai_inj : ∀ i j t, curs !! i = Some t → curs !! j = Some t → 0 < t → i = j
}.

(** ** The invariant of the kernel between two operations *)
Record kinv (k : kernel) : Prop := {
  ki_rep : ∃ a, krep k a ∧ ainv a (scheduler_current_thread k) [];
  ki_tslock : thread_table_slock k = 0;
  ki_sslock : sleepq_slock k = 0;
  ki_tid : tid_ok (next_tid k);
  ki_cpus : Z.of_nat (length (scheduler_current_thread k)) = CONFIG_MAX_CPUS
}.

Lemma tinv_frame a a' curs curs' det det' t th :
  tinv a curs det t th →
  (t ∈ a_ready a' ↔ t ∈ a_ready a) → (t ∈ curs' ↔ t ∈ curs) → (t ∈ det' ↔ t ∈ det) →
  (∀ h, t ∈ default [] (a_sleep a' !! h) ↔ t ∈ default [] (a_sleep a !! h)) →
  tinv a' curs' det' t th.
Proof.
  intros [H1 H2 H3 H4 H5 H6] Hr Hc Hd Hs. split; try done.
  - by rewrite Hr.
  - by rewrite Hc.
  - intros h. by rewrite Hs, Hd, H3.
  - by rewrite Hd.
Qed.

(** An operation that changes the row of one thread. *)
Lemma ainv_change a a' curs curs' det det' t f :
  ainv a curs det → 0 ≤ t →
  (∀ u, 0 ≤ u → a_thread a' u = if decide (t = u) then f <$> a_thread a u else a_thread a u) →
  (∀ u th, 0 < u → u ≠ t → a_thread a u = Some th →
     tinv a curs det u th → tinv a' curs' det' u th) →
  (∀ th, 0 < t → a_thread a t = Some th → tinv a curs det t th → tinv a' curs' det' t (f th)) →
  (∀ th, t = 0 → a_thread a 0 = Some th → sleeps_on th = 0 →
     sleeps_on (f th) = 0 ∧ (state (f th) = THREAD_READY ∨ state (f th) = THREAD_RUNNING)) →
  Forall tid_ok curs' →
  (∀ i j u, curs' !! i = Some u → curs' !! j = Some u → 0 < u → i = j) →
  ainv a' curs' det'.
Proof.
  intros Ha Ht Hth Hne Heq Hid Hc Hi. split; [..|done|done].
  - intros u th Hu. rewrite Hth by lia. case_decide as E.
    + subst u. destruct (a_thread a t) eqn:El; [|done]. intros [= <-].
      eapply Heq; [done|done|]. by eapply ai_threads.
    + intros El. eapply Hne; [done|congruence|done|]. by eapply ai_threads.
  - intros th. unfold IDLE_THREAD_TID. rewrite Hth by lia. case_decide as E.
    + destruct (a_thread a 0) eqn:El; [|done]. intros [= <-].
      eapply Hid; [done|done|]. by apply (ai_idle _ _ _ Ha).
    + by apply (ai_idle _ _ _ Ha).
Qed.

(** ** Rows of the sleep queue *)
Lemma set_bucket_lookup a res l h :
  (Z.to_nat (SLEEPQ_HASH res) < length (a_sleep a))%nat →
  default [] (a_sleep (a_set_bucket res l a) !! h) =
  if decide (h = Z.to_nat (SLEEPQ_HASH res)) then l else default [] (a_sleep a !! h).
Proof.
  intros Hl. simpl. case_decide as E.
  - subst h. by rewrite list_lookup_insert_eq.
  - by rewrite list_lookup_insert_ne.
Qed.

(** Unlinking the threads [det] from the row of [res]. *)
Lemma detach_inv a curs res l' det :
  (Z.to_nat (SLEEPQ_HASH res) < length (a_sleep a))%nat →
  ainv a curs [] →
  (∀ t, t ∈ l' ↔ t ∈ a_bucket a res ∧ t ∉ det) →
  (∀ t, t ∈ det → t ∈ a_bucket a res) →
  ainv (a_set_bucket res l' a) curs det.
Proof.
  intros Hl [Hth Hid Hcs Hin] Hl' Hdet. split; [|done..]. intros t th Ht Ea.
  destruct (Hth t th Ht Ea) as [H1 H2 H3 H4 H5 H6].
  assert (Hb : t ∈ a_bucket a res ↔ sleeps_on th ≠ 0 ∧
    Z.to_nat (SLEEPQ_HASH res) = Z.to_nat (SLEEPQ_HASH (sleeps_on th))).
  { unfold a_bucket. rewrite H3. set_solver. }
  split; try done.
  - intros h. rewrite set_bucket_lookup by done. case_decide as E.
    + subst h. rewrite Hl', Hb. naive_solver.
    + rewrite H3. split; [|set_solver]. intros (? & _ & ->). split_and!; [done| |done].
      intros Hd%Hdet. apply Hb in Hd as [_ Hd]. congruence.
  - intros Hd%Hdet. by apply Hb in Hd as [? _].
Qed.

(** ** Wake-ups *)
Definition release_row (th : thread_table_t) : thread_table_t :=
  if bool_decide (state th = THREAD_SLEEPING)
  then set_state THREAD_READY (set_sleeps_on 0 th) else set_sleeps_on 0 th.

Lemma release_row_thread t a u :
  0 ≤ t → 0 ≤ u → a_thread (a_release t a) u
  = if decide (t = u) then release_row <$> a_thread a u else a_thread a u.
Proof.
  intros Ht Hu. case_decide as E; [subst u|by apply a_release_thread_ne].
  unfold a_release, release_row. rewrite a_thread_upd by done. rewrite decide_True by done.
  destruct (a_thread a t) as [th|] eqn:El; simpl.
  - case_bool_decide.
    + change (a_thread (a_push t ?b)) with (a_thread b).
      rewrite !a_thread_upd by done. rewrite !decide_True by done. by rewrite El.
    + rewrite a_thread_upd by done. rewrite decide_True by done. by rewrite El.
  - rewrite a_thread_upd by done. rewrite decide_True by done. by rewrite El.
Qed.

Lemma release_ready t a th :
  0 ≤ t → a_thread a t = Some th →
  a_ready (a_release t a) =
  if bool_decide (state th = THREAD_SLEEPING) then a_ready a ++ [t] else a_ready a.
Proof.
  intros Ht El. unfold a_release. rewrite a_thread_upd by done.
  rewrite decide_True, El by done. simpl. by case_bool_decide.
Qed.

Lemma elem_of_snoc (t u : Z) l : u ∈ l ++ [t] ↔ u ∈ l ∨ u = t.
Proof. by rewrite elem_of_app, list_elem_of_singleton. Qed.

Lemma release_inv a curs det t th :
  0 < t → a_thread a t = Some th → t ∉ det →
  ainv a curs (t :: det) → ainv (a_release t a) curs det.
Proof.
  intros Ht El Hni Ha.
  apply (ainv_change a _ curs _ (t :: det) _ t release_row); [done|lia|..].
  - intros u Hu. apply release_row_thread; lia.
  - intros u thu Hu Hne _ Hi. apply (tinv_frame _ _ _ _ _ _ _ _ Hi); [|done|..].
    + rewrite (release_ready t a th) by (done || lia).
      case_bool_decide; [|done]. rewrite elem_of_snoc. naive_solver.
    + rewrite elem_of_cons. naive_solver.
    + intros h. by rewrite a_release_sleep.
  - intros th' _ El' [H1 H2 H3 H4 H5 H6]. simplify_eq.
    specialize (H4 ltac:(by left)). specialize (H5 H4). unfold release_row.
    split; rewrite ?(release_ready t a th) by (done || lia).
    + case_bool_decide; simpl; rewrite ?elem_of_snoc; [naive_solver|].
      rewrite H1. naive_solver.
    + rewrite H2. case_bool_decide; simpl; naive_solver congruence.
    + intros h. rewrite a_release_sleep, H3. case_bool_decide; simpl; set_solver.
    + done.
    + case_bool_decide; simpl; done.
    + case_bool_decide; simpl; naive_solver.
  - intros th' ->. lia.
  - by apply ai_curs in Ha.
  - by destruct Ha.
Qed.

Lemma release_all_inv a curs det :
  NoDup det → (∀ t, t ∈ det → 0 < t ∧ is_Some (a_thread a t)) →
  ainv a curs det → ainv (foldl (λ a' t, a_release t a') a det) curs [].
Proof.
  revert a. induction det as [|t det IH]; intros a Hnd Hok Ha; simpl; [done|].
  apply NoDup_cons in Hnd as [Hni Hnd]. destruct (Hok t) as [Ht [th El]]; [by left|].
  apply IH; [done| |by eapply release_inv]. intros u Hu.
  destruct (Hok u) as [Hu0 Hs]; [by right|]. split; [done|].
  rewrite a_release_thread_ne; [done|lia|lia|]. by intros ->.
Qed.

(** A row holds valid threads without repetition. *)
Lemma bucket_ok k a res :
  krep k a → NoDup (a_bucket a res) ∧
  ∀ t, t ∈ a_bucket a res → 0 < t ∧ is_Some (a_thread a t).
Proof.
  intros Hk. destruct (bucket_suffix k a res [] _ Hk eq_refl) as (Hc & _ & Hp & Hnd).
  split; [done|]. intros t Ht. rewrite Forall_forall in Hp. specialize (Hp t Ht).
  split; [done|]. destruct (krep_aread k a Hk t) as (th & _ & -> & _); [|done].
  pose proof (seg_pos _ _ _ _ _ Hc Ht). rewrite (kr_len _ _ Hk) in *. unfold tid_ok. lia.
Qed.

Lemma wake_inv k a curs res :
  krep k a → ainv a curs [] → ainv (a_wake res a) curs [].
Proof.
  intros Hk Ha. unfold a_wake. destruct (split_first _ _) as [[t l]|] eqn:Es; [|done].
  apply split_first_Some in Es as (l1 & l2 & Eb & -> & _ & _).
  destruct (bucket_ok k a res Hk) as [Hnd Hok]. rewrite Eb in Hnd, Hok.
  rewrite <- Permutation_middle in Hnd. apply NoDup_cons in Hnd as [Hni Hnd].
  apply (release_all_inv (a_set_bucket res (l1 ++ l2) a) curs [t]).
  - apply NoDup_singleton.
  - intros u ->%list_elem_of_singleton. apply Hok. apply elem_of_app. right. by left.
  - apply detach_inv; [by eapply sleep_length|done|..]; rewrite Eb; set_solver.
Qed.

Lemma wake_all_inv k a curs res :
  krep k a → ainv a curs [] → ainv (a_wake_all res a) curs [].
Proof.
  intros Hk Ha. unfold a_wake_all. destruct (bucket_ok k a res Hk) as [Hnd Hok].
  assert (Hf : ∀ p (l : list Z) t, t ∈ List.filter p l ↔ t ∈ l ∧ p t = true).
  { intros p l t. by rewrite !list_elem_of_In, List.filter_In. }
  apply release_all_inv.
  - apply NoDup_ListNoDup, List.NoDup_filter, NoDup_ListNoDup, Hnd.
  - intros t [Ht _]%Hf. by apply Hok.
  - apply detach_inv; [by eapply sleep_length|done|..].
    + intros t. rewrite !Hf. destruct (waits_on a res t); naive_solver.
    + intros t [Ht _]%Hf. done.
Qed.

(** ** Going to sleep, starting and ending *)
Lemma sleep_add_inv k a curs t th res :
  krep k a → ainv a curs [] → 0 < t → a_thread a t = Some th →
  state th = THREAD_RUNNING → sleeps_on th = 0 → res ≠ 0 →
  ainv (a_sleep_add t res a) curs [].
Proof.
  intros Hk Ha Ht El Hst Hsl Hres. pose proof (sleep_length k a res Hk) as Hlen.
  unfold a_sleep_add.
  apply (ainv_change a _ curs _ [] _ t (set_sleeps_on res)); [done|lia|..].
  - intros u Hu. apply (a_thread_upd t _ a u); lia.
  - intros u thu Hu Hne _ Hi. apply (tinv_frame _ _ _ _ _ _ _ _ Hi); [done..|].
    intros h. rewrite set_bucket_lookup by done. case_decide; [|done]. subst h.
    rewrite elem_of_snoc. unfold a_bucket. naive_solver.
  - intros th' _ El' [H1 H2 H3 H4 H5 H6]. simplify_eq. split; try done.
    + intros h. rewrite set_bucket_lookup by done. case_decide; rewrite ?elem_of_snoc.
      * subst h. simpl. set_solver.
      * simpl. rewrite H3. split; [|set_solver]. intros (? & _ & ->). congruence.
    + by left.
  - intros th' ->. lia.
  - by apply ai_curs in Ha.
  - by destruct Ha.
Qed.

(** A change of state of a thread that is not involved in any queue. *)
Lemma upd_inv a curs t th f :
  ainv a curs [] → 0 < t → a_thread a t = Some th →
  sleeps_on th = 0 → sleeps_on (f th) = 0 → state th ≠ THREAD_READY →
  state (f th) ≠ THREAD_READY → state (f th) ≠ THREAD_SLEEPING →
  (state (f th) = THREAD_RUNNING ∨ state (f th) = THREAD_DYING ↔
   state th = THREAD_RUNNING ∨ state th = THREAD_DYING) →
  ainv (a_upd t f a) curs [].
Proof.
  intros Ha Ht El Hs Hs' Hr Hr' Hsl Hrun.
  apply (ainv_change a _ curs _ [] _ t f); [done|lia|..].
  - intros u Hu. apply a_thread_upd; lia.
  - intros u thu Hu Hne _ Hi. by apply (tinv_frame _ _ _ _ _ _ _ _ Hi).
  - intros th' _ El' [H1 H2 H3 H4 H5 H6]. simplify_eq. split; try done.
    + simpl. rewrite H1. done.
    + by rewrite H2, Hrun.
    + intros h. simpl. rewrite H3, Hs'. naive_solver.
    + by intros ?%not_elem_of_nil.
  - intros th' ->. lia.
  - by apply ai_curs in Ha.
  - by destruct Ha.
Qed.

(** A non-running thread becomes ready. *)
Lemma start_inv a curs t th :
  ainv a curs [] → 0 < t → a_thread a t = Some th → state th = THREAD_NONREADY →
  ainv (a_upd t (set_state THREAD_READY) (a_push t a)) curs [].
Proof.
  intros Ha Ht El Hs.
  apply (ainv_change a _ curs _ [] _ t (set_state THREAD_READY)); [done|lia|..].
  - intros u Hu. apply (a_thread_upd t _ (a_push t a) u); lia.
  - intros u thu Hu Hne _ Hi. apply (tinv_frame _ _ _ _ _ _ _ _ Hi); [|done..].
    simpl. rewrite elem_of_snoc. naive_solver.
  - intros th' _ El' [H1 H2 H3 H4 H5 H6]. simplify_eq. split; simpl; try done.
    + rewrite elem_of_snoc. naive_solver.
    + rewrite H2, Hs. naive_solver.
    + intros Hsl. rewrite Hs in H5. naive_solver.
  - intros th' ->. lia.
  - by apply ai_curs in Ha.
  - by destruct Ha.
Qed.

(** Threads that are not on a queue: the rows an operation may relink. *)
Lemma not_queued k a curs t th :
  krep k a → ainv a curs [] → a_thread a t = Some th → 0 < t →
  state th ≠ THREAD_READY → sleeps_on th = 0 → t ∉ concat (queues a).
Proof.
  intros Hk Ha El Ht Hs Hsl (q & l & Hl & Hin)%elem_of_concat.
  destruct (ai_threads _ _ _ Ha t th Ht El) as [H1 _ H3 _ _ _].
  destruct q as [|h]; simpl in Hl; simplify_eq.
  - by apply Hs, H1.
  - specialize (H3 h). rewrite Hl in H3. simpl in H3. naive_solver.
Qed.

Lemma current_of_cpu k a curs (cpu : nat) t :
  krep k a → ainv a curs [] → curs !! cpu = Some t → 0 < t →
  ∃ th, a_thread a t = Some th ∧ (state th = THREAD_RUNNING ∨ state th = THREAD_DYING).
Proof.
  intros Hk Ha Hc Ht. pose proof (ai_curs _ _ _ Ha) as Hok. rewrite Forall_lookup in Hok.
  destruct (krep_aread k a Hk t (Hok cpu t Hc)) as (th & _ & El & _).
  exists (erase th). split; [done|].
  apply (ai_threads _ _ _ Ha t _ Ht El), list_elem_of_lookup. eauto.
Qed.

(** ** Scheduling *)
Definition cur_inj (curs : list Z) : Prop :=
  ∀ i j t, curs !! i = Some t → curs !! j = Some t → 0 < t → i = j.

Lemma cur_insert_elem curs (cpu : nat) cur x u :
  cur_inj curs → curs !! cpu = Some cur → 0 < u →
  u ∈ <[cpu:=x]> curs ↔ u = x ∨ (u ∈ curs ∧ u ≠ cur).
Proof.
  intros Hinj Hc Hu. pose proof (lookup_lt_Some _ _ _ Hc). rewrite !list_elem_of_lookup.
  split.
  - intros [i Hi]. destruct (decide (i = cpu)) as [->|Hne].
    + rewrite list_lookup_insert_eq in Hi by done. naive_solver.
    + rewrite list_lookup_insert_ne in Hi by done. right. split; [eauto|].
      intros ->. by destruct (Hinj i cpu cur).
  - intros [->|[[i Hi] Hne]].
    + exists cpu. by apply list_lookup_insert_eq.
    + exists i. rewrite list_lookup_insert_ne; [done|]. intros ->. congruence.
Qed.

Lemma cur_insert_inj curs (cpu : nat) x :
  cur_inj curs → (0 < x → x ∉ curs) → cur_inj (<[cpu:=x]> curs).
Proof.
  intros Hinj Hx i j t Hi Hj Ht.
  assert (Hin : ∀ n u, curs !! n = Some u → u ∈ curs) by eauto using list_elem_of_lookup_2.
  rewrite list_lookup_insert in Hi, Hj. repeat case_decide; destruct_and?; simplify_eq; eauto.
  - exfalso. apply Hx; eauto.
  - exfalso. apply Hx; eauto.
Qed.

(** The thread that gives up the CPU [cpu]. *)
Lemma retire_inv a curs (cpu : nat) cur :
  ainv a curs [] → curs !! cpu = Some cur → is_Some (a_thread a cur) →
  ainv (a_retire cur a) (<[cpu:=IDLE_THREAD_TID]> curs) [].
Proof.
  intros Ha Hc [thc Hthc]. pose proof (ai_curs _ _ _ Ha) as Hok.
  assert (Hcur : tid_ok cur) by (rewrite Forall_lookup in Hok; eauto).
  pose proof (ai_inj _ _ _ Ha : cur_inj curs) as Hinj.
  assert (Hself : cur ∈ curs) by (by eapply list_elem_of_lookup_2).
  apply (ainv_change a _ curs _ [] _ cur (λ th,
    if bool_decide (state th = THREAD_DYING) then set_state THREAD_FREE th
    else if negb (sleeps_on th =? 0) then set_state THREAD_SLEEPING th
    else set_state THREAD_READY th)); [done|unfold tid_ok in Hcur; lia|..].
  - intros u Hu. unfold a_retire. rewrite Hthc.
    case_bool_decide; [|destruct (negb _) eqn:En; [|destruct (negb (cur =? IDLE_THREAD_TID))]].
    all: change (a_thread (a_upd ?t ?f (a_push ?t' ?b)) u) with (a_thread (a_upd t f b) u).
    all: rewrite a_thread_upd by (unfold tid_ok in Hcur; lia); case_decide; [|done]; subst u.
    all: rewrite Hthc; simpl; by rewrite ?bool_decide_true, ?bool_decide_false, ?En by done.
  - intros u thu Hu Hne _ Hi. apply (tinv_frame _ _ _ _ _ _ _ _ Hi).
    + unfold a_retire. rewrite Hthc. case_bool_decide; [done|]. destruct (negb _); [done|].
      destruct (negb _); [|done]. simpl. rewrite elem_of_snoc. naive_solver.
    + rewrite (cur_insert_elem curs cpu cur) by done. unfold IDLE_THREAD_TID. split; [|naive_solver].
      intros [->|[? _]]; [lia|done].
    + done.
    + intros h. unfold a_retire. rewrite Hthc. case_bool_decide; [done|].
      destruct (negb _); [done|]. by destruct (negb _).
  - intros th Ht0 El [H1 H2 H3 H4 H5 H6]. simplify_eq.
    assert (Hrun := proj1 H2 Hself).
    assert (Hgone : cur ∉ <[cpu:=IDLE_THREAD_TID]> curs).
    { rewrite (cur_insert_elem curs cpu cur) by done. unfold IDLE_THREAD_TID. naive_solver lia. }
    unfold a_retire. rewrite Hthc. case_bool_decide as Hd.
    + split; simpl; [rewrite H1, Hd; naive_solver|naive_solver|done|done| |done].
      intros [?|?]%H5; congruence.
    + destruct (Z.eqb_spec (sleeps_on thc) 0) as [E0|E0]; cbn [negb].
      * destruct (Z.eqb_spec cur IDLE_THREAD_TID); [unfold IDLE_THREAD_TID in *; lia|].
        cbn [negb]. split; simpl; [|by split; [|intros []]|done|done|by intros []|done].
        rewrite elem_of_snoc. split; [done|by right].
      * split; simpl; [|by split; [|intros []]|done|done|by right|done].
        rewrite H1. split; [|done]. intros E. destruct Hrun; congruence.
  - intros th -> El Hsl. assert (El' := El). apply (ai_idle _ _ _ Ha) in El' as [_ Hst].
    rewrite bool_decide_false by (destruct Hst; congruence). rewrite Hsl. simpl. split; [done|by left].
  - apply Forall_insert; [done|]. by vm_compute.
  - apply cur_insert_inj; [done|]. unfold IDLE_THREAD_TID. lia.
Qed.

(** The thread that is given the CPU. *)
Lemma dispatch_inv k a curs (cpu : nat) :
  krep k a → ainv a curs [] → curs !! cpu = Some IDLE_THREAD_TID →
  ainv (a_upd (fst (a_pop a)) (set_state THREAD_RUNNING) (snd (a_pop a)))
    (<[cpu:=fst (a_pop a)]> curs) [].
Proof.
  intros Hk Ha Hc. pose proof (ai_inj _ _ _ Ha : cur_inj curs) as Hinj.
  pose proof (krep_ready_pos k a Hk) as Hpos.
  pose proof (qrep_nodup _ _ _ (kr_queues _ _ Hk) 0 _ eq_refl) as Hnd.
  unfold a_pop. destruct (a_ready a) as [|t r] eqn:Er; cbn [fst snd].
  - rewrite list_insert_id by done.
    apply (ainv_change a _ curs _ [] _ IDLE_THREAD_TID (set_state THREAD_RUNNING)); [done|done|..].
    + intros u Hu. by apply a_thread_upd.
    + intros u thu Hu Hne _ Hi. by apply (tinv_frame _ _ _ _ _ _ _ _ Hi).
    + done.
    + intros th _ El Hsl. split; [done|by right].
    + by apply ai_curs in Ha.
    + done.
  - assert (Ht : 0 < t < CONFIG_MAX_THREADS) by (apply Hpos; by left).
    apply NoDup_cons in Hnd as [Hni Hnd].
    apply (ainv_change a _ curs _ [] _ t (set_state THREAD_RUNNING)); [done|lia|..].
    + intros u Hu. apply (a_thread_upd t _ (AThreads (a_tab a) r (a_sleep a)) u); lia.
    + intros u thu Hu Hne _ Hi. apply (tinv_frame _ _ _ _ _ _ _ _ Hi); [| |done..].
      * simpl. rewrite Er, elem_of_cons. naive_solver.
      * rewrite (cur_insert_elem curs cpu IDLE_THREAD_TID) by done.
        unfold IDLE_THREAD_TID. naive_solver lia.
    + intros th _ El [H1 H2 H3 H4 H5 H6]. rewrite Er in H1.
      assert (Hst : state th = THREAD_READY) by (apply H1; by left).
      split; simpl; try done.
      * rewrite (cur_insert_elem curs cpu IDLE_THREAD_TID) by (done || lia). naive_solver.
      * intros ?%H5. naive_solver.
    + intros th ->. lia.
    + apply Forall_insert; [by apply ai_curs in Ha|]. unfold tid_ok. lia.
    + apply cur_insert_inj; [done|]. intros _ Hin.
      destruct (krep_aread k a Hk t) as (th & _ & El & _); [unfold tid_ok; lia|].
      destruct (ai_threads _ _ _ Ha t _ ltac:(lia) El) as [H1 H2 _ _ _ _].
      apply H2 in Hin. assert (Hr : t ∈ a_ready a) by (rewrite Er; by left).
      apply H1 in Hr. naive_solver congruence.
Qed.

(** ** The scheduler on the kernel state *)

(** The first half of [scheduler_schedule] retires the current thread. *)
Lemma retire_refines k a curs (cpu : nat) cur th :
  krep k a → ainv a curs [] → curs !! cpu = Some cur →
  a_thread a cur = Some (erase th) →
  refines (if bool_decide (state th = THREAD_DYING) then
      upd_thread cur (set_state THREAD_FREE) k
    else if negb (sleeps_on th =? 0) then
      upd_thread cur (set_state THREAD_SLEEPING) k
    else
      let* k := if negb (cur =? IDLE_THREAD_TID)
                then scheduler_add_to_ready_list cur k else Done k in
      upd_thread cur (set_state THREAD_READY) k) k (a_retire cur a).
Proof.
  intros Hk Ha Hc El. pose proof (ai_curs _ _ _ Ha) as Hok. rewrite Forall_lookup in Hok.
  specialize (Hok cpu cur Hc). unfold a_retire. rewrite El.
  change (state (erase th)) with (state th). change (sleeps_on (erase th)) with (sleeps_on th).
  case_bool_decide as Hd; [by apply krep_upd|].
  destruct (Z.eqb_spec (sleeps_on th) 0) as [E0|E0]; cbn [negb]; [|by apply krep_upd].
  eapply refines_bind with (a := if negb (cur =? IDLE_THREAD_TID) then a_push cur a else a).
  - destruct (Z.eqb_spec cur IDLE_THREAD_TID) as [|Hne]; cbn [negb]; [by apply refines_done|].
    unfold tid_ok, IDLE_THREAD_TID in *.
    apply add_to_ready_list_refines; [done|lia|].
    eapply not_queued; [done|done|done|lia| |done].
    destruct (current_of_cpu k a curs cpu cur Hk Ha Hc ltac:(lia)) as (th' & El' & Hst).
    simplify_eq. destruct Hst as [Hst|Hst]; simpl in *; congruence.
  - intros k1 Hk1 _. by apply krep_upd.
Qed.

(** [scheduler_schedule] implements [a_schedule]. *)
Lemma schedule_refines k a cpu rnd cur :
  krep k a → ainv a (scheduler_current_thread k) [] → thread_table_slock k = 0 →
  aread (scheduler_current_thread k) cpu = Done cur →
  returns (scheduler_schedule cpu rnd k) (λ k',
    krep k' (snd (a_schedule cur a)) ∧
    ainv (snd (a_schedule cur a)) (scheduler_current_thread k') [] ∧
    scheduler_current_thread k'
      = <[Z.to_nat cpu := fst (a_schedule cur a)]> (scheduler_current_thread k) ∧
    thread_table_slock k' = 0 ∧ sleepq_slock k' = sleepq_slock k ∧
    next_tid k' = next_tid k ∧ intr k' = intr k ∧
    timer k' = u32 (rnd + CONFIG_SCHEDULER_TIMESLICE `quot` 2)).
Proof.
  intros Hk Ha Hs Hcur. pose proof Hcur as [Hcpu Hc]%aread_Done.
  pose proof (ai_curs _ _ _ Ha) as Hok. rewrite Forall_lookup in Hok. specialize (Hok _ _ Hc).
  unfold scheduler_schedule. rewrite acquire_thread_free by done. cbn [outcome_bind].
  set (k1 := set_thread_table_slock 1 k).
  assert (Hk1 : krep k1 a) by (by apply krep_thread_slock).
  change (scheduler_current_thread k1) with (scheduler_current_thread k). rewrite Hcur.
  cbn [outcome_bind]. destruct (krep_aread k1 a Hk1 cur Hok) as (th & -> & El & _).
  cbn [outcome_bind].
  eapply refines_step; [by eapply (retire_refines k1 a _ (Z.to_nat cpu))|].
  intros k2 Hk2 Hf2.
  pose proof (retire_inv a _ (Z.to_nat cpu) cur Ha Hc (ex_intro _ _ El)) as Ha2.
  apply returns_bind. eapply returns_mono; [apply (remove_first_ready_refines k2 _ Hk2)|].
  { intros t tht Ht Et. pose proof (krep_ready_pos k2 _ Hk2 t Ht).
    apply (ai_threads _ _ _ Ha2 t tht ltac:(lia) Et). done. }
  intros [t k3] (-> & Hk3 & Hf3). cbn zeta beta.
  pose proof (dispatch_inv k2 _ _ (Z.to_nat cpu) Hk2 Ha2) as Ha3.
  rewrite list_lookup_insert_eq, list_insert_insert_eq in Ha3 by (by eapply lookup_lt_Some).
  specialize (Ha3 eq_refl). pose proof (ai_curs _ _ _ Ha3) as Hok3.
  rewrite Forall_lookup in Hok3.
  specialize (Hok3 (Z.to_nat cpu) (fst (a_pop (a_retire cur a)))).
  rewrite list_lookup_insert_eq in Hok3 by (by eapply lookup_lt_Some).
  eapply refines_step; [apply krep_upd; [exact Hk3|done|done|by apply Hok3]|].
  intros k4 Hk4 Hf4. assert (Hf : kframe k1 k4) by (etrans; [|done]; by etrans).
  destruct Hf as [Hf1 Hf2' Hf3' Hf4' Hf5 Hf6].
  unfold release_thread_table. cbn [scheduler_current_thread set_thread_table_slock].
  rewrite Hf3'. rewrite awrite_in_range
    by (pose proof (lookup_lt_Some _ _ _ Hc); simpl; lia).
  cbn [outcome_bind returns]. unfold a_schedule.
  destruct (a_pop (a_retire cur a)) as [t a'] eqn:Ep. cbn [fst snd] in *.
  split_and!; [|done..]. destruct Hk4. by split.
Qed.
