(* ===== verification/SchedSteps.v ===== *)
(** * Reachable kernel states

    The operations of thread.c, scheduler.c and sleepq.c as steps of a
    transition system, started in the state the initialisation functions build:
    each step returns ([kinv] is inductive and total), and what the invariant
    says about threads in every reachable state. *)

From S2P Require Import Prelude Threads ThreadsRef SchedRef SchedInv.

Section kernel_steps.
Variables (thread_stack_areas addr_thread_finish addr_idle_loop : Z).

(** [thread_init], [scheduler_init] and [sleepq_init] on the memory the kernel
    image starts with ([scheduler_ready_to_run] is initialised statically). *)
Definition image_row : thread_table_t := Thread 0 context_zero 0 THREAD_FREE 0 0 0 0 0.
Definition image : kernel :=
  Kernel (replicate 32 image_row) 0 0 (replicate 4 0) (-1) (-1) (replicate 127 0) 0 false 0.

Definition boot : outcome kernel :=
  let* k := thread_table_init thread_stack_areas addr_idle_loop image in
  let* k := sleepq_init k in
  scheduler_init k.

(** One operation, on the CPU [cpu]; the premises are the conditions under
    which the kernel's callers use it. *)
Inductive kstep : kernel → kernel → Prop :=
| ks_create func arg k tid k' :
    thread_create thread_stack_areas addr_thread_finish func arg k = Done (tid, k') →
    kstep k k'
| ks_run t th k k' :
    0 < t → thread_get_thread_entry t k = Done th → state th = THREAD_NONREADY →
    thread_run t k = Done k' → kstep k k'
| ks_timer cpu rnd k k' :
    0 ≤ cpu < CONFIG_MAX_CPUS → scheduler_schedule cpu rnd k = Done k' → kstep k k'
| ks_switch cpu rnd k k' :
    0 ≤ cpu < CONFIG_MAX_CPUS → thread_switch cpu rnd k = Done k' → kstep k k'
| ks_sleep cpu res t th k k' :
    thread_get_current_thread cpu k = Done t → t ≠ IDLE_THREAD_TID →
    thread_get_current_thread_entry cpu k = Done th →
    state th = THREAD_RUNNING → sleeps_on th = 0 → is_u32 res → res ≠ 0 →
    sleepq_add cpu res (set_intr false k) = Done k' → kstep k k'
| ks_wake res k k' : sleepq_wake res k = Done k' → kstep k k'
| ks_wake_all res k k' : sleepq_wake_all res k = Done k' → kstep k k'
| ks_finish cpu rnd t th k k' :
    thread_get_current_thread cpu k = Done t → t ≠ IDLE_THREAD_TID →
    thread_get_current_thread_entry cpu k = Done th →
    sleeps_on th = 0 → pagetable th = 0 →
    thread_finish cpu rnd k = Done k' → kstep k k'.

Definition reachable (k : kernel) : Prop :=
  ∃ k0, boot = Done k0 ∧ rtc kstep k0 k.

(** ** Every operation returns and keeps the invariant *)
Lemma refines_kinv m k a :
  kinv k → ainv a (scheduler_current_thread k) [] → refines m k a → returns m kinv.
Proof.
  intros [_ Ht Hs Hn Hc] Ha Hr. eapply returns_mono; [exact Hr|].
  intros k' [Hk' []]. split; [|congruence..]. exists a. split; [done|]. congruence.
Qed.

Lemma kinv_intr k x : kinv k → kinv (set_intr x k).
Proof. intros [(a & Hk & Ha) ? ? ? ?]. split; try done. exists a. by rewrite krep_intr. Qed.

Lemma kinv_cpu k cpu :
  kinv k → 0 ≤ cpu < CONFIG_MAX_CPUS →
  ∃ t, aread (scheduler_current_thread k) cpu = Done t.
Proof.
  intros Hk Hc. destruct (aread_in_range (scheduler_current_thread k) cpu) as (t & _ & ?);
    [by rewrite (ki_cpus _ Hk)|eauto].
Qed.

Lemma wake_returns res k : kinv k → returns (sleepq_wake res k) kinv.
Proof.
  intros Hi. pose proof (ki_rep _ Hi) as (a & Hk & Ha).
  eapply (refines_kinv _ _ (a_wake res a)); [done|by eapply wake_inv|].
  apply sleepq_wake_refines; [done|apply ki_sslock, Hi|apply ki_tslock, Hi].
Qed.

Lemma wake_all_returns res k : kinv k → returns (sleepq_wake_all res k) kinv.
Proof.
  intros Hi. pose proof (ki_rep _ Hi) as (a & Hk & Ha).
  eapply (refines_kinv _ _ (a_wake_all res a)); [done|by eapply wake_all_inv|].
  apply sleepq_wake_all_refines; [done|apply ki_sslock, Hi|apply ki_tslock, Hi].
Qed.

Lemma schedule_returns cpu rnd k :
  kinv k → 0 ≤ cpu < CONFIG_MAX_CPUS → returns (scheduler_schedule cpu rnd k) kinv.
Proof.
  intros Hi Hc. destruct (kinv_cpu k cpu Hi Hc) as [cur Hcur].
  destruct Hi as [(a & Hk & Ha) Ht Hs Hn Hl].
  eapply returns_mono; [by eapply schedule_refines|].
  intros k' (Hk' & Ha' & Hcs & Ht' & Hs' & Hn' & _). split; try congruence; [eauto|].
  rewrite Hcs. by rewrite length_insert.
Qed.

Lemma yield_returns cpu rnd k :
  kinv k → 0 ≤ cpu < CONFIG_MAX_CPUS → returns (_interrupt_yield cpu rnd k) kinv.
Proof.
  intros Hi Hc. unfold _interrupt_yield. apply returns_bind.
  eapply returns_mono; [apply schedule_returns; [by apply kinv_intr|done]|].
  intros k' Hk'. by apply kinv_intr.
Qed.

(** The current thread of a CPU, through the representation. *)
Lemma current_entry k a cpu t th :
  krep k a → ainv a (scheduler_current_thread k) [] →
  thread_get_current_thread cpu k = Done t → t ≠ IDLE_THREAD_TID →
  thread_get_current_thread_entry cpu k = Done th →
  0 < t < CONFIG_MAX_THREADS ∧ a_thread a t = Some (erase th) ∧ t ∈ scheduler_current_thread k.
Proof.
  unfold thread_get_current_thread, thread_get_current_thread_entry, thread_get_thread_entry.
  intros Hk Ha Hc Hne. rewrite Hc. cbn [outcome_bind]. intros Hth.
  apply aread_Done in Hc as [_ Hc]. pose proof (ai_curs _ _ _ Ha) as Hok.
  rewrite Forall_lookup in Hok. specialize (Hok _ _ Hc). unfold tid_ok, IDLE_THREAD_TID in *.
  destruct (krep_aread k a Hk t Hok) as (th' & E & El & _).
  assert (th' = th) as -> by congruence.
  split_and!; [lia|lia|done|]. by eapply list_elem_of_lookup_2.
Qed.

Lemma sleep_returns cpu res t th k :
  kinv k → intr k = false → thread_get_current_thread cpu k = Done t → t ≠ IDLE_THREAD_TID →
  thread_get_current_thread_entry cpu k = Done th →
  state th = THREAD_RUNNING → sleeps_on th = 0 → is_u32 res → res ≠ 0 →
  returns (sleepq_add cpu res k) kinv.
Proof.
  intros Hi Hin Hc Hne Hth Hst Hsl Hu Hr. pose proof (ki_rep _ Hi) as (a & Hk & Ha).
  destruct (current_entry k a cpu t th) as (Ht & El & _); [done..|].
  eapply (refines_kinv _ _ (a_sleep_add t res a)); [done|eapply sleep_add_inv; try done; lia|].
  apply sleepq_add_refines; try done; [by apply ki_sslock|].
  eapply not_queued; try done; [lia|]. simpl. congruence.
Qed.

Lemma run_returns t th k :
  kinv k → 0 < t → thread_get_thread_entry t k = Done th → state th = THREAD_NONREADY →
  returns (thread_run t k) kinv.
Proof.
  intros Hi Ht Hth Hst. pose proof Hi as [(a & Hk & Ha) Hts Hss Hn Hl].
  unfold thread_get_thread_entry in Hth.
  assert (Hok : tid_ok t).
  { apply aread_Done in Hth as [_ Hth]. apply lookup_lt_Some in Hth.
    pose proof (kr_len _ _ Hk). unfold tid_ok. lia. }
  destruct (krep_aread k a Hk t Hok) as (th' & E & El & _).
  assert (th' = th) as -> by congruence.
  pose proof (ai_threads _ _ _ Ha t _ Ht El) as [_ _ _ _ Hw _].
  assert (Hsl : sleeps_on th = 0).
  { destruct (decide (sleeps_on th = 0)) as [|Hx]; [done|].
    destruct (Hw Hx) as [Hx'|Hx']; simpl in Hx'; congruence. }
  unfold thread_run, scheduler_add_ready. rewrite acquire_thread_free by done.
  cbn [outcome_bind].
  eapply refines_step.
  { apply (add_to_ready_list_refines _ a);
      [by apply krep_thread_slock, krep_intr|unfold tid_ok in Hok; lia|].
    eapply not_queued; try done. simpl. congruence. }
  intros k1 Hk1 Hf1. eapply refines_step; [by apply krep_upd|]. intros k2 Hk2 Hf2.
  assert (Hf : kframe (set_thread_table_slock 1 (set_intr false k)) k2) by (by etrans).
  destruct Hf. simpl in *. split; simpl; try congruence.
  exists (a_upd t (set_state THREAD_READY) (a_push t a)). split.
  - by apply krep_intr, krep_thread_slock.
  - rewrite kf_cur. by eapply start_inv.
Qed.

Lemma finish_returns cpu rnd t th k :
  kinv k → 0 ≤ cpu < CONFIG_MAX_CPUS →
  thread_get_current_thread cpu k = Done t → t ≠ IDLE_THREAD_TID →
  thread_get_current_thread_entry cpu k = Done th → sleeps_on th = 0 → pagetable th = 0 →
  returns (thread_finish cpu rnd k) kinv.
Proof.
  intros Hi Hcpu Hc Hne Hth Hsl Hpt. pose proof Hi as [(a & Hk & Ha) Hts Hss Hn Hl].
  destruct (current_entry k a cpu t th) as (Ht & El & Hin); [done..|].
  pose proof (ai_threads _ _ _ Ha t _ ltac:(lia) El) as [_ Hrun _ _ _ _].
  unfold thread_finish. rewrite Hc. cbn [outcome_bind].
  unfold thread_get_current_thread_entry, thread_get_thread_entry in Hth.
  unfold thread_get_current_thread in Hc. rewrite Hc in Hth. cbn [outcome_bind] in Hth.
  change (thread_table (set_intr false k)) with (thread_table k). rewrite Hth.
  cbn [outcome_bind]. rewrite Hpt. cbn [Z.eqb kassert outcome_bind].
  rewrite acquire_thread_free by done. cbn [outcome_bind].
  assert (Hok : tid_ok t) by (unfold tid_ok; lia).
  eapply refines_step.
  { apply krep_upd; [by apply krep_thread_slock, krep_intr|done|done|done]. }
  intros k1 Hk1 []. simpl in *. apply yield_returns; [|done].
  split; simpl; try congruence.
  exists (a_upd t (set_state THREAD_DYING) a). split.
  - by apply krep_intr, krep_thread_slock.
  - rewrite kf_cur. eapply upd_inv; try done; [lia|..]; simpl.
    + destruct (proj1 Hrun Hin) as [E|E]; simpl in E; congruence.
    + split; [intros _; by apply Hrun|naive_solver].
Qed.
(** ** Creating threads *)

(** The search visits every row but the idle thread's. *)
Lemma find_free_thread_spec k :
  Z.of_nat (length (thread_table k)) = CONFIG_MAX_THREADS → tid_ok (next_tid k) →
  returns (find_free_thread k) (λ t,
    (t = -1 ∧ ∀ u th, 0 < u < CONFIG_MAX_THREADS → thread_table k !! Z.to_nat u = Some th →
       state th ≠ THREAD_FREE) ∨
    (0 < t < CONFIG_MAX_THREADS ∧ ∃ th, thread_table k !! Z.to_nat t = Some th ∧
       state th = THREAD_FREE)).
Proof.
  intros Hlen Hn. unfold tid_ok, find_free_thread, CONFIG_MAX_THREADS in *. apply returns_bind.
  eapply returns_mono; [apply (for_loop_inv (λ i _, ∀ j th, 0 ≤ j < i →
      (j + next_tid k) `rem` 32 ≠ 0 →
      thread_table k !! Z.to_nat ((j + next_tid k) `rem` 32) = Some th → state th ≠ THREAD_FREE)
    (λ t, 0 < t < 32 ∧ ∃ th, thread_table k !! Z.to_nat t = Some th ∧ state th = THREAD_FREE))|].
  - lia.
  - lia.
  - intros i [] Hi Hinv. pose proof (Z.rem_bound_pos (i + next_tid k) 32).
    destruct (Z.eqb_spec ((i + next_tid k) `rem` 32) IDLE_THREAD_TID) as [E|E];
      unfold IDLE_THREAD_TID in E.
    + intros j th Hj. destruct (decide (j = i)) as [->|]; [done|apply Hinv; lia].
    + destruct (aread_in_range (thread_table k) ((i + next_tid k) `rem` 32)) as (th & Hth & ->);
        [lia|]. cbn [outcome_bind]. case_bool_decide as Hst; simpl.
      * split; [lia|eauto].
      * intros j th' Hj Hj0 Hth'. destruct (decide (j = i)) as [->|]; [congruence|].
        eapply (Hinv j); [lia|done|done].
  - intros [[]|t] Hr; simpl; [left|by right]. split; [done|]. intros u th Hu Hth.
    assert (E : ((u - next_tid k) mod 32 + next_tid k) `rem` 32 = u).
    { pose proof (Z.mod_pos_bound (u - next_tid k) 32). rewrite Z.rem_mod_nonneg by lia.
      rewrite Zplus_mod_idemp_l. replace (u - next_tid k + next_tid k) with u by lia.
      apply Z.mod_small. lia. }
    apply (Hr ((u - next_tid k) mod 32)); [apply Z.mod_pos_bound; lia|rewrite E; lia|].
    by rewrite E.
Qed.

(** The row [thread_create] builds. *)
Definition created (tid func arg : Z) (th : thread_table_t) : Prop :=
  state th = THREAD_NONREADY ∧ sleeps_on th = 0 ∧ pagetable th = 0 ∧ process_id th = -1 ∧
  next th = -1 ∧ context th = context_address thread_stack_areas tid ∧ pc (cxt th) = func ∧
  cpu_regs (cxt th) !! Z.to_nat MIPS_REGISTER_A0 = Some arg ∧
  cpu_regs (cxt th) !! Z.to_nat MIPS_REGISTER_RA = Some addr_thread_finish ∧
  cpu_regs (cxt th) !! Z.to_nat MIPS_REGISTER_SP
    = Some (u32 (context_address thread_stack_areas tid - 8)).

(** A row in no queue that is and stays outside the scheduler. *)
Lemma upd_free_row k t th f :
  kinv k → 0 < t < CONFIG_MAX_THREADS → thread_table k !! Z.to_nat t = Some th →
  sleeps_on th = 0 → state th = THREAD_FREE ∨ state th = THREAD_NONREADY →
  (∀ x, sleeps_on (f x) = sleeps_on x ∨ sleeps_on (f x) = 0) →
  state (f th) = THREAD_NONREADY → (∀ x, erase (f (erase x)) = erase (f x)) →
  kinv (set_thread_table (alter f (Z.to_nat t) (thread_table k)) k).
Proof.
  intros [(a & Hk & Ha) Hts Hss Hn Hl] Ht Hth Hsl Hst Hf Hst' He.
  destruct (krep_aread k a Hk t) as (th' & _ & El & Hth'); [unfold tid_ok; lia|].
  simplify_eq. split; try done.
  exists (a_upd t (λ x, erase (f x)) a). split.
  - destruct Hk as [Htab Hlen Hq Htl Hhl]. split; simpl; try done.
    + rewrite (list_fmap_alter _ _ (λ x, erase (f x))), Htab; [done|].
      apply Forall_forall. intros x _. by rewrite He.
    + by rewrite length_alter.
    + apply qrep_alter_free; [done|lia|].
      eapply (not_queued k a); [by split|done|done|lia| |done].
      simpl. destruct Hst; congruence.
  - assert (state (f (erase th)) = THREAD_NONREADY).
    { change (state (erase (f (erase th))) = THREAD_NONREADY). by rewrite He. }
    assert (sleeps_on (f (erase th)) = 0) by (destruct (Hf (erase th)); simpl in *; congruence).
    apply (upd_inv a _ t (erase th)); try done; try lia; simpl; try (destruct Hst; congruence).
    split; [intros [E|E]; congruence|intros [E|E]; destruct Hst; congruence].
Qed.
Lemma context_init_spec func arg stack addr :
  ∃ c, _context_init (Context (cpu_regs context_zero) 0 0 0 0 addr) func addr_thread_finish
         stack arg = Done c ∧ pc c = func ∧
       cpu_regs c !! Z.to_nat MIPS_REGISTER_A0 = Some arg ∧
       cpu_regs c !! Z.to_nat MIPS_REGISTER_RA = Some addr_thread_finish ∧
       cpu_regs c !! Z.to_nat MIPS_REGISTER_SP = Some (u32 (stack - 4)).
Proof. eexists. split; [reflexivity|]. done. Qed.

Lemma thread_create_spec func arg k :
  kinv k →
  returns (thread_create thread_stack_areas addr_thread_finish func arg k) (λ '(tid, k'),
    kinv k' ∧ scheduler_current_thread k' = scheduler_current_thread k ∧
    ((tid = -1 ∧ thread_table k' = thread_table k ∧
      ∀ u th, 0 < u < CONFIG_MAX_THREADS → thread_table k !! Z.to_nat u = Some th →
        state th ≠ THREAD_FREE) ∨
     (0 < tid < CONFIG_MAX_THREADS ∧
      (∃ th, thread_table k !! Z.to_nat tid = Some th ∧ state th = THREAD_FREE) ∧
      (∃ th', thread_table k' !! Z.to_nat tid = Some th' ∧ created tid func arg th') ∧
      ∀ u, u ≠ Z.to_nat tid → thread_table k' !! u = thread_table k !! u))).
Proof.
  intros Hi. pose proof Hi as [(a & Hk & Ha) Hts Hss Hn Hl].
  pose proof (kr_len _ _ Hk) as Hlen. unfold thread_create.
  rewrite acquire_thread_free by done. cbn [outcome_bind]. set (k1 := set_thread_table_slock 1 _).
  apply returns_bind. eapply returns_mono; [by apply (find_free_thread_spec k1)|].
  intros t [[-> Hno]|[Ht (th & Hth & Hst)]].
  { cbn. split_and!; [|done|by left]. split; try done. exists a.
    split; [by apply krep_intr, krep_thread_slock, krep_thread_slock, krep_intr|done]. }
  destruct (Z.ltb_spec t 0); [lia|]. change (thread_table k1) with (thread_table k) in Hth.
  destruct (krep_aread k a Hk t) as (th' & _ & El & Hth'); [unfold tid_ok; lia|]. simplify_eq.
  assert (Hsl : sleeps_on th = 0).
  { destruct (ai_threads _ _ _ Ha t _ ltac:(lia) El) as [_ _ _ _ Hw _].
    destruct (decide (sleeps_on th = 0)) as [|Hx]; [done|].
    destruct (Hw Hx) as [E|E]; simpl in E; congruence. }
  rewrite upd_thread_in_range by (simpl; lia). cbn [outcome_bind].
  destruct (context_init_spec func arg (thread_stack_areas + CONFIG_THREAD_STACKSIZE * t
    + CONFIG_THREAD_STACKSIZE - 4 - sizeof_context) (context_address thread_stack_areas t))
    as (c & -> & Hpc & Ha0 & Hra & Hsp). cbn [outcome_bind].
  rewrite upd_thread_in_range by (simpl; rewrite length_alter; lia).
  cbn [outcome_bind returns]. split_and!; [|done|right; split_and!].
  - set (k2 := set_intr _ _). assert (Hk2 : kinv k2).
    { assert (H0 := upd_free_row k t th (set_state THREAD_NONREADY) Hi Ht Hth Hsl).
      destruct H0 as [Hrep Ht' Hs' Hn' Hl']; auto. split; try done.
      - destruct Hrep as (b & Hb & Hab). exists b. split; [|done].
        destruct Hb. by split.
      - unfold tid_ok, CONFIG_MAX_THREADS. simpl. apply Z.rem_bound_pos; lia. }
    eapply (upd_free_row k2 t (set_state THREAD_NONREADY th)); try done; auto.
    simpl. by rewrite list_lookup_alter_eq, Hth.
  - lia.
  - lia.
  - eauto.
  - eexists. simpl. rewrite !list_lookup_alter_eq, Hth. split; [done|].
    unfold created. simpl. split_and!; try done. rewrite Hsp. f_equal. f_equal.
    unfold context_address. lia.
  - intros u Hu. simpl. by rewrite !list_lookup_alter_ne.
Qed.

(** ** The invariant is inductive *)
Lemma kstep_preserves k k' : kinv k → kstep k k' → kinv k'.
Proof.
  assert (Hr : ∀ m k', returns m kinv → m = Done k' → kinv k') by (by intros m k'' Hm ->).
  intros Hi Hstep. revert Hi. destruct Hstep as [func arg k1 tid k2 E|t th k1 k2 Ht Hth Hst E|cpu rnd k1 k2 Hc E|cpu rnd k1 k2 Hc E
    |cpu res t th k1 k2 Hc Hne Hth Hst Hsl Hu Hr0 E|res k1 k2 E|res k1 k2 E
    |cpu rnd t th k1 k2 Hc Hne Hth Hsl Hpt E]; intros Hi.
  - pose proof (thread_create_spec func arg k1 Hi) as Hs. rewrite E in Hs. by destruct Hs.
  - eapply Hr; [|exact E]. by eapply run_returns.
  - eapply Hr; [|exact E]. by apply schedule_returns.
  - eapply Hr; [|exact E]. unfold thread_switch. apply yield_returns; [by apply kinv_intr|done].
  - eapply Hr; [|exact E]. eapply sleep_returns; try done. by apply kinv_intr.
  - eapply Hr; [|exact E]. by apply wake_returns.
  - eapply Hr; [|exact E]. by apply wake_all_returns.
  - eapply Hr; [|exact E]. eapply finish_returns; try done.
    unfold thread_get_current_thread in Hc. apply aread_Done in Hc as [? Hc].
    apply lookup_lt_Some in Hc. pose proof (ki_cpus _ Hi). lia.
Qed.

(** ** Boot *)
Definition boot_abs (k : kernel) : athreads :=
  AThreads (erase <$> thread_table k) [] (replicate 127 []).

Lemma boot_spec : returns boot kinv.
Proof.
  destruct boot as [k| | | |] eqn:E; vm_compute in E; try done. injection E as <-.
  match goal with |- returns (Done ?k) _ => set (kb := k) end.
  split; try done. exists (boot_abs kb). split.
  - split; try done. split; [|by vm_compute; constructor].
    unfold queues. constructor; [done|].
    change (Forall2 (chain (thread_table kb)) (replicate 127 (-1)) (replicate 127 [])).
    by apply Forall2_replicate.
  - assert (H0 : ∃ th0 rest, a_tab (boot_abs kb) = th0 :: rest ∧ sleeps_on th0 = 0 ∧
      state th0 = THREAD_READY ∧ Forall (λ th, sleeps_on th = 0 ∧ state th = THREAD_FREE) rest).
    { eexists _, _. split_and!; [reflexivity|done|done|]. repeat constructor. }
    destruct H0 as (th0 & rest & Et & Hs0 & Hst0 & Hrest). split.
    + intros t th Ht Hth. unfold a_thread in Hth. rewrite Et in Hth.
      destruct (Z.to_nat t) as [|n] eqn:En; [lia|]. rewrite Forall_lookup in Hrest.
      destruct (Hrest n th Hth) as [Hs Hst].
      assert (Hnil : ∀ l : list Z, l = [] → t ∉ l) by (intros l ->; apply not_elem_of_nil).
      split; rewrite ?Hs, ?Hst.
      * split; [by intros ?%not_elem_of_nil|done].
      * split; [intros Hc|by intros []].
        change (t ∈ [0; 0; 0; 0]) in Hc. rewrite !elem_of_cons in Hc.
        destruct Hc as [|[|[|[|?%not_elem_of_nil]]]]; lia || done.
      * intros h. split; [|by intros []]. intros Hin. exfalso. revert Hin. apply Hnil.
        change (a_sleep (boot_abs kb)) with (replicate 127 ([] : list Z)).
        destruct (replicate 127 [] !! h) as [l|] eqn:El; [|done].
        by apply lookup_replicate in El as [-> _].
      * by intros ?%not_elem_of_nil.
      * done.
      * done.
    + intros th. unfold a_thread, IDLE_THREAD_TID. rewrite Et. simpl. intros [= <-]. auto.
    + change (Forall tid_ok [0; 0; 0; 0]). repeat constructor; done.
    + intros i j t Hi Hj Ht. exfalso.
      change ([0; 0; 0; 0] !! i = Some t) in Hi. apply list_elem_of_lookup_2 in Hi.
      rewrite !elem_of_cons in Hi. destruct Hi as [|[|[|[|?%not_elem_of_nil]]]]; lia || done.
Qed.

Lemma reachable_kinv k : reachable k → kinv k.
Proof.
  intros (k0 & E & Hrtc). pose proof boot_spec as Hb. rewrite E in Hb.
  change (kinv k0) in Hb. clear E. induction Hrtc; [done|]. eauto using kstep_preserves.
Qed.
End kernel_steps.
