(* ===== verification/SchedProps.v ===== *)
(** * Properties of threads, scheduler and sleep queue

    Statements about the states reachable from boot (SchedSteps.v), each with a
    witness on a concrete kernel. *)

From S2P Require Import Prelude Threads ThreadsRef SchedRef SchedInv SchedSteps.

(** A thread is linked into the list that starts at [head]. *)
Definition on_list (k : kernel) (head t : Z) : Prop :=
  ∃ l, chain (thread_table k) head l ∧ NoDup l ∧ t ∈ l.

Lemma on_list_iff k s l t :
  chain (thread_table k) s l → NoDup l → on_list k s t ↔ t ∈ l.
Proof.
  intros Hc Hnd. unfold on_list. split; [|eauto].
  intros (l' & Hc' & _ & Ht). by rewrite (chain_inj _ _ _ _ Hc Hc').
Qed.

Section concrete.
Variables (areas fin idle : Z).

Lemma kinv_accounted k t th :
  kinv k → 0 < t → thread_table k !! Z.to_nat t = Some th →
  (state th = THREAD_READY ↔ on_list k (ready_head k) t) ∧
  (∀ h s, sleepq_hashtable k !! h = Some s →
     on_list k s t ↔ sleeps_on th ≠ 0 ∧ h = Z.to_nat (SLEEPQ_HASH (sleeps_on th))) ∧
  (state th = THREAD_RUNNING ∨ state th = THREAD_DYING ↔ t ∈ scheduler_current_thread k) ∧
  (state th = THREAD_SLEEPING → sleeps_on th ≠ 0).
Proof.
  intros [(a & Hk & Ha) _ _ _ _] Ht Hth.
  assert (El : a_thread a t = Some (erase th)).
  { unfold a_thread. by rewrite <- (kr_tab _ _ Hk), list_lookup_fmap, Hth. }
  destruct (ai_threads _ _ _ Ha t _ Ht El) as [H1 H2 H3 _ _ H6].
  pose proof (kr_queues _ _ Hk) as Hq.
  split_and!; [| |done|done].
  - destruct (qrep_chain _ _ _ Hq 0 _ eq_refl) as (s & [= <-] & Hc).
    rewrite (on_list_iff k _ (a_ready a)); [by rewrite H1|done|].
    by eapply (qrep_nodup _ _ _ Hq 0).
  - intros h s Hs.
    destruct (Forall2_lookup_l _ _ _ _ _ (q_chains _ _ _ Hq) (Hs : _ !! S h = _))
      as (l & Hl & Hc).
    rewrite (on_list_iff k s l); [|done|by eapply (qrep_nodup _ _ _ Hq)].
    specialize (H3 h). simpl in Hl. rewrite Hl in H3. rewrite H3. simpl. set_solver.
Qed.

(** C2. In every state reachable from boot, each thread is accounted for: it is
    on the ready list exactly when it is ready, in the row of the sleep queue
    of the resource it waits for (and in no other row) exactly when it waits
    for one, current on a CPU exactly when it is running or dying, and no thread
    sleeps without waiting for something that can wake it. *)
Theorem threads_accounted_for k t th :
  reachable areas fin idle k → 0 < t → thread_table k !! Z.to_nat t = Some th →
  (state th = THREAD_READY ↔ on_list k (ready_head k) t) ∧
  (∀ h s, sleepq_hashtable k !! h = Some s →
     on_list k s t ↔ sleeps_on th ≠ 0 ∧ h = Z.to_nat (SLEEPQ_HASH (sleeps_on th))) ∧
  (state th = THREAD_RUNNING ∨ state th = THREAD_DYING ↔ t ∈ scheduler_current_thread k) ∧
  (state th = THREAD_SLEEPING → sleeps_on th ≠ 0).
Proof. intros Hr. by apply kinv_accounted, (reachable_kinv areas fin idle). Qed.

(** C22. In every reachable state the kernel's queue operations return: no
    assertion of the scheduler fails, no list traversal runs past the thread
    table or fails to end, and no spinlock is left held, so that timer
    interrupts, wake-ups and thread creation always make progress. *)
Theorem queue_operations_return k :
  reachable areas fin idle k →
  (∀ cpu rnd, 0 ≤ cpu < CONFIG_MAX_CPUS → returns (scheduler_schedule cpu rnd k) kinv) ∧
  (∀ res, returns (sleepq_wake res k) kinv) ∧
  (∀ res, returns (sleepq_wake_all res k) kinv) ∧
  (∀ func arg, returns (thread_create areas fin func arg k) (λ '(_, k'), kinv k')).
Proof.
  intros Hi%reachable_kinv. split_and!.
  - intros. by apply schedule_returns.
  - intros. by apply wake_returns.
  - intros. by apply wake_all_returns.
  - intros. eapply returns_mono; [by apply (thread_create_spec areas fin)|].
    by intros [tid k'] [? _].
Qed.

(** [sleepq_wake] and [sleepq_wake_all] refine their specification on
    queues: the first wakes the thread that has waited longest for the resource
    (threads waiting for other resources in the same hash row keep their
    order), the second all of them in order; a woken thread goes to the end of
    the ready list if it sleeps already. *)
Theorem wakeups_refine_queues k a res :
  krep k a → thread_table_slock k = 0 → sleepq_slock k = 0 →
  refines (sleepq_wake res k) k (a_wake res a) ∧
  refines (sleepq_wake_all res k) k (a_wake_all res a).
Proof.
  intros. split; [by apply sleepq_wake_refines|by apply sleepq_wake_all_refines].
Qed.

(** C21. [scheduler_schedule] refines round-robin scheduling on queues: the thread
    leaving the CPU is freed, put to sleep or appended to the ready list, the
    head of the ready list (the idle thread if it is empty) becomes the current
    thread of the CPU and is running, and the timer is armed. *)
Theorem schedule_refines_round_robin k a cpu rnd cur :
  krep k a → ainv a (scheduler_current_thread k) [] → thread_table_slock k = 0 →
  thread_get_current_thread cpu k = Done cur →
  returns (scheduler_schedule cpu rnd k) (λ k',
    krep k' (snd (a_schedule cur a)) ∧
    scheduler_current_thread k'
      = <[Z.to_nat cpu := fst (a_schedule cur a)]> (scheduler_current_thread k) ∧
    timer k' = u32 (rnd + CONFIG_SCHEDULER_TIMESLICE `quot` 2)).
Proof.
  intros Hk Ha Hs Hc. eapply returns_mono; [by apply (schedule_refines k a)|].
  naive_solver.
Qed.

Lemma woken_row k a res t th l1 l2 :
  krep k a → a_bucket a res = l1 ++ t :: l2 →
  Forall (λ u, waits_on a res u = false) l1 → waits_on a res t = true →
  a_thread a t = Some th → 0 < t →
  a_thread (a_wake res a) t = Some (release_row th).
Proof.
  intros Hk Eb Hl1 Hw El Ht. unfold a_wake.
  assert (Es : split_first (waits_on a res) (a_bucket a res) = Some (t, l1 ++ l2)).
  { rewrite Eb. clear Eb. induction Hl1 as [|u l1 Hu _ IH]; simpl; [by rewrite Hw|].
    by rewrite Hu, IH. }
  rewrite Es, release_row_thread by lia. rewrite decide_True by done.
  change (a_thread (a_set_bucket res (l1 ++ l2) a) t) with (a_thread a t). by rewrite El.
Qed.

Lemma schedule_row cur a t th :
  0 ≤ cur → cur = t → 0 < t → a_thread a t = Some th → state th = THREAD_RUNNING →
  sleeps_on th = 0 →
  ∃ th', a_thread (snd (a_schedule cur a)) t = Some th' ∧ sleeps_on th' = 0 ∧
    (state th' = THREAD_READY ∨ state th' = THREAD_RUNNING).
Proof.
  intros _ -> Ht El Hst Hsl. unfold a_schedule, a_retire. rewrite El.
  rewrite bool_decide_false by congruence. rewrite Hsl. cbn [Z.eqb negb].
  destruct (Z.eqb_spec t IDLE_THREAD_TID); [unfold IDLE_THREAD_TID in *; lia|]. cbn [negb].
  set (a1 := a_upd t (set_state THREAD_READY) (a_push t a)).
  assert (E1 : a_thread a1 t = Some (set_state THREAD_READY th)).
  { subst a1. rewrite a_thread_upd, decide_True by (done || lia).
    change (a_thread (a_push t a) t) with (a_thread a t). by rewrite El. }
  unfold a_pop. destruct (a_ready a1) as [|u r] eqn:Er; cbn [snd].
  { subst a1. simpl in Er. by destruct (a_ready a). }
  clear Er. clearbody a1. unfold a_thread, a_upd in *. cbn [a_tab] in *.
  rewrite list_lookup_alter. case_decide as E.
  - rewrite E, E1. simpl. eexists. split_and!; [done|done|]. simpl. auto.
  - rewrite E1. eexists. split_and!; [done|done|]. simpl. auto.
Qed.

(** C5. No wake-up is lost between [sleepq_add] and the switch: if the current
    thread [t] of a CPU has put itself in the sleep queue for [res] and is the
    first thread waiting for it, and another thread wakes [res] before [t] has
    switched away, then the switch leaves [t] ready (or running again), waiting
    for nothing. *)
Theorem no_lost_wakeup k a cpu rnd res t th l1 l2 :
  krep k a → ainv a (scheduler_current_thread k) [] →
  thread_table_slock k = 0 → sleepq_slock k = 0 →
  thread_get_current_thread cpu k = Done t → 0 < t →
  a_thread a t = Some th → state th = THREAD_RUNNING →
  a_bucket a res = l1 ++ t :: l2 →
  Forall (λ u, waits_on a res u = false) l1 → sleeps_on th = res →
  returns (let* k1 := sleepq_wake res k in thread_switch cpu rnd k1) (λ k',
    ∃ th', thread_table k' !! Z.to_nat t = Some th' ∧ sleeps_on th' = 0 ∧
      (state th' = THREAD_READY ∨ state th' = THREAD_RUNNING)).
Proof.
  intros Hk Ha Hts Hss Hc Ht El Hst Eb Hl1 Hsl.
  assert (Hw : waits_on a res t = true) by (unfold waits_on; rewrite El; lia).
  assert (Hwoken := woken_row k a res t th l1 l2 Hk Eb Hl1 Hw El Ht).
  unfold release_row in Hwoken. rewrite bool_decide_false in Hwoken by congruence.
  eapply refines_step; [by apply sleepq_wake_refines|]. intros k1 Hk1 [F1 F2 F3 F4 F5 F6].
  unfold thread_switch, _interrupt_yield. apply returns_bind.
  eapply returns_mono; [apply (schedule_refines _ (a_wake res a) cpu rnd t)|].
  - by apply krep_intr, krep_intr.
  - simpl. rewrite F3. by eapply wake_inv.
  - simpl. congruence.
  - unfold thread_get_current_thread in Hc. simpl. by rewrite F3.
  - intros k2 (Hk2 & _). simpl.
    destruct (schedule_row t (a_wake res a) t _ ltac:(lia) eq_refl Ht Hwoken)
      as (th' & El' & Hs' & Hst'); [done|done|].
    unfold a_thread in El'. rewrite <- (kr_tab _ _ Hk2), list_lookup_fmap in El'.
    destruct (thread_table k2 !! Z.to_nat t) as [x|] eqn:Ex; [|done]. injection El' as <-.
    exists x. by split_and!.
Qed.
End concrete.

(** ** Witnesses

    Boot, create and start a thread, let CPU 0 select it, and let it put itself
    in the sleep queue for the resource at address 0x8000. *)

(** Checkers for [chain] and [krep]. *)
Fixpoint chain_b (tab : list thread_table_t) (s : Z) (l : list Z) : bool :=
  match l with
  | [] => s =? -1
  | t :: l' => (s =? t) && (0 <? t) &&
      match tab !! Z.to_nat t with Some th => chain_b tab (next th) l' | None => false end
  end.

Lemma chain_b_sound tab s l : chain_b tab s l = true → chain tab s l.
Proof.
  unfold chain. revert s. induction l as [|t l IH]; intros s; simpl; [lia|].
  destruct (tab !! Z.to_nat t) as [th|] eqn:Et; [|by rewrite andb_false_r].
  rewrite !andb_true_iff. intros [[? ?] ?]. split_and!; [lia|lia|]. eauto.
Qed.

Definition krep_b (k : kernel) (rdy : list Z) (sl : list (list Z)) : bool :=
  (Z.of_nat (length (thread_table k)) =? CONFIG_MAX_THREADS) &&
  chain_b (thread_table k) (ready_head k) rdy &&
  forallb (λ '(s, l), chain_b (thread_table k) s l) (zip (sleepq_hashtable k) sl) &&
  (ready_tail k =? default (-1) (last rdy)) &&
  (Z.of_nat (length (sleepq_hashtable k)) =? SLEEPQ_HASHTABLE_SIZE) &&
  (Z.of_nat (length sl) =? SLEEPQ_HASHTABLE_SIZE) &&
  bool_decide (NoDup (rdy ++ concat sl)).

Lemma krep_b_sound k rdy sl :
  krep_b k rdy sl = true → krep k (AThreads (erase <$> thread_table k) rdy sl).
Proof.
  unfold krep_b. rewrite !andb_true_iff. intros [[[[[[H1 H2] H3] H4] H5] H6] H7].
  apply bool_decide_eq_true in H7. apply Z.eqb_eq in H1, H4, H5, H6. split; try done.
  split; [|done]. constructor; [by apply chain_b_sound|].
  apply Forall2_same_length_lookup. split; [apply Nat2Z.inj; etrans; [exact H5|by symmetry]|]. intros i s l Hs Hl. cbn [a_sleep] in Hl.
  rewrite forallb_forall in H3. apply chain_b_sound, (H3 (s, l)), list_elem_of_In.
  apply list_elem_of_lookup. exists i. rewrite lookup_zip_with. by rewrite Hs, Hl.
Qed.

Definition demo_started : outcome kernel :=
  let* k := boot 0x10000 0x2000 in
  let* '(_, k) := thread_create 0x10000 0x3000 0x4000 7 k in
  thread_run 1 k.

Definition demo_waiting : outcome kernel :=
  let* k := demo_started in
  let* k := scheduler_schedule 0 0 k in
  sleepq_add 0 0x8000 (set_intr false k).

Definition get (m : outcome kernel) : kernel := match m with Done k => k | _ => image end.

Lemma demo_started_reachable : reachable 0x10000 0x3000 0x2000 (get demo_started).
Proof.
  exists (get (boot 0x10000 0x2000)). split; [by vm_compute|].
  eapply rtc_l. { eapply (ks_create _ _ 0x4000 7 _ 1). by vm_compute. }
  eapply rtc_l; [|apply rtc_refl].
  eapply (ks_run _ _ 1); [done|by vm_compute|by vm_compute|by vm_compute].
Qed.

Lemma demo_waiting_reachable : reachable 0x10000 0x3000 0x2000 (get demo_waiting).
Proof.
  destruct demo_started_reachable as (k0 & E & Hr). exists k0. split; [exact E|].
  etrans; [exact Hr|]. clear k0 E Hr.
  apply (rtc_l _ _ (get (scheduler_schedule 0 0 (get demo_started)))).
  { apply (ks_timer _ _ 0 0); [done|]. vm_compute. reflexivity. }
  apply rtc_once.
  apply (ks_sleep _ _ 0 0x8000 1 (default image_row
    (thread_table (get (scheduler_schedule 0 0 (get demo_started))) !! 1%nat)));
    vm_compute; done || (split; discriminate).
Qed.

Definition demo_rows : list (list Z) :=
  <[Z.to_nat (SLEEPQ_HASH 0x8000) := [1]]> (replicate 127 []).
Definition demo_abs : athreads :=
  AThreads (erase <$> thread_table (get demo_waiting)) [] demo_rows.

Lemma demo_krep : krep (get demo_waiting) demo_abs.
Proof. apply krep_b_sound. by vm_compute. Qed.

Lemma demo_ainv : ainv demo_abs (scheduler_current_thread (get demo_waiting)) [].
Proof.
  destruct (ki_rep _ (reachable_kinv _ _ _ _ demo_waiting_reachable)) as (a & Hk & Ha).
  by rewrite (krep_functional _ _ _ demo_krep Hk).
Qed.

Lemma demo_tslock : thread_table_slock (get demo_waiting) = 0.
Proof. by vm_compute. Qed.
Lemma demo_sslock : sleepq_slock (get demo_waiting) = 0.
Proof. by vm_compute. Qed.
Lemma demo_current : thread_get_current_thread 0 (get demo_waiting) = Done 1.
Proof. by vm_compute. Qed.

Definition demo_row : thread_table_t :=
  default image_row (thread_table (get demo_waiting) !! 1%nat).

Lemma threads_accounted_for_witness :
  state demo_row = THREAD_RUNNING ∧
  (state demo_row = THREAD_READY ↔ on_list (get demo_waiting) (ready_head (get demo_waiting)) 1) ∧
  1 ∈ scheduler_current_thread (get demo_waiting).
Proof.
  destruct (threads_accounted_for 0x10000 0x3000 0x2000 (get demo_waiting) 1 demo_row
    demo_waiting_reachable) as (H1 & _ & H3 & _); [lia|by vm_compute|].
  split_and!; [by vm_compute|exact H1|]. apply H3. left. by vm_compute.
Defined.

Lemma queue_operations_return_witness :
  returns (sleepq_wake_all 0x8000 (get demo_waiting)) kinv.
Proof.
  destruct (queue_operations_return 0x10000 0x3000 0x2000 (get demo_waiting)
    demo_waiting_reachable) as (_ & _ & H & _).
  exact (H 0x8000).
Defined.

Lemma wakeups_refine_queues_witness :
  refines (sleepq_wake 0x8000 (get demo_waiting)) (get demo_waiting) (a_wake 0x8000 demo_abs)
  ∧ a_bucket (a_wake 0x8000 demo_abs) 0x8000 = [].
Proof.
  split; [|by vm_compute].
  exact (proj1 (wakeups_refine_queues (get demo_waiting) demo_abs 0x8000
    demo_krep demo_tslock demo_sslock)).
Defined.

Lemma schedule_refines_round_robin_witness :
  returns (scheduler_schedule 0 5 (get demo_waiting)) (λ k',
    krep k' (snd (a_schedule 1 demo_abs)) ∧
    scheduler_current_thread k' = [0; 0; 0; 0] ∧ timer k' = 380).
Proof.
  pose proof (schedule_refines_round_robin (get demo_waiting) demo_abs 0 5 1
    demo_krep demo_ainv demo_tslock demo_current) as H.
  assert (E : <[Z.to_nat 0 := fst (a_schedule 1 demo_abs)]>
    (scheduler_current_thread (get demo_waiting)) = [0; 0; 0; 0]) by (by vm_compute).
  rewrite E in H. exact H.
Defined.

Lemma no_lost_wakeup_witness :
  returns (let* k1 := sleepq_wake 0x8000 (get demo_waiting) in thread_switch 0 5 k1) (λ k',
    ∃ th', thread_table k' !! 1%nat = Some th' ∧ sleeps_on th' = 0 ∧
      (state th' = THREAD_READY ∨ state th' = THREAD_RUNNING)).
Proof.
  apply (no_lost_wakeup (get demo_waiting) demo_abs 0 5 0x8000 1 (erase demo_row) [] []);
    [exact demo_krep|exact demo_ainv|exact demo_tslock|exact demo_sslock|exact demo_current
    |lia|by vm_compute|by vm_compute|by vm_compute|constructor|by vm_compute].
Defined.
