(* ===== verification/Semaphore.v ===== *)
(** * Semaphores (kernel/semaphore.c)

    The semaphore table on top of the sleep queue of Threads.v: a semaphore is
    designated by its index, and its address, the resource its waiters sleep
    on, is computed from the table's link-time address.  The invariant ties
    the counter to the sleep queue: a semaphore with value [-n] has exactly [n]
    sleepers. *)

From S2P Require Import Prelude Threads ThreadsRef SchedRef SchedInv SchedSteps.

Definition CONFIG_MAX_SEMAPHORES : Z := 128.
Definition sizeof_semaphore : Z := 12.

Record semaphore_t := Sem { slock : Z; value : Z; creator : Z }.

Record sems := Sems {
  semaphore_table : list semaphore_t;
  semaphore_table_slock : Z;
  next_sem : Z
}.

(** The semaphore table and the kernel it runs in. *)
Record skernel := SKernel { kern : kernel; sem_state : sems }.

Definition semaphore_init (s : sems) : outcome sems :=
  let* t := for_each 0 CONFIG_MAX_SEMAPHORES (λ i t,
    let* x := aread t i in awrite t i (Sem (slock x) (value x) (-1))) (semaphore_table s) in
  Done (Sems t 0 (next_sem s)).

(** The search loop of [semaphore_create]: the index found, if any, with the
    table and the allocator's position after it. *)
Definition semaphore_find (tid : Z) (s : sems) : outcome (option Z * sems) :=
  let* r := for_loop 0 CONFIG_MAX_SEMAPHORES (λ _ s,
    let sem_id := next_sem s in
    let s := Sems (semaphore_table s) (semaphore_table_slock s)
               ((sem_id + 1) `rem` CONFIG_MAX_SEMAPHORES) in
    let* x := aread (semaphore_table s) sem_id in
    if creator x =? -1 then
      let* t := awrite (semaphore_table s) sem_id (Sem (slock x) (value x) tid) in
      Done (inr (sem_id, Sems t (semaphore_table_slock s) (next_sem s)))
    else Done (inl s)) s in
  Done (match r with inl s' => (None, s') | inr (i, s') => (Some i, s') end).

Definition semaphore_create (cpu v : Z) (k : skernel) : outcome (option Z * skernel) :=
  kassert (0 <=? v) ;*
  let intr_status := intr (kern k) in
  let s := sem_state k in
  let* l := spin (semaphore_table_slock s) in
  let* tid := thread_get_current_thread cpu (kern k) in
  let* '(r, s) := semaphore_find tid (Sems (semaphore_table s) l (next_sem s)) in
  let s := Sems (semaphore_table s) 0 (next_sem s) in
  let kn := set_intr intr_status (set_intr false (kern k)) in
  match r with
  | None => Done (None, SKernel kn s)
  | Some i =>
      let* x := aread (semaphore_table s) i in
      let* t := awrite (semaphore_table s) i (Sem 0 v (creator x)) in
      Done (Some i, SKernel kn (Sems t (semaphore_table_slock s) (next_sem s)))
  end.

(** [f] applied to semaphore [i]. *)
Definition upd_sem (i : Z) (f : semaphore_t → semaphore_t) (s : sems) : outcome sems :=
  let* x := aread (semaphore_table s) i in
  let* t := awrite (semaphore_table s) i (f x) in
  Done (Sems t (semaphore_table_slock s) (next_sem s)).

Definition semaphore_destroy (i : Z) (k : skernel) : outcome skernel :=
  let* s := upd_sem i (λ x, Sem (slock x) (value x) (-1)) (sem_state k) in
  Done (SKernel (kern k) s).

Section operations.
(** The address of [semaphore_table]. *)
Variable table_address : Z.

Definition sem_addr (i : Z) : Z := table_address + sizeof_semaphore * i.

(** [semaphore_P] by the current thread of [cpu].  The result tells whether it
    went to sleep: then the state is the one after its [thread_switch], in which
    the CPU runs another thread; otherwise the call returned. *)
Definition semaphore_P (cpu rnd i : Z) (k : skernel) : outcome (bool * skernel) :=
  let intr_status := intr (kern k) in
  let kn := set_intr false (kern k) in
  let* x := aread (semaphore_table (sem_state k)) i in
  let* l := spin (slock x) in
  let* s := upd_sem i (λ x, Sem l (s32 (value x - 1)) (creator x)) (sem_state k) in
  let* x := aread (semaphore_table s) i in
  if value x <? 0 then
    let* kn := sleepq_add cpu (sem_addr i) kn in
    let* s := upd_sem i (λ x, Sem 0 (value x) (creator x)) s in
    let* kn := thread_switch cpu rnd kn in
    Done (true, SKernel kn s)
  else
    let* s := upd_sem i (λ x, Sem 0 (value x) (creator x)) s in
    Done (false, SKernel (set_intr intr_status kn) s).

Definition semaphore_V (i : Z) (k : skernel) : outcome skernel :=
  let intr_status := intr (kern k) in
  let kn := set_intr false (kern k) in
  let* x := aread (semaphore_table (sem_state k)) i in
  let* l := spin (slock x) in
  let* s := upd_sem i (λ x, Sem l (s32 (value x + 1)) (creator x)) (sem_state k) in
  let* x := aread (semaphore_table s) i in
  let* kn := if value x <=? 0 then sleepq_wake (sem_addr i) kn else Done kn in
  let* s := upd_sem i (λ x, Sem 0 (value x) (creator x)) s in
  Done (SKernel (set_intr intr_status kn) s).
End operations.

(** ** Waiters *)

(** The number of threads that wait for [res]. *)
Definition waiters (a : athreads) (res : Z) : nat :=
  length (List.filter (waits_on a res) (a_bucket a res)).

Definition sem_waiters (v : Z) : nat := Z.to_nat (- v).

(** The invariant of the semaphore table. *)
Record seminv (base : Z) (a : athreads) (s : sems) : Prop := {
  si_len : Z.of_nat (length (semaphore_table s)) = CONFIG_MAX_SEMAPHORES;
  si_next : 0 ≤ next_sem s < CONFIG_MAX_SEMAPHORES;
  si_tslock : semaphore_table_slock s = 0;
  si_sem : ∀ i x, semaphore_table s !! i = Some x →
    slock x = 0 ∧ is_s32 (value x) ∧
    waiters a (sem_addr base (Z.of_nat i)) =
      if creator x =? -1 then 0%nat else sem_waiters (value x)
}.

Record skinv (base : Z) (k : skernel) : Prop := {
  sk_kinv : kinv (kern k);
  sk_sem : ∀ a, krep (kern k) a → seminv base a (sem_state k)
}.

Lemma waits_on_upd_ne a res t u f :
  0 ≤ t → 0 ≤ u → t ≠ u → waits_on (a_upd t f a) res u = waits_on a res u.
Proof. intros. unfold waits_on. rewrite a_thread_upd by done. by rewrite decide_False. Qed.

Lemma waits_on_upd_state a res t u x :
  0 ≤ t → 0 ≤ u → waits_on (a_upd t (set_state x) a) res u = waits_on a res u.
Proof.
  intros. unfold waits_on. rewrite a_thread_upd by done.
  case_decide; [subst|done]. by destruct (a_thread a u).
Qed.

(** Threads in no queue can be changed without changing the waiters. *)
Lemma waiters_agree a b res :
  a_bucket b res = a_bucket a res →
  (∀ u, u ∈ a_bucket a res → waits_on b res u = waits_on a res u) →
  waiters b res = waiters a res.
Proof. intros Hb Hw. unfold waiters. rewrite Hb. by rewrite (filter_agree _ _ _ Hw). Qed.

Lemma bucket_elem_pos k a res u : krep k a → u ∈ a_bucket a res → 0 < u.
Proof. intros Hk Hu. by apply (bucket_ok k a res Hk). Qed.

Lemma bucket_queued k a res u : krep k a → u ∈ a_bucket a res → u ∈ concat (queues a).
Proof.
  intros Hk Hu. destruct (krep_bucket k a res Hk) as (_ & _ & _ & Hb).
  apply elem_of_concat. eauto.
Qed.

Lemma a_bucket_set_ne a res res' l :
  (Z.to_nat (SLEEPQ_HASH res) < length (a_sleep a))%nat →
  a_bucket (a_set_bucket res l a) res' =
  if decide (SLEEPQ_HASH res' = SLEEPQ_HASH res) then l else a_bucket a res'.
Proof.
  intros Hl. unfold a_bucket at 1. rewrite set_bucket_lookup by done.
  pose proof (hash_range res). pose proof (hash_range res').
  destruct (decide (SLEEPQ_HASH res' = SLEEPQ_HASH res)) as [E|Hne].
  - by rewrite decide_True by (by rewrite E).
  - rewrite decide_False; [done|]. intros ?. apply Hne. lia.
Qed.

(** The bucket only depends on the hash value. *)
Lemma a_bucket_hash a res res' :
  SLEEPQ_HASH res' = SLEEPQ_HASH res → a_bucket a res' = a_bucket a res.
Proof. intros E. unfold a_bucket. by rewrite E. Qed.

Lemma waiters_sleep_add k a t res res' :
  krep k a → 0 < t → is_Some (a_thread a t) → t ∉ concat (queues a) →
  waiters (a_sleep_add t res a) res' =
  ((if decide (res = res') then 1 else 0) + waiters a res')%nat.
Proof.
  intros Hk Ht [th El] Hni. unfold a_sleep_add.
  pose proof (sleep_length k a res Hk) as Hlen.
  assert (Hold : ∀ u, u ∈ a_bucket a res' →
    waits_on (a_sleep_add t res a) res' u = waits_on a res' u).
  { intros u Hu. pose proof (bucket_elem_pos k a res' u Hk Hu).
    apply (waits_on_upd_ne a res' t u); [lia|lia|].
    intros ->. by apply Hni, (bucket_queued k a res'). }
  assert (Hnew : waits_on (a_sleep_add t res a) res' t = (res =? res')).
  { unfold waits_on. change (a_thread (a_sleep_add t res a) t)
      with (a_thread (a_upd t (set_sleeps_on res) a) t).
    rewrite a_thread_upd, decide_True, El by (done || lia). done. }
  unfold waiters at 1. fold (a_sleep_add t res a).
  unfold a_sleep_add at 2. rewrite a_bucket_set_ne by done.
  change (a_bucket (a_upd t (set_sleeps_on res) a)) with (a_bucket a).
  destruct (decide (SLEEPQ_HASH res' = SLEEPQ_HASH res)) as [E|E].
  - rewrite <- (a_bucket_hash a res res' E), List.filter_app, length_app.
    rewrite (filter_agree _ (waits_on a res') _ Hold). simpl. rewrite Hnew.
    fold (waiters a res'). destruct (Z.eqb_spec res res'), (decide (res = res')); simpl; lia.
  - rewrite decide_False by congruence. rewrite (filter_agree _ (waits_on a res') _ Hold). done.
Qed.

Lemma filter_length_middle (p : Z → bool) l1 t l2 :
  length (List.filter p (l1 ++ t :: l2)) =
  ((if p t then 1 else 0) + length (List.filter p (l1 ++ l2)))%nat.
Proof.
  rewrite !List.filter_app, !length_app. simpl. destruct (p t); simpl; lia.
Qed.

Lemma waiters_wake k a res res' :
  krep k a →
  waiters (a_wake res a) res' =
  if decide (res = res') then pred (waiters a res') else waiters a res'.
Proof.
  intros Hk. unfold a_wake. destruct (split_first _ _) as [[t l]|] eqn:Es.
  - apply split_first_Some in Es as (l1 & l2 & Eb & -> & Hw & _).
    pose proof (sleep_length k a res Hk) as Hlen.
    destruct (bucket_ok k a res Hk) as [Hnd Hpos]. rewrite Eb in Hnd, Hpos.
    assert (Htpos : 0 < t) by (apply Hpos; apply elem_of_app; right; by left).
    assert (Hw' : waits_on a res' t = true ↔ res = res').
    { unfold waits_on in *. destruct (a_thread a t); [|done]. apply Z.eqb_eq in Hw.
      rewrite Z.eqb_eq. split; congruence. }
    rewrite <- Permutation_middle in Hnd. apply NoDup_cons in Hnd as [Hni _].
    assert (Hold : ∀ u, 0 < u → u ≠ t →
      waits_on (a_release t (a_set_bucket res (l1 ++ l2) a)) res' u = waits_on a res' u).
    { intros u Hu Hne. unfold waits_on. by rewrite a_release_thread_ne by lia. }
    assert (Hbk : a_bucket (a_release t (a_set_bucket res (l1 ++ l2) a)) res' =
      a_bucket (a_set_bucket res (l1 ++ l2) a) res').
    { unfold a_bucket. by rewrite a_release_sleep. }
    unfold waiters at 1. rewrite Hbk, a_bucket_set_ne by done.
    destruct (decide (SLEEPQ_HASH res' = SLEEPQ_HASH res)) as [E|E].
    + rewrite (filter_agree _ (waits_on a res')).
      2: { intros u Hu. apply Hold; [|by intros ->].
           apply Hpos. set_solver. }
      unfold waiters. rewrite (a_bucket_hash a res res' E), Eb, filter_length_middle.
      destruct (waits_on a res' t), (decide (res = res')); naive_solver.
    + rewrite decide_False by congruence. rewrite (filter_agree _ (waits_on a res')); [done|].
      intros u Hu. apply Hold; [by eapply bucket_elem_pos|]. intros ->.
      pose proof (kr_queues _ _ Hk) as Hq.
      destruct (krep_bucket k a res Hk) as (_ & _ & _ & Hb1).
      destruct (krep_bucket k a res' Hk) as (_ & _ & _ & Hb2).
      eapply (qrep_disjoint _ _ _ Hq _ _ _ _ t Hb1); [|exact Hb2| |exact Hu].
      * pose proof (hash_range res). pose proof (hash_range res'). intros ?. apply E. lia.
      * rewrite Eb. apply elem_of_app. right. by left.
  - apply split_first_None, filter_none in Es as [Es _]. case_decide; [subst|done].
    unfold waiters. by rewrite Es.
Qed.

Lemma release_all_sleep l a : a_sleep (foldl (λ a' t, a_release t a') a l) = a_sleep a.
Proof. revert a. induction l as [|t l IH]; intros a; simpl; [done|]. by rewrite IH, a_release_sleep. Qed.

Lemma release_all_thread l a u :
  0 ≤ u → (∀ t, t ∈ l → 0 ≤ t ∧ t ≠ u) →
  a_thread (foldl (λ a' t, a_release t a') a l) u = a_thread a u.
Proof.
  intros Hu. revert a. induction l as [|t l IH]; intros a Hl; simpl; [done|].
  rewrite IH by (intros t' Ht'; apply Hl; by right). destruct (Hl t) as [Ht Hne]; [by left|].
  by apply a_release_thread_ne.
Qed.

Lemma waiters_wake_all k a res res' :
  krep k a → waiters (a_wake_all res a) res' = if decide (res = res') then 0%nat else waiters a res'.
Proof.
  intros Hk. unfold a_wake_all. set (l := a_bucket a res).
  pose proof (sleep_length k a res Hk) as Hlen. destruct (bucket_ok k a res Hk) as [_ Hpos]. fold l in Hpos.
  assert (Hin : ∀ t, t ∈ List.filter (waits_on a res) l ↔ t ∈ l ∧ waits_on a res t = true)
    by (intros t; by rewrite !list_elem_of_In, List.filter_In).
  set (b := a_set_bucket _ _ a). set (a' := foldl _ _ _).
  assert (Hold : ∀ u, 0 < u → (u ∈ l → waits_on a res u = false) → waits_on a' res' u = waits_on a res' u).
  { intros u Hu Hw. unfold waits_on. unfold a'. rewrite release_all_thread; [done|lia|].
    intros t [Ht Htw]%Hin. split; [pose proof (Hpos t Ht); lia|]. intros ->. rewrite Hw in Htw; done. }
  assert (Hbk : a_bucket a' res' = a_bucket b res') by (unfold a_bucket, a'; by rewrite release_all_sleep).
  unfold waiters at 1. rewrite Hbk. unfold b. rewrite a_bucket_set_ne by done.
  destruct (decide (SLEEPQ_HASH res' = SLEEPQ_HASH res)) as [E|E].
  - rewrite (filter_agree _ (waits_on a res')).
    2: { intros u Hu. rewrite list_elem_of_In, List.filter_In, <- list_elem_of_In in Hu.
         destruct Hu as [Hu Hnw]. apply Hold; [by apply Hpos|]. by apply negb_true_iff in Hnw. }
    unfold waiters. rewrite (a_bucket_hash a res res' E). fold l.
    assert (Hdec : ∀ t, waits_on a res t = true → waits_on a res' t = bool_decide (res = res')).
    { intros t. unfold waits_on. destruct (a_thread a t); [|done]. intros ->%Z.eqb_eq.
      destruct (Z.eqb_spec res res'); [by rewrite bool_decide_true|by rewrite bool_decide_false]. }
    clear -Hdec. induction l as [|t l IH]; [by case_decide|]. simpl.
    destruct (waits_on a res t) eqn:Ew; simpl.
    + rewrite IH, Hdec by done. case_decide; [done|]. by rewrite bool_decide_false.
    + destruct (waits_on a res' t) eqn:Ew'; simpl; rewrite IH; case_decide; subst; congruence.
  - rewrite decide_False by congruence. rewrite (filter_agree _ (waits_on a res')); [done|].
    intros u Hu. apply Hold; [by eapply bucket_elem_pos|]. intros Hul. exfalso.
    destruct (krep_bucket k a res Hk) as (_ & _ & _ & Hb1).
    destruct (krep_bucket k a res' Hk) as (_ & _ & _ & Hb2).
    eapply (qrep_disjoint _ _ _ (kr_queues _ _ Hk) _ _ _ _ u Hb1); [|exact Hb2|exact Hul|exact Hu].
    pose proof (hash_range res). pose proof (hash_range res'). intros ?. apply E. lia.
Qed.

Lemma retire_bucket cur a res : a_bucket (a_retire cur a) res = a_bucket a res.
Proof.
  unfold a_retire. destruct (a_thread a cur); [|done].
  case_bool_decide; [done|]. destruct (negb _); [done|]. by destruct (negb _).
Qed.

Lemma retire_waits cur a res u :
  0 ≤ cur → 0 ≤ u → waits_on (a_retire cur a) res u = waits_on a res u.
Proof.
  intros Hc Hu. unfold a_retire. destruct (a_thread a cur); [|done].
  case_bool_decide; [by apply waits_on_upd_state|].
  destruct (negb _); [by apply waits_on_upd_state|].
  rewrite waits_on_upd_state by done. by destruct (negb _).
Qed.

Lemma waiters_schedule k a cur res :
  krep k a → 0 ≤ cur → (0 ≤ fst (a_schedule cur a)) →
  waiters (snd (a_schedule cur a)) res = waiters a res.
Proof.
  intros Hk Hc. unfold a_schedule. destruct (a_pop (a_retire cur a)) as [t a'] eqn:Ep.
  cbn [fst snd]. intros Ht.
  assert (Ha' : a_tab a' = a_tab (a_retire cur a) ∧ a_sleep a' = a_sleep (a_retire cur a)).
  { unfold a_pop in Ep. destruct (a_ready (a_retire cur a)); by simplify_eq. }
  destruct Ha' as [Ht' Hs']. apply waiters_agree.
  - unfold a_bucket. simpl. rewrite Hs'. apply retire_bucket.
  - intros u Hu. pose proof (bucket_elem_pos k a res u Hk Hu).
    rewrite waits_on_upd_state by lia. rewrite <- (retire_waits cur a) by lia.
    unfold waits_on, a_thread. by rewrite Ht'.
Qed.

(** A thread that waits for something is asleep after the switch. *)
Lemma sleeping_row a t th res :
  0 < t → a_thread a t = Some th → state th = THREAD_RUNNING → res ≠ 0 →
  (∀ u, u ∈ a_ready a → 0 < u ∧ u ≠ t) →
  ∃ th', a_thread (snd (a_schedule t (a_sleep_add t res a))) t = Some th' ∧
    state th' = THREAD_SLEEPING ∧ sleeps_on th' = res.
Proof.
  intros Ht El Hst Hres Hr. set (a1 := a_sleep_add t res a).
  assert (E1 : a_thread a1 t = Some (set_sleeps_on res th)).
  { change (a_thread a1 t) with (a_thread (a_upd t (set_sleeps_on res) a) t).
    rewrite a_thread_upd, decide_True, El by (done || lia). done. }
  assert (Er : a_ready a1 = a_ready a) by done. clearbody a1.
  exists (set_state THREAD_SLEEPING (set_sleeps_on res th)).
  unfold a_schedule, a_retire. rewrite E1. simpl.
  rewrite bool_decide_false by congruence.
  destruct (Z.eqb_spec res 0); [done|]. cbn [negb].
  assert (E2 : a_thread (a_upd t (set_state THREAD_SLEEPING) a1) t
    = Some (set_state THREAD_SLEEPING (set_sleeps_on res th))).
  { rewrite a_thread_upd, decide_True, E1 by (done || lia). done. }
  unfold a_pop. cbn [a_ready a_upd]. rewrite Er.
  split; [|done]. destruct (a_ready a) as [|u r] eqn:Ea; cbn [snd].
  - unfold IDLE_THREAD_TID. rewrite a_thread_upd, decide_False by lia. exact E2.
  - destruct (Hr u) as [Hu Hne]; [by left|]. rewrite a_thread_upd, decide_False by lia. exact E2.
Qed.

(** The calling thread, which is not the idle thread. *)
Definition caller (k : kernel) (cpu t : Z) : Prop :=
  thread_get_current_thread cpu k = Done t ∧ t ≠ IDLE_THREAD_TID ∧ 0 ≤ t ∧
  ∃ a th, krep k a ∧ a_thread a t = Some th ∧ state th = THREAD_RUNNING ∧ sleeps_on th = 0.

(** ** The invariant is preserved *)
Lemma upd_sem_in_range i f s x :
  0 ≤ i → semaphore_table s !! Z.to_nat i = Some x →
  upd_sem i f s = Done (Sems (<[Z.to_nat i := f x]> (semaphore_table s))
    (semaphore_table_slock s) (next_sem s)).
Proof.
  intros Hi Hx. unfold upd_sem. rewrite (aread_Some _ _ x) by done. cbn [outcome_bind].
  rewrite awrite_in_range; [done|]. apply lookup_lt_Some in Hx. lia.
Qed.

Section invariant.
Context (base : Z) (Hbase : 0 < base) (Htop : base + sizeof_semaphore * CONFIG_MAX_SEMAPHORES ≤ 2 ^ 32).

Lemma sem_addr_inj i j : sem_addr base i = sem_addr base j → i = j.
Proof. unfold sem_addr, sizeof_semaphore. lia. Qed.

Lemma sem_addr_u32 i : 0 ≤ i < CONFIG_MAX_SEMAPHORES →
  is_u32 (sem_addr base i) ∧ sem_addr base i ≠ 0.
Proof. unfold is_u32, sem_addr, sizeof_semaphore, CONFIG_MAX_SEMAPHORES in *. lia. Qed.

Lemma seminv_replace a a' s i x x' :
  seminv base a s → 0 ≤ i → semaphore_table s !! Z.to_nat i = Some x →
  slock x' = 0 → is_s32 (value x') →
  waiters a' (sem_addr base i) = (if creator x' =? -1 then 0%nat else sem_waiters (value x')) →
  (∀ j, j ≠ i → waiters a' (sem_addr base j) = waiters a (sem_addr base j)) →
  seminv base a' (Sems (<[Z.to_nat i := x']> (semaphore_table s)) 0 (next_sem s)).
Proof.
  intros [Hl Hn Ht Hs] Hi Hx Hsl Hv Hw Ho. split; simpl; try done.
  - by rewrite length_insert.
  - intros j y. rewrite list_lookup_insert. case_decide as E.
    + destruct E as [<- _]. intros [= <-]. rewrite Z2Nat.id by done. done.
    + intros Hy. destruct (Hs j y Hy) as (? & ? & Hwj). split_and!; [done|done|].
      rewrite Ho; [done|]. intros <-. apply E. split; [lia|].
      by eapply lookup_lt_Some.
Qed.

(** The number of waiters bounds the counter from below. *)
Lemma value_lower k a s i x :
  krep k a → seminv base a s → semaphore_table s !! i = Some x → creator x ≠ -1 →
  - CONFIG_MAX_THREADS < value x ∧ value x < 2 ^ 31 ∧ slock x = 0 ∧
  waiters a (sem_addr base (Z.of_nat i)) = sem_waiters (value x).
Proof.
  intros Hk Hs Hx Hc. destruct (si_sem _ _ _ Hs i x Hx) as (? & Hv & Hw).
  destruct (Z.eqb_spec (creator x) (-1)); [done|].
  destruct (bucket_suffix k a (sem_addr base (Z.of_nat i)) [] _ Hk eq_refl) as (_ & Hlen & _ & _).
  pose proof (List.filter_length_le (waits_on a (sem_addr base (Z.of_nat i)))
    (a_bucket a (sem_addr base (Z.of_nat i)))) as Hf.
  unfold waiters in Hw. rewrite Hw in Hf. simpl in Hlen.
  unfold sem_waiters, list_fuel, is_s32, CONFIG_MAX_THREADS in *. split_and!; try lia. done.
Qed.

Lemma skinv_intro k a s :
  kinv k → krep k a → seminv base a s → skinv base (SKernel k s).
Proof.
  intros Hk Ha Hs. split; [done|]. simpl. intros b Hb. by rewrite (krep_functional _ _ _ Hb Ha).
Qed.

Lemma kinv_ainv k a : kinv k → krep k a → ainv a (scheduler_current_thread k) [].
Proof.
  intros [(b & Hb & Hab) _ _ _ _] Ha. by rewrite (krep_functional _ _ _ Ha Hb).
Qed.

Lemma kernel_intr_eta k : set_intr (intr k) (set_intr false k) = k.
Proof. by destruct k. Qed.

(** [semaphore_V]: the counter goes up by one, and if threads wait, the one that
    has waited longest is released. *)
Lemma semaphore_V_spec k i x a :
  skinv base k → krep (kern k) a → 0 ≤ i →
  semaphore_table (sem_state k) !! Z.to_nat i = Some x → creator x ≠ -1 →
  value x < 2 ^ 31 - 1 →
  returns (semaphore_V base i k) (λ k',
    skinv base k' ∧
    krep (kern k') (if value x <? 0 then a_wake (sem_addr base i) a else a) ∧
    semaphore_table (sem_state k') =
      <[Z.to_nat i := Sem 0 (value x + 1) (creator x)]> (semaphore_table (sem_state k))).
Proof.
  intros Hk Ha Hi Hx Hc Hv. pose proof (sk_sem _ _ Hk a Ha) as Hs.
  destruct (value_lower _ _ _ _ _ Ha Hs Hx Hc) as (Hlo & _ & Hsl & Hw).
  rewrite Z2Nat.id in Hw by done.
  pose proof (lookup_lt_Some _ _ _ Hx) as Hlt.
  unfold semaphore_V. rewrite (aread_Some _ _ x) by done. cbn [outcome_bind].
  rewrite Hsl. cbn [spin Z.eqb outcome_bind]. rewrite (upd_sem_in_range _ _ _ x) by done.
  cbn [outcome_bind semaphore_table].
  rewrite (s32_id (value x + 1)) by (unfold is_s32, CONFIG_MAX_THREADS in *; lia).
  set (s1 := Sems _ _ _). set (x1 := Sem 1 (value x + 1) (creator x)).
  assert (Hx1 : semaphore_table s1 !! Z.to_nat i = Some x1) by (by apply list_lookup_insert_eq).
  change (aread (semaphore_table s1) i) with (aread (semaphore_table s1) i).
  rewrite (aread_Some _ _ x1) by done. cbn [outcome_bind].
  assert (Hout : ∀ a' kn, kinv kn → krep kn a' →
    waiters a' (sem_addr base i) = sem_waiters (value x + 1) →
    (∀ j, j ≠ i → waiters a' (sem_addr base j) = waiters a (sem_addr base j)) →
    returns (let* s := upd_sem i (λ x, Sem 0 (value x) (creator x)) s1 in
             Done (SKernel (set_intr (intr (kern k)) kn) s)) (λ k',
      skinv base k' ∧ krep (kern k') a' ∧ semaphore_table (sem_state k') =
      <[Z.to_nat i := Sem 0 (value x + 1) (creator x)]> (semaphore_table (sem_state k)))).
  { intros a' kn Hkn Ha' Hwi Hwj. rewrite (upd_sem_in_range _ _ _ x1) by done.
    cbn [outcome_bind returns]. simpl. rewrite list_insert_insert_eq, (si_tslock _ _ _ Hs).
    split_and!; [|by apply krep_intr|done].
    apply (skinv_intro (set_intr (intr (kern k)) kn) a');
      [by apply kinv_intr|by apply krep_intr|].
    eapply seminv_replace; try done; simpl.
    - unfold is_s32, CONFIG_MAX_THREADS in *. lia.
    - by destruct (Z.eqb_spec (creator x) (-1)). }
  change (value x1) with (value x + 1).
  destruct (Z.ltb_spec (value x) 0), (Z.leb_spec (value x + 1) 0); try lia.
  - assert (Hkf : kinv (set_intr false (kern k))) by (apply kinv_intr, (sk_kinv base k Hk)).
    eapply refines_step; [apply (sleepq_wake_refines _ a); [by apply krep_intr|apply Hkf..]|].
    intros kn Hkn Hf. apply Hout; [|done|rewrite (waiters_wake _ a _ _ Ha)|].
    + apply (refines_kinv (Done kn) _ (a_wake (sem_addr base i) a) Hkf); [|by split].
      eapply wake_inv; [exact Ha|]. apply (kinv_ainv (kern k)); [apply Hk|done].
    + rewrite decide_True by done. rewrite Hw. unfold sem_waiters. lia.
    + intros j Hj. rewrite (waiters_wake _ a _ _ Ha), decide_False; [done|].
      intros E. apply Hj. by eapply sem_addr_inj.
  - cbn [outcome_bind].
    apply Hout; [apply kinv_intr, (sk_kinv base k Hk)|by apply krep_intr| |done].
    rewrite Hw. unfold sem_waiters. lia.
Qed.

(** The sleeping half of [semaphore_P]: queue up, then switch away. *)
Lemma sleep_and_switch kn a cpu rnd t th res :
  kinv kn → krep kn a → intr kn = false → thread_get_current_thread cpu kn = Done t →
  t ≠ IDLE_THREAD_TID → a_thread a t = Some th → state th = THREAD_RUNNING →
  sleeps_on th = 0 → is_u32 res → res ≠ 0 →
  returns (let* kn := sleepq_add cpu res kn in thread_switch cpu rnd kn) (λ k',
    kinv k' ∧ ∃ a', krep k' a' ∧
      (∀ r, waiters a' r = ((if decide (res = r) then 1 else 0) + waiters a r)%nat) ∧
      ∃ th', a_thread a' t = Some th' ∧ state th' = THREAD_SLEEPING ∧ sleeps_on th' = res).
Proof.
  intros Hi Ha Hin Hc Hne El Hst Hsl Hu Hr. pose proof (kinv_ainv kn a Hi Ha) as Hai.
  assert (Hc' := Hc). unfold thread_get_current_thread in Hc'.
  apply aread_Done in Hc' as [Hcpu Hcl].
  pose proof (ai_curs _ _ _ Hai) as Hok. rewrite Forall_lookup in Hok. specialize (Hok _ _ Hcl).
  assert (Ht : 0 < t < CONFIG_MAX_THREADS) by (unfold tid_ok, IDLE_THREAD_TID in *; lia).
  assert (Hni : t ∉ concat (queues a)).
  { eapply not_queued; [done|done|done|lia|congruence|done]. }
  assert (Ha1 : ainv (a_sleep_add t res a) (scheduler_current_thread kn) []).
  { eapply sleep_add_inv; try done. lia. }
  eapply refines_step; [apply (sleepq_add_refines kn a cpu t res); try done; apply Hi|].
  intros k1 Hk1 [F1 F2 F3 F4 F5 F6]. unfold thread_switch, _interrupt_yield. apply returns_bind.
  eapply returns_mono; [apply (schedule_refines _ (a_sleep_add t res a) cpu rnd t)|].
  - by apply krep_intr, krep_intr.
  - simpl. by rewrite F3.
  - simpl. rewrite F1. apply Hi.
  - simpl. by rewrite F3.
  - intros k2 (Hk2 & Ha2 & Hcs & Ht2 & Hs2 & Hn2 & _). simpl in *.
    assert (Hpick : 0 ≤ fst (a_schedule t (a_sleep_add t res a))).
    { pose proof (ai_curs _ _ _ Ha2) as Hok2. rewrite Hcs, F3, Forall_lookup in Hok2.
      apply (Hok2 (Z.to_nat cpu)), list_lookup_insert_eq. by eapply lookup_lt_Some. }
    split; [|exists (snd (a_schedule t (a_sleep_add t res a))); split_and!].
    + split; simpl; [|done|rewrite Hs2, F2; apply Hi|rewrite Hn2, F4; apply Hi|].
      * eexists. split; [by apply krep_intr|done].
      * rewrite Hcs, F3, length_insert. apply Hi.
    + by apply krep_intr.
    + intros r. rewrite (waiters_schedule k1) by (done || lia).
      apply (waiters_sleep_add kn); [done|lia|eauto|done].
    + eapply sleeping_row; [lia|done|done|done|]. intros u Hur.
      pose proof (krep_ready_pos kn a Ha u Hur). split; [lia|]. intros ->.
      apply Hni, elem_of_app. by left.
Qed.

(** [semaphore_P]: the counter goes down by one; the caller sleeps on the
    semaphore exactly when the counter was not positive, and otherwise nothing
    else changes. *)
Lemma semaphore_P_spec k cpu rnd i x a t th :
  skinv base k → krep (kern k) a → 0 ≤ i →
  semaphore_table (sem_state k) !! Z.to_nat i = Some x → creator x ≠ -1 →
  thread_get_current_thread cpu (kern k) = Done t → t ≠ IDLE_THREAD_TID →
  a_thread a t = Some th → state th = THREAD_RUNNING → sleeps_on th = 0 →
  returns (semaphore_P base cpu rnd i k) (λ '(blocked, k'),
    skinv base k' ∧ blocked = (value x <=? 0) ∧
    semaphore_table (sem_state k') =
      <[Z.to_nat i := Sem 0 (value x - 1) (creator x)]> (semaphore_table (sem_state k)) ∧
    (if blocked then ∃ th', thread_table (kern k') !! Z.to_nat t = Some th' ∧
       state th' = THREAD_SLEEPING ∧ sleeps_on th' = sem_addr base i
     else kern k' = kern k)).
Proof.
  intros Hk Ha Hi Hx Hc Hcur Hne El Hst Hsl. pose proof (sk_sem _ _ Hk a Ha) as Hs.
  destruct (value_lower _ _ _ _ _ Ha Hs Hx Hc) as (Hlo & Hup & Hlk & Hw).
  rewrite Z2Nat.id in Hw by done. pose proof (lookup_lt_Some _ _ _ Hx) as Hlt.
  pose proof (si_len _ _ _ Hs) as Hlen.
  assert (Hs32 : is_s32 (value x - 1)) by (unfold is_s32, CONFIG_MAX_THREADS in *; lia).
  assert (Hcr : (creator x =? -1) = false) by (by apply Z.eqb_neq).
  unfold semaphore_P. rewrite (aread_Some _ _ x) by done. cbn [outcome_bind].
  rewrite Hlk. cbn [spin Z.eqb outcome_bind]. rewrite (upd_sem_in_range _ _ _ x) by done.
  cbn [outcome_bind semaphore_table]. rewrite s32_id by done.
  set (s1 := Sems _ _ _). set (x1 := Sem 1 (value x - 1) (creator x)).
  assert (Hx1 : semaphore_table s1 !! Z.to_nat i = Some x1) by (by apply list_lookup_insert_eq).
  rewrite (aread_Some _ _ x1) by done. cbn [outcome_bind]. change (value x1) with (value x - 1).
  assert (Hu := upd_sem_in_range i (λ x, Sem 0 (value x) (creator x)) s1 x1 Hi Hx1).
  simpl in Hu. rewrite list_insert_insert_eq in Hu.
  destruct (Z.ltb_spec (value x - 1) 0), (Z.leb_spec (value x) 0); try lia.
  - destruct (sem_addr_u32 i ltac:(lia)) as [Hau Ha0].
    pose proof (sleep_and_switch (set_intr false (kern k)) a cpu rnd t th (sem_addr base i)
      (kinv_intr _ _ (sk_kinv base k Hk)) (proj2 (krep_intr _ _ _) Ha) eq_refl Hcur Hne El Hst
      Hsl Hau Ha0) as Hss.
    destruct (sleepq_add cpu (sem_addr base i) (set_intr false (kern k))) as [kn| | | |];
      try done. cbn [outcome_bind] in *. rewrite Hu. cbn [outcome_bind].
    apply returns_bind. eapply returns_mono; [exact Hss|].
    intros k' (Hki & a' & Ha' & Hwt & th' & El' & Hst' & Hsl'). cbn [returns].
    split_and!; [|done|done|].
    + apply (skinv_intro k' a'); [done|done|]. simpl. rewrite (si_tslock _ _ _ Hs).
      eapply seminv_replace; try done; simpl.
      * rewrite Hwt, decide_True, Hw, Hcr by done. unfold sem_waiters. lia.
      * intros j Hj. rewrite Hwt, decide_False; [done|]. intros E. apply Hj.
        by eapply sem_addr_inj.
    + unfold a_thread in El'. rewrite <- (kr_tab _ _ Ha'), list_lookup_fmap in El'. simpl.
      destruct (thread_table k' !! Z.to_nat t) as [y|] eqn:Ey; [|done]. injection El' as <-.
      exists y. by split_and!.
  - rewrite Hu. cbn [outcome_bind returns]. split_and!; [|done|done|apply kernel_intr_eta].
    simpl. rewrite kernel_intr_eta. apply (skinv_intro _ a); [apply Hk|done|].
    rewrite (si_tslock _ _ _ Hs). eapply seminv_replace; try done; simpl.
    rewrite Hw, Hcr. unfold sem_waiters. lia.
Qed.

(** ** Creation and destruction *)

(** The search visits the whole table. *)
Definition visited (n0 i j : Z) : Prop := ∃ d, 0 ≤ d < i ∧ j = (n0 + d) mod CONFIG_MAX_SEMAPHORES.

Lemma semaphore_find_spec tid s :
  Z.of_nat (length (semaphore_table s)) = CONFIG_MAX_SEMAPHORES →
  0 ≤ next_sem s < CONFIG_MAX_SEMAPHORES →
  returns (semaphore_find tid s) (λ '(r, s'),
    0 ≤ next_sem s' < CONFIG_MAX_SEMAPHORES ∧
    semaphore_table_slock s' = semaphore_table_slock s ∧
    match r with
    | None => semaphore_table s' = semaphore_table s ∧
        ∀ j x, semaphore_table s !! j = Some x → creator x ≠ -1
    | Some i => 0 ≤ i ∧ ∃ x, semaphore_table s !! Z.to_nat i = Some x ∧ creator x = -1 ∧
        semaphore_table s' = <[Z.to_nat i := Sem (slock x) (value x) tid]> (semaphore_table s)
    end).
Proof.
  intros Hlen Hn. unfold semaphore_find. apply returns_bind.
  eapply returns_mono; [apply (for_loop_inv
    (λ i s', semaphore_table s' = semaphore_table s ∧
       semaphore_table_slock s' = semaphore_table_slock s ∧
       next_sem s' = (next_sem s + i) mod CONFIG_MAX_SEMAPHORES ∧
       ∀ j x, visited (next_sem s) i j → semaphore_table s !! Z.to_nat j = Some x →
         creator x ≠ -1)
    (λ '(i, s'), 0 ≤ next_sem s' < CONFIG_MAX_SEMAPHORES ∧
       semaphore_table_slock s' = semaphore_table_slock s ∧ 0 ≤ i ∧
       ∃ x, semaphore_table s !! Z.to_nat i = Some x ∧ creator x = -1 ∧
         semaphore_table s' = <[Z.to_nat i := Sem (slock x) (value x) tid]> (semaphore_table s)))|].
  - done.
  - split_and!; [done|done| |].
    + rewrite Z.add_0_r. symmetry. by apply Z.mod_small.
    + intros j x (d & ? & _). lia.
  - intros i s' Hi (Et & El & En & Hv).
    assert (Hr : 0 ≤ next_sem s' < CONFIG_MAX_SEMAPHORES)
      by (rewrite En; by apply Z.mod_pos_bound).
    assert (Hrem : (next_sem s' + 1) `rem` CONFIG_MAX_SEMAPHORES
                   = (next_sem s + (i + 1)) mod CONFIG_MAX_SEMAPHORES).
    { rewrite Z.rem_mod_nonneg by (unfold CONFIG_MAX_SEMAPHORES in *; lia).
      rewrite En, Zplus_mod_idemp_l. f_equal. lia. }
    cbn [semaphore_table next_sem semaphore_table_slock]. rewrite Et.
    destruct (aread_in_range (semaphore_table s) (next_sem s')) as (x & Hx & ->); [lia|].
    cbn [outcome_bind]. destruct (Z.eqb_spec (creator x) (-1)) as [Hc|Hc].
    + rewrite awrite_in_range by lia. cbn [outcome_bind returns next_sem semaphore_table_slock].
      split_and!; [rewrite Hrem; apply Z.mod_pos_bound; done|rewrite Hrem; by apply Z.mod_pos_bound|
                   done|lia|eauto].
    + cbn [returns semaphore_table next_sem semaphore_table_slock]. split_and!; [done|done|done|].
      intros j y (d & Hd & Hj) Hy. destruct (decide (d = i)) as [->|].
      * assert (j = next_sem s') as -> by congruence. congruence.
      * eapply Hv; [exists d; split; [lia|done]|done].
  - intros [s'|[i s']] Hr; cbn [returns].
    + destruct Hr as (Et & El & En & Hv). split_and!; [rewrite En; by apply Z.mod_pos_bound..|done|done|].
      intros j x Hx. apply (Hv (Z.of_nat j)); [|by rewrite Nat2Z.id].
      pose proof (lookup_lt_Some _ _ _ Hx).
      exists ((Z.of_nat j - next_sem s) mod CONFIG_MAX_SEMAPHORES).
      split; [by apply Z.mod_pos_bound|].
      rewrite Zplus_mod_idemp_r. replace (next_sem s + (Z.of_nat j - next_sem s)) with (Z.of_nat j) by lia.
      symmetry. apply Z.mod_small. lia.
    + naive_solver.
Qed.

Lemma semaphore_create_spec k cpu v a t :
  skinv base k → krep (kern k) a → 0 ≤ v < 2 ^ 31 →
  thread_get_current_thread cpu (kern k) = Done t → 0 ≤ t →
  returns (semaphore_create cpu v k) (λ '(r, k'),
    skinv base k' ∧ kern k' = kern k ∧
    match r with
    | None => semaphore_table (sem_state k') = semaphore_table (sem_state k) ∧
        ∀ j x, semaphore_table (sem_state k) !! j = Some x → creator x ≠ -1
    | Some i => 0 ≤ i < CONFIG_MAX_SEMAPHORES ∧
        (∃ x, semaphore_table (sem_state k) !! Z.to_nat i = Some x ∧ creator x = -1) ∧
        semaphore_table (sem_state k') =
          <[Z.to_nat i := Sem 0 v t]> (semaphore_table (sem_state k))
    end).
Proof.
  intros Hk Ha Hv Hc Ht. pose proof (sk_sem _ _ Hk a Ha) as Hs. destruct Hs as [Hl Hn Hts Hsm].
  unfold semaphore_create. rewrite kassert_bind by lia. rewrite Hts.
  cbn [spin Z.eqb outcome_bind]. rewrite Hc. cbn [outcome_bind]. apply returns_bind.
  eapply returns_mono; [by apply semaphore_find_spec|]. cbn [semaphore_table].
  rewrite kernel_intr_eta. intros [[i|] s'] (Hn' & Hl' & Hr).
  - destruct Hr as (Hi & x & Hx & Hcx & Et). pose proof (lookup_lt_Some _ _ _ Hx) as Hlt.
    cbn [semaphore_table]. rewrite (aread_Some _ _ (Sem (slock x) (value x) t)).
    2: done. 2: { rewrite Et. by apply list_lookup_insert_eq. }
    cbn [outcome_bind]. rewrite awrite_in_range by (rewrite Et, length_insert; lia).
    cbn [outcome_bind returns]. simpl. rewrite Et, list_insert_insert_eq.
    split_and!; [|done|lia|lia|eauto|done].
    apply (skinv_intro _ a); [apply Hk|done|].
    destruct (Hsm _ _ Hx) as (_ & _ & Hw). rewrite Z2Nat.id in Hw by done.
    rewrite Hcx in Hw. simpl in Hw.
    assert (Hb : seminv base a (Sems (semaphore_table (sem_state k)) 0 (next_sem s'))) by (by split).
    apply (seminv_replace a a _ i x (Sem 0 v t)) in Hb; try done; simpl.
    + unfold is_s32. lia.
    + rewrite Hw. destruct (Z.eqb_spec t (-1)); [lia|]. unfold sem_waiters. lia.
  - destruct Hr as [Et Hno]. cbn [returns]. split_and!; [|done|done|done].
    apply (skinv_intro _ a); [apply Hk|done|]. split; simpl; try done; rewrite Et; done.
Qed.

(** Destroying a semaphore nobody waits for. *)
Lemma semaphore_destroy_spec k i x a :
  skinv base k → krep (kern k) a → 0 ≤ i →
  semaphore_table (sem_state k) !! Z.to_nat i = Some x → 0 ≤ value x →
  returns (semaphore_destroy i k) (skinv base).
Proof.
  intros Hk Ha Hi Hx Hv. pose proof (sk_sem _ _ Hk a Ha) as Hs.
  unfold semaphore_destroy. rewrite (upd_sem_in_range _ _ _ x) by done. cbn [outcome_bind returns].
  apply (skinv_intro _ a); [apply Hk|done|]. rewrite (si_tslock _ _ _ Hs).
  destruct (si_sem _ _ _ Hs _ _ Hx) as (? & ? & Hw). rewrite Z2Nat.id in Hw by done.
  eapply seminv_replace; try done; simpl.
  rewrite Hw. unfold sem_waiters. destruct (creator x =? -1); lia.
Qed.
End invariant.
