(* ===== verification/SemProps.v ===== *)
(** * Properties of semaphores

    The semaphore operations keep the counter and the sleep queue in step, and
    the classical accounting of a counting semaphore follows for every
    interleaving of [P], [V] and scheduling on any number of CPUs. *)

From S2P Require Import Prelude Threads ThreadsRef SchedRef SchedInv SchedSteps SchedProps Semaphore.

(** [sem_steps base i k k' p v]: from [k] to [k'] by [p] calls of
    [semaphore_P], [v] calls of [semaphore_V] on semaphore [i], and calls of the
    scheduler. *)
Inductive sem_steps (base i : Z) : skernel → skernel → nat → nat → Prop :=
| ss_refl k : sem_steps base i k k 0 0
| ss_P k1 k2 k3 p v cpu rnd b a t th :
    sem_steps base i k1 k2 p v →
    krep (kern k2) a → thread_get_current_thread cpu (kern k2) = Done t →
    t ≠ IDLE_THREAD_TID → a_thread a t = Some th → state th = THREAD_RUNNING →
    sleeps_on th = 0 →
    semaphore_P base cpu rnd i k2 = Done (b, k3) →
    sem_steps base i k1 k3 (S p) v
| ss_V k1 k2 k3 p v x :
    sem_steps base i k1 k2 p v →
    semaphore_table (sem_state k2) !! Z.to_nat i = Some x → value x < 2 ^ 31 - 1 →
    semaphore_V base i k2 = Done k3 →
    sem_steps base i k1 k3 p (S v)
| ss_schedule k1 k2 kn p v cpu rnd :
    sem_steps base i k1 k2 p v → 0 ≤ cpu < CONFIG_MAX_CPUS →
    scheduler_schedule cpu rnd (kern k2) = Done kn →
    sem_steps base i k1 (SKernel kn (sem_state k2)) p v.

Section accounting.
Context (base : Z) (Hbase : 0 < base)
  (Htop : base + sizeof_semaphore * CONFIG_MAX_SEMAPHORES ≤ 2 ^ 32).

Lemma skinv_rep k : skinv base k → ∃ a, krep (kern k) a ∧ seminv base a (sem_state k).
Proof.
  intros [Hk Hs]. destruct (ki_rep _ Hk) as (a & Ha & _). eauto.
Qed.

Lemma schedule_skinv k cpu rnd kn :
  skinv base k → 0 ≤ cpu < CONFIG_MAX_CPUS → scheduler_schedule cpu rnd (kern k) = Done kn →
  skinv base (SKernel kn (sem_state k)).
Proof.
  intros Hk Hcpu E. destruct (skinv_rep k Hk) as (a & Ha & Hs).
  pose proof (sk_kinv _ _ Hk) as Hi. destruct (kinv_cpu _ cpu Hi Hcpu) as [cur Hcur].
  pose proof (kinv_ainv _ _ Hi Ha) as Hai.
  pose proof (schedule_refines (kern k) a cpu rnd cur Ha Hai (ki_tslock _ Hi) Hcur) as Hr.
  pose proof (schedule_returns cpu rnd (kern k) Hi Hcpu) as Hki. rewrite E in Hr, Hki.
  destruct Hr as (Hrep & Hinv & Hcs & _). eapply skinv_intro; [done|exact Hrep|].
  pose proof Hcur as [_ Hcl]%aread_Done.
  pose proof (ai_curs _ _ _ Hai) as Hok. rewrite Forall_lookup in Hok. specialize (Hok _ _ Hcl).
  assert (Hpick : 0 ≤ fst (a_schedule cur a)).
  { pose proof (ai_curs _ _ _ Hinv) as Hok2. rewrite Hcs, Forall_lookup in Hok2.
    apply (Hok2 (Z.to_nat cpu)), list_lookup_insert_eq. by eapply lookup_lt_Some. }
  destruct Hs as [H1 H2 H3 H4]. split; try done. intros i x Hx.
  rewrite (waiters_schedule (kern k)); [by apply H4|done|apply Hok|done].
Qed.

(** The counter of a trace, with the invariant. *)
Lemma sem_steps_value i k k' p v x :
  sem_steps base i k k' p v → skinv base k → 0 ≤ i →
  semaphore_table (sem_state k) !! Z.to_nat i = Some x → creator x ≠ -1 →
  skinv base k' ∧ ∃ x', semaphore_table (sem_state k') !! Z.to_nat i = Some x' ∧
    creator x' = creator x ∧ value x' = value x + Z.of_nat v - Z.of_nat p.
Proof.
  induction 1 as [k|k1 k2 k3 p v cpu rnd b a t th _ IH Ha Hc Hne El Hst Hsl E
    |k1 k2 k3 p v y _ IH Hy Hv E|k1 k2 kn p v cpu rnd _ IH Hcpu E]; intros Hk Hi Hx Hcr.
  - split; [done|]. exists x. split_and!; [done|done|lia].
  - destruct (IH Hk Hi Hx Hcr) as (Hk2 & x2 & Hx2 & Hcr2 & Hv2).
    pose proof (semaphore_P_spec base Hbase Htop k2 cpu rnd i x2 a t th Hk2 Ha Hi Hx2) as Hp.
    rewrite E in Hp. destruct Hp as (Hk3 & _ & Ht & _); try done; [congruence|].
    split; [done|]. rewrite Ht. eexists. rewrite list_lookup_insert_eq by (by eapply lookup_lt_Some).
    split_and!; [done|done|]. simpl. lia.
  - destruct (IH Hk Hi Hx Hcr) as (Hk2 & x2 & Hx2 & Hcr2 & Hv2). simplify_eq.
    destruct (skinv_rep k2 Hk2) as (a & Ha & _).
    pose proof (semaphore_V_spec base k2 i y a Hk2 Ha Hi Hy) as Hp.
    rewrite E in Hp. destruct Hp as (Hk3 & _ & Ht); [congruence|done|].
    split; [done|]. rewrite Ht. eexists. rewrite list_lookup_insert_eq by (by eapply lookup_lt_Some).
    split_and!; [done|done|]. simpl. lia.
  - destruct (IH Hk Hi Hx Hcr) as (Hk2 & x2 & Hx2 & Hcr2 & Hv2).
    split; [by eapply schedule_skinv|]. eauto.
Qed.
End accounting.

(** C4. Accounting of a counting semaphore: after any interleaving of [p] calls of
    [semaphore_P], [v] calls of [semaphore_V] and scheduler runs, starting from a
    semaphore with counter [value x >= 0], the counter is [value x + v - p], the
    threads asleep on the semaphore are exactly those the counter owes, and the
    calls of [semaphore_P] that have got past the semaphore number
    [min p (value x + v)]: never more than were permitted. *)
Theorem semaphore_accounting base i k k' p v x a :
  0 < base → base + sizeof_semaphore * CONFIG_MAX_SEMAPHORES ≤ 2 ^ 32 →
  skinv base k → 0 ≤ i → semaphore_table (sem_state k) !! Z.to_nat i = Some x →
  creator x ≠ -1 → 0 ≤ value x →
  sem_steps base i k k' p v → krep (kern k') a →
  (∃ x', semaphore_table (sem_state k') !! Z.to_nat i = Some x' ∧
     value x' = value x + Z.of_nat v - Z.of_nat p) ∧
  Z.of_nat p - Z.of_nat (waiters a (sem_addr base i))
    = Z.min (Z.of_nat p) (value x + Z.of_nat v).
Proof.
  intros Hb Ht Hk Hi Hx Hc Hv Hst Ha.
  destruct (sem_steps_value base Hb Ht i k k' p v x Hst Hk Hi Hx Hc)
    as (Hk' & x' & Hx' & Hc' & Hv'). split; [eauto|].
  pose proof (sk_sem _ _ Hk' a Ha) as Hs. destruct (si_sem _ _ _ Hs _ _ Hx') as (_ & _ & Hw).
  rewrite Z2Nat.id in Hw by done. rewrite Hw.
  destruct (Z.eqb_spec (creator x') (-1)); [congruence|]. unfold sem_waiters. lia.
Qed.

(** [semaphore_P] lowers the counter by one, without overflow; the caller
    blocks exactly when the counter was not positive, and it is then asleep in
    the sleep queue on this semaphore; otherwise nothing but the counter
    changes. *)
Theorem semaphore_P_correct base k cpu rnd i x a t th :
  0 < base → base + sizeof_semaphore * CONFIG_MAX_SEMAPHORES ≤ 2 ^ 32 →
  skinv base k → krep (kern k) a → 0 ≤ i →
  semaphore_table (sem_state k) !! Z.to_nat i = Some x → creator x ≠ -1 →
  thread_get_current_thread cpu (kern k) = Done t → t ≠ IDLE_THREAD_TID →
  a_thread a t = Some th → state th = THREAD_RUNNING → sleeps_on th = 0 →
  returns (semaphore_P base cpu rnd i k) (λ '(blocked, k'),
    skinv base k' ∧ blocked = (value x <=? 0) ∧
    semaphore_table (sem_state k') =
      <[Z.to_nat i := Sem 0 (value x - 1) (creator x)]> (semaphore_table (sem_state k)) ∧
    (if blocked then ∃ th', thread_table (kern k') !! Z.to_nat t = Some th' ∧
       state th' = THREAD_SLEEPING ∧ sleeps_on th' = sem_addr base i
     else kern k' = kern k)).
Proof. intros. by eapply semaphore_P_spec. Qed.

(** [semaphore_create] finds a free semaphore whenever there is one, gives it
    the requested counter and nobody waiting, and fails without changing the
    table only if all of them are in use. *)
Theorem semaphore_create_correct base k cpu v a t :
  skinv base k → krep (kern k) a → 0 ≤ v < 2 ^ 31 →
  thread_get_current_thread cpu (kern k) = Done t → 0 ≤ t →
  returns (semaphore_create cpu v k) (λ '(r, k'),
    skinv base k' ∧ kern k' = kern k ∧
    match r with
    | None => semaphore_table (sem_state k') = semaphore_table (sem_state k) ∧
        ∀ j x, semaphore_table (sem_state k) !! j = Some x → creator x ≠ -1
    | Some i => 0 ≤ i < CONFIG_MAX_SEMAPHORES ∧
        (∃ x, semaphore_table (sem_state k) !! Z.to_nat i = Some x ∧ creator x = -1) ∧
        semaphore_table (sem_state k') =
          <[Z.to_nat i := Sem 0 v t]> (semaphore_table (sem_state k))
    end).
Proof. intros. by eapply semaphore_create_spec. Qed.

(** ** Witnesses

    The kernel of SchedProps after its thread has been started and selected,
    with a fresh semaphore table. *)
Definition demo_running : kernel := get (scheduler_schedule 0 0 (get demo_started)).
Definition demo_sems : sems :=
  match semaphore_init (Sems (replicate 128 (Sem 0 0 0)) 0 0) with
  | Done s => s | _ => Sems [] 0 0 end.
Definition demo_sk : skernel := SKernel demo_running demo_sems.
Definition demo_run_abs : athreads :=
  AThreads (erase <$> thread_table demo_running) [] (replicate 127 []).
Definition demo_run_row : thread_table_t :=
  erase (default image_row (thread_table demo_running !! 1%nat)).

Lemma demo_run_krep : krep demo_running demo_run_abs.
Proof. apply krep_b_sound. by vm_compute. Qed.

Lemma demo_run_kinv : kinv demo_running.
Proof.
  apply (reachable_kinv 0x10000 0x3000 0x2000).
  destruct demo_started_reachable as (k0 & E & Hr). exists k0. split; [exact E|].
  etrans; [exact Hr|]. clear k0 E Hr. apply rtc_once.
  apply (ks_timer _ _ 0 0); [done|]. vm_compute. reflexivity.
Qed.

Lemma demo_skinv : skinv 0x9000 demo_sk.
Proof.
  apply (skinv_intro 0x9000 demo_running demo_run_abs); [exact demo_run_kinv|exact demo_run_krep|].
  split; [by vm_compute|split; [|]; by vm_compute|by vm_compute|]. intros i x Hx.
  change (semaphore_table demo_sems) with (replicate 128 (Sem 0 0 (-1))) in Hx.
  apply lookup_replicate in Hx as [-> _]. split_and!; [done|by vm_compute|]. simpl.
  unfold waiters, a_bucket. change (a_sleep demo_run_abs) with (replicate 127 ([] : list Z)).
  destruct (replicate 127 [] !! _) as [l|] eqn:El; [|done].
  by apply lookup_replicate in El as [-> _].
Qed.

Lemma demo_run_current : thread_get_current_thread 0 demo_running = Done 1.
Proof. by vm_compute. Qed.

Lemma demo_caller : caller demo_running 0 1.
Proof.
  split; [exact demo_run_current|]. split; [done|]. split; [done|].
  exists demo_run_abs, demo_run_row. split; [exact demo_run_krep|]. by vm_compute.
Qed.

Lemma semaphore_create_correct_witness :
  returns (semaphore_create 0 0 demo_sk) (λ '(r, k'), skinv 0x9000 k').
Proof.
  pose proof (semaphore_create_correct 0x9000 demo_sk 0 0 demo_run_abs 1
    demo_skinv demo_run_krep ltac:(done) demo_run_current ltac:(done)) as H.
  eapply returns_mono; [exact H|]. intros [r k'] [Hs _]. exact Hs.
Defined.

(** The same after [semaphore_create(0)]: semaphore 0 exists, with counter 0. *)
Definition demo_sk1 : skernel :=
  SKernel demo_running (Sems (<[0%nat := Sem 0 0 1]> (semaphore_table demo_sems)) 0 1).

Lemma demo_skinv1 : skinv 0x9000 demo_sk1.
Proof.
  pose proof (semaphore_create_spec 0x9000 demo_sk 0 0 demo_run_abs 1
    demo_skinv demo_run_krep ltac:(lia) demo_run_current ltac:(lia)) as H.
  assert (E : semaphore_create 0 0 demo_sk = Done (Some 0, demo_sk1))
    by (clear H; vm_compute; reflexivity).
  rewrite E in H. exact (proj1 H).
Qed.

Lemma semaphore_P_correct_witness :
  returns (semaphore_P 0x9000 0 5 0 demo_sk1) (λ '(blocked, k'), blocked = true ∧ skinv 0x9000 k').
Proof.
  pose proof (semaphore_P_correct 0x9000 demo_sk1 0 5 0 (Sem 0 0 1) demo_run_abs 1 demo_run_row
    eq_refl ltac:(done) demo_skinv1 demo_run_krep ltac:(done) eq_refl ltac:(done)
    demo_run_current ltac:(done) ltac:(by vm_compute) ltac:(by vm_compute) ltac:(by vm_compute))
    as H.
  eapply returns_mono; [exact H|]. intros [b k'] (Hs & Hb & _).
  split; [rewrite Hb; reflexivity|exact Hs].
Defined.

Definition demo_sk2 : skernel :=
  match semaphore_P 0x9000 0 5 0 demo_sk1 with Done (_, k) => k | _ => demo_sk1 end.
Definition demo_abs2 : athreads :=
  AThreads (erase <$> thread_table (kern demo_sk2)) []
    (<[Z.to_nat (SLEEPQ_HASH 0x9000) := [1]]> (replicate 127 [])).

Lemma demo_krep2 : krep (kern demo_sk2) demo_abs2.
Proof. apply krep_b_sound. by vm_compute. Qed.

Lemma demo_steps : sem_steps 0x9000 0 demo_sk1 demo_sk2 1 0.
Proof.
  eapply (ss_P _ _ _ demo_sk1 _ 0 0 0 5 true demo_run_abs 1 demo_run_row);
    [apply ss_refl|exact demo_run_krep|exact demo_run_current|discriminate
    |vm_compute; reflexivity..].
Qed.

Lemma semaphore_accounting_witness :
  Z.of_nat 1 - Z.of_nat (waiters demo_abs2 0x9000) = 0.
Proof.
  exact (proj2 (semaphore_accounting 0x9000 0 demo_sk1 demo_sk2 1 0 (Sem 0 0 1) demo_abs2
    eq_refl ltac:(done) demo_skinv1 ltac:(done) eq_refl ltac:(done) ltac:(done)
    demo_steps demo_krep2)).
Defined.
