(* ===== verification/BlockDev.v ===== *)
(** * Block devices (drivers/gbd.h)

    [BlockDevice] is the interface of a generic block device: the function
    pointers of [gbd_t], for requests whose [sem] is NULL (the call waits for
    the transfer).  A read answers the block's contents, or [None] where the
    driver returns 0; a write answers whether it succeeded.

    [BlockDeviceSpec] states what a driver promises to a file system, and
    [ramdisk] is an instance: a disk image with a schedule of transfer errors. *)

From S2P Require Import Prelude.

Class BlockDevice (D : Type) := {
  block_size : D → Z;
  total_blocks : D → Z;
  read_block : Z → D → option (list Z) * D;
  write_block : Z → list Z → D → bool * D
}.

(** The promises of a driver: transfers move exactly one block, reads and failed
    writes change no other block, and on a [healthy] device transfers inside it
    succeed. *)
Class BlockDeviceSpec (D : Type) {dev : BlockDevice D} := {
  contents : D → Z → list Z;
  healthy : D → Prop;
  contents_ok : ∀ d b, 0 ≤ b < total_blocks d →
    Z.of_nat (length (contents d b)) = block_size d ∧ Forall is_u8 (contents d b);
  read_block_spec : ∀ d b r d', read_block b d = (r, d') →
    (∀ b', contents d' b' = contents d b') ∧ block_size d' = block_size d ∧
    total_blocks d' = total_blocks d ∧ (healthy d → healthy d') ∧
    (∀ data, r = Some data → 0 ≤ b < total_blocks d ∧ data = contents d b) ∧
    (healthy d → 0 ≤ b < total_blocks d → r = Some (contents d b));
  write_block_spec : ∀ d b data ok d', write_block b data d = (ok, d') →
    Z.of_nat (length data) = block_size d → Forall is_u8 data →
    (∀ b', b' ≠ b → contents d' b' = contents d b') ∧ block_size d' = block_size d ∧
    total_blocks d' = total_blocks d ∧ (healthy d → healthy d') ∧
    (ok = true → 0 ≤ b < total_blocks d ∧ contents d' b = data) ∧
    (healthy d → 0 ≤ b < total_blocks d → ok = true)
}.

(** ** A RAM disk with transfer errors *)

(** [rd_fail] is the schedule of errors: its head tells whether the next
    transfer fails. *)
Record ramdisk := Ramdisk { rd_blocks : list (list Z); rd_fail : list bool }.

Definition RD_BLOCK : Z := 512.

Definition rd_next (d : ramdisk) : bool * ramdisk :=
  match rd_fail d with
  | [] => (false, d)
  | f :: r => (f, Ramdisk (rd_blocks d) r)
  end.

Definition rd_read (b : Z) (d : ramdisk) : option (list Z) * ramdisk :=
  let '(fails, d') := rd_next d in
  if fails || (b <? 0) then (None, d') else (rd_blocks d !! Z.to_nat b, d').

Definition rd_write (b : Z) (data : list Z) (d : ramdisk) : bool * ramdisk :=
  let '(fails, d') := rd_next d in
  if fails || (b <? 0) || (Z.of_nat (length (rd_blocks d)) <=? b) then (false, d')
  else (true, Ramdisk (<[Z.to_nat b := data]> (rd_blocks d)) (rd_fail d')).

(** A disk image: blocks of the right size made of bytes. *)
Definition image_ok (bs : list (list Z)) : Prop :=
  Forall (λ b, Z.of_nat (length b) = RD_BLOCK ∧ Forall is_u8 b) bs.

(** Disks with a well-formed image. *)
Record disk := Disk { dk : ramdisk; dk_ok : image_ok (rd_blocks dk) }.

Lemma rd_next_blocks d f d' : rd_next d = (f, d') → rd_blocks d' = rd_blocks d.
Proof. unfold rd_next. destruct (rd_fail d); intros; by simplify_eq/=. Qed.

Lemma rd_read_ok b d : image_ok (rd_blocks d) → image_ok (rd_blocks (snd (rd_read b d))).
Proof.
  intros Hd. unfold rd_read. destruct (rd_next d) as [f d'] eqn:E.
  apply rd_next_blocks in E. by destruct (f || _); simpl; rewrite E.
Qed.

Lemma rd_write_ok b data d :
  image_ok (rd_blocks d) → Z.of_nat (length data) = RD_BLOCK ∧ Forall is_u8 data →
  image_ok (rd_blocks (snd (rd_write b data d))).
Proof.
  intros Hd Hdata. unfold rd_write. destruct (rd_next d) as [f d'] eqn:E.
  apply rd_next_blocks in E. destruct (f || _ || _); simpl; [by rewrite E|].
  by apply Forall_insert.
Qed.

#[export] Instance data_ok_dec (data : list Z) :
  Decision (Z.of_nat (length data) = RD_BLOCK ∧ Forall is_u8 data).
Proof. apply _. Defined.

(** A write of anything but a block of bytes is refused by the type [disk]. *)
Definition dk_write (b : Z) (data : list Z) (d : disk) : bool * disk :=
  match decide (Z.of_nat (length data) = RD_BLOCK ∧ Forall is_u8 data) with
  | left H => (fst (rd_write b data (dk d)),
               Disk (snd (rd_write b data (dk d))) (rd_write_ok b data (dk d) (dk_ok d) H))
  | right _ => (false, d)
  end.

#[export] Instance disk_dev : BlockDevice disk := {
  block_size _ := RD_BLOCK;
  total_blocks d := Z.of_nat (length (rd_blocks (dk d)));
  read_block b d := (fst (rd_read b (dk d)),
                     Disk (snd (rd_read b (dk d))) (rd_read_ok b (dk d) (dk_ok d)));
  write_block := dk_write
}.

Definition dk_contents (d : disk) (b : Z) : list Z :=
  if b <? 0 then [] else default [] (rd_blocks (dk d) !! Z.to_nat b).
Definition dk_healthy (d : disk) : Prop := Forall (λ f, f = false) (rd_fail (dk d)).

Lemma rd_next_healthy d f d' :
  rd_next d = (f, d') → Forall (λ f, f = false) (rd_fail d) →
  f = false ∧ Forall (λ f, f = false) (rd_fail d').
Proof.
  unfold rd_next. destruct (rd_fail d) as [|x r] eqn:E; intros ? H; simplify_eq/=.
  - by rewrite E.
  - by apply Forall_cons in H as [-> ?].
Qed.

Lemma dk_read_spec d b r d' :
  read_block b d = (r, d') →
  (∀ b', dk_contents d' b' = dk_contents d b') ∧ block_size d' = block_size d ∧
  total_blocks d' = total_blocks d ∧ (dk_healthy d → dk_healthy d') ∧
  (∀ data, r = Some data → 0 ≤ b < total_blocks d ∧ data = dk_contents d b) ∧
  (dk_healthy d → 0 ≤ b < total_blocks d → r = Some (dk_contents d b)).
Proof.
  intros E. simpl in E. injection E as <- <-. unfold dk_contents, dk_healthy. simpl.
  unfold rd_read. destruct (rd_next (dk d)) as [f d1] eqn:En.
  pose proof (rd_next_blocks _ _ _ En) as Eb. pose proof (rd_next_healthy _ _ _ En) as Eh.
  destruct f; simpl.
  - rewrite Eb. split_and!; try done; naive_solver.
  - destruct (Z.ltb_spec b 0); simpl; rewrite Eb; split_and!; try done; try naive_solver lia.
    + intros data Hd. rewrite Hd. apply lookup_lt_Some in Hd. split; [lia|done].
    + intros _ Hb. destruct (lookup_lt_is_Some_2 (rd_blocks (dk d)) (Z.to_nat b)) as [x ->]; [lia|done].
Qed.

Lemma dk_write_spec d b data ok d' :
  write_block b data d = (ok, d') →
  Z.of_nat (length data) = block_size d → Forall is_u8 data →
  (∀ b', b' ≠ b → dk_contents d' b' = dk_contents d b') ∧ block_size d' = block_size d ∧
  total_blocks d' = total_blocks d ∧ (dk_healthy d → dk_healthy d') ∧
  (ok = true → 0 ≤ b < total_blocks d ∧ dk_contents d' b = data) ∧
  (dk_healthy d → 0 ≤ b < total_blocks d → ok = true).
Proof.
  intros E Hl Hu. simpl in E, Hl. unfold dk_write in E.
  destruct (decide _) as [Hd|Hd]; [|by destruct Hd]. injection E as <- <-.
  unfold dk_contents, dk_healthy. simpl. unfold rd_write.
  destruct (rd_next (dk d)) as [f d1] eqn:En.
  pose proof (rd_next_blocks _ _ _ En) as Eb. pose proof (rd_next_healthy _ _ _ En) as Eh.
  destruct f; simpl; [rewrite Eb; split_and!; try done; naive_solver|].
  destruct (Z.ltb_spec b 0), (Z.leb_spec (Z.of_nat (length (rd_blocks (dk d)))) b); simpl;
    rewrite ?Eb, ?length_insert; try (split_and!; try done; naive_solver lia).
  split_and!; try done; [|naive_solver|].
  - intros b' Hb'. destruct (Z.ltb_spec b' 0); [done|].
    rewrite list_lookup_insert_ne by lia. done.
  - intros _. split; [lia|]. rewrite list_lookup_insert_eq by lia. done.
Qed.

#[export] Instance disk_spec : BlockDeviceSpec disk.
Proof.
  refine {| contents := dk_contents; healthy := dk_healthy;
            read_block_spec := dk_read_spec; write_block_spec := dk_write_spec |}.
  intros d b Hb. simpl in *. unfold dk_contents. destruct (Z.ltb_spec b 0); [lia|].
  destruct (lookup_lt_is_Some_2 (rd_blocks (dk d)) (Z.to_nat b)) as [x Hx]; [lia|].
  rewrite Hx. simpl. pose proof (dk_ok d) as Hok. unfold image_ok in Hok.
  rewrite Forall_lookup in Hok. by eapply Hok.
Defined.
