(* ===== verification/Tfs.v ===== *)
(** * The trivial file system (fs/tfs.c, fs/tfs_constants.h)

    The driver over any [BlockDevice].  A [tfs_t] holds the three block buffers
    the C structure points to, as byte lists; structures in them are read and
    written at their offsets with the machine's byte order [en] and converted by
    the source's [from_big_endian32] where the source does so.  [lock] is the
    value of the semaphore, which is 1 between operations; an operation that
    finds it taken is [Blocked]. *)

From S2P Require Import Prelude Bitmap Libc BlockDev.

(** ** Constants *)
Definition TFS_BLOCK_SIZE : Z := 512.
Definition TFS_MAGIC : Z := 3745.
Definition TFS_HEADER_BLOCK : Z := 0.
Definition TFS_ALLOCATION_BLOCK : Z := 1.
Definition TFS_DIRECTORY_BLOCK : Z := 2.
Definition TFS_VOLNAME_MAX : Z := 16.
Definition TFS_FILENAME_MAX : Z := 16.
Definition TFS_BLOCKS_MAX : Z := TFS_BLOCK_SIZE / 4 - 1.
Definition sizeof_direntry : Z := 20.
Definition TFS_MAX_FILES : Z := TFS_BLOCK_SIZE / sizeof_direntry.

Definition VFS_OK : Z := 0.
Definition VFS_NOT_SUPPORTED : Z := -1.
Definition VFS_ERROR : Z := -2.
Definition VFS_INVALID_PARAMS : Z := -3.
Definition VFS_NOT_OPEN : Z := -4.
Definition VFS_NOT_FOUND : Z := -5.
Definition VFS_NO_SUCH_FS : Z := -6.
Definition VFS_LIMIT : Z := -7.
Definition VFS_IN_USE : Z := -8.
Definition VFS_UNUSABLE : Z := -9.
Definition VFS_NAME_LENGTH : Z := 16.

(** ** State *)
Record tfs_t := Tfs {
  startblock : Z;
  totalblocks : Z;
  lock : Z;
  buffer_inode : list Z;
  buffer_bat : list Z;
  buffer_md : list Z
}.

Definition set_lock x t := Tfs (startblock t) (totalblocks t) x (buffer_inode t) (buffer_bat t) (buffer_md t).
Definition set_inode x t := Tfs (startblock t) (totalblocks t) (lock t) x (buffer_bat t) (buffer_md t).
Definition set_bat x t := Tfs (startblock t) (totalblocks t) (lock t) (buffer_inode t) x (buffer_md t).
Definition set_md x t := Tfs (startblock t) (totalblocks t) (lock t) (buffer_inode t) (buffer_bat t) x.

(** [semaphore_P] and [semaphore_V] on the volume's lock, for a caller that does
    not have to wait. *)
Definition lock_P (t : tfs_t) : outcome tfs_t :=
  if 0 <? lock t then Done (set_lock (lock t - 1) t) else Blocked.
Definition lock_V (t : tfs_t) : tfs_t := set_lock (lock t + 1) t.

(** ** The buffers as C structures *)
Definition inode_off (i : Z) : Z := sizeof_direntry * i.
Definition name_off (i : Z) : Z := sizeof_direntry * i + 4.

(** The name of entry [i], from its first byte to the end of the buffer. *)
Definition entry_name (md : list Z) (i : Z) : list Z := drop (Z.to_nat (name_off i)) md.

(** The bitmap functions see a block as 32-bit words of the machine. *)
Fixpoint words_of (en : endian) (n : nat) (bs : list Z) : list Z :=
  match n with O => [] | S n' => u32_of_bytes en (take 4 bs) :: words_of en n' (drop 4 bs) end.
Definition block_words (en : endian) (bs : list Z) : list Z := words_of en 128 bs.
Definition block_bytes (en : endian) (ws : list Z) : list Z := concat (bytes_of_u32 en <$> ws).

Section operations.
Context {D : Type} {dev : BlockDevice D} (en : endian).
(** The address of [buffer_bat], whose alignment [memcopy] inspects. *)
Variable bat_address : Z.

Definition res : Type := Z * (tfs_t * D).

(** [semaphore_V(tfs->lock); return r;] *)
Definition unlock_return (r : Z) (t : tfs_t) (d : D) : outcome res :=
  Done (r, (lock_V t, d)).

(** [req.block = tfs->startblock + b; r = read_block(&req); if (r == 0)
    { semaphore_V(tfs->lock); return VFS_ERROR; }] *)
Definition read_or_fail {A} (b : Z) (fail : tfs_t → D → outcome A) (t : tfs_t) (d : D)
    (k : list Z → D → outcome A) : outcome A :=
  match read_block (u32 (startblock t + b)) d with
  | (None, d') => fail (lock_V t) d'
  | (Some data, d') => k data d'
  end.

Definition write_or_fail {A} (b : Z) (data : list Z) (fail : tfs_t → D → outcome A)
    (t : tfs_t) (d : D) (k : D → outcome A) : outcome A :=
  match write_block (u32 (startblock t + b)) data d with
  | (false, d') => fail (lock_V t) d'
  | (true, d') => k d'
  end.

Definition fail_error (t : tfs_t) (d : D) : outcome res := Done (VFS_ERROR, (t, d)).

Definition tfs_unmount (t : tfs_t) (d : D) : outcome res :=
  let* t := lock_P t in Done (VFS_OK, (t, d)).

(** The loop over the directory that looks for [filename]. *)
Definition find_entry (md filename : list Z) : outcome (option Z) :=
  let* r := for_loop 0 TFS_MAX_FILES (λ i _,
    let* c := stringcmp (entry_name md i) filename in
    if c =? 0 then Done (inr i) else Done (inl ())) () in
  Done (match r with inl _ => None | inr i => Some i end).

Definition tfs_open (filename : list Z) (t : tfs_t) (d : D) : outcome res :=
  let* t := lock_P t in
  read_or_fail TFS_DIRECTORY_BLOCK fail_error t d (λ md d,
    let t := set_md md t in
    let* r := find_entry (buffer_md t) filename in
    match r with
    | Some i =>
        let* ino := load32 en (buffer_md t) (inode_off i) in
        unlock_return (s32 (from_big_endian32 en ino)) t d
    | None => unlock_return VFS_NOT_FOUND t d
    end).

Definition tfs_close (fileid : Z) (t : tfs_t) (d : D) : outcome res := Done (VFS_OK, (t, d)).

(** The loop of [tfs_create] over the directory: [None] if the name exists,
    otherwise the index of the last free entry, or -1. *)
Definition create_scan (md filename : list Z) : outcome (option Z) :=
  let* r := for_loop 0 TFS_MAX_FILES (λ i index,
    let* c := stringcmp (entry_name md i) filename in
    if c =? 0 then Done (inr ())
    else
      let* ino := load32 en md (inode_off i) in
      if from_big_endian32 en ino =? 0 then Done (inl i) else Done (inl index)) (-1) in
  Done (match r with inl index => Some index | inr _ => None end).

(** The allocation loop of [tfs_create]: one bitmap search per data block.  It
    ends with [inr] when the disk is full, the number -1 stored. *)
Definition create_alloc (numblocks : Z) (t : tfs_t) : outcome (tfs_t + tfs_t) :=
  for_loop 0 numblocks (λ i t,
    let* '(b, bat) := bitmap_findnset (block_words en (buffer_bat t)) (totalblocks t) in
    let* ino := store32 en (buffer_inode t) (4 + 4 * i) (from_big_endian32 en (u32 b)) in
    let t := set_inode ino (set_bat (block_bytes en bat) t) in
    let* v := load32 en (buffer_inode t) (4 + 4 * i) in
    if s32 (from_big_endian32 en v) =? -1 then Done (inr t) else Done (inl t)) t.

(** The loop that zeroes the data blocks. *)
Definition create_zero (numblocks : Z) (t : tfs_t) (d : D) : outcome res :=
  let* r := for_loop 0 numblocks (λ i d,
    let* b := load32 en (buffer_inode t) (4 + 4 * i) in
    write_or_fail (from_big_endian32 en b) (buffer_bat t)
      (λ t d, Done (inr (VFS_ERROR, (t, d)))) t d (λ d, Done (inl d))) d in
  match r with
  | inr res => Done res
  | inl d => unlock_return VFS_OK t d
  end.

(** The last part of [tfs_create]: the allocation block has been read and
    [index] is the slot chosen. *)
Definition create_tail (numblocks size index : Z) (t : tfs_t) (d : D) : outcome res :=
  let* '(b, bat) := bitmap_findnset (block_words en (buffer_bat t)) (totalblocks t) in
  let* md := store32 en (buffer_md t) (inode_off index) (u32 b) in
  let t := set_md md (set_bat (block_bytes en bat) t) in
  let* ino := load32 en (buffer_md t) (inode_off index) in
  if s32 (from_big_endian32 en ino) =? -1 then unlock_return VFS_ERROR t d
  else
  let* inode := store32 en (buffer_inode t) 0 (from_big_endian32 en (u32 size)) in
  let* a := create_alloc numblocks (set_inode inode t) in
  match a with
  | inr t => unlock_return VFS_ERROR t d
  | inl t =>
  let* inode := for_each numblocks (TFS_BLOCK_SIZE / 4 - 1)
    (λ i ino, store32 en ino (4 + 4 * i) 0) (buffer_inode t) in
  let t := set_inode inode t in
  write_or_fail TFS_ALLOCATION_BLOCK (buffer_bat t) fail_error t d (λ d,
  write_or_fail TFS_DIRECTORY_BLOCK (buffer_md t) fail_error t d (λ d,
  let* ino := load32 en (buffer_md t) (inode_off index) in
  write_or_fail (from_big_endian32 en ino) (buffer_inode t) fail_error t d (λ d,
  let* bat := memoryset (buffer_bat t) 0 TFS_BLOCK_SIZE in
  create_zero numblocks (set_bat bat t) d)))
  end.

Definition tfs_create (filename : list Z) (size : Z) (t : tfs_t) (d : D) : outcome res :=
  let numblocks := u32 (s32 (s32 (size + TFS_BLOCK_SIZE) - 1) `quot` TFS_BLOCK_SIZE) in
  let* t := lock_P t in
  if TFS_BLOCK_SIZE / 4 - 1 <? numblocks then unlock_return VFS_ERROR t d
  else
  read_or_fail TFS_DIRECTORY_BLOCK fail_error t d (λ md d,
  let t := set_md md t in
  let* r := create_scan (buffer_md t) filename in
  match r with
  | None => unlock_return VFS_ERROR t d
  | Some index =>
  if index =? -1 then unlock_return VFS_ERROR t d
  else
  let* name := stringcopy (entry_name (buffer_md t) index) filename TFS_FILENAME_MAX in
  let t := set_md (take (Z.to_nat (name_off index)) (buffer_md t) ++ name) t in
  read_or_fail TFS_ALLOCATION_BLOCK fail_error t d (λ bat d,
  let t := set_bat bat t in
  create_tail numblocks size index t d)
  end).

(** [tfs->buffer_inode->block[i]]: the inode buffer is followed by
    [buffer_bat] in the page [tfs_init] allocates. *)
Definition inode_block (t : tfs_t) (i : Z) : outcome Z :=
  load32 en (buffer_inode t ++ buffer_bat t) (4 + 4 * i).

(** The loop of [tfs_remove] that frees the blocks of the inode. *)
Definition remove_free (t : tfs_t) : outcome tfs_t :=
  let* r := while_loop (S (Z.to_nat TFS_BLOCKS_MAX)) (λ '(i, t),
    let* b := inode_block t i in
    if negb (from_big_endian32 en b =? 0) && (i <? TFS_BLOCK_SIZE / 4 - 1) then
      let* bat := bitmap_set (block_words en (buffer_bat t)) (s32 (from_big_endian32 en b)) 0 in
      Done (inl (i + 1, set_bat (block_bytes en bat) t))
    else Done (inr t)) (0, t) in
  Done r.

Definition tfs_remove (filename : list Z) (t : tfs_t) (d : D) : outcome res :=
  let* t := lock_P t in
  read_or_fail TFS_DIRECTORY_BLOCK fail_error t d (λ md d,
  let t := set_md md t in
  let* r := find_entry (buffer_md t) filename in
  match r with
  | None => unlock_return VFS_NOT_FOUND t d
  | Some index =>
  read_or_fail TFS_ALLOCATION_BLOCK fail_error t d (λ bat d,
  let t := set_bat bat t in
  let* ino := load32 en (buffer_md t) (inode_off index) in
  read_or_fail (from_big_endian32 en ino) fail_error t d (λ inode d,
  let t := set_inode inode t in
  let* bat := bitmap_set (block_words en (buffer_bat t)) (s32 (from_big_endian32 en ino)) 0 in
  let* t := remove_free (set_bat (block_bytes en bat) t) in
  let* md := store32 en (buffer_md t) (inode_off index) 0 in
  let* md := awrite md (name_off index) 0 in
  let t := set_md md t in
  write_or_fail TFS_ALLOCATION_BLOCK (buffer_bat t) fail_error t d (λ d,
  write_or_fail TFS_DIRECTORY_BLOCK (buffer_md t) fail_error t d (λ d,
  unlock_return VFS_OK t d))))
  end).

(** [memcopy] to position [pos] of the caller's buffer at address [addr]. *)
Definition copy_to (buf : list Z) (addr pos : Z) (src : list Z) (srcaddr n : Z) : outcome (list Z) :=
  let* tail := memcopy n (addr + pos) (drop (Z.to_nat pos) buf) srcaddr src in
  Done (take (Z.to_nat pos) buf ++ tail).

(** The caller's buffer is part of the result of [tfs_read]. *)
Definition rres : Type := list Z * res.

Definition fail_read (buf : list Z) (t : tfs_t) (d : D) : outcome rres :=
  Done (buf, (VFS_ERROR, (t, d))).

(** The loop of [tfs_read] over the blocks after the first. *)
Definition read_loop (addr bufsize b1 b2 : Z) (buf : list Z) (read : Z) (t : tfs_t) (d : D)
    : outcome rres :=
  let* r := for_loop b1 (b2 + 1) (λ b '(buf, read, t, d),
    let* blk := inode_block t b in
    read_or_fail (from_big_endian32 en blk) (λ t d, Done (inr (buf, (VFS_ERROR, (t, d))))) t d
      (λ data d,
    let t := set_bat data t in
    if b =? b2 then
      let* buf := copy_to buf addr read (buffer_bat t) bat_address (bufsize - read) in
      Done (inl (buf, read + (bufsize - read), t, d))
    else
      let* buf := copy_to buf addr read (buffer_bat t) bat_address TFS_BLOCK_SIZE in
      Done (inl (buf, read + TFS_BLOCK_SIZE, t, d)))) (buf, read, t, d) in
  match r with
  | inr res => Done res
  | inl (buf, read, t, d) => Done (buf, (read, (lock_V t, d)))
  end.

Definition tfs_read (fileid : Z) (addr : Z) (buf : list Z) (bufsize offset : Z) (t : tfs_t) (d : D)
    : outcome rres :=
  let* t := lock_P t in
  if (fileid <? 2) || (s32 (totalblocks t) <? fileid) then
    Done (buf, (VFS_ERROR, (lock_V t, d)))
  else
  read_or_fail fileid (fail_read buf) t d (λ inode d,
  let t := set_inode inode t in
  let* fs := load32 en (buffer_inode t) 0 in
  let filesize := s32 (from_big_endian32 en fs) in
  if (offset <? 0) || (filesize <? offset) then Done (buf, (VFS_ERROR, (lock_V t, d)))
  else
  let bufsize := MIN bufsize (filesize - offset) in
  if bufsize =? 0 then Done (buf, (0, (lock_V t, d)))
  else
  let b1 := offset `quot` TFS_BLOCK_SIZE in
  let b2 := (offset + bufsize - 1) `quot` TFS_BLOCK_SIZE in
  let* blk := inode_block t b1 in
  read_or_fail (from_big_endian32 en blk) (fail_read buf) t d (λ data d,
  let t := set_bat data t in
  let read := MIN (TFS_BLOCK_SIZE - offset `rem` TFS_BLOCK_SIZE) bufsize in
  let* buf := copy_to buf addr 0
    (drop (Z.to_nat (offset `rem` TFS_BLOCK_SIZE)) (buffer_bat t))
    (bat_address + offset `rem` TFS_BLOCK_SIZE) read in
  read_loop addr bufsize (b1 + 1) b2 buf read t d)).

(** [memcopy] of the caller's buffer, from position [pos] on, to position [at_]
    of [buffer_bat]. *)
Definition copy_from (t : tfs_t) (at_ : Z) (buf : list Z) (addr pos n : Z) : outcome tfs_t :=
  let* tail := memcopy n (bat_address + at_) (drop (Z.to_nat at_) (buffer_bat t))
                 (addr + pos) (drop (Z.to_nat pos) buf) in
  Done (set_bat (take (Z.to_nat at_) (buffer_bat t) ++ tail) t).

(** Read block [b] of the file into [buffer_bat] if [cond] holds. *)
Definition read_if {A} (cond : bool) (b : Z) (fail : tfs_t → D → outcome A) (t : tfs_t) (d : D)
    (k : tfs_t → D → outcome A) : outcome A :=
  if cond then
    let* blk := inode_block t b in
    read_or_fail (from_big_endian32 en blk) fail t d (λ data d, k (set_bat data t) d)
  else k t d.

Definition write_loop (addr datasize b1 b2 : Z) (buf : list Z) (written : Z) (t : tfs_t) (d : D)
    : outcome res :=
  let fail := λ (t : tfs_t) (d : D), Done (inr (VFS_ERROR, (t, d))) in
  let* r := for_loop b1 (b2 + 1) (λ b '(written, t, d),
    let store := λ (written : Z) (t : tfs_t) (d : D),
      let* blk := inode_block t b in
      write_or_fail (from_big_endian32 en blk) (buffer_bat t) fail t d
        (λ d, Done (inl (written, t, d))) in
    if b =? b2 then
      read_if (datasize - written <? TFS_BLOCK_SIZE) b fail t d (λ t d,
        let* t := copy_from t 0 buf addr written (datasize - written) in
        store datasize t d)
    else
      let* t := copy_from t 0 buf addr written TFS_BLOCK_SIZE in
      store (written + TFS_BLOCK_SIZE) t d) (written, t, d) in
  match r with
  | inr res => Done res
  | inl (written, t, d) => unlock_return written t d
  end.

Definition tfs_write (fileid : Z) (addr : Z) (buf : list Z) (datasize offset : Z) (t : tfs_t) (d : D)
    : outcome res :=
  let* t := lock_P t in
  if (fileid <? 2) || (s32 (totalblocks t) <? fileid) then unlock_return VFS_ERROR t d
  else
  read_or_fail fileid fail_error t d (λ inode d,
  let t := set_inode inode t in
  let* fs := load32 en (buffer_inode t) 0 in
  let filesize := s32 (from_big_endian32 en fs) in
  if (offset <? 0) || (filesize <? offset) then unlock_return VFS_ERROR t d
  else
  let datasize := MIN datasize (filesize - offset) in
  if datasize =? 0 then unlock_return 0 t d
  else
  let b1 := offset `quot` TFS_BLOCK_SIZE in
  let b2 := (offset + datasize - 1) `quot` TFS_BLOCK_SIZE in
  let written := MIN (TFS_BLOCK_SIZE - offset `rem` TFS_BLOCK_SIZE) datasize in
  read_if (written <? TFS_BLOCK_SIZE) b1 fail_error t d (λ t d,
  let* t := copy_from t (offset `rem` TFS_BLOCK_SIZE) buf addr 0 written in
  let* blk := inode_block t b1 in
  write_or_fail (from_big_endian32 en blk) (buffer_bat t) fail_error t d (λ d,
  write_loop addr datasize (b1 + 1) b2 buf written t d))).

Definition tfs_getfree (t : tfs_t) (d : D) : outcome res :=
  let* t := lock_P t in
  read_or_fail TFS_ALLOCATION_BLOCK fail_error t d (λ bat d,
  let t := set_bat bat t in
  let* allocated := for_each 0 (totalblocks t) (λ i n,
    let* b := bitmap_get (block_words en (buffer_bat t)) i in Done (n + b)) 0 in
  unlock_return (s32 (u32 (totalblocks t - allocated) * TFS_BLOCK_SIZE)) t d).

(** The string "/". *)
Definition slash : list Z := [47; 0].

Definition tfs_filecount (dirname : list Z) (t : tfs_t) (d : D) : outcome res :=
  let* c := stringcmp dirname slash in
  if negb (c =? 0) then Done (VFS_NOT_FOUND, (t, d))
  else
  let* t := lock_P t in
  read_or_fail TFS_DIRECTORY_BLOCK fail_error t d (λ md d,
  let t := set_md md t in
  let* count := for_each 0 TFS_MAX_FILES (λ i n,
    let* ino := load32 en (buffer_md t) (inode_off i) in
    Done (if negb (ino =? 0) then n + 1 else n)) 0 in
  unlock_return count t d).

(** The caller's name buffer is part of the result. *)
Definition tfs_file (dirname : list Z) (idx : Z) (buffer : list Z) (t : tfs_t) (d : D)
    : outcome rres :=
  let* c := stringcmp dirname slash in
  if negb (c =? 0) || (idx <? 0) then Done (buffer, (VFS_ERROR, (t, d)))
  else
  let* t := lock_P t in
  read_or_fail TFS_DIRECTORY_BLOCK (fail_read buffer) t d (λ md d,
  let t := set_md md t in
  let* r := for_loop 0 TFS_MAX_FILES (λ i count,
    let* ino := load32 en (buffer_md t) (inode_off i) in
    if negb (ino =? 0) then
      if count =? idx then
        let* buf := stringcopy buffer (entry_name (buffer_md t) i) TFS_FILENAME_MAX in
        Done (inr buf)
      else Done (inl (count + 1))
    else Done (inl count)) 0 in
  match r with
  | inr buf => Done (buf, (VFS_OK, (lock_V t, d)))
  | inl _ => Done (buffer, (VFS_ERROR, (lock_V t, d)))
  end).

(** [tfs_init]: [sem] tells whether [semaphore_create(1)] found a semaphore,
    [addr] is the page [kmalloc] returned (0 if none) and [page] its contents,
    from which the three buffers are carved.  The result is the volume name and
    the driver state, or [None] where the function returns NULL; the flag
    tells whether the semaphore it created still exists. *)
Definition tfs_init (sector : Z) (sem : bool) (addr : Z) (page : list Z) (sizeof_fs sizeof_tfs : Z)
    (d : D) : outcome (option (list Z * tfs_t) * bool * D) :=
  if negb (block_size d =? TFS_BLOCK_SIZE) then Done (None, false, d)
  else if negb sem then Done (None, false, d)
  else if addr =? 0 then Done (None, false, d)
  else
  kassert (3 * TFS_BLOCK_SIZE + sizeof_tfs + sizeof_fs <=? Z.of_nat (length page)) ;*
  match read_block (u32 (sector + TFS_HEADER_BLOCK)) d with
  | (None, d') => Done (None, false, d')
  | (Some header, d') =>
      let* w := load32 en header 0 in
      let magic := u16 (from_big_endian32 en w) in
      if negb (magic =? TFS_MAGIC) then Done (None, false, d')
      else
        let* name := stringcopy (replicate 16 0) (drop 4 header) TFS_VOLNAME_MAX in
        let page := header ++ drop (length header) page in
        let buffer := λ n, take 512 (drop (Z.to_nat (sizeof_fs + sizeof_tfs + n * TFS_BLOCK_SIZE)) page) in
        let t := Tfs sector (MIN (total_blocks d') (8 * TFS_BLOCK_SIZE)) 1
                   (buffer 0) (buffer 1) (buffer 2) in
        let* vol := stringcopy (replicate 16 0) name VFS_NAME_LENGTH in
        Done (Some (vol, t), true, d')
  end.
End operations.
