(* ===== verification/TfsSpec.v ===== *)
(** * What a TFS volume represents

    The abstract view of a volume: a directory of 25 slots, each empty or
    holding a file with its name, size, inode block and data blocks.  [fs_rep]
    relates a volume on a block device to a directory; the file also holds the
    lemmas on block buffers and device transfers the proofs of the operations
    (TfsRead.v, TfsCreate.v) share.  The statements are for the big-endian machine
    (MIPS), where the on-disk byte order is the machine's. *)

From S2P Require Import Prelude Bitmap Libc BlockDev Tfs.

(** ** Directories *)
Record file := File { f_name : list Z; f_inode : Z; f_size : Z; f_blocks : list Z }.

Notation directory := (list (option file)).

Definition file_used (f : file) : list Z := f_inode f :: f_blocks f.
Definition slot_used (o : option file) : list Z := match o with Some f => file_used f | None => [] end.

(** The blocks in use: the three system blocks and those of the files. *)
Definition used (dir : directory) : list Z := [0; 1; 2] ++ concat (slot_used <$> dir).

Definition blocks_for (size : Z) : Z := (size + 511) / 512.

(** A valid file name: 1 to 15 non-zero bytes. *)
Definition name_ok (n : list Z) : Prop :=
  n ≠ [] ∧ (length n ≤ 15)%nat ∧ Forall is_u8 n ∧ 0 ∉ n.

Record file_ok (f : file) : Prop := {
  fo_name : name_ok (f_name f);
  fo_size : 0 ≤ f_size f;
  fo_blocks : Z.of_nat (length (f_blocks f)) = blocks_for (f_size f);
  fo_max : blocks_for (f_size f) ≤ 127
}.

Record dir_ok (total : Z) (dir : directory) : Prop := {
  do_len : Z.of_nat (length dir) = TFS_MAX_FILES;
  do_files : ∀ i f, dir !! i = Some (Some f) → file_ok f;
  do_names : ∀ i j f g, dir !! i = Some (Some f) → dir !! j = Some (Some g) →
    f_name f = f_name g → i = j;
  do_used : Forall (λ b, 0 ≤ b < total) (used dir);
  do_nodup : NoDup (used dir)
}.

(** ** Volumes *)

(** A block of bytes. *)
Definition is_block (bs : list Z) : Prop := length bs = 512%nat ∧ Forall is_u8 bs.

Section rep.
Context {D : Type} {dev : BlockDevice D} {spec : BlockDeviceSpec D}.

Record geometry (t : tfs_t) (d : D) : Prop := {
  g_start : 0 ≤ startblock t;
  g_total : 3 ≤ totalblocks t ≤ 8 * TFS_BLOCK_SIZE;
  g_fits : startblock t + totalblocks t ≤ total_blocks d;
  g_max : total_blocks d < 2 ^ 31;
  g_bs : block_size d = TFS_BLOCK_SIZE;
  g_healthy : healthy d;
  g_lock : lock t = 1
}.

(** Block [b] of the volume. *)
Definition vblock (t : tfs_t) (d : D) (b : Z) : list Z := contents d (startblock t + b).

Definition slot_rep (md : list Z) (i : nat) (o : option file) : Prop :=
  match o with
  | None => load32 Big md (inode_off (Z.of_nat i)) = Done 0 ∧ cstr (entry_name md (Z.of_nat i)) []
  | Some f => load32 Big md (inode_off (Z.of_nat i)) = Done (f_inode f) ∧
      cstr (entry_name md (Z.of_nat i)) (f_name f)
  end.

Definition inode_rep (ib : list Z) (f : file) : Prop :=
  load32 Big ib 0 = Done (f_size f) ∧
  ∀ j, 0 ≤ j < 127 → load32 Big ib (4 + 4 * j) = Done (default 0 (f_blocks f !! Z.to_nat j)).

(** The driver's buffers are blocks of bytes. *)
Definition bufs_ok (t : tfs_t) : Prop := is_block (buffer_inode t) ∧ is_block (buffer_bat t).

Record fs_rep (t : tfs_t) (d : D) (dir : directory) : Prop := {
  r_geo : geometry t d;
  r_bufs : bufs_ok t;
  r_dir : dir_ok (totalblocks t) dir;
  r_slots : ∀ i o, dir !! i = Some o → slot_rep (vblock t d TFS_DIRECTORY_BLOCK) i o;
  r_inodes : ∀ i f, dir !! i = Some (Some f) → inode_rep (vblock t d (f_inode f)) f;
  r_bat : ∀ p, 0 ≤ p < totalblocks t →
    bit (block_words Big (vblock t d TFS_ALLOCATION_BLOCK)) p = bool_decide (p ∈ used dir)
}.

(** The bytes of a file: its blocks one after the other, cut at its size. *)
Definition file_blocks_data (t : tfs_t) (d : D) (f : file) : list Z :=
  concat (vblock t d <$> f_blocks f).
Definition file_data (t : tfs_t) (d : D) (f : file) : list Z :=
  take (Z.to_nat (f_size f)) (file_blocks_data t d f).

(** Device states with the same contents, and after writing one block. *)
Record same_dev (d d' : D) : Prop := {
  sd_contents : ∀ b, contents d' b = contents d b;
  sd_bs : block_size d' = block_size d;
  sd_total : total_blocks d' = total_blocks d;
  sd_healthy : healthy d → healthy d'
}.

Record wrote (d : D) (b : Z) (data : list Z) (d' : D) : Prop := {
  wr_at : contents d' b = data;
  wr_other : ∀ b', b' ≠ b → contents d' b' = contents d b';
  wr_bs : block_size d' = block_size d;
  wr_total : total_blocks d' = total_blocks d;
  wr_healthy : healthy d → healthy d'
}.

#[export] Instance same_dev_refl : Reflexive same_dev.
Proof. by constructor. Qed.
#[export] Instance same_dev_trans : Transitive same_dev.
Proof. intros ??? [H1 ???] [H2 ???]. constructor; [|congruence..|auto]. intros b. by rewrite H2, H1. Qed.

(** ** Transfers of a healthy volume *)
Section transfers.
Context (t : tfs_t) (d : D) (Hg : geometry t d).

Lemma volume_block_range b :
  0 ≤ b < totalblocks t → u32 (startblock t + b) = startblock t + b ∧
    0 ≤ startblock t + b < total_blocks d.
Proof using Hg.
  intros Hb. destruct Hg as [H1 H2 H3 H4 _ _ _]. rewrite u32_id by (unfold is_u32; lia). lia.
Qed.

Lemma vblock_ok b :
  0 ≤ b < totalblocks t → is_block (vblock t d b).
Proof using Hg.
  intros Hb. destruct (volume_block_range b Hb) as [_ Hr].
  destruct (contents_ok d _ Hr) as [Hl Hu]. split; [|done].
  rewrite (g_bs _ _ Hg) in Hl. unfold TFS_BLOCK_SIZE, vblock in *. lia.
Qed.

Lemma read_ok {A} b (fail : tfs_t → D → outcome A) t' k Q :
  startblock t' = startblock t → 0 ≤ b < totalblocks t →
  (∀ d', same_dev d d' → returns (k (vblock t d b) d') Q) →
  returns (read_or_fail b fail t' d k) Q.
Proof using Hg.
  intros Hst Hb Hk. destruct (volume_block_range b Hb) as [Hu Hr].
  unfold read_or_fail. rewrite Hst, Hu.
  destruct (read_block (startblock t + b) d) as [r d'] eqn:E.
  destruct (read_block_spec _ _ _ _ E) as (Hc & Hbs & Htot & Hh & _ & Hok).
  rewrite (Hok (g_healthy _ _ Hg) Hr). by apply Hk.
Qed.

Lemma write_ok {A} b data (fail : tfs_t → D → outcome A) t' k Q :
  startblock t' = startblock t → 0 ≤ b < totalblocks t →
  length data = 512%nat → Forall is_u8 data →
  (∀ d', wrote d (startblock t + b) data d' → returns (k d') Q) →
  returns (write_or_fail b data fail t' d k) Q.
Proof using Hg.
  intros Hst Hb Hl Hu Hk. destruct (volume_block_range b Hb) as [Hu32 Hr].
  unfold write_or_fail. rewrite Hst, Hu32.
  destruct (write_block (startblock t + b) data d) as [r d'] eqn:E.
  destruct (write_block_spec _ _ _ _ _ E) as (Hc & Hbs & Htot & Hh & Hat & Hok).
  { rewrite Hl, (g_bs _ _ Hg). done. }
  { done. }
  rewrite (Hok (g_healthy _ _ Hg) Hr) in *. apply Hk. destruct (Hat eq_refl) as [_ ?].
  by constructor.
Qed.

Lemma lock_P_ok : lock_P t = Done (set_lock 0 t).
Proof using Hg. unfold lock_P. by rewrite (g_lock _ _ Hg). Qed.
End transfers.

(** What a representation depends on. *)
Lemma geometry_same t t' d d' :
  same_dev d d' → geometry t d → startblock t' = startblock t → totalblocks t' = totalblocks t →
  lock t' = 1 → geometry t' d'.
Proof. intros [] [] E1 E2 E3. constructor; rewrite ?E1, ?E2; try congruence; try lia; auto. Qed.

Lemma geometry_wrote t t' d b data d' :
  wrote d b data d' → geometry t d → startblock t' = startblock t →
  totalblocks t' = totalblocks t → lock t' = lock t → geometry t' d'.
Proof. intros [] [] E1 E2 E3. constructor; rewrite ?E1, ?E2; try congruence; try lia; auto. Qed.

Lemma fs_rep_same t t' d d' dir :
  fs_rep t d dir → same_dev d d' → startblock t' = startblock t →
  totalblocks t' = totalblocks t → lock t' = 1 → bufs_ok t' → fs_rep t' d' dir.
Proof.
  intros [Hg _ Hd Hs Hi Hb] Hsd E1 E2 E3 Hbuf.
  assert (Hv : ∀ b, vblock t' d' b = vblock t d b).
  { intros b. unfold vblock. by rewrite E1, (sd_contents _ _ Hsd). }
  constructor.
  - by eapply geometry_same.
  - done.
  - by rewrite E2.
  - intros i o. rewrite Hv. apply Hs.
  - intros i f. rewrite Hv. apply Hi.
  - intros p. rewrite E2, Hv. apply Hb.
Qed.
End rep.

(** ** Blocks as words *)
Lemma length_words_of en n bs : length (words_of en n bs) = n.
Proof. revert bs. induction n as [|n IH]; intros bs; simpl; [done|]. by rewrite IH. Qed.

Lemma words_of_u32 en n bs :
  length bs = (4 * n)%nat → Forall is_u8 bs → Forall is_u32 (words_of en n bs).
Proof.
  revert bs. induction n as [|n IH]; intros bs Hl Hu; simpl; [constructor|].
  constructor.
  - apply u32_of_bytes_range; [by apply Forall_take|]. rewrite length_take. lia.
  - apply IH; [rewrite length_drop; lia|by apply Forall_drop].
Qed.

Lemma bytes_of_u32_of_bytes en bs :
  length bs = 4%nat → Forall is_u8 bs → bytes_of_u32 en (u32_of_bytes en bs) = bs.
Proof.
  intros Hl Hu. unfold bytes_of_u32, u32_of_bytes. destruct en.
  - rewrite le_bytes_num by (rewrite ?length_reverse; by try apply Forall_reverse).
    by rewrite reverse_involutive.
  - by apply le_bytes_num.
Qed.

Lemma block_bytes_words en n bs :
  length bs = (4 * n)%nat → Forall is_u8 bs → block_bytes en (words_of en n bs) = bs.
Proof.
  unfold block_bytes. revert bs. induction n as [|n IH]; intros bs Hl Hu; simpl.
  - by destruct bs.
  - rewrite bytes_of_u32_of_bytes; [|rewrite length_take; lia|by apply Forall_take].
    rewrite IH; [|rewrite length_drop; lia|by apply Forall_drop]. apply take_drop.
Qed.

Lemma block_words_bytes en ws :
  Forall is_u32 ws → words_of en (length ws) (block_bytes en ws) = ws.
Proof.
  unfold block_bytes. induction 1 as [|w ws Hw _ IH]; [done|]. cbn [length words_of fmap list_fmap concat].
  rewrite take_app_length' by (by rewrite length_bytes_of_u32).
  rewrite drop_app_length' by (by rewrite length_bytes_of_u32).
  by rewrite u32_bytes_roundtrip, IH.
Qed.

Lemma length_block_bytes en ws : length (block_bytes en ws) = (4 * length ws)%nat.
Proof.
  unfold block_bytes. induction ws as [|w ws IH]; [done|].
  cbn [fmap list_fmap concat length]. rewrite length_app, IH, length_bytes_of_u32. lia.
Qed.

Lemma block_bytes_u8 en ws : Forall is_u8 (block_bytes en ws).
Proof.
  unfold block_bytes. induction ws as [|w ws IH]; [constructor|].
  cbn [fmap list_fmap concat]. apply Forall_app. split; [apply bytes_of_u32_u8|done].
Qed.

Lemma block_bitmap_ok en bs l :
  length bs = 512%nat → Forall is_u8 bs → 0 ≤ l ≤ 4096 → bitmap_ok (block_words en bs) l.
Proof.
  intros Hl Hu Hll. unfold block_words, bitmap_ok. rewrite length_words_of.
  split_and!; [by apply words_of_u32|lia..].
Qed.
