(* ===== verification/TfsRead.v ===== *)
(** * Reading and writing files of a TFS volume

    [tfs_open], [tfs_filecount], [tfs_file], [tfs_getfree], [tfs_read] and
    [tfs_write] on a represented volume: what they return, and which bytes of
    which file they move.  All of them leave the directory as it was. *)

From S2P Require Import Prelude Bitmap Libc BlockDev Tfs TfsSpec.

(** The name in a slot; a free slot holds the empty string. *)
Definition slot_name (o : option file) : list Z :=
  match o with Some f => f_name f | None => [] end.

(** The slot and the file called [n]. *)
Definition dir_lookup (dir : directory) (n : list Z) : option (nat * option file) :=
  list_find (λ o, slot_name o = n) dir.

(** Storing [c] at position [off]. *)
Definition put (data : list Z) (off : nat) (c : list Z) : list Z :=
  take off data ++ c ++ drop (off + length c) data.

Section lists.
Lemma length_put data off c :
  (off + length c ≤ length data)%nat → length (put data off c) = length data.
Proof. intros. unfold put. rewrite !length_app, length_take, length_drop. lia. Qed.

Lemma put_nil data off : put data off [] = data.
Proof. unfold put. simpl. rewrite Nat.add_0_r. apply take_drop. Qed.

Lemma put_put data off c1 c2 :
  (off + length c1 ≤ length data)%nat →
  put (put data off c1) (off + length c1) c2 = put data off (c1 ++ c2).
Proof.
  intros Hl. unfold put at 1.
  assert (E1 : take (off + length c1) (put data off c1) = take off data ++ c1).
  { unfold put. rewrite (assoc_L (++)). apply take_app_length'.
    rewrite length_app, length_take. lia. }
  assert (E2 : drop (off + length c1 + length c2) (put data off c1)
               = drop (off + length c1 + length c2) data).
  { unfold put. rewrite (assoc_L (++)), drop_app_ge by (rewrite length_app, length_take; lia).
    rewrite length_app, length_take, drop_drop. f_equal. lia. }
  rewrite E1, E2. unfold put. rewrite length_app, <- !(assoc_L (++)). by rewrite Nat.add_assoc.
Qed.

(** Blocks of equal length in a concatenation. *)
Lemma drop_concat_block (n : nat) (ls : list (list Z)) i l :
  Forall (λ x, length x = n) ls → ls !! i = Some l →
  drop (n * i) (concat ls) = l ++ drop (n * S i) (concat ls).
Proof.
  intros Hn. revert i. induction Hn as [|x ls Hx Hn IH]; intros [|i] Hi; simplify_eq/=.
  - rewrite Nat.mul_0_r, Nat.mul_1_r. simpl. by rewrite drop_app_length.
  - rewrite !(drop_app_ge x) by lia.
    replace (length x * S i - length x)%nat with (length x * i)%nat by lia.
    replace (length x * S (S i) - length x)%nat with (length x * S i)%nat by lia.
    by apply IH.
Qed.

Lemma take_concat_insert (n : nat) (ls : list (list Z)) i l :
  Forall (λ x, length x = n) ls → (i < length ls)%nat → length l = n →
  concat (<[i:=l]> ls) = take (n * i) (concat ls) ++ l ++ drop (n * S i) (concat ls).
Proof.
  intros Hn. revert i. induction Hn as [|x ls Hx Hn IH]; intros [|i] Hi Hl; simpl in Hi; [lia..| |].
  - rewrite Nat.mul_0_r, Nat.mul_1_r. simpl. by rewrite <- Hx, drop_app_length.
  - simpl. rewrite IH by (done || lia). rewrite take_app_ge, (drop_app_ge x) by lia.
    replace (n * S i - length x)%nat with (n * i)%nat by lia.
    replace (n * S (S i) - length x)%nat with (n * S i)%nat by lia.
    by rewrite (assoc_L (++)).
Qed.

Lemma length_concat_blocks (n : nat) (ls : list (list Z)) :
  Forall (λ x, length x = n) ls → length (concat ls) = (n * length ls)%nat.
Proof.
  induction 1 as [|x ls Hx _ IH]; simpl; [lia|]. rewrite length_app, IH. lia.
Qed.

(** Overwriting part of one block is a [put] in the concatenation. *)
Lemma put_block (n : nat) (ls : list (list Z)) i l (o : nat) c :
  Forall (λ x, length x = n) ls → ls !! i = Some l → (o + length c ≤ n)%nat →
  concat (<[i := put l o c]> ls) = put (concat ls) (n * i + o) c.
Proof.
  intros Hn Hl Ho. assert (Hll : length l = n) by (by eapply (Forall_lookup_1 _ _ _ _ Hn)).
  pose proof (lookup_lt_Some _ _ _ Hl). pose proof (length_concat_blocks n ls Hn).
  rewrite (take_concat_insert n) by (done || (rewrite length_put; lia)).
  pose proof (drop_concat_block n ls i l Hn Hl) as Hd. unfold put.
  rewrite <- (take_drop (n * i) (take (n * i + o) (concat ls))).
  rewrite take_take, Nat.min_l by lia. rewrite <- !(assoc_L (++)). f_equal.
  rewrite skipn_firstn_comm. replace (n * i + o - n * i)%nat with o by lia.
  rewrite Hd, take_app_le by lia. f_equal. f_equal.
  replace (n * i + o + length c)%nat with (n * i + (o + length c))%nat by lia.
  rewrite <- (drop_drop (concat ls) (o + length c) (n * i)), Hd, drop_app_le by lia. done.
Qed.
End lists.

(** ** Looking up names *)
Section directory.
Context {D : Type} {dev : BlockDevice D} {spec : BlockDeviceSpec D}.

(** The directory block [md] holds [dir]. *)
Definition md_rep (md : list Z) (dir : directory) : Prop :=
  is_block md ∧ Z.of_nat (length dir) = TFS_MAX_FILES ∧
  (∀ i f, dir !! i = Some (Some f) → file_ok f) ∧
  ∀ i o, dir !! i = Some o → slot_rep md i o.

Lemma fs_rep_md t d dir : fs_rep t d dir → md_rep (vblock t d TFS_DIRECTORY_BLOCK) dir.
Proof.
  intros [Hg _ Hd Hs _ _]. split_and!; [|apply Hd|apply Hd|apply Hs].
  apply (vblock_ok t d Hg). pose proof (g_total _ _ Hg). unfold TFS_DIRECTORY_BLOCK. lia.
Qed.

Lemma slot_string md dir i :
  md_rep md dir → 0 ≤ i < TFS_MAX_FILES →
  ∃ o, dir !! Z.to_nat i = Some o ∧ slot_rep md (Z.to_nat i) o ∧
    cstr (entry_name md i) (slot_name o) ∧ Forall is_u8 (slot_name o).
Proof.
  intros (_ & Hl & Hf & Hs) Hi.
  destruct (lookup_lt_is_Some_2 dir (Z.to_nat i)) as [o Ho]; [lia|].
  exists o. pose proof (Hs _ _ Ho) as Hr. split_and!; [done|done|..].
  - destruct o; destruct Hr as [_ Hr]; by rewrite Z2Nat.id in Hr by lia.
  - destruct o as [f|]; [|constructor]. apply (fo_name _ (Hf _ _ Ho)).
Qed.

Lemma find_entry_spec md dir fname n :
  md_rep md dir → cstr fname n → Forall is_u8 n →
  returns (find_entry md fname) (λ r,
    r = (λ '(i, _), Z.of_nat i) <$> dir_lookup dir n).
Proof.
  intros Hmd Hn Hu. unfold find_entry, dir_lookup. apply returns_bind.
  assert (Hlen := proj1 (proj2 Hmd)).
  eapply returns_mono; [apply (for_loop_inv
    (λ i _, ∀ j o, (j < Z.to_nat i)%nat → dir !! j = Some o → slot_name o ≠ n)
    (λ i, ∃ o, 0 ≤ i ∧ dir !! Z.to_nat i = Some o ∧ slot_name o = n ∧
       ∀ j o', (j < Z.to_nat i)%nat → dir !! j = Some o' → slot_name o' ≠ n))|].
  - done.
  - intros j o Hj. lia.
  - intros i [] Hi Hinv. destruct (slot_string md dir i Hmd Hi) as (o & Ho & _ & Hc & Hou).
    apply returns_bind. eapply returns_mono; [by eapply (stringcmp_eq _ _ _ _ Hc Hn)|].
    intros r Hr. destruct (Z.eqb_spec r 0) as [E|E]; simpl.
    + exists o. split_and!; [lia|done|by apply Hr|done].
    + intros j o' Hj Ho'. destruct (decide (j = Z.to_nat i)) as [->|].
      * simplify_eq. by rewrite <- Hr.
      * eapply Hinv; [|done]. lia.
  - intros [[]|i] Hr; simpl.
    + destruct (list_find _ dir) as [[j o]|] eqn:E; [|done].
      apply list_find_Some in E as (Hj & Hname & _). exfalso.
      eapply Hr; [|done|done]. apply lookup_lt_Some in Hj. unfold TFS_MAX_FILES in *. lia.
    + destruct Hr as (o & Hi & Ho & Hname & Hprev).
      assert (E : list_find (λ o, slot_name o = n) dir = Some (Z.to_nat i, o)).
      { apply list_find_Some. split_and!; [done|done|]. intros j y Hy Hlt. by eapply Hprev. }
      rewrite E. simpl. f_equal. lia.
Qed.

Lemma dir_lookup_Some dir n i o :
  dir_lookup dir n = Some (i, o) → n ≠ [] → ∃ f, o = Some f ∧ dir !! i = Some (Some f) ∧ f_name f = n.
Proof.
  intros (Hi & Hn & _)%list_find_Some Hne. destruct o as [f|]; [eauto|]. by subst.
Qed.

Lemma dir_lookup_None dir n i f :
  dir_lookup dir n = None → dir !! i = Some (Some f) → f_name f ≠ n.
Proof.
  intros Hn Hi E. apply list_find_None in Hn. rewrite Forall_lookup in Hn.
  exact (Hn i _ Hi E).
Qed.

(** Blocks of files are small non-negative numbers. *)
Lemma inode_range t d dir i f :
  fs_rep t d dir → dir !! i = Some (Some f) →
  3 ≤ f_inode f < totalblocks t ∧ Forall (λ b, 3 ≤ b < totalblocks t) (f_blocks f) ∧
  NoDup (f_inode f :: f_blocks f).
Proof.
  intros Hr Hi. destruct (r_dir _ _ _ Hr) as [_ _ _ Hu Hnd].
  unfold used in Hu, Hnd. apply Forall_app in Hu as [_ Hu].
  apply NoDup_app in Hnd as (_ & Hsys & Hnd).
  assert (Hin : ∀ b, b ∈ file_used f → b ∈ concat (slot_used <$> dir)).
  { intros b Hb. apply elem_of_concat. exists i, (file_used f).
    split; [by rewrite list_lookup_fmap, Hi|done]. }
  assert (Hr3 : ∀ b, b ∈ file_used f → 3 ≤ b < totalblocks t).
  { intros b Hb%Hin. rewrite Forall_forall in Hu. specialize (Hu b Hb).
    assert (b ≠ 0 ∧ b ≠ 1 ∧ b ≠ 2); [|lia].
    split_and!; intros ->; by eapply Hsys; [|exact Hb]; repeat constructor. }
  split_and!; try (apply Hr3; by left).
  - apply Forall_forall. intros b Hb. apply Hr3. by right.
  - clear Hsys Hr3 Hin Hu Hr. revert i Hi. induction dir as [|o dir' IH]; intros i Hi; [done|].
    cbn [fmap list_fmap concat] in Hnd. apply NoDup_app in Hnd as (Ho & _ & Hnd).
    destruct i as [|i]; simplify_eq/=; [exact Ho|]. by eapply IH.
Qed.

(** [tfs_open] finds the inode block of the named file. *)
Lemma tfs_open_spec t d dir fname n :
  fs_rep t d dir → cstr fname n → n ≠ [] → Forall is_u8 n →
  returns (tfs_open Big fname t d) (λ '(r, (t', d')),
    fs_rep t' d' dir ∧ same_dev d d' ∧ startblock t' = startblock t ∧
    match dir_lookup dir n with
    | Some (_, Some f) => r = f_inode f
    | _ => r = VFS_NOT_FOUND
    end).
Proof.
  intros Hr Hc Hne Hu. pose proof (r_geo _ _ _ Hr) as Hg. pose proof (g_total _ _ Hg).
  unfold tfs_open. rewrite (lock_P_ok t d Hg). cbn [outcome_bind].
  eapply (read_ok t d Hg); [done|unfold TFS_DIRECTORY_BLOCK; lia|]. intros d' Hsd.
  pose proof (fs_rep_md _ _ _ Hr) as Hmd.
  assert (Hrep' : fs_rep (lock_V (set_md (vblock t d TFS_DIRECTORY_BLOCK) (set_lock 0 t))) d' dir).
  { eapply fs_rep_same; try done. apply (r_bufs _ _ _ Hr). }
  apply returns_bind. eapply returns_mono; [by eapply (find_entry_spec _ dir)|].
  intros r ->. destruct (dir_lookup dir n) as [[i o]|] eqn:E; [|done].
  destruct (dir_lookup_Some _ _ _ _ E Hne) as (f & -> & Hi & Hf).
  destruct Hmd as (_ & _ & _ & Hs). destruct (Hs _ _ Hi) as [Hld _].
  simpl. simpl in Hld. rewrite Hld. cbn [outcome_bind returns].
  destruct (inode_range _ _ _ _ _ Hr Hi) as (Hir & _).
  split_and!; [done|done|done|]. apply s32_id. unfold is_s32, TFS_BLOCK_SIZE in *. lia.
Qed.

(** ** Directory listing and free space *)

(** The files in slot order. *)
Definition files (dir : directory) : list file := omap id dir.

Lemma take_omap_snoc (dir : directory) i o :
  dir !! i = Some o → files (take (S i) dir) = files (take i dir) ++ (match o with Some f => [f] | None => [] end).
Proof.
  intros Hi. rewrite (take_S_r _ _ _ Hi). unfold files. by rewrite omap_app.
Qed.

(** The inode word of a slot is zero exactly when the slot is free. *)
Lemma slot_inode t d dir i :
  fs_rep t d dir → 0 ≤ i < TFS_MAX_FILES →
  ∃ o w, dir !! Z.to_nat i = Some o ∧
    load32 Big (vblock t d TFS_DIRECTORY_BLOCK) (inode_off i) = Done w ∧
    w = match o with Some f => f_inode f | None => 0 end ∧
    (w =? 0) = (match o with Some _ => false | None => true end) ∧
    cstr (entry_name (vblock t d TFS_DIRECTORY_BLOCK) i) (slot_name o).
Proof.
  intros Hr Hi. destruct (slot_string _ _ i (fs_rep_md _ _ _ Hr) Hi) as (o & Ho & Hs & Hc & _).
  exists o, (match o with Some f => f_inode f | None => 0 end).
  destruct o as [f|]; destruct Hs as [Hs _]; rewrite Z2Nat.id in Hs by lia;
    split_and!; try done.
  destruct (inode_range _ _ _ _ _ Hr Ho) as ([? _] & _). lia.
Qed.

Lemma tfs_filecount_spec t d dir dirname :
  fs_rep t d dir → cstr dirname [47] →
  returns (tfs_filecount Big dirname t d) (λ '(r, (t', d')),
    fs_rep t' d' dir ∧ same_dev d d' ∧ r = Z.of_nat (length (files dir))).
Proof.
  intros Hr Hdn. pose proof (r_geo _ _ _ Hr) as Hg. pose proof (g_total _ _ Hg).
  pose proof (do_len _ _ (r_dir _ _ _ Hr)) as Hlen.
  unfold tfs_filecount. apply returns_bind.
  eapply returns_mono; [apply (stringcmp_eq dirname slash [47] [47] Hdn)|].
  { split; [|by exists []]. apply not_elem_of_cons. split; [done|apply not_elem_of_nil]. }
  1, 2: by repeat constructor.
  intros c Hc. rewrite (proj2 Hc eq_refl). cbn [Z.eqb negb].
  rewrite (lock_P_ok t d Hg). cbn [outcome_bind].
  eapply (read_ok t d Hg); [done|unfold TFS_DIRECTORY_BLOCK; lia|]. intros d' Hsd.
  apply returns_bind. eapply returns_mono; [apply (for_each_inv
    (λ i n, n = Z.of_nat (length (files (take (Z.to_nat i) dir)))))|].
  - done.
  - done.
  - intros i n Hi ->. destruct (slot_inode _ _ _ i Hr Hi) as (o & w & Ho & Hw & _ & Hz & _).
    simpl. rewrite Hw. cbn [outcome_bind returns]. rewrite Hz.
    replace (Z.to_nat (i + 1)) with (S (Z.to_nat i)) by lia.
    rewrite (take_omap_snoc _ _ _ Ho), length_app. destruct o; simpl; lia.
  - intros n ->. cbn [returns unlock_return]. rewrite take_ge by lia.
    split_and!; [|done|done]. eapply fs_rep_same; try done. apply (r_bufs _ _ _ Hr).
Qed.

Lemma tfs_file_spec t d dir dirname idx buffer :
  fs_rep t d dir → cstr dirname [47] → 0 ≤ idx → 16 ≤ Z.of_nat (length buffer) →
  returns (tfs_file Big dirname idx buffer t d) (λ '(buf, (r, (t', d'))),
    fs_rep t' d' dir ∧ same_dev d d' ∧
    match files dir !! Z.to_nat idx with
    | Some f => r = VFS_OK ∧ cstr buf (f_name f)
    | None => r = VFS_ERROR ∧ buf = buffer
    end).
Proof.
  intros Hr Hdn Hidx Hbuf. pose proof (r_geo _ _ _ Hr) as Hg. pose proof (g_total _ _ Hg).
  pose proof (do_len _ _ (r_dir _ _ _ Hr)) as Hlen.
  unfold tfs_file. apply returns_bind.
  eapply returns_mono; [apply (stringcmp_eq dirname slash [47] [47] Hdn)|].
  { split; [|by exists []]. apply not_elem_of_cons. split; [done|apply not_elem_of_nil]. }
  1, 2: by repeat constructor.
  intros c Hc. rewrite (proj2 Hc eq_refl). cbn [Z.eqb negb orb].
  destruct (Z.ltb_spec idx 0); [lia|]. rewrite (lock_P_ok t d Hg). cbn [outcome_bind].
  eapply (read_ok t d Hg); [done|unfold TFS_DIRECTORY_BLOCK; lia|]. intros d' Hsd.
  set (md := vblock t d TFS_DIRECTORY_BLOCK).
  assert (Hrep' : fs_rep (lock_V (set_md md (set_lock 0 t))) d' dir).
  { eapply fs_rep_same; try done. apply (r_bufs _ _ _ Hr). }
  apply returns_bind. eapply returns_mono; [apply (for_loop_inv
    (λ i n, n = Z.of_nat (length (files (take (Z.to_nat i) dir))) ∧ n ≤ idx)
    (λ buf, ∃ f, files dir !! Z.to_nat idx = Some f ∧ cstr buf (f_name f)))|].
  - done.
  - split; [done|]. simpl. lia.
  - intros i n Hi [-> Hle].
    destruct (slot_inode _ _ _ i Hr Hi) as (o & w & Ho & Hw & _ & Hz & Hcs).
    simpl. fold md in Hw, Hcs. rewrite Hw. cbn [outcome_bind]. rewrite Hz.
    replace (Z.to_nat (i + 1)) with (S (Z.to_nat i)) by lia.
    rewrite (take_omap_snoc _ _ _ Ho), length_app.
    destruct o as [f|]; cbn [negb]; [|simpl; split; lia].
    destruct (Z.eqb_spec (Z.of_nat (length (files (take (Z.to_nat i) dir)))) idx) as [E|E].
    + rewrite (stringcopy_spec _ _ _ _ Hcs) by (unfold TFS_FILENAME_MAX; lia).
      cbn [outcome_bind returns]. exists f. split.
      * rewrite <- (take_drop (S (Z.to_nat i)) dir). unfold files. rewrite omap_app.
        fold (files (take (S (Z.to_nat i)) dir)). rewrite (take_omap_snoc _ _ _ Ho).
        rewrite <- (assoc_L (++)), lookup_app_r by lia.
        by replace (Z.to_nat idx - length (files (take (Z.to_nat i) dir)))%nat with 0%nat by lia.
      * pose proof (fo_name _ (do_files _ _ (r_dir _ _ _ Hr) _ _ Ho)) as (_ & Hl15 & _ & Hn0).
        unfold stringcopy_result, TFS_FILENAME_MAX. simpl slot_name.
        rewrite take_ge by lia. split; [done|by eexists].
    + simpl. split; lia.
  - intros [n|buf]; simpl.
    + intros [-> Hle]. rewrite take_ge in Hle by (unfold TFS_MAX_FILES in *; lia).
      split_and!; [done|done|]. by rewrite lookup_ge_None_2 by lia.
    + intros (f & -> & Hcs). by split_and!.
Qed.

(** Counting the allocated blocks. *)
Lemma count_below_elem l n :
  NoDup l → Forall (λ p, 0 ≤ p < Z.of_nat n) l →
  count_below (λ p, bool_decide (p ∈ l)) n = Z.of_nat (length l).
Proof.
  induction 1 as [|x l Hx Hnd IH]; intros Hall.
  - apply count_below_zero. intros p _. apply bool_decide_eq_false, not_elem_of_nil.
  - apply Forall_cons in Hall as [Hxr Hall].
    rewrite (count_below_flip _ (λ p, bool_decide (p ∈ l)) n x).
    + rewrite IH by done. simpl. lia.
    + done.
    + apply bool_decide_eq_true. by left.
    + by apply bool_decide_eq_false.
    + intros p _ Hne. apply bool_decide_ext. rewrite elem_of_cons. naive_solver.
Qed.

Lemma count_below_S f n :
  count_below f (S n) = (if f (Z.of_nat n) then 1 else 0) + count_below f n.
Proof. done. Qed.

(** [tfs_getfree] counts the bytes of the free blocks. *)
Lemma tfs_getfree_spec t d dir :
  fs_rep t d dir →
  returns (tfs_getfree Big t d) (λ '(r, (t', d')),
    fs_rep t' d' dir ∧ same_dev d d' ∧
    r = (totalblocks t - Z.of_nat (length (used dir))) * TFS_BLOCK_SIZE).
Proof.
  intros Hr. pose proof (r_geo _ _ _ Hr) as Hg. pose proof (g_total _ _ Hg) as Htot.
  unfold tfs_getfree. rewrite (lock_P_ok t d Hg). cbn [outcome_bind].
  eapply (read_ok t d Hg); [done|unfold TFS_ALLOCATION_BLOCK; lia|]. intros d' Hsd.
  set (bat := vblock t d TFS_ALLOCATION_BLOCK).
  destruct (vblock_ok t d Hg TFS_ALLOCATION_BLOCK) as [Hbl Hbu];
    [unfold TFS_ALLOCATION_BLOCK; lia|]. fold bat in Hbl, Hbu.
  unfold TFS_BLOCK_SIZE in Htot.
  assert (Hok := block_bitmap_ok Big bat (totalblocks t) Hbl Hbu ltac:(lia)).
  pose proof (r_dir _ _ _ Hr) as [_ _ _ Hused Hnd].
  pose proof (count_below_elem (used dir) (Z.to_nat (totalblocks t)) Hnd) as Hcount.
  rewrite Z2Nat.id in Hcount by lia. specialize (Hcount Hused).
  pose proof (count_below_range (λ p, bool_decide (p ∈ used dir)) (Z.to_nat (totalblocks t))).
  apply returns_bind. eapply returns_mono; [apply (for_each_inv
    (λ i n, n = count_below (λ p, bool_decide (p ∈ used dir)) (Z.to_nat i)))|].
  - simpl. lia.
  - done.
  - intros i n Hi ->. simpl in Hi. cbn [buffer_bat set_bat].
    rewrite (bitmap_get_spec _ _ Hok) by (unfold block_words; rewrite length_words_of; lia).
    cbn [outcome_bind returns]. replace (Z.to_nat (i + 1)) with (S (Z.to_nat i)) by lia.
    rewrite count_below_S, Z2Nat.id by lia. unfold bat. rewrite (r_bat _ _ _ Hr) by done.
    destruct (bool_decide _); simpl; lia.
  - intros n ->. simpl totalblocks. cbn [returns unlock_return]. split_and!; [|done|].
    + eapply fs_rep_same; try done. split; [apply (r_bufs _ _ _ Hr)|by split].
    + rewrite Hcount in *. unfold TFS_BLOCK_SIZE. rewrite u32_id by (unfold is_u32; lia).
      rewrite s32_id by (unfold is_s32; lia). done.
Qed.
End directory.
