(* ===== verification/TfsIO.v ===== *)
(** * [tfs_read] and [tfs_write]

    A read returns exactly the requested slice of the file's bytes, cut at the
    end of the file; a write replaces exactly that slice and nothing else on the
    volume. *)

From S2P Require Import Prelude Bitmap Libc BlockDev Tfs TfsSpec TfsRead.

Lemma load32_app_l en (a b : list Z) off :
  0 ≤ off → off + 4 ≤ Z.of_nat (length a) → load32 en (a ++ b) off = load32 en a off.
Proof.
  intros H0 Hl. rewrite !load32_in_range by (rewrite ?length_app; lia).
  do 2 f_equal. rewrite drop_app_le by lia. rewrite take_app_le by (rewrite length_drop; lia).
  done.
Qed.

Lemma overwrite_drop (src dst : list Z) (pos n : nat) :
  (pos + n ≤ length dst)%nat → (n ≤ length src)%nat →
  take pos dst ++ overwrite src (drop pos dst) (Z.of_nat n) = put dst pos (take n src).
Proof.
  intros Hd Hs. unfold overwrite, put. rewrite Nat2Z.id, drop_drop, length_take.
  f_equal. f_equal. f_equal. lia.
Qed.

Section io.
Context {D : Type} {dev : BlockDevice D} {spec : BlockDeviceSpec D}.
Context (t : tfs_t) (d : D) (dir : directory) (i : nat) (f : file).
Hypothesis Hr : fs_rep t d dir.
Hypothesis Hf : dir !! i = Some (Some f).

(** The number of blocks, as needed by index arithmetic. *)
Lemma file_geometry :
  0 ≤ f_size f ∧ Z.of_nat (length (f_blocks f)) = (f_size f + 511) / 512 ∧
  Z.of_nat (length (f_blocks f)) ≤ 127 ∧ f_size f ≤ 512 * Z.of_nat (length (f_blocks f)) ∧
  f_size f ≤ 65024.
Proof using Hr Hf.
  pose proof (do_files _ _ (r_dir _ _ _ Hr) _ _ Hf) as [_ Hs Hb Hm].
  unfold blocks_for in *. pose proof (Z.div_mod (f_size f + 511) 512).
  pose proof (Z.mod_pos_bound (f_size f + 511) 512). split_and!; lia.
Qed.

Lemma file_block b :
  0 ≤ b < Z.of_nat (length (f_blocks f)) →
  ∃ p, f_blocks f !! Z.to_nat b = Some p ∧ 3 ≤ p < totalblocks t ∧
    ∀ t', buffer_inode t' = vblock t d (f_inode f) → inode_block Big t' b = Done p.
Proof using Hr Hf.
  intros Hb. destruct (lookup_lt_is_Some_2 (f_blocks f) (Z.to_nat b)) as [p Hp]; [lia|].
  destruct (inode_range _ _ _ _ _ Hr Hf) as (Hir & Hall & _). rewrite Forall_lookup in Hall.
  pose proof file_geometry as (_ & _ & Hmax & _).
  exists p. split_and!; [done|by eapply Hall..|]. intros t' Et. unfold inode_block. rewrite Et.
  destruct (vblock_ok t d (r_geo _ _ _ Hr) (f_inode f)) as [Hl _]; [lia|].
  rewrite load32_app_l by lia. destruct (r_inodes _ _ _ Hr _ _ Hf) as [_ Hblk].
  rewrite Hblk by lia. by rewrite Hp.
Qed.

Lemma blocks_length : Forall (λ x, length x = 512%nat) (vblock t d <$> f_blocks f).
Proof using Hr Hf.
  destruct (inode_range _ _ _ _ _ Hr Hf) as (_ & Hall & _). apply Forall_fmap.
  eapply Forall_impl; [exact Hall|]. intros b [Hb1 Hb2].
  apply (vblock_ok t d (r_geo _ _ _ Hr)). lia.
Qed.

Lemma data_length : length (file_blocks_data t d f) = (512 * length (f_blocks f))%nat.
Proof using Hr Hf.
  unfold file_blocks_data. rewrite (length_concat_blocks 512) by apply blocks_length.
  by rewrite length_fmap.
Qed.

(** The part of a file's bytes that lies in its block number [b]. *)
Lemma data_in_block b p (o n : nat) :
  f_blocks f !! b = Some p → (o + n ≤ 512)%nat →
  take n (drop (512 * b + o) (file_blocks_data t d f)) = take n (drop o (vblock t d p)).
Proof using Hr Hf.
  intros Hb Ho.
  assert (Hl : (vblock t d <$> f_blocks f) !! b = Some (vblock t d p))
    by (by rewrite list_lookup_fmap, Hb).
  assert (Hlen : length (vblock t d p) = 512%nat)
    by (eapply (Forall_lookup_1 _ _ _ _ blocks_length); exact Hl).
  rewrite <- drop_drop. unfold file_blocks_data.
  rewrite (drop_concat_block 512 _ b _ blocks_length Hl).
  rewrite drop_app_le by lia. rewrite take_app_le by (rewrite length_drop; lia). done.
Qed.

(** One [memcopy] into the caller's buffer. *)
Lemma copy_to_spec buf addr pos src srcaddr n :
  0 ≤ pos → 0 ≤ n ≤ Z.of_nat (length src) → pos + n ≤ Z.of_nat (length buf) →
  copy_to buf addr pos src srcaddr n
  = Done (put buf (Z.to_nat pos) (take (Z.to_nat n) src)).
Proof using.
  intros Hp Hn Hb. unfold copy_to. rewrite memcopy_spec by (rewrite ?length_drop; lia).
  cbn [outcome_bind]. f_equal. rewrite <- (Z2Nat.id n) at 1 by lia.
  apply overwrite_drop; lia.
Qed.

(** After [read] bytes. *)
Definition read_so_far (buf : list Z) (offset read : Z) : list Z :=
  put buf 0 (take (Z.to_nat read) (drop (Z.to_nat offset) (file_blocks_data t d f))).

Lemma take_plus (m n : nat) (l : list Z) : take (m + n) l = take m l ++ take n (drop m l).
Proof using. revert l. induction m as [|m IH]; intros [|x l]; simpl; f_equal; by rewrite ?take_nil. Qed.

(** Reading [n] more bytes from block [b], which starts at the current position. *)
Lemma read_more buf offset read n b p :
  0 ≤ offset → 0 ≤ read → f_blocks f !! Z.to_nat b = Some p → 0 ≤ b →
  offset + read = 512 * b → 0 ≤ n ≤ 512 → read + n ≤ Z.of_nat (length buf) →
  offset + read ≤ Z.of_nat (length (file_blocks_data t d f)) →
  put (read_so_far buf offset read) (Z.to_nat read) (take (Z.to_nat n) (vblock t d p))
  = read_so_far buf offset (read + n).
Proof using Hr Hf.
  intros Ho Hrd Hb Hb0 Heq Hn Hbuf Hdata. unfold read_so_far.
  assert (Hc : length (take (Z.to_nat read) (drop (Z.to_nat offset) (file_blocks_data t d f)))
               = Z.to_nat read) by (rewrite length_take, length_drop; lia).
  replace (Z.to_nat (read + n)) with (Z.to_nat read + Z.to_nat n)%nat by lia.
  rewrite take_plus, <- put_put, Hc by (rewrite Hc; lia). f_equal. rewrite drop_drop.
  replace (Z.to_nat offset + Z.to_nat read)%nat with (512 * Z.to_nat b + 0)%nat by lia.
  by rewrite (data_in_block _ _ _ _ Hb) by lia.
Qed.

(** The loop over the blocks after the first one. *)
Lemma read_loop_spec bat_address addr buf offset bufsize b1 b2 read t' d' :
  0 ≤ offset → 0 < bufsize → offset + bufsize ≤ f_size f →
  bufsize ≤ Z.of_nat (length buf) →
  b1 = offset / 512 + 1 → b2 = (offset + bufsize - 1) / 512 →
  read = Z.min (512 * b1 - offset) bufsize →
  same_dev d d' → geometry t d' → startblock t' = startblock t → totalblocks t' = totalblocks t →
  buffer_inode t' = vblock t d (f_inode f) → lock t' = 0 → bufs_ok t' →
  returns (read_loop Big bat_address addr bufsize b1 b2 (read_so_far buf offset read) read t' d')
    (λ '(buf', (r, (t2, d2))), r = bufsize ∧ buf' = read_so_far buf offset bufsize ∧
       fs_rep t2 d2 dir ∧ same_dev d d2).
Proof using Hr Hf.
  intros Ho Hbs Hsz Hbuf Eb1 Eb2 Erd Hsd Hg Est Etot Eino Elk Hbufs.
  pose proof file_geometry as (_ & Hnb & Hmax & Hle & _).
  pose proof data_length as Hdl.
  pose proof (Z.div_mod offset 512). pose proof (Z.mod_pos_bound offset 512).
  pose proof (Z.div_mod (offset + bufsize - 1) 512).
  pose proof (Z.mod_pos_bound (offset + bufsize - 1) 512).
  assert (Hb12 : b1 ≤ b2 + 1).
  { subst b1 b2. pose proof (Z.div_le_mono offset (offset + bufsize - 1) 512). lia. }
  unfold read_loop. apply returns_bind.
  eapply returns_mono; [apply (for_loop_inv
    (λ b '(bf, rd, tn, dd), rd = Z.min (512 * b - offset) bufsize ∧
       bf = read_so_far buf offset rd ∧ same_dev d dd ∧ startblock tn = startblock t ∧
       totalblocks tn = totalblocks t ∧ buffer_inode tn = vblock t d (f_inode f) ∧
       lock tn = 0 ∧ bufs_ok tn) (λ _, False))|].
  - done.
  - by split_and!.
  - intros b [[[bf rd] tn] dd] Hb (Erd' & -> & Hsd' & Est' & Etot' & Eino' & Elk' & Hbufs').
    assert (Hrd : rd = 512 * b - offset) by lia.
    destruct (file_block b) as (p & Hp & Hpr & Hib); [lia|].
    rewrite (Hib tn Eino'). cbn [outcome_bind].
    assert (Hg' : geometry (set_lock 1 t) dd)
      by (eapply geometry_same; [exact Hsd'|apply Hr|done..]).
    eapply (read_ok (set_lock 1 t) dd Hg'); [done|simpl; lia|]. intros d3 Hsd3.
    assert (Ev : vblock (set_lock 1 t) dd p = vblock t d p)
      by (unfold vblock; simpl; by rewrite (sd_contents _ _ Hsd')).
    change (from_big_endian32 Big p) with p. rewrite Ev. destruct (vblock_ok t d (r_geo _ _ _ Hr) p) as [Hl Hu]; [lia|].
    assert (Hlen : length (read_so_far buf offset rd) = length buf).
    { unfold read_so_far. apply length_put. rewrite length_take, length_drop. lia. }
    assert (Hbufs3 : bufs_ok (set_bat (vblock t d p) tn)) by (split; [apply Hbufs'|by split]).
    destruct (Z.eqb_spec b b2) as [->|Hne]; cbn [buffer_bat set_bat];
      (rewrite copy_to_spec by (rewrite ?Hlen; unfold TFS_BLOCK_SIZE; lia)); cbn [outcome_bind returns].
    + rewrite (read_more buf offset rd (bufsize - rd) b2 p) by (done || lia).
      split_and!; [lia|f_equal; lia|by etrans|done..].
    + rewrite (read_more buf offset rd TFS_BLOCK_SIZE b p) by (done || (unfold TFS_BLOCK_SIZE; lia)).
      split_and!; [unfold TFS_BLOCK_SIZE; lia|done|by etrans|done..].
  - intros [[[[bf rd] tn] dd]|[]]; simpl; [|done].
    intros (Erd' & -> & Hsd' & Est' & Etot' & Eino' & Elk' & Hbufs').
    assert (rd = bufsize) as -> by lia. split_and!; [done|done| |done].
    eapply fs_rep_same; try done. simpl. lia.
Qed.

(** The common first steps of [tfs_read] and [tfs_write]. *)
Lemma fileid_ok : (f_inode f <? 2) || (s32 (totalblocks (set_lock 0 t)) <? f_inode f) = false.
Proof using Hr Hf.
  destruct (inode_range _ _ _ _ _ Hr Hf) as (Hir & _).
  pose proof (g_total _ _ (r_geo _ _ _ Hr)) as Htot. unfold TFS_BLOCK_SIZE in Htot.
  simpl. rewrite s32_id by (unfold is_s32; lia).
  destruct (Z.ltb_spec (f_inode f) 2), (Z.ltb_spec (totalblocks t) (f_inode f)); simpl; lia || done.
Qed.

Lemma filesize_load : load32 Big (vblock t d (f_inode f)) 0 = Done (f_size f).
Proof using Hr Hf. apply (r_inodes _ _ _ Hr _ _ Hf). Qed.

Lemma file_data_slice (off n : nat) :
  Z.of_nat (off + n) ≤ f_size f →
  take n (drop off (file_data t d f)) = take n (drop off (file_blocks_data t d f)).
Proof using.
  intros Hn. unfold file_data. rewrite skipn_firstn_comm, take_take. f_equal. lia.
Qed.

Lemma inode_block_ok : is_block (vblock t d (f_inode f)).
Proof using Hr Hf.
  destruct (inode_range _ _ _ _ _ Hr Hf) as (Hir & _).
  apply (vblock_ok t d (r_geo _ _ _ Hr)). lia.
Qed.

Lemma tfs_read_spec bat_address addr buf bufsize offset n :
  0 ≤ bufsize → 0 ≤ offset ≤ f_size f → n = Z.min bufsize (f_size f - offset) →
  n ≤ Z.of_nat (length buf) →
  returns (tfs_read Big bat_address (f_inode f) addr buf bufsize offset t d)
    (λ '(buf', (r, (t', d'))), r = n ∧
       buf' = put buf 0 (take (Z.to_nat n) (drop (Z.to_nat offset) (file_data t d f))) ∧
       fs_rep t' d' dir ∧ same_dev d d').
Proof using Hr Hf.
  intros Hbs Hoff En Hbuf. pose proof (r_geo _ _ _ Hr) as Hg.
  pose proof file_geometry as (_ & Hnb & Hmax & Hle & Hsz).
  destruct (inode_range _ _ _ _ _ Hr Hf) as (Hir & _). pose proof inode_block_ok as Hib.
  unfold tfs_read. rewrite (lock_P_ok t d Hg). cbn [outcome_bind]. rewrite fileid_ok.
  eapply (read_ok t d Hg); [done|lia|]. intros d1 Hsd1.
  cbn [buffer_inode set_inode]. rewrite filesize_load. cbn [outcome_bind].
  change (from_big_endian32 Big (f_size f)) with (f_size f).
  rewrite s32_id by (unfold is_s32; lia).
  destruct (Z.ltb_spec offset 0), (Z.ltb_spec (f_size f) offset); try lia. cbn [orb].
  rewrite MIN_spec, <- En. destruct (Z.eqb_spec n 0) as [->|Hn0].
  { cbn [returns]. split_and!; [done|by rewrite put_nil| |done].
    eapply fs_rep_same; try done. split; [done|apply (r_bufs _ _ _ Hr)]. }
  rewrite file_data_slice by lia. unfold TFS_BLOCK_SIZE.
  rewrite !Z.quot_div_nonneg, !Z.rem_mod_nonneg by lia.
  pose proof (Z.div_mod offset 512). pose proof (Z.mod_pos_bound offset 512).
  destruct (file_block (offset / 512)) as (p & Hp & Hpr & Hblk).
  { split; [apply Z.div_pos; lia|]. apply Z.div_lt_upper_bound; lia. }
  rewrite Hblk by done. cbn [outcome_bind]. change (from_big_endian32 Big p) with p.
  assert (Hg1 : geometry (set_lock 1 t) d1) by (by eapply geometry_same).
  eapply (read_ok (set_lock 1 t) d1 Hg1); [done|simpl; lia|]. intros d2 Hsd2.
  assert (Ev : vblock (set_lock 1 t) d1 p = vblock t d p)
    by (unfold vblock; simpl; by rewrite (sd_contents _ _ Hsd1)).
  rewrite Ev. destruct (vblock_ok t d Hg p) as [Hl Hu]; [lia|].
  rewrite MIN_spec. set (rd := Z.min (512 - offset mod 512) n).
  cbn [buffer_bat set_bat]. rewrite copy_to_spec by (rewrite ?length_drop; lia).
  cbn [outcome_bind].
  assert (E0 : put buf (Z.to_nat 0) (take (Z.to_nat rd)
      (drop (Z.to_nat (offset mod 512)) (vblock t d p))) = read_so_far buf offset rd).
  { unfold read_so_far. f_equal. rewrite <- (data_in_block _ _ _ _ Hp) by lia. do 2 f_equal.
    rewrite Z2Nat.inj_div by lia. change (Z.to_nat 512) with 512%nat.
    rewrite Z2Nat.inj_mod by lia. change (Z.to_nat 512) with 512%nat.
    symmetry. apply Nat.div_mod_eq. }
  rewrite E0. eapply returns_mono; [apply (read_loop_spec bat_address addr buf offset n)|].
  all: try done; try lia.
  - by etrans.
  - eapply (geometry_same t t d d2); try done; [by etrans|apply Hg].
Qed.
End io.

(** ** Writing *)
Section disjoint_files.
Context {D : Type} {dev : BlockDevice D} {spec : BlockDeviceSpec D}.

(** No block belongs to two files. *)
Lemma used_disjoint total dir i j f g b :
  dir_ok total dir → dir !! i = Some (Some f) → dir !! j = Some (Some g) → i ≠ j →
  b ∈ file_used f → b ∉ file_used g.
Proof.
  intros [_ _ _ _ Hnd] Hi Hj Hij Hb Hb'. unfold used in Hnd.
  apply NoDup_app in Hnd as (_ & _ & Hnd).
  destruct (concat_split (slot_used <$> dir) i (file_used f)) as (rest & Hp & _ & Hs).
  { by rewrite list_lookup_fmap, Hi. }
  rewrite Hp in Hnd. apply NoDup_app in Hnd as (_ & Hd & _). apply (Hd b Hb).
  eapply (Hs j (file_used g)); [by apply not_eq_sym| |done]. by rewrite list_lookup_fmap, Hj.
Qed.

(** Changing data blocks of one file keeps the volume's structure. *)
Lemma fs_rep_data t t' d d' dir i f :
  fs_rep t d dir → dir !! i = Some (Some f) →
  startblock t' = startblock t → totalblocks t' = totalblocks t →
  geometry t' d' → bufs_ok t' →
  (∀ b, b ∉ f_blocks f → vblock t d' b = vblock t d b) → fs_rep t' d' dir.
Proof.
  intros Hr Hf E1 E2 Hg Hb Hv. destruct (inode_range _ _ _ _ _ Hr Hf) as (_ & Hall & Hnd).
  rewrite Forall_forall in Hall.
  assert (Hv' : ∀ b, b ∉ f_blocks f → vblock t' d' b = vblock t d b).
  { intros b ?. unfold vblock in *. rewrite E1. auto. }
  destruct Hr as [_ _ Hd Hs Hi Hbat].
  constructor; [done|done|by rewrite E2|..].
  - intros j o Hj. rewrite Hv'; [by apply Hs|]. intros Hin%Hall. unfold TFS_DIRECTORY_BLOCK in *. lia.
  - intros j g Hj. rewrite Hv'; [by eapply Hi|].
    destruct (decide (i = j)) as [<-|Hij].
    + simplify_eq. by apply NoDup_cons in Hnd as [? _].
    + intros Hin. eapply (used_disjoint _ _ i j f g); try done; [by right|by left].
  - intros q. rewrite E2, Hv'; [apply Hbat|]. intros Hin%Hall. unfold TFS_ALLOCATION_BLOCK in *. lia.
Qed.

(** Other files keep their bytes. *)
Lemma other_file_data t t' d d' dir i j f g :
  fs_rep t d dir → dir !! i = Some (Some f) → dir !! j = Some (Some g) → i ≠ j →
  startblock t' = startblock t → (∀ b, b ∉ f_blocks f → vblock t d' b = vblock t d b) →
  file_data t' d' g = file_data t d g.
Proof.
  intros Hr Hi Hj Hij E1 Hv. unfold file_data, file_blocks_data. do 2 f_equal.
  apply list_fmap_ext. intros k b Hb.
  assert (Hni : b ∉ f_blocks f).
  { intros Hin. eapply (used_disjoint _ _ i j f g); [apply Hr|done..| |]; right; [done|].
    by eapply list_elem_of_lookup_2. }
  specialize (Hv b Hni). unfold vblock in *. by rewrite E1.
Qed.
End disjoint_files.

Lemma put_whole (l l' c : list Z) : length l = length c → length l' = length c → put l 0 c = put l' 0 c.
Proof. intros H1 H2. unfold put. simpl. by rewrite !drop_ge by lia. Qed.

Section write.
Context {D : Type} {dev : BlockDevice D} {spec : BlockDeviceSpec D}.
Context (t : tfs_t) (d : D) (dir : directory) (i : nat) (f : file).
Hypothesis Hr : fs_rep t d dir.
Hypothesis Hf : dir !! i = Some (Some f).
Variables (bat_address addr : Z).

(** The device after the bytes [c] have been stored at [off] in the file. *)
Record stored (d' : D) (off : nat) (c : list Z) : Prop := {
  st_other : ∀ b, b ∉ f_blocks f → vblock t d' b = vblock t d b;
  st_data : file_blocks_data t d' f = put (file_blocks_data t d f) off c;
  st_geo : geometry t d'
}.

(** The driver state during the operation. *)
Record busy (tn : tfs_t) : Prop := {
  bz_start : startblock tn = startblock t;
  bz_total : totalblocks tn = totalblocks t;
  bz_lock : lock tn = 0;
  bz_inode : buffer_inode tn = vblock t d (f_inode f);
  bz_bat : is_block (buffer_bat tn)
}.

Lemma copy_from_spec tn at_ buf pos n :
  0 ≤ at_ → 0 ≤ pos → 0 ≤ n → at_ + n ≤ Z.of_nat (length (buffer_bat tn)) →
  pos + n ≤ Z.of_nat (length buf) →
  copy_from bat_address tn at_ buf addr pos n
  = Done (set_bat (put (buffer_bat tn) (Z.to_nat at_)
      (take (Z.to_nat n) (drop (Z.to_nat pos) buf))) tn).
Proof using.
  intros H1 H2 H3 H4 H5. unfold copy_from. rewrite memcopy_spec by (rewrite ?length_drop; lia).
  cbn [outcome_bind]. do 2 f_equal. rewrite <- (Z2Nat.id n) at 1 by lia.
  apply overwrite_drop; [lia|]. rewrite length_drop. lia.
Qed.

Lemma vblock_wrote d1 p data d2 b :
  wrote d1 (startblock t + p) data d2 →
  vblock t d2 b = if decide (b = p) then data else vblock t d1 b.
Proof using.
  intros [Hat Hoth _ _ _]. unfold vblock. case_decide as E; [by subst|].
  apply Hoth. lia.
Qed.

(** Storing [c2] in block [b] right after [c]. *)
Lemma stored_block d1 d2 off c b p (o : nat) c2 :
  stored d1 off c → f_blocks f !! b = Some p →
  (off + length c = 512 * b + o)%nat → (o + length c2 ≤ 512)%nat →
  (off + length c ≤ length (file_blocks_data t d f))%nat →
  wrote d1 (startblock t + p) (put (vblock t d1 p) o c2) d2 →
  stored d2 off (c ++ c2).
Proof using Hr Hf.
  intros [Hoth Hdat Hg] Hb Heq Hc2 Hlen Hw.
  destruct (inode_range _ _ _ _ _ Hr Hf) as (_ & Hall & Hnd). apply NoDup_cons in Hnd as [_ Hnd].
  assert (Hr1 : fs_rep t d1 dir) by (eapply fs_rep_data; try done; apply Hr).
  split.
  - intros q Hq. rewrite (vblock_wrote _ _ _ _ q Hw). rewrite decide_False; [auto|].
    intros ->. apply Hq. by eapply list_elem_of_lookup_2.
  - rewrite <- put_put, <- Hdat, Heq by done. unfold file_blocks_data at 1.
    assert (E : vblock t d2 <$> f_blocks f
                = <[b := put (vblock t d1 p) o c2]> (vblock t d1 <$> f_blocks f)).
    { apply list_eq. intros k. rewrite list_lookup_insert, !list_lookup_fmap, length_fmap.
      destruct (f_blocks f !! k) as [q|] eqn:Ek; simpl.
      - rewrite (vblock_wrote _ _ _ _ q Hw). pose proof (lookup_lt_Some _ _ _ Ek).
        destruct (decide (q = p)) as [->|Hne].
        + assert (k = b) as -> by (by eapply NoDup_lookup). by rewrite decide_True.
        + rewrite decide_False; [done|]. intros [<- _]. congruence.
      - rewrite decide_False; [done|]. intros [<- ?]. congruence. }
    rewrite E. apply (put_block 512 _ b (vblock t d1 p)); [|by rewrite list_lookup_fmap, Hb|done].
    apply (blocks_length t d1 dir i f Hr1 Hf).
  - eapply geometry_wrote; [exact Hw|done..].
Qed.

(** One turn of the write: fetch the block if it is only partly overwritten,
    store the bytes in it and write it back. *)
Lemma store_step {A} d1 off c b p (o n pos : Z) buf tn cond (fail : tfs_t → D → outcome A) k Q :
  stored d1 off c → busy tn → 0 ≤ b → f_blocks f !! Z.to_nat b = Some p →
  b < 127 → 0 ≤ o → 0 ≤ n → o + n ≤ 512 → 0 ≤ pos → pos + n ≤ Z.of_nat (length buf) →
  Forall is_u8 buf →
  (off + length c = 512 * Z.to_nat b + Z.to_nat o)%nat →
  (off + length c ≤ length (file_blocks_data t d f))%nat →
  cond = (n <? 512) →
  (∀ tn' d2, busy tn' → stored d2 off (c ++ take (Z.to_nat n) (drop (Z.to_nat pos) buf)) →
     returns (k tn' d2) Q) →
  returns (read_if Big cond b fail tn d1 (λ tn d1,
    let* tn := copy_from bat_address tn o buf addr pos n in
    let* blk := inode_block Big tn b in
    write_or_fail (from_big_endian32 Big blk) (buffer_bat tn) fail tn d1 (λ d1, k tn d1))) Q.
Proof using Hr Hf.
  intros Hst Hbz Hb Hp Hb127 Ho Hn Hon Hpos Hposn Hu Heq Hlen -> Hk.
  destruct (file_block t d dir i f Hr Hf b) as (p' & Hp' & Hpr & Hblk).
  { apply lookup_lt_Some in Hp. lia. }
  simplify_eq. pose proof (st_geo _ _ _ Hst) as Hg1.
  assert (Htail : ∀ tn1 d2, same_dev d1 d2 → busy tn1 →
    (buffer_bat tn1 = vblock t d1 p ∨ (o = 0 ∧ n = 512)) →
    returns (let* tn := copy_from bat_address tn1 o buf addr pos n in
      let* blk := inode_block Big tn b in
      write_or_fail (from_big_endian32 Big blk) (buffer_bat tn) fail tn d2 (λ d1, k tn d1)) Q).
  { intros tn1 d2 Hsd [B1 B2 B3 B4 [B5 B6]] Hcase.
    assert (Hg2 : geometry t d2) by (eapply geometry_same; try done; apply Hg1).
    set (c2 := take (Z.to_nat n) (drop (Z.to_nat pos) buf)).
    assert (Hc2 : length c2 = Z.to_nat n) by (unfold c2; rewrite length_take, length_drop; lia).
    assert (Hc2u : Forall is_u8 c2) by (by apply Forall_take, Forall_drop).
    rewrite copy_from_spec by lia. fold c2. cbn [outcome_bind].
    rewrite Hblk by done. cbn [outcome_bind buffer_bat set_bat].
    destruct (vblock_ok t d1 Hg1 p) as [Hvl Hvu]; [lia|].
    assert (Eput : put (buffer_bat tn1) (Z.to_nat o) c2 = put (vblock t d1 p) (Z.to_nat o) c2).
    { destruct Hcase as [->|[-> ->]]; [done|]. apply put_whole; rewrite Hc2; lia. }
    assert (Hpl : length (put (vblock t d1 p) (Z.to_nat o) c2) = 512%nat)
      by (rewrite length_put; lia).
    assert (Hpu : Forall is_u8 (put (vblock t d1 p) (Z.to_nat o) c2)).
    { unfold put. rewrite !Forall_app. eauto using Forall_take, Forall_drop. }
    rewrite Eput. eapply (write_ok t d2 Hg2); [done|simpl; lia|done|done|].
    intros d3 Hw. apply Hk; [by split|]. fold c2.
    eapply (stored_block d2 _ _ _ _ p); try done.
    - destruct Hst as [S1 S2 S3]. split; [| |done].
      + intros q Hq. unfold vblock in *. rewrite (sd_contents _ _ Hsd). auto.
      + rewrite <- S2. unfold file_blocks_data. f_equal. apply list_fmap_ext.
        intros ???. unfold vblock. by rewrite (sd_contents _ _ Hsd).
    - lia.
    - unfold vblock. by rewrite (sd_contents _ _ Hsd). }
  unfold read_if. destruct (Z.ltb_spec n 512).
  - rewrite (Hblk tn) by apply Hbz. cbn [outcome_bind].
    eapply (read_ok t d1 Hg1); [apply Hbz|simpl; lia|]. intros d2 Hsd.
    apply Htail; [done| |by left]. destruct Hbz. split; try done.
    apply (vblock_ok t d1 Hg1). simpl. lia.
  - apply Htail; [done|done|]. right. lia.
Qed.

Lemma take_extend (buf : list Z) (w n : Z) :
  0 ≤ w → 0 ≤ n →
  take (Z.to_nat w) buf ++ take (Z.to_nat n) (drop (Z.to_nat w) buf) = take (Z.to_nat (w + n)) buf.
Proof using. intros. rewrite <- take_plus. f_equal. lia. Qed.

Lemma write_loop_spec buf offset n b1 b2 wr tn d1 :
  0 ≤ offset → 0 < n → offset + n ≤ f_size f → n ≤ Z.of_nat (length buf) → Forall is_u8 buf →
  b1 = offset / 512 + 1 → b2 = (offset + n - 1) / 512 →
  wr = Z.min (512 * b1 - offset) n → busy tn →
  stored d1 (Z.to_nat offset) (take (Z.to_nat wr) buf) →
  returns (write_loop Big bat_address addr n b1 b2 buf wr tn d1)
    (λ '(r, (t2, d2)), r = n ∧ fs_rep t2 d2 dir ∧ startblock t2 = startblock t ∧
       stored d2 (Z.to_nat offset) (take (Z.to_nat n) buf)).
Proof using Hr Hf.
  intros Ho Hn Hsz Hbuf Hu Eb1 Eb2 Ew Hbz Hst.
  pose proof (file_geometry t d dir i f Hr Hf) as (_ & Hnb & Hmax & Hle & _).
  pose proof (data_length t d dir i f Hr Hf) as Hdl.
  pose proof (Z.div_mod offset 512). pose proof (Z.mod_pos_bound offset 512).
  pose proof (Z.div_mod (offset + n - 1) 512). pose proof (Z.mod_pos_bound (offset + n - 1) 512).
  assert (Hb12 : b1 ≤ b2 + 1).
  { subst b1 b2. pose proof (Z.div_le_mono offset (offset + n - 1) 512). lia. }
  unfold write_loop. apply returns_bind.
  eapply returns_mono; [apply (for_loop_inv
    (λ b '(w, tn, dd), w = Z.min (512 * b - offset) n ∧ busy tn ∧
       stored dd (Z.to_nat offset) (take (Z.to_nat w) buf)) (λ _, False))|].
  - done.
  - by split_and!.
  - intros b [[w tm] dd] Hb (Ew' & Hbz' & Hst'). assert (Hw : w = 512 * b - offset) by lia.
    destruct (file_block t d dir i f Hr Hf b) as (p & Hp & Hpr & _); [lia|].
    assert (Hlw : length (take (Z.to_nat w) buf) = Z.to_nat w) by (rewrite length_take; lia).
    destruct (Z.eqb_spec b b2) as [->|Hne].
    + eapply (store_step dd (Z.to_nat offset) _ b2 p 0 (n - w) w buf tm);
        try done; try (rewrite ?Hlw; lia).
      intros tn' d2 Hbz2 Hst2. cbn [returns]. rewrite take_extend in Hst2 by lia.
      replace (w + (n - w)) with n in Hst2 by lia. by split_and!; [lia|..].
    + eapply (store_step dd (Z.to_nat offset) _ b p 0 512 w buf tm false);
        try done; try (rewrite ?Hlw; lia).
      intros tn' d2 Hbz2 Hst2. cbn [returns]. rewrite take_extend in Hst2 by lia.
      unfold TFS_BLOCK_SIZE. split_and!; [lia|done|done].
  - intros [[[w tm] dd]|[]]; [|done]. intros (Ew' & Hbz' & Hst').
    assert (w = n) as -> by lia. cbn [returns unlock_return].
    destruct Hbz' as [B1 B2 B3 B4 B5]. split_and!; [done| |done|done].
    eapply (fs_rep_data t _ d dd); try done; [| |apply Hst'].
    + eapply geometry_same; [reflexivity|apply Hst'|done|done|simpl; lia].
    + split; simpl; [rewrite B4; by eapply inode_block_ok|done].
Qed.

(** [tfs_write] replaces exactly the bytes [offset .. offset + n - 1] of the
    file. *)
Lemma tfs_write_spec buf datasize offset n :
  0 ≤ datasize → 0 ≤ offset ≤ f_size f → n = Z.min datasize (f_size f - offset) →
  n ≤ Z.of_nat (length buf) → Forall is_u8 buf →
  returns (tfs_write Big bat_address (f_inode f) addr buf datasize offset t d)
    (λ '(r, (t', d')), r = n ∧ fs_rep t' d' dir ∧ startblock t' = startblock t ∧
       stored d' (Z.to_nat offset) (take (Z.to_nat n) buf)).
Proof using Hr Hf.
  intros Hds Hoff En Hbuf Hu. pose proof (r_geo _ _ _ Hr) as Hg.
  pose proof (file_geometry t d dir i f Hr Hf) as (_ & Hnb & Hmax & Hle & Hsz).
  pose proof (data_length t d dir i f Hr Hf) as Hdl.
  destruct (inode_range _ _ _ _ _ Hr Hf) as (Hir & _).
  pose proof (inode_block_ok t d dir i f Hr Hf) as Hib.
  unfold tfs_write. rewrite (lock_P_ok t d Hg). cbn [outcome_bind].
  rewrite (fileid_ok t d dir i f Hr Hf).
  eapply (read_ok t d Hg); [done|lia|]. intros d1 Hsd1.
  cbn [buffer_inode set_inode]. rewrite (filesize_load t d dir i f Hr Hf). cbn [outcome_bind].
  change (from_big_endian32 Big (f_size f)) with (f_size f).
  rewrite s32_id by (unfold is_s32; lia).
  destruct (Z.ltb_spec offset 0), (Z.ltb_spec (f_size f) offset); try lia. cbn [orb].
  assert (Hv1 : ∀ b, vblock t d1 b = vblock t d b)
    by (intros; unfold vblock; by rewrite (sd_contents _ _ Hsd1)).
  assert (Hst0 : stored d1 (Z.to_nat offset) []).
  { split; [done| |eapply geometry_same; try done; apply Hg].
    rewrite put_nil. unfold file_blocks_data. f_equal. apply list_fmap_ext. intros ???. apply Hv1. }
  rewrite MIN_spec, <- En. destruct (Z.eqb_spec n 0) as [->|Hn0].
  { cbn [returns unlock_return]. split_and!; [done| |done|done].
    eapply fs_rep_same; try done. split; [done|apply (r_bufs _ _ _ Hr)]. }
  unfold TFS_BLOCK_SIZE. rewrite !Z.quot_div_nonneg, !Z.rem_mod_nonneg by lia.
  pose proof (Z.div_mod offset 512). pose proof (Z.mod_pos_bound offset 512).
  destruct (file_block t d dir i f Hr Hf (offset / 512)) as (p & Hp & Hpr & _).
  { split; [apply Z.div_pos; lia|]. apply Z.div_lt_upper_bound; lia. }
  rewrite MIN_spec. set (wr := Z.min (512 - offset mod 512) n).
  eapply (store_step d1 (Z.to_nat offset) [] (offset / 512) p (offset mod 512) wr 0 buf);
    try done; try lia.
  - split; try done. apply (r_bufs _ _ _ Hr).
  - simpl. lia.
  - simpl. lia.
  - intros tn' d2 Hbz Hst. cbn [app] in Hst.
    eapply returns_mono; [apply (write_loop_spec buf offset n _ _ wr); try done; lia|].
    intros [r [t2 d3]]. naive_solver.
Qed.
End write.
