(* ===== verification/TfsAlloc.v ===== *)
(** * The allocation and directory blocks of a TFS volume, and [tfs_remove]

    The allocation block as a set of block numbers, the directory block under
    updates of one slot, and [tfs_remove]: removing a file frees exactly its
    slot and its blocks. *)

From S2P Require Import Prelude Bitmap Libc BlockDev Tfs TfsSpec TfsRead TfsIO.

(** ** The allocation block as a set of blocks *)
Record bat_rep (total : Z) (bat : list Z) (l : list Z) : Prop := {
  ba_block : is_block bat;
  ba_nodup : NoDup l;
  ba_range : Forall (λ p, 0 ≤ p < total) l;
  ba_bits : ∀ p, 0 ≤ p < total → bit (block_words Big bat) p = bool_decide (p ∈ l)
}.

(** The order of the blocks does not matter. *)
#[export] Instance bat_rep_perm total bat : Proper ((≡ₚ) ==> iff) (bat_rep total bat).
Proof.
  assert (H : ∀ l l', l ≡ₚ l' → bat_rep total bat l → bat_rep total bat l').
  { intros l l' Hp [H1 H2 H3 H4]. split; [done|by rewrite <- Hp|by rewrite <- Hp|].
    intros p Hpr. rewrite H4 by done. apply bool_decide_ext. by rewrite Hp. }
  intros l l' Hp. split; apply H; [done|by symmetry].
Qed.

Lemma block_bytes_block ws : length ws = 128%nat → is_block (block_bytes Big ws).
Proof. intros Hl. split; [rewrite length_block_bytes; lia|apply block_bytes_u8]. Qed.

Lemma block_words_of_bytes ws :
  length ws = 128%nat → Forall is_u32 ws → block_words Big (block_bytes Big ws) = ws.
Proof. intros Hl Hu. unfold block_words. rewrite <- Hl. by apply block_words_bytes. Qed.

(** A bitmap search on the allocation block, whoever makes it. *)
Lemma findnset_alloc total bat l b ws :
  bat_rep total bat l → 0 ≤ total ≤ 4096 → findnset_post (block_words Big bat) total (b, ws) →
  (b = -1 ∧ Z.of_nat (length l) = total ∧ block_bytes Big ws = bat) ∨
  (0 ≤ b < total ∧ b ∉ l ∧ bat_rep total (block_bytes Big ws) (l ++ [b])).
Proof.
  intros [[Hl Hu] Hnd Hrg Hbits] Htot
    [(-> & -> & Hfull)|(Hb & Hclear & _ & Hlen & Hwu & Hbit)]; [left|right].
  - split_and!; [done| |by apply (block_bytes_words Big 128)].
    pose proof (count_below_elem l (Z.to_nat total) Hnd) as Hc.
    rewrite Z2Nat.id in Hc by lia. rewrite <- (Hc Hrg).
    rewrite (count_below_ext _ (λ _, true)).
    + assert (H : ∀ n, count_below (λ _, true) n = Z.of_nat n)
        by (intros n; induction n as [|n IH]; cbn [count_below]; lia).
      rewrite H. lia.
    + intros p Hp. rewrite <- Hbits by lia. apply Hfull. lia.
  - assert (Hbl : b ∉ l) by (rewrite Hbits in Hclear by lia; by apply bool_decide_eq_false in Hclear).
    unfold block_words in Hlen. rewrite length_words_of in Hlen.
    split_and!; [lia|lia|done|]. split.
    + by apply block_bytes_block.
    + apply NoDup_app. split_and!; [done| |apply NoDup_singleton].
      intros x Hx ->%list_elem_of_singleton. done.
    + apply Forall_app. split; [done|]. constructor; [lia|constructor].
    + intros p Hp. rewrite block_words_of_bytes, Hbit by (done || lia).
      rewrite Hbits by done. case_bool_decide as E; symmetry.
      * apply bool_decide_eq_true. rewrite elem_of_app, list_elem_of_singleton. by right.
      * apply bool_decide_ext. rewrite elem_of_app, list_elem_of_singleton. naive_solver.
Qed.

(** Allocating one block. *)
Lemma alloc_one total bat l :
  bat_rep total bat l → 0 ≤ total ≤ 4096 →
  returns (bitmap_findnset (block_words Big bat) total) (λ '(b, ws),
    (b = -1 ∧ Z.of_nat (length l) = total ∧ block_bytes Big ws = bat) ∨
    (0 ≤ b < total ∧ b ∉ l ∧ bat_rep total (block_bytes Big ws) (l ++ [b]))).
Proof.
  intros Hbat Htot. pose proof (ba_block _ _ _ Hbat) as [Hl Hu].
  eapply returns_mono; [apply findnset_returns; by apply block_bitmap_ok|].
  intros [b ws]. by apply findnset_alloc.
Qed.

(** There are no more blocks in use than blocks. *)
Lemma bat_rep_length total bat l : bat_rep total bat l → 0 ≤ total → Z.of_nat (length l) ≤ total.
Proof.
  intros [_ Hnd Hrg _] Ht. pose proof (count_below_elem l (Z.to_nat total) Hnd) as Hc.
  rewrite Z2Nat.id in Hc by lia. rewrite <- (Hc Hrg).
  pose proof (count_below_range (λ p, bool_decide (p ∈ l)) (Z.to_nat total)). lia.
Qed.

(** Freeing one block. *)
Lemma free_one total bat p l :
  bat_rep total bat (p :: l) → 0 ≤ total ≤ 4096 →
  ∃ ws, bitmap_set (block_words Big bat) p 0 = Done ws ∧ bat_rep total (block_bytes Big ws) l.
Proof.
  intros [[Hl Hu] Hnd Hrg Hbits] Htot. apply Forall_cons in Hrg as [Hp Hrg].
  apply NoDup_cons in Hnd as [Hni Hnd].
  pose proof (block_bitmap_ok Big bat total Hl Hu Htot) as Hok.
  destruct (bitmap_set_spec _ _ Hok p 0) as (ws & E & Hlen & Hwu & Hbit).
  { unfold block_words. rewrite length_words_of. lia. }
  { by left. }
  unfold block_words in Hlen. rewrite length_words_of in Hlen.
  exists ws. split; [done|]. split; [by apply block_bytes_block|done|done|].
  intros q Hq. rewrite block_words_of_bytes, Hbit, Hbits by (done || lia).
  case_bool_decide as Eq; simpl.
  - subst. symmetry. by apply bool_decide_eq_false.
  - apply bool_decide_ext. rewrite elem_of_cons. naive_solver.
Qed.

(** ** Directory blocks under updates *)
Lemma cstr_ext (mem mem' s : list Z) :
  cstr mem s → (∀ k, (k ≤ length s)%nat → mem' !! k = mem !! k) → cstr mem' s.
Proof.
  intros [Hs [rest ->]] Hk. split; [done|].
  exists (drop (S (length s)) mem').
  rewrite <- (take_drop (S (length s)) mem') at 1.
  assert (E : take (S (length s)) mem' = s ++ [0]); [|by rewrite E, <- (assoc_L (++))].
  apply list_eq. intros k. destruct (decide (k < S (length s))%nat) as [H|H].
  - rewrite lookup_take_lt, Hk by lia.
    rewrite (cons_middle 0), (assoc_L (++)), lookup_app_l; [done|].
    rewrite length_app. simpl. lia.
  - rewrite lookup_take_ge by lia. symmetry. apply lookup_ge_None_2.
    rewrite length_app. simpl. lia.
Qed.

Lemma load32_ext en (a b : list Z) off :
  length a = length b → 0 ≤ off →
  (∀ k, (Z.to_nat off ≤ k < Z.to_nat off + 4)%nat → a !! k = b !! k) →
  load32 en a off = load32 en b off.
Proof.
  intros Hl H0 Hk. unfold load32. rewrite Hl.
  destruct ((0 <=? off) && (off + 4 <=? Z.of_nat (length b))); [|done].
  do 2 f_equal. by apply slice_ext.
Qed.

(** A slot is unaffected by changes outside its 20 bytes. *)
Lemma slot_rep_ext md md' j o :
  slot_rep md j o → length md' = length md →
  (∀ f, o = Some f → (length (f_name f) ≤ 15)%nat) →
  (∀ k, (20 * j ≤ k < 20 * j + 20)%nat → md' !! k = md !! k) → slot_rep md' j o.
Proof.
  intros Hs Hl Hn Hk. unfold slot_rep, inode_off, entry_name, name_off, sizeof_direntry in *.
  assert (Hld : load32 Big md' (20 * Z.of_nat j) = load32 Big md (20 * Z.of_nat j)).
  { apply load32_ext; [done|lia|]. intros k Hkk. apply Hk. lia. }
  assert (Hc : ∀ s, (length s ≤ 15)%nat → cstr (drop (Z.to_nat (20 * Z.of_nat j + 4)) md) s →
    cstr (drop (Z.to_nat (20 * Z.of_nat j + 4)) md') s).
  { intros s Hs15 Hc. eapply cstr_ext; [exact Hc|]. intros k Hkk. rewrite !lookup_drop.
    apply Hk. lia. }
  destruct o as [f|]; destruct Hs as [H1 H2]; rewrite Hld; (split; [done|]); apply Hc; eauto.
  simpl. lia.
Qed.

(** ** Used blocks of a changed directory *)
Lemma used_split dir i o :
  dir !! i = Some o → ∃ rest, used dir ≡ₚ slot_used o ++ rest ∧
    ∀ o', used (<[i:=o']> dir) ≡ₚ slot_used o' ++ rest.
Proof.
  intros Hi. destruct (concat_split (slot_used <$> dir) i (slot_used o)) as (rest & Hp & Hins & _).
  { by rewrite list_lookup_fmap, Hi. }
  exists ([0; 1; 2] ++ rest). unfold used. split.
  - rewrite Hp. solve_Permutation.
  - intros o'. rewrite list_fmap_insert, Hins. solve_Permutation.
Qed.

(** ** Removing a file *)
Section remove.
Context {D : Type} {dev : BlockDevice D} {spec : BlockDeviceSpec D}.

Lemma inode_block_load tn (f : file) j :
  is_block (buffer_inode tn) → inode_rep (buffer_inode tn) f → 0 ≤ j < 127 →
  inode_block Big tn j = Done (default 0 (f_blocks f !! Z.to_nat j)).
Proof.
  intros [Hl _] [_ Hb] Hj. unfold inode_block. rewrite load32_app_l by lia. by apply Hb.
Qed.

Lemma inode_block_any tn j :
  is_block (buffer_inode tn) → is_block (buffer_bat tn) → 0 ≤ j ≤ 127 →
  ∃ v, inode_block Big tn j = Done v.
Proof.
  intros [Hl _] [Hl2 _] Hj. unfold inode_block. rewrite load32_in_range by (rewrite ?length_app; lia).
  eauto.
Qed.

(** The loop frees the blocks of the inode and stops at the end of the list. *)
Lemma remove_free_spec total tn (f : file) rest :
  3 ≤ total ≤ 4096 → is_block (buffer_inode tn) → inode_rep (buffer_inode tn) f →
  (length (f_blocks f) ≤ 127)%nat → Forall (λ b, 3 ≤ b < total) (f_blocks f) →
  bat_rep total (buffer_bat tn) (f_blocks f ++ rest) →
  returns (remove_free Big tn) (λ t', ∃ bat', t' = set_bat bat' tn ∧ bat_rep total bat' rest).
Proof.
  intros Htot Hib Hir Hlen Hall Hbat. unfold remove_free. apply returns_bind.
  eapply (while_loop_inv (λ '(j, t'), 0 ≤ j ≤ Z.of_nat (length (f_blocks f)) ∧
      ∃ bat', t' = set_bat bat' tn ∧ bat_rep total bat' (drop (Z.to_nat j) (f_blocks f) ++ rest))
    (λ '(j, _), (length (f_blocks f) - Z.to_nat j)%nat)).
  - split; [lia|]. exists (buffer_bat tn). split; [by destruct tn|done].
  - change (Z.to_nat TFS_BLOCKS_MAX) with 127%nat. lia.
  - intros [j t'] (Hj & bat' & -> & Hb).
    destruct (decide (j = Z.of_nat (length (f_blocks f)))) as [->|Hne].
    + rewrite Nat2Z.id, drop_all in Hb.
      destruct (inode_block_any (set_bat bat' tn) (Z.of_nat (length (f_blocks f))))
        as [v Hv]; [done|apply Hb|lia|]. rewrite Hv. cbn [outcome_bind].
      assert (Hstop : negb (from_big_endian32 Big v =? 0)
        && (Z.of_nat (length (f_blocks f)) <? TFS_BLOCK_SIZE / 4 - 1) = false).
      { change (TFS_BLOCK_SIZE / 4 - 1) with 127.
        destruct (Z.ltb_spec (Z.of_nat (length (f_blocks f))) 127); [|by rewrite andb_false_r].
        rewrite (inode_block_load _ f) in Hv by (done || lia).
        rewrite lookup_ge_None_2 in Hv by lia. by injection Hv as <-. }
      rewrite Hstop. simpl. eauto.
    + destruct (lookup_lt_is_Some_2 (f_blocks f) (Z.to_nat j)) as [p Hp]; [lia|].
      rewrite Forall_lookup in Hall. pose proof (Hall _ _ Hp).
      rewrite (inode_block_load _ f) by (done || lia). rewrite Hp.
      cbn [default from_option id outcome_bind].
      change (from_big_endian32 Big p) with p. change (TFS_BLOCK_SIZE / 4 - 1) with 127.
      destruct (Z.eqb_spec p 0); [lia|]. destruct (Z.ltb_spec j 127); [|lia]. cbn [negb andb].
      rewrite (drop_S _ _ _ Hp) in Hb. rewrite s32_id by (unfold is_s32; lia).
      destruct (free_one total bat' p (drop (S (Z.to_nat j)) (f_blocks f) ++ rest) Hb)
        as (ws & E & Hb'); [lia|].
      cbn [buffer_bat set_bat]. rewrite E. cbn [outcome_bind returns].
      split; [|lia]. split; [lia|]. exists (block_bytes Big ws). split; [done|].
      by replace (Z.to_nat (j + 1)) with (S (Z.to_nat j)) by lia.
Qed.

(** Changing one slot of the directory block. *)
Lemma md_rep_update md md' dir i o :
  md_rep md dir → (i < length dir)%nat → is_block md' → slot_rep md' i o →
  (∀ f, o = Some f → file_ok f) →
  (∀ k, (k < 20 * i ∨ 20 * i + 20 ≤ k)%nat → md' !! k = md !! k) → md_rep md' (<[i:=o]> dir).
Proof.
  intros ([Hl Hu] & Hdl & Hfo & Hs) Hi Hb Ho Hf Hoth. split_and!; [apply Hb..|by rewrite length_insert| |].
  - intros j f. rewrite list_lookup_insert. case_decide; [naive_solver|apply Hfo].
  - intros j s. rewrite list_lookup_insert. case_decide as E; [naive_solver|].
    intros Hj. assert (i ≠ j).
    { intros ->. apply E. split; [done|]. by eapply lookup_lt_Some. }
    eapply slot_rep_ext; [by apply Hs|destruct Hb; lia| |].
    + intros f ->. apply (fo_name _ (Hfo _ _ Hj)).
    + intros k Hk. apply Hoth. lia.
Qed.

(** The directory block after slot [i] has been cleared. *)
Lemma clear_slot md dir i :
  md_rep md dir → (i < length dir)%nat →
  ∃ md', (let* m := store32 Big md (inode_off (Z.of_nat i)) 0 in
          awrite m (name_off (Z.of_nat i)) 0) = Done md' ∧
    md_rep md' (<[i:=None]> dir).
Proof.
  intros Hmd Hi. pose proof Hmd as ([Hl Hu] & Hdl & _ & _).
  assert (Hi25 : (i < 25)%nat) by (change TFS_MAX_FILES with 25 in Hdl; lia).
  unfold inode_off, name_off, sizeof_direntry in *.
  destruct (store32 Big md (20 * Z.of_nat i) 0) as [m| | | |] eqn:Est;
    try (rewrite store32_in_range in Est by lia; done).
  pose proof (store32_length _ _ _ _ _ Est) as Hml. cbn [outcome_bind].
  rewrite awrite_in_range by lia. eexists. split; [done|]. apply (md_rep_update md); [done|done|..].
  - split; [rewrite length_insert; lia|].
    apply Forall_insert; [by eapply store32_u8|]. unfold is_u8. lia.
  - unfold slot_rep, inode_off, entry_name, name_off, sizeof_direntry. split.
    + rewrite (load32_ext Big _ m); [|by rewrite length_insert|lia|].
      { eapply load_store32_same; [|exact Est]. unfold is_u32. lia. }
      intros k Hk. by rewrite list_lookup_insert_ne by lia.
    + split; [apply not_elem_of_nil|]. eexists. apply drop_S.
      apply list_lookup_insert_eq. lia.
  - done.
  - intros k Hk. rewrite list_lookup_insert_ne by lia. eapply store32_lookup_other; [exact Est|lia].
Qed.

(** Rebuilding the representation from its parts. *)
Lemma fs_rep_intro t d dir :
  geometry t d → bufs_ok t → md_rep (vblock t d TFS_DIRECTORY_BLOCK) dir →
  (∀ i j f g, dir !! i = Some (Some f) → dir !! j = Some (Some g) →
     f_name f = f_name g → i = j) →
  (∀ i f, dir !! i = Some (Some f) → inode_rep (vblock t d (f_inode f)) f) →
  bat_rep (totalblocks t) (vblock t d TFS_ALLOCATION_BLOCK) (used dir) →
  fs_rep t d dir.
Proof.
  intros Hg Hb (_ & Hl & Hf & Hs) Hn Hi [_ Hnd Hrg Hbit].
  split; [done|done|by split|done|done|done].
Qed.

Lemma fs_rep_bat t d dir :
  fs_rep t d dir → bat_rep (totalblocks t) (vblock t d TFS_ALLOCATION_BLOCK) (used dir).
Proof.
  intros Hr. pose proof (r_geo _ _ _ Hr) as Hg. pose proof (g_total _ _ Hg).
  destruct (r_dir _ _ _ Hr) as [_ _ _ Hu Hnd]. split; [|done|done|apply Hr].
  apply (vblock_ok t d Hg). unfold TFS_ALLOCATION_BLOCK. lia.
Qed.

Lemma vblock_same t d d' b : same_dev d d' → vblock t d' b = vblock t d b.
Proof. intros Hs. unfold vblock. by rewrite (sd_contents _ _ Hs). Qed.

(** Writing the allocation block and then the directory block. *)
Lemma write_bat_md {A} t d (Hg : geometry t d) tn md' bat' (fail : tfs_t → D → outcome A) k Q :
  startblock tn = startblock t → is_block bat' → is_block md' →
  (∀ d', geometry t d' →
     (∀ b, vblock t d' b = if decide (b = TFS_DIRECTORY_BLOCK) then md'
        else if decide (b = TFS_ALLOCATION_BLOCK) then bat' else vblock t d b) →
     returns (k d') Q) →
  returns (write_or_fail TFS_ALLOCATION_BLOCK bat' fail tn d (λ d,
    write_or_fail TFS_DIRECTORY_BLOCK md' fail tn d k)) Q.
Proof.
  intros Es [Hb1 Hb2] [Hm1 Hm2] Hk. pose proof (g_total _ _ Hg).
  eapply (write_ok t d Hg); [done|unfold TFS_ALLOCATION_BLOCK; lia|done|done|].
  intros d4 Hw4. assert (Hg4 : geometry t d4) by (by eapply geometry_wrote).
  eapply (write_ok t d4 Hg4); [done|unfold TFS_DIRECTORY_BLOCK; lia|done|done|].
  intros d5 Hw5. apply Hk; [by eapply geometry_wrote|].
  intros b. rewrite (vblock_wrote t _ _ _ _ b Hw5). case_decide; [done|].
  by rewrite (vblock_wrote t _ _ _ _ b Hw4).
Qed.

Lemma system_blocks_only t (d d' : D) md' bat' b :
  (∀ b, vblock t d' b = if decide (b = TFS_DIRECTORY_BLOCK) then md'
     else if decide (b = TFS_ALLOCATION_BLOCK) then bat' else vblock t d b) →
  3 ≤ b → vblock t d' b = vblock t d b.
Proof.
  intros Hv Hb. rewrite Hv. unfold TFS_DIRECTORY_BLOCK, TFS_ALLOCATION_BLOCK.
  by rewrite !decide_False by lia.
Qed.

(** The volume after the removal. *)
Lemma removed_rep t t' d d' dir i f md' bat' rest :
  fs_rep t d dir → dir !! i = Some (Some f) →
  geometry t' d' → bufs_ok t' → startblock t' = startblock t → totalblocks t' = totalblocks t →
  md_rep md' (<[i:=None]> dir) → bat_rep (totalblocks t) bat' rest →
  (∀ o', used (<[i:=o']> dir) ≡ₚ slot_used o' ++ rest) →
  (∀ b, vblock t d' b = if decide (b = TFS_DIRECTORY_BLOCK) then md'
     else if decide (b = TFS_ALLOCATION_BLOCK) then bat' else vblock t d b) →
  fs_rep t' d' (<[i:=None]> dir).
Proof.
  intros Hr Hi Hg Hb E1 E2 Hmd Hbat Hins Hv.
  assert (Hv' : ∀ b, vblock t' d' b = vblock t d' b) by (intros; unfold vblock; by rewrite E1).
  apply fs_rep_intro; [done|done|..].
  - by rewrite Hv', Hv, decide_True.
  - intros j k g h. rewrite !list_lookup_insert. repeat case_decide; try done.
    apply (do_names _ _ (r_dir _ _ _ Hr)).
  - intros j g. rewrite list_lookup_insert. case_decide; [done|]. intros Hj.
    destruct (inode_range _ _ _ _ _ Hr Hj) as ([? _] & _).
    rewrite Hv', (system_blocks_only t d d' md' bat') by done. by eapply (r_inodes _ _ _ Hr).
  - rewrite E2, Hv', Hv, decide_False, decide_True, Hins by done. exact Hbat.
Qed.

(** [tfs_remove] frees the slot and the blocks of the named file, and nothing
    else; it reports [VFS_NOT_FOUND] if there is no such file. *)
Lemma tfs_remove_spec t d dir fname n :
  fs_rep t d dir → cstr fname n → n ≠ [] → Forall is_u8 n →
  returns (tfs_remove Big fname t d) (λ '(r, (t', d')),
    startblock t' = startblock t ∧ (∀ b, 3 ≤ b → vblock t d' b = vblock t d b) ∧
    match dir_lookup dir n with
    | Some (i, _) => r = VFS_OK ∧ fs_rep t' d' (<[i:=None]> dir)
    | None => r = VFS_NOT_FOUND ∧ fs_rep t' d' dir
    end).
Proof.
  intros Hr Hc Hne Hu. pose proof (r_geo _ _ _ Hr) as Hg. pose proof (g_total _ _ Hg) as Htot.
  unfold TFS_BLOCK_SIZE in Htot.
  pose proof (fs_rep_md _ _ _ Hr) as Hmd. pose proof (fs_rep_bat _ _ _ Hr) as Hbat.
  unfold tfs_remove. rewrite (lock_P_ok t d Hg). cbn [outcome_bind].
  eapply (read_ok t d Hg); [done|unfold TFS_DIRECTORY_BLOCK; lia|]. intros d1 Hs1.
  set (md := vblock t d TFS_DIRECTORY_BLOCK) in *.
  apply returns_bind. eapply returns_mono; [by eapply (find_entry_spec _ dir)|]. intros r ->.
  destruct (dir_lookup dir n) as [[i o]|] eqn:El; cbn [fmap option_fmap option_map].
  2: { cbn [returns unlock_return]. split_and!; [done| |done|].
       - intros b _. by apply vblock_same.
       - eapply fs_rep_same; try done. apply Hr. }
  destruct (dir_lookup_Some _ _ _ _ El Hne) as (f & -> & Hi & Hfn). clear El Hfn.
  destruct (inode_range _ _ _ _ _ Hr Hi) as (Hir & Hall & _).
  assert (Hg1 : geometry (set_lock 1 t) d1) by (by eapply geometry_same).
  eapply (read_ok (set_lock 1 t) d1 Hg1); [done|unfold TFS_ALLOCATION_BLOCK; simpl; lia|].
  intros d2 Hs2. assert (Hs12 : same_dev d d2) by (by etrans).
  replace (vblock (set_lock 1 t) d1 TFS_ALLOCATION_BLOCK) with (vblock t d TFS_ALLOCATION_BLOCK)
    by (symmetry; apply (vblock_same t d d1 _ Hs1)).
  cbn [buffer_md set_md set_bat].
  pose proof (proj1 (proj2 (proj2 (proj2 Hmd)) i (Some f) Hi)) as Hld. rewrite Hld.
  cbn [outcome_bind]. change (from_big_endian32 Big (f_inode f)) with (f_inode f).
  assert (Hg2 : geometry (set_lock 1 t) d2) by (by eapply (geometry_same t _ d)).
  eapply (read_ok (set_lock 1 t) d2 Hg2); [done|simpl; lia|]. intros d3 Hs3.
  assert (Hs13 : same_dev d d3) by (by etrans).
  replace (vblock (set_lock 1 t) d2 (f_inode f)) with (vblock t d (f_inode f))
    by (symmetry; apply (vblock_same t d d2 _ Hs12)).
  destruct (used_split dir i (Some f) Hi) as (rest & Hp & Hins).
  rewrite Hp in Hbat. rewrite s32_id by (unfold is_s32; lia).
  destruct (free_one _ _ (f_inode f) (f_blocks f ++ rest) Hbat) as (ws & Ews & Hb1); [lia|].
  cbn [buffer_bat set_inode set_bat]. rewrite Ews. cbn [outcome_bind].
  pose proof (do_files _ _ (r_dir _ _ _ Hr) _ _ Hi) as [_ _ Hfb Hfm].
  apply returns_bind. eapply returns_mono.
  { apply (remove_free_spec (totalblocks t) _ f rest);
      [lia|by eapply inode_block_ok|by apply (r_inodes _ _ _ Hr _ _ Hi)|lia|done|exact Hb1]. }
  intros tn (bat' & -> & Hb2).
  destruct (clear_slot md dir i Hmd) as (md' & Emd & Hmd'); [by eapply lookup_lt_Some|].
  cbn [buffer_md set_bat set_inode]. apply bind_Done_inv in Emd as (m & Em1 & Em2).
  change (buffer_md (set_md md (set_lock 0 t))) with md. rewrite Em1. cbn [outcome_bind]. rewrite Em2.
  cbn [outcome_bind buffer_bat set_md set_bat buffer_md].
  assert (Hg3 : geometry (set_lock 1 t) d3) by (by eapply (geometry_same t _ d)).
  eapply (write_bat_md (set_lock 1 t) d3 Hg3); [done|apply Hb2|apply Hmd'|].
  intros d5 Hg5 Hv. cbn [returns unlock_return].
  assert (Hv' : ∀ b, vblock t d5 b = if decide (b = TFS_DIRECTORY_BLOCK) then md'
    else if decide (b = TFS_ALLOCATION_BLOCK) then bat' else vblock t d b).
  { intros b. etrans; [apply Hv|]. by rewrite <- (vblock_same t d d3 b Hs13). }
  split_and!; [done|by intros b Hb; apply (system_blocks_only t d d5 md' bat')|done|].
  apply (removed_rep t _ d d5 dir i f md' bat' rest); [done|done| | |done..].
  - eapply (geometry_same (set_lock 1 t) _ d5); done.
  - split; [by eapply inode_block_ok|apply Hb2].
Qed.
End remove.
