(* ===== verification/TfsCreate.v ===== *)
(** * [tfs_create]

    Creating a file takes a free slot and fresh blocks, which it zeroes; when
    the name exists, the directory is full, the file is too large or the blocks
    do not suffice, it fails and leaves the volume as it was. *)

From S2P Require Import Prelude Bitmap Libc BlockDev Tfs TfsSpec TfsRead TfsIO TfsAlloc.

(** When [tfs_create] succeeds. *)
Record can_create (total : Z) (dir : directory) (n : list Z) (size : Z) : Prop := {
  cc_size : blocks_for size ≤ 127;
  cc_new : dir_lookup dir n = None;
  cc_slot : None ∈ dir;
  cc_space : Z.of_nat (length (used dir)) + 1 + blocks_for size ≤ total
}.

Section create.
Context {D : Type} {dev : BlockDevice D} {spec : BlockDeviceSpec D}.

(** ** The directory scan *)
Lemma create_scan_spec t d dir fname n :
  fs_rep t d dir → cstr fname n → n ≠ [] → Forall is_u8 n →
  returns (create_scan Big (vblock t d TFS_DIRECTORY_BLOCK) fname) (λ r,
    match r with
    | None => dir_lookup dir n ≠ None
    | Some idx => dir_lookup dir n = None ∧
        ((idx = -1 ∧ None ∉ dir) ∨ (0 ≤ idx ∧ dir !! Z.to_nat idx = Some None))
    end).
Proof.
  intros Hr Hn Hne Hu. pose proof (fs_rep_md _ _ _ Hr) as Hmd.
  pose proof (do_len _ _ (r_dir _ _ _ Hr)) as Hlen. change TFS_MAX_FILES with 25 in Hlen.
  unfold create_scan. apply returns_bind.
  eapply returns_mono; [apply (for_loop_inv
    (λ i idx, (∀ j o, (j < Z.to_nat i)%nat → dir !! j = Some o → slot_name o ≠ n) ∧
      ((idx = -1 ∧ ∀ j o, (j < Z.to_nat i)%nat → dir !! j = Some o → o ≠ None) ∨
       (0 ≤ idx ∧ dir !! Z.to_nat idx = Some None)))
    (λ _, ∃ i o, dir !! i = Some o ∧ slot_name o = n))|].
  - done.
  - split; [lia|]. left. split; [done|lia].
  - intros i idx Hi [Hnm Hix].
    destruct (slot_string _ dir i Hmd Hi) as (o & Ho & _ & Hc & Hou).
    destruct (slot_inode _ _ _ i Hr Hi) as (o' & w & Ho' & Hw & _ & Hz & _). simplify_eq.
    apply returns_bind. eapply returns_mono; [by eapply (stringcmp_eq _ _ _ _ Hc Hn)|].
    intros r Hrr. destruct (Z.eqb_spec r 0) as [E|E]; [cbn [returns]; naive_solver|].
    rewrite Hw. cbn [outcome_bind]. change (from_big_endian32 Big w) with w. rewrite Hz.
    assert (Hnm' : ∀ j o', (j < Z.to_nat (i + 1))%nat → dir !! j = Some o' → slot_name o' ≠ n).
    { intros j o' Hj Hj'. destruct (decide (j = Z.to_nat i)) as [->|].
      - simplify_eq. by rewrite <- Hrr.
      - eapply Hnm; [|done]. lia. }
    destruct o as [f|]; cbn [returns]; (split; [done|]).
    + destruct Hix as [[-> Hfull]|?]; [left|by right]. split; [done|].
      intros j o' Hj Hj'. destruct (decide (j = Z.to_nat i)) as [->|]; [by simplify_eq|].
      eapply Hfull; [|done]. lia.
    + right. split; [lia|done].
  - intros [idx|[]]; simpl.
    + intros [Hnm Hix]. change TFS_MAX_FILES with 25 in *. split.
      * apply list_find_None, Forall_lookup. intros j o Hj. eapply Hnm; [|done].
        apply lookup_lt_Some in Hj. lia.
      * destruct Hix as [[-> Hfull]|?]; [left|by right]. split; [done|].
        intros (j & Hj)%list_elem_of_lookup. eapply Hfull; [|done|done].
        apply lookup_lt_Some in Hj. lia.
    + intros (i & o & Hi & Ho) Hnone. apply list_find_None in Hnone.
      rewrite Forall_lookup in Hnone. by eapply Hnone.
Qed.

(** ** Filling a slot of the directory block *)
Lemma set_slot md dir i fname (f : file) :
  md_rep md dir → (i < length dir)%nat → file_ok f → is_u32 (f_inode f) →
  cstr fname (f_name f) →
  ∃ name md', stringcopy (entry_name md (Z.of_nat i)) fname TFS_FILENAME_MAX = Done name ∧
    store32 Big (take (Z.to_nat (name_off (Z.of_nat i))) md ++ name)
      (inode_off (Z.of_nat i)) (f_inode f) = Done md' ∧
    md_rep md' (<[i := Some f]> dir).
Proof.
  intros Hmd Hi Hf Hino Hc. pose proof Hmd as ([Hl Hu] & Hdl & _ & _).
  assert (Hi25 : (i < 25)%nat) by (change TFS_MAX_FILES with 25 in Hdl; lia).
  pose proof (fo_name _ Hf) as (_ & Hn15 & Hnu & Hn0).
  unfold entry_name, inode_off, name_off, sizeof_direntry, TFS_FILENAME_MAX.
  set (o := Z.to_nat (20 * Z.of_nat i + 4)). assert (Ho : o = (20 * i + 4)%nat) by lia.
  rewrite (stringcopy_spec _ _ _ _ Hc) by (rewrite length_drop; lia).
  set (nm := f_name f) in *.
  assert (Enm : stringcopy_result (drop o md) nm 16 = nm ++ 0 :: drop (o + length nm + 1) md).
  { unfold stringcopy_result. rewrite take_ge by lia. rewrite drop_drop.
    by replace (o + (length nm + 1))%nat with (o + length nm + 1)%nat by lia. }
  rewrite Enm. set (md1 := take o md ++ nm ++ 0 :: drop (o + length nm + 1) md).
  assert (Hl1 : length md1 = 512%nat).
  { unfold md1. rewrite !length_app. cbn [length]. rewrite length_take, length_drop. lia. }
  assert (Hu1 : Forall is_u8 md1).
  { unfold md1. rewrite !Forall_app, Forall_cons. split_and!; auto using Forall_take, Forall_drop.
    unfold is_u8. lia. }
  assert (Hdrop : drop o md1 = nm ++ 0 :: drop (o + length nm + 1) md).
  { unfold md1. apply drop_app_length'. rewrite length_take. lia. }
  assert (Hout : ∀ k, (k < 20 * i + 4 ∨ 20 * i + 20 ≤ k)%nat → md1 !! k = md !! k).
  { intros k Hk. unfold md1. destruct (decide (k < o)%nat).
    - rewrite lookup_app_l by (rewrite length_take; lia). by rewrite lookup_take_lt.
    - rewrite lookup_app_r by (rewrite length_take; lia). rewrite length_take, Nat.min_l by lia.
      rewrite lookup_app_r by lia.
      rewrite lookup_cons_ne_0, lookup_drop by lia. f_equal. lia. }
  destruct (store32 Big md1 (20 * Z.of_nat i) (f_inode f)) as [md'| | | |] eqn:Est;
    try (rewrite store32_in_range in Est by lia; done).
  exists (nm ++ 0 :: drop (o + length nm + 1) md), md'. split_and!; [done|done|].
  pose proof (store32_length _ _ _ _ _ Est) as Hl2. apply (md_rep_update md); [done|done|..].
  - split; [lia|by eapply store32_u8].
  - unfold slot_rep, inode_off, entry_name, name_off, sizeof_direntry. split.
    + by eapply load_store32_same.
    + fold o. fold nm. eapply (cstr_ext (drop o md1)).
      { rewrite Hdrop. split; [done|by eexists]. }
      intros k _. rewrite !lookup_drop. eapply store32_lookup_other; [exact Est|lia].
  - by intros g [= <-].
  - intros k Hk. rewrite (store32_lookup_other _ _ _ _ _ k Est) by lia. apply Hout. lia.
Qed.

(** ** Allocating the blocks *)

(** The inode buffer after [k] block numbers have been stored. *)
Definition inode_prefix (ib : list Z) (size : Z) (bl : list Z) : Prop :=
  is_block ib ∧ load32 Big ib 0 = Done size ∧
  ∀ j p, bl !! j = Some p → load32 Big ib (4 + 4 * Z.of_nat j) = Done p.

Lemma store_inode_word ib size bl v :
  inode_prefix ib size bl → (length bl < 127)%nat → is_u32 v →
  ∃ ib', store32 Big ib (4 + 4 * Z.of_nat (length bl)) v = Done ib' ∧
    load32 Big ib' (4 + 4 * Z.of_nat (length bl)) = Done v ∧
    inode_prefix ib' size (bl ++ [v]).
Proof.
  intros ([Hl Hu] & Hs & Hb) Hlen Hv.
  destruct (store32 Big ib (4 + 4 * Z.of_nat (length bl)) v) as [ib'| | | |] eqn:E;
    try (rewrite store32_in_range in E by lia; done).
  exists ib'. pose proof (store32_length _ _ _ _ _ E) as Hl'.
  pose proof (load_store32_same _ _ _ _ _ Hv E) as Hsame.
  split_and!; [done|done|]. split_and!; [split; [by rewrite Hl'|by eapply store32_u8]|..].
  - rewrite (load_store32_other _ _ _ _ _ 0 E) by lia. done.
  - intros j p Hj. destruct (decide (j < length bl)%nat).
    + rewrite lookup_app_l in Hj by lia.
      rewrite (load_store32_other _ _ _ _ _ _ E) by lia. by apply Hb.
    + rewrite lookup_app_r in Hj by lia. apply lookup_lt_Some in Hj as Hj2. simpl in Hj2.
      assert (j = length bl) as -> by lia. rewrite Nat.sub_diag in Hj. by injection Hj as <-.
Qed.

Lemma create_alloc_spec tn total size l nb :
  totalblocks tn = total → 0 ≤ total ≤ 4096 → 0 ≤ nb ≤ 127 →
  bat_rep total (buffer_bat tn) l → inode_prefix (buffer_inode tn) size [] →
  returns (create_alloc Big nb tn) (λ r, ∃ ib bat bl,
    match r with
    | inl t' => t' = set_inode ib (set_bat bat tn) ∧ Z.of_nat (length bl) = nb ∧
        bat_rep total bat (l ++ bl) ∧ inode_prefix ib size bl
    | inr t' => t' = set_inode ib (set_bat bat tn) ∧ is_block ib ∧ is_block bat ∧
        total < Z.of_nat (length l) + nb
    end).
Proof.
  intros Et Htot Hnb Hbat Hib. unfold create_alloc.
  eapply returns_mono; [apply (for_loop_inv
    (λ i t', ∃ ib bat bl, t' = set_inode ib (set_bat bat tn) ∧ Z.of_nat (length bl) = i ∧
       bat_rep total bat (l ++ bl) ∧ inode_prefix ib size bl)
    (λ t', ∃ ib bat, t' = set_inode ib (set_bat bat tn) ∧ is_block ib ∧ is_block bat ∧
       total < Z.of_nat (length l) + nb))|].
  - lia.
  - exists (buffer_inode tn), (buffer_bat tn), []. split_and!; [by destruct tn|done| |done].
    by rewrite app_nil_r.
  - intros i t' Hi (ib & bat & bl & -> & Hlb & Hb & Hi2).
    cbn [buffer_bat set_inode set_bat totalblocks]. rewrite Et.
    apply returns_bind. eapply returns_mono; [by apply (alloc_one total bat (l ++ bl))|].
    intros [b ws] Hcase. cbn [buffer_inode set_inode].
    change (from_big_endian32 Big (u32 b)) with (u32 b).
    destruct (store_inode_word ib size bl (u32 b) Hi2) as (ib' & Est & Hld & Hp');
      [lia|apply u32_range|].
    rewrite Hlb in Est, Hld. rewrite Est. cbn [outcome_bind buffer_inode set_inode].
    rewrite Hld. cbn [outcome_bind]. change (from_big_endian32 Big (u32 b)) with (u32 b).
    destruct Hcase as [(-> & Hfull & Ews)|(Hbr & Hbn & Hb')].
    + change (s32 (u32 (-1)) =? -1) with true. cbn [returns].
      rewrite Ews, length_app in *. exists ib', bat. split_and!; [done|apply Hp'|apply Hb|lia].
    + rewrite (u32_id b) in * by (unfold is_u32; lia).
      rewrite s32_id by (unfold is_s32; lia). destruct (Z.eqb_spec b (-1)); [lia|]. cbn [returns].
      exists ib', (block_bytes Big ws), (bl ++ [b]).
      split_and!; [done|rewrite length_app; simpl; lia| |done].
      by rewrite (assoc_L (++)).
  - intros [t'|t']; naive_solver.
Qed.

(** Clearing the rest of the block table. *)
Lemma create_rest_spec ib size bl nb :
  inode_prefix ib size bl → Z.of_nat (length bl) = nb → nb ≤ 127 →
  returns (for_each nb (TFS_BLOCK_SIZE / 4 - 1) (λ i ino, store32 Big ino (4 + 4 * i) 0) ib)
    (λ ib', is_block ib' ∧ load32 Big ib' 0 = Done size ∧
       ∀ j, 0 ≤ j < 127 → load32 Big ib' (4 + 4 * j) = Done (default 0 (bl !! Z.to_nat j))).
Proof.
  intros Hib Hnb Hmax. change (TFS_BLOCK_SIZE / 4 - 1) with 127.
  eapply returns_mono; [apply (for_each_inv (λ i ib',
    inode_prefix ib' size (bl ++ replicate (Z.to_nat (i - nb)) 0)))|].
  - lia.
  - rewrite Z.sub_diag. simpl. by rewrite app_nil_r.
  - intros i ib' Hi Hp.
    assert (Hlen : length (bl ++ replicate (Z.to_nat (i - nb)) 0) = Z.to_nat i)
      by (rewrite length_app, length_replicate; lia).
    destruct (store_inode_word _ _ _ 0 Hp) as (ib2 & E & _ & Hp2); [lia|unfold is_u32; lia|].
    rewrite Hlen, Z2Nat.id in E by lia. rewrite E. cbn [returns].
    replace (Z.to_nat (i + 1 - nb)) with (Z.to_nat (i - nb) + 1)%nat by lia.
    rewrite replicate_add. simpl. by rewrite (assoc_L (++)).
  - intros ib' (Hb & Hs & Hl). split_and!; [apply Hb..|done|]. intros j Hj.
    rewrite <- (Z2Nat.id j) at 1 by lia. apply Hl.
    destruct (decide (Z.to_nat j < length bl)%nat).
    + rewrite lookup_app_l by done.
      destruct (lookup_lt_is_Some_2 bl (Z.to_nat j)) as [p ->]; done.
    + rewrite lookup_app_r by lia. rewrite lookup_replicate_2 by lia.
      by rewrite lookup_ge_None_2 by lia.
Qed.

(** Zeroing the data blocks. *)
Lemma create_zero_spec t d (Hg : geometry t d) tn (f : file) zero :
  startblock tn = startblock t → lock tn = 0 → is_block (buffer_inode tn) →
  inode_rep (buffer_inode tn) f → buffer_bat tn = zero → is_block zero →
  (length (f_blocks f) ≤ 127)%nat → Forall (λ b, 0 ≤ b < totalblocks t) (f_blocks f) →
  returns (create_zero Big (Z.of_nat (length (f_blocks f))) tn d) (λ '(r, (t', d')),
    r = VFS_OK ∧ t' = lock_V tn ∧ geometry t d' ∧
    ∀ b, vblock t d' b = if decide (b ∈ f_blocks f) then zero else vblock t d b).
Proof.
  intros Es Elk Hib [_ Hir] Ebat [Hz1 Hz2] Hlen Hall. unfold create_zero. apply returns_bind.
  rewrite Forall_lookup in Hall.
  eapply returns_mono; [apply (for_loop_inv (λ i d', geometry t d' ∧
    ∀ b, vblock t d' b = if decide (b ∈ take (Z.to_nat i) (f_blocks f)) then zero
                         else vblock t d b) (λ _, False))|].
  - lia.
  - split; [done|]. intros b. rewrite decide_False; [done|]. apply not_elem_of_nil.
  - intros i d' Hi [Hg' Hv]. rewrite Hir by lia.
    destruct (lookup_lt_is_Some_2 (f_blocks f) (Z.to_nat i)) as [p Hp]; [lia|].
    rewrite Hp. cbn [default from_option id outcome_bind].
    change (from_big_endian32 Big p) with p. rewrite Ebat.
    eapply (write_ok t d' Hg'); [done|by eapply Hall|done|done|]. intros d2 Hw. cbn [returns].
    split; [by eapply geometry_wrote|]. intros b. rewrite (vblock_wrote t _ _ _ _ b Hw), Hv.
    replace (Z.to_nat (i + 1)) with (S (Z.to_nat i)) by lia. rewrite (take_S_r _ _ _ Hp).
    destruct (decide (b = p)) as [->|Hne].
    + rewrite decide_True; [done|]. apply elem_of_app. right. by left.
    + apply decide_ext. rewrite elem_of_app, list_elem_of_singleton. naive_solver.
  - intros [d'|[]]; [|done]. intros [Hg' Hv]. cbn [returns unlock_return].
    split_and!; [done|done|done|]. intros b. rewrite Hv. by rewrite Nat2Z.id, firstn_all.
Qed.

(** ** The volume after a successful creation *)
Definition zero_block : list Z := replicate 512 0.

Definition created_blocks (t : tfs_t) (d d' : D) (f : file) (blk : Z → list Z) (ib md bat : list Z)
    : Prop :=
  ∀ b, vblock t d' b =
    if decide (b ∈ f_blocks f) then blk b
    else if decide (b = f_inode f) then ib
    else if decide (b = TFS_DIRECTORY_BLOCK) then md
    else if decide (b = TFS_ALLOCATION_BLOCK) then bat else vblock t d b.

Section created.
Context (t : tfs_t) (d d' : D) (dir : directory) (i : nat) (f : file) (blk : Z → list Z)
  (ib md bat : list Z).
Hypothesis Hr : fs_rep t d dir.
Hypothesis Hi : dir !! i = Some None.
Hypothesis Hbat : bat_rep (totalblocks t) bat ((used dir ++ [f_inode f]) ++ f_blocks f).
Hypothesis Hblk : created_blocks t d d' f blk ib md bat.

Lemma created_fresh b : b ∈ used dir → b ∉ file_used f.
Proof using Hbat.
  intros Hb Hin. pose proof (ba_nodup _ _ _ Hbat) as Hnd. rewrite <- (assoc_L (++)) in Hnd.
  apply NoDup_app in Hnd as (_ & Hd & _). by apply (Hd b Hb).
Qed.

Lemma created_system : 1 ∉ file_used f ∧ 2 ∉ file_used f ∧ f_inode f ∉ f_blocks f.
Proof using Hbat.
  assert (H1 : 1 ∈ used dir) by (right; by left).
  assert (H2 : 2 ∈ used dir) by (right; right; by left).
  split_and!; [by apply created_fresh..|].
  pose proof (ba_nodup _ _ _ Hbat) as Hnd. rewrite <- (assoc_L (++)) in Hnd.
  apply NoDup_app in Hnd as (_ & _ & Hnd). by apply NoDup_cons in Hnd as [? _].
Qed.

(** Blocks in use before keep their contents, the two system blocks aside. *)
Lemma created_old b : b ∈ used dir → 3 ≤ b → vblock t d' b = vblock t d b.
Proof using Hbat Hblk.
  intros Hb H3. apply created_fresh in Hb. apply not_elem_of_cons in Hb as [Hb1 Hb2].
  rewrite Hblk. unfold TFS_DIRECTORY_BLOCK, TFS_ALLOCATION_BLOCK.
  by rewrite !decide_False by (done || lia).
Qed.

Lemma created_rep t' :
  geometry t' d' → bufs_ok t' → startblock t' = startblock t → totalblocks t' = totalblocks t →
  dir_lookup dir (f_name f) = None → file_ok f → inode_rep ib f →
  md_rep md (<[i:=Some f]> dir) → fs_rep t' d' (<[i:=Some f]> dir).
Proof using Hr Hi Hbat Hblk.
  intros Hg Hb E1 E2 Hnew Hf Hib Hmd.
  assert (Hv' : ∀ b, vblock t' d' b = vblock t d' b) by (intros; unfold vblock; by rewrite E1).
  destruct created_system as (H1 & H2 & H3).
  apply not_elem_of_cons in H1 as [H1 H1'], H2 as [H2 H2'].
  apply fs_rep_intro; [done|done|..].
  - rewrite Hv', Hblk. unfold TFS_DIRECTORY_BLOCK.
    by rewrite decide_False, decide_False, decide_True by done.
  - intros j k g h. rewrite !list_lookup_insert. repeat case_decide; destruct_and?; subst.
    + done.
    + intros [= <-] Hk E. exfalso. by eapply dir_lookup_None.
    + intros Hj [= <-] E. exfalso. by eapply dir_lookup_None.
    + apply (do_names _ _ (r_dir _ _ _ Hr)).
  - intros j g. rewrite list_lookup_insert. case_decide as E.
    + intros [= <-]. rewrite Hv', Hblk. by rewrite decide_False, decide_True.
    + intros Hj. destruct (inode_range _ _ _ _ _ Hr Hj) as ([? _] & _).
      rewrite Hv', created_old; [by eapply (r_inodes _ _ _ Hr)| |done].
      apply elem_of_app. right. apply elem_of_concat. exists j, (file_used g).
      split; [by rewrite list_lookup_fmap, Hj|by left].
  - destruct (used_split dir i None Hi) as (rest & Hp & Hins).
    rewrite E2, Hv', Hblk. unfold TFS_ALLOCATION_BLOCK, TFS_DIRECTORY_BLOCK.
    rewrite decide_False, decide_False, decide_False, decide_True by done.
    rewrite Hins. rewrite Hp in Hbat. simpl in Hbat |- *.
    eapply bat_rep_perm; [|exact Hbat]. unfold file_used. solve_Permutation.
Qed.

Lemma created_data t' :
  startblock t' = startblock t →
  file_data t' d' f = take (Z.to_nat (f_size f)) (concat (blk <$> f_blocks f)).
Proof using Hblk.
  intros E1. unfold file_data, file_blocks_data. do 2 f_equal.
  apply list_fmap_ext. intros k b Hb. unfold vblock. rewrite E1.
  change (contents d' (startblock t + b)) with (vblock t d' b).
  rewrite Hblk, decide_True; [done|]. by eapply list_elem_of_lookup_2.
Qed.
End created.

Lemma concat_zero_blocks (bl : list Z) :
  concat ((λ _, zero_block) <$> bl) = replicate (512 * length bl) 0.
Proof using.
  induction bl as [|b bl IH]; [done|]. cbn [fmap list_fmap concat length].
  rewrite IH. unfold zero_block. rewrite <- replicate_add. f_equal. lia.
Qed.

Lemma zero_data f :
  file_ok f → take (Z.to_nat (f_size f)) (concat ((λ _, zero_block) <$> f_blocks f))
    = replicate (Z.to_nat (f_size f)) 0.
Proof using.
  intros [_ Hs Hl _]. rewrite concat_zero_blocks, take_replicate. f_equal.
  unfold blocks_for in Hl. pose proof (Z.div_mod (f_size f + 511) 512).
  pose proof (Z.mod_pos_bound (f_size f + 511) 512). lia.
Qed.

(** ** The writes of a successful creation *)
Lemma create_commit t d (Hg : geometry t d) tn idx (f : file) :
  startblock tn = startblock t → totalblocks tn = totalblocks t → lock tn = 0 →
  is_block (buffer_bat tn) → is_block (buffer_md tn) → is_block (buffer_inode tn) →
  inode_rep (buffer_inode tn) f → load32 Big (buffer_md tn) idx = Done (f_inode f) →
  0 ≤ f_inode f < totalblocks t → f_inode f ∉ f_blocks f →
  (length (f_blocks f) ≤ 127)%nat → Forall (λ b, 0 ≤ b < totalblocks t) (f_blocks f) →
  returns (write_or_fail TFS_ALLOCATION_BLOCK (buffer_bat tn) fail_error tn d (λ d,
    write_or_fail TFS_DIRECTORY_BLOCK (buffer_md tn) fail_error tn d (λ d,
    let* ino := load32 Big (buffer_md tn) idx in
    write_or_fail (from_big_endian32 Big ino) (buffer_inode tn) fail_error tn d (λ d,
    let* bat := memoryset (buffer_bat tn) 0 TFS_BLOCK_SIZE in
    create_zero Big (Z.of_nat (length (f_blocks f))) (set_bat bat tn) d)))) (λ '(r, (t', d')),
    r = VFS_OK ∧ startblock t' = startblock t ∧ totalblocks t' = totalblocks t ∧
    bufs_ok t' ∧ geometry t' d' ∧
    created_blocks t d d' f (λ _, zero_block) (buffer_inode tn) (buffer_md tn) (buffer_bat tn)).
Proof.
  intros Es Et El Hb Hm Hi Hir Hld Hf Hfn Hlen Hall.
  eapply (write_bat_md t d Hg); [done|done|done|]. intros d1 Hg1 Hv1.
  rewrite Hld. cbn [outcome_bind]. change (from_big_endian32 Big (f_inode f)) with (f_inode f).
  eapply (write_ok t d1 Hg1); [done|done|apply Hi..|]. intros d2 Hw.
  pose proof (proj1 Hb) as Hbl.
  rewrite memoryset_spec by (change TFS_BLOCK_SIZE with 512; lia).
  cbn [outcome_bind].
  assert (Ez : replicate (Z.to_nat TFS_BLOCK_SIZE) (u8 0) ++ drop (Z.to_nat TFS_BLOCK_SIZE) (buffer_bat tn)
    = zero_block).
  { rewrite drop_ge by (change TFS_BLOCK_SIZE with 512; lia). by rewrite app_nil_r. }
  rewrite Ez. assert (Hz : is_block zero_block).
  { split; [done|]. apply Forall_replicate. unfold is_u8. lia. }
  assert (Hg2 : geometry t d2) by (by eapply geometry_wrote).
  eapply returns_mono; [by apply (create_zero_spec t d2 Hg2 _ f zero_block)|].
  intros [r [t' d']] (-> & -> & Hg3 & Hv3). split_and!; [done|done|done|by split| |].
  - eapply (geometry_same t _ d'); try done. simpl. lia.
  - intros b. rewrite Hv3. case_decide; [done|]. rewrite (vblock_wrote t _ _ _ _ b Hw).
    case_decide; [done|]. apply Hv1.
Qed.

Lemma numblocks_for size :
  0 ≤ size < 2 ^ 31 - 512 →
  u32 (s32 (s32 (size + TFS_BLOCK_SIZE) - 1) `quot` TFS_BLOCK_SIZE) = blocks_for size ∧
  0 ≤ blocks_for size.
Proof.
  intros Hs. unfold TFS_BLOCK_SIZE, blocks_for.
  rewrite (s32_id (size + 512)) by (unfold is_s32; lia). rewrite s32_id by (unfold is_s32; lia).
  rewrite Z.quot_div_nonneg by lia. replace (size + 512 - 1) with (size + 511) by lia.
  assert (0 ≤ (size + 511) / 512) by (apply Z.div_pos; lia).
  assert ((size + 511) / 512 < 2 ^ 31) by (apply Z.div_lt_upper_bound; lia).
  rewrite u32_id by (unfold is_u32; lia). lia.
Qed.

(** What [tfs_create] promises. *)
Definition create_post (t : tfs_t) (d : D) (dir : directory) (n : list Z) (size : Z)
    (res : Z * (tfs_t * D)) : Prop :=
  let '(r, (t', d')) := res in
  startblock t' = startblock t ∧
  ((can_create (totalblocks t) dir n size ∧ r = VFS_OK ∧
    ∃ i ino bl, dir !! i = Some None ∧
      let f := File n ino size bl in
      fs_rep t' d' (<[i:=Some f]> dir) ∧
      file_data t' d' f = replicate (Z.to_nat size) 0 ∧
      (∀ b, b ∈ used dir → 3 ≤ b → vblock t d' b = vblock t d b)) ∨
   (¬ can_create (totalblocks t) dir n size ∧ r = VFS_ERROR ∧
    fs_rep t' d' dir ∧ same_dev d d')).

Lemma create_fails t t' d d' dir n size :
  fs_rep t d dir → same_dev d d' → startblock t' = startblock t →
  totalblocks t' = totalblocks t → lock t' = 0 → bufs_ok t' →
  ¬ can_create (totalblocks t) dir n size →
  returns (unlock_return VFS_ERROR t' d') (create_post t d dir n size).
Proof.
  intros Hr Hs E1 E2 El Hb Hno. cbn [returns unlock_return create_post].
  split; [done|]. right. split_and!; [done|done| |done].
  eapply fs_rep_same; try done. simpl. lia.
Qed.

(** The directory buffer with the new name is a block, so that the inode number
    can be stored in it. *)
Lemma named_md_length md dir i fname n name :
  md_rep md dir → (i < length dir)%nat → name_ok n → cstr fname n →
  stringcopy (entry_name md (Z.of_nat i)) fname TFS_FILENAME_MAX = Done name →
  length (take (Z.to_nat (name_off (Z.of_nat i))) md ++ name) = 512%nat.
Proof.
  intros Hmd Hi Hn Hc Hname.
  destruct (set_slot md dir i fname (File n 0 0 []) Hmd Hi) as (name' & md0 & E & Est & Hmd0).
  - split; [done|done|done|by vm_compute].
  - by vm_compute.
  - done.
  - rewrite Hname in E. injection E as <-. rewrite <- (store32_length _ _ _ _ _ Est). apply Hmd0.
Qed.

Lemma store_block_word ib off v :
  is_block ib → 0 ≤ off ≤ 508 → is_u32 v →
  ∃ ib', store32 Big ib off v = Done ib' ∧ load32 Big ib' off = Done v ∧ is_block ib'.
Proof.
  intros [Hl Hu] Ho Hv. destruct (store32 Big ib off v) as [ib'| | | |] eqn:E;
    try (rewrite store32_in_range in E by lia; done).
  exists ib'. split_and!; [done|by eapply load_store32_same|].
  split; [by rewrite (store32_length _ _ _ _ _ E)|by eapply store32_u8].
Qed.

Section tail.
Context (t : tfs_t) (d d1 : D) (dir : directory) (n fname : list Z) (size : Z) (i : nat).
Context (name : list Z) (tn : tfs_t).
Hypothesis Hr : fs_rep t d dir.
Hypothesis Hs : same_dev d d1.
Hypothesis Hi : dir !! i = Some None.
Hypothesis Hnew : dir_lookup dir n = None.
Hypothesis Hn : name_ok n.
Hypothesis Hc : cstr fname n.
Hypothesis Hsz : 0 ≤ size ≤ 65024.
Hypothesis Hmax : 0 ≤ blocks_for size ≤ 127.
Let md := vblock t d TFS_DIRECTORY_BLOCK.
Hypothesis Hname : stringcopy (entry_name md (Z.of_nat i)) fname TFS_FILENAME_MAX = Done name.
Hypothesis Es : startblock tn = startblock t.
Hypothesis Et : totalblocks tn = totalblocks t.
Hypothesis El : lock tn = 0.
Hypothesis Emd : buffer_md tn = take (Z.to_nat (name_off (Z.of_nat i))) md ++ name.

(** The blocks have been found: the writes succeed and yield the new file. *)
Lemma create_success ino bl ib bat md2 tm :
  bat_rep (totalblocks t) bat ((used dir ++ [ino]) ++ bl) →
  Z.of_nat (length bl) = blocks_for size → 0 ≤ ino < totalblocks t →
  is_block ib → inode_rep ib (File n ino size bl) →
  store32 Big (buffer_md tn) (inode_off (Z.of_nat i)) ino = Done md2 →
  tm = set_inode ib (set_bat bat (set_md md2 tn)) →
  returns (write_or_fail TFS_ALLOCATION_BLOCK (buffer_bat tm) fail_error tm d1 (λ d,
    write_or_fail TFS_DIRECTORY_BLOCK (buffer_md tm) fail_error tm d (λ d,
    let* ino := load32 Big (buffer_md tm) (inode_off (Z.of_nat i)) in
    write_or_fail (from_big_endian32 Big ino) (buffer_inode tm) fail_error tm d (λ d,
    let* bat := memoryset (buffer_bat tm) 0 TFS_BLOCK_SIZE in
    create_zero Big (blocks_for size) (set_bat bat tm) d)))) (create_post t d dir n size).
Proof using All.
  intros Hbat Hlen Hino Hib Hir Est ->. set (f := File n ino size bl) in *.
  pose proof (r_geo _ _ _ Hr) as Hg. pose proof (g_total _ _ Hg) as Htot.
  unfold TFS_BLOCK_SIZE in Htot.
  assert (Hf : file_ok f) by (split; simpl; try done; lia).
  destruct (set_slot md dir i fname f) as (name' & md' & E & Est' & Hmd');
    [by apply fs_rep_md|by eapply lookup_lt_Some|done|unfold is_u32; simpl; lia|done|].
  rewrite Hname in E. injection E as <-. rewrite <- Emd in Est'.
  change (f_inode f) with ino in Est'. rewrite Est in Est'. injection Est' as <-.
  destruct (created_system t dir f bat Hbat) as (_ & _ & Hfn).
  assert (Hall : Forall (λ b, 0 ≤ b < totalblocks t) bl).
  { pose proof (ba_range _ _ _ Hbat) as Hrg. by apply Forall_app in Hrg as [_ ?]. }
  assert (Hg1 : geometry t d1) by (eapply geometry_same; try done; apply Hg).
  rewrite <- Hlen. change bl with (f_blocks f).
  eapply returns_mono; [apply (create_commit t d1 Hg1 _ _ f); simpl; try done|].
  - apply Hbat.
  - apply Hmd'.
  - eapply load_store32_same; [|exact Est]. unfold is_u32. lia.
  - lia.
  - intros [r [t' d']] (-> & Es' & Et' & Hbufs & Hg' & Hblk). simpl in Hblk.
    assert (Hblk' : created_blocks t d d' f (λ _, zero_block) ib md2 bat).
    { intros b. rewrite (Hblk b). by rewrite (vblock_same t d d1 b Hs). }
    split; [done|]. left. split_and!; [|done|].
    + split; [lia|done|by eapply list_elem_of_lookup_2|].
      pose proof (count_below_elem _ (Z.to_nat (totalblocks t)) (ba_nodup _ _ _ Hbat)) as Hcb.
      rewrite Z2Nat.id in Hcb by lia. specialize (Hcb (ba_range _ _ _ Hbat)).
      pose proof (count_below_range (λ p, bool_decide (p ∈ (used dir ++ [ino]) ++ bl))
        (Z.to_nat (totalblocks t))) as Hcr.
      rewrite Hcb, !length_app in Hcr. cbn [length] in Hcr. lia.
    + exists i, ino, bl. split; [done|]. cbv zeta. fold f. split_and!.
      * by apply (created_rep t d d' dir i f (λ _, zero_block) ib md2 bat).
      * change size with (f_size f). rewrite <- (zero_data f) by done.
        by apply (created_data t d d' f (λ _, zero_block) ib md2 bat).
      * apply (created_old t d d' dir f (λ _, zero_block) ib md2 bat); done.
Qed.

Lemma create_tail_spec :
  bufs_ok tn → bat_rep (totalblocks t) (buffer_bat tn) (used dir) →
  returns (create_tail Big (blocks_for size) size (Z.of_nat i) tn d1) (create_post t d dir n size).
Proof using All.
  intros [Hbi Hbb] Hbat. pose proof (r_geo _ _ _ Hr) as Hg. pose proof (g_total _ _ Hg) as Htot.
  unfold TFS_BLOCK_SIZE in Htot. pose proof (fs_rep_md _ _ _ Hr) as Hmd.
  assert (Hi25 : (i < 25)%nat).
  { pose proof (do_len _ _ (r_dir _ _ _ Hr)) as Hl. change TFS_MAX_FILES with 25 in Hl.
    apply lookup_lt_Some in Hi. lia. }
  assert (Hml : length (buffer_md tn) = 512%nat).
  { rewrite Emd. eapply named_md_length; [exact Hmd|by eapply lookup_lt_Some|exact Hn|exact Hc|exact Hname]. }
  unfold create_tail. rewrite Et. apply returns_bind.
  eapply returns_mono; [apply (alloc_one _ _ _ Hbat); lia|]. intros [ino ws] Hcase.
  destruct (store32 Big (buffer_md tn) (inode_off (Z.of_nat i)) (u32 ino)) as [md2| | | |] eqn:Est;
    try (rewrite store32_in_range in Est by (unfold inode_off, sizeof_direntry; lia); done).
  cbn [outcome_bind buffer_md set_md].
  rewrite (load_store32_same _ _ _ _ _ (u32_range ino) Est). cbn [outcome_bind].
  change (from_big_endian32 Big (u32 ino)) with (u32 ino).
  destruct Hcase as [(-> & Hfull & Ews)|(Hir & Hin & Hb2)].
  { change (s32 (u32 (-1)) =? -1) with true. cbn iota. rewrite Ews.
    eapply create_fails; try done. intros []. lia. }
  rewrite (u32_id ino) in * by (unfold is_u32; lia). rewrite s32_id by (unfold is_s32; lia).
  destruct (Z.eqb_spec ino (-1)); [lia|]. cbn [buffer_inode set_md set_bat].
  change (from_big_endian32 Big (u32 size)) with (u32 size).
  rewrite (u32_id size) by (unfold is_u32; lia).
  destruct (store_block_word (buffer_inode tn) 0 size Hbi) as (ib0 & -> & Hl0 & Hb0);
    [lia|unfold is_u32; lia|]. cbn [outcome_bind].
  apply returns_bind. eapply returns_mono.
  { eapply (create_alloc_spec _ (totalblocks t) size); [done|lia|lia|exact Hb2|].
    split_and!; [apply Hb0..|done|]. intros j p Hj. by rewrite lookup_nil in Hj. }
  intros [tm|tm] (ib & bat & bl & Hcase); cbn beta iota.
  - destruct Hcase as (-> & Hbl & Hb3 & Hp). apply returns_bind. cbn [buffer_inode set_inode].
    eapply returns_mono; [eapply create_rest_spec; [exact Hp|exact Hbl|lia]|]. intros ib2 (Hib2 & Hls & Hlb).
    by eapply (create_success ino bl ib2 bat md2).
  - destruct Hcase as (-> & Hib & Hbb2 & Hspace). eapply create_fails; try done.
    intros [_ _ _ Hsp]. rewrite length_app in Hspace. cbn [length] in Hspace. lia.
Qed.
End tail.

(** [tfs_create] on a represented volume. *)
Lemma tfs_create_spec t d dir fname n size :
  fs_rep t d dir → cstr fname n → name_ok n → 0 ≤ size < 2 ^ 31 - 512 →
  returns (tfs_create Big fname size t d) (create_post t d dir n size).
Proof.
  intros Hr Hc Hn Hsz. pose proof (r_geo _ _ _ Hr) as Hg. pose proof (g_total _ _ Hg) as Htot.
  destruct (numblocks_for size Hsz) as [Enb Hnb0]. unfold tfs_create. rewrite Enb.
  rewrite (lock_P_ok t d Hg). cbn [outcome_bind]. change (TFS_BLOCK_SIZE / 4 - 1) with 127.
  destruct (Z.ltb_spec 127 (blocks_for size)) as [Hbig|Hbig].
  { eapply create_fails; try done; [apply Hr|]. intros []. lia. }
  eapply (read_ok t d Hg); [done|unfold TFS_DIRECTORY_BLOCK; lia|]. intros d1 Hs1.
  cbn [buffer_md set_md]. apply returns_bind.
  eapply returns_mono; [by apply (create_scan_spec t d dir fname n); [..|apply Hn|apply Hn]|].
  intros [idx|] Hscan.
  2: { eapply create_fails; try done; [apply Hr|]. by intros []. }
  destruct Hscan as [Hnew [[-> Hfull]|[Hidx Hslot]]].
  { cbn [Z.eqb]. eapply create_fails; try done; [apply Hr|]. by intros []. }
  destruct (Z.eqb_spec idx (-1)); [lia|].
  rewrite <- (Z2Nat.id idx) by done. set (i := Z.to_nat idx) in *.
  destruct (set_slot (vblock t d TFS_DIRECTORY_BLOCK) dir i fname (File n 0 0 []))
    as (name & _ & Ename & _); [by apply fs_rep_md|by eapply lookup_lt_Some| |done|done|].
  { by split; [..|by vm_compute]. }
  rewrite Ename. cbn [outcome_bind].
  assert (Hg1 : geometry (set_lock 1 t) d1) by (by eapply geometry_same).
  eapply (read_ok (set_lock 1 t) d1 Hg1); [done|unfold TFS_ALLOCATION_BLOCK; simpl; lia|].
  intros d2 Hs2. assert (Hs12 : same_dev d d2) by (by etrans).
  assert (Hblk : blocks_for size ≤ 127) by lia. unfold blocks_for in Hblk.
  pose proof (Z.div_mod (size + 511) 512). pose proof (Z.mod_pos_bound (size + 511) 512).
  change (vblock (set_lock 1 t) d1 TFS_ALLOCATION_BLOCK) with (vblock t d1 TFS_ALLOCATION_BLOCK).
  rewrite (vblock_same t d d1 _ Hs1). pose proof (fs_rep_bat _ _ _ Hr) as Hbat.
  eapply (create_tail_spec t d d2 dir n fname size i name); try done; try lia.
  split; [apply (r_bufs _ _ _ Hr)|apply Hbat].
Qed.
End create.
