(* ===== verification/TfsLock.v ===== *)
(** * The lock discipline of TFS

    On any device, faulty or not, for any volume state and any arguments: an
    operation of the file system that returns has released the lock it took and
    has not moved or resized the volume.  The statements are partial
    correctness; TfsSpec.v and the files after it show when operations return. *)

From S2P Require Import Prelude Bitmap Libc BlockDev Tfs.

(** ** Partial correctness *)
(** [ensures m Q]: if [m] returns, its result satisfies [Q]. *)
Definition ensures {A} (m : outcome A) (Q : A → Prop) : Prop :=
  match m with Done a => Q a | _ => True end.

Section ensures_rules.
Lemma ensures_bind {A B} (m : outcome A) (k : A → outcome B) Q :
  ensures m (λ a, ensures (k a) Q) → ensures (outcome_bind k m) Q.
Proof. by destruct m. Qed.

Lemma ensures_any {A B} (m : outcome A) (k : A → outcome B) Q :
  (∀ a, ensures (k a) Q) → ensures (outcome_bind k m) Q.
Proof. intros H. destruct m; simpl; auto with kudos. Qed.

Lemma ensures_mono {A} (m : outcome A) (P Q : A → Prop) :
  ensures m P → (∀ a, P a → Q a) → ensures m Q.
Proof. destruct m; simpl; auto with kudos. Qed.

Lemma ensures_for {S R} (Inv : S → Prop) (Q : R → Prop) body lo hi (s : S) :
  Inv s →
  (∀ i s', Inv s' → ensures (body i s') (λ x, match x with inl s'' => Inv s'' | inr r => Q r end)) →
  ensures (for_loop lo hi body s) (λ x, match x with inl s' => Inv s' | inr r => Q r end).
Proof.
  unfold for_loop. generalize (Z.to_nat (hi - lo)) as n. intros n. revert lo s.
  induction n as [|n IH]; intros lo s Hs Hb; [done|]. simpl. specialize (Hb lo s Hs) as Hb1.
  destruct (body lo s) as [[s'|r]| | | |]; simpl in *; auto.
Qed.

Lemma ensures_while {S R} (Inv : S → Prop) (Q : R → Prop) body fuel (s : S) :
  Inv s →
  (∀ s', Inv s' → ensures (body s') (λ x, match x with inl s'' => Inv s'' | inr r => Q r end)) →
  ensures (while_loop fuel body s) Q.
Proof.
  revert s. induction fuel as [|n IH]; intros s Hs Hb; [done|]. simpl.
  specialize (Hb s Hs) as Hb1. destruct (body s) as [[s'|r]| | | |]; simpl in *; auto.
Qed.
End ensures_rules.

(** ** The lock *)
Section lock.
Context {D : Type} {dev : BlockDevice D} (en : endian) (bat_address : Z).

(** The operation was entered in state [t0]; it holds it now. *)
Definition held (t0 t : tfs_t) : Prop :=
  lock t = lock t0 - 1 ∧ startblock t = startblock t0 ∧ totalblocks t = totalblocks t0.

(** The operation entered in [t0] has ended with the volume in place and the
    lock as it was. *)
Definition free (t0 : tfs_t) (r : Z * (tfs_t * D)) : Prop :=
  let t := fst (snd r) in
  lock t = lock t0 ∧ startblock t = startblock t0 ∧ totalblocks t = totalblocks t0.

Lemma held_free t0 t d r : held t0 t → free t0 (r, (lock_V t, d)).
Proof. unfold held, free. simpl. intros (? & ? & ?). split_and!; [lia|done..]. Qed.

Lemma lock_P_held t : ensures (lock_P t) (held t).
Proof. unfold lock_P. by destruct (0 <? lock t); simpl. Qed.

Lemma unlock_free v r t d : held v t → ensures (unlock_return (D:=D) r t d) (free v).
Proof. apply held_free. Qed.

Lemma read_lock {A} b (fail : tfs_t → D → outcome A) t d k Q :
  (∀ d', ensures (fail (lock_V t) d') Q) → (∀ data d', ensures (k data d') Q) →
  ensures (read_or_fail b fail t d k) Q.
Proof. intros H1 H2. unfold read_or_fail. destruct (read_block _ d) as [[data|] d']; auto. Qed.

Lemma write_lock {A} b data (fail : tfs_t → D → outcome A) t d k Q :
  (∀ d', ensures (fail (lock_V t) d') Q) → (∀ d', ensures (k d') Q) →
  ensures (write_or_fail b data fail t d k) Q.
Proof. intros H1 H2. unfold write_or_fail. destruct (write_block _ _ d) as [[] d']; auto. Qed.

Lemma fail_free v t d : held v t → ensures (fail_error (D:=D) (lock_V t) d) (free v).
Proof. apply held_free. Qed.

Lemma read_lock' b v t d k :
  held v t → (∀ data d', ensures (k data d') (free v)) →
  ensures (read_or_fail b fail_error t d k) (free v).
Proof. intros. apply read_lock; [|done]. intros. by apply fail_free. Qed.

Lemma write_lock' b data v t d k :
  held v t → (∀ d', ensures (k d') (free v)) →
  ensures (write_or_fail b data fail_error t d k) (free v).
Proof. intros. apply write_lock; [|done]. intros. by apply fail_free. Qed.

Hint Resolve unlock_free fail_free held_free : kudos.

Lemma open_lock fname t d : ensures (tfs_open en fname t d) (free t).
Proof.
  apply ensures_bind. eapply ensures_mono; [apply lock_P_held|]. intros t1 H1.
  apply (read_lock' _ _ t1); [done|]. intros md d1. apply ensures_any. intros [i|]; [|by auto with kudos].
  apply ensures_any. intros ino. by auto with kudos.
Qed.

Lemma zero_lock v nb t d : held v t → ensures (create_zero en nb t d) (free v).
Proof.
  intros H. unfold create_zero. apply ensures_bind.
  eapply ensures_mono; [apply (ensures_for (λ _ : D, True) (free v)); [done|]|].
  - intros i d' _. apply ensures_any. intros b. apply write_lock; [|done].
    intros d2. by apply held_free.
  - intros [d'|r]; [intros _; by apply unlock_free|done].
Qed.

Lemma create_tail_lock v nb size index t d :
  held v t → ensures (create_tail en nb size index t d) (free v).
Proof.
  intros H. unfold create_tail. apply ensures_any. intros [b bat].
  apply ensures_any. intros md. apply ensures_any. intros ino.
  destruct (_ =? _); [by auto with kudos|]. apply ensures_any. intros ib. apply ensures_bind.
  eapply ensures_mono; [apply (ensures_for (held v) (held v)); [done|]|].
  - intros i t' Ht. apply ensures_any. intros [b' bat']. apply ensures_any. intros ib'.
    apply ensures_any. intros w. by destruct (_ =? _).
  - intros [t'|t'] Ht; [|by auto with kudos]. apply ensures_any. intros ib'.
    apply write_lock'; [done|]. intros d1. apply write_lock'; [done|]. intros d2.
    apply ensures_any. intros w. apply write_lock'; [done|]. intros d3.
    apply ensures_any. intros z. by apply zero_lock.
Qed.

Lemma create_lock fname size t d : ensures (tfs_create en fname size t d) (free t).
Proof.
  apply ensures_bind. eapply ensures_mono; [apply lock_P_held|]. intros t1 H1.
  destruct (_ <? _); [by auto with kudos|]. apply read_lock'; [done|]. intros md d1.
  apply ensures_any. intros [idx|]; [|by auto with kudos].
  destruct (_ =? _); [by auto with kudos|]. apply ensures_any. intros name.
  apply read_lock'; [done|]. intros bat d2. by apply create_tail_lock.
Qed.

Lemma remove_lock fname t d : ensures (tfs_remove en fname t d) (free t).
Proof.
  apply ensures_bind. eapply ensures_mono; [apply lock_P_held|]. intros t1 H1.
  apply read_lock'; [done|]. intros md d1. apply ensures_any. intros [i|]; [|by auto with kudos].
  apply read_lock'; [done|]. intros bat d2. apply ensures_any. intros ino.
  apply read_lock'; [done|]. intros ib d3. apply ensures_any. intros bat2. apply ensures_bind.
  eapply ensures_mono.
  { apply ensures_bind. apply (ensures_while (λ '(_, t'), held t t')
      (λ t', held t t')); [done|].
    intros [j t'] Ht. apply ensures_any. intros b. destruct (_ && _); [|done].
    by apply ensures_any. }
  intros t2 Ht2. apply ensures_any. intros md2. apply ensures_any. intros md3.
  apply write_lock'; [done|]. intros d4. apply write_lock'; [done|]. intros d5.
  by auto with kudos.
Qed.

Lemma read_loop_lock v addr n b1 b2 buf rd t d :
  held v t → ensures (read_loop en bat_address addr n b1 b2 buf rd t d) (λ r, free v (snd r)).
Proof.
  intros H. unfold read_loop. apply ensures_bind.
  eapply ensures_mono; [apply (ensures_for (λ '(_, _, t', _), held v t') (λ r, free v (snd r))); [done|]|].
  - intros b [[[bf r] t'] d'] Ht. apply ensures_any. intros blk. apply read_lock.
    + intros d2. by apply held_free.
    + intros data d2. destruct (_ =? _); by apply ensures_any.
  - intros [[[[bf r] t'] d']|r]; [|done]. apply held_free.
Qed.

Lemma tread_lock fileid addr buf n off t d :
  ensures (tfs_read en bat_address fileid addr buf n off t d) (λ r, free t (snd r)).
Proof.
  apply ensures_bind. eapply ensures_mono; [apply lock_P_held|]. intros t1 H1.
  destruct (_ || _); [simpl; auto with kudos|]. apply read_lock; [simpl; auto with kudos|]. intros ib d1.
  apply ensures_any. intros fs. cbv zeta. destruct (_ || _); [simpl; auto with kudos|].
  destruct (_ =? _); [simpl; auto with kudos|]. apply ensures_any. intros blk.
  apply read_lock; [simpl; auto with kudos|]. intros data d2. apply ensures_any. intros bf.
  by apply read_loop_lock.
Qed.

Lemma copy_from_lock v t at_ buf addr pos n :
  held v t → ensures (copy_from bat_address t at_ buf addr pos n) (held v).
Proof. intros H. by apply ensures_any. Qed.

Lemma write_loop_lock v addr n b1 b2 buf w t d :
  held v t → ensures (write_loop en bat_address addr n b1 b2 buf w t d) (free v).
Proof.
  intros H. unfold write_loop. apply ensures_bind.
  eapply ensures_mono; [apply (ensures_for (λ '(_, t', _), held v t') (free v)); [done|]|].
  - intros b [[w' t'] d'] Ht.
    assert (Hst : ∀ w2 t2 d2, held v t2 →
      ensures (let* blk := inode_block en t2 b in
        write_or_fail (from_big_endian32 en blk) (buffer_bat t2)
          (λ t d, Done (inr (VFS_ERROR, (t, d)))) t2 d2 (λ d, Done (inl (w2, t2, d))))
        (λ x : (Z * tfs_t * D) + (Z * (tfs_t * D)),
           match x with inl (_, t', _) => held v t' | inr r => free v r end)).
    { intros w2 t2 d2 Ht2. apply ensures_any. intros blk. apply write_lock; simpl; auto with kudos. }
    destruct (_ =? _).
    + unfold read_if. destruct (_ <? _); [apply ensures_any; intros blk; apply read_lock;
        [simpl; auto with kudos|intros data d2]|];
        (apply ensures_bind; eapply ensures_mono; [by apply copy_from_lock|]; auto).
    + apply ensures_bind. eapply ensures_mono; [by apply copy_from_lock|]. auto.
  - intros [[[w' t'] d']|r]; [|done]. by apply unlock_free.
Qed.

Lemma twrite_lock fileid addr buf n off t d :
  ensures (tfs_write en bat_address fileid addr buf n off t d) (free t).
Proof.
  apply ensures_bind. eapply ensures_mono; [apply lock_P_held|]. intros t1 H1.
  destruct (_ || _); [by auto with kudos|]. apply read_lock'; [done|]. intros ib d1.
  apply ensures_any. intros fs. cbv zeta. destruct (_ || _); [by auto with kudos|].
  destruct (_ =? _); [by auto with kudos|].
  unfold read_if. destruct (_ <? _); [apply ensures_any; intros blk; apply read_lock';
    [done|intros data d2]|];
    (apply ensures_bind; eapply ensures_mono; [by apply (copy_from_lock t)|];
     intros t2 Ht2; apply ensures_any; intros blk'; apply write_lock'; [done|]; intros d3;
     by apply write_loop_lock).
Qed.

Lemma getfree_lock t d : ensures (tfs_getfree en t d) (free t).
Proof.
  apply ensures_bind. eapply ensures_mono; [apply lock_P_held|]. intros t1 H1.
  apply read_lock'; [done|]. intros bat d1. apply ensures_any. intros n. by auto with kudos.
Qed.

Lemma filecount_lock dir t d : ensures (tfs_filecount en dir t d) (free t).
Proof.
  apply ensures_any. intros c. destruct (negb _); [done|].
  apply ensures_bind. eapply ensures_mono; [apply lock_P_held|]. intros t1 H1.
  apply read_lock'; [done|]. intros bat d1. apply ensures_any. intros n. by auto with kudos.
Qed.

Lemma file_lock dir idx buf t d : ensures (tfs_file en dir idx buf t d) (λ r, free t (snd r)).
Proof.
  apply ensures_any. intros c. destruct (negb _ || _); [done|].
  apply ensures_bind. eapply ensures_mono; [apply lock_P_held|]. intros t1 H1.
  apply read_lock; [simpl; auto with kudos|]. intros md d1. apply ensures_any. intros [n|b]; simpl; auto with kudos.
Qed.
End lock.
