(* ===== verification/TfsView.v ===== *)
(** * The abstract file system TFS implements

    A volume is abstracted to the finite map from file names to file contents,
    [view].  [afs] is the specification a client of TFS relies on: a
    deterministic function of that map, with the conditions under which a file
    can be created.  Every operation of the driver on a represented volume
    refines it. *)

From S2P Require Import Prelude Bitmap Libc BlockDev Tfs TfsSpec TfsRead TfsIO TfsAlloc.
From S2P Require Import TfsCreate TfsLock.

(** ** The abstract operations *)
Notation afs := (gmap (list Z) (list Z)).

(** The blocks a file of [data] takes: its inode and its data blocks. *)
Definition file_cost (data : list Z) : Z := 1 + blocks_for (Z.of_nat (length data)).
Definition afs_used (m : afs) : Z :=
  3 + foldr Z.add 0 ((λ x, file_cost (snd x)) <$> map_to_list m).

Definition afs_can_create (total : Z) (m : afs) (n : list Z) (size : Z) : bool :=
  (blocks_for size <=? 127) && bool_decide (m !! n = None) &&
  (Z.of_nat (base.size m) <? TFS_MAX_FILES) &&
  (afs_used m + 1 + blocks_for size <=? total).

Definition afs_create (total : Z) (n : list Z) (size : Z) (m : afs) : Z * afs :=
  if afs_can_create total m n size
  then (VFS_OK, <[n := replicate (Z.to_nat size) 0]> m) else (VFS_ERROR, m).

Definition afs_remove (n : list Z) (m : afs) : Z * afs :=
  match m !! n with
  | Some _ => (VFS_OK, delete n m)
  | None => (VFS_NOT_FOUND, m)
  end.

(** The part of [data] a transfer of [len] bytes at [off] covers. *)
Definition afs_span (data : list Z) (len off : Z) : Z := Z.min len (Z.of_nat (length data) - off).

Definition afs_slice (data : list Z) (len off : Z) : list Z :=
  take (Z.to_nat (afs_span data len off)) (drop (Z.to_nat off) data).

Definition afs_write (n : list Z) (buf : list Z) (len off : Z) (m : afs) : Z * afs :=
  match m !! n with
  | Some data =>
      if (off <? 0) || (Z.of_nat (length data) <? off) then (VFS_ERROR, m) else
      let k := afs_span data len off in
      (k, <[n := put data (Z.to_nat off) (take (Z.to_nat k) buf)]> m)
  | None => (VFS_NOT_FOUND, m)
  end.

Definition afs_read (n : list Z) (len off : Z) (m : afs) : Z * list Z :=
  match m !! n with
  | Some data =>
      if (off <? 0) || (Z.of_nat (length data) <? off) then (VFS_ERROR, [])
      else (afs_span data len off, afs_slice data len off)
  | None => (VFS_NOT_FOUND, [])
  end.

(** ** The view of a volume *)
Section view.
Context {D : Type} {dev : BlockDevice D} {spec : BlockDeviceSpec D}.

(** The map from the names in a directory to what [g] says of the files. *)
Definition dir_list {A} (g : file → A) (dir : directory) : list (list Z * A) :=
  (λ f, (f_name f, g f)) <$> files dir.
Definition dir_map {A} (g : file → A) (dir : directory) : gmap (list Z) A :=
  list_to_map (dir_list g dir).

(** The contents of the files, and their numbers. *)
Definition view (t : tfs_t) (d : D) (dir : directory) : afs := dir_map (file_data t d) dir.
Definition inodes (dir : directory) : gmap (list Z) Z := dir_map f_inode dir.

Lemma elem_of_files f dir : f ∈ files dir ↔ ∃ i, dir !! i = Some (Some f).
Proof.
  unfold files. rewrite list_elem_of_omap. setoid_rewrite list_elem_of_lookup. naive_solver.
Qed.

Lemma files_length dir : (length (files dir) ≤ length dir)%nat.
Proof. unfold files, omap. induction dir as [|[f|] dir IH]; simpl in *; lia. Qed.

(** Names in the directory are distinct. *)
Lemma files_names_nodup total dir : dir_ok total dir → NoDup (f_name <$> files dir).
Proof.
  intros [_ _ Hn _ _]. induction dir as [|o dir IH]; [constructor|].
  assert (IH' : NoDup (f_name <$> files dir)).
  { apply IH. intros i j f g Hi Hj E. assert (S i = S j) by (by eapply (Hn (S i) (S j))). lia. }
  destruct o as [f|]; [|done]. simpl. constructor; [|done].
  intros (g & E & Hg)%list_elem_of_fmap. apply elem_of_files in Hg as [i Hi].
  by specialize (Hn 0%nat (S i) f g eq_refl Hi E).
Qed.

Lemma dir_map_lookup {A} (g : file → A) total dir i f :
  dir_ok total dir → dir !! i = Some (Some f) → dir_map g dir !! f_name f = Some (g f).
Proof.
  intros Hd Hi. apply elem_of_list_to_map_1.
  - unfold dir_list. rewrite <- list_fmap_compose. by eapply (files_names_nodup total).
  - apply list_elem_of_fmap. exists f. split; [done|]. apply elem_of_files. eauto.
Qed.

Lemma dir_map_None {A} (g : file → A) dir n :
  (∀ i f, dir !! i = Some (Some f) → f_name f ≠ n) → dir_map g dir !! n = None.
Proof.
  intros Hn. apply not_elem_of_list_to_map. unfold dir_list.
  rewrite <- list_fmap_compose. intros (f & E & (i & Hi)%elem_of_files)%list_elem_of_fmap.
  by eapply Hn.
Qed.

Lemma dir_map_Some {A} (g : file → A) total dir n x :
  dir_ok total dir → dir_map g dir !! n = Some x →
  ∃ i f, dir !! i = Some (Some f) ∧ f_name f = n ∧ x = g f.
Proof.
  intros Hd Hv. destruct (decide (n ∈ f_name <$> files dir)) as [Hin|Hin].
  - apply list_elem_of_fmap in Hin as (f & -> & (i & Hi)%elem_of_files).
    exists i, f. split_and!; [done|done|]. rewrite (dir_map_lookup g total) with (i := i) in Hv by done.
    by simplify_eq.
  - rewrite dir_map_None in Hv; [done|]. intros i f Hi <-. apply Hin, list_elem_of_fmap.
    exists f. split; [done|]. apply elem_of_files. eauto.
Qed.

Lemma view_lookup total t d dir i f :
  dir_ok total dir → dir !! i = Some (Some f) → view t d dir !! f_name f = Some (file_data t d f).
Proof. apply dir_map_lookup. Qed.

Lemma view_lookup_None t d dir n :
  (∀ i f, dir !! i = Some (Some f) → f_name f ≠ n) → view t d dir !! n = None.
Proof. apply dir_map_None. Qed.

(** The directory's lookup and the view's. *)
Lemma dir_lookup_view total t d dir n :
  dir_ok total dir → n ≠ [] →
  match dir_lookup dir n with
  | Some (i, o) => ∃ f, o = Some f ∧ dir !! i = Some (Some f) ∧ f_name f = n ∧
      view t d dir !! n = Some (file_data t d f)
  | None => view t d dir !! n = None
  end.
Proof.
  intros Hd Hne. unfold dir_lookup. destruct (list_find _ dir) as [[i o]|] eqn:E.
  - apply list_find_Some in E as (Hi & Hn & _). destruct o as [f|]; simpl in Hn; [|by subst].
    exists f. split_and!; try done. rewrite <- Hn. by eapply (view_lookup total).
  - apply list_find_None in E. apply view_lookup_None. intros i f Hi Hn.
    rewrite Forall_lookup in E. by apply (E i (Some f)).
Qed.

(** Two directories with the same files but the one called [n]. *)
Definition same_but (n : list Z) (dir dir' : directory) : Prop :=
  ∀ f, f_name f ≠ n → (∃ i, dir !! i = Some (Some f)) ↔ (∃ j, dir' !! j = Some (Some f)).

Lemma dir_map_ext {A} (g g' : file → A) total total' dir dir' (n : list Z) (o : option A) :
  dir_ok total dir → dir_ok total' dir' → same_but n dir dir' →
  (∀ i f, dir !! i = Some (Some f) → f_name f ≠ n → g' f = g f) →
  dir_map g' dir' !! n = o →
  dir_map g' dir' = partial_alter (λ _, o) n (dir_map g dir).
Proof.
  intros Hd Hd' Hs Hg Hn. apply map_eq. intros k. destruct (decide (k = n)) as [->|Hkn].
  { by rewrite lookup_partial_alter_eq. }
  rewrite lookup_partial_alter_ne by done.
  destruct (dir_map g dir !! k) as [x|] eqn:E.
  - apply (dir_map_Some g total) in E as (i & f & Hi & <- & ->); [|done].
    destruct (proj1 (Hs f Hkn)) as (j & Hj); [by exists i|]. rewrite <- (Hg i f) by done.
    by eapply (dir_map_lookup g' total').
  - apply dir_map_None. intros j f Hj <-. destruct (proj2 (Hs f Hkn)) as [i Hi]; [by exists j|].
    by rewrite (dir_map_lookup g total) with (i := i) in E.
Qed.

Lemma file_data_length t d dir i f :
  fs_rep t d dir → dir !! i = Some (Some f) → Z.of_nat (length (file_data t d f)) = f_size f.
Proof.
  intros Hr Hf. pose proof (file_geometry t d dir i f Hr Hf) as (? & _ & _ & ? & _).
  unfold file_data. rewrite length_take, (data_length t d dir i f Hr Hf). lia.
Qed.

(** The block count of the abstract file system is the directory's. *)
Lemma used_view t d dir :
  fs_rep t d dir → Z.of_nat (length (used dir)) = afs_used (view t d dir).
Proof.
  intros Hr. unfold used, afs_used, view, dir_map. rewrite length_app. cbn [length].
  assert (Hp : map_to_list (list_to_map (dir_list (file_data t d) dir) : afs) ≡ₚ dir_list (file_data t d) dir).
  { apply map_to_list_to_map. unfold dir_list. rewrite <- list_fmap_compose.
    eapply (files_names_nodup (totalblocks t)), Hr. }
  assert (Hs : ∀ l l' : list Z, l ≡ₚ l' → foldr Z.add 0 l = foldr Z.add 0 l').
  { induction 1; simpl; lia. }
  rewrite (Hs _ _ (fmap_Permutation _ _ _ Hp)). unfold dir_list.
  assert (Hall : ∀ f, f ∈ files dir → file_cost (file_data t d f) = Z.of_nat (length (file_used f))).
  { intros f (i & Hi)%elem_of_files. unfold file_cost. rewrite (file_data_length _ _ _ _ _ Hr Hi).
    rewrite <- (fo_blocks _ (do_files _ _ (r_dir _ _ _ Hr) _ _ Hi)). simpl. lia. }
  clear Hr Hp. induction dir as [|[f|] dir IH]; [done| |by apply IH].
  simpl in *. rewrite length_app. rewrite Hall by (left; done).
  assert (∀ g, g ∈ files dir → file_cost (file_data t d g) = Z.of_nat (length (file_used g)))
    by (intros g Hg; apply Hall; by right). specialize (IH H). unfold fmap in *. lia.
Qed.

Lemma size_view t d dir :
  fs_rep t d dir → (Z.of_nat (size (view t d dir)) < TFS_MAX_FILES ↔ None ∈ dir).
Proof.
  intros Hr. unfold view, dir_map. rewrite <- length_map_to_list, map_to_list_to_map.
  2: { unfold dir_list. rewrite <- list_fmap_compose.
       eapply (files_names_nodup (totalblocks t)), Hr. }
  unfold dir_list. rewrite length_fmap, <- (do_len _ _ (r_dir _ _ _ Hr)), <- Nat2Z.inj_lt.
  clear Hr. induction dir as [|[f|] dir IH]; cbn [length files omap list_omap id].
  - split; [lia|]. by intros ?%not_elem_of_nil.
  - rewrite elem_of_cons. fold (files dir). simpl. rewrite <- Nat.succ_lt_mono, IH. naive_solver.
  - split; [by left|]. intros _. pose proof (files_length dir). unfold files in *. lia.
Qed.

Lemma can_create_view t d dir n size :
  fs_rep t d dir → n ≠ [] →
  afs_can_create (totalblocks t) (view t d dir) n size = true ↔
  can_create (totalblocks t) dir n size.
Proof.
  intros Hr Hn. unfold afs_can_create.
  rewrite !andb_true_iff, !Z.leb_le, Z.ltb_lt, bool_decide_eq_true.
  rewrite (size_view t d dir Hr), <- (used_view t d dir Hr).
  pose proof (dir_lookup_view (totalblocks t) t d dir n (r_dir _ _ _ Hr) Hn) as Hl.
  split.
  - intros [[[? Hv] ?] ?]. split; try done.
    destruct (dir_lookup dir n) as [[i o]|]; [|done]. destruct Hl as (f & _ & _ & _ & E). congruence.
  - intros [? Hv ? ?]. rewrite Hv in Hl. by split_and!.
Qed.

(** ** Refinement of the operations *)

(** The volume [t] on [d], [total] blocks long, holds the files [m], whose
    numbers are [h]. *)
Definition holds (total : Z) (t : tfs_t) (d : D) (m : afs) (h : gmap (list Z) Z) : Prop :=
  ∃ dir, fs_rep t d dir ∧ view t d dir = m ∧ inodes dir = h ∧ totalblocks t = total.

(** The volume holds the files [m]. *)
Definition stores (total : Z) (t : tfs_t) (d : D) (m : afs) : Prop :=
  ∃ h, holds total t d m h.

Lemma returns_ensures {A} (m : outcome A) (P Q : A → Prop) :
  returns m P → ensures m Q → returns m (λ a, P a ∧ Q a).
Proof. by destruct m. Qed.

Lemma file_data_same t t' d d' f :
  startblock t' = startblock t → same_dev d d' → file_data t' d' f = file_data t d f.
Proof.
  intros E Hs. unfold file_data, file_blocks_data. do 2 f_equal. apply list_fmap_ext.
  intros _ b _. unfold vblock. by rewrite E, (sd_contents _ _ Hs).
Qed.

Lemma dir_map_data {A} (g g' : file → A) dir :
  (∀ i f, dir !! i = Some (Some f) → g' f = g f) → dir_map g' dir = dir_map g dir.
Proof.
  intros Hg. unfold dir_map, dir_list. f_equal. apply list_fmap_ext. intros k f Hf. f_equal.
  apply list_elem_of_lookup_2, elem_of_files in Hf as [j Hj]. by eapply Hg.
Qed.

Lemma view_same t t' d d' dir :
  startblock t' = startblock t → same_dev d d' → view t' d' dir = view t d dir.
Proof. intros E Hs. apply dir_map_data. intros i f _. by apply file_data_same. Qed.

Lemma insert_same_but dir i o n :
  dir !! i = Some o → (slot_name o = n ∨ o = None) →
  ∀ o', (slot_name o' = n ∨ o' = None) → same_but n dir (<[i:=o']> dir).
Proof.
  intros Hi Ho o' Ho' f Hf. pose proof (lookup_lt_Some _ _ _ Hi). split; intros [j Hj].
  - exists j. rewrite list_lookup_insert_ne; [done|]. intros ->. rewrite Hi in Hj.
    destruct Ho; naive_solver.
  - destruct (decide (i = j)) as [<-|Hij].
    + rewrite list_lookup_insert_eq in Hj by done. destruct Ho'; naive_solver.
    + rewrite list_lookup_insert_ne in Hj by done. eauto.
Qed.

Lemma file_data_other t t' d d' dir j g :
  fs_rep t d dir → dir !! j = Some (Some g) → startblock t' = startblock t →
  (∀ b, b ∈ used dir → 3 ≤ b → vblock t d' b = vblock t d b) →
  file_data t' d' g = file_data t d g.
Proof.
  intros Hr Hj E Hv. unfold file_data, file_blocks_data. do 2 f_equal.
  apply list_fmap_ext. intros k b Hb. destruct (inode_range _ _ _ _ _ Hr Hj) as (_ & Hall & _).
  rewrite Forall_lookup in Hall. specialize (Hall _ _ Hb). specialize (Hv b).
  unfold vblock in *. rewrite E. apply Hv; [|lia]. unfold used. apply elem_of_app. right.
  apply elem_of_concat. exists j, (file_used g). rewrite list_lookup_fmap, Hj. split; [done|].
  right. by eapply list_elem_of_lookup_2.
Qed.

Lemma create_refines total t d m h fname n size :
  holds total t d m h → cstr fname n → name_ok n → 0 ≤ size < 2 ^ 31 - 512 →
  returns (tfs_create Big fname size t d) (λ '(r, (t', d')),
    r = fst (afs_create total n size m) ∧
    ∃ h', holds total t' d' (snd (afs_create total n size m)) h' ∧ delete n h' = delete n h ∧
      (afs_can_create total m n size = false → h' = h)).
Proof.
  intros (dir & Hr & <- & <- & <-) Hc Hn Hsz. pose proof (proj1 Hn) as Hne.
  eapply returns_mono; [apply returns_ensures;
    [by apply (tfs_create_spec t d dir fname n size)|apply create_lock]|].
  intros [r [t' d']] [[E Hcase] (_ & _ & Etot)]. simpl in Etot.
  pose proof (can_create_view t d dir n size Hr Hne) as Hcv. unfold afs_create.
  destruct Hcase as [(Hcc & -> & i & ino & bl & Hi & Hr' & Hz & Hother)|(Hcc & -> & Hr' & Hs)].
  - rewrite (proj2 Hcv Hcc). split; [done|]. set (f := File n ino size bl) in *.
    assert (Hfi : <[i:=Some f]> dir !! i = Some (Some f))
      by (apply list_lookup_insert_eq; by eapply lookup_lt_Some).
    assert (Hsb : same_but n dir (<[i:=Some f]> dir))
      by (eapply insert_same_but; [done|by right|by left]).
    exists (inodes (<[i:=Some f]> dir)). split_and!.
    + exists (<[i:=Some f]> dir). split_and!; [done| |done|done].
      eapply (dir_map_ext _ _ (totalblocks t) (totalblocks t')); [apply Hr|apply Hr'|done|..].
      * intros j g Hj _. by eapply file_data_other.
      * change n with (f_name f). erewrite dir_map_lookup; [|apply Hr'|done]. by rewrite Hz.
    + unfold inodes. rewrite (dir_map_ext f_inode f_inode (totalblocks t) (totalblocks t')
        dir (<[i:=Some f]> dir) n _ (r_dir _ _ _ Hr) (r_dir _ _ _ Hr') Hsb ltac:(done) eq_refl).
      apply delete_partial_alter_eq.
    + done.
  - destruct (afs_can_create _ _ _ _); [by destruct Hcc; apply Hcv|].
    split; [done|]. exists (inodes dir). split; [|by split]. exists dir. split_and!; [done| |done|done].
    by apply view_same.
Qed.

Lemma remove_refines total t d m h fname n :
  holds total t d m h → cstr fname n → n ≠ [] → Forall is_u8 n →
  returns (tfs_remove Big fname t d) (λ '(r, (t', d')),
    r = fst (afs_remove n m) ∧ holds total t' d' (snd (afs_remove n m)) (delete n h)).
Proof.
  intros (dir & Hr & <- & <- & <-) Hc Hne Hu.
  eapply returns_mono; [apply returns_ensures;
    [by apply (tfs_remove_spec t d dir fname n)|apply remove_lock]|].
  intros [r [t' d']] [(E & Hv & Hcase) (_ & _ & Etot)]. simpl in Etot. unfold afs_remove.
  assert (Hdata : ∀ j g, dir !! j = Some (Some g) → file_data t' d' g = file_data t d g).
  { intros j g Hj. eapply file_data_other; try done. auto. }
  pose proof (dir_lookup_view (totalblocks t) t d dir n (r_dir _ _ _ Hr) Hne) as Hl.
  destruct (dir_lookup dir n) as [[i o]|] eqn:El.
  - destruct Hl as (f & -> & Hi & Hfn & ->). destruct Hcase as [-> Hr']. split; [done|].
    assert (Hsb : same_but n dir (<[i:=None]> dir))
      by (eapply insert_same_but; [done|by left|by right]).
    assert (Hno : ∀ j g, <[i:=None]> dir !! j = Some (Some g) → f_name g ≠ n).
    { intros j g Hj Hgn. destruct (decide (i = j)) as [<-|Hij].
      - rewrite list_lookup_insert_eq in Hj by (by eapply lookup_lt_Some). done.
      - rewrite list_lookup_insert_ne in Hj by done. apply Hij.
        eapply (do_names _ _ (r_dir _ _ _ Hr)); [exact Hi|exact Hj|congruence]. }
    exists (<[i:=None]> dir). split_and!; [done|..|done];
      (eapply (dir_map_ext _ _ (totalblocks t) (totalblocks t'));
        [apply Hr|apply Hr'|done|by eauto|by apply dir_map_None]).
  - destruct Hcase as [-> Hr']. rewrite Hl. split; [done|]. exists dir.
    split_and!; [done|by apply dir_map_data| |done].
    symmetry. apply delete_id. apply dir_map_None.
    intros j g Hj Hgn. apply list_find_None in El. rewrite Forall_lookup in El.
    by apply (El j (Some g)).
Qed.

Lemma holds_same total t t' d d' dir :
  fs_rep t' d' dir → same_dev d d' → free t (0, (t', d')) → totalblocks t = total →
  holds total t' d' (view t d dir) (inodes dir).
Proof.
  intros Hr Hs (_ & E & Et) <-. exists dir. split_and!; [done| |done|done]. by apply view_same.
Qed.

Lemma open_refines total t d m h fname n :
  holds total t d m h → cstr fname n → n ≠ [] → Forall is_u8 n →
  returns (tfs_open Big fname t d) (λ '(r, (t', d')), holds total t' d' m h ∧
    match m !! n with
    | Some _ => 3 ≤ r ∧ h !! n = Some r
    | None => r = VFS_NOT_FOUND
    end).
Proof.
  intros (dir & Hr & <- & <- & <-) Hc Hne Hu.
  eapply returns_mono; [apply returns_ensures;
    [by apply (tfs_open_spec t d dir fname n)|apply open_lock]|].
  intros [r [t' d']] [(Hr' & Hs & _ & Hcase) Hfree].
  split; [by eapply holds_same|].
  pose proof (dir_lookup_view (totalblocks t) t d dir n (r_dir _ _ _ Hr) Hne) as Hl.
  destruct (dir_lookup dir n) as [[i o]|]; [|by rewrite Hl].
  destruct Hl as (f & -> & Hi & Hfn & ->). subst r.
  destruct (inode_range _ _ _ _ _ Hr Hi) as (Hir & _). split; [lia|].
  subst n. by eapply dir_map_lookup; [apply Hr|].
Qed.

Lemma take_put (l c : list Z) (off s : nat) :
  (off ≤ length l)%nat → (off + length c ≤ s)%nat → take s (put l off c) = put (take s l) off c.
Proof.
  intros Hl Hs. unfold put. rewrite take_take, Nat.min_l, skipn_firstn_comm by lia.
  rewrite take_app_ge by (rewrite length_take; lia).
  rewrite length_take, Nat.min_l by lia.
  rewrite take_app_ge by lia. by rewrite Nat.sub_add_distr.
Qed.

Lemma put_slice (l c : list Z) (off n : nat) :
  (off ≤ length l)%nat → length c = n → take n (drop off (put l off c)) = c.
Proof.
  intros Hl <-. unfold put. rewrite drop_app_length' by (rewrite length_take; lia).
  apply take_app_length.
Qed.

Lemma file_blocks_start t t' d f :
  startblock t' = startblock t → file_blocks_data t' d f = file_blocks_data t d f.
Proof. intros E. unfold file_blocks_data, vblock. by rewrite E. Qed.

(** The error branch of a transfer that starts outside the file. *)
Lemma bad_offset (off size : Z) :
  (off <? 0) || (size <? off) = false → 0 ≤ off ≤ size.
Proof. intros [H1%Z.ltb_ge H2%Z.ltb_ge]%orb_false_iff. done. Qed.

Lemma read_refines total t d m h n ino bat_address addr buf len off :
  holds total t d m h → h !! n = Some ino → 0 ≤ len ≤ Z.of_nat (length buf) →
  returns (tfs_read Big bat_address ino addr buf len off t d) (λ '(buf', (r, (t', d'))),
    holds total t' d' m h ∧ r = fst (afs_read n len off m) ∧
    buf' = put buf 0 (snd (afs_read n len off m))).
Proof.
  intros (dir & Hr & <- & <- & <-) Hh Hlen.
  apply (dir_map_Some _ (totalblocks t)) in Hh as (i & f & Hi & <- & ->); [|apply Hr].
  unfold afs_read. rewrite (view_lookup (totalblocks t) t d dir i f) by (done || apply Hr).
  rewrite (file_data_length _ _ _ _ _ Hr Hi).
  pose proof (file_geometry t d dir i f Hr Hi) as (Hpos & _ & _ & Hle & Hsz).
  destruct ((off <? 0) || (f_size f <? off)) eqn:Eo.
  - pose proof (r_geo _ _ _ Hr) as Hg. destruct (inode_range _ _ _ _ _ Hr Hi) as (Hir & _).
    unfold tfs_read. rewrite (lock_P_ok t d Hg). cbn [outcome_bind].
    rewrite (fileid_ok t d dir i f Hr Hi).
    eapply (read_ok t d Hg); [done|lia|]. intros d1 Hs.
    cbn [buffer_inode set_inode]. rewrite (filesize_load t d dir i f Hr Hi). cbn [outcome_bind].
    change (from_big_endian32 Big (f_size f)) with (f_size f).
    rewrite s32_id by (pose proof (file_geometry t d dir i f Hr Hi); unfold is_s32; lia).
    rewrite Eo. cbn [returns fst snd]. rewrite put_nil. split_and!; [|done|done].
    eapply holds_same; [|exact Hs| |done]; [eapply fs_rep_same; try done|].
    + split; [apply (inode_block_ok t d dir i f Hr Hi)|apply (r_bufs _ _ _ Hr)].
    + split; [by rewrite (g_lock _ _ Hg)|done].
  - apply bad_offset in Eo. cbn [fst snd]. unfold afs_slice, afs_span.
    rewrite (file_data_length _ _ _ _ _ Hr Hi).
    eapply returns_mono; [apply returns_ensures;
      [apply (tfs_read_spec t d dir i f Hr Hi bat_address addr buf len off _ (proj1 Hlen) Eo eq_refl); lia
      |apply tread_lock]|].
    intros [buf' [r [t' d']]] [(-> & -> & Hr' & Hs) Hfree]. split_and!; [|done|done].
    by eapply holds_same.
Qed.

Lemma write_refines total t d m h n ino bat_address addr buf len off :
  holds total t d m h → h !! n = Some ino → 0 ≤ len ≤ Z.of_nat (length buf) → Forall is_u8 buf →
  returns (tfs_write Big bat_address ino addr buf len off t d) (λ '(r, (t', d')),
    r = fst (afs_write n buf len off m) ∧ holds total t' d' (snd (afs_write n buf len off m)) h).
Proof.
  intros (dir & Hr & <- & <- & <-) Hh Hlen Hu.
  apply (dir_map_Some _ (totalblocks t)) in Hh as (i & f & Hi & <- & ->); [|apply Hr].
  unfold afs_write. rewrite (view_lookup (totalblocks t) t d dir i f) by (done || apply Hr).
  rewrite (file_data_length _ _ _ _ _ Hr Hi).
  pose proof (file_geometry t d dir i f Hr Hi) as (Hpos & _ & _ & Hle & Hsz).
  destruct ((off <? 0) || (f_size f <? off)) eqn:Eo.
  - pose proof (r_geo _ _ _ Hr) as Hg. destruct (inode_range _ _ _ _ _ Hr Hi) as (Hir & _).
    unfold tfs_write. rewrite (lock_P_ok t d Hg). cbn [outcome_bind].
    rewrite (fileid_ok t d dir i f Hr Hi).
    eapply (read_ok t d Hg); [done|lia|]. intros d1 Hs.
    cbn [buffer_inode set_inode]. rewrite (filesize_load t d dir i f Hr Hi). cbn [outcome_bind].
    change (from_big_endian32 Big (f_size f)) with (f_size f).
    rewrite s32_id by (pose proof (file_geometry t d dir i f Hr Hi); unfold is_s32; lia).
    rewrite Eo. cbn [returns fst snd unlock_return]. split; [done|].
    eapply holds_same; [|exact Hs| |done]; [eapply fs_rep_same; try done|].
    + split; [apply (inode_block_ok t d dir i f Hr Hi)|apply (r_bufs _ _ _ Hr)].
    + split; [by rewrite (g_lock _ _ Hg)|done].
  - apply bad_offset in Eo. cbn [fst snd]. unfold afs_span. cbv zeta.
    rewrite (file_data_length _ _ _ _ _ Hr Hi).
    eapply returns_mono; [apply returns_ensures; [eapply (tfs_write_spec t d dir i f Hr Hi bat_address addr buf len off _
      (proj1 Hlen) Eo eq_refl); [lia|done]|apply twrite_lock]|].
    intros [r [t' d']] [(-> & Hr' & E & [Ho Hd _]) (_ & _ & Et)]. split; [done|].
    exists dir. split_and!; [done| |done|done].
    eapply (dir_map_ext _ _ (totalblocks t) (totalblocks t')); [apply Hr|apply Hr'|done|..].
    + intros j g Hj Hgn. eapply (other_file_data t t' d d' dir i j f g); try done. congruence.
    + change (dir_map (file_data t' d') dir) with (view t' d' dir). rewrite (view_lookup (totalblocks t') t' d' dir i f) by (done || apply Hr').
      f_equal. unfold file_data at 1. rewrite (file_blocks_start t t' d' f E), Hd.
      rewrite take_put; [done|rewrite (data_length t d dir i f Hr Hi)|rewrite length_take]; lia.
Qed.
End view.

(** ** Example volumes

    Two concrete TFS volumes on RAM disks, with the proofs that they are
    represented: a freshly formatted one and one with a file.  The witnesses of
    the properties of TFS and of the VFS use them. *)

(** ** A formatted volume

    An 8-block disk whose header, allocation table and directory are as the
    formatting tool leaves them: the three system blocks allocated, no files. *)
Definition empty_blocks : list (list Z) :=
  [replicate 512 0; block_bytes Big (7 :: replicate 127 0)] ++ replicate 6 (replicate 512 0).

Lemma empty_blocks_ok : image_ok empty_blocks.
Proof.
  unfold image_ok. apply (bool_decide_unpack _). vm_compute. exact I.
Qed.

Definition empty_disk : disk := Disk (Ramdisk empty_blocks []) empty_blocks_ok.
Definition empty_tfs : tfs_t :=
  Tfs 0 8 1 (replicate 512 0) (replicate 512 0) (replicate 512 0).
Definition empty_dir : directory := replicate 25 None.

Lemma zero_block : is_block (replicate 512 0).
Proof. split; [done|]. apply Forall_replicate. by vm_compute. Qed.

Lemma empty_geometry : geometry empty_tfs empty_disk.
Proof. split; by vm_compute. Qed.

Lemma empty_fs_rep : fs_rep empty_tfs empty_disk empty_dir.
Proof.
  assert (Hno : ∀ i o, empty_dir !! i = Some o → o = None ∧ (i < 25)%nat)
    by (intros i o [-> ?]%lookup_replicate; done).
  constructor; [apply empty_geometry|split; apply zero_block|..].
  - split; [done|..].
    + by intros i f [? _]%Hno.
    + by intros i j f g [? _]%Hno.
    + apply (bool_decide_unpack _). by vm_compute.
    + apply (bool_decide_unpack _). by vm_compute.
  - intros i o [-> Hi]%Hno. do 25 (destruct i as [|i]; [split; [by vm_compute|];
      split; [apply not_elem_of_nil|by eexists]|]). lia.
  - by intros i f [? _]%Hno.
  - intros p Hp. simpl in Hp.
    assert (Hc : p = 0 ∨ p = 1 ∨ p = 2 ∨ p = 3 ∨ p = 4 ∨ p = 5 ∨ p = 6 ∨ p = 7) by lia.
    destruct_or!; subst; by vm_compute.
Qed.

Lemma empty_holds : holds 8 empty_tfs empty_disk ∅ ∅.
Proof. exists empty_dir. split_and!; [apply empty_fs_rep|by vm_compute..]. Qed.

Lemma empty_stores : stores 8 empty_tfs empty_disk ∅.
Proof. exists ∅. exact empty_holds. Qed.

(** The file name "a". *)
Definition name_a : list Z := [97].

Lemma name_a_ok : name_ok name_a.
Proof. apply (bool_decide_unpack _). by vm_compute. Qed.

(** A volume with one file, "a", of 520 bytes in blocks 5 and 4. *)
Definition a_file : file := File name_a 3 520 [5; 4].
Definition a_md : list Z := [0; 0; 0; 3; 97] ++ replicate 507 0.
(** The header: the magic number and the volume name "d". *)
Definition a_header : list Z := [0; 0; 14; 161; 100] ++ replicate 507 0.
Definition a_blocks : list (list Z) :=
  [a_header; block_bytes Big (63 :: replicate 127 0); a_md;
   block_bytes Big ([520; 5; 4] ++ replicate 125 0); replicate 512 65; replicate 512 66;
   replicate 512 0; replicate 512 0].

Lemma a_blocks_ok : image_ok a_blocks.
Proof. unfold image_ok. apply (bool_decide_unpack _). vm_compute. exact I. Qed.

Definition a_disk : disk := Disk (Ramdisk a_blocks []) a_blocks_ok.
Definition a_dir : directory := Some a_file :: replicate 24 None.

Lemma a_dir_lookup i o :
  a_dir !! i = Some o → (i = 0%nat ∧ o = Some a_file) ∨ (o = None ∧ (0 < i < 25)%nat).
Proof.
  unfold a_dir. destruct i as [|i]; [intros [= <-]; by left|]. cbn [lookup list_lookup].
  intros [-> ?]%lookup_replicate. right. split; [done|lia].
Qed.

Lemma a_dir_ok : dir_ok 8 a_dir.
Proof.
  split; [done|..].
  - intros i f [[-> [= ->]]|[? _]]%a_dir_lookup; [|done].
    split; [apply name_a_ok|by vm_compute..].
  - intros i j f g [[-> _]|[? _]]%a_dir_lookup [[-> _]|[? _]]%a_dir_lookup; done.
  - apply (bool_decide_unpack _). by vm_compute.
  - apply (bool_decide_unpack _). by vm_compute.
Qed.

Lemma a_slots i o : a_dir !! i = Some o → slot_rep a_md i o.
Proof.
  intros [[-> ->]|[-> Hi]]%a_dir_lookup.
  - split; [by vm_compute|]. split; [by apply (bool_decide_unpack _)|by eexists].
  - do 25 (destruct i as [|i]; [first [lia|split; [by vm_compute|];
      split; [apply not_elem_of_nil|by eexists]]|]). lia.
Qed.

Lemma a_inode : inode_rep (vblock empty_tfs a_disk 3) a_file.
Proof.
  split; [by vm_compute|]. intros j Hj.
  assert (Hall : Forall (λ j, load32 Big (vblock empty_tfs a_disk 3) (4 + 4 * Z.of_nat j)
    = Done (default 0 (f_blocks a_file !! j))) (seq 0 127)).
  { vm_compute. repeat constructor. }
  rewrite Forall_forall in Hall. specialize (Hall (Z.to_nat j)).
  rewrite Z2Nat.id in Hall by lia. apply Hall. apply elem_of_seq. lia.
Qed.

Lemma a_fs_rep : fs_rep empty_tfs a_disk a_dir.
Proof.
  constructor; [split; by vm_compute|split; apply zero_block|exact a_dir_ok|exact a_slots|..].
  - intros i f [[_ [= ->]]|[? _]]%a_dir_lookup; [exact a_inode|done].
  - intros p Hp. simpl in Hp.
    assert (Hc : p = 0 ∨ p = 1 ∨ p = 2 ∨ p = 3 ∨ p = 4 ∨ p = 5 ∨ p = 6 ∨ p = 7) by lia.
    destruct_or!; subst; by vm_compute.
Qed.
