(* ===== verification/TfsProps.v ===== *)
(** * Properties of the trivial file system

    The contract of each operation on a well-formed volume against the abstract
    file system of TfsView.v, the refinement for whole histories of client
    operations, and the lock discipline on any device; with witnesses on an
    8-block RAM disk. *)

From S2P Require Import Prelude Bitmap Libc BlockDev Tfs TfsSpec TfsRead TfsIO TfsAlloc TfsCreate TfsLock TfsView.

(** ** Client histories

    What the VFS does with a file system: create and remove files by name, and
    open a file by name and transfer bytes with the number [open] returned.
    [addr] is the address of the client's buffer. *)
Inductive tfs_op :=
| OpCreate (n : list Z) (size : Z)
| OpRemove (n : list Z)
| OpWrite (n buf : list Z) (off : Z)
| OpRead (n : list Z) (len off : Z).

Definition op_ok (op : tfs_op) : Prop :=
  match op with
  | OpCreate n size => name_ok n ∧ 0 ≤ size < 2 ^ 31 - 512
  | OpRemove n => name_ok n
  | OpWrite n buf off => name_ok n ∧ Forall is_u8 buf
  | OpRead n len off => name_ok n ∧ 0 ≤ len
  end.

Section client.
Context {D : Type} {dev : BlockDevice D} (en : endian) (bat_address addr : Z).

Definition cname (n : list Z) : list Z := n ++ [0].

(** The answer of an operation: its result and the bytes it read. *)
Definition run_op (op : tfs_op) (t : tfs_t) (d : D) : outcome ((Z * list Z) * (tfs_t * D)) :=
  match op with
  | OpCreate n size =>
      let* '(r, s) := tfs_create en (cname n) size t d in Done ((r, []), s)
  | OpRemove n => let* '(r, s) := tfs_remove en (cname n) t d in Done ((r, []), s)
  | OpWrite n buf off =>
      let* '(ino, (t, d)) := tfs_open en (cname n) t d in
      if ino <? 0 then Done ((ino, []), (t, d)) else
      let* '(r, s) := tfs_write en bat_address ino addr buf (Z.of_nat (length buf)) off t d in
      Done ((r, []), s)
  | OpRead n len off =>
      let* '(ino, (t, d)) := tfs_open en (cname n) t d in
      if ino <? 0 then Done ((ino, []), (t, d)) else
      let* '(buf, (r, s)) := tfs_read en bat_address ino addr (replicate (Z.to_nat len) 0) len off t d in
      Done ((r, take (Z.to_nat r) buf), s)
  end.

Fixpoint run_ops (ops : list tfs_op) (t : tfs_t) (d : D)
    : outcome (list (Z * list Z) * (tfs_t * D)) :=
  match ops with
  | [] => Done ([], (t, d))
  | op :: ops =>
      let* '(a, (t, d)) := run_op op t d in
      let* '(l, s) := run_ops ops t d in Done (a :: l, s)
  end.
End client.

(** The same on the abstract file system. *)
Definition afs_op (total : Z) (op : tfs_op) (m : afs) : (Z * list Z) * afs :=
  match op with
  | OpCreate n size => let '(r, m') := afs_create total n size m in ((r, []), m')
  | OpRemove n => let '(r, m') := afs_remove n m in ((r, []), m')
  | OpWrite n buf off => let '(r, m') := afs_write n buf (Z.of_nat (length buf)) off m in ((r, []), m')
  | OpRead n len off => (afs_read n len off m, m)
  end.

Fixpoint afs_ops (total : Z) (ops : list tfs_op) (m : afs) : list (Z * list Z) * afs :=
  match ops with
  | [] => ([], m)
  | op :: ops =>
      let '(a, m1) := afs_op total op m in
      let '(l, m2) := afs_ops total ops m1 in (a :: l, m2)
  end.

Section client_refines.
Context {D : Type} {dev : BlockDevice D} {spec : BlockDeviceSpec D} (bat_address addr : Z).

Lemma cname_cstr n : name_ok n → cstr (cname n) n.
Proof. intros (_ & _ & _ & H0). split; [done|by exists []]. Qed.

Lemma afs_read_length n len off m :
  0 ≤ len → fst (afs_read n len off m) < 0 ∧ snd (afs_read n len off m) = [] ∨
  fst (afs_read n len off m) = Z.of_nat (length (snd (afs_read n len off m))) ∧
  fst (afs_read n len off m) ≤ len.
Proof.
  intros Hl. unfold afs_read. destruct (m !! n) as [data|]; [|by left].
  destruct ((off <? 0) || _) eqn:E; [by left|]. apply bad_offset in E. right.
  simpl. unfold afs_slice, afs_span. rewrite length_take, length_drop. split; lia.
Qed.

Lemma run_op_refines total op t d m :
  op_ok op → stores total t d m →
  returns (run_op Big bat_address addr op t d) (λ '(a, (t', d')),
    a = fst (afs_op total op m) ∧ stores total t' d' (snd (afs_op total op m))).
Proof.
  intros Hop [h Hh]. destruct op as [n size|n|n buf off|n len off]; simpl in Hop |- *.
  - destruct Hop as [Hn Hsz]. apply returns_bind. eapply returns_mono;
      [by apply (create_refines total t d m h (cname n) n size); [|apply cname_cstr|..]|].
    intros [r [t' d']] (-> & h' & Hh' & _). destruct (afs_create total n size m). by split; [|exists h'].
  - apply returns_bind. eapply returns_mono;
      [by apply (remove_refines total t d m h (cname n) n); [|apply cname_cstr|apply Hop..]|].
    intros [r [t' d']] (-> & Hh'). destruct (afs_remove n m). by split; [|eexists].
  - destruct Hop as [Hn Hu]. apply returns_bind. eapply returns_mono;
      [by apply (open_refines total t d m h (cname n) n); [|apply cname_cstr|apply Hn..]|].
    intros [ino [t1 d1]] [Hh1 Hino]. destruct (m !! n) as [data|] eqn:Em.
    + destruct Hino as [Hpos Hop]. destruct (Z.ltb_spec ino 0); [lia|]. apply returns_bind.
      eapply returns_mono; [by apply (write_refines total t1 d1 m h n ino); [..|lia|]|].
      intros [r [t' d']] (-> & Hh'). destruct (afs_write n buf _ off m). by split; [|eexists].
    + subst ino. simpl. unfold afs_write. rewrite Em. by split; [|exists h].
  - destruct Hop as [Hn Hl]. apply returns_bind. eapply returns_mono;
      [by apply (open_refines total t d m h (cname n) n); [|apply cname_cstr|apply Hn..]|].
    intros [ino [t1 d1]] [Hh1 Hino]. destruct (m !! n) as [data|] eqn:Em.
    + destruct Hino as [Hpos Hop]. destruct (Z.ltb_spec ino 0); [lia|]. apply returns_bind.
      eapply returns_mono; [by apply (read_refines total t1 d1 m h n ino);
        [..|rewrite length_replicate; lia]|].
      intros [buf [r [t' d']]] (Hh2 & -> & ->). split; [|by exists h].
      destruct (afs_read_length n len off m Hl) as [[Hneg Hnil]|[E Hle]];
        destruct (afs_read n len off m) as [r bs]; simpl in *; f_equal.
      * by rewrite Hnil, Z2Nat.nonpos by lia.
      * unfold put. simpl. by rewrite take_app_length' by lia.
    + subst ino. simpl. unfold afs_read. rewrite Em. by split; [|exists h].
Qed.

Lemma run_ops_refines total ops t d m :
  Forall op_ok ops → stores total t d m →
  returns (run_ops Big bat_address addr ops t d) (λ '(l, (t', d')),
    l = fst (afs_ops total ops m) ∧ stores total t' d' (snd (afs_ops total ops m))).
Proof.
  intros Hops. revert t d m. induction Hops as [|op ops Hop _ IH]; intros t d m Hh; [done|].
  cbn [run_ops afs_ops]. apply returns_bind.
  eapply returns_mono; [by apply (run_op_refines total op t d m)|].
  intros [a [t1 d1]] [-> Hh1]. destruct (afs_op total op m) as [a m1]. apply returns_bind.
  eapply returns_mono; [by apply IH|]. intros [l [t2 d2]] [-> Hh2].
  simpl in *. by destruct (afs_ops total ops m1).
Qed.
End client_refines.

(** ** Properties *)
Section properties.
Context {D : Type} {dev : BlockDevice D} {spec : BlockDeviceSpec D}.

(** C1. On the big-endian machine any sequence of file operations (create, remove,
    open and write, open and read, by name, at any offset) on a well-formed volume
    of a healthy device runs to the end without a panic, a fault or a deadlock, and
    every result and every byte read is the one of the abstract file system, a
    map from names to contents; the volume is well formed afterwards.  Names have 1
    to 15 characters and sizes to create are below 2^31 - 512. *)
Theorem tfs_history_refines bat_address addr total ops t d m :
  Forall op_ok ops → stores total t d m →
  returns (run_ops Big bat_address addr ops t d) (λ '(l, (t', d')),
    l = fst (afs_ops total ops m) ∧ stores total t' d' (snd (afs_ops total ops m))).
Proof. apply run_ops_refines. Qed.

(** [tfs_create] returns VFS_OK exactly when the size is at most 127 blocks,
    the name is new, a directory slot is free and enough blocks are free; then
    the directory has the file, of the given size and filled with zeros, and all
    other files keep their contents.  Otherwise it returns VFS_ERROR and no block
    of the disk changes. *)
Theorem tfs_create_correct t d dir fname n size :
  fs_rep t d dir → cstr fname n → name_ok n → 0 ≤ size < 2 ^ 31 - 512 →
  returns (tfs_create Big fname size t d) (create_post t d dir n size).
Proof. apply tfs_create_spec. Qed.

(** [tfs_remove] of a file in the directory returns VFS_OK, frees its
    directory slot and its blocks and changes no block but the allocation table
    and the directory; of another name it returns VFS_NOT_FOUND and the
    directory stays as it was. *)
Theorem tfs_remove_correct t d dir fname n :
  fs_rep t d dir → cstr fname n → n ≠ [] → Forall is_u8 n →
  returns (tfs_remove Big fname t d) (λ '(r, (t', d')),
    startblock t' = startblock t ∧ (∀ b, 3 ≤ b → vblock t d' b = vblock t d b) ∧
    match dir_lookup dir n with
    | Some (i, _) => r = VFS_OK ∧ fs_rep t' d' (<[i:=None]> dir)
    | None => r = VFS_NOT_FOUND ∧ fs_rep t' d' dir
    end).
Proof. apply tfs_remove_spec. Qed.

(** C23. Bytes written are read back: after [tfs_write] of [buf] at [off] inside
    the file, [tfs_read] at [off] of as many bytes as were written returns their
    number and puts exactly the written bytes in the reader's buffer, whatever
    the alignment of [off] and the number of blocks touched. *)
Theorem tfs_write_read bat_address addr addr2 t d dir i f buf off buf2 :
  fs_rep t d dir → dir !! i = Some (Some f) → 0 ≤ off ≤ f_size f → Forall is_u8 buf →
  (length buf ≤ length buf2)%nat →
  returns (tfs_write Big bat_address (f_inode f) addr buf (Z.of_nat (length buf)) off t d)
    (λ '(r, (t', d')), r = Z.min (Z.of_nat (length buf)) (f_size f - off) ∧
     returns (tfs_read Big bat_address (f_inode f) addr2 buf2 r off t' d')
       (λ '(buf', (r', (t2, d2))), r' = r ∧ take (Z.to_nat r) buf' = take (Z.to_nat r) buf ∧
          drop (Z.to_nat r) buf' = drop (Z.to_nat r) buf2 ∧ fs_rep t2 d2 dir)).
Proof.
  intros Hr Hi Hoff Hu Hb. set (n := Z.min (Z.of_nat (length buf)) (f_size f - off)).
  eapply returns_mono; [apply (tfs_write_spec t d dir i f Hr Hi bat_address addr buf
    (Z.of_nat (length buf)) off n); [lia|done|done|lia|done]|].
  intros [r [t' d']] (-> & Hr' & E & [_ Hd _]). split; [done|].
  eapply returns_mono; [apply (tfs_read_spec t' d' dir i f Hr' Hi bat_address addr2 buf2 n off n);
    [lia|done|lia|lia]|].
  intros [buf' [r' [t2 d2]]] (-> & -> & Hr2 & _). split_and!; [done|..|done].
  all: pose proof (file_geometry t d dir i f Hr Hi) as (_ & _ & _ & Hle & _);
    rewrite (file_data_slice t' d' f) by lia;
    rewrite (file_blocks_start t t' d' f E), Hd, put_slice
      by (rewrite ?length_take, ?(data_length t d dir i f Hr Hi); lia); unfold put; simpl.
  - by rewrite take_app_length' by (rewrite length_take; lia).
  - rewrite drop_app_length' by (rewrite length_take; lia). f_equal. rewrite length_take. lia.
Qed.

(** [tfs_read] of a file from an offset inside it returns the number of
    bytes available up to the size asked for and puts exactly those bytes of the
    file at the start of the caller's buffer, leaving the rest of the buffer, the
    directory and every block of the disk alone. *)
Theorem tfs_read_correct t d dir i f bat_address addr buf bufsize offset n :
  fs_rep t d dir → dir !! i = Some (Some f) →
  0 ≤ bufsize → 0 ≤ offset ≤ f_size f → n = Z.min bufsize (f_size f - offset) →
  n ≤ Z.of_nat (length buf) →
  returns (tfs_read Big bat_address (f_inode f) addr buf bufsize offset t d)
    (λ '(buf', (r, (t', d'))), r = n ∧
       buf' = put buf 0 (take (Z.to_nat n) (drop (Z.to_nat offset) (file_data t d f))) ∧
       fs_rep t' d' dir ∧ same_dev d d').
Proof. intros Hr Hf. by apply (tfs_read_spec t d dir i f Hr Hf). Qed.

(** The queries describe the volume: [tfs_open] answers the inode of the
    file with that name, or VFS_NOT_FOUND; [tfs_filecount] the number of files;
    [tfs_file] the name of the file with that index; and [tfs_getfree] the
    number of bytes in the blocks no file uses.  None of them changes a block. *)
Theorem tfs_queries_correct t d dir fname n idx buffer :
  fs_rep t d dir → cstr fname n → n ≠ [] → Forall is_u8 n →
  0 ≤ idx → 16 ≤ Z.of_nat (length buffer) →
  returns (tfs_open Big fname t d) (λ '(r, (t', d')), fs_rep t' d' dir ∧ same_dev d d' ∧
    r = match dir_lookup dir n with Some (_, Some f) => f_inode f | _ => VFS_NOT_FOUND end) ∧
  returns (tfs_filecount Big slash t d) (λ '(r, (t', d')), fs_rep t' d' dir ∧ same_dev d d' ∧
    r = Z.of_nat (length (files dir))) ∧
  returns (tfs_file Big slash idx buffer t d) (λ '(buf, (r, (t', d'))),
    fs_rep t' d' dir ∧ same_dev d d' ∧
    match files dir !! Z.to_nat idx with
    | Some f => r = VFS_OK ∧ cstr buf (f_name f)
    | None => r = VFS_ERROR ∧ buf = buffer
    end) ∧
  returns (tfs_getfree Big t d) (λ '(r, (t', d')), fs_rep t' d' dir ∧ same_dev d d' ∧
    r = (totalblocks t - Z.of_nat (length (used dir))) * TFS_BLOCK_SIZE).
Proof.
  intros Hr Hc Hne Hu Hidx Hbuf.
  assert (Hs : cstr slash [47]) by (split; [by apply not_elem_of_cons; split; [|apply not_elem_of_nil]|by exists []]).
  split_and!; [|by apply tfs_filecount_spec|by apply tfs_file_spec|by apply tfs_getfree_spec].
  eapply returns_mono; [by apply (tfs_open_spec t d dir fname n)|].
  intros [r [t' d']] (? & ? & _ & Hc'). split_and!; [done|done|].
  by destruct (dir_lookup dir n) as [[j [f|]]|].
Qed.
End properties.

Section lock_property.
Context {D : Type} {dev : BlockDevice D}.

(** C24. On any device, failing or not, for either byte order and any arguments,
    an operation that returns, on whatever path, has released the volume's lock
    exactly once and has not changed the volume's place or size. *)
Theorem tfs_lock_balanced en bat_address fname size fileid addr buf n off dirname idx t (d : D) :
  ensures (tfs_open en fname t d) (free t) ∧
  ensures (tfs_create en fname size t d) (free t) ∧
  ensures (tfs_remove en fname t d) (free t) ∧
  ensures (tfs_read en bat_address fileid addr buf n off t d) (λ r, free t (snd r)) ∧
  ensures (tfs_write en bat_address fileid addr buf n off t d) (free t) ∧
  ensures (tfs_getfree en t d) (free t) ∧
  ensures (tfs_filecount en dirname t d) (free t) ∧
  ensures (tfs_file en dirname idx buf t d) (λ r, free t (snd r)).
Proof.
  split_and!; [apply open_lock|apply create_lock|apply remove_lock|apply tread_lock|
    apply twrite_lock|apply getfree_lock|apply filecount_lock|apply file_lock].
Qed.
End lock_property.

(** ** Witnesses *)
Definition demo_ops : list tfs_op :=
  [OpCreate name_a 600; OpWrite name_a [1; 2; 3] 510; OpRead name_a 4 509; OpRemove name_a;
   OpRead name_a 4 0].

Lemma demo_ops_ok : Forall op_ok demo_ops.
Proof.
  repeat constructor; simpl; try lia; try done; apply name_a_ok || (unfold is_u8; lia).
Qed.

Lemma tfs_history_refines_witness :
  returns (run_ops Big 4096 8192 demo_ops empty_tfs empty_disk) (λ '(l, _),
    l = [(VFS_OK, []); (3, []); (4, [0; 1; 2; 3]); (VFS_OK, []); (VFS_NOT_FOUND, [])]).
Proof.
  apply (returns_mono _ _ _ (tfs_history_refines 4096 8192 8 demo_ops empty_tfs empty_disk ∅
    demo_ops_ok empty_stores)).
  intros [l [t' d']] [-> _]. vm_compute. reflexivity.
Defined.

Lemma name_a_cstr : cstr (cname name_a) name_a.
Proof. apply cname_cstr, name_a_ok. Qed.

Lemma tfs_create_correct_witness :
  returns (tfs_create Big (cname name_a) 600 empty_tfs empty_disk)
    (create_post empty_tfs empty_disk empty_dir name_a 600).
Proof.
  apply (tfs_create_correct empty_tfs empty_disk empty_dir (cname name_a) name_a 600).
  - exact empty_fs_rep.
  - exact name_a_cstr.
  - exact name_a_ok.
  - lia.
Defined.

Lemma tfs_remove_correct_witness :
  returns (tfs_remove Big (cname name_a) empty_tfs a_disk) (λ '(r, _), r = VFS_OK).
Proof.
  apply (returns_mono _ _ _ (tfs_remove_correct empty_tfs a_disk a_dir (cname name_a) name_a
    a_fs_rep name_a_cstr (proj1 name_a_ok) (proj1 (proj2 (proj2 name_a_ok))))).
  intros [r [t' d']] (_ & _ & H). exact (proj1 H).
Defined.

Lemma demo_bytes_ok : Forall is_u8 [1; 2; 3].
Proof. apply (bool_decide_unpack _). by vm_compute. Qed.

Lemma tfs_write_read_witness :
  returns (tfs_write Big 4096 (f_inode a_file) 8192 [1; 2; 3] 3 511 empty_tfs a_disk)
    (λ '(r, (t', d')), returns (tfs_read Big 4096 (f_inode a_file) 9000 [7; 7; 7; 7] r 511 t' d')
       (λ '(buf', (r', _)), r' = 3 ∧ take 3 buf' = [1; 2; 3])).
Proof.
  refine (returns_mono _ _ _ (tfs_write_read 4096 8192 9000 empty_tfs a_disk a_dir 0 a_file
    [1; 2; 3] 511 [7; 7; 7; 7] a_fs_rep eq_refl _ demo_bytes_ok _) _).
  - simpl. lia.
  - simpl. lia.
  - intros [r [t' d']] [-> H]. refine (returns_mono _ _ _ H _).
    intros [buf' [r' [t2 d2]]] (-> & E & _ & _). split; [reflexivity|exact E].
Defined.

Lemma tfs_read_correct_witness :
  returns (tfs_read Big 4096 (f_inode a_file) 9000 [7; 7; 7; 7; 7] 4 510 empty_tfs a_disk)
    (λ '(buf', (r, _)), r = 4 ∧ buf' = [66; 66; 65; 65; 7]).
Proof.
  refine (returns_mono _ _ _ (tfs_read_correct empty_tfs a_disk a_dir 0 a_file 4096 9000
    [7; 7; 7; 7; 7] 4 510 4 a_fs_rep eq_refl _ _ _ _) _).
  - lia.
  - simpl. lia.
  - reflexivity.
  - simpl. lia.
  - intros [buf' [r s]] H. destruct s as [t' d']. destruct H as (-> & -> & _).
    split; [reflexivity|]. vm_compute. reflexivity.
Defined.

Lemma tfs_queries_correct_witness :
  returns (tfs_open Big (cname name_a) empty_tfs a_disk) (λ '(r, _), r = 3) ∧
  returns (tfs_getfree Big empty_tfs a_disk) (λ '(r, _), r = 1024).
Proof.
  destruct (tfs_queries_correct empty_tfs a_disk a_dir (cname name_a) name_a 0 (replicate 16 0)
    a_fs_rep name_a_cstr (proj1 name_a_ok) (proj1 (proj2 (proj2 name_a_ok))))
    as (H1 & _ & _ & H2).
  - lia.
  - simpl. lia.
  - split.
    + refine (returns_mono _ _ _ H1 _). intros [r [t' d']] (_ & _ & ->). reflexivity.
    + refine (returns_mono _ _ _ H2 _). intros [r [t' d']] (_ & _ & ->). reflexivity.
Defined.
