(* ===== verification/Vfs.v ===== *)
(** * The virtual file system (fs/vfs.c)

    The table of mounted file systems, the table of open files, the gate that
    counts operations in progress, and the functions of vfs.c.  A pointer to an
    [fs_t] is a number, 0 for NULL; [drivers] holds the driver states the
    pointers lead to.  [FsDriver] is the interface of a file system: the function
    pointers of [fs_t]. *)

From S2P Require Import Prelude Libc Tfs.

Definition CONFIG_MAX_FILESYSTEMS : Z := 8.
Definition CONFIG_MAX_OPEN_FILES : Z := 512.

(** ** The interface of a file system driver ([fs_t]) *)
Class FsDriver (F : Type) := {
  fs_volume_name : F → list Z;
  fs_unmount : F → outcome (Z * F);
  fs_open : list Z → F → outcome (Z * F);
  fs_close : Z → F → outcome (Z * F);
  (** The file's number, the address and contents of the buffer, the size and
      the offset. *)
  fs_read : Z → Z → list Z → Z → Z → F → outcome (list Z * (Z * F));
  fs_write : Z → Z → list Z → Z → Z → F → outcome (Z * F);
  fs_create : list Z → Z → F → outcome (Z * F);
  fs_remove : list Z → F → outcome (Z * F);
  fs_getfree : F → outcome (Z * F);
  fs_filecount : list Z → F → outcome (Z * F);
  fs_file : list Z → Z → list Z → F → outcome (list Z * (Z * F))
}.

(** ** State *)
Record vfs_entry_t := VfsEntry { filesystem : Z; mountpoint : list Z }.
Record openfile_entry_t := Openfile { of_filesystem : Z; fileid : Z; seek_position : Z }.

(** The four semaphores of the module; a semaphore is the value it counts, or
    [None] where the pointer is NULL. *)
Inductive sem := TableSem | OpenSem | OpSem | UnmountSem.

Record vfs (F : Type) := Vfs {
  vfs_table_sem : option Z;
  filesystems : list vfs_entry_t;
  openfile_table_sem : option Z;
  files : list openfile_entry_t;
  vfs_op_sem : option Z;
  vfs_unmount_sem : option Z;
  vfs_ops : Z;
  vfs_usable : bool;
  drivers : gmap Z F
}.
Arguments Vfs {F}.
Arguments vfs_table_sem {F}.
Arguments filesystems {F}.
Arguments openfile_table_sem {F}.
Arguments files {F}.
Arguments vfs_op_sem {F}.
Arguments vfs_unmount_sem {F}.
Arguments vfs_ops {F}.
Arguments vfs_usable {F}.
Arguments drivers {F}.

Section state.
Context {F : Type}.
Implicit Types (s : vfs F).

Definition sem_value (k : sem) s : option Z :=
  match k with
  | TableSem => vfs_table_sem s | OpenSem => openfile_table_sem s
  | OpSem => vfs_op_sem s | UnmountSem => vfs_unmount_sem s
  end.

Definition set_sem (k : sem) (v : Z) s : vfs F :=
  let 'Vfs a b c d e f g h i := s in
  match k with
  | TableSem => Vfs (Some v) b c d e f g h i
  | OpenSem => Vfs a b (Some v) d e f g h i
  | OpSem => Vfs a b c d (Some v) f g h i
  | UnmountSem => Vfs a b c d e (Some v) g h i
  end.

Definition set_filesystems (x : list vfs_entry_t) s : vfs F :=
  let 'Vfs a b c d e f g h i := s in Vfs a x c d e f g h i.
Definition set_files (x : list openfile_entry_t) s : vfs F :=
  let 'Vfs a b c d e f g h i := s in Vfs a b c x e f g h i.
Definition set_ops (x : Z) s : vfs F :=
  let 'Vfs a b c d e f g h i := s in Vfs a b c d e f x h i.
Definition set_usable (x : bool) s : vfs F :=
  let 'Vfs a b c d e f g h i := s in Vfs a b c d e f g x i.
Definition set_drivers (x : gmap Z F) s : vfs F :=
  let 'Vfs a b c d e f g h i := s in Vfs a b c d e f g h x.

Definition semaphore_P (k : sem) s : outcome (vfs F) :=
  match sem_value k s with
  | None => Fault
  | Some v => if 0 <? v then Done (set_sem k (v - 1) s) else Blocked
  end.

Definition semaphore_V (k : sem) s : outcome (vfs F) :=
  match sem_value k s with
  | None => Fault
  | Some v => Done (set_sem k (v + 1) s)
  end.

(** ** Start and shutdown *)

(** [created k] tells whether [semaphore_create] found a semaphore for [k]. *)
Definition vfs_init (created : sem → bool) s : outcome (vfs F) :=
  let new := λ k v, if created k then Some v else None in
  kassert (created TableSem && created OpenSem) ;*
  let* fss := for_each 0 CONFIG_MAX_FILESYSTEMS (λ i l,
    let* e := aread l i in awrite l i (VfsEntry 0 (mountpoint e))) (filesystems s) in
  let* fls := for_each 0 CONFIG_MAX_OPEN_FILES (λ i l,
    let* o := aread l i in awrite l i (Openfile 0 (fileid o) (seek_position o))) (files s) in
  Done (Vfs (new TableSem 1) fss (new OpenSem 1) fls (new OpSem 1) (new UnmountSem 0) 0 true
    (drivers s)).

(** ** The gate *)
Definition vfs_start_op s : outcome (Z * vfs F) :=
  let* s := semaphore_P OpSem s in
  let '(ret, s) :=
    if vfs_usable s then (VFS_OK, set_ops (vfs_ops s + 1) s) else (VFS_UNUSABLE, s) in
  let* s := semaphore_V OpSem s in
  Done (ret, s).

Definition vfs_end_op s : outcome (vfs F) :=
  let* s := semaphore_P OpSem s in
  let s := set_ops (vfs_ops s - 1) s in
  kassert (0 <=? vfs_ops s) ;*
  let* s := if negb (vfs_usable s) && (vfs_ops s =? 0) then semaphore_V UnmountSem s else Done s in
  semaphore_V OpSem s.

(** [vfs_end_op(); return r;] *)
Definition end_return {A} (r : A) s : outcome (A * vfs F) :=
  let* s := vfs_end_op s in Done (r, s).

(** [if (vfs_start_op() != VFS_OK) return VFS_UNUSABLE;] *)
Definition starting {A} (unusable : A) s (k : vfs F → outcome (A * vfs F)) : outcome (A * vfs F) :=
  let* '(ret, s) := vfs_start_op s in
  if negb (ret =? VFS_OK) then Done (unusable, s) else k s.

(** A call through a pointer of the [fs_t] at [fs]: NULL and freed memory are
    faults. *)
Definition call_fs {A} (fs : Z) s (op : F → outcome (A * F)) : outcome (A * vfs F) :=
  match drivers s !! fs with
  | None => Fault
  | Some f => let* '(a, f') := op f in Done (a, set_drivers (<[fs:=f']> (drivers s)) s)
  end.
End state.

Section functions.
Context {F : Type} {fsd : FsDriver F}.
Implicit Types (s : vfs F).

(** The call [fs->unmount(fs)], after which the driver has freed its memory. *)
Definition call_unmount (fs : Z) s : outcome (Z * vfs F) :=
  let* '(r, s) := call_fs fs s fs_unmount in
  Done (r, set_drivers (delete fs (drivers s)) s).

(** [vfs_deinit] up to the point where it may wait for operations in progress;
    the flag tells whether it has to. *)
Definition vfs_deinit_begin s : outcome (bool * vfs F) :=
  let* s := semaphore_P OpSem s in
  let s := set_usable false s in
  if 0 <? vfs_ops s then let* s := semaphore_V OpSem s in Done (true, s)
  else Done (false, s).

(** What [vfs_deinit] does after [semaphore_P(vfs_unmount_sem)] let it pass. *)
Definition vfs_deinit_woken s : outcome (vfs F) :=
  let* s := semaphore_P OpSem s in
  kassert (vfs_ops s =? 0) ;*
  Done s.

Definition vfs_deinit_unmount s : outcome (vfs F) :=
  let* s := semaphore_P TableSem s in
  let* s := semaphore_P OpenSem s in
  let* s := for_each 0 CONFIG_MAX_FILESYSTEMS (λ row s,
    let* e := aread (filesystems s) row in
    if negb (filesystem e =? 0) then
      let* '(_, s) := call_unmount (filesystem e) s in
      let* l := awrite (filesystems s) row (VfsEntry 0 (mountpoint e)) in
      Done (set_filesystems l s)
    else Done s) s in
  let* s := semaphore_V OpenSem s in
  let* s := semaphore_V TableSem s in
  semaphore_V OpSem s.

Definition vfs_deinit s : outcome (vfs F) :=
  let* '(waits, s) := vfs_deinit_begin s in
  let* s := if (waits : bool)
            then let* s := semaphore_P UnmountSem s in vfs_deinit_woken s
            else Done s in
  vfs_deinit_unmount s.

(** ** Mounting *)

(** The first row whose mount point is [name]. *)
Definition find_mountpoint (name : list Z) s : outcome (option Z) :=
  let* r := for_loop 0 CONFIG_MAX_FILESYSTEMS (λ i _,
    let* e := aread (filesystems s) i in
    let* c := stringcmp (mountpoint e) name in
    if c =? 0 then Done (inr i) else Done (inl ())) () in
  Done (match r with inl _ => None | inr i => Some i end).

(** The first row without a file system, or the size of the table. *)
Definition find_free_row s : outcome Z :=
  let* r := for_loop 0 CONFIG_MAX_FILESYSTEMS (λ i _,
    let* e := aread (filesystems s) i in
    if filesystem e =? 0 then Done (inr i) else Done (inl ())) () in
  Done (match r with inl _ => CONFIG_MAX_FILESYSTEMS | inr i => i end).

Definition vfs_get_filesystem (name : list Z) s : outcome Z :=
  let* r := find_mountpoint name s in
  match r with
  | Some row => let* e := aread (filesystems s) row in Done (filesystem e)
  | None => Done 0
  end.

Definition vfs_mount (fs : Z) (name : list Z) s : outcome (Z * vfs F) :=
  let* c := aread name 0 in
  kassert (negb (c =? 0)) ;*
  starting VFS_UNUSABLE s (λ s,
  let* s := semaphore_P TableSem s in
  let* row := find_free_row s in
  if CONFIG_MAX_FILESYSTEMS <=? row then
    let* s := semaphore_V TableSem s in end_return VFS_LIMIT s
  else
  let* dup := find_mountpoint name s in
  match dup with
  | Some _ => let* s := semaphore_V TableSem s in end_return VFS_ERROR s
  | None =>
      let* e := aread (filesystems s) row in
      let* mp := stringcopy (mountpoint e) name VFS_NAME_LENGTH in
      let* l := awrite (filesystems s) row (VfsEntry fs mp) in
      let s := set_filesystems l s in
      let* s := semaphore_V TableSem s in
      end_return VFS_OK s
  end).

(** Is a file of [fs] open? *)
Definition in_use (fs : Z) s : outcome bool :=
  let* r := for_loop 0 CONFIG_MAX_OPEN_FILES (λ i _,
    let* o := aread (files s) i in
    if of_filesystem o =? fs then Done (inr ()) else Done (inl ())) () in
  Done (match r with inl _ => false | inr _ => true end).

Definition vfs_unmount (name : list Z) s : outcome (Z * vfs F) :=
  starting VFS_UNUSABLE s (λ s,
  let* s := semaphore_P TableSem s in
  let* found := find_mountpoint name s in
  let* e := match found with
            | Some row => aread (filesystems s) row
            | None => Done (VfsEntry 0 [])
            end in
  let fs := filesystem e in
  if fs =? 0 then
    let* s := semaphore_V TableSem s in end_return VFS_NOT_FOUND s
  else
  let* s := semaphore_P OpenSem s in
  let* used := in_use fs s in
  if (used : bool) then
    let* s := semaphore_V OpenSem s in
    let* s := semaphore_V TableSem s in
    end_return VFS_IN_USE s
  else
  let* '(_, s) := call_unmount fs s in
  let* l := awrite (filesystems s) (default 0 found) (VfsEntry 0 (mountpoint e)) in
  let s := set_filesystems l s in
  let* s := semaphore_V OpenSem s in
  let* s := semaphore_V TableSem s in
  end_return VFS_OK s).

(** ** Path names *)

(** The volume part: the buffer and the position after it, or [None] on a
    malformed or too long volume name. *)
Definition parse_volume (path volumebuf : list Z) : outcome (option (list Z * Z * Z)) :=
  let* c := aread path 0 in
  if c =? 91 (* '[' *) then
    let* r := for_loop 0 (VFS_NAME_LENGTH - 1) (λ i vol,
      let* c := aread path (1 + i) in
      if c =? 0 then Done (inr None)
      else if c =? 93 (* ']' *) then Done (inr (Some (vol, i, 1 + i + 1)))
      else let* vol := awrite vol i c in Done (inl vol)) volumebuf in
    Done (match r with inl _ => None | inr r => r end)
  else Done (Some (volumebuf, 0, 0)).

(** The buffers are the two arrays on the caller's stack, whatever they hold. *)
Definition vfs_parse_pathname (path volumebuf filenamebuf : list Z)
    : outcome (Z * list Z * list Z) :=
  let* r := parse_volume path volumebuf in
  match r with
  | None => Done (VFS_ERROR, volumebuf, filenamebuf)
  | Some (vol, k, p) =>
      let* vol := awrite vol k 0 in
      let* r := for_loop 0 VFS_NAME_LENGTH (λ i file,
        let* c := aread path (p + i) in
        let* file := awrite file i c in
        if c =? 0 then Done (inr (if i =? 0 then VFS_ERROR else VFS_OK, file))
        else Done (inl file)) filenamebuf in
      match r with
      | inr (ret, file) => Done (ret, vol, file)
      | inl file => Done (VFS_ERROR, vol, file)
      end
  end.

(** The start of the functions that take a path: parse it, and find the file
    system with the mount table locked.  [vol] and [file] are the stack
    buffers. *)
Definition with_path {A} (path vol file : list Z) (err : Z → A) s
    (k : Z → list Z → vfs F → outcome (A * vfs F)) : outcome (A * vfs F) :=
  let* '(ret, vol, file) := vfs_parse_pathname path vol file in
  if negb (ret =? VFS_OK) then end_return (err VFS_ERROR) s
  else
  let* s := semaphore_P TableSem s in
  let* fs := vfs_get_filesystem vol s in
  if fs =? 0 then
    let* s := semaphore_V TableSem s in end_return (err VFS_NO_SUCH_FS) s
  else k fs file s.

(** ** Files *)

(** The first free row of the open file table, or its size. *)
Definition find_free_file s : outcome Z :=
  let* r := for_loop 0 CONFIG_MAX_OPEN_FILES (λ i _,
    let* o := aread (files s) i in
    if of_filesystem o =? 0 then Done (inr i) else Done (inl ())) () in
  Done (match r with inl _ => CONFIG_MAX_OPEN_FILES | inr i => i end).

Definition set_row (i : Z) (o : openfile_entry_t) s : outcome (vfs F) :=
  let* l := awrite (files s) i o in Done (set_files l s).

Definition vfs_open (path vol filename : list Z) s : outcome (Z * vfs F) :=
  starting VFS_UNUSABLE s (λ s,
  let* '(ret, vol, filename) := vfs_parse_pathname path vol filename in
  if negb (ret =? VFS_OK) then end_return VFS_ERROR s
  else
  let* s := semaphore_P TableSem s in
  let* s := semaphore_P OpenSem s in
  let* file := find_free_file s in
  if CONFIG_MAX_OPEN_FILES <=? file then
    let* s := semaphore_V OpenSem s in
    let* s := semaphore_V TableSem s in
    end_return VFS_LIMIT s
  else
  let* fs := vfs_get_filesystem vol s in
  if fs =? 0 then
    let* s := semaphore_V OpenSem s in
    let* s := semaphore_V TableSem s in
    end_return VFS_NO_SUCH_FS s
  else
  let* o := aread (files s) file in
  let* s := set_row file (Openfile fs (fileid o) (seek_position o)) s in
  let* s := semaphore_V OpenSem s in
  let* s := semaphore_V TableSem s in
  let* '(id, s) := call_fs fs s (fs_open filename) in
  if id <? 0 then
    let* s := semaphore_P OpenSem s in
    let* o := aread (files s) file in
    let* s := set_row file (Openfile 0 (fileid o) (seek_position o)) s in
    let* s := semaphore_V OpenSem s in
    end_return id s
  else
  let* o := aread (files s) file in
  let* s := set_row file (Openfile (of_filesystem o) id 0) s in
  end_return file s).

(** [None] for a row that is not open; the range test of the code never
    applies. *)
Definition vfs_verify_open (file : Z) s : outcome (option openfile_entry_t) :=
  if (file <? 0) && (CONFIG_MAX_OPEN_FILES <=? file) then Done None
  else
  let* o := aread (files s) file in
  Done (if of_filesystem o =? 0 then None else Some o).

Definition vfs_close (file : Z) s : outcome (Z * vfs F) :=
  starting VFS_UNUSABLE s (λ s,
  let* s := semaphore_P OpenSem s in
  let* r := vfs_verify_open file s in
  match r with
  | None => let* s := semaphore_V OpenSem s in Done (VFS_INVALID_PARAMS, s)
  | Some o =>
      let* '(ret, s) := call_fs (of_filesystem o) s (fs_close (fileid o)) in
      let* s := set_row file (Openfile 0 (fileid o) (seek_position o)) s in
      let* s := semaphore_V OpenSem s in
      end_return ret s
  end).

Definition vfs_seek (file : Z) (pos : Z) s : outcome (Z * vfs F) :=
  starting VFS_UNUSABLE s (λ s,
  if pos <? 0 then Done (VFS_INVALID_PARAMS, s)
  else
  let* s := semaphore_P OpenSem s in
  let* r := vfs_verify_open file s in
  match r with
  | None => let* s := semaphore_V OpenSem s in Done (VFS_INVALID_PARAMS, s)
  | Some o =>
      let* s := set_row file (Openfile (of_filesystem o) (fileid o) pos) s in
      let* s := semaphore_V OpenSem s in
      end_return VFS_OK s
  end).

(** The end of [vfs_read] and [vfs_write]: advance the seek position. *)
Definition advance {A} (file ret : Z) (a : A) s : outcome (A * vfs F) :=
  let* s :=
    if 0 <? ret then
      let* s := semaphore_P OpenSem s in
      let* o := aread (files s) file in
      let* s := set_row file (Openfile (of_filesystem o) (fileid o) (s32 (seek_position o + ret))) s in
      semaphore_V OpenSem s
    else Done s in
  end_return a s.

(** The buffer at [addr] (0 for NULL) and its contents; the result is the code
    and the buffer. *)
Definition vfs_read (file addr : Z) (buffer : list Z) (bufsize : Z) s
    : outcome ((Z * list Z) * vfs F) :=
  starting (VFS_UNUSABLE, buffer) s (λ s,
  let* r := vfs_verify_open file s in
  match r with
  | None => Done ((VFS_INVALID_PARAMS, buffer), s)
  | Some o =>
      kassert ((0 <=? bufsize) && negb (addr =? 0)) ;*
      let* '(a, s) := call_fs (of_filesystem o) s (λ f,
        let* '(buf, (ret, f)) := fs_read (fileid o) addr buffer bufsize (seek_position o) f in
        Done ((ret, buf), f)) in
      advance file (fst a) a s
  end).

Definition vfs_write (file addr : Z) (buffer : list Z) (datasize : Z) s : outcome (Z * vfs F) :=
  starting VFS_UNUSABLE s (λ s,
  let* r := vfs_verify_open file s in
  match r with
  | None => Done (VFS_INVALID_PARAMS, s)
  | Some o =>
      kassert ((0 <=? datasize) && negb (addr =? 0)) ;*
      let* '(ret, s) := call_fs (of_filesystem o) s
        (fs_write (fileid o) addr buffer datasize (seek_position o)) in
      advance file ret ret s
  end).

(** ** Operations on a mounted file system *)

(** [ret = fs->op(fs, ...); semaphore_V(vfs_table.sem); vfs_end_op(); return ret;] *)
Definition fs_return {A} (fs : Z) s (op : F → outcome (A * F)) : outcome (A * vfs F) :=
  let* '(ret, s) := call_fs fs s op in
  let* s := semaphore_V TableSem s in
  end_return ret s.

Definition vfs_create (path vol filename : list Z) (size : Z) s : outcome (Z * vfs F) :=
  if size <? 0 then Done (VFS_INVALID_PARAMS, s)
  else
  starting VFS_UNUSABLE s (λ s,
  with_path path vol filename id s (λ fs filename s,
  fs_return fs s (fs_create filename size))).

Definition vfs_remove (path vol filename : list Z) s : outcome (Z * vfs F) :=
  starting VFS_UNUSABLE s (λ s,
  with_path path vol filename id s (λ fs filename s,
  fs_return fs s (fs_remove filename))).

Definition vfs_getfree (name : list Z) s : outcome (Z * vfs F) :=
  starting VFS_UNUSABLE s (λ s,
  let* s := semaphore_P TableSem s in
  let* fs := vfs_get_filesystem name s in
  if fs =? 0 then
    let* s := semaphore_V TableSem s in end_return VFS_NO_SUCH_FS s
  else fs_return fs s fs_getfree).

(** [path] is [None] where the code is called with NULL. *)
Definition vfs_filecount (path : option (list Z)) (vol dirname : list Z) s : outcome (Z * vfs F) :=
  starting VFS_UNUSABLE s (λ s,
  match path with
  | None =>
      let* s := semaphore_P TableSem s in
      let* ret := find_free_row s in
      let* s := semaphore_V TableSem s in
      end_return ret s
  | Some path =>
      with_path path vol dirname id s (λ fs dirname s,
      fs_return fs s (fs_filecount dirname))
  end).

(** The loop of [vfs_file] over the mount table: the row reached and what is
    left of [idx]. *)
Definition skip_rows (idx : Z) s : outcome (Z * Z) :=
  let* r := for_loop 0 CONFIG_MAX_FILESYSTEMS (λ ret idx,
    if idx =? 0 then Done (inr (ret, idx))
    else
      let* e := aread (filesystems s) ret in
      Done (inl (if negb (filesystem e =? 0) then s32 (idx - 1) else idx))) idx in
  Done (match r with inl idx => (CONFIG_MAX_FILESYSTEMS, idx) | inr x => x end).

Definition vfs_file (path : option (list Z)) (vol dirname : list Z) (idx : Z) (buffer : list Z) s
    : outcome ((Z * list Z) * vfs F) :=
  starting (VFS_UNUSABLE, buffer) s (λ s,
  match path with
  | None =>
      let* s := semaphore_P TableSem s in
      let* '(ret, idx) := skip_rows idx s in
      if negb (idx =? 0) then
        let* s := semaphore_V TableSem s in end_return (VFS_ERROR, buffer) s
      else
      let* e := aread (filesystems s) ret in
      let* buffer := stringcopy buffer (mountpoint e) VFS_NAME_LENGTH in
      let* s := semaphore_V TableSem s in
      end_return (VFS_OK, buffer) s
  | Some path =>
      with_path path vol dirname (λ r, (r, buffer)) s (λ fs dirname s,
      fs_return fs s (λ f,
        let* '(buf, (ret, f)) := fs_file dirname idx buffer f in Done ((ret, buf), f)))
  end).
End functions.
