(* ===== verification/VfsSpec.v ===== *)
(** * Path names and the gate of the VFS

    The meaning of a path name and the proof that [vfs_parse_pathname] computes
    it; rules for the semaphores and the operation counter. *)

From S2P Require Import Prelude Libc Tfs Vfs.

(** ** Path names *)

(** A path is "[volume]file" or "file"; volume names have at most 14 characters
    and file names 1 to 15. *)
Definition file_part (vol file : list Z) : option (list Z * list Z) :=
  if (1 <=? Z.of_nat (length file)) && (Z.of_nat (length file) <=? 15)
  then Some (vol, file) else None.

Definition split_path (s : list Z) : option (list Z * list Z) :=
  match s with
  | 91 :: rest =>
      match list_find (λ c, c = 93) rest with
      | Some (i, _) => if (i <? 15)%nat then file_part (take i rest) (drop (S i) rest) else None
      | None => None
      end
  | _ => file_part [] s
  end.

Section parse.
Context (path s : list Z) (Hp : cstr path s).

Lemma path_char p : 0 ≤ p ≤ Z.of_nat (length s) →
  aread path p = Done (default 0 (s !! Z.to_nat p)).
Proof using Hp.
  intros H. destruct (decide (p = Z.of_nat (length s))) as [->|Hne].
  - rewrite (aread_Some _ _ 0); [|lia|rewrite Nat2Z.id; by apply cstr_lookup_end].
    by rewrite Nat2Z.id, lookup_ge_None_2 by lia.
  - destruct (lookup_lt_is_Some_2 s (Z.to_nat p)) as [c Hc]; [lia|].
    rewrite (aread_Some _ _ c); [by rewrite Hc|lia|].
    by rewrite (cstr_lookup _ s) by (done || lia).
Qed.

Lemma path_nonzero p c : s !! p = Some c → c ≠ 0.
Proof using Hp. intros Hc ->. destruct Hp as [H0 _]. apply H0. by eapply list_elem_of_lookup_2. Qed.

(** Where the file name starts, with the volume name before it. *)
Definition volume_part : option (list Z * Z) :=
  match s with
  | 91 :: rest =>
      match list_find (λ c, c = 93) rest with
      | Some (i, _) => if (i <? 15)%nat then Some (take i rest, 2 + Z.of_nat i) else None
      | None => None
      end
  | _ => Some ([], 0)
  end.

Lemma overwrite_0 {A} (src dst : list A) : overwrite src dst 0 = dst.
Proof. done. Qed.

Lemma parse_volume_spec vbuf :
  length vbuf = 16%nat →
  returns (parse_volume path vbuf) (λ r, match volume_part with
    | Some (v, p) => ∃ vol, r = Some (vol, Z.of_nat (length v), p) ∧ length vol = 16%nat ∧
        take (length v) vol = v ∧ (length v ≤ 14)%nat ∧ 0 ∉ v
    | None => r = None
    end).
Proof using Hp.
  intros Hl. unfold parse_volume, volume_part. rewrite path_char by lia. cbn [outcome_bind].
  pose proof path_char as Hchar. pose proof path_nonzero as Hnz. clear Hp.
  destruct s as [|c rest].
  { simpl. exists vbuf. split_and!; try done; [lia|apply not_elem_of_nil]. }
  change (default 0 ((c :: rest) !! Z.to_nat 0)) with c.
  destruct (Z.eqb_spec c 91) as [->|Hc91].
  2: { assert (E : match c with 91 => match list_find (λ c, c = 93) rest with
        | Some (i, _) => if (i <? 15)%nat then Some (take i rest, 2 + Z.of_nat i) else None
        | None => None end | _ => Some ([] : list Z, 0) end = Some ([], 0)).
       { repeat case_match; simplify_eq; done. }
       rewrite E. simpl. exists vbuf. split_and!; try done; [lia|apply not_elem_of_nil]. }
  cbn [length] in Hchar.
  apply returns_bind. eapply returns_mono; [apply (for_loop_inv
    (λ i vol, vol = overwrite rest vbuf i ∧ i ≤ Z.of_nat (length rest) ∧ 93 ∉ take (Z.to_nat i) rest)
    (λ r, match r with
          | None => 93 ∉ rest
          | Some (vol, k, p) => list_find (λ c, c = 93) rest = Some (Z.to_nat k, 93) ∧ 0 ≤ k < 15 ∧
              p = 2 + k ∧ vol = overwrite rest vbuf k
          end))|].
  - done.
  - split_and!; [done|lia|apply not_elem_of_nil].
  - intros i vol Hi (-> & Hle & Hno). change (VFS_NAME_LENGTH - 1) with 15 in Hi.
    rewrite Hchar by lia. replace (Z.to_nat (1 + i)) with (S (Z.to_nat i)) by lia.
    cbn [outcome_bind lookup list_lookup].
    destruct (rest !! Z.to_nat i) as [ch|] eqn:Ech; simpl.
    + assert (ch ≠ 0) by (by eapply (Hnz (S (Z.to_nat i)))).
      destruct (Z.eqb_spec ch 0); [lia|]. destruct (Z.eqb_spec ch 93) as [->|H93]; simpl.
      * split_and!; try lia; [|done]. apply list_find_Some. split_and!; [done|done|].
        intros j x Hj Hji ->. apply Hno. eapply list_elem_of_lookup_2.
        rewrite lookup_take_lt by done. done.
      * apply lookup_lt_Some in Ech as Hlt.
        rewrite awrite_in_range by (rewrite length_overwrite; lia). simpl.
        rewrite overwrite_next by (done || lia).
        split_and!; [done|lia|]. replace (Z.to_nat (i + 1)) with (S (Z.to_nat i)) by lia.
        rewrite (take_S_r _ _ _ Ech), elem_of_app, list_elem_of_singleton. intros [?|?]; [done|lia].
    + apply lookup_ge_None in Ech. by rewrite take_ge in Hno by lia.
  - change (VFS_NAME_LENGTH - 1) with 15. intros [vol|[[[vol k] p]|]]; cbn [returns].
    + intros (_ & Hle & Hno). destruct (list_find _ rest) as [[i x]|] eqn:Ef; [|done].
      apply list_find_Some in Ef as (Hi & -> & _). destruct (Nat.ltb_spec i 15); [|done].
      destruct Hno. apply (list_elem_of_lookup_2 _ i). by rewrite lookup_take_lt by lia.
    + intros (Ef & Hk & -> & ->). rewrite Ef. apply list_find_Some in Ef as (Hk1 & _ & _). replace (Z.to_nat k <? 15)%nat with true
        by (symmetry; apply Nat.ltb_lt; lia).
      pose proof (lookup_lt_Some _ _ _ Hk1) as Hkl. rewrite length_take, Nat.min_l by lia.
      exists (overwrite rest vbuf k). split_and!.
      * do 2 f_equal; [f_equal|]; lia.
      * rewrite length_overwrite; lia.
      * unfold overwrite. by rewrite take_app_length' by (rewrite length_take; lia).
      * lia.
      * intros Hin. apply list_elem_of_lookup in Hin as [j Hj].
        rewrite lookup_take_Some in Hj. destruct Hj as [Hj _]. by eapply (Hnz (S j)).
    + intros Hno. destruct (list_find _ rest) as [[i x]|] eqn:Ef; [|done].
      apply list_find_Some in Ef as (Hi & -> & _). destruct Hno. by eapply list_elem_of_lookup_2.
Qed.

Lemma split_path_parts :
  split_path s = match volume_part with
    | Some (v, p) => file_part v (drop (Z.to_nat p) s)
    | None => None
    end.
Proof using.
  clear Hp. unfold split_path, volume_part. destruct s as [|c rest]; [done|].
  repeat case_match; simplify_eq; try done; rewrite ?Z2Nat.inj_add, ?Nat2Z.id by lia; done.
Qed.

Lemma volume_part_pos v p : volume_part = Some (v, p) → 0 ≤ p ≤ Z.of_nat (length s).
Proof using.
  clear Hp. unfold volume_part. destruct s as [|c rest]; [intros; simplify_eq/=; lia|].
  repeat case_match; intros; simplify_eq/=; try lia.
  match goal with H : list_find _ _ = Some _ |- _ =>
    apply list_find_Some in H as (Hi & _ & _); apply lookup_lt_Some in Hi end. lia.
Qed.

(** The loop that copies the file name. *)
Lemma parse_file_spec p fbuf :
  0 ≤ p ≤ Z.of_nat (length s) → length fbuf = 16%nat →
  returns (for_loop 0 VFS_NAME_LENGTH (λ i file,
      let* c := aread path (p + i) in
      let* file := awrite file i c in
      if c =? 0 then Done (inr (if i =? 0 then VFS_ERROR else VFS_OK, file))
      else Done (inl file)) fbuf)
    (λ r, let f := drop (Z.to_nat p) s in match r with
       | inl _ => (15 < length f)%nat
       | inr (ret, file) => (length f ≤ 15)%nat ∧
           ret = (if (length f =? 0)%nat then VFS_ERROR else VFS_OK) ∧ cstr file f
       end).
Proof using Hp.
  intros Hpos Hl. set (f := drop (Z.to_nat p) s).
  assert (Hfl : Z.of_nat (length f) = Z.of_nat (length s) - p) by (unfold f; rewrite length_drop; lia).
  eapply returns_mono; [apply (for_loop_inv
    (λ i file, file = overwrite f fbuf i ∧ i ≤ Z.of_nat (length f))
    (λ '(ret, file), (length f ≤ 15)%nat ∧
       ret = (if (length f =? 0)%nat then VFS_ERROR else VFS_OK) ∧ cstr file f))|].
  - done.
  - split; [done|lia].
  - change VFS_NAME_LENGTH with 16. intros i file Hi (-> & Hle).
    rewrite path_char by lia. cbn [outcome_bind].
    rewrite awrite_in_range by (rewrite length_overwrite; lia). cbn [outcome_bind].
    replace (Z.to_nat (p + i)) with (Z.to_nat p + Z.to_nat i)%nat by lia.
    rewrite <- lookup_drop. fold f. destruct (f !! Z.to_nat i) as [c|] eqn:Ec; simpl.
    + assert (c ≠ 0) by (unfold f in Ec; rewrite lookup_drop in Ec; by eapply path_nonzero).
      apply lookup_lt_Some in Ec as Hlt. destruct (Z.eqb_spec c 0); [done|]. simpl.
      rewrite overwrite_next by (done || lia). split; [done|lia].
    + apply lookup_ge_None in Ec. assert (i = Z.of_nat (length f)) as -> by lia. split_and!.
      * lia.
      * destruct (Z.eqb_spec (Z.of_nat (length f)) 0), (Nat.eqb_spec (length f) 0); done || lia.
      * split; [unfold f; intros Hin; destruct Hp as [H0 _]; apply H0; by apply (subseteq_drop (Z.to_nat p) s)|].
        exists (drop (S (length f)) fbuf). unfold overwrite. rewrite Nat2Z.id, take_ge by lia.
        destruct (lookup_lt_is_Some_2 fbuf (length f)) as [x Hx]; [lia|].
        rewrite (drop_S _ _ _ Hx), insert_app_r_alt, Nat.sub_diag by lia. done.
  - change VFS_NAME_LENGTH with 16. intros [file|[ret file]]; [intros [_ ?]; cbv zeta; fold f; lia|done].
Qed.

Lemma parse_pathname_spec vbuf fbuf :
  length vbuf = 16%nat → length fbuf = 16%nat →
  returns (vfs_parse_pathname path vbuf fbuf) (λ '(ret, v, f),
    match split_path s with
    | Some (vn, fn) => ret = VFS_OK ∧ cstr v vn ∧ cstr f fn
    | None => ret = VFS_ERROR
    end).
Proof using Hp.
  intros Hv Hf. rewrite split_path_parts. unfold vfs_parse_pathname. apply returns_bind.
  eapply returns_mono; [by apply parse_volume_spec|]. intros r Hr.
  pose proof volume_part_pos as Hpos.
  destruct volume_part as [[v p]|]; [|by subst]. specialize (Hpos v p eq_refl).
  destruct Hr as (vol & -> & Hvl & Etk & Hv14 & Hv0).
  rewrite awrite_in_range by lia. cbn [outcome_bind]. apply returns_bind.
  eapply returns_mono; [by apply (parse_file_spec p)|]. cbv zeta. unfold file_part.
  set (f := drop (Z.to_nat p) s). intros [file|[ret file]].
  - intros Hlong. replace (Z.of_nat (length f) <=? 15) with false by lia.
    rewrite andb_false_r. done.
  - intros (Hshort & -> & Hcs). replace (Z.of_nat (length f) <=? 15) with true by lia.
    rewrite andb_true_r. destruct (Nat.eqb_spec (length f) 0) as [E|E], (Z.leb_spec 1 (Z.of_nat (length f)));
      try lia; simpl; [done|]. split_and!; [done| |done]. split; [done|].
    destruct (lookup_lt_is_Some_2 vol (length v)) as [x Hx]; [lia|].
    exists (drop (S (length v)) vol). rewrite Nat2Z.id.
    rewrite insert_take_drop by lia. by rewrite Etk.
Qed.
End parse.
