(* ===== verification/VfsInv.v ===== *)
(** * The VFS tables and what the VFS expects of a driver

    [FsDriverSpec] is the contract of a file system towards the VFS, in terms of
    the abstract file system of TfsView.v.  [tables] is the invariant of the
    mount table and the open file table; the lemmas of this file give the
    behaviour of every search and access of vfs.c on tables that satisfy it. *)

From S2P Require Import Prelude Libc Tfs TfsSpec TfsRead TfsView Vfs VfsSpec.

(** ** The contract of a driver *)
Class FsDriverSpec (F : Type) {fsd : FsDriver F} := {
  (** The driver holds the files [m], numbered [h]. *)
  fs_holds : F → afs → gmap (list Z) Z → Prop;
  fs_holds_dom : ∀ f m h, fs_holds f m h → dom h = dom m;
  fs_unmount_spec : ∀ f m h, fs_holds f m h → returns (fs_unmount f) (λ _, True);
  fs_open_spec : ∀ f m h fname n, fs_holds f m h → cstr fname n → name_ok n →
    returns (fs_open fname f) (λ '(r, f'), fs_holds f' m h ∧
      match m !! n with Some _ => 0 ≤ r ∧ h !! n = Some r | None => r = VFS_NOT_FOUND end);
  fs_close_spec : ∀ f m h id, fs_holds f m h →
    returns (fs_close id f) (λ '(r, f'), fs_holds f' m h ∧ r = VFS_OK);
  fs_read_spec : ∀ f m h n id addr buf len off,
    fs_holds f m h → h !! n = Some id → 0 ≤ len ≤ Z.of_nat (length buf) →
    returns (fs_read id addr buf len off f) (λ '(buf', (r, f')), fs_holds f' m h ∧
      r = fst (afs_read n len off m) ∧ buf' = put buf 0 (snd (afs_read n len off m)));
  fs_write_spec : ∀ f m h n id addr buf len off,
    fs_holds f m h → h !! n = Some id → 0 ≤ len ≤ Z.of_nat (length buf) → Forall is_u8 buf →
    returns (fs_write id addr buf len off f) (λ '(r, f'),
      r = fst (afs_write n buf len off m) ∧ fs_holds f' (snd (afs_write n buf len off m)) h);
  fs_create_spec : ∀ f m h fname n size,
    fs_holds f m h → cstr fname n → name_ok n → 0 ≤ size < 2 ^ 30 →
    returns (fs_create fname size f) (λ '(r, f'),
      (r = VFS_OK ∧ m !! n = None ∧
       ∃ h', fs_holds f' (<[n := replicate (Z.to_nat size) 0]> m) h' ∧ delete n h' = delete n h) ∨
      (r < 0 ∧ fs_holds f' m h));
  fs_remove_spec : ∀ f m h fname n, fs_holds f m h → cstr fname n → name_ok n →
    returns (fs_remove fname f) (λ '(r, f'),
      r = fst (afs_remove n m) ∧ fs_holds f' (snd (afs_remove n m)) (delete n h));
  fs_getfree_spec : ∀ f m h, fs_holds f m h →
    returns (fs_getfree f) (λ '(r, f'), 0 ≤ r ∧ fs_holds f' m h);
  fs_filecount_spec : ∀ f m h dir n, fs_holds f m h → cstr dir n → Forall is_u8 n →
    returns (fs_filecount dir f) (λ '(r, f'), fs_holds f' m h ∧
      r = if decide (n = [47]) then Z.of_nat (size m) else VFS_NOT_FOUND);
  fs_file_spec : ∀ f m h dir n idx buf, fs_holds f m h → cstr dir n → Forall is_u8 n →
    16 ≤ Z.of_nat (length buf) →
    returns (fs_file dir idx buf f) (λ '(buf', (r, f')), fs_holds f' m h ∧
      ((r = VFS_OK ∧ ∃ fn, cstr buf' fn ∧ is_Some (m !! fn)) ∨ (r = VFS_ERROR ∧ buf' = buf)))
}.

(** ** The tables *)

(** The characters of a zero-terminated array. *)
Fixpoint chars (mem : list Z) : list Z :=
  match mem with
  | [] => []
  | c :: mem => if c =? 0 then [] else c :: chars mem
  end.

Lemma chars_cstr mem n : cstr mem n → chars mem = n.
Proof.
  revert n. induction mem as [|c mem IH]; intros n Hc; [by apply cstr_not_nil in Hc|].
  apply cstr_uncons in Hc as [[-> ->]|(Hc & n' & -> & Hn')]; [done|].
  simpl. destruct (Z.eqb_spec c 0); [done|]. by rewrite (IH n').
Qed.

Section tables.
Context {F : Type} {fsd : FsDriver F} {spec : FsDriverSpec F}.

(** What the mounted file systems hold. *)
Notation contents := (gmap Z (afs * gmap (list Z) Z)).

(** A row of the mount table. *)
Record entry_ok (e : vfs_entry_t) : Prop := {
  eo_len : length (mountpoint e) = 16%nat;
  eo_cstr : cstr (mountpoint e) (chars (mountpoint e));
  eo_u8 : Forall is_u8 (chars (mountpoint e));
  eo_named : filesystem e ≠ 0 → chars (mountpoint e) ≠ []
}.

(** Rows with different names, of different file systems. *)
Definition entries_apart (e e' : vfs_entry_t) : Prop :=
  (chars (mountpoint e) = chars (mountpoint e') → chars (mountpoint e) = []) ∧
  (filesystem e = filesystem e' → filesystem e = 0).

Definition mounted (fss : list vfs_entry_t) (fs : Z) : Prop :=
  ∃ i e, fss !! i = Some e ∧ filesystem e = fs.

Record tables (fss : list vfs_entry_t) (fls : list openfile_entry_t) (drv : gmap Z F)
    (a : contents) : Prop := {
  t_fss_len : length fss = 8%nat;
  t_fls_len : length fls = 512%nat;
  t_rows : Forall entry_ok fss;
  t_apart : ∀ i j e e', fss !! i = Some e → fss !! j = Some e' → i ≠ j → entries_apart e e';
  t_mounted : ∀ fs, fs ≠ 0 → mounted fss fs → is_Some (a !! fs);
  t_open : ∀ i o, fls !! i = Some o → of_filesystem o ≠ 0 → mounted fss (of_filesystem o);
  t_dom : dom a = dom drv;
  t_holds : ∀ fs f m h, drv !! fs = Some f → a !! fs = Some (m, h) → fs_holds f m h
}.

(** A usable VFS whose semaphores are [tb] and [op] and with [n] operations
    in progress. *)
Definition state (tb op n : Z) (fss : list vfs_entry_t) (fls : list openfile_entry_t)
    (drv : gmap Z F) : vfs F :=
  Vfs (Some tb) fss (Some op) fls (Some 1) (Some 0) n true drv.

Lemma starting_ok {A} (u : A) tb op n fss fls drv k :
  starting u (state tb op n fss fls drv) k = k (state tb op (n + 1) fss fls drv).
Proof. done. Qed.

Lemma end_ok {A} (r : A) tb op n fss fls drv :
  0 ≤ n → end_return r (state tb op (n + 1) fss fls drv) = Done (r, state tb op n fss fls drv).
Proof.
  intros Hn. unfold end_return, vfs_end_op. cbn. rewrite Z.add_simpl_r.
  destruct (Z.leb_spec 0 n); [done|lia].
Qed.

(** The semaphores, with the values they have here. *)
Lemma P_table op n fss fls drv :
  semaphore_P TableSem (state 1 op n fss fls drv) = Done (state 0 op n fss fls drv).
Proof. done. Qed.
Lemma V_table op n fss fls drv :
  semaphore_V TableSem (state 0 op n fss fls drv) = Done (state 1 op n fss fls drv).
Proof. done. Qed.
Lemma P_open tb n fss fls drv :
  semaphore_P OpenSem (state tb 1 n fss fls drv) = Done (state tb 0 n fss fls drv).
Proof. done. Qed.
Lemma V_open tb n fss fls drv :
  semaphore_V OpenSem (state tb 0 n fss fls drv) = Done (state tb 1 n fss fls drv).
Proof. done. Qed.

(** ** Searches *)
Section searches.
Context (fss : list vfs_entry_t) (fls : list openfile_entry_t) (drv : gmap Z F) (a : contents).
Hypothesis Ht : tables fss fls drv a.

(** The first row with mount point [n]. *)
Definition row_named (n : list Z) : option (nat * vfs_entry_t) :=
  list_find (λ e, chars (mountpoint e) = n) fss.

(** The file system mounted at [n], 0 if there is none. *)
Definition mounted_at (n : list Z) : Z :=
  match row_named n with Some (_, e) => filesystem e | None => 0 end.

Lemma find_mountpoint_ok name n tb op k :
  cstr name n → Forall is_u8 n →
  find_mountpoint name (state tb op k fss fls drv) =
    Done (match row_named n with Some (i, _) => Some (Z.of_nat i) | None => None end).
Proof using Ht.
  intros Hn Hu. unfold find_mountpoint. cbn [filesystems state].
  rewrite (for_loop_find (λ e, chars (mountpoint e) = n) id fss).
  - simpl. unfold row_named. by destruct (list_find _ fss) as [[i e]|].
  - by rewrite (t_fss_len _ _ _ _ Ht).
  - intros i e Hi. rewrite (aread_Some _ _ e) by (rewrite ?Nat2Z.id; done || lia). cbn [outcome_bind].
    pose proof (t_rows _ _ _ _ Ht) as Hr. rewrite Forall_lookup in Hr.
    destruct (Hr _ _ Hi) as [_ Hc Hcu _].
    destruct (returns_inv _ _ (stringcmp_eq _ _ _ _ Hc Hn Hcu Hu)) as (c & -> & Hcz).
    cbn [outcome_bind]. destruct (Z.eqb_spec c 0) as [E|E]; case_decide; done || naive_solver.
Qed.

Lemma get_filesystem_ok name n tb op k :
  cstr name n → Forall is_u8 n →
  vfs_get_filesystem name (state tb op k fss fls drv) = Done (mounted_at n).
Proof using Ht.
  intros Hn Hu. unfold vfs_get_filesystem. rewrite (find_mountpoint_ok name n) by done.
  unfold mounted_at. destruct (row_named n) as [[i e]|] eqn:E; [|done]. cbn [outcome_bind filesystems state].
  apply list_find_Some in E as (Hi & _ & _).
  by rewrite (aread_Some _ _ e) by (rewrite ?Nat2Z.id; done || lia).
Qed.

Lemma mounted_at_mounted n : mounted_at n ≠ 0 → mounted fss (mounted_at n).
Proof using.
  clear Ht. unfold mounted_at. destruct (row_named n) as [[i e]|] eqn:E; [|done]. intros _.
  apply list_find_Some in E as (Hi & _ & _). by exists i, e.
Qed.

Definition free_row : option (nat * vfs_entry_t) := list_find (λ e, filesystem e = 0) fss.

Lemma find_free_row_ok tb op k :
  find_free_row (state tb op k fss fls drv) =
    Done (match free_row with Some (i, _) => Z.of_nat i | None => CONFIG_MAX_FILESYSTEMS end).
Proof using Ht.
  unfold find_free_row. cbn [filesystems state].
  rewrite (for_loop_find (λ e, filesystem e = 0) id fss).
  - simpl. unfold free_row. by destruct (list_find _ fss) as [[i e]|].
  - by rewrite (t_fss_len _ _ _ _ Ht).
  - intros i e Hi. rewrite (aread_Some _ _ e) by (rewrite ?Nat2Z.id; done || lia). simpl.
    destruct (Z.eqb_spec (filesystem e) 0); by case_decide.
Qed.

Definition free_file : option (nat * openfile_entry_t) := list_find (λ o, of_filesystem o = 0) fls.

Lemma find_free_file_ok tb op k :
  find_free_file (state tb op k fss fls drv) =
    Done (match free_file with Some (i, _) => Z.of_nat i | None => CONFIG_MAX_OPEN_FILES end).
Proof using Ht.
  unfold find_free_file. cbn [files state].
  rewrite (for_loop_find (λ o, of_filesystem o = 0) id fls).
  - simpl. unfold free_file. by destruct (list_find _ fls) as [[i e]|].
  - by rewrite (t_fls_len _ _ _ _ Ht).
  - intros i e Hi. rewrite (aread_Some _ _ e) by (rewrite ?Nat2Z.id; done || lia). simpl.
    destruct (Z.eqb_spec (of_filesystem e) 0); by case_decide.
Qed.

Lemma in_use_ok fs tb op k :
  in_use fs (state tb op k fss fls drv) = Done (bool_decide (fs ∈ of_filesystem <$> fls)).
Proof using Ht.
  unfold in_use. cbn [files state].
  rewrite (for_loop_find (λ o, of_filesystem o = fs) (λ _, ()) fls).
  - simpl. destruct (list_find _ fls) as [[i o]|] eqn:E; f_equal; symmetry.
    + apply bool_decide_eq_true. apply list_find_Some in E as (Hi & <- & _).
      apply list_elem_of_fmap. exists o. split; [done|]. by eapply list_elem_of_lookup_2.
    + apply bool_decide_eq_false. apply list_find_None in E. rewrite Forall_forall in E.
      intros (o & Eo & Ho)%list_elem_of_fmap. by apply (E o).
  - by rewrite (t_fls_len _ _ _ _ Ht).
  - intros i e Hi. rewrite (aread_Some _ _ e) by (rewrite ?Nat2Z.id; done || lia). simpl.
    destruct (Z.eqb_spec (of_filesystem e) fs); by case_decide.
Qed.

(** An open file. *)
Lemma verify_open_ok i o tb op k :
  fls !! i = Some o → of_filesystem o ≠ 0 →
  vfs_verify_open (Z.of_nat i) (state tb op k fss fls drv) = Done (Some o).
Proof using Ht.
  intros Hi Ho. unfold vfs_verify_open. cbn [files state].
  destruct (Z.ltb_spec (Z.of_nat i) 0); [lia|]. cbn [andb].
  rewrite (aread_Some _ _ o) by (rewrite ?Nat2Z.id; done || lia). cbn [outcome_bind].
  by destruct (Z.eqb_spec (of_filesystem o) 0).
Qed.

(** The driver behind a mounted file system. *)
Lemma driver_of fs m h :
  a !! fs = Some (m, h) → ∃ f, drv !! fs = Some f ∧ fs_holds f m h.
Proof using Ht.
  intros Ha. assert (fs ∈ dom drv) as Hd
    by (rewrite <- (t_dom _ _ _ _ Ht); by apply elem_of_dom_2 in Ha).
  apply elem_of_dom in Hd as [f Hf]. exists f. split; [done|]. by eapply (t_holds _ _ _ _ Ht).
Qed.

Lemma call_fs_ok {A} fs m h tb op k (run : F → outcome (A * F)) Q :
  a !! fs = Some (m, h) →
  (∀ f, fs_holds f m h → returns (run f) Q) →
  returns (call_fs fs (state tb op k fss fls drv) run) (λ '(x, s'),
    ∃ f', Q (x, f') ∧ s' = state tb op k fss fls (<[fs:=f']> drv)).
Proof using Ht.
  intros Ha Hrun. destruct (driver_of fs m h Ha) as (f & Hf & Hh).
  unfold call_fs. cbn [drivers state]. rewrite Hf. apply returns_bind.
  eapply returns_mono; [by apply Hrun|]. intros [x f'] HQ. cbn [returns]. by exists f'.
Qed.
End searches.

(** ** Changing the tables *)
Lemma tables_driver fss fls drv a fs f m h :
  tables fss fls drv a → is_Some (a !! fs) → fs_holds f m h →
  tables fss fls (<[fs:=f]> drv) (<[fs:=(m, h)]> a).
Proof.
  intros [] [x Hx] Hh. constructor; try done.
  - intros fs' Hne Hm. destruct (decide (fs = fs')) as [<-|Hf].
    + rewrite lookup_insert_eq. eauto.
    + rewrite lookup_insert_ne by done. auto.
  - rewrite !dom_insert_L. by rewrite t_dom0.
  - intros fs' f' m' h' Hf' Ha'. destruct (decide (fs = fs')) as [<-|Hne].
    + rewrite lookup_insert_eq in Hf'. rewrite lookup_insert_eq in Ha'. by simplify_eq.
    + rewrite lookup_insert_ne in Hf' by done. rewrite lookup_insert_ne in Ha' by done. eauto.
Qed.

Lemma tables_row fss fls drv a i o :
  tables fss fls drv a → (of_filesystem o ≠ 0 → mounted fss (of_filesystem o)) →
  tables fss (<[i:=o]> fls) drv a.
Proof.
  intros [] Ho. constructor; try done; [by rewrite length_insert|].
  intros j o' Hj Hne. destruct (decide (i = j)) as [<-|Hij].
  - rewrite list_lookup_insert in Hj. case_decide; simplify_eq; eauto.
  - rewrite list_lookup_insert_ne in Hj by done. eauto.
Qed.

Lemma set_row_ok i o tb op k fss fls drv :
  (i < length fls)%nat →
  set_row (Z.of_nat i) o (state tb op k fss fls drv) = Done (state tb op k fss (<[i:=o]> fls) drv).
Proof.
  intros Hi. unfold set_row. cbn [files state]. rewrite awrite_in_range by lia.
  by rewrite Nat2Z.id.
Qed.
End tables.

(** Run the code up to the next call that is not a semaphore operation. *)
Ltac vfs_run :=
  repeat first [rewrite starting_ok | rewrite P_table | rewrite V_table | rewrite P_open
               | rewrite V_open | progress cbn [outcome_bind]].
