(* ===== verification/VfsOps.v ===== *)
(** * The operations of the VFS refine an abstract VFS

    The abstract VFS is the mount table, the table of open files, the contents
    of the mounted file systems, and the number of operations the VFS believes to
    be in progress.  Every function of vfs.c, started on a VFS at rest, returns
    and does what the abstract function says, for any driver that keeps the
    contract [FsDriverSpec]. *)

From S2P Require Import Prelude Libc Tfs TfsSpec TfsRead TfsView Vfs VfsSpec VfsInv.

Record avfs := AVfs {
  av_ops : Z;
  av_fss : list vfs_entry_t;
  av_fls : list openfile_entry_t;
  av_contents : gmap Z (afs * gmap (list Z) Z)
}.

Definition av_set_fls (x : list openfile_entry_t) (A : avfs) : avfs :=
  AVfs (av_ops A) (av_fss A) x (av_contents A).
Definition av_set_fss (x : list vfs_entry_t) (A : avfs) : avfs :=
  AVfs (av_ops A) x (av_fls A) (av_contents A).
Definition av_set_contents (x : gmap Z (afs * gmap (list Z) Z)) (A : avfs) : avfs :=
  AVfs (av_ops A) (av_fss A) (av_fls A) x.

(** An error path that does not end the operation it started. *)
Definition av_leak (A : avfs) : avfs := AVfs (av_ops A + 1) (av_fss A) (av_fls A) (av_contents A).

(** ** The abstract operations *)
Definition avfs_mount (fs : Z) (n : list Z) (A : avfs) : Z * avfs :=
  match free_row (av_fss A) with
  | None => (VFS_LIMIT, A)
  | Some (i, e) =>
      match row_named (av_fss A) n with
      | Some _ => (VFS_ERROR, A)
      | None => (VFS_OK, av_set_fss (<[i := VfsEntry fs (stringcopy_result (mountpoint e) n 16)]> (av_fss A)) A)
      end
  end.

Definition avfs_unmount (n : list Z) (A : avfs) : Z * avfs :=
  match row_named (av_fss A) n with
  | None => (VFS_NOT_FOUND, A)
  | Some (i, e) =>
      if filesystem e =? 0 then (VFS_NOT_FOUND, A)
      else if bool_decide (filesystem e ∈ of_filesystem <$> av_fls A) then (VFS_IN_USE, A)
      else (VFS_OK, AVfs (av_ops A) (<[i := VfsEntry 0 (mountpoint e)]> (av_fss A)) (av_fls A)
                      (delete (filesystem e) (av_contents A)))
  end.

Definition avfs_open (p : list Z) (A : avfs) : Z * avfs :=
  match split_path p with
  | None => (VFS_ERROR, A)
  | Some (vn, fn) =>
      match free_file (av_fls A) with
      | None => (VFS_LIMIT, A)
      | Some (i, _) =>
          let fs := mounted_at (av_fss A) vn in
          if fs =? 0 then (VFS_NO_SUCH_FS, A) else
          match av_contents A !! fs with
          | Some (m, h) =>
              match h !! fn with
              | Some id => (Z.of_nat i, av_set_fls (<[i := Openfile fs id 0]> (av_fls A)) A)
              | None => (VFS_NOT_FOUND, A)
              end
          | None => (VFS_ERROR, A)
          end
      end
  end.

(** The row of an open file. *)
Definition av_row (file : nat) (A : avfs) : option openfile_entry_t :=
  match av_fls A !! file with
  | Some o => if of_filesystem o =? 0 then None else Some o
  | None => None
  end.

Definition avfs_close (file : nat) (A : avfs) : Z * avfs :=
  match av_row file A with
  | None => (VFS_INVALID_PARAMS, av_leak A)
  | Some o => (VFS_OK, av_set_fls (<[file := Openfile 0 (fileid o) (seek_position o)]> (av_fls A)) A)
  end.

Definition avfs_seek (file : nat) (pos : Z) (A : avfs) : Z * avfs :=
  if pos <? 0 then (VFS_INVALID_PARAMS, av_leak A) else
  match av_row file A with
  | None => (VFS_INVALID_PARAMS, av_leak A)
  | Some o => (VFS_OK, av_set_fls (<[file := Openfile (of_filesystem o) (fileid o) pos]> (av_fls A)) A)
  end.

(** [file] is open on the file called [n] of a mounted file system. *)
Definition av_live (file : nat) (n : list Z) (o : openfile_entry_t) (m : afs)
    (h : gmap (list Z) Z) (A : avfs) : Prop :=
  av_row file A = Some o ∧ av_contents A !! of_filesystem o = Some (m, h) ∧
  h !! n = Some (fileid o).

Definition av_advance (file : nat) (o : openfile_entry_t) (r : Z) (A : avfs) : avfs :=
  if 0 <? r then
    av_set_fls (<[file := Openfile (of_filesystem o) (fileid o) (s32 (seek_position o + r))]> (av_fls A)) A
  else A.

Definition av_update (fs : Z) (m : afs) (h : gmap (list Z) Z) (A : avfs) : avfs :=
  av_set_contents (<[fs := (m, h)]> (av_contents A)) A.

(** ** The refinement relation *)
Section refinement.
Context {F : Type} {fsd : FsDriver F} {spec : FsDriverSpec F}.

Definition vrep (s : vfs F) (A : avfs) : Prop :=
  0 ≤ av_ops A ∧ ∃ drv, s = state 1 1 (av_ops A) (av_fss A) (av_fls A) drv ∧
    tables (av_fss A) (av_fls A) drv (av_contents A).

(** A path: a zero-terminated string of bytes, and the two name buffers. *)
Record path_ok (path p vol file : list Z) : Prop := {
  po_cstr : cstr path p;
  po_u8 : Forall is_u8 p;
  po_vol : length vol = 16%nat;
  po_file : length file = 16%nat
}.

Lemma file_part_ok v f vn fn :
  file_part v f = Some (vn, fn) → vn = v ∧ fn = f ∧ f ≠ [] ∧ (length f ≤ 15)%nat.
Proof.
  unfold file_part. destruct (Z.leb_spec 1 (Z.of_nat (length f))),
    (Z.leb_spec (Z.of_nat (length f)) 15); simpl; intros; simplify_eq.
  split_and!; [done|done| |lia]. by intros ->.
Qed.

Lemma split_path_ok p vn fn :
  0 ∉ p → Forall is_u8 p → split_path p = Some (vn, fn) → name_ok fn ∧ Forall is_u8 vn.
Proof.
  intros H0 Hu Hs.
  assert (Hsub : fn ⊆ p ∧ vn ⊆ p ∧ fn ≠ [] ∧ (length fn ≤ 15)%nat).
  { destruct p as [|c rest]; [done|].
    assert (Hcase : (c = 91 ∧ ∃ i, file_part (take i rest) (drop (S i) rest) = Some (vn, fn)) ∨
      file_part [] (c :: rest) = Some (vn, fn)).
    { unfold split_path in Hs. repeat case_match; simplify_eq; eauto. }
    destruct Hcase as [(-> & i & (-> & -> & Hne & Hl)%file_part_ok)|(-> & -> & Hne & Hl)%file_part_ok].
    - split_and!; try done; intros x Hx; right;
        [by apply (subseteq_drop (S i) rest)|by apply (subseteq_take i rest)].
    - split_and!; try done. by intros x ?%not_elem_of_nil. }
  destruct Hsub as (H1 & H2 & Hne & Hl). rewrite Forall_forall in Hu.
  split; [|apply Forall_forall; auto]. split_and!; [done|done|apply Forall_forall; auto|auto].
Qed.

(** The common start of the functions that take a path. *)
Lemma with_path_spec {B} path p vol file (err : Z → B) s A k Q :
  path_ok path p vol file → vrep s A →
  match split_path p with
  | None => Q (err VFS_ERROR, s)
  | Some (vn, fn) =>
      let fs := mounted_at (av_fss A) vn in
      if fs =? 0 then Q (err VFS_NO_SUCH_FS, s)
      else ∀ drv name, tables (av_fss A) (av_fls A) drv (av_contents A) → cstr name fn → name_ok fn →
        returns (k fs name (state 0 1 (av_ops A + 1) (av_fss A) (av_fls A) drv)) Q
  end →
  returns (starting (err VFS_UNUSABLE) s (λ s, with_path path vol file err s k)) Q.
Proof.
  intros [Hc Hu Hv Hf] (Hn & drv & -> & Ht) Hcase. rewrite starting_ok. unfold with_path.
  apply returns_bind. eapply returns_mono; [by apply (parse_pathname_spec path p)|].
  intros [[ret v] f] Hr. pose proof (split_path_ok p) as Hok.
  destruct (split_path p) as [[vn fn]|].
  - destruct Hr as (-> & Hvc & Hfc). destruct (Hok vn fn (proj1 Hc) Hu eq_refl) as [Hnm Hvu].
    cbn [Z.eqb negb VFS_OK].
    vfs_run. rewrite (get_filesystem_ok _ _ _ _ Ht v vn) by done. cbn [outcome_bind].
    cbv zeta in Hcase. destruct (mounted_at (av_fss A) vn =? 0).
    + vfs_run. by rewrite end_ok.
    + by apply Hcase.
  - subst ret. cbn [Z.eqb negb VFS_OK VFS_ERROR]. by rewrite end_ok.
Qed.

(** The common end: the call of the driver and the release of the table. *)
Lemma fs_return_spec {B} fs m h n fss fls drv a (run : F → outcome (B * F)) P Q :
  0 ≤ n → tables fss fls drv a → a !! fs = Some (m, h) →
  (∀ f, fs_holds f m h → returns (run f) P) →
  (∀ r f', P (r, f') → Q (r, state 1 1 n fss fls (<[fs:=f']> drv))) →
  returns (fs_return fs (state 0 1 (n + 1) fss fls drv) run) Q.
Proof.
  intros Hn Ht Ha Hrun HQ. unfold fs_return. apply returns_bind.
  eapply returns_mono; [by apply (call_fs_ok fss fls drv a Ht fs m h)|].
  intros [r s'] (f' & HP & ->).
  vfs_run. rewrite end_ok by done. simpl. by apply HQ.
Qed.

Lemma vrep_driver A fss fls drv fs f m h :
  av_fss A = fss → av_fls A = fls → 0 ≤ av_ops A → tables fss fls drv (av_contents A) →
  is_Some (av_contents A !! fs) → fs_holds f m h →
  vrep (state 1 1 (av_ops A) fss fls (<[fs:=f]> drv)) (av_update fs m h A).
Proof.
  intros <- <- Hn Ht Ha Hh. split; [done|]. exists (<[fs:=f]> drv). split; [done|].
  by apply tables_driver.
Qed.

Lemma update_same A fs m h : av_contents A !! fs = Some (m, h) → av_update fs m h A = A.
Proof.
  intros Ha. unfold av_update, av_set_contents. rewrite insert_id by done. by destruct A.
Qed.

Lemma vrep_driver_same A drv fs f m h :
  0 ≤ av_ops A → tables (av_fss A) (av_fls A) drv (av_contents A) →
  av_contents A !! fs = Some (m, h) → fs_holds f m h →
  vrep (state 1 1 (av_ops A) (av_fss A) (av_fls A) (<[fs:=f]> drv)) A.
Proof.
  intros Hn Ht Ha Hh. pose proof (vrep_driver A _ _ drv fs f m h eq_refl eq_refl Hn Ht) as H.
  rewrite (update_same A fs m h Ha) in H. apply H; [by eexists|done].
Qed.

(** The contents of the file system a path leads to. *)
Lemma mounted_contents fss fls (drv : gmap Z F) a vn :
  tables fss fls drv a → mounted_at fss vn ≠ 0 → ∃ m h, a !! mounted_at fss vn = Some (m, h).
Proof.
  intros Ht Hne. destruct (t_mounted _ _ _ _ Ht _ Hne (mounted_at_mounted fss vn Hne)) as [[m h] E].
  eauto.
Qed.

(** ** Operations on paths *)
Lemma vfs_create_spec path p vol file size s A :
  path_ok path p vol file → vrep s A → size < 2 ^ 30 →
  returns (vfs_create path vol file size s) (λ '(r, s'),
    if size <? 0 then r = VFS_INVALID_PARAMS ∧ s' = s else
    match split_path p with
    | None => r = VFS_ERROR ∧ s' = s
    | Some (vn, fn) =>
        let fs := mounted_at (av_fss A) vn in
        if fs =? 0 then r = VFS_NO_SUCH_FS ∧ s' = s
        else ∃ m h, av_contents A !! fs = Some (m, h) ∧
          ((r = VFS_OK ∧ m !! fn = None ∧ ∃ h', delete fn h' = delete fn h ∧
            vrep s' (av_update fs (<[fn := replicate (Z.to_nat size) 0]> m) h' A)) ∨
           (r < 0 ∧ vrep s' A))
    end).
Proof.
  intros Hp Hs Hsz. unfold vfs_create. destruct (Z.ltb_spec size 0); [done|].
  apply (with_path_spec path p vol file id s A); [done|done|]. pose proof Hs as (Hn & _).
  destruct (split_path p) as [[vn fn]|]; [|done]. cbv zeta.
  destruct (Z.eqb_spec (mounted_at (av_fss A) vn) 0) as [|Hne]; [done|].
  intros drv name Ht Hc Hnm. destruct (mounted_contents _ _ _ _ _ Ht Hne) as (m & h & Ha).
  eapply fs_return_spec; [done|done|done|intros f Hf; by apply (fs_create_spec f m h name fn)|].
  intros r f' [(-> & Hm & h' & Hf' & Hd)|[Hr Hf']]; exists m, h; split; try done.
  - left. split_and!; [done|done|]. exists h'. split; [done|]. by apply vrep_driver.
  - right. split; [done|]. by apply (vrep_driver_same A drv _ f' m h).
Qed.

Lemma vfs_remove_spec path p vol file s A :
  path_ok path p vol file → vrep s A →
  returns (vfs_remove path vol file s) (λ '(r, s'),
    match split_path p with
    | None => r = VFS_ERROR ∧ s' = s
    | Some (vn, fn) =>
        let fs := mounted_at (av_fss A) vn in
        if fs =? 0 then r = VFS_NO_SUCH_FS ∧ s' = s
        else ∃ m h, av_contents A !! fs = Some (m, h) ∧ r = fst (afs_remove fn m) ∧
          vrep s' (av_update fs (snd (afs_remove fn m)) (delete fn h) A)
    end).
Proof.
  intros Hp Hs. unfold vfs_remove. apply (with_path_spec path p vol file id s A); [done|done|].
  pose proof Hs as (Hn & _). destruct (split_path p) as [[vn fn]|]; [|done]. cbv zeta.
  destruct (Z.eqb_spec (mounted_at (av_fss A) vn) 0) as [|Hne]; [done|].
  intros drv name Ht Hc Hnm. destruct (mounted_contents _ _ _ _ _ Ht Hne) as (m & h & Ha).
  eapply fs_return_spec; [done|done|done|intros f Hf; by apply (fs_remove_spec f m h name fn)|].
  intros r f' [-> Hf']. exists m, h. split_and!; [done|done|]. by apply vrep_driver.
Qed.

Lemma vfs_filecount_spec path p vol file s A :
  path_ok path p vol file → vrep s A →
  returns (vfs_filecount (Some path) vol file s) (λ '(r, s'), vrep s' A ∧
    r = match split_path p with
        | None => VFS_ERROR
        | Some (vn, fn) =>
            let fs := mounted_at (av_fss A) vn in
            if fs =? 0 then VFS_NO_SUCH_FS
            else match av_contents A !! fs with
                 | Some (m, _) => if decide (fn = [47]) then Z.of_nat (size m) else VFS_NOT_FOUND
                 | None => VFS_ERROR
                 end
        end).
Proof.
  intros Hp Hs. unfold vfs_filecount. apply (with_path_spec path p vol file id s A); [done|done|].
  pose proof Hs as (Hn & _). destruct (split_path p) as [[vn fn]|]; [|done]. cbv zeta.
  destruct (Z.eqb_spec (mounted_at (av_fss A) vn) 0) as [|Hne]; [done|].
  intros drv name Ht Hc (_ & _ & Hu & _). destruct (mounted_contents _ _ _ _ _ Ht Hne) as (m & h & Ha).
  eapply fs_return_spec; [done|done|done|intros f Hf; by apply (fs_filecount_spec f m h name fn)|].
  intros r f' [Hf' ->]. rewrite Ha. split; [|done].
  by apply (vrep_driver_same A drv _ f' m h).
Qed.

Lemma vfs_file_spec path p vol file idx buffer s A :
  path_ok path p vol file → vrep s A → 16 ≤ Z.of_nat (length buffer) →
  returns (vfs_file (Some path) vol file idx buffer s) (λ '((r, buf), s'), vrep s' A ∧
    ((r = VFS_OK ∧ ∃ vn fn m h n, split_path p = Some (vn, fn) ∧
        av_contents A !! mounted_at (av_fss A) vn = Some (m, h) ∧ cstr buf n ∧ is_Some (m !! n)) ∨
     (r < 0 ∧ buf = buffer))).
Proof.
  intros Hp Hs Hb. unfold vfs_file.
  apply (with_path_spec path p vol file (λ r, (r, buffer)) s A); [done|done|].
  pose proof Hs as (Hn & _). destruct (split_path p) as [[vn fn]|]; [|by split; [|right]]. cbv zeta.
  destruct (Z.eqb_spec (mounted_at (av_fss A) vn) 0) as [|Hne]; [by split; [|right]|].
  intros drv name Ht Hc (_ & _ & Hu & _). destruct (mounted_contents _ _ _ _ _ Ht Hne) as (m & h & Ha).
  eapply (fs_return_spec _ m h _ _ _ _ _ _ (λ '((r, buf), f'), fs_holds f' m h ∧
    ((r = VFS_OK ∧ ∃ n, cstr buf n ∧ is_Some (m !! n)) ∨ (r = VFS_ERROR ∧ buf = buffer))));
    [done|done|done| |].
  - intros f Hf. apply returns_bind.
    eapply returns_mono; [by apply (fs_file_spec f m h name fn)|]. by intros [buf [r f']].
  - intros [r buf] f' [Hf' Hcase]. split.
    + by apply (vrep_driver_same A drv _ f' m h).
    + destruct Hcase as [(-> & n & Hcn & Hm)|[-> ->]]; [left|by right].
      split; [done|]. by exists vn, fn, m, h, n.
Qed.

Lemma vfs_getfree_spec name n s A :
  vrep s A → cstr name n → Forall is_u8 n →
  returns (vfs_getfree name s) (λ '(r, s'), vrep s' A ∧
    if mounted_at (av_fss A) n =? 0 then r = VFS_NO_SUCH_FS else 0 ≤ r).
Proof.
  intros Hs Hc Hu. pose proof Hs as (Hn & drv & -> & Ht). unfold vfs_getfree. rewrite starting_ok.
  vfs_run. rewrite (get_filesystem_ok _ _ _ _ Ht name n) by done. cbn [outcome_bind].
  destruct (Z.eqb_spec (mounted_at (av_fss A) n) 0) as [|Hne].
  - vfs_run. by rewrite end_ok.
  - destruct (mounted_contents _ _ _ _ _ Ht Hne) as (m & h & Ha).
    eapply fs_return_spec; [done|done|done|intros f Hf; by apply (fs_getfree_spec f m h)|].
    intros r f' [Hr Hf']. split; [|done]. by apply (vrep_driver_same A drv _ f' m h).
Qed.

(** ** Operations on open files *)
Lemma av_row_inv file A o :
  av_row file A = Some o → av_fls A !! file = Some o ∧ of_filesystem o ≠ 0.
Proof.
  unfold av_row. destruct (av_fls A !! file) as [o'|]; [|done].
  destruct (Z.eqb_spec (of_filesystem o') 0); intros; by simplify_eq.
Qed.

Lemma verify_open_row (file : nat) A drv tb op k :
  tables (av_fss A) (av_fls A) drv (av_contents A) → (file < 512)%nat →
  vfs_verify_open (Z.of_nat file) (state tb op k (av_fss A) (av_fls A) drv) = Done (av_row file A).
Proof.
  intros Ht Hf. unfold vfs_verify_open. cbn [files state].
  destruct (Z.ltb_spec (Z.of_nat file) 0); [lia|]. cbn [andb]. unfold av_row.
  destruct (lookup_lt_is_Some_2 (av_fls A) file) as [o Ho]; [by rewrite (t_fls_len _ _ _ _ Ht)|].
  rewrite (aread_Some _ _ o) by (rewrite ?Nat2Z.id; done || lia). by rewrite Ho.
Qed.

Lemma vrep_row A drv i o n :
  0 ≤ av_ops A → av_ops A = n → tables (av_fss A) (av_fls A) drv (av_contents A) →
  (of_filesystem o ≠ 0 → mounted (av_fss A) (of_filesystem o)) →
  vrep (state 1 1 n (av_fss A) (<[i:=o]> (av_fls A)) drv)
    (av_set_fls (<[i:=o]> (av_fls A)) A).
Proof.
  intros Hn <- Ht Ho. split; [done|]. exists drv. split; [done|]. by apply tables_row.
Qed.

Lemma row_contents file A o drv :
  tables (av_fss A) (av_fls A) drv (av_contents A) → av_row file A = Some o →
  mounted (av_fss A) (of_filesystem o) ∧ ∃ m h, av_contents A !! of_filesystem o = Some (m, h).
Proof.
  intros Ht [Ho Hne]%av_row_inv. pose proof (t_open _ _ _ _ Ht _ _ Ho Hne) as Hm.
  split; [done|]. destruct (t_mounted _ _ _ _ Ht _ Hne Hm) as [[m h] E]. eauto.
Qed.

Lemma tables_update A drv fs f m h m' h' :
  tables (av_fss A) (av_fls A) drv (av_contents A) → av_contents A !! fs = Some (m, h) →
  fs_holds f m' h' → let A' := av_update fs m' h' A in
  tables (av_fss A') (av_fls A') (<[fs:=f]> drv) (av_contents A').
Proof. intros Ht Ha Hf. apply tables_driver; [done|by eexists|done]. Qed.

Lemma tables_same A drv fs f m h :
  tables (av_fss A) (av_fls A) drv (av_contents A) → av_contents A !! fs = Some (m, h) →
  fs_holds f m h → tables (av_fss A) (av_fls A) (<[fs:=f]> drv) (av_contents A).
Proof.
  intros Ht Ha Hf. pose proof (tables_update A drv fs f m h m h Ht Ha Hf) as Ht'. cbv zeta in Ht'.
  by rewrite (update_same A fs m h Ha) in Ht'.
Qed.

Lemma vfs_close_spec (file : nat) s A :
  vrep s A → (file < 512)%nat →
  returns (vfs_close (Z.of_nat file) s) (λ '(r, s'),
    r = fst (avfs_close file A) ∧ vrep s' (snd (avfs_close file A))).
Proof.
  intros (Hn & drv & -> & Ht) Hf. unfold vfs_close. vfs_run.
  rewrite (verify_open_row file A) by done. vfs_run. unfold avfs_close.
  destruct (av_row file A) as [o|] eqn:Er; vfs_run.
  - destruct (row_contents _ _ _ _ Ht Er) as (Hm & m & h & Ha). apply returns_bind.
    eapply returns_mono; [apply (call_fs_ok _ _ _ _ Ht _ m h _ _ _ _
      (λ '(r, f'), fs_holds f' m h ∧ r = VFS_OK) Ha)|].
    { intros f Hfh. eapply returns_mono; [by apply (fs_close_spec f m h (fileid o))|]. by intros [r f']. }
    intros [r s'] (f' & [Hf' ->] & ->). rewrite set_row_ok by (by rewrite (t_fls_len _ _ _ _ Ht)).
    vfs_run. rewrite end_ok by done. cbn [returns fst snd]. split; [done|].
    apply vrep_row; [done|done| |done]. by eapply tables_same.
  - cbn [returns fst snd]. split; [done|]. split; [simpl; lia|]. by exists drv.
Qed.

Lemma vfs_seek_spec (file : nat) pos s A :
  vrep s A → (file < 512)%nat →
  returns (vfs_seek (Z.of_nat file) pos s) (λ '(r, s'),
    r = fst (avfs_seek file pos A) ∧ vrep s' (snd (avfs_seek file pos A))).
Proof.
  intros (Hn & drv & -> & Ht) Hf.
  assert (Hleak : ∀ r : Z, returns (Done (r, state 1 1 (av_ops A + 1) (av_fss A) (av_fls A) drv))
    (λ '(r', s'), r' = r ∧ vrep s' (av_leak A))).
  { intros r. simpl. split; [done|]. split; [simpl; lia|]. by exists drv. }
  unfold vfs_seek, avfs_seek. vfs_run. destruct (pos <? 0); [apply Hleak|]. vfs_run.
  rewrite (verify_open_row file A) by done. vfs_run.
  destruct (av_row file A) as [o|] eqn:Er; vfs_run; [|apply Hleak].
  rewrite set_row_ok by (by rewrite (t_fls_len _ _ _ _ Ht)). vfs_run. rewrite end_ok by done.
  cbn [returns fst snd]. split; [done|]. apply vrep_row; [done|done|done|].
  intros _. apply (row_contents _ _ _ _ Ht Er).
Qed.

Lemma advance_spec {B} (file : nat) o r (b : B) A drv n :
  0 ≤ n → av_ops A = n → tables (av_fss A) (av_fls A) drv (av_contents A) →
  av_row file A = Some o →
  returns (advance (Z.of_nat file) r b (state 1 1 (n + 1) (av_fss A) (av_fls A) drv))
    (λ '(b', s'), b' = b ∧ vrep s' (av_advance file o r A)).
Proof.
  intros Hn <- Ht Er. destruct (av_row_inv _ _ _ Er) as [Ho _]. unfold advance, av_advance.
  destruct (0 <? r); vfs_run.
  - cbn [files state]. rewrite (aread_Some _ _ o) by (rewrite ?Nat2Z.id; done || lia). vfs_run.
    rewrite set_row_ok by (by eapply lookup_lt_Some). vfs_run. rewrite end_ok by done.
    cbn [returns]. split; [done|]. apply vrep_row; [done|done|done|].
    intros _. apply (row_contents _ _ _ _ Ht Er).
  - rewrite end_ok by done. cbn [returns]. split; [done|]. split; [done|]. by exists drv.
Qed.

Lemma vfs_read_spec (file : nat) addr buffer len n o m h s A :
  vrep s A → (file < 512)%nat → av_live file n o m h A → addr ≠ 0 →
  0 ≤ len ≤ Z.of_nat (length buffer) →
  returns (vfs_read (Z.of_nat file) addr buffer len s) (λ '((r, buf), s'),
    let '(r0, bytes) := afs_read n len (seek_position o) m in
    r = r0 ∧ buf = put buffer 0 bytes ∧ vrep s' (av_advance file o r0 A)).
Proof.
  intros (Hn & drv & -> & Ht) Hf (Er & Ha & Hid) Haddr Hlen. unfold vfs_read. vfs_run.
  rewrite (verify_open_row file A), Er by done. vfs_run.
  destruct (Z.leb_spec 0 len), (Z.eqb_spec addr 0); try lia. cbn [negb andb kassert]. vfs_run.
  apply returns_bind. eapply returns_mono; [apply (call_fs_ok _ _ _ _ Ht _ m h _ _ _ _
    (λ '((r, buf), f'), fs_holds f' m h ∧ r = fst (afs_read n len (seek_position o) m) ∧
       buf = put buffer 0 (snd (afs_read n len (seek_position o) m))) Ha)|].
  { intros f Hfh. apply returns_bind. eapply returns_mono;
      [by apply (fs_read_spec f m h n (fileid o) addr buffer len (seek_position o))|].
    by intros [buf [r f']]. }
  intros [[r buf] s'] (f' & (Hf' & -> & ->) & ->).
  pose proof (tables_same A drv _ f' m h Ht Ha Hf') as Ht'. cbn [fst].
  eapply returns_mono; [by apply (advance_spec file o _ _ A)|].
  intros [[r buf] s'] [E Hs']. simplify_eq. by destruct (afs_read n len (seek_position o) m).
Qed.

Lemma vfs_write_spec (file : nat) addr buffer len n o m h s A :
  vrep s A → (file < 512)%nat → av_live file n o m h A → addr ≠ 0 →
  0 ≤ len ≤ Z.of_nat (length buffer) → Forall is_u8 buffer →
  returns (vfs_write (Z.of_nat file) addr buffer len s) (λ '(r, s'),
    let '(r0, m') := afs_write n buffer len (seek_position o) m in
    r = r0 ∧ vrep s' (av_advance file o r0 (av_update (of_filesystem o) m' h A))).
Proof.
  intros (Hn & drv & -> & Ht) Hf (Er & Ha & Hid) Haddr Hlen Hu. unfold vfs_write. vfs_run.
  rewrite (verify_open_row file A), Er by done. vfs_run.
  destruct (Z.leb_spec 0 len), (Z.eqb_spec addr 0); try lia. cbn [negb andb kassert]. vfs_run.
  apply returns_bind. eapply returns_mono; [apply (call_fs_ok _ _ _ _ Ht _ m h _ _ _ _
    (λ '(r, f'), r = fst (afs_write n buffer len (seek_position o) m) ∧
       fs_holds f' (snd (afs_write n buffer len (seek_position o) m)) h) Ha)|].
  { intros f Hfh. eapply returns_mono;
      [by apply (fs_write_spec f m h n (fileid o) addr buffer len (seek_position o))|].
    by intros [r f']. }
  intros [r s'] (f' & (-> & Hf') & ->). destruct (afs_write n buffer len (seek_position o) m) as [r0 m'].
  cbn [fst snd] in *. pose proof (tables_update A drv _ f' m h m' h Ht Ha Hf') as Ht'.
  eapply returns_mono; [by apply (advance_spec file o _ _ (av_update (of_filesystem o) m' h A))|].
  by intros [r s'] [-> Hs'].
Qed.

(** ** Opening files *)

(** The driver's answer, once a row has been reserved. *)
Lemma open_reserved i o fs name fn m h A drv :
  0 ≤ av_ops A → tables (av_fss A) (av_fls A) drv (av_contents A) →
  av_fls A !! i = Some o → of_filesystem o = 0 → mounted (av_fss A) fs →
  av_contents A !! fs = Some (m, h) → cstr name fn → name_ok fn →
  let fls' := <[i := Openfile fs (fileid o) (seek_position o)]> (av_fls A) in
  returns (let* '(id, s) := call_fs fs (state 1 1 (av_ops A + 1) (av_fss A) fls' drv) (fs_open name) in
    if id <? 0 then
      let* s := semaphore_P OpenSem s in
      let* o := aread (files s) (Z.of_nat i) in
      let* s := set_row (Z.of_nat i) (Openfile 0 (fileid o) (seek_position o)) s in
      let* s := semaphore_V OpenSem s in
      end_return id s
    else
    let* o := aread (files s) (Z.of_nat i) in
    let* s := set_row (Z.of_nat i) (Openfile (of_filesystem o) id 0) s in
    end_return (Z.of_nat i) s)
  (λ '(r, s'), match h !! fn with
    | Some id => r = Z.of_nat i ∧ vrep s' (av_set_fls (<[i := Openfile fs id 0]> (av_fls A)) A)
    | None => r = VFS_NOT_FOUND ∧ vrep s' A
    end).
Proof.
  intros Hn Ht Ho Ho0 Hm Ha Hc Hnm fls'. pose proof (lookup_lt_Some _ _ _ Ho) as Hi.
  set (o' := Openfile fs (fileid o) (seek_position o)) in *.
  assert (Ht' : tables (av_fss A) fls' drv (av_contents A)) by (by apply tables_row).
  assert (Hi' : fls' !! i = Some o') by (by apply list_lookup_insert_eq).
  apply returns_bind. eapply returns_mono; [apply (call_fs_ok _ _ _ _ Ht' fs m h _ _ _ _
    (λ '(r, f'), fs_holds f' m h ∧ match m !! fn with Some _ => 0 ≤ r ∧ h !! fn = Some r
       | None => r = VFS_NOT_FOUND end) Ha)|].
  { intros f Hfh. eapply returns_mono; [by apply (fs_open_spec f m h name fn)|]. by intros [r f']. }
  intros [id s'] (f' & (Hf' & Hid) & ->).
  assert (Ht2 : tables (av_fss A) (av_fls A) (<[fs:=f']> drv) (av_contents A)) by (by eapply tables_same).
  pose proof (fs_holds_dom _ _ _ Hf') as Hdom.
  destruct (m !! fn) as [data|] eqn:Em.
  - destruct Hid as [Hpos ->]. destruct (Z.ltb_spec id 0); [lia|]. cbn [files state].
    rewrite (aread_Some _ _ o') by (rewrite ?Nat2Z.id; done || lia). vfs_run.
    rewrite set_row_ok by (unfold fls'; by rewrite length_insert). vfs_run.
    rewrite end_ok by done. cbn [returns]. split; [done|]. unfold fls'.
    rewrite list_insert_insert_eq. by apply vrep_row.
  - assert (h !! fn = None) as ->
      by (apply not_elem_of_dom; rewrite Hdom; by apply not_elem_of_dom).
    subst id. cbn [Z.ltb Z.compare VFS_NOT_FOUND]. vfs_run. cbn [files state].
    rewrite (aread_Some _ _ o') by (rewrite ?Nat2Z.id; done || lia). vfs_run.
    rewrite set_row_ok by (unfold fls'; by rewrite length_insert). vfs_run.
    rewrite end_ok by done. cbn [returns]. split; [done|]. unfold fls'.
    rewrite list_insert_insert_eq, list_insert_id.
    + split; [done|]. by exists (<[fs:=f']> drv).
    + rewrite Ho. f_equal. destruct o; simpl in *. by subst.
Qed.

Lemma vfs_open_spec path p vol file s A :
  path_ok path p vol file → vrep s A →
  returns (vfs_open path vol file s) (λ '(r, s'),
    r = fst (avfs_open p A) ∧ vrep s' (snd (avfs_open p A))).
Proof.
  intros [Hc Hu Hv Hf] Hs. pose proof Hs as (Hn & drv & -> & Ht). unfold vfs_open, avfs_open. vfs_run.
  apply returns_bind. eapply returns_mono; [by apply (parse_pathname_spec path p)|].
  intros [[ret v] f] Hr. pose proof (split_path_ok p) as Hok.
  destruct (split_path p) as [[vn fn]|]; [|subst ret; cbn [Z.eqb negb VFS_OK VFS_ERROR]; by rewrite end_ok].
  destruct Hr as (-> & Hvc & Hfc). destruct (Hok vn fn (proj1 Hc) Hu eq_refl) as [Hnm Hvu].
  cbn [Z.eqb negb VFS_OK]. vfs_run. rewrite (find_free_file_ok _ _ _ _ Ht). vfs_run.
  destruct (free_file (av_fls A)) as [[i o]|] eqn:Ef.
  2: { rewrite Z.leb_refl. vfs_run. by rewrite end_ok. }
  apply list_find_Some in Ef as (Ho & Ho0 & _). pose proof (lookup_lt_Some _ _ _ Ho) as Hi.
  rewrite (t_fls_len _ _ _ _ Ht) in Hi.
  destruct (Z.leb_spec CONFIG_MAX_OPEN_FILES (Z.of_nat i)); [unfold CONFIG_MAX_OPEN_FILES in *; lia|].
  rewrite (get_filesystem_ok _ _ _ _ Ht v vn) by done. vfs_run. cbv zeta.
  destruct (Z.eqb_spec (mounted_at (av_fss A) vn) 0) as [|Hne].
  { vfs_run. by rewrite end_ok. }
  destruct (mounted_contents _ _ _ _ _ Ht Hne) as (m & h & Ha). rewrite Ha. cbn [files state].
  rewrite (aread_Some _ _ o) by (rewrite ?Nat2Z.id; done || lia). vfs_run.
  rewrite set_row_ok by (by eapply lookup_lt_Some). vfs_run.
  eapply returns_mono; [apply (open_reserved i o (mounted_at (av_fss A) vn) f fn m h A drv);
    try done; by apply mounted_at_mounted|].
  intros [r s']. by destruct (h !! fn).
Qed.

(** ** Mounting *)
Lemma mountpoint_copied (mp n : list Z) :
  length mp = 16%nat → (length n ≤ 15)%nat → 0 ∉ n →
  length (stringcopy_result mp n 16) = 16%nat ∧ cstr (stringcopy_result mp n 16) n.
Proof.
  intros Hl Hn H0. unfold stringcopy_result. rewrite take_ge by (simpl; lia). split.
  - rewrite length_app. simpl. rewrite length_drop. lia.
  - split; [done|by eexists].
Qed.

Lemma mounted_insert fss i e e' fs :
  fss !! i = Some e → filesystem e ≠ fs → mounted fss fs → mounted (<[i:=e']> fss) fs.
Proof.
  intros Hi Hne (j & e2 & Hj & <-). exists j, e2. split; [|done].
  rewrite list_lookup_insert_ne; [done|]. intros ->. congruence.
Qed.

Lemma insert_lookup_cases {X} (l : list X) i j x y :
  <[i:=x]> l !! j = Some y → (j = i ∧ y = x) ∨ (j ≠ i ∧ l !! j = Some y).
Proof.
  intros H. destruct (decide (i = j)) as [<-|Hne].
  - left. split; [done|]. rewrite list_lookup_insert_eq in H; [by simplify_eq|].
    apply lookup_lt_Some in H. by rewrite length_insert in H.
  - rewrite list_lookup_insert_ne in H by done. by right.
Qed.

Lemma entries_apart_sym e e' : entries_apart e e' → entries_apart e' e.
Proof. intros [H1 H2]. split; intros E; rewrite E; [apply H1|apply H2]; congruence. Qed.

Lemma tables_mount fss fls (drv : gmap Z F) a i e fs mp n :
  tables fss fls drv a → fss !! i = Some e → filesystem e = 0 →
  row_named fss n = None → n ≠ [] → Forall is_u8 n → fs ≠ 0 → is_Some (a !! fs) → ¬ mounted fss fs →
  length mp = 16%nat → cstr mp n → tables (<[i := VfsEntry fs mp]> fss) fls drv a.
Proof.
  intros Ht Hi He Hno Hne Hu Hfs Ha Hnm Hlen Hc. pose proof (chars_cstr _ _ Hc) as Hch.
  assert (Hother : ∀ j e', fss !! j = Some e' → entries_apart (VfsEntry fs mp) e').
  { intros j e' Hj. unfold row_named in Hno. apply list_find_None in Hno.
    rewrite Forall_lookup in Hno. split; simpl.
    - rewrite Hch. intros E. by destruct (Hno _ _ Hj).
    - intros E. destruct Hnm. by exists j, e'. }
  destruct Ht as [Hl1 Hl2 Hrows Hapart Hmounted Hopen Hdom Hholds]. constructor; try done.
  - by rewrite length_insert.
  - apply Forall_insert; [done|]. split; simpl; rewrite ?Hch; done.
  - intros j k x y [[-> ->]|[Hj Hjx]]%insert_lookup_cases [[-> ->]|[Hk Hky]]%insert_lookup_cases Hjk;
      [done|by eapply Hother|by eapply entries_apart_sym, Hother|by eapply (Hapart j k)].
  - intros fs' Hne' (j & x & [[-> ->]|[Hj Hjx]]%insert_lookup_cases & <-); [done|].
    apply Hmounted; [done|]. by exists j, x.
  - intros j o Hj Hne'. eapply mounted_insert; [done|congruence|eauto].
Qed.

Lemma vfs_mount_spec fs name n s A :
  vrep s A → cstr name n → n ≠ [] → (length n ≤ 15)%nat → Forall is_u8 n →
  fs ≠ 0 → is_Some (av_contents A !! fs) → ¬ mounted (av_fss A) fs →
  returns (vfs_mount fs name s) (λ '(r, s'),
    r = fst (avfs_mount fs n A) ∧ vrep s' (snd (avfs_mount fs n A))).
Proof.
  intros Hs Hc Hne Hl Hu Hfs Ha Hnm. pose proof Hs as (Hn & drv & -> & Ht).
  unfold vfs_mount, avfs_mount.
  destruct n as [|c n']; [done|]. pose proof (cstr_lookup _ _ 0 Hc) as H0. simpl in H0.
  rewrite (aread_Some _ _ c) by (done || (apply H0; lia)). vfs_run.
  destruct (Z.eqb_spec c 0) as [->|_].
  { destruct Hc as [Hz _]. destruct Hz. by left. }
  cbn [negb kassert]. vfs_run. rewrite (find_free_row_ok _ _ _ _ Ht). vfs_run.
  destruct (free_row (av_fss A)) as [[i e]|] eqn:Ef; [|rewrite Z.leb_refl; vfs_run; by rewrite end_ok].
  apply list_find_Some in Ef as (Hi & He & _). pose proof (lookup_lt_Some _ _ _ Hi) as Hlt.
  rewrite (t_fss_len _ _ _ _ Ht) in Hlt. unfold CONFIG_MAX_FILESYSTEMS.
  destruct (Z.leb_spec 8 (Z.of_nat i)); [lia|].
  rewrite (find_mountpoint_ok _ _ _ _ Ht name (c :: n')) by done. vfs_run.
  destruct (row_named (av_fss A) (c :: n')) as [[j e']|] eqn:Er; [vfs_run; by rewrite end_ok|].
  cbn [filesystems state]. rewrite (aread_Some _ _ e) by (rewrite ?Nat2Z.id; done || lia). vfs_run.
  pose proof (t_rows _ _ _ _ Ht) as Hrows. rewrite Forall_lookup in Hrows.
  pose proof (eo_len _ (Hrows _ _ Hi)) as Hml. unfold VFS_NAME_LENGTH.
  rewrite (stringcopy_spec _ _ _ _ Hc) by lia. vfs_run.
  rewrite awrite_in_range by (rewrite (t_fss_len _ _ _ _ Ht); lia). vfs_run.
  rewrite Nat2Z.id. cbn [set_filesystems state].
  match goal with |- context [Vfs (Some 0) ?a (Some 1) ?b (Some 1) (Some 0) ?k true ?d] =>
    change (Vfs (Some 0) a (Some 1) b (Some 1) (Some 0) k true d) with (state 0 1 k a b d) end.
  vfs_run. rewrite end_ok by done. cbn [returns fst snd]. split; [done|]. split; [done|].
  exists drv. split; [done|]. cbn [av_set_fss av_fss av_fls av_contents].
  destruct (mountpoint_copied (mountpoint e) (c :: n') Hml Hl (proj1 Hc)) as [Hml' Hmc].
  by apply (tables_mount _ _ _ _ i e fs _ (c :: n')).
Qed.

Lemma tables_unmount fss fls (drv : gmap Z F) a i e :
  tables fss fls drv a → fss !! i = Some e → filesystem e ≠ 0 →
  filesystem e ∉ of_filesystem <$> fls →
  tables (<[i := VfsEntry 0 (mountpoint e)]> fss) fls (delete (filesystem e) drv)
    (delete (filesystem e) a).
Proof.
  intros [Hl1 Hl2 Hrows Hapart Hmounted Hopen Hdom Hholds] Hi He Hnu. rewrite Forall_lookup in Hrows.
  assert (Hap : ∀ j x, fss !! j = Some x → j ≠ i → entries_apart (VfsEntry 0 (mountpoint e)) x).
  { intros j x Hj Hne. destruct (Hapart i j e x) as [H1 _]; [done..|]. by split. }
  constructor; try done.
  - by rewrite length_insert.
  - apply Forall_lookup. intros j x [[-> ->]|[_ Hj]]%insert_lookup_cases; [|eauto].
    destruct (Hrows _ _ Hi) as [H1 H2 H3 H4]. by split.
  - intros j k x y [[-> ->]|[Hj Hjx]]%insert_lookup_cases [[-> ->]|[Hk Hky]]%insert_lookup_cases Hjk;
      [done|by eapply Hap|by eapply entries_apart_sym, Hap|by eapply (Hapart j k)].
  - intros fs' Hne' (j & x & [[-> ->]|[Hj Hjx]]%insert_lookup_cases & <-); [done|].
    rewrite lookup_delete_ne; [apply Hmounted; [done|by exists j, x]|].
    intros E. destruct (Hapart i j e x) as [_ H2]; [done..|]. auto.
  - intros j o Hj Hne'. eapply mounted_insert; [done| |eauto].
    intros E. apply Hnu, list_elem_of_fmap. exists o. split; [done|]. by eapply list_elem_of_lookup_2.
  - by rewrite !dom_delete_L, Hdom.
  - intros fs' f m h [_ Hf]%lookup_delete_Some [_ Hx]%lookup_delete_Some. eauto.
Qed.

Lemma call_unmount_ok fss fls (drv : gmap Z F) a fs tb op k :
  tables fss fls drv a → is_Some (a !! fs) →
  returns (call_unmount fs (state tb op k fss fls drv)) (λ '(_, s'),
    s' = state tb op k fss fls (delete fs drv)).
Proof.
  intros Ht [[m h] Ha]. unfold call_unmount. apply returns_bind.
  eapply returns_mono; [apply (call_fs_ok _ _ _ _ Ht fs m h _ _ _ _ (λ _, True) Ha);
    intros f Hf; eapply returns_mono; [by apply (fs_unmount_spec f m h)|done]|].
  intros [r s'] (f' & _ & ->). cbn [returns drivers state set_drivers].
  by rewrite delete_insert_eq.
Qed.

Lemma vfs_unmount_spec name n s A :
  vrep s A → cstr name n → Forall is_u8 n →
  returns (vfs_unmount name s) (λ '(r, s'),
    r = fst (avfs_unmount n A) ∧ vrep s' (snd (avfs_unmount n A))).
Proof.
  intros Hs Hc Hu. pose proof Hs as (Hn & drv & -> & Ht).
  unfold vfs_unmount, avfs_unmount. vfs_run.
  rewrite (find_mountpoint_ok _ _ _ _ Ht name n) by done. vfs_run.
  destruct (row_named (av_fss A) n) as [[i e]|] eqn:Er.
  2: { vfs_run. cbn [filesystem Z.eqb]. vfs_run. by rewrite end_ok. }
  apply list_find_Some in Er as (Hi & _ & _). cbn [filesystems state].
  rewrite (aread_Some _ _ e) by (rewrite ?Nat2Z.id; done || lia). vfs_run.
  destruct (Z.eqb_spec (filesystem e) 0) as [|He]; [vfs_run; by rewrite end_ok|]. vfs_run.
  rewrite (in_use_ok _ _ _ _ Ht). vfs_run.
  destruct (bool_decide _) eqn:Eu; [vfs_run; by rewrite end_ok|].
  apply bool_decide_eq_false in Eu. apply returns_bind.
  eapply returns_mono; [eapply (call_unmount_ok _ _ _ _ _ _ _ _ Ht);
    apply (t_mounted _ _ _ _ Ht); [done|by exists i, e]|].
  intros [r s'] ->. cbn [filesystems state default from_option id].
  rewrite awrite_in_range by (apply lookup_lt_Some in Hi; lia). vfs_run. rewrite Nat2Z.id.
  cbn [set_filesystems state].
  match goal with |- context [Vfs (Some 0) ?a (Some 0) ?b (Some 1) (Some 0) ?k true ?d] =>
    change (Vfs (Some 0) a (Some 0) b (Some 1) (Some 0) k true d) with (state 0 0 k a b d) end.
  vfs_run. rewrite end_ok by done. cbn [returns fst snd]. split; [done|]. split; [done|].
  eexists. split; [done|]. by apply tables_unmount.
Qed.
End refinement.
