(* ===== verification/VfsTfs.v ===== *)
(** * TFS as a file system of the VFS

    The function table [tfs_init] fills in, as an instance of [FsDriver], and the
    proof that it keeps the contract [FsDriverSpec]: the theorems of VfsOps.v
    hold of TFS volumes on any block device that keeps [BlockDeviceSpec]. *)

From S2P Require Import Prelude Bitmap Libc BlockDev Tfs Vfs TfsSpec TfsRead TfsIO TfsAlloc TfsCreate TfsLock.
From S2P Require Import TfsView VfsSpec VfsInv.

(** A mounted TFS volume: the [fs_t] with its [internal] data and disk. *)
Record tfs_volume (D : Type) := TfsVolume {
  tv_name : list Z;
  tv_bat_address : Z;
  tv_tfs : tfs_t;
  tv_disk : D
}.
Arguments TfsVolume {D}.
Arguments tv_name {D}.
Arguments tv_bat_address {D}.
Arguments tv_tfs {D}.
Arguments tv_disk {D}.

Section instance.
Context {D : Type} {dev : BlockDevice D} (en : endian).

(** A call of a TFS function on the volume. *)
Definition on_volume (v : tfs_volume D) (run : tfs_t → D → outcome (Z * (tfs_t * D)))
    : outcome (Z * tfs_volume D) :=
  let* '(r, (t, d)) := run (tv_tfs v) (tv_disk v) in
  Done (r, TfsVolume (tv_name v) (tv_bat_address v) t d).

Definition on_volume_buf (v : tfs_volume D) (run : tfs_t → D → outcome (list Z * (Z * (tfs_t * D))))
    : outcome (list Z * (Z * tfs_volume D)) :=
  let* '(b, (r, (t, d))) := run (tv_tfs v) (tv_disk v) in
  Done (b, (r, TfsVolume (tv_name v) (tv_bat_address v) t d)).

Definition tfs_driver : FsDriver (tfs_volume D) := {|
  fs_volume_name := tv_name;
  fs_unmount v := on_volume v tfs_unmount;
  fs_open fname v := on_volume v (tfs_open en fname);
  fs_close id v := on_volume v (tfs_close id);
  fs_read id addr buf len off v :=
    on_volume_buf v (tfs_read en (tv_bat_address v) id addr buf len off);
  fs_write id addr buf len off v :=
    on_volume v (tfs_write en (tv_bat_address v) id addr buf len off);
  fs_create fname size v := on_volume v (tfs_create en fname size);
  fs_remove fname v := on_volume v (tfs_remove en fname);
  fs_getfree v := on_volume v (tfs_getfree en);
  fs_filecount dir v := on_volume v (tfs_filecount en dir);
  fs_file dir idx buf v := on_volume_buf v (tfs_file en dir idx buf)
|}.
End instance.

(** ** The contract *)
Section contract.
Context {D : Type} {dev : BlockDevice D} {spec : BlockDeviceSpec D}.

Definition vol_holds (v : tfs_volume D) (m : afs) (h : gmap (list Z) Z) : Prop :=
  holds (totalblocks (tv_tfs v)) (tv_tfs v) (tv_disk v) m h.

Lemma holds_vol total t d m h name bat :
  holds total t d m h → vol_holds (TfsVolume name bat t d) m h.
Proof. intros (dir & Hr & Hv & Hi & Ht). by exists dir. Qed.

Lemma on_volume_spec (v : tfs_volume D) run P Q :
  returns (run (tv_tfs v) (tv_disk v)) P →
  (∀ r t d, P (r, (t, d)) → Q (r, TfsVolume (tv_name v) (tv_bat_address v) t d)) →
  returns (on_volume v run) Q.
Proof.
  intros Hr HQ. apply returns_bind. eapply returns_mono; [exact Hr|]. intros [r [t d]] HP. by apply HQ.
Qed.

Lemma on_volume_buf_spec (v : tfs_volume D) run P Q :
  returns (run (tv_tfs v) (tv_disk v)) P →
  (∀ b r t d, P (b, (r, (t, d))) → Q (b, (r, TfsVolume (tv_name v) (tv_bat_address v) t d))) →
  returns (on_volume_buf v run) Q.
Proof.
  intros Hr HQ. apply returns_bind. eapply returns_mono; [exact Hr|].
  intros [b [r [t d]]] HP. by apply HQ.
Qed.

Lemma dir_map_dom {A B} (g : file → A) (g' : file → B) dir : dom (dir_map g dir) = dom (dir_map g' dir).
Proof.
  unfold dir_map. rewrite !dom_list_to_map_L. f_equal. unfold dir_list.
  by rewrite <- !list_fmap_compose.
Qed.

Lemma size_files t d dir : fs_rep t d dir → size (view t d dir) = length (files dir).
Proof.
  intros Hr. unfold view, dir_map. rewrite <- length_map_to_list, map_to_list_to_map.
  - unfold dir_list. by rewrite length_fmap.
  - unfold dir_list. rewrite <- list_fmap_compose. eapply (files_names_nodup (totalblocks t)), Hr.
Qed.

Lemma slash_cstr : cstr slash [47].
Proof. split; [|by exists []]. apply not_elem_of_cons. split; [done|apply not_elem_of_nil]. Qed.

Lemma filecount_refines total t d m h dirname n :
  holds total t d m h → cstr dirname n → Forall is_u8 n →
  returns (tfs_filecount Big dirname t d) (λ '(r, (t', d')), holds total t' d' m h ∧
    r = if decide (n = [47]) then Z.of_nat (size m) else VFS_NOT_FOUND).
Proof.
  intros (dir & Hr & <- & <- & <-) Hc Hu. destruct (decide (n = [47])) as [->|Hne].
  - eapply returns_mono; [apply returns_ensures; [by apply (tfs_filecount_spec t d dir dirname)|apply filecount_lock]|].
    intros [r [t' d']] [(Hr' & Hs & ->) Hfree]. split; [by eapply holds_same|]. by rewrite (size_files t d dir Hr).
  - unfold tfs_filecount. apply returns_bind.
    eapply returns_mono; [apply (stringcmp_eq dirname slash n [47] Hc slash_cstr Hu); by repeat constructor|].
    intros c Hcz. destruct (Z.eqb_spec c 0) as [->|]; [naive_solver|]. simpl. split; [|done].
    by exists dir.
Qed.

Lemma file_refines total t d m h dirname n idx buf :
  holds total t d m h → cstr dirname n → Forall is_u8 n → 16 ≤ Z.of_nat (length buf) →
  returns (tfs_file Big dirname idx buf t d) (λ '(buf', (r, (t', d'))), holds total t' d' m h ∧
    ((r = VFS_OK ∧ ∃ fn, cstr buf' fn ∧ is_Some (m !! fn)) ∨ (r = VFS_ERROR ∧ buf' = buf))).
Proof.
  intros (dir & Hr & <- & <- & <-) Hc Hu Hb.
  destruct (decide (n = [47] ∧ 0 ≤ idx)) as [[-> Hidx]|Hne].
  - eapply returns_mono; [apply returns_ensures; [by apply (tfs_file_spec t d dir dirname)|apply file_lock]|].
    intros [buf' [r [t' d']]] [(Hr' & Hs & Hcase) Hfree]. split; [by eapply holds_same|].
    destruct (files dir !! Z.to_nat idx) as [f|] eqn:Ef; [left|by right].
    destruct Hcase as [-> Hcs]. split; [done|]. exists (f_name f). split; [done|].
    apply list_elem_of_lookup_2, elem_of_files in Ef as [j Hj].
    rewrite (view_lookup (totalblocks t) t d dir j f) by (done || apply Hr). eauto.
  - unfold tfs_file. apply returns_bind.
    eapply returns_mono; [apply (stringcmp_eq dirname slash n [47] Hc slash_cstr Hu); by repeat constructor|].
    intros c Hcz. replace (negb (c =? 0) || (idx <? 0)) with true.
    + simpl. split; [by exists dir|]. by right.
    + destruct (Z.eqb_spec c 0), (Z.ltb_spec idx 0); simpl; try done. destruct Hne. naive_solver.
Qed.

Lemma getfree_refines total t d m h :
  holds total t d m h →
  returns (tfs_getfree Big t d) (λ '(r, (t', d')), 0 ≤ r ∧ holds total t' d' m h).
Proof.
  intros (dir & Hr & <- & <- & <-).
  eapply returns_mono; [apply returns_ensures; [by apply (tfs_getfree_spec t d dir)|apply getfree_lock]|].
  intros [r [t' d']] [(Hr' & Hs & ->) Hfree]. split; [|by eapply holds_same].
  pose proof (r_dir _ _ _ Hr) as [_ _ _ Hused Hnd].
  pose proof (g_total _ _ (r_geo _ _ _ Hr)).
  pose proof (count_below_elem (used dir) (Z.to_nat (totalblocks t)) Hnd) as Hcount.
  rewrite Z2Nat.id in Hcount by lia. specialize (Hcount Hused).
  pose proof (count_below_range (λ p, bool_decide (p ∈ used dir)) (Z.to_nat (totalblocks t))).
  unfold TFS_BLOCK_SIZE. lia.
Qed.

#[export] Instance tfs_driver_big : FsDriver (tfs_volume D) := tfs_driver Big.

#[export] Instance tfs_driver_spec : FsDriverSpec (tfs_volume D).
Proof.
  refine {| fs_holds := vol_holds |}.
  - intros v m h (dir & Hr & <- & <- & _). unfold inodes, view. apply dir_map_dom.
  - intros v m h (dir & Hr & _). simpl. apply (on_volume_spec v _ (λ _, True)); [|done].
    unfold tfs_unmount. by rewrite (lock_P_ok _ _ (r_geo _ _ _ Hr)).
  - intros v m h fname n Hh Hc (Hne & _ & Hu & _). simpl.
    eapply on_volume_spec; [eapply (open_refines _ _ _ m h fname n); [exact Hh|done..]|].
    intros r t d [Hh' Hcase]. split; [by eapply holds_vol|]. destruct (m !! n); [|done].
    split; [lia|apply Hcase].
  - intros v m h id Hh. simpl. by split.
  - intros v m h n id addr buf len off Hh Hid Hlen. simpl.
    eapply on_volume_buf_spec; [eapply (read_refines _ _ _ m h n id); [exact Hh|done..]|].
    intros b r t d (Hh' & -> & ->). split_and!; [by eapply holds_vol|done|done].
  - intros v m h n id addr buf len off Hh Hid Hlen Hu. simpl.
    eapply on_volume_spec; [eapply (write_refines _ _ _ m h n id); [exact Hh|done..]|].
    intros r t d (-> & Hh'). split; [done|by eapply holds_vol].
  - intros v m h fname n size Hh Hc Hn Hsz. simpl.
    eapply on_volume_spec; [eapply (create_refines _ _ _ m h fname n size); [exact Hh|done|done|lia]|].
    intros r t d (-> & h' & Hh' & Hd & Hsame). unfold afs_create in *.
    destruct (afs_can_create _ m n size) eqn:Ec; simpl in *.
    + left. unfold afs_can_create in Ec. rewrite !andb_true_iff, bool_decide_eq_true in Ec.
      split_and!; [done|apply Ec|]. exists h'. split; [by eapply holds_vol|done].
    + right. rewrite Hsame in Hh' by done. split; [done|by eapply holds_vol].
  - intros v m h fname n Hh Hc (Hne & _ & Hu & _). simpl.
    eapply on_volume_spec; [eapply (remove_refines _ _ _ m h fname n); [exact Hh|done..]|].
    intros r t d (-> & Hh'). split; [done|by eapply holds_vol].
  - intros v m h Hh. simpl. eapply on_volume_spec; [eapply getfree_refines; exact Hh|].
    intros r t d (Hr & Hh'). split; [done|by eapply holds_vol].
  - intros v m h dir n Hh Hc Hu. simpl.
    eapply on_volume_spec; [eapply (filecount_refines _ _ _ m h dir n); [exact Hh|done..]|].
    intros r t d [Hh' ->]. split; [by eapply holds_vol|done].
  - intros v m h dir n idx buf Hh Hc Hu Hb. simpl.
    eapply on_volume_buf_spec; [eapply (file_refines _ _ _ m h dir n); [exact Hh|done..]|].
    intros b r t d [Hh' Hcase]. split; [by eapply holds_vol|done].
Defined.
End contract.

(** ** Shutting the VFS down

    The protocol between operations and the forced unmount of [vfs_deinit]: any
    number of threads start and end operations while one thread shuts the VFS
    down.  The critical sections under [vfs_op_sem] are the atomic steps; the
    thread in [vfs_deinit] can be interrupted before and after its wait. *)

(** Where the thread in [vfs_deinit] is: not in it, before the wait on
    [vfs_unmount_sem], after it, or unmounting (with [vfs_op_sem] held). *)
Inductive phase := Running | Waiting | Woken | Unmounting.

Section gate.
Context {F : Type}.

(** The VFS, the number of threads that are inside an operation, and the phase
    of the shutdown. *)
Record gate := Gate { g_vfs : vfs F; g_active : nat; g_phase : phase }.

(** A started VFS. *)
Definition gate_init (g : gate) : Prop :=
  g_active g = 0%nat ∧ g_phase g = Running ∧ vfs_op_sem (g_vfs g) = Some 1 ∧
  vfs_unmount_sem (g_vfs g) = Some 0 ∧ vfs_ops (g_vfs g) = 0 ∧ vfs_usable (g_vfs g) = true.

Inductive gate_step : gate → gate → Prop :=
| step_start s s' n p :
    vfs_start_op s = Done (VFS_OK, s') → gate_step (Gate s n p) (Gate s' (S n) p)
| step_refused s s' n p :
    vfs_start_op s = Done (VFS_UNUSABLE, s') → gate_step (Gate s n p) (Gate s' n p)
| step_end s s' n p :
    vfs_end_op s = Done s' → gate_step (Gate s (S n) p) (Gate s' n p)
| step_deinit s s' n (waits : bool) :
    vfs_deinit_begin s = Done (waits, s') →
    gate_step (Gate s n Running) (Gate s' n (if waits then Waiting else Unmounting))
| step_wake s s' n :
    semaphore_P UnmountSem s = Done s' → gate_step (Gate s n Waiting) (Gate s' n Woken)
| step_woken s s' n :
    vfs_deinit_woken s = Done s' → gate_step (Gate s n Woken) (Gate s' n Unmounting).

Inductive gate_reachable : gate → Prop :=
| reach_init g : gate_init g → gate_reachable g
| reach_step g g' : gate_reachable g → gate_step g g' → gate_reachable g'.

(** ** The invariant *)
Definition gate_inv (g : gate) : Prop :=
  let s := g_vfs g in
  vfs_ops s = Z.of_nat (g_active g) ∧
  match g_phase g with
  | Running => vfs_op_sem s = Some 1 ∧ vfs_unmount_sem s = Some 0 ∧ vfs_usable s = true
  | Waiting => vfs_op_sem s = Some 1 ∧ vfs_usable s = false ∧
      vfs_unmount_sem s = Some (if (g_active g =? 0)%nat then 1 else 0)
  | Woken => vfs_op_sem s = Some 1 ∧ vfs_usable s = false ∧ vfs_unmount_sem s = Some 0 ∧
      g_active g = 0%nat
  | Unmounting => vfs_op_sem s = Some 0 ∧ vfs_usable s = false ∧ g_active g = 0%nat
  end.

(** A gate in which the semaphores and the counters are known. *)
Lemma start_running (s : vfs F) :
  vfs_op_sem s = Some 1 →
  vfs_start_op s = Done (if vfs_usable s then (VFS_OK, set_ops (vfs_ops s + 1) s) else (VFS_UNUSABLE, s)).
Proof.
  destruct s as [a b c d e f g h i]. simpl. intros ->. unfold vfs_start_op, semaphore_P. simpl.
  by destruct h.
Qed.

Lemma end_running (s : vfs F) :
  vfs_op_sem s = Some 1 → 0 < vfs_ops s → is_Some (vfs_unmount_sem s) →
  vfs_end_op s = Done (
    let s' := set_ops (vfs_ops s - 1) s in
    if negb (vfs_usable s) && (vfs_ops s - 1 =? 0)
    then set_sem UnmountSem (default 0 (vfs_unmount_sem s) + 1) s' else s').
Proof.
  destruct s as [a b c d e f g h i]. simpl. intros -> Hg [v ->]. unfold vfs_end_op, semaphore_P. simpl.
  destruct (Z.leb_spec 0 (g - 1)); [|lia]. simpl. by destruct (negb h && (g - 1 =? 0)).
Qed.

Lemma blocked_op (s : vfs F) : vfs_op_sem s = Some 0 → vfs_start_op s = Blocked ∧ vfs_end_op s = Blocked.
Proof. destruct s. simpl. by intros ->. Qed.

Lemma gate_inv_init g : gate_init g → gate_inv g.
Proof. destruct g as [s n p]. unfold gate_init, gate_inv. simpl. intros (-> & -> & ? & ? & ? & ?). auto. Qed.

(** Ending an operation keeps the count, and wakes a waiting shutdown after the
    last one. *)
Lemma end_inv (s s' : vfs F) n p :
  gate_inv (Gate s (S n) p) → vfs_end_op s = Done s' → gate_inv (Gate s' n p).
Proof.
  unfold gate_inv. cbn [g_vfs g_active g_phase]. intros [Hops Hp] He.
  assert (Hcase : vfs_op_sem s = Some 1 ∧ is_Some (vfs_unmount_sem s) ∧ (p = Running ∨ p = Waiting)).
  { destruct p; destruct_and!; try done; split_and!; try done; eauto. }
  destruct Hcase as (Hsem & Hun & Hpp). rewrite end_running in He by (done || lia). injection He as <- .
  destruct s as [a b c d e f g h i]. simpl in *. rewrite Hops in *. destruct Hpp as [-> | -> ].
  - destruct Hp as (-> & -> & ->). simpl. split_and!; [lia|done..].
  - destruct Hp as (-> & -> & ->). simpl. destruct n as [|n]; simpl.
    + by split_and!.
    + destruct (Z.eqb_spec (Z.of_nat (S (S n)) - 1) 0); [lia|]. simpl. split_and!; [lia|done..].
Qed.

Lemma step_inv g g' : gate_inv g → gate_step g g' → gate_inv g'.
Proof.
  intros Hinv Hst. destruct Hst as [s s' n p H|s s' n p H|s s' n p H|s s' n w H|s s' n H|s s' n H].
  1, 2: unfold gate_inv in *; cbn [g_vfs g_active g_phase] in *; destruct Hinv as [Hops Hp].
  - destruct (decide (vfs_op_sem s = Some 1)) as [E|E].
    + rewrite start_running in H by done. destruct (vfs_usable s) eqn:Eu; [|done].
      injection H as <-. destruct p; destruct_and!; try congruence.
      destruct s; simpl in *. split_and!; [lia|done..].
    + destruct p; destruct_and!; try congruence. by rewrite (proj1 (blocked_op s ltac:(done))) in H.
  - destruct (decide (vfs_op_sem s = Some 1)) as [E|E].
    + rewrite start_running in H by done. destruct (vfs_usable s) eqn:Eu; [done|].
      injection H as <-. rewrite Eu. exact (conj Hops Hp).
    + destruct p; destruct_and!; try congruence. by rewrite (proj1 (blocked_op s ltac:(done))) in H.
  - by eapply end_inv.
  - unfold gate_inv in *. destruct s as [a b c d e f g h i]. simpl in *.
    destruct Hinv as (-> & -> & -> & ->). unfold vfs_deinit_begin, semaphore_P in H. simpl in H.
    destruct (Z.ltb_spec 0 (Z.of_nat n)); simpl in H; injection H as <- <-; simpl.
    + destruct n as [|n]; [lia|]. by split_and!.
    + assert (n = 0%nat) as -> by lia. by split_and!.
  - unfold gate_inv in *. destruct s as [a b c d e f g h i]. simpl in *.
    destruct Hinv as (-> & -> & -> & ->). unfold semaphore_P in H. simpl in H.
    destruct n as [|n]; simpl in H; [|done]. injection H as <-. by split_and!.
  - unfold gate_inv in *. destruct s as [a b c d e f g h i]. simpl in *.
    destruct Hinv as (-> & -> & -> & -> & ->). unfold vfs_deinit_woken, semaphore_P in H. simpl in H.
    injection H as <-. by split_and!.
Qed.

Lemma reachable_inv g : gate_reachable g → gate_inv g.
Proof. induction 1; [by apply gate_inv_init|by eapply step_inv]. Qed.
End gate.
