(* ===== verification/VfsProps.v ===== *)
(** * Properties of the virtual file system

    Path names, the operations against the abstract VFS, a whole client session,
    the shutdown protocol, and two consequences of the code that clients see:
    the shutdown after a failed close, and remounting a volume. *)

From S2P Require Import Prelude Libc BlockDev Tfs TfsSpec TfsRead TfsView Vfs VfsSpec VfsInv VfsOps VfsTfs.

(** ** Shutting down a VFS at rest *)
Section shutdown.
Context {F : Type} {fsd : FsDriver F} {spec : FsDriverSpec F}.

(** The VFS in [vfs_deinit], with all semaphores taken. *)
Definition closing (fss : list vfs_entry_t) (fls : list openfile_entry_t) (drv : gmap Z F) : vfs F :=
  Vfs (Some 0) fss (Some 0) fls (Some 0) (Some 0) 0 false drv.

(** Rows unmounted so far. *)
Definition unmounted_to (i : nat) (fss : list vfs_entry_t) : list vfs_entry_t :=
  ((λ e, VfsEntry 0 (mountpoint e)) <$> take i fss) ++ drop i fss.

Lemma unmounted_lookup i fss : unmounted_to i fss !! i = fss !! i.
Proof.
  unfold unmounted_to. destruct (decide (i < length fss)%nat).
  - rewrite lookup_app_r; rewrite length_fmap, length_take, Nat.min_l by lia; [|lia].
    by rewrite Nat.sub_diag, lookup_drop, Nat.add_0_r.
  - rewrite take_ge, drop_ge, app_nil_r, list_lookup_fmap by lia. by rewrite lookup_ge_None_2 by lia.
Qed.

Lemma length_unmounted i fss : length (unmounted_to i fss) = length fss.
Proof. unfold unmounted_to. rewrite length_app, length_fmap, length_take, length_drop. lia. Qed.

Lemma unmounted_next i fss e :
  fss !! i = Some e → <[i := VfsEntry 0 (mountpoint e)]> (unmounted_to i fss) = unmounted_to (S i) fss.
Proof.
  intros Hi. pose proof (lookup_lt_Some _ _ _ Hi) as Hlt. unfold unmounted_to.
  rewrite (take_S_r _ _ _ Hi), fmap_app, (drop_S _ _ _ Hi).
  rewrite insert_app_r_alt by (rewrite length_fmap, length_take; lia).
  rewrite length_fmap, length_take, Nat.min_l, Nat.sub_diag by lia. simpl. by rewrite <- app_assoc.
Qed.

(** The drivers whose rows are still to come are in place. *)
Definition drivers_from (i : nat) (fss : list vfs_entry_t) (drv drv' : gmap Z F) : Prop :=
  (∀ j e, (i ≤ j)%nat → fss !! j = Some e → filesystem e ≠ 0 →
     drv' !! filesystem e = drv !! filesystem e) ∧
  ∀ j e, (j < i)%nat → fss !! j = Some e → drv' !! filesystem e = None ∨ filesystem e = 0.

Lemma drivers_next i fss fls drv a drv' e :
  tables fss fls drv a → fss !! i = Some e → filesystem e ≠ 0 → drivers_from i fss drv drv' →
  drivers_from (S i) fss drv (delete (filesystem e) drv').
Proof.
  intros Ht Hi He [H1 H2]. pose proof (t_apart _ _ _ _ Ht) as Hap. split.
  - intros j x Hj Hx Hne. rewrite lookup_delete_ne; [apply (H1 j x); [lia|done..]|].
    destruct (Hap i j e x) as [_ Hf]; [done|done|lia|]. auto.
  - intros j x Hj Hx. destruct (decide (i = j)) as [<-|Hij].
    + simplify_eq. left. apply lookup_delete_eq.
    + destruct (H2 j x) as [E|E]; [lia|done| |by right]. left.
      rewrite lookup_delete_None. by right.
Qed.

Lemma vfs_deinit_spec (s : vfs F) A :
  vrep s A → av_ops A = 0 →
  returns (vfs_deinit s) (λ s', vfs_usable s' = false ∧ vfs_op_sem s' = Some 1 ∧
    filesystems s' = unmounted_to 8 (av_fss A) ∧ files s' = av_fls A ∧
    ∀ fs, fs ≠ 0 → mounted (av_fss A) fs → drivers s' !! fs = None).
Proof.
  intros (_ & drv & -> & Ht) H0. rewrite H0. unfold vfs_deinit.
  change (vfs_deinit_begin (state 1 1 0 (av_fss A) (av_fls A) drv))
    with (@Done (bool * vfs F) (false, Vfs (Some 1) (av_fss A) (Some 1) (av_fls A) (Some 0) (Some 0) 0 false drv)).
  cbn [outcome_bind]. unfold vfs_deinit_unmount.
  apply returns_bind. cbn [semaphore_P sem_value vfs_table_sem Z.ltb Z.compare set_sem returns].
  apply returns_bind. cbn [semaphore_P sem_value openfile_table_sem Z.ltb Z.compare set_sem returns].
  change (1 - 1) with 0. fold (closing (av_fss A) (av_fls A) drv). apply returns_bind.
  eapply returns_mono; [apply (for_each_inv (λ i s, ∃ drv', s =
    closing (unmounted_to (Z.to_nat i) (av_fss A)) (av_fls A) drv' ∧
    drivers_from (Z.to_nat i) (av_fss A) drv drv'))|].
  - done.
  - exists drv. split; [done|]. split; [done|lia].
  - intros row s Hrow (drv' & -> & Hd). unfold CONFIG_MAX_FILESYSTEMS in Hrow.
    cbn [filesystems closing].
    destruct (lookup_lt_is_Some_2 (av_fss A) (Z.to_nat row)) as [e He];
      [rewrite (t_fss_len _ _ _ _ Ht); lia|].
    rewrite (aread_Some _ _ e) by (rewrite ?unmounted_lookup; done || lia). cbn [outcome_bind].
    replace (Z.to_nat (row + 1)) with (S (Z.to_nat row)) by lia.
    destruct (Z.eqb_spec (filesystem e) 0) as [E|E]; cbn [negb].
    + cbn [returns]. exists drv'. split.
      * f_equal. rewrite <- (unmounted_next _ _ _ He), list_insert_id; [done|].
        rewrite unmounted_lookup, He. f_equal. destruct e; simpl in *. by subst.
      * destruct Hd as [H1 H2]. split; [intros j x Hj; apply H1; lia|].
        intros j x Hj Hx. destruct (decide (j = Z.to_nat row)) as [->|]; [|apply (H2 j); [lia|done]].
        rewrite He in Hx. injection Hx as <-. by right.
    + destruct (t_mounted _ _ _ _ Ht (filesystem e) E) as [[m h] Ha]; [by exists (Z.to_nat row), e|].
      destruct (driver_of _ _ _ _ Ht _ _ _ Ha) as (f & Hf & Hh).
      unfold call_unmount, call_fs. cbn [drivers closing].
      rewrite (proj1 Hd _ _ (le_n _) He E), Hf.
      destruct (returns_inv _ _ (fs_unmount_spec f m h Hh)) as ([r f'] & -> & _).
      cbn [outcome_bind set_drivers closing drivers filesystems].
      rewrite awrite_in_range by (rewrite length_unmounted, (t_fss_len _ _ _ _ Ht); lia).
      cbn [outcome_bind set_filesystems closing returns].
      exists (delete (filesystem e) drv'). split; [|by eapply drivers_next].
      unfold closing. f_equal; [by apply unmounted_next|]. by rewrite delete_insert_eq.
  - intros s (drv' & -> & Hd). cbn. split_and!; try done.
    intros fs Hne (j & e & Hj & <-). pose proof (lookup_lt_Some _ _ _ Hj) as Hlt.
    rewrite (t_fss_len _ _ _ _ Ht) in Hlt. by destruct (proj2 Hd j e Hlt Hj).
Qed.
End shutdown.

(** ** A client session

    Open a file, write a buffer at its start, go back, read as much, and close. *)
Section session.
Context {F : Type} {fsd : FsDriver F}.

Definition session (path vol file : list Z) (addr : Z) (buf : list Z) (s : vfs F)
    : outcome ((Z * list Z) * vfs F) :=
  let len := Z.of_nat (length buf) in
  let* '(fd, s) := vfs_open path vol file s in
  if fd <? 0 then Done ((fd, []), s) else
  let* '(_, s) := vfs_write fd addr buf len s in
  let* '(_, s) := vfs_seek fd 0 s in
  let* '((r, got), s) := vfs_read fd addr (replicate (length buf) 0) len s in
  let* '(_, s) := vfs_close fd s in
  Done ((r, take (Z.to_nat r) got), s).
End session.

Section session_spec.
Context {F : Type} {fsd : FsDriver F} {spec : FsDriverSpec F}.

(** [fd] is open on file number [id] of [fs] in [A], which differs from [A0] in
    nothing but the row of [fd] and, perhaps, the contents of files. *)
Record session_at (fd : nat) (fs id pos : Z) (A : avfs) (fss : list vfs_entry_t) (n : Z) (ids : list Z) : Prop := {
  sa_row : av_fls A !! fd = Some (Openfile fs id pos);
  sa_fss : av_fss A = fss;
  sa_ops : av_ops A = n;
  sa_ids : <[fd := 0]> (of_filesystem <$> av_fls A) = ids
}.

Lemma session_row fd fs id pos A fss n ids :
  session_at fd fs id pos A fss n ids → fs ≠ 0 → av_row fd A = Some (Openfile fs id pos).
Proof. intros [Hr _ _ _] Hne. unfold av_row. rewrite Hr. simpl. by destruct (Z.eqb_spec fs 0). Qed.

Lemma session_set fd fs id pos A fss n ids fs' pos' :
  session_at fd fs id pos A fss n ids →
  session_at fd fs' id pos' (av_set_fls (<[fd := Openfile fs' id pos']> (av_fls A)) A) fss n ids.
Proof.
  intros [Hr Hf Ho Hi]. pose proof (lookup_lt_Some _ _ _ Hr). split; simpl; try done.
  - by rewrite list_lookup_insert_eq.
  - by rewrite list_fmap_insert, list_insert_insert_eq.
Qed.

Lemma session_advance fd fs id pos r A fss n ids :
  session_at fd fs id pos A fss n ids →
  ∃ pos', session_at fd fs id pos' (av_advance fd (Openfile fs id pos) r A) fss n ids ∧
    av_contents (av_advance fd (Openfile fs id pos) r A) = av_contents A.
Proof.
  intros Hs. unfold av_advance. destruct (0 <? r); [|by eauto].
  exists (s32 (pos + r)). split; [by eapply session_set|done].
Qed.

(** What the write leaves and the read finds. *)
Lemma write_start fn buf m data :
  m !! fn = Some data →
  let k := Z.min (Z.of_nat (length buf)) (Z.of_nat (length data)) in
  afs_write fn buf (Z.of_nat (length buf)) 0 m =
    (k, <[fn := take (Z.to_nat k) buf ++ drop (Z.to_nat k) data]> m) ∧
  afs_read fn (Z.of_nat (length buf)) 0 (<[fn := take (Z.to_nat k) buf ++ drop (Z.to_nat k) data]> m) =
    (k, take (Z.to_nat k) buf).
Proof.
  intros Hm k. unfold afs_write, afs_read, afs_slice, afs_span.
  rewrite Hm, lookup_insert_eq, Z.sub_0_r.
  assert (Hl : length (take (Z.to_nat k) buf) = Z.to_nat k) by (rewrite length_take; lia).
  destruct (Z.ltb_spec (Z.of_nat (length data)) 0); [lia|]. simpl.
  destruct (Z.ltb_spec (Z.of_nat (length (take (Z.to_nat k) buf ++ drop (Z.to_nat k) data))) 0); [lia|].
  fold k. split.
  - f_equal. f_equal. unfold put. simpl. by rewrite Hl.
  - rewrite length_app, Hl, length_drop, Z.sub_0_r.
    replace (Z.min _ _) with k by lia. change (Z.to_nat 0) with 0%nat.
    by rewrite drop_0, take_app_length' by lia.
Qed.

(** Opening the file. *)
Lemma session_open p s A vn fn m h data :
  vrep s A → split_path p = Some (vn, fn) →
  mounted_at (av_fss A) vn ≠ 0 → av_contents A !! mounted_at (av_fss A) vn = Some (m, h) →
  m !! fn = Some data → 0 ∈ of_filesystem <$> av_fls A →
  let fs := mounted_at (av_fss A) vn in
  ∃ (i : nat) id, (i < 512)%nat ∧ h !! fn = Some id ∧ fst (avfs_open p A) = Z.of_nat i ∧
    av_contents (snd (avfs_open p A)) = av_contents A ∧
    session_at i fs id 0 (snd (avfs_open p A)) (av_fss A) (av_ops A) (of_filesystem <$> av_fls A).
Proof.
  intros (_ & drv & _ & Ht) Hsplit Hne Ha Hm Hfree fs.
  assert (Hid : ∃ id, h !! fn = Some id).
  { destruct (driver_of _ _ _ _ Ht _ _ _ Ha) as (f & _ & Hf).
    apply elem_of_dom. rewrite (fs_holds_dom _ _ _ Hf). apply elem_of_dom. eauto. }
  destruct Hid as [id Hid].
  destruct (free_file (av_fls A)) as [[i o]|] eqn:Eff.
  2: { apply list_find_None in Eff. rewrite Forall_forall in Eff.
       apply list_elem_of_fmap in Hfree as (x & E & Hx). by destruct (Eff x Hx). }
  assert (Ho : avfs_open p A = (Z.of_nat i, av_set_fls (<[i := Openfile fs id 0]> (av_fls A)) A)).
  { unfold avfs_open. rewrite Hsplit, Eff. fold fs. cbv zeta. destruct (Z.eqb_spec fs 0); [done|].
    unfold fs. by rewrite Ha, Hid. }
  apply list_find_Some in Eff as (Hi & Hi0 & _). pose proof (lookup_lt_Some _ _ _ Hi) as Hlt.
  exists i, id. rewrite Ho. split_and!; [by rewrite (t_fls_len _ _ _ _ Ht) in Hlt|done|done|done|].
  split; simpl; [by apply list_lookup_insert_eq|done|done|].
  rewrite list_fmap_insert, list_insert_insert_eq. apply list_insert_id.
  by rewrite list_lookup_fmap, Hi, <- Hi0.
Qed.

Lemma session_spec path p vol file addr buf s A vn fn m h data :
  vrep s A → path_ok path p vol file → split_path p = Some (vn, fn) →
  mounted_at (av_fss A) vn ≠ 0 → av_contents A !! mounted_at (av_fss A) vn = Some (m, h) →
  m !! fn = Some data → 0 ∈ of_filesystem <$> av_fls A → addr ≠ 0 → Forall is_u8 buf →
  let k := Z.min (Z.of_nat (length buf)) (Z.of_nat (length data)) in
  returns (session path vol file addr buf s) (λ '((r, got), s'),
    r = k ∧ got = take (Z.to_nat k) buf ∧
    ∃ A', vrep s' A' ∧ av_fss A' = av_fss A ∧ av_ops A' = av_ops A ∧
      of_filesystem <$> av_fls A' = of_filesystem <$> av_fls A ∧
      av_contents A' = <[mounted_at (av_fss A) vn :=
        (<[fn := take (Z.to_nat k) buf ++ drop (Z.to_nat k) data]> m, h)]> (av_contents A)).
Proof.
  intros Hs Hp Hsplit Hne Ha Hm Hfree Haddr Hu k.
  destruct (write_start fn buf m data Hm) as [Hw Hrd]. fold k in Hw, Hrd.
  set (m' := <[fn := take (Z.to_nat k) buf ++ drop (Z.to_nat k) data]> m) in *.
  destruct (session_open p s A vn fn m h data) as (i & id & H512 & Hid & Ho & HC1 & S1); [done..|].
  set (fs := mounted_at (av_fss A) vn) in *. set (A1 := snd (avfs_open p A)) in *.
  unfold session. apply returns_bind. eapply returns_mono; [by apply (vfs_open_spec path p vol file s A)|].
  rewrite Ho. fold A1. intros [fd s1] [-> Hs1]. destruct (Z.ltb_spec (Z.of_nat i) 0); [lia|].
  apply returns_bind. eapply returns_mono; [apply (vfs_write_spec i addr buf _ fn (Openfile fs id 0) m h s1 A1);
    [done|done|split_and!; [by eapply session_row|by rewrite HC1|done]|done|lia|done]|].
  cbn [seek_position]. rewrite Hw. intros [r1 s2] [-> Hs2]. cbn [of_filesystem] in Hs2.
  assert (S2 : session_at i fs id 0 (av_update fs m' h A1) (av_fss A) (av_ops A) (of_filesystem <$> av_fls A))
    by (destruct S1; by split).
  destruct (session_advance _ _ _ _ k _ _ _ _ S2) as (pos & S3 & C3).
  set (A3 := av_advance i (Openfile fs id 0) k (av_update fs m' h A1)) in *.
  apply returns_bind. eapply returns_mono; [by apply (vfs_seek_spec i 0 s2 A3)|].
  unfold avfs_seek. cbn [Z.ltb Z.compare]. rewrite (session_row _ _ _ _ _ _ _ _ S3 Hne).
  intros [r2 s3] [_ Hs3]. cbn [snd of_filesystem fileid] in Hs3.
  apply (session_set _ _ _ _ _ _ _ _ fs 0) in S3.
  set (A4 := av_set_fls (<[i := Openfile fs id 0]> (av_fls A3)) A3) in *.
  apply returns_bind. eapply returns_mono; [apply (vfs_read_spec i addr (replicate (length buf) 0) _ fn
    (Openfile fs id 0) m' h s3 A4); [done|done|split_and!; [by eapply session_row| |done]|done|]|].
  { unfold A4. cbn [av_contents av_set_fls]. rewrite C3. apply lookup_insert_eq. }
  { rewrite length_replicate. lia. }
  cbn [seek_position]. rewrite Hrd. intros [[r3 got] s4] (-> & -> & Hs4).
  destruct (session_advance _ _ _ _ k _ _ _ _ S3) as (pos5 & S5 & C5).
  set (A5 := av_advance i (Openfile fs id 0) k A4) in *.
  apply returns_bind. eapply returns_mono; [by apply (vfs_close_spec i s4 A5)|].
  unfold avfs_close. rewrite (session_row _ _ _ _ _ _ _ _ S5 Hne).
  intros [r5 s5] [_ Hs5]. cbn [snd fileid seek_position] in Hs5.
  apply (session_set _ _ _ _ _ _ _ _ 0 pos5) in S5. cbn [returns].
  split_and!; [done|unfold put; simpl; by rewrite take_app_length' by (rewrite length_take; lia)|].
  eexists. split; [exact Hs5|]. destruct S5 as [R5 F5 O5 I5]. split_and!; [done|done| |].
  - rewrite <- I5. symmetry. apply list_insert_id. by rewrite list_lookup_fmap, R5.
  - cbn [av_contents av_set_fls]. rewrite C5. unfold A4. cbn [av_contents av_set_fls]. rewrite C3.
    unfold av_update. cbn [av_contents av_set_contents]. by rewrite HC1.
Qed.
End session_spec.

(** ** Properties *)

(** C25. [vfs_parse_pathname] of a string succeeds exactly when the string is
    "file" or "[volume]file" with a volume name of at most 14 characters, ended
    by the first "]", and a file name of 1 to 15 characters; then the two buffers
    hold these names, zero-terminated.  It reads no byte after the string's end
    and writes none outside the two 16-byte buffers. *)
Theorem parse_pathname_correct path s vbuf fbuf :
  cstr path s → length vbuf = 16%nat → length fbuf = 16%nat →
  returns (vfs_parse_pathname path vbuf fbuf) (λ '(ret, v, f),
    match split_path s with
    | Some (vn, fn) => ret = VFS_OK ∧ cstr v vn ∧ cstr f fn
    | None => ret = VFS_ERROR
    end).
Proof. intros H. by apply parse_pathname_spec. Qed.

Section properties.
Context {F : Type} {fsd : FsDriver F} {spec : FsDriverSpec F}.

(** [vfs_open] on a VFS at rest returns and refines the abstract [open]: the
    first free row of the open file table with seek position 0 when the volume
    is mounted and has the file, and otherwise VFS_ERROR, VFS_LIMIT,
    VFS_NO_SUCH_FS or VFS_NOT_FOUND with nothing changed; all semaphores are
    released and the invariant of the tables holds, for any driver that keeps
    its contract. *)
Theorem vfs_open_correct path p vol file (s : vfs F) A :
  path_ok path p vol file → vrep s A →
  returns (vfs_open path vol file s) (λ '(r, s'),
    r = fst (avfs_open p A) ∧ vrep s' (snd (avfs_open p A))).
Proof. apply vfs_open_spec. Qed.

(** [vfs_close] and [vfs_seek] return for every row of the open file table
    and change exactly that row; on a row that is not open they return
    VFS_INVALID_PARAMS and leave the count of operations one too high. *)
Theorem vfs_close_seek_correct (file : nat) pos (s : vfs F) A :
  vrep s A → (file < 512)%nat →
  returns (vfs_close (Z.of_nat file) s) (λ '(r, s'),
    r = fst (avfs_close file A) ∧ vrep s' (snd (avfs_close file A))) ∧
  returns (vfs_seek (Z.of_nat file) pos s) (λ '(r, s'),
    r = fst (avfs_seek file pos A) ∧ vrep s' (snd (avfs_seek file pos A))).
Proof. intros. split; [by apply vfs_close_spec|by apply vfs_seek_spec]. Qed.

(** C3. A session through the VFS on any driver that keeps its contract: after
    [vfs_open] of an existing file, [vfs_write] of a buffer, [vfs_seek] to the
    start, [vfs_read] of as many bytes and [vfs_close], the bytes read are the
    bytes written (up to the file's size), the file holds them followed by what
    it held after them, no other file, table row, mount or operation count is
    changed, and the row of the open file table is free again. *)
Theorem vfs_session_correct path p vol file addr buf (s : vfs F) A vn fn m h data :
  vrep s A → path_ok path p vol file → split_path p = Some (vn, fn) →
  mounted_at (av_fss A) vn ≠ 0 → av_contents A !! mounted_at (av_fss A) vn = Some (m, h) →
  m !! fn = Some data → 0 ∈ of_filesystem <$> av_fls A → addr ≠ 0 → Forall is_u8 buf →
  let k := Z.min (Z.of_nat (length buf)) (Z.of_nat (length data)) in
  returns (session path vol file addr buf s) (λ '((r, got), s'),
    r = k ∧ got = take (Z.to_nat k) buf ∧
    ∃ A', vrep s' A' ∧ av_fss A' = av_fss A ∧ av_ops A' = av_ops A ∧
      of_filesystem <$> av_fls A' = of_filesystem <$> av_fls A ∧
      av_contents A' = <[mounted_at (av_fss A) vn :=
        (<[fn := take (Z.to_nat k) buf ++ drop (Z.to_nat k) data]> m, h)]> (av_contents A)).
Proof. apply session_spec. Qed.

(** [vfs_create] of a file of size 0 to 2^30 and [vfs_remove] return; they
    refuse a malformed path or an unknown volume without a change, and otherwise
    [vfs_create] adds the zero-filled file or fails leaving the contents alone,
    and [vfs_remove] deletes it if the volume has it; the other files of the
    volume, all other volumes, and the tables stay as they are. *)
Theorem vfs_create_remove_correct path p vol file size (s : vfs F) A :
  path_ok path p vol file → vrep s A → 0 ≤ size < 2 ^ 30 →
  returns (vfs_create path vol file size s) (λ '(r, s'),
    match split_path p with
    | None => r = VFS_ERROR ∧ s' = s
    | Some (vn, fn) =>
        let fs := mounted_at (av_fss A) vn in
        if fs =? 0 then r = VFS_NO_SUCH_FS ∧ s' = s
        else ∃ m h, av_contents A !! fs = Some (m, h) ∧
          ((r = VFS_OK ∧ m !! fn = None ∧ ∃ h', delete fn h' = delete fn h ∧
            vrep s' (av_update fs (<[fn := replicate (Z.to_nat size) 0]> m) h' A)) ∨
           (r < 0 ∧ vrep s' A))
    end) ∧
  returns (vfs_remove path vol file s) (λ '(r, s'),
    match split_path p with
    | None => r = VFS_ERROR ∧ s' = s
    | Some (vn, fn) =>
        let fs := mounted_at (av_fss A) vn in
        if fs =? 0 then r = VFS_NO_SUCH_FS ∧ s' = s
        else ∃ m h, av_contents A !! fs = Some (m, h) ∧ r = fst (afs_remove fn m) ∧
          vrep s' (av_update fs (snd (afs_remove fn m)) (delete fn h) A)
    end).
Proof.
  intros Hp Hs Hsz. split; [|by apply vfs_remove_spec].
  eapply returns_mono; [apply (vfs_create_spec path p vol file size s A); [done|done|lia]|].
  intros [r s']. by destruct (Z.ltb_spec size 0); [lia|].
Qed.

(** [vfs_mount] puts the file system in the first free row under the given
    name, or refuses with VFS_LIMIT or VFS_ERROR, and [vfs_unmount] removes a
    mounted file system, calling its driver, unless a file of it is open
    (VFS_IN_USE) or nothing is mounted there (VFS_NOT_FOUND); both return and
    keep the invariant, in particular that every open file belongs to a mounted
    file system and that mount points have distinct names. *)
Theorem vfs_mount_unmount_correct fs name n (s : vfs F) A :
  vrep s A → cstr name n → n ≠ [] → (length n ≤ 15)%nat → Forall is_u8 n →
  fs ≠ 0 → is_Some (av_contents A !! fs) → ¬ mounted (av_fss A) fs →
  returns (vfs_mount fs name s) (λ '(r, s'),
    r = fst (avfs_mount fs n A) ∧ vrep s' (snd (avfs_mount fs n A))) ∧
  returns (vfs_unmount name s) (λ '(r, s'),
    r = fst (avfs_unmount n A) ∧ vrep s' (snd (avfs_unmount n A))).
Proof. intros. split; [by apply vfs_mount_spec|by apply vfs_unmount_spec]. Qed.

(** C8. The shutdown protocol under any interleaving of starting and ending
    operations: the count of operations is the number of threads inside one; the
    forced unmount runs only when there are none, and none can start or end
    while it runs; the assertions of [vfs_end_op] and [vfs_deinit] never fail;
    and a waiting [vfs_deinit] can go on as soon as the last operation ended. *)
Theorem vfs_shutdown_safe (g : gate (F:=F)) :
  gate_reachable g →
  vfs_ops (g_vfs g) = Z.of_nat (g_active g) ∧
  (g_phase g = Unmounting → g_active g = 0%nat ∧
     vfs_start_op (g_vfs g) = Blocked ∧ vfs_end_op (g_vfs g) = Blocked) ∧
  (g_active g ≠ 0%nat → ∃ s', vfs_end_op (g_vfs g) = Done s') ∧
  (g_phase g = Waiting → g_active g = 0%nat → ∃ s', semaphore_P UnmountSem (g_vfs g) = Done s') ∧
  (g_phase g = Woken → ∃ s', vfs_deinit_woken (g_vfs g) = Done s').
Proof.
  intros Hg. apply reachable_inv in Hg as [Hops Hp]. split; [done|].
  destruct g as [s n p]. cbn [g_vfs g_active g_phase] in *. split_and!.
  - intros ->. destruct Hp as (H1 & _ & H3). split; [done|]. by apply blocked_op.
  - intros Hn. eexists. apply end_running; [|lia|]; destruct p; destruct_and!; try done; eauto.
  - intros -> ->. destruct s; simpl in *. destruct Hp as (-> & -> & ->). by eexists.
  - intros ->. destruct s; simpl in *. destruct Hp as (-> & -> & -> & ->). subst. by eexists.
Qed.

(** On a VFS at rest [vfs_deinit] returns, with the VFS unusable: it has
    called the driver of every mounted file system exactly for unmounting and no
    row of the mount table holds a file system any more. *)
Theorem vfs_deinit_correct (s : vfs F) A :
  vrep s A → av_ops A = 0 →
  returns (vfs_deinit s) (λ s', vfs_usable s' = false ∧ vfs_op_sem s' = Some 1 ∧
    filesystems s' = unmounted_to 8 (av_fss A) ∧ files s' = av_fls A ∧
    ∀ fs, fs ≠ 0 → mounted (av_fss A) fs → drivers s' !! fs = None).
Proof. apply vfs_deinit_spec. Qed.

(** C26. The error path of [vfs_close] does not end its operation: after a close
    of a descriptor that is not open, the shutdown of the otherwise idle VFS
    waits for ever. *)
Theorem failed_close_blocks_shutdown (file : nat) (s : vfs F) A :
  vrep s A → (file < 512)%nat → av_row file A = None →
  returns (vfs_close (Z.of_nat file) s) (λ '(r, s'),
    r = VFS_INVALID_PARAMS ∧ vfs_deinit s' = Blocked).
Proof.
  intros Hs Hf Hr. eapply returns_mono; [by apply (vfs_close_spec file s A)|].
  intros [r s']. unfold avfs_close. rewrite Hr. cbn [fst snd]. intros [-> (Hn & drv & -> & _)].
  split; [done|]. unfold vfs_deinit, vfs_deinit_begin. cbn. cbn in Hn.
  destruct (Z.ltb_spec 0 (av_ops A + 1)); [done|]. destruct Hs as [? _]. lia.
Qed.

(** Unmounting does not free the name: after a successful [vfs_unmount] of a
    volume, mounting a file system under the same name fails (VFS_ERROR, though
    the table has room). *)
Theorem unmounted_name_stays_taken fs name n (s : vfs F) A :
  vrep s A → cstr name n → n ≠ [] → (length n ≤ 15)%nat → Forall is_u8 n →
  fs ≠ 0 → is_Some (av_contents A !! fs) → ¬ mounted (av_fss A) fs →
  fst (avfs_unmount n A) = VFS_OK →
  returns (let* '(_, s) := vfs_unmount name s in vfs_mount fs name s) (λ '(r, _), r = VFS_ERROR).
Proof.
  intros Hs Hc Hne Hl Hu Hfs Ha Hnm Hok. apply returns_bind.
  eapply returns_mono; [by apply (vfs_unmount_spec name n s A)|]. intros [r s1] [_ Hs1].
  unfold avfs_unmount in *. destruct (row_named (av_fss A) n) as [[i e]|] eqn:Er; [|done].
  destruct (filesystem e =? 0) eqn:E0; [done|]. destruct (bool_decide _); [done|]. cbn [snd] in Hs1.
  set (A1 := AVfs _ _ _ _) in Hs1. apply list_find_Some in Er as (Hi & Hn & Hbefore).
  apply Z.eqb_neq in E0.
  eapply returns_mono; [apply (vfs_mount_spec fs name n s1 A1); try done|].
  - unfold A1. cbn [av_contents]. rewrite lookup_delete_ne; [done|]. intros E. apply Hnm. by exists i, e.
  - intros (j & x & [[-> ->]|[_ Hj]]%insert_lookup_cases & E); [done|]. apply Hnm. by exists j, x.
  - intros [r' s2] [-> _]. unfold avfs_mount.
    assert (Hrow : is_Some (row_named (av_fss A1) n)).
    { apply (list_find_elem_of _ _ (VfsEntry 0 (mountpoint e))); [|done].
      apply (list_elem_of_lookup_2 _ i). apply list_lookup_insert_eq. by eapply lookup_lt_Some. }
    assert (Hfree : is_Some (free_row (av_fss A1))).
    { apply (list_find_elem_of _ _ (VfsEntry 0 (mountpoint e))); [|done].
      apply (list_elem_of_lookup_2 _ i). apply list_lookup_insert_eq. by eapply lookup_lt_Some. }
    destruct Hrow as [x1 ->], Hfree as [[j x2] ->]. done.
Qed.
End properties.

(** ** Witnesses

    A VFS on which the volume of TfsView.v, with its file "a", is mounted as
    "d". *)
Definition demo_mp : list Z := 100 :: replicate 15 0.
Definition demo_fss : list vfs_entry_t :=
  VfsEntry 1 demo_mp :: replicate 7 (VfsEntry 0 (replicate 16 0)).
Definition demo_fls : list openfile_entry_t := replicate 512 (Openfile 0 0 0).
Definition demo_volume : tfs_volume disk := TfsVolume demo_mp 4096 empty_tfs a_disk.
Definition demo_m : afs := view empty_tfs a_disk a_dir.
Definition demo_h : gmap (list Z) Z := inodes a_dir.
Definition demo_A : avfs := AVfs 0 demo_fss demo_fls {[ 1 := (demo_m, demo_h) ]}.
Definition demo_vfs : vfs (tfs_volume disk) := state 1 1 0 demo_fss demo_fls {[ 1 := demo_volume ]}.

Lemma demo_row i e :
  demo_fss !! i = Some e →
  (i = 0%nat ∧ e = VfsEntry 1 demo_mp) ∨ (i ≠ 0%nat ∧ e = VfsEntry 0 (replicate 16 0)).
Proof.
  unfold demo_fss. destruct i as [|i]; [intros [= <-]; by left|]. cbn [lookup list_lookup].
  intros [-> _]%lookup_replicate. by right.
Qed.

Lemma demo_mp_cstr : cstr demo_mp [100].
Proof. split; [by apply (bool_decide_unpack _)|by eexists]. Qed.

Lemma demo_mounted fs : fs ≠ 0 → mounted demo_fss fs → fs = 1.
Proof. intros Hne (i & e & [[_ ->]|[_ ->]]%demo_row & E); simpl in E; congruence. Qed.

Lemma demo_holds : vol_holds demo_volume demo_m demo_h.
Proof. exists a_dir. split_and!; [exact a_fs_rep|reflexivity..]. Qed.

Lemma demo_tables :
  tables demo_fss demo_fls ({[ 1 := demo_volume ]} : gmap Z (tfs_volume disk)) {[ 1 := (demo_m, demo_h) ]}.
Proof.
  assert (Hfls : ∀ i o, demo_fls !! i = Some o → o = Openfile 0 0 0)
    by (intros i o [-> _]%lookup_replicate; reflexivity).
  constructor.
  - reflexivity.
  - apply length_replicate.
  - apply Forall_lookup. intros i e [[_ ->]|[_ ->]]%demo_row.
    + split; [reflexivity|exact demo_mp_cstr|by apply (bool_decide_unpack _)|discriminate].
    + split; [reflexivity|apply cstr_nil|constructor|]. intros H. by destruct H.
  - intros i j e e' [[-> ->]|[Hi ->]]%demo_row [[-> ->]|[Hj ->]]%demo_row Hij; split; intros E;
      try reflexivity; try discriminate E; by destruct Hij.
  - intros fs Hne ->%demo_mounted; [|exact Hne]. rewrite lookup_singleton_eq. eauto.
  - intros i o ->%Hfls H. by destruct H.
  - rewrite !dom_singleton_L. reflexivity.
  - intros fs f m h [-> <-]%lookup_singleton_Some E. rewrite lookup_singleton_eq in E.
    injection E as <- <-. exact demo_holds.
Qed.

Lemma demo_vrep : vrep demo_vfs demo_A.
Proof. split; [simpl; lia|]. exists {[ 1 := demo_volume ]}. split; [reflexivity|exact demo_tables]. Qed.

(** The path "[d]a". *)
Definition demo_p : list Z := [91; 100; 93; 97].
Definition demo_path : list Z := demo_p ++ [0].
Definition demo_buf : list Z := replicate 16 7.

Lemma demo_path_cstr : cstr demo_path demo_p.
Proof. split; [by apply (bool_decide_unpack _)|by exists []]. Qed.

Lemma demo_path_ok : path_ok demo_path demo_p demo_buf demo_buf.
Proof. split; [exact demo_path_cstr|by apply (bool_decide_unpack _)|reflexivity..]. Qed.

Lemma demo_file : demo_m !! name_a = Some (file_data empty_tfs a_disk a_file).
Proof. exact (view_lookup 8 empty_tfs a_disk a_dir 0 a_file a_dir_ok eq_refl). Qed.

Lemma demo_inode : demo_h !! name_a = Some 3.
Proof. exact (dir_map_lookup f_inode 8 a_dir 0 a_file a_dir_ok eq_refl). Qed.

Lemma parse_pathname_correct_witness :
  returns (vfs_parse_pathname demo_path demo_buf demo_buf) (λ '(ret, v, f),
    ret = VFS_OK ∧ cstr v [100] ∧ cstr f name_a).
Proof. exact (parse_pathname_correct demo_path demo_p demo_buf demo_buf demo_path_cstr eq_refl eq_refl). Defined.

Lemma demo_mounted_at : mounted_at demo_fss [100] = 1.
Proof. vm_compute. reflexivity. Qed.

Lemma demo_open : fst (avfs_open demo_p demo_A) = 0.
Proof.
  unfold avfs_open. change (split_path demo_p) with (Some ([100], name_a)).
  change (free_file (av_fls demo_A)) with (Some (0%nat, Openfile 0 0 0)). cbv beta iota zeta.
  change (av_fss demo_A) with demo_fss. rewrite demo_mounted_at.
  change (av_contents demo_A) with ({[ 1 := (demo_m, demo_h) ]} : gmap Z (afs * gmap (list Z) Z)).
  rewrite lookup_singleton_eq. cbn [Z.eqb]. rewrite demo_inode. reflexivity.
Qed.

Lemma vfs_open_correct_witness :
  returns (vfs_open demo_path demo_buf demo_buf demo_vfs) (λ '(r, _), r = 0).
Proof.
  refine (returns_mono _ _ _ (vfs_open_correct demo_path demo_p demo_buf demo_buf demo_vfs demo_A
    demo_path_ok demo_vrep) _).
  intros [r s'] [-> _]. exact demo_open.
Defined.

Lemma demo_no_row (i : nat) : av_row i demo_A = None.
Proof.
  unfold av_row. cbn [av_fls demo_A]. unfold demo_fls.
  destruct (replicate 512 (Openfile 0 0 0) !! i) as [o|] eqn:E; [|reflexivity].
  apply lookup_replicate in E as [-> _]. reflexivity.
Qed.

Lemma vfs_close_seek_correct_witness :
  returns (vfs_close (Z.of_nat 3) demo_vfs) (λ '(r, _), r = VFS_INVALID_PARAMS) ∧
  returns (vfs_seek (Z.of_nat 3) 7 demo_vfs) (λ '(r, _), r = VFS_INVALID_PARAMS).
Proof.
  destruct (vfs_close_seek_correct 3 7 demo_vfs demo_A demo_vrep ltac:(lia)) as [H1 H2]. split.
  - refine (returns_mono _ _ _ H1 _). intros [r s'] [-> _]. unfold avfs_close.
    rewrite demo_no_row. reflexivity.
  - refine (returns_mono _ _ _ H2 _). intros [r s'] [-> _]. unfold avfs_seek.
    rewrite demo_no_row. reflexivity.
Defined.

Lemma demo_free_row : 0 ∈ of_filesystem <$> demo_fls.
Proof. left. Qed.

Lemma demo_bytes : Forall is_u8 [1; 2; 3].
Proof. by apply (bool_decide_unpack _). Qed.

Lemma vfs_session_correct_witness :
  returns (session demo_path demo_buf demo_buf 8192 [1; 2; 3] demo_vfs) (λ '((r, got), _),
    r = 3 ∧ got = [1; 2; 3]).
Proof.
  refine (returns_mono _ _ _ (vfs_session_correct demo_path demo_p demo_buf demo_buf 8192 [1; 2; 3]
    demo_vfs demo_A [100] name_a demo_m demo_h (file_data empty_tfs a_disk a_file)
    demo_vrep demo_path_ok eq_refl _ _ demo_file demo_free_row _ demo_bytes) _).
  - cbn [av_fss demo_A]. rewrite demo_mounted_at. discriminate.
  - cbn [av_fss av_contents demo_A]. rewrite demo_mounted_at. apply lookup_singleton_eq.
  - discriminate.
  - intros [[r got] s'] (-> & -> & _). split; vm_compute; reflexivity.
Defined.

Lemma vfs_create_remove_correct_witness :
  returns (vfs_remove demo_path demo_buf demo_buf demo_vfs) (λ '(r, _), r = VFS_OK).
Proof.
  refine (returns_mono _ _ _ (proj2 (vfs_create_remove_correct demo_path demo_p demo_buf demo_buf 0
    demo_vfs demo_A demo_path_ok demo_vrep _)) _).
  - lia.
  - intros [r s']. change (split_path demo_p) with (Some ([100], name_a)). cbv beta iota zeta.
    cbn [av_fss av_contents demo_A]. rewrite demo_mounted_at. cbn [Z.eqb].
    intros (m & h & E & -> & _). rewrite lookup_singleton_eq in E. injection E as <- <-.
    unfold afs_remove. rewrite demo_file. reflexivity.
Defined.

(** The same VFS with a second, unmounted, volume. *)
Definition demo_drv2 : gmap Z (tfs_volume disk) := {[ 1 := demo_volume; 2 := demo_volume ]}.
Definition demo_A2 : avfs :=
  AVfs 0 demo_fss demo_fls {[ 1 := (demo_m, demo_h); 2 := (demo_m, demo_h) ]}.

Lemma demo_vrep2 : vrep (state 1 1 0 demo_fss demo_fls demo_drv2) demo_A2.
Proof.
  split; [simpl; lia|]. exists demo_drv2. split; [reflexivity|]. destruct demo_tables as [H1 H2 H3 H4 H5 H6 _ _].
  constructor; [exact H1|exact H2|exact H3|exact H4| |exact H6| |].
  - intros fs Hne ->%demo_mounted; [|exact Hne]. cbn [av_contents demo_A2]. rewrite lookup_insert_eq. eauto.
  - cbn [av_contents demo_A2]. unfold demo_drv2. rewrite !dom_insert_L, !dom_singleton_L. reflexivity.
  - intros fs f m h Hf Hm. cbn [av_contents demo_A2] in Hm. unfold demo_drv2 in Hf.
    apply lookup_insert_Some in Hf as [[<- <-]|[_ [<- <-]%lookup_singleton_Some]].
    + rewrite lookup_insert_eq in Hm. injection Hm as <- <-. exact demo_holds.
    + rewrite lookup_insert_ne, lookup_singleton_eq in Hm by discriminate.
      injection Hm as <- <-. exact demo_holds.
Qed.

Lemma demo_second : is_Some (av_contents demo_A2 !! 2) ∧ ¬ mounted demo_fss 2.
Proof.
  split.
  - cbn [av_contents demo_A2]. rewrite lookup_insert_ne, lookup_singleton_eq by discriminate. eauto.
  - intros H%demo_mounted; discriminate.
Qed.

Lemma demo_unmount : fst (avfs_unmount [100] demo_A2) = VFS_OK.
Proof. vm_compute. reflexivity. Qed.

Lemma vfs_mount_unmount_correct_witness :
  returns (vfs_mount 2 demo_mp (state 1 1 0 demo_fss demo_fls demo_drv2)) (λ '(r, _), r = VFS_ERROR) ∧
  returns (vfs_unmount demo_mp (state 1 1 0 demo_fss demo_fls demo_drv2)) (λ '(r, _), r = VFS_OK).
Proof.
  destruct (vfs_mount_unmount_correct 2 demo_mp [100] _ demo_A2 demo_vrep2 demo_mp_cstr) as [H1 H2].
  - discriminate.
  - simpl. lia.
  - by apply (bool_decide_unpack _).
  - discriminate.
  - exact (proj1 demo_second).
  - exact (proj2 demo_second).
  - split.
    + refine (returns_mono _ _ _ H1 _). intros [r s'] [-> _]. vm_compute. reflexivity.
    + refine (returns_mono _ _ _ H2 _). intros [r s'] [-> _]. exact demo_unmount.
Defined.

Lemma unmounted_name_stays_taken_witness :
  returns (let* '(_, s) := vfs_unmount demo_mp (state 1 1 0 demo_fss demo_fls demo_drv2) in
           vfs_mount 2 demo_mp s) (λ '(r, _), r = VFS_ERROR).
Proof.
  apply (unmounted_name_stays_taken 2 demo_mp [100] _ demo_A2 demo_vrep2 demo_mp_cstr).
  - discriminate.
  - simpl. lia.
  - by apply (bool_decide_unpack _).
  - discriminate.
  - exact (proj1 demo_second).
  - exact (proj2 demo_second).
  - exact demo_unmount.
Defined.

Lemma vfs_shutdown_safe_witness :
  vfs_ops (g_vfs (Gate demo_vfs 0 Running)) = 0.
Proof.
  refine (proj1 (vfs_shutdown_safe (Gate demo_vfs 0 Running) (reach_init _ _))).
  unfold gate_init. cbn. split_and!; reflexivity.
Defined.

Lemma vfs_deinit_correct_witness :
  returns (vfs_deinit demo_vfs) (λ s', vfs_usable s' = false ∧ drivers s' !! 1 = None).
Proof.
  refine (returns_mono _ _ _ (vfs_deinit_correct demo_vfs demo_A demo_vrep eq_refl) _).
  intros s' (H1 & _ & _ & _ & H2). split; [exact H1|]. apply H2; [discriminate|].
  exists 0%nat, (VfsEntry 1 demo_mp). split; reflexivity.
Defined.

Lemma failed_close_blocks_shutdown_witness :
  returns (vfs_close (Z.of_nat 3) demo_vfs) (λ '(r, s'),
    r = VFS_INVALID_PARAMS ∧ vfs_deinit s' = Blocked).
Proof.
  apply (failed_close_blocks_shutdown 3 demo_vfs demo_A demo_vrep).
  - lia.
  - exact (demo_no_row 3).
Defined.
