(* ===== verification/Filesystems.v ===== *)
(** * Finding file systems on disks (fs/filesystems.c) and mounting them (fs/vfs.c)

    The partition tables, the table of drivers, and the functions of vfs.c that
    mount what is found.  A driver's [init] is a function of the start sector and
    the disk; it answers the new [fs_t] (its address and state) or nothing.

    [filesystems_try_all] reads into a page it allocates; the model keeps the
    page's contents ([page], whatever memory held) and tells which address was
    freed. *)

From S2P Require Import Prelude Libc BlockDev Tfs Vfs VfsTfs.

Section filesystems.
Context {D : Type} {dev : BlockDevice D} (en : endian).
Context {F : Type}.

(** [filesystems_t]: a name and the driver's [init]. *)
Record filesystems_t := FsType {
  fst_name : list Z;
  fst_init : D → Z → outcome (option (Z * F) * D)
}.

Definition NO_PARTITION : Z := 0xFFFFFFFF.

(** The fields of a partition entry that are read ([psize] is not used). *)
Record partition := Partition { p_active : Z; p_type : Z; p_size : Z; p_start : Z }.

(** [boot_sector_t]: 446 bytes of code, then four entries of 16 bytes. *)
Definition entry_off (i : Z) : Z := 0x1BE + 16 * i.

Definition read_entry (page : list Z) (i : Z) : outcome partition :=
  let* active := aread page (entry_off i) in
  let* type := aread page (entry_off i + 4) in
  let* start := load32 en page (entry_off i + 8) in
  let* size := load32 en page (entry_off i + 12) in
  Done (Partition active type size start).

(** The block read replaces the start of the page.  On failure the caller's
    variables keep their initial zeros. *)
Definition get_partition (part_num mbr_sector : Z) (page : list Z) (d : D)
    : outcome (partition * list Z * D) :=
  if 3 <? part_num then Done (Partition 0 0 0 NO_PARTITION, page, d)
  else match read_block (u32 mbr_sector) d with
  | (None, d) => Done (Partition 0 0 0 NO_PARTITION, page, d)
  | (Some block, d) =>
      let page := block ++ drop (length block) page in
      let* p := read_entry page part_num in
      Done (p, page, d)
  end.

(** The loop over the driver table: the first driver that accepts the sector. *)
Fixpoint try_drivers (drivers : list filesystems_t) (sector : Z) (d : D)
    : outcome (option (Z * F) * D) :=
  match drivers with
  | [] => Done (None, d)
  | t :: ts =>
      let* '(r, d) := fst_init t d sector in
      match r with Some x => Done (Some x, d) | None => try_drivers ts sector d end
  end.

(** [if (pstart == 0xFFFFFFFF || (pactive != 0x80 && pactive != 0x00)) continue;] *)
Definition skip_entry (p : partition) : bool :=
  (p_start p =? NO_PARTITION) || (negb (p_active p =? 0x80) && negb (p_active p =? 0)).
Definition is_extended (p : partition) : bool := (p_type p =? 5) || (p_type p =? 15).

(** The state of the loops: the file system found, the page and the disk. *)
Definition scan : Type := option (Z * F) * list Z * D.

Fixpoint read_extended_partition_table (fuel : nat) (drivers : list filesystems_t)
    (start sector : Z) (page : list Z) (d : D) : outcome scan :=
  match fuel with
  | O => OutOfFuel
  | S fuel =>
      let* r := for_loop 0 4 (λ i '(fs, page, d),
        let* '(p, page, d) := get_partition i (u32 (start + sector)) page d in
        if skip_entry p then Done (inl (fs, page, d))
        else if p_type p =? 0 then Done (inr (fs, page, d))
        else if is_extended p then
          let* r := read_extended_partition_table fuel drivers start (p_start p) page d in
          Done (inr r)
        else
          let* '(fs, d) := try_drivers drivers (u32 (start + sector + p_start p)) d in
          match fs with
          | Some x => Done (inr (Some x, page, d))
          | None => Done (inl (None, page, d))
          end) (None, page, d) in
      Done (match r with inl x => x | inr x => x end)
  end.

(** The address freed at the end is part of the result. *)
Definition filesystems_try_all (fuel : nat) (drivers : list filesystems_t) (addr : Z)
    (page : list Z) (d : D) : outcome (option (Z * F) * D * Z) :=
  let* r := for_loop 0 4 (λ i '(fs, page, d),
    let* '(p, page, d) := get_partition i 0 page d in
    if skip_entry p then Done (inl (fs, page, d))
    else if p_type p =? 0 then Done (inr (fs, page, d))
    else if is_extended p then
      let* r := read_extended_partition_table fuel drivers (p_start p) 0 page d in
      Done (inr r)
    else
      let* '(fs, d) := try_drivers drivers (p_start p) d in
      match fs with
      | Some x => Done (inr (Some x, page, d))
      | None => Done (inl (None, page, d))
      end) (None, page, d) in
  let '(fs, page, d) := match r with inl x => x | inr x => x end in
  match fs with
  | Some x => Done (Some x, d, addr)
  | None => let* '(fs, d) := try_drivers drivers 0 d in Done (fs, d, addr)
  end.

(** ** Mounting *)
Section mount.
Context {fsd : FsDriver F}.
Variables (fuel : nat) (table : list filesystems_t) (addr : Z) (page : list Z).

(** [volumename] is [None] for NULL.  A file system that cannot be mounted is
    unmounted, which frees it. *)
Definition vfs_mount_fs (d : D) (volumename : option (list Z)) (s : vfs F) : outcome (Z * vfs F) :=
  let* '(r, d, _) := filesystems_try_all fuel table addr page d in
  match r with
  | None => Done (VFS_NO_SUCH_FS, s)
  | Some (fs, f) =>
      let s := set_drivers (<[fs := f]> (drivers s)) s in
      let name := default (fs_volume_name f) volumename in
      let* c := aread name 0 in
      if c =? 0 then
        let* '(_, s) := call_unmount fs s in Done (VFS_INVALID_PARAMS, s)
      else
        let* '(ret, s) := vfs_mount fs name s in
        if ret =? VFS_OK then Done (ret, s)
        else let* '(_, s) := call_unmount fs s in Done (ret, s)
  end.

(** [device_get(TYPECODE_DISK, i)] is element [i] of [disks]; a device whose
    generic driver is NULL is [None]. *)
Definition vfs_mount_all (disks : list (option D)) (s : vfs F) : outcome (vfs F) :=
  let* r := for_loop 0 CONFIG_MAX_FILESYSTEMS (λ i s,
    match disks !! Z.to_nat i with
    | None => Done (inr s)
    | Some None => Done (inl s)
    | Some (Some d) => let* '(_, s) := vfs_mount_fs d None s in Done (inl s)
    end) s in
  Done (match r with inl s => s | inr s => s end).
End mount.
End filesystems.
Arguments filesystems_t : clear implicits.
Arguments FsType {D F}.

(** The table of the source: TFS is the only driver.  [alloc] gives the page the
    driver's [kmalloc] returns, its contents and whether a semaphore was free. *)
Definition tfs_type {D} {dev : BlockDevice D} (en : endian) (sizeof_fs sizeof_tfs : Z)
    (sem : bool) (addr : Z) (page : list Z) : filesystems_t D (tfs_volume D) :=
  FsType [84; 70; 83; 0] (λ d sector,
    let* '(r, _, d) := tfs_init en sector sem addr page sizeof_fs sizeof_tfs d in
    Done (match r with
          | Some (name, t) =>
              Some (addr, TfsVolume name (addr + sizeof_fs + sizeof_tfs + TFS_BLOCK_SIZE) t d)
          | None => None
          end, d)).
