(* ===== verification/FsProps.v ===== *)
(** * Properties of the search for file systems

    What [filesystems_try_all] does on a disk without partitions, that mounting
    such a disk gives the VFS its files, and that a partition table can send the
    search into an endless recursion. *)

From S2P Require Import Prelude Bitmap Libc BlockDev Tfs TfsSpec TfsRead TfsView Vfs VfsSpec VfsInv VfsOps VfsTfs Filesystems.

Section init.
Context {D : Type} {dev : BlockDevice D} {spec : BlockDeviceSpec D}.

(** A disk with a TFS header in block [sector]: the magic number and the volume
    name [vn]. *)
Record tfs_header (d : D) (sector : Z) (vn : list Z) : Prop := {
  th_bs : block_size d = TFS_BLOCK_SIZE;
  th_healthy : healthy d;
  th_sector : 0 ≤ sector < total_blocks d;
  th_total : total_blocks d < 2 ^ 31;
  th_magic : ∃ w, load32 Big (contents d sector) 0 = Done w ∧ u16 w = TFS_MAGIC;
  th_name : cstr (drop 4 (contents d sector)) vn;
  th_len : (length vn ≤ 15)%nat
}.

Lemma header_block d sector vn : tfs_header d sector vn → is_block (contents d sector).
Proof.
  intros [Hbs _ Hs _ _ _ _]. destruct (contents_ok d sector Hs) as [Hl Hu]. split; [|done].
  rewrite Hbs in Hl. unfold TFS_BLOCK_SIZE in Hl. lia.
Qed.

Lemma tfs_init_spec d sector vn addr page sf st :
  tfs_header d sector vn → addr ≠ 0 → length page = 4096%nat → Forall is_u8 page →
  0 ≤ sf → 0 ≤ st → 3 * TFS_BLOCK_SIZE + st + sf ≤ 4096 →
  returns (tfs_init Big sector true addr page sf st d) (λ '(r, _, d'), same_dev d d' ∧
    ∃ name t, r = Some (name, t) ∧ cstr name vn ∧ startblock t = sector ∧
      totalblocks t = Z.min (total_blocks d) 4096 ∧ lock t = 1 ∧ bufs_ok t).
Proof.
  intros Hh Haddr Hpl Hpu Hsf Hst Hfit. pose proof (header_block _ _ _ Hh) as [Hbl Hbu].
  destruct Hh as [Hbs Hhl Hs Ht (w & Hw & Hm) Hn Hvl]. unfold tfs_init.
  rewrite Hbs, Z.eqb_refl. cbn [negb]. destruct (Z.eqb_spec addr 0); [done|].
  rewrite Hpl. change (Z.of_nat 4096) with 4096.
  rewrite kassert_bind by (apply Z.leb_le; lia). unfold TFS_BLOCK_SIZE in *.
  unfold TFS_HEADER_BLOCK. rewrite Z.add_0_r, u32_id by (unfold is_u32; lia).
  destruct (read_block sector d) as [r d'] eqn:Er.
  destruct (read_block_spec _ _ _ _ Er) as (Hc & Hb' & Ht' & Hh' & _ & Hok).
  rewrite (Hok Hhl Hs). rewrite Hw. cbn [outcome_bind]. change (from_big_endian32 Big w) with w.
  rewrite Hm, Z.eqb_refl. cbn [negb].
  rewrite (stringcopy_spec _ _ _ _ Hn) by (rewrite length_replicate; unfold TFS_VOLNAME_MAX; lia).
  cbn [outcome_bind]. unfold stringcopy_result at 1. rewrite (take_ge vn) by (unfold TFS_VOLNAME_MAX; lia).
  assert (Hn2 : cstr (vn ++ 0 :: drop (length vn + 1) (replicate 16 0)) vn)
    by (split; [apply Hn|by eexists]).
  rewrite (stringcopy_spec _ _ _ _ Hn2) by (rewrite length_replicate; unfold VFS_NAME_LENGTH; lia).
  cbn [outcome_bind returns]. split; [by constructor|]. eexists _, _. split; [done|]. split_and!.
  - unfold stringcopy_result. rewrite (take_ge vn) by (unfold VFS_NAME_LENGTH; lia).
    split; [apply Hn|by eexists].
  - done.
  - simpl. rewrite MIN_spec, Ht'. done.
  - done.
  - set (page' := contents d sector ++ drop (length (contents d sector)) page).
    assert (Hp' : length page' = 4096%nat ∧ Forall is_u8 page').
    { unfold page'. rewrite length_app, length_drop. split; [lia|].
      apply Forall_app. split; [done|by apply Forall_drop]. }
    destruct Hp' as [Hpl' Hpu']. split; split; simpl; try (by apply Forall_take, Forall_drop);
      rewrite length_take, length_drop, Hpl'; lia.
Qed.

(** No partitions: the first entry of the boot sector is an end marker. *)
Record no_partitions (d : D) : Prop := {
  np_active : contents d 0 !! 446%nat = Some 0 ∨ contents d 0 !! 446%nat = Some 128;
  np_type : contents d 0 !! 450%nat = Some 0;
  np_start : load32 Big (contents d 0) 454 ≠ Done NO_PARTITION
}.

Lemma aread_app_l {A} (l k : list A) i x : 0 ≤ i → l !! Z.to_nat i = Some x → aread (l ++ k) i = Done x.
Proof. intros Hi Hx. apply aread_Some; [done|]. by apply lookup_app_l_Some. Qed.

Lemma load32_app_512 (a b : list Z) off :
  length a = 512%nat → 0 ≤ off → off + 4 ≤ 512 → load32 Big (a ++ b) off = load32 Big a off.
Proof.
  intros Hl Ho Hf. unfold load32. rewrite length_app.
  rewrite (proj2 (Z.leb_le 0 off)), !(proj2 (Z.leb_le (off + 4) _)) by lia. cbn [andb].
  do 2 f_equal. rewrite drop_app_le, take_app_le; [done|rewrite length_drop; lia|lia].
Qed.

(** Then the drivers are tried on the whole disk. *)
Lemma try_all_whole {F} fuel (table : list (filesystems_t D F)) addr page d Q :
  is_block (contents d 0) → healthy d → 0 < total_blocks d → no_partitions d →
  (∀ d', same_dev d d' → returns (try_drivers table 0 d') (λ '(r, d2), Q (r, d2, addr))) →
  returns (filesystems_try_all Big fuel table addr page d) Q.
Proof.
  intros [Hl Hu] Hh Ht [Ha Hty Hst] Hk. unfold filesystems_try_all, for_loop.
  change (Z.to_nat (4 - 0)) with 4%nat. cbn [for_from]. unfold get_partition at 1. cbn [Z.ltb Z.compare].
  change (u32 0) with 0. destruct (read_block 0 d) as [r d'] eqn:Er.
  destruct (read_block_spec _ _ _ _ Er) as (Hc & Hb' & Ht' & Hh' & _ & Hok).
  rewrite (Hok Hh) by lia.
  assert (Hact : ∃ x, contents d 0 !! 446%nat = Some x ∧ (x = 0 ∨ x = 128)) by naive_solver.
  destruct Hact as (x & Hx & Hx2). unfold read_entry, entry_off.
  change (446 + 16 * 0) with 446. change (446 + 4) with 450. change (446 + 8) with 454.
  change (446 + 12) with 458.
  rewrite (aread_app_l _ _ 446 x), (aread_app_l _ _ 450 0) by (done || lia).
  rewrite !load32_app_512 by (done || lia). cbn [outcome_bind].
  destruct (load32 Big (contents d 0) 454) as [w| | | |] eqn:Ew;
    try (unfold load32 in Ew; by rewrite Hl in Ew).
  destruct (load32 Big (contents d 0) 458) as [w2| | | |] eqn:Ew2;
    try (unfold load32 in Ew2; by rewrite Hl in Ew2).
  cbn [outcome_bind]. unfold skip_entry. cbn [p_start p_active p_type].
  replace ((w =? NO_PARTITION) || (negb (x =? 128) && negb (x =? 0))) with false.
  2: { destruct (Z.eqb_spec w NO_PARTITION); [subst; done|]. destruct Hx2; by subst. }
  cbn [Z.eqb outcome_bind]. apply returns_bind.
  eapply returns_mono; [apply (Hk d'); by constructor|]. by intros [r2 d2].
Qed.
End init.

(** ** Mounting a volume *)
Section mounting.
Context {D : Type} {dev : BlockDevice D} {spec : BlockDeviceSpec D}.

Lemma tables_new_driver fss fls (drv : gmap Z (tfs_volume D)) a fs f m h :
  tables fss fls drv a → a !! fs = None → vol_holds f m h →
  tables fss fls (<[fs:=f]> drv) (<[fs:=(m, h)]> a).
Proof.
  intros [H1 H2 H3 H4 H5 H6 H7 H8] Hn Hh. constructor; try done.
  - intros fs' Hne Hm. destruct (decide (fs = fs')) as [<-|Hf].
    + rewrite lookup_insert_eq. eauto.
    + rewrite lookup_insert_ne by done. auto.
  - by rewrite !dom_insert_L, H7.
  - intros fs' f' m' h' Hf' Ha'. destruct (decide (fs = fs')) as [<-|Hne].
    + rewrite lookup_insert_eq in Hf'. rewrite lookup_insert_eq in Ha'. by simplify_eq.
    + rewrite lookup_insert_ne in Hf' by done. rewrite lookup_insert_ne in Ha' by done. eauto.
Qed.

(** The page a driver gets from [kmalloc]. *)
Record page_ok (addr : Z) (page : list Z) (sf st : Z) : Prop := {
  pg_addr : addr ≠ 0;
  pg_len : length page = 4096%nat;
  pg_u8 : Forall is_u8 page;
  pg_sf : 0 ≤ sf;
  pg_st : 0 ≤ st;
  pg_fits : 3 * TFS_BLOCK_SIZE + st + sf ≤ 4096
}.

(** TFS on the whole disk: the volume it makes holds the files of the disk. *)
Lemma tfs_driver_accepts t0 d d1 dir vn addr page sf st :
  tfs_header d 0 vn → fs_rep t0 d dir → startblock t0 = 0 →
  totalblocks t0 = Z.min (total_blocks d) 4096 → page_ok addr page sf st → same_dev d d1 →
  returns (try_drivers [tfs_type Big sf st true addr page] 0 d1) (λ '(r, _),
    ∃ v, r = Some (addr, v) ∧ cstr (tv_name v) vn ∧ vol_holds v (view t0 d dir) (inodes dir)).
Proof.
  intros Hh Hr Hs Ht [Ha Hl Hu Hsf Hst Hf] Hsd. cbn [try_drivers fst_init tfs_type].
  assert (Hh1 : tfs_header d1 0 vn).
  { destruct Hh as [X1 X2 X3 X4 X5 X6 X7]. destruct Hsd as [Y1 Y2 Y3 Y4].
    constructor; rewrite ?Y1, ?Y2, ?Y3; auto. }
  apply returns_bind. apply returns_bind.
  eapply returns_mono; [by apply (tfs_init_spec d1 0 vn addr page sf st)|].
  intros [[r b] d2] (Hsd2 & name & t & -> & Hn & Es & Et & El & Hb). cbn [returns].
  eexists. split; [done|]. split; [done|]. unfold vol_holds. cbn [tv_tfs tv_disk].
  assert (Hsd' : same_dev d d2) by (by etrans).
  exists dir. split_and!; [|apply view_same; [congruence|done]|done|done].
  eapply fs_rep_same; try done; [congruence|]. by rewrite Et, (sd_total _ _ Hsd), Ht.
Qed.

(** Mounting at boot: [vfs_mount_fs] on a disk with a TFS header, no
    partition table and a well-formed volume finds the volume, mounts it in the
    first free row under the name in its header and gives the VFS exactly the
    files of the disk, when a row is free and the name is not taken; the VFS
    stays well formed and nothing else of it changes. *)
Theorem tfs_disk_mounts fuel t0 d dir vn addr page sf st addr0 page0 i e (s : vfs (tfs_volume D)) A :
  vrep s A → tfs_header d 0 vn → vn ≠ [] → no_partitions d →
  fs_rep t0 d dir → startblock t0 = 0 → totalblocks t0 = Z.min (total_blocks d) 4096 →
  page_ok addr page sf st → av_contents A !! addr = None →
  free_row (av_fss A) = Some (i, e) → row_named (av_fss A) vn = None →
  returns (vfs_mount_fs Big fuel [tfs_type Big sf st true addr page] addr0 page0 d None s)
    (λ '(r, s'), r = VFS_OK ∧ ∃ mp, cstr mp vn ∧
       vrep s' (AVfs (av_ops A) (<[i := VfsEntry addr mp]> (av_fss A)) (av_fls A)
                  (<[addr := (view t0 d dir, inodes dir)]> (av_contents A)))).
Proof.
  intros Hs Hh Hvn Hnp Hr Es Et Hpg Hnew Hfree Hrow. unfold vfs_mount_fs. apply returns_bind.
  pose proof (header_block _ _ _ Hh) as Hhb.
  eapply returns_mono; [apply (try_all_whole fuel _ addr0 page0 d
    (λ '(r, _, _), ∃ v, r = Some (addr, v) ∧ cstr (tv_name v) vn ∧
       vol_holds v (view t0 d dir) (inodes dir)));
    [exact Hhb|apply Hh|pose proof (th_sector _ _ _ Hh); lia|exact Hnp| ]|].
  { intros d1 Hsd. eapply returns_mono; [by eapply tfs_driver_accepts|]. by intros [r d2]. }
  intros [[r d2] freed] (v & -> & Hn & Hv). destruct Hs as (Hops & drv & -> & Ht).
  assert (Hu : Forall is_u8 vn).
  { destruct (th_name _ _ _ Hh) as [_ [rest E]]. destruct Hhb as [_ Hu].
    apply (Forall_drop _ 4) in Hu. rewrite E in Hu. by apply Forall_app in Hu as [? _]. }
  cbn [default from_option fs_volume_name tfs_driver_big tfs_driver].
  destruct vn as [|c vn']; [done|]. pose proof (cstr_lookup _ _ 0 Hn) as H0. simpl in H0.
  rewrite (aread_Some _ _ c) by (done || (apply H0; lia)). cbn [outcome_bind].
  destruct (Z.eqb_spec c 0) as [->|_]; [by destruct Hn as [[]%not_elem_of_cons _]|].
  apply returns_bind. set (A1 := AVfs (av_ops A) (av_fss A) (av_fls A)
    (<[addr := (view t0 d dir, inodes dir)]> (av_contents A))).
  assert (Hs1 : vrep (set_drivers (<[addr := v]> (drivers (state 1 1 (av_ops A) (av_fss A) (av_fls A) drv)))
    (state 1 1 (av_ops A) (av_fss A) (av_fls A) drv)) A1).
  { split; [done|]. exists (<[addr := v]> drv). split; [done|]. by apply tables_new_driver. }
  eapply returns_mono; [apply (vfs_mount_spec addr (tv_name v) (c :: vn') _ A1 Hs1); try done|].
  - apply Hh.
  - apply Hpg.
  - unfold A1. simpl. rewrite lookup_insert_eq. eauto.
  - intros Hm. destruct (t_mounted _ _ _ _ Ht addr (pg_addr _ _ _ _ Hpg) Hm) as [x E]. congruence.
  - intros [ret s2] [-> Hs2]. unfold avfs_mount in *. cbn [av_fss A1] in *.
    rewrite Hfree, Hrow in *. cbn [fst snd] in *. cbn [Z.eqb VFS_OK returns]. split; [done|].
    eexists. split; [|exact Hs2]. apply mountpoint_copied; [|apply Hh|apply Hn].
    apply list_find_Some in Hfree as (Hi & _ & _). pose proof (t_rows _ _ _ _ Ht) as Hrows.
    rewrite Forall_lookup in Hrows. by apply (eo_len _ (Hrows _ _ Hi)).
Qed.
End mounting.

(** ** Circular partition tables *)
Section circular.
Context {D : Type} {dev : BlockDevice D} {F : Type}.

(** The first entry of a boot sector is an extended partition that starts at
    [sector]. *)
Definition links_to (en : endian) (block : list Z) (sector : Z) : Prop :=
  ∀ rest, ∃ p, read_entry en (block ++ rest) 0 = Done p ∧ skip_entry p = false ∧
    p_type p ≠ 0 ∧ is_extended p = true ∧ p_start p = sector.

(** An extended partition table whose first entry leads back to itself makes
    [read_extended_partition_table] recurse for ever: no number of calls is
    enough.  [P] are the states of a device that keeps answering the block. *)
Theorem circular_partition_diverges en (P : D → Prop) table start sector block fuel page d :
  (∀ d, P d → ∃ d', read_block (u32 (u32 (start + sector))) d = (Some block, d') ∧ P d') →
  links_to en block sector → P d →
  read_extended_partition_table (F:=F) en fuel table start sector page d = OutOfFuel.
Proof.
  intros Hrd Hlink. revert page d. induction fuel as [|fuel IH]; intros page d Hd; [done|].
  cbn [read_extended_partition_table]. unfold for_loop. change (Z.to_nat (4 - 0)) with 4%nat.
  cbn [for_from]. unfold get_partition at 1. cbn [Z.ltb Z.compare].
  destruct (Hrd d Hd) as (d' & -> & Hd').
  destruct (Hlink (drop (length block) page)) as (p & -> & Hs & Ht & He & Hst). cbn [outcome_bind].
  rewrite Hs, He. destruct (Z.eqb_spec (p_type p) 0); [done|]. rewrite Hst, (IH _ d' Hd'). done.
Qed.
End circular.

(** ** Witnesses *)
Definition boot_fss : list vfs_entry_t := replicate 8 (VfsEntry 0 (replicate 16 0)).
Definition boot_fls : list openfile_entry_t := replicate 512 (Openfile 0 0 0).
Definition boot_A : avfs := AVfs 0 boot_fss boot_fls ∅.
Definition boot_vfs : vfs (tfs_volume disk) := state 1 1 0 boot_fss boot_fls ∅.

Lemma boot_vrep_any {D} {dev : BlockDevice D} {spec : BlockDeviceSpec D} :
  vrep (state 1 1 0 boot_fss boot_fls ∅ : vfs (tfs_volume D)) boot_A.
Proof.
  split; [simpl; lia|]. exists ∅. split; [reflexivity|].
  assert (Hfss : ∀ i e, boot_fss !! i = Some e → e = VfsEntry 0 (replicate 16 0))
    by (intros i e [-> _]%lookup_replicate; reflexivity).
  constructor.
  - reflexivity.
  - apply length_replicate.
  - apply Forall_lookup. intros i e ->%Hfss. split; [reflexivity|apply cstr_nil|constructor|].
    intros H. by destruct H.
  - intros i j e e' ->%Hfss ->%Hfss _. by split.
  - intros fs Hne (i & e & ->%Hfss & E). by destruct Hne.
  - intros i o [-> _]%lookup_replicate H. by destruct H.
  - rewrite !dom_empty_L. reflexivity.
  - intros fs f m h E. rewrite lookup_empty in E. discriminate.
Qed.

Lemma boot_vrep : vrep boot_vfs boot_A.
Proof. exact boot_vrep_any. Qed.

Lemma a_disk_header : tfs_header a_disk 0 [100].
Proof.
  constructor.
  - reflexivity.
  - constructor.
  - vm_compute. split; [discriminate|reflexivity].
  - vm_compute. reflexivity.
  - exists 3745. split; vm_compute; reflexivity.
  - split; [by apply (bool_decide_unpack _)|]. exists (replicate 506 0); vm_compute; reflexivity.
  - simpl. lia.
Qed.

Lemma a_disk_no_partitions : no_partitions a_disk.
Proof.
  constructor.
  - left. vm_compute. reflexivity.
  - vm_compute. reflexivity.
  - vm_compute. discriminate.
Qed.

Lemma boot_page_ok : page_ok 65536 (replicate 4096 0) 56 28.
Proof.
  constructor; [discriminate|apply length_replicate| |lia|lia|vm_compute; discriminate].
  apply Forall_replicate. split; [lia|reflexivity].
Qed.

Lemma tfs_disk_mounts_witness :
  returns (vfs_mount_fs Big 0 [tfs_type Big 56 28 true 65536 (replicate 4096 0)] 0 [] a_disk None boot_vfs)
    (λ '(r, s'), r = VFS_OK).
Proof.
  refine (returns_mono _ _ _ (tfs_disk_mounts 0 empty_tfs a_disk a_dir [100] 65536 (replicate 4096 0)
    56 28 0 [] 0 (VfsEntry 0 (replicate 16 0)) boot_vfs boot_A boot_vrep a_disk_header _ a_disk_no_partitions a_fs_rep
    eq_refl _ boot_page_ok (lookup_empty 65536) _ _) _).
  - discriminate.
  - vm_compute. reflexivity.
  - reflexivity.
  - vm_compute. reflexivity.
  - intros [r s'] [-> _]. reflexivity.
Defined.

(** A one-block disk whose partition entry leads to its own block. *)
Definition loop_block : list Z :=
  replicate 446 0 ++ [0; 0; 0; 0; 5; 0; 0; 0; 0; 0; 0; 0; 0; 0; 0; 1] ++ replicate 50 0.

Lemma loop_block_ok : image_ok [loop_block].
Proof. unfold image_ok. apply (bool_decide_unpack _). vm_compute. exact I. Qed.

Definition loop_disk : disk := Disk (Ramdisk [loop_block] []) loop_block_ok.

Lemma loop_links : links_to Big loop_block 0.
Proof.
  intros rest. exists (Partition 0 5 1 0). split_and!; [|reflexivity|simpl; lia|reflexivity..].
  unfold read_entry, entry_off. change (446 + 16 * 0) with 446.
  rewrite (aread_app_l _ _ 446 0), (aread_app_l _ _ (446 + 4) 5) by (reflexivity || lia).
  rewrite !load32_app_512 by (reflexivity || lia). vm_compute. reflexivity.
Qed.

Lemma loop_answers d :
  dk d = Ramdisk [loop_block] [] →
  ∃ d', read_block (u32 (u32 (0 + 0))) d = (Some loop_block, d') ∧ dk d' = Ramdisk [loop_block] [].
Proof.
  destruct d as [r ok]. cbn [dk]. intros ->. eexists. split; reflexivity.
Qed.

Lemma circular_partition_diverges_witness :
  read_extended_partition_table (F:=tfs_volume disk) Big 1000 [] 0 0 [] loop_disk = OutOfFuel.
Proof.
  exact (circular_partition_diverges Big (λ d, dk d = Ramdisk [loop_block] []) [] 0 0 loop_block 1000 []
    loop_disk loop_answers loop_links eq_refl).
Defined.
