(* ===== verification/TfsTool.v ===== *)
(** * The TFS tool (util/tfstool.c)

    The host program that makes disk images.  The host file system is a map from
    file names to contents ([host]); a computation of the tool ([tool]) passes it
    along and ends either normally or with [exit(EXIT_FAILURE)] ([None]).  What the
    tool prints is left out, but for [tfstool_list], which answers the rows it
    prints.  [en] is the byte order of the host, [junk] stands for what an
    uninitialised block buffer of the stack holds. *)

From S2P Require Import Prelude Libc Tfs.

Notation host := (gmap (list Z) (list Z)).

(** ** Computations of the tool *)
Definition tool (A : Type) : Type := host → outcome (option A * host).

Definition tret {A} (a : A) : tool A := λ h, Done (Some a, h).
Definition tfail {A} : tool A := λ h, Done (None, h).
Definition tlift {A} (m : outcome A) : tool A := λ h, let* a := m in Done (Some a, h).
Definition tbind {A B} (m : tool A) (k : A → tool B) : tool B := λ h,
  let* '(r, h) := m h in match r with Some a => k a h | None => Done (None, h) end.

Notation "'do' x <- m ; k" := (tbind m (fun x => k))
  (at level 60, m at next level, x name, right associativity) : kudos_scope.
Notation "'do' ' p <- m ; k" := (tbind m (fun x => match x with p => k end))
  (at level 60, p pattern, m at next level, right associativity) : kudos_scope.

(** A [for] loop; the body answers [inl] to go on and [inr] to leave the loop. *)
Definition tfor {S R} (lo hi : Z) (body : Z → S → tool (S + R)) (s : S) : tool (S + R) := λ h,
  let* r := for_loop lo hi (λ i '(s, h),
    let* '(r, h) := body i s h in
    match r with
    | Some (inl s) => Done (inl (s, h))
    | Some (inr r) => Done (inr (Some r, h))
    | None => Done (inr (None, h))
    end) (s, h) in
  Done (match r with
        | inl (s, h) => (Some (inl s), h)
        | inr (Some r, h) => (Some (inr r), h)
        | inr (None, h) => (None, h)
        end).

(** ** The C library *)

(** [strncmp] on the memory from the two pointers on. *)
Fixpoint strncmp (a b : list Z) (n : nat) : outcome Z :=
  match n with
  | O => Done 0
  | S n =>
      match a, b with
      | x :: a, y :: b =>
          if negb (x =? y) then Done (x - y) else if x =? 0 then Done 0 else strncmp a b n
      | _, _ => Fault
      end
  end.

(** What [strncpy] stores: the string up to its end, padded with zeros. *)
Fixpoint strncpy (src : list Z) (n : nat) : outcome (list Z) :=
  match n with
  | O => Done []
  | S n =>
      match src with
      | [] => Fault
      | c :: src =>
          if c =? 0 then Done (replicate (S n) 0)
          else let* r := strncpy src n in Done (c :: r)
      end
  end.

(** [memcpy] of [n] bytes to offset [off] of [dst]. *)
Definition memcpy (dst : list Z) (off : Z) (src : list Z) (n : Z) : outcome (list Z) :=
  if (n <=? Z.of_nat (length src)) && (off + n <=? Z.of_nat (length dst)) then
    Done (take (Z.to_nat off) dst ++ take (Z.to_nat n) src ++ drop (Z.to_nat (off + n)) dst)
  else Fault.

Definition host_file (name : list Z) (h : host) : list Z := default [] (h !! name).

(** [fopen] with a mode that needs the file, and with one that empties it. *)
Definition openfile_read (name : list Z) : tool unit := λ h,
  match h !! name with Some _ => Done (Some (), h) | None => Done (None, h) end.
Definition file_exists (name : list Z) : tool bool := λ h, Done (Some (bool_decide (is_Some (h !! name))), h).
Definition openfile_write (name : list Z) : tool unit := λ h, Done (Some (), <[name := []]> h).

(** [fread] of up to [n] bytes at [off] into a buffer, and the bytes read. *)
Definition fread (data file : list Z) (off : Z) (n : nat) : list Z * Z :=
  let got := take n (drop (Z.to_nat off) file) in
  (got ++ drop (length got) data, Z.of_nat (length got)).

(** [fwrite] at [off]; a gap after the end of the file reads as zeros. *)
Definition fwrite (file : list Z) (off : Z) (data : list Z) : list Z :=
  let file := file ++ replicate (Z.to_nat off - length file) 0 in
  take (Z.to_nat off) file ++ data ++ drop (Z.to_nat off + length data) file.

Definition TFS_MAX_FILESIZE : Z := TFS_BLOCK_SIZE * TFS_BLOCKS_MAX.
Definition EMPTY_BLOCK : list Z := replicate 512 0.

Section tool.
Variable en : endian.

Definition ntohl (x : Z) : Z := from_big_endian32 en x.
Definition htonl (x : Z) : Z := to_big_endian32 en x.

Definition getfilesize (name : list Z) : tool Z := λ h,
  Done (Some (Z.of_nat (length (host_file name h))), h).
Definition tfstool_numblocks (disk : list Z) : tool Z :=
  do n <- getfilesize disk; tret (n / TFS_BLOCK_SIZE).

(** [fseek] to a negative offset fails. *)
Definition tool_read_block (disk data : list Z) (block : Z) : tool (list Z) := λ h,
  let off := s32 (s32 block * TFS_BLOCK_SIZE) in
  if off <? 0 then Done (None, h)
  else Done (Some (fst (fread data (host_file disk h) off 512)), h).

Definition tool_write_block (disk : list Z) (data : option (list Z)) (block : Z) : tool unit := λ h,
  let off := s32 (s32 block * TFS_BLOCK_SIZE) in
  if off <? 0 then Done (None, h)
  else
    let data := match data with Some d => d | None => EMPTY_BLOCK end in
    Done (Some (), <[disk := fwrite (host_file disk h) off data]> h).

(** ** Bitmaps in network byte order *)
Definition host_bitmap_init (bitmap : list Z) (size : Z) : outcome (list Z) :=
  for_each 0 ((size + 31) `quot` 32) (λ i bm, awrite bm i 0) bitmap.

Definition host_bitmap_get (bitmap : list Z) (pos : Z) : outcome Z :=
  if pos <? 0 then Fault
  else
  let i := pos `quot` 32 in
  let j := pos `rem` 32 in
  let* w := aread bitmap i in
  Done (Z.land (Z.shiftr (ntohl w) j) 0x01).

Definition host_bitmap_set (bitmap : list Z) (pos value : Z) : tool (list Z) :=
  if pos <? 0 then tlift Fault
  else
  let i := pos `quot` 32 in
  let j := pos `rem` 32 in
  if value =? 0 then tlift (
    let* w := aread bitmap i in
    awrite bitmap i (htonl (Z.land (ntohl w) (u32 (Z.lnot (s32 (Z.shiftl 1 j)))))))
  else if value =? 1 then tlift (
    let* w := aread bitmap i in
    awrite bitmap i (htonl (Z.lor (ntohl w) (u32 (s32 (Z.shiftl 1 j))))))
  else tfail.

(** The bit found, or -1, and the bitmap. *)
Definition host_bitmap_findnset (bitmap : list Z) (l : Z) : tool (Z * list Z) :=
  do r <- tfor 0 l (λ i _,
    do b <- tlift (host_bitmap_get bitmap i);
    if b =? 0 then do bitmap <- host_bitmap_set bitmap i 1; tret (inr (i, bitmap))
    else tret (inl ())) ();
  tret (match r with inl _ => (-1, bitmap) | inr x => x end).

(** ** Creating a volume *)

(** [volname] is the array of 16 bytes. *)
Definition tfstool_createvol (diskfilename : list Z) (size : Z) (volname junk : list Z) : tool unit :=
  do allocation <- tlift (host_bitmap_init (block_words en junk) (8 * TFS_BLOCK_SIZE));
  do exists_ <- file_exists diskfilename;
  if (exists_ : bool) then tfail
  else if size <? 3 then tfail
  else
  do _ <- openfile_write diskfilename;
  do header <- tlift (memcpy EMPTY_BLOCK 0 (bytes_of_u32 en (htonl TFS_MAGIC)) 4);
  do header <- tlift (memcpy header 4 volname TFS_VOLNAME_MAX);
  do _ <- tool_write_block diskfilename (Some header) TFS_HEADER_BLOCK;
  do allocation <- host_bitmap_set allocation TFS_HEADER_BLOCK 1;
  do allocation <- host_bitmap_set allocation TFS_ALLOCATION_BLOCK 1;
  do allocation <- host_bitmap_set allocation TFS_DIRECTORY_BLOCK 1;
  do bat <- tlift (memcpy EMPTY_BLOCK 0 (block_bytes en allocation) TFS_BLOCK_SIZE);
  do _ <- tool_write_block diskfilename (Some bat) TFS_ALLOCATION_BLOCK;
  do _ <- tool_write_block diskfilename None TFS_DIRECTORY_BLOCK;
  do _ <- tfor 3 size (λ i _,
    do _ <- tool_write_block diskfilename None i; tret (inl (B := unit) ())) ();
  tret ().

(** ** Copying a file into a volume *)

(** The loop over the directory: [None] if the name exists, otherwise the first
    free entry, or -1. *)
Definition write_scan (md target : list Z) : outcome (option Z) :=
  let* r := for_loop 0 TFS_MAX_FILES (λ i index,
    let* ino := load32 en md (inode_off i) in
    let index := if (ino =? 0) && (index =? -1) then i else index in
    let* c := strncmp (entry_name md i) target 16 in
    if c =? 0 then Done (inr ()) else Done (inl index)) (-1) in
  Done (match r with inl index => Some index | inr _ => None end).

(** [bnum > 2 && bnum < num_blocks] *)
Definition data_block (bnum num_blocks : Z) : bool := (2 <? bnum) && (bnum <? num_blocks).

(** The state of the copying loop: the allocation bitmap, the inode, the data
    buffer, the bytes copied and [writeok]. *)
Definition copy_state : Type := list Z * list Z * list Z * Z * bool.

Definition write_copy (disk source : list Z) (num_blocks : Z) (s : copy_state) : tool copy_state :=
  do r <- tfor 0 num_blocks (λ i '(bat, inode, data, filesize, writeok),
    if negb (filesize <? TFS_MAX_FILESIZE) then tret (inr (bat, inode, data, filesize, writeok))
    else
    do '(b, bat) <- host_bitmap_findnset bat (s32 num_blocks);
    let bnum := u32 b in
    if data_block bnum num_blocks then
      do '(data, got) <- (λ h, Done (Some (fread data (host_file source h) filesize 512), h));
      let filesize := u32 (filesize + got) in
      do _ <- tool_write_block disk (Some data) bnum;
      do inode <- tlift (store32 en inode (4 + 4 * i) (htonl bnum));
      if got <? TFS_BLOCK_SIZE then tret (inr (bat, inode, data, filesize, writeok))
      else tret (inl (bat, inode, data, filesize, writeok))
    else tret (inr (bat, inode, data, filesize, false))) s;
  tret (match r with inl s => s | inr s => s end).

(** [target] is the array of 16 bytes. *)
Definition tfstool_write (diskfilename source target junk : list Z) : tool unit :=
  do _ <- openfile_read diskfilename;
  do _ <- openfile_read source;
  do source_filesize <- getfilesize source;
  do master_dir <- tool_read_block diskfilename junk TFS_DIRECTORY_BLOCK;
  do r <- tlift (write_scan master_dir target);
  match r with
  | None => tfail
  | Some index =>
  if index <? 0 then tfail
  else
  do allocation_block <- tool_read_block diskfilename junk TFS_ALLOCATION_BLOCK;
  do n <- tfstool_numblocks diskfilename;
  let num_blocks := u32 n in
  do '(b, bat) <- host_bitmap_findnset (block_words en allocation_block) (s32 num_blocks);
  let inode_bnum := u32 b in
  if data_block inode_bnum num_blocks then
    do '(bat, inode, data, filesize, writeok) <-
      write_copy diskfilename source num_blocks (bat, EMPTY_BLOCK, junk, 0, true);
    if negb (filesize =? source_filesize) then tfail
    else if (writeok : bool) then
      do inode <- tlift (store32 en inode 0 (htonl filesize));
      do _ <- tool_write_block diskfilename (Some inode) inode_bnum;
      do master_dir <- tlift (store32 en master_dir (inode_off index) (htonl inode_bnum));
      do name <- tlift (strncpy target 16);
      do master_dir <- tlift (memcpy master_dir (name_off index) name TFS_FILENAME_MAX);
      do _ <- tool_write_block diskfilename (Some master_dir) TFS_DIRECTORY_BLOCK;
      tool_write_block diskfilename (Some (block_bytes en bat)) TFS_ALLOCATION_BLOCK
    else tfail
  else tfail
  end.

(** ** Copying a file out of a volume *)
Definition tool_find (md name : list Z) : outcome (option Z) :=
  let* r := for_loop 0 TFS_MAX_FILES (λ i _,
    let* c := strncmp (entry_name md i) name 16 in
    if c =? 0 then Done (inr i) else Done (inl ())) () in
  Done (match r with inl _ => None | inr i => Some i end).

(** [count += fwrite(data, 1, size, t)] *)
Definition append_file (name bytes : list Z) : tool unit := λ h,
  Done (Some (), <[name := host_file name h ++ bytes]> h).

Definition read_copy (disk target inode_block junk : list Z) (filesize : Z) : tool Z :=
  do r <- tfor 0 TFS_BLOCKS_MAX (λ i '(data, count),
    do w <- tlift (load32 en inode_block (4 + 4 * i));
    let bnum := ntohl w in
    if bnum =? 0 then tret (inr count)
    else
    do data <- tool_read_block disk data bnum;
    let size := u32 (filesize - count) in
    let size := if TFS_BLOCK_SIZE <? size then TFS_BLOCK_SIZE else size in
    do _ <- append_file target (take (Z.to_nat size) data);
    tret (inl (data, count + size))) (junk, 0);
  tret (match r with inl (_, count) => count | inr count => count end).

Definition tfstool_read (diskfilename source target junk : list Z) : tool Z :=
  do _ <- openfile_read diskfilename;
  do _ <- openfile_write target;
  do master_dir <- tool_read_block diskfilename junk TFS_DIRECTORY_BLOCK;
  do r <- tlift (tool_find master_dir source);
  match r with
  | None => tfail
  | Some index =>
  do ino <- tlift (load32 en master_dir (inode_off index));
  do inode_block <- tool_read_block diskfilename junk (ntohl ino);
  do fs <- tlift (load32 en inode_block 0);
  read_copy diskfilename target inode_block junk (ntohl fs)
  end.

(** ** Listing a volume *)

(** A row of the listing: the number of the inode, the size, the name (from its
    first byte to the end of the directory block) and the block numbers. *)
Record row := Row { row_inode : Z; row_size : Z; row_name : list Z; row_blocks : list Z }.

Definition list_blocks (inode_block : list Z) : outcome (list Z) :=
  let* r := for_loop 0 TFS_BLOCKS_MAX (λ j bs,
    let* w := load32 en inode_block (4 + 4 * j) in
    if ntohl w =? 0 then Done (inr bs) else Done (inl (bs ++ [ntohl w]))) [] in
  Done (match r with inl bs => bs | inr bs => bs end).

(** The volume name, the number of blocks and the rows. *)
Definition tfstool_list (diskfilename junk : list Z) : tool (list Z * Z * list row) :=
  do _ <- openfile_read diskfilename;
  do header <- tool_read_block diskfilename junk TFS_HEADER_BLOCK;
  do master_dir <- tool_read_block diskfilename junk TFS_DIRECTORY_BLOCK;
  do n <- tfstool_numblocks diskfilename;
  do r <- tfor 0 TFS_MAX_FILES (λ i rows,
    do ino <- tlift (load32 en master_dir (inode_off i));
    if 0 <? ino then
      do data <- tool_read_block diskfilename junk (ntohl ino);
      do fs <- tlift (load32 en data 0);
      do bs <- tlift (list_blocks data);
      tret (inl (B := unit) (rows ++ [Row (ntohl ino) (ntohl fs) (entry_name master_dir i) bs]))
    else tret (inl rows)) [];
  tret (drop 4 header, s32 n, match r with inl rows => rows | inr _ => [] end).

(** ** Deleting a file *)
Definition delete_free (inode_block bat : list Z) : tool (list Z) :=
  do r <- tfor 0 TFS_BLOCKS_MAX (λ i bat,
    do w <- tlift (load32 en inode_block (4 + 4 * i));
    if ntohl w =? 0 then tret (inr bat)
    else do bat <- host_bitmap_set bat (s32 (ntohl w)) 0; tret (inl bat)) bat;
  tret (match r with inl bat => bat | inr bat => bat end).

Definition tfstool_delete (diskfilename filename : list Z) : tool unit :=
  do _ <- openfile_read diskfilename;
  do master_dir <- tool_read_block diskfilename EMPTY_BLOCK TFS_DIRECTORY_BLOCK;
  do r <- tlift (tool_find master_dir filename);
  match r with
  | None => tfail
  | Some index =>
  do allocation_block <- tool_read_block diskfilename EMPTY_BLOCK TFS_ALLOCATION_BLOCK;
  do ino <- tlift (load32 en master_dir (inode_off index));
  let inode_bn := ntohl ino in
  do inode_block <- tool_read_block diskfilename EMPTY_BLOCK inode_bn;
  do bat <- delete_free inode_block (block_words en allocation_block);
  do bat <- host_bitmap_set bat (s32 inode_bn) 0;
  do master_dir <- tlift (store32 en master_dir (inode_off index) 0);
  do master_dir <- tlift (awrite master_dir (name_off index) 0);
  do _ <- tool_write_block diskfilename (Some (block_bytes en bat)) TFS_ALLOCATION_BLOCK;
  tool_write_block diskfilename (Some master_dir) TFS_DIRECTORY_BLOCK
  end.

(** ** The command line *)
Definition FILENAME_MAX : Z := 4096.

(** The file name in a character array. *)
Fixpoint cstring (mem : list Z) : outcome (list Z) :=
  match mem with
  | [] => Fault
  | c :: mem => if c =? 0 then Done [] else let* s := cstring mem in Done (c :: s)
  end.

(** [strncpy(name, arg, FILENAME_MAX)], for a file name. *)
Definition copy_name (arg : list Z) : outcome (list Z) :=
  let* a := strncpy arg (Z.to_nat FILENAME_MAX) in cstring a.

(** [strtoul(s, NULL, 10)] with 64 bits: the digits from the first one on. *)
Fixpoint strtoul_digits (value : Z) (s : list Z) : outcome Z :=
  match s with
  | [] => Fault
  | c :: s => if (48 <=? c) && (c <=? 57) then strtoul_digits (10 * value + (c - 48)) s else Done value
  end.
Fixpoint strtoul_skip (s : list Z) : list Z :=
  match s with
  | c :: r => if (c =? 32) || ((9 <=? c) && (c <=? 13)) then strtoul_skip r else s
  | [] => []
  end.
Definition strtoul (s : list Z) : outcome Z :=
  let clip := λ v, Z.min v (2 ^ 64 - 1) in
  match strtoul_skip s with
  | 45 :: r => let* v := strtoul_digits 0 r in Done (if 2 ^ 64 <=? v then 2 ^ 64 - 1 else u64 (- v))
  | 43 :: r => let* v := strtoul_digits 0 r in Done (clip v)
  | r => let* v := strtoul_digits 0 r in Done (clip v)
  end.

(** The names of the commands. *)
Definition cmd_create : list Z := [99; 114; 101; 97; 116; 101; 0].
Definition cmd_list : list Z := [108; 105; 115; 116; 0].
Definition cmd_write : list Z := [119; 114; 105; 116; 101; 0].
Definition cmd_read : list Z := [114; 101; 97; 100; 0].
Definition cmd_delete : list Z := [100; 101; 108; 101; 116; 101; 0].

(** [main]; every argument is a zero-terminated string.  The usage message ends
    in [exit(EXIT_FAILURE)]. *)
Definition main (argv : list (list Z)) (junk : list Z) : tool unit :=
  let argc := Z.of_nat (length argv) in
  if argc <? 3 then tfail
  else
  do command <- tlift (aread argv 1);
  do disk <- tlift (aread argv 2);
  do c <- tlift (strncmp command cmd_create 6);
  if c =? 0 then
    if negb (argc =? 5) then tfail
    else
    do diskfilename <- tlift (copy_name disk);
    do size <- tlift (let* a := aread argv 3 in strtoul a);
    do volname <- tlift (let* a := aread argv 4 in strncpy a 16);
    do volname <- tlift (awrite volname (TFS_FILENAME_MAX - 1) 0);
    tfstool_createvol diskfilename (s32 size) volname junk
  else
  do c <- tlift (strncmp command cmd_list 4);
  if c =? 0 then
    if negb (argc =? 3) then tfail
    else
    do diskfilename <- tlift (copy_name disk);
    do _ <- tfstool_list diskfilename junk; tret ()
  else
  do c <- tlift (strncmp command cmd_write 5);
  if c =? 0 then
    if (argc <? 4) || (5 <? argc) then tfail
    else
    do diskfilename <- tlift (copy_name disk);
    do local <- tlift (let* a := aread argv 3 in strncpy a (Z.to_nat FILENAME_MAX));
    do tfsfilename <- tlift (if argc =? 5 then let* a := aread argv 4 in strncpy a 16 else strncpy local 16);
    do tfsfilename <- tlift (awrite tfsfilename (TFS_FILENAME_MAX - 1) 0);
    do localfilename <- tlift (cstring local);
    tfstool_write diskfilename localfilename tfsfilename junk
  else
  do c <- tlift (strncmp command cmd_read 4);
  if c =? 0 then
    if (argc <? 4) || (5 <? argc) then tfail
    else
    do diskfilename <- tlift (copy_name disk);
    do tfsfilename <- tlift (let* a := aread argv 3 in strncpy a 16);
    do localfilename <- tlift (if argc =? 5 then let* a := aread argv 4 in copy_name a
                               else copy_name tfsfilename);
    do _ <- tfstool_read diskfilename tfsfilename localfilename junk; tret ()
  else
  do c <- tlift (strncmp command cmd_delete 6);
  if c =? 0 then
    if negb (argc =? 4) then tfail
    else
    do diskfilename <- tlift (copy_name disk);
    do tfsfilename <- tlift (let* a := aread argv 3 in strncpy a 16);
    tfstool_delete diskfilename tfsfilename
  else tfail.
End tool.
