(* ===== verification/TfsImage.v ===== *)
(** * Disk images of the TFS tool

    An image file as a block device (the disk of the simulated machine is the
    image), the block transfers of the tool on it, its bitmap routines, and the
    proof rules for computations of the tool. *)

From S2P Require Import Prelude Bitmap Libc BlockDev Tfs TfsSpec TfsRead TfsIO TfsAlloc TfsTool.

(** ** Image files as block devices *)
Record image := Image { im_bytes : list Z; im_ok : Forall is_u8 im_bytes }.

Definition im_block (bs : list Z) (b : Z) : list Z :=
  if b <? 0 then [] else take 512 (drop (Z.to_nat (512 * b)) bs).
Definition im_total (bs : list Z) : Z := Z.of_nat (length bs) / 512.

Lemma length_fwrite bs off data :
  0 ≤ off → off + Z.of_nat (length data) ≤ Z.of_nat (length bs) →
  length (fwrite bs off data) = length bs.
Proof.
  intros H0 H. unfold fwrite. rewrite !length_app, length_take, length_drop, !length_app, length_replicate. lia.
Qed.

Lemma fwrite_in bs off data :
  0 ≤ off → off + Z.of_nat (length data) ≤ Z.of_nat (length bs) →
  fwrite bs off data = take (Z.to_nat off) bs ++ data ++ drop (Z.to_nat off + length data) bs.
Proof.
  intros H0 H. unfold fwrite. replace (Z.to_nat off - length bs)%nat with 0%nat by lia.
  cbn [replicate]. by rewrite app_nil_r.
Qed.

Lemma fwrite_u8 bs off data : Forall is_u8 bs → Forall is_u8 data → Forall is_u8 (fwrite bs off data).
Proof.
  intros Hb Hd. unfold fwrite.
  assert (Forall is_u8 (bs ++ replicate (Z.to_nat off - length bs) 0)).
  { apply Forall_app. split; [done|]. apply Forall_replicate. unfold is_u8. lia. }
  apply Forall_app. split; [by apply Forall_take|]. apply Forall_app. split; [done|by apply Forall_drop].
Qed.

Lemma im_block_fwrite bs b data b' :
  0 ≤ b < im_total bs → length data = 512%nat →
  im_block (fwrite bs (512 * b) data) b' = if decide (b' = b) then data else im_block bs b'.
Proof.
  intros Hb Hd. unfold im_total in Hb.
  assert (Hin : 512 * b + 512 ≤ Z.of_nat (length bs)).
  { pose proof (Z.div_mod (Z.of_nat (length bs)) 512). pose proof (Z.mod_pos_bound (Z.of_nat (length bs)) 512). lia. }
  rewrite fwrite_in by lia. unfold im_block. destruct (Z.ltb_spec b' 0).
  { rewrite decide_False by lia. done. }
  assert (Ht : length (take (Z.to_nat (512 * b)) bs) = Z.to_nat (512 * b)) by (rewrite length_take; lia).
  case_decide as E.
  - subst b'. rewrite drop_app_length' by done. by rewrite take_app_length'.
  - destruct (decide (b' < b)).
    + rewrite drop_app_le by lia. rewrite take_app_le by (rewrite length_drop; lia).
      rewrite skipn_firstn_comm, take_take. f_equal. lia.
    + rewrite drop_app_ge by lia. rewrite drop_app_ge by lia. rewrite drop_drop. do 2 f_equal. lia.
Qed.

#[export] Instance image_data_dec (data : list Z) : Decision (length data = 512%nat ∧ Forall is_u8 data).
Proof. apply _. Defined.

Definition im_write (b : Z) (data : list Z) (d : image) : bool * image :=
  match decide (length data = 512%nat ∧ Forall is_u8 data) with
  | left H =>
      if (0 <=? b) && (b <? im_total (im_bytes d)) then
        (true, Image (fwrite (im_bytes d) (512 * b) data) (fwrite_u8 _ _ _ (im_ok d) (proj2 H)))
      else (false, d)
  | right _ => (false, d)
  end.

#[export] Instance image_dev : BlockDevice image := {
  block_size _ := 512;
  total_blocks d := im_total (im_bytes d);
  read_block b d := (if (0 <=? b) && (b <? im_total (im_bytes d))
                     then Some (im_block (im_bytes d) b) else None, d);
  write_block := im_write
}.

Lemma im_block_ok bs b : Forall is_u8 bs → 0 ≤ b < im_total bs →
  length (im_block bs b) = 512%nat ∧ Forall is_u8 (im_block bs b).
Proof.
  intros Hu Hb. unfold im_block, im_total in *. destruct (Z.ltb_spec b 0); [lia|].
  split; [|by apply Forall_take, Forall_drop]. rewrite length_take, length_drop.
  pose proof (Z.div_mod (Z.of_nat (length bs)) 512). pose proof (Z.mod_pos_bound (Z.of_nat (length bs)) 512). lia.
Qed.

Lemma im_total_fwrite bs b data :
  0 ≤ b < im_total bs → length data = 512%nat → im_total (fwrite bs (512 * b) data) = im_total bs.
Proof.
  intros Hb Hd. unfold im_total in *.
  pose proof (Z.div_mod (Z.of_nat (length bs)) 512). pose proof (Z.mod_pos_bound (Z.of_nat (length bs)) 512).
  by rewrite length_fwrite by lia.
Qed.

Lemma im_write_spec (d : image) b data ok d' :
  write_block b data d = (ok, d') → Z.of_nat (length data) = block_size d → Forall is_u8 data →
  (∀ b', b' ≠ b → im_block (im_bytes d') b' = im_block (im_bytes d) b') ∧ block_size d' = block_size d ∧
  total_blocks d' = total_blocks d ∧ (True → True) ∧
  (ok = true → 0 ≤ b < total_blocks d ∧ im_block (im_bytes d') b = data) ∧
  (True → 0 ≤ b < total_blocks d → ok = true).
Proof.
  intros E Hl Hu. simpl in E, Hl |- *. unfold im_write in E.
  destruct (decide _) as [H|H]; [|destruct H; split; [lia|done]].
  destruct (Z.leb_spec 0 b), (Z.ltb_spec b (im_total (im_bytes d))); simpl in E; simplify_eq/=;
    try (split_and!; naive_solver lia).
  split_and!; try done.
  - intros b' Hb'. rewrite im_block_fwrite by (done || lia). by rewrite decide_False.
  - by rewrite im_total_fwrite by (done || lia).
  - intros _. split; [lia|]. rewrite im_block_fwrite by (done || lia). by rewrite decide_True.
Qed.

#[export] Instance image_spec : BlockDeviceSpec image.
Proof.
  refine {| contents := λ d b, im_block (im_bytes d) b; healthy := λ _, True;
            write_block_spec := im_write_spec |}.
  - intros d b Hb. destruct (im_block_ok (im_bytes d) b (im_ok d) Hb). simpl. split; [lia|done].
  - intros d b r d' E. simpl in E |- *. injection E as <- <-.
    destruct (Z.leb_spec 0 b), (Z.ltb_spec b (im_total (im_bytes d))); simpl; split_and!;
      try done; naive_solver lia.
Defined.

(** ** Proof rules for computations of the tool *)
Definition truns {A : Type} (m : tool A) (h : host) (Q : option A → host → Prop) : Prop :=
  returns (m h) (λ '(r, h'), Q r h').

Lemma truns_bind {A B : Type} (m : tool A) (k : A → tool B) (h : host) (Q : option B → host → Prop) :
  truns m h (λ r h', match r with Some a => truns (k a) h' Q | None => Q None h' end) →
  truns (tbind m k) h Q.
Proof.
  unfold truns, tbind. intros H. apply returns_bind. eapply returns_mono; [exact H|].
  intros [[a|] h']; done.
Qed.

Lemma truns_mono {A : Type} (m : tool A) (h : host) (P Q : option A → host → Prop) :
  truns m h P → (∀ r h', P r h' → Q r h') → truns m h Q.
Proof. unfold truns. intros H HPQ. eapply returns_mono; [exact H|]. intros [r h']. apply HPQ. Qed.

Lemma truns_lift {A B : Type} (m : outcome A) (k : A → tool B) (h : host) (Q : option B → host → Prop) :
  returns m (λ a, truns (k a) h Q) → truns (tbind (tlift m) k) h Q.
Proof. unfold truns, tbind, tlift. by destruct m. Qed.

(** A computation whose result is known. *)
Lemma truns_step {A B : Type} (m : tool A) (k : A → tool B) (h : host) (a : A) (h' : host) (Q : option B → host → Prop) :
  m h = Done (Some a, h') → truns (k a) h' Q → truns (tbind m k) h Q.
Proof. unfold truns, tbind. intros ->. done. Qed.

Lemma truns_for {S R : Type} (Inv : Z → S → host → Prop) (Q : option R → host → Prop)
    (body : Z → S → tool (S + R)) (lo hi : Z) (s : S) (h : host) :
  lo ≤ hi → Inv lo s h →
  (∀ (i : Z) (s : S) (h : host), lo ≤ i < hi → Inv i s h → truns (body i s) h (λ r h', match r with
     | Some (inl s') => Inv (i + 1) s' h'
     | Some (inr x) => Q (Some x) h'
     | None => Q None h'
     end)) →
  truns (tfor lo hi body s) h (λ r h', match r with
    | Some (inl s') => Inv hi s' h'
    | Some (inr x) => Q (Some x) h'
    | None => Q None h'
    end).
Proof.
  intros Hle H0 Hb. unfold truns, tfor. apply returns_bind.
  eapply returns_mono; [apply (for_loop_inv (λ i '(s, h), Inv i s h) (λ '(r, h), Q r h));
    [done|done|]|].
  - intros i [s1 h1] Hi HI. apply returns_bind.
    eapply returns_mono; [by apply (Hb i s1 h1)|]. intros [[[s2|x]|] h2]; done.
  - intros [[s2 h2]|[[x|] h2]]; done.
Qed.

(** ** Transfers *)
Section transfers.
Context (disk : list Z) (h0 : host) (t : tfs_t).
Hypothesis Hstart : startblock t = 0.

(** The host with the image [d]. *)
Definition with_image (d : image) : host := <[disk := im_bytes d]> h0.

Lemma host_file_image d : host_file disk (with_image d) = im_bytes d.
Proof. unfold host_file, with_image. by rewrite lookup_insert_eq. Qed.

Lemma vblock_image d b : vblock t d b = im_block (im_bytes d) b.
Proof. unfold vblock. by rewrite Hstart. Qed.

Lemma block_offset b : 0 ≤ b < 2 ^ 22 → s32 (s32 b * TFS_BLOCK_SIZE) = 512 * b.
Proof.
  intros Hb. unfold TFS_BLOCK_SIZE. rewrite (s32_id b) by (unfold is_s32; lia).
  rewrite s32_id by (unfold is_s32; lia). lia.
Qed.

Lemma image_read d data b :
  0 ≤ b < im_total (im_bytes d) → im_total (im_bytes d) ≤ 2 ^ 22 → length data = 512%nat →
  tool_read_block disk data b (with_image d) = Done (Some (vblock t d b), with_image d).
Proof.
  intros Hb Hmax Hl. unfold tool_read_block. rewrite block_offset by lia.
  destruct (Z.ltb_spec (512 * b) 0); [lia|]. rewrite host_file_image, vblock_image.
  destruct (im_block_ok (im_bytes d) b (im_ok d) Hb) as [Hbl _].
  unfold fread, im_block in *. destruct (Z.ltb_spec b 0); [lia|]. cbn [fst].
  rewrite Hbl, (drop_ge data) by lia. by rewrite app_nil_r.
Qed.

Lemma image_write d data b :
  0 ≤ b < im_total (im_bytes d) → im_total (im_bytes d) ≤ 2 ^ 22 → is_block data →
  ∃ d', tool_write_block disk (Some data) b (with_image d) = Done (Some (), with_image d') ∧
    wrote d b data d'.
Proof.
  intros Hb Hmax [Hl Hu]. unfold tool_write_block. rewrite block_offset by lia.
  destruct (Z.ltb_spec (512 * b) 0); [lia|]. rewrite host_file_image.
  destruct (write_block b data d) as [ok d'] eqn:E.
  destruct (im_write_spec d b data ok d' E) as (Ho & _ & Htot & _ & Hat & Hok); [simpl; lia|done|].
  specialize (Hok I Hb). subst ok. exists d'. split; [|by constructor; simpl; auto; apply Hat].
  simpl in E. unfold im_write in E. destruct (decide _); [|done].
  destruct ((0 <=? b) && (b <? im_total (im_bytes d))); simplify_eq/=.
  unfold with_image. simpl. by rewrite insert_insert_eq.
Qed.
End transfers.

(** ** Bitmaps in network byte order *)
Section bitmaps.
Context (en : endian).

Lemma ntohl_htonl w : is_u32 w → ntohl en (htonl en w) = w.
Proof. unfold ntohl, htonl. destruct en; [done|]. apply swap32_involutive. Qed.
Lemma htonl_ntohl w : is_u32 w → htonl en (ntohl en w) = w.
Proof. unfold ntohl, htonl. destruct en; [done|]. apply swap32_involutive. Qed.
Lemma htonl_u32 w : is_u32 w → is_u32 (htonl en w).
Proof. unfold htonl. destruct en; [done|]. intros _. apply swap32_range. Qed.

Lemma htonl_bytes w : is_u32 w → bytes_of_u32 en (htonl en w) = bytes_of_u32 Big w.
Proof.
  intros Hw. unfold htonl. destruct en; [done|]. unfold to_big_endian32, bytes_of_u32, swap32.
  apply le_bytes_num; [apply Forall_reverse, le_bytes_u8|].
  by rewrite length_reverse, length_le_bytes.
Qed.

(** The bitmap of a block on the host, from the one of the big-endian machine. *)
Definition host_words (kws : list Z) : list Z := htonl en <$> kws.

Lemma host_words_block bs : is_block bs → block_words en bs = host_words (block_words Big bs).
Proof.
  intros [Hl Hu]. unfold block_words, host_words.
  assert (H : ∀ n (bs : list Z), length bs = (4 * n)%nat → Forall is_u8 bs →
    words_of en n bs = htonl en <$> words_of Big n bs).
  { clear. intros n. induction n as [|n IH]; intros bs Hl Hu; [done|]. cbn [words_of fmap list_fmap].
    assert (H4 : length (take 4 bs) = 4%nat) by (rewrite length_take; lia).
    assert (Hu4 : Forall is_u8 (take 4 bs)) by (by apply Forall_take).
    rewrite <- (from_big_endian32_native en (take 4 bs)) by done.
    change (from_big_endian32 en) with (ntohl en).
    rewrite htonl_ntohl by (by apply u32_of_bytes_range).
    f_equal. apply IH; [rewrite length_drop; lia|by apply Forall_drop]. }
  apply (H 128%nat); [lia|done].
Qed.

Lemma host_words_bytes kws : Forall is_u32 kws → block_bytes en (host_words kws) = block_bytes Big kws.
Proof.
  unfold block_bytes, host_words. induction 1 as [|w kws Hw _ IH]; [done|].
  cbn [fmap list_fmap concat]. unfold fmap in *. by rewrite IH, htonl_bytes.
Qed.

Lemma host_get_spec kws p :
  Forall is_u32 kws → 0 ≤ p → host_bitmap_get en (host_words kws) p = bitmap_get kws p.
Proof.
  intros Hu Hp. unfold host_bitmap_get, bitmap_get. destruct (Z.ltb_spec p 0); [lia|].
  rewrite kassert_bind by lia. unfold aread, host_words. destruct (p `quot` 32 <? 0); [done|].
  rewrite list_lookup_fmap. destruct (kws !! Z.to_nat (p `quot` 32)) as [w|] eqn:E; [|done]. simpl.
  rewrite Forall_lookup in Hu. by rewrite ntohl_htonl by (by eapply Hu).
Qed.

Lemma host_set_spec (kws : list Z) (p v : Z) (kws' : list Z) (h : host) :
  Forall is_u32 kws → 0 ≤ p → v = 0 ∨ v = 1 → bitmap_set kws p v = Done kws' →
  host_bitmap_set en (host_words kws) p v h = Done (Some (host_words kws'), h).
Proof.
  intros Hu Hp Hv. unfold host_bitmap_set, bitmap_set. destruct (Z.ltb_spec p 0); [lia|].
  rewrite kassert_bind by lia. unfold aread, awrite, host_words, tlift.
  destruct (p `quot` 32 <? 0); [by destruct Hv as [-> | ->]|].
  rewrite list_lookup_fmap. destruct (kws !! Z.to_nat (p `quot` 32)) as [w|] eqn:E;
    [|by destruct Hv as [-> | ->]].
  simpl. rewrite Forall_lookup in Hu. rewrite ntohl_htonl, length_fmap by (by eapply Hu).
  destruct Hv as [-> | ->]; simpl; destruct (_ && _); try done; simpl; intros [= <-];
    by rewrite list_fmap_insert.
Qed.

Lemma host_findnset_spec (kws : list Z) (l : Z) (h : host) :
  bitmap_ok kws l → truns (host_bitmap_findnset en (host_words kws) l) h (λ r h',
    h' = h ∧ ∃ b kws', r = Some (b, host_words kws') ∧ findnset_post kws l (b, kws')).
Proof.
  intros Hok. pose proof Hok as (Hu & Hl & _). unfold host_bitmap_findnset. apply truns_bind.
  eapply truns_mono; [apply (truns_for
    (λ i _ h', h' = h ∧ ∀ p, 0 ≤ p < i → bit kws p = true)
    (λ r h', h' = h ∧ ∃ b kws', r = Some (b, host_words kws') ∧ findnset_post kws l (b, kws')))|].
  - lia.
  - split; [done|lia].
  - intros i [] h' Hi [-> Hset]. apply truns_lift. rewrite host_get_spec by (done || lia).
    rewrite (bitmap_get_spec _ _ Hok) by lia. cbn [returns].
    destruct (bit kws i) eqn:Eb; cbn [Z.b2z Z.eqb].
    + cbn. split; [done|]. intros p Hp. destruct (decide (p = i)) as [->|]; [done|]. apply Hset. lia.
    + destruct (bitmap_set_spec _ _ Hok i 1) as (kws' & E & Hlen & Hwu & Hbit); [lia|by right|].
      eapply truns_step; [eapply host_set_spec; [done|lia|by right|exact E]|].
      cbn. split; [done|]. exists i, kws'. split; [done|]. right. split_and!; try done; lia.
  - intros [[[]|[b kws']]|] h'; cbn.
    + intros [-> Hset]. split; [done|]. exists (-1), kws. split; [done|]. left. done.
    + intros [-> ?]. done.
    + intros [-> (b & kws' & [=] & _)].
Qed.
End bitmaps.
