(* ===== verification/TfsToolOps.v ===== *)
(** * The operations of the TFS tool on a well-formed image

    What the directory scans, the copying loops and the release of blocks do on
    the image of a volume that [fs_rep] describes. *)

From S2P Require Import Prelude Bitmap Libc BlockDev Tfs TfsSpec TfsRead TfsIO TfsAlloc TfsCreate TfsLock TfsView TfsTool TfsImage.

(** ** Names *)

(** A name as the array of 16 bytes the tool passes around. *)
Definition name16 (n : list Z) : list Z := n ++ replicate (16 - length n) 0.

Lemma name16_cstr n : name_ok n → cstr (name16 n) n.
Proof.
  intros (_ & Hl & _ & H0). split; [done|]. unfold name16.
  destruct (16 - length n)%nat as [|k] eqn:E; [lia|]. by exists (replicate k 0).
Qed.

Lemma name16_length n : (length n ≤ 16)%nat → length (name16 n) = 16%nat.
Proof. intros Hl. unfold name16. rewrite length_app, length_replicate. lia. Qed.

Lemma strncmp_eq k : ∀ a b s1 s2, cstr a s1 → cstr b s2 → (length s1 < k)%nat →
  returns (strncmp a b k) (λ r, r = 0 ↔ s1 = s2).
Proof.
  induction k as [|k IH]; intros a b s1 s2 H1 H2 Hk; [lia|].
  destruct a as [|x a]; [by apply cstr_not_nil in H1|].
  destruct b as [|y b]; [by apply cstr_not_nil in H2|]. cbn [strncmp].
  destruct (cstr_uncons _ _ _ H1) as [[-> ->]|(Hx & s1' & -> & H1')];
    destruct (cstr_uncons _ _ _ H2) as [[-> ->]|(Hy & s2' & -> & H2')]; simpl in Hk.
  - done.
  - destruct (Z.eqb_spec 0 y); [done|]. cbn [negb returns]. split; [lia|done].
  - destruct (Z.eqb_spec x 0); [done|]. cbn [negb returns]. split; [lia|done].
  - destruct (Z.eqb_spec x y) as [->|Hne]; cbn [negb].
    + destruct (Z.eqb_spec y 0); [done|]. eapply returns_mono; [apply (IH _ _ _ _ H1' H2'); lia|].
      intros r Hr. rewrite Hr. split; [by intros ->|by intros [=]].
    + cbn. split; [lia|]. by intros [=].
Qed.

Lemma strncpy_spec k : ∀ mem s, cstr mem s → (length s < k)%nat →
  strncpy mem k = Done (s ++ replicate (k - length s) 0).
Proof.
  induction k as [|k IH]; intros mem s Hc Hk; [lia|].
  destruct mem as [|c mem]; [by apply cstr_not_nil in Hc|]. cbn [strncpy].
  destruct (cstr_uncons _ _ _ Hc) as [[-> ->]|(Hx & s' & -> & Hc')]; simpl in Hk.
  - done.
  - destruct (Z.eqb_spec c 0); [done|]. rewrite (IH _ _ Hc') by lia. done.
Qed.

Section ops.
Context (en : endian).

(** ** Words in network byte order *)
Lemma htonl_zero w : is_u32 w → (htonl en w =? 0) = (w =? 0).
Proof.
  intros Hw. destruct (Z.eqb_spec w 0) as [->|H]; [by destruct en|]. apply Z.eqb_neq. intros E.
  apply H. rewrite <- (ntohl_htonl en w Hw), E. by destruct en.
Qed.

Lemma load32_u32 (bs : list Z) off w : Forall is_u8 bs → load32 Big bs off = Done w → is_u32 w.
Proof.
  intros Hu. unfold load32. destruct (_ && _) eqn:E; [|done]. intros [= <-].
  apply andb_true_iff in E as [?%Z.leb_le ?%Z.leb_le].
  apply (u32_of_bytes_range Big); [by apply Forall_take, Forall_drop|].
  rewrite length_take, length_drop. lia.
Qed.

Lemma host_load bs off w : Forall is_u8 bs → load32 Big bs off = Done w →
  load32 en bs off = Done (htonl en w) ∧ ntohl en (htonl en w) = w ∧ is_u32 w.
Proof.
  intros Hu Hw. pose proof (load32_u32 bs off w Hu Hw) as Hw32. split_and!; [|by apply ntohl_htonl|done].
  unfold load32 in *. destruct (_ && _) eqn:E; [|done]. apply andb_true_iff in E as [?%Z.leb_le ?%Z.leb_le].
  assert (w = u32_of_bytes Big (take 4 (drop (Z.to_nat off) bs))) as -> by congruence.
  f_equal. rewrite <- (from_big_endian32_native en).
  - symmetry. apply htonl_ntohl, u32_of_bytes_range; [by apply Forall_take, Forall_drop|].
    rewrite length_take, length_drop. lia.
  - by apply Forall_take, Forall_drop.
  - rewrite length_take, length_drop. lia.
Qed.

Lemma host_store bs off v : is_u32 v → store32 en bs off (htonl en v) = store32 Big bs off v.
Proof. intros Hv. unfold store32. by rewrite htonl_bytes. Qed.

(** ** Directory scans *)
Lemma tool_find_spec md dir n :
  md_rep md dir → name_ok n → tool_find md (name16 n) = Done ((Z.of_nat ∘ fst) <$> dir_lookup dir n).
Proof.
  intros Hmd Hn. pose proof Hmd as (_ & Hdl & Hfo & Hs). unfold tool_find, dir_lookup.
  rewrite (for_loop_find (λ o, slot_name o = n) (λ i, i) dir); [|done|].
  { destruct (list_find _ dir) as [[i o]|]; done. }
  intros i o Ho.
  assert (Hc : cstr (entry_name md (Z.of_nat i)) (slot_name o) ∧ (length (slot_name o) < 16)%nat).
  { specialize (Hs i o Ho). destruct o as [f|]; [|split; [apply Hs|simpl; lia]].
    split; [apply Hs|]. destruct (fo_name _ (Hfo _ _ Ho)) as (_ & Hl & _). simpl. lia. }
  destruct Hc as [Hc Hl].
  pose proof (strncmp_eq 16 _ _ _ _ Hc (name16_cstr n Hn) Hl) as Hr.
  apply returns_inv in Hr as (r & -> & Hr). cbn [outcome_bind].
  destruct (Z.eqb_spec r 0); case_decide; try done; exfalso; naive_solver.
Qed.

Lemma write_scan_spec (t : tfs_t) (d : image) dir n :
  fs_rep t d dir → name_ok n →
  returns (write_scan en (vblock t d TFS_DIRECTORY_BLOCK) (name16 n)) (λ r,
    match r with
    | None => dir_lookup dir n ≠ None
    | Some idx => dir_lookup dir n = None ∧
        ((idx = -1 ∧ None ∉ dir) ∨ (0 ≤ idx ∧ dir !! Z.to_nat idx = Some None))
    end).
Proof.
  intros Hr Hn. pose proof (fs_rep_md _ _ _ Hr) as Hmd.
  pose proof Hmd as ([Hml Hmu] & Hlen & Hfo & Hs). change TFS_MAX_FILES with 25 in Hlen.
  unfold write_scan. apply returns_bind.
  eapply returns_mono; [apply (for_loop_inv
    (λ i idx, (∀ j o, (j < Z.to_nat i)%nat → dir !! j = Some o → slot_name o ≠ n) ∧
      ((idx = -1 ∧ ∀ j o, (j < Z.to_nat i)%nat → dir !! j = Some o → o ≠ None) ∨
       (0 ≤ idx ∧ dir !! Z.to_nat idx = Some None)))
    (λ _, ∃ i o, dir !! i = Some o ∧ slot_name o = n))|].
  - done.
  - split; [lia|]. left. split; [done|lia].
  - intros i idx Hi [Hnm Hix].
    destruct (slot_inode _ _ _ i Hr Hi) as (o & w & Ho & Hw & _ & Hz & Hc).
    destruct (host_load _ _ w Hmu Hw) as (-> & _ & Hw32). cbn [outcome_bind].
    rewrite htonl_zero, Hz by done. apply returns_bind.
    eapply returns_mono; [eapply (strncmp_eq 16 _ _ _ _ Hc (name16_cstr n Hn))|].
    { destruct o as [f|]; [|simpl; lia]. destruct (fo_name _ (Hfo _ _ Ho)) as (_ & ? & _). simpl. lia. }
    intros r Hrr. destruct (Z.eqb_spec r 0) as [E|E]; [cbn [returns]; naive_solver|].
    assert (Hnm' : ∀ j o', (j < Z.to_nat (i + 1))%nat → dir !! j = Some o' → slot_name o' ≠ n).
    { intros j o' Hj Hj'. destruct (decide (j = Z.to_nat i)) as [->|].
      - simplify_eq. by rewrite <- Hrr.
      - eapply Hnm; [|done]. lia. }
    cbn [returns]. split; [done|]. destruct o as [f|]; cbn [andb].
    2:{ right. destruct Hix as [[-> _]|[Hpos Hix]]; [rewrite Z.eqb_refl; split; [lia|done]|].
        by destruct (Z.eqb_spec idx (-1)); [lia|]. }
    + destruct Hix as [[-> Hfull]|?]; [left|by right]. split; [done|].
      intros j o' Hj Hj'. destruct (decide (j = Z.to_nat i)) as [->|]; [by simplify_eq|].
      eapply Hfull; [|done]. lia.
  - intros [idx|[]]; simpl.
    + intros [Hnm Hix]. split.
      * apply list_find_None, Forall_lookup. intros j o Hj. eapply Hnm; [|done].
        apply lookup_lt_Some in Hj. change TFS_MAX_FILES with 25. lia.
      * destruct Hix as [[-> Hfull]|?]; [left|by right]. split; [done|].
        intros (j & Hj)%list_elem_of_lookup. eapply Hfull; [|done|done].
        apply lookup_lt_Some in Hj. change TFS_MAX_FILES with 25. lia.
    + intros (i & o & Hi & Ho) Hnone. apply list_find_None in Hnone.
      rewrite Forall_lookup in Hnone. by eapply Hnone.
Qed.

(** ** Copying a file into the volume *)

(** The inode of a file of size 0 with the blocks [bl], one block more. *)
Lemma inode_append ib bl v :
  is_block ib → inode_rep ib (File [] 0 0 bl) → (length bl < 127)%nat → is_u32 v →
  ∃ ib', store32 Big ib (4 + 4 * Z.of_nat (length bl)) v = Done ib' ∧ is_block ib' ∧
    inode_rep ib' (File [] 0 0 (bl ++ [v])).
Proof.
  intros [Hl Hu] [Hs Hb] Hlen Hv. simpl in Hs, Hb.
  destruct (store32 Big ib (4 + 4 * Z.of_nat (length bl)) v) as [ib'| | | |] eqn:E;
    try (rewrite store32_in_range in E by lia; done).
  exists ib'. pose proof (store32_length _ _ _ _ _ E) as Hl'.
  split_and!; [done|split; [by rewrite Hl'|by eapply store32_u8]|]. split; simpl.
  - rewrite (load_store32_other _ _ _ _ _ 0 E) by lia. done.
  - intros j Hj. destruct (decide (Z.to_nat j = length bl)) as [Ej|Hne].
    + rewrite Ej, lookup_app_r, Nat.sub_diag by lia. simpl. replace j with (Z.of_nat (length bl)) by lia.
      by eapply load_store32_same.
    + rewrite (load_store32_other _ _ _ _ _ _ E) by lia. rewrite Hb by done. do 2 f_equal.
      destruct (decide (Z.to_nat j < length bl)%nat).
      * by rewrite lookup_app_l.
      * rewrite !lookup_ge_None_2; [done|rewrite length_app; simpl; lia|lia].
Qed.

Lemma empty_inode : is_block EMPTY_BLOCK ∧ inode_rep EMPTY_BLOCK (File [] 0 0 []).
Proof.
  assert (Hb : is_block EMPTY_BLOCK).
  { split; [done|]. apply Forall_replicate. unfold is_u8. lia. }
  split; [done|]. split; [done|]. intros j Hj. cbn [f_blocks]. rewrite lookup_nil. simpl.
  rewrite load32_in_range by (change (length EMPTY_BLOCK) with 512%nat; lia). f_equal. unfold EMPTY_BLOCK.
  rewrite drop_replicate, take_replicate, Nat.min_l by lia. done.
Qed.

Section volume.
Context (disk : list Z) (h0 : host) (t : tfs_t).
Hypothesis Hstart : startblock t = 0.

(** An image that is as long as the volume. *)
Definition volume (d : image) : Prop := geometry t d ∧ im_total (im_bytes d) = totalblocks t.

Lemma volume_total d : volume d → 3 ≤ totalblocks t ≤ 4096 ∧ im_total (im_bytes d) = totalblocks t.
Proof. intros [Hg Ht]. pose proof (g_total _ _ Hg). unfold TFS_BLOCK_SIZE in *. lia. Qed.

Lemma volume_read d data b :
  volume d → 0 ≤ b < totalblocks t → length data = 512%nat →
  tool_read_block disk data b (with_image disk h0 d) = Done (Some (vblock t d b), with_image disk h0 d).
Proof.
  intros Hv Hb Hl. destruct (volume_total d Hv) as [? ?]. apply image_read; [done|lia|lia|done].
Qed.

Lemma volume_write d data b :
  volume d → 0 ≤ b < totalblocks t → is_block data →
  ∃ d', tool_write_block disk (Some data) b (with_image disk h0 d) = Done (Some (), with_image disk h0 d') ∧
    volume d' ∧ ∀ b', vblock t d' b' = if decide (b' = b) then data else vblock t d b'.
Proof.
  intros Hv Hb Hl. destruct (volume_total d Hv) as [? ?].
  destruct (image_write disk h0 d data b) as (d' & E & Hw); [lia|lia|done|].
  exists d'. split_and!; [done| |].
  - destruct Hv as [Hg Ht]. split; [by eapply geometry_wrote|].
    rewrite <- Ht. apply (wr_total _ _ _ _ Hw).
  - intros b'. assert (Hw' : wrote d (startblock t + b) data d') by (by rewrite Hstart).
    apply (vblock_wrote t _ _ _ _ b' Hw').
Qed.

(** The copy so far: the blocks [bl] are allocated on top of [l], stored in the
    inode, and nothing else of the image has changed. *)
Record copied (l : list Z) (d : image) (kws inode bl : list Z) (d' : image) : Prop := {
  cp_volume : volume d';
  cp_frame : ∀ b, b ∉ bl → vblock t d' b = vblock t d b;
  cp_words : Forall is_u32 kws ∧ length kws = 128%nat;
  cp_bat : bat_rep (totalblocks t) (block_bytes Big kws) (l ++ bl);
  cp_inode : is_block inode ∧ inode_rep inode (File [] 0 0 bl);
  cp_length : (length bl ≤ 127)%nat
}.

Definition blocks_data (d : image) (bl : list Z) : list Z := concat (vblock t d <$> bl).

Lemma copied_alloc l d kws inode bl d' b kws' :
  copied l d kws inode bl d' → findnset_post kws (totalblocks t) (b, kws') →
  (b = -1 ∧ Z.of_nat (length (l ++ bl)) = totalblocks t ∧ block_bytes Big kws' = block_bytes Big kws) ∨
  (0 ≤ b < totalblocks t ∧ b ∉ l ++ bl ∧ bat_rep (totalblocks t) (block_bytes Big kws') (l ++ bl ++ [b])).
Proof.
  intros [Hv _ [Hu Hl] Hbat _ _] Hp. destruct (volume_total _ Hv).
  rewrite <- (block_words_of_bytes kws Hl Hu) in Hp.
  destruct (findnset_alloc _ _ _ _ _ Hbat ltac:(lia) Hp) as [?|(? & ? & ?)]; [by left|right].
  by rewrite (assoc_L (++)).
Qed.

Lemma findnset_words kws l b kws' :
  Forall is_u32 kws ∧ length kws = 128%nat → findnset_post kws l (b, kws') →
  Forall is_u32 kws' ∧ length kws' = 128%nat.
Proof. intros [Hu Hl] [(-> & -> & _)|(_ & _ & _ & ? & ? & _)]; split; done || lia. Qed.

(** One more block. *)
Lemma copied_snoc l d kws inode bl d' b kws' data :
  copied l d kws inode bl d' → (length bl < 127)%nat → is_block data →
  Forall is_u32 kws' ∧ length kws' = 128%nat → 0 ≤ b < totalblocks t → b ∉ l ++ bl →
  bat_rep (totalblocks t) (block_bytes Big kws') (l ++ bl ++ [b]) →
  ∃ d2 inode',
    tool_write_block disk (Some data) b (with_image disk h0 d') = Done (Some (), with_image disk h0 d2) ∧
    store32 en inode (4 + 4 * Z.of_nat (length bl)) (htonl en b) = Done inode' ∧
    copied l d kws' inode' (bl ++ [b]) d2 ∧ blocks_data d2 (bl ++ [b]) = blocks_data d' bl ++ data.
Proof.
  intros [Hv Hf Hw Hbat [Hib Hir] Hlen] Hlt Hd Hw' Hb Hnb Hbat'.
  destruct (volume_total _ Hv) as [Htot _].
  destruct (volume_write d' data b Hv Hb Hd) as (d2 & E & Hv2 & Hb2).
  assert (Hb32 : is_u32 b) by (unfold is_u32; lia).
  destruct (inode_append inode bl b Hib Hir Hlt Hb32) as (ib' & E' & Hib' & Hir').
  exists d2, ib'. rewrite host_store by done. split_and!; [done|done| |].
  - split; try done; [|rewrite length_app; simpl; lia].
    intros b' Hb'. rewrite not_elem_of_app, not_elem_of_cons in Hb'. destruct Hb' as (? & ? & _).
    rewrite Hb2, decide_False by done. by apply Hf.
  - unfold blocks_data. rewrite fmap_app, concat_app. cbn [fmap list_fmap concat]. rewrite Hb2, decide_True, app_nil_r by done.
    f_equal. f_equal. apply list_fmap_ext. intros k x Hx. rewrite Hb2, decide_False; [done|].
    intros ->. apply Hnb, elem_of_app. right. by eapply list_elem_of_lookup_2.
Qed.

(** How the copy of [s] ends: at the largest size, at the end of [s], or when
    no block is free. *)
Definition copy_ends (s l bl : list Z) (d' : image) (filesize : Z) (ok : bool) : Prop :=
  let k := Z.of_nat (length bl) in
  let n := Z.of_nat (length s) in
  (ok = true ∧ filesize = 65024 ∧ 65024 ≤ n ∧ k = 127 ∧ blocks_data d' bl = take (Z.to_nat 65024) s) ∨
  (ok = true ∧ filesize = n ∧ 512 * (k - 1) ≤ n < 512 * k ∧ n < 65024 ∧
   take (length s) (blocks_data d' bl) = s) ∨
  (ok = false ∧ filesize = 512 * k ∧ 512 * k ≤ n ∧ k < 127 ∧ Z.of_nat (length (l ++ bl)) = totalblocks t).

Lemma write_copy_spec source s l d kws inode junk :
  source ≠ disk → host_file source h0 = s → Forall is_u8 s → is_block junk →
  copied l d kws inode [] d → l ≠ [] → (∀ b, 0 ≤ b ≤ 2 → b ∈ l) →
  truns (write_copy en disk source (totalblocks t) (host_words en kws, inode, junk, 0, true))
    (with_image disk h0 d) (λ r h', ∃ kws' inode' data filesize ok bl d',
      r = Some (host_words en kws', inode', data, filesize, ok) ∧ h' = with_image disk h0 d' ∧
      copied l d kws' inode' bl d' ∧ copy_ends s l bl d' filesize ok).
Proof.
  intros Hne Hsrc Hsu Hj Hcp Hl Hsys. destruct (volume_total d (cp_volume _ _ _ _ _ _ Hcp)) as [Htot _].
  assert (Hfile : ∀ d, host_file source (with_image disk h0 d) = s).
  { intros d1. unfold host_file, with_image. by rewrite lookup_insert_ne. }
  unfold write_copy. apply truns_bind.
  eapply truns_mono; [apply (truns_for
    (λ i st h', ∃ kws' inode' data bl d', st = (host_words en kws', inode', data, 512 * i, true) ∧
       h' = with_image disk h0 d' ∧ copied l d kws' inode' bl d' ∧ Z.of_nat (length bl) = i ∧
       512 * i ≤ Z.of_nat (length s) ∧ is_block data ∧ blocks_data d' bl = take (512 * length bl) s)
    (λ r h', ∃ kws' inode' data filesize ok bl d',
      r = Some (host_words en kws', inode', data, filesize, ok) ∧ h' = with_image disk h0 d' ∧
      copied l d kws' inode' bl d' ∧ copy_ends s l bl d' filesize ok))|].
  - lia.
  - exists kws, inode, junk, [], d. split_and!; try done; lia.
  - intros i st h' Hi (kws1 & inode1 & data1 & bl & d1 & -> & -> & Hc & Hlb & Hn & Hd & Hdata).
    pose proof (cp_length _ _ _ _ _ _ Hc) as Hl127. change TFS_MAX_FILESIZE with 65024.
    destruct (Z.ltb_spec (512 * i) 65024) as [Hlt|Hge]; cbn [negb].
    2:{ assert (length bl = 127%nat) as E by lia. cbn. exists kws1, inode1, data1, (512 * i), true, bl, d1.
        split_and!; try done. left. rewrite E in Hdata. split_and!; done || lia. }
    apply truns_bind. rewrite s32_id by (unfold is_s32; lia).
    eapply truns_mono; [apply host_findnset_spec|].
    { destruct (cp_words _ _ _ _ _ _ Hc) as [Hu Hk]. unfold bitmap_ok. split_and!; [done|lia..]. }
    intros r h' (-> & b & kws2 & -> & Hpost).
    pose proof (findnset_words _ _ _ _ (cp_words _ _ _ _ _ _ Hc) Hpost) as Hw2.
    destruct (copied_alloc _ _ _ _ _ _ _ _ Hc Hpost) as [(-> & Hfull & _)|(Hb & Hnb & Hbat)].
    { unfold data_block. change (u32 (-1)) with 4294967295.
      destruct (Z.ltb_spec 4294967295 (totalblocks t)); [lia|]. rewrite andb_false_r.
      cbn [truns tret returns]. exists kws2, inode1, data1, (512 * i), false, bl, d1. split_and!; try done; [|].
      - destruct Hc as [? ? ? ? ? ?]. destruct Hpost as [(_ & -> & _)|[? _]]; [done|lia].
      - right. right. split_and!; try done; lia. }
    assert (Hb2 : 2 < b).
    { destruct (decide (b ≤ 2)); [|lia]. exfalso. apply Hnb, elem_of_app. left. apply Hsys. lia. }
    rewrite u32_id by (unfold is_u32; lia). unfold data_block.
    destruct (Z.ltb_spec 2 b), (Z.ltb_spec b (totalblocks t)); try lia. cbn [andb].
    set (got := take 512 (drop (Z.to_nat (512 * i)) s)).
    assert (Hgl : length got = Z.to_nat (Z.min 512 (Z.of_nat (length s) - 512 * i)))
      by (unfold got; rewrite length_take, length_drop; lia).
    set (data2 := got ++ drop (length got) data1).
    assert (Hd2 : is_block data2).
    { destruct Hd as [Hdl Hdu]. unfold data2, got. split.
      - rewrite length_app, length_drop. fold got. lia.
      - apply Forall_app. split; [by apply Forall_take, Forall_drop|by apply Forall_drop]. }
    destruct (copied_snoc _ _ _ _ _ _ b kws2 data2 Hc ltac:(lia) Hd2 Hw2 Hb Hnb Hbat)
      as (d2 & inode2 & Ew & Est & Hc2 & Hdata2).
    eapply (truns_step _ _ _ (data2, Z.of_nat (length got))); [unfold fread; by rewrite Hfile|].
    cbv beta iota. eapply truns_step; [exact Ew|]. cbv beta.
    rewrite Hlb in Est. rewrite Est. apply truns_lift. cbn [returns].
    rewrite u32_id by (unfold is_u32; lia). change TFS_BLOCK_SIZE with 512.
    assert (Hall : blocks_data d2 (bl ++ [b]) = take (512 * S (length bl)) s ++ drop (length got) data1).
    { rewrite Hdata2, Hdata. unfold data2. rewrite (assoc_L (++)). f_equal. unfold got.
      replace (Z.to_nat (512 * i)) with (512 * length bl)%nat by lia.
      rewrite <- take_plus. f_equal. lia. }
    destruct (Z.ltb_spec (Z.of_nat (length got)) 512); cbn [truns tret returns].
    + exists kws2, inode2, data2, (512 * i + Z.of_nat (length got)), true, (bl ++ [b]), d2.
      split_and!; try done. right. left. rewrite length_app. simpl length.
      split_and!; [done|lia|lia|lia|lia|]. rewrite Hall, (take_ge s) by lia. apply take_app_length.
    + exists kws2, inode2, data2, (bl ++ [b]), d2. rewrite length_app. simpl length.
      split_and!; try done; [f_equal; f_equal; lia|lia|lia|].
      rewrite Hall, (drop_ge data1), app_nil_r by (destruct Hd; lia). f_equal. lia.
  - intros [[st|st]|] h'; cbn.
    + intros (kws1 & inode1 & data1 & bl & d1 & -> & -> & Hc & Hlb & _). exfalso.
      pose proof (bat_rep_length _ _ _ (cp_bat _ _ _ _ _ _ Hc)) as Hlen.
      rewrite length_app in Hlen. destruct l; [done|]. simpl in Hlen. lia.
    + done.
    + intros (? & ? & ? & ? & ? & ? & ? & [=] & _).
Qed.

(** A change outside the blocks in use is no change of the volume. *)
Lemma fs_rep_frame d d' dir :
  fs_rep t d dir → volume d' → (∀ b, b ∈ used dir → vblock t d' b = vblock t d b) → fs_rep t d' dir.
Proof.
  intros Hr [Hg _] Hv. apply fs_rep_intro; [done|apply Hr|..].
  - rewrite Hv by (right; right; by left). by apply fs_rep_md.
  - apply (do_names _ _ (r_dir _ _ _ Hr)).
  - intros i f Hi. rewrite Hv; [by eapply (r_inodes _ _ _ Hr)|]. apply elem_of_app. right.
    apply elem_of_concat. exists i, (file_used f). split; [by rewrite list_lookup_fmap, Hi|by left].
  - rewrite Hv by (right; by left). by apply fs_rep_bat.
Qed.

(** The directory block with a new name. *)
Lemma tool_set_slot md dir i (f : file) :
  md_rep md dir → (i < length dir)%nat → file_ok f → is_u32 (f_inode f) →
  ∃ md1 md', store32 en md (inode_off (Z.of_nat i)) (htonl en (f_inode f)) = Done md1 ∧
    memcpy md1 (name_off (Z.of_nat i)) (name16 (f_name f)) TFS_FILENAME_MAX = Done md' ∧
    md_rep md' (<[i := Some f]> dir).
Proof.
  intros Hmd Hi Hf Hino. pose proof Hmd as ([Hl Hu] & Hdl & _ & _).
  assert (Hi25 : (i < 25)%nat) by (change TFS_MAX_FILES with 25 in Hdl; lia).
  pose proof (fo_name _ Hf) as Hn. pose proof Hn as (_ & Hn15 & Hnu & Hn0).
  rewrite host_store by done. unfold inode_off, name_off, sizeof_direntry, TFS_FILENAME_MAX.
  destruct (store32 Big md (20 * Z.of_nat i) (f_inode f)) as [md1| | | |] eqn:Est;
    try (rewrite store32_in_range in Est by lia; done).
  pose proof (store32_length _ _ _ _ _ Est) as Hl1. pose proof (store32_u8 _ _ _ _ _ Est Hu) as Hu1.
  pose proof (name16_length (f_name f) ltac:(lia)) as Hnl.
  set (o := Z.to_nat (20 * Z.of_nat i + 4)). assert (Ho : o = (20 * i + 4)%nat) by lia.
  set (md2 := take o md1 ++ name16 (f_name f) ++ drop (o + 16) md1).
  assert (Ho1 : length (take o md1) = o) by (rewrite length_take; lia).
  exists md1, md2. split_and!; [done| |].
  { unfold memcpy. rewrite Hnl, Hl1, Hl. destruct (Z.leb_spec 16 (Z.of_nat 16)); [|lia].
    destruct (Z.leb_spec (20 * Z.of_nat i + 4 + 16) (Z.of_nat 512)); [|lia]. cbn [andb].
    rewrite (take_ge (name16 _)) by lia. unfold md2. do 4 f_equal. lia. }
  assert (Hl2 : length md2 = length md1).
  { unfold md2. rewrite !length_app, Ho1, Hnl, length_drop. lia. }
  assert (Hout : ∀ k, (k < o ∨ o + 16 ≤ k)%nat → md2 !! k = md1 !! k).
  { intros k Hk. unfold md2. destruct (decide (k < o)%nat).
    - rewrite lookup_app_l by lia. by rewrite lookup_take_lt.
    - rewrite lookup_app_r by lia. rewrite lookup_app_r by lia. rewrite lookup_drop. f_equal. lia. }
  apply (md_rep_update md); [done|done|..].
  - split; [lia|]. unfold md2. rewrite !Forall_app. split_and!; [by apply Forall_take| |by apply Forall_drop].
    unfold name16. apply Forall_app. split; [done|]. apply Forall_replicate. unfold is_u8. lia.
  - unfold slot_rep, inode_off, entry_name, name_off, sizeof_direntry. split.
    + rewrite (load32_ext Big _ md1); [by eapply load_store32_same|lia|lia|]. intros k Hk. apply Hout. lia.
    + fold o. unfold md2. rewrite drop_app_length' by lia.
      destruct (name16_cstr _ Hn) as [H0 [rest E]]. split; [done|]. rewrite E, <- (assoc_L (++)). by eexists.
  - by intros g [= <-].
  - intros k Hk. rewrite Hout by lia. eapply store32_lookup_other; [exact Est|lia].
Qed.

(** The inode with its size. *)
Lemma inode_sized ib n ino bl size :
  is_block ib → inode_rep ib (File [] 0 0 bl) → is_u32 size →
  ∃ ib', store32 en ib 0 (htonl en size) = Done ib' ∧ is_block ib' ∧ inode_rep ib' (File n ino size bl).
Proof.
  intros [Hl Hu] [_ Hb] Hs. simpl in Hb. rewrite host_store by done.
  destruct (store32 Big ib 0 size) as [ib'| | | |] eqn:E;
    try (rewrite store32_in_range in E by lia; done).
  exists ib'. pose proof (store32_length _ _ _ _ _ E) as Hl'.
  split_and!; [done|split; [by rewrite Hl'|by eapply store32_u8]|]. split; simpl.
  - by eapply load_store32_same.
  - intros j Hj. rewrite (load_store32_other _ _ _ _ _ _ E) by lia. by apply Hb.
Qed.
End volume.
End ops.
