(* ===== verification/TfsToolCmds.v ===== *)
(** * The commands of the TFS tool on a well-formed image

    [tfstool_write], [tfstool_delete], [tfstool_read], [tfstool_list] and
    [tfstool_createvol]: what each does to the volume in the image. *)


From S2P Require Import Prelude Bitmap Libc BlockDev Tfs TfsSpec TfsRead TfsIO TfsAlloc.
From S2P Require Import TfsCreate TfsLock TfsView TfsTool TfsImage TfsToolOps.

(** ** [tfstool_write] on a well-formed image *)

Section write.
Context (en : endian) (disk : list Z) (h0 : host) (t : tfs_t).
Hypothesis Hstart : startblock t = 0.
Notation host_of := (with_image disk h0).

(** The last part of [tfstool_write]: inode, directory and allocation block. *)
Definition write_commit (index ino filesize : Z) (bat inode md target : list Z) : tool unit :=
  do inode <- tlift (store32 en inode 0 (htonl en filesize));
  do _ <- tool_write_block disk (Some inode) ino;
  do md <- tlift (store32 en md (inode_off index) (htonl en ino));
  do name <- tlift (strncpy target 16);
  do md <- tlift (memcpy md (name_off index) name TFS_FILENAME_MAX);
  do _ <- tool_write_block disk (Some md) TFS_DIRECTORY_BLOCK;
  tool_write_block disk (Some (block_bytes en bat)) TFS_ALLOCATION_BLOCK.

(** What a successful write leaves. *)
Definition written (d : image) (dir : directory) (n s : list Z) (d' : image) : Prop :=
  ∃ i ino bl, dir !! i = Some None ∧
    let f := File n ino (Z.of_nat (length s)) bl in
    fs_rep t d' (<[i := Some f]> dir) ∧ file_data t d' f = s ∧
    vblock t d' 0 = vblock t d 0 ∧ ∀ b, b ∈ used dir → 3 ≤ b → vblock t d' b = vblock t d b.

Lemma write_commit_spec d dir i ino bl kws inode d1 n s :
  fs_rep t d dir → dir !! i = Some None → dir_lookup dir n = None → name_ok n →
  copied t (used dir ++ [ino]) d kws inode bl d1 → 3 ≤ ino < totalblocks t →
  Z.of_nat (length bl) = blocks_for (Z.of_nat (length s)) →
  take (length s) (blocks_data t d1 bl) = s →
  truns (write_commit (Z.of_nat i) ino (Z.of_nat (length s)) (host_words en kws) inode
    (vblock t d TFS_DIRECTORY_BLOCK) (name16 n)) (host_of d1) (λ r h', r = Some () ∧
    ∃ d', h' = host_of d' ∧ volume t d' ∧ written d dir n s d').
Proof.
  intros Hr Hi Hnew Hn [Hv1 Hfr [Hku Hkl] Hbat [Hib Hir] Hl127] Hino Hlen Hdata.
  destruct (volume_total t d1 Hv1) as [Htot _].
  assert (Hsz : Z.of_nat (length s) ≤ 65024).
  { unfold blocks_for in Hlen. pose proof (Z.div_mod (Z.of_nat (length s) + 511) 512).
    pose proof (Z.mod_pos_bound (Z.of_nat (length s) + 511) 512). lia. }
  set (f := File n ino (Z.of_nat (length s)) bl).
  assert (Hf : file_ok f) by (split; simpl; try done; lia).
  assert (Hino32 : is_u32 (f_inode f)) by (unfold is_u32; simpl; lia).
  destruct (inode_sized en inode n ino bl (Z.of_nat (length s)) Hib Hir) as (ib & Eib & Hibb & Hibr);
    [unfold is_u32; lia|].
  destruct (tool_set_slot en (vblock t d TFS_DIRECTORY_BLOCK) dir i f)
    as (md1 & md & Emd1 & Emd & Hmd); [by apply fs_rep_md|by eapply lookup_lt_Some|done|done|].
  change (f_inode f) with ino in Emd1. change (f_name f) with n in Emd.
  unfold write_commit. rewrite Eib. apply truns_lift. cbn [returns].
  destruct (volume_write disk h0 t Hstart d1 ib ino Hv1) as (d2 & E2 & Hv2 & Hb2); [lia|done|].
  eapply truns_step; [exact E2|]. cbv beta. rewrite Emd1. apply truns_lift. cbn [returns].
  rewrite (strncpy_spec 16 _ _ (name16_cstr n Hn)) by (destruct Hn as (_ & ? & _); lia).
  apply truns_lift. cbn [returns]. fold (name16 n). rewrite Emd. apply truns_lift. cbn [returns].
  unfold TFS_DIRECTORY_BLOCK, TFS_ALLOCATION_BLOCK.
  destruct (volume_write disk h0 t Hstart d2 md 2 Hv2) as (d3 & E3 & Hv3 & Hb3); [lia|apply Hmd|].
  eapply truns_step; [exact E3|]. cbv beta. rewrite host_words_bytes by done.
  destruct (volume_write disk h0 t Hstart d3 (block_bytes Big kws) 1 Hv3) as (d4 & E4 & Hv4 & Hb4);
    [lia|by apply block_bytes_block|].
  unfold truns. rewrite E4. cbn [returns]. split; [done|]. exists d4. split_and!; [done|done|].
  destruct (created_system t dir f (block_bytes Big kws) Hbat) as (H1 & H2 & H3).
  apply not_elem_of_cons in H1 as [H1 H1'], H2 as [H2 H2'].
  change (f_inode f) with ino in *. change (f_blocks f) with bl in *.
  assert (Hblk : created_blocks t d d4 f (vblock t d1) ib md (block_bytes Big kws)).
  { intros b. rewrite Hb4, Hb3, Hb2. unfold TFS_DIRECTORY_BLOCK, TFS_ALLOCATION_BLOCK.
    change (f_inode f) with ino. change (f_blocks f) with bl.
    destruct (decide (b ∈ bl)) as [Hin|Hni].
    - by rewrite !decide_False by (intros ->; done).
    - destruct (decide (b = ino)) as [->|]; [by rewrite !decide_False by done|].
      destruct (decide (b = 2)) as [->|]; [done|]. destruct (decide (b = 1)); [done|]. by apply Hfr. }
  exists i, ino, bl. split; [done|]. cbv zeta. fold f. split_and!.
  - eapply (created_rep t d d4 dir i f (vblock t d1)); try done; [apply Hv4|apply Hr].
  - rewrite (created_data t d d4 f (vblock t d1) ib md (block_bytes Big kws)) by done.
    simpl. by rewrite Nat2Z.id.
  - pose proof (created_fresh t dir f (block_bytes Big kws) Hbat 0 ltac:(by left)) as H0.
    apply not_elem_of_cons in H0 as [H0 H0'].
    rewrite Hblk. unfold TFS_DIRECTORY_BLOCK, TFS_ALLOCATION_BLOCK. by rewrite !decide_False by done.
  - apply (created_old t d d4 dir f (vblock t d1) ib md (block_bytes Big kws)); done.
Qed.

(** The length of a source file for which the tool does not take a block too many:
    it is not a multiple of the block size, or too long for one more block. *)
Definition exact_length (s : list Z) : Prop :=
  Z.of_nat (length s) mod 512 ≠ 0 ∨ 65024 ≤ Z.of_nat (length s).

(** What [tfstool_write] does: it writes the file if it can be created, and
    otherwise fails without a change of the volume. *)
Definition write_post (d : image) (dir : directory) (n s : list Z) (r : option unit) (h' : host) : Prop :=
  ∃ d', h' = host_of d' ∧ volume t d' ∧
    ((can_create (totalblocks t) dir n (Z.of_nat (length s)) ∧ r = Some () ∧ written d dir n s d') ∨
     (¬ can_create (totalblocks t) dir n (Z.of_nat (length s)) ∧ r = None ∧ fs_rep t d' dir ∧
      ∀ b, b ∈ used dir → vblock t d' b = vblock t d b)).

Lemma write_fails d dir n s d' :
  fs_rep t d dir → volume t d' → (∀ b, b ∈ used dir → vblock t d' b = vblock t d b) →
  ¬ can_create (totalblocks t) dir n (Z.of_nat (length s)) →
  truns (A := unit) tfail (host_of d') (write_post d dir n s).
Proof.
  intros Hr Hv Hf Hc. exists d'. split_and!; [done|done|]. right. split_and!; try done.
  by eapply fs_rep_frame.
Qed.

Lemma blocks_for_bounds n : 0 ≤ n → 512 * blocks_for n < n + 512 ∧ n ≤ 512 * blocks_for n.
Proof.
  intros Hn. unfold blocks_for. pose proof (Z.div_mod (n + 511) 512).
  pose proof (Z.mod_pos_bound (n + 511) 512). lia.
Qed.

(** After the copy: the file is complete, and the commit follows, or it fails. *)
Lemma write_finish d dir i ino n s kws inode filesize ok bl d1 :
  fs_rep t d dir → dir !! i = Some None → dir_lookup dir n = None → name_ok n → exact_length s →
  copied t (used dir ++ [ino]) d kws inode bl d1 → 3 ≤ ino < totalblocks t →
  copy_ends t s (used dir ++ [ino]) bl d1 filesize ok →
  truns (if negb (filesize =? Z.of_nat (length s)) then tfail
         else if ok then write_commit (Z.of_nat i) ino filesize (host_words en kws) inode
           (vblock t d TFS_DIRECTORY_BLOCK) (name16 n) else tfail)
    (host_of d1) (write_post d dir n s).
Proof.
  intros Hr Hi Hnew Hn Hex Hc Hino He. set (l := Z.of_nat (length s)) in *.
  pose proof (blocks_for_bounds l ltac:(lia)) as Hbf.
  assert (Hmod : l mod 512 = l - 512 * (l / 512)) by (rewrite Z.mod_eq; lia).
  assert (Hfr : ∀ b, b ∈ used dir → vblock t d1 b = vblock t d b).
  { intros b Hb. apply (cp_frame _ _ _ _ _ _ _ Hc). intros Hb'.
    pose proof (ba_nodup _ _ _ (cp_bat _ _ _ _ _ _ _ Hc)) as Hnd. apply NoDup_app in Hnd as (_ & Hd & _).
    apply (Hd b); [|done]. apply elem_of_app. by left. }
  pose proof (cp_volume _ _ _ _ _ _ _ Hc) as Hv. destruct (volume_total t d1 Hv) as [Htot _].
  assert (Hok : filesize = l → Z.of_nat (length bl) = blocks_for l → take (length s) (blocks_data t d1 bl) = s →
    truns (write_commit (Z.of_nat i) ino filesize (host_words en kws) inode
           (vblock t d TFS_DIRECTORY_BLOCK) (name16 n)) (host_of d1) (write_post d dir n s)).
  { intros -> Hbl Hd. eapply truns_mono; [by apply (write_commit_spec d dir i ino bl)|].
    intros r h' (-> & d' & -> & Hv' & Hw). exists d'. split_and!; [done|done|]. left. split_and!; [|done|done].
    split; [pose proof (cp_length _ _ _ _ _ _ _ Hc); fold l; lia|done|by eapply list_elem_of_lookup_2|].
    pose proof (bat_rep_length _ _ _ (cp_bat _ _ _ _ _ _ _ Hc) ltac:(lia)) as Hlen.
    rewrite !length_app in Hlen. cbn [length] in Hlen. fold l. lia. }
  destruct He as [(-> & -> & Hge & Hk & Hd)|[(-> & -> & Hk & Hlt & Hd)|(-> & -> & Hle & Hk & Hfull)]];
    fold l.
  - destruct (Z.eqb_spec 65024 l) as [E|E]; cbn [negb].
    + apply Hok; [done|lia|]. rewrite Hd, take_take, take_ge; [done|]. unfold l in E. lia.
    + eapply write_fails; try done. intros [Hs _ _ _]. fold l in Hs. lia.
  - rewrite Z.eqb_refl. cbn [negb]. apply Hok; [done| |done].
    destruct Hex as [Hex|Hex]; fold l in Hex; [|lia].
    assert (l ≠ 512 * (Z.of_nat (length bl) - 1)); [|lia].
    intros E. apply Hex. rewrite E, Z.mul_comm. apply Z.mod_mul. lia.
  - assert (Hn2 : 512 * Z.of_nat (length bl) ≠ l).
    { intros E. destruct Hex as [Hex|Hex]; fold l in Hex; [|lia]. apply Hex. rewrite <- E, Z.mul_comm.
      apply Z.mod_mul. lia. }
    destruct (Z.eqb_spec (512 * Z.of_nat (length bl)) l); [done|]. cbn [negb].
    eapply write_fails; try done. intros [_ _ _ Hs]. fold l in Hs.
    rewrite !length_app in Hfull. cbn [length] in Hfull. lia.
Qed.

Lemma openfile_image d : openfile_read disk (host_of d) = Done (Some (), host_of d).
Proof. unfold openfile_read, with_image. by rewrite lookup_insert_eq. Qed.

Lemma openfile_other f d : f ≠ disk → is_Some (h0 !! f) → openfile_read f (host_of d) = Done (Some (), host_of d).
Proof. intros Hf [x Hx]. unfold openfile_read, with_image. by rewrite lookup_insert_ne, Hx. Qed.

(** A source file that is not there. *)
Lemma tfstool_write_missing d source n16 junk :
  source ≠ disk → h0 !! source = None →
  tfstool_write en disk source n16 junk (host_of d) = Done (None, host_of d).
Proof.
  intros Hsd Hs. unfold tfstool_write, tbind at 1. rewrite openfile_image. cbn [outcome_bind].
  unfold tbind at 1, openfile_read at 1. unfold with_image at 1. by rewrite lookup_insert_ne, Hs.
Qed.

Lemma numblocks_image d :
  tfstool_numblocks disk (host_of d) = Done (Some (im_total (im_bytes d)), host_of d).
Proof. unfold tfstool_numblocks, tbind, getfilesize. cbn. by rewrite host_file_image. Qed.

Lemma system_used dir b : 0 ≤ b ≤ 2 → b ∈ used dir.
Proof.
  intros Hb. assert (b = 0 ∨ b = 1 ∨ b = 2) as [-> |[-> | -> ]] by lia;
    apply elem_of_app; left; set_solver.
Qed.

Lemma tfstool_write_spec d dir source s n junk :
  fs_rep t d dir → volume t d → source ≠ disk → h0 !! source = Some s → Forall is_u8 s →
  is_block junk → name_ok n → exact_length s →
  truns (tfstool_write en disk source (name16 n) junk) (host_of d) (write_post d dir n s).
Proof.
  intros Hr Hv Hsd Hs Hsu Hj Hn Hex. destruct (volume_total t d Hv) as [Htot Him].
  assert (Hfile : host_file source (host_of d) = s).
  { unfold host_file, with_image. by rewrite lookup_insert_ne, Hs. }
  unfold tfstool_write. eapply truns_step; [apply openfile_image|]. cbv beta.
  eapply truns_step; [apply openfile_other; [done|by rewrite Hs]|]. cbv beta.
  eapply truns_step; [unfold getfilesize; by rewrite Hfile|]. cbv beta.
  eapply truns_step; [apply (volume_read disk h0 t Hstart d junk TFS_DIRECTORY_BLOCK Hv);
    [unfold TFS_DIRECTORY_BLOCK; lia|apply Hj]|]. cbv beta.
  apply truns_lift. eapply returns_mono; [by apply (write_scan_spec en t d dir n)|].
  intros [idx|]; [|intros Hex'; eapply write_fails; try done; by intros [_ ? _ _]].
  intros [Hnew [[-> Hfull]|[Hpos Hi]]].
  { eapply write_fails; try done. by intros [_ _ ? _]. }
  destruct (Z.ltb_spec idx 0); [lia|].
  eapply truns_step; [apply (volume_read disk h0 t Hstart d junk TFS_ALLOCATION_BLOCK Hv);
    [unfold TFS_ALLOCATION_BLOCK; lia|apply Hj]|]. cbv beta.
  eapply truns_step; [apply numblocks_image|]. cbv beta zeta. rewrite Him.
  rewrite u32_id by (unfold is_u32; lia). rewrite s32_id by (unfold is_s32; lia).
  pose proof (fs_rep_bat _ _ _ Hr) as Hbat. set (bat := vblock t d TFS_ALLOCATION_BLOCK) in *.
  pose proof (ba_block _ _ _ Hbat) as [Hbl Hbu]. rewrite host_words_block by done.
  pose proof (block_bitmap_ok Big bat (totalblocks t) Hbl Hbu ltac:(lia)) as Hok.
  apply truns_bind. eapply truns_mono; [by apply host_findnset_spec|].
  intros r h' (-> & b & kws & -> & Hpost).
  pose proof (findnset_words (block_words Big bat) _ _ _
    (conj (proj1 Hok) (length_words_of _ _ _)) Hpost) as Hw.
  destruct (findnset_alloc _ _ _ _ _ Hbat ltac:(lia) Hpost) as [(-> & Hfull & _)|(Hb & Hnb & Hbat')].
  { unfold data_block. change (u32 (-1)) with 4294967295.
    destruct (Z.ltb_spec 4294967295 (totalblocks t)); [lia|]. rewrite andb_false_r.
    eapply write_fails; try done. intros [_ _ _ Hsp].
    pose proof (blocks_for_bounds (Z.of_nat (length s)) ltac:(lia)). lia. }
  assert (Hb2 : 2 < b).
  { destruct (decide (b ≤ 2)); [|lia]. exfalso. apply Hnb, system_used. lia. }
  rewrite u32_id by (unfold is_u32; lia). unfold data_block.
  destruct (Z.ltb_spec 2 b), (Z.ltb_spec b (totalblocks t)); try lia. cbn [andb].
  apply truns_bind. eapply truns_mono; [eapply (write_copy_spec en disk h0 t Hstart source s
    (used dir ++ [b]) d kws); [done|unfold host_file; by rewrite Hs|done|done| |by destruct (used dir)|]|].
  - split; [done|done|done|by rewrite app_nil_r|apply empty_inode|simpl; lia].
  - intros x Hx. apply elem_of_app. left. by apply system_used.
  - intros r h' (kws' & inode' & data & filesize & ok & bl & d' & -> & -> & Hc & He).
    cbv beta iota. rewrite <- (Z2Nat.id idx) by lia. eapply write_finish; try done. lia.
Qed.
End write.

(** ** [tfstool_delete], [tfstool_read] and [tfstool_list] on a well-formed image *)

Section read.
Context (en : endian) (disk : list Z) (h0 : host) (t : tfs_t).
Hypothesis Hstart : startblock t = 0.
Notation host_of := (with_image disk h0).

(** ** Deleting *)
Lemma host_free (total : Z) (kws : list Z) (p : Z) (l : list Z) (h : host) :
  Forall is_u32 kws ∧ length kws = 128%nat → 0 ≤ total ≤ 4096 →
  bat_rep total (block_bytes Big kws) (p :: l) →
  ∃ kws', host_bitmap_set en (host_words en kws) p 0 h = Done (Some (host_words en kws'), h) ∧
    (Forall is_u32 kws' ∧ length kws' = 128%nat) ∧ bat_rep total (block_bytes Big kws') l.
Proof.
  intros [Hu Hl] Ht Hbat. pose proof (ba_range _ _ _ Hbat) as Hrg. apply Forall_cons in Hrg as [Hp _].
  destruct (free_one _ _ _ _ Hbat Ht) as (ws & E & Hb'). rewrite block_words_of_bytes in E by done.
  assert (Hok : bitmap_ok kws total) by (unfold bitmap_ok; split_and!; [done|lia..]).
  destruct (bitmap_set_spec _ _ Hok p 0) as (ws' & E' & Hl' & Hu' & _); [lia|by left|].
  rewrite E in E'. injection E' as <-. exists ws. split_and!; [|done|lia|done].
  apply host_set_spec; [done|lia|by left|done].
Qed.

Lemma delete_free_spec (total : Z) (f : file) (ib kws rest : list Z) (h : host) :
  is_block ib → inode_rep ib f → (length (f_blocks f) ≤ 127)%nat → Forall (λ b, 3 ≤ b < total) (f_blocks f) →
  Forall is_u32 kws ∧ length kws = 128%nat → 0 ≤ total ≤ 4096 →
  bat_rep total (block_bytes Big kws) (f_blocks f ++ rest) →
  truns (delete_free en ib (host_words en kws)) h (λ r h', h' = h ∧ ∃ kws',
    r = Some (host_words en kws') ∧ (Forall is_u32 kws' ∧ length kws' = 128%nat) ∧
    bat_rep total (block_bytes Big kws') rest).
Proof.
  intros [Hil Hiu] [_ Hir] Hlen Hrg Hw Ht Hbat. unfold delete_free. apply truns_bind.
  eapply truns_mono; [apply (truns_for
    (λ i bat h', h' = h ∧ i ≤ Z.of_nat (length (f_blocks f)) ∧ ∃ kws', bat = host_words en kws' ∧
       (Forall is_u32 kws' ∧ length kws' = 128%nat) ∧
       bat_rep total (block_bytes Big kws') (drop (Z.to_nat i) (f_blocks f) ++ rest))
    (λ r h', h' = h ∧ ∃ kws', r = Some (host_words en kws') ∧
       (Forall is_u32 kws' ∧ length kws' = 128%nat) ∧ bat_rep total (block_bytes Big kws') rest))|].
  - done.
  - split_and!; [done|lia|]. by exists kws.
  - intros i bat h' Hi (-> & Hle & kws1 & -> & Hw1 & Hb1). change TFS_BLOCKS_MAX with 127 in Hi.
    destruct (host_load en ib _ _ Hiu (Hir i Hi)) as (-> & Hn & _). apply truns_lift. cbn [returns].
    rewrite Hn. destruct (f_blocks f !! Z.to_nat i) as [b|] eqn:Eb; cbn [default from_option id].
    + rewrite Forall_lookup in Hrg. pose proof (Hrg _ _ Eb) as Hb. destruct (Z.eqb_spec b 0); [lia|].
      rewrite s32_id by (unfold is_s32; lia). rewrite (drop_S _ _ _ Eb) in Hb1.
      destruct (host_free total kws1 b _ h Hw1 Ht Hb1) as (kws2 & E & Hw2 & Hb2).
      eapply truns_step; [exact E|]. cbn [truns tret returns].
      apply lookup_lt_Some in Eb. split_and!; [done|lia|]. exists kws2. split_and!; [done|apply Hw2|apply Hw2|].
      by replace (Z.to_nat (i + 1)) with (S (Z.to_nat i)) by lia.
    + apply lookup_ge_None in Eb. cbn [Z.eqb truns tret returns]. split; [done|]. exists kws1.
      rewrite drop_ge in Hb1 by lia. done.
  - intros [[bat|bat]|] h'; cbn.
    + intros (-> & Hle & kws1 & -> & Hw1 & Hb1). split; [done|]. exists kws1.
      rewrite drop_ge in Hb1 by (change TFS_BLOCKS_MAX with 127; lia). done.
    + done.
    + intros (_ & ? & [=] & _).
Qed.

Lemma tfstool_delete_spec d dir n :
  fs_rep t d dir → volume t d → name_ok n →
  truns (tfstool_delete en disk (name16 n)) (host_of d) (λ r h', ∃ d', h' = host_of d' ∧ volume t d' ∧
    (∀ b, b ≠ 1 → b ≠ 2 → vblock t d' b = vblock t d b) ∧
    match dir_lookup dir n with
    | Some (i, _) => r = Some () ∧ fs_rep t d' (<[i := None]> dir)
    | None => r = None ∧ fs_rep t d' dir
    end).
Proof.
  intros Hr Hv Hn. destruct (volume_total t d Hv) as [Htot Him].
  pose proof (fs_rep_md _ _ _ Hr) as Hmd. pose proof (fs_rep_bat _ _ _ Hr) as Hbat.
  assert (He : length EMPTY_BLOCK = 512%nat) by done.
  unfold tfstool_delete. eapply truns_step; [apply openfile_image|]. cbv beta.
  eapply truns_step; [apply (volume_read disk h0 t Hstart d EMPTY_BLOCK TFS_DIRECTORY_BLOCK Hv);
    [unfold TFS_DIRECTORY_BLOCK; lia|done]|]. cbv beta.
  rewrite (tool_find_spec _ dir n Hmd Hn). apply truns_lift. cbn [returns].
  destruct (dir_lookup dir n) as [[i o]|] eqn:El; cbn [fmap option_fmap option_map].
  2:{ exists d. split_and!; done. }
  destruct (dir_lookup_Some _ _ _ _ El (proj1 Hn)) as (f & -> & Hi & Hfn). cbn [compose fst].
  destruct (inode_range _ _ _ _ _ Hr Hi) as (Hino & Hbl & _).
  eapply truns_step; [apply (volume_read disk h0 t Hstart d EMPTY_BLOCK TFS_ALLOCATION_BLOCK Hv);
    [unfold TFS_ALLOCATION_BLOCK; lia|done]|]. cbv beta.
  destruct Hmd as ([Hml Hmu] & Hmd').
  assert (Hld : load32 Big (vblock t d TFS_DIRECTORY_BLOCK) (inode_off (Z.of_nat i)) = Done (f_inode f))
    by apply (r_slots _ _ _ Hr _ _ Hi).
  destruct (host_load en _ _ _ Hmu Hld) as (-> & Hnt & _). apply truns_lift. cbn [returns]. rewrite Hnt.
  cbv zeta. eapply truns_step; [apply (volume_read disk h0 t Hstart d EMPTY_BLOCK (f_inode f) Hv); [lia|done]|].
  cbv beta. set (bat := vblock t d TFS_ALLOCATION_BLOCK) in *.
  pose proof (ba_block _ _ _ Hbat) as [Hbatl Hbatu]. rewrite host_words_block by done.
  destruct (used_split dir i (Some f) Hi) as (rest & Hp & Hins).
  pose proof (block_bytes_words Big 128 bat Hbatl Hbatu) as Ebat. fold (block_words Big bat) in Ebat.
  assert (Hw : Forall is_u32 (block_words Big bat) ∧ length (block_words Big bat) = 128%nat)
    by (split; [by apply words_of_u32|apply length_words_of]).
  apply truns_bind. eapply truns_mono; [eapply (delete_free_spec (totalblocks t) f _ _ (f_inode f :: rest))|].
  - apply (vblock_ok t d (proj1 Hv)). lia.
  - by apply (r_inodes _ _ _ Hr i).
  - pose proof (do_files _ _ (r_dir _ _ _ Hr) _ _ Hi) as [_ _ ? ?]. lia.
  - done.
  - exact Hw.
  - lia.
  - rewrite Ebat. eapply bat_rep_perm; [|exact Hbat]. rewrite Hp. simpl. unfold file_used. solve_Permutation.
  - intros r h' (-> & kws1 & -> & Hw1 & Hb1). rewrite s32_id by (unfold is_s32; lia).
    destruct (host_free (totalblocks t) kws1 (f_inode f) rest (host_of d) Hw1 ltac:(lia) Hb1) as (kws2 & E2 & Hw2 & Hb2).
    eapply truns_step; [exact E2|]. cbv beta.
    destruct (clear_slot (vblock t d TFS_DIRECTORY_BLOCK) dir i) as (md' & Emd & Hmd2);
      [by apply fs_rep_md|by eapply lookup_lt_Some|].
    apply bind_Done_inv in Emd as (md1 & Emd1 & Emd).
    assert (Est : store32 en (vblock t d TFS_DIRECTORY_BLOCK) (inode_off (Z.of_nat i)) 0 = Done md1).
    { rewrite <- Emd1, <- (host_store en _ _ 0) by done. by destruct en. }
    rewrite Est. apply truns_lift. cbn [returns]. rewrite Emd. apply truns_lift. cbn [returns].
    rewrite host_words_bytes by apply Hw2. unfold TFS_DIRECTORY_BLOCK, TFS_ALLOCATION_BLOCK.
    destruct (volume_write disk h0 t Hstart d (block_bytes Big kws2) 1 Hv) as (d3 & E3 & Hv3 & Hb3);
      [lia|by apply block_bytes_block, Hw2|].
    eapply truns_step; [exact E3|]. cbv beta.
    destruct (volume_write disk h0 t Hstart d3 md' 2 Hv3) as (d4 & E4 & Hv4 & Hb4); [lia|apply Hmd2|].
    unfold truns. rewrite E4. cbn [returns]. exists d4.
    assert (Hb : ∀ b, vblock t d4 b = if decide (b = TFS_DIRECTORY_BLOCK) then md'
      else if decide (b = TFS_ALLOCATION_BLOCK) then block_bytes Big kws2 else vblock t d b).
    { intros b. rewrite Hb4, Hb3. done. }
    split_and!; [done|done| |done|].
    + intros b H1 H2. rewrite Hb. unfold TFS_DIRECTORY_BLOCK, TFS_ALLOCATION_BLOCK. by rewrite !decide_False.
    + eapply (removed_rep t t d d4); try done; [apply Hv4|apply Hr].
Qed.

(** ** Copying out *)

(** The host with the image [d] and the file [target]. *)
Definition host_with (target x : list Z) (d : image) : host := with_image disk (<[target := x]> h0) d.

Lemma append_target target x bytes d :
  target ≠ disk → append_file target bytes (host_with target x d) = Done (Some (), host_with target (x ++ bytes) d).
Proof.
  intros Hne. unfold append_file, host_with, with_image, host_file.
  rewrite lookup_insert_ne, lookup_insert_eq by done. cbn [default from_option id].
  do 2 f_equal. rewrite insert_insert_ne by done. by rewrite insert_insert_eq.
Qed.

Lemma read_copy_spec d dir i f target junk :
  fs_rep t d dir → volume t d → dir !! i = Some (Some f) → target ≠ disk → length junk = 512%nat →
  truns (read_copy en disk target (vblock t d (f_inode f)) junk (f_size f)) (host_with target [] d)
    (λ r h', r = Some (f_size f) ∧ h' = host_with target (file_data t d f) d).
Proof.
  intros Hr Hv Hi Hne Hj. pose proof (file_geometry t d dir i f Hr Hi) as (Hs0 & Hlen & Hmax & Hsz & _).
  destruct (volume_total t d Hv) as [Htot _].
  destruct (inode_range _ _ _ _ _ Hr Hi) as (Hino & Hbl & _).
  destruct (vblock_ok t d (proj1 Hv) (f_inode f) ltac:(lia)) as [Hil Hiu].
  destruct (r_inodes _ _ _ Hr _ _ Hi) as [_ Hir].
  set (F := file_blocks_data t d f). pose proof (data_length t d dir i f Hr Hi) as HF. fold F in HF.
  assert (Hgap : 512 * Z.of_nat (length (f_blocks f)) < f_size f + 512).
  { pose proof (Z.div_mod (f_size f + 511) 512). pose proof (Z.mod_pos_bound (f_size f + 511) 512). lia. }
  set (part := λ j, take (Z.to_nat (Z.min (512 * j) (f_size f))) F).
  assert (Hend : ∀ j, Z.of_nat (length (f_blocks f)) ≤ j →
    Z.min (512 * j) (f_size f) = f_size f ∧ part j = file_data t d f).
  { intros j Hle. assert (Z.min (512 * j) (f_size f) = f_size f) as E by lia. split; [done|].
    unfold part. by rewrite E. }
  unfold read_copy. apply truns_bind.
  eapply truns_mono; [apply (truns_for
    (λ j '(data, count) h', length data = 512%nat ∧ j ≤ Z.of_nat (length (f_blocks f)) ∧
       count = Z.min (512 * j) (f_size f) ∧ h' = host_with target (part j) d)
    (λ r h', r = Some (f_size f) ∧ h' = host_with target (file_data t d f) d))|].
  - done.
  - split_and!; [done|lia|lia|]. unfold part. by rewrite Z.min_l by lia.
  - intros j [data count] h' Hj2 (Hd & Hle & -> & ->). change TFS_BLOCKS_MAX with 127 in Hj2.
    destruct (host_load en _ _ _ Hiu (Hir j Hj2)) as (-> & Hn & _). apply truns_lift. cbn [returns].
    cbv zeta. rewrite Hn. destruct (f_blocks f !! Z.to_nat j) as [b|] eqn:Eb; cbn [default from_option id].
    2:{ apply lookup_ge_None in Eb. cbn [Z.eqb truns tret returns].
        destruct (Hend j ltac:(lia)) as [-> ->]. done. }
    pose proof (lookup_lt_Some _ _ _ Eb) as Hlt. rewrite Forall_lookup in Hbl. pose proof (Hbl _ _ Eb) as Hb.
    destruct (Z.eqb_spec b 0); [lia|].
    eapply truns_step; [apply (volume_read disk (<[target := part j]> h0) t Hstart d data b Hv); [lia|done]|].
    cbv beta. rewrite (Z.min_l (512 * j)) by lia. rewrite u32_id by (unfold is_u32; lia).
    change TFS_BLOCK_SIZE with 512.
    set (size := if 512 <? f_size f - 512 * j then 512 else f_size f - 512 * j).
    assert (Esize : size = Z.min 512 (f_size f - 512 * j))
      by (unfold size; destruct (Z.ltb_spec 512 (f_size f - 512 * j)); lia).
    eapply truns_step; [by apply append_target|]. cbn [truns tret returns].
    split_and!; [apply (vblock_ok t d (proj1 Hv)); lia|lia|lia|]. f_equal. unfold part.
    pose proof (data_in_block t d dir i f Hr Hi (Z.to_nat j) b 0 (Z.to_nat size) Eb ltac:(lia)) as Eblk.
    rewrite drop_0 in Eblk. rewrite <- Eblk. fold F. rewrite Z.min_l by lia. replace (512 * Z.to_nat j + 0)%nat with (Z.to_nat (512 * j)) by lia.
    rewrite <- take_plus. f_equal. lia.
  - intros [[[data count]|count]|] h'; cbn [truns tret returns].
    + intros (_ & Hle & -> & ->). destruct (Hend TFS_BLOCKS_MAX) as [-> ->]; [|done].
      change TFS_BLOCKS_MAX with 127 in *. lia.
    + intros [[= ->] ->]. done.
    + by intros [[=] _].
Qed.

(** The file goes to [target]; without such a file [target] is left empty. *)
Lemma tfstool_read_spec d dir n target junk :
  fs_rep t d dir → volume t d → name_ok n → target ≠ disk → length junk = 512%nat →
  truns (tfstool_read en disk (name16 n) target junk) (host_of d) (λ r h',
    match dir_lookup dir n with
    | Some (_, Some f) => r = Some (f_size f) ∧ h' = host_with target (file_data t d f) d
    | _ => r = None ∧ h' = host_with target [] d
    end).
Proof.
  intros Hr Hv Hn Hne Hj. destruct (volume_total t d Hv) as [Htot _].
  pose proof (fs_rep_md _ _ _ Hr) as Hmd.
  unfold tfstool_read. eapply truns_step; [apply openfile_image|]. cbv beta.
  eapply (truns_step _ _ _ () (host_with target [] d)).
  { unfold openfile_write, host_with, with_image. by rewrite insert_insert_ne by done. }
  cbv beta. eapply truns_step; [apply (volume_read disk _ t Hstart d junk TFS_DIRECTORY_BLOCK Hv);
    [unfold TFS_DIRECTORY_BLOCK; lia|done]|]. cbv beta.
  rewrite (tool_find_spec _ dir n Hmd Hn). apply truns_lift. cbn [returns].
  destruct (dir_lookup dir n) as [[i o]|] eqn:El; cbn [fmap option_fmap option_map]; [|done].
  destruct (dir_lookup_Some _ _ _ _ El (proj1 Hn)) as (f & -> & Hi & Hfn). cbn [compose fst].
  destruct (inode_range _ _ _ _ _ Hr Hi) as (Hino & Hbl & _).
  destruct Hmd as ([Hml Hmu] & _).
  assert (Hld : load32 Big (vblock t d TFS_DIRECTORY_BLOCK) (inode_off (Z.of_nat i)) = Done (f_inode f))
    by apply (r_slots _ _ _ Hr _ _ Hi).
  destruct (host_load en _ _ _ Hmu Hld) as (-> & Hnt & _). apply truns_lift. cbn [returns]. rewrite Hnt.
  eapply truns_step; [apply (volume_read disk _ t Hstart d junk (f_inode f) Hv); [lia|done]|]. cbv beta.
  destruct (vblock_ok t d (proj1 Hv) (f_inode f) ltac:(lia)) as [Hil Hiu].
  destruct (host_load en _ _ _ Hiu (filesize_load t d dir i f Hr Hi)) as (-> & Hns & _).
  apply truns_lift. cbn [returns]. rewrite Hns. by eapply read_copy_spec.
Qed.

(** ** Listing *)
Lemma list_blocks_spec (f : file) ib :
  is_block ib → inode_rep ib f → (length (f_blocks f) ≤ 127)%nat → 0 ∉ f_blocks f →
  returns (list_blocks en ib) (λ bs, bs = f_blocks f).
Proof.
  intros [Hil Hiu] [_ Hir] Hlen H0. unfold list_blocks. apply returns_bind.
  eapply returns_mono; [apply (for_loop_inv
    (λ j bs, j ≤ Z.of_nat (length (f_blocks f)) ∧ bs = take (Z.to_nat j) (f_blocks f))
    (λ bs, bs = f_blocks f))|].
  - done.
  - split; [lia|done].
  - intros j bs Hj [Hle ->]. change TFS_BLOCKS_MAX with 127 in Hj.
    destruct (host_load en ib _ _ Hiu (Hir j Hj)) as (-> & Hn & _). cbn [outcome_bind]. rewrite Hn.
    destruct (f_blocks f !! Z.to_nat j) as [b|] eqn:Eb; cbn [default from_option id].
    + destruct (Z.eqb_spec b 0) as [->|].
      { exfalso. by apply H0, (list_elem_of_lookup_2 _ (Z.to_nat j)). }
      cbn [returns]. pose proof (lookup_lt_Some _ _ _ Eb). split; [lia|].
      replace (Z.to_nat (j + 1)) with (S (Z.to_nat j)) by lia. by rewrite (take_S_r _ _ _ Eb).
    + apply lookup_ge_None in Eb. cbn [Z.eqb returns]. by apply take_ge.
  - intros [bs|bs]; cbn [returns]; [|done]. intros [Hle ->]. apply take_ge.
    change TFS_BLOCKS_MAX with 127 in *. lia.
Qed.

(** A row describes a file. *)
Definition shows (f : file) (r : row) : Prop :=
  row_inode r = f_inode f ∧ row_size r = f_size f ∧ cstr (row_name r) (f_name f) ∧
  row_blocks r = f_blocks f.

Lemma tfstool_list_spec d dir junk :
  fs_rep t d dir → volume t d → length junk = 512%nat →
  truns (tfstool_list en disk junk) (host_of d) (λ r h', h' = host_of d ∧ ∃ rows,
    r = Some (drop 4 (vblock t d TFS_HEADER_BLOCK), totalblocks t, rows) ∧ Forall2 shows (files dir) rows).
Proof.
  intros Hr Hv Hj. destruct (volume_total t d Hv) as [Htot Him].
  pose proof (fs_rep_md _ _ _ Hr) as ([Hml Hmu] & Hdl & _).
  unfold tfstool_list. eapply truns_step; [apply openfile_image|]. cbv beta.
  eapply truns_step; [apply (volume_read disk h0 t Hstart d junk TFS_HEADER_BLOCK Hv);
    [unfold TFS_HEADER_BLOCK; lia|done]|]. cbv beta.
  eapply truns_step; [apply (volume_read disk h0 t Hstart d junk TFS_DIRECTORY_BLOCK Hv);
    [unfold TFS_DIRECTORY_BLOCK; lia|done]|]. cbv beta.
  eapply truns_step; [apply numblocks_image|]. cbv beta. rewrite Him.
  apply truns_bind. eapply truns_mono; [apply (truns_for
    (λ i rows h', h' = host_of d ∧ Forall2 shows (files (take (Z.to_nat i) dir)) rows)
    (λ _ _, False))|].
  - done.
  - split; [done|constructor].
  - intros i rows h' Hi [-> HF].
    destruct (slot_inode _ _ _ i Hr Hi) as (o & w & Ho & Hw & Ew & Hz & Hc).
    destruct (host_load en _ _ _ Hmu Hw) as (-> & Hn & Hw32). apply truns_lift. cbn [returns].
    pose proof (htonl_zero en w Hw32) as Hz2. pose proof (htonl_u32 en w Hw32) as Hh.
    replace (Z.to_nat (i + 1)) with (S (Z.to_nat i)) by lia. rewrite (take_omap_snoc _ _ _ Ho).
    destruct o as [f|]; rewrite Hz in Hz2.
    + destruct (Z.ltb_spec 0 (htonl en w)).
      2:{ apply Z.eqb_neq in Hz2. unfold is_u32 in Hh. lia. }
      rewrite Hn, Ew. destruct (inode_range _ _ _ _ _ Hr Ho) as (Hino & Hbl & _).
      eapply truns_step; [apply (volume_read disk h0 t Hstart d junk (f_inode f) Hv); [lia|done]|]. cbv beta.
      destruct (vblock_ok t d (proj1 Hv) (f_inode f) ltac:(lia)) as [Hil Hiu].
      destruct (host_load en _ _ _ Hiu (filesize_load t d dir _ f Hr Ho)) as (-> & Hns & _).
      apply truns_lift. cbn [returns]. apply truns_lift.
      pose proof (file_geometry t d dir _ f Hr Ho) as (_ & _ & Hmax & _).
      eapply returns_mono; [apply (list_blocks_spec f); [done|by eapply (r_inodes _ _ _ Hr)|lia|]|].
      { intros H0. rewrite Forall_forall in Hbl. specialize (Hbl 0 H0). lia. }
      intros bs ->. cbn [truns tret returns]. split; [done|]. apply Forall2_app; [done|].
      constructor; [|constructor]. rewrite Hns. done.
    + apply Z.eqb_eq in Hz2. rewrite Hz2. cbn [Z.ltb Z.compare truns tret returns]. rewrite app_nil_r. done.
  - intros [[rows|[]]|] h'; cbn [truns tret returns]; try done. intros [-> HF]. split; [done|].
    exists rows. rewrite s32_id by (unfold is_s32; lia). split; [done|].
    rewrite take_ge in HF by (change TFS_MAX_FILES with 25 in *; lia). done.
Qed.
End read.

(** ** [tfstool_createvol]: the image of a fresh volume *)

(** The blocks of a fresh volume. *)
Definition fresh_header (volname : list Z) : list Z := bytes_of_u32 Big TFS_MAGIC ++ volname ++ replicate 492 0.
Definition fresh_bat : list Z := block_bytes Big (7 :: replicate 127 0).
Definition fresh_bytes (size : Z) (volname : list Z) : list Z :=
  fresh_header volname ++ fresh_bat ++ replicate (512 * Z.to_nat (size - 2)) 0.

Section create.
Context (en : endian) (disk : list Z) (h : host).

Lemma fwrite_end bs off data : off = Z.of_nat (length bs) → fwrite bs off data = bs ++ data.
Proof.
  intros ->. unfold fwrite. rewrite Nat2Z.id, Nat.sub_diag. cbn [replicate].
  by rewrite app_nil_r, firstn_all, drop_ge, app_nil_r by lia.
Qed.

(** Writing the next block of a growing image. *)
Lemma write_next bs data b :
  length bs = (512 * Z.to_nat b)%nat → 0 ≤ b < 2 ^ 22 →
  tool_write_block disk data b (<[disk := bs]> h) =
    Done (Some (), <[disk := bs ++ default EMPTY_BLOCK data]> h).
Proof.
  intros Hl Hb. unfold tool_write_block. rewrite block_offset by done.
  destruct (Z.ltb_spec (512 * b) 0); [lia|]. unfold host_file. rewrite lookup_insert_eq.
  cbn [default from_option id]. rewrite fwrite_end by lia. rewrite insert_insert_eq. by destruct data.
Qed.

Lemma zero_words (ws : list Z) : length ws = 128%nat → host_bitmap_init ws (8 * TFS_BLOCK_SIZE) = Done (replicate 128 0).
Proof.
  intros Hl. unfold host_bitmap_init. change ((8 * TFS_BLOCK_SIZE + 31) `quot` 32) with 128.
  assert (H : returns (for_each 0 128 (λ i bm, awrite bm i 0) ws) (λ bm, bm = replicate 128 0)).
  { eapply returns_mono; [apply (for_each_inv (λ i bm, length bm = 128%nat ∧
      take (Z.to_nat i) bm = replicate (Z.to_nat i) 0))|].
    - lia.
    - done.
    - intros i bm Hi [Hbl Ht]. rewrite awrite_in_range by lia. cbn [returns].
      rewrite length_insert. split; [done|]. replace (Z.to_nat (i + 1)) with (S (Z.to_nat i)) by lia.
      rewrite (take_S_r _ _ 0) by (by rewrite list_lookup_insert_eq by lia).
      rewrite take_insert_ge, Ht by lia. by rewrite replicate_S_end.
    - intros bm [Hbl Ht]. rewrite take_ge in Ht by (change (Z.to_nat 128) with 128%nat; lia). exact Ht. }
  apply returns_inv in H as (bm & -> & ->). done.
Qed.

Lemma fresh_bits (h' : host) :
  host_bitmap_set en (replicate 128 0) TFS_HEADER_BLOCK 1 h'
    = Done (Some (host_words en (1 :: replicate 127 0)), h') ∧
  host_bitmap_set en (host_words en (1 :: replicate 127 0)) TFS_ALLOCATION_BLOCK 1 h'
    = Done (Some (host_words en (3 :: replicate 127 0)), h') ∧
  host_bitmap_set en (host_words en (3 :: replicate 127 0)) TFS_DIRECTORY_BLOCK 1 h'
    = Done (Some (host_words en (7 :: replicate 127 0)), h').
Proof. destruct en; split_and!; reflexivity. Qed.

Lemma fresh_header_copy volname :
  length volname = 16%nat →
  memcpy (bytes_of_u32 Big TFS_MAGIC ++ replicate 508 0) 4 volname TFS_VOLNAME_MAX = Done (fresh_header volname).
Proof.
  intros Hl. unfold memcpy. rewrite Hl. cbn [Z.of_nat]. rewrite (take_ge volname) by (rewrite Hl; vm_compute; lia).
  reflexivity.
Qed.

Lemma createvol_spec size volname junk :
  h !! disk = None → 3 ≤ size ≤ 4096 → length volname = 16%nat → is_block junk →
  tfstool_createvol en disk size volname junk h = Done (Some (), <[disk := fresh_bytes size volname]> h).
Proof.
  intros Hnew Hs Hvl Hj.
  assert (E : truns (tfstool_createvol en disk size volname junk) h (λ r h', r = Some () ∧
    h' = <[disk := fresh_bytes size volname]> h)).
  2:{ apply returns_inv in E as ([r h'] & E & -> & ->). exact E. }
  unfold tfstool_createvol. rewrite zero_words by apply length_words_of. apply truns_lift. cbn [returns].
  eapply truns_step; [done|]. cbv beta. rewrite Hnew, bool_decide_false by (by intros []).
  destruct (Z.ltb_spec size 3); [lia|]. eapply truns_step; [done|]. cbv beta.
  rewrite htonl_bytes by (by vm_compute).
  change (memcpy EMPTY_BLOCK 0 (bytes_of_u32 Big TFS_MAGIC) 4) with
    (Done (bytes_of_u32 Big TFS_MAGIC ++ replicate 508 0)).
  apply truns_lift. cbn [returns]. rewrite fresh_header_copy by done. apply truns_lift. cbn [returns].
  eapply truns_step; [by apply write_next|]. cbv beta.
  cbn [default from_option id app]. set (h1 := <[disk := fresh_header volname]> h).
  destruct (fresh_bits h1) as (E1 & E2 & E3).
  eapply truns_step; [exact E1|]. cbv beta. eapply truns_step; [exact E2|]. cbv beta.
  eapply truns_step; [exact E3|]. cbv beta. rewrite host_words_bytes by (apply (bool_decide_unpack _); by vm_compute).
  change (memcpy EMPTY_BLOCK 0 (block_bytes Big (7 :: replicate 127 0)) TFS_BLOCK_SIZE) with (Done fresh_bat).
  apply truns_lift. cbn [returns]. unfold h1.
  assert (Hhl : length (fresh_header volname) = 512%nat).
  { unfold fresh_header. rewrite !length_app, Hvl. done. }
  eapply truns_step; [apply write_next; [by rewrite Hhl|by vm_compute]|]. cbv beta.
  eapply truns_step; [apply write_next; [rewrite length_app, Hhl; done|by vm_compute]|]. cbv beta.
  cbn [default from_option id].
  apply truns_bind. eapply truns_mono; [apply (truns_for
    (λ i _ h', h' = <[disk := fresh_bytes i volname]> h) (λ _ _, False))|].
  - lia.
  - unfold fresh_bytes. by rewrite (assoc_L (++)).
  - intros i [] h' Hi ->. eapply truns_step; [apply write_next; [|lia]|].
    + unfold fresh_bytes. rewrite !length_app, Hhl, length_replicate.
      change (length fresh_bat) with 512%nat. lia.
    + cbn [truns tret returns default from_option id]. f_equal. unfold fresh_bytes.
      rewrite <- !(assoc_L (++)). do 2 f_equal. unfold EMPTY_BLOCK. rewrite <- replicate_add. f_equal. lia.
  - intros [[[]|[]]|] h'; try done; intros ->; done.
Qed.
End create.

(** ** The fresh volume is well formed *)
Lemma empty_slot i : (i < 25)%nat → slot_rep EMPTY_BLOCK i None.
Proof.
  intros Hi. unfold slot_rep, inode_off, entry_name, name_off, sizeof_direntry, EMPTY_BLOCK. split.
  - rewrite load32_in_range by (change (length (replicate 512 0)) with 512%nat; lia).
    rewrite drop_replicate, take_replicate, Nat.min_l by lia. done.
  - split; [apply not_elem_of_nil|]. rewrite drop_replicate.
    destruct (512 - Z.to_nat (20 * Z.of_nat i + 4))%nat as [|k] eqn:E; [lia|]. by exists (replicate k 0).
Qed.

Lemma fresh_bit p : 0 ≤ p < 4096 → bit (block_words Big fresh_bat) p = bool_decide (p ∈ [0; 1; 2]).
Proof.
  intros Hp. unfold fresh_bat. rewrite block_words_of_bytes;
    [|done|apply (bool_decide_unpack _); by vm_compute].
  destruct (decide (p < 32)).
  - unfold bit. rewrite Z.div_small, Z.mod_small by lia. simpl.
    assert (Hall : Forall (λ k, Z.testbit 7 (Z.of_nat k) = bool_decide (Z.of_nat k ∈ [0; 1; 2])) (seq 0 32)).
    { apply (bool_decide_unpack _). by vm_compute. }
    rewrite Forall_forall in Hall. specialize (Hall (Z.to_nat p)).
    rewrite Z2Nat.id in Hall by lia. apply Hall, elem_of_seq. lia.
  - rewrite bool_decide_false by (rewrite !elem_of_cons, elem_of_nil; lia). unfold bit.
    assert (Hq : 1 ≤ p / 32 < 128).
    { split; [apply Z.div_le_lower_bound; lia|apply Z.div_lt_upper_bound; lia]. }
    destruct (Z.to_nat (p / 32)) as [|k] eqn:E; [lia|]. change ((7 :: replicate 127 0) !! S k) with ((replicate 127 0 : list Z) !! k).
    rewrite lookup_replicate_2 by lia. apply Z.testbit_0_l.
Qed.

Section fresh.
Context (size : Z) (volname : list Z) (d : image) (t : tfs_t).
Hypothesis Hs : 3 ≤ size ≤ 4096.
Hypothesis Hvl : length volname = 16%nat.
Hypothesis Hd : im_bytes d = fresh_bytes size volname.
Hypothesis Hstart : startblock t = 0.
Hypothesis Htotal : totalblocks t = size.
Hypothesis Hlock : lock t = 1.
Hypothesis Hbufs : bufs_ok t.

Lemma fresh_lengths : length (fresh_header volname) = 512%nat ∧ length fresh_bat = 512%nat.
Proof using Hvl. unfold fresh_header. rewrite !length_app, Hvl. done. Qed.

Lemma fresh_total : im_total (im_bytes d) = size.
Proof using Hs Hvl Hd.
  destruct fresh_lengths as [Hh Hb]. unfold im_total. rewrite Hd. unfold fresh_bytes.
  rewrite !length_app, Hh, Hb, length_replicate.
  replace (Z.of_nat (512 + (512 + 512 * Z.to_nat (size - 2)))) with (size * 512) by lia. apply Z.div_mul. lia.
Qed.

Lemma fresh_block b : 0 ≤ b < size → vblock t d b =
  if decide (b = 0) then fresh_header volname else if decide (b = 1) then fresh_bat else EMPTY_BLOCK.
Proof using Hs Hvl Hd Hstart Htotal.
  intros Hb. destruct fresh_lengths as [Hh Hba]. rewrite vblock_image by done. rewrite Hd.
  unfold im_block. destruct (Z.ltb_spec b 0); [lia|]. unfold fresh_bytes.
  case_decide; [subst; by rewrite drop_0, take_app_length'|].
  case_decide; [subst; by rewrite drop_app_length', take_app_length'|].
  rewrite drop_app_ge by lia. rewrite drop_app_ge by lia. rewrite drop_replicate, take_replicate.
  unfold EMPTY_BLOCK. f_equal. lia.
Qed.

Lemma fresh_geometry : geometry t d.
Proof using All.
  split; try done; rewrite ?Hstart, ?Htotal; [lia|unfold TFS_BLOCK_SIZE; lia| |]; simpl;
    rewrite fresh_total; lia.
Qed.

Lemma fresh_fs_rep : fs_rep t d (replicate 25 None) ∧ volume t d.
Proof using All.
  assert (Hno : ∀ i o, (replicate 25 None : directory) !! i = Some o → o = None ∧ (i < 25)%nat)
    by (intros i o [-> ?]%lookup_replicate; done).
  split; [|split; [apply fresh_geometry|by rewrite fresh_total]].
  constructor; [apply fresh_geometry|done|..].
  - split; [done|..].
    + by intros i f [? _]%Hno.
    + by intros i j f g [? _]%Hno.
    + rewrite Htotal. change (used (replicate 25 None)) with [0; 1; 2]. repeat constructor; lia.
    + apply (bool_decide_unpack _). by vm_compute.
  - intros i o [-> Hi]%Hno. rewrite fresh_block by (unfold TFS_DIRECTORY_BLOCK; lia). by apply empty_slot.
  - by intros i f [? _]%Hno.
  - intros p Hp. rewrite fresh_block by (unfold TFS_ALLOCATION_BLOCK; lia). apply fresh_bit. lia.
Qed.
End fresh.
