(* ===== verification/TfsToolProps.v ===== *)
(** * Properties of the TFS tool

    Any history of commands on an image refines the abstract file system, a fresh
    image is an empty volume, and the kernel mounts what the tool made. *)

From S2P Require Import Prelude Bitmap Libc BlockDev Tfs TfsSpec TfsRead TfsIO TfsAlloc TfsCreate TfsLock TfsView.
From S2P Require Import Vfs VfsSpec VfsInv VfsOps VfsTfs Filesystems FsProps TfsTool TfsImage TfsToolOps TfsToolCmds.

(** ** Images as abstract file systems *)

(** The driver state of a volume of [n] blocks at the start of a disk. *)
Definition vol (n : Z) : tfs_t := Tfs 0 n 1 EMPTY_BLOCK EMPTY_BLOCK EMPTY_BLOCK.

(** The image holds a volume of [n] blocks called [vn] with the files [m]. *)
Definition tool_image (n : Z) (vn : list Z) (d : image) (m : afs) : Prop :=
  stores n (vol n) d m ∧ volume (vol n) d ∧ im_block (im_bytes d) 0 = fresh_header (name16 vn).

Section refine.
Context (en : endian) (disk : list Z) (h0 : host) (n : Z).
Notation t := (vol n).

Lemma vol_block0 d d' : vblock t d' 0 = vblock t d 0 → im_block (im_bytes d') 0 = im_block (im_bytes d) 0.
Proof. by rewrite !(vblock_image t eq_refl). Qed.

Lemma tool_write_refines vn d m source s nm junk :
  tool_image n vn d m → source ≠ disk → h0 !! source = Some s → Forall is_u8 s →
  is_block junk → name_ok nm → exact_length s →
  let ok := afs_can_create n m nm (Z.of_nat (length s)) in
  truns (tfstool_write en disk source (name16 nm) junk) (with_image disk h0 d) (λ r h',
    r = (if ok then Some () else None) ∧ ∃ d', h' = with_image disk h0 d' ∧
    tool_image n vn d' (if ok then <[nm := s]> m else m)).
Proof.
  intros ((hh & dir & Hr & <- & _ & _) & Hv & H0) Hsd Hs Hsu Hj Hn Hex. pose proof (proj1 Hn) as Hne.
  eapply truns_mono; [by apply (tfstool_write_spec en disk h0 t eq_refl d dir source s nm junk)|].
  intros r h' (d' & -> & Hv' & Hcase).
  pose proof (can_create_view t d dir nm (Z.of_nat (length s)) Hr Hne) as Hcv. change (totalblocks t) with n in *.
  destruct Hcase as [(Hcc & -> & i & ino & bl & Hi & Hr' & Hd & Hb0 & Hother)|(Hcc & -> & Hr' & Hsame)].
  - rewrite (proj2 Hcv Hcc). split; [done|]. exists d'. split; [done|].
    set (f := File nm ino (Z.of_nat (length s)) bl) in *.
    assert (Hfi : <[i:=Some f]> dir !! i = Some (Some f))
      by (apply list_lookup_insert_eq; by eapply lookup_lt_Some).
    assert (Hsb : same_but nm dir (<[i:=Some f]> dir))
      by (eapply insert_same_but; [done|by right|by left]).
    split_and!; [|done|by rewrite (vol_block0 d d')].
    eexists _, (<[i:=Some f]> dir). split_and!; [done| |done|done].
    eapply (dir_map_ext _ _ n n); [apply Hr|apply Hr'|done|..].
    + intros j g Hj' _. by eapply file_data_other.
    + change nm with (f_name f). erewrite dir_map_lookup; [|apply Hr'|done]. by rewrite Hd.
  - destruct (afs_can_create _ _ _ _); [by destruct Hcc; apply Hcv|].
    split; [done|]. exists d'. split; [done|]. split_and!; [|done|].
    + eexists _, dir. split_and!; [done| |done|done]. apply dir_map_data. intros j g Hj'.
      eapply file_data_other; try done. auto.
    + rewrite (vol_block0 d d'); [done|]. apply Hsame. by left.
Qed.

Lemma tool_delete_refines vn d m nm :
  tool_image n vn d m → name_ok nm →
  truns (tfstool_delete en disk (name16 nm)) (with_image disk h0 d) (λ r h',
    r = (if m !! nm then Some () else None) ∧ ∃ d', h' = with_image disk h0 d' ∧
    tool_image n vn d' (delete nm m)).
Proof.
  intros ((hh & dir & Hr & <- & _ & _) & Hv & H0) Hn. pose proof (proj1 Hn) as Hne.
  eapply truns_mono; [by apply (tfstool_delete_spec en disk h0 t eq_refl d dir nm)|].
  intros r h' (d' & -> & Hv' & Hsame & Hcase).
  assert (Hdata : ∀ j g, dir !! j = Some (Some g) → file_data t d' g = file_data t d g).
  { intros j g Hj. eapply file_data_other; try done. intros b _ Hb. apply Hsame; lia. }
  assert (Hb0 : im_block (im_bytes d') 0 = fresh_header (name16 vn)) by (rewrite (vol_block0 d d'); auto).
  pose proof (dir_lookup_view n t d dir nm (r_dir _ _ _ Hr) Hne) as Hl.
  destruct (dir_lookup dir nm) as [[i o]|] eqn:El.
  - destruct Hl as (f & -> & Hi & Hfn & ->). destruct Hcase as [-> Hr']. split; [done|].
    exists d'. split; [done|]. split_and!; [|done|done].
    assert (Hsb : same_but nm dir (<[i:=None]> dir))
      by (eapply insert_same_but; [done|by left|by right]).
    eexists _, (<[i:=None]> dir). split_and!; [done| |done|done].
    eapply (dir_map_ext _ _ n n); [apply Hr|apply Hr'|done|by eauto|]. apply dir_map_None.
    intros j g Hj Hgn. destruct (decide (i = j)) as [<-|Hij].
    + rewrite list_lookup_insert_eq in Hj by (by eapply lookup_lt_Some). done.
    + rewrite list_lookup_insert_ne in Hj by done. apply Hij.
      eapply (do_names _ _ (r_dir _ _ _ Hr)); [exact Hi|exact Hj|congruence].
  - destruct Hcase as [-> Hr']. rewrite Hl. split; [done|]. exists d'. split; [done|].
    rewrite delete_id by done. split_and!; [|done|done].
    eexists _, dir. split_and!; [done|by apply dir_map_data|done|done].
Qed.

Lemma tool_read_refines vn d m nm target junk :
  tool_image n vn d m → name_ok nm → target ≠ disk → length junk = 512%nat →
  truns (tfstool_read en disk (name16 nm) target junk) (with_image disk h0 d) (λ r h',
    r = (λ data, Z.of_nat (length data)) <$> m !! nm ∧
    h' = with_image disk (<[target := default [] (m !! nm)]> h0) d).
Proof.
  intros ((hh & dir & Hr & <- & _ & _) & Hv & H0) Hn Ht Hj. pose proof (proj1 Hn) as Hne.
  eapply truns_mono; [by apply (tfstool_read_spec en disk h0 t eq_refl d dir nm target junk)|].
  intros r h' Hcase. pose proof (dir_lookup_view n t d dir nm (r_dir _ _ _ Hr) Hne) as Hl.
  destruct (dir_lookup dir nm) as [[i o]|] eqn:El.
  - destruct Hl as (f & -> & Hi & Hfn & ->). destruct Hcase as [-> ->]. split; [|done]. simpl. f_equal.
    symmetry. eapply file_data_length; done.
  - rewrite Hl. by destruct Hcase as [-> ->].
Qed.
End refine.

(** ** Command lines *)

(** An argument, a host file name. *)
Definition arg (s : list Z) : list Z := s ++ [0].
Definition host_name (s : list Z) : Prop := (length s < 4096)%nat ∧ 0 ∉ s.

Inductive cmd :=
| CWrite (source nm : list Z)
| CRead (nm target : list Z)
| CDelete (nm : list Z).

Definition argv_of (disk : list Z) (c : cmd) : list (list Z) :=
  match c with
  | CWrite source nm => [arg []; cmd_write; arg disk; arg source; arg nm]
  | CRead nm target => [arg []; cmd_read; arg disk; arg nm; arg target]
  | CDelete nm => [arg []; cmd_delete; arg disk; arg nm]
  end.

Lemma arg_cstr s : 0 ∉ s → cstr (arg s) s.
Proof. intros H0. split; [done|by eexists]. Qed.

Lemma cstring_spec mem s : cstr mem s → cstring mem = Done s.
Proof.
  revert s. induction mem as [|c mem IH]; intros s Hc; [by apply cstr_not_nil in Hc|]. cbn [cstring].
  destruct (cstr_uncons _ _ _ Hc) as [[-> ->]|(Hx & s' & -> & Hc')]; [done|].
  destruct (Z.eqb_spec c 0); [done|]. by rewrite (IH _ Hc').
Qed.

Lemma padded_cstr s k : 0 ∉ s → (length s < k)%nat → cstr (s ++ replicate (k - length s) 0) s.
Proof.
  intros H0 Hk. split; [done|]. destruct (k - length s)%nat as [|j] eqn:E; [lia|]. by exists (replicate j 0).
Qed.

Lemma copy_name_spec s : host_name s → copy_name (arg s) = Done s.
Proof.
  intros [Hl H0]. unfold copy_name. rewrite (strncpy_spec _ _ _ (arg_cstr s H0)) by (unfold FILENAME_MAX; lia).
  cbn [outcome_bind]. apply cstring_spec, padded_cstr; [done|unfold FILENAME_MAX; lia].
Qed.

Lemma name_arg nm : name_ok nm → strncpy (arg nm) 16 = Done (name16 nm).
Proof. intros (_ & Hl & _ & H0). apply (strncpy_spec 16 _ _ (arg_cstr nm H0)). lia. Qed.

Lemma name16_end nm : name_ok nm → awrite (name16 nm) (TFS_FILENAME_MAX - 1) 0 = Done (name16 nm).
Proof.
  intros (_ & Hl & _). change (TFS_FILENAME_MAX - 1) with 15.
  rewrite awrite_in_range by (rewrite name16_length by lia; lia). f_equal.
  apply list_insert_id. change (Z.to_nat 15) with 15%nat. unfold name16.
  rewrite lookup_app_r by lia. apply lookup_replicate_2. lia.
Qed.

Lemma tbind_done {A B : Type} (a : A) (k : A → tool B) (h : host) : tbind (tlift (Done a)) k h = k a h.
Proof. done. Qed.

(** One step of [main]: an argument, or the comparison of the command with a name. *)
Ltac read_arg l i :=
  let k := eval vm_compute in (Z.to_nat i) in
  let r := eval cbn [List.nth] in (List.nth k l []) in
  change (aread l i) with (Done r).
Ltac main_step :=
  lazymatch goal with
  | |- tbind (tlift (aread ?l ?i)) _ _ = _ => read_arg l i
  | |- tbind (tlift (outcome_bind _ (aread ?l ?i))) _ _ = _ => read_arg l i
  | |- tbind (tlift (strncmp ?a ?b ?k)) _ _ = _ =>
      let r := eval vm_compute in (strncmp a b k) in change (strncmp a b k) with r
  | |- _ => idtac
  end; cbn [outcome_bind]; rewrite ?tbind_done; cbv beta;
  cbn [Z.eqb Pos.eqb Z.ltb Z.compare negb orb Pos.compare Pos.compare_cont].

(** [main] runs the function of the command. *)
Lemma main_runs (en : endian) (disk : list Z) (c : cmd) (junk : list Z) (h : host) :
  host_name disk →
  match c with
  | CWrite source nm => host_name source → name_ok nm →
      main en (argv_of disk c) junk h = tfstool_write en disk source (name16 nm) junk h
  | CRead nm target => host_name target → name_ok nm →
      main en (argv_of disk c) junk h = (do _ <- tfstool_read en disk (name16 nm) target junk; tret ()) h
  | CDelete nm => name_ok nm →
      main en (argv_of disk c) junk h = tfstool_delete en disk (name16 nm) h
  end.
Proof.
  intros Hd. destruct c as [source nm|nm target|nm].
  - intros [Hsl Hs0] Hn. unfold main. cbn [argv_of].
    change (Z.of_nat (length [_; _; _; _; _])) with 5. do 6 main_step.
    rewrite (copy_name_spec disk Hd). do 2 main_step.
    rewrite (strncpy_spec _ _ _ (arg_cstr source Hs0)) by (unfold FILENAME_MAX; lia). do 2 main_step.
    rewrite (name_arg nm Hn). main_step. rewrite (name16_end nm Hn). main_step.
    rewrite (cstring_spec _ _ (padded_cstr source (Z.to_nat FILENAME_MAX) Hs0 ltac:(unfold FILENAME_MAX; lia))).
    by main_step.
  - intros Ht Hn. unfold main. cbn [argv_of].
    change (Z.of_nat (length [_; _; _; _; _])) with 5. do 7 main_step.
    rewrite (copy_name_spec disk Hd). do 2 main_step. rewrite (name_arg nm Hn). do 2 main_step.
    rewrite (copy_name_spec target Ht). by main_step.
  - intros Hn. unfold main. cbn [argv_of].
    change (Z.of_nat (length [_; _; _; _])) with 4. do 8 main_step.
    rewrite (copy_name_spec disk Hd). do 2 main_step. rewrite (name_arg nm Hn). by main_step.
Qed.

(** ** Histories *)

(** What a command does to the other host files and to the files of the volume. *)
Definition afs_cmd (n : Z) (c : cmd) (files : host) (m : afs) : bool * host * afs :=
  match c with
  | CWrite source nm =>
      match files !! source with
      | Some s =>
          if afs_can_create n m nm (Z.of_nat (length s)) then (true, files, <[nm := s]> m) else (false, files, m)
      | None => (false, files, m)
      end
  | CRead nm target => (bool_decide (is_Some (m !! nm)), <[target := default [] (m !! nm)]> files, m)
  | CDelete nm => (bool_decide (is_Some (m !! nm)), files, delete nm m)
  end.

Fixpoint afs_cmds (n : Z) (l : list cmd) (files : host) (m : afs) : list bool * host * afs :=
  match l with
  | [] => ([], files, m)
  | c :: l =>
      let '(r, files, m) := afs_cmd n c files m in
      let '(rs, files, m) := afs_cmds n l files m in (r :: rs, files, m)
  end.

(** The commands of the history: names fit, no command copies the image itself or
    over it, and the length of a file to copy, if it exists, is one the tool takes
    no block too many for. *)
Definition cmd_ok (disk : list Z) (files : host) (c : cmd) : Prop :=
  match c with
  | CWrite source nm => host_name source ∧ source ≠ disk ∧ name_ok nm ∧
      match files !! source with Some s => Forall is_u8 s ∧ exact_length s | None => True end
  | CRead nm target => host_name target ∧ target ≠ disk ∧ name_ok nm
  | CDelete nm => name_ok nm
  end.
Fixpoint cmds_ok (disk : list Z) (n : Z) (l : list cmd) (files : host) (m : afs) : Prop :=
  match l with
  | [] => True
  | c :: l => cmd_ok disk files c ∧
      let '(_, files, m) := afs_cmd n c files m in cmds_ok disk n l files m
  end.

#[export] Instance cmd_ok_dec disk files c : Decision (cmd_ok disk files c).
Proof.
  destruct c as [source nm|nm target|nm]; cbn [cmd_ok]; unfold host_name, name_ok, exact_length;
    [destruct (files !! source)|..]; apply _.
Defined.
#[export] Instance cmds_ok_dec disk n l files m : Decision (cmds_ok disk n l files m).
Proof.
  revert files m. induction l as [|c l IH]; intros files m; cbn [cmds_ok]; [apply _|].
  destruct (afs_cmd n c files m) as [[ok files'] m']. apply _.
Defined.

(** The runs of the program one after the other, with their success. *)
Fixpoint run_cmds (en : endian) (disk junk : list Z) (l : list cmd) (h : host) : outcome (list bool * host) :=
  match l with
  | [] => Done ([], h)
  | c :: l =>
      let* '(r, h) := main en (argv_of disk c) junk h in
      let* '(rs, h) := run_cmds en disk junk l h in
      Done (bool_decide (is_Some r) :: rs, h)
  end.

Lemma run_cmd_refines (en : endian) (disk junk : list Z) (n : Z) (vn : list Z) (c : cmd) (files : host)
    (d : image) (m : afs) :
  tool_image n vn d m → host_name disk → is_block junk → cmd_ok disk files c →
  truns (main en (argv_of disk c) junk) (with_image disk files d) (λ r h',
    let '(ok, files', m') := afs_cmd n c files m in
    bool_decide (is_Some r) = ok ∧ ∃ d', h' = with_image disk files' d' ∧ tool_image n vn d' m').
Proof.
  intros Hi Hd Hj Hc. pose proof (main_runs en disk c junk (with_image disk files d) Hd) as Hm.
  destruct c as [source nm|nm target|nm]; unfold truns; cbn [afs_cmd cmd_ok] in *.
  - destruct Hc as (Hsn & Hsd & Hn & Hs). rewrite Hm by done. destruct (files !! source) as [s|] eqn:Es.
    2: { rewrite tfstool_write_missing by done. cbn [returns]. split; [done|by exists d]. }
    destruct Hs as [Hsu Hex].
    eapply returns_mono; [by apply (tool_write_refines en disk files n vn d m source s nm junk)|].
    intros [r h']. destruct (afs_can_create _ _ _ _); by intros [-> ?].
  - destruct Hc as (Htn & Htd & Hn). rewrite Hm by done.
    eapply (truns_bind (tfstool_read en disk (name16 nm) target junk)), truns_mono;
      [apply (tool_read_refines en disk files n vn d m nm target junk); try done; apply Hj|].
    intros r h' [-> ->]. destruct (m !! nm); cbn; (split; [done|by exists d]).
  - rewrite Hm by done.
    eapply returns_mono; [by apply (tool_delete_refines en disk files n vn d m nm)|].
    intros [r h'] [-> ?]. by destruct (m !! nm).
Qed.

Lemma run_cmds_refine (en : endian) (disk junk : list Z) (n : Z) (vn : list Z) (l : list cmd) :
  ∀ (files : host) (d : image) (m : afs),
  tool_image n vn d m → host_name disk → is_block junk → cmds_ok disk n l files m →
  returns (run_cmds en disk junk l (with_image disk files d)) (λ '(rs, h'),
    let '(oks, files', m') := afs_cmds n l files m in
    rs = oks ∧ ∃ d', h' = with_image disk files' d' ∧ tool_image n vn d' m').
Proof.
  induction l as [|c l IH]; intros files d m Hi Hd Hj Hok; cbn [run_cmds afs_cmds cmds_ok] in *.
  { split; [done|by exists d]. }
  destruct Hok as [Hc Hok]. pose proof (run_cmd_refines en disk junk n vn c files d m Hi Hd Hj Hc) as Hr.
  destruct (afs_cmd n c files m) as [[ok files'] m']. apply returns_bind.
  eapply returns_mono; [exact Hr|]. intros [r h'] (Hrok & d' & -> & Hi').
  specialize (IH files' d' m' Hi' Hd Hj Hok). destruct (afs_cmds n l files' m') as [[oks files''] m''].
  apply returns_bind. eapply returns_mono; [exact IH|]. intros [rs h''] (-> & Hd'').
  cbn [returns]. split; [by rewrite Hrok|done].
Qed.

(** C6. Any sequence of runs of the tool that copy files into an image, copy files out
    of it and delete files in it answers what the abstract file system (a map
    from names to contents) answers: a copy succeeds exactly when the source
    exists, the name is new, an entry is free and the blocks suffice; a file copied
    out is the one that was copied in; a run that fails leaves the volume as it was
    (though it empties the target of a copy out).  The image stays a well-formed
    volume of the same name, whatever the byte order of the host is.  The names fit
    their arrays, no command copies the image itself or over it, and the length of
    a file that is copied in is not a multiple of 512 below 65024: for those the
    tool takes a block too many ([full_block_refused]). *)
Theorem tfstool_history_refines (en : endian) (disk junk : list Z) (n : Z) (vn : list Z) (l : list cmd)
    (files : host) (d : image) (m : afs) :
  tool_image n vn d m → host_name disk → is_block junk → cmds_ok disk n l files m →
  returns (run_cmds en disk junk l (with_image disk files d)) (λ '(rs, h'),
    let '(oks, files', m') := afs_cmds n l files m in
    rs = oks ∧ ∃ d', h' = with_image disk files' d' ∧ tool_image n vn d' m').
Proof. apply run_cmds_refine. Qed.

(** ** Fresh images *)
Lemma fresh_u8 (n : Z) (vn : list Z) : name_ok vn → Forall is_u8 (fresh_bytes n (name16 vn)).
Proof.
  intros (_ & _ & Hu & _). unfold fresh_bytes, fresh_header, name16.
  assert (Hz : ∀ k, Forall is_u8 (replicate k 0)) by (intros k; apply Forall_replicate; unfold is_u8; lia).
  repeat (apply Forall_app; split); auto using bytes_of_u32_u8, block_bytes_u8.
Qed.

Lemma fresh_tool_image (n : Z) (vn : list Z) (d : image) :
  3 ≤ n ≤ 4096 → name_ok vn → im_bytes d = fresh_bytes n (name16 vn) → tool_image n vn d ∅.
Proof.
  intros Hs (_ & Hl & _ & _) Hd. pose proof (name16_length vn ltac:(lia)) as Hvl.
  assert (Hb : bufs_ok (vol n)) by (split; apply empty_inode).
  destruct (fresh_fs_rep n (name16 vn) d (vol n) Hs Hvl Hd eq_refl eq_refl eq_refl Hb) as [Hr Hv].
  split_and!; [|done|].
  - eexists _, (replicate 25 None). split_and!; [done|by vm_compute|done|done].
  - rewrite <- (vblock_image (vol n) eq_refl).
    rewrite (fresh_block n (name16 vn) d (vol n)) by (done || lia). done.
Qed.

Lemma created_image (en : endian) (disk : list Z) (n : Z) (vn junk : list Z) (h : host) :
  name_ok vn → is_block junk → 3 ≤ n ≤ 4096 → h !! disk = None →
  ∃ d, tfstool_createvol en disk n (name16 vn) junk h = Done (Some (), with_image disk h d) ∧ tool_image n vn d ∅.
Proof.
  intros Hn Hj Hsz Hnone. exists (Image _ (fresh_u8 n vn Hn)). split; [|by apply fresh_tool_image].
  apply createvol_spec; [done|lia| |done]. apply name16_length. destruct Hn as (_ & ? & _). lia.
Qed.

(** [tfstool_createvol] makes an image of the size asked for whose volume has no
    files; it refuses an existing file and less than three blocks, without a
    change. *)
Theorem tfstool_create_correct (en : endian) (disk : list Z) (n : Z) (vn junk : list Z) (h : host) :
  name_ok vn → is_block junk → n ≤ 4096 →
  if bool_decide (is_Some (h !! disk)) || (n <? 3)
  then tfstool_createvol en disk n (name16 vn) junk h = Done (None, h)
  else ∃ d, tfstool_createvol en disk n (name16 vn) junk h = Done (Some (), with_image disk h d) ∧
    tool_image n vn d ∅.
Proof.
  intros Hn Hj Hmax. destruct (bool_decide (is_Some (h !! disk))) eqn:Eb.
  - unfold tfstool_createvol. rewrite zero_words by apply length_words_of. rewrite tbind_done.
    unfold tbind, file_exists. by rewrite Eb.
  - cbn [orb]. destruct (Z.ltb_spec n 3).
    + unfold tfstool_createvol. rewrite zero_words by apply length_words_of. rewrite tbind_done.
      unfold tbind, file_exists. rewrite Eb. by destruct (Z.ltb_spec n 3); [|lia].
    + apply bool_decide_eq_false in Eb. apply created_image; [done|done|lia|by apply eq_None_not_Some].
Qed.

(** ** The kernel mounts the image *)
Lemma tool_image_header (n : Z) (vn : list Z) (d : image) (m : afs) :
  tool_image n vn d m → name_ok vn → tfs_header d 0 vn ∧ no_partitions d.
Proof.
  intros (_ & Hv & H0) Hn. pose proof Hn as (_ & Hl & _ & _).
  destruct (volume_total (vol n) d Hv) as [Htot Him]. change (totalblocks (vol n)) with n in *.
  pose proof (name16_length vn ltac:(lia)) as Hvl.
  pose proof (proj1 (fresh_lengths (name16 vn) Hvl)) as Hhl.
  assert (Hd4 : drop 4 (fresh_header (name16 vn)) = name16 vn ++ replicate 492 0) by done.
  assert (Hz : ∀ k, (20 ≤ k < 512)%nat → fresh_header (name16 vn) !! k = Some 0).
  { intros k Hk. unfold fresh_header. rewrite lookup_app_r by (rewrite length_bytes_of_u32; lia).
    rewrite length_bytes_of_u32, lookup_app_r by lia. apply lookup_replicate_2. lia. }
  split; split; simpl; rewrite ?H0, ?Him; try done; try lia.
  - exists TFS_MAGIC. split; [|done]. rewrite load32_in_range by lia. reflexivity.
  - rewrite Hd4. destruct (name16_cstr vn Hn) as [Hno [rest E]]. split; [done|].
    rewrite E, <- (assoc_L (++)). by eexists.
  - left. apply Hz. lia.
  - apply Hz. lia.
  - assert (E : load32 Big (fresh_header (name16 vn)) 454 = Done 0); [|by rewrite E].
    rewrite load32_in_range by lia. f_equal. replace (take 4 (drop (Z.to_nat 454) (fresh_header (name16 vn)))) with [0; 0; 0; 0]; [done|].
    unfold fresh_header. rewrite drop_app_ge by (rewrite length_bytes_of_u32; lia).
    rewrite length_bytes_of_u32, drop_app_ge by lia. rewrite Hvl, drop_replicate, take_replicate. done.
Qed.

(** The kernel finds the volume of an image: [vfs_mount_fs] on a disk with the image
    mounts it under the volume name with exactly its files. *)
Lemma image_mounts (n : Z) (vn : list Z) (d : image) (m : afs) fuel addr page sf st addr0 page0 i e
    (s : vfs (tfs_volume image)) A :
  tool_image n vn d m → name_ok vn → vrep s A → page_ok addr page sf st →
  av_contents A !! addr = None → free_row (av_fss A) = Some (i, e) → row_named (av_fss A) vn = None →
  returns (vfs_mount_fs Big fuel [tfs_type Big sf st true addr page] addr0 page0 d None s)
    (λ '(r, s'), r = VFS_OK ∧ ∃ mp inodes, cstr mp vn ∧
       vrep s' (AVfs (av_ops A) (<[i := VfsEntry addr mp]> (av_fss A)) (av_fls A)
                  (<[addr := (m, inodes)]> (av_contents A)))).
Proof.
  intros Hi Hn Hs Hpg Hnew Hfree Hrow. destruct (tool_image_header n vn d m Hi Hn) as [Hh Hnp].
  destruct Hi as ((hh & dir & Hr & <- & _ & _) & Hv & _).
  destruct (volume_total (vol n) d Hv) as [Htot Him]. change (totalblocks (vol n)) with n in *.
  eapply returns_mono; [eapply (tfs_disk_mounts fuel (vol n) d dir vn); try done; [apply Hn|]|].
  - simpl. rewrite Him. lia.
  - intros [r s'] (-> & mp & Hmp & Hrep). split; [done|]. by exists mp, (inodes dir).
Qed.

(** Making an image and running commands on it. *)
Definition make_image (en : endian) (disk : list Z) (n : Z) (vn junk : list Z) (l : list cmd) (h : host)
    : outcome (option unit * list bool * host) :=
  let* '(r, h) := tfstool_createvol en disk n (name16 vn) junk h in
  let* '(rs, h) := run_cmds en disk junk l h in
  Done (r, rs, h).

(** C7. From the tool to the kernel: an image of 3 to 4096 blocks is made where no
    file was, and any history of commands as above is run on it, on a host of
    either byte order.  The kernel of the big-endian machine then mounts a disk
    with the image, if a row of the mount table is free and the volume name is not
    taken in it, under the volume name and with exactly the files that the history
    leaves: those copied in and not deleted, with their contents. *)
Theorem tool_image_mounts (en : endian) (disk junk : list Z) (n : Z) (vn : list Z) (l : list cmd) (files : host)
    fuel addr page sf st addr0 page0 i e (s : vfs (tfs_volume image)) A :
  name_ok vn → host_name disk → is_block junk → 3 ≤ n ≤ 4096 → files !! disk = None →
  cmds_ok disk n l files ∅ → vrep s A → page_ok addr page sf st →
  av_contents A !! addr = None → free_row (av_fss A) = Some (i, e) → row_named (av_fss A) vn = None →
  returns (make_image en disk n vn junk l files) (λ '(r, rs, h'),
    let '(oks, files', m) := afs_cmds n l files ∅ in
    r = Some () ∧ rs = oks ∧ ∃ d, h' = with_image disk files' d ∧
    returns (vfs_mount_fs Big fuel [tfs_type Big sf st true addr page] addr0 page0 d None s)
      (λ '(r, s'), r = VFS_OK ∧ ∃ mp inodes, cstr mp vn ∧
         vrep s' (AVfs (av_ops A) (<[i := VfsEntry addr mp]> (av_fss A)) (av_fls A)
                    (<[addr := (m, inodes)]> (av_contents A))))).
Proof.
  intros Hn Hd Hj Hsz Hnone Hok Hs Hpg Hnew Hfree Hrow. unfold make_image.
  destruct (created_image en disk n vn junk files Hn Hj Hsz Hnone) as (d0 & -> & Hi0). cbn [outcome_bind].
  apply returns_bind. eapply returns_mono; [by apply (run_cmds_refine en disk junk n vn l files d0 ∅)|].
  intros [rs h']. destruct (afs_cmds n l files ∅) as [[oks files'] m]. intros (-> & d & -> & Hi). cbn [returns].
  split_and!; [done|done|]. exists d. split; [done|].
  by apply (image_mounts n vn d m fuel addr page sf st addr0 page0 i e s A).
Qed.

(** ** Witnesses *)
Definition demo_vn : list Z := [100].
Definition demo_junk : list Z := replicate 512 170.

Lemma demo_vn_ok : name_ok demo_vn.
Proof. apply (bool_decide_unpack _). vm_compute. exact I. Qed.
Lemma demo_junk_ok : is_block demo_junk.
Proof. split; [reflexivity|]. apply Forall_replicate. split; [lia|reflexivity]. Qed.

Definition demo_image : image := Image _ (fresh_u8 8 demo_vn demo_vn_ok).
Lemma demo_tool_image : tool_image 8 demo_vn demo_image ∅.
Proof. apply fresh_tool_image; [lia|exact demo_vn_ok|reflexivity]. Qed.

(** Two host files, of 520 and of 3 bytes. *)
Definition demo_files : host := {[ [98] := replicate 520 65; [99] := [1; 2; 3] ]}.
Definition demo_cmds : list cmd :=
  [CWrite [98] [120]; CWrite [99] [121]; CWrite [99] [121]; CWrite [110] [122]; CRead [120] [101]; CDelete [120]; CRead [120] [102]].

Lemma demo_cmds_ok : cmds_ok [97] 8 demo_cmds demo_files ∅.
Proof. apply (bool_decide_unpack _). vm_compute. exact I. Qed.

Lemma demo_disk_name : host_name [97].
Proof. split; [apply Nat.ltb_lt; reflexivity|]. apply (bool_decide_unpack _). vm_compute. exact I. Qed.

(** The results, the file copied out and the one left on the volume. *)
Lemma demo_results :
  let '(oks, files, m) := afs_cmds 8 demo_cmds demo_files ∅ in
  oks = [true; true; false; false; true; true; false] ∧ files !! [101] = Some (replicate 520 65) ∧
  files !! [102] = Some [] ∧ m = {[ [121] := [1; 2; 3] ]}.
Proof. vm_compute. repeat split. Qed.

Lemma tfstool_history_refines_witness :
  returns (run_cmds Little [97] demo_junk demo_cmds (with_image [97] demo_files demo_image))
    (λ '(rs, h'), rs = [true; true; false; false; true; true; false] ∧ h' !! [101] = Some (replicate 520 65)).
Proof.
  pose proof (tfstool_history_refines Little [97] demo_junk 8 demo_vn demo_cmds demo_files demo_image ∅
    demo_tool_image demo_disk_name demo_junk_ok demo_cmds_ok) as H.
  pose proof demo_results as R. destruct (afs_cmds 8 demo_cmds demo_files ∅) as [[oks files] m].
  refine (returns_mono _ _ _ H _). intros [rs h'] (-> & d' & -> & _). destruct R as (-> & Hf & _ & _).
  split; [reflexivity|]. unfold with_image. rewrite lookup_insert_ne; [exact Hf|discriminate].
Defined.

Lemma tfstool_create_correct_witness :
  ∃ d, tfstool_createvol Little [97] 8 (name16 demo_vn) demo_junk ∅ = Done (Some (), with_image [97] ∅ d) ∧
    tool_image 8 demo_vn d ∅.
Proof.
  pose proof (tfstool_create_correct Little [97] 8 demo_vn demo_junk ∅ demo_vn_ok demo_junk_ok) as H.
  rewrite bool_decide_false in H; [apply H; lia|]. rewrite lookup_empty. intros [x Hx]. discriminate.
Defined.

Lemma tool_image_mounts_witness :
  returns (make_image Little [97] 8 demo_vn demo_junk demo_cmds demo_files) (λ '(r, rs, h'),
    rs = [true; true; false; false; true; true; false] ∧ ∃ d,
    returns (vfs_mount_fs Big 0 [tfs_type Big 56 28 true 65536 (replicate 4096 0)] 0 [] d None
      (state 1 1 0 boot_fss boot_fls ∅)) (λ '(r, s'), r = VFS_OK ∧ ∃ A inodes, vrep s' A ∧
        av_contents A !! 65536 = Some ({[ [121] := [1; 2; 3] ]}, inodes))).
Proof.
  pose proof (tool_image_mounts Little [97] demo_junk 8 demo_vn demo_cmds demo_files 0 65536 (replicate 4096 0) 56 28 0 []
    0 (VfsEntry 0 (replicate 16 0)) _ boot_A demo_vn_ok demo_disk_name demo_junk_ok ltac:(lia) eq_refl demo_cmds_ok
    boot_vrep_any boot_page_ok (lookup_empty 65536) ltac:(reflexivity) ltac:(vm_compute; reflexivity)) as H.
  pose proof demo_results as R. destruct (afs_cmds 8 demo_cmds demo_files ∅) as [[oks files] m].
  destruct R as (-> & _ & _ & ->). refine (returns_mono _ _ _ H _). intros [[r rs] h'] (_ & -> & d & _ & Hm).
  split; [reflexivity|]. exists d. refine (returns_mono _ _ _ Hm _). intros [r' s'] (-> & mp & inodes & _ & Hv).
  split; [reflexivity|]. eexists _, inodes. split; [exact Hv|]. apply lookup_insert_eq.
Defined.

(** ** Two oddities *)
Definition five_image : image := Image _ (fresh_u8 5 demo_vn demo_vn_ok).

(** A file of exactly one block fits a volume with two free blocks, but the tool
    wants a further block for the end of the file and refuses. *)
Example full_block_refused :
  afs_can_create 5 ∅ [120] 512 = true ∧
  (let* '(r, _) := tfstool_write Little [97] [98] (name16 [120]) demo_junk
     (with_image [97] {[ [98] := replicate 512 65 ]} five_image) in Done r) = Done None.
Proof. vm_compute. split; reflexivity. Qed.

(** [read] of a name of 16 characters without a local name: the copy of the name
    runs past its array. *)
Example long_name_faults :
  main Little [arg []; cmd_read; arg [97]; arg (replicate 16 120)] demo_junk (with_image [97] ∅ demo_image)
    = Fault.
Proof. vm_compute. reflexivity. Qed.
