(* ===== verification/PhysMem.v ===== *)
(** * Physical memory (kernel/stalloc.c, vm/mips32/mm_phys.c)

    The permanent allocator that hands out memory after the kernel image during
    start-up, and the page pool: a bitmap of pages with a count of free ones.
    Addresses are 32-bit values of the MIPS machine. *)

From S2P Require Import Prelude Bitmap.

(** ** Permanent allocation (stalloc.c) *)
Record stalloc_t := Stalloc { free_area_start : Z; stalloced_total : Z }.

(** Round up to a word boundary. *)
Definition word_align (a : Z) : Z :=
  if negb (Z.land a 3 =? 0) then Z.land (u32 (a + 4)) 0xfffffffc else a.

(** [kernel_end] is the address of the linker's KERNEL_ENDS_HERE. *)
Definition stalloc_init (kernel_end : Z) : stalloc_t := Stalloc (word_align kernel_end) 0.

Definition stalloc_disable (kernel_end : Z) (st : stalloc_t) : stalloc_t :=
  Stalloc 0xffffffff (u32 (free_area_start st - kernel_end)).

Definition stalloc (bytes : Z) (st : stalloc_t) : outcome (Z * stalloc_t) :=
  if free_area_start st =? 0xffffffff then Panic "Attempting to use stalloc after vm init"
  else if free_area_start st =? 0 then Panic "Attempting to use stalloc before initialization"
  else if bytes <? 0 then Panic "Attempting to stalloc negative amount of bytes"
  else
    let res := free_area_start st in
    Done (res, Stalloc (word_align (u32 (free_area_start st + bytes))) (stalloced_total st)).

(** ** The page pool (mm_phys.c) *)
Definition PAGE_SIZE : Z := 4096.
Definition YAMS_MAX_DEVICES : Z := 128.

Record physmem := Physmem {
  physmem_free_pages : list Z;
  physmem_num_pages : Z;
  physmem_num_free_pages : Z;
  physmem_static_end : Z;
  physmem_slock : bool
}.

(** The I/O descriptors: the type of each device and the word at its I/O
    area. *)
Definition physmem_get_size (io_desc : list (Z * Z)) : outcome Z :=
  let* r := for_loop 0 YAMS_MAX_DEVICES (λ i (_ : unit),
    let* '(type, word) := aread io_desc i in
    if type =? 0x101 then Done (inr (u32 word)) else Done (inl ())) () in
  let num_pages := match r with inl _ => 0 | inr n => n end in
  if num_pages =? 0 then Panic "No MemInfo device found." else Done (s32 num_pages).

Definition physmem_get_reserved_size (io_desc : list (Z * Z)) (st : stalloc_t)
    : outcome (Z * stalloc_t) :=
  let* '(free_start, st) := stalloc 1 st in
  let* _ := physmem_get_size io_desc in
  let used := u32 (free_start - 0x80000000) in
  let num_res_pages := used / PAGE_SIZE in
  Done (if negb (used mod PAGE_SIZE =? 0) then num_res_pages + 1 else num_res_pages, st).

(** [memory] is what the words [stalloc] hands out for the bitmap hold. *)
Definition physmem_init (io_desc : list (Z * Z)) (memory : list Z) (st : stalloc_t)
    : outcome (physmem * stalloc_t) :=
  let* num_pages := physmem_get_size io_desc in
  let* '(_, st) := stalloc (bitmap_sizeof num_pages) st in
  let* bm := bitmap_init memory num_pages in
  let* '(num_res_pages, st) := physmem_get_reserved_size io_desc st in
  let* bm := for_each 0 num_res_pages (λ i bm, bitmap_set bm i 1) bm in
  Done (Physmem bm num_pages (num_pages - num_res_pages) num_res_pages false, st).

Definition spinlock_acquire (pm : physmem) : outcome physmem :=
  if physmem_slock pm then Blocked
  else let 'Physmem a b c d _ := pm in Done (Physmem a b c d true).
Definition spinlock_release (pm : physmem) : physmem :=
  let 'Physmem a b c d _ := pm in Physmem a b c d false.

Definition physmem_allocblock (pm : physmem) : outcome (Z * physmem) :=
  let* pm := spinlock_acquire pm in
  let* '(i, pm) :=
    if 0 <? physmem_num_free_pages pm then
      let* '(i, bm) := bitmap_findnset (physmem_free_pages pm) (physmem_num_pages pm) in
      let pm := Physmem bm (physmem_num_pages pm) (physmem_num_free_pages pm - 1)
                  (physmem_static_end pm) (physmem_slock pm) in
      kassert ((0 <=? i) && (0 <=? physmem_num_free_pages pm)) ;*
      Done (i, pm)
    else Done (0, pm) in
  Done (u32 (s32 (i * PAGE_SIZE)), spinlock_release pm).

Definition physmem_freeblock (phys_addr : Z) (pm : physmem) : outcome physmem :=
  let i := phys_addr / PAGE_SIZE in
  kassert (physmem_static_end pm <=? i) ;*
  let* pm := spinlock_acquire pm in
  let* b := bitmap_get (physmem_free_pages pm) i in
  kassert (b =? 1) ;*
  let* bm := bitmap_set (physmem_free_pages pm) i 0 in
  Done (spinlock_release (Physmem bm (physmem_num_pages pm) (physmem_num_free_pages pm + 1)
    (physmem_static_end pm) (physmem_slock pm))).

(** ** The invariant of the pool

    [held] are the pages handed out and not freed yet. *)
Record pool (pm : physmem) (held : list Z) : Prop := {
  pl_ok : bitmap_ok (physmem_free_pages pm) (physmem_num_pages pm);
  pl_lock : physmem_slock pm = false;
  pl_max : physmem_num_pages pm ≤ 2 ^ 19;
  pl_static : 0 < physmem_static_end pm ≤ physmem_num_pages pm;
  pl_bits : ∀ p, 0 ≤ p < physmem_num_pages pm →
    bit (physmem_free_pages pm) p = bool_decide (p < physmem_static_end pm ∨ p ∈ held);
  pl_nodup : NoDup held;
  pl_held : Forall (λ p, physmem_static_end pm ≤ p < physmem_num_pages pm) held;
  pl_free : physmem_num_free_pages pm =
    physmem_num_pages pm - physmem_static_end pm - Z.of_nat (length held)
}.

(** The clear bits are the pages neither reserved nor held. *)
Lemma clear_bits f n s (held : list Z) :
  0 ≤ s ≤ Z.of_nat n → NoDup held → Forall (λ p, s ≤ p < Z.of_nat n) held →
  (∀ p, 0 ≤ p < Z.of_nat n → f p = bool_decide (p < s ∨ p ∈ held)) →
  count_below (λ p, negb (f p)) n = Z.of_nat n - s - Z.of_nat (length held).
Proof.
  intros Hs Hnd. revert f. induction Hnd as [|x held Hx Hnd IH]; intros f Hall Hf.
  - clear Hall. induction n as [|n IHn]; cbn [count_below length].
    { simpl. lia. }
    rewrite Hf by lia. destruct (decide (s = Z.of_nat (S n))) as [->|Hne].
    + rewrite bool_decide_eq_true_2 by (left; lia). cbn [negb].
      rewrite count_below_zero; [simpl; lia|]. intros p Hp.
      rewrite Hf by lia. rewrite bool_decide_eq_true_2 by (left; lia). done.
    + rewrite IHn; [|lia|intros p Hp; apply Hf; lia].
      rewrite bool_decide_eq_false_2; [simpl length; cbn [negb]; lia|].
      intros [?|?%not_elem_of_nil]; [lia|done].
  - apply Forall_cons in Hall as [Hxr Hall].
    set (g := λ p, bool_decide (p < s ∨ p ∈ held)).
    assert (Hc : count_below (λ p, negb (g p)) n = count_below (λ p, negb (f p)) n + 1).
    { apply (count_below_flip _ _ n x); [lia|..].
      - unfold g. rewrite bool_decide_eq_false_2; [done|]. intros [?|?]; [lia|done].
      - rewrite Hf by lia. rewrite bool_decide_eq_true_2 by (right; left). done.
      - intros p Hp Hne. unfold g. rewrite Hf by lia. f_equal. apply bool_decide_ext.
        rewrite elem_of_cons. naive_solver. }
    rewrite (IH g Hall ltac:(done)) in Hc. cbn [length]. lia.
Qed.

Lemma pool_free_bits pm held :
  pool pm held → free_bits (physmem_free_pages pm) (physmem_num_pages pm) = physmem_num_free_pages pm.
Proof.
  intros [Hok _ _ Hs Hb Hnd Hh Hf]. unfold free_bits. rewrite Hf.
  rewrite (clear_bits _ _ (physmem_static_end pm) held) by (rewrite ?Z2Nat.id by lia; done || lia).
  rewrite Z2Nat.id by lia. done.
Qed.

Lemma allocblock_spec pm held :
  pool pm held →
  returns (physmem_allocblock pm) (λ '(a, pm'),
    (a = 0 ∧ physmem_num_free_pages pm = 0 ∧ pm' = pm) ∨
    (∃ p, a = p * PAGE_SIZE ∧ p ∉ held ∧ physmem_static_end pm ≤ p < physmem_num_pages pm ∧
       (∀ q, physmem_static_end pm ≤ q < p → q ∈ held) ∧ pool pm' (p :: held) ∧
       physmem_static_end pm' = physmem_static_end pm ∧ physmem_num_pages pm' = physmem_num_pages pm)).
Proof.
  intros Hp. pose proof (pool_free_bits pm held Hp) as Hfb.
  destruct pm as [bm n fr se lk]. destruct Hp as [Hok Hlk Hmax Hs Hb Hnd Hh Hf]. simpl in *. subst lk.
  unfold physmem_allocblock, spinlock_acquire. simpl.
  destruct (Z.ltb_spec 0 fr) as [Hpos|Hnone]; cbn [outcome_bind].
  2: { left. pose proof (count_below_range (λ p, negb (bit bm p)) (Z.to_nat n)).
       unfold free_bits in Hfb. split_and!; [done|lia|done]. }
  apply returns_bind. apply returns_bind.
  eapply returns_mono; [by apply (findnset_returns bm n)|]. intros [r bm'] Hcase. cbn [physmem_num_free_pages].
  destruct Hcase as [(-> & -> & Hfull)|(Hr & Hclear & Hbefore & Hlen & Hu & Hset)].
  { exfalso. unfold free_bits in Hfb. rewrite count_below_zero in Hfb; [lia|].
    intros p Hp. rewrite Z2Nat.id in Hp by lia. by rewrite Hfull. }
  replace ((0 <=? r) && (0 <=? fr - 1)) with true by lia. cbn [kassert returns].
  right. rewrite Hb in Hclear by lia. apply bool_decide_eq_false in Hclear.
  assert (Hse : se ≤ r) by (destruct (decide (r < se)); [by destruct Hclear; left|lia]).
  assert (Hnh : r ∉ held) by (intros Hin; apply Hclear; by right).
  exists r. unfold PAGE_SIZE. rewrite s32_id, u32_id by (unfold is_s32, is_u32; lia).
  split_and!; [done|done|done|lia|..|done|done].
  - intros q Hq. specialize (Hbefore q ltac:(lia)). rewrite Hb in Hbefore by lia.
    apply bool_decide_eq_true in Hbefore as [?|?]; [lia|done].
  - split; simpl; try done.
    + destruct Hok as (_ & H1 & H2). split_and!; rewrite ?Hlen; done || lia.
    + intros p Hp. rewrite Hset by lia. rewrite Hb by lia.
      destruct (bool_decide (p = r)) eqn:E.
      * apply bool_decide_eq_true in E as ->. symmetry. apply bool_decide_eq_true. right. left.
      * apply bool_decide_eq_false in E. apply bool_decide_ext. rewrite elem_of_cons. naive_solver.
    + by constructor.
    + constructor; [lia|done].
    + lia.
Qed.

Lemma freeblock_spec pm held p a :
  pool pm held → p ∈ held → a / PAGE_SIZE = p →
  returns (physmem_freeblock a pm) (λ pm',
    ∃ held', held ≡ₚ p :: held' ∧ pool pm' held' ∧ physmem_static_end pm' = physmem_static_end pm ∧
      physmem_num_pages pm' = physmem_num_pages pm).
Proof.
  intros Hp Hin Ha. apply elem_of_Permutation in Hin as [held' Hperm].
  destruct pm as [bm n fr se lk]. destruct Hp as [Hok Hlk Hmax Hs Hb Hnd Hh Hf]. simpl in *. subst lk.
  rewrite Hperm in Hnd, Hh. apply NoDup_cons in Hnd as [Hnot Hnd]. apply Forall_cons in Hh as [Hpr Hh].
  unfold physmem_freeblock, spinlock_acquire. rewrite Ha. cbn [physmem_static_end].
  rewrite kassert_bind by (apply Z.leb_le; lia). cbn [physmem_slock outcome_bind physmem_free_pages].
  pose proof Hok as (Hu & Hl & Hm). rewrite (bitmap_get_spec _ _ Hok) by lia. cbn [outcome_bind].
  rewrite Hb by lia. rewrite bool_decide_eq_true_2 by (right; rewrite Hperm; left). cbn [Z.b2z].
  rewrite kassert_bind by done.
  destruct (bitmap_set_spec _ _ Hok p 0) as (bm' & -> & Hlen & Hu' & Hset); [lia|by left|].
  cbn [outcome_bind returns]. exists held'. split_and!; [done| |done|done].
  split; simpl; try done.
  - split_and!; rewrite ?Hlen; done || lia.
  - intros q Hq. rewrite Hset, Hb by lia. destruct (bool_decide (q = p)) eqn:E.
    + apply bool_decide_eq_true in E as ->. symmetry. apply bool_decide_eq_false.
      intros [?|?]; [lia|done].
    + apply bool_decide_eq_false in E. apply bool_decide_ext. rewrite Hperm, elem_of_cons. naive_solver.
  - rewrite Hperm in Hf. simpl in Hf. lia.
Qed.

(** ** Start-up *)
Lemma land_mask x : is_u32 x → Z.land x 0xfffffffc = 4 * (x / 4).
Proof.
  intros Hx. transitivity (Z.shiftl (Z.shiftr x 2) 2).
  - change 0xfffffffc with (Z.shiftl (Z.ones 30) 2). apply Z.bits_inj'. intros i Hi.
    rewrite Z.land_spec, !Z.shiftl_spec by lia.
    destruct (decide (i < 2)).
    + rewrite !(Z.testbit_neg_r _ (i - 2)) by lia. by rewrite andb_false_r.
    + rewrite Z.shiftr_spec by lia. replace (i - 2 + 2) with i by lia.
      destruct (decide (i < 32)).
      * rewrite Z.ones_spec_low by lia. by rewrite andb_true_r.
      * rewrite (u32_testbit_high x i) by (done || lia). done.
  - rewrite Z.shiftl_mul_pow2, Z.shiftr_div_pow2 by lia. change (2 ^ 2) with 4. lia.
Qed.

Lemma word_align_spec a :
  0 ≤ a < 2 ^ 32 - 4 → a ≤ word_align a < a + 4 ∧ word_align a mod 4 = 0.
Proof.
  intros Ha. unfold word_align. change 3 with (Z.ones 2). rewrite Z.land_ones by lia.
  change (2 ^ 2) with 4. pose proof (Z.div_mod a 4) as Hdm. pose proof (Z.mod_pos_bound a 4) as Hb.
  destruct (Z.eqb_spec (a mod 4) 0) as [E|E]; cbn [negb]; [split; lia|].
  rewrite u32_id, land_mask by (unfold is_u32; lia).
  replace ((a + 4) / 4) with (a / 4 + 1) by (rewrite <- Z.div_add by lia; f_equal; lia).
  split; [lia|]. rewrite Z.mul_comm. apply Z.mod_mul. lia.
Qed.

(** The allocator can serve [bytes] more bytes. *)
Definition room (st : stalloc_t) (bytes : Z) : Prop :=
  0 < free_area_start st ∧ 0 ≤ bytes ∧ free_area_start st + bytes < 0xffffffff - 4.

Lemma stalloc_spec st bytes :
  room st bytes → free_area_start st mod 4 = 0 →
  returns (stalloc bytes st) (λ '(res, st'), res = free_area_start st ∧
    res + bytes ≤ free_area_start st' < res + bytes + 4 ∧ free_area_start st' mod 4 = 0).
Proof.
  intros (H1 & H2 & H3) Hal. unfold stalloc.
  destruct (Z.eqb_spec (free_area_start st) 0xffffffff); [lia|].
  destruct (Z.eqb_spec (free_area_start st) 0); [lia|]. destruct (Z.ltb_spec bytes 0); [lia|].
  cbn [returns free_area_start]. rewrite u32_id by (unfold is_u32; lia).
  destruct (word_align_spec (free_area_start st + bytes)) as [? ?]; [lia|]. split_and!; done || lia.
Qed.

(** The machine reports [n] pages of memory. *)
Record machine (io_desc : list (Z * Z)) (n : Z) : Prop := {
  mc_size : physmem_get_size io_desc = Done n;
  mc_range : 0 < n ≤ 2 ^ 19
}.

(** Pages in use after the bitmap has been allocated. *)
Definition reserved (free_start : Z) : Z :=
  let used := free_start - 0x80000000 in
  if negb (used mod PAGE_SIZE =? 0) then used / PAGE_SIZE + 1 else used / PAGE_SIZE.

Lemma reserved_spec a :
  0x80000000 < a → a ≤ 0x80000000 + reserved a * PAGE_SIZE < a + PAGE_SIZE ∧ 0 < reserved a.
Proof.
  intros Ha. unfold reserved, PAGE_SIZE. set (u := a - 0x80000000).
  pose proof (Z.div_mod u 4096). pose proof (Z.mod_pos_bound u 4096).
  destruct (Z.eqb_spec (u mod 4096) 0); cbn [negb]; lia.
Qed.

Lemma reserve_loop bm n r :
  bitmap_ok bm n → 0 ≤ r ≤ n → (∀ p, 0 ≤ p < n → bit bm p = false) →
  returns (for_each 0 r (λ i bm, bitmap_set bm i 1) bm) (λ bm',
    bitmap_ok bm' n ∧ ∀ p, 0 ≤ p < n → bit bm' p = bool_decide (p < r)).
Proof.
  intros Hok Hr Hz. eapply returns_mono; [apply (for_each_inv (λ i bm', bitmap_ok bm' n ∧
    ∀ p, 0 ≤ p < n → bit bm' p = bool_decide (p < i)))|done].
  - lia.
  - split; [done|]. intros p Hp. rewrite Hz by done. symmetry. apply bool_decide_eq_false. lia.
  - intros i bm1 Hi [Hok1 Hb]. pose proof Hok1 as (Hu & Hl & Hm).
    destruct (bitmap_set_spec _ _ Hok1 i 1) as (bm' & -> & Hlen & Hu' & Hset); [lia|by right|].
    cbn [returns]. split; [split_and!; rewrite ?Hlen; done || lia|].
    intros p Hp. rewrite Hset, Hb by lia. destruct (bool_decide (p = i)) eqn:E.
    + apply bool_decide_eq_true in E as ->. symmetry. apply bool_decide_eq_true. lia.
    + apply bool_decide_eq_false in E. apply bool_decide_ext. lia.
Qed.

Lemma physmem_init_spec io_desc n memory st :
  machine io_desc n → Forall is_u32 memory → n ≤ 32 * Z.of_nat (length memory) →
  0x80000000 < free_area_start st → free_area_start st mod 4 = 0 →
  room st (bitmap_sizeof n + 8) →
  reserved (free_area_start st + bitmap_sizeof n) < n →
  returns (physmem_init io_desc memory st) (λ '(pm, st'), pool pm [] ∧
    physmem_num_pages pm = n ∧
    free_area_start st + bitmap_sizeof n ≤ 0x80000000 + physmem_static_end pm * PAGE_SIZE).
Proof.
  intros [Hsz Hn] Hu Hml Hlow Hal Hroom Hres. unfold physmem_init. rewrite Hsz. cbn [outcome_bind].
  assert (Hbs : 0 ≤ bitmap_sizeof n ∧ bitmap_sizeof n mod 4 = 0).
  { unfold bitmap_sizeof. rewrite s32_id by (unfold is_s32; lia). rewrite Z.mod_mul by lia.
    rewrite Z.quot_div_nonneg by lia. pose proof (Z.div_pos (n + 31) 32). lia. }
  destruct Hroom as (R1 & R2 & R3).
  apply returns_bind. eapply returns_mono; [apply (stalloc_spec st (bitmap_sizeof n));
    [unfold room; lia|done]|].
  intros [res st1] (-> & Hst1 & Hal1). set (f1 := free_area_start st1) in *.
  assert (Ef1 : f1 = free_area_start st + bitmap_sizeof n).
  { pose proof (Z.div_mod f1 4). pose proof (Z.div_mod (free_area_start st) 4).
    pose proof (Z.div_mod (bitmap_sizeof n) 4). lia. }
  apply returns_bind. eapply returns_mono; [apply (bitmap_init_spec memory n); lia|].
  intros bm (Hbl & Hbu & Hbz). apply returns_bind. unfold physmem_get_reserved_size.
  apply returns_bind. eapply returns_mono; [apply (stalloc_spec st1 1); [unfold room; fold f1; lia|done]|].
  intros [res st2] (-> & _ & _). fold f1. rewrite Hsz. cbn [outcome_bind returns].
  rewrite (u32_id (f1 - 0x80000000)) by (unfold is_u32; lia).
  change (if negb ((f1 - 0x80000000) mod PAGE_SIZE =? 0) then (f1 - 0x80000000) / PAGE_SIZE + 1
    else (f1 - 0x80000000) / PAGE_SIZE) with (reserved f1).
  destruct (reserved_spec f1) as [Hr1 Hr2]; [lia|]. rewrite <- Ef1 in Hres.
  apply returns_bind. eapply returns_mono; [apply (reserve_loop bm n (reserved f1));
    [split_and!; rewrite ?Hbl; auto; lia|lia|done]|].
  intros bm' [Hok' Hb']. cbn [returns]. split_and!; [|done|cbn [physmem_static_end]; lia].
  split; simpl; [done|done|lia|lia| |apply NoDup_nil_2|apply Forall_nil_2|lia].
  intros p Hp. rewrite Hb' by done. apply bool_decide_ext. rewrite elem_of_nil. naive_solver.
Qed.

(** ** Histories of the pool *)

(** Allocations and frees of held pages, in any order; [held] is what the callers
    have been given. *)
Inductive pool_step : physmem * list Z → physmem * list Z → Prop :=
| pool_alloc pm held a pm' :
    physmem_allocblock pm = Done (a, pm') → a ≠ 0 →
    pool_step (pm, held) (pm', a / PAGE_SIZE :: held)
| pool_exhausted pm held pm' :
    physmem_allocblock pm = Done (0, pm') → pool_step (pm, held) (pm', held)
| pool_release pm held p held' pm' :
    held ≡ₚ p :: held' → physmem_freeblock (p * PAGE_SIZE) pm = Done pm' →
    pool_step (pm, held) (pm', held').

Lemma pool_perm pm held held' : pool pm held → held ≡ₚ held' → pool pm held'.
Proof.
  intros [H1 H2 H3 H4 H5 H6 H7 H8] Hp. constructor; try done.
  - intros p Hr. rewrite H5 by done. apply bool_decide_ext. by rewrite Hp.
  - by rewrite <- Hp.
  - by rewrite <- Hp.
  - by rewrite <- Hp.
Qed.

Lemma pool_step_pool pm held pm' held' :
  pool pm held → pool_step (pm, held) (pm', held') →
  pool pm' held' ∧ physmem_static_end pm' = physmem_static_end pm ∧
  physmem_num_pages pm' = physmem_num_pages pm.
Proof.
  intros Hp Hs. inversion Hs as [? ? a ? Ha Hne|? ? ? Ha|? ? p ? ? Hperm Ha]; subst.
  - pose proof (allocblock_spec pm held Hp) as Hsp. rewrite Ha in Hsp.
    destruct Hsp as [(-> & _)|(p & -> & _ & _ & _ & Hpool & E1 & E2)]; [done|].
    rewrite Z.div_mul by done. done.
  - pose proof (allocblock_spec pm held' Hp) as Hsp. rewrite Ha in Hsp.
    destruct Hsp as [(_ & _ & ->)|(p & E & _ & Hr & _)]; [done|].
    unfold PAGE_SIZE in E. pose proof (pl_static _ _ Hp). lia.
  - pose proof (freeblock_spec pm held p (p * PAGE_SIZE) Hp) as Hsp. rewrite Ha in Hsp.
    destruct Hsp as (h2 & Hp2 & Hpool & E1 & E2);
      [rewrite Hperm; left|unfold PAGE_SIZE; rewrite Z.div_mul by done; done|].
    split; [|done]. apply (pool_perm _ h2); [done|].
    apply (Permutation_cons_inv (a:=p)). by rewrite <- Hp2, <- Hperm.
Qed.

Lemma pool_reachable s s' :
  rtc pool_step s s' → pool s.1 s.2 →
  pool s'.1 s'.2 ∧ physmem_static_end s'.1 = physmem_static_end s.1 ∧
  physmem_num_pages s'.1 = physmem_num_pages s.1.
Proof.
  induction 1 as [|[pm1 h1] [pm2 h2] s' Hstep _ IH]; intros Hp; [done|].
  destruct (pool_step_pool _ _ _ _ Hp Hstep) as (Hp2 & E1 & E2).
  destruct (IH Hp2) as (? & ? & ?). simpl in *. split_and!; [done|congruence..].
Qed.
