(* ===== verification/BootArgs.v ===== *)
(** * Boot arguments (drivers/bootargs.c)

    The command line of the kernel, "key1=value1 key2=value2": [bootargs_init]
    copies it, cuts it into strings where it lies and fills the table of keys and
    values; [bootargs_get] looks a key up.  Pointers into the copy are offsets;
    the value [None] is the literal [""]. *)

From S2P Require Import Prelude Libc PhysMem.

Definition CONFIG_BOOTARGS_MAX : Z := 32.

Record bootargs_t := BootArg { key : option Z; value : option Z }.

Record bootargs := BootArgs { value_area : list Z; bootargs_values : list bootargs_t }.

Definition bmemcopy (target source : list Z) (len : Z) : outcome (list Z) :=
  for_each 0 len (λ i t, let* c := aread source i in awrite t i c) target.

(** The loop for the value of the key in row [i]; [last] is where it starts. *)
Definition bootargs_value_step (l i : Z) (area : list Z) (table : list bootargs_t) (last : Z) :
    Z → outcome (Z + (list Z * list bootargs_t * Z * Z)) :=
  λ o,
    if o <=? l then
      let* c := aread area o in
      if (c =? 32) || (c =? 0) then
        let* e := aread table i in
        let* table := awrite table i (BootArg (key e) (Some last)) in
        let* area := awrite area o 0 in
        Done (inr (area, table, o + 1, o + 1))
      else Done (inl (o + 1))
    else Done (inr (area, table, o, last)).

Definition bootargs_value (l i : Z) (area : list Z) (table : list bootargs_t) (o last : Z)
    : outcome (list Z * list bootargs_t * Z * Z) :=
  while_loop (S (S (length area))) (bootargs_value_step l i area table last) o.

(** One iteration of the parser at [o]: the field that starts at [last] is for
    row [i]. *)
Definition bootargs_step (l : Z) : list Z * list bootargs_t * Z * Z * Z →
    outcome ((list Z * list bootargs_t * Z * Z * Z) + (list Z * list bootargs_t)) :=
  λ '(area, table, i, o, last),
    if o <=? l then
      let* c := aread area o in
      if (c =? 32) || (c =? 0) || (c =? 61) then
        let* table := awrite table i (BootArg (Some last) None) in
        let last := o + 1 in
        if c =? 61 then
          let* area := awrite area o 0 in
          let* '(area, table, o, last) := bootargs_value l i area table (o + 1) last in
          Done (inl (area, table, i + 1, o, last))
        else
          let* area := awrite area o 0 in
          Done (inl (area, table, i + 1, o + 1, last))
      else Done (inl (area, table, i, o + 1, last))
    else Done (inr (area, table)).

Definition bootargs_parse (l : Z) (area : list Z) (table : list bootargs_t)
    : outcome (list Z * list bootargs_t) :=
  while_loop (S (S (length area))) (bootargs_step l) (area, table, 0, 0, 0).

(** [memory] is what the words [stalloc] hands out for the copy hold. *)
Definition bootargs_init (args : option (list Z)) (memory : list Z) (b : bootargs) (st : stalloc_t)
    : outcome (bootargs * stalloc_t) :=
  let* table := for_each 0 CONFIG_BOOTARGS_MAX (λ i t,
      let* e := aread t i in awrite t i (BootArg None (value e))) (bootargs_values b) in
  match args with
  | None => Done (BootArgs (value_area b) table, st)
  | Some bootarg_area =>
      let* l := strlen bootarg_area in
      let* '(_, st) := stalloc (l + 1) st in
      let* area := bmemcopy memory bootarg_area (l + 1) in
      let* '(area, table) := bootargs_parse l area table in
      Done (BootArgs area table, st)
  end.

(** The key of a row against [k]: equal up to the terminating zeros. *)
Definition bootargs_matches (area : list Z) (p : Z) (k : list Z) : outcome bool :=
  while_loop (S (length k)) (λ o,
    let* a := aread area (p + o) in
    let* c := aread k o in
    if a =? c then if c =? 0 then Done (inr true) else Done (inl (o + 1))
    else Done (inr false)) 0.

(** The answer is NULL or a value. *)
Definition bootargs_get_step (b : bootargs) (k : list Z) (i : Z)
    : unit → outcome (unit + option (option Z)) :=
  λ _,
    let* e := aread (bootargs_values b) i in
    match key e with
    | None => Done (inr None)
    | Some p =>
        let* same := bootargs_matches (value_area b) p k in
        if (same : bool) then Done (inr (Some (value e))) else Done (inl tt)
    end.

Definition bootargs_get (b : bootargs) (k : list Z) : outcome (option (option Z)) :=
  let* r := for_loop 0 CONFIG_BOOTARGS_MAX (bootargs_get_step b k) tt in
  Done (match r with inl _ => None | inr a => a end).

(** ** What a command line says *)
Fixpoint split_spaces (s : list Z) : list (list Z) :=
  match s with
  | [] => [[]]
  | c :: s =>
      if c =? 32 then [] :: split_spaces s
      else match split_spaces s with t :: ts => (c :: t) :: ts | [] => [[c]] end
  end.

(** Key and value of a field. *)
Fixpoint split_field (t : list Z) : list Z * list Z :=
  match t with
  | [] => ([], [])
  | c :: t => if c =? 61 then ([], t) else let '(k, v) := split_field t in (c :: k, v)
  end.

Definition arguments (s : list Z) : list (list Z * list Z) := split_field <$> split_spaces s.

Fixpoint argument (k : list Z) (l : list (list Z * list Z)) : option (list Z) :=
  match l with
  | [] => None
  | (k', v) :: l => if decide (k' = k) then Some v else argument k l
  end.

(** The command line that gives [args]. *)
Definition field_of (a : list Z * list Z) : list Z := a.1 ++ 61 :: a.2.
Fixpoint join_spaces (ts : list (list Z)) : list Z :=
  match ts with
  | [] => []
  | [t] => t
  | t :: ts => t ++ 32 :: join_spaces ts
  end.
Definition command_line (args : list (list Z * list Z)) : list Z := join_spaces (field_of <$> args).

(** ** The parser on one field *)
(** A field without its separator, cut into strings. *)
Fixpoint cut (t : list Z) : list Z :=
  match t with [] => [] | c :: t => if c =? 61 then 0 :: t else c :: cut t end.

Lemma length_cut t : length (cut t) = length t.
Proof. induction t as [|c t IH]; simpl; [done|]. destruct (c =? 61); simpl; by rewrite ?IH. Qed.

Definition plain (c : Z) : Prop := c ≠ 32 ∧ c ≠ 0.

(** The value runs to the next space or to the end. *)
Lemma value_run l i area table e last c R v : ∀ P fuel,
  area = P ++ v ++ c :: R → Forall plain v → c = 32 ∨ c = 0 →
  Z.of_nat (length (P ++ v)) ≤ l → aread table i = Done e → (length v < fuel)%nat →
  while_loop fuel (bootargs_value_step l i area table last) (Z.of_nat (length P)) =
  let n := Z.of_nat (length (P ++ v)) + 1 in
  let* table := awrite table i (BootArg (key e) (Some last)) in
  Done (P ++ v ++ 0 :: R, table, n, n).
Proof.
  induction v as [|x v IH]; intros P fuel Ha Hp Hc Hl He Hf; (destruct fuel as [|fuel]; [simpl in Hf; lia|]);
    rewrite while_loop_S; unfold bootargs_value_step at 2; cbv beta; rewrite length_app in Hl;
    rewrite (proj2 (Z.leb_le _ _)) by lia; rewrite Ha; cbn [app].
  - rewrite aread_middle by done. cbn [outcome_bind].
    replace ((c =? 32) || (c =? 0)) with true by (symmetry; apply orb_true_iff; rewrite !Z.eqb_eq; done).
    rewrite He. cbn [outcome_bind]. destruct (awrite table i _); try done. cbn [outcome_bind].
    rewrite (awrite_middle P R c 0) by done. cbn [outcome_bind]. by rewrite app_nil_r.
  - rewrite aread_middle by done. cbn [outcome_bind]. apply Forall_cons in Hp as [[Hx32 Hx0] Hp].
    rewrite (proj2 (Z.eqb_neq x 32)), (proj2 (Z.eqb_neq x 0)) by done. cbn [orb outcome_bind].
    replace (Z.of_nat (length P) + 1) with (Z.of_nat (length (P ++ [x]))) by (rewrite length_app; simpl; lia).
    change (P ++ x :: v ++ c :: R) with (P ++ [x] ++ v ++ c :: R). rewrite (assoc_L (++) P). subst area.
    cbn [length] in *.
    specialize (IH (P ++ [x]) fuel). rewrite <- !(assoc_L (++)) in IH |- *. cbn [app] in IH |- *.
    rewrite IH; try done; [|rewrite !length_app; cbn [length]; lia|lia].
    rewrite <- !(assoc_L (++)). done.
Qed.

(** The characters of a key, without effect. *)
Lemma key_run l i area table last R k : ∀ P fuel,
  area = P ++ k ++ R → Forall plain k → 61 ∉ k → Z.of_nat (length (P ++ k)) ≤ l →
  while_loop (length k + fuel) (bootargs_step l) (area, table, i, Z.of_nat (length P), last) =
  while_loop fuel (bootargs_step l) (area, table, i, Z.of_nat (length (P ++ k)), last).
Proof.
  induction k as [|x k IH]; intros P fuel Ha Hp Hx Hl; [by rewrite app_nil_r|]. rewrite length_app in Hl.
  cbn [length Nat.add] in *. rewrite while_loop_S. unfold bootargs_step at 2. cbv beta match.
  rewrite (proj2 (Z.leb_le _ _)) by lia. rewrite Ha at 1. cbn [app]. rewrite aread_middle by done. cbn [outcome_bind].
  apply Forall_cons in Hp as [[Hx32 Hx0] Hp]. apply not_elem_of_cons in Hx as [Hx61 Hx].
  rewrite (proj2 (Z.eqb_neq x 32)), (proj2 (Z.eqb_neq x 0)), (proj2 (Z.eqb_neq x 61)) by done.
  cbn [orb outcome_bind].
  replace (Z.of_nat (length P) + 1) with (Z.of_nat (length (P ++ [x]))) by (rewrite length_app; simpl; lia).
  specialize (IH (P ++ [x]) fuel). rewrite <- !(assoc_L (++)) in IH. cbn [app] in IH.
  apply IH; try done. rewrite !length_app. cbn [length]. lia.
Qed.

Lemma split_field_cases t :
  let '(k, v) := split_field t in
  (61 ∉ t ∧ k = t ∧ v = [] ∧ cut t = t) ∨ (t = k ++ 61 :: v ∧ 61 ∉ k ∧ cut t = k ++ 0 :: v).
Proof.
  induction t as [|c t IH]; simpl; [left; by split_and!; [apply not_elem_of_nil|..]|].
  destruct (Z.eqb_spec c 61) as [->|Hc]; [right; by split_and!; [|apply not_elem_of_nil|]|].
  destruct (split_field t) as [k v]. destruct IH as [(Hn & -> & -> & ->)|(-> & Hn & ->)]; [left|right];
    (split_and!; [..|done]; try done); apply not_elem_of_cons; by split.
Qed.

Definition row_of (base : Z) (t : list Z) : bootargs_t :=
  BootArg (Some base) (if bool_decide (61 ∈ t) then Some (base + Z.of_nat (length (split_field t).1) + 1) else None).

Lemma is_separator c : c = 32 ∨ c = 0 → (c =? 32) || (c =? 0) = true ∧ (c =? 61) = false.
Proof. by intros [-> | ->]. Qed.

(** One field: a row of the table, and the strings cut where they lie. *)
Lemma field_run l i area table P t c R fuel :
  area = P ++ t ++ c :: R → Forall plain t → c = 32 ∨ c = 0 → Z.of_nat (length (P ++ t)) ≤ l →
  while_loop (length (split_field t).1 + S fuel) (bootargs_step l)
    (area, table, i, Z.of_nat (length P), Z.of_nat (length P)) =
  let n := Z.of_nat (length (P ++ t)) + 1 in
  let* table := awrite table i (row_of (Z.of_nat (length P)) t) in
  while_loop fuel (bootargs_step l) (P ++ cut t ++ 0 :: R, table, i + 1, n, n).
Proof.
  intros -> Hp Hc Hl. apply is_separator in Hc as Hc'. destruct Hc' as [Hsep Heq].
  pose proof (split_field_cases t) as Ht. unfold row_of. destruct (split_field t) as [k v]. cbn [fst].
  destruct Ht as [(Hn & -> & -> & ->)|(-> & Hn & ->)].
  - rewrite (key_run l i _ table _ (c :: R) t P) by done. rewrite while_loop_S.
    unfold bootargs_step at 2. cbv beta match. rewrite (proj2 (Z.leb_le _ _)) by lia.
    rewrite (assoc_L (++)), aread_middle by done. cbn [outcome_bind]. rewrite Hsep, Heq. cbn [orb].
    rewrite bool_decide_false by done. destruct (awrite table i _); try done. cbn [outcome_bind].
    rewrite (awrite_middle (P ++ t)) by done. cbn [outcome_bind]. by rewrite <- (assoc_L (++)).
  - apply Forall_app in Hp as [Hpk [_ Hpv]%Forall_cons].
    rewrite !length_app in Hl. cbn [length] in Hl.
    rewrite (key_run l i _ table _ (61 :: v ++ c :: R) k P); [|by rewrite <- (assoc_L (++))|done|done|rewrite length_app; lia].
    rewrite while_loop_S. unfold bootargs_step at 2. cbv beta match.
    rewrite (proj2 (Z.leb_le _ _)) by (rewrite length_app; lia).
    rewrite <- (assoc_L (++) k), (assoc_L (++) P). cbn [app]. rewrite aread_middle by done. cbn [outcome_bind Z.eqb Pos.eqb orb].
    rewrite bool_decide_true by set_solver.
    destruct (decide (0 ≤ i < Z.of_nat (length table))) as [Hi|Hi].
    2: { by rewrite !(awrite_outside table). }
    rewrite !(awrite_in_range table) by done. cbn [outcome_bind].
    rewrite awrite_middle by done. cbn [outcome_bind].
    unfold bootargs_value.
    replace (Z.of_nat (length (P ++ k)) + 1) with (Z.of_nat (length ((P ++ k) ++ [0]))) by (rewrite length_app; simpl; lia).
    rewrite (value_run _ _ _ _ (BootArg (Some (Z.of_nat (length P))) None) _ c R v ((P ++ k) ++ [0])).
    + cbn [key]. rewrite awrite_in_range by (rewrite length_insert; lia). cbn [outcome_bind].
      rewrite list_insert_insert_eq. rewrite !length_app, <- !(assoc_L (++)). cbn [length app].
      replace (length P + length k + 1 + length v)%nat with (length P + (length k + S (length v)))%nat by lia.
      by replace (Z.of_nat (length P) + Z.of_nat (length k) + 1) with (Z.of_nat (length P + length k + 1)) by lia.
    + by rewrite <- !(assoc_L (++)).
    + done.
    + done.
    + rewrite !length_app. cbn [length]. lia.
    + rewrite (aread_Some _ _ (BootArg (Some (Z.of_nat (length P))) None)); [done|lia|].
      rewrite list_lookup_insert_eq; [done|lia].
    + rewrite !length_app. cbn [length]. rewrite length_app. lia.
Qed.

Fixpoint rows_of (base : Z) (ts : list (list Z)) : list bootargs_t :=
  match ts with
  | [] => []
  | t :: ts => row_of base t :: rows_of (base + Z.of_nat (length t) + 1) ts
  end.

Definition cut_all (ts : list (list Z)) : list Z := concat ((λ t, cut t ++ [0]) <$> ts).

Lemma length_rows base ts : length (rows_of base ts) = length ts.
Proof. revert base. induction ts as [|t ts IH]; intros base; simpl; [done|]. by rewrite IH. Qed.

Lemma key_length t : (length (split_field t).1 ≤ length t)%nat.
Proof.
  pose proof (split_field_cases t) as Ht. destruct (split_field t) as [k v]. simpl.
  destruct Ht as [(_ & -> & _)|(-> & _)]; rewrite ?length_app; lia.
Qed.

(** All fields, if the table has room for them. *)
Lemma fields_run l ts : ∀ P table i fuel,
  ts ≠ [] → Forall (Forall plain) ts → l = Z.of_nat (length (P ++ join_spaces ts)) →
  (i ≤ length table)%nat → (S (length (join_spaces ts)) < fuel)%nat →
  while_loop fuel (bootargs_step l)
    (P ++ join_spaces ts ++ [0], table, Z.of_nat i, Z.of_nat (length P), Z.of_nat (length P)) =
  if decide (i + length ts ≤ length table)%nat then
    Done (P ++ cut_all ts, take i table ++ rows_of (Z.of_nat (length P)) ts ++ drop (i + length ts) table)
  else Fault.
Proof.
  induction ts as [|t ts IH]; intros P table i fuel Hne Hp Hl Hi Hf; [done|].
  apply Forall_cons in Hp as [Hpt Hp]. pose proof (key_length t) as Hk.
  set (c := if decide (ts = []) then 0 else 32).
  set (R := if decide (ts = []) then [] else join_spaces ts ++ [0]).
  assert (Ej : join_spaces (t :: ts) ++ [0] = t ++ c :: R).
  { unfold c, R. destruct ts as [|t2 ts]; [done|]. rewrite !decide_False by done.
    change (join_spaces (t :: t2 :: ts)) with (t ++ 32 :: join_spaces (t2 :: ts)). by rewrite <- (assoc_L (++)). }
  assert (Hlj : (length t ≤ length (join_spaces (t :: ts)))%nat).
  { apply (f_equal length) in Ej. rewrite !length_app in Ej. cbn [length] in Ej. lia. }
  rewrite length_app in Hl. rewrite Ej.
  replace fuel with (length (split_field t).1 + S (fuel - length (split_field t).1 - 1))%nat by lia.
  rewrite (field_run l (Z.of_nat i) _ table P t c R); [|done|done| |rewrite length_app; lia].
  2: { unfold c. case_decide; auto. }
  cbv zeta. cbn [length]. destruct (decide (i = length table)) as [->|Hlt].
  { rewrite awrite_outside by lia. rewrite decide_False by lia. done. }
  rewrite awrite_in_range by lia. cbn [outcome_bind]. rewrite Nat2Z.id.
  assert (Htab : ∀ x, take (S i) (<[i := x]> table) = take i table ++ [x]).
  { intros x. rewrite (take_S_r _ _ x) by (rewrite list_lookup_insert_eq; [done|lia]).
    rewrite take_insert_ge by lia. done. }
  destruct (decide (ts = [])) as [->|Hts].
  - unfold c, R. cbn [length]. rewrite (decide_True _ _ (P := i + 1 ≤ length table)%nat) by lia.
    destruct (fuel - length (split_field t).1 - 1)%nat as [|f] eqn:Ef.
    { cbn [join_spaces] in Hf. lia. }
    rewrite while_loop_S. unfold bootargs_step at 2. cbv beta match.
    rewrite (proj2 (Z.leb_gt _ _)) by (rewrite length_app; cbn [join_spaces] in Hl; lia).
    cbn [outcome_bind]. unfold cut_all. simpl. rewrite app_nil_r. do 2 f_equal.
    rewrite insert_take_drop by lia. by rewrite Nat.add_1_r.
  - assert (HR : R = join_spaces ts ++ [0]) by done.
    assert (Hlen : length (join_spaces (t :: ts)) = (length t + S (length (join_spaces ts)))%nat).
    { apply (f_equal length) in Ej. rewrite HR, !length_app in Ej. cbn [length] in Ej.
      rewrite length_app in Ej. cbn [length] in Ej. lia. }
    rewrite HR. specialize (IH (P ++ cut t ++ [0]) (<[i := row_of (Z.of_nat (length P)) t]> table) (S i)
      (fuel - length (split_field t).1 - 1)%nat Hts Hp).
    replace (Z.of_nat (length (P ++ cut t ++ [0]))) with (Z.of_nat (length (P ++ t)) + 1) in IH
      by (rewrite !length_app, length_cut; cbn [length]; lia).
    rewrite <- !(assoc_L (++)) in IH. cbn [app] in IH. replace (Z.of_nat i + 1) with (Z.of_nat (S i)) by lia.
    rewrite IH; [|rewrite !length_app, length_cut; cbn [length app]; rewrite Hlen in Hl; rewrite ?length_app; cbn [length]; lia|
      rewrite length_insert; lia|lia].
    rewrite length_insert. destruct (decide (S i + length ts ≤ length table)%nat) as [Hr|Hr].
    + rewrite decide_True by lia. unfold cut_all. simpl. rewrite Htab.
      rewrite drop_insert_lt by lia. rewrite <- !(assoc_L (++)). cbn [app]. do 2 f_equal.
      replace (Z.of_nat (length (P ++ t)) + 1) with (Z.of_nat (length P) + Z.of_nat (length t) + 1)
        by (rewrite length_app; lia).
      by replace (i + S (length ts))%nat with (S (i + length ts)) by lia.
    + by rewrite decide_False by lia.
Qed.

(** ** Looking keys up *)
Lemma matches_run area k p : ∀ k1 k2 o fuel,
  cstr (drop (p + o) area) k1 → cstr (drop o k) k2 → (length k2 < fuel)%nat →
  while_loop fuel (λ o,
    let* a := aread area (Z.of_nat p + o) in
    let* c := aread k o in
    if a =? c then if c =? 0 then Done (inr true) else Done (inl (o + 1))
    else Done (inr false)) (Z.of_nat o) = Done (bool_decide (k1 = k2)).
Proof.
  intros k1 k2. revert k1. induction k2 as [|c k2 IH]; intros k1 o fuel H1 H2 Hf;
    (destruct fuel as [|fuel]; [simpl in Hf; lia|]); rewrite while_loop_S;
    rewrite <- Nat2Z.inj_add; destruct H1 as [Hn1 [r1 E1]], H2 as [Hn2 [r2 E2]]; simpl in E2;
    rewrite (aread_drop _ _ _ _ E2).
  - destruct k1 as [|c1 k1]; simpl in E1; rewrite (aread_drop _ _ _ _ E1); cbn [outcome_bind].
    + by rewrite bool_decide_true.
    + rewrite (proj2 (Z.eqb_neq _ _)) by set_solver. by rewrite bool_decide_false.
  - apply not_elem_of_cons in Hn2 as [Hc Hn2].
    destruct k1 as [|c1 k1]; simpl in E1; rewrite (aread_drop _ _ _ _ E1); cbn [outcome_bind].
    + rewrite (proj2 (Z.eqb_neq 0 c)) by done. by rewrite bool_decide_false.
    + destruct (Z.eqb_spec c1 c) as [->|Hne]; [|by rewrite bool_decide_false by congruence].
      rewrite (proj2 (Z.eqb_neq c 0)) by done. cbn [outcome_bind].
      apply not_elem_of_cons in Hn1 as [_ Hn1].
      replace (Z.of_nat o + 1) with (Z.of_nat (S o)) by lia. rewrite (IH k1).
      * f_equal. apply bool_decide_ext. naive_solver.
      * split; [done|]. exists r1. rewrite Nat.add_succ_r. by apply drop_tail in E1.
      * split; [done|]. exists r2. by apply drop_tail in E2.
      * simpl in Hf. lia.
Qed.

Definition value_is (area : list Z) (p : option Z) (v : list Z) : Prop :=
  match p with None => v = [] | Some o => ∃ n, o = Z.of_nat n ∧ cstr (drop n area) v end.

Definition row_is (area : list Z) (e : bootargs_t) (a : list Z * list Z) : Prop :=
  ∃ p, key e = Some (Z.of_nat p) ∧ cstr (drop p area) a.1 ∧ value_is area (value e) a.2.

Lemma get_run b kmem k : cstr kmem k → ∀ rows args rest i n,
  Forall2 (row_is (value_area b)) rows args → drop i (bootargs_values b) = rows ++ rest →
  Forall (λ e, key e = None) rest → n = length (rows ++ rest) →
  returns (for_from n (Z.of_nat i) (bootargs_get_step b kmem) tt) (λ r,
    match argument k args with
    | None => r = inl tt ∨ r = inr None
    | Some v => ∃ p, r = inr (Some p) ∧ value_is (value_area b) p v
    end).
Proof.
  intros Hk rows args rest i n Hr. revert i n. induction Hr as [|e [k1 v1] rows args He _ IH]; intros i n Ed Hrest ->.
  - simpl in *. destruct rest as [|e rest]; [by left|]. simpl.
    unfold bootargs_get_step at 1. rewrite (aread_drop _ _ _ _ Ed). cbn [outcome_bind].
    apply Forall_cons in Hrest as [-> _]. by right.
  - simpl in *. unfold bootargs_get_step at 1. rewrite (aread_drop _ _ _ _ Ed). cbn [outcome_bind].
    destruct He as (p & -> & Hk1 & Hv). simpl in Hk1, Hv. unfold bootargs_matches.
    rewrite (matches_run _ _ p k1 k 0); [|by rewrite Nat.add_0_r|by rewrite drop_0|].
    2: { pose proof (cstr_length _ _ Hk). lia. }
    cbn [outcome_bind]. destruct (decide (k1 = k)) as [->|Hne].
    + rewrite bool_decide_true by done. cbn [returns]. by exists (value e).
    + rewrite bool_decide_false by done. replace (Z.of_nat i + 1) with (Z.of_nat (S i)) by lia.
      apply IH; [by apply drop_tail in Ed|done|done].
Qed.

(** The rows the parser makes. *)
Lemma row_of_is P t R :
  Forall plain t → row_is (P ++ cut t ++ 0 :: R) (row_of (Z.of_nat (length P)) t) (split_field t).
Proof.
  intros Hp. pose proof (split_field_cases t) as Ht. unfold row_of. destruct (split_field t) as [k v].
  assert (H0 : 0 ∉ t) by (intros Hin; by apply (proj1 (Forall_forall _ _) Hp) in Hin as [_ ?]).
  exists (length P). cbn [key value fst snd]. split; [done|]. rewrite drop_app_length.
  destruct Ht as [(Hn & -> & -> & ->)|(-> & Hn & ->)].
  - rewrite bool_decide_false by done. split; [|done]. split; [done|by eexists].
  - rewrite bool_decide_true by set_solver. split.
    + split; [set_solver|]. eexists. by rewrite <- (assoc_L (++)).
    + exists (length (P ++ k ++ [0])). split; [rewrite !length_app; simpl; lia|].
      split; [set_solver|]. exists R. rewrite <- (assoc_L (++)). cbn [app].
      replace (P ++ k ++ 0 :: v ++ 0 :: R) with ((P ++ k ++ [0]) ++ v ++ 0 :: R) by (by rewrite <- !(assoc_L (++))).
      by rewrite drop_app_length.
Qed.

Lemma rows_are ts : ∀ P, Forall (Forall plain) ts →
  Forall2 (row_is (P ++ cut_all ts)) (rows_of (Z.of_nat (length P)) ts) (split_field <$> ts).
Proof.
  unfold cut_all. induction ts as [|t ts IH]; intros P Hp; simpl; [done|]. apply Forall_cons in Hp as [Ht Hp].
  rewrite <- (assoc_L (++) (cut t)). constructor; [by apply row_of_is|].
  specialize (IH (P ++ cut t ++ [0]) Hp). rewrite <- !(assoc_L (++)) in IH. rewrite !length_app, length_cut in IH.
  cbn [length] in IH.
  by replace (Z.of_nat (length P) + Z.of_nat (length t) + 1) with (Z.of_nat (length P + (length t + 1))) by lia.
Qed.

(** ** Splitting *)
Lemma split_spaces_spec s :
  split_spaces s ≠ [] ∧ join_spaces (split_spaces s) = s ∧
  Forall (λ t, 32 ∉ t ∧ ∀ c, c ∈ t → c ∈ s) (split_spaces s).
Proof.
  induction s as [|c s (Hne & Ej & Hf)]; simpl.
  { split_and!; [done|done|]. apply Forall_singleton. split; [apply not_elem_of_nil|done]. }
  destruct (Z.eqb_spec c 32) as [->|Hc].
  - split_and!; [done| |].
    + destruct (split_spaces s); [done|]. by rewrite <- Ej.
    + constructor; [split; [apply not_elem_of_nil|set_solver]|].
      eapply Forall_impl; [exact Hf|]. simpl. intros t [? Ht]. split; [done|]. intros x Hx. right. by apply Ht.
  - destruct (split_spaces s) as [|t ts]; [done|]. apply Forall_cons in Hf as [[Ht Ht'] Hf].
    split_and!; [done| |].
    + rewrite <- Ej. by destruct ts.
    + constructor; [split; set_solver|].
      eapply Forall_impl; [exact Hf|]. simpl. intros u [? Hu]. split; [done|]. intros x Hx. right. by apply Hu.
Qed.

Lemma split_join ts : ts ≠ [] → Forall (λ t, 32 ∉ t) ts → split_spaces (join_spaces ts) = ts.
Proof.
  assert (Hone : ∀ t R, 32 ∉ t → split_spaces (t ++ 32 :: R) = t :: split_spaces R).
  { induction t as [|c t IH]; intros R Ht; simpl; [done|]. apply not_elem_of_cons in Ht as [Hc Ht].
    rewrite (proj2 (Z.eqb_neq c 32)) by done. by rewrite IH. }
  assert (Hlast : ∀ t, 32 ∉ t → split_spaces t = [t]).
  { induction t as [|c t IH]; intros Ht; simpl; [done|]. apply not_elem_of_cons in Ht as [Hc Ht].
    rewrite (proj2 (Z.eqb_neq c 32)) by done. by rewrite IH. }
  intros Hne Hf. induction ts as [|t [|t2 ts] IH]; [done| |].
  { apply Hlast. by apply Forall_cons in Hf as [? _]. }
  apply Forall_cons in Hf as [Ht Hf]. simpl. rewrite Hone by done. f_equal. by apply IH.
Qed.

(** ** Start-up *)
Lemma bmemcopy_spec target source n :
  (n ≤ length source)%nat → length target = n →
  bmemcopy target source (Z.of_nat n) = Done (take n source).
Proof.
  intros Hs <-. unfold bmemcopy. rewrite copy_loop_spec by lia. by rewrite drop_all, app_nil_r.
Qed.

Lemma reset_spec table :
  Z.of_nat (length table) = CONFIG_BOOTARGS_MAX →
  for_each 0 CONFIG_BOOTARGS_MAX (λ i t, let* e := aread t i in awrite t i (BootArg None (value e))) table =
  Done ((λ e, BootArg None (value e)) <$> table).
Proof.
  intros Hl. set (f := λ e, BootArg None (value e)).
  assert (Hr : returns (for_each 0 CONFIG_BOOTARGS_MAX (λ i t, let* e := aread t i in awrite t i (BootArg None (value e))) table)
    (λ t, t = (f <$> take (length table) table) ++ drop (length table) table)).
  { apply returns_mono with (λ t, t = (f <$> take (Z.to_nat CONFIG_BOOTARGS_MAX) table) ++ drop (Z.to_nat CONFIG_BOOTARGS_MAX) table);
      [|by rewrite <- Hl, Nat2Z.id].
    apply (for_each_inv (λ i t, t = (f <$> take (Z.to_nat i) table) ++ drop (Z.to_nat i) table)); [done|done|].
    intros j t Hj ->. destruct (lookup_lt_is_Some_2 table (Z.to_nat j)) as [x Hx]; [unfold CONFIG_BOOTARGS_MAX in *; lia|].
    pose proof (lookup_lt_Some _ _ _ Hx) as Hlt.
    rewrite (drop_S _ _ _ Hx). rewrite aread_middle by (rewrite length_fmap, length_take; lia). cbn [outcome_bind].
    rewrite awrite_middle by (rewrite length_fmap, length_take; lia). cbn [returns].
    replace (Z.to_nat (j + 1)) with (S (Z.to_nat j)) by lia.
    by rewrite (take_S_r _ _ _ Hx), fmap_app, <- (assoc_L (++)). }
  destruct (for_each _ _ _ _); try done. simpl in Hr. by rewrite Hr, drop_ge, app_nil_r, take_ge by lia.
Qed.

(** The fields of a command line. *)
Lemma fields_plain mem s : cstr mem s → Forall (Forall plain) (split_spaces s).
Proof.
  intros [H0 _]. destruct (split_spaces_spec s) as (_ & _ & Hf). eapply Forall_impl; [exact Hf|].
  intros t [Ht Hs]. apply Forall_forall. intros c Hc. split; [by intros ->|]. intros ->. by apply H0, Hs.
Qed.

(** The whole of [bootargs_init], up to the strings it leaves. *)
Lemma bootargs_init_run mem s memory b st :
  cstr mem s → Z.of_nat (length s) < 2 ^ 31 - 1 → length memory = S (length s) →
  Z.of_nat (length (bootargs_values b)) = CONFIG_BOOTARGS_MAX →
  room st (Z.of_nat (length s) + 1) → free_area_start st mod 4 = 0 →
  let ts := split_spaces s in
  if decide (Z.of_nat (length ts) ≤ CONFIG_BOOTARGS_MAX) then
    returns (bootargs_init (Some mem) memory b st) (λ '(b', _), value_area b' = cut_all ts ∧
      ∃ rest, bootargs_values b' = rows_of 0 ts ++ rest ∧ Forall (λ e, key e = None) rest ∧
        Z.of_nat (length (bootargs_values b')) = CONFIG_BOOTARGS_MAX)
  else bootargs_init (Some mem) memory b st = Fault.
Proof.
  intros Hs Hl Hm Hb Hroom Hal ts. unfold bootargs_init. rewrite reset_spec by done. cbn [outcome_bind].
  rewrite (strlen_spec _ _ Hs) by lia. cbn [outcome_bind].
  destruct (returns_inv _ _ (stalloc_spec st _ Hroom Hal)) as ([res st'] & -> & _). cbn [outcome_bind].
  replace (Z.of_nat (length s) + 1) with (Z.of_nat (S (length s))) by lia.
  assert (Hcopy : bmemcopy memory mem (Z.of_nat (S (length s))) = Done (s ++ [0])).
  { rewrite bmemcopy_spec; [|by apply cstr_length|done]. destruct Hs as [_ [rest ->]].
    f_equal. rewrite firstn_app, take_ge by lia. f_equal.
    by replace (S (length s) - length s)%nat with 1%nat by lia. }
  rewrite Hcopy. cbn [outcome_bind]. unfold bootargs_parse.
  set (table := (λ e, BootArg None (value e)) <$> bootargs_values b).
  assert (Htab : Z.of_nat (length table) = CONFIG_BOOTARGS_MAX) by (unfold table; by rewrite length_fmap).
  destruct (split_spaces_spec s) as (Hne & Ej & _).
  pose proof (fields_run (Z.of_nat (length s)) ts [] table 0 (S (S (length (s ++ [0])))) Hne
    (fields_plain _ _ Hs)) as Hrun.
  unfold ts in Hrun. rewrite Ej in Hrun. cbn [app length Nat.add] in Hrun.
  change (Z.of_nat 0) with 0 in Hrun. rewrite Hrun; [|done|lia|rewrite length_app; simpl; lia].
  fold ts. unfold CONFIG_BOOTARGS_MAX in *. destruct (decide (Z.of_nat (length ts) ≤ 32)) as [Hd|Hd].
  - rewrite decide_True by lia. cbn [outcome_bind returns value_area bootargs_values take app]. split; [done|].
    exists (drop (length ts) table). split_and!; [done| |].
    + apply Forall_drop, Forall_fmap, Forall_true. done.
    + rewrite !length_app, length_rows, length_drop. change (length (take 0 table)) with 0%nat. lia.
  - by rewrite decide_False by lia.
Qed.

(** The table after [bootargs_init]: a row for each field, in order, and no more. *)
Definition table_of (b : bootargs) (args : list (list Z * list Z)) : Prop :=
  Z.of_nat (length (bootargs_values b)) = CONFIG_BOOTARGS_MAX ∧
  ∃ rows rest, bootargs_values b = rows ++ rest ∧ Forall2 (row_is (value_area b)) rows args ∧
    Forall (λ e, key e = None) rest.

Lemma bootargs_init_table mem s memory b st :
  cstr mem s → Z.of_nat (length s) < 2 ^ 31 - 1 → length memory = S (length s) →
  Z.of_nat (length (bootargs_values b)) = CONFIG_BOOTARGS_MAX →
  room st (Z.of_nat (length s) + 1) → free_area_start st mod 4 = 0 →
  Z.of_nat (length (split_spaces s)) ≤ CONFIG_BOOTARGS_MAX →
  returns (bootargs_init (Some mem) memory b st) (λ '(b', _), table_of b' (arguments s)).
Proof.
  intros Hs Hl Hm Hb Hroom Hal Hn. pose proof (bootargs_init_run mem s memory b st Hs Hl Hm Hb Hroom Hal) as Hr.
  cbv zeta in Hr. rewrite decide_True in Hr by done. eapply returns_mono; [exact Hr|].
  intros [b' st'] (Ea & rest & Et & Hrest & Hlen). split; [done|]. eexists _, rest. split_and!; [exact Et| |done].
  pose proof (rows_are (split_spaces s) [] (fields_plain _ _ Hs)) as Hrows. cbn [app length] in Hrows.
  rewrite Ea. exact Hrows.
Qed.

(** Looking a key up in such a table. *)
Lemma bootargs_get_table b args kmem k :
  table_of b args → cstr kmem k →
  returns (bootargs_get b kmem) (λ r,
    match argument k args with
    | None => r = None
    | Some v => ∃ p, r = Some p ∧ value_is (value_area b) p v
    end).
Proof.
  intros (Hlen & rows & rest & Et & Hrows & Hrest) Hk. unfold bootargs_get. eapply returns_bind, returns_mono.
  { unfold for_loop. apply (get_run b kmem k Hk rows args rest 0 _ Hrows); [by rewrite drop_0|done|].
    rewrite <- Et. unfold CONFIG_BOOTARGS_MAX in *. lia. }
  intros r Ha. cbn [returns]. destruct (argument k _).
  - destruct Ha as (p & -> & Hp). by exists p.
  - by destruct Ha as [-> | ->].
Qed.

(** C38. [bootargs_init] returns for a command line of at most 32 fields, and
    [bootargs_get] then answers for every key the value of the first field with
    that key, or NULL: a field ends at a space, its key at the first '=' in it,
    and a field without '=' has the empty value.  Each space ends a field, so
    that a space at the end or two in a row give a field with the empty key. *)
Theorem bootargs_get_correct mem s memory b st :
  cstr mem s → Z.of_nat (length s) < 2 ^ 31 - 1 → length memory = S (length s) →
  Z.of_nat (length (bootargs_values b)) = CONFIG_BOOTARGS_MAX →
  room st (Z.of_nat (length s) + 1) → free_area_start st mod 4 = 0 →
  Z.of_nat (length (split_spaces s)) ≤ CONFIG_BOOTARGS_MAX →
  returns (bootargs_init (Some mem) memory b st) (λ '(b', _), ∀ kmem k, cstr kmem k →
    returns (bootargs_get b' kmem) (λ r,
      match argument k (arguments s) with
      | None => r = None
      | Some v => ∃ p, r = Some p ∧ value_is (value_area b') p v
      end)).
Proof.
  intros. eapply returns_mono; [by apply (bootargs_init_table mem s)|]. intros [b' st'] Ht kmem k.
  by apply bootargs_get_table.
Qed.

(** A command line of more than 32 fields makes [bootargs_init] write past the
    end of its table. *)
Theorem bootargs_overflow mem s memory b st :
  cstr mem s → Z.of_nat (length s) < 2 ^ 31 - 1 → length memory = S (length s) →
  Z.of_nat (length (bootargs_values b)) = CONFIG_BOOTARGS_MAX →
  room st (Z.of_nat (length s) + 1) → free_area_start st mod 4 = 0 →
  CONFIG_BOOTARGS_MAX < Z.of_nat (length (split_spaces s)) →
  bootargs_init (Some mem) memory b st = Fault.
Proof.
  intros Hs Hl Hm Hb Hroom Hal Hn. pose proof (bootargs_init_run mem s memory b st Hs Hl Hm Hb Hroom Hal) as Hr.
  cbv zeta in Hr. by rewrite decide_False in Hr by lia.
Qed.

(** ** Command lines that are written down *)
Definition good_argument (a : list Z * list Z) : Prop :=
  Forall plain a.1 ∧ 61 ∉ a.1 ∧ Forall plain a.2.

Lemma split_field_of k v : 61 ∉ k → split_field (k ++ 61 :: v) = (k, v).
Proof.
  induction k as [|c k IH]; intros Hk; simpl; [done|]. apply not_elem_of_cons in Hk as [Hc Hk].
  rewrite (proj2 (Z.eqb_neq c 61)) by done. by rewrite IH.
Qed.

Lemma arguments_command_line args :
  args ≠ [] → Forall good_argument args →
  split_spaces (command_line args) = field_of <$> args ∧ arguments (command_line args) = args.
Proof.
  intros Hne Hg. assert (Es : split_spaces (command_line args) = field_of <$> args).
  { apply split_join; [by destruct args|]. apply Forall_fmap. eapply Forall_impl; [exact Hg|].
    intros [k v] (Hk & _ & Hv). unfold field_of. simpl in *. rewrite Forall_forall in Hk, Hv.
    intros [Hin|Hin]%elem_of_app; [by apply Hk in Hin as [? _]|].
    apply elem_of_cons in Hin as [?|Hin]; [done|by apply Hv in Hin as [? _]]. }
  split; [done|]. unfold arguments. rewrite Es, <- list_fmap_compose. rewrite <- (list_fmap_id args) at 2.
  apply list_fmap_ext. intros i [k v] Hi. rewrite Forall_lookup in Hg. destruct (Hg i _ Hi) as (_ & Hk & _).
  unfold compose, field_of. simpl. by apply split_field_of.
Qed.

Lemma argument_in k v args : NoDup args.*1 → (k, v) ∈ args → argument k args = Some v.
Proof.
  induction args as [|[k' v'] args IH]; intros Hnd Hin; [by apply not_elem_of_nil in Hin|].
  rewrite fmap_cons in Hnd. apply NoDup_cons in Hnd as [Hk Hnd]. simpl.
  apply elem_of_cons in Hin as [[= -> ->]|Hin]; [by rewrite decide_True|].
  rewrite decide_False; [by apply IH|]. intros ->. apply Hk. apply list_elem_of_fmap. by exists (k, v).
Qed.

Lemma argument_notin k args : k ∉ args.*1 → argument k args = None.
Proof.
  induction args as [|[k' v'] args IH]; intros Hk; [done|]. rewrite fmap_cons in Hk.
  apply not_elem_of_cons in Hk as [Hne Hk]. simpl. rewrite decide_False by (intros ->; done). by apply IH.
Qed.

(** C39. The command line written for 1 to 32 pairs is parsed back into exactly
    those pairs: the table has a row for each pair, in order, with its key and its
    value, and no other row has a key.  If the keys are different the lookup
    answers for each key of a pair its value, and for every other key NULL.  Keys
    have no space and no '=', values no space, neither has a zero character. *)
Theorem bootargs_roundtrip args mem memory b st :
  args ≠ [] → Forall good_argument args → Z.of_nat (length args) ≤ CONFIG_BOOTARGS_MAX →
  cstr mem (command_line args) → Z.of_nat (length (command_line args)) < 2 ^ 31 - 1 →
  length memory = S (length (command_line args)) →
  Z.of_nat (length (bootargs_values b)) = CONFIG_BOOTARGS_MAX →
  room st (Z.of_nat (length (command_line args)) + 1) → free_area_start st mod 4 = 0 →
  returns (bootargs_init (Some mem) memory b st) (λ '(b', _),
    (∃ rows rest, bootargs_values b' = rows ++ rest ∧ Forall2 (row_is (value_area b')) rows args ∧
       Forall (λ e, key e = None) rest) ∧
    (NoDup args.*1 → ∀ k kmem, cstr kmem k → returns (bootargs_get b' kmem) (λ r,
       (∀ v, (k, v) ∈ args → ∃ p, r = Some p ∧ value_is (value_area b') p v) ∧
       (k ∉ args.*1 → r = None)))).
Proof.
  intros Hne Hg Hn Hs Hl Hm Hb Hroom Hal. destruct (arguments_command_line args Hne Hg) as [Es Ea].
  eapply returns_mono; [apply (bootargs_init_table mem _ memory b st Hs Hl Hm Hb Hroom Hal)|].
  { by rewrite Es, length_fmap. }
  intros [b' st'] Ht. rewrite Ea in Ht. split; [by destruct Ht|]. intros Hnd k kmem Hk.
  eapply returns_mono; [by apply (bootargs_get_table b' args kmem k)|]. intros r Hr. split.
  - intros v Hin. by rewrite (argument_in k v args Hnd Hin) in Hr.
  - intros Hout. by rewrite argument_notin in Hr.
Qed.

(** ** Witnesses: the command line "a=1 b" *)
Definition demo_args : bootargs := BootArgs [] (replicate 32 (BootArg (Some 7) None)).
Definition demo_line : list Z := [97; 61; 49; 32; 98].

Lemma demo_line_cstr : cstr (demo_line ++ [0]) demo_line.
Proof. split; [|by exists []]. unfold demo_line. rewrite !not_elem_of_cons. split_and!; try done. apply not_elem_of_nil. Qed.

Lemma bootargs_get_correct_witness :
  returns (bootargs_init (Some (demo_line ++ [0])) (replicate 6 9) demo_args (Stalloc 0x80020000 0)) (λ '(b, _),
    returns (bootargs_get b [97; 0]) (λ r, ∃ p, r = Some p ∧ value_is (value_area b) p [49]) ∧
    bootargs_get b [99; 0] = Done None).
Proof.
  eapply returns_mono; [apply (bootargs_get_correct (demo_line ++ [0]) demo_line (replicate 6 9) demo_args
    (Stalloc 0x80020000 0) demo_line_cstr); done|].
  intros [b st] Hget. split.
  - apply (Hget [97; 0] [97]). apply cstr_cons; [done|apply cstr_nil].
  - destruct (returns_inv _ _ (Hget [99; 0] [99] ltac:(apply cstr_cons; [done|apply cstr_nil]))) as (r & -> & Hr).
    simpl in Hr. by rewrite Hr.
Defined.

(** 33 spaces are 34 fields. *)
Lemma bootargs_overflow_witness :
  bootargs_init (Some (replicate 33 32 ++ [0])) (replicate 34 9) demo_args (Stalloc 0x80020000 0) = Fault.
Proof.
  apply (bootargs_overflow _ (replicate 33 32)); try done.
  split; [|by exists []]. intros Hin. apply elem_of_replicate in Hin as [? _]. done.
Defined.

Lemma bootargs_roundtrip_witness :
  returns (bootargs_init (Some (demo_line ++ [61; 0])) (replicate 7 9) demo_args (Stalloc 0x80020000 0)) (λ '(b, _),
    returns (bootargs_get b [98; 0]) (λ r, ∃ p, r = Some p ∧ value_is (value_area b) p []) ∧
    returns (bootargs_get b [99; 0]) (λ r, r = None)).
Proof.
  eapply returns_mono; [apply (bootargs_roundtrip [([97], [49]); ([98], [])] (demo_line ++ [61; 0]) (replicate 7 9)
    demo_args (Stalloc 0x80020000 0)); try done|].
  - repeat constructor; try done; intros Hin; apply list_elem_of_singleton in Hin; done.
  - split; [|by exists []]. apply (bool_decide_unpack _). by vm_compute.
  - intros [b st] [_ Hget]. assert (Hnd : NoDup ([([97], [49]); ([98], [])] : list (list Z * list Z)).*1)
      by (apply (bool_decide_unpack _); by vm_compute).
    split.
    + eapply returns_mono; [apply (Hget Hnd [98]), cstr_cons; [done|apply cstr_nil]|].
      intros r [Hr _]. apply Hr. right. by left.
    + eapply returns_mono; [apply (Hget Hnd [99]), cstr_cons; [done|apply cstr_nil]|].
      intros r [_ Hr]. apply Hr. apply (bool_decide_unpack _). by vm_compute.
Defined.
