(* ===== verification/PageTable.v ===== *)
(** * Page tables of the MIPS machine (vm/mips32/mm_virt.c, vm/mips32/tlb.c)

    A page table is an array of TLB entries, each of which maps a pair of virtual
    pages; the operations of mm_virt.c and the loading of the TLB.  [pt_map] is
    the abstract view: a partial map from virtual pages to frames. *)

From S2P Require Import Prelude Bitmap PhysMem.

(** ** Data *)

(** The fields of [tlb_entry_t] the code uses; widths are those of the bit
    fields. *)
Record tlb_entry_t := TlbEntry {
  VPN2 : Z; e_ASID : Z;
  PFN0 : Z; D0 : Z; V0 : Z; G0 : Z;
  PFN1 : Z; D1 : Z; V1 : Z; G1 : Z
}.

Definition PAGETABLE_ENTRIES : Z := 340.

Record pagetable_t := Pagetable { ASID : Z; valid_count : Z; entries : list tlb_entry_t }.

Definition set_entry (i : Z) (e : tlb_entry_t) (pt : pagetable_t) : outcome pagetable_t :=
  let* l := awrite (entries pt) i e in Done (Pagetable (ASID pt) (valid_count pt) l).

Definition ADDR_IS_ON_EVEN_PAGE (addr : Z) : bool := Z.land addr 0x1000 =? 0.
Definition ADDR_PHYS_TO_KERNEL (addr : Z) : Z := Z.lor addr 0x80000000.
Definition ADDR_KERNEL_TO_PHYS (addr : Z) : Z := Z.land addr 0x7fffffff.

(** The mapping of one page of the pair, at the widths of the bit fields. *)
Definition map_even (pfn flags : Z) (e : tlb_entry_t) : tlb_entry_t :=
  TlbEntry (VPN2 e) (e_ASID e) (pfn mod 2 ^ 20) (flags mod 2) 1 0 (PFN1 e) (D1 e) (V1 e) (G1 e).
Definition map_odd (pfn flags : Z) (e : tlb_entry_t) : tlb_entry_t :=
  TlbEntry (VPN2 e) (e_ASID e) (PFN0 e) (D0 e) (V0 e) (G0 e) (pfn mod 2 ^ 20) (flags mod 2) 1 0.

(** ** Operations *)

(** [vm_init]: the page pool is set up and static allocation ends. *)
Definition vm_init (io_desc : list (Z * Z)) (memory : list Z) (kernel_end : Z) (st : stalloc_t)
    : outcome (physmem * stalloc_t) :=
  let* '(pm, st) := physmem_init io_desc memory st in
  Done (pm, stalloc_disable kernel_end st).

(** [garbage] is what the page holds where entries will be. *)
Definition vm_create_pagetable (asid : Z) (garbage : list tlb_entry_t) (pm : physmem)
    : outcome (option (Z * pagetable_t) * physmem) :=
  let* '(addr, pm) := physmem_allocblock pm in
  if addr =? 0 then Done (None, pm)
  else Done (Some (ADDR_PHYS_TO_KERNEL addr, Pagetable asid 0 garbage), pm).

Definition vm_destroy_pagetable (table : Z) (pm : physmem) : outcome physmem :=
  physmem_freeblock (ADDR_KERNEL_TO_PHYS table) pm.

(** The loop that looks for the pair [vpn2]; both its users leave the loop when
    they find it. *)
Definition find_pair (vpn2 : Z) (pt : pagetable_t) : outcome (option Z) :=
  let* r := for_loop 0 (valid_count pt) (λ i (_ : unit),
    let* e := aread (entries pt) i in
    if VPN2 e =? vpn2 then Done (inr i) else Done (inl ())) () in
  Done (match r with inl _ => None | inr i => Some i end).

(** [None] is the NULL pointer, for which nothing happens. *)
Definition vm_map (pagetable : option pagetable_t) (physaddr vaddr flags : Z) : outcome (option pagetable_t) :=
  match pagetable with
  | None => Done None
  | Some pt =>
  kassert ((flags =? 0) || (flags =? 1)) ;*
  let* r := find_pair (Z.shiftr vaddr 13) pt in
  match r with
  | Some i =>
      let* e := aread (entries pt) i in
      if ADDR_IS_ON_EVEN_PAGE vaddr then
        if V0 e =? 1 then Panic "Tried to re-map same virtual page"
        else let* pt := set_entry i (map_even (Z.shiftr physaddr 12) flags e) pt in Done (Some pt)
      else
        if V1 e =? 1 then Panic "Tried to re-map same virtual page"
        else let* pt := set_entry i (map_odd (Z.shiftr physaddr 12) flags e) pt in Done (Some pt)
  | None =>
      if PAGETABLE_ENTRIES <=? valid_count pt
      then Panic "Thread run out of pagetable mapping entries."
      else
        let* e := aread (entries pt) (valid_count pt) in
        let e := TlbEntry (Z.shiftr vaddr 13 mod 2 ^ 19) (ASID pt mod 2 ^ 8)
                   (PFN0 e) (D0 e) (V0 e) (G0 e) (PFN1 e) (D1 e) (V1 e) (G1 e) in
        let e :=
          if ADDR_IS_ON_EVEN_PAGE vaddr then
            let e := map_even (Z.shiftr physaddr 12) flags e in
            TlbEntry (VPN2 e) (e_ASID e) (PFN0 e) (D0 e) (V0 e) (G0 e) (PFN1 e) (D1 e) 0 (G1 e)
          else
            let e := map_odd (Z.shiftr physaddr 12) flags e in
            TlbEntry (VPN2 e) (e_ASID e) (PFN0 e) (D0 e) 0 (G0 e) (PFN1 e) (D1 e) (V1 e) (G1 e) in
        let* pt := set_entry (valid_count pt) e pt in
        Done (Some (Pagetable (ASID pt) (valid_count pt + 1) (entries pt)))
  end
  end.

Definition vm_unmap (pt : pagetable_t) (vaddr : Z) : pagetable_t := pt.

Definition vm_getmap (pt : pagetable_t) (vaddr : Z) : outcome Z :=
  let vpn := Z.shiftr vaddr 12 in
  let vpn2 := Z.shiftr vpn 1 in
  let* r := for_loop 0 (valid_count pt) (λ i (_ : unit),
    let* e := aread (entries pt) i in
    if VPN2 e =? vpn2 then
      if ADDR_IS_ON_EVEN_PAGE vaddr && negb (V0 e =? 0) then Done (inr (u32 (Z.shiftl (PFN0 e) 12)))
      else if negb (V1 e =? 0) then Done (inr (u32 (Z.shiftl (PFN1 e) 12)))
      else Done (inl ())
    else Done (inl ())) () in
  Done (match r with inl _ => 0 | inr a => a end).

Definition vm_set_dirty (pt : pagetable_t) (vaddr dirty : Z) : outcome pagetable_t :=
  kassert ((dirty =? 0) || (dirty =? 1)) ;*
  let* r := find_pair (Z.shiftr vaddr 13) pt in
  match r with
  | None => Panic "Tried to set dirty bit of an unmapped entry"
  | Some i =>
      let* e := aread (entries pt) i in
      if ADDR_IS_ON_EVEN_PAGE vaddr then
        if V0 e =? 0 then Panic "Tried to set dirty bit of an unmapped entry"
        else set_entry i (TlbEntry (VPN2 e) (e_ASID e) (PFN0 e) (dirty mod 2) (V0 e) (G0 e)
                            (PFN1 e) (D1 e) (V1 e) (G1 e)) pt
      else
        if V1 e =? 0 then Panic "Tried to set dirty bit of an unmapped entry"
        else set_entry i (TlbEntry (VPN2 e) (e_ASID e) (PFN0 e) (D0 e) (V0 e) (G0 e)
                            (PFN1 e) (dirty mod 2) (V1 e) (G1 e)) pt
  end.

(** The processor's TLB and its ASID register. *)
Record tlb := Tlb { tlb_entries : list tlb_entry_t; tlb_asid : Z }.

(** [_tlb_write(pagetable->entries, 0, n)] and [_tlb_set_asid], which the
    hardware provides. *)
Definition tlb_write (l : list tlb_entry_t) (n : Z) (t : tlb) : tlb :=
  Tlb (take (Z.to_nat n) l ++ drop (Z.to_nat n) (tlb_entries t)) (tlb_asid t).

Definition tlb_fill (pt : option pagetable_t) (t : tlb) : outcome tlb :=
  match pt with
  | None => Done t
  | Some pt =>
      kassert (valid_count pt <=? Z.of_nat (length (tlb_entries t))) ;*
      let t := tlb_write (entries pt) (valid_count pt) t in
      Done (Tlb (tlb_entries t) (ASID pt))
  end.

(** ** The abstract map *)
Definition half (odd : bool) (e : tlb_entry_t) : option (Z * Z) :=
  if odd then if V1 e =? 0 then None else Some (PFN1 e, D1 e)
  else if V0 e =? 0 then None else Some (PFN0 e, D0 e).

Definition valid_entries (pt : pagetable_t) : list tlb_entry_t :=
  take (Z.to_nat (valid_count pt)) (entries pt).

(** The pair an entry is about, and what virtual page [vp] is mapped to: its
    frame and its write permission. *)
Definition pair_of (pt : pagetable_t) (v : Z) : option (nat * tlb_entry_t) :=
  list_find (λ e, VPN2 e = v) (valid_entries pt).

Definition pt_map (pt : pagetable_t) (vp : Z) : option (Z * Z) :=
  match pair_of pt (vp / 2) with
  | Some (_, e) => half (Z.odd vp) e
  | None => None
  end.

Record pt_ok (pt : pagetable_t) : Prop := {
  po_len : length (entries pt) = 340%nat;
  po_count : 0 ≤ valid_count pt ≤ 340;
  po_vpn : NoDup (VPN2 <$> valid_entries pt);
  po_bits : Forall (λ e, (V0 e = 0 ∨ V0 e = 1) ∧ (V1 e = 0 ∨ V1 e = 1)) (valid_entries pt);
  po_fields : Forall (λ e, 0 ≤ PFN0 e < 2 ^ 20 ∧ 0 ≤ PFN1 e < 2 ^ 20) (entries pt)
}.

(** ** Addresses *)
Lemma even_page_spec a : 0 ≤ a → ADDR_IS_ON_EVEN_PAGE a = negb (Z.odd (a / 4096)).
Proof.
  intros Ha. unfold ADDR_IS_ON_EVEN_PAGE.
  replace (Z.odd (a / 4096)) with (Z.testbit a 12).
  2: { change 4096 with (2 ^ 12). rewrite <- Z.bit0_odd, <- (Z.shiftr_div_pow2 a 12), Z.shiftr_spec by lia. done. }
  change 0x1000 with (2 ^ 12). destruct (Z.testbit a 12) eqn:E; simpl.
  - apply Z.eqb_neq. intros H0.
    assert (Z.testbit (Z.land a (2 ^ 12)) 12 = true) as Hb
      by (rewrite Z.land_spec, E, Z.pow2_bits_true by lia; done).
    rewrite H0 in Hb. by rewrite Z.testbit_0_l in Hb.
  - apply Z.eqb_eq. apply Z.bits_inj'. intros i Hi. rewrite Z.land_spec, Z.testbit_0_l.
    destruct (decide (i = 12)) as [->|Hne]; [by rewrite E|].
    rewrite Z.pow2_bits_false by done. apply andb_false_r.
Qed.

Lemma vpn2_spec a : Z.shiftr a 13 = (a / 4096) / 2.
Proof. rewrite Z.shiftr_div_pow2, Z.div_div by lia. done. Qed.

(** ** Lemmas *)
Section tables.
Context (pt : pagetable_t) (Hok : pt_ok pt).

Lemma valid_length : length (valid_entries pt) = Z.to_nat (valid_count pt).
Proof using Hok. destruct Hok. unfold valid_entries. rewrite length_take. lia. Qed.

Lemma valid_lookup i e : valid_entries pt !! i = Some e → entries pt !! i = Some e ∧ Z.of_nat i < valid_count pt.
Proof using.
  clear Hok. unfold valid_entries. rewrite lookup_take_Some. intros [? ?]. split; [done|lia].
Qed.

Lemma find_pair_ok v :
  find_pair v pt = Done (match pair_of pt v with Some (i, _) => Some (Z.of_nat i) | None => None end).
Proof using Hok.
  unfold find_pair. rewrite (for_loop_find (λ e, VPN2 e = v) id (valid_entries pt)).
  - simpl. unfold pair_of. by destruct (list_find _ _) as [[i e]|].
  - rewrite valid_length. destruct Hok. lia.
  - intros i e [Hi _]%valid_lookup. rewrite (aread_Some _ _ e) by (rewrite ?Nat2Z.id; done || lia).
    simpl. destruct (Z.eqb_spec (VPN2 e) v); by case_decide.
Qed.

Lemma pair_of_Some v i e :
  pair_of pt v = Some (i, e) → valid_entries pt !! i = Some e ∧ VPN2 e = v.
Proof using. clear Hok. unfold pair_of. by intros (? & ? & _)%list_find_Some. Qed.

Lemma pair_of_unique v i e :
  valid_entries pt !! i = Some e → VPN2 e = v → pair_of pt v = Some (i, e).
Proof using Hok.
  intros Hi Hv. unfold pair_of. apply list_find_Some. split_and!; [done|done|].
  intros j x Hj Hji Hx. pose proof (po_vpn _ Hok) as Hnd. rewrite NoDup_alt in Hnd.
  assert (j = i); [|lia]. apply (Hnd j i v); rewrite list_lookup_fmap; rewrite ?Hj, ?Hi; simpl; congruence.
Qed.
End tables.

(** Replacing entry [i] by one for the same pair. *)
Lemma replace_entry pt i e e' :
  pt_ok pt → valid_entries pt !! i = Some e → VPN2 e' = VPN2 e →
  (V0 e' = 0 ∨ V0 e' = 1) ∧ (V1 e' = 0 ∨ V1 e' = 1) → 0 ≤ PFN0 e' < 2 ^ 20 ∧ 0 ≤ PFN1 e' < 2 ^ 20 →
  let pt' := Pagetable (ASID pt) (valid_count pt) (<[i:=e']> (entries pt)) in
  set_entry (Z.of_nat i) e' pt = Done pt' ∧ pt_ok pt' ∧
  ∀ vp, pt_map pt' vp = if decide (vp / 2 = VPN2 e) then half (Z.odd vp) e' else pt_map pt vp.
Proof.
  intros Hok Hi Hv Hb Hw pt'. destruct (valid_lookup pt i e Hi) as [Hi' Hlt].
  pose proof Hok as [Hlen Hc Hnd Hall Hfld].
  assert (Evl : valid_entries pt' = <[i:=e']> (valid_entries pt)).
  { unfold valid_entries. cbn [valid_count entries pt']. rewrite take_insert_lt by lia. done. }
  assert (Hok' : pt_ok pt').
  { split; cbn [entries valid_count pt']; [by rewrite length_insert|done|..].
    - rewrite Evl, list_fmap_insert, Hv, list_insert_id; [done|]. by rewrite list_lookup_fmap, Hi.
    - rewrite Evl. by apply Forall_insert.
    - by apply Forall_insert. }
  split_and!; [|done|].
  - unfold set_entry. rewrite awrite_in_range by (rewrite Hlen; lia). by rewrite Nat2Z.id.
  - intros vp. unfold pt_map. destruct (decide (vp / 2 = VPN2 e)) as [E|E].
    + rewrite (pair_of_unique pt' Hok' _ i e'); [done| |congruence].
      rewrite Evl. apply list_lookup_insert_eq. by eapply lookup_lt_Some.
    + destruct (pair_of pt (vp / 2)) as [[j x]|] eqn:Ep.
      * apply pair_of_Some in Ep as [Hj Hx]. rewrite (pair_of_unique pt' Hok' _ j x); [done| |done].
        rewrite Evl, list_lookup_insert_ne; [done|]. intros ->. congruence.
      * destruct (pair_of pt' (vp / 2)) as [[j x]|] eqn:Ep'; [|done].
        apply pair_of_Some in Ep' as [Hj Hx]. rewrite Evl in Hj.
        destruct (decide (i = j)) as [<-|Hne].
        -- rewrite list_lookup_insert_eq in Hj by (by eapply lookup_lt_Some). simplify_eq. congruence.
        -- rewrite list_lookup_insert_ne in Hj by done. by rewrite (pair_of_unique pt Hok _ j x) in Ep.
Qed.

(** Adding an entry for a new pair. *)
Lemma append_entry pt e' :
  pt_ok pt → valid_count pt < 340 → pair_of pt (VPN2 e') = None →
  (V0 e' = 0 ∨ V0 e' = 1) ∧ (V1 e' = 0 ∨ V1 e' = 1) → 0 ≤ PFN0 e' < 2 ^ 20 ∧ 0 ≤ PFN1 e' < 2 ^ 20 →
  let pt' := Pagetable (ASID pt) (valid_count pt + 1) (<[Z.to_nat (valid_count pt) := e']> (entries pt)) in
  pt_ok pt' ∧
  ∀ vp, pt_map pt' vp = if decide (vp / 2 = VPN2 e') then half (Z.odd vp) e' else pt_map pt vp.
Proof.
  intros Hok Hroom Hnew Hb Hw pt'. pose proof Hok as [Hlen Hc Hnd Hall Hfld].
  assert (Evl : valid_entries pt' = valid_entries pt ++ [e']).
  { unfold valid_entries. cbn [valid_count entries pt'].
    replace (Z.to_nat (valid_count pt + 1)) with (S (Z.to_nat (valid_count pt))) by lia.
    rewrite (take_S_r _ _ e') by (apply list_lookup_insert_eq; lia). by rewrite take_insert_ge by lia. }
  assert (Hfresh : VPN2 e' ∉ VPN2 <$> valid_entries pt).
  { intros (x & Ex & Hx)%list_elem_of_fmap. unfold pair_of in Hnew. apply list_find_None in Hnew.
    rewrite Forall_forall in Hnew. by apply (Hnew x). }
  assert (Hok' : pt_ok pt').
  { split; cbn [entries valid_count pt']; [by rewrite length_insert|lia|..].
    - rewrite Evl, fmap_app. apply NoDup_app. split_and!; [done| |apply NoDup_singleton].
      intros x Hx ->%list_elem_of_singleton. done.
    - rewrite Evl. apply Forall_app. split; [done|by constructor].
    - by apply Forall_insert. }
  split; [done|]. intros vp. unfold pt_map. destruct (decide (vp / 2 = VPN2 e')) as [E|E].
  - rewrite (pair_of_unique pt' Hok' _ (length (valid_entries pt)) e'); [done| |congruence].
    rewrite Evl. by apply list_lookup_middle.
  - destruct (pair_of pt (vp / 2)) as [[j x]|] eqn:Ep.
    + apply pair_of_Some in Ep as [Hj Hx]. rewrite (pair_of_unique pt' Hok' _ j x); [done| |done].
      rewrite Evl. by apply lookup_app_l_Some.
    + destruct (pair_of pt' (vp / 2)) as [[j x]|] eqn:Ep'; [|done].
      apply pair_of_Some in Ep' as [Hj Hx]. rewrite Evl in Hj.
      apply lookup_snoc_Some in Hj as [[_ Hj]|[_ <-]]; [|congruence].
      by rewrite (pair_of_unique pt Hok _ j x) in Ep.
Qed.

(** ** The operations on the abstract map *)

(** [pt'] is [pt] with page [vp] mapped to [x]. *)
Definition remaps (pt : pagetable_t) (vp : Z) (x : Z * Z) (pt' : pagetable_t) : Prop :=
  pt_ok pt' ∧ ∀ vp', pt_map pt' vp' = if decide (vp' = vp) then Some x else pt_map pt vp'.

(** Two pages of one pair. *)
Lemma same_pair vp vp' : vp / 2 = vp' / 2 → Z.odd vp = Z.odd vp' → vp = vp'.
Proof.
  intros H1 H2. rewrite (Z.div_mod vp 2), (Z.div_mod vp' 2) by lia. by rewrite H1, !Zmod_odd, H2.
Qed.

Section operations.
Context (pt : pagetable_t) (Hok : pt_ok pt).

Lemma bits_of i e :
  valid_entries pt !! i = Some e → ((V0 e = 0 ∨ V0 e = 1) ∧ (V1 e = 0 ∨ V1 e = 1)) ∧
    0 ≤ PFN0 e < 2 ^ 20 ∧ 0 ≤ PFN1 e < 2 ^ 20.
Proof using Hok.
  intros Hi. pose proof (po_bits _ Hok) as H. pose proof (po_fields _ Hok) as H'.
  rewrite Forall_lookup in H, H'. destruct (valid_lookup pt i e Hi) as [Hi' _]. split; eauto.
Qed.

Lemma read_valid i e : valid_entries pt !! i = Some e → aread (entries pt) (Z.of_nat i) = Done e.
Proof using.
  clear Hok. intros [Hi _]%valid_lookup. apply aread_Some; [lia|]. by rewrite Nat2Z.id.
Qed.

(** Storing an entry that differs from [e] in the half of [vp] only. *)
Lemma replace_half i e e' vp x :
  valid_entries pt !! i = Some e → VPN2 e = vp / 2 → VPN2 e' = VPN2 e →
  (V0 e' = 0 ∨ V0 e' = 1) ∧ (V1 e' = 0 ∨ V1 e' = 1) → 0 ≤ PFN0 e' < 2 ^ 20 ∧ 0 ≤ PFN1 e' < 2 ^ 20 →
  half (Z.odd vp) e' = Some x → half (negb (Z.odd vp)) e' = half (negb (Z.odd vp)) e →
  returns (set_entry (Z.of_nat i) e' pt) (remaps pt vp x).
Proof using Hok.
  intros Hi Hv Hv' Hb Hw Hx Hother.
  destruct (replace_entry pt i e e' Hok Hi Hv' Hb Hw) as (-> & Hok' & Hm). split; [done|].
  intros vp'. rewrite Hm, Hv. destruct (decide (vp' = vp)) as [->|Hne]; [by rewrite decide_True|].
  destruct (decide (vp' / 2 = vp / 2)) as [E|E]; [|done].
  assert (Eo : Z.odd vp' = negb (Z.odd vp)).
  { destruct (Z.odd vp') eqn:E1, (Z.odd vp) eqn:E2; try done;
      by destruct Hne; apply same_pair; rewrite ?E1, ?E2. }
  unfold pt_map. by rewrite E, (pair_of_unique pt Hok _ i e Hi Hv), Eo.
Qed.

Context (vaddr : Z) (Hva : is_u32 vaddr).

Lemma vp_range : 0 ≤ vaddr / 4096 < 2 ^ 20.
Proof using Hva.
  unfold is_u32 in Hva. split; [apply Z.div_pos; lia|]. apply Z.div_lt_upper_bound; lia.
Qed.

Lemma frame_spec physaddr :
  is_u32 physaddr → Z.shiftr physaddr 12 mod 2 ^ 20 = physaddr / 4096 ∧ 0 ≤ physaddr / 4096 < 2 ^ 20.
Proof using.
  clear Hok Hva. unfold is_u32. intros Hp.
  assert (Hr : 0 ≤ physaddr / 4096 < 2 ^ 20).
  { split; [apply Z.div_pos; lia|]. apply Z.div_lt_upper_bound; lia. }
  split; [|done]. rewrite Z.shiftr_div_pow2 by lia. by apply Z.mod_small.
Qed.

Lemma vm_map_spec physaddr flags :
  is_u32 physaddr → flags = 0 ∨ flags = 1 →
  let vp := vaddr / 4096 in
  match pt_map pt vp with
  | Some _ => vm_map (Some pt) physaddr vaddr flags = Panic "Tried to re-map same virtual page"
  | None =>
      if decide (pair_of pt (vp / 2) = None ∧ valid_count pt = 340)
      then vm_map (Some pt) physaddr vaddr flags = Panic "Thread run out of pagetable mapping entries."
      else returns (vm_map (Some pt) physaddr vaddr flags) (λ r, ∃ pt', r = Some pt' ∧ remaps pt vp (physaddr / 4096, flags) pt')
  end.
Proof using Hok Hva.
  intros Hpa Hfl vp. pose proof vp_range as Hvp. fold vp in Hvp.
  destruct (frame_spec physaddr Hpa) as [Hpf Hpr].
  assert (Hfm : flags mod 2 = flags) by (destruct Hfl; by subst).
  unfold vm_map. rewrite kassert_bind by (destruct Hfl; by subst).
  rewrite find_pair_ok by done. cbn [outcome_bind]. rewrite vpn2_spec. fold vp.
  rewrite even_page_spec by apply Hva. fold vp. unfold pt_map at 1.
  destruct (pair_of pt (vp / 2)) as [[i e]|] eqn:Ep.
  - apply pair_of_Some in Ep as [Hi Hv]. rewrite (read_valid i e Hi). cbn [outcome_bind].
    destruct (bits_of i e Hi) as ((B0 & B1) & P0 & P1). unfold half.
    rewrite decide_False by naive_solver.
    destruct (Z.odd vp) eqn:Eodd; cbn [negb]; [destruct B1 as [B|B]|destruct B0 as [B|B]]; rewrite B;
      try done; (eapply returns_bind, returns_mono; [eapply replace_half; [done|done|done|simpl; auto|simpl; rewrite Hpf; lia| |]|
        intros pt' Hpt'; by exists pt']);
      rewrite Eodd; unfold half; simpl; by rewrite ?Hpf, ?Hfm.
  - pose proof Hok as [Hlen Hc _ _ Hfld]. unfold PAGETABLE_ENTRIES.
    destruct (Z.leb_spec 340 (valid_count pt)); [rewrite decide_True by (split; [done|lia]); done|].
    rewrite decide_False by (intros [_ ?]; lia).
    destruct (aread_in_range (entries pt) (valid_count pt)) as (e & He & ->); [rewrite Hlen; lia|].
    rewrite Forall_lookup in Hfld. specialize (Hfld _ _ He).
    assert (Hvm : vp / 2 mod 2 ^ 19 = vp / 2).
    { apply Z.mod_small. split; [apply Z.div_pos; lia|apply Z.div_lt_upper_bound; lia]. }
    cbn [outcome_bind]. unfold set_entry. rewrite awrite_in_range by (rewrite Hlen; lia).
    cbn [outcome_bind returns ASID valid_count entries]. rewrite Hvm.
    match goal with |- context [Pagetable _ _ (<[_ := ?e']> _)] =>
      destruct (append_entry pt e') as [Hok' Hm]; [done|lia|..] end.
    1-3: destruct (negb (Z.odd vp)); simpl; rewrite ?Hpf; auto; lia.
    eexists. split; [done|]. split; [done|]. intros vp'. rewrite Hm.
    assert (Hnone : ∀ q, q / 2 = vp / 2 → pt_map pt q = None)
      by (intros q Hq; unfold pt_map; by rewrite Hq, Ep).
    destruct (Z.odd vp) eqn:Eodd; cbn [negb VPN2 map_even map_odd].
    all: destruct (decide (vp' = vp)) as [->|Hne];
      [rewrite decide_True by done; rewrite Eodd; unfold half; simpl; by rewrite Hpf, Hfm|].
    all: destruct (decide (vp' / 2 = vp / 2)) as [E|E]; [|done]; rewrite (Hnone vp' E).
    all: destruct (Z.odd vp') eqn:Eo'; try done; by destruct Hne; apply same_pair; rewrite ?Eo', ?Eodd.
Qed.

Lemma vm_set_dirty_spec dirty :
  dirty = 0 ∨ dirty = 1 →
  let vp := vaddr / 4096 in
  match pt_map pt vp with
  | Some (pfn, _) => returns (vm_set_dirty pt vaddr dirty) (remaps pt vp (pfn, dirty))
  | None => vm_set_dirty pt vaddr dirty = Panic "Tried to set dirty bit of an unmapped entry"
  end.
Proof using Hok Hva.
  intros Hd vp. assert (Hdm : dirty mod 2 = dirty) by (destruct Hd; by subst).
  unfold vm_set_dirty. rewrite kassert_bind by (destruct Hd; by subst).
  rewrite find_pair_ok by done. cbn [outcome_bind]. rewrite vpn2_spec. fold vp.
  rewrite even_page_spec by apply Hva. fold vp. unfold pt_map at 1.
  destruct (pair_of pt (vp / 2)) as [[i e]|] eqn:Ep; [|done].
  apply pair_of_Some in Ep as [Hi Hv]. rewrite (read_valid i e Hi). cbn [outcome_bind].
  destruct (bits_of i e Hi) as ((B0 & B1) & P0 & P1). unfold half.
  destruct (Z.odd vp) eqn:Eodd; cbn [negb]; [destruct B1 as [B|B]|destruct B0 as [B|B]]; rewrite B;
    cbn [Z.eqb]; try done; (eapply replace_half; [done|done|done|simpl; auto|simpl; lia| |]);
    rewrite Eodd; unfold half; simpl; by rewrite ?B, ?Hdm.
Qed.

(** What [vm_getmap] answers for an entry of the pair. *)
Definition getmap_entry (odd : bool) (e : tlb_entry_t) : option Z :=
  match half odd e with
  | Some (pfn, _) => Some (pfn * 4096)
  | None => if odd then None else
      match half true e with Some (pfn, _) => Some (pfn * 4096) | None => None end
  end.

Lemma getmap_body i e vp :
  valid_entries pt !! i = Some e → VPN2 e = vp / 2 →
  (if negb (Z.odd vp) && negb (V0 e =? 0) then Done (inr (u32 (Z.shiftl (PFN0 e) 12)))
   else if negb (V1 e =? 0) then Done (inr (u32 (Z.shiftl (PFN1 e) 12))) else Done (inl ()))
  = Done (match getmap_entry (Z.odd vp) e with Some a => inr a | None => inl () end).
Proof using Hok.
  intros Hi Hv. destruct (bits_of i e Hi) as (_ & P0 & P1).
  assert (Hs : ∀ z, 0 ≤ z < 2 ^ 20 → u32 (Z.shiftl z 12) = z * 4096).
  { intros z Hz. rewrite Z.shiftl_mul_pow2 by lia. apply u32_id. unfold is_u32. lia. }
  rewrite !Hs by done. unfold getmap_entry, half.
  destruct (Z.odd vp), (V0 e =? 0), (V1 e =? 0); done.
Qed.

Lemma vm_getmap_spec :
  let vp := vaddr / 4096 in
  vm_getmap pt vaddr = Done (match pt_map pt vp with
    | Some (pfn, _) => pfn * 4096
    | None => match (if Z.odd vp then None else pt_map pt (vp + 1)) with
              | Some (pfn, _) => pfn * 4096
              | None => 0
              end
    end).
Proof using Hok Hva.
  intros vp. unfold vm_getmap. rewrite (Z.shiftr_div_pow2 vaddr 12) by lia.
  change (vaddr / 2 ^ 12) with vp. rewrite (Z.shiftr_div_pow2 vp 1) by lia. change (2 ^ 1) with 2.
  rewrite even_page_spec by apply Hva. fold vp.
  set (P := λ e, VPN2 e = vp / 2 ∧ getmap_entry (Z.odd vp) e ≠ None).
  set (g := λ i, default 0 (entries pt !! Z.to_nat i ≫= getmap_entry (Z.odd vp))).
  rewrite (for_loop_find P g (valid_entries pt)); [|rewrite valid_length by done; pose proof (po_count _ Hok); lia|].
  2: { intros i e Hi. rewrite (read_valid i e Hi). cbn [outcome_bind].
       destruct (valid_lookup pt i e Hi) as [Hi' _]. unfold g. rewrite Nat2Z.id, Hi'. simpl.
       destruct (Z.eqb_spec (VPN2 e) (vp / 2)) as [E|E].
       - rewrite (getmap_body i e vp Hi E). unfold P.
         destruct (getmap_entry (Z.odd vp) e); case_decide; naive_solver.
       - rewrite decide_False; [done|]. by intros [? _]. }
  cbn [outcome_bind]. f_equal. unfold pt_map.
  assert (Hpair : Z.odd vp = false → (vp + 1) / 2 = vp / 2 ∧ Z.odd (vp + 1) = true).
  { intros Hev. rewrite Z.odd_add, Hev. split; [|done].
    rewrite (Z.div_mod vp 2) at 1 by lia. rewrite Zmod_odd, Hev, Z.add_0_r, Z.mul_comm.
    rewrite Z.div_add_l by lia. change (1 / 2) with 0. lia. }
  assert (Hval : (match list_find P (valid_entries pt) with Some (i, _) => g (Z.of_nat i) | None => 0 end) =
    match pair_of pt (vp / 2) with Some (_, e) => default 0 (getmap_entry (Z.odd vp) e) | None => 0 end).
  { destruct (pair_of pt (vp / 2)) as [[i e]|] eqn:Ep.
    - pose proof (pair_of_Some pt _ _ _ Ep) as [Hi Hv]. destruct (valid_lookup pt i e Hi) as [Hi' _].
      destruct (list_find P (valid_entries pt)) as [[j x]|] eqn:Ef.
      + apply list_find_Some in Ef as (Hj & [Hx _] & _).
        pose proof (pair_of_unique pt Hok _ j x Hj Hx) as Ej. rewrite Ep in Ej. injection Ej as <- <-.
        unfold g. by rewrite Nat2Z.id, Hi'.
      + apply list_find_None in Ef. rewrite Forall_lookup in Ef. specialize (Ef i e Hi). unfold P in Ef.
        destruct (getmap_entry (Z.odd vp) e); [naive_solver|done].
    - destruct (list_find P (valid_entries pt)) as [[j x]|] eqn:Ef; [|done].
      apply list_find_Some in Ef as (Hj & [Hx _] & _). by rewrite (pair_of_unique pt Hok _ j x) in Ep. }
  transitivity (match list_find P (valid_entries pt) with Some (i, _) => g (Z.of_nat i) | None => 0 end).
  { by destruct (list_find P _) as [[i e]|]. }
  rewrite Hval. destruct (Z.odd vp) eqn:Eodd.
  - destruct (pair_of pt (vp / 2)) as [[i e]|]; [|done]. unfold getmap_entry.
    by destruct (half true e) as [[? ?]|].
  - destruct (Hpair eq_refl) as [-> ->]. destruct (pair_of pt (vp / 2)) as [[i e]|]; [|done].
    unfold getmap_entry. destruct (half false e) as [[? ?]|]; [done|]. by destruct (half true e) as [[? ?]|].
Qed.
End operations.

(** ** Properties of memory management on the MIPS machine *)

(** ** Properties *)

(** [physmem_init] on a machine with [n] pages, started with the allocator
    after the kernel image, returns with a well-formed page pool: every page the
    kernel, its static data and the bitmap itself lie in is reserved and can
    never be handed out or freed, and all others are free and counted. *)
Theorem physmem_init_correct io_desc n memory st :
  machine io_desc n → Forall is_u32 memory → n ≤ 32 * Z.of_nat (length memory) →
  0x80000000 < free_area_start st → free_area_start st mod 4 = 0 →
  room st (bitmap_sizeof n + 8) → reserved (free_area_start st + bitmap_sizeof n) < n →
  returns (physmem_init io_desc memory st) (λ '(pm, st'), pool pm [] ∧
    physmem_num_pages pm = n ∧
    free_area_start st + bitmap_sizeof n ≤ 0x80000000 + physmem_static_end pm * PAGE_SIZE).
Proof. apply physmem_init_spec. Qed.

(** C9. In every state a page pool can reach by allocations and frees of held
    pages, in any order: no page is held twice, no reserved page is held, and the
    count of free pages is exact; an allocation returns the lowest free page, or
    0 when (and only when) no page is free, and never panics, though it asserts
    that bitmap and counter agree; a free of a held page returns and makes the
    page allocatable again. *)
Theorem physmem_pages_exclusive pm0 pm held :
  pool pm0 [] → rtc pool_step (pm0, []) (pm, held) →
  NoDup held ∧
  Forall (λ p, physmem_static_end pm0 ≤ p < physmem_num_pages pm0) held ∧
  physmem_num_free_pages pm =
    physmem_num_pages pm0 - physmem_static_end pm0 - Z.of_nat (length held) ∧
  returns (physmem_allocblock pm) (λ '(a, pm'),
    (a = 0 ∧ physmem_num_free_pages pm = 0 ∧ pm' = pm) ∨
    (∃ p, a = p * PAGE_SIZE ∧ p ∉ held ∧ physmem_static_end pm0 ≤ p < physmem_num_pages pm0 ∧
       (∀ q, physmem_static_end pm0 ≤ q < p → q ∈ held) ∧ pool pm' (p :: held))) ∧
  (∀ p, p ∈ held → returns (physmem_freeblock (p * PAGE_SIZE) pm) (λ pm',
     ∃ held', held ≡ₚ p :: held' ∧ pool pm' held')).
Proof.
  intros H0 Hrtc.
  destruct (pool_reachable _ _ Hrtc H0) as (Hp & Es & En). simpl in Hp, Es, En. rewrite <- Es, <- En.
  split_and!; [apply Hp|apply Hp|apply Hp|..].
  - eapply returns_mono; [by apply (allocblock_spec pm held)|].
    intros [a pm'] [?|(p & ? & ? & ? & ? & ? & _)]; [by left|right; by exists p].
  - intros p Hin. eapply returns_mono; [apply (freeblock_spec pm held p); [done|done|]|].
    + by rewrite Z.div_mul.
    + intros pm' (h' & ? & ? & _). by exists h'.
Qed.

(** C33. A page table is a partial map from pages to frames: [vm_map] of an
    unmapped page adds exactly that mapping, with its write permission, and
    changes no other page, including the page's neighbour in the same TLB entry;
    it panics exactly when the page is already mapped or no entry is left, and does
    nothing for a NULL page table.  After it [vm_getmap] of any address in the page
    answers the frame, and [vm_set_dirty] changes exactly the permission. *)
Theorem vm_map_correct pt vaddr physaddr flags :
  pt_ok pt → is_u32 vaddr → is_u32 physaddr → flags = 0 ∨ flags = 1 →
  let vp := vaddr / 4096 in
  vm_map None physaddr vaddr flags = Done None ∧
  match pt_map pt vp with
  | Some _ => vm_map (Some pt) physaddr vaddr flags = Panic "Tried to re-map same virtual page"
  | None =>
      if decide (pair_of pt (vp / 2) = None ∧ valid_count pt = 340)
      then vm_map (Some pt) physaddr vaddr flags = Panic "Thread run out of pagetable mapping entries."
      else returns (vm_map (Some pt) physaddr vaddr flags) (λ r, ∃ pt', r = Some pt' ∧
        remaps pt vp (physaddr / 4096, flags) pt' ∧
        (∀ a, is_u32 a → a / 4096 = vp → vm_getmap pt' a = Done (physaddr / 4096 * 4096)) ∧
        ∀ d, d = 0 ∨ d = 1 → returns (vm_set_dirty pt' vaddr d) (remaps pt' vp (physaddr / 4096, d)))
  end.
Proof.
  intros Hok Hva Hpa Hfl vp. pose proof (vm_map_spec pt Hok vaddr Hva physaddr flags Hpa Hfl) as H.
  cbv zeta in H. fold vp in H. split; [done|]. destruct (pt_map pt vp); [done|]. destruct (decide _); [done|].
  eapply returns_mono; [exact H|]. intros r (pt' & -> & Hok' & Hm). exists pt'. split; [done|].
  assert (Hvp : pt_map pt' vp = Some (physaddr / 4096, flags)) by (rewrite Hm; by rewrite decide_True).
  split_and!; [done|..].
  - intros a Ha Ea. rewrite (vm_getmap_spec pt' Hok' a Ha). cbv zeta. by rewrite Ea, Hvp.
  - intros d Hd. pose proof (vm_set_dirty_spec pt' Hok' vaddr Hva d Hd) as Hsd. cbv zeta in Hsd.
    fold vp in Hsd. by rewrite Hvp in Hsd.
Qed.

(** [vm_getmap] of an unmapped page answers 0, except for an even page whose
    odd neighbour is mapped: there it answers the neighbour's frame. *)
Theorem vm_getmap_unmapped pt vaddr :
  pt_ok pt → is_u32 vaddr → pt_map pt (vaddr / 4096) = None →
  vm_getmap pt vaddr = Done (match (if Z.odd (vaddr / 4096) then None
                                    else pt_map pt (vaddr / 4096 + 1)) with
                             | Some (pfn, _) => pfn * 4096
                             | None => 0
                             end).
Proof. intros Hok Hva Hn. rewrite (vm_getmap_spec pt Hok vaddr Hva). cbv zeta. by rewrite Hn. Qed.

(** ** Witnesses *)

(** A machine with 64 pages whose kernel ends at 0x80010000. *)
Definition demo_io : list (Z * Z) := (0x201, 5) :: (0x101, 64) :: replicate 126 (0, 0).
Definition demo_st : stalloc_t := stalloc_init 0x8000fffd.

Lemma demo_machine : machine demo_io 64.
Proof. split; [vm_compute; reflexivity|lia]. Qed.

Lemma demo_words : Forall is_u32 [7; 9].
Proof. by apply (bool_decide_unpack _). Qed.

Lemma physmem_init_correct_witness :
  returns (physmem_init demo_io [7; 9] demo_st) (λ '(pm, _), physmem_num_pages pm = 64 ∧ pool pm []).
Proof.
  refine (returns_mono _ _ _ (physmem_init_correct demo_io 64 [7; 9] demo_st demo_machine demo_words _ _ _ _ _) _).
  - simpl. lia.
  - vm_compute. reflexivity.
  - vm_compute. reflexivity.
  - vm_compute. split_and!; congruence.
  - vm_compute. reflexivity.
  - intros [pm st'] (H1 & H2 & _). split; [exact H2|exact H1].
Defined.

Definition demo_pool : physmem := Physmem [15; 0] 40 36 4 false.

Lemma demo_pool_ok : pool demo_pool [].
Proof.
  constructor; simpl; [split_and!; [by apply (bool_decide_unpack _)|by vm_compute..]
    |reflexivity|by vm_compute|lia| | | |reflexivity].
  - intros p Hp.
    assert (Hall : Forall (λ k, bit [15; 0] (Z.of_nat k) =
      bool_decide (Z.of_nat k < 4 ∨ Z.of_nat k ∈ ([] : list Z))) (seq 0 40)).
    { vm_compute. repeat constructor. }
    rewrite Forall_forall in Hall. specialize (Hall (Z.to_nat p)).
    rewrite Z2Nat.id in Hall by lia. apply Hall, elem_of_seq. lia.
  - constructor.
  - constructor.
Qed.

Lemma demo_alloc : pool_step (demo_pool, []) (Physmem [31; 0] 40 35 4 false, [4]).
Proof. apply (pool_alloc demo_pool [] 16384); [vm_compute; reflexivity|discriminate]. Qed.

Lemma physmem_pages_exclusive_witness :
  physmem_num_free_pages (Physmem [31; 0] 40 35 4 false) = 40 - 4 - 1.
Proof.
  exact (proj1 (proj2 (proj2 (physmem_pages_exclusive demo_pool _ [4] demo_pool_ok
    (rtc_once _ _ demo_alloc))))).
Defined.

Definition demo_entry : tlb_entry_t := TlbEntry 0 0 0 0 0 0 0 0 0 0.
(** Page 5 is mapped to frame 9. *)
Definition demo_pt : pagetable_t :=
  Pagetable 1 1 (TlbEntry 2 1 0 0 0 0 9 1 1 0 :: replicate 339 demo_entry).

Lemma demo_pt_ok : pt_ok demo_pt.
Proof.
  constructor; simpl; [reflexivity|lia|by apply (bool_decide_unpack _)| |].
  - constructor; [simpl; auto|constructor].
  - by apply (bool_decide_unpack _).
Qed.

Lemma demo_address : is_u32 0x4123.
Proof. split; [lia|reflexivity]. Qed.

Lemma demo_frame : is_u32 0x7000.
Proof. split; [lia|reflexivity]. Qed.

Lemma vm_map_correct_witness :
  returns (vm_map (Some demo_pt) 0x7000 0x4123 1) (λ r, ∃ pt', r = Some pt' ∧ vm_getmap pt' 0x4123 = Done 0x7000).
Proof.
  refine (returns_mono _ _ _ (proj2 (vm_map_correct demo_pt 0x4123 0x7000 1 demo_pt_ok demo_address demo_frame
    (or_intror eq_refl))) _).
  intros r (pt' & -> & _ & H & _). exists pt'. split; [reflexivity|exact (H 0x4123 demo_address eq_refl)].
Defined.

Lemma vm_getmap_unmapped_witness : vm_getmap demo_pt 0x4123 = Done (9 * 4096).
Proof. exact (vm_getmap_unmapped demo_pt 0x4123 demo_pt_ok demo_address eq_refl). Defined.
