(* ===== verification/X86Cpu.v ===== *)
(** * Descriptor tables, interrupts and system calls of x86-64

    kernel/x86_64/gdt.c, idt.c, tss.c, exception.c, pic.c and interrupt.c,
    drivers/x86_64/pit.c, proc/x86_64/_syscall.c and proc/syscall.c.

    The tables are the bytes the processor reads.  Port input and output are a
    parameter, the class [Ports]; the instructions that load table registers
    store into fields of the state. *)

From S2P Require Import Prelude Libc Threads.

(** ** Tables as bytes *)

(** A store of [bs] at offset [off] of a table. *)
Definition put_bytes (off : Z) (bs tbl : list Z) : outcome (list Z) :=
  if (0 <=? off) && (off + Z.of_nat (length bs) <=? Z.of_nat (length tbl))
  then Done (take (Z.to_nat off) tbl ++ bs ++ drop (Z.to_nat off + length bs) tbl)
  else Fault.

(** [n] bytes at offset [off], and their value. *)
Definition get_bytes (off : Z) (n : nat) (tbl : list Z) : list Z := take n (drop (Z.to_nat off) tbl).
Definition field (off : Z) (n : nat) (tbl : list Z) : Z := le_num (get_bytes off n tbl).

(** ** The global descriptor table (gdt.c) *)
Definition GDT_DESC_READWRITE : Z := 0x2.
Definition GDT_DESC_EXECUTABLE : Z := 0x8.
Definition GDT_DESC_CODEDATA : Z := 0x10.
Definition GDT_DESC_DPL : Z := 0x60.
Definition GDT_DESC_MEMORY : Z := 0x80.
Definition GDT_GRAN_64BIT : Z := 0x20.
Definition GDT_GRAN_4K : Z := 0x80.
Definition GDT_KERNEL_CODE : Z := 0x1.
Definition GDT_KERNEL_DATA : Z := 0x2.
Definition MAX_DESCRIPTORS : Z := 16.
Definition sizeof_gdt_desc : Z := 8.

Record gdt_state := Gdt { gdtdescriptors : list Z; gdt_index : Z; gdt_limit : Z; gdt_base : Z }.

Definition set_gdt (tbl : list Z) (i : Z) (g : gdt_state) : gdt_state :=
  Gdt tbl i (gdt_limit g) (gdt_base g).

Definition gdt_install_descriptor (base limit access granularity : Z) (g : gdt_state)
    : outcome gdt_state :=
  if MAX_DESCRIPTORS <? gdt_index g then Done g
  else
    let o := sizeof_gdt_desc * gdt_index g in
    let* t := put_bytes (o + 2) (le_bytes 2 (Z.land base 0xFFFF)) (gdtdescriptors g) in
    let* t := put_bytes (o + 4) (le_bytes 1 (Z.land (Z.shiftr base 16) 0xFF)) t in
    let* t := put_bytes (o + 7) (le_bytes 1 (Z.land (Z.shiftr base 24) 0xFF)) t in
    let* t := put_bytes o (le_bytes 2 (Z.land limit 0xFFFF)) t in
    let* t := put_bytes (o + 5) (le_bytes 1 access) t in
    let* t := put_bytes (o + 6) (le_bytes 1 (Z.land (Z.shiftr limit 16) 0x0F)) t in
    let* b := aread t (o + 6) in
    let* t := put_bytes (o + 6) (le_bytes 1 (Z.lor b (Z.land granularity 0xF0))) t in
    Done (set_gdt t (gdt_index g + 1) g).

(** The descriptor of a task takes two places. *)
Definition gdt_install_tss (base limit : Z) (g : gdt_state) : outcome gdt_state :=
  let tss_type := 0x0089 in
  if MAX_DESCRIPTORS <? gdt_index g then Done g
  else
    let o := sizeof_gdt_desc * gdt_index g in
    let* t := put_bytes (o + 5) (le_bytes 1 (Z.land tss_type 0x00FF)) (gdtdescriptors g) in
    let* t := put_bytes (o + 6) (le_bytes 1 (Z.shiftr (Z.land tss_type 0xF000) 12)) t in
    let* t := put_bytes (o + 2) (le_bytes 2 (Z.land base 0xFFFF)) t in
    let* t := put_bytes (o + 4) (le_bytes 1 (Z.shiftr (Z.land base 0xFF0000) 16)) t in
    let* t := put_bytes (o + 7) (le_bytes 1 (Z.shiftr (Z.land base 0xFF000000) 24)) t in
    let* t := put_bytes (o + 8) (le_bytes 4 (Z.shiftr base 32)) t in
    let* t := put_bytes o (le_bytes 2 (Z.land limit 0xFFFF)) t in
    let* t := put_bytes (o + 6) (le_bytes 1 (Z.shiftr (Z.land limit 0xF0000) 16)) t in
    let* t := put_bytes (o + 12) (le_bytes 4 0) t in
    Done (set_gdt t (gdt_index g + 2) g).

(** [a_gdt] is the address of the table. *)
Definition gdt_init (a_gdt : Z) : outcome gdt_state :=
  let g := Gdt (replicate 128 0) 0 (sizeof_gdt_desc * MAX_DESCRIPTORS - 1) a_gdt in
  let code := Z.lor (Z.lor (Z.lor GDT_DESC_MEMORY GDT_DESC_READWRITE) GDT_DESC_EXECUTABLE)
    GDT_DESC_CODEDATA in
  let data := Z.lor (Z.lor GDT_DESC_MEMORY GDT_DESC_READWRITE) GDT_DESC_CODEDATA in
  let gran := Z.lor GDT_GRAN_4K GDT_GRAN_64BIT in
  let* g := gdt_install_descriptor 0 0 0 0 g in
  let* g := gdt_install_descriptor 0 0 code gran g in
  let* g := gdt_install_descriptor 0 0 data gran g in
  let* g := gdt_install_descriptor 0 0 (Z.lor code GDT_DESC_DPL) gran g in
  gdt_install_descriptor 0 0 (Z.lor data GDT_DESC_DPL) gran g.

(** ** The interrupt descriptor table (idt.c, exception.c) *)
Definition IDT_DESC_BIT32 : Z := 0x0F.
Definition IDT_DESC_RING3 : Z := 0x60.
Definition IDT_DESC_PRESENT : Z := 0x80.
Definition MAX_INTERRUPTS : Z := 0xFF.
Definition sizeof_idt_desc : Z := 16.

Record idt_state := Idt { idt_descriptors : list Z; idt_limit : Z; idt_base : Z }.

Definition idt_install_gate (index flags selector Irq : Z) (t : list Z) : outcome (list Z) :=
  if MAX_INTERRUPTS <? index then Done t
  else if Irq =? 0 then Done t
  else
    let o := sizeof_idt_desc * index in
    let* t := put_bytes o (le_bytes 2 (Z.land Irq 0xFFFF)) t in
    let* t := put_bytes (o + 6) (le_bytes 2 (Z.land (Z.shiftr Irq 16) 0xFFFF)) t in
    let* t := put_bytes (o + 8) (le_bytes 4 (Z.land (Z.shiftr Irq 32) 0xFFFFFFFF)) t in
    let* t := put_bytes (o + 4) (le_bytes 1 0) t in
    let* t := put_bytes (o + 12) (le_bytes 4 0) t in
    let* t := put_bytes (o + 5) (le_bytes 1 flags) t in
    put_bytes (o + 2) (le_bytes 2 selector) t.

Definition kernel_gate (index Irq : Z) (t : list Z) : outcome (list Z) :=
  idt_install_gate index (Z.lor IDT_DESC_PRESENT IDT_DESC_BIT32) (Z.shiftl GDT_KERNEL_CODE 3) Irq t.

Definition idt_init (isr_default_handler a_idt : Z) (t : list Z) : outcome idt_state :=
  let* t := for_each 0 MAX_INTERRUPTS (λ i t, kernel_gate (u32 i) isr_default_handler t) t in
  Done (Idt t (u16 (sizeof_idt_desc * MAX_INTERRUPTS) - 1) a_idt).

(** [isr_handler i] is the address of the i-th handler. *)
Definition exception_init (isr_handler : Z → Z) (t : list Z) : outcome (list Z) :=
  for_each 0 20 (λ i t, kernel_gate i (isr_handler i) t) t.

(** [interrupt_register]: the first 32 gates are reserved. *)
Definition interrupt_register64 (irq handler : Z) (t : list Z) : outcome (list Z) :=
  kernel_gate (u32 (0x20 + irq)) handler t.

(** ** Task state segments (tss.c) *)

(** The layout of [tss_t] has 4 bytes of padding after its first field. *)
Definition sizeof_tss : Z := 112.

Definition tss_init : list Z := replicate (Z.to_nat (sizeof_tss * CONFIG_MAX_CPUS)) 0.

Definition tss_setstack (cpu stack : Z) (t : list Z) : outcome (list Z) :=
  put_bytes (sizeof_tss * cpu + 8) (le_bytes 8 stack) t.
Definition tss_setuserstack (cpu stack : Z) (t : list Z) : outcome (list Z) :=
  put_bytes (sizeof_tss * cpu + 24) (le_bytes 8 stack) t.

(** The table, the GDT, and what the task register is loaded with. *)
Definition tss_install (a_tss num_cpu cpu_stack : Z) (g : gdt_state) (t : list Z)
    : outcome (gdt_state * list Z * Z) :=
  let o := sizeof_tss * num_cpu in
  let* t := put_bytes o (replicate 112 0) t in
  let* g := gdt_install_tss (u64 (a_tss + o)) sizeof_tss g in
  let* t := tss_setstack num_cpu cpu_stack t in
  let* t := put_bytes (o + 106) (le_bytes 2 0xFFFF) t in
  let* t := put_bytes (o + 40) (le_bytes 8 cpu_stack) t in
  Done (g, t, u16 ((5 + num_cpu) * sizeof_gdt_desc)).

(** ** Ports and the interrupt flag *)
Class Ports (T : Type) := { inb : Z → T → Z * T; outb : Z → Z → T → T }.

Definition EFLAGS_INTERRUPT_FLAG : Z := Z.shiftl 1 9.

(** The flags register of the processor and the devices behind the ports. *)
Record cpu (T : Type) := Cpu { eflags : Z; io : T }.
Arguments Cpu {T}.
Arguments eflags {T}.
Arguments io {T}.

Section cpu.
Context {T : Type} {ports : Ports T}.
Implicit Types c : cpu T.

Definition cpu_out (p v : Z) c : cpu T := Cpu (eflags c) (outb p v (io c)).
Definition cpu_in (p : Z) c : Z * cpu T := let '(v, t) := inb p (io c) in (v, Cpu (eflags c) t).

Definition enable_irq c : cpu T := Cpu (Z.lor (eflags c) EFLAGS_INTERRUPT_FLAG) (io c).
Definition disable_irq c : cpu T := Cpu (Z.land (eflags c) (Z.lnot EFLAGS_INTERRUPT_FLAG)) (io c).

Definition interrupt_get_state c : Z :=
  if negb (Z.land (u32 (eflags c)) EFLAGS_INTERRUPT_FLAG =? 0) then 1 else 0.
Definition interrupt_disable c : Z * cpu T := (interrupt_get_state c, disable_irq c).
Definition interrupt_enable c : Z * cpu T := (interrupt_get_state c, enable_irq c).
Definition interrupt_set_state (stat : Z) c : Z * cpu T :=
  if negb (stat =? 0) then interrupt_enable c else interrupt_disable c.
Definition interrupt_is_disabled c : Z := if interrupt_get_state c =? 0 then 1 else 0.

(** ** The interrupt controllers (pic.c) *)
Definition PIC0_COMMAND_REGISTER : Z := 0x20.
Definition PIC0_INT_MASK_REGISTER : Z := 0x21.
Definition PIC1_COMMAND_REGISTER : Z := 0xA0.
Definition PIC1_INT_MASK_REGISTER : Z := 0xA1.
Definition PIC_ICW1_MASK_IC4 : Z := 1.
Definition PIC_ICW1_MASK_INIT : Z := 0x10.
Definition PIC_ICW4_MASK_UPM : Z := 1.
Definition PRIMARY_PIC : Z := 0.
Definition SECONDARY_PIC : Z := 1.

Definition pic_sendcommand (Pic Command : Z) c : cpu T :=
  if 1 <? Pic then c
  else cpu_out (if Pic =? SECONDARY_PIC then PIC1_COMMAND_REGISTER else PIC0_COMMAND_REGISTER) Command c.
Definition pic_senddata (Pic Data : Z) c : cpu T :=
  if 1 <? Pic then c
  else cpu_out (if Pic =? SECONDARY_PIC then PIC1_INT_MASK_REGISTER else PIC0_INT_MASK_REGISTER) Data c.
Definition pic_getdata (Pic : Z) c : Z * cpu T :=
  if 1 <? Pic then (0, c)
  else cpu_in (if Pic =? SECONDARY_PIC then PIC1_INT_MASK_REGISTER else PIC0_INT_MASK_REGISTER) c.

Definition pic_eoi (irq : Z) c : cpu T :=
  let c := if 8 <=? irq then cpu_out PIC1_COMMAND_REGISTER 0x20 c else c in
  cpu_out PIC0_COMMAND_REGISTER 0x20 c.

Definition pic_init c : cpu T :=
  let icw := Z.lor 0 (Z.lor PIC_ICW1_MASK_INIT PIC_ICW1_MASK_IC4) in
  let c := pic_sendcommand PRIMARY_PIC icw c in
  let c := pic_sendcommand SECONDARY_PIC icw c in
  let c := pic_senddata PRIMARY_PIC 0x20 c in
  let c := pic_senddata SECONDARY_PIC 0x28 c in
  let c := pic_senddata PRIMARY_PIC 0x04 c in
  let c := pic_senddata SECONDARY_PIC 0x02 c in
  let icw := PIC_ICW4_MASK_UPM in
  let c := pic_senddata PRIMARY_PIC icw c in
  let c := pic_senddata SECONDARY_PIC icw c in
  let c := pic_senddata PRIMARY_PIC 0 c in
  let c := pic_senddata SECONDARY_PIC 0 c in
  let '(_, c) := interrupt_enable c in
  pic_eoi 8 c.

Definition pic_port (irq : Z) : Z * Z :=
  if irq <? 8 then (PIC0_INT_MASK_REGISTER, irq) else (PIC1_INT_MASK_REGISTER, u8 (irq - 8)).

Definition pic_maskinterrupt (irq : Z) c : cpu T :=
  let '(Port, irq) := pic_port irq in
  let '(v, c) := cpu_in Port c in
  cpu_out Port (u8 (Z.lor v (Z.shiftl 1 irq))) c.
Definition pic_unmaskinterrupt (irq : Z) c : cpu T :=
  let '(Port, irq) := pic_port irq in
  let '(v, c) := cpu_in Port c in
  cpu_out Port (u8 (Z.land v (Z.lnot (Z.shiftl 1 irq)))) c.

(** ** The interval timer (pit.c) *)
Definition PIT_COUNTER0_REG : Z := 0x40.
Definition PIT_COUNTER1_REG : Z := 0x41.
Definition PIT_COUNTER2_REG : Z := 0x42.
Definition PIT_COMMAND_REG : Z := 0x43.
Definition PIT_CW_MASK_RATEGEN : Z := 4.
Definition PIT_CW_MASK_DATA : Z := 0x30.
Definition PIT_CW_MASK_COUNTER0 : Z := 0.
Definition PIT_CW_MASK_COUNTER1 : Z := 0x40.
Definition PIT_BASE_FREQUENCY : Z := 1193181.
Definition PIT_FREQUENCY : Z := 100.

Definition pit_send_data (data counter : Z) c : cpu T :=
  cpu_out (if counter =? PIT_CW_MASK_COUNTER0 then PIT_COUNTER0_REG
           else if counter =? PIT_CW_MASK_COUNTER1 then PIT_COUNTER1_REG
           else PIT_COUNTER2_REG) data c.
Definition pit_send_command (data : Z) c : cpu T := cpu_out PIT_COMMAND_REG data c.

Definition pit_start_counter (frequency counter mode : Z) c : cpu T :=
  if frequency =? 0 then c
  else
    let divisor := u16 (PIT_BASE_FREQUENCY / frequency) in
    let cw := Z.lor (Z.lor (Z.lor 0 mode) PIT_CW_MASK_DATA) counter in
    let c := pit_send_command cw c in
    let c := pit_send_data (Z.land divisor 0xFF) counter c in
    pit_send_data (Z.land (Z.shiftr divisor 8) 0xFF) counter c.

Definition pit_init (pit_irq_handler : Z) (idt : list Z) c : outcome (list Z * cpu T) :=
  let* idt := interrupt_register64 0 pit_irq_handler idt in
  Done (idt, pit_start_counter PIT_FREQUENCY PIT_CW_MASK_COUNTER0 PIT_CW_MASK_RATEGEN c).

(** ** Start-up (interrupt.c, _syscall.c) *)

(** Link-time addresses. *)
Record cpu_code := CpuCode {
  a_gdt : Z; a_idt : Z; a_tss : Z;
  isr_default_handler : Z; isr_handler : Z → Z;
  syscall_irq_handler : Z; yield_irq_handler : Z;
  init_stack : Z
}.

Record cpu_tables := CpuTables {
  gdt : gdt_state; idt : idt_state; tss_descriptors : list Z; task_register : Z
}.

Definition user_gate (index Irq : Z) (t : list Z) : outcome (list Z) :=
  idt_install_gate index (Z.lor (Z.lor IDT_DESC_PRESENT IDT_DESC_BIT32) IDT_DESC_RING3)
    (Z.shiftl GDT_KERNEL_CODE 3) Irq t.

Definition syscall_init (handler : Z) (t : list Z) : outcome (list Z) := user_gate 0x80 handler t.

Definition interrupt_init64 (code : cpu_code) (idt0 : list Z) c : outcome (cpu_tables * cpu T) :=
  let* g := gdt_init (a_gdt code) in
  let* i := idt_init (isr_default_handler code) (a_idt code) idt0 in
  let* t := exception_init (isr_handler code) (idt_descriptors i) in
  let c := pic_init c in
  let tss := tss_init in
  let* '(g, tss, tr) := tss_install (a_tss code) 0 (init_stack code) g tss in
  let* t := syscall_init (syscall_irq_handler code) t in
  let* t := user_gate 0x81 (yield_irq_handler code) t in
  Done (CpuTables g (Idt t (idt_limit i) (idt_base i)) tss tr, c).

(** ** System calls (_syscall.c, syscall.c) *)
Definition SYSCALL_HALT : Z := 0x001.

(** The registers a call uses; [halt] is [halt_kernel]. *)
Record regs_t := Regs { rax : Z; rcx : Z; rdx : Z; rsi : Z; rdi : Z }.

Definition syscall_entry (halt : cpu T → outcome (cpu T)) (syscall arg0 arg1 arg2 : Z) c
    : outcome (Z * cpu T) :=
  if syscall =? SYSCALL_HALT then let* c := halt c in Done (0, c)
  else Panic "Unhandled system call".

Definition syscall_handle (halt : cpu T → outcome (cpu T)) (r : regs_t) c : outcome (regs_t * cpu T) :=
  let intr_status := interrupt_get_state c in
  let '(_, c) := interrupt_enable c in
  let* '(res, c) := syscall_entry halt (rdi r) (rsi r) (rdx r) (rcx r) c in
  let '(_, c) := interrupt_set_state intr_status c in
  Done (Regs res (rcx r) (rdx r) (rsi r) (rdi r), c).
End cpu.

(** ** Lemmas on tables *)
Lemma put_bytes_app (pre old bs post : list Z) off :
  off = Z.of_nat (length pre) → length old = length bs →
  put_bytes off bs (pre ++ old ++ post) = Done (pre ++ bs ++ post).
Proof.
  intros -> Hl. unfold put_bytes. rewrite (proj2 (Z.leb_le _ _)) by lia.
  rewrite (proj2 (Z.leb_le _ _)) by (rewrite !length_app; lia). cbn [andb]. rewrite Nat2Z.id.
  rewrite take_app_length. do 3 f_equal.
  by rewrite (assoc_L (++)), drop_app_length' by (rewrite length_app; lia).
Qed.

(** A store inside an entry of a table is a store into the entry. *)
Lemma put_bytes_entry (pre m m' post bs : list Z) o k :
  o = Z.of_nat (length pre) → 0 ≤ k → put_bytes k bs m = Done m' →
  put_bytes (o + k) bs (pre ++ m ++ post) = Done (pre ++ m' ++ post).
Proof.
  intros -> Hk Hput. unfold put_bytes in Hput.
  destruct (Z.leb_spec 0 k), (Z.leb_spec (k + Z.of_nat (length bs)) (Z.of_nat (length m)));
    try done. simpl in Hput. injection Hput as <-.
  rewrite <- (take_drop (Z.to_nat k) m) at 1.
  rewrite <- (take_drop (length bs) (drop (Z.to_nat k) m)) at 1. rewrite drop_drop.
  rewrite <- !(assoc_L (++)), !(assoc_L (++) pre). apply put_bytes_app.
  - rewrite length_app, length_take. lia.
  - rewrite length_take, length_drop. lia.
Qed.

Lemma put_bytes_past off (bs tbl : list Z) :
  Z.of_nat (length tbl) < off + Z.of_nat (length bs) → put_bytes off bs tbl = Fault.
Proof.
  intros H. unfold put_bytes.
  by rewrite (proj2 (Z.leb_gt (off + _) _)), andb_false_r by lia.
Qed.

(** The table around entry [i] of entries of [w] bytes. *)
Lemma entry_split (t : list Z) w i :
  0 ≤ i → (w * i + w ≤ Z.of_nat (length t)) → 0 < w →
  t = take (Z.to_nat (w * i)) t ++ get_bytes (w * i) (Z.to_nat w) t ++
    drop (Z.to_nat (w * i + w)) t ∧
  w * i = Z.of_nat (length (take (Z.to_nat (w * i)) t)) ∧
  length (get_bytes (w * i) (Z.to_nat w) t) = Z.to_nat w.
Proof.
  intros Hi Hl Hw. assert (Ho : 0 ≤ w * i) by nia. unfold get_bytes. set (o := w * i) in *.
  split_and!.
  - rewrite <- (take_drop (Z.to_nat o) t) at 1. f_equal.
    rewrite <- (take_drop (Z.to_nat w) (drop (Z.to_nat o) t)) at 1. f_equal.
    rewrite drop_drop. f_equal. lia.
  - rewrite length_take. lia.
  - rewrite length_take, length_drop. lia.
Qed.

Lemma get_bytes_app (pre m post : list Z) off n :
  off = Z.of_nat (length pre) → n = length m → get_bytes off n (pre ++ m ++ post) = m.
Proof.
  intros -> ->. unfold get_bytes. by rewrite Nat2Z.id, drop_app_length, take_app_length.
Qed.

(** A change of one entry leaves the others. *)
Lemma get_bytes_other (pre m m' post : list Z) w i j :
  0 < w → 0 ≤ j → j ≠ i → 0 ≤ i → w * i = Z.of_nat (length pre) → Z.of_nat (length m) = w →
  length m' = length m →
  get_bytes (w * j) (Z.to_nat w) (pre ++ m' ++ post) = get_bytes (w * j) (Z.to_nat w) (pre ++ m ++ post).
Proof.
  intros Hw Hj Hne Hi Hpre Hm Hm'. unfold get_bytes. destruct (decide (j < i)).
  - assert (w * j + w ≤ w * i) by nia.
    rewrite !drop_app_le, !take_app_le by (rewrite ?length_drop; nia). done.
  - assert (w * i + w ≤ w * j) by nia. f_equal. by rewrite !drop_app_ge, Hm' by nia.
Qed.

(** ** Gates *)

(** What the processor reads from a gate: the handler, the code selector and the
    type and privilege. *)
Definition gate_at (i : Z) (t : list Z) : Z * Z * Z :=
  let g := get_bytes (sizeof_idt_desc * i) 16 t in
  (field 0 2 g + 2 ^ 16 * field 6 2 g + 2 ^ 32 * field 8 4 g, field 2 2 g, field 5 1 g).

Definition gate_bytes (flags selector Irq : Z) : list Z :=
  le_bytes 2 (Z.land Irq 0xFFFF) ++ le_bytes 2 selector ++ le_bytes 1 0 ++ le_bytes 1 flags ++
  le_bytes 2 (Z.land (Z.shiftr Irq 16) 0xFFFF) ++ le_bytes 4 (Z.land (Z.shiftr Irq 32) 0xFFFFFFFF) ++
  le_bytes 4 0.

Lemma install_gate_bytes index flags selector Irq (pre m post : list Z) :
  0 ≤ index ≤ MAX_INTERRUPTS → Irq ≠ 0 → length m = 16%nat →
  sizeof_idt_desc * index = Z.of_nat (length pre) →
  idt_install_gate index flags selector Irq (pre ++ m ++ post) =
    Done (pre ++ gate_bytes flags selector Irq ++ post).
Proof.
  intros Hi HI Hm Ho. unfold idt_install_gate.
  destruct (Z.ltb_spec MAX_INTERRUPTS index); [lia|]. rewrite (proj2 (Z.eqb_neq _ _) HI).
  do 16 (destruct m as [|? m]; [discriminate|]). destruct m; [|discriminate].
  rewrite <- (Z.add_0_r (sizeof_idt_desc * index)) at 1.
  do 7 (erewrite put_bytes_entry; [|exact Ho|lia|reflexivity]; cbn [outcome_bind]).
  done.
Qed.

(** The handler of a gate is the address, of 64 bits. *)
Lemma gate_bytes_field flags selector Irq :
  0 ≤ Irq < 2 ^ 64 → 0 ≤ selector < 2 ^ 16 → 0 ≤ flags < 2 ^ 8 →
  let g := gate_bytes flags selector Irq in
  field 0 2 g + 2 ^ 16 * field 6 2 g + 2 ^ 32 * field 8 4 g = Irq ∧
  field 2 2 g = selector ∧ field 5 1 g = flags.
Proof.
  intros HI Hs Hf g.
  change (field 0 2 g) with (le_num (le_bytes 2 (Z.land Irq 0xFFFF))).
  change (field 6 2 g) with (le_num (le_bytes 2 (Z.land (Z.shiftr Irq 16) 0xFFFF))).
  change (field 8 4 g) with (le_num (le_bytes 4 (Z.land (Z.shiftr Irq 32) 0xFFFFFFFF))).
  change (field 2 2 g) with (le_num (le_bytes 2 selector)).
  change (field 5 1 g) with (le_num (le_bytes 1 flags)).
  rewrite !le_num_bytes. change 0xFFFF with (Z.ones 16). change 0xFFFFFFFF with (Z.ones 32).
  rewrite !Z.land_ones, !Z.shiftr_div_pow2 by lia. cbn [Z.of_nat].
  split_and!; [|rewrite Z.mod_small; lia..].
  change (8 * Z.of_nat 2) with 16. change (8 * Z.of_nat 4) with 32. rewrite !Zmod_mod.
  Z.to_euclidean_division_equations. lia.
Qed.

Definition is_code (a : Z) : Prop := 0 < a < 2 ^ 64.

Lemma install_gate_spec index flags selector Irq t :
  0 ≤ index < MAX_INTERRUPTS → length t = 4080%nat → is_code Irq → 0 ≤ selector < 2 ^ 16 →
  0 ≤ flags < 2 ^ 8 →
  ∃ t', idt_install_gate index flags selector Irq t = Done t' ∧ length t' = 4080%nat ∧
    gate_at index t' = (Irq, selector, flags) ∧
    ∀ j, 0 ≤ j → j ≠ index → gate_at j t' = gate_at j t.
Proof.
  intros Hi Hl HI Hs Hf. unfold MAX_INTERRUPTS in Hi.
  destruct (entry_split t 16 index) as (Et & Ho & Hm); [lia..|].
  set (pre := take _ t) in *. set (m := get_bytes _ _ t) in *. set (post := drop _ t) in *.
  exists (pre ++ gate_bytes flags selector Irq ++ post).
  assert (Hlen : length (pre ++ m ++ post) = 4080%nat) by (by rewrite <- Et).
  rewrite !length_app, Hm in Hlen.
  split; [rewrite Et; apply install_gate_bytes; unfold is_code, MAX_INTERRUPTS in *; done || lia|].
  split; [rewrite !length_app; simpl; lia|]. split.
  - unfold gate_at, sizeof_idt_desc. rewrite get_bytes_app by done.
    destruct (gate_bytes_field flags selector Irq) as (-> & -> & ->); unfold is_code in *; done || lia.
  - intros j Hj Hne. unfold gate_at, sizeof_idt_desc.
    change 16%nat with (Z.to_nat 16). rewrite Et.
    rewrite (get_bytes_other pre m (gate_bytes flags selector Irq) post 16 index j); done || lia.
Qed.

Lemma kernel_gate_spec index Irq t :
  0 ≤ index < MAX_INTERRUPTS → length t = 4080%nat → is_code Irq →
  ∃ t', kernel_gate index Irq t = Done t' ∧ length t' = 4080%nat ∧
    gate_at index t' = (Irq, 8, 0x8F) ∧ ∀ j, 0 ≤ j → j ≠ index → gate_at j t' = gate_at j t.
Proof. intros Hi Hl HI. by apply (install_gate_spec index 0x8F 8 Irq t). Qed.

Lemma user_gate_spec index Irq t :
  0 ≤ index < MAX_INTERRUPTS → length t = 4080%nat → is_code Irq →
  ∃ t', user_gate index Irq t = Done t' ∧ length t' = 4080%nat ∧
    gate_at index t' = (Irq, 8, 0xEF) ∧ ∀ j, 0 ≤ j → j ≠ index → gate_at j t' = gate_at j t.
Proof. intros Hi Hl HI. by apply (install_gate_spec index 0xEF 8 Irq t). Qed.

(** A loop that installs the gates below [n]. *)
Lemma gates_loop (ix h : Z → Z) n t :
  0 ≤ n ≤ MAX_INTERRUPTS → (∀ i, 0 ≤ i < n → ix i = i) → length t = 4080%nat → (∀ i, 0 ≤ i < n → is_code (h i)) →
  ∃ t', for_each 0 n (λ i t, kernel_gate (ix i) (h i) t) t = Done t' ∧ length t' = 4080%nat ∧
    (∀ i, 0 ≤ i < n → gate_at i t' = (h i, 8, 0x8F)) ∧ (∀ i, n ≤ i → gate_at i t' = gate_at i t).
Proof.
  intros Hn Hix Hl Hh. unfold MAX_INTERRUPTS in Hn.
  apply returns_inv, (for_each_inv (λ k t', length t' = 4080%nat ∧
    (∀ i, 0 ≤ i < k → gate_at i t' = (h i, 8, 0x8F)) ∧ (∀ i, k ≤ i → gate_at i t' = gate_at i t)));
    [lia|split_and!; [done|lia|done]|].
  intros k t1 Hk (Hl1 & Hd1 & Hr1). rewrite Hix by done.
  destruct (kernel_gate_spec k (h k) t1) as (t2 & -> & Hl2 & Hg & Ho);
    [unfold MAX_INTERRUPTS; lia|done|apply Hh; lia|].
  split_and!; [done| |].
  - intros i Hi. destruct (decide (i = k)) as [->|]; [done|]. rewrite Ho by lia. apply Hd1. lia.
  - intros i Hi. rewrite Ho by lia. apply Hr1. lia.
Qed.

(** ** Segments *)

(** Base, limit, access byte and flags of a descriptor. *)
Definition desc_at (i : Z) (t : list Z) : Z * Z * Z * Z :=
  let d := get_bytes (sizeof_gdt_desc * i) 8 t in
  (field 2 2 d + 2 ^ 16 * field 4 1 d + 2 ^ 24 * field 7 1 d,
   field 0 2 d + 2 ^ 16 * (field 6 1 d mod 16), field 5 1 d, field 6 1 d / 16).

(** Base, limit and type of the descriptor of a task. *)
Definition task_at (i : Z) (t : list Z) : Z * Z * Z :=
  let d := get_bytes (sizeof_gdt_desc * i) 16 t in
  (field 2 2 d + 2 ^ 16 * field 4 1 d + 2 ^ 24 * field 7 1 d + 2 ^ 32 * field 8 4 d,
   field 0 2 d + 2 ^ 16 * (field 6 1 d mod 16), field 5 1 d).

Definition task_bytes (base limit : Z) : list Z :=
  le_bytes 2 (Z.land limit 0xFFFF) ++ le_bytes 2 (Z.land base 0xFFFF) ++
  le_bytes 1 (Z.shiftr (Z.land base 0xFF0000) 16) ++ le_bytes 1 0x89 ++
  le_bytes 1 (Z.shiftr (Z.land limit 0xF0000) 16) ++ le_bytes 1 (Z.shiftr (Z.land base 0xFF000000) 24) ++
  le_bytes 4 (Z.shiftr base 32) ++ le_bytes 4 0.

Lemma install_tss_bytes base limit g (pre m post : list Z) :
  gdtdescriptors g = pre ++ m ++ post → length m = 16%nat →
  sizeof_gdt_desc * gdt_index g = Z.of_nat (length pre) → gdt_index g ≤ MAX_DESCRIPTORS →
  gdt_install_tss base limit g = Done (set_gdt (pre ++ task_bytes base limit ++ post) (gdt_index g + 2) g).
Proof.
  intros Eg Hm Ho Hi. unfold gdt_install_tss. destruct (Z.ltb_spec MAX_DESCRIPTORS (gdt_index g)); [lia|].
  rewrite Eg.
  do 16 (destruct m as [|? m]; [discriminate|]). destruct m; [|discriminate].
  do 6 (erewrite put_bytes_entry; [|exact Ho|lia|reflexivity]; cbn [outcome_bind]).
  rewrite <- (Z.add_0_r (sizeof_gdt_desc * gdt_index g)) at 1.
  do 3 (erewrite put_bytes_entry; [|exact Ho|lia|reflexivity]; cbn [outcome_bind]).
  done.
Qed.

Lemma land_shift x n k : 0 ≤ n → 0 ≤ k → Z.shiftr (Z.land x (Z.shiftl (Z.ones k) n)) n = (x / 2 ^ n) mod 2 ^ k.
Proof.
  intros Hn Hk. rewrite Z.shiftr_land, Z.shiftr_shiftl_l, Z.sub_diag, Z.shiftl_0_r by lia.
  by rewrite Z.land_ones, Z.shiftr_div_pow2.
Qed.

Lemma task_bytes_fields base limit :
  0 ≤ base < 2 ^ 64 → 0 ≤ limit < 2 ^ 20 →
  let d := task_bytes base limit in
  field 2 2 d + 2 ^ 16 * field 4 1 d + 2 ^ 24 * field 7 1 d + 2 ^ 32 * field 8 4 d = base ∧
  field 0 2 d + 2 ^ 16 * (field 6 1 d mod 16) = limit ∧ field 5 1 d = 0x89.
Proof.
  intros Hb Hl d.
  change (field 2 2 d) with (le_num (le_bytes 2 (Z.land base 0xFFFF))).
  change (field 4 1 d) with (le_num (le_bytes 1 (Z.shiftr (Z.land base (Z.shiftl (Z.ones 8) 16)) 16))).
  change (field 7 1 d) with (le_num (le_bytes 1 (Z.shiftr (Z.land base (Z.shiftl (Z.ones 8) 24)) 24))).
  change (field 8 4 d) with (le_num (le_bytes 4 (Z.shiftr base 32))).
  change (field 0 2 d) with (le_num (le_bytes 2 (Z.land limit 0xFFFF))).
  change (field 6 1 d) with (le_num (le_bytes 1 (Z.shiftr (Z.land limit (Z.shiftl (Z.ones 4) 16)) 16))).
  change (field 5 1 d) with 0x89.
  rewrite !le_num_bytes, !land_shift by lia. change 0xFFFF with (Z.ones 16).
  rewrite !Z.land_ones, !Z.shiftr_div_pow2 by lia.
  change (8 * Z.of_nat 2) with 16. change (8 * Z.of_nat 4) with 32. change (8 * Z.of_nat 1) with 8.
  split_and!; [| |done]; Z.to_euclidean_division_equations; lia.
Qed.

(** ** After start-up *)

(** The segments [gdt_init] installs: none, and code and data of kernel and user. *)
Definition segments : list Z :=
  [0; 0; 0; 0; 0; 0; 0; 0;  0; 0; 0; 0; 0; 0x9A; 0xA0; 0;  0; 0; 0; 0; 0; 0x92; 0xA0; 0;
   0; 0; 0; 0; 0; 0xFA; 0xA0; 0;  0; 0; 0; 0; 0; 0xF2; 0xA0; 0].

Lemma gdt_init_spec a :
  gdt_init a = Done (Gdt (segments ++ replicate 16 0 ++ replicate 72 0) 5 127 a).
Proof. reflexivity. Qed.

Definition first_tss (stack : Z) : list Z :=
  replicate 8 0 ++ le_bytes 8 stack ++ replicate 24 0 ++ le_bytes 8 stack ++ replicate 58 0 ++
  [255; 255] ++ replicate 340 0.

Lemma tss_install_spec a stack gb :
  0 ≤ a < 2 ^ 64 →
  tss_install a 0 stack (Gdt (segments ++ replicate 16 0 ++ replicate 72 0) 5 127 gb) tss_init =
  Done (Gdt (segments ++ task_bytes a sizeof_tss ++ replicate 72 0) 7 127 gb, first_tss stack, 40).
Proof.
  intros Ha. unfold tss_install. rewrite Z.mul_0_r, !Z.add_0_r. unfold u64 at 1.
  rewrite Z.mod_small by lia.
  change (put_bytes 0 (replicate 112 0) tss_init) with (Done tss_init). cbn [outcome_bind].
  erewrite install_tss_bytes; [|reflexivity|reflexivity|reflexivity|done].
  reflexivity.
Qed.

(** The stack the processor loads on an interrupt from user mode: the format of
    the task state segment has it at offset 4. *)
Definition interrupt_stack (cpu : Z) (t : list Z) : Z := field (sizeof_tss * cpu + 4) 8 t.

Lemma interrupt_stack_first stack :
  interrupt_stack 0 (first_tss stack) = 2 ^ 32 * (stack mod 2 ^ 32).
Proof.
  unfold interrupt_stack, field. rewrite Z.mul_0_r.
  change (get_bytes (0 + 4) 8 (first_tss stack)) with ([0; 0; 0; 0] ++ le_bytes 4 stack).
  cbn [app le_num]. rewrite le_num_bytes. change (8 * Z.of_nat 4) with 32. lia.
Qed.

Lemma enabled_flag {T} {ports : Ports T} e (t : T) :
  interrupt_get_state (Cpu (Z.lor e EFLAGS_INTERRUPT_FLAG) t) = 1.
Proof.
  unfold interrupt_get_state. cbn [eflags].
  change EFLAGS_INTERRUPT_FLAG with (2 ^ 9).
  rewrite (proj2 (Z.eqb_neq _ _)); [done|]. intros E. apply (f_equal (λ z, Z.testbit z 9)) in E.
  unfold u32 in E. rewrite Z.land_spec, Z.mod_pow2_bits_low, Z.lor_spec, Z.bits_0 in E by lia.
  change (Z.testbit (2 ^ 9) 9) with true in E. by rewrite orb_true_r in E.
Qed.

(** C31. [interrupt_init] on x86-64 returns with the processor's tables set up:
    the 20 exceptions, the system call and the yield call have gates to their
    handlers in the kernel's code segment, the last two open to user mode, and all
    other gates lead to the default handler; the segments are those of kernel and
    user; the task register selects a descriptor of the first task state segment.
    Interrupts are enabled.  The stack pointer in that segment is four bytes from
    where the processor reads it, so an interrupt from user mode would load the
    low half of the address shifted up by 32 bits. *)
Theorem interrupt_init64_correct {T} {ports : Ports T} code idt0 (c : cpu T) :
  length idt0 = 4080%nat → is_code (isr_default_handler code) →
  (∀ i, 0 ≤ i < 20 → is_code (isr_handler code i)) → is_code (syscall_irq_handler code) →
  is_code (yield_irq_handler code) → 0 ≤ a_tss code < 2 ^ 64 →
  ∃ tb c', interrupt_init64 code idt0 c = Done (tb, c') ∧ interrupt_get_state c' = 1 ∧
    let t := idt_descriptors (idt tb) in
    (∀ i, 0 ≤ i < 20 → gate_at i t = (isr_handler code i, 8, 0x8F)) ∧
    gate_at 0x80 t = (syscall_irq_handler code, 8, 0xEF) ∧
    gate_at 0x81 t = (yield_irq_handler code, 8, 0xEF) ∧
    (∀ i, 20 ≤ i < 255 → i ≠ 0x80 → i ≠ 0x81 → gate_at i t = (isr_default_handler code, 8, 0x8F)) ∧
    (λ i, desc_at i (gdtdescriptors (gdt tb))) <$> [1; 2; 3; 4] =
      [(0, 0, 0x9A, 10); (0, 0, 0x92, 10); (0, 0, 0xFA, 10); (0, 0, 0xF2, 10)] ∧
    task_at (task_register tb / 8) (gdtdescriptors (gdt tb)) = (a_tss code, 112, 0x89) ∧
    interrupt_stack 0 (tss_descriptors tb) = 2 ^ 32 * (init_stack code mod 2 ^ 32).
Proof.
  intros Hl Hd Hx Hs Hy Ha. unfold interrupt_init64. rewrite gdt_init_spec. cbn [outcome_bind].
  unfold idt_init.
  destruct (gates_loop u32 (λ _, isr_default_handler code) MAX_INTERRUPTS idt0)
    as (t1 & -> & Hl1 & Hg1 & _); [done|intros i Hi; apply u32_id; unfold MAX_INTERRUPTS in Hi; klia|done..|].
  cbn [outcome_bind idt_descriptors idt_limit idt_base]. unfold exception_init.
  destruct (gates_loop id (isr_handler code) 20 t1) as (t2 & E2 & Hl2 & Hg2 & Ho2); [done..|].
  unfold id in E2. rewrite E2. cbn [outcome_bind]. rewrite tss_install_spec by done. cbn [outcome_bind].
  destruct (user_gate_spec 0x80 (syscall_irq_handler code) t2) as (t3 & E3 & Hl3 & Hg3 & Ho3); [done..|].
  unfold syscall_init. rewrite E3. cbn [outcome_bind].
  destruct (user_gate_spec 0x81 (yield_irq_handler code) t3) as (t4 & E4 & Hl4 & Hg4 & Ho4); [done..|].
  rewrite E4. cbn [outcome_bind]. eexists _, _. split; [done|].
  split; [apply enabled_flag|].
  cbn [idt_descriptors idt gdt gdtdescriptors task_register tss_descriptors]. split_and!.
  - intros i Hi. rewrite Ho4, Ho3 by lia. by apply Hg2.
  - by rewrite Ho4 by lia.
  - done.
  - intros i Hi H1 H2. rewrite Ho4, Ho3, Ho2 by lia. apply Hg1. unfold MAX_INTERRUPTS. lia.
  - reflexivity.
  - unfold task_at, sizeof_gdt_desc. change (8 * (40 / 8)) with 40. rewrite get_bytes_app by done.
    by destruct (task_bytes_fields (a_tss code) sizeof_tss) as (-> & -> & ->).
  - apply interrupt_stack_first.
Qed.

Definition demo_code : cpu_code :=
  CpuCode 0x1000 0x2000 0x123456789A00 0x3000 (λ i, 0x4000 + i) 0x5000 0x5001 0x90000.

#[export] Instance no_ports : Ports unit := { inb _ t := (0, t); outb _ _ t := t }.

Lemma interrupt_init64_correct_witness :
  ∃ tb c', interrupt_init64 demo_code (replicate 4080 7) (Cpu 2 ()) = Done (tb, c') ∧
    gate_at 14 (idt_descriptors (idt tb)) = (0x400E, 8, 0x8F) ∧
    interrupt_stack 0 (tss_descriptors tb) = 0x9000000000000.
Proof.
  destruct (interrupt_init64_correct demo_code (replicate 4080 7) (Cpu 2 ()))
    as (tb & c' & Hrun & _ & Hg & _ & _ & _ & _ & _ & Hs).
  - reflexivity.
  - by compute.
  - intros i Hi. unfold is_code. simpl. lia.
  - by compute.
  - by compute.
  - by compute.
  - exists tb, c'. split; [exact Hrun|]. split; [|exact Hs]. apply Hg. lia.
Defined.

(** Any descriptor decodes to the low 32 bits of its base, the low 20 bits of its
    limit, its access byte and the flags of its granularity. *)
Definition desc_bytes (base limit access granularity : Z) : list Z :=
  le_bytes 2 (Z.land limit 0xFFFF) ++ le_bytes 2 (Z.land base 0xFFFF) ++
  le_bytes 1 (Z.land (Z.shiftr base 16) 0xFF) ++ le_bytes 1 access ++
  le_bytes 1 (Z.lor (le_num (le_bytes 1 (Z.land (Z.shiftr limit 16) 0x0F))) (Z.land granularity 0xF0)) ++
  le_bytes 1 (Z.land (Z.shiftr base 24) 0xFF).

Lemma nibbles l h :
  0 ≤ l < 16 → 0 ≤ h < 256 → Z.lor l (Z.land h 0xF0) mod 256 = l + 16 * (h / 16).
Proof.
  intros Hl Hh. apply Z.eqb_eq.
  apply (forallb_seqZ (λ h, Z.lor l (Z.land h 0xF0) mod 256 =? l + 16 * (h / 16)) 0 256 h); [|lia].
  apply (forallb_seqZ (λ l, forallb (λ h, Z.lor l (Z.land h 0xF0) mod 256 =? l + 16 * (h / 16))
    (seqZ 0 256)) 0 16 l); [vm_compute; reflexivity|lia].
Qed.

Lemma gdt_install_descriptor_correct base limit access granularity (g : gdt_state) (pre m post : list Z) :
  gdtdescriptors g = pre ++ m ++ post → length m = 8%nat →
  sizeof_gdt_desc * gdt_index g = Z.of_nat (length pre) → 0 ≤ gdt_index g ≤ MAX_DESCRIPTORS →
  0 ≤ base → 0 ≤ limit → is_u8 access → is_u8 granularity →
  ∃ t', gdt_install_descriptor base limit access granularity g = Done (set_gdt t' (gdt_index g + 1) g) ∧
    t' = pre ++ desc_bytes base limit access granularity ++ post ∧
    desc_at (gdt_index g) t' = (base mod 2 ^ 32, limit mod 2 ^ 20, access, granularity / 16).
Proof.
  intros Eg Hm Ho Hi Hb Hl Ha Hg. eexists. split; [|split; [reflexivity|]].
  - unfold gdt_install_descriptor. destruct (Z.ltb_spec MAX_DESCRIPTORS (gdt_index g)); [lia|].
    rewrite Eg. do 8 (destruct m as [|? m]; [discriminate|]). destruct m; [|discriminate].
    do 3 (erewrite put_bytes_entry; [|exact Ho|lia|reflexivity]; cbn [outcome_bind]).
    rewrite <- (Z.add_0_r (sizeof_gdt_desc * gdt_index g)) at 1.
    do 3 (erewrite put_bytes_entry; [|exact Ho|lia|reflexivity]; cbn [outcome_bind]).
    rewrite (aread_Some _ _ (le_num (le_bytes 1 (Z.land (Z.shiftr limit 16) 0x0F)))).
    + cbn [outcome_bind]. erewrite put_bytes_entry; [|exact Ho|lia|reflexivity]. reflexivity.
    + lia.
    + rewrite Ho. replace (Z.to_nat (Z.of_nat (length pre) + 6)) with (length pre + 6)%nat by lia.
      rewrite lookup_app_r by lia. replace (length pre + 6 - length pre)%nat with 6%nat by lia.
      cbn [le_bytes app lookup list_lookup le_num]. by rewrite Z.mul_0_r, Z.add_0_r.
  - unfold desc_at, sizeof_gdt_desc in *. rewrite get_bytes_app by done.
    set (d := desc_bytes base limit access granularity).
    change (field 2 2 d) with (le_num (le_bytes 2 (Z.land base 0xFFFF))).
    change (field 4 1 d) with (le_num (le_bytes 1 (Z.land (Z.shiftr base 16) 0xFF))).
    change (field 7 1 d) with (le_num (le_bytes 1 (Z.land (Z.shiftr base 24) 0xFF))).
    change (field 0 2 d) with (le_num (le_bytes 2 (Z.land limit 0xFFFF))).
    change (field 5 1 d) with (le_num (le_bytes 1 access)).
    change (field 6 1 d) with (le_num (le_bytes 1 (Z.lor
      (le_num (le_bytes 1 (Z.land (Z.shiftr limit 16) 0x0F))) (Z.land granularity 0xF0)))).
    rewrite !le_num_bytes. change 0xFFFF with (Z.ones 16). change 0xFF with (Z.ones 8).
    change 0x0F with (Z.ones 4). change (8 * Z.of_nat 2) with 16. change (8 * Z.of_nat 1) with 8.
    rewrite !Z.land_ones, !Z.shiftr_div_pow2 by lia.
    change (2 ^ 8) with 256.
    assert (Hn : 0 ≤ (limit / 2 ^ 16) mod 2 ^ 4 < 2 ^ 4) by (apply Z.mod_pos_bound; lia).
    rewrite (Z.mod_small ((limit / 2 ^ 16) mod 2 ^ 4)) by lia. rewrite (nibbles _ granularity Hn Hg).
    kunfold. rewrite !pair_equal_spec. split_and!; Z.to_euclidean_division_equations; lia.
Qed.

(** Both tables test [index > MAX] where [index] must be less than [MAX]: a
    seventeenth descriptor and gate 255 are written past the end. *)
Lemma tables_off_by_one base limit access granularity flags selector Irq g t :
  gdt_index g = MAX_DESCRIPTORS → length (gdtdescriptors g) = 128%nat → length t = 4080%nat → Irq ≠ 0 →
  gdt_install_descriptor base limit access granularity g = Fault ∧
  idt_install_gate MAX_INTERRUPTS flags selector Irq t = Fault.
Proof.
  intros Hi Hg Ht HI. unfold gdt_install_descriptor, idt_install_gate.
  rewrite Hi, (proj2 (Z.eqb_neq _ _) HI). change (MAX_DESCRIPTORS <? MAX_DESCRIPTORS) with false.
  change (MAX_INTERRUPTS <? MAX_INTERRUPTS) with false. cbv iota zeta.
  rewrite (put_bytes_past _ _ (gdtdescriptors g)), (put_bytes_past _ _ t); [done| |];
    rewrite length_le_bytes, ?Hg, ?Ht;
    unfold sizeof_gdt_desc, sizeof_idt_desc, MAX_DESCRIPTORS, MAX_INTERRUPTS; lia.
Qed.

(** ** The mask registers of the interrupt controllers *)
Class MaskPorts (T : Type) {ports : Ports T} := {
  imr : Z → T → Z;
  imr_u8 p t : is_u8 (imr p t);
  imr_in p t : fst (inb p t) = imr p t ∧ ∀ q, imr q (snd (inb p t)) = imr q t;
  imr_out p q v t : is_u8 v → imr q (outb p v t) = if q =? p then v else imr q t
}.

(** Registers that keep what is written to them. *)
Record demo_masks := DemoMasks { mask_of : Z → Z }.

#[export] Instance demo_masks_ports : Ports demo_masks := {
  inb p t := (u8 (mask_of t p), t);
  outb p v t := DemoMasks (λ q, if q =? p then v else mask_of t q)
}.

#[export, refine] Instance demo_mask_ports : MaskPorts demo_masks := {| imr p t := u8 (mask_of t p) |}.
Proof.
  - intros p t. apply u8_range.
  - done.
  - intros p q v t Hv. simpl. destruct (q =? p); [by apply u8_id|done].
Defined.

(** Masking an interrupt line sets its bit and no other, unmasking clears it. *)
Lemma pic_masks_line {T} {ports : Ports T} {mp : MaskPorts T} irq (c : cpu T) q i :
  0 ≤ irq < 16 → 0 ≤ i < 8 →
  let line := (q =? fst (pic_port irq)) && (i =? irq mod 8) in
  Z.testbit (imr q (io (pic_maskinterrupt irq c))) i = Z.testbit (imr q (io c)) i || line ∧
  Z.testbit (imr q (io (pic_unmaskinterrupt irq c))) i = Z.testbit (imr q (io c)) i && negb line.
Proof.
  intros Hirq Hi line. unfold pic_maskinterrupt, pic_unmaskinterrupt.
  assert (Hport : snd (pic_port irq) = irq mod 8).
  { unfold pic_port. destruct (Z.ltb_spec irq 8); simpl; [by rewrite Z.mod_small by lia|].
    unfold u8. rewrite Z.mod_small by lia. Z.to_euclidean_division_equations. lia. }
  subst line. destruct (pic_port irq) as [p k]. simpl in Hport. subst k. cbn [fst].
  unfold cpu_in, cpu_out. destruct (imr_in p (io c)) as [Hv Ht].
  destruct (inb p (io c)) as [v t]. simpl in Hv, Ht. subst v. cbn [io eflags].
  rewrite !imr_out by apply u8_range. rewrite !Ht.
  destruct (Z.eqb_spec q p) as [->|]; [|by rewrite orb_false_r, andb_true_r].
  assert (Hm : 0 ≤ irq mod 8 < 8) by (by apply Z.mod_pos_bound).
  assert (Hbit : Z.testbit (Z.shiftl 1 (irq mod 8)) i = (i =? irq mod 8)).
  { rewrite Z.shiftl_1_l, Z.pow2_bits_eqb, Z.eqb_sym by lia. done. }
  unfold u8. rewrite !Z.mod_pow2_bits_low, Z.lor_spec, Z.land_spec, Z.lnot_spec, Hbit by lia. done.
Qed.

(** ** System calls *)

Lemma state_after_enable {T} {ports : Ports T} (c : cpu T) : interrupt_get_state (enable_irq c) = 1.
Proof. apply enabled_flag. Qed.

Lemma state_after_disable {T} {ports : Ports T} (c : cpu T) : interrupt_get_state (disable_irq c) = 0.
Proof.
  unfold interrupt_get_state. cbn [disable_irq eflags]. change EFLAGS_INTERRUPT_FLAG with (2 ^ 9).
  rewrite (proj2 (Z.eqb_eq _ _)); [done|]. apply Z.bits_inj'. intros i Hi. unfold u32.
  rewrite Z.land_spec, Z.bits_0, Z.pow2_bits_eqb by lia.
  destruct (Z.eqb_spec 9 i) as [<-|]; [|apply andb_false_r].
  by rewrite Z.mod_pow2_bits_low, Z.land_spec, Z.lnot_spec, andb_false_r by lia.
Qed.

(** A call halts or panics: a halt that returns answers 0 with the interrupts as
    they were before the call, every other number is a panic. *)
Lemma syscall_handle_spec {T} {ports : Ports T} halt (r : regs_t) (c : cpu T) :
  (rdi r ≠ SYSCALL_HALT → syscall_handle halt r c = Panic "Unhandled system call") ∧
  (rdi r = SYSCALL_HALT → ∀ c1, halt (enable_irq c) = Done c1 →
     ∃ c', syscall_handle halt r c = Done (Regs 0 (rcx r) (rdx r) (rsi r) (rdi r), c') ∧
       interrupt_get_state c' = interrupt_get_state c ∧ io c' = io c1).
Proof.
  unfold syscall_handle, syscall_entry, interrupt_enable. split; intros Hr.
  - by rewrite (proj2 (Z.eqb_neq _ _) Hr).
  - intros c1 Hh. rewrite (proj2 (Z.eqb_eq _ _) Hr), Hh. cbn [outcome_bind].
    unfold interrupt_set_state, interrupt_enable, interrupt_disable.
    destruct (Z.eqb_spec (interrupt_get_state c) 0) as [E|E]; cbn [negb];
      (eexists; split; [reflexivity|]; split; [|done]).
    + by rewrite state_after_disable.
    + rewrite state_after_enable. unfold interrupt_get_state in *. by destruct negb.
Qed.
