(* ===== verification/X86Bits.v ===== *)
(** * The bitmaps of the x86-64 memory management

    vm/x86_64/mm_phys.c and mm_virt.c keep bitmaps in 64-bit words and select a
    bit with the expression [1 << (bit % 64)], whose operands are [int]s.  This
    file models the expression and the three helpers built from it, and proves
    what the bitmaps can represent: one flag for each remainder modulo 32. *)

From S2P Require Import Prelude.

Definition is_u64 (z : Z) : Prop := 0 ≤ z < 2 ^ 64.
#[global] Instance is_u64_dec z : Decision (is_u64 z).
Proof. unfold is_u64. apply _. Defined.

(** [1 << n] for [0 ≤ n < 64], an [int].  The compiler leaves the shift to the
    processor, which uses the count modulo 32; the value for the count 31 is the
    least [int]. *)
Definition int_shl1 (n : Z) : Z := s32 (Z.shiftl 1 (n mod 32)).

(** The [int] converted to the 64-bit type of the words. *)
Definition bit_mask (j : Z) : Z := u64 (int_shl1 j).

(** ** The helpers ([memmap_*] and [ptmap_*]) *)
Definition map_setbit (bm : list Z) (bit : Z) : outcome (list Z) :=
  let* w := aread bm (bit `quot` 64) in
  awrite bm (bit `quot` 64) (Z.lor w (bit_mask (bit `rem` 64))).

(** [~(1 << (bit % 64))] is an [int] too. *)
Definition map_unsetbit (bm : list Z) (bit : Z) : outcome (list Z) :=
  let* w := aread bm (bit `quot` 64) in
  awrite bm (bit `quot` 64) (Z.land w (u64 (Z.lnot (int_shl1 (bit `rem` 64))))).

Definition map_testbit (bm : list Z) (bit : Z) : outcome Z :=
  let* w := aread bm (bit `quot` 64) in
  Done (s64 (Z.land w (bit_mask (bit `rem` 64)))).

(** ** One flag per remainder modulo 32 *)

(** The flag [j] of a word. *)
Definition flag (w j : Z) : bool := negb (Z.land w (bit_mask j) =? 0).

(** Two positions of the same word and the same flag. *)
Definition same_flag (p q : Z) : bool := (p / 64 =? q / 64) && (p mod 32 =? q mod 32).

(** The flag of position [p]. *)
Definition taken (bm : list Z) (p : Z) : bool :=
  match bm !! Z.to_nat (p / 64) with Some w => flag w p | None => false end.

Lemma bit_mask_32 j : bit_mask (j mod 32) = bit_mask j.
Proof. unfold bit_mask, int_shl1. by rewrite Z.mod_mod. Qed.

Lemma bit_mask_64 j : bit_mask (j mod 64) = bit_mask j.
Proof.
  rewrite <- (bit_mask_32 (j mod 64)), <- (bit_mask_32 j). f_equal.
  change 64 with (32 * 2). rewrite Z.rem_mul_r by lia.
  by rewrite Z.mul_comm, Z.mod_add, Z.mod_mod by lia.
Qed.

Definition flags32 : list Z := Z.of_nat <$> seq 0 32.

Lemma flags32_complete j : j mod 32 ∈ flags32.
Proof.
  unfold flags32. apply list_elem_of_fmap. exists (Z.to_nat (j mod 32)).
  pose proof (Z.mod_pos_bound j 32). rewrite elem_of_seq. lia.
Qed.

(** Masks of different flags have no bit in common. *)
Lemma masks_apart :
  forallb (λ i, negb (bit_mask i =? 0) &&
    forallb (λ j, (i =? j) || (Z.land (bit_mask i) (bit_mask j) =? 0)) flags32) flags32 = true.
Proof. by vm_compute. Qed.

Lemma masks_32 i j :
  bit_mask i ≠ 0 ∧ (i mod 32 ≠ j mod 32 → Z.land (bit_mask i) (bit_mask j) = 0).
Proof.
  rewrite <- (bit_mask_32 i), <- (bit_mask_32 j). pose proof masks_apart as H.
  rewrite forallb_forall in H.
  assert (Hin : ∀ k, In (k mod 32) flags32) by (intros k; apply list_elem_of_In, flags32_complete).
  destruct (andb_prop _ _ (H _ (Hin i))) as [Hz Hall]. rewrite forallb_forall in Hall.
  specialize (Hall _ (Hin j)).
  split; [by destruct (Z.eqb_spec (bit_mask (i mod 32)) 0)|]. intros Hne.
  apply orb_prop in Hall as [E|E]; apply Z.eqb_eq in E; [by destruct Hne|done].
Qed.

Lemma bit_mask_nonzero j : bit_mask j ≠ 0.
Proof. apply (masks_32 j j). Qed.

Lemma bit_mask_apart i j : i mod 32 ≠ j mod 32 → Z.land (bit_mask i) (bit_mask j) = 0.
Proof. apply masks_32. Qed.

Lemma bit_mask_u64 j : is_u64 (bit_mask j).
Proof. unfold bit_mask, is_u64, u64. apply Z.mod_pos_bound. lia. Qed.

Lemma u64_id z : is_u64 z → u64 z = z.
Proof. unfold is_u64, u64. intros. by apply Z.mod_small. Qed.

Lemma u64_lnot j : u64 (Z.lnot (int_shl1 j)) = Z.ldiff (Z.ones 64) (bit_mask j).
Proof.
  unfold bit_mask, u64. rewrite <- !Z.land_ones by lia. apply Z.bits_inj'. intros n Hn.
  rewrite Z.ldiff_spec, !Z.land_spec, Z.lnot_spec by done. by destruct (Z.testbit (int_shl1 j) n), (Z.testbit _ n).
Qed.

Lemma land_u64 w m : is_u64 w → is_u64 (Z.land w m).
Proof.
  intros Hw. assert (Z.land w m = u64 (Z.land w m)) as ->.
  { unfold u64. rewrite <- Z.land_ones by lia. rewrite (Z.land_comm w), <- Z.land_assoc.
    rewrite (Z.land_ones w) by lia. fold (u64 w). by rewrite u64_id. }
  apply Z.mod_pos_bound. lia.
Qed.

Lemma lor_u64 w m : is_u64 w → is_u64 m → is_u64 (Z.lor w m).
Proof.
  intros Hw Hm. assert (Z.lor w m = u64 (Z.lor w m)) as ->.
  { unfold u64. rewrite <- Z.land_ones by lia. rewrite Z.land_lor_distr_l, !Z.land_ones by lia.
    fold (u64 w) (u64 m). by rewrite !u64_id. }
  apply Z.mod_pos_bound. lia.
Qed.

Lemma flag_set w i j : flag (Z.lor w (bit_mask i)) j = flag w j || (i mod 32 =? j mod 32).
Proof.
  unfold flag. rewrite Z.land_lor_distr_l. destruct (Z.eqb_spec (i mod 32) (j mod 32)) as [E|E].
  - rewrite orb_true_r. assert (bit_mask i = bit_mask j) as -> by (by rewrite <- (bit_mask_32 i), E, bit_mask_32).
    rewrite Z.land_diag. destruct (Z.eqb_spec (Z.lor (Z.land w (bit_mask j)) (bit_mask j)) 0) as [E0|]; [|done].
    apply Z.lor_eq_0_iff in E0 as [_ E0]. by apply bit_mask_nonzero in E0.
  - by rewrite (bit_mask_apart i j), Z.lor_0_r, orb_false_r.
Qed.

Lemma flag_unset w i j : is_u64 w →
  flag (Z.land w (u64 (Z.lnot (int_shl1 i)))) j = flag w j && negb (i mod 32 =? j mod 32).
Proof.
  intros Hw. unfold flag. rewrite u64_lnot.
  assert (Hl : Z.land (Z.land w (Z.ldiff (Z.ones 64) (bit_mask i))) (bit_mask j) =
    Z.ldiff (Z.land w (bit_mask j)) (bit_mask i)).
  { rewrite <- (u64_id w Hw) at 2. unfold u64. rewrite <- Z.land_ones by lia. apply Z.bits_inj'.
    intros n Hn. rewrite ?Z.ldiff_spec, ?Z.land_spec, ?Z.ldiff_spec.
    by destruct (Z.testbit w n), (Z.testbit (bit_mask i) n), (Z.testbit (bit_mask j) n), (Z.testbit (Z.ones 64) n). }
  rewrite Hl. destruct (Z.eqb_spec (i mod 32) (j mod 32)) as [E|E]; cbn [negb].
  - rewrite andb_false_r. assert (bit_mask i = bit_mask j) as -> by (by rewrite <- (bit_mask_32 i), E, bit_mask_32).
    assert (Z.ldiff (Z.land w (bit_mask j)) (bit_mask j) = 0) as ->; [|done].
    apply Z.bits_inj'. intros n Hn. rewrite Z.ldiff_spec, Z.land_spec, Z.testbit_0_l.
    by destruct (Z.testbit w n), (Z.testbit (bit_mask j) n).
  - rewrite andb_true_r. do 2 f_equal. apply Z.bits_inj'. intros n Hn.
    rewrite Z.ldiff_spec, Z.land_spec.
    assert (Hb : Z.testbit (bit_mask i) n && Z.testbit (bit_mask j) n = false).
    { rewrite <- Z.land_spec, (bit_mask_apart i j) by done. apply Z.testbit_0_l. }
    destruct (Z.testbit (bit_mask i) n), (Z.testbit (bit_mask j) n), (Z.testbit w n); done.
Qed.

Lemma flag_ones j : flag (2 ^ 64 - 1) j = true.
Proof.
  unfold flag. change (2 ^ 64 - 1) with (Z.ones 64). rewrite Z.land_comm, Z.land_ones by lia.
  fold (u64 (bit_mask j)). rewrite u64_id by apply bit_mask_u64.
  destruct (Z.eqb_spec (bit_mask j) 0) as [E|]; [by apply bit_mask_nonzero in E|done].
Qed.

Lemma flag_mod w j : flag w (j mod 64) = flag w j.
Proof. unfold flag. by rewrite bit_mask_64. Qed.
Lemma flag_mod32 w j : flag w (j mod 32) = flag w j.
Proof. unfold flag. by rewrite bit_mask_32. Qed.

(** ** The helpers on a bitmap of words *)
Section helpers.
Context (bm : list Z) (Hbm : Forall is_u64 bm).

Definition in_map (p : Z) : Prop := 0 ≤ p < 64 * Z.of_nat (length bm).

Lemma word_at p : in_map p →
  ∃ w, aread bm (p `quot` 64) = Done w ∧ bm !! Z.to_nat (p / 64) = Some w ∧ is_u64 w ∧
    p `quot` 64 = p / 64 ∧ p `rem` 64 = p mod 64 ∧ 0 ≤ p / 64 < Z.of_nat (length bm).
Proof using Hbm.
  unfold in_map. intros Hp. assert (0 ≤ p / 64 < Z.of_nat (length bm)) as Hr.
  { split; [apply Z.div_pos; lia|apply Z.div_lt_upper_bound; lia]. }
  rewrite Z.quot_div_nonneg, Z.rem_mod_nonneg by lia.
  destruct (aread_in_range bm (p / 64)) as (w & Hw & ->); [done|].
  exists w. rewrite Forall_lookup in Hbm. split_and!; [done|done|by eapply Hbm|done|done|lia|lia].
Qed.

Lemma taken_insert p w q : in_map p → 0 ≤ q →
  taken (<[Z.to_nat (p / 64) := w]> bm) q = if p / 64 =? q / 64 then flag w q else taken bm q.
Proof.
  unfold in_map. intros Hp Hq. unfold taken. pose proof (Z.div_pos q 64) as Hdq.
  assert (0 ≤ p / 64 < Z.of_nat (length bm)) as Hr
    by (split; [apply Z.div_pos; lia|apply Z.div_lt_upper_bound; lia]).
  destruct (Z.eqb_spec (p / 64) (q / 64)) as [E|E].
  - rewrite <- E, list_lookup_insert_eq by lia. done.
  - rewrite list_lookup_insert_ne by lia. done.
Qed.

Lemma map_setbit_spec p : in_map p →
  returns (map_setbit bm p) (λ bm', length bm' = length bm ∧ Forall is_u64 bm' ∧
    ∀ q, 0 ≤ q → taken bm' q = taken bm q || same_flag p q).
Proof using Hbm.
  intros Hp. destruct (word_at p Hp) as (w & Hr & Hl & Hw & Eq & Er & Hb). unfold map_setbit.
  rewrite Hr. cbn [outcome_bind]. rewrite Eq, Er, awrite_in_range, bit_mask_64 by done. cbn [returns].
  split_and!; [by rewrite length_insert| |].
  - apply Forall_insert; [done|]. apply lor_u64; [done|apply bit_mask_u64].
  - intros q Hq. rewrite taken_insert, flag_set by done. unfold same_flag.
    destruct (Z.eqb_spec (p / 64) (q / 64)) as [E|E]; cbn [andb]; [|by rewrite orb_false_r].
    unfold taken. by rewrite <- E, Hl.
Qed.

Lemma map_unsetbit_spec p : in_map p →
  returns (map_unsetbit bm p) (λ bm', length bm' = length bm ∧ Forall is_u64 bm' ∧
    ∀ q, 0 ≤ q → taken bm' q = taken bm q && negb (same_flag p q)).
Proof using Hbm.
  intros Hp. destruct (word_at p Hp) as (w & Hr & Hl & Hw & Eq & Er & Hb). unfold map_unsetbit.
  rewrite Hr. cbn [outcome_bind]. rewrite Eq, Er, awrite_in_range by done. cbn [returns].
  split_and!; [by rewrite length_insert| |].
  - apply Forall_insert; [done|]. by apply land_u64.
  - intros q Hq. rewrite taken_insert, flag_unset by done. unfold same_flag.
    assert (p mod 64 mod 32 = p mod 32) as ->.
    { change 64 with (32 * 2). rewrite Z.rem_mul_r by lia. by rewrite Z.mul_comm, Z.mod_add, Z.mod_mod by lia. }
    destruct (Z.eqb_spec (p / 64) (q / 64)) as [E|E]; cbn [andb negb]; [|by rewrite andb_true_r].
    unfold taken. by rewrite <- E, Hl.
Qed.

Lemma map_testbit_spec p : in_map p →
  ∃ b, map_testbit bm p = Done b ∧ (b =? 0) = negb (taken bm p).
Proof using Hbm.
  intros Hp. destruct (word_at p Hp) as (w & Hr & Hl & Hw & Eq & Er & Hb). unfold map_testbit.
  rewrite Hr. cbn [outcome_bind]. rewrite Er, bit_mask_64. eexists. split; [done|].
  unfold taken. rewrite Hl. unfold flag. rewrite negb_involutive.
  assert (H64 : is_u64 (Z.land w (bit_mask p))) by (by apply land_u64).
  unfold is_u64, s64 in *. set (x := Z.land w (bit_mask p)) in *.
  destruct (Z.eqb_spec x 0) as [->|Hx]; [done|]. apply Z.eqb_neq. intros E.
  pose proof (Z.div_mod (x + 2 ^ 63) (2 ^ 64)). lia.
Qed.
End helpers.

Lemma taken_same bm p q : 0 ≤ p → 0 ≤ q → same_flag p q = true → taken bm p = taken bm q.
Proof.
  intros Hp Hq [E1 E2]%andb_true_iff. apply Z.eqb_eq in E1, E2. unfold taken. rewrite E1.
  destruct (bm !! _); [|done]. by rewrite <- (flag_mod32 _ p), E2, flag_mod32.
Qed.

Lemma same_flag_refl p : same_flag p p = true.
Proof. unfold same_flag. by rewrite !Z.eqb_refl. Qed.

(** The positions that stand for their flag: the lower half of each word. *)
Definition low (p : Z) : bool := p mod 64 <? 32.

Lemma low_same p q : low p = true → low q = true → same_flag p q = (p =? q).
Proof.
  unfold low, same_flag. intros Hp%Z.ltb_lt Hq%Z.ltb_lt.
  pose proof (Z.div_mod p 64). pose proof (Z.div_mod q 64). pose proof (Z.mod_pos_bound p 64).
  pose proof (Z.mod_pos_bound q 64).
  assert (Hm : ∀ x, x mod 64 < 32 → x mod 32 = x mod 64).
  { intros x Hx. rewrite (Z.div_mod x 64) at 1 by lia. replace (64 * (x / 64)) with (2 * (x / 64) * 32) by lia.
    rewrite Z.add_comm, Z.mod_add by lia. apply Z.mod_small. pose proof (Z.mod_pos_bound x 64). lia. }
  rewrite !Hm by done. destruct (Z.eqb_spec (p / 64) (q / 64)), (Z.eqb_spec (p mod 64) (q mod 64)), (Z.eqb_spec p q);
    try done; subst; lia.
Qed.

Lemma low_split p : 0 ≤ p → low p = true → p = 64 * (p / 64) + p mod 64 ∧ 0 ≤ p / 64 ∧ 0 ≤ p mod 64 < 32.
Proof.
  unfold low. intros Hp Hl%Z.ltb_lt. pose proof (Z.mod_pos_bound p 64). pose proof (Z.div_mod p 64).
  pose proof (Z.div_pos p 64). lia.
Qed.


Lemma low_join i j : 0 ≤ j < 32 → low (64 * i + j) = true ∧ (64 * i + j) / 64 = i.
Proof.
  intros Hj. unfold low. rewrite Z.mul_comm, Z.add_comm, Z.mod_add, Z.div_add by lia.
  rewrite Z.mod_small, Z.div_small by lia. split; [apply Z.ltb_lt; lia|lia].
Qed.


Lemma flag_any w : (∀ j, 0 ≤ j < 32 → flag w j = true) → ∀ j, flag w j = true.
Proof. intros H j. rewrite <- flag_mod32. apply H. by apply Z.mod_pos_bound. Qed.
