(* ===== verification/X86Phys.v ===== *)
(** * Physical memory on x86-64 (vm/x86_64/mm_phys.c)

    The page frame allocator: a bitmap of 64-bit words with a count of the
    blocks in use, filled from the memory map of the boot loader.  The interrupt
    state is saved and restored around each operation and left out. *)

From S2P Require Import Prelude Libc PhysMem X86Bits.

(** ** Permanent allocation with 64-bit addresses (kernel/stalloc.c) *)
Definition word_align64 (a : Z) : Z :=
  if negb (Z.land a 3 =? 0) then Z.land (u64 (a + 4)) 0xfffffffc else a.

Definition stalloc_init64 (kernel_end : Z) : stalloc_t := Stalloc (word_align64 kernel_end) 0.

Definition stalloc_disable64 (kernel_end : Z) (st : stalloc_t) : stalloc_t :=
  Stalloc 0xffffffff (u64 (free_area_start st - kernel_end)).

Definition stalloc64 (bytes : Z) (st : stalloc_t) : outcome (Z * stalloc_t) :=
  if free_area_start st =? 0xffffffff then Panic "Attempting to use stalloc after vm init"
  else if free_area_start st =? 0 then Panic "Attempting to use stalloc before initialization"
  else if bytes <? 0 then Panic "Attempting to stalloc negative amount of bytes"
  else
    let res := free_area_start st in
    Done (res, Stalloc (word_align64 (u64 (free_area_start st + bytes))) (stalloced_total st)).

(** ** State *)
Definition PMM_BLOCK_SIZE : Z := 4096.
Definition PMM_BLOCKS_PER_BYTE : Z := 8.
Definition MEMTYPE_FREE : Z := 1.

Record pmm := Pmm {
  mem_bitmap : list Z;
  bitmap_size : Z;
  memory_size : Z;
  total_blocks : Z;
  used_blocks : Z;
  highest_page : Z;
  physmem_lock : bool
}.

Definition set_bitmap (bm : list Z) (pm : pmm) : pmm :=
  let 'Pmm _ b c d e f g := pm in Pmm bm b c d e f g.
Definition set_used_blocks (n : Z) (pm : pmm) : pmm :=
  let 'Pmm a b c d _ f g := pm in Pmm a b c d n f g.
Definition set_highest (n : Z) (pm : pmm) : pmm :=
  let 'Pmm a b c d e _ g := pm in Pmm a b c d e n g.
Definition set_physmem_lock (l : bool) (pm : pmm) : pmm :=
  let 'Pmm a b c d e f _ := pm in Pmm a b c d e f l.

Definition memmap_setbit (bit : Z) (pm : pmm) : outcome pmm :=
  let* bm := map_setbit (mem_bitmap pm) bit in Done (set_bitmap bm pm).
Definition memmap_unsetbit (bit : Z) (pm : pmm) : outcome pmm :=
  let* bm := map_unsetbit (mem_bitmap pm) bit in Done (set_bitmap bm pm).
Definition memmap_testbit (bit : Z) (pm : pmm) : outcome Z := map_testbit (mem_bitmap pm) bit.

Definition acquire (pm : pmm) : outcome pmm :=
  if physmem_lock pm then Blocked else Done (set_physmem_lock true pm).
Definition release (pm : pmm) : pmm := set_physmem_lock false pm.

(** ** Searching *)
Definition physmem_getframe (pm : pmm) : outcome Z :=
  let* r := for_loop 0 (total_blocks pm) (λ i _,
    let* w := aread (mem_bitmap pm) i in
    if negb (w =? 0xFFFFFFFFFFFFFFFF) then
      for_loop 0 64 (λ j _,
        if Z.land w (bit_mask j) =? 0 then Done (inr (s64 (u64 (i * 8 * 8 + j)))) else Done (inl ())) ()
    else Done (inl ())) () in
  Done (match r with inl _ => -1 | inr frame => frame end).

(** The innermost loop of [physmem_getframes]: are the [count] frames from
    [starting_bit] on free?  The counter is left as soon as it reaches
    [count]. *)
Definition frames_free (starting_bit count : Z) (pm : pmm) : outcome (Z + Z) :=
  for_loop 0 (u64 count) (λ k free,
    let* b := memmap_testbit (s64 (starting_bit + k)) pm in
    let free := if b =? 0 then free + 1 else free in
    if free =? count then Done (inr starting_bit) else Done (inl free)) 0.

Definition physmem_getframes (count : Z) (pm : pmm) : outcome Z :=
  if count =? 0 then Done (-1)
  else if count =? 1 then physmem_getframe pm
  else
  let* r := for_loop 0 (total_blocks pm) (λ i _,
    let* w := aread (mem_bitmap pm) i in
    if negb (w =? 0xFFFFFFFFFFFFFFFF) then
      for_loop 0 64 (λ j _,
        if Z.land w (bit_mask j) =? 0 then
          let* r := frames_free (s64 (i * 64) + j) count pm in
          Done (match r with inl _ => inl () | inr b => inr b end)
        else Done (inl ())) ()
    else Done (inl ())) () in
  Done (match r with inl _ => -1 | inr frame => frame end).

(** ** Allocating and freeing *)
Definition physmem_allocblock64 (pm : pmm) : outcome (Z * pmm) :=
  let* pm := acquire pm in
  if total_blocks pm <=? used_blocks pm then Panic "Physical Manager >> OUT OF MEMORY"
  else
  let* frame := physmem_getframe pm in
  if frame =? -1 then Panic "Physical Manager >> OUT OF MEMORY"
  else
  let* pm := memmap_setbit frame pm in
  let pm := release pm in
  Done (u64 (frame * PMM_BLOCK_SIZE), set_used_blocks (u64 (used_blocks pm + 1)) pm).

Definition physmem_freeblock64 (addr : Z) (pm : pmm) : outcome pmm :=
  let frame := s64 (addr / PMM_BLOCK_SIZE) in
  let* pm := acquire pm in
  let* pm := memmap_unsetbit frame pm in
  let pm := release pm in
  Done (set_used_blocks (u64 (used_blocks pm - 1)) pm).

Definition physmem_allocblocks (count : Z) (pm : pmm) : outcome (Z * pmm) :=
  let* pm := acquire pm in
  if total_blocks pm <=? used_blocks pm then Panic "Physical Manager >> OUT OF MEMORY"
  else
  let* frame := physmem_getframes count pm in
  if frame =? -1 then Panic "Physical Manager >> OUT OF MEMORY"
  else
  let* pm := for_each 0 count (λ i pm, memmap_setbit (s64 (u64 (frame + i))) pm) pm in
  let pm := release pm in
  Done (u64 (frame * PMM_BLOCK_SIZE), set_used_blocks (u64 (used_blocks pm + count)) pm).

Definition physmem_freeblocks (addr size : Z) (pm : pmm) : outcome pmm :=
  let frame := s64 (addr / PMM_BLOCK_SIZE) in
  let* pm := acquire pm in
  let* pm := for_each 0 size (λ i pm, memmap_unsetbit (s64 (u64 (frame + i))) pm) pm in
  let pm := release pm in
  Done (set_used_blocks (u64 (used_blocks pm - size)) pm).

(** ** Start-up *)
Definition physmem_freeregion (start_address length : Z) (pm : pmm) : outcome pmm :=
  let* pm := for_each 0 (s64 (length / PMM_BLOCK_SIZE)) (λ k pm,
    let* pm := memmap_unsetbit (s64 (start_address / PMM_BLOCK_SIZE + k)) pm in
    let pm := set_used_blocks (u64 (used_blocks pm - 1)) pm in
    let i := u64 (start_address + k * PMM_BLOCK_SIZE) in
    Done (if highest_page pm <? i then set_highest i pm else pm)) pm in
  memmap_setbit 0 pm.

(** A region of the boot loader's memory map, and what the allocator reads of
    the boot information: the memory map is the list of its regions. *)
Record mem_region_t := MemRegion { base_address : Z; region_length : Z; region_type : Z }.
Record multiboot_info_t := Multiboot { memory_low : Z; memory_high : Z; memory_map : list mem_region_t }.

(** The words in a block of bytes, least significant byte first; bytes that do
    not fill a word are not one. *)
Fixpoint le_words (bytes : list Z) : list Z :=
  match bytes with
  | b0 :: b1 :: b2 :: b3 :: b4 :: b5 :: b6 :: b7 :: r =>
      (b0 + 2 ^ 8 * (b1 + 2 ^ 8 * (b2 + 2 ^ 8 * (b3 + 2 ^ 8 * (b4 + 2 ^ 8 * (b5 + 2 ^ 8 *
        (b6 + 2 ^ 8 * b7))))))) :: le_words r
  | _ => []
  end.

Fixpoint free_regions (l : list mem_region_t) (pm : pmm) : outcome pmm :=
  match l with
  | [] => Done pm
  | r :: l =>
      let* pm := if region_type r =? MEMTYPE_FREE
                 then physmem_freeregion (base_address r) (region_length r) pm else Done pm in
      free_regions l pm
  end.

(** The state before the memory map is read.  [memory] are the bytes that
    [stalloc] hands out for the bitmap. *)
Definition physmem_setup (mb_info : multiboot_info_t) (memory : list Z) (st : stalloc_t)
    : outcome (pmm * stalloc_t) :=
  let memory_size := u64 (memory_high mb_info + memory_low mb_info) in
  let total := u64 (memory_size * 1024) / PAGE_SIZE in
  let size := total / PMM_BLOCKS_PER_BYTE in
  let* '(_, st) := stalloc64 (s32 size) st in
  let* '(_, st) := stalloc64 4 st in
  let* bytes := memoryset memory 0xF size in
  Done (Pmm (le_words bytes) size memory_size total total 0 false, st).

(** Take frames until one lies above the memory allocated statically. *)
Definition skip_static (fuel : nat) (last_address : Z) (pm : pmm) : outcome (Z * pmm) :=
  let* '(a, pm) := physmem_allocblock64 pm in
  while_loop fuel (λ '(a, pm),
    if a <? last_address then let* r := physmem_allocblock64 pm in Done (inl r)
    else Done (inr (a, pm))) (a, pm).

Definition physmem_init64 (fuel : nat) (kernel_end : Z) (mb_info : multiboot_info_t)
    (memory : list Z) (st : stalloc_t) : outcome (pmm * stalloc_t) :=
  let* '(pm, st) := physmem_setup mb_info memory st in
  let* pm := free_regions (memory_map mb_info) pm in
  let* '(last_address, st) := stalloc64 1 st in
  let st := stalloc_disable64 kernel_end st in
  let* '(_, pm) := skip_static fuel last_address pm in
  Done (pm, st).

(** ** The page frame allocator of x86-64 keeps a pool of frames

    What the searches of mm_phys.c find, the invariant [frames] of the
    allocator, the histories of its clients, and the state that start-up leaves. *)

(** ** Loops *)
Lemma for_from_skip {S R} (body : Z → S → outcome (S + R)) m n i s :
  (∀ j, i ≤ j < i + Z.of_nat m → body j s = Done (inl s)) →
  for_from (m + n) i body s = for_from n (i + Z.of_nat m) body s.
Proof.
  revert i. induction m as [|m IH]; intros i Hb; [by rewrite Z.add_0_r|].
  cbn [Nat.add for_from]. rewrite Hb by lia. rewrite IH by (intros; apply Hb; lia). f_equal. lia.
Qed.

Lemma for_loop_skip {S R} (body : Z → S → outcome (S + R)) m n s :
  0 ≤ m ≤ n → (∀ j, 0 ≤ j < m → body j s = Done (inl s)) →
  for_loop 0 n body s = for_from (Z.to_nat (n - m)) m body s.
Proof.
  intros Hm Hb. unfold for_loop. replace (Z.to_nat (n - 0)) with (Z.to_nat m + Z.to_nat (n - m))%nat by lia.
  rewrite for_from_skip by (intros; apply Hb; lia). f_equal. lia.
Qed.

(** ** The search for a frame *)
Section search.
Context (pm : pmm) (Hu : Forall is_u64 (mem_bitmap pm)).
Context (Hsize : 64 * Z.of_nat (length (mem_bitmap pm)) < 2 ^ 40).
Notation bm := (mem_bitmap pm).

(** The body of the inner loop, and of the outer one. *)
Definition frame_bit (i w j : Z) : outcome (unit + Z) :=
  if Z.land w (bit_mask j) =? 0 then Done (inr (s64 (u64 (i * 8 * 8 + j)))) else Done (inl ()).

Definition frame_word (i : Z) : outcome (unit + Z) :=
  let* w := aread bm i in
  if negb (w =? 0xFFFFFFFFFFFFFFFF) then for_loop 0 64 (λ j _, frame_bit i w j) () else Done (inl ()).

Lemma frame_word_full i w :
  bm !! Z.to_nat i = Some w → 0 ≤ i → (∀ j, flag w j = true) → frame_word i = Done (inl ()).
Proof using.
  intros Hw Hi Hf. unfold frame_word. rewrite (aread_Some _ _ w) by done. cbn [outcome_bind].
  destruct (negb _); [|done].
  rewrite (for_loop_skip _ 64) by (lia || (intros j Hj; unfold frame_bit; specialize (Hf j);
    unfold flag in Hf; by destruct (Z.land w (bit_mask j) =? 0))). done.
Qed.

(** The first clear flag. *)
Lemma frame_word_free i w j :
  bm !! Z.to_nat i = Some w → 0 ≤ i → 0 ≤ j < 32 → flag w j = false →
  (∀ j', 0 ≤ j' < j → flag w j' = true) → frame_word i = Done (inr (64 * i + j)).
Proof using Hsize.
  intros Hw Hi Hj Hf Hbefore. pose proof (lookup_lt_Some _ _ _ Hw). unfold frame_word.
  rewrite (aread_Some _ _ w) by done. cbn [outcome_bind].
  destruct (Z.eqb_spec w 0xFFFFFFFFFFFFFFFF) as [->|_].
  { change 0xFFFFFFFFFFFFFFFF with (2 ^ 64 - 1) in Hf. by rewrite flag_ones in Hf. }
  cbn [negb]. rewrite (for_loop_skip _ j) by (lia || (intros j' Hj'; unfold frame_bit;
    specialize (Hbefore j' Hj'); unfold flag in Hbefore; by destruct (Z.land w (bit_mask j') =? 0))).
  replace (Z.to_nat (64 - j)) with (S (Z.to_nat (63 - j))) by lia. cbn [for_from].
  unfold frame_bit at 1. unfold flag in Hf. apply negb_false_iff in Hf. rewrite Hf.
  do 2 f_equal. unfold s64, u64. rewrite (Z.mod_small (i * 8 * 8 + j)) by lia.
  rewrite Z.mod_small by lia. lia.
Qed.

(** Every flag of every word is set. *)
Definition all_taken : Prop := ∀ i w j, bm !! i = Some w → flag w j = true.

(** [p] is the least free frame. *)
Definition first_free (p : Z) : Prop :=
  in_map bm p ∧ low p = true ∧ taken bm p = false ∧
  ∀ q, 0 ≤ q < p → low q = true → taken bm q = true.

Lemma word_before p i w :
  first_free p → bm !! i = Some w → Z.of_nat i < p / 64 → ∀ j, flag w j = true.
Proof using.
  intros (Hp & Hl & _ & Hb) Hw Hi. unfold in_map in Hp. apply flag_any. intros j Hj.
  destruct (low_join (Z.of_nat i) j Hj) as [Hlow Hdiv].
  destruct (low_split p) as (Hps & ? & ?); [lia|done|].
  specialize (Hb (64 * Z.of_nat i + j) ltac:(lia) Hlow). unfold taken in Hb.
  rewrite Hdiv, Nat2Z.id, Hw in Hb. rewrite <- flag_mod in Hb.
  rewrite Z.mul_comm, Z.add_comm, Z.mod_add, Z.mod_small in Hb by lia. done.
Qed.

Lemma getframe_first p :
  first_free p → Z.of_nat (length bm) ≤ total_blocks pm → physmem_getframe pm = Done p.
Proof using Hsize.
  intros Hff Ht. pose proof Hff as (Hp & Hl & Hf & Hb). unfold in_map in Hp.
  destruct (low_split p) as (Hps & Hi & Hj); [lia|done|].
  assert (Hr : p / 64 < Z.of_nat (length bm)) by (apply Z.div_lt_upper_bound; lia).
  destruct (lookup_lt_is_Some_2 bm (Z.to_nat (p / 64))) as [w Hw]; [lia|].
  unfold physmem_getframe. change (λ (i : Z) (_ : unit), _) with (λ (i : Z) (_ : unit), frame_word i).
  rewrite (for_loop_skip _ (p / 64)); [|lia|].
  2: { intros i Hi'. destruct (lookup_lt_is_Some_2 bm (Z.to_nat i)) as [w' Hw']; [lia|].
       apply (frame_word_full i w' Hw'); [lia|]. apply (word_before p _ _ Hff Hw'). lia. }
  replace (Z.to_nat (total_blocks pm - p / 64)) with (S (Z.to_nat (total_blocks pm - p / 64 - 1))) by lia.
  cbn [for_from]. rewrite (frame_word_free (p / 64) w (p mod 64)); try done.
  - cbn [outcome_bind]. f_equal. lia.
  - unfold taken in Hf. rewrite Hw in Hf. by rewrite flag_mod.
  - intros j' Hj'. destruct (low_join (p / 64) j') as [Hlow Hdiv]; [lia|].
    specialize (Hb (64 * (p / 64) + j') ltac:(lia) Hlow). unfold taken in Hb. rewrite Hdiv, Hw in Hb.
    rewrite <- flag_mod in Hb. rewrite Z.mul_comm, Z.add_comm, Z.mod_add, Z.mod_small in Hb by lia. done.
Qed.

(** With every flag set, the search leaves the bitmap. *)
Lemma getframe_overrun :
  all_taken → Z.of_nat (length bm) < total_blocks pm → physmem_getframe pm = Fault.
Proof using.
  intros Hall Ht. unfold physmem_getframe.
  change (λ (i : Z) (_ : unit), _) with (λ (i : Z) (_ : unit), frame_word i).
  rewrite (for_loop_skip _ (Z.of_nat (length bm))); [|lia|].
  2: { intros i Hi. destruct (lookup_lt_is_Some_2 bm (Z.to_nat i)) as [w Hw]; [lia|].
       apply (frame_word_full i w Hw); [lia|]. intros j. by eapply Hall. }
  replace (Z.to_nat (total_blocks pm - Z.of_nat (length bm))) with
    (S (Z.to_nat (total_blocks pm - Z.of_nat (length bm) - 1))) by lia.
  cbn [for_from]. unfold frame_word at 1, aread. destruct (Z.ltb_spec (Z.of_nat (length bm)) 0); [lia|].
  by rewrite Nat2Z.id, lookup_ge_None_2.
Qed.

(** Either the least free frame exists or every flag is set. *)
Lemma search_cases : (∃ p, first_free p) ∨ all_taken.
Proof using.
  set (P := λ k, low (Z.of_nat k) = true ∧ taken bm (Z.of_nat k) = false).
  destruct (list_find P (seq 0 (64 * length bm))) as [[k x]|] eqn:E.
  - left. apply list_find_Some in E as (Hk & [Hlow Hfree] & Hbefore).
    apply lookup_seq in Hk as [-> Hk]. rewrite Nat.add_0_l in *. exists (Z.of_nat k).
    split_and!; [unfold in_map; lia|done|done|]. intros q Hq Hl.
    destruct (taken bm q) eqn:Et; [done|].
    destruct (Hbefore (Z.to_nat q) (Z.to_nat q)); [apply lookup_seq; lia|lia|].
    unfold P. by rewrite Z2Nat.id by lia.
  - right. apply list_find_None in E. rewrite Forall_forall in E.
    intros i w j Hw. rewrite <- flag_mod32. pose proof (Z.mod_pos_bound j 32 ltac:(lia)) as Hj.
    set (j' := j mod 32) in *. destruct (low_join (Z.of_nat i) j' Hj) as [Hlow Hdiv].
    pose proof (lookup_lt_Some _ _ _ Hw). destruct (flag w j') eqn:Ef; [done|]. exfalso.
    apply (E (Z.to_nat (64 * Z.of_nat i + j'))); [apply elem_of_seq; lia|].
    unfold P. rewrite Z2Nat.id by lia. split; [done|]. unfold taken. rewrite Hdiv, Nat2Z.id, Hw.
    rewrite <- flag_mod, Z.mul_comm, Z.add_comm, Z.mod_add, Z.mod_small by lia. done.
Qed.
End search.

(** ** The invariant

    [held] are the frames handed out and not freed yet, [s] bounds the frames
    that are never handed out. *)
Record frames (pm : pmm) (s : Z) (held : list Z) : Prop := {
  fr_words : Forall is_u64 (mem_bitmap pm);
  fr_size : 64 * Z.of_nat (length (mem_bitmap pm)) < 2 ^ 40;
  fr_total : Z.of_nat (length (mem_bitmap pm)) ≤ total_blocks pm < 2 ^ 40;
  fr_used : Z.of_nat (length held) ≤ used_blocks pm ≤ total_blocks pm;
  fr_lock : physmem_lock pm = false;
  fr_static : ∀ q, 0 ≤ q < s → low q = true → taken (mem_bitmap pm) q = true;
  fr_held : ∀ p, p ∈ held → s ≤ p ∧ in_map (mem_bitmap pm) p ∧ low p = true ∧
    taken (mem_bitmap pm) p = true;
  fr_nodup : NoDup held
}.

(** What an operation leaves of the allocator's other state. *)
Definition same_pool (pm pm' : pmm) : Prop :=
  length (mem_bitmap pm') = length (mem_bitmap pm) ∧ total_blocks pm' = total_blocks pm.

Section operations.
Context (pm : pmm) (s : Z) (held : list Z) (H : frames pm s held).

Lemma alloc_free p :
  first_free pm p → used_blocks pm < total_blocks pm →
  returns (physmem_allocblock64 pm) (λ '(a, pm'), a = p * PMM_BLOCK_SIZE ∧
    frames pm' s (p :: held) ∧ same_pool pm pm' ∧ used_blocks pm' = used_blocks pm + 1 ∧
    ∀ q, 0 ≤ q → taken (mem_bitmap pm') q = taken (mem_bitmap pm) q || same_flag p q).
Proof using H.
  intros Hff Hlt. pose proof H as [Hu Hsz Ht Hus Hlk Hst Hh Hnd]. pose proof Hff as (Hp & Hl & Hf & Hb).
  assert (Hps : s ≤ p).
  { destruct (decide (p < s)) as [Hps|]; [|lia]. unfold in_map in Hp. rewrite (Hst p) in Hf by (done || lia). done. }
  pose proof (getframe_first pm Hsz p Hff ltac:(lia)) as Hg.
  destruct pm as [bm bs ms tb ub hp lk]. simpl in *. subst lk.
  unfold physmem_allocblock64, acquire. cbn [physmem_lock outcome_bind set_physmem_lock total_blocks used_blocks].
  destruct (Z.leb_spec tb ub); [lia|].
  change (physmem_getframe (Pmm bm bs ms tb ub hp true)) with (physmem_getframe (Pmm bm bs ms tb ub hp false)).
  rewrite Hg. cbn [outcome_bind]. unfold in_map in Hp. destruct (Z.eqb_spec p (-1)); [lia|].
  unfold memmap_setbit. cbn [mem_bitmap]. apply returns_bind, returns_bind.
  eapply returns_mono; [by apply (map_setbit_spec bm Hu p)|]. intros bm' (Hlen & Hu' & Htk).
  cbn [returns]. unfold release, PMM_BLOCK_SIZE. simpl.
  split_and!.
  - unfold u64. apply Z.mod_small. lia.
  - split; simpl; rewrite ?Hlen; try done.
    + unfold u64. rewrite Z.mod_small by lia. lia.
    + intros q Hq Hlq. rewrite Htk, Hst by (done || lia). done.
    + intros q [->|Hq]%elem_of_cons.
      { split_and!; [done|unfold in_map; by rewrite Hlen|done|]. rewrite Htk, same_flag_refl by lia. apply orb_true_r. }
      destruct (Hh q Hq) as (H1 & H2 & H3 & H4). unfold in_map in *. split_and!; rewrite ?Hlen; try done; try lia.
      rewrite Htk, H4 by lia. done.
    + constructor; [|done]. intros Hin. destruct (Hh p Hin) as (_ & _ & _ & E). by rewrite E in Hf.
  - by split.
  - unfold u64. apply Z.mod_small. lia.
  - done.
Qed.

Lemma free_held p a :
  p ∈ held → a / PMM_BLOCK_SIZE = p →
  returns (physmem_freeblock64 a pm) (λ pm', ∃ held', held ≡ₚ p :: held' ∧ frames pm' s held' ∧
    same_pool pm pm' ∧ taken (mem_bitmap pm') p = false).
Proof using H.
  intros Hin Ha. pose proof H as [Hu Hsz Ht Hus Hlk Hst Hh Hnd].
  destruct (Hh p Hin) as (Hps & Hp & Hl & Htp). apply elem_of_Permutation in Hin as [held' Hperm].
  destruct pm as [bm bs ms tb ub hp lk]. simpl in *. subst lk.
  unfold physmem_freeblock64, acquire. rewrite Ha. cbn [physmem_lock outcome_bind set_physmem_lock].
  pose proof Hp as Hp'. unfold in_map in Hp'.
  replace (s64 p) with p by (unfold s64; rewrite Z.mod_small by lia; lia).
  unfold memmap_unsetbit. cbn [mem_bitmap]. apply returns_bind, returns_bind.
  eapply returns_mono; [by apply (map_unsetbit_spec bm Hu p)|]. intros bm' (Hlen & Hu' & Htk).
  cbn [returns]. unfold release. simpl. exists held'. pose proof (Permutation_length Hperm) as Hlp. simpl in Hlp.
  assert (Hnp : ∀ q, low q = true → q ≠ p → same_flag p q = false).
  { intros q Hq Hne. rewrite low_same by done. by apply Z.eqb_neq. }
  split_and!; [done| |by split|].
  - split; simpl; rewrite ?Hlen; try done.
    + unfold u64. rewrite Z.mod_small by lia. lia.
    + intros q Hq Hlq. rewrite Htk, Hst, Hnp by (done || lia). done.
    + intros q Hq. rewrite Hperm in Hnd. apply NoDup_cons in Hnd as [Hnot _].
      destruct (Hh q) as (H1 & H2 & H3 & H4); [rewrite Hperm; by right|].
      unfold in_map in *. split_and!; rewrite ?Hlen; try done; try lia.
      rewrite Htk, H4, Hnp; try done; [by intros ->|lia].
    + rewrite Hperm in Hnd. by apply NoDup_cons in Hnd as [_ ?].
  - rewrite Htk, same_flag_refl by lia. apply andb_false_r.
Qed.
End operations.

(** ** Histories of allocations and frees *)
Inductive frame_step : pmm * list Z → pmm * list Z → Prop :=
| frame_alloc pm held a pm' :
    physmem_allocblock64 pm = Done (a, pm') →
    frame_step (pm, held) (pm', a / PMM_BLOCK_SIZE :: held)
| frame_free pm held p held' pm' :
    held ≡ₚ p :: held' → physmem_freeblock64 (p * PMM_BLOCK_SIZE) pm = Done pm' →
    frame_step (pm, held) (pm', held').

Lemma alloc_result pm s held a pm' :
  frames pm s held → physmem_allocblock64 pm = Done (a, pm') →
  ∃ p, first_free pm p ∧ used_blocks pm < total_blocks pm ∧ a = p * PMM_BLOCK_SIZE.
Proof.
  intros H Ha. pose proof H as [Hu Hsz Ht Hus Hlk Hst Hh Hnd].
  assert (Hlt : used_blocks pm < total_blocks pm ∧ physmem_getframe pm ≠ Fault ∧ physmem_getframe pm ≠ Done (-1)).
  { unfold physmem_allocblock64, acquire in Ha. rewrite Hlk in Ha. destruct pm as [bm bs ms tb ub hp lk]. simpl in *.
    subst lk. destruct (Z.leb_spec tb ub); [done|].
    change (physmem_getframe (Pmm bm bs ms tb ub hp true)) with (physmem_getframe (Pmm bm bs ms tb ub hp false)) in Ha.
    split_and!; [done|by intros E; rewrite E in Ha..]. }
  destruct Hlt as (Hlt & Hnf & Hnd1). destruct (search_cases pm) as [[p Hp]|Hall].
  - exists p. split_and!; [done|done|]. pose proof (alloc_free pm s held H p Hp Hlt) as Hr.
    rewrite Ha in Hr. by destruct Hr.
  - exfalso. destruct (decide (Z.of_nat (length (mem_bitmap pm)) < total_blocks pm)) as [Hl|Hl].
    + by rewrite (getframe_overrun pm Hall Hl) in Hnf.
    + apply Hnd1. unfold physmem_getframe.
      change (λ (i : Z) (_ : unit), _) with (λ (i : Z) (_ : unit), frame_word pm i).
      rewrite (for_loop_skip _ (total_blocks pm)); [by rewrite Z.sub_diag|lia|].
      intros i Hi. destruct (lookup_lt_is_Some_2 (mem_bitmap pm) (Z.to_nat i)) as [w Hw]; [lia|].
      apply (frame_word_full pm i w Hw); [lia|]. intros j. by eapply Hall.
Qed.

Lemma frames_reachable st st' s :
  rtc frame_step st st' → frames (fst st) s (snd st) →
  frames (fst st') s (snd st') ∧ same_pool (fst st) (fst st').
Proof.
  intros Hrtc. induction Hrtc as [st|st1 st2 st3 Hstep _ IH]; intros Hf; [split; [done|by split]|].
  assert (Hf2 : frames (fst st2) s (snd st2) ∧ same_pool (fst st1) (fst st2)).
  { destruct Hstep as [pm held a pm' Ha|pm held p held' pm' Hperm Hfree]; simpl in *.
    - destruct (alloc_result _ _ _ _ _ Hf Ha) as (p & Hp & Hlt & ->).
      pose proof (alloc_free pm s held Hf p Hp Hlt) as Hr. rewrite Ha in Hr. destruct Hr as (_ & Hf' & Hs & _).
      rewrite Z.div_mul by done. by split.
    - pose proof (free_held pm s held Hf p (p * PMM_BLOCK_SIZE)) as Hr. rewrite Hfree in Hr.
      destruct Hr as (held2 & Hperm2 & Hf' & Hs & _); [rewrite Hperm; left|by apply Z.div_mul|].
      split; [|done]. assert (Hpp : held2 ≡ₚ held').
      { apply (Permutation_cons_inv (a := p)). by rewrite <- Hperm2. }
      destruct Hf' as [H1 H2 H3 H4 H5 H6 H7 H8]. split; try done.
      + by rewrite <- Hpp.
      + intros q Hq. apply H7. by rewrite Hpp.
      + by rewrite <- Hpp. }
  destruct Hf2 as [Hf2 [Hl1 Ht1]]. destruct (IH Hf2) as [Hf3 [Hl2 Ht2]]. split; [done|].
  split; etrans; eauto.
Qed.
