(* ===== verification/X86Boot.v ===== *)
(** * Start-up of the x86-64 page frame allocator

    What [physmem_init] makes of the boot loader's memory map. *)

From S2P Require Import Prelude Libc LibProps PhysMem X86Bits X86Phys.

(** ** The bitmap before the memory map is read *)
Definition initial_word : Z := 0x0F0F0F0F0F0F0F0F.

Lemma le_words_initial n : le_words (replicate (8 * n) 15) = replicate n initial_word.
Proof.
  induction n as [|n IH]; [done|]. replace (8 * S n)%nat with (8 + 8 * n)%nat by lia.
  rewrite replicate_add. cbn [replicate app le_words Nat.add]. by rewrite IH.
Qed.

Lemma initial_flags :
  forallb (λ j, Bool.eqb (flag initial_word j) ((j mod 8 <? 4) || (j =? 31))) flags32 = true.
Proof. by vm_compute. Qed.

Lemma mod_8_32 p : (p mod 32) mod 8 = p mod 8.
Proof. change 32 with (8 * 4). rewrite Z.rem_mul_r by lia. by rewrite Z.mul_comm, Z.mod_add, Z.mod_mod by lia. Qed.

Lemma initial_flag p : flag initial_word p = (p mod 8 <? 4) || (p mod 32 =? 31).
Proof.
  rewrite <- flag_mod32, <- mod_8_32. pose proof initial_flags as H. rewrite forallb_forall in H.
  apply Bool.eqb_prop, H. apply list_elem_of_In, flags32_complete.
Qed.

Lemma taken_initial n p :
  0 ≤ p < 64 * Z.of_nat n →
  taken (replicate n initial_word) p = (p mod 8 <? 4) || (p mod 32 =? 31).
Proof.
  intros Hp. unfold taken. rewrite lookup_replicate_2; [apply initial_flag|].
  assert (p / 64 < Z.of_nat n) by (apply Z.div_lt_upper_bound; lia). pose proof (Z.div_pos p 64). lia.
Qed.

(** ** Permanent allocation *)
Lemma word_align64_spec a :
  0 ≤ a < 2 ^ 32 - 4 → a ≤ word_align64 a < a + 4 ∧ word_align64 a mod 4 = 0.
Proof.
  intros Ha. pose proof (word_align_spec a Ha) as Hw. unfold word_align in Hw. unfold word_align64.
  destruct (negb (Z.land a 3 =? 0)); [|done].
  unfold u64. rewrite Z.mod_small by lia. by rewrite u32_id in Hw by (unfold is_u32; lia).
Qed.

(** The allocator can serve [bytes] more bytes below 4 GB. *)
Definition room64 (st : stalloc_t) (bytes : Z) : Prop :=
  0 < free_area_start st ∧ 0 ≤ bytes ∧ free_area_start st + bytes < 0xffffffff - 4.

Lemma stalloc64_spec st bytes :
  room64 st bytes →
  returns (stalloc64 bytes st) (λ '(res, st'), res = free_area_start st ∧
    res + bytes ≤ free_area_start st' < res + bytes + 4).
Proof.
  intros (H1 & H2 & H3). unfold stalloc64.
  destruct (Z.eqb_spec (free_area_start st) 0xffffffff); [lia|].
  destruct (Z.eqb_spec (free_area_start st) 0); [lia|]. destruct (Z.ltb_spec bytes 0); [lia|].
  cbn [returns free_area_start]. unfold u64. rewrite Z.mod_small by lia.
  destruct (word_align64_spec (free_area_start st + bytes)) as [? _]; [lia|]. done.
Qed.

(** The machine's memory in frames, and its bitmap in bytes. *)
Definition blocks_of (mb : multiboot_info_t) : Z :=
  u64 (u64 (memory_high mb + memory_low mb) * 1024) / PAGE_SIZE.

Definition fresh_pmm (mb : multiboot_info_t) (n : nat) : pmm :=
  Pmm (replicate n initial_word) (8 * Z.of_nat n) (u64 (memory_high mb + memory_low mb))
    (64 * Z.of_nat n) (64 * Z.of_nat n) 0 false.

Lemma setup_spec mb memory st n :
  blocks_of mb = 64 * Z.of_nat n → length memory = (8 * n)%nat → 8 * Z.of_nat n < 2 ^ 31 →
  room64 st (8 * Z.of_nat n + 8) →
  returns (physmem_setup mb memory st) (λ '(pm, st'), pm = fresh_pmm mb n ∧
    free_area_start st + 8 * Z.of_nat n + 4 ≤ free_area_start st' < free_area_start st + 8 * Z.of_nat n + 12).
Proof.
  intros Hb Hm Hn (H1 & H2 & H3). unfold physmem_setup. cbv zeta. fold (blocks_of mb). rewrite Hb.
  unfold PMM_BLOCKS_PER_BYTE. replace (64 * Z.of_nat n / 8) with (8 * Z.of_nat n).
  2: { replace (64 * Z.of_nat n) with (8 * Z.of_nat n * 8) by lia. by rewrite Z.div_mul. }
  rewrite s32_id by (unfold is_s32; lia). apply returns_bind.
  eapply returns_mono; [apply stalloc64_spec; split_and!; lia|]. intros [r1 st1] (-> & Hst1).
  apply returns_bind. eapply returns_mono; [apply stalloc64_spec; split_and!; lia|].
  intros [r2 st2] (-> & Hst2). rewrite memoryset_spec by lia. cbn [outcome_bind returns].
  split; [|lia]. unfold fresh_pmm. f_equal.
  replace (Z.to_nat (8 * Z.of_nat n)) with (8 * n)%nat by lia. rewrite <- Hm, drop_all, Hm, app_nil_r.
  change (u8 15) with 15. apply le_words_initial.
Qed.

(** ** The memory map *)

(** The allocator's words and counts while the map is read. *)
Record loading (pm : pmm) (n : nat) : Prop := {
  ld_words : Forall is_u64 (mem_bitmap pm);
  ld_len : length (mem_bitmap pm) = n;
  ld_total : total_blocks pm = 64 * Z.of_nat n;
  ld_lock : physmem_lock pm = false
}.

(** A frame that no operation of the loading marks as used: any but frame 0
    and the one that shares its flag. *)
Definition loadable (q : Z) : Prop := 0 < q ∧ low q = true.

Definition region_frames (r : mem_region_t) : Z := region_length r / PMM_BLOCK_SIZE.
Definition in_region (r : mem_region_t) (q : Z) : Prop :=
  region_type r = MEMTYPE_FREE ∧
  base_address r / PMM_BLOCK_SIZE ≤ q < base_address r / PMM_BLOCK_SIZE + region_frames r.

(** A free region lies inside the memory that the bitmap describes. *)
Definition region_ok (n : nat) (r : mem_region_t) : Prop :=
  region_type r = MEMTYPE_FREE →
  0 ≤ base_address r ∧ 0 ≤ region_length r ∧
  base_address r / PMM_BLOCK_SIZE + region_frames r ≤ 64 * Z.of_nat n.

Section loading.
Context (n : nat) (Hn : 0 < 64 * Z.of_nat n < 2 ^ 40).

Lemma unset_loading pm p :
  loading pm n → 0 ≤ p < 64 * Z.of_nat n →
  returns (memmap_unsetbit p pm) (λ pm', loading pm' n ∧ used_blocks pm' = used_blocks pm ∧
    ∀ q, 0 ≤ q → taken (mem_bitmap pm') q = taken (mem_bitmap pm) q && negb (same_flag p q)).
Proof using.
  intros [Hw Hl Ht Hk] Hp. unfold memmap_unsetbit. apply returns_bind.
  eapply returns_mono; [apply (map_unsetbit_spec _ Hw p); unfold in_map; lia|].
  intros bm (Hlen & Hu & Htk). destruct pm. simpl in *. split; [|done].
  split; simpl; congruence.
Qed.

Lemma freeregion_spec pm r :
  loading pm n → region_type r = MEMTYPE_FREE → region_ok n r → region_frames r ≤ used_blocks pm < 2 ^ 40 →
  returns (physmem_freeregion (base_address r) (region_length r) pm) (λ pm', loading pm' n ∧
    used_blocks pm' = used_blocks pm - region_frames r ∧
    ∀ q, loadable q → taken (mem_bitmap pm) q = false ∨ in_region r q → taken (mem_bitmap pm') q = false).
Proof using Hn.
  intros Hld Hty Hok Hus. destruct (Hok Hty) as (Hb & Hlen & Hfit). unfold physmem_freeregion, in_region.
  unfold region_frames in *. set (b := base_address r / PMM_BLOCK_SIZE) in *.
  set (m := region_length r / PMM_BLOCK_SIZE) in *.
  assert (Hb0 : 0 ≤ b) by (by apply Z.div_pos). assert (Hm0 : 0 ≤ m) by (by apply Z.div_pos).
  replace (s64 m) with m by (unfold s64; rewrite Z.mod_small by lia; lia).
  apply returns_bind. eapply returns_mono; [apply (for_each_inv (λ k pm', loading pm' n ∧
    used_blocks pm' = used_blocks pm - k ∧
    ∀ q, loadable q → taken (mem_bitmap pm) q = false ∨ b ≤ q < b + k → taken (mem_bitmap pm') q = false))|].
  - done.
  - split_and!; [done|lia|]. intros q _ [?|?]; [done|lia].
  - intros k pm1 Hk (Hld1 & Hus1 & Htk1). replace (s64 (b + k)) with (b + k)
      by (unfold s64; rewrite Z.mod_small by lia; lia).
    apply returns_bind. eapply returns_mono; [apply (unset_loading pm1 (b + k) Hld1); lia|].
    intros pm2 ([Hw Hl Ht Hlk] & Hus2 & Htk2). destruct pm2 as [bm2 ? ? ? ub2 hp2 ?]. simpl in *.
    assert (E : u64 (ub2 - 1) = used_blocks pm - (k + 1)) by (unfold u64; rewrite Z.mod_small by lia; lia).
    destruct (hp2 <? _); cbn [returns]; (split; [by split|]); (split; [exact E|]);
      intros q Hq Hor; simpl; unfold loadable in *; rewrite Htk2 by lia;
      (destruct (decide (q = b + k)) as [->|Hne]; [by rewrite same_flag_refl, andb_false_r|]);
      (rewrite Htk1; [done|done|destruct Hor; [by left|right; lia]]).
  - intros pm1 (Hld1 & Hus1 & Htk1). pose proof Hld1 as [Hw Hl Ht Hlk]. unfold memmap_setbit.
    apply returns_bind. eapply returns_mono; [apply (map_setbit_spec _ Hw 0); unfold in_map; lia|].
    intros bm (Hlen' & Hu & Htk). destruct pm1. simpl in *. split_and!; [split; simpl; congruence|done|].
    intros q [Hq0 Hql] Hor. rewrite Htk, low_same by (done || lia).
    destruct (Z.eqb_spec 0 q); [lia|]. rewrite Htk1; [done|by split|]. destruct Hor as [?|[_ ?]]; [by left|by right].
Qed.

(** Frames freed by the whole map. *)
Fixpoint map_frames (l : list mem_region_t) : Z :=
  match l with
  | [] => 0
  | r :: l => (if region_type r =? MEMTYPE_FREE then region_frames r else 0) + map_frames l
  end.

Lemma map_frames_nonneg l : Forall (region_ok n) l → 0 ≤ map_frames l.
Proof using.
  induction 1 as [|r l Hr _ IH]; simpl; [done|]. destruct (Z.eqb_spec (region_type r) MEMTYPE_FREE) as [E|]; [|lia].
  destruct (Hr E) as (_ & Hl & _). assert (0 ≤ region_frames r) by (by apply Z.div_pos). lia.
Qed.

Lemma free_regions_spec l pm :
  loading pm n → Forall (region_ok n) l → map_frames l ≤ used_blocks pm < 2 ^ 40 →
  returns (free_regions l pm) (λ pm', loading pm' n ∧ used_blocks pm' = used_blocks pm - map_frames l ∧
    ∀ q, loadable q → taken (mem_bitmap pm) q = false ∨ Exists (λ r, in_region r q) l →
      taken (mem_bitmap pm') q = false).
Proof using Hn.
  intros Hld Hall. revert pm Hld. induction Hall as [|r l Hr Hall IH]; intros pm Hld Hus; simpl.
  { split_and!; [done|lia|]. intros q _ [?|E]; [done|]. by apply Exists_nil in E. }
  simpl in Hus. pose proof (map_frames_nonneg l Hall) as Hnn. destruct (Z.eqb_spec (region_type r) MEMTYPE_FREE) as [E|E].
  - assert (Hrn : 0 ≤ region_frames r) by (destruct (Hr E) as (_ & ? & _); by apply Z.div_pos).
    apply returns_bind. eapply returns_mono; [apply (freeregion_spec pm r); try done; lia|].
    intros pm1 (Hld1 & Hus1 & Htk1). eapply returns_mono; [apply (IH pm1 Hld1); lia|].
    intros pm2 (Hld2 & Hus2 & Htk2). split_and!; [done|lia|]. intros q Hq Hor. apply Htk2; [done|].
    rewrite Exists_cons in Hor. destruct Hor as [Hf|[Hin|Hex]]; [left; auto..|by right].
  - cbn [outcome_bind]. eapply returns_mono; [apply (IH pm Hld); lia|]. intros pm2 (Hld2 & Hus2 & Htk2).
    split_and!; [done|lia|]. intros q Hq Hor. apply Htk2; [done|].
    rewrite Exists_cons in Hor. destruct Hor as [Hf|[[? _]|Hex]]; [by left|done|by right].
Qed.
End loading.

(** ** Taking the frames of the kernel *)

(** The allocator after the frame [p] was handed out, with every frame up to [p]
    used: [f] is a frame that is still free, and enough blocks are counted free
    to reach it. *)
Record skipping (pm : pmm) (p f : Z) (held : list Z) : Prop := {
  sk_frames : frames pm 0 held;
  sk_range : 0 ≤ p ≤ f;
  sk_below : ∀ q, 0 ≤ q ≤ p → low q = true → taken (mem_bitmap pm) q = true;
  sk_free : p < f → taken (mem_bitmap pm) f = false ∧ used_blocks pm + (f - p) ≤ total_blocks pm;
  sk_f : low f = true ∧ in_map (mem_bitmap pm) f
}.

Lemma first_free_below pm f :
  in_map (mem_bitmap pm) f → low f = true → taken (mem_bitmap pm) f = false →
  ∃ p, first_free pm p ∧ p ≤ f.
Proof.
  intros Hf Hl Ht. destruct (search_cases pm) as [[p Hp]|Hall].
  - exists p. split; [done|]. destruct Hp as (Hpm & Hpl & Hpt & Hb). destruct (decide (p ≤ f)); [done|].
    unfold in_map in Hf. rewrite (Hb f) in Ht by (done || lia). done.
  - exfalso. unfold taken in Ht. unfold in_map in Hf.
    assert (0 ≤ f / 64 < Z.of_nat (length (mem_bitmap pm))) as Hr
      by (split; [apply Z.div_pos; lia|apply Z.div_lt_upper_bound; lia]).
    destruct (lookup_lt_is_Some_2 (mem_bitmap pm) (Z.to_nat (f / 64))) as [w Hw]; [lia|].
    rewrite Hw, (Hall _ w f Hw) in Ht. done.
Qed.

Lemma skip_alloc pm s held f :
  frames pm 0 held → in_map (mem_bitmap pm) f → low f = true → taken (mem_bitmap pm) f = false →
  (∀ q, 0 ≤ q < s → low q = true → taken (mem_bitmap pm) q = true) → 0 ≤ s ≤ f →
  used_blocks pm + (f - s) < total_blocks pm →
  returns (physmem_allocblock64 pm) (λ '(a, pm'), ∃ p held', a = p * PMM_BLOCK_SIZE ∧ s ≤ p ∧
    skipping pm' p f held' ∧ same_pool pm pm').
Proof.
  intros Hfr Hf Hl Htf Hst Hs Hus. destruct (first_free_below pm f Hf Hl Htf) as (p & Hp & Hpf).
  eapply returns_mono; [apply (alloc_free pm 0 held Hfr p Hp); lia|].
  intros [a pm'] (-> & Hfr' & [El Et] & Eu & Htk). pose proof Hp as (Hpm & Hpl & Hpt & Hb). unfold in_map in *.
  assert (Hsp : s ≤ p) by (destruct (decide (p < s)); [rewrite Hst in Hpt by (done || lia); done|lia]).
  exists p, (p :: held). split_and!; [done|done| |by split]. split; unfold in_map; rewrite ?El; try done; try lia.
  - intros q Hq Hlq. rewrite Htk by lia. destruct (decide (q = p)) as [->|Hne].
    + rewrite same_flag_refl. apply orb_true_r.
    + rewrite Hb by (done || lia). done.
  - intros Hlt. rewrite Htk, Htf, low_same by (done || lia). split; [|lia]. apply Z.eqb_neq. lia.
Qed.

Lemma skip_spec fuel pm f last :
  frames pm 0 [] → in_map (mem_bitmap pm) f → low f = true → taken (mem_bitmap pm) f = false →
  0 < last ≤ f * PMM_BLOCK_SIZE → used_blocks pm + f < total_blocks pm → (Z.to_nat f < fuel)%nat →
  returns (skip_static fuel last pm) (λ '(a, pm'),
    frames pm' ((last + (PMM_BLOCK_SIZE - 1)) / PMM_BLOCK_SIZE) [] ∧ same_pool pm pm').
Proof.
  intros Hfr Hf Hl Htf Hlast Hus Hfuel. unfold PMM_BLOCK_SIZE in Hlast. unfold skip_static.
  apply returns_bind. eapply returns_mono; [apply (skip_alloc pm 0 [] f); try done; unfold in_map in Hf; lia|].
  intros [a1 pm1] (p1 & held1 & -> & Hp1 & Hsk1 & Hsame1).
  apply (while_loop_inv (λ '(a, pm'), ∃ p held, a = p * PMM_BLOCK_SIZE ∧ skipping pm' p f held ∧ same_pool pm pm')
    (λ '(a, _), Z.to_nat (f - a / PMM_BLOCK_SIZE))).
  - eauto.
  - unfold PMM_BLOCK_SIZE. rewrite Z.div_mul by done. destruct Hsk1 as [_ [??] _ _ _]. lia.
  - intros [a pm'] (p & held & -> & Hsk & Hsame). destruct Hsk as [Hfr' Hpf Hbelow Hfree [Hfl Hfm]].
    destruct (Z.ltb_spec (p * PMM_BLOCK_SIZE) last) as [Hlt|Hge]; unfold PMM_BLOCK_SIZE in Hlt || unfold PMM_BLOCK_SIZE in Hge.
    + destruct Hfree as [Htf' Hus']; [lia|]. apply returns_bind.
      eapply returns_mono; [apply (skip_alloc pm' (p + 1) held f); try done; try lia|].
      { intros q Hq. apply Hbelow. lia. }
      intros [a2 pm2] (p2 & held2 & -> & Hp2 & Hsk2 & [El Et]). split.
      * exists p2, held2. split_and!; [done|done|]. destruct Hsame. split; etrans; eauto.
      * unfold PMM_BLOCK_SIZE. rewrite !Z.div_mul by done. destruct Hsk2 as [_ [??] _ _ _]. lia.
    + destruct Hfr' as [H1 H2 H3 H4 H5 H6 H7 H8]. split; [|done]. split; try done; try (simpl; lia).
      * intros q Hq. apply Hbelow. split; [lia|]. unfold PMM_BLOCK_SIZE in Hq.
        destruct Hq as [Hq0 Hq]. apply Z.lt_le_pred in Hq. pose proof (Z.div_mod (last + (4096 - 1)) 4096).
        pose proof (Z.mod_pos_bound (last + (4096 - 1)) 4096). lia.
      * by intros q ?%not_elem_of_nil.
      * constructor.
Qed.

(** ** [physmem_init] *)

(** What start-up needs: the bitmap has whole words, the allocator room, the map
    describes memory the bitmap covers, and [f] is a usable frame above the
    static memory with at least [f] free frames counted. *)
Record bootable (mb : multiboot_info_t) (memory : list Z) (st : stalloc_t) (n : nat) (f : Z) : Prop := {
  bt_blocks : blocks_of mb = 64 * Z.of_nat n;
  bt_memory : length memory = (8 * n)%nat;
  bt_size : 0 < 8 * Z.of_nat n < 2 ^ 31;
  bt_room : room64 st (8 * Z.of_nat n + 16);
  bt_map : Forall (region_ok n) (memory_map mb);
  bt_count : f < map_frames (memory_map mb) ≤ 64 * Z.of_nat n;
  bt_low : low f = true;
  bt_free : Exists (λ r, in_region r f) (memory_map mb);
  bt_above : free_area_start st + 8 * Z.of_nat n + 12 ≤ f * PMM_BLOCK_SIZE
}.

Lemma physmem_init64_spec fuel kernel_end mb memory st n f :
  bootable mb memory st n f → (Z.to_nat f < fuel)%nat →
  returns (physmem_init64 fuel kernel_end mb memory st) (λ '(pm, st'), ∃ s, frames pm s [] ∧
    free_area_start st + 8 * Z.of_nat n + 4 ≤ s * PMM_BLOCK_SIZE ∧
    length (mem_bitmap pm) = n ∧ total_blocks pm = 64 * Z.of_nat n ∧
    free_area_start st' = 0xffffffff).
Proof.
  intros [H1 H2 H3 (R1 & R2 & R3) H5 H6 H7 H8 H9] Hfuel. unfold physmem_init64. unfold PMM_BLOCK_SIZE in H9.
  apply returns_bind. eapply returns_mono; [apply (setup_spec mb memory st n); try done; [lia|split_and!; lia]|].
  intros [pm0 st1] (-> & Hst1). apply returns_bind.
  eapply returns_mono; [apply (free_regions_spec n ltac:(lia) (memory_map mb) (fresh_pmm mb n))|].
  - split; simpl; [|by rewrite length_replicate|done|done]. apply Forall_replicate. by vm_compute.
  - done.
  - simpl. lia.
  - intros pm1 (Hld & Hus & Htk). apply returns_bind.
    eapply returns_mono; [apply stalloc64_spec; split_and!; lia|]. intros [last st2] (-> & Hst2).
    destruct Hld as [Hw Hl Ht Hk]. cbn [used_blocks fresh_pmm] in Hus.
    apply returns_bind. eapply returns_mono; [apply (skip_spec fuel pm1 f); try done; try lia|].
    + split; rewrite ?Hl, ?Ht; try done; try lia.
      * simpl. lia.
      * by intros q ?%not_elem_of_nil.
      * constructor.
    + unfold in_map. rewrite Hl. apply Exists_exists in H8 as (r & Hr & [Hty Hin]).
      rewrite Forall_forall in H5. destruct (H5 r Hr Hty) as (Hb & _ & Hfit).
      assert (0 ≤ base_address r / PMM_BLOCK_SIZE) by (by apply Z.div_pos). lia.
    + apply Htk; [split; [lia|done]|by right].
    + unfold PMM_BLOCK_SIZE. lia.
    + intros [a pm2] (Hfr & [El Et]). cbn [returns]. eexists. split_and!; [done| |by rewrite El|by rewrite Et|done].
      unfold PMM_BLOCK_SIZE. pose proof (Z.div_mod (free_area_start st1 + (4096 - 1)) 4096).
      pose proof (Z.mod_pos_bound (free_area_start st1 + (4096 - 1)) 4096). lia.
Qed.
