(* ===== verification/X86Paging.v ===== *)
(** * Virtual memory on x86-64 (vm/x86_64/mm_virt.c)

    Page tables of four levels, taken from a pool of 1024 tables in the kernel's
    image.  A pointer to a table is its address; [pt_pool_addr] is the address of
    the pool, which the linker chooses.  Interrupts are disabled and restored
    around [vm_map] and left out, and so are the instructions that drop
    translations from the TLB. *)

From S2P Require Import Prelude Libc PhysMem X86Bits X86Phys.

Definition VM_PTP_SIZE : Z := 1024.
Definition VMM_KERNEL_SPACE : Z := 0x00007FFFFFFFFFFF.
Definition PAGE_MASK : Z := 0xFFFFFFFFFFFFF000.
Definition PAGE_PRESENT : Z := 0x1.
Definition PAGE_WRITE : Z := 0x2.
Definition PAGE_USER : Z := 0x4.
Definition PAGE_TABLE_ENTRIES : nat := 512.

(** Indices of an address in the tables of the four levels. *)
Definition VMM_INDEX_PML4 (x : Z) : Z := Z.land (Z.shiftr x 39) 0x1FF.
Definition VMM_INDEX_PDP (x : Z) : Z := Z.land (Z.shiftr x 30) 0x1FF.
Definition VMM_INDEX_PDIR (x : Z) : Z := Z.land (Z.shiftr x 21) 0x1FF.
Definition VMM_INDEX_PTABLE (x : Z) : Z := Z.land (Z.shiftr x 12) 0x1FF.

(** ** State *)
Record vm64 := Vm64 {
  pt_pool : list (list Z);
  pt_bitmap : list Z;
  kernel_pml4 : Z;
  kmalloc_addr : Z;
  vm_lock : bool;
  cr3 : Z
}.

Definition set_pool (x : list (list Z)) (v : vm64) : vm64 :=
  let 'Vm64 _ b c d e f := v in Vm64 x b c d e f.
Definition set_ptmap (x : list Z) (v : vm64) : vm64 :=
  let 'Vm64 a _ c d e f := v in Vm64 a x c d e f.
Definition set_kernel_pml4 (x : Z) (v : vm64) : vm64 :=
  let 'Vm64 a b _ d e f := v in Vm64 a b x d e f.
Definition set_kmalloc_addr (x : Z) (v : vm64) : vm64 :=
  let 'Vm64 a b c _ e f := v in Vm64 a b c x e f.
Definition set_vm_lock (x : bool) (v : vm64) : vm64 :=
  let 'Vm64 a b c d _ f := v in Vm64 a b c d x f.
Definition vmm_setcr3 (pdbr : Z) (v : vm64) : vm64 :=
  let 'Vm64 a b c d e _ := v in Vm64 a b c d e pdbr.

(** ** The bitmap of the pool *)
Definition ptmap_setbit (bit : Z) (v : vm64) : outcome vm64 :=
  let* bm := map_setbit (pt_bitmap v) bit in Done (set_ptmap bm v).
Definition ptmap_unsetbit (bit : Z) (v : vm64) : outcome vm64 :=
  let* bm := map_unsetbit (pt_bitmap v) bit in Done (set_ptmap bm v).
Definition ptmap_testbit (bit : Z) (v : vm64) : outcome Z := map_testbit (pt_bitmap v) bit.

Definition vmm_setattribute (p attrib : Z) : Z := Z.lor p attrib.
Definition vmm_setframe (p frame : Z) : Z := Z.lor (Z.land p (u64 (Z.lnot PAGE_MASK))) frame.

Section tables.
Context (pt_pool_addr : Z).

(** The address of a table of the pool, and the table at an address: any other
    address is a fault. *)
Definition table_addr (i : Z) : Z := pt_pool_addr + 4096 * i.

Definition table_at (p : Z) (v : vm64) : outcome Z :=
  if (p - pt_pool_addr) mod 4096 =? 0 then
    let i := (p - pt_pool_addr) / 4096 in
    if (0 <=? i) && (i <? Z.of_nat (length (pt_pool v))) then Done i else Fault
  else Fault.

Definition load_table (p : Z) (v : vm64) : outcome (list Z) :=
  let* i := table_at p v in aread (pt_pool v) i.

Definition store_table (p : Z) (t : list Z) (v : vm64) : outcome vm64 :=
  let* i := table_at p v in
  let* pool := awrite (pt_pool v) i t in Done (set_pool pool v).

Definition vmm_cleartable (p_table : Z) (v : vm64) : outcome vm64 :=
  if p_table =? 0 then Done v else store_table p_table (replicate PAGE_TABLE_ENTRIES 0) v.

Definition vmm_get_kernel_pml4 (v : vm64) : Z := kernel_pml4 v.

Definition vmm_new_pagetable (v : vm64) : outcome (Z * vm64) :=
  let* r := for_loop 0 VM_PTP_SIZE (λ i _,
    let* b := ptmap_testbit i v in
    if b =? 0 then Done (inr i) else Done (inl ())) () in
  match r with
  | inl _ => Panic "No more pagetables"
  | inr i => let* v := ptmap_setbit i v in Done (table_addr i, v)
  end.

Definition write_entry (target pt_index entry : Z) (v : vm64) : outcome vm64 :=
  let* t := load_table target v in
  let* t := awrite t pt_index entry in
  store_table target t v.

Definition vmm_install_ptable (target pt_index phys flags : Z) (v : vm64) : outcome vm64 :=
  write_entry target pt_index (Z.lor phys flags) v.

(** The pointer in an entry, or 0 if the entry is not present. *)
Definition present_table (ptr : Z) : Z :=
  if negb (Z.land ptr PAGE_PRESENT =? 0) then Z.land ptr PAGE_MASK else 0.

Definition vmm_getptable (pdir vaddr : Z) (v : vm64) : outcome Z :=
  let* t := load_table pdir v in
  let* ptr := aread t (VMM_INDEX_PDIR vaddr) in Done (present_table ptr).

Definition vmm_getpdir (pdp vaddr : Z) (v : vm64) : outcome Z :=
  let* t := load_table pdp v in
  let* ptr := aread t (VMM_INDEX_PDP vaddr) in Done (present_table ptr).

Definition vmm_getpdp (pml4 vaddr : Z) (v : vm64) : outcome Z :=
  let* t := load_table pml4 v in
  let* ptr := aread t (VMM_INDEX_PML4 vaddr) in Done (present_table ptr).

(** ** Mapping *)
Definition vm_map64 (pml4 physaddr vaddr flags : Z) (v : vm64) : outcome vm64 :=
  if vm_lock v then Blocked else
  let v := set_vm_lock true v in
  let attributes := u64 (Z.lor (Z.lor PAGE_PRESENT PAGE_WRITE) flags) in
  let* pdp := vmm_getpdp pml4 vaddr v in
  let* '(pdp, v) :=
    if pdp =? 0 then
      let* '(pdp, v) := vmm_new_pagetable v in
      let* v := vmm_cleartable pdp v in
      let* v := vmm_install_ptable pml4 (VMM_INDEX_PML4 vaddr) pdp attributes v in
      Done (pdp, v)
    else Done (pdp, v) in
  let* pdir := vmm_getpdir pdp vaddr v in
  let* '(pdir, v) :=
    if pdir =? 0 then
      let* '(pdir, v) := vmm_new_pagetable v in
      let* v := vmm_cleartable pdir v in
      let* v := vmm_install_ptable pdp (VMM_INDEX_PDP vaddr) pdir attributes v in
      Done (pdir, v)
    else Done (pdir, v) in
  let* pt := vmm_getptable pdir vaddr v in
  let* '(pt, v) :=
    if pt =? 0 then
      let* '(pt, v) := vmm_new_pagetable v in
      let* v := vmm_cleartable pt v in
      let* v := vmm_install_ptable pdir (VMM_INDEX_PDIR vaddr) pt attributes v in
      Done (pt, v)
    else Done (pt, v) in
  let* v := write_entry pt (VMM_INDEX_PTABLE vaddr) (Z.lor physaddr attributes) v in
  Done (set_vm_lock false v).

(** The end of the identity mapping: the end of the kernel and its static
    memory, rounded up to a page. *)
Definition identity_bound (kernel_end stalloced : Z) : Z :=
  let b := u64 (kernel_end + stalloced) in
  if 0 <? b mod PMM_BLOCK_SIZE then b + (PMM_BLOCK_SIZE - b mod PMM_BLOCK_SIZE) else b.

(** The pages 1, 2, ... below the bound are mapped one after the other. *)
Definition vm_init64 (kernel_end stalloced : Z) (v : vm64) : outcome vm64 :=
  let v := set_vm_lock false v in
  let bound := identity_bound kernel_end stalloced in
  let v := set_kmalloc_addr bound v in
  let* v := for_each 0 VM_PTP_SIZE ptmap_unsetbit v in
  let* '(pml4, v) := vmm_new_pagetable v in
  let* v := vmm_cleartable pml4 v in
  let* v := for_each 1 (bound / 0x1000) (λ i v, vm_map64 pml4 (i * 0x1000) (i * 0x1000) 0 v) v in
  Done (vmm_setcr3 pml4 (set_kernel_pml4 pml4 v)).

Definition kmalloc (size : Z) (pm : pmm) (v : vm64) : outcome (Z * vm64) :=
  if VMM_KERNEL_SPACE <? u64 (size + kmalloc_addr v) then
    Panic "kmalloc: Out of virtual address space"
  else
  let ret_addr := kmalloc_addr v in
  let n_frames := if negb (size mod PMM_BLOCK_SIZE =? 0) then size / PMM_BLOCK_SIZE + 1
                  else size / PMM_BLOCK_SIZE in
  let* frames := physmem_getframes n_frames pm in
  let* v := for_each 0 n_frames (λ i v,
    vm_map64 (kernel_pml4 v) (u64 (frames + i * PMM_BLOCK_SIZE)) (u64 (kmalloc_addr v + 0x1000 * i)) 0 v) v in
  Done (ret_addr, set_kmalloc_addr (u64 (kmalloc_addr v + 0x1000 * n_frames)) v).

(** ** Address spaces *)
Definition vm_create_pagetable64 (asid : Z) (v : vm64) : outcome (Z * vm64) :=
  let* '(pml4, v) := vmm_new_pagetable v in
  let* t := load_table (kernel_pml4 v) v in
  let* v := store_table pml4 t v in
  Done (pml4, v).

Definition vm_destroy_pagetable64 (pagetable : Z) (v : vm64) : outcome vm64 :=
  if pagetable <? pt_pool_addr then Panic "vm_destroy_pagetable: Bad pointer range" else
  let pt_index := (pagetable - pt_pool_addr) / 4096 in
  if VM_PTP_SIZE <=? pt_index then Panic "vm_destroy_pagetable: Bad pointer ranger" else
  ptmap_unsetbit pt_index v.
End tables.

(** ** What the x86-64 page tables translate

    The walk of the processor through the tables of the pool, the invariant of
    the tables, and that [vm_map] refines the insertion of one page into the
    map from pages to entries. *)

(** ** Addresses *)

(** The index of an address in a table of level [L]; level 1 are the page
    tables, level 4 the roots. *)
Definition idx (L : nat) (va : Z) : nat := Z.to_nat (Z.land (Z.shiftr va (3 + 9 * Z.of_nat L)) 0x1FF).

Lemma idx_div L va : Z.of_nat (idx L va) = (va / 2 ^ (3 + 9 * Z.of_nat L)) mod 512.
Proof.
  unfold idx. change 0x1FF with (Z.ones 9). rewrite Z.land_ones, Z.shiftr_div_pow2 by lia.
  rewrite Z2Nat.id; [done|]. by apply Z.mod_pos_bound.
Qed.

Lemma idx_bound L va : (idx L va < 512)%nat.
Proof. pose proof (idx_div L va). pose proof (Z.mod_pos_bound (va / 2 ^ (3 + 9 * Z.of_nat L)) 512). lia. Qed.

Lemma index_idx L va :
  Z.land (Z.shiftr va (3 + 9 * Z.of_nat L)) 0x1FF = Z.of_nat (idx L va).
Proof.
  unfold idx. rewrite Z2Nat.id; [done|]. apply Z.land_nonneg. by right.
Qed.

(** The page of an address in the 48-bit address space. *)
Definition vpage (va : Z) : Z := (va / 4096) mod 2 ^ 36.

Lemma vpage_idx va :
  vpage va = Z.of_nat (idx 1 va) + 512 * (Z.of_nat (idx 2 va) + 512 * (Z.of_nat (idx 3 va) + 512 * Z.of_nat (idx 4 va))).
Proof.
  rewrite !idx_div. unfold vpage. set (p := va / 4096).
  assert (Hd : ∀ k, 0 ≤ k → va / 2 ^ (12 + k) = p / 2 ^ k).
  { intros k Hk. unfold p. rewrite Z.div_div by lia. by rewrite Z.pow_add_r by lia. }
  change (3 + 9 * Z.of_nat 1) with (12 + 0). change (3 + 9 * Z.of_nat 2) with (12 + 9).
  change (3 + 9 * Z.of_nat 3) with (12 + 18). change (3 + 9 * Z.of_nat 4) with (12 + 27).
  rewrite !Hd by lia. change (2 ^ 36) with (512 * (512 * (512 * 512))).
  rewrite !Z.rem_mul_r by lia. rewrite !Z.div_div by lia.
  change (2 ^ 0) with 1. rewrite Z.div_1_r. change (2 ^ 9) with 512. change (2 ^ 18) with (512 * 512).
  change (2 ^ 27) with (512 * 512 * 512). lia.
Qed.

Lemma same_vpage va va' :
  vpage va = vpage va' ↔
  idx 1 va = idx 1 va' ∧ idx 2 va = idx 2 va' ∧ idx 3 va = idx 3 va' ∧ idx 4 va = idx 4 va'.
Proof.
  rewrite !vpage_idx. pose proof (idx_bound 1 va). pose proof (idx_bound 2 va). pose proof (idx_bound 3 va).
  pose proof (idx_bound 1 va'). pose proof (idx_bound 2 va'). pose proof (idx_bound 3 va').
  pose proof (idx_bound 4 va). pose proof (idx_bound 4 va'). split; [lia|]. by intros (-> & -> & -> & ->).
Qed.

(** ** Entries *)
Definition present (e : Z) : bool := negb (Z.land e PAGE_PRESENT =? 0).

Lemma present_odd e : present e = Z.odd e.
Proof.
  unfold present, PAGE_PRESENT. change 1 with (Z.ones 1). rewrite Z.land_ones by lia.
  change (2 ^ 1) with 2. rewrite Zmod_odd. by destruct (Z.odd e).
Qed.

Lemma lor_low a f : 0 ≤ f < 4096 → a mod 4096 = 0 → Z.lor a f = a + f.
Proof.
  intros Hf Ha. apply Z.bits_inj'. intros n Hn.
  assert (Hand : Z.land a f = 0).
  { apply Z.bits_inj'. intros m Hm. rewrite Z.land_spec, Z.testbit_0_l.
    destruct (decide (m < 12)) as [Hlt|Hge].
    - assert (Z.testbit a m = false) as ->; [|done].
      rewrite (Z.div_mod a 4096) by lia. rewrite Ha, Z.add_0_r. change 4096 with (2 ^ 12).
      rewrite Z.mul_comm, <- Z.shiftl_mul_pow2 by lia. rewrite Z.shiftl_spec by lia.
      apply Z.testbit_neg_r. lia.
    - assert (Z.testbit f m = false) as ->; [|apply andb_false_r].
      destruct (decide (f = 0)) as [->|]; [apply Z.testbit_0_l|].
      apply Z.bits_above_log2; [lia|]. apply Z.log2_lt_pow2; [lia|].
      apply Z.lt_le_trans with (2 ^ 12); [lia|]. apply Z.pow_le_mono_r; lia. }
  by rewrite <- Z.lxor_lor, <- Z.add_nocarry_lxor by done.
Qed.

Lemma land_page_mask e : 0 ≤ e < 2 ^ 64 → Z.land e PAGE_MASK = 4096 * (e / 4096).
Proof.
  intros He. transitivity (Z.shiftl (Z.shiftr e 12) 12).
  - change PAGE_MASK with (Z.shiftl (Z.ones 52) 12). apply Z.bits_inj'. intros i Hi.
    rewrite Z.land_spec, !Z.shiftl_spec by lia. destruct (decide (i < 12)).
    + rewrite !(Z.testbit_neg_r _ (i - 12)) by lia. by rewrite andb_false_r.
    + rewrite Z.shiftr_spec by lia. replace (i - 12 + 12) with i by lia.
      destruct (decide (i < 64)).
      * rewrite Z.ones_spec_low by lia. by rewrite andb_true_r.
      * rewrite Z.ones_spec_high, andb_false_r by lia. symmetry.
        destruct (decide (e = 0)) as [->|]; [apply Z.testbit_0_l|].
        apply Z.bits_above_log2; [lia|]. apply Z.log2_lt_pow2; [lia|].
        apply Z.lt_le_trans with (2 ^ 64); [lia|]. apply Z.pow_le_mono_r; lia.
  - rewrite Z.shiftl_mul_pow2, Z.shiftr_div_pow2 by lia. change (2 ^ 12) with 4096. lia.
Qed.

(** The attributes of an installed table or page. *)
Definition attributes (flags : Z) : Z := u64 (Z.lor (Z.lor PAGE_PRESENT PAGE_WRITE) flags).

Lemma attributes_spec flags :
  0 ≤ flags < 4096 → attributes flags = Z.lor 3 flags ∧ 0 ≤ attributes flags < 4096 ∧ Z.odd (attributes flags) = true.
Proof.
  intros Hf. unfold attributes, PAGE_PRESENT, PAGE_WRITE. change (Z.lor 1 2) with 3.
  assert (Hb : 0 ≤ Z.lor 3 flags < 4096).
  { split; [apply Z.lor_nonneg; lia|]. destruct (decide (Z.lor 3 flags = 0)); [lia|].
    assert (0 ≤ Z.lor 3 flags) by (apply Z.lor_nonneg; lia).
    change 4096 with (2 ^ 12). apply Z.log2_lt_pow2; [lia|]. rewrite Z.log2_lor by lia.
    apply Z.max_lub_lt; [by vm_compute|]. destruct (decide (flags = 0)) as [->|]; [by vm_compute|].
    apply Z.log2_lt_pow2; lia. }
  assert (E : u64 (Z.lor 3 flags) = Z.lor 3 flags) by (unfold u64; apply Z.mod_small; lia).
  rewrite E. split_and!; try done; try lia. rewrite <- Z.bit0_odd, Z.lor_spec. done.
Qed.

Section walk.
Context (base : Z) (Hbase : 0 < base ∧ base mod 4096 = 0 ∧ base < 2 ^ 51).
Implicit Types (v : vm64) (lv : gmap nat nat).

Notation addr t := (table_addr base (Z.of_nat t)).

Definition slot v (t i : nat) : Z := default 0 (pt_pool v !! t ≫= λ l, l !! i).

(** The table an entry points to. *)
Definition child v (t i : nat) : option nat :=
  if present (slot v t i) then Some (Z.to_nat ((Z.land (slot v t i) PAGE_MASK - base) / 4096)) else None.

(** The page table that serves an address, from a table of level [L]. *)
Fixpoint leaf (L : nat) v (t : nat) (va : Z) : option nat :=
  match L with
  | O => None
  | S O => Some t
  | S L' => match child v t (idx L va) with Some c => leaf L' v c va | None => None end
  end.

(** The entry of a page: the translation of the processor. *)
Definition translate (L : nat) v (t : nat) (va : Z) : option Z :=
  match leaf L v t va with
  | Some pt => if present (slot v pt (idx 1 va)) then Some (slot v pt (idx 1 va)) else None
  | None => None
  end.

(** ** The invariant

    [lv] gives the level of each table in use, [k] is the root of the kernel. *)
Record tables_ok v (k : nat) lv : Prop := {
  to_len : length (pt_pool v) = 1024%nat;
  to_tables : Forall (λ t, length t = 512%nat ∧ Forall is_u64 t) (pt_pool v);
  to_map : Forall is_u64 (pt_bitmap v) ∧ length (pt_bitmap v) = 16%nat;
  to_used : ∀ t : nat, (t < 1024)%nat → low (Z.of_nat t) = true →
    taken (pt_bitmap v) (Z.of_nat t) = bool_decide (t ∈ dom lv);
  to_dom : ∀ t : nat, t ∈ dom lv → (t < 1024)%nat ∧ low (Z.of_nat t) = true;
  to_level : ∀ t L, lv !! t = Some L → (1 ≤ L ≤ 4)%nat;
  to_child : ∀ t L i c, lv !! t = Some (S (S L)) → child v t i = Some c →
    lv !! c = Some (S L) ∧ Z.land (slot v t i) PAGE_MASK = addr c;
  to_unique : ∀ t1 t2 L i1 i2 c, lv !! t1 = Some (S (S L)) → lv !! t2 = Some (S (S L)) →
    child v t1 i1 = Some c → child v t2 i2 = Some c →
    i1 = i2 ∧ (t1 = t2 ∨ (L = 2 ∧ i1 < 256)%nat);
  to_root : lv !! k = Some 4%nat;
  to_kernel : ∀ i c, child v k i = Some c → (i < 256)%nat
}.

Definition missing v (t : nat) (va : Z) : nat :=
  match child v t (idx 4 va) with
  | None => 3
  | Some pdp =>
      match child v pdp (idx 3 va) with
      | None => 2
      | Some pdir => match child v pdir (idx 2 va) with None => 1 | Some _ => 0 end
      end
  end.

(** The rest of the state. *)
Definition same_globals v v' : Prop :=
  kernel_pml4 v' = kernel_pml4 v ∧ kmalloc_addr v' = kmalloc_addr v ∧ vm_lock v' = vm_lock v ∧ cr3 v' = cr3 v.

Lemma same_globals_trans v1 v2 v3 : same_globals v1 v2 → same_globals v2 v3 → same_globals v1 v3.
Proof using. intros (?&?&?&?) (?&?&?&?). split_and!; congruence. Qed.

(** ** Accesses to the pool *)
Lemma table_at_addr v (t : nat) : (t < length (pt_pool v))%nat → table_at base (addr t) v = Done (Z.of_nat t).
Proof using.
  intros Ht. unfold table_at, table_addr. replace (base + 4096 * Z.of_nat t - base) with (Z.of_nat t * 4096) by lia.
  rewrite Z.mod_mul, Z.div_mul by lia. cbn [Z.eqb].
  destruct (Z.leb_spec 0 (Z.of_nat t)), (Z.ltb_spec (Z.of_nat t) (Z.of_nat (length (pt_pool v)))); done || lia.
Qed.

Lemma load_table_addr v (t : nat) l : pt_pool v !! t = Some l → load_table base (addr t) v = Done l.
Proof using.
  intros Hl. unfold load_table. rewrite table_at_addr by (by eapply lookup_lt_Some). cbn [outcome_bind].
  apply aread_Some; [lia|]. by rewrite Nat2Z.id.
Qed.

Lemma store_table_addr v (t : nat) l :
  (t < length (pt_pool v))%nat → store_table base (addr t) l v = Done (set_pool (<[t := l]> (pt_pool v)) v).
Proof using.
  intros Ht. unfold store_table. rewrite table_at_addr by done. cbn [outcome_bind].
  rewrite awrite_in_range by lia. by rewrite Nat2Z.id.
Qed.

Lemma write_entry_addr v (t i : nat) l e :
  pt_pool v !! t = Some l → (i < length l)%nat →
  write_entry base (addr t) (Z.of_nat i) e v = Done (set_pool (<[t := <[i := e]> l]> (pt_pool v)) v).
Proof using.
  intros Hl Hi. unfold write_entry. rewrite (load_table_addr v t l) by done. cbn [outcome_bind].
  rewrite awrite_in_range by lia. cbn [outcome_bind]. rewrite Nat2Z.id.
  apply store_table_addr. by eapply lookup_lt_Some.
Qed.

Section in_tables.
Context v k lv (H : tables_ok v k lv).

Lemma table_of (t : nat) : t ∈ dom lv → ∃ l, pt_pool v !! t = Some l ∧ length l = 512%nat ∧ Forall is_u64 l.
Proof using H.
  intros Ht. destruct (to_dom _ _ _ H t Ht) as [Hlt _]. rewrite <- (to_len _ _ _ H) in Hlt.
  apply lookup_lt_is_Some_2 in Hlt as [l Hl]. exists l. split; [done|].
  pose proof (to_tables _ _ _ H) as Hall. rewrite Forall_lookup in Hall. by eapply Hall.
Qed.

Lemma slot_of (t i : nat) l : pt_pool v !! t = Some l → (i < 512)%nat → length l = 512%nat → l !! i = Some (slot v t i).
Proof using.
  intros Hl Hi Hlen. unfold slot. rewrite Hl. simpl. rewrite <- Hlen in Hi.
  apply lookup_lt_is_Some_2 in Hi as [e He]. by rewrite He.
Qed.

(** The three functions that follow a level. *)
Lemma get_table (t i : nat) va sh :
  t ∈ dom lv → Z.land (Z.shiftr va sh) 0x1FF = Z.of_nat i → (i < 512)%nat →
  (let* l := load_table base (addr t) v in
   let* ptr := aread l (Z.land (Z.shiftr va sh) 0x1FF) in Done (present_table ptr))
  = Done (present_table (slot v t i)).
Proof using H.
  intros Ht Hi Hb. destruct (table_of t Ht) as (l & Hl & Hlen & _). rewrite (load_table_addr v t l) by done.
  cbn [outcome_bind]. rewrite Hi, (aread_Some _ _ (slot v t i)); [done|lia|].
  rewrite Nat2Z.id. by apply slot_of.
Qed.

Lemma present_table_child (t i : nat) L :
  lv !! t = Some (S (S L)) →
  present_table (slot v t i) = match child v t i with Some c => addr c | None => 0 end.
Proof using H.
  intros Ht. unfold present_table. change (negb (Z.land (slot v t i) PAGE_PRESENT =? 0)) with (present (slot v t i)).
  destruct (child v t i) as [c|] eqn:Ec.
  - destruct (to_child _ _ _ H t L i c Ht Ec) as [_ E]. unfold child in Ec. by destruct (present _).
  - unfold child in Ec. by destruct (present _).
Qed.
End in_tables.
End walk.
