(* ===== verification/X86Map.v ===== *)
(** * [vm_map] inserts one page

    Taking a table from the pool, linking it into a table of the level above,
    and writing the entry of the page: each keeps the invariant of the tables,
    and together they are the insertion of a page in an address space. *)

From S2P Require Import Prelude Libc PhysMem X86Bits X86Phys X86Paging.

(** ** The pool of tables *)

(** The tables that [vmm_new_pagetable] can hand out. *)
Definition usable : list nat := filter (λ t, low (Z.of_nat t) = true) (seq 0 1024).

Lemma usable_length : length usable = 512%nat.
Proof. by vm_compute. Qed.

Lemma elem_of_usable t : t ∈ usable ↔ (t < 1024)%nat ∧ low (Z.of_nat t) = true.
Proof. unfold usable. rewrite list_elem_of_filter, elem_of_seq. split; intros [? ?]; split; done || lia. Qed.

Lemma usable_NoDup : NoDup usable.
Proof. apply NoDup_filter, NoDup_seq. Qed.

(** Fewer than 512 tables in use leave one. *)
Lemma table_left (lv : gmap nat nat) : (size lv < 512)%nat → ∃ t, t ∈ usable ∧ t ∉ dom lv.
Proof.
  intros Hs. destruct (decide (Forall (λ t, t ∈ dom lv) usable)) as [Hall|Hex].
  - exfalso. rewrite Forall_forall in Hall.
    assert (Hsub : list_to_set usable ⊆ dom lv) by (intros t Ht; apply Hall; by rewrite elem_of_list_to_set in Ht).
    apply subseteq_size in Hsub. rewrite size_list_to_set, usable_length, size_dom in Hsub by apply usable_NoDup. lia.
  - apply not_Forall_Exists in Hex; [|apply _]. apply Exists_exists in Hex as (t & Ht & Hn). eauto.
Qed.

Lemma dom_insert_or (lv : gmap nat nat) c L t : t ∈ dom (<[c := L]> lv) ↔ t = c ∨ t ∈ dom lv.
Proof. by rewrite dom_insert, elem_of_union, elem_of_singleton. Qed.

Lemma low_or_lower p : 0 ≤ p → low p = false → 32 ≤ p mod 64 ∧ 0 ≤ p - 32 ∧ same_flag (p - 32) p = true.
Proof.
  unfold low, same_flag. intros Hp Hl%Z.ltb_ge. pose proof (Z.div_mod p 64). pose proof (Z.mod_pos_bound p 64).
  pose proof (Z.div_pos p 64). split_and!; [lia|lia|]. apply andb_true_iff. split; apply Z.eqb_eq.
  - symmetry. apply (Z.div_unique _ _ _ (p mod 64 - 32)); [left; lia|lia].
  - replace (p - 32) with (p + -1 * 32) by lia. by rewrite Z.mod_add.
Qed.

Section map.
Context (base : Z) (Hbase : 0 < base ∧ base mod 4096 = 0 ∧ base < 2 ^ 51).
Implicit Types (v : vm64) (lv : gmap nat nat).

Notation addr t := (table_addr base (Z.of_nat t)).

(** The bitmap marks the tables of [lv] and [c]. *)
Record map_marks (bm : list Z) lv : Prop := {
  mm_words : Forall is_u64 bm ∧ length bm = 16%nat;
  mm_used : ∀ t : nat, (t < 1024)%nat → low (Z.of_nat t) = true →
    taken bm (Z.of_nat t) = bool_decide (t ∈ dom lv)
}.

Lemma new_pagetable_marks v lv :
  map_marks (pt_bitmap v) lv → (size lv < 512)%nat →
  returns (vmm_new_pagetable base v) (λ '(p, v'), ∃ c bm', p = addr c ∧ v' = set_ptmap bm' v ∧
    c ∉ dom lv ∧ (c < 1024)%nat ∧ low (Z.of_nat c) = true ∧ ∀ L, map_marks bm' (<[c := L]> lv)).
Proof using.
  intros [[Hu Hlen] Hus] Hsize. unfold vmm_new_pagetable.
  set (P := λ t : nat, taken (pt_bitmap v) (Z.of_nat t) = false).
  destruct (list_find P (seq 0 1024)) as [[i x]|] eqn:Ef.
  2: { exfalso. apply list_find_None in Ef. rewrite Forall_forall in Ef.
       destruct (table_left lv Hsize) as (t & Ht & Hn). apply elem_of_usable in Ht as [Hlt Hlow].
       apply (Ef t); [apply elem_of_seq; lia|]. unfold P. rewrite Hus by done. by apply bool_decide_eq_false. }
  apply list_find_Some in Ef as (Hi & Hfree & Hbefore). apply lookup_seq in Hi as [-> Hi]. rewrite Nat.add_0_l in *.
  assert (Htest : ∀ j : Z, 0 ≤ j < 1024 → ∃ b, ptmap_testbit j v = Done b ∧ (b =? 0) = negb (taken (pt_bitmap v) j)).
  { intros j Hj. apply map_testbit_spec; [done|]. unfold in_map. lia. }
  assert (Hlow : low (Z.of_nat i) = true).
  { destruct (low (Z.of_nat i)) eqn:El; [done|]. exfalso.
    apply low_or_lower in El as (_ & H0 & Hs); [|lia]. set (j := Z.of_nat i - 32) in *.
    apply (Hbefore (Z.to_nat j) (Z.to_nat j)); [apply lookup_seq; lia|lia|].
    unfold P in *. rewrite Z2Nat.id by done. by rewrite (taken_same _ j (Z.of_nat i)) by (done || lia). }
  rewrite (for_loop_skip _ (Z.of_nat i)); [|unfold VM_PTP_SIZE; lia|].
  2: { intros j Hj. destruct (Htest j) as (b & -> & Hb); [lia|]. cbn [outcome_bind]. rewrite Hb.
       destruct (taken (pt_bitmap v) j) eqn:Et; [done|]. exfalso.
       apply (Hbefore (Z.to_nat j) (Z.to_nat j)); [apply lookup_seq; lia|lia|].
       unfold P. by rewrite Z2Nat.id by lia. }
  replace (Z.to_nat (VM_PTP_SIZE - Z.of_nat i)) with (S (1023 - i)) by (unfold VM_PTP_SIZE; lia).
  cbn [for_from]. destruct (Htest (Z.of_nat i)) as (b & -> & Hb); [lia|]. cbn [outcome_bind]. rewrite Hb.
  unfold P in Hfree. rewrite Hfree. cbn [negb outcome_bind]. unfold ptmap_setbit. apply returns_bind, returns_bind.
  eapply returns_mono; [apply (map_setbit_spec _ Hu (Z.of_nat i)); unfold in_map; lia|].
  intros bm' (Hlen' & Hu' & Htk). cbn [returns]. exists i, bm'. split_and!; try done.
  - rewrite Hus in Hfree by done. by apply bool_decide_eq_false in Hfree.
  - intros L. split; [split; [done|congruence]|]. intros t Ht Hlt. rewrite Htk, Hus, low_same by (done || lia).
    destruct (Z.eqb_spec (Z.of_nat i) (Z.of_nat t)) as [E|E].
    + apply Nat2Z.inj in E as ->. rewrite orb_true_r. symmetry. apply bool_decide_eq_true, dom_insert_or. by left.
    + rewrite orb_false_r. apply bool_decide_ext. rewrite dom_insert_or. split; [by right|].
      intros [->|?]; [by destruct E|done].
Qed.

(** ** Slots *)
Lemma slot_pool v v' t i : pt_pool v' = pt_pool v → slot v' t i = slot v t i.
Proof using. unfold slot. by intros ->. Qed.

Lemma child_slot v v' t t' i i' : slot v' t' i' = slot v t i → child base v' t' i' = child base v t i.
Proof using. unfold child. by intros ->. Qed.

Lemma slot_write v v' t l i e :
  pt_pool v !! t = Some l → (i < length l)%nat → pt_pool v' = <[t := <[i := e]> l]> (pt_pool v) →
  slot v' t i = e ∧ ∀ t' i', (t', i') ≠ (t, i) → slot v' t' i' = slot v t' i'.
Proof using.
  intros Hl Hi Hp. pose proof (lookup_lt_Some _ _ _ Hl). unfold slot. rewrite Hp. split.
  - rewrite list_lookup_insert_eq by done. simpl. by rewrite list_lookup_insert_eq.
  - intros t' i' Hne. destruct (decide (t' = t)) as [->|Ht].
    + rewrite list_lookup_insert_eq by done. simpl. rewrite Hl. simpl.
      rewrite list_lookup_insert_ne; [done|]. congruence.
    + by rewrite list_lookup_insert_ne.
Qed.

Lemma slot_clear v v' c :
  (c < length (pt_pool v))%nat → pt_pool v' = <[c := replicate 512 0]> (pt_pool v) →
  (∀ i, slot v' c i = 0) ∧ ∀ t' i', t' ≠ c → slot v' t' i' = slot v t' i'.
Proof using.
  intros Hc Hp. unfold slot. rewrite Hp. split.
  - intros i. rewrite list_lookup_insert_eq by done. change (default 0 (replicate 512 0 !! i) = 0).
    destruct (decide (i < 512)%nat); [by rewrite lookup_replicate_2|].
    rewrite lookup_ge_None_2; [done|]. rewrite length_replicate. lia.
  - intros t' i' Hne. by rewrite list_lookup_insert_ne.
Qed.

Lemma child_zero v t i : slot v t i = 0 → child base v t i = None.
Proof using. unfold child. by intros ->. Qed.

(** An entry that points to table [c]. *)
Lemma link_entry c att :
  (c < 1024)%nat → 0 ≤ att < 4096 → Z.odd att = true →
  is_u64 (Z.lor (addr c) att) ∧ present (Z.lor (addr c) att) = true ∧
  Z.land (Z.lor (addr c) att) PAGE_MASK = addr c ∧
  Z.to_nat ((addr c - base) / 4096) = c.
Proof using Hbase.
  intros Hc Ha Ho. destruct Hbase as (Hb0 & Hbm & Hb).
  assert (Ea : addr c = (base / 4096 + Z.of_nat c) * 4096).
  { unfold table_addr. pose proof (Z.div_mod base 4096). lia. }
  assert (Hr : 0 ≤ addr c < 2 ^ 52) by (unfold table_addr; lia).
  rewrite lor_low by (done || (rewrite Ea; by apply Z.mod_mul)). unfold is_u64. split_and!; try lia.
  - rewrite present_odd, Z.odd_add, Ho, Ea, Z.odd_mul. by rewrite andb_false_r.
  - rewrite land_page_mask by lia. rewrite Ea at 1. rewrite Z.div_add_l by lia.
    rewrite (Z.div_small att) by lia. lia.
  - unfold table_addr. replace (base + 4096 * Z.of_nat c - base) with (Z.of_nat c * 4096) by lia.
    rewrite Z.div_mul by done. apply Nat2Z.id.
Qed.

(** ** Linking a fresh table *)
Section fresh.
Context v k lv (H : tables_ok base v k lv).
Context (t L i c : nat) (Ht : lv !! t = Some (S (S L))) (Hi : (i < 512)%nat).
Context (Hnone : child base v t i = None) (Hc : c ∉ dom lv) (Hcr : (c < 1024)%nat) (Hcl : low (Z.of_nat c) = true).
Context (Hk : t = k → (i < 256)%nat).
Context (att : Z) (Hatt : 0 ≤ att < 4096) (Hodd : Z.odd att = true).
Context (v' : vm64) (bm' : list Z) (Hbm : map_marks bm' (<[c := S L]> lv)) (Hb' : pt_bitmap v' = bm').
Context (l : list Z) (Hl : pt_pool v !! t = Some l).
Context (Hp' : pt_pool v' = <[t := <[i := Z.lor (addr c) att]> l]> (<[c := replicate 512 0]> (pt_pool v))).

Lemma fresh_slots :
  slot v' t i = Z.lor (addr c) att ∧ (∀ j, slot v' c j = 0) ∧
  ∀ t' i', t' ≠ c → (t', i') ≠ (t, i) → slot v' t' i' = slot v t' i'.
Proof using All.
  assert (Htd : t ∈ dom lv) by (apply elem_of_dom; eauto). assert (Hne : t ≠ c) by (by intros ->).
  destruct (table_of base v k lv H t Htd) as (l' & Hl' & Hlen & _). rewrite Hl in Hl'. injection Hl' as <-.
  set (v1 := set_pool (<[c := replicate 512 0]> (pt_pool v)) v).
  assert (Hp1 : pt_pool v1 = <[c := replicate 512 0]> (pt_pool v)) by (by destruct v).
  destruct (slot_clear v v1 c) as [Hz1 Ho1]; [by rewrite (to_len _ _ _ _ H)|done|].
  destruct (slot_write v1 v' t l i (Z.lor (addr c) att)) as [Hw Ho].
  - rewrite Hp1. by rewrite list_lookup_insert_ne.
  - by rewrite Hlen.
  - by rewrite Hp1.
  - split_and!; [done| |].
    + intros j. rewrite Ho by congruence. apply Hz1.
    + intros t' i' Hne1 Hne2. rewrite Ho by done. by apply Ho1.
Qed.

Lemma fresh_child : child base v' t i = Some c.
Proof using All.
  destruct fresh_slots as (Hs & _). destruct (link_entry c att Hcr Hatt Hodd) as (_ & Hp & Hm & He).
  unfold child. by rewrite Hs, Hp, Hm, He.
Qed.

Lemma fresh_children t' i' c' :
  child base v' t' i' = Some c' → (t' = t ∧ i' = i ∧ c' = c) ∨ (t' ≠ c ∧ child base v t' i' = Some c').
Proof using All.
  intros E. destruct fresh_slots as (Hs & Hz & Ho). destruct (decide (t' = c)) as [->|Hne].
  { by rewrite (child_zero _ _ _ (Hz i')) in E. }
  destruct (decide ((t', i') = (t, i))) as [[= -> ->]|Hne2].
  - left. rewrite fresh_child in E. by injection E.
  - right. split; [done|]. by rewrite <- (child_slot _ _ _ _ _ _ (Ho t' i' Hne Hne2)).
Qed.

Lemma fresh_keeps t' i' c' : t' ≠ c → child base v t' i' = Some c' → child base v' t' i' = Some c'.
Proof using All.
  intros Hne E. destruct fresh_slots as (Hs & Hz & Ho). destruct (decide ((t', i') = (t, i))) as [[= -> ->]|Hne2].
  - by rewrite Hnone in E.
  - by rewrite (child_slot _ _ _ _ _ _ (Ho t' i' Hne Hne2)).
Qed.

(** The new table's level differs from that of no table in use. *)
Lemma fresh_level t' n : lv !! t' = Some n → <[c := S L]> lv !! t' = Some n ∧ t' ≠ c.
Proof using All.
  intros E. assert (t' ≠ c) by (intros ->; apply Hc, elem_of_dom; eauto). by rewrite lookup_insert_ne.
Qed.

Lemma fresh_level_inv t' n : <[c := S L]> lv !! t' = Some n → (t' = c ∧ n = S L) ∨ lv !! t' = Some n.
Proof using All. intros [[-> ->]|[_ ?]]%lookup_insert_Some; auto. Qed.

Lemma fresh_link t' n i' c' :
  <[c := S L]> lv !! t' = Some (S (S n)) → child base v' t' i' = Some c' →
  (t' = t ∧ i' = i ∧ c' = c ∧ n = L) ∨ (lv !! t' = Some (S (S n)) ∧ child base v t' i' = Some c').
Proof using All.
  intros Hn Hch. destruct (fresh_children _ _ _ Hch) as [(-> & -> & ->)|[Hne Hch']].
  - left. destruct (fresh_level _ _ Ht) as [E _]. rewrite Hn in E. injection E as ->. done.
  - right. split; [|done]. by destruct (fresh_level_inv _ _ Hn) as [[-> _]|?].
Qed.

Lemma fresh_not_child t' i' n : lv !! t' = Some (S (S n)) → child base v t' i' ≠ Some c.
Proof using All. intros Hn E. apply Hc, elem_of_dom. destruct (to_child _ _ _ _ H _ _ _ _ Hn E) as [? _]. eauto. Qed.

Lemma fresh_ok : tables_ok base v' k (<[c := S L]> lv).
Proof using All.
  destruct fresh_slots as (Hs & Hz & Ho).
  destruct (link_entry c att Hcr Hatt Hodd) as (Hu & Hp & Hm & He).
  pose proof (to_level _ _ _ _ H t _ Ht) as HL.
  assert (Htd : t ∈ dom lv) by (apply elem_of_dom; eauto).
  destruct (table_of base v k lv H t Htd) as (l' & Hl' & Hlen & Hlu). rewrite Hl in Hl'. injection Hl' as <-.
  destruct Hbm as [[M1 M2] M3]. split.
  - rewrite Hp', !length_insert. apply H.
  - rewrite Hp'. apply Forall_insert; [apply Forall_insert; [apply H|]|].
    + split; [apply length_replicate|]. apply Forall_replicate. by vm_compute.
    + split; [by rewrite length_insert|]. by apply Forall_insert.
  - by rewrite Hb'.
  - intros t' Ht' Hl''. rewrite Hb'. by apply M3.
  - intros t'. rewrite dom_insert_or. intros [->|Ht']; [done|by apply H].
  - intros t' n [[-> ->]|E]%fresh_level_inv; [lia|by eapply H].
  - intros t' n i' c' Hn Hch. destruct (fresh_link _ _ _ _ Hn Hch) as [(-> & -> & -> & ->)|[Hn' Hch']].
    + rewrite lookup_insert_eq. by rewrite Hs.
    + destruct (to_child _ _ _ _ H _ _ _ _ Hn' Hch') as [Hc' Ea].
      destruct (fresh_level _ _ Hn') as [_ Hne]. split; [by apply fresh_level|].
      rewrite Ho; [done|done|]. intros [= -> ->]. by rewrite Hnone in Hch'.
  - intros t1 t2 n i1 i2 c' H1 H2 C1 C2.
    destruct (fresh_link _ _ _ _ H1 C1) as [(-> & -> & -> & ->)|[H1' C1']],
      (fresh_link _ _ _ _ H2 C2) as [(-> & -> & E & ?)|[H2' C2']].
    + split; [done|by left].
    + by destruct (fresh_not_child t2 i2 L H2').
    + subst c'. by destruct (fresh_not_child t1 i1 n H1').
    + by apply (to_unique _ _ _ _ H t1 t2 n i1 i2 c').
  - apply fresh_level. apply H.
  - intros i' c' Hch. destruct (fresh_children _ _ _ Hch) as [(E & -> & _)|[_ Hch']]; [by apply Hk|].
    by apply (to_kernel _ _ _ _ H i' c').
Qed.

(** The walk does not see an empty table. *)
Lemma fresh_translate n : ∀ t' va, lv !! t' = Some n → translate base n v' t' va = translate base n v t' va.
Proof using All.
  destruct fresh_slots as (Hs & Hz & Ho).
  assert (Hempty : ∀ n va, translate base n v' c va = None).
  { intros [|[|m]] va; unfold translate; simpl; [done|by rewrite Hz|].
    by rewrite (child_zero _ _ _ (Hz _)). }
  induction n as [|[|m] IH]; intros t' va Hn; [done|..].
  - unfold translate. simpl. assert (Hpair : (t', idx 1 va) ≠ (t, i)) by (intros [= -> _]; congruence).
    by rewrite (Ho t' (idx 1 va) (proj2 (fresh_level _ _ Hn)) Hpair).
  - assert (Hstep : ∀ w, translate base (S (S m)) w t' va =
      match child base w t' (idx (S (S m)) va) with Some c' => translate base (S m) w c' va | None => None end).
    { intros w. unfold translate. cbn [leaf]. by destruct (child base w t' (idx (S (S m)) va)). }
    rewrite !Hstep. destruct (child base v' t' (idx (S (S m)) va)) as [c'|] eqn:Ec.
    + destruct (fresh_children _ _ _ Ec) as [(-> & E & ->)|[_ Ec']].
      * rewrite Hempty. by rewrite E, Hnone.
      * rewrite Ec'. apply IH. by destruct (to_child _ _ _ _ H _ _ _ _ Hn Ec').
    + destruct (child base v t' (idx (S (S m)) va)) as [c'|] eqn:Ec'; [|done].
      rewrite (fresh_keeps _ _ _ (proj2 (fresh_level _ _ Hn)) Ec') in Ec. done.
Qed.
End fresh.

(** ** One level of [vm_map] *)

(** In [v'], slot [i] of table [t] leads to [c], and nothing else has changed for
    the tables of [lv]. *)
Record linked v v' k lv lv' (t L i c : nat) : Prop := {
  lk_ok : tables_ok base v' k lv';
  lk_sub : lv ⊆ lv';
  lk_level : lv' !! c = Some (S L);
  lk_child : child base v' t i = Some c;
  lk_globals : same_globals v v';
  lk_translate : ∀ n t' va, lv !! t' = Some n → translate base n v' t' va = translate base n v t' va;
  lk_keeps : ∀ t' i' c', t' ∈ dom lv → child base v t' i' = Some c' → child base v' t' i' = Some c';
  lk_others : ∀ t' i', t' ∈ dom lv → (t', i') ≠ (t, i) → child base v' t' i' = child base v t' i';
  lk_new : (child base v t i = Some c ∧ size lv' = size lv ∧ v' = v) ∨
    (child base v t i = None ∧ c ∉ dom lv ∧ size lv' = S (size lv) ∧ ∀ j, child base v' c j = None)
}.

(** The code of one level: [p] is the pointer found in slot [i] of [t]. *)
Definition level_step (p t i att : Z) v : outcome (Z * vm64) :=
  if p =? 0 then
    let* '(p, v) := vmm_new_pagetable base v in
    let* v := vmm_cleartable base p v in
    let* v := vmm_install_ptable base t i p att v in
    Done (p, v)
  else Done (p, v).

Lemma addr_pos (c : nat) : 0 < addr c.
Proof using Hbase. destruct Hbase. unfold table_addr. lia. Qed.

Lemma tables_marks v k lv : tables_ok base v k lv → map_marks (pt_bitmap v) lv.
Proof using. intros H. split; apply H. Qed.

Lemma level_step_spec v k lv (t L i : nat) att :
  tables_ok base v k lv → lv !! t = Some (S (S L)) → (i < 512)%nat → 0 ≤ att < 4096 → Z.odd att = true →
  (t = k → (i < 256)%nat) → (child base v t i = None → (size lv < 512)%nat) →
  returns (level_step (present_table (slot v t i)) (addr t) (Z.of_nat i) att v) (λ '(p, v'), ∃ c lv',
    p = addr c ∧ linked v v' k lv lv' t L i c).
Proof using Hbase.
  intros H Ht Hi Hatt Hodd Hk Hfree. unfold level_step. rewrite (present_table_child base v k lv H t i L Ht).
  pose proof (addr_pos) as Hpos. destruct (child base v t i) as [c|] eqn:Ec.
  { pose proof (Hpos c). destruct (Z.eqb_spec (addr c) 0); [lia|]. cbn [returns]. exists c, lv. split; [done|].
    destruct (to_child _ _ _ _ H t L i c Ht Ec) as [Hc _].
    split; try done. by left. }
  cbn [Z.eqb]. apply returns_bind.
  eapply returns_mono; [apply (new_pagetable_marks v lv); [by eapply tables_marks|by apply Hfree]|].
  intros [p v1] (c & bm' & -> & -> & Hc & Hcr & Hcl & Hmm).
  assert (Htd : t ∈ dom lv) by (apply elem_of_dom; eauto).
  destruct (table_of base v k lv H t Htd) as (l & Hl & Hlen & _). assert (Hne : t ≠ c) by (by intros ->).
  unfold vmm_cleartable. pose proof (Hpos c). destruct (Z.eqb_spec (addr c) 0); [lia|].
  assert (Hpl : length (pt_pool (set_ptmap bm' v)) = 1024%nat) by (destruct v; apply H).
  rewrite store_table_addr by (by rewrite Hpl). cbn [outcome_bind]. unfold vmm_install_ptable.
  rewrite (write_entry_addr base _ t i l); [|destruct v; simpl; by rewrite list_lookup_insert_ne|by rewrite Hlen].
  cbn [outcome_bind returns]. eexists c, (<[c := S L]> lv). split; [done|].
  match goal with |- linked _ ?w _ _ _ _ _ _ _ => set (v' := w) end.
  assert (Hp' : pt_pool v' = <[t := <[i := Z.lor (addr c) att]> l]> (<[c := replicate 512 0]> (pt_pool v)))
    by (by destruct v).
  assert (Hb' : pt_bitmap v' = bm') by (by destruct v).
  pose proof (fresh_slots v k lv H t L i c Ht Hi Ec Hc Hcr Hcl Hk att Hatt Hodd v' bm' (Hmm (S L)) Hb' l Hl Hp') as (Hs & Hz & Ho).
  split.
  - by apply (fresh_ok v k lv H t L i c Ht Hi Ec Hc Hcr Hcl Hk att Hatt Hodd v' bm' (Hmm (S L)) Hb' l Hl Hp').
  - apply insert_subseteq. by apply not_elem_of_dom.
  - apply lookup_insert_eq.
  - by apply (fresh_child v k lv H t L i c Ht Hi Ec Hc Hcr Hcl Hk att Hatt Hodd v' bm' (Hmm (S L)) Hb' l Hl Hp').
  - by destruct v.
  - intros m t' va Hn.
    by apply (fresh_translate v k lv H t L i c Ht Hi Ec Hc Hcr Hcl Hk att Hatt Hodd v' bm' (Hmm (S L)) Hb' l Hl Hp').
  - intros t' i' c' Ht' E.
    apply (fresh_keeps v k lv H t L i c Ht Hi Ec Hc Hcr Hcl Hk att Hatt Hodd v' bm' (Hmm (S L)) Hb' l Hl Hp'); [|done].
    by intros ->.
  - intros t' i' Ht' Hpair. apply child_slot, Ho; [by intros ->|done].
  - right. split_and!; [done|done|apply map_size_insert_None; by apply not_elem_of_dom|]. intros j. by apply child_zero.
Qed.

(** ** The entry of the page *)
Section page.
Context v k lv (H : tables_ok base v k lv) (pt : nat) (Hpt : lv !! pt = Some 1%nat).
Context (i : nat) (Hi : (i < 512)%nat) (e : Z) (He : is_u64 e) (Hpe : present e = true).

Lemma write_page :
  ∃ v', write_entry base (addr pt) (Z.of_nat i) e v = Done v' ∧ tables_ok base v' k lv ∧ same_globals v v' ∧
    slot v' pt i = e ∧ ∀ t' i', (t', i') ≠ (pt, i) → slot v' t' i' = slot v t' i'.
Proof using H Hpt Hi He.
  assert (Hd : pt ∈ dom lv) by (apply elem_of_dom; eauto).
  destruct (table_of base v k lv H pt Hd) as (l & Hl & Hlen & Hlu). eexists. split.
  { apply write_entry_addr; [done|by rewrite Hlen]. }
  match goal with |- tables_ok _ ?w _ _ ∧ _ => set (v' := w) end.
  assert (Hp' : pt_pool v' = <[pt := <[i := e]> l]> (pt_pool v)) by (by destruct v).
  destruct (slot_write v v' pt l i e Hl ltac:(by rewrite Hlen) Hp') as [Hs Ho].
  assert (Hch : ∀ t n i', lv !! t = Some (S (S n)) → child base v' t i' = child base v t i').
  { intros t n i' Hn. apply child_slot, Ho. intros [= -> _]. by rewrite Hpt in Hn. }
  assert (Hb : pt_bitmap v' = pt_bitmap v) by (by destruct v).
  split_and!; [|by destruct v|done|done]. destruct H as [T1 T2 T3 T4 T5 T6 T7 T8 T9 T10]. split.
  - by rewrite Hp', length_insert.
  - rewrite Hp'. apply Forall_insert; [done|]. split; [by rewrite length_insert|]. by apply Forall_insert.
  - by rewrite Hb.
  - intros t Ht Hlow. rewrite Hb. by apply T4.
  - done.
  - done.
  - intros t n i' c Hn Hc. rewrite (Hch t n i' Hn) in Hc. destruct (T7 t n i' c Hn Hc) as [E1 E2].
    split; [done|]. rewrite Ho; [done|]. intros [= -> _]. by rewrite Hpt in Hn.
  - intros t1 t2 n i1 i2 c H1 H2 C1 C2. rewrite (Hch _ _ _ H1) in C1. rewrite (Hch _ _ _ H2) in C2.
    by apply (T8 t1 t2 n i1 i2 c).
  - done.
  - intros i' c Hc. rewrite (Hch k 2%nat i' T9) in Hc. by apply (T10 i' c).
Qed.
End page.

(** Which addresses of which address spaces a page table serves. *)
Lemma leaf_four v t va pt :
  leaf base 4 v t va = Some pt ↔ ∃ pdp pdir, child base v t (idx 4 va) = Some pdp ∧
    child base v pdp (idx 3 va) = Some pdir ∧ child base v pdir (idx 2 va) = Some pt.
Proof using.
  cbn [leaf]. split.
  - destruct (child base v t (idx 4 va)) as [pdp|]; [|done].
    destruct (child base v pdp (idx 3 va)) as [pdir|] eqn:E; [|done].
    destruct (child base v pdir (idx 2 va)) as [c|] eqn:E2; [|done]. intros [= ->]. by exists pdp, pdir.
  - by intros (pdp & pdir & -> & -> & ->).
Qed.

Lemma leaf_same v k lv t t' va va' pdp pdir pt :
  tables_ok base v k lv → lv !! t = Some 4%nat → lv !! t' = Some 4%nat →
  child base v t (idx 4 va) = Some pdp → child base v pdp (idx 3 va) = Some pdir →
  child base v pdir (idx 2 va) = Some pt →
  leaf base 4 v t' va' = Some pt ↔
    idx 2 va = idx 2 va' ∧ idx 3 va = idx 3 va' ∧ idx 4 va = idx 4 va' ∧ child base v t' (idx 4 va) = Some pdp.
Proof using.
  intros H Ht Ht' C4 C3 C2. rewrite leaf_four. split.
  - intros (pdp' & pdir' & D4 & D3 & D2).
    destruct (to_child _ _ _ _ H t 2 _ _ Ht C4) as [L3 _]. destruct (to_child _ _ _ _ H pdp 1 _ _ L3 C3) as [L2 _].
    destruct (to_child _ _ _ _ H t' 2 _ _ Ht' D4) as [M3 _]. destruct (to_child _ _ _ _ H pdp' 1 _ _ M3 D3) as [M2 _].
    destruct (to_unique _ _ _ _ H pdir pdir' 0 _ _ _ L2 M2 C2 D2) as [-> [->|[? _]]]; [|done].
    destruct (to_unique _ _ _ _ H pdp pdp' 1 _ _ _ L3 M3 C3 D3) as [-> [->|[? _]]]; [|done].
    destruct (to_unique _ _ _ _ H t t' 2 _ _ _ Ht Ht' C4 D4) as [-> _]. done.
  - intros (E2 & E3 & E4 & C). exists pdp, pdir. by rewrite <- E4, <- E3, <- E2.
Qed.
End map.
