(* ===== verification/X86Space.v ===== *)
(** * Address spaces on x86-64

    [vm_map] as the insertion of a page in an address space, the creation of
    address spaces, and the identity mapping of the kernel. *)

From S2P Require Import Prelude Libc PhysMem X86Bits X86Phys X86Paging X86Map.

Section space.
Context (base : Z) (Hbase : 0 < base ∧ base mod 4096 = 0 ∧ base < 2 ^ 51).
Implicit Types (v : vm64) (lv : gmap nat nat).

Notation addr t := (table_addr base (Z.of_nat t)).

(** ** The walk depends on the tables only *)
Lemma slot_same v v' t i : pt_pool v' = pt_pool v → slot v' t i = slot v t i.
Proof using. unfold slot. by intros ->. Qed.

Lemma child_same v v' t i : pt_pool v' = pt_pool v → child base v' t i = child base v t i.
Proof using. intros E. apply child_slot. by apply slot_same. Qed.

Lemma missing_same v v' t va : pt_pool v' = pt_pool v → missing base v' t va = missing base v t va.
Proof using.
  intros E. unfold missing. rewrite (child_same v v') by done. destruct (child base v t _) as [a|]; [|done].
  rewrite (child_same v v') by done. destruct (child base v a _) as [b|]; [|done].
  by rewrite (child_same v v').
Qed.

Lemma leaf_pool n v v' : pt_pool v' = pt_pool v → ∀ t va, leaf base n v' t va = leaf base n v t va.
Proof using.
  intros E. induction n as [|[|m] IH]; intros t va; [done..|]. cbn [leaf]. cbn [leaf] in IH.
  rewrite (child_same v v') by done. destruct (child base v t _); [apply IH|done].
Qed.

Lemma translate_pool n v v' t va : pt_pool v' = pt_pool v → translate base n v' t va = translate base n v t va.
Proof using.
  intros E. unfold translate. rewrite (leaf_pool n v v') by done. destruct (leaf base n v t va); [|done].
  by rewrite (slot_same v v').
Qed.

Lemma tables_ok_same v v' k lv :
  pt_pool v' = pt_pool v → pt_bitmap v' = pt_bitmap v → tables_ok base v k lv → tables_ok base v' k lv.
Proof using.
  intros Ep Eb [T1 T2 T3 T4 T5 T6 T7 T8 T9 T10]. split; rewrite ?Ep, ?Eb; try done.
  - intros t L i c. rewrite (child_same v v'), (slot_same v v') by done. apply T7.
  - intros t1 t2 L i1 i2 c. rewrite !(child_same v v') by done. apply T8.
  - intros i c. rewrite (child_same v v') by done. apply T10.
Qed.

Lemma lock_pool b v : pt_pool (set_vm_lock b v) = pt_pool v ∧ pt_bitmap (set_vm_lock b v) = pt_bitmap v.
Proof using. by destruct v. Qed.

(** ** Mapping a page *)

(** Two address spaces share the tables for an address. *)
Definition shares v (t t' : nat) (va : Z) : Prop :=
  t' = t ∨ ∃ c, child base v t (idx 4 va) = Some c ∧ child base v t' (idx 4 va) = Some c.

(** [v'] is [v] with the page of [va] mapped by entry [e] in the address space
    [t] and those that share its tables. *)
Record maps v v' k lv lv' (t : nat) (va e : Z) : Prop := {
  mp_ok : tables_ok base v' k lv';
  mp_sub : lv ⊆ lv';
  mp_size : size lv' = (size lv + missing base v t va)%nat;
  mp_globals : same_globals v v';
  mp_here : ∀ t' va', lv !! t' = Some 4%nat → vpage va' = vpage va → shares v t t' va →
    translate base 4 v' t' va' = Some e;
  mp_others : ∀ t' va', lv !! t' = Some 4%nat → ¬ (vpage va' = vpage va ∧ shares v t t' va) →
    translate base 4 v' t' va' = translate base 4 v t' va';
  mp_leaf : is_Some (leaf base 4 v' t va);
  mp_keeps : ∀ t' va', lv !! t' = Some 4%nat → is_Some (leaf base 4 v t' va') → is_Some (leaf base 4 v' t' va')
}.

Section three_levels.
Context (v0 v1 v2 v3 : vm64) (k : nat) (lv0 lv1 lv2 lv3 : gmap nat nat) (t pdp pdir pt : nat) (va : Z).
Context (H0 : tables_ok base v0 k lv0) (Ht : lv0 !! t = Some 4%nat).
Context (K1 : linked base v0 v1 k lv0 lv1 t 2 (idx 4 va) pdp).
Context (K2 : linked base v1 v2 k lv1 lv2 pdp 1 (idx 3 va) pdir).
Context (K3 : linked base v2 v3 k lv2 lv3 pdir 0 (idx 2 va) pt).

Lemma levels_sub : lv0 ⊆ lv1 ∧ lv1 ⊆ lv2 ∧ lv2 ⊆ lv3.
Proof using K1 K2 K3. split_and!; [apply K1|apply K2|apply K3]. Qed.

Lemma level_in n lv lv' (u : nat) : lv ⊆ lv' → lv !! u = Some n → lv' !! u = Some n ∧ u ∈ dom lv'.
Proof using. intros Hs Hu. assert (lv' !! u = Some n) by (by eapply lookup_weaken). split; [done|]. apply elem_of_dom. eauto. Qed.

(** The path of the address after the three steps. *)
Lemma three_path :
  child base v3 t (idx 4 va) = Some pdp ∧ child base v3 pdp (idx 3 va) = Some pdir ∧
  child base v3 pdir (idx 2 va) = Some pt.
Proof using K1 K2 K3 Ht.
  destruct levels_sub as (S1 & S2 & S3). destruct (level_in _ _ _ _ S1 Ht) as [E1 D1].
  destruct (level_in _ _ _ _ S2 E1) as [E2 D2]. destruct (level_in _ _ _ _ S2 (lk_level _ _ _ _ _ _ _ _ _ _ K1)) as [P2 PD2].
  split_and!; [|apply (lk_keeps _ _ _ _ _ _ _ _ _ _ K3); [done|apply K2]|apply K3].
  apply (lk_keeps _ _ _ _ _ _ _ _ _ _ K3); [done|]. apply (lk_keeps _ _ _ _ _ _ _ _ _ _ K2); [done|]. apply K1.
Qed.

(** The other roots still have their tables. *)
Lemma three_root t' i : lv0 !! t' = Some 4%nat → (t', i) ≠ (t, idx 4 va) → child base v3 t' i = child base v0 t' i.
Proof using K1 K2 K3.
  intros Ht' Hne. destruct levels_sub as (S1 & S2 & S3). destruct (level_in _ _ _ _ S1 Ht') as [E1 D1].
  destruct (level_in _ _ _ _ S2 E1) as [E2 D2].
  rewrite (lk_others _ _ _ _ _ _ _ _ _ _ K3) by (done || (intros [= -> _]; pose proof (lk_level _ _ _ _ _ _ _ _ _ _ K2); congruence)).
  rewrite (lk_others _ _ _ _ _ _ _ _ _ _ K2) by (done || (intros [= -> _]; pose proof (lk_level _ _ _ _ _ _ _ _ _ _ K1); congruence)).
  apply (lk_others _ _ _ _ _ _ _ _ _ _ K1); [apply elem_of_dom; eauto|done].
Qed.

Lemma three_shares t' : lv0 !! t' = Some 4%nat → child base v3 t' (idx 4 va) = Some pdp ↔ shares v0 t t' va.
Proof using H0 K1 K2 K3 Ht.
  intros Ht'. unfold shares. destruct (decide (t' = t)) as [->|Hne].
  { split; [by left|]. intros _. apply three_path. }
  rewrite three_root by (done || congruence). split.
  - intros E. right. exists pdp. split; [|done].
    destruct (lk_new _ _ _ _ _ _ _ _ _ _ K1) as [(Ec & _)|(_ & Hn & _)]; [done|].
    exfalso. apply Hn, elem_of_dom. destruct (to_child _ _ _ _ H0 _ _ _ _ Ht' E). eauto.
  - intros [?|(c & E1 & E2)]; [done|]. rewrite E2. f_equal.
    apply (lk_keeps _ _ _ _ _ _ _ _ _ _ K1) in E1; [|apply elem_of_dom; eauto].
    pose proof (lk_child _ _ _ _ _ _ _ _ _ _ K1). congruence.
Qed.

Lemma three_translate n t' va' : lv0 !! t' = Some n → translate base n v3 t' va' = translate base n v0 t' va'.
Proof using K1 K2 K3.
  intros Ht'. destruct levels_sub as (S1 & S2 & S3). destruct (level_in _ _ _ _ S1 Ht') as [E1 _].
  destruct (level_in _ _ _ _ S2 E1) as [E2 _].
  rewrite (lk_translate _ _ _ _ _ _ _ _ _ _ K3) by done. rewrite (lk_translate _ _ _ _ _ _ _ _ _ _ K2) by done.
  by apply (lk_translate _ _ _ _ _ _ _ _ _ _ K1).
Qed.

(** Links survive, so every page table still serves its addresses. *)
Lemma three_keeps u n i c : lv0 !! u = Some n → child base v0 u i = Some c → child base v3 u i = Some c.
Proof using K1 K2 K3.
  intros Hu Hc. destruct levels_sub as (S1 & S2 & S3). destruct (level_in _ _ _ _ S1 Hu) as [E1 D1].
  destruct (level_in _ _ _ _ S2 E1) as [E2 D2].
  apply (lk_keeps _ _ _ _ _ _ _ _ _ _ K3); [done|]. apply (lk_keeps _ _ _ _ _ _ _ _ _ _ K2); [done|].
  apply (lk_keeps _ _ _ _ _ _ _ _ _ _ K1); [apply elem_of_dom; eauto|done].
Qed.

Lemma three_leaf t' va' : lv0 !! t' = Some 4%nat → is_Some (leaf base 4 v0 t' va') → is_Some (leaf base 4 v3 t' va').
Proof using H0 K1 K2 K3.
  intros Ht' [p Hp]. apply leaf_four in Hp as (a & b & C4 & C3 & C2). exists p. apply leaf_four. exists a, b.
  destruct (to_child _ _ _ _ H0 t' 2 _ _ Ht' C4) as [L3 _]. destruct (to_child _ _ _ _ H0 a 1 _ _ L3 C3) as [L2 _].
  split_and!; by eapply three_keeps.
Qed.

Lemma three_size : size lv3 = (size lv0 + missing base v0 t va)%nat.
Proof using K1 K2 K3.
  unfold missing.
  destruct (lk_new _ _ _ _ _ _ _ _ _ _ K1) as [(-> & E1 & ->)|(-> & _ & E1 & Z1)],
    (lk_new _ _ _ _ _ _ _ _ _ _ K2) as [(C2 & E2 & ->)|(C2 & _ & E2 & Z2)],
    (lk_new _ _ _ _ _ _ _ _ _ _ K3) as [(C3 & E3 & ->)|(C3 & _ & E3 & _)]; rewrite ?C2, ?C3; try lia;
    exfalso; first [by rewrite Z1 in C2|by rewrite Z2 in C3].
Qed.
End three_levels.

(** The last step: writing the entry in the page table that was reached. *)
Lemma vm_map_finish v v0 v1 v2 v3 v4 k lv lv1 lv2 lv3 (t pdp pdir pt : nat) va e :
  v0 = set_vm_lock true v → vm_lock v = false →
  tables_ok base v0 k lv → lv !! t = Some 4%nat →
  linked base v0 v1 k lv lv1 t 2 (idx 4 va) pdp → linked base v1 v2 k lv1 lv2 pdp 1 (idx 3 va) pdir →
  linked base v2 v3 k lv2 lv3 pdir 0 (idx 2 va) pt →
  tables_ok base v4 k lv3 → same_globals v3 v4 → slot v4 pt (idx 1 va) = e → present e = true →
  (∀ t' i', (t', i') ≠ (pt, idx 1 va) → slot v4 t' i' = slot v3 t' i') →
  maps v (set_vm_lock false v4) k lv lv3 t va e.
Proof using Hbase.
  intros -> Hlk H0 Ht K1 K2 K3 H4 G4 Hs4 Hep Ho4. set (v0 := set_vm_lock true v) in *.
  destruct (lock_pool true v) as [Ep0 _]. destruct (lock_pool false v4) as [Ep4 Eb4]. fold v0 in Ep0.
  pose proof (lk_ok _ _ _ _ _ _ _ _ _ _ K3) as H3. pose proof (lk_level _ _ _ _ _ _ _ _ _ _ K3) as Hpt.
  destruct (three_path v0 v1 v2 v3 k lv lv1 lv2 lv3 t pdp pdir pt va Ht K1 K2 K3) as (C4 & C3 & C2).
  assert (Hch : ∀ u n i, lv3 !! u = Some (S (S n)) → child base v4 u i = child base v3 u i).
  { intros u n i Hu. apply child_slot, Ho4. intros [= -> _]. congruence. }
  assert (Hleaf : ∀ n u va', lv3 !! u = Some n → leaf base n v4 u va' = leaf base n v3 u va').
  { induction n as [|[|m] IH]; intros u va' Hu; [done..|]. cbn [leaf]. rewrite (Hch u m _ Hu).
    destruct (child base v3 u (idx (S (S m)) va')) as [c|] eqn:Ec; [|done]. apply IH.
    by destruct (to_child _ _ _ _ H3 _ _ _ _ Hu Ec). }
  assert (Hroot : ∀ t', lv !! t' = Some 4%nat → lv3 !! t' = Some 4%nat).
  { intros t' Ht'. destruct (levels_sub v0 v1 v2 v3 k lv lv1 lv2 lv3 t pdp pdir pt va K1 K2 K3) as (S1 & S2 & S3).
    eapply lookup_weaken; [|done]. eapply lookup_weaken; [|done]. by eapply lookup_weaken. }
  assert (Hsh : ∀ t' va', lv !! t' = Some 4%nat →
    leaf base 4 v3 t' va' = Some pt ∧ idx 1 va' = idx 1 va ↔ vpage va' = vpage va ∧ shares v t t' va).
  { intros t' va' Ht'. rewrite (leaf_same base v3 k lv3 t t' va va' pdp pdir pt H3 (Hroot t Ht) (Hroot t' Ht') C4 C3 C2).
    rewrite same_vpage, (three_shares v0 v1 v2 v3 k lv lv1 lv2 lv3 t pdp pdir pt va H0 Ht K1 K2 K3 t' Ht').
    unfold shares. repeat setoid_rewrite (child_same v v0 _ _ Ep0). intuition congruence. }
  assert (Htr0 : ∀ t' va', lv !! t' = Some 4%nat → translate base 4 v3 t' va' = translate base 4 v t' va').
  { intros t' va' Ht'.
    rewrite (three_translate v0 v1 v2 v3 k lv lv1 lv2 lv3 t pdp pdir pt va K1 K2 K3 4 t' va' Ht').
    by apply translate_pool. }
  split.
  - by apply (tables_ok_same v4).
  - destruct (levels_sub v0 v1 v2 v3 k lv lv1 lv2 lv3 t pdp pdir pt va K1 K2 K3) as (S1 & S2 & S3).
    etrans; [done|]. by etrans.
  - rewrite (three_size v0 v1 v2 v3 k lv lv1 lv2 lv3 t pdp pdir pt va K1 K2 K3). f_equal.
    by apply missing_same.
  - destruct (lk_globals _ _ _ _ _ _ _ _ _ _ K1) as (A1 & A2 & A3 & A4),
      (lk_globals _ _ _ _ _ _ _ _ _ _ K2) as (B1 & B2 & B3 & B4),
      (lk_globals _ _ _ _ _ _ _ _ _ _ K3) as (D1 & D2 & D3 & D4), G4 as (E1 & E2 & E3 & E4).
    unfold same_globals. destruct v, v4. simpl in *. split_and!; congruence.
  - intros t' va' Ht' Hpage Hshare. rewrite (translate_pool 4 v4) by done. unfold translate.
    rewrite Hleaf by (by apply Hroot). destruct (proj2 (Hsh t' va' Ht') (conj Hpage Hshare)) as [-> ->].
    by rewrite Hs4, Hep.
  - intros t' va' Ht' Hnot. rewrite (translate_pool 4 v4) by done. rewrite <- (Htr0 t' va' Ht').
    unfold translate. rewrite Hleaf by (by apply Hroot).
    destruct (leaf base 4 v3 t' va') as [q|] eqn:El; [|done].
    rewrite Ho4; [done|]. intros [= -> E]. apply Hnot, Hsh; [done|]. by rewrite El.
  - rewrite (leaf_pool 4 v4) by done. rewrite Hleaf by (by apply Hroot). exists pt. apply leaf_four. eauto.
  - intros t' va' Ht' Hl. rewrite (leaf_pool 4 v4) by done. rewrite Hleaf by (by apply Hroot).
    apply (three_leaf v0 v1 v2 v3 k lv lv1 lv2 lv3 t pdp pdir pt va H0 K1 K2 K3 t' va' Ht').
    by rewrite (leaf_pool 4 v) by done.
Qed.

(** The entry that [vm_map] writes. *)
Definition page_entry (physaddr flags : Z) : Z := Z.lor physaddr (Z.lor 3 flags).

Lemma page_entry_ok physaddr flags :
  0 ≤ physaddr < 2 ^ 64 → 0 ≤ flags < 4096 →
  page_entry physaddr flags = Z.lor physaddr (attributes flags) ∧
  is_u64 (page_entry physaddr flags) ∧ present (page_entry physaddr flags) = true.
Proof using.
  intros Hp Hf. destruct (attributes_spec flags Hf) as (E & Hb & Ho). unfold page_entry. rewrite <- E.
  split_and!; [done|apply lor_u64; unfold is_u64; lia|].
  rewrite present_odd, <- Z.bit0_odd, Z.lor_spec. rewrite <- Z.bit0_odd in Ho. rewrite Ho. apply orb_true_r.
Qed.

Lemma vm_map64_spec v k lv (t : nat) physaddr va flags :
  tables_ok base v k lv → vm_lock v = false → lv !! t = Some 4%nat → (t = k → (idx 4 va < 256)%nat) →
  (size lv + missing base v t va ≤ 512)%nat → 0 ≤ physaddr < 2 ^ 64 → 0 ≤ flags < 4096 →
  returns (vm_map64 base (addr t) physaddr va flags v) (λ v', ∃ lv',
    maps v v' k lv lv' t va (page_entry physaddr flags)).
Proof using Hbase.
  intros H Hlk Ht Hk Hfree Hphys Hfl. destruct (attributes_spec flags Hfl) as (_ & Hatt & Hodd).
  destruct (page_entry_ok physaddr flags Hphys Hfl) as (Ee & He64 & Hep).
  unfold vm_map64. rewrite Hlk. cbv zeta. fold (attributes flags). set (att := attributes flags) in *.
  set (v0 := set_vm_lock true v). destruct (lock_pool true v) as [Ep0 Eb0]. fold v0 in Ep0, Eb0.
  assert (H0 : tables_ok base v0 k lv) by (by apply (tables_ok_same v)).
  assert (Hm0 : missing base v0 t va = missing base v t va) by (by apply missing_same).
  unfold vmm_getpdp, VMM_INDEX_PML4. change 39 with (3 + 9 * Z.of_nat 4).
  rewrite (get_table base v0 k lv H0 t (idx 4 va)); [|apply elem_of_dom; eauto|apply index_idx|apply idx_bound].
  cbn [outcome_bind]. rewrite index_idx. set (p4 := present_table (slot v0 t (idx 4 va))).
  match goal with |- returns (outcome_bind _ ?m) _ => change m with (level_step base p4 (addr t) (Z.of_nat (idx 4 va)) att v0) end.
  apply returns_bind. eapply returns_mono; [apply (level_step_spec base Hbase v0 k lv t 2 (idx 4 va) att); try done|].
  { apply idx_bound. }
  { intros E. rewrite <- Hm0 in Hfree. unfold missing in Hfree. rewrite E in Hfree. lia. }
  intros [p v1] (pdp & lv1 & -> & K1). pose proof (lk_ok _ _ _ _ _ _ _ _ _ _ K1) as H1.
  pose proof (lk_level _ _ _ _ _ _ _ _ _ _ K1) as Hpdp.
  assert (Hnk1 : pdp = k → (idx 3 va < 256)%nat)
    by (intros ->; pose proof (to_root _ _ _ _ H1) as Hr; by rewrite Hr in Hpdp).
  unfold vmm_getpdir, VMM_INDEX_PDP. change 30 with (3 + 9 * Z.of_nat 3).
  rewrite (get_table base v1 k lv1 H1 pdp (idx 3 va)); [|apply elem_of_dom; eauto|apply index_idx|apply idx_bound].
  cbn [outcome_bind]. rewrite index_idx. set (p3 := present_table (slot v1 pdp (idx 3 va))).
  match goal with |- returns (outcome_bind _ ?m) _ => change m with (level_step base p3 (addr pdp) (Z.of_nat (idx 3 va)) att v1) end.
  apply returns_bind. eapply returns_mono; [apply (level_step_spec base Hbase v1 k lv1 pdp 1 (idx 3 va) att); try done|].
  { apply idx_bound. }
  { intros E. rewrite <- Hm0 in Hfree. unfold missing in Hfree.
    destruct (lk_new _ _ _ _ _ _ _ _ _ _ K1) as [(C & S & ->)|(C & _ & S & _)]; rewrite C in Hfree; [rewrite E in Hfree|]; lia. }
  intros [p v2] (pdir & lv2 & -> & K2). pose proof (lk_ok _ _ _ _ _ _ _ _ _ _ K2) as H2.
  pose proof (lk_level _ _ _ _ _ _ _ _ _ _ K2) as Hpdir.
  assert (Hnk2 : pdir = k → (idx 2 va < 256)%nat)
    by (intros ->; pose proof (to_root _ _ _ _ H2) as Hr; by rewrite Hr in Hpdir).
  unfold vmm_getptable, VMM_INDEX_PDIR. change 21 with (3 + 9 * Z.of_nat 2).
  rewrite (get_table base v2 k lv2 H2 pdir (idx 2 va)); [|apply elem_of_dom; eauto|apply index_idx|apply idx_bound].
  cbn [outcome_bind]. rewrite index_idx. set (p2 := present_table (slot v2 pdir (idx 2 va))).
  match goal with |- returns (outcome_bind _ ?m) _ => change m with (level_step base p2 (addr pdir) (Z.of_nat (idx 2 va)) att v2) end.
  apply returns_bind. eapply returns_mono; [apply (level_step_spec base Hbase v2 k lv2 pdir 0 (idx 2 va) att); try done|].
  { apply idx_bound. }
  { intros E. rewrite <- Hm0 in Hfree. unfold missing in Hfree.
    destruct (lk_new _ _ _ _ _ _ _ _ _ _ K1) as [(C & S & E1)|(C & _ & S & Z1)],
      (lk_new _ _ _ _ _ _ _ _ _ _ K2) as [(C2 & S2 & E2)|(C2 & _ & S2 & Z2)]; rewrite C in Hfree; try lia.
    - subst v2 v1. rewrite C2, E in Hfree. lia.
    - subst v1. rewrite C2 in Hfree. lia. }
  intros [p v3] (pt & lv3 & -> & K3). pose proof (lk_ok _ _ _ _ _ _ _ _ _ _ K3) as H3.
  pose proof (lk_level _ _ _ _ _ _ _ _ _ _ K3) as Hpt.
  unfold VMM_INDEX_PTABLE. change 12 with (3 + 9 * Z.of_nat 1). rewrite index_idx, <- Ee.
  destruct (write_page base v3 k lv3 H3 pt Hpt (idx 1 va) (idx_bound 1 va) _ He64)
    as (v4 & -> & H4 & G4 & Hs4 & Ho4).
  cbn [outcome_bind returns]. exists lv3.
  apply (vm_map_finish v v0 v1 v2 v3 v4 k lv lv1 lv2 lv3 t pdp pdir pt va); done.
Qed.
End space.
