(* ===== verification/X86Kernel.v ===== *)
(** * The kernel's address space and the others on x86-64

    Start-up of the virtual memory, creation and destruction of address spaces,
    and kernel allocation. *)

From S2P Require Import Prelude Libc PhysMem X86Bits X86Phys X86Paging X86Map X86Space.

(** ** Raw memory and small addresses *)

(** A pool of tables and a bitmap, whatever they hold. *)
Record raw (v : vm64) : Prop := {
  rw_len : length (pt_pool v) = 1024%nat;
  rw_tables : Forall (λ t, length t = 512%nat ∧ Forall is_u64 t) (pt_pool v);
  rw_map : Forall is_u64 (pt_bitmap v) ∧ length (pt_bitmap v) = 16%nat
}.

Lemma unset_all (v : vm64) :
  Forall is_u64 (pt_bitmap v) ∧ length (pt_bitmap v) = 16%nat →
  returns (for_each 0 VM_PTP_SIZE ptmap_unsetbit v) (λ v', pt_pool v' = pt_pool v ∧ same_globals v v' ∧
    map_marks (pt_bitmap v') ∅).
Proof.
  intros [Hu Hl]. eapply returns_mono; [apply (for_each_inv (λ i v', pt_pool v' = pt_pool v ∧ same_globals v v' ∧
    Forall is_u64 (pt_bitmap v') ∧ length (pt_bitmap v') = 16%nat ∧
    ∀ q, 0 ≤ q < i → taken (pt_bitmap v') q = false))|].
  - by unfold VM_PTP_SIZE.
  - repeat split; try done. lia.
  - intros i v1 Hi (Ep & Hg & Hu1 & Hl1 & Ht1). unfold VM_PTP_SIZE in Hi. unfold ptmap_unsetbit. apply returns_bind.
    eapply returns_mono; [apply (map_unsetbit_spec _ Hu1 i); unfold in_map; lia|]. intros bm (Hlen & Hu2 & Htk).
    cbn [returns]. destruct v1. simpl in *. split_and!; [done|done|done|congruence|].
    intros q Hq. rewrite Htk by lia. destruct (decide (q = i)) as [->|Hne]; [by rewrite same_flag_refl, andb_false_r|].
    by rewrite Ht1 by lia.
  - intros v1 (Ep & Hg & Hu1 & Hl1 & Ht1). split_and!; [done|done|]. split; [done|]. intros t Ht _.
    unfold VM_PTP_SIZE in Ht1. rewrite Ht1 by lia. symmetry. apply bool_decide_eq_false. set_solver.
Qed.

(** Pages of the first 512 MB differ in the lower two levels only. *)
Lemma small_idx va : 0 ≤ va < 2 ^ 30 → idx 4 va = 0%nat ∧ idx 3 va = 0%nat ∧ Z.of_nat (idx 2 va) = va / 2 ^ 21.
Proof.
  intros Hva. pose proof (idx_div 4 va) as E4. pose proof (idx_div 3 va) as E3. pose proof (idx_div 2 va) as E2.
  change (3 + 9 * Z.of_nat 4) with 39 in E4. change (3 + 9 * Z.of_nat 3) with 30 in E3.
  change (3 + 9 * Z.of_nat 2) with 21 in E2.
  rewrite (Z.div_small va (2 ^ 39)) in E4 by lia. rewrite (Z.div_small va (2 ^ 30)) in E3 by lia.
  rewrite Z.mod_0_l in E3, E4 by lia. rewrite Z.mod_small in E2; [lia|].
  split; [apply Z.div_pos; lia|apply Z.div_lt_upper_bound; lia].
Qed.

Lemma vpage_small va : 0 ≤ va < 2 ^ 48 → vpage va = va / 4096.
Proof. intros Hva. unfold vpage. apply Z.mod_small. split; [apply Z.div_pos; lia|apply Z.div_lt_upper_bound; lia]. Qed.

Lemma identity_bound_page kernel_end stalloced :
  identity_bound kernel_end stalloced mod 4096 = 0.
Proof.
  unfold identity_bound, PMM_BLOCK_SIZE. set (b := u64 (kernel_end + stalloced)).
  pose proof (Z.mod_pos_bound b 4096 ltac:(lia)). pose proof (Z.div_mod b 4096 ltac:(lia)).
  destruct (Z.ltb_spec 0 (b mod 4096)); [|lia].
  replace (b + (4096 - b mod 4096)) with ((b / 4096 + 1) * 4096) by lia. by apply Z.mod_mul.
Qed.

Section kernel.
Context (base : Z) (Hbase : 0 < base ∧ base mod 4096 = 0 ∧ base < 2 ^ 51).
Implicit Types (v : vm64) (lv : gmap nat nat).

Notation addr t := (table_addr base (Z.of_nat t)).

(** ** Creating an address space *)

(** [v'] has the additional root [c] with the kernel's entries. *)
Record created v v' k lv (c : nat) : Prop := {
  cr_ok : tables_ok base v' k (<[c := 4%nat]> lv);
  cr_fresh : c ∉ dom lv;
  cr_globals : same_globals v v';
  cr_others : ∀ n t va, lv !! t = Some n → translate base n v' t va = translate base n v t va;
  cr_kernel : ∀ va, translate base 4 v' c va = translate base 4 v k va;
  cr_children : ∀ i, child base v' c i = child base v k i;
  cr_same : ∀ t i, t ∈ dom lv → child base v' t i = child base v t i
}.

Section copy.
Context v k lv (H : tables_ok base v k lv) (c : nat) (bm : list Z).
Context (Hc : c ∉ dom lv) (Hcr : (c < 1024)%nat) (Hcl : low (Z.of_nat c) = true).
Context (Hm : map_marks bm (<[c := 4%nat]> lv)) (l : list Z) (Hl : pt_pool v !! k = Some l).
Context (v' : vm64) (Hp : pt_pool v' = <[c := l]> (pt_pool v)) (Hb : pt_bitmap v' = bm) (Hg : same_globals v v').

Lemma copy_slots : (∀ i, slot v' c i = slot v k i) ∧ ∀ t i, t ≠ c → slot v' t i = slot v t i.
Proof using All.
  unfold slot. rewrite Hp. split.
  - intros i. rewrite list_lookup_insert_eq by (by rewrite (to_len _ _ _ _ H)). by rewrite Hl.
  - intros t i Hne. by rewrite list_lookup_insert_ne.
Qed.

Lemma copy_child t i : t ∈ dom lv → child base v' t i = child base v t i.
Proof using All. intros Ht. apply child_slot, copy_slots. by intros ->. Qed.

Lemma copy_level t n : <[c := 4%nat]> lv !! t = Some n → (t = c ∧ n = 4%nat) ∨ (lv !! t = Some n ∧ t ∈ dom lv).
Proof using All.
  intros [[-> ->]|[_ E]]%lookup_insert_Some; [by left|]. right. split; [done|]. apply elem_of_dom. eauto.
Qed.

(** A child of a table, seen as a child of a table of [v] of the same level. *)
Lemma copy_parent t L i d :
  <[c := 4%nat]> lv !! t = Some (S (S L)) → child base v' t i = Some d →
  ∃ u, lv !! u = Some (S (S L)) ∧ child base v u i = Some d ∧ slot v' t i = slot v u i ∧
    (t = u ∨ (t = c ∧ u = k)).
Proof using All.
  intros Hn E. destruct (copy_level _ _ Hn) as [[-> [= ->]]|[Hn' Ht]].
  - exists k. rewrite (child_slot base v v' _ _ _ _ (proj1 copy_slots i)) in E.
    split_and!; [apply H|done|apply copy_slots|by right].
  - exists t. rewrite copy_child in E by done. split_and!; [done|done|apply copy_slots; by intros ->|by left].
Qed.

Lemma copy_translate n t va : lv !! t = Some n → translate base n v' t va = translate base n v t va.
Proof using All.
  revert t va. induction n as [|[|m] IH]; intros t va Hn; [done|..].
  - unfold translate. simpl. rewrite (proj2 copy_slots); [done|]. intros ->. apply Hc, elem_of_dom. eauto.
  - assert (Hstep : ∀ w, translate base (S (S m)) w t va =
      match child base w t (idx (S (S m)) va) with Some d => translate base (S m) w d va | None => None end).
    { intros w. unfold translate. cbn [leaf]. by destruct (child base w t (idx (S (S m)) va)). }
    rewrite !Hstep, copy_child by (apply elem_of_dom; eauto).
    destruct (child base v t (idx (S (S m)) va)) as [d|] eqn:Ed; [|done]. apply IH.
    by destruct (to_child _ _ _ _ H _ _ _ _ Hn Ed).
Qed.

Lemma copy_ok : tables_ok base v' k (<[c := 4%nat]> lv).
Proof using All.
  assert (Hkd : k ∈ dom lv) by (apply elem_of_dom; exists 4%nat; apply H).
  assert (Hk : k ≠ c) by (by intros ->).
  destruct (table_of base v k lv H k Hkd) as (l' & Hl' & Hlen & Hlu). rewrite Hl in Hl'. injection Hl' as <-.
  destruct Hm as [[M1 M2] M3]. split.
  - rewrite Hp, length_insert. apply H.
  - rewrite Hp. apply Forall_insert; [apply H|done].
  - by rewrite Hb.
  - intros t Ht Hlow. rewrite Hb. by apply M3.
  - intros t. rewrite dom_insert_or. intros [->|Ht]; [done|by apply H].
  - intros t n Hn. destruct (copy_level _ _ Hn) as [[-> ->]|[E _]]; [lia|by eapply H].
  - intros t L i d Hn E. destruct (copy_parent _ _ _ _ Hn E) as (u & Hu & Ed & -> & _).
    destruct (to_child _ _ _ _ H _ _ _ _ Hu Ed) as [Hd Ea]. split; [|done].
    rewrite lookup_insert_ne; [done|]. intros ->. apply Hc, elem_of_dom. eauto.
  - intros t1 t2 L i1 i2 d H1 H2 C1 C2.
    destruct (copy_parent _ _ _ _ H1 C1) as (u1 & U1 & D1 & _ & S1).
    destruct (copy_parent _ _ _ _ H2 C2) as (u2 & U2 & D2 & _ & S2).
    destruct (to_unique _ _ _ _ H _ _ _ _ _ _ U1 U2 D1 D2) as [-> Hor]. split; [done|].
    pose proof (to_root _ _ _ _ H) as Hr.
    destruct S1 as [->|[-> ->]], S2 as [->|[-> ->]]; [done| | |by left].
    + right. rewrite Hr in U2. injection U2 as <-. split; [done|]. by apply (to_kernel _ _ _ _ H _ d).
    + right. rewrite Hr in U1. injection U1 as <-. split; [done|]. by apply (to_kernel _ _ _ _ H _ d).
  - rewrite lookup_insert_ne by done. apply H.
  - intros i d E. rewrite copy_child in E by done. by apply (to_kernel _ _ _ _ H i d).
Qed.

Lemma copy_created : created v v' k lv c.
Proof using All.
  assert (Hch : ∀ i, child base v' c i = child base v k i)
    by (intros i; apply child_slot, copy_slots).
  split; [apply copy_ok|done|done|apply copy_translate| |done|intros t i Ht; by apply copy_child].
  intros va. pose proof (to_root _ _ _ _ H) as Hr.
  assert (Hstep : ∀ w t, translate base 4 w t va =
    match child base w t (idx 4 va) with Some d => translate base 3 w d va | None => None end).
  { intros w t. unfold translate. cbn [leaf]. by destruct (child base w t (idx 4 va)). }
  rewrite !Hstep, Hch. destruct (child base v k (idx 4 va)) as [d|] eqn:Ed; [|done].
  apply copy_translate. by destruct (to_child _ _ _ _ H _ 2 _ _ Hr Ed).
Qed.
End copy.

Lemma create_spec v k lv asid :
  tables_ok base v k lv → kernel_pml4 v = addr k → (size lv < 512)%nat →
  returns (vm_create_pagetable64 base asid v) (λ '(p, v'), ∃ c, p = addr c ∧ created v v' k lv c).
Proof using Hbase.
  intros H Hkp Hfree. unfold vm_create_pagetable64. apply returns_bind.
  eapply returns_mono; [apply (new_pagetable_marks base v lv); [by eapply tables_marks|done]|].
  intros [p v1] (c & bm & -> & -> & Hc & Hcr & Hcl & Hm).
  assert (Hkd : k ∈ dom lv) by (apply elem_of_dom; exists 4%nat; apply H).
  destruct (table_of base v k lv H k Hkd) as (l & Hl & Hlen & _).
  assert (E1 : pt_pool (set_ptmap bm v) = pt_pool v ∧ kernel_pml4 (set_ptmap bm v) = kernel_pml4 v) by (by destruct v).
  destruct E1 as [Ep Ek]. rewrite Ek, Hkp, (load_table_addr base _ k l) by (by rewrite Ep).
  cbn [outcome_bind]. rewrite store_table_addr by (rewrite Ep, (to_len _ _ _ _ H); done).
  cbn [outcome_bind returns]. exists c. split; [done|].
  eapply (copy_created v k lv H c bm Hc Hcr Hcl (Hm 4%nat) l Hl); by destruct v.
Qed.

(** ** Destroying an address space *)
Lemma destroy_spec v k lv (c : nat) :
  tables_ok base v k lv → lv !! c = Some 4%nat → c ≠ k →
  returns (vm_destroy_pagetable64 base (addr c) v) (λ v', tables_ok base v' k (delete c lv) ∧
    same_globals v v' ∧ pt_pool v' = pt_pool v).
Proof using Hbase.
  intros H Hc Hck. assert (Hcd : c ∈ dom lv) by (apply elem_of_dom; eauto).
  destruct (to_dom _ _ _ _ H c Hcd) as [Hcr Hcl]. unfold vm_destroy_pagetable64.
  destruct (Z.ltb_spec (addr c) base); [unfold table_addr in *; lia|].
  replace ((addr c - base) / 4096) with (Z.of_nat c).
  2: { unfold table_addr. replace (base + 4096 * Z.of_nat c - base) with (Z.of_nat c * 4096) by lia. by rewrite Z.div_mul. }
  unfold VM_PTP_SIZE. destruct (Z.leb_spec 1024 (Z.of_nat c)); [lia|]. unfold ptmap_unsetbit.
  destruct (to_map _ _ _ _ H) as [Hu Hlen]. apply returns_bind.
  eapply returns_mono; [apply (map_unsetbit_spec _ Hu (Z.of_nat c)); unfold in_map; lia|].
  intros bm (Hlen' & Hu' & Htk). cbn [returns].
  assert (Ep : pt_pool (set_ptmap bm v) = pt_pool v) by (by destruct v).
  assert (Eb : pt_bitmap (set_ptmap bm v) = bm) by (by destruct v).
  split_and!; [|by destruct v|done]. destruct H as [T1 T2 T3 T4 T5 T6 T7 T8 T9 T10].
  assert (Hdel : ∀ t n, delete c lv !! t = Some n → lv !! t = Some n ∧ t ≠ c)
    by (intros t n [? ?]%lookup_delete_Some; done).
  split; rewrite ?Ep, ?Eb; try done.
  - split; [done|]. by rewrite Hlen'.
  - intros t Ht Hlow. rewrite Htk, T4, low_same by (done || lia).
    destruct (Z.eqb_spec (Z.of_nat c) (Z.of_nat t)) as [E|E].
    + apply Nat2Z.inj in E as <-. rewrite andb_false_r. symmetry. apply bool_decide_eq_false.
      rewrite dom_delete. intros [_ Hd]%elem_of_difference. by apply Hd, elem_of_singleton.
    + rewrite andb_true_r. apply bool_decide_ext. rewrite dom_delete, elem_of_difference, elem_of_singleton.
      split; [|by intros [? _]]. intros Ht'. split; [done|]. by intros ->.
  - intros t. rewrite dom_delete. intros [? _]%elem_of_difference. by apply T5.
  - intros t n [? _]%Hdel. by eapply T6.
  - intros t L i d [Ht _]%Hdel E. rewrite (child_same base v) in E by done.
    destruct (T7 _ _ _ _ Ht E) as [Hd Ea]. rewrite (slot_same v) by done. split; [|done].
    rewrite lookup_delete_ne; [done|]. intros <-. rewrite Hc in Hd. injection Hd as Hd. apply T6 in Ht. lia.
  - intros t1 t2 L i1 i2 d [L1 _]%Hdel [L2 _]%Hdel C1 C2.
    rewrite (child_same base v) in C1, C2 by done. by apply (T8 t1 t2 L i1 i2 d).
  - by rewrite lookup_delete_ne.
  - intros i d E. rewrite (child_same base v) in E by done. by apply (T10 i d).
Qed.
(** ** Start-up *)



(** The first table, cleared, is an empty address space. *)
Lemma first_root v :
  raw v → map_marks (pt_bitmap v) ∅ →
  returns (let* '(p, v) := vmm_new_pagetable base v in
           let* v := vmm_cleartable base p v in Done (p, v)) (λ '(p, v'), ∃ k : nat, p = addr k ∧
    tables_ok base v' k {[k := 4%nat]} ∧ same_globals v v' ∧ ∀ va, translate base 4 v' k va = None).
Proof using Hbase.
  intros [R1 R2 R3] Hm. apply returns_bind.
  eapply returns_mono; [apply (new_pagetable_marks base v ∅ Hm); rewrite map_size_empty; lia|].
  intros [p v1] (k & bm & -> & -> & _ & Hkr & Hkl & Hm1). unfold vmm_cleartable.
  pose proof (addr_pos base Hbase k). destruct (Z.eqb_spec (addr k) 0); [lia|].
  rewrite store_table_addr by (destruct v; simpl in *; lia). cbn [outcome_bind returns]. exists k. split; [done|].
  match goal with |- tables_ok _ ?w _ _ ∧ _ => set (v' := w) end.
  assert (Hp : pt_pool v' = <[k := replicate 512 0]> (pt_pool v)) by (by destruct v).
  assert (Hb : pt_bitmap v' = bm) by (by destruct v).
  destruct (slot_clear v v' k ltac:(lia) Hp) as [Hz _].
  assert (Hch : ∀ i, child base v' k i = None) by (intros i; by apply child_zero).
  destruct (Hm1 4%nat) as [[M1 M2] M3]. rewrite insert_empty in M3.
  assert (Hlv : ∀ t n, ({[k := 4%nat]} : gmap nat nat) !! t = Some n → t = k ∧ n = 4%nat)
    by (intros t m [<- <-]%lookup_singleton_Some; done).
  split_and!; [|by destruct v|].
  - split; rewrite ?Hb; try done.
    + by rewrite Hp, length_insert.
    + rewrite Hp. apply Forall_insert; [done|]. split; [apply length_replicate|]. apply Forall_replicate. by vm_compute.
    + intros t. rewrite dom_singleton, elem_of_singleton. by intros ->.
    + intros t m [_ ->]%Hlv. lia.
    + intros t L i d [-> _]%Hlv E. by rewrite Hch in E.
    + intros t1 t2 L i1 i2 d [-> _]%Hlv _ E. by rewrite Hch in E.
    + apply lookup_singleton_eq.
    + intros i d E. by rewrite Hch in E.
  - intros va. unfold translate. cbn [leaf]. by rewrite Hch.
Qed.


(** The tables missing for a page, when another one is mapped. *)
Lemma missing_near v t va va' :
  0 ≤ va < 2 ^ 30 → 0 ≤ va' < 2 ^ 30 → is_Some (leaf base 4 v t va') →
  (missing base v t va ≤ if (va / 2 ^ 21 =? va' / 2 ^ 21)%Z then 0 else 1)%nat.
Proof using.
  intros Hva Hva' [p Hp]. destruct (small_idx va Hva) as (E4 & E3 & E2). destruct (small_idx va' Hva') as (F4 & F3 & F2).
  apply leaf_four in Hp as (pdp & pdir & C4 & C3 & C2). unfold missing. rewrite E4, E3. rewrite F4 in C4. rewrite F3 in C3.
  rewrite C4, C3. destruct (Z.eqb_spec (va / 2 ^ 21) (va' / 2 ^ 21)) as [E|E].
  - assert (idx 2 va = idx 2 va') as -> by lia. by rewrite C2.
  - destruct (child base v pdir (idx 2 va)); lia.
Qed.

(** The state after the pages below [i] were mapped. *)
Record identity v k lv (i : Z) : Prop := {
  id_ok : tables_ok base v k lv;
  id_lock : vm_lock v = false;
  id_map : ∀ va, 0 ≤ va < 2 ^ 48 → translate base 4 v k va =
    if (4096 <=? va) && (va <? i * 4096) then Some (page_entry (va / 4096 * 4096) 0) else None;
  id_leaf : 1 < i → is_Some (leaf base 4 v k ((i - 1) * 4096));
  id_size : Z.of_nat (size lv) ≤ if 1 <? i then 4 + (i - 1) * 4096 / 2 ^ 21 else 1
}.


Lemma identity_step v k lv i :
  identity v k lv i → 1 ≤ i → i * 4096 < 2 ^ 29 →
  returns (vm_map64 base (addr k) (i * 0x1000) (i * 0x1000) 0 v) (λ v', ∃ lv', identity v' k lv' (i + 1) ∧ same_globals v v').
Proof using Hbase.
  intros [H Hlk Hmap Hleaf Hsz] Hi Hb. change 0x1000 with 4096. set (va := i * 4096) in *.
  destruct (small_idx va) as (E4 & E3 & E2); [lia|].
  assert (Hmiss : Z.of_nat (size lv) + Z.of_nat (missing base v k va) ≤ 4 + va / 2 ^ 21 ∧ va / 2 ^ 21 < 256).
  { split; [|apply Z.div_lt_upper_bound; lia]. destruct (Z.ltb_spec 1 i) as [H1|H1].
    - pose proof (missing_near v k va ((i - 1) * 4096) ltac:(lia) ltac:(lia) (Hleaf H1)) as Hn.
      assert (Hmono : (i - 1) * 4096 / 2 ^ 21 ≤ va / 2 ^ 21) by (apply Z.div_le_mono; lia).
      destruct (Z.eqb_spec (va / 2 ^ 21) ((i - 1) * 4096 / 2 ^ 21)); lia.
    - assert (0 ≤ va / 2 ^ 21) by (apply Z.div_pos; lia).
      assert (missing base v k va ≤ 3)%nat; [|lia]. unfold missing.
      destruct (child base v k _) as [a|]; [|done]. destruct (child base v a _) as [b|]; [|lia].
      destruct (child base v b _); lia. }
  eapply returns_mono; [apply (vm_map64_spec base Hbase v k lv k va va 0); try done; try lia; apply H|].
  intros v' (lv' & [M1 M2 M3 M4 M5 M6 M7 M8]). exists lv'. split; [|done]. pose proof (to_root _ _ _ _ H) as Hr.
  destruct M4 as (_ & _ & Elk & _). split.
  - done.
  - congruence.
  - intros va' Hva'. destruct (decide (va' / 4096 = i)) as [E|E].
    + rewrite (M5 k va' Hr); [|rewrite !vpage_small by lia; unfold va; by rewrite Z.div_mul|by left].
      assert (Hd := Z.div_mod va' 4096). assert (Hm := Z.mod_pos_bound va' 4096).
      destruct (Z.leb_spec 4096 va'), (Z.ltb_spec va' ((i + 1) * 4096)); try lia. simpl. by rewrite E.
    + rewrite (M6 k va' Hr), Hmap by (done || (intros [Ev _]; rewrite !vpage_small in Ev by lia;
        unfold va in Ev; rewrite Z.div_mul in Ev; done)).
      unfold va. assert (Hd := Z.div_mod va' 4096). assert (Hm := Z.mod_pos_bound va' 4096).
      destruct (Z.leb_spec 4096 va'), (Z.ltb_spec va' (i * 4096)), (Z.ltb_spec va' ((i + 1) * 4096)); done || lia.
  - intros _. replace (i + 1 - 1) with i by lia. done.
  - destruct (Z.ltb_spec 1 (i + 1)); [|lia]. replace (i + 1 - 1) with i by lia. fold va. lia.
Qed.


Lemma vm_init64_spec kernel_end stalloced v :
  raw v → let bound := identity_bound kernel_end stalloced in 4096 ≤ bound ≤ 2 ^ 29 →
  returns (vm_init64 base kernel_end stalloced v) (λ v', ∃ k lv,
    identity v' k lv (bound / 4096) ∧ kernel_pml4 v' = addr k ∧ cr3 v' = addr k ∧ kmalloc_addr v' = bound).
Proof using Hbase.
  intros Hraw bound Hb. unfold vm_init64. cbv zeta. fold bound.
  set (v0 := set_kmalloc_addr bound (set_vm_lock false v)).
  assert (R0 : raw v0) by (destruct Hraw, v; by split).
  apply returns_bind. eapply returns_mono; [apply (unset_all v0), R0|]. intros v1 (Ep & Hg1 & Hm1).
  assert (R1 : raw v1) by (destruct R0; split; rewrite ?Ep; try done; apply Hm1).
  pose proof (first_root v1 R1 Hm1) as Hf. apply returns_inv in Hf as ([p v2] & Hf & k & -> & Hok & Hg2 & Hnone).
  apply bind_Done_inv in Hf as ([p v1'] & -> & Hf). cbn [outcome_bind].
  apply bind_Done_inv in Hf as (v2' & Hc & [= -> ->]). rewrite Hc. cbn [outcome_bind].
  assert (G0 : vm_lock v0 = false ∧ kmalloc_addr v0 = bound) by (by destruct v).
  destruct G0 as [G0l G0k], Hg1 as (_ & G1k & G1l & _), Hg2 as (_ & G2k & G2l & _).
  apply returns_bind. eapply returns_mono; [apply (for_each_inv (λ i w, ∃ lv, identity w k lv i ∧
    kmalloc_addr w = bound))|].
  - change 0x1000 with 4096. assert (4096 / 4096 ≤ bound / 4096) as Hle by (apply Z.div_le_mono; lia). done.
  - exists {[k := 4%nat]}. split; [|congruence]. split; [done|congruence| |lia|by rewrite map_size_singleton].
    intros va Hva. rewrite Hnone. destruct (Z.leb_spec 4096 va), (Z.ltb_spec va (1 * 4096)); done || lia.
  - intros i w Hi (lv & Hid & Hk). change 0x1000 with 4096 in Hi.
    assert (i * 4096 < 2 ^ 29).
    { destruct Hi as [_ Hi]. pose proof (Z.div_mod bound 4096 ltac:(lia)).
      pose proof (identity_bound_page kernel_end stalloced) as Hmod. fold bound in Hmod. lia. }
    eapply returns_mono; [apply (identity_step w k lv i Hid); lia|].
    intros w' (lv' & Hid' & _ & Ek & _). exists lv'. split; [done|congruence].
  - intros w (lv & Hid & Hk). cbn [returns]. exists k, lv.
    assert (Es : pt_pool (vmm_setcr3 (addr k) (set_kernel_pml4 (addr k) w)) = pt_pool w ∧
      pt_bitmap (vmm_setcr3 (addr k) (set_kernel_pml4 (addr k) w)) = pt_bitmap w ∧
      vm_lock (vmm_setcr3 (addr k) (set_kernel_pml4 (addr k) w)) = vm_lock w) by (by destruct w).
    destruct Es as (Es1 & Es2 & Es3). split; [|by destruct w].
    destruct Hid as [I1 I2 I3 I4 I5]. split.
    + by apply (tables_ok_same base w).
    + congruence.
    + intros va Hva. rewrite (translate_pool base 4 w) by done. by apply I3.
    + intros Hi. rewrite (leaf_pool base 4 w) by done. by apply I4.
    + done.
Qed.

(** ** Kernel allocation *)

(** [kmalloc] of one page maps the next page of the kernel's heap to the number
    of the first free frame, taken as an address, and takes no frame. *)
Lemma kmalloc_spec pm v k lv f :
  tables_ok base v k lv → vm_lock v = false → kernel_pml4 v = addr k → (size lv + 3 ≤ 512)%nat →
  Forall is_u64 (mem_bitmap pm) → 64 * Z.of_nat (length (mem_bitmap pm)) < 2 ^ 40 →
  Z.of_nat (length (mem_bitmap pm)) ≤ total_blocks pm → first_free pm f →
  0 ≤ kmalloc_addr v < 2 ^ 46 →
  returns (kmalloc base 4096 pm v) (λ '(a, v'), a = kmalloc_addr v ∧ kmalloc_addr v' = a + 4096 ∧
    vm_lock v' = false ∧ kernel_pml4 v' = addr k ∧ ∃ lv', tables_ok base v' k lv' ∧
    (size lv' ≤ size lv + 3)%nat ∧
    translate base 4 v' k a = Some (page_entry f 0) ∧
    ∀ va, vpage va ≠ vpage a → translate base 4 v' k va = translate base 4 v k va).
Proof using Hbase.
  intros H Hlk Hkp Hsz Hu Hsize Hlen Hff Hka. unfold kmalloc, VMM_KERNEL_SPACE.
  assert (E : u64 (4096 + kmalloc_addr v) = 4096 + kmalloc_addr v) by (unfold u64; apply Z.mod_small; lia).
  rewrite E. destruct (Z.ltb_spec 0x00007FFFFFFFFFFF (4096 + kmalloc_addr v)); [lia|].
  change (if negb (4096 mod PMM_BLOCK_SIZE =? 0) then 4096 / PMM_BLOCK_SIZE + 1 else 4096 / PMM_BLOCK_SIZE) with 1.
  cbv zeta. change (physmem_getframes 1 pm) with (physmem_getframe pm).
  rewrite (getframe_first pm Hsize f Hff Hlen). cbn [outcome_bind].
  unfold for_each, for_loop. cbn [Z.to_nat Z.sub for_from Pos.to_nat Pos.iter_op Nat.add].
  destruct Hff as (Hf & _). unfold in_map in Hf.
  assert (E1 : u64 (f + 0 * PMM_BLOCK_SIZE) = f) by (unfold u64; rewrite Z.mul_0_l, Z.add_0_r; apply Z.mod_small; lia).
  assert (E2 : u64 (kmalloc_addr v + 0x1000 * 0) = kmalloc_addr v)
    by (unfold u64; rewrite Z.mul_0_r, Z.add_0_r; apply Z.mod_small; lia).
  change (Z.to_nat (1 - 0)) with 1%nat. cbn [for_from]. rewrite E1, E2, Hkp.
  assert (Hi4 : (idx 4 (kmalloc_addr v) < 256)%nat).
  { pose proof (idx_div 4 (kmalloc_addr v)) as Ei. change (3 + 9 * Z.of_nat 4) with 39 in Ei.
    rewrite Z.mod_small in Ei.
    - assert (kmalloc_addr v / 2 ^ 39 < 256) by (apply Z.div_lt_upper_bound; lia). lia.
    - split; [apply Z.div_pos; lia|apply Z.div_lt_upper_bound; lia]. }
  assert (Hmiss : (missing base v k (kmalloc_addr v) ≤ 3)%nat).
  { unfold missing. destruct (child base v k _) as [a|]; [|done]. destruct (child base v a _) as [b|]; [|lia].
    destruct (child base v b _); lia. }
  pose proof (to_root _ _ _ _ H) as Hr.
  pose proof (vm_map64_spec base Hbase v k lv k f (kmalloc_addr v) 0 H Hlk Hr (λ _, Hi4) ltac:(lia) ltac:(lia) ltac:(lia)) as Hm.
  apply returns_inv in Hm as (v' & Hv' & lv' & [M1 M2 M3 M4 M5 M6 M7 M8]). rewrite Hv'. cbn [outcome_bind returns for_from].
  destruct M4 as (Ek & Ea & El & _).
  assert (Es : pt_pool (set_kmalloc_addr (u64 (kmalloc_addr v' + 4096 * 1)) v') = pt_pool v' ∧
    pt_bitmap (set_kmalloc_addr (u64 (kmalloc_addr v' + 4096 * 1)) v') = pt_bitmap v') by (by destruct v').
  destruct Es as [Es1 Es2]. split_and!; [done| |destruct v'; simpl in *; congruence|destruct v'; simpl in *; congruence|].
  - rewrite Ea. replace (u64 (kmalloc_addr v + 0x1000 * 1)) with (kmalloc_addr v + 4096); [by destruct v'|].
    unfold u64. rewrite Z.mod_small by lia. lia.
  - exists lv'. split_and!; [by apply (tables_ok_same base v')|lia| |].
    + rewrite (translate_pool base 4 v') by done. apply M5; [done|done|by left].
    + intros va Hne. rewrite (translate_pool base 4 v') by done. apply M6; [done|]. by intros [? _].
Qed.
End kernel.
