(* ===== verification/X86Spaces.v ===== *)
(** * Histories of address spaces on x86-64

    An abstract address space is a function from pages to entries.  Any history
    of creating address spaces, mapping user pages in them and destroying them
    is, in the tables, the history of independent abstract spaces over the
    kernel's one. *)

From S2P Require Import Prelude Libc PhysMem X86Bits X86Phys X86Paging X86Map X86Space X86Kernel.

(** ** Tables in use *)
Definition used_tables (v : vm64) : nat :=
  length (filter (λ t : nat, taken (pt_bitmap v) (Z.of_nat t) = true) usable).

Lemma used_tables_size base v k lv : tables_ok base v k lv → used_tables v = size lv.
Proof.
  intros H. unfold used_tables. rewrite <- size_dom.
  rewrite <- (size_list_to_set (C := gset nat)) by (apply NoDup_filter, usable_NoDup).
  f_equal. apply set_eq. intros t. rewrite elem_of_list_to_set, list_elem_of_filter, elem_of_usable. split.
  - intros (Ht & Hlt & Hl). rewrite (to_used _ _ _ _ H) in Ht by done. by apply bool_decide_eq_true in Ht.
  - intros Ht. destruct (to_dom _ _ _ _ H t Ht) as [Hlt Hl]. split_and!; [|done|done].
    rewrite (to_used _ _ _ _ H) by done. by apply bool_decide_eq_true.
Qed.

Lemma used_tables_bound v : (used_tables v ≤ 512)%nat.
Proof. unfold used_tables. rewrite <- usable_length. apply length_filter. Qed.

Lemma new_pagetable_full base v :
  Forall is_u64 (pt_bitmap v) → length (pt_bitmap v) = 16%nat → used_tables v = 512%nat →
  vmm_new_pagetable base v = Panic "No more pagetables".
Proof.
  intros Hu Hl Hused. unfold vmm_new_pagetable.
  assert (Hall : ∀ t : nat, (t < 1024)%nat → low (Z.of_nat t) = true → taken (pt_bitmap v) (Z.of_nat t) = true).
  { intros t Ht Hlow. destruct (taken (pt_bitmap v) (Z.of_nat t)) eqn:E; [done|]. exfalso.
    assert (Hin : t ∈ usable) by (by apply elem_of_usable).
    unfold used_tables in Hused. pose proof usable_length as Hul.
    apply elem_of_Permutation in Hin as [rest Hperm].
    rewrite Hperm in Hused, Hul. rewrite filter_cons_False in Hused by congruence. simpl in Hul.
    pose proof (length_filter (λ t : nat, taken (pt_bitmap v) (Z.of_nat t) = true) rest). lia. }
  rewrite (for_loop_skip _ 1024); [by rewrite Z.sub_diag|unfold VM_PTP_SIZE; lia|].
  intros j Hj. destruct (map_testbit_spec (pt_bitmap v) Hu j) as (b & Hb & Hz); [unfold in_map; lia|].
  unfold ptmap_testbit. rewrite Hb. cbn [outcome_bind]. rewrite Hz.
  destruct (low j) eqn:Elow.
  - specialize (Hall (Z.to_nat j)). rewrite Z2Nat.id in Hall by lia. by rewrite Hall by (done || lia).
  - apply low_or_lower in Elow as (Hm & H0 & Hs); [|lia].
    rewrite <- (taken_same _ (j - 32) j) by (done || lia). specialize (Hall (Z.to_nat (j - 32))).
    rewrite Z2Nat.id in Hall by lia. rewrite Hall; [done|lia|].
    unfold low. apply Z.ltb_lt.
    rewrite <- (Z.mod_unique (j - 32) 64 (j / 64) (j mod 64 - 32)); pose proof (Z.mod_pos_bound j 64 ltac:(lia));
      [lia|left; lia|]. pose proof (Z.div_mod j 64). lia.
Qed.

Section histories.
Context (base : Z) (Hbase : 0 < base ∧ base mod 4096 = 0 ∧ base < 2 ^ 51).

Notation addr t := (table_addr base (Z.of_nat t)).

(** An address space: the entry of each page. *)
Notation aspace := (Z → option Z).

Definition aspace_map (page e : Z) (m : aspace) : aspace := λ p, if p =? page then Some e else m p.

(** An address in the upper half, which the kernel leaves to the processes. *)
Definition user_address (va : Z) : Prop := (256 ≤ idx 4 va)%nat.

(** The pointer of a table as a number. *)
Definition table_of_addr (p : Z) : nat := Z.to_nat ((p - base) / 4096).

Section kernel_space.
Context (k : nat) (K : aspace).

(** The tables represent the address spaces [sp] and the kernel's space [K]. *)
Record srep (v : vm64) (sp : gmap nat aspace) : Prop := {
  sr_tables : ∃ lv, tables_ok base v k lv ∧ ∀ t m, sp !! t = Some m → lv !! t = Some 4%nat ∧ t ≠ k;
  sr_lock : vm_lock v = false;
  sr_root : kernel_pml4 v = addr k;
  sr_kernel : ∀ va, translate base 4 v k va = K (vpage va);
  sr_spaces : ∀ t m va, sp !! t = Some m → translate base 4 v t va = m (vpage va)
}.

Inductive space_step : vm64 * gmap nat aspace → vm64 * gmap nat aspace → Prop :=
| step_create v sp asid p v' :
    (used_tables v < 512)%nat → vm_create_pagetable64 base asid v = Done (p, v') →
    space_step (v, sp) (v', <[table_of_addr p := K]> sp)
| step_map v sp t m physaddr va flags v' :
    (used_tables v ≤ 509)%nat → sp !! t = Some m → user_address va →
    0 ≤ physaddr < 2 ^ 64 → 0 ≤ flags < 4096 → vm_map64 base (addr t) physaddr va flags v = Done v' →
    space_step (v, sp) (v', <[t := aspace_map (vpage va) (page_entry physaddr flags) m]> sp)
| step_destroy v sp t m v' :
    sp !! t = Some m → vm_destroy_pagetable64 base (addr t) v = Done v' →
    space_step (v, sp) (v', delete t sp).

Lemma missing_three v t va : (missing base v t va ≤ 3)%nat.
Proof using.
  unfold missing. destruct (child base v t _) as [a|]; [|done]. destruct (child base v a _) as [b|]; [|lia].
  destruct (child base v b _); lia.
Qed.

Lemma create_page_srep v sp asid :
  srep v sp → (used_tables v < 512)%nat →
  returns (vm_create_pagetable64 base asid v) (λ '(p, v'), sp !! table_of_addr p = None ∧
    p = addr (table_of_addr p) ∧ srep v' (<[table_of_addr p := K]> sp) ∧
    used_tables v' = S (used_tables v) ∧ cr3 v' = cr3 v).
Proof using Hbase.
  intros [(lv & H & Hsp) S2 S3 S4 S5] Hu. pose proof (used_tables_size _ _ _ _ H) as Eu. rewrite Eu in Hu.
  eapply returns_mono; [by apply (create_spec base Hbase v k lv asid)|]. intros [p v'] (c & -> & C).
  destruct C as [C1 C2 C3 C4 C5 C6 C7].
  assert (Ec : table_of_addr (addr c) = c).
  { unfold table_of_addr, table_addr. replace (base + 4096 * Z.of_nat c - base) with (Z.of_nat c * 4096) by lia.
    rewrite Z.div_mul by done. apply Nat2Z.id. }
  rewrite Ec. assert (Hin : ∀ t m, sp !! t = Some m → t ∈ dom lv ∧ t ≠ c).
  { intros t m Ht. destruct (Hsp t m Ht) as [Hl _]. assert (t ∈ dom lv) by (apply elem_of_dom; eauto).
    split; [done|]. by intros ->. }
  assert (Hcl : lv !! c = None) by (by apply not_elem_of_dom).
  split_and!; [|done| |rewrite (used_tables_size _ _ _ _ C1), Eu; by apply map_size_insert_None|apply C3].
  - destruct (sp !! c) as [m|] eqn:E; [|done]. by destruct (Hin c m E).
  - destruct C3 as (G1 & _ & G3 & _). split.
    + exists (<[c := 4%nat]> lv). split; [done|]. intros t m [[<- <-]|[Hne Ht]]%lookup_insert_Some.
      * split; [apply lookup_insert_eq|]. intros ->. apply C2, elem_of_dom. exists 4%nat. apply H.
      * destruct (Hsp t m Ht) as [Hl Hk]. split; [by rewrite lookup_insert_ne|done].
    + congruence.
    + congruence.
    + intros va. rewrite (C4 4%nat) by apply H. apply S4.
    + intros t m va [[<- <-]|[Hne Ht]]%lookup_insert_Some; [by rewrite C5|].
      destruct (Hsp t m Ht) as [Hl Hk]. rewrite (C4 4%nat) by done. by apply S5.
Qed.

Lemma create_srep v sp asid :
  srep v sp → (used_tables v < 512)%nat →
  returns (vm_create_pagetable64 base asid v) (λ '(p, v'), sp !! table_of_addr p = None ∧
    p = addr (table_of_addr p) ∧ srep v' (<[table_of_addr p := K]> sp)).
Proof using Hbase.
  intros Hs Hu. eapply returns_mono; [by apply (create_page_srep v sp asid)|]. intros [p v'] (? & ? & ? & _). done.
Qed.

(** Address spaces share nothing for user addresses. *)
Lemma user_apart v lv t t' va :
  tables_ok base v k lv → lv !! t = Some 4%nat → lv !! t' = Some 4%nat → user_address va →
  shares base v t t' va → t' = t.
Proof using.
  intros H Ht Ht' Hva [?|(c & E1 & E2)]; [done|]. unfold user_address in Hva.
  destruct (to_unique _ _ _ _ H t t' 2 _ _ c Ht Ht' E1 E2) as [_ [->|[_ ?]]]; [done|lia].
Qed.

Lemma map_page_srep v sp t m physaddr va flags :
  srep v sp → (used_tables v + missing base v t va ≤ 512)%nat → sp !! t = Some m → user_address va →
  0 ≤ physaddr < 2 ^ 64 → 0 ≤ flags < 4096 →
  returns (vm_map64 base (addr t) physaddr va flags v) (λ v',
    srep v' (<[t := aspace_map (vpage va) (page_entry physaddr flags) m]> sp) ∧
    used_tables v' = (used_tables v + missing base v t va)%nat ∧ cr3 v' = cr3 v).
Proof using Hbase.
  intros [(lv & H & Hsp) S2 S3 S4 S5] Hu Hm Hva Hp Hf. rewrite (used_tables_size _ _ _ _ H) in *.
  destruct (Hsp t m Hm) as [Ht Htk]. pose proof (to_root _ _ _ _ H) as Hr.
  eapply returns_mono; [apply (vm_map64_spec base Hbase v k lv t physaddr va flags); try done; lia|].
  intros v' (lv' & [M1 M2 M3 (G1 & _ & G3 & G4) M5 M6 M7 M8]).
  split_and!; [|by rewrite (used_tables_size _ _ _ _ M1)|done]. split.
  - exists lv'. split; [done|]. intros t' m' [[<- <-]|[Hne Ht']]%lookup_insert_Some.
    + split; [by eapply lookup_weaken|done].
    + destruct (Hsp t' m' Ht') as [Hl Hk]. split; [by eapply lookup_weaken|done].
  - congruence.
  - congruence.
  - intros va'. rewrite M6; [apply S4|done|]. intros [_ Hs].
    apply Htk. symmetry. by apply (user_apart v lv t k va).
  - intros t' m' va' [[<- <-]|[Hne Ht']]%lookup_insert_Some.
    + unfold aspace_map. destruct (Z.eqb_spec (vpage va') (vpage va)) as [E|E].
      * apply M5; [done|done|by left].
      * rewrite M6; [by apply S5|done|]. by intros [? _].
    + destruct (Hsp t' m' Ht') as [Hl Hk]. rewrite M6; [by apply S5|done|]. intros [_ Hs].
      apply Hne. symmetry. by apply (user_apart v lv t t' va).
Qed.

Lemma map_srep v sp t m physaddr va flags :
  srep v sp → (used_tables v ≤ 509)%nat → sp !! t = Some m → user_address va →
  0 ≤ physaddr < 2 ^ 64 → 0 ≤ flags < 4096 →
  returns (vm_map64 base (addr t) physaddr va flags v) (λ v',
    srep v' (<[t := aspace_map (vpage va) (page_entry physaddr flags) m]> sp)).
Proof using Hbase.
  intros Hs Hu Hm Hva Hp Hf. pose proof (missing_three v t va).
  eapply returns_mono; [apply (map_page_srep v sp t m physaddr va flags Hs); try done; lia|]. by intros v' [? _].
Qed.

(** A page that is mapped needs no table. *)
Lemma missing_mapped v t va : is_Some (translate base 4 v t va) → missing base v t va = 0%nat.
Proof using.
  unfold translate, missing. cbn [leaf]. destruct (child base v t _) as [a|]; [|by intros []].
  destruct (child base v a _) as [b|]; [|by intros []]. destruct (child base v b _) as [c|]; [done|by intros []].
Qed.

Lemma translate_page v t va va' : vpage va = vpage va' → translate base 4 v t va = translate base 4 v t va'.
Proof using.
  intros (E1 & E2 & E3 & E4)%same_vpage. unfold translate. cbn [leaf]. by rewrite E1, E2, E3, E4.
Qed.

Lemma destroy_srep v sp t m :
  srep v sp → sp !! t = Some m →
  returns (vm_destroy_pagetable64 base (addr t) v) (λ v', srep v' (delete t sp) ∧
    used_tables v = S (used_tables v')).
Proof using Hbase.
  intros [(lv & H & Hsp) S2 S3 S4 S5] Hm. destruct (Hsp t m Hm) as [Ht Htk].
  eapply returns_mono; [by apply (destroy_spec base Hbase v k lv t)|].
  intros v' (H' & (G1 & _ & G3 & _) & Ep). split.
  - split.
    + exists (delete t lv). split; [done|]. intros t' m' [Hne Ht']%lookup_delete_Some.
      destruct (Hsp t' m' Ht') as [Hl Hk]. split; [by rewrite lookup_delete_ne|done].
    + congruence.
    + congruence.
    + intros va. rewrite (translate_pool base 4 v) by done. apply S4.
    + intros t' m' va [Hne Ht']%lookup_delete_Some. rewrite (translate_pool base 4 v) by done. by apply S5.
  - rewrite (used_tables_size _ _ _ _ H), (used_tables_size _ _ _ _ H').
    assert (E : size (delete t lv) = pred (size lv)) by (apply map_size_delete_Some; eauto). rewrite E. assert (size lv ≠ 0%nat); [|lia].
    intros E0. apply map_size_empty_inv in E0. subst lv. by rewrite lookup_empty in Ht.
Qed.

Lemma space_history st st' :
  rtc space_step st st' → srep (fst st) (snd st) → srep (fst st') (snd st').
Proof using Hbase.
  intros Hrtc. induction Hrtc as [st|st1 st2 st3 Hstep _ IH]; intros Hs; [done|]. apply IH.
  destruct Hstep as [v sp asid p v' Hu Hc|v sp t m physaddr va flags v' Hu Hm Hva Hp Hf Hmap|v sp t m v' Hm Hd]; simpl in *.
  - pose proof (create_srep v sp asid Hs Hu) as Hr. rewrite Hc in Hr. apply Hr.
  - pose proof (map_srep v sp t m physaddr va flags Hs Hu Hm Hva Hp Hf) as Hr. by rewrite Hmap in Hr.
  - pose proof (destroy_srep v sp t m Hs Hm) as Hr. rewrite Hd in Hr. apply Hr.
Qed.
End kernel_space.
End histories.
