(* ===== verification/X86Props.v ===== *)
(** * Properties of memory management on x86-64 *)

From S2P Require Import Prelude Libc PhysMem X86Bits X86Phys X86Boot X86Paging.
From S2P Require Import X86Map X86Space X86Kernel X86Spaces.

(** ** Properties *)

(** C11. Whatever address spaces are created, whatever user pages are mapped in
    them and whichever of them are destroyed, in any order: the page tables
    translate each address space as an independent map from pages to entries
    over the kernel's mappings, and the kernel's own mappings never change.
    Creating a space answers a table not in use and copies the kernel's space;
    it panics exactly when all 512 usable tables are in use.  Mapping a user page
    returns whenever three tables are left and inserts exactly that page in
    exactly that space; destroying a space returns and frees one table. *)
Theorem address_spaces_refine base k K v0 sp0 v sp :
  0 < base ∧ base mod 4096 = 0 ∧ base < 2 ^ 51 →
  srep base k K v0 sp0 → rtc (space_step base K) (v0, sp0) (v, sp) →
  (∀ t m va, sp !! t = Some m → translate base 4 v t va = m (vpage va)) ∧
  (∀ va, translate base 4 v k va = K (vpage va)) ∧
  (∀ asid, if decide (used_tables v = 512%nat)
     then vm_create_pagetable64 base asid v = Panic "No more pagetables"
     else returns (vm_create_pagetable64 base asid v) (λ '(p, v'), sp !! table_of_addr base p = None ∧
            srep base k K v' (<[table_of_addr base p := K]> sp))) ∧
  (∀ t m physaddr va flags, (used_tables v ≤ 509)%nat → sp !! t = Some m → user_address va →
     0 ≤ physaddr < 2 ^ 64 → 0 ≤ flags < 4096 →
     returns (vm_map64 base (table_addr base (Z.of_nat t)) physaddr va flags v) (λ v',
       srep base k K v' (<[t := aspace_map (vpage va) (page_entry physaddr flags) m]> sp))) ∧
  (∀ t m, sp !! t = Some m →
     returns (vm_destroy_pagetable64 base (table_addr base (Z.of_nat t)) v) (λ v',
       srep base k K v' (delete t sp) ∧ used_tables v = S (used_tables v'))).
Proof.
  intros Hb H0 Hrtc. pose proof (space_history base Hb k K _ _ Hrtc H0) as H. simpl in H.
  split_and!; [apply H|apply H|..].
  - intros asid. destruct (decide _) as [E|E].
    + destruct H as [(lv & Ht & _) _ _ _ _]. destruct (to_map _ _ _ _ Ht) as [Hu Hl].
      unfold vm_create_pagetable64. by rewrite (new_pagetable_full base v Hu Hl E).
    + pose proof (used_tables_bound v).
      eapply returns_mono; [apply (create_srep base Hb k K v sp asid H); lia|]. by intros [p v'] (? & _ & ?).
  - intros. by eapply map_srep.
  - intros. by eapply destroy_srep.
Qed.

(** C12. In every state the x86-64 frame allocator can reach by allocations and
    frees of held frames: no frame is held twice, none below the static boundary,
    and every held frame lies in the lower half of a word of the bitmap, so half
    of the machine's frames are never handed out.  An allocation panics when the
    counter says that no block is free; otherwise it answers the least frame
    whose flag is clear, or, when every flag is set, leaves the bitmap.  A free of a
    held frame returns and makes the frame allocatable again. *)
Theorem frames64_exclusive pm0 s pm held :
  frames pm0 s [] → rtc frame_step (pm0, []) (pm, held) →
  NoDup held ∧
  Forall (λ p, s ≤ p ∧ p mod 64 < 32) held ∧
  (if decide (total_blocks pm ≤ used_blocks pm)
   then physmem_allocblock64 pm = Panic "Physical Manager >> OUT OF MEMORY"
   else (∃ p, first_free pm p ∧ p ∉ held ∧
           returns (physmem_allocblock64 pm) (λ '(a, pm'), a = p * PMM_BLOCK_SIZE ∧ frames pm' s (p :: held))) ∨
        (all_taken pm ∧ (Z.of_nat (length (mem_bitmap pm)) < total_blocks pm → physmem_allocblock64 pm = Fault))) ∧
  (∀ p, p ∈ held → returns (physmem_freeblock64 (p * PMM_BLOCK_SIZE) pm) (λ pm',
     ∃ held', held ≡ₚ p :: held' ∧ frames pm' s held' ∧ taken (mem_bitmap pm') p = false)).
Proof.
  intros H0 Hrtc. destruct (frames_reachable _ _ s Hrtc H0) as [Hf _]. simpl in Hf.
  split_and!; [apply Hf|..].
  - rewrite Forall_forall. intros p Hp. destruct (fr_held _ _ _ Hf p Hp) as (? & _ & Hl & _).
    split; [done|]. unfold low in Hl. by apply Z.ltb_lt in Hl.
  - destruct (decide _) as [Hle|Hlt].
    + unfold physmem_allocblock64, acquire. rewrite (fr_lock _ _ _ Hf). cbn [outcome_bind]. destruct pm; simpl in *.
      destruct (Z.leb_spec total_blocks used_blocks); [done|lia].
    + destruct (search_cases pm) as [[p Hp]|Hall].
      * left. exists p. split_and!; [done| |].
        { intros Hin. destruct (fr_held _ _ _ Hf p Hin) as (_ & _ & _ & E). destruct Hp as (_ & _ & E' & _). congruence. }
        eapply returns_mono; [apply (alloc_free pm s held Hf p Hp); lia|]. by intros [a pm'] (? & ? & _).
      * right. split; [done|]. intros Hl. pose proof (getframe_overrun pm Hall Hl) as Hg.
        unfold physmem_allocblock64, acquire. rewrite (fr_lock _ _ _ Hf). destruct pm as [bm bs ms tb ub hp lk]. simpl in *.
        destruct (Z.leb_spec tb ub); [lia|].
        change (physmem_getframe (Pmm bm bs ms tb ub hp true)) with (physmem_getframe (Pmm bm bs ms tb ub hp lk)).
        by rewrite Hg.
  - intros p Hp. eapply returns_mono; [apply (free_held pm s held Hf p (p * PMM_BLOCK_SIZE) Hp); by apply Z.div_mul|].
    intros pm' (h & ? & ? & _ & ?). eauto.
Qed.

(** C32. [physmem_init] of x86-64 with the boot loader's memory map: the loop
    that takes frames until one lies above the static memory ends, and leaves an
    allocator that never hands out a frame of the kernel, its static data or the
    bitmap. *)
Theorem physmem_init64_correct fuel kernel_end mb memory st n f :
  bootable mb memory st n f → (Z.to_nat f < fuel)%nat →
  returns (physmem_init64 fuel kernel_end mb memory st) (λ '(pm, st'), ∃ s, frames pm s [] ∧
    free_area_start st + 8 * Z.of_nat n + 4 ≤ s * PMM_BLOCK_SIZE ∧
    length (mem_bitmap pm) = n ∧ total_blocks pm = 64 * Z.of_nat n ∧
    free_area_start st' = 0xffffffff).
Proof. apply physmem_init64_spec. Qed.

(** The code "sets all memory as used" with the byte 0x0F: before the memory
    map is read, half of the frames are already free, among them every frame
    whose number ends in 4, 5 or 6 modulo 8, whether the map calls it free or not. *)
Theorem setup_leaves_frames_free mb memory st n :
  blocks_of mb = 64 * Z.of_nat n → length memory = (8 * n)%nat → 8 * Z.of_nat n < 2 ^ 31 →
  room64 st (8 * Z.of_nat n + 8) →
  returns (physmem_setup mb memory st) (λ '(pm, _), ∀ p, 0 ≤ p < total_blocks pm →
    taken (mem_bitmap pm) p = (p mod 8 <? 4) || (p mod 32 =? 31)).
Proof.
  intros H1 H2 H3 H4. eapply returns_mono; [by apply (setup_spec mb memory st n)|].
  intros [pm st'] [-> _] p Hp. apply taken_initial. apply Hp.
Qed.

(** [vm_init] of x86-64: the kernel's address space maps every address from
    the second page up to the end of the kernel's static memory to itself,
    writable and not accessible to users, and nothing else; page 0 stays
    unmapped.  It takes at most one table for each 2 MB, and four more. *)
Theorem vm_init64_correct base kernel_end stalloced v :
  0 < base ∧ base mod 4096 = 0 ∧ base < 2 ^ 51 → raw v →
  4096 ≤ identity_bound kernel_end stalloced ≤ 2 ^ 29 →
  let bound := identity_bound kernel_end stalloced in
  returns (vm_init64 base kernel_end stalloced v) (λ v', ∃ k lv, tables_ok base v' k lv ∧
    kernel_pml4 v' = table_addr base (Z.of_nat k) ∧ cr3 v' = kernel_pml4 v' ∧ vm_lock v' = false ∧
    kmalloc_addr v' = bound ∧ Z.of_nat (size lv) ≤ 4 + bound / 2 ^ 21 ∧
    ∀ va, 0 ≤ va < 2 ^ 48 → translate base 4 v' k va =
      if (4096 <=? va) && (va <? bound) then Some (Z.lor (va / 4096 * 4096) 3) else None).
Proof.
  intros Hb Hraw Hbound bound. eapply returns_mono; [by apply (vm_init64_spec base Hb kernel_end stalloced v Hraw)|].
  intros v' (k & lv & [I1 I2 I3 I4 I5] & Ek & E3 & Ea). exists k, lv. fold bound in I3, I5, Hbound.
  pose proof (identity_bound_page kernel_end stalloced) as Hm. fold bound in Hm.
  pose proof (Z.div_mod bound 4096 ltac:(lia)) as Hd.
  split_and!; [done|done|congruence|done|done| |].
  - destruct (Z.ltb_spec 1 (bound / 4096)).
    + assert ((bound / 4096 - 1) * 4096 / 2 ^ 21 ≤ bound / 2 ^ 21) by (apply Z.div_le_mono; lia). lia.
    + assert (0 ≤ bound / 2 ^ 21) by (apply Z.div_pos; lia). lia.
  - intros va Hva. rewrite I3 by done. replace (bound / 4096 * 4096) with bound by lia.
    by destruct (_ && _).
Qed.

(** [kmalloc] uses the number of a free frame as a physical address and does
    not mark the frame as used: the blocks of two successive calls are one and
    the same physical page, and on a machine whose first free frame is below
    4096 it is page 0. *)
Theorem kmalloc_aliases base pm v k lv f :
  0 < base ∧ base mod 4096 = 0 ∧ base < 2 ^ 51 →
  tables_ok base v k lv → vm_lock v = false → kernel_pml4 v = table_addr base (Z.of_nat k) →
  (size lv + 6 ≤ 512)%nat → frames pm 0 [] → first_free pm f → 0 ≤ kmalloc_addr v < 2 ^ 45 →
  returns (let* '(a, v1) := kmalloc base 4096 pm v in
           let* '(b, v2) := kmalloc base 4096 pm v1 in Done (a, b, v2)) (λ '(a, b, v2),
    b = a + 4096 ∧ ∃ e, translate base 4 v2 k a = Some e ∧ translate base 4 v2 k b = Some e ∧
    (f < 4096 → Z.land e PAGE_MASK = 0)).
Proof.
  intros Hb H Hl Hk Hs [F1 F2 F3 F4 F5 F6 F7 F8] Hf Ha. apply returns_bind.
  eapply returns_mono; [apply (kmalloc_spec base Hb pm v k lv f); try done; lia|].
  intros [a v1] (-> & Ea1 & El1 & Ek1 & lv1 & H1 & Hs1 & Ht1 & _). apply returns_bind.
  eapply returns_mono; [apply (kmalloc_spec base Hb pm v1 k lv1 f); try done; lia|].
  intros [b v2] (-> & Ea2 & _ & _ & lv2 & H2 & _ & Ht2 & Ho2). cbn [returns]. split; [done|].
  exists (page_entry f 0). split_and!; [|done|].
  - rewrite Ho2, Ht1; [done|]. rewrite Ea1, !vpage_small by lia. intros E.
    pose proof (Z.div_mod (kmalloc_addr v) 4096 ltac:(lia)).
    pose proof (Z.div_mod (kmalloc_addr v + 4096) 4096 ltac:(lia)).
    pose proof (Z.mod_pos_bound (kmalloc_addr v) 4096 ltac:(lia)).
    pose proof (Z.mod_pos_bound (kmalloc_addr v + 4096) 4096 ltac:(lia)). lia.
  - intros Hf4. destruct Hf as (Hr & _). unfold in_map in Hr.
    assert (Hbnd : 0 ≤ page_entry f 0 < 4096).
    { unfold page_entry. change (Z.lor 3 0) with 3. split; [apply Z.lor_nonneg; lia|].
      destruct (decide (f = 0)) as [->|]; [by vm_compute|]. change 4096 with (2 ^ 12).
      assert (0 < Z.lor f 3).
      { assert (0 ≤ Z.lor f 3) by (apply Z.lor_nonneg; lia). assert (Z.lor f 3 ≠ 0); [|lia].
        intros [? _]%Z.lor_eq_0_iff. lia. }
      apply Z.log2_lt_pow2; [done|]. rewrite Z.log2_lor by lia.
      apply Z.max_lub_lt; [apply Z.log2_lt_pow2; lia|by vm_compute]. }
    rewrite land_page_mask by lia. rewrite Z.div_small by lia. lia.
Qed.

(** ** Witnesses *)

(** A machine of 4 MB whose kernel ends at 0x8000, all of it free. *)
Definition demo_mb : multiboot_info_t := Multiboot 640 3456 [MemRegion 0 4194304 1; MemRegion 4194304 4096 2].
Definition demo_bytes64 : list Z := replicate 128 7.

Lemma demo_bootable : bootable demo_mb demo_bytes64 (stalloc_init64 0x7ffd) 16 9.
Proof.
  split; try by vm_compute.
  - constructor; [intros E; by vm_compute|]. constructor; [intros E; by vm_compute|constructor].
  - left. by vm_compute.
Qed.

Lemma physmem_init64_correct_witness :
  returns (physmem_init64 20 0x7ffd demo_mb demo_bytes64 (stalloc_init64 0x7ffd)) (λ '(pm, _),
    length (mem_bitmap pm) = 16%nat).
Proof.
  refine (returns_mono _ _ _ (physmem_init64_correct 20 0x7ffd demo_mb demo_bytes64 _ 16 9 demo_bootable _) _).
  - vm_compute. lia.
  - intros [pm st'] (s & _ & _ & H & _). exact H.
Defined.

Lemma setup_leaves_frames_free_witness :
  returns (physmem_setup demo_mb demo_bytes64 (stalloc_init64 0x7ffd)) (λ '(pm, _),
    ∀ p, 0 ≤ p < total_blocks pm → taken (mem_bitmap pm) p = (p mod 8 <? 4) || (p mod 32 =? 31)).
Proof.
  apply (setup_leaves_frames_free demo_mb demo_bytes64 (stalloc_init64 0x7ffd) 16);
    [reflexivity|reflexivity|reflexivity|split_and!; vm_compute; congruence].
Defined.

(** An allocator of 128 frames with frames 0 to 2 static. *)
Definition demo_pmm : pmm := Pmm [7; 0] 16 512 128 3 0 false.

Lemma demo_frames : frames demo_pmm 3 [].
Proof.
  split.
  - by apply (bool_decide_unpack _).
  - by vm_compute.
  - by vm_compute.
  - by vm_compute.
  - done.
  - intros q Hq _. assert (q = 0 ∨ q = 1 ∨ q = 2) as [->|[->| ->]] by lia; by vm_compute.
  - by intros p ?%not_elem_of_nil.
  - constructor.
Qed.

Lemma demo_frame_step : frame_step (demo_pmm, []) (Pmm [15; 0] 16 512 128 4 0 false, [3]).
Proof. apply (frame_alloc demo_pmm [] 12288). by vm_compute. Qed.

Lemma frames64_exclusive_witness : NoDup [3] ∧ Forall (λ p, 3 ≤ p ∧ p mod 64 < 32) [3].
Proof.
  destruct (frames64_exclusive demo_pmm 3 _ [3] demo_frames (rtc_once _ _ demo_frame_step)) as (H1 & H2 & _).
  exact (conj H1 H2).
Defined.

(** The pool of tables before start-up, at 2 MB. *)
Definition demo_base : Z := 0x200000.
Definition demo_vm (bm : list Z) (k : Z) : vm64 :=
  Vm64 (replicate 1024 (replicate 512 0)) bm k 0x9000 false k.
Definition demo_raw : vm64 := demo_vm (replicate 16 5) 0.

Lemma demo_base_ok : 0 < demo_base ∧ demo_base mod 4096 = 0 ∧ demo_base < 2 ^ 51.
Proof. by vm_compute. Qed.

Lemma demo_raw_ok bm k :
  Forall is_u64 bm → length bm = 16%nat → raw (demo_vm bm k).
Proof.
  intros Hu Hl. split; [by vm_compute| |done]. apply Forall_replicate.
  split; [by vm_compute|]. apply Forall_replicate. by vm_compute.
Qed.

Lemma demo_words16 : Forall is_u64 (replicate 16 5) ∧ length (replicate 16 5) = 16%nat.
Proof. split; [apply Forall_replicate; by vm_compute|by vm_compute]. Qed.

Lemma vm_init64_correct_witness :
  returns (vm_init64 demo_base 0x8000 100 demo_raw) (λ v', ∃ k, translate demo_base 4 v' k 0x8123 = Some 0x8003).
Proof.
  refine (returns_mono _ _ _ (vm_init64_correct demo_base 0x8000 100 demo_raw demo_base_ok
    (demo_raw_ok _ _ (proj1 demo_words16) (proj2 demo_words16)) _) _).
  - vm_compute. split; congruence.
  - intros v' (k & lv & _ & _ & _ & _ & _ & _ & H). exists k. rewrite H; [reflexivity|].
    split; [lia|reflexivity].
Defined.

(** The kernel's space is the empty table 0. *)
Definition demo_vm1 : vm64 := demo_vm (1 :: replicate 15 0) (table_addr demo_base 0).

Lemma demo_slot t i : slot demo_vm1 t i = 0.
Proof.
  unfold slot, demo_vm1, demo_vm. cbn [pt_pool].
  destruct (replicate 1024 (replicate 512 0) !! t) as [l|] eqn:E; [|done].
  apply lookup_replicate in E as [-> _]. change (default 0 (replicate 512 0 !! i) = 0).
  destruct (replicate 512 0 !! i) as [e|] eqn:E; [|done]. by apply lookup_replicate in E as [-> _].
Qed.

Lemma demo_child t i : child demo_base demo_vm1 t i = None.
Proof. apply child_zero, demo_slot. Qed.

Lemma demo_marks :
  forallb (λ t : nat, negb (low (Z.of_nat t)) ||
    Bool.eqb (taken (1 :: replicate 15 0) (Z.of_nat t)) (bool_decide (t = 0%nat))) (seq 0 1024) = true.
Proof. by vm_compute. Qed.

Lemma demo_tables64 : tables_ok demo_base demo_vm1 0 {[0%nat := 4%nat]}.
Proof.
  assert (R : raw demo_vm1).
  { apply demo_raw_ok; [|by vm_compute]. constructor; [by vm_compute|]. apply Forall_replicate. by vm_compute. }
  destruct R as [R1 R2 R3].
  assert (Hlv : ∀ t n, ({[0%nat := 4%nat]} : gmap nat nat) !! t = Some n → t = 0%nat ∧ n = 4%nat)
    by (intros t n [<- <-]%lookup_singleton_Some; done).
  split; try done.
  - intros t Ht Hl. pose proof demo_marks as Hm. rewrite forallb_forall in Hm.
    assert (Hin : In t (seq 0 1024)) by (apply list_elem_of_In, elem_of_seq; lia).
    specialize (Hm t Hin). rewrite Hl in Hm. apply Bool.eqb_prop in Hm.
    etrans; [exact Hm|]. apply bool_decide_ext. by rewrite dom_singleton, elem_of_singleton.
  - intros t. rewrite dom_singleton, elem_of_singleton. intros ->. split; [lia|done].
  - intros t n [_ ->]%Hlv. lia.
  - intros t L i c _ E. by rewrite demo_child in E.
  - intros t1 t2 L i1 i2 c _ _ E. by rewrite demo_child in E.
  - intros i c E. by rewrite demo_child in E.
Qed.

Lemma demo_translate va : translate demo_base 4 demo_vm1 0 va = None.
Proof. unfold translate. cbn [leaf]. by rewrite demo_child. Qed.

Lemma demo_srep : srep demo_base 0 (λ _, None) demo_vm1 ∅.
Proof.
  split; [|done|done|apply demo_translate|].
  - exists {[0%nat := 4%nat]}. split; [apply demo_tables64|]. intros t m Ht. by rewrite lookup_empty in Ht.
  - intros t m va Ht. by rewrite lookup_empty in Ht.
Qed.

Lemma demo_used : used_tables demo_vm1 ≠ 512%nat.
Proof. rewrite (used_tables_size _ _ _ _ demo_tables64), map_size_singleton. done. Qed.

Lemma address_spaces_refine_witness :
  returns (vm_create_pagetable64 demo_base 3 demo_vm1) (λ '(p, v'),
    srep demo_base 0 (λ _, None) v' {[table_of_addr demo_base p := λ _, None]}).
Proof.
  destruct (address_spaces_refine demo_base 0 (λ _, None) demo_vm1 ∅ demo_vm1 ∅ demo_base_ok demo_srep
    (rtc_refl _ _)) as (_ & _ & H & _).
  specialize (H 3). rewrite decide_False in H by exact demo_used.
  refine (returns_mono _ _ _ H _). intros [p v'] [_ Hs]. exact Hs.
Defined.

Lemma demo_first_free : first_free demo_pmm 3.
Proof.
  split_and!; [by vm_compute|by vm_compute|by vm_compute|].
  intros q Hq _. assert (q = 0 ∨ q = 1 ∨ q = 2) as [->|[->| ->]] by lia; by vm_compute.
Qed.

Lemma demo_frames0 : frames demo_pmm 0 [].
Proof. destruct demo_frames. split; try done; [intros q Hq; lia|by intros p ?%not_elem_of_nil]. Qed.

Lemma kmalloc_aliases_witness :
  returns (let* '(a, v1) := kmalloc demo_base 4096 demo_pmm demo_vm1 in
           let* '(b, v2) := kmalloc demo_base 4096 demo_pmm v1 in Done (a, b, v2)) (λ '(a, b, v2),
    b = a + 4096 ∧ ∃ e, translate demo_base 4 v2 0 a = Some e ∧ translate demo_base 4 v2 0 b = Some e ∧
    (3 < 4096 → Z.land e PAGE_MASK = 0)).
Proof.
  apply (kmalloc_aliases demo_base demo_pmm demo_vm1 0 _ 3 demo_base_ok demo_tables64 eq_refl eq_refl).
  - rewrite map_size_singleton. lia.
  - exact demo_frames0.
  - exact demo_first_free.
  - simpl. lia.
Defined.
