(* ===== verification/Elf.v ===== *)
(** * ELF executables (proc/elf.c, proc/elf.h)

    [elf_parse_header] reads the headers of a file through the VFS.  The headers
    are packed structures in the byte order of the machine; a structure is its
    bytes and a field is read from them.  [width] cuts a number to the width of
    the fields of [elf_info_t], 32 bits on the MIPS machine and 64 on x86-64. *)

From S2P Require Import Prelude Libc Tfs TfsSpec TfsRead TfsView Vfs VfsSpec VfsInv VfsOps.
From S2P Require Import PhysMem.

(** ** Fields of packed structures *)
Definition num_of_bytes (en : endian) (bytes : list Z) : Z :=
  match en with Big => le_num (reverse bytes) | Little => le_num bytes end.

(** The [n] bytes at offset [off]. *)
Definition field (en : endian) (off n : nat) (structure : list Z) : Z :=
  num_of_bytes en (take n (drop off structure)).

Section fields.
Context (en : endian).

Definition sizeof_Elf32_Ehdr : nat := 52.
Definition sizeof_Elf64_Ehdr : nat := 64.
Definition sizeof_Elf32_Phdr : nat := 32.
Definition sizeof_Elf64_Phdr : nat := 56.

(** The identification: its first four bytes as a number, and byte [i]. *)
Definition ident_i (h : list Z) : Z := field en 0 4 h.
Definition ident_c (i : nat) (h : list Z) : Z := field en i 1 h.
(** Both headers have the type at the same place. *)
Definition e_type : list Z → Z := field en 16 2.

Definition e_entry32 : list Z → Z := field en 24 4.
Definition e_phoff32 : list Z → Z := field en 28 4.
Definition e_phnum32 : list Z → Z := field en 44 2.

Definition e_entry64 : list Z → Z := field en 24 8.
Definition e_phoff64 : list Z → Z := field en 32 8.
Definition e_phnum64 : list Z → Z := field en 56 2.

(** The fields of a program header that the code uses. *)
Record phdr := Phdr {
  p_type : Z; p_flags : Z; p_offset : Z; p_vaddr : Z; p_filesz : Z; p_memsz : Z
}.

Definition phdr32 (h : list Z) : phdr :=
  Phdr (field en 0 4 h) (field en 24 4 h) (field en 4 4 h) (field en 8 4 h) (field en 16 4 h) (field en 20 4 h).
Definition phdr64 (h : list Z) : phdr :=
  Phdr (field en 0 4 h) (field en 4 4 h) (field en 8 8 h) (field en 16 8 h) (field en 32 8 h) (field en 40 8 h).
End fields.

(** ** What the parser returns *)
Record elf_info_t := ElfInfo {
  entry_point : Z;
  ro_location : Z; ro_size : Z; ro_pages : Z; ro_vaddr : Z;
  rw_location : Z; rw_size : Z; rw_pages : Z; rw_vaddr : Z
}.

Definition ELF_MAGIC : Z := 0x7f454c46.
Definition ET_EXEC : Z := 2.
Definition EI_CLASS : nat := 4.
Definition ELFCLASS64 : Z := 2.
Definition PT_LOAD : Z := 1.
Definition PF_W : Z := 2.
Definition SEG_RO : Z := 1.
Definition SEG_RW : Z := 2.

Definition set_ro (width : Z → Z) (loc size vaddr pages : Z) (e : elf_info_t) : elf_info_t :=
  let 'ElfInfo en _ _ _ _ a b c d := e in
  ElfInfo en (width loc) (width size) (width pages) (width vaddr) a b c d.
Definition set_rw (width : Z → Z) (loc size vaddr pages : Z) (e : elf_info_t) : elf_info_t :=
  let 'ElfInfo en a b c d _ _ _ _ := e in
  ElfInfo en a b c d (width loc) (width size) (width pages) (width vaddr).

(** [(p_memsz + PAGE_SIZE - 1) / PAGE_SIZE], in the width of [p_memsz]. *)
Definition pages_of (w : Z → Z) (memsz : Z) : Z := w (memsz + PAGE_SIZE - 1) / PAGE_SIZE.

(** The [switch] of the two loops: a program header changes the result and the
    set of segments found, or ends the function with an error. *)
Definition segment (width w : Z → Z) (p : phdr) (elf : elf_info_t) (segs : Z)
    : (elf_info_t * Z) + Z :=
  if p_type p =? PT_LOAD then
    if negb (Z.land (p_flags p) PF_W =? 0) then
      if negb (Z.land segs SEG_RW =? 0) then inr (-7)
      else inl (set_rw width (p_offset p) (p_filesz p) (p_vaddr p) (pages_of w (p_memsz p)) elf, Z.lor segs SEG_RW)
    else
      if negb (Z.land segs SEG_RO =? 0) then inr (-8)
      else inl (set_ro width (p_offset p) (p_filesz p) (p_vaddr p) (pages_of w (p_memsz p)) elf, Z.lor segs SEG_RO)
  else inl (elf, segs).

Section parser.
Context {F : Type} {fsd : FsDriver F}.
Context (en : endian) (width : Z → Z).
Implicit Types (s : vfs F).

(** The loop over the program headers of [size] bytes, which [decode] reads.
    [addr] is the address of the header on the stack and [buf] what the header
    holds; the loop ends with an error code or leaves the result. *)
Definition program_headers (size : nat) (decode : list Z → phdr) (w : Z → Z) (phnum : Z)
    (file addr : Z) (buf : list Z) (elf : elf_info_t) (position : Z) s
    : outcome ((elf_info_t * Z + Z) * elf_info_t * vfs F) :=
  let* r := for_loop 0 phnum (λ i '(elf, segs, position, buf, s),
    let* '((n, buf), s) := vfs_read file addr buf (Z.of_nat size) s in
    if negb (n =? Z.of_nat size) then Done (inr (-6, elf, s))
    else
    match segment width w (decode buf) elf segs with
    | inr err => Done (inr (err, elf, s))
    | inl (elf, segs) =>
        let position := s32 (position + Z.of_nat size) in
        let* '(_, s) := vfs_seek file position s in
        Done (inl (elf, segs, position, buf, s))
    end) (elf, 0, position, buf, s) in
  match r with
  | inl (elf, segs, _, _, s) => Done (inl (elf, segs), elf, s)
  | inr (err, elf, s) => Done (inr err, elf, s)
  end.

(** The arguments: the file, the address of the headers on the stack and what
    the header structures and the result hold before. *)
Definition elf_parse_header (file addr : Z) (hdr0 ph32 ph64 : list Z) (elf0 : elf_info_t) s
    : outcome (Z * elf_info_t * vfs F) :=
  let* '((n, hdr), s) := vfs_read file addr hdr0 (Z.of_nat sizeof_Elf64_Ehdr) s in
  if negb (n =? Z.of_nat sizeof_Elf64_Ehdr) then Done (-1, elf0, s)
  else
  let hdr32 := take sizeof_Elf32_Ehdr hdr in
  if negb (from_big_endian32 en (ident_i en hdr32) =? ELF_MAGIC) then Done (-2, elf0, s)
  else if negb (e_type en hdr32 =? ET_EXEC) then Done (-3, elf0, s)
  else
  let use64 := negb (Z.land (ident_c en EI_CLASS hdr32) ELFCLASS64 =? 0) in
  let phnum := if use64 then e_phnum64 en hdr else e_phnum32 en hdr32 in
  if phnum =? 0 then Done (-4, elf0, s)
  else
  let entry := width (if use64 then e_entry64 en hdr else e_entry32 en hdr32) in
  let elf := ElfInfo entry 0 0 0 0 0 0 0 0 in
  let position := s32 (if use64 then e_phoff64 en hdr else e_phoff32 en hdr32) in
  let* '(_, s) := vfs_seek file position s in
  let* '(r, elf, s) :=
    if use64 then program_headers sizeof_Elf64_Phdr (phdr64 en) u64 phnum file addr ph64 elf position s
    else program_headers sizeof_Elf32_Phdr (phdr32 en) u32 phnum file addr ph32 elf position s in
  match r with
  | inr err => Done (err, elf, s)
  | inl (elf, segs) => Done (if 0 <? segs then 1 else 0, elf, s)
  end.
End parser.

(** ** What an ELF file says, and that the parser reads it

    The program headers of a file and the segments they describe, as functions
    of the file's contents.  The parser, run on a file that the VFS has open, finds
    exactly these. *)

(** ** An open file *)
Section opened.
Context {F : Type} {fsd : FsDriver F} {spec : FsDriverSpec F}.

(** In [A], descriptor [fd] is free to be used for the file [n] with contents
    [data], number [id] of file system [fs]. *)
Record file_at (A : avfs) (fd : nat) (fs id : Z) (n : list Z) (m : afs) (h : gmap (list Z) Z)
    (data : list Z) : Prop := {
  fa_fd : (fd < 512)%nat;
  fa_fls : length (av_fls A) = 512%nat;
  fa_fs : fs ≠ 0;
  fa_contents : av_contents A !! fs = Some (m, h);
  fa_id : h !! n = Some id;
  fa_data : m !! n = Some data
}.

(** The VFS is [A] except that [fd] is open on the file at [pos], and for
    operations that were left unfinished. *)
Definition opened (A : avfs) (fd : nat) (fs id pos : Z) (s : vfs F) : Prop :=
  ∃ A', vrep s A' ∧ av_fls A' = <[fd := Openfile fs id pos]> (av_fls A) ∧ av_fss A' = av_fss A ∧
    av_contents A' = av_contents A ∧ av_ops A ≤ av_ops A'.

Context (A : avfs) (fd : nat) (fs id : Z) (n : list Z) (m : afs) (h : gmap (list Z) Z) (data : list Z).
Context (Hf : file_at A fd fs id n m h data).

Lemma opened_row pos A' :
  av_fls A' = <[fd := Openfile fs id pos]> (av_fls A) → av_row fd A' = Some (Openfile fs id pos).
Proof using Hf.
  intros E. destruct Hf. unfold av_row. rewrite E, list_lookup_insert_eq by lia. simpl.
  by destruct (Z.eqb_spec fs 0).
Qed.

Lemma opened_read pos addr buf len s :
  opened A fd fs id pos s → addr ≠ 0 → 0 ≤ len ≤ Z.of_nat (length buf) →
  returns (vfs_read (Z.of_nat fd) addr buf len s) (λ '((r, buf'), s'),
    let '(r0, bytes) := afs_read n len pos m in
    r = r0 ∧ buf' = put buf 0 bytes ∧ opened A fd fs id (if 0 <? r0 then s32 (pos + r0) else pos) s').
Proof using Hf.
  intros (A' & Hr & El & Es & Ec & Ho) Haddr Hlen. pose proof Hf as [F1 F2 F3 F4 F5 F6].
  pose proof (opened_row pos A' El) as Hrow.
  eapply returns_mono; [apply (vfs_read_spec fd addr buf len n (Openfile fs id pos) m h s A'); try done|].
  - split_and!; [done|by rewrite Ec|done].
  - intros [[r buf'] s']. cbn [seek_position]. destruct (afs_read n len pos m) as [r0 bytes].
    intros (-> & -> & Hr'). split_and!; [done|done|]. unfold av_advance in Hr'. cbn [of_filesystem fileid seek_position] in Hr'.
    destruct (0 <? r0); [|by exists A']. eexists. split; [exact Hr'|]. simpl. rewrite El, list_insert_insert_eq.
    by split_and!.
Qed.

Lemma opened_seek pos pos' s :
  opened A fd fs id pos s →
  returns (vfs_seek (Z.of_nat fd) pos' s) (λ '(r, s'),
    r = (if pos' <? 0 then VFS_INVALID_PARAMS else VFS_OK) ∧
    opened A fd fs id (if pos' <? 0 then pos else pos') s').
Proof using Hf.
  intros (A' & Hr & El & Es & Ec & Ho). pose proof Hf as [F1 F2 F3 F4 F5 F6].
  pose proof (opened_row pos A' El) as Hrow.
  eapply returns_mono; [by apply (vfs_seek_spec fd pos' s A')|]. intros [r s'].
  unfold avfs_seek. rewrite Hrow. destruct (pos' <? 0); cbn [fst snd]; intros [-> Hr'].
  - split; [done|]. eexists. split; [exact Hr'|]. simpl. split_and!; [done|done|done|lia].
  - split; [done|]. eexists. split; [exact Hr'|]. simpl. rewrite El, list_insert_insert_eq. by split_and!.
Qed.

(** After [vfs_close] the row is free again. *)
Definition closed (s : vfs F) : Prop :=
  ∃ A' pos, vrep s A' ∧ av_fls A' = <[fd := Openfile 0 id pos]> (av_fls A) ∧ av_fss A' = av_fss A ∧
    av_contents A' = av_contents A ∧ av_ops A ≤ av_ops A'.

Lemma opened_close pos s :
  opened A fd fs id pos s →
  returns (vfs_close (Z.of_nat fd) s) (λ '(r, s'), r = VFS_OK ∧ closed s').
Proof using Hf.
  intros (A' & Hr & El & Es & Ec & Ho). pose proof Hf as [F1 F2 F3 F4 F5 F6].
  pose proof (opened_row pos A' El) as Hrow.
  eapply returns_mono; [by apply (vfs_close_spec fd s A')|]. intros [r s'].
  unfold avfs_close. rewrite Hrow. cbn [fst snd]. intros [-> Hr'].
  split; [done|]. eexists _, pos. split; [exact Hr'|]. simpl. rewrite El, list_insert_insert_eq. by split_and!.
Qed.

(** Reading [size] bytes at a position inside the range of offsets. *)
Lemma opened_read_at pos addr buf (size : nat) s :
  opened A fd fs id pos s → addr ≠ 0 → length buf = size → (0 < size)%nat → 0 ≤ pos →
  pos + Z.of_nat size < 2 ^ 31 →
  returns (vfs_read (Z.of_nat fd) addr buf (Z.of_nat size) s) (λ '((r, buf'), s'),
    (pos + Z.of_nat size ≤ Z.of_nat (length data) ∧ r = Z.of_nat size ∧
       buf' = take size (drop (Z.to_nat pos) data) ∧ opened A fd fs id (pos + Z.of_nat size) s') ∨
    (Z.of_nat (length data) < pos + Z.of_nat size ∧ r < Z.of_nat size ∧ ∃ pos', opened A fd fs id pos' s')).
Proof using Hf.
  intros Ho Ha Hb Hs Hp Hmax. eapply returns_mono; [apply (opened_read pos addr buf (Z.of_nat size) s Ho Ha); lia|].
  intros [[r buf'] s']. unfold afs_read. rewrite (fa_data _ _ _ _ _ _ _ _ Hf).
  destruct (Z.ltb_spec pos 0); [lia|]. cbn [orb]. destruct (Z.ltb_spec (Z.of_nat (length data)) pos).
  - intros (-> & -> & Ho'). right. split_and!; [lia|unfold VFS_ERROR; lia|eauto].
  - intros (-> & -> & Ho'). unfold afs_slice, afs_span in *.
    destruct (decide (pos + Z.of_nat size ≤ Z.of_nat (length data))) as [Hin|Hout].
    + left. assert (E : Z.min (Z.of_nat size) (Z.of_nat (length data) - pos) = Z.of_nat size) by lia.
      rewrite E in *. rewrite Nat2Z.id. split_and!; [done|done| |].
      * unfold put. simpl. rewrite length_take, length_drop, (drop_ge buf) by lia. by rewrite app_nil_r.
      * destruct (Z.ltb_spec 0 (Z.of_nat size)); [|lia].
        rewrite s32_id in Ho' by (unfold is_s32; lia). done.
    + right. split_and!; [lia|lia|eauto].
Qed.
End opened.

(** ** The segments of a file *)
Definition is_ro (p : phdr) : Prop := p_type p = PT_LOAD ∧ Z.land (p_flags p) PF_W = 0.
Definition is_rw (p : phdr) : Prop := p_type p = PT_LOAD ∧ Z.land (p_flags p) PF_W ≠ 0.
#[global] Instance is_ro_dec p : Decision (is_ro p).
Proof. unfold is_ro. apply _. Defined.
#[global] Instance is_rw_dec p : Decision (is_rw p).
Proof. unfold is_rw. apply _. Defined.

Section segments.
Context (width w : Z → Z).

Definition with_ro (o : option phdr) (e : elf_info_t) : elf_info_t :=
  match o with
  | Some p => set_ro width (p_offset p) (p_filesz p) (p_vaddr p) (pages_of w (p_memsz p)) e
  | None => e
  end.
Definition with_rw (o : option phdr) (e : elf_info_t) : elf_info_t :=
  match o with
  | Some p => set_rw width (p_offset p) (p_filesz p) (p_vaddr p) (pages_of w (p_memsz p)) e
  | None => e
  end.

(** The first read-only and the first writable segment. *)
Definition segments_info (entry : Z) (hs : list phdr) : elf_info_t :=
  with_rw (head (filter is_rw hs)) (with_ro (head (filter is_ro hs)) (ElfInfo entry 0 0 0 0 0 0 0 0)).

Definition segments_found (hs : list phdr) : Z :=
  Z.lor (if decide (filter is_ro hs = []) then 0 else SEG_RO) (if decide (filter is_rw hs = []) then 0 else SEG_RW).

Definition single_segments (hs : list phdr) : Prop :=
  (length (filter is_ro hs) ≤ 1)%nat ∧ (length (filter is_rw hs) ≤ 1)%nat.
#[global] Instance single_segments_dec hs : Decision (single_segments hs).
Proof. unfold single_segments. apply _. Defined.

(** What is wrong with a header after the headers [hs]: it is a second segment of
    its kind. *)
Definition segment_error (hs : list phdr) (p : phdr) : option Z :=
  if decide (is_rw p ∧ filter is_rw hs ≠ []) then Some (-7)
  else if decide (is_ro p ∧ filter is_ro hs ≠ []) then Some (-8)
  else None.

Lemma segment_step entry hs p :
  single_segments hs →
  match segment width w p (segments_info entry hs) (segments_found hs) with
  | inr err => segment_error hs p = Some err ∧ ¬ single_segments (hs ++ [p])
  | inl (elf, segs) => segment_error hs p = None ∧ single_segments (hs ++ [p]) ∧ elf = segments_info entry (hs ++ [p]) ∧
      segs = segments_found (hs ++ [p])
  end.
Proof using.
  unfold single_segments, segments_info, segments_found, segment_error, segment. rewrite !filter_app.
  destruct (Z.eqb_spec (p_type p) PT_LOAD) as [Et|Et].
  2: { rewrite (filter_cons_False is_ro), (filter_cons_False is_rw) by (by intros [? _]).
       rewrite !filter_nil, !app_nil_r. unfold is_rw, is_ro. by rewrite !decide_False by (by intros [[? _] _]). }
  destruct (Z.eqb_spec (Z.land (p_flags p) PF_W) 0) as [Ew|Ew]; cbn [negb].
  - rewrite (filter_cons_True is_ro), (filter_cons_False is_rw) by (by split || (by intros [_ ?])).
    rewrite (decide_False (P := is_rw p ∧ _)) by (by intros [[_ ?] _]).
    rewrite !filter_nil, app_nil_r. destruct (filter is_ro hs) as [|q l]; simpl; intros [H1 H2].
    + rewrite (decide_False (P := is_ro p ∧ _)) by (by intros [_ ?]).
      destruct (filter is_rw hs) as [|r l']; simpl; split_and!; try done; simpl; lia.
    + rewrite (decide_True (P := is_ro p ∧ _)) by (by split).
      destruct (filter is_rw hs); simpl; (split; [done|]); rewrite length_app; simpl; lia.
  - rewrite (filter_cons_False is_ro), (filter_cons_True is_rw) by (by split || (by intros [_ ?])).
    rewrite (decide_False (P := is_ro p ∧ _)) by (by intros [[_ ?] _]).
    rewrite !filter_nil, app_nil_r. destruct (filter is_rw hs) as [|q l]; simpl; intros [H1 H2].
    + rewrite (decide_False (P := is_rw p ∧ _)) by (by intros [_ ?]).
      destruct (filter is_ro hs) as [|r l']; simpl; split_and!; try done; simpl; lia.
    + rewrite (decide_True (P := is_rw p ∧ _)) by (by split).
      destruct (filter is_ro hs); simpl; (split; [done|]); rewrite length_app; simpl; lia.
Qed.

Lemma single_segments_prefix hs hs' : single_segments (hs ++ hs') → single_segments hs.
Proof using. unfold single_segments. rewrite !filter_app, !length_app. lia. Qed.
End segments.

(** ** The ELF parser reads what the file says *)

(** ** The program header table *)
Section table.
Context (data : list Z) (size : nat) (decode : list Z → phdr) (phoff : Z).

Definition header (i : nat) : phdr :=
  decode (take size (drop (Z.to_nat (phoff + Z.of_nat i * Z.of_nat size)) data)).
Definition headers (count : nat) : list phdr := header <$> seq 0 count.

(** The table lies inside the file and holds at most one segment of a kind. *)
Definition table_ok (count : nat) : Prop :=
  ((0 < count)%nat → phoff + Z.of_nat count * Z.of_nat size ≤ Z.of_nat (length data)) ∧
  single_segments (headers count).
#[global] Instance table_ok_dec count : Decision (table_ok count).
Proof. unfold table_ok. apply _. Defined.

(** What the parser answers for header [i] if all before it are fine, and for the
    first header that is not. *)
Definition header_fault (i : nat) : option Z :=
  if Z.of_nat (length data) <? phoff + (Z.of_nat i + 1) * Z.of_nat size then Some (-6)
  else segment_error (headers i) (header i).
Definition table_error (count : nat) : option Z := head (omap header_fault (seq 0 count)).

Lemma headers_S i : headers (S i) = headers i ++ [header i].
Proof. unfold headers. rewrite seq_S, fmap_app. done. Qed.

Lemma headers_prefix i k : (i ≤ k)%nat → ∃ l, headers k = headers i ++ l.
Proof.
  intros Hi. unfold headers. replace k with (i + (k - i))%nat by lia. rewrite seq_app, fmap_app. eauto.
Qed.

Lemma table_ok_prefix i k : (i ≤ k)%nat → table_ok k → table_ok i.
Proof.
  intros Hi [H1 H2]. destruct (headers_prefix i k Hi) as [l E]. rewrite E in H2.
  split; [|by eapply single_segments_prefix].
  intros H0. specialize (H1 ltac:(lia)). nia.
Qed.

Lemma table_error_S i :
  table_error (S i) = match table_error i with Some e => Some e | None => header_fault i end.
Proof.
  unfold table_error. rewrite seq_S, omap_app. simpl. destruct (omap header_fault (seq 0 i)); simpl; [|done].
  by destruct (header_fault i).
Qed.

Lemma table_error_prefix i k e : (i ≤ k)%nat → table_error i = Some e → table_error k = Some e.
Proof.
  intros Hi He. induction Hi as [|k Hi IH]; [done|]. by rewrite table_error_S, IH.
Qed.

(** The headers are fine exactly if none of them has a fault. *)
Lemma table_error_None count : table_ok count ↔ table_error count = None.
Proof.
  induction count as [|k IH]; [split; [done|intros _; split; [lia|by split; simpl; lia]]|].
  rewrite table_error_S. split.
  - intros Hok. pose proof (table_ok_prefix k (S k) ltac:(lia) Hok) as Hk. rewrite (proj1 IH Hk).
    destruct Hok as [Hin Hs]. unfold header_fault. destruct (Z.ltb_spec (Z.of_nat (length data))
      (phoff + (Z.of_nat k + 1) * Z.of_nat size)); [specialize (Hin ltac:(lia)); lia|].
    pose proof (segment_step id id 0 _ (header k) (proj2 Hk)) as Hstep. rewrite <- headers_S in Hstep.
    destruct (segment _ _ _ _ _) as [[? ?]|err]; [by destruct Hstep|by destruct Hstep].
  - destruct (table_error k); [done|]. destruct (proj2 IH eq_refl) as [Hin Hs]. unfold header_fault.
    destruct (Z.ltb_spec (Z.of_nat (length data)) (phoff + (Z.of_nat k + 1) * Z.of_nat size)); [done|]. intros He.
    pose proof (segment_step id id 0 _ (header k) Hs) as Hstep. rewrite <- headers_S in Hstep.
    destruct (segment _ _ _ _ _) as [[? ?]|err]; [|by rewrite He in Hstep; destruct Hstep].
    destruct Hstep as (_ & Hs' & _). split; [intros _; lia|done].
Qed.

Lemma header_fault_negative i e : header_fault i = Some e → e < 0.
Proof. unfold header_fault, segment_error. repeat case_match; naive_solver lia. Qed.
End table.

Section parse.
Context {F : Type} {fsd : FsDriver F} {spec : FsDriverSpec F}.
Context (en : endian) (width : Z → Z).
Context (A : avfs) (fd : nat) (fs id : Z) (n : list Z) (m : afs) (h : gmap (list Z) Z) (data : list Z).
Context (Hf : file_at A fd fs id n m h data).

Lemma program_headers_spec (size : nat) decode w (count : nat) addr buf entry phoff s :
  opened A fd fs id phoff s → addr ≠ 0 → length buf = size → (0 < size)%nat → 0 ≤ phoff →
  phoff + (Z.of_nat count + 1) * Z.of_nat size < 2 ^ 31 →
  returns (program_headers width size decode w (Z.of_nat count) (Z.of_nat fd) addr buf
             (ElfInfo entry 0 0 0 0 0 0 0 0) phoff s) (λ '((r, elf), s'),
    (∃ pos, opened A fd fs id pos s') ∧
    let hs := headers data size decode phoff count in
    if decide (table_ok data size decode phoff count)
    then r = inl (elf, segments_found hs) ∧ elf = segments_info width w entry hs
    else ∃ err, r = inr err ∧ err < 0 ∧ table_error data size decode phoff count = Some err).
Proof using Hf.
  intros Ho Ha Hb Hs Hp Hmax.
  assert (Hexit : ∀ k err, table_ok data size decode phoff k → (k < count)%nat →
    header_fault data size decode phoff k = Some err → table_error data size decode phoff count = Some err).
  { intros k err Hok Hk Hh. apply (table_error_prefix _ _ _ _ (S k)); [lia|].
    rewrite table_error_S. by rewrite (proj1 (table_error_None _ _ _ _ k) Hok). }
  unfold program_headers. apply returns_bind.
  eapply returns_mono; [apply (for_loop_inv (λ i '(elf, segs, position, buf, s'), ∃ k : nat, i = Z.of_nat k ∧
      table_ok data size decode phoff k ∧ elf = segments_info width w entry (headers data size decode phoff k) ∧
      segs = segments_found (headers data size decode phoff k) ∧ position = phoff + i * Z.of_nat size ∧
      length buf = size ∧ opened A fd fs id position s')
    (λ '(err, _, s'), err < 0 ∧ table_error data size decode phoff count = Some err ∧ ∃ pos, opened A fd fs id pos s'))|].
  - lia.
  - exists 0%nat. split_and!; try done; [split; [lia|by split; simpl; lia]|lia].
  - intros i [[[[elf segs] position] buf'] s'] Hi (k & -> & Hok & -> & -> & -> & Hb' & Ho').
    assert (Hik : (k < count)%nat) by lia. apply returns_bind.
    eapply returns_mono; [apply (opened_read_at A fd fs id n m h data Hf _ addr buf' size s' Ho' Ha Hb' Hs); nia|].
    intros [[r buf2] s2] [(Hin & -> & -> & Ho2)|(Hout & Hr & Ho2)].
    + rewrite Z.eqb_refl. cbn [negb]. change (decode _) with (header data size decode phoff k).
      pose proof (segment_step width w entry _ (header data size decode phoff k) (proj2 Hok)) as Hseg.
      rewrite <- headers_S in Hseg. destruct (segment _ _ _ _ _) as [[elf' segs']|err].
      * destruct Hseg as (_ & H1 & -> & ->). apply returns_bind.
        rewrite s32_id by (unfold is_s32; nia).
        eapply returns_mono; [apply (opened_seek A fd fs id n m h data Hf (phoff + Z.of_nat k * Z.of_nat size + Z.of_nat size) (phoff + Z.of_nat k * Z.of_nat size + Z.of_nat size) s2 Ho2)|].
        intros [r3 s3] [_ Ho3]. destruct (Z.ltb_spec (phoff + Z.of_nat k * Z.of_nat size + Z.of_nat size) 0); [nia|].
        cbn [returns]. exists (S k). split_and!; try done; try lia.
        -- split; [intros _; lia|done].
        -- rewrite length_take, length_drop. lia.
      * destruct Hseg as [He _]. assert (Hfault : header_fault data size decode phoff k = Some err).
        { unfold header_fault. by destruct (Z.ltb_spec (Z.of_nat (length data)) (phoff + (Z.of_nat k + 1) * Z.of_nat size)); [lia|]. }
        cbn [returns]. split_and!; [by eapply header_fault_negative| |eauto]. by apply (Hexit k).
    + destruct (Z.eqb_spec r (Z.of_nat size)); [lia|]. cbn [negb returns].
      split_and!; [done| |done]. apply (Hexit k); [done|lia|]. unfold header_fault.
      by destruct (Z.ltb_spec (Z.of_nat (length data)) (phoff + (Z.of_nat k + 1) * Z.of_nat size)); [|lia].
  - intros [[[[[elf segs] position] buf'] s']|[[err elf] s']]; cbn [outcome_bind returns].
    + intros (k & Ek & Hok & -> & -> & _ & _ & Ho'). apply Nat2Z.inj in Ek as <-. split; [eauto|].
      cbv zeta. by rewrite decide_True.
    + intros (He & Hno & Ho'). split; [done|]. cbv zeta. rewrite decide_False; [eauto|].
      intros Hok. apply table_error_None in Hok. congruence.
Qed.

End parse.

(** ** The header *)
Section header.
Context (en : endian) (width : Z → Z) (data : list Z).

Definition use64 : bool := negb (Z.land (ident_c en EI_CLASS data) ELFCLASS64 =? 0).
Definition phnum : Z := if use64 then e_phnum64 en data else e_phnum32 en data.
Definition phoff : Z := if use64 then e_phoff64 en data else e_phoff32 en data.
Definition entry : Z := width (if use64 then e_entry64 en data else e_entry32 en data).

(** The first test that the header fails. *)
Definition header_error : option Z :=
  if Z.of_nat (length data) <? 64 then Some (-1)
  else if negb (num_of_bytes Big (take 4 data) =? ELF_MAGIC) then Some (-2)
  else if negb (e_type en data =? ET_EXEC) then Some (-3)
  else if phnum =? 0 then Some (-4)
  else None.

(** The program headers, and the word in which their sizes are rounded. *)
Definition file_headers : list phdr :=
  if use64 then headers data 56 (phdr64 en) phoff (Z.to_nat phnum)
  else headers data 32 (phdr32 en) phoff (Z.to_nat phnum).
Definition file_word : Z → Z := if use64 then u64 else u32.
Definition file_ok : Prop :=
  if use64 then table_ok data 56 (phdr64 en) phoff (Z.to_nat phnum)
  else table_ok data 32 (phdr32 en) phoff (Z.to_nat phnum).
#[global] Instance file_ok_dec : Decision file_ok.
Proof using. unfold file_ok. destruct use64; apply _. Defined.

(** The answer to the first program header that is wrong. *)
Definition file_error : option Z :=
  if use64 then table_error data 56 (phdr64 en) phoff (Z.to_nat phnum)
  else table_error data 32 (phdr32 en) phoff (Z.to_nat phnum).

Lemma file_error_None : file_ok ↔ file_error = None.
Proof using. unfold file_ok, file_error. destruct use64; apply table_error_None. Qed.

(** What the parser finds in the file. *)
Definition file_info : elf_info_t := segments_info width file_word entry file_headers.

(** The end of the table, and room for one more header, is an offset. *)
Definition table_fits : Prop :=
  phoff + (phnum + 1) * (if use64 then 56 else 32) < 2 ^ 31.

Definition elf_result (r : Z) (elf0 elf : elf_info_t) : Prop :=
  match header_error with
  | Some e => r = e ∧ elf = elf0
  | None =>
      if decide file_ok then r = (if 0 <? segments_found file_headers then 1 else 0) ∧ elf = file_info
      else r < 0 ∧ file_error = Some r
  end.

Lemma field_take off k (j : nat) l : (off + k ≤ j)%nat → field en off k (take j l) = field en off k l.
Proof using. intros H. unfold field. rewrite skipn_firstn_comm, take_take. by rewrite Nat.min_l by lia. Qed.

Lemma field_range off k l : Forall is_u8 l → 0 ≤ field en off k l.
Proof using.
  intros H. unfold field. assert (Hb : Forall is_u8 (take k (drop off l))) by (by apply Forall_take, Forall_drop).
  destruct en; simpl; [apply (le_num_range (reverse _)), Forall_reverse, Hb|apply (le_num_range _ Hb)].
Qed.
End header.

Section whole.
Context {F : Type} {fsd : FsDriver F} {spec : FsDriverSpec F}.
Context (en : endian) (width : Z → Z).
Context (A : avfs) (fd : nat) (fs id : Z) (n : list Z) (m : afs) (h : gmap (list Z) Z) (data : list Z).
Context (Hf : file_at A fd fs id n m h data).

Lemma elf_parse_spec addr hdr0 ph32 ph64 elf0 s :
  Forall is_u8 data → addr ≠ 0 → length hdr0 = 64%nat → length ph32 = 32%nat → length ph64 = 56%nat →
  (header_error en data = None → table_fits en data) → opened A fd fs id 0 s →
  returns (elf_parse_header en width (Z.of_nat fd) addr hdr0 ph32 ph64 elf0 s) (λ '((r, elf), s'),
    elf_result en width data r elf0 elf ∧ ∃ pos, opened A fd fs id pos s').
Proof using Hf.
  intros Hu Ha Hl Hl32 Hl64 Hfit Ho. unfold elf_parse_header, elf_result, header_error in *. apply returns_bind.
  eapply returns_mono; [apply (opened_read_at A fd fs id n m h data Hf 0 addr hdr0 64 s Ho Ha Hl); lia|].
  intros [[r hdr] s1] [(Hin & -> & -> & Ho1)|(Hout & Hr & Ho1)].
  2: { change (Z.of_nat sizeof_Elf64_Ehdr) with 64. destruct (Z.eqb_spec r 64); [lia|].
       cbn [negb returns]. destruct (Z.ltb_spec (Z.of_nat (length data)) 64); [done|lia]. }
  rewrite Z.eqb_refl. cbn [negb]. destruct (Z.ltb_spec (Z.of_nat (length data)) 64); [lia|]. cbv iota in Hfit.
  change (drop (Z.to_nat 0) data) with data.
  set (hdr := take 64 data). set (h32 := take sizeof_Elf32_Ehdr hdr).
  assert (F64 : ∀ off k, (off + k ≤ 64)%nat → field en off k hdr = field en off k data).
  { intros. by apply field_take. }
  assert (F32 : ∀ off k, (off + k ≤ 52)%nat → field en off k h32 = field en off k data).
  { intros. unfold h32, sizeof_Elf32_Ehdr. rewrite field_take by done. apply F64. lia. }
  assert (Em : from_big_endian32 en (ident_i en h32) = num_of_bytes Big (take 4 data)).
  { unfold ident_i. rewrite F32 by lia. unfold field. apply (from_big_endian32_native en (take 4 data)).
    - by apply Forall_take.
    - rewrite length_take. lia. }
  assert (E64 : negb (Z.land (ident_c en EI_CLASS h32) ELFCLASS64 =? 0) = use64 en data).
  { unfold use64, ident_c. by rewrite F32 by (unfold EI_CLASS; lia). }
  assert (En : (if use64 en data then e_phnum64 en hdr else e_phnum32 en h32) = phnum en data).
  { unfold phnum, e_phnum64, e_phnum32. by rewrite F64, F32 by lia. }
  assert (Ep : (if use64 en data then e_phoff64 en hdr else e_phoff32 en h32) = phoff en data).
  { unfold phoff, e_phoff64, e_phoff32. by rewrite F64, F32 by lia. }
  assert (Ee : width (if use64 en data then e_entry64 en hdr else e_entry32 en h32) = entry en width data).
  { unfold entry, e_entry64, e_entry32. by rewrite F64, F32 by lia. }
  assert (Et : e_type en h32 = e_type en data) by (unfold e_type; by rewrite F32 by lia).
  cbv zeta. fold h32. rewrite Em, Et, E64, En, Ep, Ee.
  destruct (num_of_bytes Big (take 4 data) =? ELF_MAGIC); cbn [negb returns] in *; [|by split; [|eexists]].
  destruct (e_type en data =? ET_EXEC); cbn [negb returns] in *; [|by split; [|eexists]].
  assert (0 ≤ phnum en data) by (unfold phnum; destruct (use64 en data); by apply field_range).
  assert (0 ≤ phoff en data) by (unfold phoff; destruct (use64 en data); by apply field_range).
  destruct (Z.eqb_spec (phnum en data) 0) as [Ez|Ez]; [by split; [|eexists]|]. apply returns_bind.
  specialize (Hfit eq_refl). unfold table_fits in Hfit.
  rewrite s32_id by (unfold is_s32; destruct (use64 en data); lia).
  eapply returns_mono; [apply (opened_seek A fd fs id n m h data Hf _ (phoff en data) s1 Ho1)|].
  intros [r2 s2] [_ Ho2]. destruct (Z.ltb_spec (phoff en data) 0); [lia|]. apply returns_bind.
  unfold file_info, file_headers, file_word, file_error. destruct (decide (file_ok en data)) as [Hok|Hok];
    unfold file_ok in Hok; destruct (use64 en data).
  all: rewrite <- (Z2Nat.id (phnum en data)) at 1 by done.
  all: eapply returns_mono; [apply (program_headers_spec width A fd fs id n m h data Hf); try done; unfold sizeof_Elf64_Phdr, sizeof_Elf32_Phdr; lia|].
  all: intros [[r3 elf] s3] [Ho3 Hr]; cbv zeta in Hr.
  1, 2: rewrite decide_True in Hr by done; destruct Hr as [-> ->]; by split.
  all: rewrite decide_False in Hr by done; destruct Hr as (e & -> & He); by split.
Qed.
End whole.
