(* ===== verification/Process.v ===== *)
(** * Starting processes (proc/process.c, proc/x86_64/_proc.c, kernel/x86_64/cswitch.c)

    [process_start] builds an address space from an ELF file and enters it.  The
    state is that of the parts it uses: the VFS, the frame allocator, the page
    tables, physical memory, and the contexts of the threads.  An access to
    memory goes through the page tables that [cr3] selects, as in the processor.
    process.c is built for x86-64 only. *)

From S2P Require Import Prelude X86Cpu Libc PhysMem Tfs Vfs X86Bits X86Phys X86Paging X86Spaces Elf.

(** ** Threads *)
Record context64 := Context64 {
  ctx_stack : Z; ctx_rip : Z; ctx_flags : Z; ctx_pml4 : Z; ctx_virt_memory : Z
}.

Definition set_ctx_stack (x : Z) (c : context64) : context64 :=
  let 'Context64 _ b c d e := c in Context64 x b c d e.
Definition _context_set_sp64 (c : context64) (sp : Z) : context64 := set_ctx_stack sp c.
Definition _context_set_ip64 (c : context64) (ip : Z) : context64 :=
  let 'Context64 a _ c d e := c in Context64 a ip c d e.
Definition set_ctx_memory (pml4 : Z) (c : context64) : context64 :=
  let 'Context64 a b c _ _ := c in Context64 a b c pml4 pml4.

(** The fields of a row of the thread table that are used here, with what the
    two context pointers point to. *)
Record thread64 := Thread64 {
  th_context : context64; th_user_context : context64; th_pagetable : Z; th_attribs : Z
}.

Definition on_context (f : context64 → context64) (t : thread64) : thread64 :=
  let 'Thread64 a b c d := t in Thread64 (f a) b c d.
Definition set_pagetable64 (p : Z) (t : thread64) : thread64 :=
  let 'Thread64 a b _ d := t in Thread64 a b p d.
Definition enter_user (c : context64) (attrib : Z) (t : thread64) : thread64 :=
  let 'Thread64 a _ p d := t in Thread64 a c p (u32 (Z.lor d attrib)).

(** ** The machine *)
Record machine (F : Type) := Machine {
  m_vfs : vfs F;
  m_pmm : pmm;
  m_vm : vm64;
  m_memory : Z → Z;
  m_threads : list thread64;
  m_current : Z;
  m_intr : bool
}.
Arguments Machine {F}.
Arguments m_vfs {F}.
Arguments m_pmm {F}.
Arguments m_vm {F}.
Arguments m_memory {F}.
Arguments m_threads {F}.
Arguments m_current {F}.
Arguments m_intr {F}.

Definition CONFIG_USERLAND_STACK_SIZE : Z := 1.
Definition USERLAND_STACK_TOP : Z := 0xFFFFFFFFFFFFFFFF.
Definition PAGE_SIZE_MASK : Z := 0xFFFFFFFFFFFFF000.
Definition THREAD_FLAG_ENTERUSER : Z := 0x2.
Definition THREAD_FLAGS : Z := 0x200202.

Section process.
Context {F : Type} {fsd : FsDriver F}.
Context (pt_pool_addr : Z).
Implicit Types (m : machine F).

Definition with_vfs (x : vfs F) m : machine F := let 'Machine _ b c d e f g := m in Machine x b c d e f g.
Definition with_pmm (x : pmm) m : machine F := let 'Machine a _ c d e f g := m in Machine a x c d e f g.
Definition with_vm (x : vm64) m : machine F := let 'Machine a b _ d e f g := m in Machine a b x d e f g.
Definition with_memory (x : Z → Z) m : machine F := let 'Machine a b c _ e f g := m in Machine a b c x e f g.
Definition with_threads (x : list thread64) m : machine F := let 'Machine a b c d _ f g := m in Machine a b c d x f g.
Definition with_intr (x : bool) m : machine F := let 'Machine a b c d e f _ := m in Machine a b c d e f x.

Definition _interrupt_disable m : bool * machine F := (m_intr m, with_intr false m).
Definition _interrupt_set_state (x : bool) m : machine F := with_intr x m.

(** ** Memory accesses

    Addresses are sign-extended from 48 bits; any other is a fault, and so is
    an address whose page is not present. *)
Definition canonical (va : Z) : bool :=
  (0 <=? va) && (va <? 2 ^ 47) || (2 ^ 64 - 2 ^ 47 <=? va) && (va <? 2 ^ 64).

Definition physical (va : Z) m : outcome Z :=
  if canonical va then
    match translate pt_pool_addr 4 (m_vm m) (table_of_addr pt_pool_addr (cr3 (m_vm m))) va with
    | Some e => Done (4096 * ((e mod 2 ^ 52) / 4096) + va mod 4096)
    | None => Fault
    end
  else Fault.

Definition load_byte (va : Z) m : outcome Z :=
  let* p := physical va m in Done (m_memory m p).

Fixpoint load_bytes (va : Z) (n : nat) m : outcome (list Z) :=
  match n with
  | O => Done []
  | S n => let* b := load_byte va m in let* r := load_bytes (va + 1) n m in Done (b :: r)
  end.

Definition store_byte (va b : Z) m : outcome (machine F) :=
  let* p := physical va m in Done (with_memory (λ q, if q =? p then b else m_memory m q) m).

Fixpoint store_bytes (va : Z) (bytes : list Z) m : outcome (machine F) :=
  match bytes with
  | [] => Done m
  | b :: r => let* m := store_byte va b m in store_bytes (va + 1) r m
  end.

Definition store64 (va x : Z) m : outcome (machine F) := store_bytes va (le_bytes 8 x) m.

(** ** Address spaces *)
Definition get_thread (tid : Z) m : outcome thread64 := aread (m_threads m) tid.
Definition update_thread (tid : Z) (f : thread64 → thread64) m : outcome (machine F) :=
  let* t := get_thread tid m in
  let* l := awrite (m_threads m) tid (f t) in Done (with_threads l m).

Definition process_set_pagetable (pagetable : Z) m : outcome (machine F) :=
  let '(intr_status, m) := _interrupt_disable m in
  let m := with_vm (vmm_setcr3 pagetable (m_vm m)) m in
  let* m := update_thread (m_current m) (on_context (set_ctx_memory pagetable)) m in
  Done (_interrupt_set_state intr_status m).

(** A new page in the address space, filled with zeros.  The same statements
    begin each of the three loops of [setup_new_process]. *)
Definition new_page (pagetable virt_page : Z) m : outcome (Z * machine F) :=
  let* '(phys_page, p) := physmem_allocblock64 (m_pmm m) in
  let m := with_pmm p m in
  let* _ := kassert (negb (phys_page =? 0)) in
  let* v := vm_map64 pt_pool_addr pagetable phys_page virt_page (Z.lor PAGE_USER PAGE_WRITE) (m_vm m) in
  let m := with_vm v m in
  let* page := load_bytes virt_page (Z.to_nat PAGE_SIZE) m in
  let* page := memoryset page 0 PAGE_SIZE in
  let* m := store_bytes virt_page page m in
  Done (phys_page, m).

(** The part of a segment that a page holds. *)
Definition fill_page (file location size i virt_page : Z) m : outcome (machine F) :=
  let left_to_read := s32 (u64 (size - i * PAGE_SIZE)) in
  if 0 <? left_to_read then
    let* '(r, s) := vfs_seek file (s32 (u64 (location + i * PAGE_SIZE))) (m_vfs m) in
    let m := with_vfs s m in
    let* _ := kassert (r =? VFS_OK) in
    let n := MIN PAGE_SIZE left_to_read in
    let* buf := load_bytes virt_page (Z.to_nat n) m in
    let* '((r, buf), s) := vfs_read file virt_page buf n (m_vfs m) in
    let* m := store_bytes virt_page buf (with_vfs s m) in
    let* _ := kassert (r =? n) in Done m
  else Done m.

Definition load_stack (pagetable : Z) m : outcome (machine F) :=
  for_each 0 CONFIG_USERLAND_STACK_SIZE (λ i m,
    let virt_page := u64 (Z.land USERLAND_STACK_TOP PAGE_SIZE_MASK - i * PAGE_SIZE) in
    let* '(_, m) := new_page pagetable virt_page m in Done m) m.

Definition load_ro (pagetable file : Z) (elf : elf_info_t) m : outcome (machine F) :=
  for_each 0 (s32 (ro_pages elf)) (λ i m,
    let virt_page := u64 (ro_vaddr elf + i * PAGE_SIZE) in
    let* '(phys_page, m) := new_page pagetable virt_page m in
    let* m := fill_page file (ro_location elf) (ro_size elf) i virt_page m in
    let* v := vm_map64 pt_pool_addr pagetable phys_page virt_page PAGE_USER (m_vm m) in
    Done (with_vm v m)) m.

Definition load_rw (pagetable file : Z) (elf : elf_info_t) m : outcome (machine F) :=
  for_each 0 (s32 (rw_pages elf)) (λ i m,
    let virt_page := u64 (rw_vaddr elf + i * PAGE_SIZE) in
    let* '(phys_page, m) := new_page pagetable virt_page m in
    fill_page file (rw_location elf) (rw_size elf) i virt_page m) m.

(** What the local variables hold before they are set: the two name buffers of
    the VFS, the headers of the ELF parser with their address, the result. *)
Record locals := Locals {
  l_vol : list Z; l_file : list Z;
  l_headers : Z; l_hdr : list Z; l_ph32 : list Z; l_ph64 : list Z; l_elf : elf_info_t
}.

(** The result is the returned number, [*entry_point] and [*stack_top]. *)
Definition setup_new_process (l : locals) (thread : Z) (executable : list Z) (entry0 stack0 : Z) m
    : outcome ((Z * Z * Z) * machine F) :=
  let* cur := get_thread (m_current m) m in
  let current_pml4 := ctx_virt_memory (th_context cur) in
  let* '(file, s) := vfs_open executable (l_vol l) (l_file l) (m_vfs m) in
  let m := with_vfs s m in
  if file <? 0 then Done ((-1, entry0, stack0), m) else
  let* '(res, elf, s) :=
    elf_parse_header Little u64 file (l_headers l) (l_hdr l) (l_ph32 l) (l_ph64 l) (l_elf l) (m_vfs m) in
  let m := with_vfs s m in
  if res <? 0 then Done ((-1, entry0, stack0), m) else
  if entry_point elf <=? VMM_KERNEL_SPACE then Done ((-1, entry0, stack0), m) else
  let* '(pagetable, v) := vm_create_pagetable64 pt_pool_addr (u32 thread) (m_vm m) in
  let m := with_vm v m in
  let '(intr_status, m) := _interrupt_disable m in
  let* m := process_set_pagetable pagetable m in
  let* m := update_thread thread (set_pagetable64 pagetable) m in
  let* m := load_stack pagetable m in
  let* m := load_ro pagetable file elf m in
  let* m := load_rw pagetable file elf m in
  let* '(_, s) := vfs_close file (m_vfs m) in
  let m := with_vfs s m in
  let* m := process_set_pagetable current_pml4 m in
  let* m := update_thread thread (on_context (set_ctx_memory pagetable)) m in
  Done ((0, entry_point elf, USERLAND_STACK_TOP), _interrupt_set_state intr_status m).

(** ** Entering the process *)

(** [*(rsp--) = x] for each number. *)
Fixpoint push_words (rsp : Z) (words : list Z) m : outcome (Z * machine F) :=
  match words with
  | [] => Done (rsp, m)
  | x :: r => let* m := store64 rsp x m in push_words (u64 (rsp - 8)) r m
  end.

(** [*rsp] and the words below it: the frame from which the interrupt handler
    loads the registers.  The last word is stored without moving the pointer. *)
Definition push_frame (stack endentry entry rdi : Z) m : outcome (Z * machine F) :=
  let* '(rsp, m) := push_words stack
    [endentry; 8 * GDT_KERNEL_DATA; stack; THREAD_FLAGS; 8 * GDT_KERNEL_CODE; entry] m in
  let* '(rsp, m) := push_words rsp [0; 0; 0; 0; 0; 0; 0; 0; rdi; 0; rsp; 0; 0; 0; 0] m in
  let* m := store64 rsp 0 m in Done (rsp, m).

Definition align_stack (stack : Z) : Z :=
  if negb (Z.land stack 0xF =? 0) then u64 (Z.land stack 0xFFFFFFFFFFFFFFF0 + 0x10) else stack.

Definition _context_init64 (c : context64) (entry endentry stack args : Z) m
    : outcome (context64 * machine F) :=
  let stack := align_stack stack in
  let* '(rsp, m) := push_frame stack endentry entry args m in
  let pml4 := vmm_get_kernel_pml4 (m_vm m) in
  Done (Context64 rsp (ctx_rip c) 0 pml4 pml4, m).

(** Up to the switch to another thread, which does not come back. *)
Definition _context_enter_userland (c : context64) m : outcome (machine F) :=
  let stack := align_stack (u64 (ctx_stack c - 0x10)) in
  let* '(rsp, m) := push_frame stack 0 (ctx_rip c) 0 m in
  update_thread (m_current m) (enter_user (set_ctx_stack rsp c) THREAD_FLAG_ENTERUSER) m.

(** [inl] is a return of the function, [inr] the state in which the thread
    yields to be resumed in the process. *)
Definition process_start (l : locals) (executable : list Z) (entry0 stack0 : Z) m
    : outcome (machine F + machine F) :=
  let my_thread := m_current m in
  let* '((ret, entry_point, stack_top), m) := setup_new_process l my_thread executable entry0 stack0 m in
  if negb (ret =? 0) then Done (inl m) else
  let user_context := Context64 0 0 0 0 0 in
  let user_context := _context_set_ip64 user_context entry_point in
  let user_context := _context_set_sp64 user_context stack_top in
  let* t := get_thread my_thread m in
  let m := with_vm (vmm_setcr3 (ctx_pml4 (th_context t)) (m_vm m)) m in
  let* m := _context_enter_userland user_context m in
  Done (inr m).
End process.
