(* ===== verification/ProcLoad.v ===== *)
(** * Loading a process: memory, frames and pages

    Pages seen through the page tables, and the steps that allocate, map and
    fill them. *)


From S2P Require Import Prelude ByteMem Libc Tfs TfsSpec TfsRead TfsView Vfs VfsSpec VfsInv.
From S2P Require Import VfsOps PhysMem X86Bits X86Phys X86Paging X86Map.
From S2P Require Import X86Space X86Spaces Elf Process.

(** ** Memory of a process: pages seen through the page tables

    A page of the address space in force is a range of physical memory; frames
    are counted; and writing through the page tables is writing to the frame. *)

(** ** Frames left *)
Definition frame_free (bm : list Z) (q : nat) : Prop := low (Z.of_nat q) = true ∧ taken bm (Z.of_nat q) = false.
#[global] Instance frame_free_dec bm q : Decision (frame_free bm q).
Proof. unfold frame_free. apply _. Defined.

(** The frames that the allocator can still hand out. *)
Definition frames_left (pm : pmm) : nat :=
  length (filter (frame_free (mem_bitmap pm)) (seq 0 (64 * length (mem_bitmap pm)))).

Lemma filter_agree_on {A} (P Q : A → Prop) `{!∀ x, Decision (P x)} `{!∀ x, Decision (Q x)} (l : list A) :
  (∀ x, x ∈ l → P x ↔ Q x) → filter P l = filter Q l.
Proof.
  induction l as [|x l IH]; intros Hl; [done|]. pose proof (Hl x ltac:(left)) as Hx.
  rewrite !filter_cons, IH by (intros y Hy; apply Hl; by right).
  destruct (decide (P x)), (decide (Q x)); tauto || done.
Qed.

Lemma filter_one_less {A} (P Q : A → Prop) `{!∀ x, Decision (P x)} `{!∀ x, Decision (Q x)} (l : list A) x :
  NoDup l → x ∈ l → P x → (∀ y, y ∈ l → Q y ↔ P y ∧ y ≠ x) → length (filter P l) = S (length (filter Q l)).
Proof.
  intros Hnd Hin Hx HQ. apply elem_of_Permutation in Hin as [l' E]. rewrite E in Hnd. apply NoDup_cons in Hnd as [Hni _].
  assert (HQ' : ∀ y, y ∈ x :: l' → Q y ↔ P y ∧ y ≠ x) by (intros y Hy; apply HQ; by rewrite E).
  rewrite E, filter_cons_True, filter_cons_False by (done || (intros HQx; apply HQ' in HQx; [tauto|left])).
  simpl. f_equal. f_equal. apply filter_agree_on. intros y Hy. rewrite HQ' by (by right).
  split; [intros HP; split; [done|by intros ->]|tauto].
Qed.

Lemma alloc_left pm s held :
  frames pm s held → (0 < frames_left pm)%nat → used_blocks pm < total_blocks pm →
  returns (physmem_allocblock64 pm) (λ '(a, pm'), ∃ p, a = p * PMM_BLOCK_SIZE ∧ s ≤ p < 2 ^ 40 ∧
    frames pm' s (p :: held) ∧ frames_left pm = S (frames_left pm') ∧
    used_blocks pm' = used_blocks pm + 1 ∧ total_blocks pm' = total_blocks pm).
Proof.
  intros H Hl Hu. destruct (search_cases pm) as [[p Hp]|Hall].
  - pose proof (alloc_free pm s held H p Hp Hu) as Hr. destruct (physmem_allocblock64 pm) as [[a pm']| | | |]; try done.
    cbn [returns] in *. destruct Hr as (-> & Hf & [Elen Etot] & Eu & Htk). exists p.
    destruct Hp as (Hin & Hlow & Hfree & _). pose proof (fr_size _ _ _ H).
    unfold in_map in Hin. destruct (fr_held _ _ _ Hf p ltac:(left)) as (? & _).
    split_and!; try done; [lia|]. unfold frames_left. rewrite Elen.
    apply (filter_one_less _ _ _ (Z.to_nat p)); [apply NoDup_seq|apply elem_of_seq; lia|..].
    + unfold frame_free. by rewrite Z2Nat.id by lia.
    + intros q Hq%elem_of_seq. unfold frame_free. rewrite Htk by lia. split.
      * intros [Hlq [Hq1 Hq2]%orb_false_elim]. split_and!; [done..|]. intros ->.
        rewrite Z2Nat.id in Hq2 by lia. by rewrite same_flag_refl in Hq2.
      * intros [[Hlq Hq1] Hne]. split; [done|]. rewrite Hq1, low_same by done. simpl. apply Z.eqb_neq. lia.
  - exfalso. unfold frames_left in Hl. destruct (filter _ _) as [|q l] eqn:E; [simpl in Hl; lia|].
    assert (Hq : q ∈ filter (frame_free (mem_bitmap pm)) (seq 0 (64 * length (mem_bitmap pm)))) by (rewrite E; left).
    apply list_elem_of_filter in Hq as [[Hlow Hf] Hin%elem_of_seq]. unfold taken in Hf.
    destruct (mem_bitmap pm !! Z.to_nat (Z.of_nat q / 64)) as [w|] eqn:Ew; [by rewrite (Hall _ _ _ Ew) in Hf|].
    apply lookup_ge_None in Ew. assert (Z.of_nat q / 64 < Z.of_nat (length (mem_bitmap pm))); [|lia].
    apply Z.div_lt_upper_bound; lia.
Qed.

(** ** Pages in memory *)
Section pages.
Context {F : Type} {fsd : FsDriver F}.
Context (base : Z).
Implicit Types (m : machine F).

(** A page of the upper half, where processes live. *)
Definition user_page (va : Z) : Prop := va mod 4096 = 0 ∧ 2 ^ 64 - 2 ^ 47 ≤ va ∧ va + 4096 ≤ 2 ^ 64.

Lemma user_page_address va o : user_page va → 0 ≤ o < 4096 →
  canonical (va + o) = true ∧ user_address (va + o) ∧ vpage (va + o) = vpage va ∧ (va + o) mod 4096 = o.
Proof using.
  intros (Hm & H1 & H2) Ho.
  assert (Hd : (va + o) / 4096 = va / 4096).
  { symmetry. apply (Z.div_unique _ _ _ o); [left; lia|]. pose proof (Z.div_mod va 4096). lia. }
  split_and!.
  - unfold canonical. destruct (Z.leb_spec (2 ^ 64 - 2 ^ 47) (va + o)), (Z.ltb_spec (va + o) (2 ^ 64)); try lia.
  - unfold user_address. pose proof (idx_div 4 (va + o)) as E. change (3 + 9 * Z.of_nat 4) with 39 in E.
    assert (2 ^ 25 - 2 ^ 8 ≤ (va + o) / 2 ^ 39 < 2 ^ 25).
    { split; [apply Z.div_le_lower_bound; lia|apply Z.div_lt_upper_bound; lia]. }
    assert (((va + o) / 2 ^ 39) mod 512 = (va + o) / 2 ^ 39 - 512 * 65535); [|lia].
    symmetry. apply (Z.mod_unique _ _ 65535); [left|]; lia.
  - unfold vpage. by rewrite Hd.
  - rewrite Z.add_mod, Hm by lia. rewrite Z.add_0_l, Z.mod_mod by lia. by apply Z.mod_small.
Qed.

Lemma user_page_inj va va' : user_page va → user_page va' → vpage va = vpage va' → va = va'.
Proof using.
  intros (Hm & H1 & H2) (Hm' & H1' & H2') E. unfold vpage in E.
  pose proof (Z.div_mod va 4096 ltac:(lia)) as D. pose proof (Z.div_mod va' 4096 ltac:(lia)) as D'.
  assert (Hb : ∀ x, 2 ^ 64 - 2 ^ 47 ≤ x → x + 4096 ≤ 2 ^ 64 → (x / 4096) mod 2 ^ 36 = x / 4096 - 2 ^ 36 * (2 ^ 16 - 1)).
  { intros x Hx1 Hx2. symmetry. apply (Z.mod_unique _ _ (2 ^ 16 - 1)); [left|lia].
    assert (2 ^ 52 - 2 ^ 35 ≤ x / 4096 < 2 ^ 52); [|lia].
    split; [apply Z.div_le_lower_bound; lia|apply Z.div_lt_upper_bound; lia]. }
  rewrite !Hb in E by done. lia.
Qed.

(** The page [va] of the address space in force is the frame at [fr]. *)
Definition page_at m (va fr : Z) : Prop :=
  user_page va ∧ ∃ e, translate base 4 (m_vm m) (table_of_addr base (cr3 (m_vm m))) va = Some e ∧
    4096 * ((e mod 2 ^ 52) / 4096) = fr.

Lemma page_entry_frame p flags :
  0 ≤ p < 2 ^ 40 → 0 ≤ flags < 4096 → 4096 * ((page_entry (p * 4096) flags mod 2 ^ 52) / 4096) = p * 4096.
Proof using.
  intros Hp Hf. destruct (attributes_spec flags Hf) as (E & Hb & _). unfold page_entry. rewrite <- E.
  rewrite lor_low by (done || (apply Z.mod_mul; lia)). rewrite Z.mod_small by lia.
  rewrite Z.div_add_l, (Z.div_small (attributes flags)) by lia. lia.
Qed.

Lemma physical_page m va fr o : page_at m va fr → 0 ≤ o < 4096 → physical base (va + o) m = Done (fr + o).
Proof using.
  intros (Hva & e & He & Hfr) Ho. destruct (user_page_address va o Hva Ho) as (Hc & _ & Hp & Hmod).
  unfold physical. rewrite Hc, (translate_page base _ _ (va + o) va) by done. by rewrite He, Hmod, Hfr.
Qed.

Lemma load_byte_page m va fr o : page_at m va fr → 0 ≤ o < 4096 → load_byte base (va + o) m = Done (m_memory m (fr + o)).
Proof using. intros Hp Ho. unfold load_byte. by rewrite (physical_page m va fr) by done. Qed.

Lemma load_bytes_page m va fr n : ∀ o, page_at m va fr → 0 ≤ o → o + Z.of_nat n ≤ 4096 →
  load_bytes base (va + o) n m = Done (mem_slice (fr + o) n (m_memory m)).
Proof using.
  induction n as [|n IH]; intros o Hp Ho Hn; [done|]. cbn [load_bytes].
  rewrite (load_byte_page m va fr) by (done || lia). cbn [outcome_bind].
  replace (va + o + 1) with (va + (o + 1)) by lia. rewrite IH by (done || lia). cbn [outcome_bind].
  rewrite mem_slice_S. by replace (fr + (o + 1)) with (fr + o + 1) by lia.
Qed.

Lemma page_at_memory m va fr mem : page_at m va fr → page_at (with_memory mem m) va fr.
Proof using. by destruct m. Qed.

Lemma store_bytes_page va fr bytes : ∀ m o, page_at m va fr → 0 ≤ o → o + Z.of_nat (length bytes) ≤ 4096 →
  store_bytes base (va + o) bytes m = Done (with_memory (mem_write (fr + o) bytes (m_memory m)) m).
Proof using.
  induction bytes as [|b r IH]; intros m o Hp Ho Hn; cbn [store_bytes mem_write length] in *; [by destruct m|].
  unfold store_byte. rewrite (physical_page m va fr) by (done || lia). cbn [outcome_bind].
  replace (va + o + 1) with (va + (o + 1)) by lia. rewrite IH by (by apply page_at_memory || lia).
  replace (fr + (o + 1)) with (fr + o + 1) by lia. by destruct m.
Qed.
End pages.

(** ** Building an address space: what is loaded so far

    While a process is being loaded, its address space holds a list of pages,
    each on a frame of its own.  Allocating and mapping a page, zeroing it and
    filling it from the file each keep this. *)

(** Byte [o] of a segment of [size] bytes at [loc] of a file: zeros follow the
    bytes of the file. *)
Definition seg_byte (data : list Z) (loc size o : Z) : Z :=
  if o <? size then default 0 (data !! Z.to_nat (loc + o)) else 0.

Lemma srep_ext base k K v sp t A B :
  srep base k K v (<[t := A]> sp) → (∀ p, A p = B p) → srep base k K v (<[t := B]> sp).
Proof.
  intros [(lv & H & Hsp) S2 S3 S4 S5] E. split; [|done..|].
  - exists lv. split; [done|]. intros t' m' [[<- <-]|[Hne Ht]]%lookup_insert_Some.
    + apply (Hsp t A). by rewrite lookup_insert_eq.
    + apply (Hsp t' m'). by rewrite lookup_insert_ne.
  - intros t' m' va [[<- <-]|[Hne Ht]]%lookup_insert_Some.
    + rewrite <- E. apply (S5 t A). by rewrite lookup_insert_eq.
    + apply (S5 t' m'). by rewrite lookup_insert_ne.
Qed.

Lemma table_of_addr_addr base (t : nat) : table_of_addr base (table_addr base (Z.of_nat t)) = t.
Proof.
  unfold table_of_addr, table_addr. replace (base + 4096 * Z.of_nat t - base) with (Z.of_nat t * 4096) by lia.
  rewrite Z.div_mul by done. apply Nat2Z.id.
Qed.

(** The address space with the pages [L] mapped over the kernel's. *)
Definition space_of (K : Z → option Z) (L : list (Z * Z)) : Z → option Z :=
  foldr (λ '(va, p) A, aspace_map (vpage va) (page_entry (p * 4096) 6) A) K L.

Lemma space_of_in K L va p :
  Forall user_page L.*1 → NoDup L.*1 → (va, p) ∈ L → space_of K L (vpage va) = Some (page_entry (p * 4096) 6).
Proof.
  induction L as [|[va' p'] L IH]; [by intros _ _ ?%elem_of_nil|]. rewrite fmap_cons. cbn [fst].
  intros [Hu HU]%Forall_cons [Hn Hnd]%NoDup_cons [[= -> ->]|Hin]%elem_of_cons; cbn [space_of foldr]; unfold aspace_map.
  - by rewrite Z.eqb_refl.
  - assert (Hin1 : va ∈ L.*1) by (apply list_elem_of_fmap; by exists (va, p)).
    destruct (Z.eqb_spec (vpage va) (vpage va')) as [E|_]; [|by apply IH].
    apply user_page_inj in E; [by subst|by eapply Forall_forall|done].
Qed.

Lemma space_of_out K L x : Forall (λ va, vpage va ≠ x) L.*1 → space_of K L x = K x.
Proof.
  induction L as [|[va p] L IH]; [done|]. rewrite fmap_cons. intros [Hx HX]%Forall_cons.
  cbn [space_of foldr]. unfold aspace_map. destruct (Z.eqb_spec x (vpage va)); [by subst|]. by apply IH.
Qed.

Section load.
Context {F : Type} {fsd : FsDriver F} {spec : FsDriverSpec F}.
Context (base : Z) (Hbase : 0 < base ∧ base mod 4096 = 0 ∧ base < 2 ^ 51).
Context (A : avfs) (fd : nat) (fs id : Z) (n : list Z) (files : afs) (h : gmap (list Z) Z) (data : list Z).
Context (Hf : file_at A fd fs id n files h data).
Context (t k : nat) (K : Z → option Z) (sp : gmap nat (Z → option Z)) (bound : Z) (Hbound : 0 < bound) (held : list Z).
Context (m0 : machine F).
Implicit Types (m : machine F) (L : list (Z * Z)) (img : Z → Z).

Notation root := (table_addr base (Z.of_nat t)).

(** The pages [L], with their frames, hold [img]; nothing else of memory has
    changed since [m0]. *)
Record holding (img : Z → Z) L m : Prop := {
  ho_frames : frames (m_pmm m) bound (L.*2 ++ held);
  ho_space : srep base k K (m_vm m) (<[t := space_of K L]> sp);
  ho_cr3 : cr3 (m_vm m) = root;
  ho_tables : (used_tables (m_vm m) ≤ used_tables (m_vm m0) + 3 * length L)%nat;
  ho_left : frames_left (m_pmm m0) = (frames_left (m_pmm m) + length L)%nat;
  ho_used : used_blocks (m_pmm m) = used_blocks (m_pmm m0) + Z.of_nat (length L);
  ho_total : total_blocks (m_pmm m) = total_blocks (m_pmm m0);
  ho_pages : Forall user_page L.*1 ∧ NoDup L.*1;
  ho_range : Forall (λ p, 0 < p < 2 ^ 40) L.*2;
  ho_img : ∀ va p o, (va, p) ∈ L → 0 ≤ o < 4096 → m_memory m (p * 4096 + o) = img (va + o);
  ho_old : ∀ q, q / 4096 ∉ L.*2 → m_memory m q = m_memory m0 q;
  ho_file : ∃ pos, opened A fd fs id pos (m_vfs m);
  ho_threads : m_threads m = m_threads m0;
  ho_current : m_current m = m_current m0;
  ho_intr : m_intr m = m_intr m0
}.

Lemma holding_img img img' L m :
  holding img L m → (∀ va o, va ∈ L.*1 → 0 ≤ o < 4096 → img' (va + o) = img (va + o)) → holding img' L m.
Proof using.
  intros [? ? ? ? ? ? ? ? ? Hi ? ? ? ? ?] E. split; try done.
  intros va p o Hin Ho. rewrite E; [by apply Hi| |done]. apply list_elem_of_fmap. by exists (va, p).
Qed.

Lemma holding_page img L m va p : holding img L m → (va, p) ∈ L → page_at base m va (p * 4096).
Proof using.
  intros H Hin. destruct (ho_pages _ _ _ H) as [Hu Hnd].
  assert (Hin1 : va ∈ L.*1) by (apply list_elem_of_fmap; by exists (va, p)).
  assert (Hin2 : p ∈ L.*2) by (apply list_elem_of_fmap; by exists (va, p)).
  pose proof (ho_range _ _ _ H) as Hr. rewrite Forall_forall in Hu, Hr. split; [by apply Hu|].
  rewrite (ho_cr3 _ _ _ H), table_of_addr_addr. eexists. split.
  - rewrite (sr_spaces _ _ _ _ _ (ho_space _ _ _ H) t _ va) by apply lookup_insert_eq.
    apply space_of_in; [by apply Forall_forall|done|done].
  - specialize (Hr _ Hin2). simpl in Hr. apply page_entry_frame; lia.
Qed.

(** Two pages share no frame. *)
Lemma holding_apart img L m va va' p : holding img L m → (va, p) ∈ L → (va', p) ∈ L → va = va'.
Proof using.
  intros H H1 H2. pose proof (fr_nodup _ _ _ (ho_frames _ _ _ H)) as Hnd. apply NoDup_app in Hnd as [Hnd _].
  apply list_elem_of_lookup in H1 as [i Hi]. apply list_elem_of_lookup in H2 as [j Hj].
  assert (i = j); [|subst; rewrite Hi in Hj; by injection Hj].
  eapply NoDup_lookup; [exact Hnd|by rewrite list_lookup_fmap, Hi|by rewrite list_lookup_fmap, Hj].
Qed.

(** Writing to a page. *)
Lemma holding_write img img' L m va p bytes :
  holding img L m → (va, p) ∈ L → Z.of_nat (length bytes) ≤ 4096 →
  (∀ o, 0 ≤ o < 4096 → img' (va + o) =
     if o <? Z.of_nat (length bytes) then default 0 (bytes !! Z.to_nat o) else img (va + o)) →
  (∀ va' o, va' ∈ L.*1 → va' ≠ va → 0 ≤ o < 4096 → img' (va' + o) = img (va' + o)) →
  store_bytes base va bytes m = Done (with_memory (mem_write (p * 4096) bytes (m_memory m)) m) ∧
  holding img' L (with_memory (mem_write (p * 4096) bytes (m_memory m)) m).
Proof using.
  intros H Hin Hlen Hhere Hothers. pose proof (holding_page _ _ _ _ _ H Hin) as Hp. split.
  { pose proof (store_bytes_page base va (p * 4096) bytes m 0 Hp) as E. rewrite !Z.add_0_r in E. apply E; lia. }
  assert (Hfr : ∀ p' o, 0 ≤ o < 4096 → (p' * 4096 + o) / 4096 = p').
  { intros. rewrite Z.div_add_l by lia. rewrite Z.div_small by lia. lia. }
  assert (Hp2 : p ∈ L.*2) by (apply list_elem_of_fmap; by exists (va, p)).
  assert (Hap : ∀ x y z, (x, z) ∈ L → (y, z) ∈ L → x = y) by (intros; by eapply holding_apart).
  destruct H as [H1 H2 H3 H4 H5 H6 H7 H8 H9 Hi Hold H12 H13 H14 H15]. destruct m as [a b c mem e f g]. simpl in *.
  split; simpl; try done.
  - intros va' p' o Hin' Ho. rewrite mem_write_lookup. destruct (decide (va' = va)) as [->|Hne].
    + assert (p' = p) as ->.
      { destruct H8 as [_ Hnd]. apply list_elem_of_lookup in Hin as [i Hli], Hin' as [j Hlj].
        assert (i = j); [|subst; rewrite Hli in Hlj; by injection Hlj].
        eapply NoDup_lookup; [exact Hnd|by rewrite list_lookup_fmap, Hli|by rewrite list_lookup_fmap, Hlj]. }
      rewrite Hhere by done. replace (p * 4096 + o - p * 4096) with o by lia.
      destruct (Z.leb_spec (p * 4096) (p * 4096 + o)); [|lia]. simpl.
      destruct (Z.ltb_spec (p * 4096 + o) (p * 4096 + Z.of_nat (length bytes))),
        (Z.ltb_spec o (Z.of_nat (length bytes))); done || lia || by apply Hi.
    + rewrite Hothers; [|apply list_elem_of_fmap; by exists (va', p')|done|done].
      assert (p' ≠ p) by (intros ->; apply Hne; by eapply Hap).
      rewrite <- (Hi va' p') by done.
      destruct (Z.leb_spec (p * 4096) (p' * 4096 + o)),
        (Z.ltb_spec (p' * 4096 + o) (p * 4096 + Z.of_nat (length bytes))); simpl; done || lia.
  - intros q Hq. rewrite mem_write_lookup. rewrite <- Hold by done.
    destruct (Z.leb_spec (p * 4096) q), (Z.ltb_spec q (p * 4096 + Z.of_nat (length bytes))); simpl; try done.
    exfalso. apply Hq. replace q with (p * 4096 + (q - p * 4096)) by lia. rewrite Hfr by lia. done.
Qed.

(** ** A new page *)

(** [img] with the bytes [f] on the page [va]. *)
Definition with_page (va : Z) (f : Z → Z) (img : Z → Z) : Z → Z :=
  λ x, if (va <=? x) && (x <? va + 4096) then f (x - va) else img x.

Lemma with_page_here va f img o : 0 ≤ o < 4096 → with_page va f img (va + o) = f o.
Proof using.
  intros Ho. unfold with_page. destruct (Z.leb_spec va (va + o)), (Z.ltb_spec (va + o) (va + 4096)); try lia.
  simpl. f_equal. lia.
Qed.

Lemma with_page_other va va' f img o :
  user_page va → user_page va' → va' ≠ va → 0 ≤ o < 4096 → with_page va f img (va' + o) = img (va' + o).
Proof using.
  intros (H1 & _) (H2 & _) Hne Ho. unfold with_page. pose proof (Z.div_mod va 4096). pose proof (Z.div_mod va' 4096).
  destruct (Z.leb_spec va (va' + o)), (Z.ltb_spec (va' + o) (va + 4096)); simpl; try done. lia.
Qed.

Lemma holding_map img L m va p v' pm' :
  holding img L m → user_page va → va ∉ L.*1 → 0 < p < 2 ^ 40 →
  frames pm' bound (p :: L.*2 ++ held) → frames_left (m_pmm m) = S (frames_left pm') →
  used_blocks pm' = used_blocks (m_pmm m) + 1 → total_blocks pm' = total_blocks (m_pmm m) →
  srep base k K v' (<[t := aspace_map (vpage va) (page_entry (p * 4096) 6) (space_of K L)]> sp) →
  (used_tables v' ≤ used_tables (m_vm m) + 3)%nat → cr3 v' = cr3 (m_vm m) →
  holding (with_page va (λ o, m_memory m (p * 4096 + o)) img) ((va, p) :: L) (with_vm v' (with_pmm pm' m)).
Proof using.
  intros [H1 H2 H3 H4 H5 H6 H7 [H8 H8'] H9 Hi Hold H12 H13 H14 H15] Hva Hn Hp Hfr Hl Hus Htot Hs Ht Hc.
  destruct m as [a b c mem e f g]. simpl in *.
  assert (Hpn : p ∉ L.*2).
  { pose proof (fr_nodup _ _ _ Hfr) as [Hnd _]%NoDup_cons. intros Hin. apply Hnd, elem_of_app. by left. }
  split; simpl; rewrite ?fmap_cons; try done; try lia; try congruence.
  - split; by constructor.
  - by constructor.
  - intros va' p' o Hin Ho. assert (Hcase : va' = va ∨ va' ≠ va) by lia. apply elem_of_cons in Hin as [[= -> ->]|Hin].
    { by rewrite with_page_here. }
    assert (Hin1 : va' ∈ L.*1) by (apply list_elem_of_fmap; by exists (va', p')).
    rewrite with_page_other; [by apply Hi|done| | |done]; [by eapply Forall_forall|by intros ->].
  - intros q Hq. apply Hold. intros Hin. apply Hq. by right.
Qed.

Lemma clear_holding img L m va p (size : nat) :
  Z.of_nat size = PAGE_SIZE → holding img L m → (va, p) ∈ L →
  ∃ old zeros, load_bytes base va size m = Done old ∧ memoryset old 0 PAGE_SIZE = Done zeros ∧
    returns (store_bytes base va zeros m) (holding (with_page va (λ _, 0) img) L).
Proof using.
  unfold PAGE_SIZE. intros Hsz H Hin. pose proof (holding_page _ _ _ va p H Hin) as Hpg.
  pose proof (load_bytes_page base m va (p * 4096) size 0 Hpg) as Eld. rewrite !Z.add_0_r in Eld.
  eexists _, (replicate size 0). split; [apply Eld; lia|]. split.
  { rewrite memoryset_spec by (rewrite length_mem_slice; lia). rewrite drop_ge by (rewrite length_mem_slice; lia).
    rewrite app_nil_r. do 2 f_equal. lia. }
  destruct (holding_write _ (with_page va (λ _, 0) img) _ m va p (replicate size 0) H Hin) as [Est Hnew].
  - rewrite length_replicate. lia.
  - intros o Ho. rewrite with_page_here, length_replicate, Hsz by done. destruct (Z.ltb_spec o 4096); [|lia].
    by rewrite lookup_replicate_2 by lia.
  - intros va' o Hin' Hne Ho. destruct (ho_pages _ _ _ H) as [Hall _]. rewrite Forall_forall in Hall.
    apply with_page_other; [|by apply Hall|exact Hne|exact Ho]. apply Hpg.
  - rewrite Est. exact Hnew.
Qed.

Lemma new_page_holding img L m va :
  holding img L m → user_page va → va ∉ L.*1 →
  (used_tables (m_vm m0) + 3 * S (length L) ≤ 512)%nat → (length L < frames_left (m_pmm m0))%nat →
  used_blocks (m_pmm m0) + Z.of_nat (length L) < total_blocks (m_pmm m0) →
  returns (new_page base root va m) (λ '(a, m'), ∃ p, a = p * 4096 ∧
    holding (with_page va (λ _, 0) img) ((va, p) :: L) m').
Proof using Hbase Hbound.
  intros H Hva Hn Ht Hl Hu. unfold new_page. apply returns_bind.
  pose proof (ho_tables _ _ _ H). pose proof (ho_left _ _ _ H). pose proof (ho_used _ _ _ H). pose proof (ho_total _ _ _ H).
  eapply returns_mono; [apply (alloc_left _ _ _ (ho_frames _ _ _ H)); lia|].
  intros [a pm'] (p & -> & Hp & Hfr & Hl' & Hu' & Htot). change PMM_BLOCK_SIZE with 4096.
  destruct (Z.eqb_spec (p * 4096) 0); [lia|]. cbn [negb kassert outcome_bind]. apply returns_bind.
  destruct (user_page_address va 0 Hva) as (_ & Hua & _); [lia|]. rewrite Z.add_0_r in Hua.
  pose proof (missing_three base (m_vm m) t va).
  assert (Em : m_vm (with_pmm pm' m) = m_vm m) by (by destruct m). rewrite Em.
  eapply returns_mono.
  { eapply (map_page_srep base Hbase k K (m_vm m) _ t _ (p * 4096) va 6 (ho_space _ _ _ H));
      [lia|apply lookup_insert_eq|done|lia|lia]. }
  intros v' (Hs & Ht' & Hc). rewrite insert_insert_eq in Hs.
  assert (H' : holding (with_page va (λ o, m_memory m (p * 4096 + o)) img) ((va, p) :: L) (with_vm v' (with_pmm pm' m))).
  { apply holding_map; try done; lia. }
  set (m2 := with_vm v' (with_pmm pm' m)) in *.
  destruct (clear_holding _ _ m2 va p (Z.to_nat PAGE_SIZE) (Z2Nat.id PAGE_SIZE ltac:(done)) H' ltac:(left)) as (old & zeros & -> & E2 & Hst).
  cbn [outcome_bind]. rewrite E2. cbn [outcome_bind]. apply returns_bind.
  eapply returns_mono; [exact Hst|]. intros m3 Hm3. exists p. split; [reflexivity|].
  eapply holding_img; [exact Hm3|]. intros va' o Hin Ho. destruct (ho_pages _ _ _ H') as [Hall _].
  rewrite Forall_forall in Hall. destruct (Z.eq_dec va' va) as [->|Hne]; [by rewrite !with_page_here|].
  rewrite !with_page_other; first [reflexivity|exact Hva|exact Hne|exact Ho|by apply Hall].
Qed.

(** ** Filling a page from the file *)

(** A segment that the file holds. *)
Definition segment_in (loc size : Z) : Prop :=
  0 ≤ loc ∧ 0 ≤ size ∧ loc + size < 2 ^ 31 ∧ (0 < size → loc + size ≤ Z.of_nat (length data)).

Lemma holding_vfs img L m s :
  holding img L m → (∃ pos, opened A fd fs id pos s) → holding img L (with_vfs s m).
Proof using. intros [] ?. by destruct m. Qed.

Lemma with_page_ext va f g img x :
  (∀ o, 0 ≤ o < 4096 → f o = g o) → with_page va f img x = with_page va g img x.
Proof using.
  intros E. unfold with_page. destruct (Z.leb_spec va x), (Z.ltb_spec x (va + 4096)); simpl; try done. apply E. lia.
Qed.

Lemma fill_holding img L m va p loc size i :
  holding (with_page va (λ _, 0) img) L m → (va, p) ∈ L → segment_in loc size → 0 ≤ i < 2 ^ 18 →
  returns (fill_page base (Z.of_nat fd) loc size i va m)
    (holding (with_page va (λ o, seg_byte data loc size (i * 4096 + o)) img) L).
Proof using Hf.
  intros H Hin (Hloc & Hsize & Hmax & Hdata) Hi. unfold fill_page. change PAGE_SIZE with 4096.
  pose proof (holding_page _ _ _ _ _ H Hin) as Hpg. pose proof (proj1 Hpg) as (_ & Hva & _).
  assert (Eleft : s32 (u64 (size - i * 4096)) = size - i * 4096).
  { unfold s32, u64. destruct (Z.le_gt_cases 0 (size - i * 4096)).
    - rewrite (Z.mod_small (size - i * 4096)) by lia. rewrite Z.mod_small by lia. lia.
    - rewrite <- (Z.mod_unique (size - i * 4096) (2 ^ 64) (-1) (size - i * 4096 + 2 ^ 64)) by lia.
      rewrite <- (Z.mod_unique (size - i * 4096 + 2 ^ 64 + 2 ^ 31) (2 ^ 32) (2 ^ 32) (size - i * 4096 + 2 ^ 31)) by lia.
      lia. }
  rewrite Eleft. destruct (Z.ltb_spec 0 (size - i * 4096)) as [Hpos|Hneg].
  2: { cbn [returns]. eapply holding_img; [exact H|]. intros va' o _ _. apply with_page_ext. intros o' Ho'.
       unfold seg_byte. destruct (Z.ltb_spec (i * 4096 + o') size); [lia|done]. }
  assert (Epos : s32 (u64 (loc + i * 4096)) = loc + i * 4096).
  { unfold u64. rewrite Z.mod_small by lia. apply s32_id. unfold is_s32. lia. }
  rewrite Epos, MIN_spec. apply returns_bind. destruct (ho_file _ _ _ H) as [pos Ho].
  eapply returns_mono; [apply (opened_seek A fd fs id n files h data Hf pos (loc + i * 4096) _ Ho)|].
  intros [r s1] [-> Ho1]. destruct (Z.ltb_spec (loc + i * 4096) 0); [lia|].
  cbn [Z.eqb VFS_OK kassert outcome_bind]. set (cnt := Z.min 4096 (size - i * 4096)).
  pose proof (holding_vfs _ _ _ s1 H ltac:(eauto)) as H1. set (m1 := with_vfs s1 m) in *.
  pose proof (holding_page _ _ _ _ _ H1 Hin) as Hpg1.
  pose proof (load_bytes_page base m1 va (p * 4096) (Z.to_nat cnt) 0 Hpg1) as Eld. rewrite !Z.add_0_r in Eld.
  rewrite Eld by lia. cbn [outcome_bind]. apply returns_bind.
  assert (Es : m_vfs m1 = s1) by (by destruct m). rewrite Es. rewrite <- (Z2Nat.id cnt) by lia.
  eapply returns_mono; [apply (opened_read_at A fd fs id n files h data Hf (loc + i * 4096) va); try done; try lia|].
  { rewrite length_mem_slice. lia. }
  intros [[r2 bytes] s2] [(Hend & -> & -> & Ho2)|(Hend & _)]; [|lia].
  pose proof (holding_vfs _ _ _ s2 H1 ltac:(eauto)) as H2. set (m2 := with_vfs s2 m1) in *.
  set (bytes := take _ _). assert (Hlen : Z.of_nat (length bytes) = cnt).
  { unfold bytes. rewrite length_take, length_drop. lia. }
  destruct (holding_write _ (with_page va (λ o, seg_byte data loc size (i * 4096 + o)) img) _ m2 va p bytes H2 Hin)
    as [Est Hnew]; [lia|..].
  - intros o Hoo. rewrite !with_page_here, Hlen by done. unfold seg_byte.
    destruct (Z.ltb_spec o cnt), (Z.ltb_spec (i * 4096 + o) size); try done; try (exfalso; lia).
    unfold bytes. rewrite lookup_take_lt, lookup_drop by lia. do 2 f_equal. lia.
  - intros va' o Hin' Hne Hoo. destruct (ho_pages _ _ _ H) as [Hall _]. rewrite Forall_forall in Hall.
    rewrite !with_page_other; first [reflexivity|exact Hne|exact Hoo|by apply Hall|apply Hpg].
  - rewrite Est. cbn [outcome_bind]. rewrite Z.eqb_refl. exact Hnew.
Qed.

(** Mapping a page again, for reading: the entry stays the same. *)
Lemma remap_holding img L m va p :
  holding img L m → (va, p) ∈ L → (used_tables (m_vm m) ≤ 512)%nat →
  returns (vm_map64 base root (p * 4096) va PAGE_USER (m_vm m)) (λ v', holding img L (with_vm v' m)).
Proof using Hbase.
  intros H Hin Hu. pose proof (holding_page _ _ _ _ _ H Hin) as (Hva & e & He & _).
  rewrite (ho_cr3 _ _ _ H), table_of_addr_addr in He.
  assert (Hm : missing base (m_vm m) t va = 0%nat) by (apply missing_mapped; eauto).
  destruct (user_page_address va 0 Hva) as (_ & Hua & _); [lia|]. rewrite Z.add_0_r in Hua.
  assert (Hp : 0 < p < 2 ^ 40).
  { pose proof (ho_range _ _ _ H) as Hr. rewrite Forall_forall in Hr. apply Hr, list_elem_of_fmap. by exists (va, p). }
  eapply returns_mono.
  { eapply (map_page_srep base Hbase k K (m_vm m) _ t _ (p * 4096) va 4 (ho_space _ _ _ H));
      [lia|apply lookup_insert_eq|done|lia|lia]. }
  intros v' (Hs & Ht & Hc). rewrite insert_insert_eq in Hs. destruct (ho_pages _ _ _ H) as [Hall Hnd].
  apply (srep_ext _ _ _ _ _ _ _ (space_of K L)) in Hs.
  2: { intros x. unfold aspace_map. destruct (Z.eqb_spec x (vpage va)) as [->|]; [|done].
       by rewrite (space_of_in K L va p). }
  destruct H. destruct m as [a b c mem ee f g]. simpl in *. split; simpl; try done; try lia; congruence.
Qed.
End load.

(** The laws take only the proof. *)
Arguments ho_frames {_ _ _ _ _ _ _ _ _ _ _ _ _ _ _ _ _ _} _.
Arguments ho_space {_ _ _ _ _ _ _ _ _ _ _ _ _ _ _ _ _ _} _.
Arguments ho_cr3 {_ _ _ _ _ _ _ _ _ _ _ _ _ _ _ _ _ _} _.
Arguments ho_tables {_ _ _ _ _ _ _ _ _ _ _ _ _ _ _ _ _ _} _.
Arguments ho_left {_ _ _ _ _ _ _ _ _ _ _ _ _ _ _ _ _ _} _.
Arguments ho_used {_ _ _ _ _ _ _ _ _ _ _ _ _ _ _ _ _ _} _.
Arguments ho_total {_ _ _ _ _ _ _ _ _ _ _ _ _ _ _ _ _ _} _.
Arguments ho_pages {_ _ _ _ _ _ _ _ _ _ _ _ _ _ _ _ _ _} _.
Arguments ho_range {_ _ _ _ _ _ _ _ _ _ _ _ _ _ _ _ _ _} _.
Arguments ho_img {_ _ _ _ _ _ _ _ _ _ _ _ _ _ _ _ _ _} _.
Arguments ho_old {_ _ _ _ _ _ _ _ _ _ _ _ _ _ _ _ _ _} _.
Arguments ho_file {_ _ _ _ _ _ _ _ _ _ _ _ _ _ _ _ _ _} _.
Arguments ho_threads {_ _ _ _ _ _ _ _ _ _ _ _ _ _ _ _ _ _} _.
Arguments ho_current {_ _ _ _ _ _ _ _ _ _ _ _ _ _ _ _ _ _} _.
Arguments ho_intr {_ _ _ _ _ _ _ _ _ _ _ _ _ _ _ _ _ _} _.
