(* ===== verification/ProcStart.v ===== *)
(** * Building an address space: the whole of it

    The three loops of [setup_new_process] load the image of an executable: a
    page of stack and the pages of its segments. *)

From S2P Require Import Prelude ByteMem Libc PhysMem Tfs TfsSpec TfsRead TfsView Vfs VfsSpec VfsInv VfsOps.
From S2P Require Import X86Bits X86Phys X86Paging X86Map X86Space X86Spaces Elf.
From S2P Require Import Process ProcLoad.

(** ** The image of an executable *)
Definition pages_from (vaddr : Z) (count : nat) : list Z := (λ i, vaddr + 4096 * Z.of_nat i) <$> seq 0 count.

Definition stack_page : Z := 0xFFFFFFFFFFFFF000.

Definition image_pages (e : elf_info_t) : list Z :=
  pages_from (rw_vaddr e) (Z.to_nat (rw_pages e)) ++ pages_from (ro_vaddr e) (Z.to_nat (ro_pages e)) ++ [stack_page].

Definition in_segment (vaddr pages va : Z) : bool := (vaddr <=? va) && (va <? vaddr + 4096 * pages).

(** The byte at an address of a process that starts. *)
Definition image (data : list Z) (e : elf_info_t) (va : Z) : Z :=
  if in_segment (ro_vaddr e) (ro_pages e) va then seg_byte data (ro_location e) (ro_size e) (va - ro_vaddr e)
  else if in_segment (rw_vaddr e) (rw_pages e) va then seg_byte data (rw_location e) (rw_size e) (va - rw_vaddr e)
  else 0.

(** Where a segment may lie: below the page of the stack. *)
Definition segment_fits (vaddr pages : Z) : Prop :=
  0 ≤ pages < 2 ^ 18 ∧
  (0 < pages → vaddr mod 4096 = 0 ∧ 2 ^ 64 - 2 ^ 47 ≤ vaddr ∧ vaddr + 4096 * pages ≤ stack_page).

(** Executables that the loader supports: its segments lie apart in the upper
    half, and the file holds them. *)
Record loadable (data : list Z) (e : elf_info_t) : Prop := {
  lo_entry : VMM_KERNEL_SPACE < entry_point e;
  lo_ro : segment_fits (ro_vaddr e) (ro_pages e);
  lo_rw : segment_fits (rw_vaddr e) (rw_pages e);
  lo_ro_file : segment_in data (ro_location e) (ro_size e);
  lo_rw_file : segment_in data (rw_location e) (rw_size e);
  lo_apart : ro_pages e = 0 ∨ rw_pages e = 0 ∨ ro_vaddr e + 4096 * ro_pages e ≤ rw_vaddr e ∨
    rw_vaddr e + 4096 * rw_pages e ≤ ro_vaddr e
}.

Lemma elem_of_pages_from va vaddr count :
  va ∈ pages_from vaddr count ↔ ∃ i : nat, (i < count)%nat ∧ va = vaddr + 4096 * Z.of_nat i.
Proof.
  unfold pages_from. rewrite list_elem_of_fmap. split.
  - intros (i & -> & Hi%elem_of_seq). exists i. split; [lia|done].
  - intros (i & Hi & ->). exists i. split; [done|]. apply elem_of_seq. lia.
Qed.

Lemma pages_from_S vaddr i : pages_from vaddr (S i) = pages_from vaddr i ++ [vaddr + 4096 * Z.of_nat i].
Proof. unfold pages_from. by rewrite seq_S, fmap_app. Qed.

Lemma pages_from_NoDup vaddr count : NoDup (pages_from vaddr count).
Proof. unfold pages_from. apply NoDup_fmap_2; [intros x y ?; lia|apply NoDup_seq]. Qed.

Lemma length_pages_from vaddr count : length (pages_from vaddr count) = count.
Proof. unfold pages_from. by rewrite length_fmap, length_seq. Qed.

Section image.
Context (data : list Z) (e : elf_info_t) (He : loadable data e).

Lemma segment_user vaddr pages va :
  segment_fits vaddr pages → va ∈ pages_from vaddr (Z.to_nat pages) → user_page va ∧ va < stack_page.
Proof using.
  intros [Hp Hv] (i & Hi & ->)%elem_of_pages_from. destruct Hv as (Hm & H1 & H2); [lia|].
  unfold user_page, stack_page in *. split_and!; try lia. rewrite Z.add_mod, Hm by lia.
  rewrite (Z.mul_comm 4096), Z.mod_mul by lia. done.
Qed.

Lemma image_pages_NoDup : NoDup (image_pages e).
Proof using He.
  destruct He as [_ Hro Hrw _ _ Hap]. unfold image_pages. rewrite !NoDup_app. split_and!; try apply pages_from_NoDup.
  - intros va Hva. rewrite elem_of_app, list_elem_of_singleton. intros [Hva2| ->].
    + pose proof (elem_of_pages_from va (rw_vaddr e) (Z.to_nat (rw_pages e))) as [(i & Hi & Ei) _]; [done|].
      apply elem_of_pages_from in Hva2 as (j & Hj & Ej). destruct Hro, Hrw. lia.
    + apply (segment_user _ _ _ Hrw) in Hva as [_ ?]. lia.
  - intros va Hva ->%list_elem_of_singleton. apply (segment_user _ _ _ Hro) in Hva as [_ ?]. lia.
  - apply NoDup_singleton.
Qed.

Lemma image_ro (i : nat) o :
  (i < Z.to_nat (ro_pages e))%nat → 0 ≤ o < 4096 →
  image data e (ro_vaddr e + 4096 * Z.of_nat i + o) = seg_byte data (ro_location e) (ro_size e) (Z.of_nat i * 4096 + o).
Proof using.
  intros Hi Ho. unfold image, in_segment.
  destruct (Z.leb_spec (ro_vaddr e) (ro_vaddr e + 4096 * Z.of_nat i + o)),
    (Z.ltb_spec (ro_vaddr e + 4096 * Z.of_nat i + o) (ro_vaddr e + 4096 * ro_pages e)); try (exfalso; lia).
  simpl. f_equal. lia.
Qed.

Lemma image_rw (i : nat) o :
  (i < Z.to_nat (rw_pages e))%nat → 0 ≤ o < 4096 →
  image data e (rw_vaddr e + 4096 * Z.of_nat i + o) = seg_byte data (rw_location e) (rw_size e) (Z.of_nat i * 4096 + o).
Proof using He.
  intros Hi Ho. pose proof (lo_apart _ _ He) as Hap. unfold image, in_segment.
  set (va := rw_vaddr e + 4096 * Z.of_nat i + o).
  assert (Hno : (ro_vaddr e <=? va) && (va <? ro_vaddr e + 4096 * ro_pages e) = false).
  { apply andb_false_iff. rewrite Z.leb_gt, Z.ltb_ge. lia. }
  rewrite Hno. destruct (Z.leb_spec (rw_vaddr e) va), (Z.ltb_spec va (rw_vaddr e + 4096 * rw_pages e));
    try (exfalso; lia). simpl. f_equal. lia.
Qed.

Lemma image_stack o : 0 ≤ o < 4096 → image data e (stack_page + o) = 0.
Proof using He.
  intros Ho. destruct He as [_ [Hp1 Hro] [Hp2 Hrw] _ _ _]. unfold image, in_segment.
  rewrite !(proj2 (andb_false_iff _ _)); [done|rewrite Z.leb_gt, Z.ltb_ge; lia..].
Qed.
End image.

Lemma u64_page vaddr pages (i : nat) :
  segment_fits vaddr pages → (i < Z.to_nat pages)%nat → u64 (vaddr + Z.of_nat i * PAGE_SIZE) = vaddr + 4096 * Z.of_nat i.
Proof.
  intros [Hp Hv] Hi. destruct Hv as (_ & H1 & H2); [lia|]. unfold stack_page, PAGE_SIZE in *.
  rewrite u64_id by (unfold is_u64; lia). lia.
Qed.

Lemma segment_page vaddr pages (i : nat) :
  segment_fits vaddr pages → (i < Z.to_nat pages)%nat → user_page (vaddr + 4096 * Z.of_nat i) ∧ Z.of_nat i < 2 ^ 18.
Proof.
  intros Hs Hi. split; [|destruct Hs; lia]. eapply segment_user; [done|]. apply elem_of_pages_from. eauto.
Qed.

Lemma s32_pages vaddr pages : segment_fits vaddr pages → s32 pages = Z.of_nat (Z.to_nat pages).
Proof. intros [Hp _]. rewrite s32_id by (unfold is_s32; lia). lia. Qed.

(** ** The loops *)
Section loops.
Context {F : Type} {fsd : FsDriver F} {spec : FsDriverSpec F}.
Context (base : Z) (Hbase : 0 < base ∧ base mod 4096 = 0 ∧ base < 2 ^ 51).
Context (A : avfs) (fd : nat) (fs id : Z) (n : list Z) (files : afs) (h : gmap (list Z) Z) (data : list Z).
Context (Hf : file_at A fd fs id n files h data).
Context (t k : nat) (K : Z → option Z) (sp : gmap nat (Z → option Z)) (bound : Z) (Hbound : 0 < bound) (held : list Z).
Context (m0 : machine F) (e : elf_info_t) (He : loadable data e).
(** Tables and frames for [total] pages. *)
Context (total : nat) (Htotal : (length (image_pages e) ≤ total)%nat).
Context (Htables : (used_tables (m_vm m0) + 3 * total ≤ 512)%nat) (Hframes : (total ≤ frames_left (m_pmm m0))%nat).
Context (Hblocks : used_blocks (m_pmm m0) + Z.of_nat total ≤ total_blocks (m_pmm m0)).
Implicit Types (m : machine F) (L : list (Z * Z)).

Notation root := (table_addr base (Z.of_nat t)).
Notation holding := (holding base A fd fs id t k K sp bound held m0).
Notation img := (image data e).

(** The pages [P] are loaded. *)
Definition loaded (P : list Z) m : Prop := ∃ L, holding img L m ∧ L.*1 ≡ₚ P.

Lemma loaded_length L P : L.*1 ≡ₚ P → length L = length P.
Proof using. intros E. apply Permutation_length in E. by rewrite length_fmap in E. Qed.

(** One page: allocated, and then filled with its part of the image. *)
Lemma new_page_loaded P L m va :
  holding img L m → L.*1 ≡ₚ P → user_page va → va ∉ P → (length P < total)%nat →
  returns (new_page base root va m) (λ '(a, m'), ∃ p, a = p * 4096 ∧
    holding (with_page va (λ _, 0) img) ((va, p) :: L) m' ∧ ((va, p) :: L).*1 ≡ₚ va :: P).
Proof using Hbase Hbound Htotal Htables Hframes Hblocks.
  intros H EL Hva Hn Hlt. pose proof (loaded_length _ _ EL) as El.
  eapply returns_mono; [apply (new_page_holding base Hbase A fd fs id t k K sp bound Hbound held m0 img L m va H Hva); try lia|].
  { by rewrite EL. }
  intros [a m'] (p & -> & H'). exists p. split_and!; [done|done|]. rewrite fmap_cons. by rewrite EL.
Qed.

Lemma fill_loaded L m va p vaddr loc size (i : nat) :
  holding (with_page va (λ _, 0) img) ((va, p) :: L) m → segment_in data loc size → Z.of_nat i < 2 ^ 18 →
  va = vaddr + 4096 * Z.of_nat i →
  (∀ o, 0 ≤ o < 4096 → img (vaddr + 4096 * Z.of_nat i + o) = seg_byte data loc size (Z.of_nat i * 4096 + o)) →
  returns (fill_page base (Z.of_nat fd) loc size (Z.of_nat i) va m) (holding img ((va, p) :: L)).
Proof using Hf.
  clear Hbase Hbound He Htotal Htables Hframes Hblocks total. intros H Hseg Hi -> Himg.
  eapply returns_mono; [apply (fill_holding base A fd fs id n files h data Hf t k K sp bound held m0 img _ m _ p loc size (Z.of_nat i) H); [left|done|lia]|].
  intros m' H'. eapply holding_img; [exact H'|]. intros va' o Hin Ho. destruct (ho_pages H) as [Hall _].
  rewrite Forall_forall in Hall. set (va := vaddr + _) in *. destruct (Z.eq_dec va' va) as [->|Hne].
  - rewrite with_page_here by done. by apply Himg.
  - rewrite with_page_other; first [reflexivity|exact Hne|exact Ho|by apply Hall|apply Hall; left].
Qed.

(** A loop that loads the pages of a segment one after the other. *)
Lemma segment_loop body vaddr (count : nat) P m :
  (∀ (i : nat) L m Q, (i < count)%nat → holding img L m → L.*1 ≡ₚ Q → vaddr + 4096 * Z.of_nat i ∉ Q →
     (length Q < total)%nat →
     returns (body (Z.of_nat i) m) (loaded ((vaddr + 4096 * Z.of_nat i) :: Q))) →
  loaded P m → NoDup (pages_from vaddr count ++ P) → (count + length P ≤ total)%nat →
  returns (for_each 0 (Z.of_nat count) body m) (loaded (pages_from vaddr count ++ P)).
Proof using Hbase Htotal Htables Hframes.
  intros Hbody HP Hnd Hlen.
  eapply returns_mono; [apply (for_each_inv (λ i m, ∃ j : nat, i = Z.of_nat j ∧ loaded (pages_from vaddr j ++ P) m))|].
  - lia.
  - by exists 0%nat.
  - intros i m' Hi (j & -> & L & HL & EL).
    eapply returns_mono; [apply (Hbody j L m' _ ltac:(lia) HL EL)|].
    + assert (Hsub : pages_from vaddr count = pages_from vaddr j ++ (vaddr + 4096 * Z.of_nat j) ::
        ((λ i : nat, vaddr + 4096 * Z.of_nat i) <$> seq (S j) (count - S j))).
      { unfold pages_from. replace count with (j + S (count - S j))%nat at 1 by lia.
        by rewrite seq_app, fmap_app. }
      rewrite Hsub, <- app_assoc in Hnd. cbn [app] in Hnd. rewrite <- Permutation_middle in Hnd.
      apply NoDup_cons in Hnd as [Hnd _]. rewrite !elem_of_app in *. tauto.
    + rewrite length_app, length_pages_from. lia.
    + intros m2 (L2 & HL2 & EL2). exists (S j). split; [lia|]. exists L2. split; [done|]. rewrite EL2.
      rewrite pages_from_S, <- app_assoc. cbn [app]. apply Permutation_middle.
  - intros m' (j & Ej & Hm). by apply Nat2Z.inj in Ej as <-.
Qed.

Lemma load_stack_loaded m : loaded [] m → returns (load_stack base root m) (loaded [stack_page]).
Proof using Hbase Hbound He Htotal Htables Hframes Hblocks.
  intros (L & HL & EL). unfold load_stack, for_each, CONFIG_USERLAND_STACK_SIZE. apply returns_bind.
  change (for_loop 0 1) with (@for_from (machine F) (machine F) 1 0). cbn [for_from].
  change (u64 (Z.land USERLAND_STACK_TOP PAGE_SIZE_MASK - 0 * PAGE_SIZE)) with stack_page.
  assert (H1 : (0 < total)%nat) by (pose proof Htotal as Hl; unfold image_pages in Hl; rewrite !length_app in Hl; simpl in Hl; lia).
  pose proof (new_page_loaded [] L m stack_page HL EL ltac:(by vm_compute) ltac:(by intros ?%elem_of_nil) H1) as Hr.
  destruct (new_page base root stack_page m) as [[a m']| | | |]; try done. cbn [outcome_bind returns] in *.
  destruct Hr as (p & -> & Hh & EL'). exists ((stack_page, p) :: L). split; [|done].
  eapply holding_img; [exact Hh|]. intros va o Hin Ho. rewrite EL' in Hin. apply list_elem_of_singleton in Hin as ->.
  rewrite with_page_here by done. by apply image_stack.
Qed.

Lemma load_ro_loaded m :
  loaded [stack_page] m →
  returns (load_ro base root (Z.of_nat fd) e m)
    (loaded (pages_from (ro_vaddr e) (Z.to_nat (ro_pages e)) ++ [stack_page])).
Proof using All.
  intros HP. pose proof (image_pages_NoDup data e He) as Hnd. pose proof Htotal as Hlen. unfold image_pages in Hnd, Hlen.
  rewrite !length_app, !length_pages_from in Hlen. apply NoDup_app in Hnd as (_ & _ & Hnd).
  unfold load_ro. rewrite (s32_pages (ro_vaddr e)) by apply He. apply segment_loop; [|done|done|simpl in *; lia].
  intros i L m' Q Hi HL EL Hn Hlt. destruct (segment_page _ _ i (lo_ro _ _ He) Hi) as [Hu Hi18].
  rewrite (u64_page _ _ i (lo_ro _ _ He) Hi). apply returns_bind.
  eapply returns_mono; [apply (new_page_loaded Q L m' _ HL EL Hu Hn Hlt)|]. intros [a m1] (p & -> & H1 & EL1).
  apply returns_bind. eapply returns_mono.
  { apply (fill_loaded L m1 _ p (ro_vaddr e) _ _ i H1 (lo_ro_file _ _ He) Hi18 eq_refl). intros o Ho. by apply image_ro. }
  intros m2 H2. apply returns_bind.
  eapply returns_mono; [apply (remap_holding base Hbase A fd fs id t k K sp bound held m0 img _ m2 _ p H2); [left|]|].
  { pose proof (loaded_length _ _ EL). eapply Nat.le_trans; [apply (ho_tables H2)|]. simpl. lia. }
  intros v' Hv. cbn [returns]. eexists. split; [exact Hv|exact EL1].
Qed.

Lemma load_rw_loaded m :
  loaded (pages_from (ro_vaddr e) (Z.to_nat (ro_pages e)) ++ [stack_page]) m →
  returns (load_rw base root (Z.of_nat fd) e m) (loaded (image_pages e)).
Proof using All.
  intros HP. pose proof (image_pages_NoDup data e He) as Hnd. pose proof Htotal as Hlen. unfold image_pages in Hlen, Hnd |- *.
  rewrite !length_app, !length_pages_from in Hlen.
  unfold load_rw. rewrite (s32_pages (rw_vaddr e)) by apply He.
  apply segment_loop; [|done|done|rewrite length_app, length_pages_from; simpl in *; lia].
  intros i L m' Q Hi HL EL Hn Hlt. destruct (segment_page _ _ i (lo_rw _ _ He) Hi) as [Hu Hi18].
  rewrite (u64_page _ _ i (lo_rw _ _ He) Hi). apply returns_bind.
  eapply returns_mono; [apply (new_page_loaded Q L m' _ HL EL Hu Hn Hlt)|]. intros [a m1] (p & -> & H1 & EL1).
  eapply returns_mono.
  { apply (fill_loaded L m1 _ p (rw_vaddr e) _ _ i H1 (lo_rw_file _ _ He) Hi18 eq_refl). intros o Ho. by apply image_rw. }
  intros m2 H2. eexists. split; [exact H2|exact EL1].
Qed.
End loops.

(** ** Opening the executable *)
Lemma open_opened {F} `{spec : FsDriverSpec F} path p vol file (s : vfs F) A vn fn m h data :
  path_ok path p vol file → vrep s A → split_path p = Some (vn, fn) →
  mounted_at (av_fss A) vn ≠ 0 → av_contents A !! mounted_at (av_fss A) vn = Some (m, h) →
  m !! fn = Some data → 0 ∈ of_filesystem <$> av_fls A →
  returns (vfs_open path vol file s) (λ '(r, s'), ∃ fd id, r = Z.of_nat fd ∧
    file_at A fd (mounted_at (av_fss A) vn) id fn m h data ∧ opened A fd (mounted_at (av_fss A) vn) id 0 s').
Proof.
  intros Hp Hs Hsplit Hne Ha Hm Hfree. pose proof Hs as (_ & drv & _ & Ht).
  assert (Hid : ∃ id, h !! fn = Some id).
  { destruct (driver_of _ _ _ _ Ht _ _ _ Ha) as (f & _ & Hf).
    apply elem_of_dom. rewrite (fs_holds_dom _ _ _ Hf). apply elem_of_dom. eauto. }
  destruct Hid as [id Hid].
  destruct (free_file (av_fls A)) as [[i o]|] eqn:Eff.
  2: { apply list_find_None in Eff. rewrite Forall_forall in Eff.
       apply list_elem_of_fmap in Hfree as (x & E & Hx). by destruct (Eff x Hx). }
  assert (Ho : avfs_open p A = (Z.of_nat i, av_set_fls (<[i := Openfile (mounted_at (av_fss A) vn) id 0]> (av_fls A)) A)).
  { unfold avfs_open. rewrite Hsplit, Eff. cbv zeta. destruct (Z.eqb_spec (mounted_at (av_fss A) vn) 0); [done|].
    by rewrite Ha, Hid. }
  apply list_find_Some in Eff as (Hi & _ & _). pose proof (lookup_lt_Some _ _ _ Hi) as Hlt.
  eapply returns_mono; [by apply (vfs_open_spec path p vol file s A)|]. intros [r s']. rewrite Ho. intros [-> Hr].
  exists i, id. cbn [fst snd] in *. split_and!; [done| |].
  - split; try done; [by rewrite (t_fls_len _ _ _ _ Ht) in Hlt|by apply (t_fls_len _ _ _ _ Ht)].
  - eexists. split; [exact Hr|]. by split_and!.
Qed.

(** ** Threads *)
Lemma update_thread_ok {F} (m : machine F) (i : nat) f x :
  m_threads m !! i = Some x → update_thread (Z.of_nat i) f m = Done (with_threads (alter f i (m_threads m)) m).
Proof.
  intros Hx. unfold update_thread, get_thread, aread, awrite. destruct (Z.ltb_spec (Z.of_nat i) 0); [lia|].
  rewrite Nat2Z.id, Hx. cbn [outcome_bind]. pose proof (lookup_lt_Some _ _ _ Hx).
  destruct (Z.leb_spec 0 (Z.of_nat i)), (Z.ltb_spec (Z.of_nat i) (Z.of_nat (length (m_threads m)))); try (exfalso; lia).
  simpl. do 2 f_equal. apply list_eq. intros j. destruct (decide (j = i)) as [->|Hne].
  - rewrite list_lookup_insert_eq, list_lookup_alter_eq, Hx by done. done.
  - by rewrite list_lookup_insert_ne, list_lookup_alter_ne by done.
Qed.

Lemma srep_cr3 base k K v sp x : srep base k K v sp → srep base k K (vmm_setcr3 x v) sp.
Proof.
  assert (Ep : pt_pool (vmm_setcr3 x v) = pt_pool v ∧ pt_bitmap (vmm_setcr3 x v) = pt_bitmap v ∧
    vm_lock (vmm_setcr3 x v) = vm_lock v ∧ kernel_pml4 (vmm_setcr3 x v) = kernel_pml4 v) by (by destruct v).
  destruct Ep as (Ep & Eb & El & Ek). intros [(lv & H & Hsp) S2 S3 S4 S5]. split.
  - exists lv. split; [|done]. by apply (tables_ok_same base v).
  - congruence.
  - congruence.
  - intros va. by rewrite (translate_pool base 4 v).
  - intros t m va Ht. rewrite (translate_pool base 4 v) by done. by apply S5.
Qed.
