(* ===== verification/ProcSetup.v ===== *)
(** * [setup_new_process] and the frame of a new process

    What a call of [setup_new_process] does, and what
    [_context_enter_userland] leaves on the stack of the process. *)


From S2P Require Import Prelude X86Cpu ByteMem Libc Tfs TfsSpec TfsRead TfsView Vfs VfsSpec VfsInv.
From S2P Require Import VfsOps PhysMem X86Bits X86Phys X86Paging X86Map.
From S2P Require Import X86Space X86Spaces Elf Process ProcLoad ProcStart.

(** ** [setup_new_process]: what a call does

    The states in which a process may be started, and the effect of the call in
    them: a new address space that holds the image of the executable, or an
    error. *)

Lemma set_pagetable_ok {F} (m : machine F) (i : nat) p x :
  m_threads m !! i = Some x → m_current m = Z.of_nat i →
  process_set_pagetable p m =
    Done (Machine (m_vfs m) (m_pmm m) (vmm_setcr3 p (m_vm m)) (m_memory m)
      (alter (on_context (set_ctx_memory p)) i (m_threads m)) (m_current m) (m_intr m)).
Proof.
  intros Hx Hc. destruct m as [vf pm vm mem thr cur intr]. simpl in *. subst cur.
  unfold process_set_pagetable. cbn [_interrupt_disable m_intr with_intr m_vm with_vm].
  by rewrite (update_thread_ok _ i _ x).
Qed.

(** The thread table after a process was set up for thread [th] by thread [c]:
    [c] runs with the page tables it had, and [th] has the new ones. *)
Definition threads_after (thr : list thread64) (c th : nat) (old new : Z) : list thread64 :=
  alter (λ x, on_context (set_ctx_memory new) (set_pagetable64 new x)) th
    (alter (on_context (set_ctx_memory old)) c thr).

Lemma threads_after_ok thr c th old new :
  alter (on_context (set_ctx_memory new)) th (alter (on_context (set_ctx_memory old)) c
    (alter (set_pagetable64 new) th (alter (on_context (set_ctx_memory new)) c thr))) =
  threads_after thr c th old new.
Proof.
  unfold threads_after. apply list_eq. intros i.
  destruct (decide (i = th)), (decide (c = th)), (decide (i = c)); subst;
    repeat (rewrite list_lookup_alter_eq || rewrite list_lookup_alter_ne by congruence); try congruence.
  all: destruct (thr !! _) as [[[] ? ? ?]|]; reflexivity.
Qed.

(** Three statements as one. *)
Lemma returns_bind3 {A B C D} (x : outcome A) (f : A → outcome B) (g : B → outcome C) (h : C → outcome D) P Q :
  returns (let* a := x in let* b := f a in g b) P → (∀ c, P c → returns (h c) Q) →
  returns (let* a := x in let* b := f a in let* c := g b in h c) Q.
Proof.
  intros H Hh. destruct x as [a| | | |]; try done. simpl in *. destruct (f a) as [b| | | |]; try done. simpl in *.
  destruct (g b); try done. by apply Hh.
Qed.

Section setup.
Context {F : Type} {fsd : FsDriver F} {spec : FsDriverSpec F}.
Context (base : Z) (Hbase : 0 < base ∧ base mod 4096 = 0 ∧ base < 2 ^ 51).

(** The file called [p] is an executable-to-be with contents [data], and the
    kernel is at rest: [sp] are the address spaces, [held] the frames in use, [c]
    the running thread and [th] the thread of the process. *)
Record ready (m : machine F) (l : locals) (path p : list Z) (A : avfs) (data : list Z)
    (k : nat) (K : Z → option Z) (sp : gmap nat (Z → option Z)) (bound : Z) (held : list Z) (c th : nat)
    (old : Z) : Prop := {
  rd_path : path_ok path p (l_vol l) (l_file l);
  rd_vfs : vrep (m_vfs m) A;
  rd_file : ∃ vn fn files h, split_path p = Some (vn, fn) ∧ mounted_at (av_fss A) vn ≠ 0 ∧
    av_contents A !! mounted_at (av_fss A) vn = Some (files, h) ∧ files !! fn = Some data;
  rd_row : 0 ∈ of_filesystem <$> av_fls A;
  rd_locals : l_headers l ≠ 0 ∧ length (l_hdr l) = 64%nat ∧ length (l_ph32 l) = 32%nat ∧ length (l_ph64 l) = 56%nat;
  rd_data : Forall is_u8 data ∧ (header_error Little data = None → table_fits Little data);
  rd_spaces : srep base k K (m_vm m) sp;
  rd_frames : frames (m_pmm m) bound held ∧ 0 < bound;
  rd_current : m_current m = Z.of_nat c ∧ ∃ x, m_threads m !! c = Some x ∧ ctx_virt_memory (th_context x) = old;
  rd_thread : is_Some (m_threads m !! th)
}.

(** The executable's file is open at some position, or closed again. *)
Definition file_open (A : avfs) (s : vfs F) : Prop :=
  ∃ fd fs id fn files h data pos, file_at A fd fs id fn files h data ∧ opened A fd fs id pos s.
Definition file_closed (A : avfs) (s : vfs F) : Prop :=
  ∃ fd fs id fn files h data, file_at A fd fs id fn files h data ∧ closed A fd id s.

(** The result of a successful call in [m]. *)
Record process_set_up (m m' : machine F) (A : avfs) (data : list Z) (e : elf_info_t) (k : nat) (K : Z → option Z)
    (sp : gmap nat (Z → option Z)) (bound : Z) (held : list Z) (c th : nat) (old : Z) (t : nat) : Prop := {
  su_fresh : sp !! t = None;
  su_image : ∀ va o, va ∈ image_pages e → 0 ≤ o < 4096 →
    load_byte base (va + o) (with_vm (vmm_setcr3 (table_addr base (Z.of_nat t)) (m_vm m')) m') =
    Done (image data e (va + o));
  su_spaces : ∃ S, srep base k K (m_vm m') (<[t := S]> sp) ∧
    ∀ x, Forall (λ va, vpage va ≠ x) (image_pages e) → S x = K x;
  su_frames : ∃ L, L.*1 ≡ₚ image_pages e ∧ frames (m_pmm m') bound (L.*2 ++ held) ∧
    (∀ va p, (va, p) ∈ L →
       page_at base (with_vm (vmm_setcr3 (table_addr base (Z.of_nat t)) (m_vm m')) m') va (p * 4096)) ∧
    ∀ q, q / 4096 ∉ L.*2 → m_memory m' q = m_memory m q;
  su_cr3 : cr3 (m_vm m') = old;
  su_threads : m_threads m' = threads_after (m_threads m) c th old (table_addr base (Z.of_nat t));
  su_current : m_current m' = m_current m;
  su_intr : m_intr m' = m_intr m;
  su_file : file_closed A (m_vfs m')
}.

Lemma setup_opens m l path p A data k K sp bound held c th old :
  ready m l path p A data k K sp bound held c th old →
  returns (vfs_open path (l_vol l) (l_file l) (m_vfs m)) (λ '(r, s), ∃ fd fs id fn files h, r = Z.of_nat fd ∧
    file_at A fd fs id fn files h data ∧
    returns (elf_parse_header Little u64 r (l_headers l) (l_hdr l) (l_ph32 l) (l_ph64 l) (l_elf l) s)
      (λ '((res, elf), s'), elf_result Little u64 data res (l_elf l) elf ∧ ∃ pos, opened A fd fs id pos s')).
Proof using.
  intros [R1 R2 (vn & fn & files & h & E1 & E2 & E3 & E4) R4 (L1 & L2 & L3 & L4) [D1 D2] _ _ _ _].
  eapply returns_mono; [by eapply open_opened|]. intros [r s] (fd & id & -> & Hfa & Ho).
  exists fd, (mounted_at (av_fss A) vn), id, fn, files, h. split_and!; [done|done|].
  by apply (elf_parse_spec Little u64 A fd _ id fn files h data Hfa).
Qed.

(** What makes the call an error. *)
Definition rejected (data : list Z) : Prop :=
  header_error Little data ≠ None ∨ ¬ file_ok Little data ∨ entry_point (file_info Little u64 data) ≤ VMM_KERNEL_SPACE.

Lemma setup_rejects m l path p A data k K sp bound held c th old entry0 stack0 :
  ready m l path p A data k K sp bound held c th old → rejected data →
  (∀ e, header_error Little data = Some e → e < 0) →
  returns (setup_new_process base l (Z.of_nat th) path entry0 stack0 m) (λ '((r, entry, stack), m'),
    (r, entry, stack) = (-1, entry0, stack0) ∧ file_open A (m_vfs m') ∧ m' = with_vfs (m_vfs m') m).
Proof using.
  unfold rejected. intros R Hrej Hneg. pose proof (setup_opens _ _ _ _ _ _ _ _ _ _ _ _ _ _ R) as Ho.
  destruct R as [_ _ _ _ _ _ _ _ (Hc & x & Hx & Hold) _]. destruct m as [vf pm vm mem thr cur intr]. simpl in *. subst cur.
  unfold setup_new_process. cbn [m_current]. unfold get_thread at 1, aread. cbn [m_threads].
  destruct (Z.ltb_spec (Z.of_nat c) 0); [lia|]. rewrite Nat2Z.id, Hx. cbn [outcome_bind m_vfs]. apply returns_bind.
  eapply returns_mono; [exact Ho|]. intros [r s] (fd & fs & id & fn & files & h & -> & Hfa & Hp).
  destruct (Z.ltb_spec (Z.of_nat fd) 0); [lia|]. cbn [with_vfs m_vfs]. apply returns_bind.
  eapply returns_mono; [exact Hp|]. intros [[res elf] s'] [Hres [pos Ho']]. cbn [with_vfs m_vfs].
  assert (Hfo : file_open A s') by (by exists fd, fs, id, fn, files, h, data, pos).
  unfold elf_result in Hres. destruct (header_error Little data) as [e|].
  { destruct Hres as [-> _]. specialize (Hneg e eq_refl). destruct (Z.ltb_spec e 0); [exact (conj eq_refl (conj Hfo eq_refl))|lia]. }
  destruct (Z.ltb_spec res 0) as [Hr|Hr]; [exact (conj eq_refl (conj Hfo eq_refl))|]. destruct (decide (file_ok Little data)) as [Hok|Hok]; [|lia].
  destruct Hres as [_ ->]. destruct Hrej as [?|[?|He]]; [done|done|].
  destruct (Z.leb_spec (entry_point (file_info Little u64 data)) VMM_KERNEL_SPACE); [exact (conj eq_refl (conj Hfo eq_refl))|lia].
Qed.

Lemma header_error_negative en data e : header_error en data = Some e → e < 0.
Proof using. unfold header_error. repeat case_match; intros; simplify_eq; lia. Qed.

(** ** The call succeeds *)

(** Page tables and frames for the pages of the image. *)
Definition enough (m : machine F) (e : elf_info_t) : Prop :=
  let n := length (image_pages e) in
  (S (used_tables (m_vm m)) + 3 * n ≤ 512)%nat ∧ (n ≤ frames_left (m_pmm m))%nat ∧
  used_blocks (m_pmm m) + Z.of_nat n ≤ total_blocks (m_pmm m).

(** Nothing is loaded yet. *)
Lemma loaded_nil A fd fs id (data : list Z) (e : elf_info_t) t k K sp bound held (m : machine F) :
  frames (m_pmm m) bound held → srep base k K (m_vm m) (<[t := K]> sp) →
  cr3 (m_vm m) = table_addr base (Z.of_nat t) → (∃ pos, opened A fd fs id pos (m_vfs m)) →
  loaded base A fd fs id data t k K sp bound held m e [] m.
Proof using.
  intros Hfr Hs Hc Ho. exists []. split; [|done]. split; simpl; try done; try lia.
  - split; constructor.
  - by intros va p o ?%elem_of_nil.
Qed.

(** The loops of the call. *)
Lemma loops_spec A fd fs id fn files h data e t k K sp bound held (m : machine F) :
  file_at A fd fs id fn files h data → loadable data e → 0 < bound →
  (used_tables (m_vm m) + 3 * length (image_pages e) ≤ 512)%nat →
  (length (image_pages e) ≤ frames_left (m_pmm m))%nat →
  used_blocks (m_pmm m) + Z.of_nat (length (image_pages e)) ≤ total_blocks (m_pmm m) →
  frames (m_pmm m) bound held → srep base k K (m_vm m) (<[t := K]> sp) →
  cr3 (m_vm m) = table_addr base (Z.of_nat t) → (∃ pos, opened A fd fs id pos (m_vfs m)) →
  let p := table_addr base (Z.of_nat t) in
  returns (let* m := load_stack base p m in let* m := load_ro base p (Z.of_nat fd) e m in
           load_rw base p (Z.of_nat fd) e m)
    (loaded base A fd fs id data t k K sp bound held m e (image_pages e)).
Proof using Hbase.
  intros Hfa He Hb Ht Hl Hu Hfr Hs Hc Ho p.
  pose proof (loaded_nil A fd fs id data e t k K sp bound held m Hfr Hs Hc Ho) as H0. apply returns_bind.
  eapply returns_mono; [by eapply (load_stack_loaded base Hbase A fd fs id data t k K sp bound Hb held m e He _ (le_n _))|].
  intros m1 H1. apply returns_bind.
  eapply returns_mono; [by eapply (load_ro_loaded base Hbase A fd fs id fn files h data Hfa t k K sp bound Hb held m e He _ (le_n _))|].
  intros m2 H2.
  by eapply (load_rw_loaded base Hbase A fd fs id fn files h data Hfa t k K sp bound Hb held m e He _ (le_n _)).
Qed.

Lemma process_image A fd fs id data e t k K sp bound held (m0 m : machine F) va o :
  loaded base A fd fs id data t k K sp bound held m0 e (image_pages e) m → va ∈ image_pages e → 0 ≤ o < 4096 →
  load_byte base (va + o) m = Done (image data e (va + o)).
Proof using.
  intros (L & HL & EL) Hva Ho. rewrite <- EL in Hva. apply list_elem_of_fmap in Hva as ([va' p] & -> & Hin). cbn [fst].
  rewrite (load_byte_page base m va' (p * 4096)) by (done || by eapply holding_page).
  f_equal. by apply (ho_img HL).
Qed.

(** From the last loop to the end of the call. *)
Lemma finish_spec A fd fs id fn files h data e t k K sp bound held c th old x (m m1 m2 : machine F) :
  file_at A fd fs id fn files h data → sp !! t = None → loadable data e →
  loaded base A fd fs id data t k K sp bound held m1 e (image_pages e) m2 →
  m_threads m !! c = Some x → is_Some (m_threads m !! th) → m_current m = Z.of_nat c → m_current m1 = m_current m →
  m_memory m1 = m_memory m →
  m_threads m1 = alter (set_pagetable64 (table_addr base (Z.of_nat t))) th
    (alter (on_context (set_ctx_memory (table_addr base (Z.of_nat t)))) c (m_threads m)) →
  returns (let* '(_, s) := vfs_close (Z.of_nat fd) (m_vfs m2) in
           let* m3 := process_set_pagetable old (with_vfs s m2) in
           let* m4 := update_thread (Z.of_nat th) (on_context (set_ctx_memory (table_addr base (Z.of_nat t)))) m3 in
           Done ((0, entry_point e, USERLAND_STACK_TOP), _interrupt_set_state (m_intr m) m4))
    (λ '((r, entry, stack), m'), (r, entry, stack) = (0, entry_point e, USERLAND_STACK_TOP) ∧
      process_set_up m m' A data e k K sp bound held c th old t).
Proof using.
  intros Hfa Hnew He Hl Hx Hy Hc Hc1 Hmem Hthr. set (p := table_addr base (Z.of_nat t)) in *.
  pose proof Hl as (L & HL & EL). destruct (ho_file HL) as [pos Ho]. apply returns_bind.
  eapply returns_mono; [by apply (opened_close A fd fs id fn files h data Hfa pos)|]. intros [r s] [_ Hcl].
  assert (Hlook : ∀ i, is_Some (m_threads m !! i) → is_Some (m_threads m2 !! i)).
  { intros i [z Hz]. rewrite (ho_threads HL), Hthr.
    apply lookup_lt_is_Some. rewrite !length_alter. by eapply lookup_lt_Some. }
  destruct (Hlook c) as [x2 Hx2]; [eauto|]. destruct (Hlook th Hy) as [y2 Hy2].
  assert (Hc2 : m_current m2 = Z.of_nat c) by (rewrite (ho_current HL); congruence).
  pose proof (process_image A fd fs id data e t k K sp bound held m1 m2) as Himg.
  assert (Hpages : ∀ va q, (va, q) ∈ L → page_at base m2 va (q * 4096)) by (intros va q Hin; by eapply holding_page).
  destruct (ho_pages HL) as [Hup _].
  pose proof (ho_space HL) as Hsp. pose proof (ho_frames HL) as Hfr.
  pose proof (ho_old HL) as Hold. pose proof (ho_cr3 HL) as Hcr3.
  pose proof (ho_threads HL) as Hthr2.
  destruct m2 as [vf2 pm2 vm2 mem2 thr2 cur2 intr2]. cbn [m_vfs m_pmm m_vm m_memory m_threads m_current with_vfs] in *. subst cur2.
  rewrite (set_pagetable_ok _ c _ x2) by done. cbn [outcome_bind m_vfs m_pmm m_vm m_memory m_threads m_current m_intr].
  set (thr3 := alter _ c thr2). assert (Hy3 : is_Some (thr3 !! th)).
  { apply lookup_lt_is_Some. unfold thr3. rewrite length_alter. by eapply lookup_lt_Some. }
  destruct Hy3 as [y3 Hy3]. rewrite (update_thread_ok _ th _ y3) by done. cbn [outcome_bind returns]. split; [done|].
  split; cbn [m_vfs m_pmm m_vm m_memory m_threads m_current m_intr with_threads with_intr _interrupt_set_state with_vm].
  - done.
  - intros va o Hva Hoo. specialize (Himg va o Hl Hva Hoo). unfold load_byte, physical in *.
    cbn [m_vfs m_pmm m_vm m_memory m_threads m_current m_intr with_threads with_intr _interrupt_set_state with_vm] in *.
    rewrite Hcr3 in Himg. rewrite (translate_pool base 4 vm2) by (by destruct vm2). by destruct vm2.
  - exists (space_of K L). split; [by apply srep_cr3|]. intros z Hz. apply space_of_out. by rewrite EL.
  - exists L. split_and!; [done|done| |intros q Hq; rewrite <- Hmem; by apply Hold].
    intros va q Hin. destruct (Hpages va q Hin) as (Hua & en & Hen & Hfrm). split; [done|]. exists en. split; [|done].
    cbn [m_vm with_vm] in *. rewrite Hcr3 in Hen. rewrite (translate_pool base 4 vm2) by (by destruct vm2). by destruct vm2.
  - by destruct vm2.
  - unfold thr3. rewrite Hthr2, Hthr. apply threads_after_ok.
  - done.
  - done.
  - by exists fd, fs, id, fn, files, h, data.
Qed.

Lemma setup_accepts m l path p A data k K sp bound held c th old entry0 stack0 :
  let e := file_info Little u64 data in
  ready m l path p A data k K sp bound held c th old →
  header_error Little data = None → file_ok Little data → loadable data e → enough m e →
  returns (setup_new_process base l (Z.of_nat th) path entry0 stack0 m) (λ '((r, entry, stack), m'),
    (r, entry, stack) = (0, entry_point e, USERLAND_STACK_TOP) ∧
    ∃ t, process_set_up m m' A data e k K sp bound held c th old t).
Proof using Hbase.
  intros e R Hhe Hok He (Et & El & Eu). pose proof (setup_opens _ _ _ _ _ _ _ _ _ _ _ _ _ _ R) as Ho.
  destruct R as [_ _ _ _ _ _ Hspace [Hfr Hb] (Hc & x & Hx & Hold) [y Hy]].
  destruct m as [vf pm vm mem thr cur intr]. simpl in *. subst cur.
  unfold setup_new_process. cbn [m_current]. unfold get_thread at 1, aread. cbn [m_threads].
  destruct (Z.ltb_spec (Z.of_nat c) 0); [lia|]. rewrite Nat2Z.id, Hx. cbn [outcome_bind m_vfs]. rewrite Hold.
  apply returns_bind. eapply returns_mono; [exact Ho|]. intros [r s] (fd & fs & id & fn & files & h & -> & Hfa & Hp).
  destruct (Z.ltb_spec (Z.of_nat fd) 0); [lia|]. cbn [with_vfs m_vfs]. apply returns_bind.
  eapply returns_mono; [exact Hp|]. intros [[res elf] s'] [Hres Ho']. cbn [with_vfs m_vfs m_vm].
  unfold elf_result in Hres. rewrite Hhe, decide_True in Hres by done. destruct Hres as [-> ->]. fold e.
  destruct (Z.ltb_spec (if 0 <? segments_found (file_headers Little data) then 1 else 0) 0) as [Hlt|_];
    [by destruct (0 <? _)|].
  pose proof (lo_entry _ _ He) as Hentry. destruct (Z.leb_spec (entry_point e) VMM_KERNEL_SPACE); [lia|].
  apply returns_bind. eapply returns_mono; [apply (create_page_srep base Hbase k K vm sp (u32 (Z.of_nat th)) Hspace); lia|].
  intros [tp v'] (Hnew & Etp & Hspace' & Hused & Hcr3). set (t := table_of_addr base tp) in *. rewrite Etp.
  cbn [with_vm _interrupt_disable with_intr m_intr].
  rewrite (set_pagetable_ok _ c _ x) by done. cbn [outcome_bind m_vfs m_pmm m_vm m_memory m_threads m_current m_intr].
  set (thr1 := alter _ c thr). assert (Hy1 : is_Some (thr1 !! th)).
  { unfold thr1. destruct (decide (th = c)) as [->|Hne]; [rewrite list_lookup_alter_eq, Hx; eauto|].
    rewrite list_lookup_alter_ne by done. eauto. }
  destruct Hy1 as [y1 Hy1]. rewrite (update_thread_ok _ th _ y1) by done. cbn [outcome_bind with_threads m_threads].
  match goal with |- returns (outcome_bind _ (load_stack _ _ ?w)) _ => set (m1 := w) end.
  pose proof (loops_spec A fd fs id fn files h data e t k K sp bound held m1 Hfa He Hb) as Hloops.
  assert (Eu1 : used_tables (m_vm m1) = used_tables v') by (by destruct v').
  rewrite Eu1 in Hloops. specialize (Hloops ltac:(lia) El Eu Hfr (srep_cr3 _ _ _ _ _ _ Hspace')).
  specialize (Hloops ltac:(by destruct v') Ho'). cbv zeta in Hloops.
  eapply returns_bind3; [exact Hloops|]. intros m4 Hl4.
  eapply returns_mono; [by apply (finish_spec A fd fs id fn files h data e t k K sp bound held c th old x
    (Machine vf pm vm mem thr (Z.of_nat c) intr) m1 m4); try done|].
  intros [[[r2 en2] st2] m'] [E2 Hsu]. split; [exact E2|]. by exists t.
Qed.
End setup.

Arguments rd_current {_ _ _ _ _ _ _ _ _ _ _ _ _ _ _ _ _ _} _.
Arguments su_threads {_ _ _ _ _ _ _ _ _ _ _ _ _ _ _ _ _ _} _.

(** ** Entering a process

    The frame that [_context_enter_userland] leaves on the stack of the process
    and from which the processor takes the registers when the thread is next
    resumed. *)

Definition words_bytes (ws : list Z) : list Z := mjoin (le_bytes 8 <$> ws).

Lemma length_words_bytes ws : length (words_bytes ws) = (8 * length ws)%nat.
Proof.
  induction ws as [|w ws IH]; [done|]. change (words_bytes (w :: ws)) with (le_bytes 8 w ++ words_bytes ws).
  rewrite length_app, length_le_bytes, IH. cbn [length]. lia.
Qed.

Lemma words_bytes_app ws ws' : words_bytes (ws ++ ws') = words_bytes ws ++ words_bytes ws'.
Proof. unfold words_bytes. by rewrite fmap_app, join_app. Qed.

(** Where the stack of a process begins, and the frame below it. *)
Definition user_stack : Z := 0xFFFFFFFFFFFFFFF0.
Definition user_rsp : Z := user_stack - 8 * 21.

(** The words of the frame, upwards: rax, rcx, rdx, rbx, rsp, rbp, rsi, rdi, r8
    to r15, then instruction pointer, code segment, flags, stack pointer and
    stack segment, and a zero. *)
Definition user_frame (entry : Z) : list Z :=
  [0; 0; 0; 0; 0; user_stack - 8 * 6; 0; 0; 0; 0; 0; 0; 0; 0; 0; 0;
   entry; 8 * GDT_KERNEL_CODE; THREAD_FLAGS; user_stack; 8 * GDT_KERNEL_DATA; 0].

Section enter.
Context {F : Type} {fsd : FsDriver F}.
Context (base : Z).
Implicit Types (m : machine F).

Lemma with_memory_twice (f g : Z → Z) m : with_memory f (with_memory g m) = with_memory f m.
Proof using. by destruct m. Qed.

(** Pushing words inside a page writes them below each other. *)
Lemma push_words_page va fr ws : ∀ m o, page_at base m va fr → 0 ≤ o + 8 - 8 * Z.of_nat (length ws) → o + 8 ≤ 4096 →
  8 ≤ va →
  ∃ mem, push_words base (va + o) ws m = Done (va + o - 8 * Z.of_nat (length ws), with_memory mem m) ∧
    ∀ q, mem q = mem_write (fr + (o + 8 - 8 * Z.of_nat (length ws))) (words_bytes (reverse ws)) (m_memory m) q.
Proof using.
  induction ws as [|w ws IH]; intros m o Hp Ho1 Ho2 Hva; cbn [push_words length] in *.
  { exists (m_memory m). split; [|done]. rewrite Z.sub_0_r. by destruct m. }
  unfold store64. rewrite (store_bytes_page base va fr) by (done || rewrite ?length_le_bytes; lia). cbn [outcome_bind].
  set (m1 := with_memory _ m). pose proof (proj1 Hp) as (_ & Hv1 & Hv2).
  assert (E : u64 (va + o - 8) = va + (o - 8)) by (unfold u64; rewrite Z.mod_small by lia; lia). rewrite E.
  destruct (IH m1 (o - 8)) as (mem & -> & Hmem); [by apply page_at_memory|lia|lia|lia|].
  exists mem. split; [unfold m1; rewrite with_memory_twice; do 2 f_equal; lia|].
  intros q. rewrite Hmem, reverse_cons, words_bytes_app.
  assert (Em : m_memory m1 = mem_write (fr + o) (le_bytes 8 w) (m_memory m)) by (by destruct m). rewrite Em.
  replace (o - 8 + 8 - 8 * Z.of_nat (length ws)) with (o + 8 - 8 * Z.of_nat (S (length ws))) by lia.
  set (lo := fr + (o + 8 - 8 * Z.of_nat (S (length ws)))). set (low := words_bytes (reverse ws)).
  assert (Hlow : length low = (8 * length ws)%nat) by (unfold low; by rewrite length_words_bytes, length_reverse).
  assert (Ehi : words_bytes [w] = le_bytes 8 w) by (unfold words_bytes; apply app_nil_r). rewrite Ehi.
  rewrite !mem_write_lookup, length_app, length_le_bytes, Hlow.
  destruct (Z.leb_spec lo q), (Z.ltb_spec q (lo + Z.of_nat (8 * length ws))),
    (Z.ltb_spec q (lo + Z.of_nat (8 * length ws + 8))), (Z.leb_spec (fr + o) q), (Z.ltb_spec q (fr + o + Z.of_nat 8));
    cbn [andb]; try done; try (exfalso; lia).
  - rewrite lookup_app_l by lia. done.
  - rewrite lookup_app_r by lia. do 2 f_equal. lia.
Qed.

(** The whole frame. *)
Lemma push_frame_page va fr entry m :
  page_at base m va fr → va = stack_page →
  ∃ mem, push_frame base user_stack 0 entry 0 m = Done (user_rsp, with_memory mem m) ∧
    ∀ q, mem q = mem_write (fr + 0xF48) (words_bytes (user_frame entry)) (m_memory m) q.
Proof using.
  intros Hp ->.
  set (ws := [0; 8 * GDT_KERNEL_DATA; user_stack; THREAD_FLAGS; 8 * GDT_KERNEL_CODE; entry]).
  set (ws' := [0; 0; 0; 0; 0; 0; 0; 0; 0; 0; user_stack - 8 * 6; 0; 0; 0; 0]).
  assert (Happ : ∀ l l' rsp m, push_words base rsp (l ++ l') m =
    let* '(rsp, m) := push_words base rsp l m in push_words base rsp l' m).
  { induction l as [|x l IH]; intros l' rsp m'; [done|]. cbn [app push_words].
    destruct (store64 base rsp x m') as [m2| | | |]; try done. cbn [outcome_bind]. apply IH. }
  destruct (push_words_page stack_page fr (ws ++ ws' ++ [0]) m 0xFF0 Hp) as (mem & Hpush & Hmem); [by vm_compute..|].
  exists mem. split; [|intros q; rewrite Hmem; reflexivity].
  change (stack_page + 0xFF0) with user_stack in Hpush. rewrite Happ in Hpush. unfold push_frame. fold ws.
  destruct (push_words_page stack_page fr ws m 0xFF0 Hp) as (mem1 & E1 & _); [by vm_compute..|].
  change (stack_page + 0xFF0) with user_stack in E1. rewrite E1 in *. cbn [outcome_bind] in *.
  change (user_stack - 8 * Z.of_nat (length ws)) with (user_stack - 8 * 6) in *. fold ws'.
  destruct (push_words_page stack_page fr ws' (with_memory mem1 m) 0xFC0) as (mem2 & E2 & _);
    [by apply page_at_memory|by vm_compute..|].
  change (stack_page + 0xFC0) with (user_stack - 8 * 6) in E2. rewrite Happ in Hpush. rewrite E2 in *. cbn [outcome_bind] in *.
  change (user_stack - 8 * 6 - 8 * Z.of_nat (length ws')) with user_rsp in *. cbn [push_words] in Hpush.
  destruct (store64 base user_rsp 0 _) as [m3| | | |]; try discriminate Hpush. cbn [outcome_bind] in *.
  by injection Hpush as ->.
Qed.
End enter.

Section start.
Context {F : Type} {fsd : FsDriver F} {spec : FsDriverSpec F}.
Context (base : Z) (Hbase : 0 < base ∧ base mod 4096 = 0 ∧ base < 2 ^ 51).
Implicit Types (m : machine F).

(** The state in which the thread yields, to be resumed in the process. *)
Record entered (m : machine F) (A : avfs) (data : list Z) (e : elf_info_t) (c t : nat) : Prop := {
  en_cr3 : cr3 (m_vm m) = table_addr base (Z.of_nat t);
  en_thread : ∃ x, m_threads m !! c = Some x ∧ th_user_context x = Context64 user_rsp (entry_point e) 0 0 0 ∧
    ctx_pml4 (th_context x) = table_addr base (Z.of_nat t) ∧ th_pagetable x = table_addr base (Z.of_nat t) ∧
    Z.testbit (th_attribs x) 1 = true;
  en_frame : load_bytes base user_rsp (length (words_bytes (user_frame (entry_point e)))) m =
    Done (words_bytes (user_frame (entry_point e)));
  en_image : ∀ va o, va ∈ image_pages e → 0 ≤ o < 4096 → va + o < user_rsp ∨ user_stack + 8 ≤ va + o →
    load_byte base (va + o) m = Done (image data e (va + o));
  en_file : file_closed A (m_vfs m)
}.

Lemma enter_attribs d : Z.testbit (u32 (Z.lor d THREAD_FLAG_ENTERUSER)) 1 = true.
Proof using. unfold u32. rewrite Z.mod_pow2_bits_low by lia. rewrite Z.lor_spec. apply orb_true_r. Qed.

Lemma with_threads_fields l m :
  m_vm (with_threads l m) = m_vm m ∧ m_memory (with_threads l m) = m_memory m ∧ m_vfs (with_threads l m) = m_vfs m ∧
  m_threads (with_threads l m) = l.
Proof using. by destruct m. Qed.

Lemma enter_spec m m1 A data e k K sp bound held c old t x y :
  process_set_up base m m1 A data e k K sp bound held c c old t →
  m_current m = Z.of_nat c → m_threads m !! c = Some x →
  m_threads m1 !! c = Some y → stack_page ∈ image_pages e →
  let m2 := with_vm (vmm_setcr3 (table_addr base (Z.of_nat t)) (m_vm m1)) m1 in
  ctx_pml4 (th_context y) = table_addr base (Z.of_nat t) → th_pagetable y = table_addr base (Z.of_nat t) →
  returns (_context_enter_userland base (Context64 USERLAND_STACK_TOP (entry_point e) 0 0 0) m2)
    (λ m', entered m' A data e c t).
Proof using.
  intros [_ Himg _ (L & EL & Hfr & Hpages & _) _ _ Hcur _ Hfile] Hc Hx Hy Hin m2 Hpml Hpt. fold m2 in Himg, Hpages.
  pose proof Hin as Hin'. rewrite <- EL in Hin'. apply list_elem_of_fmap in Hin' as ([va p] & Eva & HinL).
  cbn [fst] in Eva. subst va. pose proof (Hpages _ _ HinL) as Hpg. unfold _context_enter_userland.
  cbn [ctx_stack ctx_rip]. change (align_stack (u64 (USERLAND_STACK_TOP - 16))) with user_stack.
  destruct (push_frame_page base stack_page (p * 4096) (entry_point e) m2 Hpg eq_refl) as (mem & -> & Hmem).
  cbn [outcome_bind]. set (m3 := with_memory mem m2).
  assert (E3 : m_current m3 = Z.of_nat c ∧ m_threads m3 = m_threads m1 ∧ m_vm m3 = m_vm m2 ∧ m_memory m3 = mem ∧
    m_vfs m3 = m_vfs m1 ∧ cr3 (m_vm m3) = table_addr base (Z.of_nat t)).
  { rewrite <- Hc, <- Hcur. unfold m3, m2. destruct m1 as [? ? [] ? ? ? ?]. by split_and!. }
  destruct E3 as (Ec & Eth & Evm & Emem & Evf & Ecr). rewrite Ec.
  rewrite (update_thread_ok _ c _ y) by (by rewrite Eth). cbn [returns].
  set (m4 := with_threads _ m3).
  assert (E4 : m_vm m4 = m_vm m2 ∧ m_memory m4 = mem ∧ m_vfs m4 = m_vfs m1 ∧
    m_threads m4 = alter (enter_user (set_ctx_stack user_rsp (Context64 USERLAND_STACK_TOP (entry_point e) 0 0 0)) THREAD_FLAG_ENTERUSER) c (m_threads m3)).
  { rewrite <- Evm, <- Emem, <- Evf. apply with_threads_fields. }
  destruct E4 as (Evm4 & Emem4 & Evf4 & Eth4).
  assert (Hpg4 : ∀ va q, page_at base m2 va q → page_at base m4 va q) by (unfold page_at; by rewrite Evm4).
  split.
  - by rewrite Evm4, <- Evm.
  - eexists. split; [by rewrite Eth4, list_lookup_alter_eq, Eth, Hy|]. destruct y as [a b pt d]. simpl in *.
    split_and!; [done|done|done|apply enter_attribs].
  - assert (Hlen : length (words_bytes (user_frame (entry_point e))) = 176%nat) by (by rewrite length_words_bytes).
    change user_rsp with (stack_page + 0xF48).
    rewrite (load_bytes_page base m4 stack_page (p * 4096)) by (try (by apply Hpg4); rewrite ?Hlen; lia).
    f_equal. rewrite Emem4. etransitivity; [|apply (mem_slice_write _ (p * 4096 + 0xF48) (m_memory m2))].
    unfold mem_slice. apply list_fmap_ext. intros i q Hq. by rewrite Hmem.
  - intros va o Hva Ho Hout. pose proof Hva as Hva'. rewrite <- EL in Hva'.
    apply list_elem_of_fmap in Hva' as ([va' q] & Eva & HinQ). cbn [fst] in Eva. subst va'.
    pose proof (Hpages _ _ HinQ) as Hpq. specialize (Himg va o Hva Ho).
    rewrite (load_byte_page base m2 va (q * 4096)) in Himg by done.
    rewrite (load_byte_page base m4 va (q * 4096)) by (done || by apply Hpg4).
    rewrite <- Himg, Emem4, Hmem. f_equal. rewrite mem_write_lookup.
    assert (Hlen : Z.of_nat (length (words_bytes (user_frame (entry_point e)))) = 176) by (by rewrite length_words_bytes).
    rewrite Hlen. destruct (Z.leb_spec (p * 4096 + 0xF48) (q * 4096 + o)),
      (Z.ltb_spec (q * 4096 + o) (p * 4096 + 0xF48 + 176)); cbn [andb]; try done. exfalso.
    assert (q = p) as -> by lia.
    assert (va = stack_page) as ->; [|unfold user_rsp, user_stack, stack_page in *; lia].
    pose proof (fr_nodup _ _ _ Hfr) as Hnd. apply NoDup_app in Hnd as [Hnd _].
    apply list_elem_of_lookup in HinQ as [i Hi], HinL as [j Hj].
    assert (Hij : i = j); [|rewrite Hij, Hj in Hi; by injection Hi as ->].
    eapply NoDup_lookup; [exact Hnd|by rewrite list_lookup_fmap, Hi|by rewrite list_lookup_fmap, Hj].
  - by rewrite Evf4.
Qed.

Lemma start_accepts m l path p A data k K sp bound held c old entry0 stack0 :
  let e := file_info Little u64 data in
  ready base m l path p A data k K sp bound held c c old →
  header_error Little data = None → file_ok Little data → loadable data e → enough m e →
  returns (process_start base l path entry0 stack0 m) (λ r, ∃ m' t, r = inr m' ∧ sp !! t = None ∧ entered m' A data e c t).
Proof using Hbase.
  intros e R Hhe Hok He Hen. pose proof rd_current R as (Hc & x & Hx & Hold).
  unfold process_start. rewrite Hc. apply returns_bind.
  eapply returns_mono; [by apply (setup_accepts base Hbase m l path p A data k K sp bound held c c old)|].
  intros [[[r en] st] m1] ([= -> -> ->] & t & Hsu). cbn [Z.eqb negb].
  pose proof su_threads Hsu as Hthr.
  assert (Hy : ∃ y, m_threads m1 !! c = Some y ∧ ctx_pml4 (th_context y) = table_addr base (Z.of_nat t) ∧
    th_pagetable y = table_addr base (Z.of_nat t)).
  { rewrite Hthr. unfold threads_after. rewrite !list_lookup_alter_eq, Hx. eexists. split; [done|].
    by destruct x as [[] ? ? ?]. }
  destruct Hy as (y & Hy & Hpml & Hpt). unfold get_thread, aread. destruct (Z.ltb_spec (Z.of_nat c) 0); [lia|].
  rewrite Nat2Z.id, Hy. cbn [outcome_bind]. rewrite Hpml. apply returns_bind.
  eapply returns_mono; [eapply enter_spec; try done|].
  { unfold image_pages. rewrite !elem_of_app. right. right. left. }
  intros m' Hm'. exists m', t. split_and!; [done|apply Hsu|done].
Qed.
End start.
