(* ===== verification/ProcProps.v ===== *)
(** * Properties of the ELF parser and of starting processes

    An example executable on an example machine, then the theorems. *)


From S2P Require Import Prelude Bitmap ByteMem Libc BlockDev Tfs TfsSpec TfsRead TfsView.
From S2P Require Import Vfs VfsSpec VfsInv VfsOps VfsTfs VfsProps PhysMem X86Bits.
From S2P Require Import X86Phys X86Paging X86Map X86Space X86Spaces X86Props.
From S2P Require Import Elf Process ProcLoad ProcStart ProcSetup.

(** ** An example executable

    The volume of TfsView.v with an ELF file in place of its file "a", mounted
    in a VFS, and a machine on which the file can be started. *)

(** ** The file

    A read-only segment of 8 bytes and a writable one of 16 bytes that takes 5000
    bytes of memory. *)
Definition elf_ro_vaddr : Z := 0xFFFF800000400000.
Definition elf_rw_vaddr : Z := 0xFFFF800000000000.
Definition elf_header_bytes : list Z :=
  [0x7f; 0x45; 0x4c; 0x46; 2] ++ replicate 11 0 ++ le_bytes 2 2 ++ replicate 6 0 ++
  le_bytes 8 elf_ro_vaddr ++ le_bytes 8 64 ++ replicate 16 0 ++ le_bytes 2 2 ++ replicate 6 0.
Definition elf_phdr_bytes (flags offset vaddr filesz memsz : Z) : list Z :=
  le_bytes 4 1 ++ le_bytes 4 flags ++ le_bytes 8 offset ++ le_bytes 8 vaddr ++ replicate 8 0 ++
  le_bytes 8 filesz ++ le_bytes 8 memsz ++ replicate 8 0.
Definition elf_block : list Z :=
  Eval vm_compute in
  elf_header_bytes ++ elf_phdr_bytes 5 176 elf_ro_vaddr 8 8 ++ elf_phdr_bytes 6 184 elf_rw_vaddr 16 5000 ++
  replicate 8 0x90 ++ replicate 16 7 ++ replicate 312 0.

Definition elf_blocks : list (list Z) :=
  [a_header; block_bytes Big (63 :: replicate 127 0); a_md;
   block_bytes Big ([520; 5; 4] ++ replicate 125 0); replicate 512 65; elf_block;
   replicate 512 0; replicate 512 0].

Lemma elf_blocks_ok : image_ok elf_blocks.
Proof. unfold image_ok. apply (bool_decide_unpack _). vm_compute. exact I. Qed.

Definition elf_disk : disk := Disk (Ramdisk elf_blocks []) elf_blocks_ok.

Lemma elf_inode : inode_rep (vblock empty_tfs elf_disk 3) a_file.
Proof. assert (E : vblock empty_tfs elf_disk 3 = vblock empty_tfs a_disk 3) by (by vm_compute). rewrite E. exact a_inode. Qed.

Lemma elf_fs_rep : fs_rep empty_tfs elf_disk a_dir.
Proof.
  constructor; [split; by vm_compute|split; apply zero_block|exact a_dir_ok|exact a_slots|..].
  - intros i f [[_ [= ->]]|[? _]]%a_dir_lookup; [exact elf_inode|done].
  - intros p Hp. simpl in Hp.
    assert (Hc : p = 0 ∨ p = 1 ∨ p = 2 ∨ p = 3 ∨ p = 4 ∨ p = 5 ∨ p = 6 ∨ p = 7) by lia.
    destruct_or!; subst; by vm_compute.
Qed.

Definition elf_data : list Z := elf_block ++ replicate 8 65.

Lemma elf_file_data : file_data empty_tfs elf_disk a_file = elf_data.
Proof. by vm_compute. Qed.

(** ** The VFS *)
Definition elf_volume : tfs_volume disk := TfsVolume demo_mp 4096 empty_tfs elf_disk.
Definition elf_m : afs := view empty_tfs elf_disk a_dir.
Definition elf_A : avfs := AVfs 0 demo_fss demo_fls {[ 1 := (elf_m, demo_h) ]}.
Definition elf_vfs : vfs (tfs_volume disk) := state 1 1 0 demo_fss demo_fls {[ 1 := elf_volume ]}.

Lemma elf_holds : vol_holds elf_volume elf_m demo_h.
Proof. exists a_dir. split_and!; [exact elf_fs_rep|reflexivity..]. Qed.

Lemma elf_vrep : vrep elf_vfs elf_A.
Proof.
  split; [simpl; lia|]. exists {[ 1 := elf_volume ]}. split; [reflexivity|].
  destruct demo_tables as [T1 T2 T3 T4 T5 T6 T7 T8]. constructor; try assumption.
  - intros fs Hne ->%demo_mounted; [|exact Hne]. cbn [av_contents elf_A]. rewrite lookup_singleton_eq. eauto.
  - unfold elf_A. cbn [av_contents]. intros fs f m h [-> <-]%lookup_singleton_Some E. cbn [av_contents elf_A] in E. rewrite lookup_singleton_eq in E.
    injection E as <- <-. exact elf_holds.
Qed.

Lemma elf_file : elf_m !! name_a = Some elf_data.
Proof. rewrite <- elf_file_data. exact (view_lookup 8 empty_tfs elf_disk a_dir 0 a_file a_dir_ok eq_refl). Qed.

(** ** The machine

    The page tables and the frame allocator of X86Props.v; one thread, which
    runs in the kernel's address space. *)
Definition elf_kernel_root : Z := table_addr demo_base 0.
Definition elf_thread : thread64 :=
  Thread64 (Context64 0 0 0 elf_kernel_root elf_kernel_root) (Context64 0 0 0 0 0) 0 0.
Definition elf_machine : machine (tfs_volume disk) :=
  Machine elf_vfs demo_pmm demo_vm1 (λ _, 0xAA) [elf_thread] 0 true.
Definition elf_locals : locals :=
  Locals demo_buf demo_buf 4096 (replicate 64 0) (replicate 32 0) (replicate 56 0) (ElfInfo 0 0 0 0 0 0 0 0 0).

Lemma elf_bytes : Forall is_u8 elf_data ∧ table_fits Little elf_data.
Proof. split; [by apply (bool_decide_unpack _)|by vm_compute]. Qed.

Lemma elf_ready :
  ready demo_base elf_machine elf_locals demo_path demo_p elf_A elf_data 0 (λ _, None) ∅ 3 [] 0 0 elf_kernel_root.
Proof.
  split.
  - exact demo_path_ok.
  - exact elf_vrep.
  - exists [100], name_a, elf_m, demo_h. split_and!; [reflexivity|by vm_compute|reflexivity|exact elf_file].
  - apply (list_elem_of_lookup_2 _ 0). reflexivity.
  - by split_and!.
  - split; [apply elf_bytes|intros _; apply elf_bytes].
  - exact demo_srep.
  - split; [exact demo_frames|done].
  - split; [done|]. by exists elf_thread.
  - by exists elf_thread.
Qed.

Definition elf_info : elf_info_t :=
  ElfInfo elf_ro_vaddr 176 8 1 elf_ro_vaddr 184 16 2 elf_rw_vaddr.

Lemma elf_file_info : file_info Little u64 elf_data = elf_info.
Proof. by vm_compute. Qed.

Lemma elf_no_error : header_error Little elf_data = None.
Proof. by vm_compute. Qed.

Lemma elf_file_ok : file_ok Little elf_data.
Proof. apply (bool_decide_unpack _). by vm_compute. Qed.

Lemma elf_loadable : loadable elf_data elf_info.
Proof. split; unfold segment_fits, segment_in; simpl; unfold stack_page, elf_ro_vaddr, elf_rw_vaddr, VMM_KERNEL_SPACE; split_and?; try lia; try done. Qed.

Lemma elf_enough : enough elf_machine elf_info.
Proof.
  unfold enough. assert (E : used_tables (m_vm elf_machine) = 1%nat ∧ frames_left (m_pmm elf_machine) = 61%nat) by (by vm_compute).
  destruct E as [-> ->]. simpl. split_and!; lia.
Qed.

(** ** Properties of loading and starting processes *)

Section properties.
Context {F : Type} {fsd : FsDriver F} {spec : FsDriverSpec F}.

(** C14. [elf_parse_header] on an open file, positioned at its start, always returns,
    for both classes of files and both byte orders, and the file stays open.  It
    answers the error of the first test that fails: of the tests of the header, -1
    for a file shorter than 64 bytes, -2 for the magic number, -3 for the type, -4
    for no program headers; then, for the first program header that is wrong, -6 if
    the file ends before it does, -7 for a second writable segment and -8 for a
    second one that is not.  A header test leaves the result as it was.  If no test
    fails the result is exactly the entry point and the segments of the file, and
    the answer 1 or 0 for whether there is a segment.  The table of program headers
    has to end, with room for one more header, at an offset below 2^31. *)
Theorem elf_parse_correct en width A fd fs id n files h data addr hdr0 ph32 ph64 elf0 (s : vfs F) :
  file_at A fd fs id n files h data → opened A fd fs id 0 s →
  Forall is_u8 data → addr ≠ 0 → length hdr0 = 64%nat → length ph32 = 32%nat → length ph64 = 56%nat →
  (header_error en data = None → table_fits en data) →
  returns (elf_parse_header en width (Z.of_nat fd) addr hdr0 ph32 ph64 elf0 s) (λ '((r, elf), s'),
    (match header_error en data, file_error en data with
     | Some e, _ => r = e ∧ elf = elf0
     | None, Some e => r = e
     | None, None => r = (if 0 <? segments_found (file_headers en data) then 1 else 0) ∧ elf = file_info en width data
     end) ∧ ∃ pos, opened A fd fs id pos s').
Proof.
  intros Hf Ho. intros. eapply returns_mono; [by apply (elf_parse_spec en width A fd fs id n files h data Hf)|].
  intros [[r elf] s'] [Hr Hpos]. split; [|done]. unfold elf_result in Hr.
  destruct (header_error en data); [done|]. destruct (decide (file_ok en data)) as [Hok|_].
  - by rewrite (proj1 (file_error_None en data) Hok).
  - by destruct Hr as [_ ->].
Qed.

(** C10. Setting up a process succeeds for every executable whose segments lie apart
    in the upper half of the address space and inside the file, whenever frames
    and page tables for its pages are left.  The call returns 0, the entry point
    and the top of the stack.  The new address space holds exactly the image of
    the executable, each segment with the bytes of the file followed by zeros,
    and a page of zeros as the stack, over the kernel's own mappings; every page
    has a frame of its own that nobody else holds, and no other memory changed.
    The caller runs with the page tables and the interrupt state it had, the new
    thread has the new page tables, and the file is closed. *)
Theorem setup_new_process_loads base m l path p A data k K sp bound held c th old entry0 stack0 :
  0 < base ∧ base mod 4096 = 0 ∧ base < 2 ^ 51 →
  ready base (F := F) m l path p A data k K sp bound held c th old →
  header_error Little data = None → file_ok Little data →
  loadable data (file_info Little u64 data) → enough m (file_info Little u64 data) →
  returns (setup_new_process base l (Z.of_nat th) path entry0 stack0 m) (λ '((r, entry, stack), m'),
    (r, entry, stack) = (0, entry_point (file_info Little u64 data), USERLAND_STACK_TOP) ∧
    ∃ t, process_set_up base m m' A data (file_info Little u64 data) k K sp bound held c th old t).
Proof. intros Hb. intros. by eapply setup_accepts. Qed.

(** C15. Setting up a process from a file that is not an executable, that the parser
    rejects, or whose entry point is an address of the kernel returns -1 and
    changes nothing, except that the file stays open: the error paths do not
    close it. *)
Theorem setup_new_process_rejects base m l path p A data k K sp bound held c th old entry0 stack0 :
  ready base (F := F) m l path p A data k K sp bound held c th old → rejected data →
  returns (setup_new_process base l (Z.of_nat th) path entry0 stack0 m) (λ '((r, entry, stack), m'),
    (r, entry, stack) = (-1, entry0, stack0) ∧ file_open A (m_vfs m') ∧ m' = with_vfs (m_vfs m') m).
Proof.
  intros R Hrej. apply (setup_rejects base m l path p A data k K sp bound held c th old entry0 stack0 R Hrej).
  intros e. apply header_error_negative.
Qed.

(** C13. Starting a process does not return to the caller: the thread yields with
    the new page tables in force and marked to be resumed in the process.  The
    frame at its saved stack pointer lies in the page of the stack and gives
    zeroed registers, the entry point as the instruction pointer and a stack
    below the top of the address space; it gives the kernel's code and data
    segments.  Outside the frame the process's memory is its image. *)
Theorem process_start_enters base m l path p A data k K sp bound held c old entry0 stack0 :
  0 < base ∧ base mod 4096 = 0 ∧ base < 2 ^ 51 →
  ready base (F := F) m l path p A data k K sp bound held c c old →
  header_error Little data = None → file_ok Little data →
  loadable data (file_info Little u64 data) → enough m (file_info Little u64 data) →
  returns (process_start base l path entry0 stack0 m) (λ r, ∃ m' t, r = inr m' ∧ sp !! t = None ∧
    entered base m' A data (file_info Little u64 data) c t).
Proof. intros Hb. intros. by eapply start_accepts. Qed.
End properties.

(** ** Witnesses *)
Lemma elf_parse_correct_witness :
  ∃ s, returns (elf_parse_header Little u64 0 4096 (replicate 64 0) (replicate 32 0) (replicate 56 0) (l_elf elf_locals) s)
    (λ '((r, elf), _), r = 1 ∧ elf = elf_info).
Proof.
  set (A := elf_A).
  pose proof (open_opened demo_path demo_p demo_buf demo_buf elf_vfs A [100] name_a elf_m demo_h elf_data demo_path_ok
    elf_vrep eq_refl ltac:(by vm_compute) eq_refl elf_file ltac:(apply (list_elem_of_lookup_2 _ 0); reflexivity)) as Ho.
  assert (Hfd : fst (avfs_open demo_p elf_A) = 0).
  { unfold avfs_open. change (split_path demo_p) with (Some ([100], name_a)).
    change (free_file (av_fls elf_A)) with (Some (0%nat, Openfile 0 0 0)). cbv beta iota zeta.
    change (av_fss elf_A) with demo_fss. rewrite demo_mounted_at.
    change (av_contents elf_A) with ({[ 1 := (elf_m, demo_h) ]} : gmap Z (afs * gmap (list Z) Z)).
    rewrite lookup_singleton_eq. cbn [Z.eqb]. rewrite demo_inode. reflexivity. }
  pose proof (vfs_open_spec demo_path demo_p demo_buf demo_buf elf_vfs elf_A demo_path_ok elf_vrep) as Ho2.
  destruct (vfs_open demo_path demo_buf demo_buf elf_vfs) as [[r s]| | | |]; try done.
  destruct Ho as (fd & id & -> & Hfa & Hop). destruct Ho2 as [E _]. rewrite Hfd in E.
  assert (fd = 0%nat) as -> by (apply (Nat2Z.inj fd 0); exact E). exists s.
  eapply returns_mono; [apply (elf_parse_correct Little u64 A 0 _ id name_a elf_m demo_h elf_data 4096
    (replicate 64 0) (replicate 32 0) (replicate 56 0) (l_elf elf_locals) s Hfa Hop); try done|].
  - apply elf_bytes.
  - intros [[r elf] s']. rewrite elf_no_error, (proj1 (file_error_None Little elf_data) elf_file_ok). intros [[-> ->] _].
    split; [by vm_compute|exact elf_file_info].
Defined.

Lemma setup_new_process_loads_witness :
  returns (setup_new_process demo_base elf_locals 0 demo_path 0 0 elf_machine) (λ '((r, entry, stack), m'),
    r = 0 ∧ entry = elf_ro_vaddr ∧
    ∃ t, load_byte demo_base (elf_rw_vaddr + 3) (with_vm (vmm_setcr3 (table_addr demo_base (Z.of_nat t)) (m_vm m')) m') = Done 7 ∧
      load_byte demo_base (elf_rw_vaddr + 16) (with_vm (vmm_setcr3 (table_addr demo_base (Z.of_nat t)) (m_vm m')) m') = Done 0).
Proof.
  eapply returns_mono; [apply (setup_new_process_loads demo_base elf_machine elf_locals demo_path demo_p elf_A elf_data 0
    (λ _, None) ∅ 3 [] 0 0 elf_kernel_root 0 0 demo_base_ok elf_ready elf_no_error elf_file_ok)|].
  - rewrite elf_file_info. exact elf_loadable.
  - rewrite elf_file_info. exact elf_enough.
  - rewrite elf_file_info. intros [[[r entry] stack] m'] [[= -> -> ->] (t & Hsu)].
    split_and!; [done|done|]. exists t. assert (Hin : elf_rw_vaddr ∈ image_pages elf_info) by (left).
    split; (etransitivity; [by apply (su_image _ _ _ _ _ _ _ _ _ _ _ _ _ _ _ Hsu)|by vm_compute]).
Defined.

(** A machine on which the file "a" holds text. *)
Definition text_machine : machine (tfs_volume disk) :=
  Machine demo_vfs demo_pmm demo_vm1 (λ _, 0xAA) [elf_thread] 0 true.

Lemma text_ready :
  ready demo_base text_machine elf_locals demo_path demo_p demo_A (file_data empty_tfs a_disk a_file) 0 (λ _, None) ∅ 3 [] 0 0
    elf_kernel_root.
Proof.
  destruct elf_ready as [R1 R2 R3 R4 R5 R6 R7 R8 R9 R10]. split; try assumption.
  - exact demo_vrep.
  - exists [100], name_a, demo_m, demo_h. split_and!; [reflexivity|by vm_compute|reflexivity|exact demo_file].
  - split; [by apply (bool_decide_unpack _)|]. by vm_compute.
Qed.

Lemma setup_new_process_rejects_witness :
  returns (setup_new_process demo_base elf_locals 0 demo_path 0 0 text_machine) (λ '((r, entry, stack), m'),
    r = -1 ∧ file_open demo_A (m_vfs m')).
Proof.
  eapply returns_mono; [apply (setup_new_process_rejects demo_base text_machine elf_locals demo_path demo_p demo_A _ 0
    (λ _, None) ∅ 3 [] 0 0 elf_kernel_root 0 0 text_ready)|].
  - left. by vm_compute.
  - intros [[[r entry] stack] m'] ([= -> -> ->] & Ho & _). by split.
Defined.

Lemma process_start_enters_witness :
  returns (process_start demo_base elf_locals demo_path 0 0 elf_machine) (λ r, ∃ m', r = inr m' ∧
    load_bytes demo_base user_rsp 176 m' = Done (words_bytes (user_frame elf_ro_vaddr))).
Proof.
  eapply returns_mono; [apply (process_start_enters demo_base elf_machine elf_locals demo_path demo_p elf_A elf_data 0
    (λ _, None) ∅ 3 [] 0 elf_kernel_root 0 0 demo_base_ok elf_ready elf_no_error elf_file_ok)|].
  - rewrite elf_file_info. exact elf_loadable.
  - rewrite elf_file_info. exact elf_enough.
  - rewrite elf_file_info. intros r (m' & t & -> & _ & Hen). exists m'. split; [done|].
    exact (en_frame _ _ _ _ _ _ _ Hen).
Defined.
