(* ===== verification/UserHeap.v ===== *)
(** * The heap of user programs (userland/lib.c)

    [heap_init], [malloc], [free], [calloc] and [realloc] for the MIPS32 machine,
    where [size_t] and pointers are 32 bits wide.  The bookkeeping lives inside
    the array [heap] that is handed out: a free block starts with its size and
    the address of the next free block, a block in use with its size.  The model
    keeps it there, as the bytes of the array, with [base] its address; an access
    outside the array is a [Fault]. *)

From S2P Require Import Prelude Libc.

Definition HEAP_SIZE : Z := 256.
Definition sizeof_size_t : Z := 4.
(** [sizeof(free_block_t)]. *)
Definition MIN_ALLOC_SIZE : Z := 8.

Record heap_t := Heap { free_list : Z; heap : list Z }.

(** At most one iteration per byte of the heap. *)
Definition heap_fuel : nat := S (Z.to_nat HEAP_SIZE).

(** [malloc]'s size in whole words, at least [MIN_ALLOC_SIZE]. *)
Definition round_size (size : Z) : Z :=
  let size := MAX MIN_ALLOC_SIZE size in
  if negb (size mod 4 =? 0) then u32 (Z.land size (Z.lnot 3) + 4) else size.

Section heap_functions.
Variables (en : endian) (base : Z).

(** The fields of the block at an address: [block->size] and [block->next]. *)
Definition get_size (a : Z) (h : heap_t) : outcome Z := load32 en (heap h) (a - base).
Definition get_next (a : Z) (h : heap_t) : outcome Z := load32 en (heap h) (a + 4 - base).
Definition set_size (a v : Z) (h : heap_t) : outcome heap_t :=
  let* m := store32 en (heap h) (a - base) v in Done (Heap (free_list h) m).
Definition set_next (a v : Z) (h : heap_t) : outcome heap_t :=
  let* m := store32 en (heap h) (a + 4 - base) v in Done (Heap (free_list h) m).

(** [*prev_p = v], where [prev] is the block whose [next] field [prev_p] points
    to, or NULL when it points to [free_list]. *)
Definition set_link (prev v : Z) (h : heap_t) : outcome heap_t :=
  if prev =? 0 then Done (Heap v (heap h)) else set_next prev v h.

Definition heap_init (h : heap_t) : outcome heap_t :=
  let h := Heap base (heap h) in
  let* h := set_size (free_list h) HEAP_SIZE h in
  set_next (free_list h) 0 h.

(** A block that is too big is split; its end is the new block. *)
Definition malloc_split (size block bsize : Z) (h : heap_t) : outcome (Z * heap_t) :=
  let bsize := u32 (bsize - (size + sizeof_size_t)) in
  let* h := set_size block bsize h in
  let new_block := u32 (block + bsize) in
  let* h := set_size new_block (u32 (size + sizeof_size_t)) h in
  Done (u32 (new_block + sizeof_size_t), h).

(** A block that fits is unlinked. *)
Definition malloc_take (prev block : Z) (h : heap_t) : outcome (Z * heap_t) :=
  let* next := get_next block h in
  let* h := set_link prev next h in
  Done (u32 (block + sizeof_size_t), h).

Definition malloc (size : Z) (h : heap_t) : outcome (Z * heap_t) :=
  if size =? 0 then Done (0, h)
  else
  let size := round_size size in
  while_loop heap_fuel (λ '(block, prev),
    if block =? 0 then Done (inr (0, h))
    else
    let* bsize := get_size block h in
    if s32 (MIN_ALLOC_SIZE + sizeof_size_t) <=? s32 (bsize - size - sizeof_size_t) then
      let* r := malloc_split size block bsize h in Done (inr r)
    else if u32 (size + sizeof_size_t) <=? bsize then
      let* r := malloc_take prev block h in Done (inr r)
    else
      let* next := get_next block h in Done (inl (next, block))) (free_list h, 0).

(** The search of [free]: the first block after [block] and the one before it. *)
Definition free_find (block : Z) (h : heap_t) : outcome (Z * Z) :=
  while_loop heap_fuel (λ '(cur, prev),
    if (block <? cur) || (cur =? 0) then Done (inr (cur, prev))
    else let* next := get_next cur h in Done (inl (next, cur))) (free_list h, 0).

(** "Merge with previous": the block and the heap [free] goes on with. *)
Definition merge_prev (prev block cur : Z) (h : heap_t) : outcome (Z * heap_t) :=
  if negb (prev =? 0) then
    let* psize := get_size prev h in
    if u32 (block - prev) =? psize then
      let* bsize := get_size block h in
      let* h := set_size prev (u32 (psize + bsize)) h in
      let* h := set_next prev cur h in
      Done (prev, h)
    else Done (block, h)
  else Done (block, h).

(** "Merge with next". *)
Definition merge_next (block cur : Z) (h : heap_t) : outcome heap_t :=
  if negb (cur =? 0) then
    let* bsize := get_size block h in
    if u32 (cur - block) =? bsize then
      let* csize := get_size cur h in
      let* h := set_size block (u32 (bsize + csize)) h in
      let* next := get_next cur h in
      set_next block next h
    else Done h
  else Done h.

Definition free (ptr : Z) (h : heap_t) : outcome heap_t :=
  if negb (ptr =? 0) then
    let block := u32 (ptr - sizeof_size_t) in
    let* '(cur, prev) := free_find block h in
    let* h := set_link prev block h in
    let* h := set_next block cur h in
    let* '(block, h) := merge_prev prev block cur h in
    merge_next block cur h
  else Done h.

(** Bytes through user pointers into the heap. *)
Definition get_byte (a : Z) (h : heap_t) : outcome Z := aread (heap h) (a - base).
Definition set_byte (a v : Z) (h : heap_t) : outcome heap_t :=
  let* m := awrite (heap h) (a - base) v in Done (Heap (free_list h) m).

Definition calloc (nmemb size : Z) (h : heap_t) : outcome (Z * heap_t) :=
  let* '(ptr, h) := malloc (u32 (nmemb * size)) h in
  if negb (ptr =? 0) then
    let* h := for_each 0 (u32 (nmemb * size)) (λ i h, set_byte (ptr + i) 0 h) h in
    Done (ptr, h)
  else Done (ptr, h).

Definition realloc (ptr size : Z) (h : heap_t) : outcome (Z * heap_t) :=
  if ptr =? 0 then malloc size h
  else if size =? 0 then
    let* h := free ptr h in Done (0, h)
  else
    let* '(new_ptr, h) := malloc size h in
    if negb (new_ptr =? 0) then
      let* h := for_each 0 size (λ i h,
        let* b := get_byte (ptr + i) h in set_byte (new_ptr + i) b h) h in
      let* h := free ptr h in
      Done (new_ptr, h)
    else Done (new_ptr, h).
End heap_functions.

(** ** The representation of the user heap

    A heap is a sequence of blocks ([blk]) that tile the array, free or in use.
    [heap_rep] relates it to the bytes: every block's first word is its size,
    and the free blocks form the chain that starts at [free_list] in the order
    of their addresses. *)

Record blk := Blk { used : bool; addr : Z; size : Z }.

#[export] Instance blk_eq_dec : EqDecision blk.
Proof. solve_decision. Defined.

(** The blocks cover the addresses from [lo] to [hi] without a gap. *)
Fixpoint tiled (lo hi : Z) (bs : list blk) : Prop :=
  match bs with
  | [] => lo = hi
  | b :: bs => addr b = lo ∧ 12 ≤ size b ∧ size b mod 4 = 0 ∧ tiled (lo + size b) hi bs
  end.

Definition frees (bs : list blk) : list blk := List.filter (λ b, negb (used b)) bs.

Definition hd_addr (l : list blk) : Z := match l with [] => 0 | b :: _ => addr b end.
Fixpoint last_addr (l : list blk) : Z :=
  match l with [] => 0 | [b] => addr b | _ :: l => last_addr l end.

Lemma tiled_app lo hi l1 l2 :
  tiled lo hi (l1 ++ l2) ↔ ∃ m, tiled lo m l1 ∧ tiled m hi l2.
Proof.
  revert lo. induction l1 as [|b l1 IH]; intros lo; simpl; [naive_solver|].
  rewrite IH. naive_solver.
Qed.

Lemma tiled_le lo hi bs : tiled lo hi bs → lo ≤ hi.
Proof.
  revert lo. induction bs as [|b bs IH]; intros lo; simpl; [lia|].
  intros (_ & ? & _ & H). apply IH in H. lia.
Qed.

Lemma tiled_length lo hi bs : tiled lo hi bs → 12 * Z.of_nat (length bs) ≤ hi - lo.
Proof.
  revert lo. induction bs as [|b bs IH]; intros lo; simpl; [lia|].
  intros (_ & ? & _ & H). apply IH in H. lia.
Qed.

Lemma tiled_elem lo hi bs b :
  tiled lo hi bs → b ∈ bs → lo ≤ addr b ∧ addr b + size b ≤ hi ∧ 12 ≤ size b.
Proof.
  revert lo. induction bs as [|c bs IH]; intros lo; [by rewrite elem_of_nil|].
  intros (E & Hs & _ & H) [->|Hin]%elem_of_cons.
  - apply tiled_le in H. lia.
  - destruct (IH _ H Hin). lia.
Qed.

Lemma tiled_mod lo hi bs b : tiled lo hi bs → b ∈ bs → (addr b - lo) mod 4 = 0.
Proof.
  revert lo. induction bs as [|c bs IH]; intros lo; [by rewrite elem_of_nil|].
  intros (E & Hs & Hm & H) [->|Hin]%elem_of_cons.
  - replace (addr c - lo) with 0 by lia. done.
  - specialize (IH _ H Hin). replace (addr b - lo) with (addr b - (lo + size c) + size c) by lia.
    by rewrite Z.add_mod, IH, Hm by done.
Qed.

Lemma frees_app l1 l2 : frees (l1 ++ l2) = frees l1 ++ frees l2.
Proof. apply List.filter_app. Qed.

Lemma frees_used b bs : used b = true → frees (b :: bs) = frees bs.
Proof. intros E. unfold frees. simpl. by rewrite E. Qed.

Lemma frees_free b bs : used b = false → frees (b :: bs) = b :: frees bs.
Proof. intros E. unfold frees. simpl. by rewrite E. Qed.

Lemma elem_of_frees b bs : b ∈ frees bs ↔ b ∈ bs ∧ used b = false.
Proof.
  unfold frees. rewrite !list_elem_of_In, List.filter_In.
  destruct (used b); naive_solver.
Qed.

Lemma length_frees bs : (length (frees bs) ≤ length bs)%nat.
Proof. unfold frees. apply List.filter_length_le. Qed.

Lemma last_addr_snoc l b : last_addr (l ++ [b]) = addr b.
Proof. induction l as [|c l IH]; [done|]. simpl. by destruct l. Qed.

(** The last free block of a sequence, and the blocks in use after it. *)
Lemma last_free bs :
  (frees bs = [] ∧ last_addr (frees bs) = 0) ∨
  ∃ l1 b l2, bs = l1 ++ b :: l2 ∧ used b = false ∧ frees l2 = [] ∧
    frees bs = frees l1 ++ [b] ∧ last_addr (frees bs) = addr b.
Proof.
  induction bs as [|c bs IH] using rev_ind; [by left|].
  rewrite frees_app. destruct (used c) eqn:Ec.
  - rewrite frees_used, app_nil_r by done. destruct IH as [?|(l1 & b & l2 & -> & Hu & E2 & E & El)]; [by left|right].
    exists l1, b, (l2 ++ [c]). rewrite <- app_assoc. split_and!; try done.
    by rewrite frees_app, E2, frees_used.
  - rewrite frees_free by done. right. exists bs, c, []. split_and!; try done. apply last_addr_snoc.
Qed.

(** ** The bytes *)
Section rep.
Variables (en : endian) (base : Z).
Hypothesis Hbase : 0 < base ∧ base + HEAP_SIZE ≤ 2 ^ 32.
Implicit Types (h : heap_t) (bs : list blk).

(** Only bytes with an address from [lo] to [hi] differ. *)
Definition same_outside (lo hi : Z) h h' : Prop :=
  length (heap h') = length (heap h) ∧
  ∀ i : nat, base + Z.of_nat i < lo ∨ hi ≤ base + Z.of_nat i → heap h' !! i = heap h !! i.

Definition sized h bs : Prop := Forall (λ b, get_size en base (addr b) h = Done (size b)) bs.

Fixpoint seg h (p : Z) (l : list blk) (q : Z) : Prop :=
  match l with
  | [] => p = q
  | b :: l => p = addr b ∧ ∃ n, get_next en base (addr b) h = Done n ∧ seg h n l q
  end.

Record heap_rep h bs : Prop := {
  hr_length : Z.of_nat (length (heap h)) = HEAP_SIZE;
  hr_tiled : tiled base (base + HEAP_SIZE) bs;
  hr_sized : sized h bs;
  hr_seg : seg h (free_list h) (frees bs) 0
}.

(** The payloads of the blocks in use are unchanged. *)
Definition keeps bs h h' : Prop :=
  length (heap h') = length (heap h) ∧
  ∀ b (i : nat), b ∈ bs → used b = true → addr b + 4 ≤ base + Z.of_nat i < addr b + size b →
    heap h' !! i = heap h !! i.

Lemma same_outside_trans lo hi h1 h2 h3 :
  same_outside lo hi h1 h2 → same_outside lo hi h2 h3 → same_outside lo hi h1 h3.
Proof. intros [L1 H1] [L2 H2]. split; [congruence|]. intros i Hi. rewrite H2, H1; done. Qed.

Lemma same_outside_mono lo hi lo' hi' h h' :
  same_outside lo hi h h' → lo' ≤ lo → hi ≤ hi' → same_outside lo' hi' h h'.
Proof. intros [L H] ? ?. split; [done|]. intros i Hi. apply H. lia. Qed.

Lemma keeps_refl bs h : keeps bs h h.
Proof. done. Qed.

Lemma keeps_trans bs h1 h2 h3 : keeps bs h1 h2 → keeps bs h2 h3 → keeps bs h1 h3.
Proof. intros [L1 H1] [L2 H2]. split; [congruence|]. intros. erewrite H2, H1 by done. done. Qed.

Lemma keeps_sub bs bs' h h' : bs' ⊆ bs → keeps bs h h' → keeps bs' h h'.
Proof. intros Hs [L H]. split; [done|]. intros b i Hb. by apply H, Hs. Qed.

(** A change inside a free block keeps all payloads, inside a block in use the
    other ones. *)
Lemma keeps_others l1 b l2 h h' lo hi :
  tiled lo hi (l1 ++ b :: l2) → same_outside (addr b) (addr b + size b) h h' →
  keeps (l1 ++ l2) h h'.
Proof.
  intros (m & T1 & Eb & Hs & _ & T2)%tiled_app [L H]. split; [done|]. intros c i Hc _ Hi.
  apply H. apply elem_of_app in Hc as [Hc|Hc].
  - destruct (tiled_elem _ _ _ _ T1 Hc). lia.
  - destruct (tiled_elem _ _ _ _ T2 Hc). lia.
Qed.

Lemma keeps_free l1 b l2 h h' lo hi :
  tiled lo hi (l1 ++ b :: l2) → used b = false →
  same_outside (addr b) (addr b + size b) h h' → keeps (l1 ++ b :: l2) h h'.
Proof.
  intros T Hu Ho. destruct (keeps_others _ _ _ _ _ _ _ T Ho) as [L H]. split; [done|].
  intros c i Hc Huc. apply H; [|done]. apply elem_of_app in Hc as [?|[->|?]%elem_of_cons];
    [by apply elem_of_app; left|congruence|by apply elem_of_app; right].
Qed.

(** ** Loads and stores *)
Lemma load_outside lo hi h h' a :
  same_outside lo hi h h' → base ≤ a → a + 4 ≤ lo ∨ hi ≤ a →
  load32 en (heap h') (a - base) = load32 en (heap h) (a - base).
Proof.
  intros [L H] Ha Hd. unfold load32. rewrite L.
  destruct ((0 <=? a - base) && (a - base + 4 <=? Z.of_nat (length (heap h)))); [|done].
  do 2 f_equal. apply slice_ext. intros j Hj. apply H. lia.
Qed.

Lemma get_size_outside lo hi h h' a :
  same_outside lo hi h h' → base ≤ a → a + 4 ≤ lo ∨ hi ≤ a →
  get_size en base a h' = get_size en base a h.
Proof. intros H. by apply (load_outside lo hi). Qed.

Lemma get_next_outside lo hi h h' a :
  same_outside lo hi h h' → base ≤ a + 4 → a + 8 ≤ lo ∨ hi ≤ a + 4 →
  get_next en base a h' = get_next en base a h.
Proof. intros H ? ?. apply (load_outside lo hi); [done|done|lia]. Qed.

Lemma store_spec h a v :
  Z.of_nat (length (heap h)) = HEAP_SIZE → base ≤ a → a + 4 ≤ base + HEAP_SIZE → is_u32 v →
  ∃ m, store32 en (heap h) (a - base) v = Done m ∧
    same_outside a (a + 4) h (Heap (free_list h) m) ∧ load32 en m (a - base) = Done v.
Proof.
  intros HL ? ? Hv. destruct (store32 en (heap h) (a - base) v) as [m| | | |] eqn:E;
    try (rewrite store32_in_range in E by lia; done).
  exists m. split_and!; [done| |by eapply load_store32_same].
  split; [by eapply store32_length|]. intros i Hi. simpl.
  eapply store32_lookup_other; [done|lia].
Qed.

Lemma set_size_spec h a v :
  Z.of_nat (length (heap h)) = HEAP_SIZE → base ≤ a → a + 4 ≤ base + HEAP_SIZE → is_u32 v →
  ∃ h', set_size en base a v h = Done h' ∧ free_list h' = free_list h ∧
    same_outside a (a + 4) h h' ∧ get_size en base a h' = Done v.
Proof.
  intros. destruct (store_spec h a v) as (m & E & ? & ?); [done..|].
  exists (Heap (free_list h) m). unfold set_size. rewrite E. done.
Qed.

Lemma set_next_spec h a v :
  Z.of_nat (length (heap h)) = HEAP_SIZE → base ≤ a → a + 8 ≤ base + HEAP_SIZE → is_u32 v →
  ∃ h', set_next en base a v h = Done h' ∧ free_list h' = free_list h ∧
    same_outside (a + 4) (a + 8) h h' ∧ get_next en base a h' = Done v.
Proof.
  intros. destruct (store_spec h (a + 4) v) as (m & E & Ho & ?); [done|lia|lia|done|].
  exists (Heap (free_list h) m). unfold set_next. rewrite E. split_and!; try done.
  by replace (a + 8) with (a + 4 + 4) by lia.
Qed.

(** ** Frames *)
Lemma sized_outside lo hi h h' l r bs :
  same_outside lo hi h h' → tiled l r bs → base ≤ l → r ≤ lo ∨ hi ≤ l →
  sized h bs → sized h' bs.
Proof.
  intros Ho T Hl Hd Hs. apply Forall_forall. intros b Hb.
  pose proof (tiled_elem _ _ _ _ T Hb). unfold sized in Hs. rewrite Forall_forall in Hs.
  rewrite (get_size_outside lo hi h) by (done || lia). by apply Hs.
Qed.

Lemma seg_outside_list lo hi h h' l p q :
  same_outside lo hi h h' →
  (∀ b, b ∈ l → base ≤ addr b ∧ (addr b + 8 ≤ lo ∨ hi ≤ addr b + 4)) →
  seg h p l q → seg h' p l q.
Proof.
  intros Ho. revert p. induction l as [|b l IH]; intros p Hl; [done|].
  intros (-> & n & Hn & Hseg). destruct (Hl b); [by left|]. split; [done|]. exists n. split.
  - rewrite (get_next_outside lo hi h) by (done || lia). done.
  - apply IH; [|done]. intros c Hc. apply Hl. by right.
Qed.

Lemma seg_outside lo hi h h' l r bs p q :
  same_outside lo hi h h' → tiled l r bs → base ≤ l → r ≤ lo ∨ hi ≤ l →
  seg h p (frees bs) q → seg h' p (frees bs) q.
Proof.
  intros Ho T Hl Hd. apply (seg_outside_list lo hi); [done|].
  intros b [Hb _]%elem_of_frees. pose proof (tiled_elem _ _ _ _ T Hb). lia.
Qed.

Lemma hseg_app h p l1 l2 q :
  seg h p (l1 ++ l2) q ↔ ∃ m, seg h p l1 m ∧ seg h m l2 q.
Proof.
  clear Hbase. revert p. induction l1 as [|b l1 IH]; intros p; simpl; [naive_solver|].
  setoid_rewrite IH. naive_solver.
Qed.

Lemma seg_hd h p l : seg h p l 0 → p = hd_addr l.
Proof. clear Hbase. destruct l; simpl; naive_solver. Qed.
End rep.
