(* ===== verification/UserHeapOps.v ===== *)
(** * The operations of the user heap on sequences of blocks

    [malloc] and [free] against the representation of UserHeap.v: [amalloc] is
    first fit with splitting at the end of the block, [join] the insertion of a
    freed block with merging. *)

From S2P Require Import Prelude Libc UserHeap.

(** ** Specification on blocks *)

(** What a free block that fits becomes, with the address of the new block. *)
Definition carve (n : Z) (b : blk) : Z * list blk :=
  if n + 16 <=? size b
  then (addr b + size b - n - 4,
        [Blk false (addr b) (size b - n - 4); Blk true (addr b + size b - n - 4) (n + 4)])
  else (addr b, [Blk true (addr b) (size b)]).

(** The first free block with room for [n] bytes and its size field is carved. *)
Fixpoint amalloc (n : Z) (bs : list blk) : option (Z * list blk) :=
  match bs with
  | [] => None
  | b :: bs =>
      if negb (used b) && (n + 4 <=? size b)
      then Some ((carve n b).1, (carve n b).2 ++ bs)
      else prod_map id (cons b) <$> amalloc n bs
  end.

Definition join_next (b : blk) (post : list blk) : list blk :=
  match post with
  | c :: post' =>
      if used c then b :: post else Blk false (addr b) (size b + size c) :: post'
  | [] => [b]
  end.

(** The free block [b] put between [pre] and [post] and merged with its
    neighbours. *)
Fixpoint join (pre : list blk) (b : blk) (post : list blk) : list blk :=
  match pre with
  | [] => join_next b post
  | [p] => if used p then p :: join_next b post
           else join_next (Blk false (addr p) (size p + size b)) post
  | p :: pre => p :: join pre b post
  end.

(** No two neighbours are free. *)
Fixpoint coalesced (bs : list blk) : Prop :=
  match bs with
  | b :: ((c :: _) as bs') => (used b = true ∨ used c = true) ∧ coalesced bs'
  | _ => True
  end.

Lemma join_snoc l p b post :
  join (l ++ [p]) b post =
  l ++ (if used p then p :: join_next b post
        else join_next (Blk false (addr p) (size p + size b)) post).
Proof.
  induction l as [|q l IH]; [done|]. simpl. rewrite IH. by destruct l.
Qed.

Lemma coalesced_cons b c l :
  coalesced (b :: c :: l) ↔ (used b = true ∨ used c = true) ∧ coalesced (c :: l).
Proof. done. Qed.

Lemma coalesced_app l1 l2 :
  coalesced (l1 ++ l2) ↔ coalesced l1 ∧ coalesced l2 ∧
    (∀ b c, last l1 = Some b → head l2 = Some c → used b = true ∨ used c = true).
Proof.
  induction l1 as [|b l1 IH]; [naive_solver|].
  destruct l1 as [|c l1].
  - destruct l2; simpl; naive_solver.
  - change ((b :: c :: l1) ++ l2) with (b :: c :: (l1 ++ l2)).
    rewrite !coalesced_cons. change (c :: l1 ++ l2) with ((c :: l1) ++ l2).
    rewrite IH, (last_cons_cons b c). tauto.
Qed.

Lemma coalesced_used b l : used b = true → coalesced l → coalesced (b :: l).
Proof. intros. destruct l; simpl; auto. Qed.

Lemma coalesced_tail b l : coalesced (b :: l) → coalesced l.
Proof. destruct l; simpl; naive_solver. Qed.

Lemma join_next_coalesced b post :
  coalesced post → coalesced (join_next b post) ∧
  ∃ b', head (join_next b post) = Some b' ∧ used b' = match post with
    | c :: _ => if used c then used b else false | [] => used b end.
Proof.
  intros Hc. destruct post as [|c post]; [by simpl; eauto|]. unfold join_next.
  destruct (used c) eqn:Ec; (split; [|by simpl; eauto]); [by rewrite coalesced_cons; auto|].
  destruct post as [|d post]; [done|]. rewrite coalesced_cons in Hc |- *. simpl.
  destruct Hc as [[?|?] ?]; [congruence|by auto].
Qed.

Lemma join_coalesced pre a s post :
  coalesced (pre ++ Blk true a s :: post) → coalesced (join pre (Blk false a s) post).
Proof.
  intros (Hpre & Hpost%coalesced_tail & _)%coalesced_app.
  destruct pre as [|p pre _] using rev_ind; [by apply join_next_coalesced|].
  rewrite join_snoc. apply coalesced_app in Hpre as (Hpre & _ & Hlast).
  apply coalesced_app. destruct (used p) eqn:Ep.
  - split_and!; [done| |naive_solver].
    apply coalesced_used; [done|]. by apply join_next_coalesced.
  - split_and!; [done|by apply join_next_coalesced|].
    intros b c Hb _. left. destruct (Hlast b p Hb eq_refl); [done|congruence].
Qed.

Lemma carve_coalesced n b l1 l2 :
  used b = false → coalesced (l1 ++ b :: l2) → coalesced (l1 ++ (carve n b).2 ++ l2).
Proof.
  intros Hu (H1 & H2 & H3)%coalesced_app. apply coalesced_app. unfold carve.
  assert (Ht : ∀ x y, coalesced (Blk true x y :: l2))
    by (intros; by apply coalesced_used, (coalesced_tail b)).
  destruct (n + 16 <=? size b); cbn [snd app]; (split; [done|split]).
  - rewrite coalesced_cons. by auto.
  - intros c d Hc [= <-]. destruct (H3 c b Hc eq_refl); [by left|congruence].
  - apply Ht.
  - intros c d Hc [= <-]. by right.
Qed.

Lemma carve_tiled n b hi l2 :
  8 ≤ n → n mod 4 = 0 → n + 4 ≤ size b →
  tiled (addr b) hi (b :: l2) → tiled (addr b) hi ((carve n b).2 ++ l2).
Proof.
  intros Hn Hm Hs (_ & ? & Hbm & T). unfold carve.
  destruct (Z.leb_spec (n + 16) (size b)); simpl.
  - split_and!; try done; try lia.
    + rewrite <- Z.sub_add_distr, Zminus_mod, Z.add_mod, Hm, Hbm by lia. done.
    + by rewrite Z.add_mod, Hm by lia.
    + by replace (addr b + (size b - n - 4) + (n + 4)) with (addr b + size b) by lia.
  - done.
Qed.

Lemma round_size_spec n :
  0 < n ≤ 2 ^ 31 - 8 →
  8 ≤ round_size n ≤ 2 ^ 31 - 4 ∧ round_size n mod 4 = 0 ∧ n ≤ round_size n ∧
  round_size n < Z.max 8 n + 4.
Proof.
  intros Hn. unfold round_size, MIN_ALLOC_SIZE. rewrite MAX_spec. set (m := Z.max 8 n).
  pose proof (Z.mod_pos_bound m 4). pose proof (Z.div_mod m 4).
  destruct (Z.eqb_spec (m mod 4) 0); simpl; [lia|].
  rewrite <- Z.ldiff_land. change 3 with (Z.ones 2).
  rewrite Z.ldiff_ones_r, Z.shiftr_div_pow2, Z.shiftl_mul_pow2 by lia. change (2 ^ 2) with 4.
  rewrite u32_id by klia. split_and!; try lia.
  replace (m / 4 * 4 + 4) with ((m / 4 + 1) * 4) by lia. by apply Z.mod_mul.
Qed.

(** ** Proofs *)
Section ops.
Variables (en : endian) (base : Z).
Hypothesis Hbase : 0 < base ∧ base + HEAP_SIZE ≤ 2 ^ 32.
Implicit Types (h : heap_t) (bs pre post : list blk).
Notation heap_rep := (heap_rep en base).
Notation sized := (sized en base).
Notation seg := (seg en base).
Notation same_outside := (same_outside base).
Notation keeps := (keeps base).

Lemma seg_addr h p l l' q : addr <$> l = addr <$> l' → seg h p l q → seg h p l' q.
Proof.
  revert p l'. induction l as [|b l IH]; intros p [|b' l'] E; simplify_eq/=; try done.
  intros (-> & n & Hn & Hs). split; [congruence|]. exists n. split; [congruence|]. eauto.
Qed.

Lemma keeps_app m m' hi pre post h h' :
  keeps pre h h' → same_outside base m h h' → tiled m' hi post → m ≤ m' →
  keeps (pre ++ post) h h'.
Proof.
  intros [L H] [_ Ho] T Hm. split; [done|]. intros b i [Hb|Hb]%elem_of_app Hu Hi; [by eapply H|].
  pose proof (tiled_elem _ _ _ _ T Hb). apply Ho. lia.
Qed.

Lemma tiled_apart lo hi l1 b l2 c :
  tiled lo hi (l1 ++ b :: l2) → c ∈ l1 ++ l2 →
  addr c + size c ≤ addr b ∨ addr b + size b ≤ addr c.
Proof.
  intros (m & T1 & Eb & ? & _ & T2)%tiled_app [Hc|Hc]%elem_of_app.
  - pose proof (tiled_elem _ _ _ _ T1 Hc). lia.
  - pose proof (tiled_elem _ _ _ _ T2 Hc). lia.
Qed.

(** Storing the link to the block after [pre]. *)
Lemma set_link_spec h pre m q v :
  Z.of_nat (length (heap h)) = HEAP_SIZE → tiled base m pre → m ≤ base + HEAP_SIZE →
  sized h pre → seg h (free_list h) (frees pre) q → is_u32 v →
  ∃ h', set_link en base (last_addr (frees pre)) v h = Done h' ∧
    same_outside base m h h' ∧ sized h' pre ∧ seg h' (free_list h') (frees pre) v ∧
    keeps pre h h'.
Proof.
  intros HL T Hm Hs Hseg Hv. unfold set_link.
  destruct (last_free pre) as [[E ->]|(l1 & b & l2 & -> & Hu & E2 & E & ->)].
  { exists (Heap v (heap h)). split_and!; try done. by rewrite E. }
  pose proof T as (x & T1 & Eb & Hsb & Hbm & T2)%tiled_app.
  pose proof (tiled_le _ _ _ T1). pose proof (tiled_le _ _ _ T2).
  destruct (Z.eqb_spec (addr b) 0); [lia|].
  destruct (set_next_spec en base h (addr b) v HL) as (h' & -> & Ef & Ho & Hn); [lia..|done|].
  exists h'. split_and!; [done| | | |].
  - apply (same_outside_mono base (addr b + 4) (addr b + 8)); [done|lia|lia].
  - apply Forall_forall. intros c Hc.
    rewrite (get_size_outside en base (addr b + 4) (addr b + 8) h); [|done|..].
    + unfold UserHeap.sized in Hs. rewrite Forall_forall in Hs. by apply Hs.
    + by destruct (tiled_elem _ _ _ _ T Hc).
    + pose proof (tiled_elem _ _ _ _ T Hc).
      apply elem_of_app in Hc as [Hc|[->|Hc]%elem_of_cons]; [|lia|];
      destruct (tiled_apart _ _ _ _ _ c T); try lia; by apply elem_of_app; auto.
  - rewrite E in Hseg |- *. apply hseg_app in Hseg as (y & Hs1 & -> & z & _ & _).
    apply hseg_app. exists (addr b). split; [|by simpl; eauto]. rewrite Ef.
    apply (seg_outside en base (addr b + 4) (addr b + 8) h _ base x); [done|done|lia|lia|done].
  - eapply (keeps_free base l1 b l2); [done|done|].
    apply (same_outside_mono base (addr b + 4) (addr b + 8)); [done|lia|lia].
Qed.

Lemma malloc_take_spec h pre b post :
  heap_rep h (pre ++ b :: post) → used b = false →
  ∃ h', malloc_take en base (last_addr (frees pre)) (addr b) h = Done (addr b + 4, h') ∧
    heap_rep h' (pre ++ Blk true (addr b) (size b) :: post) ∧ keeps (pre ++ b :: post) h h'.
Proof.
  intros [HL HT HS HG] Hu.
  pose proof HT as (m & T1 & Eb & Hsb & Hbm & T2)%tiled_app.
  pose proof (tiled_le _ _ _ T1). pose proof (tiled_le _ _ _ T2).
  apply Forall_app in HS as [HS1 HS2].
  rewrite frees_app, frees_free in HG by done.
  apply hseg_app in HG as (q & HG1 & -> & nx & Hnx & HG2).
  assert (Hu32 : is_u32 nx).
  { apply seg_hd in HG2 as ->. destruct (frees post) as [|c l] eqn:Ef; [kunfold; simpl; lia|].
    assert (Hc : c ∈ frees post) by (rewrite Ef; by left). apply elem_of_frees in Hc as [Hc _].
    pose proof (tiled_elem _ _ _ _ T2 Hc). kunfold. simpl. lia. }
  destruct (set_link_spec h pre m (addr b) nx HL T1) as (h' & E & Ho & HS' & HG' & HK); [lia|done..|].
  exists h'. unfold malloc_take. rewrite Hnx. cbn [outcome_bind]. rewrite E. cbn [outcome_bind].
  unfold sizeof_size_t. rewrite u32_id by klia. split_and!; [done| |].
  - constructor.
    + rewrite (proj1 Ho). done.
    + apply tiled_app. exists m. by simpl.
    + apply Forall_app. split; [done|].
      assert (Hbp : sized h' (b :: post)).
      { apply (sized_outside en base base m h h' m (base + HEAP_SIZE)); try done; lia. }
      apply Forall_cons in Hbp as [? ?]. by constructor.
    + rewrite frees_app. apply hseg_app. exists nx. split; [done|].
      apply (seg_outside en base base m h h' (m + size b) (base + HEAP_SIZE) post);
        try done; lia.
  - apply (keeps_app m m (base + HEAP_SIZE)); [done|done|by simpl|lia].
Qed.

Lemma rep_middle h pre b post :
  heap_rep h (pre ++ b :: post) →
  tiled base (addr b) pre ∧ tiled (addr b + size b) (base + HEAP_SIZE) post ∧
  base ≤ addr b ∧ addr b + size b ≤ base + HEAP_SIZE ∧ 12 ≤ size b ∧ size b mod 4 = 0 ∧
  sized h pre ∧ get_size en base (addr b) h = Done (size b) ∧ sized h post.
Proof.
  intros [HL HT HS HG]. pose proof HT as (m & T1 & <- & Hsb & Hbm & T2)%tiled_app.
  apply Forall_app in HS as [HS1 [HS2 HS3]%Forall_cons].
  split_and!; try done; [by eapply tiled_le|by eapply tiled_le].
Qed.

(** The next free block after [b]. *)
Lemma rep_next h pre b post :
  heap_rep h (pre ++ b :: post) → used b = false →
  seg h (free_list h) (frees pre) (addr b) ∧
  get_next en base (addr b) h = Done (hd_addr (frees post)) ∧
  seg h (hd_addr (frees post)) (frees post) 0.
Proof.
  intros [HL HT HS HG] Hu. rewrite frees_app, frees_free in HG by done. apply hseg_app in HG as (q & HG1 & -> & nx & Hnx & HG2). simpl in *.
  pose proof (seg_hd en base _ _ _ HG2) as ->. done.
Qed.

Lemma hd_addr_range lo l :
  tiled lo (base + HEAP_SIZE) l → base ≤ lo →
  is_u32 (hd_addr (frees l)) ∧ (hd_addr (frees l) = 0 ∧ frees l = [] ∨ lo ≤ hd_addr (frees l)).
Proof.
  intros T Hlo. destruct (frees l) as [|c l'] eqn:Ef; [kunfold; simpl; split; [lia|by left]|].
  assert (Hc : c ∈ frees l) by (rewrite Ef; by left). apply elem_of_frees in Hc as [Hc _].
  pose proof (tiled_elem _ _ _ _ T Hc). kunfold. simpl. split; [lia|right; lia].
Qed.

Lemma malloc_split_spec h pre b post n :
  heap_rep h (pre ++ b :: post) → used b = false → 8 ≤ n → n mod 4 = 0 → n + 16 ≤ size b →
  ∃ h', malloc_split en base n (addr b) (size b) h = Done (addr b + size b - n, h') ∧
    heap_rep h' (pre ++ (carve n b).2 ++ post) ∧ keeps (pre ++ b :: post) h h'.
Proof.
  intros Hrep Hu Hn Hm Hs.
  destruct (rep_middle _ _ _ _ Hrep) as (T1 & T2 & ? & ? & _ & Hbm & HS1 & HSb & HS2).
  destruct (rep_next _ _ _ _ Hrep Hu) as (HG1 & Hnx & HG2).
  set (a := addr b) in *. set (x := a + size b - n - 4).
  unfold malloc_split, sizeof_size_t. unfold HEAP_SIZE in *.
  rewrite (u32_id (size b - _)) by klia.
  destruct (set_size_spec en base h a (size b - (n + 4)) (hr_length _ _ _ _ Hrep))
    as (h1 & -> & Ef1 & Ho1 & Hg1); [lia|unfold HEAP_SIZE; lia|klia|]. cbn [outcome_bind].
  rewrite (u32_id (n + 4)) by klia.
  replace (u32 (a + (size b - (n + 4)))) with x by (rewrite u32_id by klia; lia).
  destruct (set_size_spec en base h1 x (n + 4)) as (h2 & -> & Ef2 & Ho2 & Hg2);
    [by rewrite (proj1 Ho1), (hr_length _ _ _ _ Hrep)|lia|unfold HEAP_SIZE; lia|klia|].
  cbn [outcome_bind]. exists h2.
  rewrite u32_id by klia. replace (x + 4) with (a + size b - n) by lia.
  assert (Ho : same_outside a (a + size b) h h2).
  { eapply same_outside_trans; eapply same_outside_mono; try done; lia. }
  split_and!; [done| |].
  - constructor.
    + rewrite (proj1 Ho). apply Hrep.
    + apply tiled_app. exists a. split; [done|]. apply carve_tiled; [lia|done|lia|].
      simpl. split_and!; [done|lia|done|done].
    + apply Forall_app. split; [by eapply sized_outside; [exact Ho|exact T1|lia|lia|]|].
      apply Forall_app. split; [|by eapply sized_outside; [exact Ho|exact T2|lia|lia|]].
      unfold carve. destruct (Z.leb_spec (n + 16) (size b)); [|lia].
      repeat constructor; simpl; fold a.
      * rewrite (get_size_outside en base x (x + 4) h1) by (done || lia).
        rewrite Hg1. f_equal. lia.
      * fold x. done.
    + rewrite frees_app. apply hseg_app. exists a. split.
      { rewrite Ef2, Ef1. eapply seg_outside; [exact Ho|exact T1|lia|lia|done]. }
      unfold carve. destruct (Z.leb_spec (n + 16) (size b)); [|lia]. simpl. fold a.
      split; [done|]. exists (hd_addr (frees post)). split.
      { rewrite (get_next_outside en base x (x + 4) h1), (get_next_outside en base a (a + 4) h)
          by (done || lia). done. }
      eapply seg_outside; [exact Ho|exact T2|lia|lia|done].
  - by eapply keeps_free; [apply Hrep|done|].
Qed.

(** ** [malloc] *)
Definition malloc_body (n : Z) h : Z * Z → outcome (Z * Z + Z * heap_t) :=
  λ '(block, prev),
    if block =? 0 then Done (inr (0, h))
    else
    let* bsize := get_size en base block h in
    if s32 (MIN_ALLOC_SIZE + sizeof_size_t) <=? s32 (bsize - n - sizeof_size_t) then
      let* r := malloc_split en base n block bsize h in Done (inr r)
    else if u32 (n + sizeof_size_t) <=? bsize then
      let* r := malloc_take en base prev block h in Done (inr r)
    else
      let* next := get_next en base block h in Done (inl (next, block)).

(** One iteration of the loop at the free block [b]. *)
Lemma malloc_body_spec n h pre b post :
  heap_rep h (pre ++ b :: post) → used b = false → 8 ≤ n ≤ 2 ^ 31 - 4 → n mod 4 = 0 →
  if n + 4 <=? size b
  then ∃ h', malloc_body n h (addr b, last_addr (frees pre)) =
         Done (inr ((carve n b).1 + 4, h')) ∧
       heap_rep h' (pre ++ (carve n b).2 ++ post) ∧ keeps (pre ++ b :: post) h h'
  else malloc_body n h (addr b, last_addr (frees pre)) =
         Done (inl (hd_addr (frees post), addr b)).
Proof.
  intros Hrep Hu Hn Hm.
  destruct (rep_middle _ _ _ _ Hrep) as (_ & _ & ? & ? & ? & _ & _ & HSb & _).
  destruct (rep_next _ _ _ _ Hrep Hu) as (_ & Hnx & _).
  unfold malloc_body. destruct (Z.eqb_spec (addr b) 0); [lia|]. rewrite HSb. cbn [outcome_bind].
  unfold MIN_ALLOC_SIZE, sizeof_size_t, HEAP_SIZE in *.
  rewrite !s32_id, u32_id by klia.
  destruct (Z.leb_spec (8 + 4) (size b - n - 4)), (Z.leb_spec (n + 4) (size b)); try lia.
  - destruct (malloc_split_spec h pre b post n) as (h' & -> & ? & ?); try done; [lia..|].
    exists h'. split_and!; try done. unfold carve. destruct (Z.leb_spec (n + 16) (size b)); [|lia].
    simpl. do 3 f_equal. lia.
  - destruct (malloc_take_spec h pre b post Hrep Hu) as (h' & -> & ? & ?).
    exists h'. unfold carve. destruct (Z.leb_spec (n + 16) (size b)); [lia|]. done.
  - rewrite Hnx. done.
Qed.

Lemma malloc_loop n h rest : 8 ≤ n ≤ 2 ^ 31 - 4 → n mod 4 = 0 → ∀ pre fuel,
  heap_rep h (pre ++ rest) → (length rest < fuel)%nat →
  returns (while_loop fuel (malloc_body n h) (hd_addr (frees rest), last_addr (frees pre)))
    (λ '(p, h'), match amalloc n rest with
     | None => p = 0 ∧ h' = h
     | Some (a, rest') => p = a + 4 ∧ heap_rep h' (pre ++ rest') ∧ keeps (pre ++ rest) h h'
     end).
Proof.
  intros Hn Hm. induction rest as [|b rest IH]; intros pre fuel Hrep Hf.
  { destruct fuel; [simpl in Hf; lia|]. done. }
  assert (Hnext : ∀ fuel, (length rest < fuel)%nat →
    returns (while_loop fuel (malloc_body n h) (hd_addr (frees rest), last_addr (frees (pre ++ [b]))))
      (λ '(p, h'), match prod_map id (cons b) <$> amalloc n rest with
       | None => p = 0 ∧ h' = h
       | Some (a, rest') => p = a + 4 ∧ heap_rep h' (pre ++ rest') ∧ keeps (pre ++ b :: rest) h h'
       end)).
  { intros fuel' Hf'. eapply returns_mono; [apply (IH (pre ++ [b])); [by rewrite <- app_assoc|done]|].
    intros [p h']. destruct (amalloc n rest) as [[a r']|]; simpl; [|done].
    by rewrite <- !app_assoc. }
  rewrite frees_app in Hnext. cbn [length amalloc] in Hf |- *.
  destruct (used b) eqn:Eu; cbn [negb andb].
  - rewrite (frees_used b []), app_nil_r in Hnext by done. rewrite frees_used by done.
    apply Hnext. lia.
  - rewrite (frees_free b []) in Hnext by done. rewrite frees_free by done. destruct fuel as [|fuel]; [lia|]. cbn [while_loop hd_addr].
    pose proof (malloc_body_spec n h pre b rest Hrep Eu Hn Hm) as Hb.
    destruct (n + 4 <=? size b); [by destruct Hb as (h' & -> & ? & ?)|].
    rewrite Hb. rewrite last_addr_snoc in Hnext. apply Hnext. lia.
Qed.

Lemma malloc_spec h bs sz :
  heap_rep h bs → 0 < sz ≤ 2 ^ 31 - 8 →
  returns (malloc en base sz h) (λ '(p, h'), match amalloc (round_size sz) bs with
    | None => p = 0 ∧ h' = h
    | Some (a, bs') => p = a + 4 ∧ heap_rep h' bs' ∧ keeps bs h h'
    end).
Proof.
  intros Hrep Hsz. destruct (round_size_spec sz Hsz) as (? & ? & _ & _).
  unfold malloc. destruct (Z.eqb_spec sz 0); [lia|].
  rewrite (seg_hd en base h (free_list h) (frees bs)) by apply Hrep.
  apply (malloc_loop (round_size sz) h bs) with (pre := []); [done|done|done|].
  pose proof (tiled_length _ _ _ (hr_tiled _ _ _ _ Hrep)). unfold heap_fuel, HEAP_SIZE in *. lia.
Qed.

(** ** [free] *)
Definition find_body (block : Z) h : Z * Z → outcome (Z * Z + Z * Z) :=
  λ '(cur, prev),
    if (block <? cur) || (cur =? 0) then Done (inr (cur, prev))
    else let* next := get_next en base cur h in Done (inl (next, cur)).

Lemma find_loop h b post p2 : ∀ p1 fuel,
  heap_rep h (p1 ++ p2 ++ b :: post) → used b = true → (length p2 < fuel)%nat →
  while_loop fuel (find_body (addr b) h)
    (hd_addr (frees (p2 ++ post)), last_addr (frees p1)) =
  Done (hd_addr (frees post), last_addr (frees (p1 ++ p2))).
Proof.
  induction p2 as [|c p2 IH]; intros p1 fuel Hrep Hu Hf.
  - destruct fuel; [lia|]. rewrite app_nil_r. cbn [app while_loop]. unfold find_body.
    destruct (rep_middle _ _ _ _ Hrep) as (_ & T2 & ? & ? & ? & _ & _).
    destruct (hd_addr_range _ _ T2) as [_ Hr]; [lia|].
    destruct (Z.ltb_spec (addr b) (hd_addr (frees post))), (Z.eqb_spec (hd_addr (frees post)) 0);
      done || lia.
  - change ((c :: p2) ++ b :: post) with (c :: (p2 ++ b :: post)) in Hrep.
    specialize (IH (p1 ++ [c])). rewrite <- !app_assoc in IH. cbn [app] in IH.
    cbn [length app] in Hf |- *. rewrite (frees_app p1 [c]) in IH.
    destruct (used c) eqn:Ec.
    + rewrite (frees_used c []), app_nil_r in IH by done. rewrite frees_used by done.
      apply IH; [done|done|lia].
    + rewrite (frees_free c []), last_addr_snoc in IH by done. rewrite frees_free by done.
      destruct fuel as [|fuel]; [lia|].
      cbn [while_loop hd_addr]. unfold find_body at 1.
      destruct (rep_middle _ _ _ _ Hrep) as (_ & T2 & ? & ? & ? & _ & _).
      destruct (rep_next _ _ _ _ Hrep Ec) as (_ & Hnx & _).
      assert (addr c < addr b).
      { destruct (tiled_elem _ _ _ b T2); [|lia]. apply elem_of_app. right. by left. }
      destruct (Z.ltb_spec (addr b) (addr c)), (Z.eqb_spec (addr c) 0); try lia.
      cbn [orb]. rewrite Hnx. cbn [outcome_bind].
      replace (frees (p2 ++ b :: post)) with (frees (p2 ++ post));
        [apply IH; [done|done|lia]|]. by rewrite !frees_app, frees_used.
Qed.

Lemma free_find_spec h pre b post :
  heap_rep h (pre ++ b :: post) → used b = true →
  free_find en base (addr b) h = Done (hd_addr (frees post), last_addr (frees pre)).
Proof.
  intros Hrep Hu. pose proof (find_loop h b post pre [] heap_fuel Hrep Hu) as H.
  unfold free_find. rewrite (seg_hd en base h (free_list h) (frees (pre ++ b :: post))) by apply Hrep.
  replace (frees (pre ++ b :: post)) with (frees (pre ++ post)).
  - apply H. pose proof (tiled_length _ _ _ (hr_tiled _ _ _ _ Hrep)) as HL.
    rewrite length_app in HL. unfold heap_fuel, HEAP_SIZE in *. lia.
  - by rewrite !frees_app, frees_used.
Qed.

(** Linking the freed block between its free neighbours. *)
Lemma insert_spec h pre a s post :
  heap_rep h (pre ++ Blk true a s :: post) →
  ∃ h1 h2, set_link en base (last_addr (frees pre)) a h = Done h1 ∧
    set_next en base a (hd_addr (frees post)) h1 = Done h2 ∧
    heap_rep h2 (pre ++ Blk false a s :: post) ∧ keeps (pre ++ post) h h2.
Proof.
  intros Hrep. destruct (rep_middle _ _ _ _ Hrep) as (T1 & T2 & ? & ? & ? & Hm & HS1 & HSb & HS2).
  cbn [addr size] in *. destruct (hd_addr_range _ _ T2) as [Hu32 _]; [lia|].
  pose proof (hr_seg _ _ _ _ Hrep) as HG. rewrite frees_app in HG.
  apply hseg_app in HG as (q & HG1 & HG2). change (frees (_ :: post)) with (frees post) in HG2.
  pose proof (seg_hd en base _ _ _ HG2) as ->.
  destruct (set_link_spec h pre a (hd_addr (frees post)) a (hr_length _ _ _ _ Hrep) T1) 
    as (h1 & E1 & Ho1 & HS1' & HG1' & K1);
    [lia|done|exact HG1|unfold HEAP_SIZE in *; klia|].
  destruct (set_next_spec en base h1 a (hd_addr (frees post))) as (h2 & E2 & Ef2 & Ho2 & Hn2);
    [by rewrite (proj1 Ho1), (hr_length _ _ _ _ Hrep)|lia|lia|done|].
  exists h1, h2. split_and!; [done|done| |].
  - constructor.
    + rewrite (proj1 Ho2), (proj1 Ho1). apply Hrep.
    + apply tiled_app. exists a. by simpl.
    + apply Forall_app. split; [by eapply sized_outside; [exact Ho2|exact T1|lia|lia|]|].
      constructor; cbn [addr size].
      * rewrite (get_size_outside en base (a + 4) (a + 8) h1), (get_size_outside en base base a h)
          by (done || lia). done.
      * eapply sized_outside; [exact Ho2|exact T2|lia|lia|].
        eapply sized_outside; [exact Ho1|exact T2|lia|lia|done].
    + rewrite frees_app. apply hseg_app. exists a. rewrite Ef2. split.
      { eapply seg_outside; [exact Ho2|exact T1|lia|lia|done]. }
      simpl. split; [done|]. exists (hd_addr (frees post)). split; [done|].
      eapply seg_outside; [exact Ho2|exact T2|lia|lia|].
      eapply seg_outside; [exact Ho1|exact T2|lia|lia|done].
  - apply (keeps_trans base _ _ h1).
    + eapply keeps_app; [done|exact Ho1|exact T2|lia].
    + eapply (keeps_others base pre (Blk true a s) post); [apply Hrep|].
      eapply same_outside_mono; [exact Ho2|simpl; lia|simpl; lia].
Qed.

(** Merging a free block with the free block after it. *)
Lemma merge_spec h pre a s a' s' post :
  heap_rep h (pre ++ Blk false a s :: Blk false a' s' :: post) →
  a' = a + s ∧
  ∃ h1 h2, set_size en base a (s + s') h = Done h1 ∧
    get_next en base a' h1 = Done (hd_addr (frees post)) ∧
    set_next en base a (hd_addr (frees post)) h1 = Done h2 ∧
    heap_rep h2 (pre ++ Blk false a (s + s') :: post) ∧
    keeps (pre ++ post) h h2.
Proof.
  intros Hrep.
  destruct (rep_middle _ _ _ _ Hrep) as (T1 & (Ea & ? & Hm' & T2) & ? & ? & ? & Hm & HS1 & HSb & HS2).
  cbn [addr size] in *. split; [done|]. pose proof (tiled_le _ _ _ T2).
  destruct (rep_next _ _ _ _ Hrep eq_refl) as (HG1 & _ & HG2). cbn [addr] in *.
  destruct (rep_next h (pre ++ [Blk false a s]) (Blk false a' s') post) as (_ & Hnx & HG3);
    [by rewrite <- app_assoc|done|]. cbn [addr] in Hnx.
  destruct (hd_addr_range _ _ T2) as [Hu32 _]; [lia|]. apply Forall_cons in HS2 as [_ HS2].
  destruct (set_size_spec en base h a (s + s') (hr_length _ _ _ _ Hrep))
    as (h1 & E1 & Ef1 & Ho1 & Hg1); [lia|lia|unfold HEAP_SIZE in *; klia|].
  destruct (set_next_spec en base h1 a (hd_addr (frees post))) as (h2 & E2 & Ef2 & Ho2 & Hn2);
    [by rewrite (proj1 Ho1), (hr_length _ _ _ _ Hrep)|lia|lia|done|].
  assert (Ho : same_outside a (a + 8) h h2).
  { eapply same_outside_trans; eapply same_outside_mono; try done; lia. }
  exists h1, h2. split_and!; [done| |done| |].
  - rewrite (get_next_outside en base a (a + 4) h) by (done || lia). done.
  - constructor.
    + rewrite (proj1 Ho). apply Hrep.
    + apply tiled_app. exists a. split; [done|]. simpl. split_and!; [done|lia| |].
      * by rewrite Z.add_mod, Hm, Hm' by lia.
      * by replace (a + (s + s')) with (a + s + s') by lia.
    + apply Forall_app. split; [by eapply sized_outside; [exact Ho|exact T1|lia|lia|]|].
      constructor; cbn [addr size].
      * rewrite (get_size_outside en base (a + 4) (a + 8) h1) by (done || lia). done.
      * eapply sized_outside; [exact Ho|exact T2|lia|lia|done].
    + rewrite frees_app. apply hseg_app. exists a. rewrite Ef2, Ef1. split.
      { eapply seg_outside; [exact Ho|exact T1|lia|lia|done]. }
      simpl. split; [done|]. exists (hd_addr (frees post)). split; [done|].
      eapply seg_outside; [exact Ho|exact T2|lia|lia|done].
  - eapply (keeps_sub base (pre ++ Blk false a' s' :: post)).
    + intros x [?|?]%elem_of_app; apply elem_of_app; [by left|right; by right].
    + eapply (keeps_others base pre (Blk false a s)); [apply Hrep|].
      eapply same_outside_mono; [exact Ho|simpl; lia|simpl; lia].
Qed.

Lemma merge_next_spec h pre b post :
  heap_rep h (pre ++ b :: post) → used b = false →
  ∃ h', merge_next en base (addr b) (hd_addr (frees post)) h = Done h' ∧
    heap_rep h' (pre ++ join_next b post) ∧ keeps (pre ++ post) h h'.
Proof.
  intros Hrep Hu. destruct b as [u a s]. simpl in Hu. subst u.
  destruct (rep_middle _ _ _ _ Hrep) as (T1 & T2 & ? & ? & ? & Hm & HS1 & HSb & HS2).
  cbn [addr size] in *. destruct (hd_addr_range _ _ T2) as [Hu32 Hr]; [lia|].
  unfold merge_next. destruct (Z.eqb_spec (hd_addr (frees post)) 0) as [E0|E0]; simpl.
  { exists h. split_and!; [done| |done]. unfold join_next. destruct post as [|c post]; [done|].
    destruct (used c) eqn:Ec; [done|]. destruct Hr as [[_ Hr]|Hr]; [|lia].
    by rewrite frees_free in Hr. }
  rewrite HSb. cbn [outcome_bind]. unfold HEAP_SIZE in *.
  destruct Hr as [[? _]|Hr]; [lia|].
  assert (Hhd : ∀ c l, post = c :: l → used c = true → a + s < hd_addr (frees post)).
  { intros c l -> Hc. destruct T2 as (_ & ? & _ & T2).
    rewrite frees_used in Hr, E0 |- * by done.
    destruct (hd_addr_range _ _ T2) as [_ [[? _]|?]]; [unfold HEAP_SIZE; lia|lia|lia]. }
  assert (hd_addr (frees post) ≤ base + 256).
  { destruct (frees post) as [|c l] eqn:Ef; [simpl; lia|].
    assert (Hc : c ∈ frees post) by (rewrite Ef; by left). apply elem_of_frees in Hc as [Hc _].
    pose proof (tiled_elem _ _ _ _ T2 Hc). simpl. lia. }
  rewrite (u32_id (_ - a)) by klia.
  destruct post as [|[u a' s'] post]; [done|]. cbn [join_next used]. destruct u.
  - specialize (Hhd _ _ eq_refl eq_refl).
    destruct (Z.eqb_spec (hd_addr (frees (Blk true a' s' :: post)) - a) s); [lia|].
    exists h. split_and!; [done|done|apply keeps_refl].
  - rewrite frees_free in * by done. cbn [hd_addr addr] in *.
    destruct (merge_spec _ _ _ _ _ _ _ Hrep) as (-> & h1 & h2 & E1 & E2 & E3 & Hr2 & HK).
    destruct (Z.eqb_spec (a + s - a) s); [|lia].
    destruct (rep_middle h (pre ++ [Blk false a s]) (Blk false (a + s) s') post)
      as (_ & _ & _ & ? & ? & _ & _ & HSc & _); [by rewrite <- app_assoc|].
    cbn [addr size] in *. rewrite HSc. cbn [outcome_bind]. unfold HEAP_SIZE in *.
    rewrite u32_id by klia. rewrite E1. cbn [outcome_bind]. rewrite E2. cbn [outcome_bind].
    rewrite E3. exists h2. split_and!; [done|done|].
    destruct HK as [HL HK]. split; [done|]. intros c i [Hc|[->|Hc]%elem_of_cons]%elem_of_app Hcu;
      [apply HK; [by apply elem_of_app; left|done]|done|apply HK; [by apply elem_of_app; right|done]].
Qed.

Lemma tiled_frees_nil lo hi l : tiled lo hi l → lo = hi → l = [].
Proof. destruct l as [|b l]; [done|]. intros (_ & ? & _ & T) ->. apply tiled_le in T. lia. Qed.

(** The two merges of [free], after the freed block has been linked. *)
Lemma merges_spec h pre a s post :
  heap_rep h (pre ++ Blk false a s :: post) →
  ∃ h', (let* '(block, h1) := merge_prev en base (last_addr (frees pre)) a (hd_addr (frees post)) h in
         merge_next en base block (hd_addr (frees post)) h1) = Done h' ∧
    heap_rep h' (join pre (Blk false a s) post) ∧ keeps (pre ++ post) h h'.
Proof.
  intros Hrep. destruct (rep_middle _ _ _ _ Hrep) as (T1 & T2 & ? & ? & ? & Hm & HS1 & HSb & HS2).
  cbn [addr size] in *. pose proof (merge_next_spec _ _ _ _ Hrep eq_refl) as Hno.
  cbn [addr] in Hno. destruct Hno as (h' & En & Hr' & HK'). unfold merge_prev.
  destruct (last_free pre) as [[E ->]|(l1 & p & l2 & -> & Hu & E2 & E & ->)].
  { exists h'. split_and!; [done| |done]. destruct pre as [|q pre _] using rev_ind; [done|].
    rewrite join_snoc. destruct (used q) eqn:Eq.
    - by rewrite <- app_assoc in Hr'.
    - rewrite frees_app, frees_free in E by done. by destruct (frees pre). }
  pose proof T1 as (x & Tp & Ep & ? & ? & T3)%tiled_app. pose proof (tiled_le _ _ _ Tp).
  pose proof (tiled_le _ _ _ T3). unfold HEAP_SIZE in *.
  destruct (Z.eqb_spec (addr p) 0); [lia|]. cbn [negb].
  assert (HSp : get_size en base (addr p) h = Done (size p)).
  { apply Forall_app in HS1 as [_ [HS1 _]%Forall_cons]. done. }
  rewrite HSp. cbn [outcome_bind]. rewrite u32_id by klia.
  destruct (Z.eqb_spec (a - addr p) (size p)) as [Ea|Ea]; cbn [outcome_bind].
  - assert (l2 = []) as -> by (eapply tiled_frees_nil; [exact T3|lia]).
    rewrite <- app_assoc in Hrep. cbn [app] in Hrep.
    destruct p as [u pa ps]. simpl in Hu. subst u. cbn [addr size] in *.
    destruct (merge_spec _ _ _ _ _ _ _ Hrep) as (_ & h1 & h2 & E1 & _ & E3 & Hr2 & HK).
    rewrite HSb. cbn [outcome_bind]. rewrite u32_id by klia.
    rewrite E1. cbn [outcome_bind]. rewrite E3. cbn [outcome_bind].
    destruct (merge_next_spec _ _ _ _ Hr2 eq_refl) as (h3 & E4 & Hr3 & HK3). cbn [addr] in E4.
    rewrite E4. exists h3. rewrite join_snoc. split_and!; [done|done|].
    destruct (keeps_trans base _ _ _ _ HK HK3) as [HL HK4]. split; [done|].
    intros c i [[Hc|[->|Hc]%elem_of_cons]%elem_of_app|Hc]%elem_of_app Hcu; [|done|by inversion Hc|];
      (apply HK4; [apply elem_of_app; auto|done]).
  - destruct l2 as [|q l2 _] using rev_ind; [simpl in T3; lia|].
    assert (Hq : used q = true).
    { destruct (used q) eqn:Eq; [done|]. rewrite frees_app, frees_free in E2 by done.
      by destruct (frees l2). }
    exists h'. split_and!; [done| |done]. rewrite app_comm_cons, app_assoc in Hr' |- *.
    rewrite join_snoc, Hq. by rewrite <- app_assoc in Hr'.
Qed.

Lemma free_spec h pre a s post :
  heap_rep h (pre ++ Blk true a s :: post) →
  returns (free en base (a + 4) h) (λ h',
    heap_rep h' (join pre (Blk false a s) post) ∧ keeps (pre ++ post) h h').
Proof.
  intros Hrep. destruct (rep_middle _ _ _ _ Hrep) as (_ & _ & ? & ? & ? & _).
  cbn [addr size] in *. unfold free, sizeof_size_t, HEAP_SIZE in *.
  destruct (Z.eqb_spec (a + 4) 0); [lia|]. cbn [negb].
  rewrite u32_id by klia. replace (a + 4 - 4) with a by lia.
  pose proof (free_find_spec _ _ _ _ Hrep eq_refl) as Hf. cbn [addr] in Hf. rewrite Hf.
  cbn [outcome_bind].
  destruct (insert_spec _ _ _ _ _ Hrep) as (h1 & h2 & -> & E2 & Hr2 & HK2). cbn [outcome_bind].
  rewrite E2. cbn [outcome_bind].
  destruct (merges_spec _ _ _ _ _ Hr2) as (h3 & -> & Hr3 & HK3). simpl.
  split; [done|]. by eapply keeps_trans.
Qed.

Lemma heap_init_spec h :
  Z.of_nat (length (heap h)) = HEAP_SIZE →
  returns (heap_init en base h) (λ h', heap_rep h' [Blk false base HEAP_SIZE]).
Proof.
  intros HL. unfold heap_init. cbn [free_list].
  destruct (set_size_spec en base (Heap base (heap h)) base HEAP_SIZE)
    as (h1 & -> & E1 & Ho1 & Hg1); [done|lia|unfold HEAP_SIZE; lia|unfold HEAP_SIZE; klia|].
  cbn [outcome_bind]. rewrite E1. cbn [free_list].
  destruct (set_next_spec en base h1 base 0) as (h2 & -> & E2 & Ho2 & Hg2);
    [by rewrite (proj1 Ho1)|lia|unfold HEAP_SIZE; lia|klia|].
  simpl. constructor.
  - by rewrite (proj1 Ho2), (proj1 Ho1).
  - by simpl.
  - constructor; [|constructor]. cbn [addr size].
    rewrite (get_size_outside en base (base + 4) (base + 8) h1) by (done || lia). done.
  - rewrite E2, E1. simpl. eauto.
Qed.
End ops.
