(* ===== verification/UserHeapClient.v ===== *)
(** * Programs that use the heap

    The states a program can reach by allocating, freeing and storing into blocks
    it holds, and what [malloc], [free] and [realloc] do in them. *)

From S2P Require Import Prelude Libc UserHeap UserHeapOps.

(** A loop whose body faults in iteration [k]. *)
Lemma for_each_fault {A} (Inv : Z → A → Prop) body lo k hi s :
  lo ≤ k < hi → Inv lo s →
  (∀ j s', lo ≤ j < k → Inv j s' → returns (body j s') (Inv (j + 1))) →
  (∀ s', Inv k s' → body k s' = Fault) → for_each lo hi body s = Fault.
Proof.
  intros Hk Hs Hb Hf. unfold for_each, for_loop.
  replace (Z.to_nat (hi - lo)) with (S (Z.to_nat (k - lo)) + Z.to_nat (hi - k - 1))%nat by lia.
  remember (Z.to_nat (k - lo)) as n eqn:En. revert lo s Hk Hs Hb En.
  induction n as [|n IH]; intros lo s Hk Hs Hb En; cbn [Nat.add for_from].
  - replace lo with k in * by lia. by rewrite Hf.
  - specialize (Hb lo s) as Hb0. destruct (body lo s) as [s'| | | |];
      try (exfalso; apply Hb0; [lia|done]). apply IH; [lia|apply Hb0; [lia|done]| |lia].
    intros j s2 Hj. apply Hb. lia.
Qed.

(** ** Blocks in use *)
Definition useds (bs : list blk) : list blk := List.filter used bs.

Lemma useds_app l1 l2 : useds (l1 ++ l2) = useds l1 ++ useds l2.
Proof. apply List.filter_app. Qed.

Lemma elem_of_useds b bs : b ∈ useds bs ↔ b ∈ bs ∧ used b = true.
Proof. unfold useds. by rewrite !list_elem_of_In, List.filter_In. Qed.

Lemma useds_join pre a s post : useds (join pre (Blk false a s) post) = useds pre ++ useds post.
Proof.
  assert (Hj : ∀ b, used b = false → useds (join_next b post) = useds post).
  { intros b Hb. unfold useds. destruct post as [|c post]; simpl; [by rewrite Hb|].
    destruct (used c) eqn:Ec; simpl; by rewrite ?Hb, ?Ec. }
  destruct pre as [|p pre _] using rev_ind; [by apply Hj|].
  rewrite join_snoc, !useds_app, <- app_assoc. f_equal.
  destruct (used p) eqn:Ep; [|rewrite Hj by done]; unfold useds; simpl; rewrite Ep; [|done].
  f_equal. by apply Hj.
Qed.

Lemma amalloc_useds n bs a bs' :
  amalloc n bs = Some (a, bs') →
  ∃ s, n + 4 ≤ s ∧ useds bs' ≡ₚ Blk true a s :: useds bs.
Proof.
  revert bs'. induction bs as [|b bs IH]; intros bs'; simpl; [done|].
  destruct (used b) eqn:Eu; simpl; [|destruct (Z.leb_spec (n + 4) (size b)); simpl].
  - destruct (amalloc n bs) as [[a' r]|]; [|done]. intros [= <- <-].
    destruct (IH _ eq_refl) as (s & ? & Hp). exists s. split; [done|].
    unfold useds in *. simpl. rewrite Eu, Hp. apply Permutation_swap.
  - intros [= <- <-]. unfold carve. destruct (n + 16 <=? size b); simpl;
      [exists (n + 4)|exists (size b)]; split; done || lia.
  - destruct (amalloc n bs) as [[a' r]|]; [|done]. intros [= <- <-].
    destruct (IH _ eq_refl) as (s & ? & Hp). exists s. split; [done|].
    unfold useds in *. simpl. by rewrite Eu.
Qed.

Lemma amalloc_None n bs :
  amalloc n bs = None ↔ ∀ b, b ∈ bs → used b = false → size b < n + 4.
Proof.
  induction bs as [|b bs IH]; simpl; [split; [by intros _ b ?%elem_of_nil|done]|].
  destruct (negb (used b) && (n + 4 <=? size b)) eqn:E.
  - split; [done|]. intros H. apply andb_prop in E as [E1 E2]. apply Z.leb_le in E2.
    specialize (H b (list_elem_of_here _ _)). destruct (used b); [done|]. specialize (H eq_refl). lia.
  - rewrite fmap_None, IH. split.
    + intros H c [->|Hc]%elem_of_cons Hu; [|by apply H]. rewrite Hu in E. simpl in E.
      apply Z.leb_gt in E. lia.
    + intros H c Hc. apply H. by right.
Qed.

Lemma amalloc_coalesced n bs a bs' : amalloc n bs = Some (a, bs') → coalesced bs → coalesced bs'.
Proof.
  intros E Hc. cut (∀ pre, coalesced (pre ++ bs) → coalesced (pre ++ bs')).
  { intros H. by apply (H []). }
  clear Hc. revert bs' E. induction bs as [|b bs IH]; intros bs'; simpl; [done|].
  destruct (negb (used b) && (n + 4 <=? size b)) eqn:E.
  - intros [= <- <-] pre Hc. apply carve_coalesced; [|done].
    apply andb_prop in E as [E _]. by destruct (used b).
  - destruct (amalloc n bs) as [[a' r]|]; [|done]. intros [= <- <-] pre Hc.
    specialize (IH _ eq_refl (pre ++ [b])). rewrite <- !app_assoc in IH. by apply IH.
Qed.

Lemma tiled_NoDup lo hi bs : tiled lo hi bs → NoDup bs.
Proof.
  revert lo. induction bs as [|b bs IH]; intros lo; [constructor|].
  intros (E & ? & _ & T). constructor; [|by eapply IH].
  intros Hin. pose proof (tiled_elem _ _ _ _ T Hin). lia.
Qed.

Lemma tiled_disjoint lo hi bs b c :
  tiled lo hi bs → b ∈ bs → c ∈ bs → b ≠ c →
  addr b + size b ≤ addr c ∨ addr c + size c ≤ addr b.
Proof.
  intros T (l1 & l2 & ->)%list_elem_of_split Hc Hne.
  destruct (tiled_apart _ _ _ _ _ c T); [|by right|by left].
  apply elem_of_app in Hc as [?|[?|?]%elem_of_cons]; [by apply elem_of_app; left|congruence|].
  by apply elem_of_app; right.
Qed.

(** ** A program that uses the heap *)

(** [live] are the pointers the program holds, with the sizes it asked for. *)
Definition fits (x : Z * Z) (b : blk) : Prop := x.1 = addr b + 4 ∧ 0 ≤ x.2 ≤ size b - 4.
Definition live_rep (bs : list blk) (live : list (Z * Z)) : Prop :=
  ∃ us, us ≡ₚ useds bs ∧ Forall2 fits live us.

Section client.
Variables (en : endian) (base : Z).
Hypothesis Hbase : 0 < base ∧ base + HEAP_SIZE ≤ 2 ^ 32.
Notation heap_rep := (heap_rep en base).

(** One step of the program: a request of at most [2^31 - 8] bytes, the return of
    a block it holds, or a store into one. *)
Inductive heap_step : heap_t * list (Z * Z) → heap_t * list (Z * Z) → Prop :=
| heap_malloc h live n p h' :
    0 < n ≤ 2 ^ 31 - 8 → malloc en base n h = Done (p, h') →
    heap_step (h, live) (h', if p =? 0 then live else (p, n) :: live)
| heap_free h live p n live' h' :
    live ≡ₚ (p, n) :: live' → free en base p h = Done h' → heap_step (h, live) (h', live')
| heap_store h live p n i v h' :
    (p, n) ∈ live → 0 ≤ i < n → is_u8 v → set_byte base (p + i) v h = Done h' →
    heap_step (h, live) (h', live).

Definition heap_inv (s : heap_t * list (Z * Z)) : Prop :=
  ∃ bs, heap_rep s.1 bs ∧ coalesced bs ∧ live_rep bs s.2.

(** The block in use of a pointer the program holds. *)
Lemma live_block bs live p n :
  live_rep bs live → (p, n) ∈ live →
  ∃ s, p = addr s + 4 ∧ 0 ≤ n ≤ size s - 4 ∧ s ∈ bs ∧ used s = true.
Proof.
  intros (us & Hp & HF) Hin. apply list_elem_of_lookup in Hin as [i Hi].
  destruct (Forall2_lookup_l _ _ _ _ _ HF Hi) as (b & Hb & [E1 E2]).
  assert (Hbu : b ∈ useds bs) by (rewrite <- Hp; by eapply list_elem_of_lookup_2).
  apply elem_of_useds in Hbu as [? ?]. by exists b.
Qed.

Lemma live_keeps bs live h h' p n i :
  (∀ b, b ∈ bs → base ≤ addr b) → live_rep bs live → keeps base bs h h' →
  (p, n) ∈ live → 0 ≤ i < n → get_byte base (p + i) h' = get_byte base (p + i) h.
Proof.
  intros Hlo Hl [_ HK] Hin Hi. destruct (live_block _ _ _ _ Hl Hin) as (b & -> & Hn & Hb & Hu).
  specialize (Hlo b Hb).
  unfold get_byte, aread. destruct (Z.ltb_spec (addr b + 4 + i - base) 0); [lia|].
  rewrite (HK b); [done|done|done|lia].
Qed.

Lemma live_rep_perm bs live live' : live_rep bs live → live ≡ₚ live' → live_rep bs live'.
Proof.
  intros (us & Hp & HF) HP. destruct (Permutation_Forall2 HP HF) as (us' & Hp' & HF').
  exists us'. split; [|done]. by rewrite <- Hp'.
Qed.

(** [free] of a pointer the program holds. *)
Lemma free_live h bs live p n live' :
  heap_rep h bs → coalesced bs → live_rep bs live → live ≡ₚ (p, n) :: live' →
  returns (free en base p h) (λ h', ∃ bs', heap_rep h' bs' ∧ coalesced bs' ∧ live_rep bs' live' ∧
    ∀ q m i, (q, m) ∈ live' → 0 ≤ i < m → get_byte base (q + i) h' = get_byte base (q + i) h).
Proof.
  intros Hrep Hc Hl HP. destruct (live_rep_perm _ _ _ Hl HP) as (us & Hp & HF).
  apply Forall2_cons_inv_l in HF as ([u a s] & us' & [E1 E2] & HF & ->). simpl in E1, E2.
  assert (Hin : Blk u a s ∈ useds bs) by (rewrite <- Hp; by left).
  apply elem_of_useds in Hin as [Hin Hu]. simpl in Hu. subst u p.
  apply list_elem_of_split in Hin as (pre & post & ->).
  eapply returns_mono; [by apply free_spec|]. intros h' [Hrep' HK].
  assert (HL : live_rep (pre ++ post) live').
  { exists us'. split; [|done]. rewrite useds_app in Hp |- *. simpl in Hp.
    apply (Permutation_cons_inv (a := Blk true a s)). rewrite Hp. symmetry. apply Permutation_middle. }
  exists (join pre (Blk false a s) post). split_and!; [done|by apply join_coalesced| |].
  - destruct HL as (us2 & ? & ?). exists us2. by rewrite useds_join, <- useds_app.
  - intros q m i Hq Hi. apply (live_keeps (pre ++ post) live' h h' q m); try done.
    intros b Hb. apply (tiled_elem _ _ _ b (hr_tiled _ _ _ _ Hrep)).
    apply elem_of_app in Hb as [?|?]; apply elem_of_app; [by left|right; by right].
Qed.

(** [malloc] with pointers held. *)
Lemma malloc_live h bs live n :
  heap_rep h bs → coalesced bs → live_rep bs live → 0 < n ≤ 2 ^ 31 - 8 →
  returns (malloc en base n h) (λ '(p, h'), ∃ bs', heap_rep h' bs' ∧ coalesced bs' ∧
    live_rep bs' (if p =? 0 then live else (p, n) :: live) ∧
    (p = 0 ↔ ∀ b, b ∈ bs → used b = false → size b < round_size n + 4) ∧
    ∀ q m i, (q, m) ∈ live → 0 ≤ i < m → get_byte base (q + i) h' = get_byte base (q + i) h).
Proof.
  intros Hrep Hc Hl Hn. eapply returns_mono; [by apply (malloc_spec en base Hbase h bs n)|].
  intros [p h']. pose proof (amalloc_None (round_size n) bs) as HN.
  destruct (amalloc (round_size n) bs) as [[a bs']|] eqn:E.
  - intros (-> & Hrep' & HK). destruct (amalloc_useds _ _ _ _ E) as (s & Hs & Hp).
    pose proof (hr_tiled _ _ _ _ Hrep') as T'.
    assert (Ha : Blk true a s ∈ bs').
    { assert (Hin : Blk true a s ∈ useds bs') by (rewrite Hp; by left).
      by apply elem_of_useds in Hin as [? _]. }
    destruct (tiled_elem _ _ _ _ T' Ha) as (? & ? & ?). simpl in *.
    exists bs'. split_and!; [done|by eapply amalloc_coalesced| | |].
    + destruct (Z.eqb_spec (a + 4) 0); [lia|]. destruct Hl as (us & Hpu & HF).
      exists (Blk true a s :: us). split; [by rewrite Hp, Hpu|]. constructor; [|done].
      destruct (round_size_spec n Hn) as (_ & _ & ? & _). split; simpl; lia.
    + rewrite <- HN. split; [lia|done].
    + intros. apply (live_keeps bs live) with m; try done.
      intros b Hb. by apply (tiled_elem _ _ _ b (hr_tiled _ _ _ _ Hrep)).
  - intros [-> ->]. exists bs. split_and!; try done. by rewrite <- HN.
Qed.

(** A store into a block in use touches no bookkeeping. *)
Lemma store_live h bs live p n i v :
  heap_rep h bs → live_rep bs live → (p, n) ∈ live → 0 ≤ i < n →
  returns (set_byte base (p + i) v h) (λ h', heap_rep h' bs).
Proof.
  intros Hrep Hl Hin Hi. destruct (live_block _ _ _ _ Hl Hin) as (b & -> & Hn & Hb & Hu).
  pose proof (hr_tiled _ _ _ _ Hrep) as T. pose proof (hr_length _ _ _ _ Hrep) as HL.
  destruct (tiled_elem _ _ _ _ T Hb) as (? & ? & ?).
  unfold set_byte. rewrite awrite_in_range by lia. simpl. set (x := addr b + 4 + i) in *.
  set (h' := Heap _ _).
  assert (Ho : same_outside base x (x + 1) h h').
  { split; [by simpl; rewrite length_insert|]. intros j Hj. simpl.
    apply list_lookup_insert_ne. lia. }
  assert (Hd : ∀ c, c ∈ bs → base ≤ addr c ∧ (addr c + 4 ≤ x ∨ x + 1 ≤ addr c) ∧
    (used c = false → addr c + 8 ≤ x ∨ x + 1 ≤ addr c + 4)).
  { intros c Hc. pose proof (tiled_elem _ _ _ _ T Hc).
    destruct (decide (b = c)) as [->|Hne]; [split_and!; [lia|lia|congruence]|].
    pose proof (tiled_disjoint _ _ _ _ _ T Hb Hc Hne). split_and!; [lia|lia|intros; lia]. }
  constructor; [by rewrite (proj1 Ho)|done| |].
  - apply Forall_forall. intros c Hc. destruct (Hd c Hc) as (? & ? & _).
    rewrite (get_size_outside en base x (x + 1) h) by done.
    pose proof (hr_sized _ _ _ _ Hrep) as HS. unfold sized in HS. rewrite Forall_forall in HS. by apply HS.
  - apply (seg_outside_list en base x (x + 1) h); [done| |apply Hrep].
    intros c [Hc Hcu]%elem_of_frees. destruct (Hd c Hc) as (? & _ & H3). split; [done|by apply H3].
Qed.

Lemma heap_step_inv s s' : heap_inv s → heap_step s s' → heap_inv s'.
Proof.
  intros (bs & Hrep & Hc & Hl) Hs.
  destruct Hs as [h live n p h' Hn E|h live p n live' h' HP E|h live p n i v h' Hin Hi _ E]; simpl in *.
  - pose proof (malloc_live h bs live n Hrep Hc Hl Hn) as H. rewrite E in H.
    destruct H as (bs' & ? & ? & ? & _). by exists bs'.
  - pose proof (free_live h bs live p n live' Hrep Hc Hl HP) as H. rewrite E in H.
    destruct H as (bs' & ? & ? & ? & _). by exists bs'.
  - pose proof (store_live h bs live p n i v Hrep Hl Hin Hi) as H. rewrite E in H. by exists bs.
Qed.

Lemma heap_reachable_inv h0 h1 s :
  Z.of_nat (length (heap h0)) = HEAP_SIZE → heap_init en base h0 = Done h1 →
  rtc heap_step (h1, []) s → heap_inv s.
Proof.
  intros HL E Hr. assert (H1 : heap_inv (h1, [])).
  { pose proof (heap_init_spec en base h0 HL) as H. rewrite E in H.
    exists [Blk false base HEAP_SIZE]. split_and!; [done|done|]. exists []. by split. }
  revert H1. clear E HL. induction Hr as [|s1 s2 s3 Hs _ IH]; [done|].
  intros H. apply IH. by eapply heap_step_inv.
Qed.

Lemma set_byte_spec h a v :
  base ≤ a < base + Z.of_nat (length (heap h)) →
  ∃ h', set_byte base a v h = Done h' ∧ same_outside base a (a + 1) h h' ∧
    get_byte base a h' = Done v.
Proof.
  intros Ha. unfold set_byte, get_byte. rewrite awrite_in_range by lia. simpl.
  eexists. split_and!; [done| |].
  - split; [by simpl; rewrite length_insert|]. intros j Hj. apply list_lookup_insert_ne. lia.
  - apply aread_Some; [lia|]. apply list_lookup_insert_eq. lia.
Qed.

Lemma get_byte_outside lo hi h h' a :
  same_outside base lo hi h h' → base ≤ a → a < lo ∨ hi ≤ a →
  get_byte base a h' = get_byte base a h.
Proof.
  intros [L H] Ha Hd. unfold get_byte, aread. destruct (Z.ltb_spec (a - base) 0); [lia|].
  by rewrite H by lia.
Qed.

(** A loop that fills a block the program holds, byte by byte; [V] says what the
    bytes are, as far as it is known. *)
Lemma fill_loop h bs live p n (get : Z → heap_t → outcome Z) (V : Z → option Z) :
  heap_rep h bs → live_rep bs live → (p, n) ∈ live →
  (∀ i h', 0 ≤ i < n → same_outside base p (p + n) h h' →
     returns (get i h') (λ b, ∀ v, V i = Some v → b = v)) →
  returns (for_each 0 n (λ i h, let* b := get i h in set_byte base (p + i) b h) h) (λ h',
    heap_rep h' bs ∧ same_outside base p (p + n) h h' ∧
    ∀ i v, 0 ≤ i < n → V i = Some v → get_byte base (p + i) h' = Done v).
Proof.
  intros Hrep Hl Hin Hget. destruct (live_block _ _ _ _ Hl Hin) as (b & Ep & Hn & Hb & _).
  pose proof (tiled_elem _ _ _ _ (hr_tiled _ _ _ _ Hrep) Hb).
  eapply returns_mono; [apply (for_each_inv (λ i h', heap_rep h' bs ∧ same_outside base p (p + n) h h' ∧
    ∀ j v, 0 ≤ j < i → V j = Some v → get_byte base (p + j) h' = Done v))|]; [lia| | |done].
  { split_and!; [done|done|]. intros. lia. }
  intros i h1 Hi (Hrep1 & Ho1 & Hv1). apply returns_bind.
  eapply returns_mono; [by apply (Hget i h1)|]. intros x Hx. cbv beta.
  pose proof (store_live h1 bs live p n i x Hrep1 Hl Hin Hi) as Hs.
  destruct (set_byte_spec h1 (p + i) x) as (h2 & E & Ho2 & Hg2);
    [rewrite (hr_length _ _ _ _ Hrep1); lia|]. rewrite E in *. simpl in *.
  split_and!; [done| |].
  - eapply same_outside_trans; [done|]. eapply same_outside_mono; [done|lia|lia].
  - intros j v Hj HV. destruct (decide (j = i)) as [->|].
    + rewrite Hg2. f_equal. by apply Hx.
    + rewrite (get_byte_outside (p + i) (p + i + 1) h1) by (done || lia). apply Hv1; [lia|done].
Qed.

(** A heap whose blocks are all free is a single block. *)
Lemma all_free_single h bs :
  heap_rep h bs → coalesced bs → useds bs = [] → bs = [Blk false base HEAP_SIZE].
Proof.
  intros Hrep Hc Hu. pose proof (hr_tiled _ _ _ _ Hrep) as T.
  assert (Hall : ∀ b, b ∈ bs → used b = false).
  { intros b Hb. destruct (used b) eqn:Eb; [|done].
    assert (Hin : b ∈ useds bs) by by apply elem_of_useds. rewrite Hu in Hin.
    by apply elem_of_nil in Hin. }
  destruct bs as [|[u a s] [|c bs]].
  - simpl in T. unfold HEAP_SIZE in *. lia.
  - simpl in T. destruct T as (-> & _ & _ & E). pose proof (Hall _ (list_elem_of_here _ _)) as Eu.
    simpl in Eu. subst u. do 2 f_equal. lia.
  - rewrite coalesced_cons in Hc. destruct Hc as [[E|E] _].
    + rewrite Hall in E; [done|by left].
    + rewrite Hall in E; [done|right; by left].
Qed.

Lemma live_disjoint h bs live i j p n q m :
  heap_rep h bs → live_rep bs live → live !! i = Some (p, n) → live !! j = Some (q, m) → i ≠ j →
  p + n ≤ q ∨ q + m ≤ p.
Proof.
  intros Hrep (us & Hp & HF) Hi Hj Hne. pose proof (hr_tiled _ _ _ _ Hrep) as T.
  destruct (Forall2_lookup_l _ _ _ _ _ HF Hi) as (b & Hb & [E1 E2]).
  destruct (Forall2_lookup_l _ _ _ _ _ HF Hj) as (c & Hc & [E3 E4]). simpl in *.
  assert (HN : NoDup us).
  { rewrite Hp. apply NoDup_ListNoDup, List.NoDup_filter, NoDup_ListNoDup. by eapply tiled_NoDup. }
  assert (Hin : ∀ k x, us !! k = Some x → x ∈ bs).
  { intros k x Hx. assert (Hu : x ∈ useds bs) by (rewrite <- Hp; by eapply list_elem_of_lookup_2).
    by apply elem_of_useds in Hu as [? _]. }
  destruct (tiled_disjoint _ _ _ b c T) as [?|?]; [by eapply Hin|by eapply Hin| |lia|lia].
  intros ->. by pose proof (NoDup_lookup us i j c HN Hb Hc).
Qed.

Lemma live_bytes_ok h bs p n live :
  heap_rep h bs → live_rep bs live → (p, n) ∈ live →
  0 ≤ n ∧ base < p ∧ p + n ≤ base + HEAP_SIZE ∧ (p - base) mod 4 = 0.
Proof.
  intros Hrep Hl Hin. destruct (live_block _ _ _ _ Hl Hin) as (b & -> & Hn & Hb & _).
  pose proof (hr_tiled _ _ _ _ Hrep) as T. pose proof (tiled_elem _ _ _ _ T Hb).
  pose proof (tiled_mod _ _ _ _ T Hb) as Hm. split_and!; [lia|lia|lia|].
  replace (addr b + 4 - base) with (addr b - base + 1 * 4) by lia. by rewrite Z.mod_add.
Qed.

(** [realloc] of a held block [p] of [m] bytes, when [malloc] finds room. *)
Lemma realloc_moves h h1 bs1 p m n q live' :
  p ≠ 0 → 0 < n → malloc en base n h = Done (q, h1) → q ≠ 0 →
  heap_rep h1 bs1 → coalesced bs1 → live_rep bs1 ((q, n) :: (p, m) :: live') →
  if p + n <=? base + HEAP_SIZE
  then returns (realloc en base p n h) (λ '(r, h'), r = q ∧ heap_inv (h', (q, n) :: live') ∧
    (∀ i, 0 ≤ i < Z.min m n → get_byte base (q + i) h' = get_byte base (p + i) h1) ∧
    ∀ x k i, (x, k) ∈ live' → 0 ≤ i < k → get_byte base (x + i) h' = get_byte base (x + i) h1)
  else realloc en base p n h = Fault.
Proof.
  intros Hp Hn E Hq Hrep Hc Hl.
  assert (Hpb := live_bytes_ok h1 bs1 p m _ Hrep Hl ltac:(right; by left)).
  assert (Hqb := live_bytes_ok h1 bs1 q n _ Hrep Hl ltac:(by left)).
  assert (Hpq := live_disjoint h1 bs1 _ 1 0 p m q n Hrep Hl eq_refl eq_refl ltac:(done)).
  unfold realloc. destruct (Z.eqb_spec p 0), (Z.eqb_spec n 0); try lia.
  rewrite E. cbn [outcome_bind]. destruct (Z.eqb_spec q 0); [done|]. cbn [negb].
  destruct (Z.leb_spec (p + n) (base + HEAP_SIZE)) as [Hin|Hout].
  - apply returns_bind. eapply returns_mono.
    { apply (fill_loop h1 bs1 _ q n (λ i h, get_byte base (p + i) h)
        (λ i, if i <? m then match get_byte base (p + i) h1 with Done v => Some v | _ => None end
              else None) Hrep Hl ltac:(by left)).
      intros i h' Hi Ho. destruct (aread_in_range (heap h') (p + i - base)) as (v & Hv & E1);
        [rewrite (proj1 Ho), (hr_length _ _ _ _ Hrep); lia|].
      unfold get_byte at 1. rewrite E1. simpl. intros w. destruct (Z.ltb_spec i m); [|done].
      rewrite <- (get_byte_outside q (q + n) h1 h') by (done || lia).
      unfold get_byte. rewrite E1. congruence. }
    intros h2 (Hrep2 & Ho2 & Hv2). cbv beta. apply returns_bind.
    eapply returns_mono; [apply (free_live h2 bs1 _ p m ((q, n) :: live') Hrep2 Hc Hl);
      apply Permutation_swap|].
    intros h3 (bs3 & ? & ? & Hl3 & Hk). simpl. split_and!; [done|by exists bs3| |].
    + intros i Hi. rewrite (Hk q n) by (lia || by left).
      destruct (aread_in_range (heap h1) (p + i - base)) as (v & Hv & E1);
        [rewrite (hr_length _ _ _ _ Hrep); lia|]. unfold get_byte at 2. rewrite E1.
      apply Hv2; [lia|]. destruct (Z.ltb_spec i m); [|lia]. unfold get_byte. by rewrite E1.
    + intros x k i Hx Hi. rewrite (Hk x k) by (done || by right).
      apply list_elem_of_lookup in Hx as [j Hj].
      assert (Hxb := live_bytes_ok h1 bs1 x k _ Hrep Hl
        ltac:(by do 2 right; eapply list_elem_of_lookup_2)).
      destruct (live_disjoint h1 bs1 _ 0 (S (S j)) q n x k Hrep Hl eq_refl Hj);
        [done|rewrite (get_byte_outside q (q + n) h1) by (done || lia); done..].
  - set (k := base + HEAP_SIZE - p).
    erewrite (for_each_fault (λ i h', heap_rep h' bs1 ∧ length (heap h') = length (heap h1)) _ 0 k);
      [done|lia|done| |].
    + intros i h' Hi [Hr' HL']. destruct (aread_in_range (heap h') (p + i - base)) as (v & Hv & E1);
        [rewrite (hr_length _ _ _ _ Hr'); lia|]. unfold get_byte. rewrite E1. simpl.
      pose proof (store_live h' bs1 _ q n i v Hr' Hl ltac:(by left)) as Hs.
      destruct (set_byte_spec h' (q + i) v) as (h2 & E2 & Ho2 & _);
        [rewrite (hr_length _ _ _ _ Hr'); lia|]. rewrite E2 in *. simpl in *.
      split; [apply Hs; lia|]. by rewrite (proj1 Ho2).
    + intros h' [Hr' _]. unfold get_byte, aread. destruct (Z.ltb_spec (p + k - base) 0); [done|].
      rewrite lookup_ge_None_2; [done|]. pose proof (hr_length _ _ _ _ Hr'). lia.
Qed.

(** [realloc] of a held block. *)
Lemma realloc_live h p m live' n :
  heap_inv (h, (p, m) :: live') → 0 < n ≤ 2 ^ 31 - 8 →
  returns (malloc en base n h) (λ '(q, h1),
    if q =? 0 then h1 = h ∧ realloc en base p n h = Done (0, h)
    else if p + n <=? base + HEAP_SIZE
    then returns (realloc en base p n h) (λ '(r, h'), r = q ∧
      heap_inv (h', (q, n) :: live') ∧
      (∀ i, 0 ≤ i < Z.min m n → get_byte base (q + i) h' = get_byte base (p + i) h) ∧
      ∀ x k i, (x, k) ∈ live' → 0 ≤ i < k → get_byte base (x + i) h' = get_byte base (x + i) h)
    else realloc en base p n h = Fault).
Proof.
  intros (bs & Hrep & Hc & Hl) Hn. simpl in Hrep, Hl.
  destruct (live_bytes_ok h bs p m _ Hrep Hl ltac:(by left)) as (? & ? & _).
  pose proof (malloc_live h bs _ n Hrep Hc Hl Hn) as H1.
  pose proof (malloc_spec en base Hbase h bs n Hrep Hn) as H2.
  destruct (malloc en base n h) as [[q h1]| | | |] eqn:E; try done. simpl in *.
  destruct H1 as (bs1 & Hrep1 & Hc1 & Hl1 & _ & Hk).
  destruct (Z.eqb_spec q 0) as [->|Hq].
  - assert (h1 = h) as ->.
    { destruct (amalloc (round_size n) bs) as [[a bs']|] eqn:Ea; [|by destruct H2].
      destruct H2 as (Ha & Hrep' & _). destruct (amalloc_useds _ _ _ _ Ea) as (s & _ & Hp).
      assert (Hin : Blk true a s ∈ useds bs') by (rewrite Hp; by left).
      apply elem_of_useds in Hin as [Hin _].
      pose proof (tiled_elem _ _ _ _ (hr_tiled _ _ _ _ Hrep') Hin) as Hx. simpl in Hx. lia. }
    split; [done|]. unfold realloc. destruct (Z.eqb_spec p 0), (Z.eqb_spec n 0); try lia.
    by rewrite E.
  - pose proof (realloc_moves h h1 bs1 p m n q live'
      ltac:(lia) ltac:(lia) E Hq Hrep1 Hc1 Hl1) as Hm.
    destruct (p + n <=? base + HEAP_SIZE); [|done]. eapply returns_mono; [exact Hm|].
    intros [r h'] (-> & Hi & Hb & Ho). split_and!; [done|done| |].
    + intros i Hi'. rewrite Hb by done. apply (Hk p m); [by left|lia].
    + intros x k i Hx Hi'. rewrite (Ho x k) by done. apply (Hk x k); [by right|done].
Qed.

(** A store into a held block changes that byte only. *)
Lemma set_byte_live h p n live' i v :
  heap_inv (h, (p, n) :: live') → 0 ≤ i < n →
  returns (set_byte base (p + i) v h) (λ h', heap_inv (h', (p, n) :: live') ∧
    get_byte base (p + i) h' = Done v ∧
    (∀ j, 0 ≤ j < n → j ≠ i → get_byte base (p + j) h' = get_byte base (p + j) h) ∧
    ∀ x k j, (x, k) ∈ live' → 0 ≤ j < k → get_byte base (x + j) h' = get_byte base (x + j) h).
Proof.
  intros (bs & Hrep & Hc & Hl) Hi. simpl in Hrep, Hl.
  pose proof (store_live h bs _ p n i v Hrep Hl ltac:(by left) Hi) as Hs.
  destruct (live_bytes_ok h bs p n _ Hrep Hl ltac:(by left)) as (_ & Hlo & Hhi & _).
  destruct (set_byte_spec h (p + i) v) as (h2 & E & Ho & Hg); [rewrite (hr_length _ _ _ _ Hrep); lia|].
  rewrite E in *. simpl in *. split_and!; [by exists bs|done| |].
  - intros j Hj Hne. apply (get_byte_outside (p + i) (p + i + 1)); [done|lia|lia].
  - intros x k j Hx Hj. destruct (live_bytes_ok h bs x k _ Hrep Hl ltac:(by right)) as (_ & Hxlo & _).
    apply list_elem_of_lookup in Hx as [m Hm].
    destruct (live_disjoint h bs _ 0 (S m) p n x k Hrep Hl eq_refl Hm ltac:(done));
      apply (get_byte_outside (p + i) (p + i + 1)); done || lia.
Qed.

(** [calloc] is [malloc] with the block zeroed. *)
Lemma calloc_live h live nmemb sz :
  heap_inv (h, live) → 0 < nmemb * sz ≤ 2 ^ 31 - 8 →
  returns (calloc en base nmemb sz h) (λ '(p, h'),
    heap_inv (h', if p =? 0 then live else (p, nmemb * sz) :: live) ∧
    (p ≠ 0 → ∀ i, 0 ≤ i < nmemb * sz → get_byte base (p + i) h' = Done 0)).
Proof.
  intros (bs & Hrep & Hc & Hl) Hn. unfold calloc. rewrite u32_id by klia. apply returns_bind.
  eapply returns_mono; [by apply (malloc_live h bs live)|].
  intros [p h1] (bs1 & Hrep1 & Hc1 & Hl1 & _ & _). cbv beta iota.
  destruct (Z.eqb_spec p 0) as [->|Hp]; cbn [negb]; [by split; [exists bs1|]|].
  apply returns_bind.
  eapply returns_mono; [apply (fill_loop h1 bs1 _ p (nmemb * sz) (λ _ _, Done 0) (λ _, Some 0)
    Hrep1 Hl1 ltac:(by left)); intros; simpl; congruence|].
  intros h2 (Hrep2 & _ & Hv). cbn [returns]. destruct (Z.eqb_spec p 0); [done|].
  split; [by exists bs1|]. intros _ i Hi. by apply Hv.
Qed.
End client.
