(* ===== verification/UserHeapProps.v ===== *)
(** * Properties of the user heap (userland/lib.c) *)

From S2P Require Import Prelude Libc UserHeap UserHeapOps UserHeapClient.

Lemma round_size_huge n :
  2 ^ 31 ≤ n < 2 ^ 32 →
  (n ≤ 2 ^ 32 - 4 → n ≤ round_size n ≤ 2 ^ 32 - 4) ∧ (2 ^ 32 - 4 < n → round_size n = 0).
Proof.
  intros Hn. unfold round_size, MIN_ALLOC_SIZE. rewrite MAX_spec, Z.max_r by lia.
  pose proof (Z.mod_pos_bound n 4). pose proof (Z.div_mod n 4).
  destruct (Z.eqb_spec (n mod 4) 0); simpl; [lia|].
  rewrite <- Z.ldiff_land. change 3 with (Z.ones 2).
  rewrite Z.ldiff_ones_r, Z.shiftr_div_pow2, Z.shiftl_mul_pow2 by lia. change (2 ^ 2) with 4.
  split; intros.
  - rewrite u32_id by klia. lia.
  - replace (n / 4 * 4 + 4) with (2 ^ 32) by lia. done.
Qed.

Section properties.
Variables (en : endian) (base : Z).
Hypothesis Hbase : 0 < base ∧ base + HEAP_SIZE ≤ 2 ^ 32.

(** ** Properties *)

(** C34. In every state a program can reach from [heap_init] by requests of at
    most [2^31 - 8] bytes, frees of blocks it holds and stores into them: the
    blocks it holds lie inside the heap, word-aligned relative to it, and do not
    overlap; [malloc] and [free] return (no traversal leaves the heap or fails
    to end) and change no byte of a block that is held; and when all blocks have
    been freed the heap is whole again: a request of up to 252 bytes succeeds. *)
Theorem heap_history_safe h0 h1 h live :
  Z.of_nat (length (heap h0)) = HEAP_SIZE → heap_init en base h0 = Done h1 →
  rtc (heap_step en base) (h1, []) (h, live) →
  (∀ p n, (p, n) ∈ live → base < p ∧ p + n ≤ base + HEAP_SIZE ∧ (p - base) mod 4 = 0) ∧
  (∀ i j p n q m, live !! i = Some (p, n) → live !! j = Some (q, m) → i ≠ j →
     p + n ≤ q ∨ q + m ≤ p) ∧
  (∀ n, 0 < n ≤ 2 ^ 31 - 8 → returns (malloc en base n h) (λ '(p, h'),
     (live = [] → n ≤ 252 → p ≠ 0) ∧
     ∀ q m i, (q, m) ∈ live → 0 ≤ i < m → get_byte base (q + i) h' = get_byte base (q + i) h)) ∧
  (∀ p n live', live ≡ₚ (p, n) :: live' → returns (free en base p h) (λ h',
     ∀ q m i, (q, m) ∈ live' → 0 ≤ i < m → get_byte base (q + i) h' = get_byte base (q + i) h)).
Proof.
  intros HL E Hr. destruct (heap_reachable_inv en base Hbase _ _ _ HL E Hr) as (bs & Hrep & Hc & Hl).
  simpl in Hrep, Hl. split_and!.
  - intros p n Hin. apply (live_bytes_ok en base h bs p n live Hrep Hl Hin).
  - intros i j p n q m. by apply (live_disjoint en base h bs live).
  - intros n Hn. eapply returns_mono; [by apply (malloc_live en base Hbase h bs live n)|].
    intros [p h'] (_ & _ & _ & _ & H0 & Hk). split; [|done]. intros -> Hn2 ->.
    destruct Hl as (us & Hp & ->%Forall2_nil_inv_l). apply Permutation_nil_l in Hp.
    assert (Eb : bs = [Blk false base HEAP_SIZE]) by (by eapply all_free_single).
    destruct (round_size_spec n Hn) as (_ & Hm & _ & Hb).
    assert (round_size n ≤ 252).
    { pose proof (Z.div_mod (round_size n) 4). lia. }
    pose proof (proj1 H0 eq_refl (Blk false base HEAP_SIZE)) as Hx. simpl in Hx.
    unfold HEAP_SIZE in *. specialize (Hx ltac:(rewrite Eb; by left) eq_refl). lia.
  - intros p n live' HP. eapply returns_mono; [by apply (free_live en base Hbase h bs live p n live')|].
    by intros h' (_ & _ & _ & _ & Hk).
Qed.

(** [malloc] is first fit: it carves the request, rounded up to whole words
    and at least 8 bytes, from the end of the lowest free block with room for it
    and a size field (or takes the whole block when fewer than 12 bytes would
    remain), and answers NULL without a change exactly when no free block has
    room. *)
Theorem malloc_first_fit h bs n :
  heap_rep en base h bs → 0 < n ≤ 2 ^ 31 - 8 →
  n ≤ round_size n < Z.max 8 n + 4 ∧
  returns (malloc en base n h) (λ '(p, h'), match amalloc (round_size n) bs with
    | Some (a, bs') => p = a + 4 ∧ p ≠ 0 ∧ heap_rep en base h' bs'
    | None => p = 0 ∧ h' = h ∧ ∀ b, b ∈ bs → used b = false → size b < round_size n + 4
    end).
Proof.
  intros Hrep Hn. destruct (round_size_spec n Hn) as (_ & _ & ? & ?). split; [done|].
  eapply returns_mono; [by apply (malloc_spec en base Hbase h bs n)|]. intros [p h'].
  pose proof (amalloc_None (round_size n) bs) as HN.
  destruct (amalloc (round_size n) bs) as [[a bs']|] eqn:E; [|naive_solver].
  intros (-> & Hrep' & _). split_and!; [done| |done].
  destruct (amalloc_useds _ _ _ _ E) as (s & _ & Hp).
  assert (Hin : Blk true a s ∈ useds bs') by (rewrite Hp; by left).
  apply elem_of_useds in Hin as [Hin _].
  pose proof (tiled_elem _ _ _ _ (hr_tiled _ _ _ _ Hrep') Hin) as Ha. simpl in Ha. lia.
Qed.

(** [realloc] of a held block answers NULL and changes nothing when there is
    no room for the new size.  Otherwise it moves the contents: the new block
    starts with the bytes of the old one, up to the smaller size, the old block
    is given back and the bytes of all other blocks stay as they are; but only
    if as many bytes as the new size lie between the old block and the end of
    the heap: it always copies the new size, and reads past the heap otherwise. *)
Theorem realloc_correct h p m live' n :
  heap_inv en base (h, (p, m) :: live') → 0 < n ≤ 2 ^ 31 - 8 →
  returns (malloc en base n h) (λ '(q, h1),
    if q =? 0 then h1 = h ∧ realloc en base p n h = Done (0, h)
    else if p + n <=? base + HEAP_SIZE
    then returns (realloc en base p n h) (λ '(r, h'), r = q ∧
      heap_inv en base (h', (q, n) :: live') ∧
      (∀ i, 0 ≤ i < Z.min m n → get_byte base (q + i) h' = get_byte base (p + i) h) ∧
      ∀ x k i, (x, k) ∈ live' → 0 ≤ i < k → get_byte base (x + i) h' = get_byte base (x + i) h)
    else realloc en base p n h = Fault).
Proof. apply (realloc_live en base Hbase). Qed.

(** Requests near [2^32] are not refused: the sizes are compared after
    wrap-around, so on a fresh heap a request of [2^31 + 256] to [2^32 - 4] bytes
    makes [malloc] write a block header outside the heap, and a request of the
    last three sizes succeeds with the address of the end of the heap. *)
Theorem malloc_huge_request h n :
  heap_rep en base h [Blk false base HEAP_SIZE] → 2 ^ 31 + 256 ≤ n < 2 ^ 32 →
  if n <=? 2 ^ 32 - 4 then malloc en base n h = Fault
  else returns (malloc en base n h) (λ '(p, _), p = u32 (base + HEAP_SIZE)).
Proof.
  intros Hrep Hn. pose proof (hr_length _ _ _ _ Hrep) as HL.
  destruct (rep_middle en base h [] _ [] Hrep) as (_ & _ & _ & _ & _ & _ & _ & HS & _).
  pose proof (hr_seg _ _ _ _ Hrep) as (Ef & _). cbn [addr size] in *.
  destruct (round_size_huge n) as [Hr1 Hr2]; [lia|]. unfold malloc.
  destruct (Z.eqb_spec n 0); [lia|]. rewrite Ef. set (r := round_size n) in *. clearbody r.
  change heap_fuel with (S (Z.to_nat HEAP_SIZE)). cbn [while_loop].
  destruct (Z.eqb_spec base 0); [lia|]. rewrite HS. cbn [outcome_bind].
  unfold HEAP_SIZE, MIN_ALLOC_SIZE, sizeof_size_t in *. rewrite (s32_id (8 + 4)) by klia.
  unfold malloc_split, sizeof_size_t. destruct (Z.leb_spec n (2 ^ 32 - 4)) as [Hle|Hgt].
  - specialize (Hr1 Hle).
    assert (Es : s32 (256 - r - 4) = 2 ^ 32 + 252 - r)
      by (unfold s32; rewrite <- (Z.mod_add _ 1), Z.mod_small by lia; lia).
    assert (Eu : u32 (256 - (r + 4)) = 2 ^ 32 + 252 - r)
      by (unfold u32; rewrite <- (Z.mod_add _ 1), Z.mod_small by lia; lia).
    rewrite Es, Eu. destruct (Z.leb_spec (8 + 4) (2 ^ 32 + 252 - r)); [|lia].
    destruct (set_size_spec en base h base (2 ^ 32 + 252 - r)) as (h1 & -> & _ & Ho & _);
      [done|lia|unfold HEAP_SIZE; lia|klia|]. cbn [outcome_bind].
    unfold set_size at 1, store32. rewrite (proj1 Ho).
    assert (Hnb : u32 (base + (2 ^ 32 + 252 - r)) = base + (2 ^ 32 + 252 - r) ∨
                  u32 (base + (2 ^ 32 + 252 - r)) = base + 252 - r).
    { destruct (decide (base + (2 ^ 32 + 252 - r) < 2 ^ 32)); [left; apply u32_id; klia|right].
      unfold u32. rewrite <- (Z.mod_add _ (-1)), Z.mod_small; lia. }
    match goal with |- context [if ?c then _ else _] => replace c with false; [done|] end.
    symmetry. apply andb_false_iff. rewrite !Z.leb_gt. lia.
  - rewrite (Hr2 Hgt), s32_id by klia. cbn [Z.leb Z.compare].
    destruct (set_size_spec en base h base 252) as (h1 & E1 & _ & Ho & _);
      [done|lia|unfold HEAP_SIZE; lia|klia|].
    change (u32 (256 - (0 + 4))) with 252. rewrite E1. cbn [outcome_bind].
    rewrite (u32_id (base + 252)) by klia.
    destruct (set_size_spec en base h1 (base + 252) (u32 (0 + 4))) as (h2 & E2 & _);
      [by rewrite (proj1 Ho)|lia|unfold HEAP_SIZE; lia|by vm_compute|].
    rewrite E2. simpl. f_equal. lia.
Qed.
End properties.

(** ** Witnesses *)
Lemma demo_base : 0 < 4096 ∧ 4096 + HEAP_SIZE ≤ 2 ^ 32.
Proof. by vm_compute. Qed.

Definition demo_heap : heap_t := Heap 0 (replicate 256 0).
Definition fresh : heap_t :=
  match heap_init Big 4096 demo_heap with Done h => h | _ => demo_heap end.
(** After a request of 10 bytes. *)
Definition one_block : heap_t :=
  match malloc Big 4096 10 fresh with Done (_, h) => h | _ => fresh end.

Lemma fresh_init : heap_init Big 4096 demo_heap = Done fresh.
Proof. vm_compute. reflexivity. Qed.

Lemma one_block_malloc : malloc Big 4096 10 fresh = Done (4340, one_block).
Proof. vm_compute. reflexivity. Qed.

Lemma one_block_step : heap_step Big 4096 (fresh, []) (one_block, [(4340, 10)]).
Proof. apply (heap_malloc Big 4096 fresh [] 10 4340 one_block); [lia|apply one_block_malloc]. Qed.

Lemma fresh_rep : heap_rep Big 4096 fresh [Blk false 4096 HEAP_SIZE].
Proof.
  pose proof (heap_init_spec Big 4096 demo_heap eq_refl) as H. by rewrite fresh_init in H.
Qed.

Lemma one_block_inv : heap_inv Big 4096 (one_block, [(4340, 10)]).
Proof.
  apply (heap_reachable_inv Big 4096 demo_base demo_heap fresh _ eq_refl fresh_init).
  apply rtc_once, one_block_step.
Qed.

Lemma heap_history_safe_witness : 4096 < 4340 ∧ 4340 + 10 ≤ 4096 + HEAP_SIZE ∧ (4340 - 4096) mod 4 = 0.
Proof.
  exact (proj1 (heap_history_safe Big 4096 demo_base demo_heap fresh one_block [(4340, 10)]
    eq_refl fresh_init (rtc_once _ _ one_block_step)) 4340 10 (list_elem_of_here _ _)).
Defined.

Lemma ten_bytes : 0 < 10 ≤ 2 ^ 31 - 8.
Proof. lia. Qed.

Lemma malloc_first_fit_witness : 10 ≤ round_size 10 < Z.max 8 10 + 4.
Proof. exact (proj1 (malloc_first_fit Big 4096 demo_base fresh _ 10 fresh_rep ten_bytes)). Defined.

Lemma realloc_correct_witness :
  returns (malloc Big 4096 10 one_block) (λ '(q, h1),
    if q =? 0 then h1 = one_block ∧ realloc Big 4096 4340 10 one_block = Done (0, one_block)
    else if 4340 + 10 <=? 4096 + HEAP_SIZE
    then returns (realloc Big 4096 4340 10 one_block) (λ '(r, h'), r = q ∧
      heap_inv Big 4096 (h', [(q, 10)]) ∧
      (∀ i, 0 ≤ i < Z.min 10 10 → get_byte 4096 (q + i) h' = get_byte 4096 (4340 + i) one_block) ∧
      ∀ x k i, (x, k) ∈ [] → 0 ≤ i < k → get_byte 4096 (x + i) h' = get_byte 4096 (x + i) one_block)
    else realloc Big 4096 4340 10 one_block = Fault).
Proof. exact (realloc_correct Big 4096 demo_base one_block 4340 10 [] 10 one_block_inv ten_bytes). Defined.

Lemma huge_size : 2 ^ 31 + 256 ≤ 2 ^ 32 - 4 < 2 ^ 32.
Proof. lia. Qed.

Lemma malloc_huge_request_witness : malloc Big 4096 (2 ^ 32 - 4) fresh = Fault.
Proof. exact (malloc_huge_request Big 4096 demo_base fresh (2 ^ 32 - 4) fresh_rep huge_size). Defined.
