(* ===== verification/UserString.v ===== *)
(** * The string functions of user programs (userland/lib.c)

    A [char *] is the list of bytes from the pointer to the end of the object it
    points into, as in Libc.v; [size_t] is a natural number of at most 32 bits
    that no object of the machine reaches. *)

From S2P Require Import Prelude Libc.

(** ** The functions *)
Fixpoint strlen (s : list Z) : outcome Z :=
  match s with
  | [] => Fault
  | c :: s => if c =? 0 then Done 0 else let* i := strlen s in Done (i + 1)
  end.

Definition strcpy (dest src : list Z) : outcome (list Z) :=
  while_loop (S (length src)) (λ '(i, dest),
    let* c := aread src i in
    if negb (c =? 0) then
      let* dest := awrite dest i c in
      Done (inl (i + 1, dest))
    else
      let* dest := awrite dest i 0 in
      Done (inr dest)) (0, dest).

(** [for (i = 0; i < n && src[i] != '\0'; i++) dest[at + i] = src[i];] *)
Definition copy_text (dest : list Z) (at_ : Z) (src : list Z) (n : Z) : outcome (Z * list Z) :=
  while_loop (S (length src)) (λ '(i, dest),
    if i <? n then
      let* c := aread src i in
      if negb (c =? 0) then
        let* dest := awrite dest (at_ + i) c in
        Done (inl (i + 1, dest))
      else Done (inr (i, dest))
    else Done (inr (i, dest))) (0, dest).

Definition strncpy (dest src : list Z) (n : Z) : outcome (list Z) :=
  let* '(i, dest) := copy_text dest 0 src n in
  if i <? n then awrite dest i 0 else Done dest.

(** [strcpy(dest + strlen(dest), src)]. *)
Definition strcat (dest src : list Z) : outcome (list Z) :=
  let* l := strlen dest in
  let* tl := strcpy (drop (Z.to_nat l) dest) src in
  Done (take (Z.to_nat l) dest ++ tl).

Definition strncat (dest src : list Z) (n : Z) : outcome (list Z) :=
  let* dest_len := strlen dest in
  let* '(i, dest) := copy_text dest dest_len src n in
  awrite dest (dest_len + i) 0.

(** The test reads [s1[i]], and [s2[i]] if that is zero, before it looks at [n]. *)
Definition strncmp (s1 s2 : list Z) (n : Z) : outcome Z :=
  while_loop (S (length s1 + length s2)) (λ '(i, n),
    let* c1 := aread s1 i in
    let* more := if negb (c1 =? 0) then Done true
                 else let* c2 := aread s2 i in Done (negb (c2 =? 0)) in
    if more && (0 <? n) then
      let* c2 := aread s2 i in
      if s8 c1 <? s8 c2 then Done (inr (-1))
      else if s8 c2 <? s8 c1 then Done (inr 1)
      else Done (inl (i + 1, n - 1))
    else Done (inr 0)) (0, n).

Definition strcmp (s1 s2 : list Z) : outcome Z := strncmp s1 s2 0x7fffffff.

Definition memcmp (s1 s2 : list Z) (n : Z) : outcome Z :=
  let* r := for_loop 0 n (λ i (_ : unit),
    let* p1 := aread s1 i in
    let* p2 := aread s2 i in
    if negb (p1 =? p2) then Done (inr (p1 - p2)) else Done (inl tt)) tt in
  Done (match r with inr d => d | inl _ => 0 end).

(** The offset in [s1], or NULL. *)
Definition strstr (s1 s2 : list Z) : outcome (option Z) :=
  let* n := strlen s2 in
  while_loop (S (length s1)) (λ i,
    let* c := aread s1 i in
    if negb (c =? 0) then
      let* d := memcmp (drop (Z.to_nat i) s1) s2 n in
      if d =? 0 then Done (inr (Some i)) else Done (inl (i + 1))
    else Done (inr None)) 0.

Definition memset (s : list Z) (c n : Z) : outcome (list Z) :=
  for_each 0 n (λ i s, awrite s i (u8 c)) s.

Definition memcpy (dest src : list Z) (n : Z) : outcome (list Z) :=
  for_each 0 n (λ i dest, let* c := aread src i in awrite dest i c) dest.

Definition atoi (nptr : list Z) : outcome Z :=
  let* n := strlen nptr in
  let* r := for_loop 0 n (λ i retval,
    let* c := aread nptr i in
    if (s8 c <? 48) || (57 <? s8 c) then Done (inr retval)
    else Done (inl (s32 (retval * 10 + (s8 c - 48))))) 0 in
  Done (match r with inl v | inr v => v end).

(** ** Lengths and copies *)
Lemma ustrlen_spec mem s : cstr mem s → strlen mem = Done (Z.of_nat (length s)).
Proof.
  revert s. induction mem as [|c mem IH]; intros s Hs; [by apply cstr_not_nil in Hs|]. simpl.
  destruct (cstr_uncons _ _ _ Hs) as [[-> ->]|(Hc & s' & -> & Hs')]; [done|].
  rewrite (proj2 (Z.eqb_neq c 0)), (IH s') by done. cbn [outcome_bind length]. f_equal. lia.
Qed.

(** [l] written over the start of [dest]. *)
Definition over (dest l : list Z) : list Z := l ++ drop (length l) dest.

Lemma over_snoc dest l c : (length l < length dest)%nat →
  awrite (over dest l) (Z.of_nat (length l)) c = Done (over dest (l ++ [c])).
Proof.
  intros Hl. unfold over. destruct (lookup_lt_is_Some_2 dest (length l) Hl) as [x Hx].
  rewrite (drop_S _ _ _ Hx), (awrite_middle l _ x c) by done. rewrite <- (assoc_L (++)), length_app, Nat.add_1_r. done.
Qed.

Lemma length_over dest l : (length l ≤ length dest)%nat → length (over dest l) = length dest.
Proof. intros. unfold over. rewrite length_app, length_drop. lia. Qed.

Lemma strcpy_run src dest : ∀ s done_ fuel,
  cstr (drop (length done_) src) s → (length done_ + length s < length dest)%nat → (length s < fuel)%nat →
  while_loop fuel (λ '(i, dest),
    let* c := aread src i in
    if negb (c =? 0) then
      let* dest := awrite dest i c in
      Done (inl (i + 1, dest))
    else
      let* dest := awrite dest i 0 in
      Done (inr dest)) (Z.of_nat (length done_), over dest done_) = Done (over dest (done_ ++ s ++ [0])).
Proof.
  induction s as [|c s IH]; intros dn fuel [Hn [r E]] Hl Hf; (destruct fuel as [|fuel]; [simpl in Hf; lia|]);
    rewrite while_loop_S; simpl in E; rewrite (aread_drop _ _ _ _ E); cbn [outcome_bind length] in *.
  - cbn [Z.eqb negb]. rewrite over_snoc by lia. done.
  - apply not_elem_of_cons in Hn as [Hc Hn]. rewrite (proj2 (Z.eqb_neq c 0)) by done. cbn [negb].
    rewrite over_snoc by lia. cbn [outcome_bind].
    replace (Z.of_nat (length dn) + 1) with (Z.of_nat (length (dn ++ [c]))) by (rewrite length_app; simpl; lia).
    change (c :: s) with ([c] ++ s). rewrite <- (assoc_L (++)), (assoc_L (++) dn).
    apply IH; [|rewrite length_app; simpl; lia|lia]. split; [done|]. exists r.
    rewrite length_app, Nat.add_1_r. by apply drop_tail in E.
Qed.

Lemma strcpy_spec dest src s :
  cstr src s → (length s < length dest)%nat → strcpy dest src = Done (over dest (s ++ [0])).
Proof.
  intros Hs Hl. pose proof (cstr_length _ _ Hs). apply (strcpy_run src dest s []); [done|done|lia].
Qed.

(** The text that a copy of at most [n] characters takes from [src]. *)
Definition text_of (n : nat) (src s : list Z) : Prop :=
  0 ∉ s ∧ ((length s = n ∧ ∃ r, src = s ++ r) ∨ ((length s < n)%nat ∧ cstr src s)).

Lemma copy_run (src pre rest : list Z) n : ∀ (s dn : list Z) fuel,
  0 ∉ s → (length dn + length s ≤ n)%nat → (length dn + length s ≤ length rest)%nat →
  (length dn + length s = n ∧ (∃ r, drop (length dn) src = s ++ r) ∨
   length dn + length s < n ∧ (∃ r, drop (length dn) src = s ++ 0%Z :: r))%nat → (length s < fuel)%nat →
  while_loop fuel (λ '(i, dest),
    if i <? Z.of_nat n then
      let* c := aread src i in
      if negb (c =? 0) then
        let* dest := awrite dest (Z.of_nat (length pre) + i) c in
        Done (inl (i + 1, dest))
      else Done (inr (i, dest))
    else Done (inr (i, dest))) (Z.of_nat (length dn), pre ++ over rest dn) =
  Done (Z.of_nat (length (dn ++ s)), pre ++ over rest (dn ++ s)).
Proof.
  induction s as [|c s IH]; intros dn fuel Hn Hle Hl Hs Hf; (destruct fuel as [|fuel]; [simpl in Hf; lia|]);
    rewrite while_loop_S; cbn [length] in *.
  - rewrite app_nil_r. destruct Hs as [[E _]|[E (r & Er)]].
    + rewrite (proj2 (Z.ltb_ge _ _)) by lia. done.
    + rewrite (proj2 (Z.ltb_lt _ _)) by lia. simpl in Er. by rewrite (aread_drop _ _ _ _ Er).
  - rewrite (proj2 (Z.ltb_lt _ _)) by lia. apply not_elem_of_cons in Hn as [Hc Hn].
    assert (∃ r, drop (length dn) src = c :: r) as [r Er] by (destruct Hs as [[_ [r Er]]|[_ [r Er]]]; simpl in Er; eauto).
    rewrite (aread_drop _ _ _ _ Er). cbn [outcome_bind]. rewrite (proj2 (Z.eqb_neq c 0)) by done. cbn [negb].
    assert (Hw : awrite (pre ++ over rest dn) (Z.of_nat (length pre) + Z.of_nat (length dn)) c =
      Done (pre ++ over rest (dn ++ [c]))).
    { unfold over. destruct (lookup_lt_is_Some_2 rest (length dn)) as [x Hx]; [lia|].
      rewrite (drop_S _ _ _ Hx), (assoc_L (++) pre).
      rewrite (awrite_middle (pre ++ dn) _ x c) by (rewrite length_app; lia).
      by rewrite <- !(assoc_L (++)), length_app, Nat.add_1_r. }
    rewrite Hw. cbn [outcome_bind].
    replace (Z.of_nat (length dn) + 1) with (Z.of_nat (length (dn ++ [c]))) by (rewrite length_app; simpl; lia).
    change (c :: s) with ([c] ++ s). rewrite (assoc_L (++) dn).
    apply IH; rewrite ?length_app; cbn [length]; [done|lia|lia| |lia].
    rewrite Nat.add_1_r. destruct Hs as [[E [r' Er']]|[E [r' Er']]]; [left|right]; (split; [lia|exists r']);
      by apply drop_tail in Er'.
Qed.

Lemma text_length n src s : text_of n src s → (length s ≤ n)%nat ∧ (length s ≤ length src)%nat.
Proof.
  intros [_ [[E [r ->]]|[E Hs]]]; [rewrite length_app; lia|]. apply cstr_length in Hs. lia.
Qed.

Lemma copy_text_spec pre rest src s n :
  text_of n src s → (length s ≤ length rest)%nat →
  copy_text (pre ++ rest) (Z.of_nat (length pre)) src (Z.of_nat n) =
  Done (Z.of_nat (length s), pre ++ over rest s).
Proof.
  intros Ht Hl. destruct (text_length _ _ _ Ht) as [Hn Hsrc]. unfold copy_text.
  pose proof (copy_run src pre rest n s [] (S (length src))) as Hr. cbn [length app] in Hr.
  apply Hr; [apply Ht|lia|lia| |lia]. rewrite drop_0. destruct Ht as [_ [[E [r Er]]|[E [_ [r Er]]]]]; [left|right]; eauto.
Qed.

Lemma ustrncpy_spec dest src s n :
  text_of n src s → (length s ≤ length dest)%nat → (length s < n → length s < length dest)%nat →
  strncpy dest src (Z.of_nat n) = Done (over dest (if decide (length s < n)%nat then s ++ [0] else s)).
Proof.
  intros Ht Hl Hl'. destruct (text_length _ _ _ Ht) as [Hn _]. unfold strncpy.
  pose proof (copy_text_spec [] dest src s n Ht Hl) as E. cbn [length app] in E. change (Z.of_nat 0) with 0 in E.
  rewrite E. cbn [outcome_bind]. case_decide.
  - rewrite (proj2 (Z.ltb_lt _ _)) by lia. apply over_snoc. auto.
  - rewrite (proj2 (Z.ltb_ge _ _)) by lia. done.
Qed.

Lemma over_app dest l1 l2 : over dest (l1 ++ l2) = l1 ++ over (drop (length l1) dest) l2.
Proof. unfold over. by rewrite drop_drop, length_app, <- (assoc_L (++)). Qed.

Lemma strcat_spec dest src d s :
  cstr dest d → cstr src s → (length d + length s < length dest)%nat →
  strcat dest src = Done (over dest (d ++ s ++ [0])).
Proof.
  intros Hd Hs Hl. unfold strcat. rewrite (ustrlen_spec _ _ Hd). cbn [outcome_bind]. rewrite Nat2Z.id.
  rewrite (strcpy_spec _ _ _ Hs) by (rewrite length_drop; lia). cbn [outcome_bind].
  rewrite (over_app dest). destruct Hd as [_ [r ->]]. by rewrite take_app_length.
Qed.

Lemma strncat_spec dest src d s n :
  cstr dest d → text_of n src s → (length d + length s < length dest)%nat →
  strncat dest src (Z.of_nat n) = Done (over dest (d ++ s ++ [0])).
Proof.
  intros Hd Ht Hl. unfold strncat. rewrite (ustrlen_spec _ _ Hd). cbn [outcome_bind].
  assert (Ed : dest = d ++ drop (length d) dest) by (destruct Hd as [_ [r ->]]; by rewrite drop_app_length).
  rewrite Ed at 1. rewrite (copy_text_spec d _ src s n Ht) by (rewrite length_drop; lia). cbn [outcome_bind].
  rewrite <- over_app. rewrite <- Nat2Z.inj_add, <- length_app.
  rewrite over_snoc by (rewrite length_app; lia). by rewrite <- (assoc_L (++)).
Qed.

(** ** Comparing *)
Fixpoint order (s1 s2 : list Z) : Z :=
  let c1 := default 0 (head s1) in
  let c2 := default 0 (head s2) in
  if s8 c1 <? s8 c2 then -1 else if s8 c2 <? s8 c1 then 1
  else match s1, s2 with _ :: s1, _ :: s2 => order s1 s2 | _, _ => 0 end.

(** [s1] has the smaller character, as a signed one, at the first difference;
    the terminating zero counts. *)
Definition before (s1 s2 : list Z) : Prop :=
  ∃ p c1 c2 r1 r2, s1 ++ [0] = p ++ c1 :: r1 ∧ s2 ++ [0] = p ++ c2 :: r2 ∧ s8 c1 < s8 c2.

Definition text (s : list Z) : Prop := Forall is_u8 s ∧ 0 ∉ s.

Lemma text_cons c s : text (c :: s) → is_u8 c ∧ c ≠ 0 ∧ text s.
Proof. intros [[Hc Hs]%Forall_cons [Hn Hns]%not_elem_of_cons]. by split_and!. Qed.

Lemma text_take n s : text s → text (take n s).
Proof. intros [Hs Hn]. split; [by apply Forall_take|]. intros (i & Hi & _)%elem_of_take. apply Hn. by eapply list_elem_of_lookup_2. Qed.

Lemma s8_ne c1 c2 : is_u8 c1 → is_u8 c2 → c1 ≠ c2 → s8 c1 ≠ s8 c2.
Proof. intros H1 H2 Hne E. by apply Hne, s8_inj. Qed.

Lemma order_sym s1 s2 : order s2 s1 = - order s1 s2.
Proof.
  revert s2. induction s1 as [|c1 s1 IH]; intros [|c2 s2]; simpl;
    destruct (Z.ltb_spec (s8 c1) (s8 c2)) || destruct (Z.ltb_spec (s8 0) (s8 c2)) || destruct (Z.ltb_spec (s8 c1) (s8 0)) || idtac;
    repeat case_match; try lia; done.
Qed.

Lemma order_zero s1 s2 : text s1 → text s2 → order s1 s2 = 0 ↔ s1 = s2.
Proof.
  revert s2. induction s1 as [|c1 s1 IH]; intros s2 H1 H2.
  - destruct s2 as [|c2 s2]; [done|]. apply text_cons in H2 as (Hu & Hc & _).
    pose proof (s8_ne c2 0 Hu ltac:(done) Hc). simpl.
    destruct (Z.ltb_spec (s8 0) (s8 c2)), (Z.ltb_spec (s8 c2) (s8 0)); done || lia.
  - apply text_cons in H1 as (Hu1 & Hc1 & H1). destruct s2 as [|c2 s2]; simpl.
    + pose proof (s8_ne c1 0 Hu1 ltac:(done) Hc1).
      destruct (Z.ltb_spec (s8 c1) (s8 0)), (Z.ltb_spec (s8 0) (s8 c1)); done || lia.
    + apply text_cons in H2 as (Hu2 & Hc2 & H2). destruct (decide (c1 = c2)) as [->|Hne].
      * rewrite Z.ltb_irrefl, IH by done. naive_solver.
      * pose proof (s8_ne c1 c2 Hu1 Hu2 Hne).
        destruct (Z.ltb_spec (s8 c1) (s8 c2)), (Z.ltb_spec (s8 c2) (s8 c1)); try lia; naive_solver.
Qed.

Lemma before_cons c1 c2 s1 s2 :
  before (c1 :: s1) (c2 :: s2) ↔ s8 c1 < s8 c2 ∨ (c1 = c2 ∧ before s1 s2).
Proof.
  split.
  - intros ([|x p] & a & b & r1 & r2 & E1 & E2 & Hlt); simpl in *; simplify_eq; [by left|right].
    split; [done|]. by exists p, a, b, r1, r2.
  - intros [Hlt|(-> & p & a & b & r1 & r2 & E1 & E2 & Hlt)].
    + by exists [], c1, c2, (s1 ++ [0]), (s2 ++ [0]).
    + exists (c2 :: p), a, b, r1, r2. simpl. by rewrite E1, E2.
Qed.

Lemma before_nil s : before [] s ↔ s8 0 < s8 (default 0 (head s)).
Proof.
  split.
  - intros ([|x p] & a & b & r1 & r2 & E1 & E2 & Hlt); simpl in *; simplify_eq.
    + by destruct s; simpl in *; simplify_eq.
    + by destruct p.
  - intros Hlt. destruct s as [|c s]; [simpl in Hlt; lia|]. by exists [], 0, c, [], (s ++ [0]).
Qed.

Lemma before_nil_r s : before s [] ↔ s8 (default 0 (head s)) < s8 0.
Proof.
  split.
  - intros ([|x p] & a & b & r1 & r2 & E1 & E2 & Hlt); simpl in *; simplify_eq.
    + by destruct s; simpl in *; simplify_eq.
    + by destruct p.
  - intros Hlt. destruct s as [|c s]; [simpl in Hlt; lia|]. by exists [], c, 0, (s ++ [0]), [].
Qed.

Lemma order_before s1 s2 : text s1 → text s2 → order s1 s2 = -1 ↔ before s1 s2.
Proof.
  revert s2. induction s1 as [|c1 s1 IH]; intros s2 H1 H2.
  - rewrite before_nil. destruct s2 as [|c2 s2]; simpl; repeat case_match; naive_solver lia.
  - destruct s2 as [|c2 s2]; [rewrite before_nil_r; simpl; repeat case_match; naive_solver lia|].
    apply text_cons in H1 as (Hu1 & _ & H1), H2 as (Hu2 & _ & H2). rewrite before_cons, <- IH by done. simpl.
    destruct (Z.ltb_spec (s8 c1) (s8 c2)); [naive_solver|].
    destruct (Z.ltb_spec (s8 c2) (s8 c1)); [naive_solver lia|].
    assert (c1 = c2) as -> by (apply s8_inj; [done|done|lia]). naive_solver lia.
Qed.

Lemma strncmp_run m1 m2 : ∀ s1 s2 i n fuel,
  cstr (drop i m1) s1 → cstr (drop i m2) s2 → text s1 → text s2 → (length s1 + length s2 < fuel)%nat →
  while_loop fuel (λ '(i, n),
    let* c1 := aread m1 i in
    let* more := if negb (c1 =? 0) then Done true
                 else let* c2 := aread m2 i in Done (negb (c2 =? 0)) in
    if more && (0 <? n) then
      let* c2 := aread m2 i in
      if s8 c1 <? s8 c2 then Done (inr (-1))
      else if s8 c2 <? s8 c1 then Done (inr 1)
      else Done (inl (i + 1, n - 1))
    else Done (inr 0)) (Z.of_nat i, Z.of_nat n) = Done (order (take n s1) (take n s2)).
Proof.
  induction s1 as [|x1 s1 IH]; intros s2 i n fuel H1 H2 T1 T2 Hf; (destruct fuel as [|fuel]; [simpl in Hf; lia|]);
    rewrite while_loop_S; destruct H1 as [Hn1 [r1 E1]], H2 as [Hn2 [r2 E2]]; simpl in E1;
    rewrite (aread_drop _ _ _ _ E1); cbn [outcome_bind].
  - cbn [Z.eqb negb]. destruct s2 as [|x2 s2]; simpl in E2; rewrite (aread_drop _ _ _ _ E2); cbn [outcome_bind].
    { by destruct n. }
    apply text_cons in T2 as (Hu & Hc & _). pose proof (s8_ne x2 0 Hu ltac:(done) Hc).
    rewrite (proj2 (Z.eqb_neq x2 0)) by done. cbn [negb andb]. destruct n as [|n]; [done|].
    rewrite (proj2 (Z.ltb_lt 0 _)) by lia. simpl take. simpl order.
    destruct (Z.ltb_spec (s8 0) (s8 x2)); [done|]. destruct (Z.ltb_spec (s8 x2) (s8 0)); [done|lia].
  - apply text_cons in T1 as (Hu1 & Hc1 & T1). rewrite (proj2 (Z.eqb_neq x1 0)) by done. cbn [negb outcome_bind andb].
    destruct n as [|n]; [done|]. rewrite (proj2 (Z.ltb_lt 0 _)) by lia.
    destruct s2 as [|x2 s2]; simpl in E2; rewrite (aread_drop _ _ _ _ E2); cbn [outcome_bind]; simpl take; simpl order.
    + pose proof (s8_ne x1 0 Hu1 ltac:(done) Hc1).
      destruct (Z.ltb_spec (s8 x1) (s8 0)); [done|]. destruct (Z.ltb_spec (s8 0) (s8 x1)); [done|lia].
    + apply text_cons in T2 as (Hu2 & Hc2 & T2). destruct (s8 x1 <? s8 x2); [done|].
      destruct (s8 x2 <? s8 x1); [done|]. cbn [outcome_bind].
      apply not_elem_of_cons in Hn1 as [_ Hn1], Hn2 as [_ Hn2].
      replace (Z.of_nat i + 1) with (Z.of_nat (S i)) by lia. replace (Z.of_nat (S n) - 1) with (Z.of_nat n) by lia.
      apply IH; [split; [done|]|split; [done|]|done|done|simpl in Hf; lia].
      * exists r1. by apply drop_tail in E1.
      * exists r2. by apply drop_tail in E2.
Qed.

Lemma strncmp_spec m1 m2 s1 s2 n :
  cstr m1 s1 → cstr m2 s2 → text s1 → text s2 →
  strncmp m1 m2 (Z.of_nat n) = Done (order (take n s1) (take n s2)).
Proof.
  intros H1 H2 T1 T2. pose proof (cstr_length _ _ H1). pose proof (cstr_length _ _ H2).
  apply (strncmp_run m1 m2 s1 s2 0 n); try done. lia.
Qed.

(** The first different bytes of two memories, within [n]. *)
Fixpoint byte_order (n : nat) (l1 l2 : list Z) : outcome Z :=
  match n with
  | O => Done 0
  | S n =>
      match l1, l2 with
      | x :: l1, y :: l2 => if x =? y then byte_order n l1 l2 else Done (x - y)
      | _, _ => Fault
      end
  end.

Lemma memcmp_run s1 s2 n : ∀ i,
  (let* r := for_from n (Z.of_nat i) (λ i (_ : unit),
    let* p1 := aread s1 i in
    let* p2 := aread s2 i in
    if negb (p1 =? p2) then Done (inr (p1 - p2)) else Done (inl tt)) tt in
  Done (match r with inr d => d | inl _ => 0 end)) = byte_order n (drop i s1) (drop i s2).
Proof.
  induction n as [|n IH]; intros i; [done|]. cbn [for_from byte_order].
  assert (Hout : ∀ l : list Z, drop i l = [] → aread l (Z.of_nat i) = Fault).
  { intros l El. unfold aread. rewrite (proj2 (Z.ltb_ge _ _)), Nat2Z.id by lia.
    rewrite <- (Nat.add_0_r i), <- lookup_drop, El. done. }
  destruct (drop i s1) as [|x l1] eqn:E1; [by rewrite (Hout _ E1)|]. rewrite (aread_drop _ _ _ _ E1). cbn [outcome_bind].
  destruct (drop i s2) as [|y l2] eqn:E2; [by rewrite (Hout _ E2)|]. rewrite (aread_drop _ _ _ _ E2). cbn [outcome_bind].
  destruct (x =? y); cbn [negb]; [|done]. replace (Z.of_nat i + 1) with (Z.of_nat (S i)) by lia.
  rewrite IH. by rewrite (drop_tail _ _ _ _ E1), (drop_tail _ _ _ _ E2).
Qed.

Lemma memcmp_byte_order s1 s2 n : memcmp s1 s2 (Z.of_nat n) = byte_order n s1 s2.
Proof.
  unfold memcmp, for_loop. rewrite Z.sub_0_r, Nat2Z.id. exact (memcmp_run s1 s2 n 0).
Qed.

Lemma byte_order_spec n l1 l2 :
  (n ≤ length l1)%nat → (n ≤ length l2)%nat →
  returns (byte_order n l1 l2) (λ d,
    (d = 0 ∧ take n l1 = take n l2) ∨
    (d ≠ 0 ∧ ∃ p x y r1 r2, l1 = p ++ x :: r1 ∧ l2 = p ++ y :: r2 ∧ (length p < n)%nat ∧ d = x - y)).
Proof.
  revert l1 l2. induction n as [|n IH]; intros l1 l2 H1 H2; [by left|].
  destruct l1 as [|x l1], l2 as [|y l2]; simpl in *; try lia. destruct (Z.eqb_spec x y) as [->|Hne].
  - eapply returns_mono; [apply IH; lia|]. intros d [[-> E]|[Hd (p & a & b & r1 & r2 & -> & -> & Hp & Ed)]]; [left|right].
    + by rewrite E.
    + split; [done|]. exists (y :: p), a, b, r1, r2. simpl. split_and!; [done|done|lia|done].
  - right. split; [lia|]. exists [], x, y, l1, l2. simpl. split_and!; [done|done|lia|done].
Qed.

(** Against a string that may end first. *)
Lemma byte_order_prefix m1 m2 s1 s2 :
  cstr m1 s1 → cstr m2 s2 →
  returns (byte_order (length s2) m1 m2) (λ d, d = 0 ↔ s2 `prefix_of` s1).
Proof.
  intros H1 H2. revert m1 m2 s1 H1 H2. induction s2 as [|c s2 IH]; intros m1 m2 s1 H1 H2.
  { simpl. split; [intros _; apply prefix_nil|done]. }
  destruct H2 as [[Hc Hn2]%not_elem_of_cons [r2 ->]]. cbn [length byte_order app].
  destruct H1 as [Hn1 [r1 ->]]. destruct s1 as [|x s1]; cbn [app].
  - rewrite (proj2 (Z.eqb_neq 0 c)) by done. simpl. split; [lia|]. intros H. by apply prefix_nil_not in H.
  - destruct (Z.eqb_spec x c) as [->|Hne].
    + apply not_elem_of_cons in Hn1 as [_ Hn1]. eapply returns_mono; [apply (IH _ _ s1); (split; [done|by eexists])|].
      simpl. intros d ->. split; [apply prefix_cons|apply prefix_cons_inv_2].
    + simpl. split; [lia|]. intros H. by apply prefix_cons_inv_1 in H.
Qed.

Lemma cstr_drop m s i : cstr m s → (i ≤ length s)%nat → cstr (drop i m) (drop i s).
Proof.
  intros [Hn [r ->]] Hi. split.
  - intros Hin. apply Hn. apply list_elem_of_lookup_1 in Hin as (j & Hj). rewrite lookup_drop in Hj.
    by eapply list_elem_of_lookup_2.
  - exists r. by rewrite drop_app_le.
Qed.

Lemma strstr_spec m1 m2 s1 s2 :
  cstr m1 s1 → cstr m2 s2 →
  returns (strstr m1 m2) (λ r,
    match r with
    | Some i => ∃ n, i = Z.of_nat n ∧ (n < length s1)%nat ∧ s2 `prefix_of` drop n s1 ∧
        ∀ j, (j < n)%nat → ¬ s2 `prefix_of` drop j s1
    | None => ∀ j, (j < length s1)%nat → ¬ s2 `prefix_of` drop j s1
    end).
Proof.
  intros H1 H2. unfold strstr. rewrite (ustrlen_spec _ _ H2). cbn [outcome_bind].
  pose proof (cstr_length _ _ H1) as Hl.
  apply (while_loop_inv (λ i, ∃ n, i = Z.of_nat n ∧ (n ≤ length s1)%nat ∧
      ∀ j, (j < n)%nat → ¬ s2 `prefix_of` drop j s1) (λ i, (length s1 - Z.to_nat i)%nat)).
  - exists 0%nat. split_and!; [done|lia|lia].
  - lia.
  - intros i (n & -> & Hn & Hno). destruct (cstr_drop _ _ n H1 Hn) as [Hn0 [r Er]].
    destruct (drop n s1) as [|c s] eqn:Es; simpl in Er; rewrite (aread_drop _ _ _ _ Er); cbn [outcome_bind].
    + cbn [Z.eqb negb returns]. intros j Hj. apply Hno.
      apply (f_equal length) in Es. rewrite length_drop in Es. simpl in Es. lia.
    + assert (Hc : c ≠ 0) by set_solver. rewrite (proj2 (Z.eqb_neq c 0)) by done. cbn [negb]. rewrite Nat2Z.id.
      assert (Hlt : (n < length s1)%nat).
      { apply (f_equal length) in Es. rewrite length_drop in Es. simpl in Es. lia. }
      rewrite memcmp_byte_order. eapply returns_bind, returns_mono.
      { apply (byte_order_prefix _ _ (drop n s1) s2); [|done]. apply cstr_drop; [done|lia]. }
      intros d Hd. rewrite Es in Hd. destruct (Z.eqb_spec d 0) as [E|E]; cbn [returns].
      * exists n. split_and!; [done|done|rewrite Es; by apply Hd|done].
      * split; [|lia]. exists (S n). split_and!; [lia|lia|]. intros j Hj. destruct (decide (j = n)) as [->|].
        { rewrite Es. naive_solver. }
        apply Hno. lia.
Qed.

Lemma memset_spec s c n :
  (n ≤ length s)%nat → memset s c (Z.of_nat n) = Done (replicate n (u8 c) ++ drop n s).
Proof.
  intros Hn. unfold memset.
  assert (Hr : returns (for_each 0 (Z.of_nat n) (λ i s, awrite s i (u8 c)) s)
    (λ t, t = replicate (Z.to_nat (Z.of_nat n)) (u8 c) ++ drop (Z.to_nat (Z.of_nat n)) s)).
  { apply (for_each_inv (λ i t, t = replicate (Z.to_nat i) (u8 c) ++ drop (Z.to_nat i) s)); [lia|done|].
    intros j t Hj ->. destruct (lookup_lt_is_Some_2 s (Z.to_nat j)) as [x Hx]; [lia|].
    rewrite (drop_S _ _ _ Hx), (awrite_middle _ _ x) by (rewrite length_replicate; lia). cbn [returns].
    replace (Z.to_nat (j + 1)) with (Z.to_nat j + 1)%nat by lia.
    by rewrite replicate_add, <- (assoc_L (++)), Nat.add_1_r. }
  destruct (for_each _ _ _ _); try done. simpl in Hr. by rewrite Hr, Nat2Z.id.
Qed.

(** [atoi] reads the digits a text starts with, when they fit an [int]. *)
Lemma user_atoi_spec mem ds r :
  cstr mem (ds ++ r) → Forall is_digit ds → match r with c :: _ => is_u8 c ∧ ¬ is_digit c | [] => True end →
  digits_value ds < 2 ^ 31 → atoi mem = Done (digits_value ds).
Proof.
  intros Hc Hds Hr Hv. unfold atoi. rewrite (ustrlen_spec _ _ Hc). cbn [outcome_bind].
  set (Inv := λ j v, j ≤ Z.of_nat (length ds) ∧ v = digits_value (take (Z.to_nat j) ds)).
  assert (Hloop : returns (for_loop 0 (Z.of_nat (length (ds ++ r))) (λ i retval,
      let* c := aread mem i in
      if (s8 c <? 48) || (57 <? s8 c) then Done (inr retval)
      else Done (inl (s32 (retval * 10 + (s8 c - 48))))) 0)
    (λ x, match x with inl v => Inv (Z.of_nat (length (ds ++ r))) v | inr v => v = digits_value ds end)).
  { apply (for_loop_inv Inv); [lia|split; [lia|done]|]. intros j v Hj [Hle ->].
    rewrite length_app in Hj. destruct (lookup_lt_is_Some_2 (ds ++ r) (Z.to_nat j)) as [c Hcj];
      [rewrite length_app; lia|].
    rewrite (aread_Some mem j c); [|lia|by rewrite (cstr_lookup _ _ _ Hc) by (apply lookup_lt_Some in Hcj; lia)].
    cbn [outcome_bind]. destruct (decide (j < Z.of_nat (length ds))) as [Hlt|Hge].
    - rewrite lookup_app_l in Hcj by lia. pose proof (proj1 (Forall_lookup _ _) Hds _ _ Hcj) as Hd.
      unfold is_digit in Hd. rewrite s8_spec by klia. destruct (Z.ltb_spec c 128); [|lia].
      destruct (Z.ltb_spec c 48), (Z.ltb_spec 57 c); try lia. cbn [orb returns]. split; [lia|].
      replace (Z.to_nat (j + 1)) with (S (Z.to_nat j)) by lia. rewrite (take_S_r _ _ _ Hcj).
      unfold digits_value in *. rewrite fold_left_app. cbn [fold_left].
      assert (Hb : 0 ≤ fold_left (λ v c, 10 * v + (c - 48)) (take (Z.to_nat j) ds) 0)
        by (apply (digits_fold_mono _ 0); [by apply Forall_take|lia]).
      assert (fold_left (λ v c, 10 * v + (c - 48)) (take (S (Z.to_nat j)) ds) 0 < 2 ^ 31).
      { eapply Z.le_lt_trans; [|exact Hv]. rewrite <- (take_drop (S (Z.to_nat j)) ds) at 2.
        rewrite fold_left_app. apply digits_fold_mono; [by apply Forall_drop|].
        apply (digits_fold_mono _ 0); [by apply Forall_take|lia]. }
      rewrite (take_S_r _ _ _ Hcj), fold_left_app in *. cbn [fold_left] in *.
      rewrite s32_id by klia. lia.
    - assert (Z.to_nat j = length ds) as Ej by lia. rewrite Ej, lookup_app_r, Nat.sub_diag in Hcj by lia.
      destruct r as [|c' r]; [done|]. injection Hcj as ->. destruct Hr as [Hu Hnd]. rewrite Ej, firstn_all.
      rewrite s8_spec by done. unfold is_digit in Hnd.
      destruct (Z.ltb_spec c 128), (Z.ltb_spec c 48), (Z.ltb_spec 57 c), (Z.ltb_spec (c - 256) 48); klia || done. }
  apply returns_inv in Hloop as (x & -> & Hx). cbn [outcome_bind]. f_equal.
  destruct x as [v|v]; [|done]. destruct Hx as [Hle ->]. rewrite length_app in *.
  by rewrite take_ge by lia.
Qed.

(** ** Properties *)

(** On strings that fit, the copying functions write exactly the text they
    are to write, and leave the rest of the destination: [strcpy] and [strcat] all
    of the source with its terminator; [strncpy] at most [n] characters, with a
    terminator only if there were fewer; [strncat] at most [n] characters behind
    the string in the destination, always with a terminator. *)
Theorem string_copies_correct dest src d s n :
  cstr dest d → text_of n src s →
  strlen dest = Done (Z.of_nat (length d)) ∧
  (cstr src s → (length s < length dest)%nat → strcpy dest src = Done (over dest (s ++ [0]))) ∧
  (cstr src s → (length d + length s < length dest)%nat →
    strcat dest src = Done (over dest (d ++ s ++ [0]))) ∧
  ((length s ≤ length dest)%nat → (length s < n → length s < length dest)%nat →
    strncpy dest src (Z.of_nat n) = Done (over dest (if decide (length s < n)%nat then s ++ [0] else s))) ∧
  ((length d + length s < length dest)%nat →
    strncat dest src (Z.of_nat n) = Done (over dest (d ++ s ++ [0]))).
Proof.
  intros Hd Ht. split; [by apply ustrlen_spec|]. split; [by apply strcpy_spec|].
  split; [intros; by apply strcat_spec|]. split; [by apply ustrncpy_spec|]. intros. by apply strncat_spec.
Qed.

(** C37. [strcmp] and [strncmp] return on strings: 0 exactly for equal texts (equal
    in the first [n] characters), -1 exactly when the first text has the smaller
    character, as a signed one, at the first difference, 1 exactly when the second
    one has; exchanging the strings changes the sign. *)
Theorem string_comparison_correct m1 m2 s1 s2 n :
  cstr m1 s1 → cstr m2 s2 → text s1 → text s2 →
  Z.of_nat (length s1) < 0x7fffffff → Z.of_nat (length s2) < 0x7fffffff →
  returns (strncmp m1 m2 (Z.of_nat n)) (λ r,
    (r = 0 ↔ take n s1 = take n s2) ∧ (r = -1 ↔ before (take n s1) (take n s2)) ∧
    (r = 1 ↔ before (take n s2) (take n s1)) ∧ strncmp m2 m1 (Z.of_nat n) = Done (- r)) ∧
  returns (strcmp m1 m2) (λ r,
    (r = 0 ↔ s1 = s2) ∧ (r = -1 ↔ before s1 s2) ∧ (r = 1 ↔ before s2 s1) ∧ strcmp m2 m1 = Done (- r)).
Proof.
  intros H1 H2 T1 T2 L1 L2.
  assert (Hgen : ∀ n, returns (strncmp m1 m2 (Z.of_nat n)) (λ r,
    (r = 0 ↔ take n s1 = take n s2) ∧ (r = -1 ↔ before (take n s1) (take n s2)) ∧
    (r = 1 ↔ before (take n s2) (take n s1)) ∧ strncmp m2 m1 (Z.of_nat n) = Done (- r))).
  { intros k. pose proof (text_take k _ T1). pose proof (text_take k _ T2).
    rewrite (strncmp_spec m1 m2 s1 s2 k), (strncmp_spec m2 m1 s2 s1 k) by done. cbn [returns].
    rewrite order_zero, order_before by done. split_and!; [done|done| |by rewrite order_sym].
    rewrite <- order_before, order_sym by done. lia. }
  split; [apply Hgen|]. specialize (Hgen (Z.to_nat 0x7fffffff)). rewrite Z2Nat.id, !take_ge in Hgen by lia.
  exact Hgen.
Qed.

(** [memcmp] on objects of at least [n] bytes answers 0 when the first [n]
    bytes agree and else the difference of the first bytes that differ; [memset]
    and [memcpy] write exactly the first [n] bytes. *)
Theorem memory_functions_correct s1 s2 c n :
  (n ≤ length s1)%nat → (n ≤ length s2)%nat →
  returns (memcmp s1 s2 (Z.of_nat n)) (λ d,
    (d = 0 ∧ take n s1 = take n s2) ∨
    (d ≠ 0 ∧ ∃ p x y r1 r2, s1 = p ++ x :: r1 ∧ s2 = p ++ y :: r2 ∧ (length p < n)%nat ∧ d = x - y)) ∧
  memset s1 c (Z.of_nat n) = Done (replicate n (u8 c) ++ drop n s1) ∧
  memcpy s1 s2 (Z.of_nat n) = Done (take n s2 ++ drop n s1).
Proof.
  intros H1 H2. split; [rewrite memcmp_byte_order; by apply byte_order_spec|].
  split; [by apply memset_spec|by apply copy_loop_spec].
Qed.

(** [strstr] returns the first place at which the second text occurs in the
    first, or NULL when there is none, without reading past the ends.  In the empty
    text it finds nothing, not even the empty text. *)
Theorem strstr_correct m1 m2 s1 s2 :
  cstr m1 s1 → cstr m2 s2 →
  returns (strstr m1 m2) (λ r,
    match r with
    | Some i => ∃ n, i = Z.of_nat n ∧ (n < length s1)%nat ∧ s2 `prefix_of` drop n s1 ∧
        ∀ j, (j < n)%nat → ¬ s2 `prefix_of` drop j s1
    | None => ∀ j, (j < length s1)%nat → ¬ s2 `prefix_of` drop j s1
    end) ∧
  (s1 = [] → strstr m1 m2 = Done None).
Proof.
  intros H1 H2. split; [by apply strstr_spec|]. intros ->.
  destruct (returns_inv _ _ (strstr_spec _ _ _ _ H1 H2)) as ([i|] & E & Hr); [|done].
  destruct Hr as (n & _ & Hn & _). simpl in Hn. lia.
Qed.

(** [strncmp] looks at one character more than it is asked to compare: on
    buffers of [n] equal characters without a terminator it reads past their end. *)
Theorem strncmp_reads_too_far s : text s → strncmp s s (Z.of_nat (length s)) = Fault.
Proof.
  intros Ht. unfold strncmp.
  assert (Hrun : ∀ r p fuel, s = p ++ r → text r → (length r < fuel)%nat →
    while_loop fuel (λ '(i, n),
      let* c1 := aread s i in
      let* more := if negb (c1 =? 0) then Done true
                   else let* c2 := aread s i in Done (negb (c2 =? 0)) in
      if more && (0 <? n) then
        let* c2 := aread s i in
        if s8 c1 <? s8 c2 then Done (inr (-1))
        else if s8 c2 <? s8 c1 then Done (inr 1)
        else Done (inl (i + 1, n - 1))
      else Done (inr 0)) (Z.of_nat (length p), Z.of_nat (length r)) = (Fault : outcome Z)).
  { induction r as [|c r IH]; intros p fuel E T Hf; (destruct fuel as [|fuel]; [simpl in Hf; lia|]); rewrite while_loop_S.
    - assert (Eo : aread s (Z.of_nat (length p)) = Fault).
      { unfold aread. rewrite (proj2 (Z.ltb_ge _ _)), Nat2Z.id, lookup_ge_None_2 by (rewrite ?E, ?length_app; simpl; lia). done. }
      by rewrite Eo.
    - assert (Eo : aread s (Z.of_nat (length p)) = Done c) by (rewrite E; by apply aread_middle).
      rewrite Eo. apply text_cons in T as (_ & Hc & T). cbn [outcome_bind].
      rewrite (proj2 (Z.eqb_neq c 0)) by done. cbn [negb outcome_bind andb length] in *.
      rewrite (proj2 (Z.ltb_lt 0 _)) by lia. rewrite Z.ltb_irrefl. cbn [outcome_bind].
      replace (Z.of_nat (length p) + 1) with (Z.of_nat (length (p ++ [c]))) by (rewrite length_app; simpl; lia).
      replace (Z.of_nat (S (length r)) - 1) with (Z.of_nat (length r)) by lia.
      apply IH; [by rewrite <- (assoc_L (++))|done|lia]. }
  apply (Hrun s [] (S (length s + length s))); [done|done|lia].
Qed.

(** ** Witnesses *)
Lemma text_ab : text [97; 98].
Proof. split; [by repeat constructor|]. apply (bool_decide_unpack _). by vm_compute. Qed.
Lemma cstr_ab r : cstr (97 :: 98 :: 0 :: r) [97; 98].
Proof. apply cstr_cons, cstr_cons, cstr_nil; done. Qed.

Lemma string_copies_correct_witness :
  strcat [97; 98; 0; 7; 7; 7] [97; 98; 0] = Done [97; 98; 97; 98; 0; 7].
Proof.
  destruct (string_copies_correct [97; 98; 0; 7; 7; 7] [97; 98; 0] [97; 98] [97; 98] 5 (cstr_ab _))
    as (_ & _ & Hcat & _).
  - split; [apply text_ab|]. right. split; [simpl; lia|apply cstr_ab].
  - apply Hcat; [apply cstr_ab|simpl; lia].
Defined.

Lemma string_comparison_correct_witness : returns (strcmp [97; 98; 0] [97; 98; 0; 5]) (λ r, r = 0).
Proof.
  eapply returns_mono; [apply (string_comparison_correct [97; 98; 0] [97; 98; 0; 5] [97; 98] [97; 98] 1
    (cstr_ab _) (cstr_ab _) text_ab text_ab); done|]. intros r [Hr _]. by apply Hr.
Defined.

Lemma memory_functions_correct_witness : memcpy [1; 2; 3] [4; 5] 2 = Done [4; 5; 3].
Proof. by apply (memory_functions_correct [1; 2; 3] [4; 5] 0 2); simpl; lia. Defined.

Lemma strstr_correct_witness : returns (strstr [97; 98; 0] [97; 98; 0]) (λ r, r ≠ Some 1).
Proof.
  destruct (strstr_correct [97; 98; 0] [97; 98; 0] [97; 98] [97; 98] (cstr_ab _) (cstr_ab _)) as [Hr _].
  eapply returns_mono; [exact Hr|]. intros [i|]; [|done]. intros (n & -> & Hn & _ & Hno) [= E].
  apply (Hno 0%nat); [lia|]. done.
Defined.

Lemma strncmp_reads_too_far_witness : strncmp [97; 98] [97; 98] 2 = Fault.
Proof. exact (strncmp_reads_too_far [97; 98] text_ab). Defined.
