(* ===== verification/UserInput.v ===== *)
(** * Input and output of user programs (userland/lib.c)

    Characters and lines from the terminal: [putc], [puts], [getc], [gets] and the
    two line editors.  The system calls that read and write are a parameter, the
    class [Console]; the loops that wait for a key take fuel. *)

From S2P Require Import Prelude Libc UserHeap UserHeapOps UserHeapClient UserHeapProps UserString.

Definition BUFSIZE : Z := 64.

(** A read of one character from the standard input stores it, if there is one;
    a write to the standard output answers a number. *)
Class Console (T : Type) := {
  sys_read : T → option Z * T;
  sys_write : list Z → T → Z * T
}.

(** What the functions rely on: the keys that are typed arrive in order, and what
    is written is printed. *)
Class ConsoleSpec (T : Type) {console : Console T} := {
  pending : T → list Z;
  printed : T → list Z;
  sys_read_spec t c l : pending t = c :: l →
    fst (sys_read t) = Some c ∧ pending (snd (sys_read t)) = l ∧ printed (snd (sys_read t)) = printed t;
  sys_write_spec l t : pending (snd (sys_write l t)) = pending t ∧
    printed (snd (sys_write l t)) = printed t ++ l
}.

Section functions.
Context {T : Type} {console : Console T}.
Implicit Types t : T.
(** What a [char] that nothing has been stored into holds. *)
Variable garbage : Z.

Definition putc (c : Z) t : Z * T := sys_write [u8 c] t.

Definition puts (s : list Z) t : outcome (Z * T) :=
  let* l := UserString.strlen s in
  Done (sys_write (take (Z.to_nat l) s) t).

(** The character, widened to [int]. *)
Definition getc_raw t : Z * T :=
  let '(c, t) := sys_read t in (s8 (default garbage c), t).

Definition getc t : Z * T :=
  let '(c, t) := getc_raw t in
  let t := snd (sys_write [u8 c] t) in
  (c, t).

Definition gets (s : list Z) (size : Z) t : outcome (Z * list Z * T) :=
  let* '(count, s, t) := while_loop (S (length s)) (λ '(count, s, t),
    if u32 (count + 1) <? size then
      let '(c, t) := getc t in
      let* s := awrite s count (u8 c) in
      Done (inl (u32 (count + 1), s, t))
    else Done (inr (count, s, t))) (0, s, t) in
  let* s := awrite s (u32 (count + 1)) 0 in
  Done (count, s, t).

(** The last character is rubbed out on the screen. *)
Definition rubout t : T := snd (putc 8 (snd (putc 32 (snd (putc 8 t))))).

Definition readline_static_step (size : Z) :
    Z * list Z * T → outcome (Z * list Z * T + Z * list Z * T) :=
  λ '(count, s, t),
    let '(c, t) := getc_raw t in
    if (c =? 13) || (c =? 10) then Done (inr (count, s, snd (putc 10 t)))
    else if c =? 127 then
      if 0 <? count then Done (inl (u32 (count - 1), s, rubout t)) else Done (inl (count, s, t))
    else if count <? u32 (size - 1) then
      let* s := awrite s count (u8 c) in
      Done (inl (u32 (count + 1), s, snd (putc (u8 c) t)))
    else Done (inl (count, s, t)).

Definition readline_static (fuel : nat) (s : list Z) (size : Z) t : outcome (Z * list Z * T) :=
  let* '(count, s, t) := while_loop fuel (readline_static_step size) (0, s, t) in
  let* s := awrite s count 0 in
  Done (count, s, t).

(** [readline] keeps its buffer on the heap of the program. *)
Section heap.
Variables (en : endian) (base : Z).

Definition readline_step :
    Z * Z * Z * heap_t * T → outcome (Z * Z * Z * heap_t * T + Z * Z * heap_t * T) :=
  λ '(count, bufsize, buf, h, t),
    let '(c, t) := getc_raw t in
    if (c =? 13) || (c =? 10) then Done (inr (count, buf, h, snd (putc 10 t)))
    else if c =? 127 then
      if 0 <? count then Done (inl (u32 (count - 1), bufsize, buf, h, rubout t))
      else Done (inl (count, bufsize, buf, h, t))
    else
      let* r :=
        if u32 (bufsize - 1) <=? count then
          let bufsize := u32 (bufsize * 2) in
          let* '(newbuf, h) := realloc en base buf bufsize h in
          if newbuf =? 0 then Done (inr (count, buf, h, t)) else Done (inl (bufsize, newbuf, h))
        else Done (inl (bufsize, buf, h)) in
      match r with
      | inr stop => Done (inr stop)
      | inl (bufsize, buf, h) =>
          let* h := set_byte base (buf + count) (u8 c) h in
          Done (inl (u32 (count + 1), bufsize, buf, h, snd (putc c t)))
      end.

Definition readline (fuel : nat) (prompt : list Z) (h : heap_t) t : outcome (Z * heap_t * T) :=
  let* '(buf, h) := malloc en base BUFSIZE h in
  let* '(_, t) := puts prompt t in
  let* '(count, buf, h, t) := while_loop fuel readline_step (0, BUFSIZE, buf, h, t) in
  let* h := set_byte base (buf + count) 0 h in
  let* '(newbuf, h) := realloc en base buf (u32 (count + 1)) h in
  Done (if newbuf =? 0 then buf else newbuf, h, t).
End heap.
End functions.

(** ** What an editor does *)

(** The line after one more key, with room for [room] characters; 127 rubs out. *)
Definition edit (room : nat) (line : list Z) (k : Z) : list Z :=
  if k =? 127 then take (length line - 1) line
  else if (length line <? room)%nat then line ++ [k] else line.

(** What the terminal shows for the key. *)
Definition echo (room : nat) (line : list Z) (k : Z) : list Z :=
  if k =? 127 then match line with [] => [] | _ => [8; 32; 8] end
  else if (length line <? room)%nat then [k] else [].

Fixpoint echoes (room : nat) (line : list Z) (ks : list Z) : list Z :=
  match ks with
  | [] => []
  | k :: ks => echo room line k ++ echoes room (edit room line k) ks
  end.

(** Keys of a line, and the keys that end one. *)
Definition line_key (k : Z) : Prop := is_u8 k ∧ k ≠ 10 ∧ k ≠ 13.
Definition line_end (k : Z) : Prop := k = 10 ∨ k = 13.

Lemma edit_length room line k : (length line ≤ room)%nat → (length (edit room line k) ≤ room)%nat.
Proof.
  intros Hl. unfold edit. destruct (k =? 127); [rewrite length_take; lia|].
  destruct (Nat.ltb_spec (length line) room); [rewrite length_app; simpl; lia|done].
Qed.

Lemma edits_length room keys line :
  (length line ≤ room)%nat → (length (foldl (edit room) line keys) ≤ room)%nat.
Proof. revert line. induction keys as [|k keys IH]; intros line Hl; [done|]. apply IH, edit_length, Hl. Qed.

Lemma u8_s8 c : is_u8 c → u8 (s8 c) = c.
Proof.
  intros Hc. rewrite s8_spec by done. unfold u8, is_u8 in *. case_match; [by apply Z.mod_small|].
  rewrite <- (Z.mod_add _ 1) by done. replace (c - 256 + 1 * 2 ^ 8) with c by lia. by apply Z.mod_small.
Qed.

Lemma s8_key c k : is_u8 c → 0 ≤ k < 128 → (s8 c =? k) = (c =? k).
Proof. intros Hc Hk. rewrite s8_spec by done. unfold is_u8 in Hc. destruct (Z.ltb_spec c 128), (Z.eqb_spec c k); subst; try lia; destruct (Z.eqb_spec (c - 256) k); lia. Qed.

Section console.
Context {T : Type} {console : Console T} {spec : ConsoleSpec T}.
Context (garbage : Z).
Implicit Types t : T.

Lemma getc_raw_spec t c l : pending t = c :: l →
  ∃ t', getc_raw garbage t = (s8 c, t') ∧ pending t' = l ∧ printed t' = printed t.
Proof.
  intros E. destruct (sys_read_spec t c l E) as (E1 & E2 & E3). unfold getc_raw.
  destruct (sys_read t) as [c' t'] eqn:Er. simpl in *. subst c'. by exists t'.
Qed.

Lemma putc_spec c t :
  pending (snd (putc c t)) = pending t ∧ printed (snd (putc c t)) = printed t ++ [u8 c].
Proof. apply sys_write_spec. Qed.

Lemma rubout_spec t : pending (rubout t) = pending t ∧ printed (rubout t) = printed t ++ [8; 32; 8].
Proof.
  unfold rubout. destruct (putc_spec 8 t) as [E1 E2].
  destruct (putc_spec 32 (snd (putc 8 t))) as [E3 E4].
  destruct (putc_spec 8 (snd (putc 32 (snd (putc 8 t))))) as [E5 E6].
  rewrite E5, E3, E1, E6, E4, E2, <- !(assoc_L (++)). done.
Qed.

Lemma take_write {A} (s line : list A) c :
  take (length line) s = line → (length line < length s)%nat →
  awrite s (Z.of_nat (length line)) c = Done (line ++ c :: drop (S (length line)) s).
Proof.
  intros Ht Hl. destruct (lookup_lt_is_Some_2 s (length line) Hl) as [x Hx].
  rewrite <- (take_drop (length line) s) at 1. rewrite Ht, (drop_S _ _ _ Hx). by apply awrite_middle.
Qed.

(** The keys up to the end of the line. *)
Lemma static_run room keys : ∀ line s t fuel e rest,
  pending t = keys ++ e :: rest → Forall line_key keys → line_end e → (length keys < fuel)%nat →
  Z.of_nat (S room) < 2 ^ 32 → (room < length s)%nat → (length line ≤ room)%nat → take (length line) s = line →
  let line' := foldl (edit room) line keys in
  ∃ s' t', while_loop fuel (readline_static_step garbage (Z.of_nat (S room))) (Z.of_nat (length line), s, t) =
    Done (Z.of_nat (length line'), s', t') ∧
    take (length line') s' = line' ∧ length s' = length s ∧ drop (S room) s' = drop (S room) s ∧
    pending t' = rest ∧ printed t' = printed t ++ echoes room line keys ++ [10].
Proof.
  induction keys as [|k keys IH]; intros line s t fuel e rest Ep Hk He Hf Hsz Hs Hl Ht;
    (destruct fuel as [|fuel]; [simpl in Hf; lia|]); rewrite while_loop_S;
    unfold readline_static_step at 2; cbv beta match; simpl in Ep;
    destruct (getc_raw_spec t _ _ Ep) as (t1 & -> & Ep1 & Eq1).
  - destruct (putc_spec 10 t1) as [Ep2 Eq2].
    assert (Hend : (s8 e =? 13) || (s8 e =? 10) = true) by (by destruct He as [-> | ->]).
    rewrite Hend. cbn [outcome_bind foldl]. exists s, (snd (putc 10 t1)).
    split_and!; [done|done|done|done|congruence|]. by rewrite Eq2, Eq1.
  - apply Forall_cons in Hk as [(Hu & H10 & H13) Hk]. cbn [length] in Hf.
    rewrite !s8_key, (proj2 (Z.eqb_neq k 13)), (proj2 (Z.eqb_neq k 10)) by (done || lia). cbn [orb].
    cbn [foldl echoes]. destruct (Z.eqb_spec k 127) as [->|Hk127].
    + change (edit room line 127) with (take (length line - 1) line).
      change (echo room line 127) with (match line with [] => [] | _ => [8; 32; 8] end).
      destruct (Z.ltb_spec 0 (Z.of_nat (length line))) as [Hpos|Hz].
      * cbn [outcome_bind]. destruct (rubout_spec t1) as [Ep2 Eq2].
        assert (Hlen : length (take (length line - 1) line) = (length line - 1)%nat) by (rewrite length_take; lia).
        destruct (IH (take (length line - 1) line) s (rubout t1) fuel e rest) as (s' & t' & E & H1 & H2 & H3 & H4 & H5);
          [congruence|done|done|lia|done|done|lia|..].
        { rewrite Hlen. transitivity (take (length line - 1) (take (length line) s)); [|by rewrite Ht].
          rewrite take_take. f_equal. lia. }
        exists s', t'. rewrite u32_id by (unfold is_u32; lia).
        replace (Z.of_nat (length line) - 1) with (Z.of_nat (length (take (length line - 1) line))) by lia.
        split_and!; try done. rewrite H5, Eq2, Eq1, <- !(assoc_L (++)). by destruct line.
      * destruct line; [|cbn [length] in Hz; lia]. cbn [outcome_bind].
        destruct (IH [] s t1 fuel e rest) as (s' & t' & E & H1 & H2 & H3 & H4 & H5); try done; [lia|].
        exists s', t'. split_and!; try done. by rewrite H5, Eq1.
    + assert (Eed : edit room line k = if (length line <? room)%nat then line ++ [k] else line)
        by (unfold edit; by rewrite (proj2 (Z.eqb_neq k 127))).
      assert (Eec : echo room line k = if (length line <? room)%nat then [k] else [])
        by (unfold echo; by rewrite (proj2 (Z.eqb_neq k 127))).
      rewrite Eed, Eec. clear Eed Eec.
      rewrite u32_id by (unfold is_u32; lia). destruct (Nat.ltb_spec (length line) room) as [Hroom|Hfull].
      * rewrite (proj2 (Z.ltb_lt _ _)) by lia. rewrite u8_s8 by done.
        rewrite (take_write s line k) by (done || lia). cbn [outcome_bind].
        destruct (putc_spec k t1) as [Ep2 Eq2]. rewrite u8_id in Eq2 by done.
        destruct (IH (line ++ [k]) (line ++ k :: drop (S (length line)) s) (snd (putc k t1)) fuel e rest)
          as (s' & t' & E & H1 & H2 & H3 & H4 & H5).
        { congruence. } { done. } { done. } { lia. } { done. }
        { rewrite length_app. cbn [length]. rewrite length_drop. lia. }
        { rewrite length_app. simpl. lia. }
        { change (k :: drop (S (length line)) s) with ([k] ++ drop (S (length line)) s).
          by rewrite (assoc_L (++)), take_app_length. }
        exists s', t'. rewrite u32_id by (unfold is_u32; lia).
        replace (Z.of_nat (length line) + 1) with (Z.of_nat (length (line ++ [k]))) by (rewrite length_app; simpl; lia).
        split_and!; try done.
        -- rewrite H2, length_app. cbn [length]. rewrite length_drop. lia.
        -- rewrite H3. change (k :: drop (S (length line)) s) with ([k] ++ drop (S (length line)) s).
           rewrite (assoc_L (++)), drop_app_ge by (rewrite length_app; simpl; lia).
           rewrite drop_drop, length_app. cbn [length]. f_equal. lia.
        -- rewrite H5, Eq2, Eq1, <- !(assoc_L (++)). done.
      * rewrite (proj2 (Z.ltb_ge _ _)) by lia. cbn [outcome_bind].
        destruct (IH line s t1 fuel e rest) as (s' & t' & E & H1 & H2 & H3 & H4 & H5); try done; [lia|].
        exists s', t'. split_and!; try done. by rewrite H5, Eq1.
Qed.

(** [readline_static] returns when the keys of a line have come: the buffer
    starts with the edited line and a terminator, the bytes behind [size] are
    untouched, the answer is the length of the line, at most [size - 1], and the
    terminal shows the echo of each key that had an effect. *)
Theorem readline_static_correct room keys e rest fuel s t :
  pending t = keys ++ e :: rest → Forall line_key keys → line_end e → (length keys < fuel)%nat →
  Z.of_nat (S room) < 2 ^ 32 → (room < length s)%nat →
  returns (readline_static garbage fuel s (Z.of_nat (S room)) t) (λ '(n, s', t'),
    let line := foldl (edit room) [] keys in
    n = Z.of_nat (length line) ∧ (length line ≤ room)%nat ∧
    (∃ r, s' = line ++ 0 :: r) ∧ length s' = length s ∧ drop (S room) s' = drop (S room) s ∧
    pending t' = rest ∧ printed t' = printed t ++ echoes room [] keys ++ [10]).
Proof.
  intros Ep Hk He Hf Hsz Hs. unfold readline_static.
  destruct (static_run room keys [] s t fuel e rest) as (s' & t' & E & H1 & H2 & H3 & H4 & H5); try done; [simpl; lia|].
  change (Z.of_nat (length [])) with 0 in E. rewrite E. cbn [outcome_bind].
  pose proof (edits_length room keys [] ltac:(simpl; lia)) as Hl.
  set (line := foldl (edit room) [] keys) in *.
  rewrite (take_write s' line 0) by (done || lia). cbn [outcome_bind returns]. split_and!; try done.
  - by eexists.
  - rewrite length_app. cbn [length]. rewrite length_drop. lia.
  - rewrite <- H3. change (0 :: drop (S (length line)) s') with ([0] ++ drop (S (length line)) s').
    rewrite (assoc_L (++)), drop_app_ge by (rewrite length_app; simpl; lia).
    rewrite drop_drop, length_app. cbn [length]. f_equal. lia.
Qed.

Lemma getc_spec t c l : pending t = c :: l → is_u8 c →
  ∃ t', getc garbage t = (s8 c, t') ∧ pending t' = l ∧ printed t' = printed t ++ [c].
Proof.
  intros E Hc. destruct (getc_raw_spec t c l E) as (t1 & E1 & Ep & Eq). unfold getc. rewrite E1, u8_s8 by done.
  destruct (sys_write_spec [c] t1) as [Ep2 Eq2]. eexists. split_and!; [done|congruence|congruence].
Qed.

Lemma gets_run size s keys : ∀ dn t fuel rest,
  pending t = keys ++ rest → Forall is_u8 keys → S (length dn + length keys) = size → Z.of_nat size < 2 ^ 32 →
  (size ≤ length s)%nat → (length keys < fuel)%nat →
  ∃ t', while_loop fuel (λ '(count, s, t),
      if u32 (count + 1) <? Z.of_nat size then
        let '(c, t) := getc garbage t in
        let* s := awrite s count (u8 c) in
        Done (inl (u32 (count + 1), s, t))
      else Done (inr (count, s, t))) (Z.of_nat (length dn), over s dn, t) =
    Done (Z.of_nat (length (dn ++ keys)), over s (dn ++ keys), t') ∧
    pending t' = rest ∧ printed t' = printed t ++ keys.
Proof.
  induction keys as [|k keys IH]; intros dn t fuel rest Ep Hu Hsz H32 Hs Hf;
    (destruct fuel as [|fuel]; [simpl in Hf; lia|]); rewrite while_loop_S; cbn [length] in *;
    rewrite u32_id by (unfold is_u32; lia).
  - rewrite (proj2 (Z.ltb_ge _ _)) by lia. rewrite !app_nil_r. by exists t.
  - rewrite (proj2 (Z.ltb_lt _ _)) by lia. apply Forall_cons in Hu as [Hk Hu].
    destruct (getc_spec t k _ Ep Hk) as (t1 & -> & Ep1 & Eq1). rewrite u8_s8 by done.
    rewrite over_snoc by lia. cbn [outcome_bind].
    destruct (IH (dn ++ [k]) t1 fuel rest) as (t' & E & Ep' & Eq'); try done; [rewrite length_app; simpl; lia|lia|].
    exists t'. replace (Z.of_nat (length dn) + 1) with (Z.of_nat (length (dn ++ [k]))) by (rewrite length_app; simpl; lia).
    rewrite E, <- !(assoc_L (++)). split_and!; [done|done|]. rewrite Eq', Eq1, <- (assoc_L (++)). done.
Qed.

(** [gets] reads [size - 1] keys and puts its terminator one place too far:
    in a buffer of [size] bytes it writes past the end, and in a longer one the
    byte behind the line stays what it was. *)
Theorem gets_off_by_one keys rest s t :
  pending t = keys ++ rest → Forall is_u8 keys → Z.of_nat (S (length keys)) < 2 ^ 32 - 1 →
  (length s = S (length keys) → gets garbage s (Z.of_nat (S (length keys))) t = Fault) ∧
  ((S (length keys) < length s)%nat →
    returns (gets garbage s (Z.of_nat (S (length keys))) t) (λ '(n, s', t'),
      n = Z.of_nat (length keys) ∧ take (length keys) s' = keys ∧
      s' !! length keys = s !! length keys ∧ s' !! S (length keys) = Some 0 ∧
      pending t' = rest ∧ printed t' = printed t ++ keys)).
Proof.
  intros Ep Hu H32.
  assert (Hrun : (S (length keys) ≤ length s)%nat → ∃ t', gets garbage s (Z.of_nat (S (length keys))) t =
    (let* s' := awrite (over s keys) (Z.of_nat (S (length keys))) 0 in Done (Z.of_nat (length keys), s', t')) ∧
    pending t' = rest ∧ printed t' = printed t ++ keys).
  { intros Hs. destruct (gets_run (S (length keys)) s keys [] t (S (length s)) rest) as (t' & E & Hp & Hq);
      try done; [lia|lia|]. exists t'. split; [|done]. unfold gets.
    change (Z.of_nat (length [])) with 0 in E. change (over s []) with s in E. rewrite E. cbn [outcome_bind app].
    rewrite u32_id by (unfold is_u32; lia). by replace (Z.of_nat (length keys) + 1) with (Z.of_nat (S (length keys))) by lia. }
  assert (Hov : (S (length keys) ≤ length s)%nat → length (over s keys) = length s)
    by (intros; apply length_over; lia).
  split.
  - intros Hl. destruct Hrun as (t' & -> & _); [lia|]. rewrite awrite_outside; [done|]. rewrite Hov by lia. lia.
  - intros Hl. destruct Hrun as (t' & -> & Hp & Hq); [lia|]. rewrite awrite_in_range by (rewrite Hov by lia; lia).
    cbn [outcome_bind returns]. rewrite Nat2Z.id. split_and!; [done| | | |done|done].
    + rewrite take_insert_ge by lia. unfold over. by rewrite take_app_length.
    + rewrite list_lookup_insert_ne by lia. unfold over. rewrite lookup_app_r, Nat.sub_diag, lookup_drop by lia.
      by rewrite Nat.add_0_r.
    + apply list_lookup_insert_eq. rewrite Hov by lia. lia.
Qed.
End console.

(** ** Lines on the heap *)

(** What a buffer with room for [room] characters takes of the keys of a line: the
    line, what is shown for it, and the keys left when one comes that has no room. *)
Fixpoint take_line (room : nat) (line ks : list Z) : list Z * list Z * option (list Z) :=
  match ks with
  | [] => (line, [], None)
  | k :: ks' =>
      if negb (k =? 127) && (room <=? length line)%nat then (line, [], Some ks)
      else
        let '(line', out, more) := take_line room (edit room line k) ks' in
        (line', echo room line k ++ out, more)
  end.

(** A line that has room is the line of the editor. *)
Lemma take_line_edits room ks line :
  let '(line', out, more) := take_line room line ks in
  more = None → line' = foldl (edit room) line ks ∧ out = echoes room line ks.
Proof.
  revert line. induction ks as [|k ks IH]; intros line; [done|]. cbn [take_line foldl echoes].
  destruct (negb (k =? 127) && _); [done|]. specialize (IH (edit room line k)).
  destruct (take_line room (edit room line k) ks) as [[line' out] more]. intros Hn. by destruct (IH Hn) as [-> ->].
Qed.

(** More room changes nothing until the room is used up. *)
Lemma take_line_more room room' ks line : (room ≤ room')%nat →
  let '(line', out, more) := take_line room line ks in
  take_line room' line ks = match more with
    | None => (line', out, None)
    | Some ks' => let '(line2, out2, more2) := take_line room' line' ks' in (line2, out ++ out2, more2)
    end.
Proof.
  intros Hr. revert line. induction ks as [|k ks IH]; intros line; [done|]. cbn [take_line].
  destruct (negb (k =? 127) && (room <=? length line)%nat) eqn:E.
  { cbn [take_line app]. destruct (negb (k =? 127) && (room' <=? length line)%nat); [done|].
    by destruct (take_line room' (edit room' line k) ks) as [[l o] m]. }
  assert (E' : negb (k =? 127) && (room' <=? length line)%nat = false ∧ edit room' line k = edit room line k ∧
    echo room' line k = echo room line k).
  { unfold edit, echo. destruct (Z.eqb_spec k 127); [done|]. cbn [negb andb] in *. apply Nat.leb_gt in E.
    rewrite (proj2 (Nat.leb_gt _ _)) by lia. by rewrite !(proj2 (Nat.ltb_lt _ _)) by lia. }
  destruct E' as (-> & -> & ->). specialize (IH (edit room line k)).
  destruct (take_line room (edit room line k) ks) as [[l o] [ks'|]]; rewrite IH; [|done].
  destruct (take_line room' l ks') as [[l2 o2] m2]. by rewrite <- (assoc_L (++)).
Qed.

(** The output of a line: a line break if its end came. *)
Definition line_break (more : option (list Z)) : list Z := match more with None => [10] | Some _ => [] end.

Section heap.
Context {T : Type} {console : Console T} {spec : ConsoleSpec T}.
Context (garbage : Z) (en : endian) (base : Z) (Hbase : 0 < base ∧ base + HEAP_SIZE ≤ 2 ^ 32).
Implicit Types t : T.

(** The bytes from [p] on are [l]. *)
Definition holds (h : heap_t) (p : Z) (l : list Z) : Prop :=
  ∀ i c, l !! i = Some c → get_byte base (p + Z.of_nat i) h = Done c.

Definition others_kept (live : list (Z * Z)) (h h' : heap_t) : Prop :=
  ∀ x k j, (x, k) ∈ live → 0 ≤ j < k → get_byte base (x + j) h' = get_byte base (x + j) h.

Lemma others_kept_trans live h1 h2 h3 :
  others_kept live h1 h2 → others_kept live h2 h3 → others_kept live h1 h3.
Proof. intros H1 H2 x k j Hx Hj. by rewrite (H2 x k), (H1 x k). Qed.

Lemma holds_prefix h p l l' : holds h p (l ++ l') → holds h p l.
Proof. intros Hh i c Hi. apply Hh. by apply lookup_app_l_Some. Qed.

(** The heap consists of the blocks [bs]; the program holds [live]. *)
Definition blocks_are (bs : list blk) (live : list (Z * Z)) (h : heap_t) : Prop :=
  heap_rep en base h bs ∧ coalesced bs ∧ live_rep bs live.

Lemma blocks_inv bs live h : blocks_are bs live h → heap_inv en base (h, live).
Proof. intros (? & ? & ?). by exists bs. Qed.

(** A store behind the text makes it longer, and leaves the blocks. *)
Lemma holds_snoc bs h p n live l c :
  blocks_are bs ((p, n) :: live) h → holds h p l → Z.of_nat (length l) < n →
  returns (set_byte base (p + Z.of_nat (length l)) c h) (λ h',
    blocks_are bs ((p, n) :: live) h' ∧ holds h' p (l ++ [c]) ∧ others_kept live h h').
Proof.
  intros Hb Hh Hl. pose proof (set_byte_live en base h p n live (Z.of_nat (length l)) c (blocks_inv _ _ _ Hb) ltac:(lia)) as H1.
  destruct Hb as (Hrep & Hc & Hlive).
  pose proof (store_live en base h bs _ p n (Z.of_nat (length l)) c Hrep Hlive ltac:(by left) ltac:(lia)) as H2.
  destruct (set_byte _ _ _ _) as [h'| | | |]; try done. destruct H1 as (_ & Hc' & Hsame & Hoth). cbn [returns] in *.
  split_and!; [done| |done].
  intros i x [Hx|[Hge Hx]]%lookup_app_Some.
  - pose proof (lookup_lt_Some _ _ _ Hx). rewrite Hsame by lia. by apply Hh.
  - pose proof (lookup_lt_Some _ _ _ Hx) as Hlt. simpl in Hlt. assert (i = length l) as -> by lia.
    rewrite Nat.sub_diag in Hx. simpl in Hx. congruence.
Qed.

(** What [malloc] answers depends on the blocks only. *)
Lemma malloc_same bs live h h' n q h1 :
  blocks_are bs live h → blocks_are bs live h' → 0 < n ≤ 2 ^ 31 - 8 → malloc en base n h = Done (q, h1) →
  ∃ h1', malloc en base n h' = Done (q, h1').
Proof.
  intros (Hr & _) (Hr' & _) Hn E. pose proof (malloc_spec en base Hbase h bs n Hr Hn) as H1. rewrite E in H1.
  pose proof (malloc_spec en base Hbase h' bs n Hr' Hn) as H2. destruct (malloc en base n h') as [[q' h1']| | | |]; try done.
  exists h1'. cbn [returns] in *. destruct (amalloc (round_size n) bs) as [[a bs']|].
  - destruct H1 as [-> _], H2 as [-> _]. done.
  - destruct H1 as [-> _], H2 as [-> _]. done.
Qed.

(** No block is larger than the heap. *)
Lemma malloc_too_much bs live h n :
  blocks_are bs live h → HEAP_SIZE ≤ n ≤ 2 ^ 31 - 8 → ∃ h1, malloc en base n h = Done (0, h1).
Proof.
  intros (Hr & Hc & Hl) Hn. assert (Hn0 : 0 < n ≤ 2 ^ 31 - 8) by (unfold HEAP_SIZE in *; lia).
  pose proof (malloc_live en base Hbase h bs live n Hr Hc Hl Hn0) as Hm.
  destruct (malloc en base n h) as [[q h1]| | | |]; try done. destruct Hm as (bs' & _ & _ & _ & H0 & _).
  exists h1. assert (q = 0) as ->; [|done]. apply H0. intros b Hb _.
  pose proof (tiled_elem _ _ _ _ (hr_tiled _ _ _ _ Hr) Hb). destruct (round_size_spec n Hn0) as (? & ? & ? & ?). lia.
Qed.

(** The state of the loop with [line] in a buffer of [n] bytes. *)
Notation at_line line n p h t := (Z.of_nat (length line), n, p, h, t).
Notation run fuel := (while_loop fuel (readline_step garbage en base)).

(** A key that the buffer has room for. *)
Lemma readline_key bs p room live line k keys h t :
  pending t = k :: keys → line_key k → k = 127 ∨ (length line < room)%nat → (length line ≤ room)%nat →
  Z.of_nat room < 2 ^ 31 → blocks_are bs ((p, Z.of_nat (S room)) :: live) h → holds h p line →
  ∃ h' t', readline_step garbage en base (at_line line (Z.of_nat (S room)) p h t) =
      Done (inl (at_line (edit room line k) (Z.of_nat (S room)) p h' t')) ∧
    blocks_are bs ((p, Z.of_nat (S room)) :: live) h' ∧ holds h' p (edit room line k) ∧ others_kept live h h' ∧
    pending t' = keys ∧ printed t' = printed t ++ echo room line k.
Proof.
  intros Ep (Hu & H10 & H13) Hroom Hl Hr Hi Hh. unfold readline_step.
  destruct (getc_raw_spec garbage t _ _ Ep) as (t1 & -> & Ep1 & Eq1).
  rewrite !s8_key, (proj2 (Z.eqb_neq k 13)), (proj2 (Z.eqb_neq k 10)) by (done || lia). cbn [orb].
  unfold edit, echo. destruct (Z.eqb_spec k 127) as [->|Hk127].
  - destruct (Z.ltb_spec 0 (Z.of_nat (length line))) as [Hpos|Hz].
    + destruct (rubout_spec t1) as [Ep2 Eq2]. exists h, (rubout t1). rewrite length_take, Nat.min_l by lia.
      rewrite u32_id by (unfold is_u32; lia).
      split_and!; [by replace (Z.of_nat (length line) - 1) with (Z.of_nat (length line - 1)) by lia|done| |done|congruence|].
      * apply (holds_prefix h p _ (drop (length line - 1) line)). by rewrite take_drop.
      * rewrite Eq2, Eq1. by destruct line.
    + destruct line; [|cbn [length] in Hz; lia]. exists h, t1. split_and!; try done. by rewrite Eq1, app_nil_r.
  - destruct Hroom as [?|Hroom]; [done|]. rewrite (proj2 (Nat.ltb_lt _ _)) by done.
    rewrite (u32_id (Z.of_nat (S room) - 1)) by (unfold is_u32; lia).
    rewrite (proj2 (Z.leb_gt _ _)) by lia. cbn [outcome_bind]. rewrite u8_s8 by done.
    pose proof (holds_snoc bs h p _ live line k Hi Hh ltac:(lia)) as Hs.
    destruct (set_byte base (p + Z.of_nat (length line)) k h) as [h1| | | |]; try done.
    destruct Hs as (Hi1 & Hh1 & Ho1). cbn [outcome_bind].
    destruct (putc_spec (s8 k) t1) as [Ep2 Eq2]. rewrite u8_s8 in Eq2 by done.
    exists h1, (snd (putc (s8 k) t1)). rewrite u32_id, length_app by (unfold is_u32; lia). cbn [length].
    split_and!; [by rewrite Nat2Z.inj_add|done|done|done|congruence|congruence].
Qed.

(** Typing a line as long as the buffer has room: the loop ends with the line, or
    comes to the first key that has no room. *)
Lemma readline_run bs p room live keys : ∀ line h t fuel e rest,
  pending t = keys ++ e :: rest → Forall line_key keys → line_end e → (length keys < fuel)%nat →
  Z.of_nat room < 2 ^ 31 → (length line ≤ room)%nat →
  blocks_are bs ((p, Z.of_nat (S room)) :: live) h → holds h p line →
  let '(line', out, more) := take_line room line keys in
  ∃ h' t', blocks_are bs ((p, Z.of_nat (S room)) :: live) h' ∧ holds h' p line' ∧ others_kept live h h' ∧
    printed t' = printed t ++ out ++ line_break more ∧ (length line' ≤ room)%nat ∧
    match more with
    | None => run fuel (at_line line (Z.of_nat (S room)) p h t) = Done (Z.of_nat (length line'), p, h', t') ∧
        pending t' = rest
    | Some ks => ∃ fuel' k ks',
        run fuel (at_line line (Z.of_nat (S room)) p h t) = run (S fuel') (at_line line' (Z.of_nat (S room)) p h' t') ∧
        ks = k :: ks' ∧ k ≠ 127 ∧ line_key k ∧ Forall line_key ks' ∧ (length ks' < fuel')%nat ∧
        length line' = room ∧ pending t' = ks ++ e :: rest
    end.
Proof.
  induction keys as [|k keys IH]; intros line h t fuel e rest Ep Hk He Hf Hr Hl Hi Hh; cbn [take_line];
    (destruct fuel as [|fuel]; [simpl in Hf; lia|]).
  - rewrite while_loop_S; unfold readline_step at 2; cbv beta match; simpl in Ep.
    destruct (getc_raw_spec garbage t _ _ Ep) as (t1 & -> & Ep1 & Eq1). destruct (putc_spec 10 t1) as [Ep2 Eq2].
    assert (Hend : (s8 e =? 13) || (s8 e =? 10) = true) by (by destruct He as [-> | ->]).
    rewrite Hend. cbn [outcome_bind]. exists h, (snd (putc 10 t1)).
    split_and!; [done|done|done|by rewrite Eq2, Eq1|done|done|congruence].
  - apply Forall_cons in Hk as [Hkk Hk]. cbn [length app] in Hf, Ep.
    destruct (negb (k =? 127) && (room <=? length line)%nat) eqn:Hfull.
    { apply andb_true_iff in Hfull as [H127 Hfull]. apply negb_true_iff, Z.eqb_neq in H127. apply Nat.leb_le in Hfull.
      exists h, t. split_and!; [done|done|done|by rewrite app_nil_r|done|].
      exists fuel, k, keys. split_and!; try done; lia. }
    apply andb_false_iff in Hfull. rewrite negb_false_iff, Z.eqb_eq, Nat.leb_gt in Hfull.
    destruct (readline_key bs p room live line k _ h t Ep Hkk Hfull Hl Hr Hi Hh)
      as (h1 & t1 & E & Hi1 & Hh1 & Ho1 & Ep1 & Eq1). rewrite while_loop_S, E. cbn [outcome_bind].
    specialize (IH (edit room line k) h1 t1 fuel e rest Ep1 Hk He ltac:(lia) Hr (edit_length room line k Hl) Hi1 Hh1).
    destruct (take_line room (edit room line k) keys) as [[line' out] more].
    destruct IH as (h' & t' & H1 & H2 & H3 & H4 & H5 & H6). exists h', t'.
    split_and!; [done|done|by eapply others_kept_trans|by rewrite H4, Eq1, <- !(assoc_L (++))|done|done].
Qed.

(** The end of [readline]: the terminator, and a block of the size of the line if
    there is one. *)
Lemma readline_finish bs p n live line h0 h t :
  blocks_are bs ((p, n) :: live) h → holds h p line → Z.of_nat (length line) < n → n < 2 ^ 31 - 8 →
  others_kept live h0 h →
  returns (let* h := set_byte base (p + Z.of_nat (length line)) 0 h in
           let* '(newbuf, h) := realloc en base p (u32 (Z.of_nat (length line) + 1)) h in
           Done (if newbuf =? 0 then p else newbuf, h, t)) (λ '(r, h', t'),
    (∃ m, heap_inv en base (h', (r, m) :: live) ∧ Z.of_nat (length line) < m) ∧
    holds h' r (line ++ [0]) ∧ others_kept live h0 h' ∧ t' = t).
Proof.
  intros Hi Hh Hl Hn Ho. eapply returns_bind, returns_mono; [by apply (holds_snoc bs h p n live line 0)|].
  intros h3 (Hi3 & Hh3 & Ho3). assert (Hkeep : others_kept live h0 h3) by (by eapply others_kept_trans).
  rewrite u32_id by (unfold is_u32; lia).
  assert (Hend : p + n ≤ base + HEAP_SIZE).
  { destruct Hi3 as (Hrep & _ & Hlive). apply (live_bytes_ok en base h3 bs p n _ Hrep Hlive). by left. }
  pose proof (realloc_live en base Hbase h3 p n live (Z.of_nat (length line) + 1) (blocks_inv _ _ _ Hi3) ltac:(lia)) as Hr.
  destruct (malloc en base (Z.of_nat (length line) + 1) h3) as [[q h4]| | | |]; try done. cbn [returns] in Hr.
  destruct (Z.eqb_spec q 0) as [->|Hq].
  - destruct Hr as [_ ->]. cbn [outcome_bind returns Z.eqb]. split_and!; try done. exists n.
    split; [by eapply blocks_inv|lia].
  - rewrite (proj2 (Z.leb_le _ _)) in Hr by lia.
    eapply returns_bind, returns_mono; [exact Hr|]. intros [r h5] (-> & Hi5 & Hb5 & Ho5). cbn [returns].
    rewrite (proj2 (Z.eqb_neq q 0)) by done. split_and!; [eexists; split; [done|lia]| | |done].
    + intros i c Hc. pose proof (lookup_lt_Some _ _ _ Hc) as Hlt. rewrite length_app in Hlt. simpl in Hlt.
      rewrite Hb5 by lia. by apply Hh3.
    + eapply others_kept_trans; [exact Hkeep|]. intros x k j. apply Ho5.
Qed.

(** A key without room, when there is no larger buffer: the loop ends. *)
Lemma readline_stuck bs p n live (line : list Z) k keys h t fuel q h1 :
  pending t = k :: keys → line_key k → k ≠ 127 → n = Z.of_nat (S (length line)) → n < 2 ^ 30 - 8 →
  blocks_are bs ((p, n) :: live) h → malloc en base (n * 2) h = Done (q, h1) → q = 0 →
  ∃ t', run (S fuel) (at_line line n p h t) = Done (Z.of_nat (length line), p, h, t') ∧
    pending t' = keys ∧ printed t' = printed t.
Proof.
  intros Ep (Hu & H10 & H13) H127 Hlen Hn Hi Em ->. rewrite while_loop_S. unfold readline_step at 2. cbv beta match.
  destruct (getc_raw_spec garbage t _ _ Ep) as (t1 & -> & Ep1 & Eq1).
  rewrite !s8_key, (proj2 (Z.eqb_neq k 13)), (proj2 (Z.eqb_neq k 10)), (proj2 (Z.eqb_neq k 127)) by (done || lia).
  cbn [orb]. rewrite !u32_id by (unfold is_u32; lia). rewrite (proj2 (Z.leb_le _ _)) by lia.
  pose proof (realloc_live en base Hbase h p n live (n * 2) (blocks_inv _ _ _ Hi) ltac:(lia)) as Hr.
  rewrite Em in Hr. cbn [returns Z.eqb] in Hr. destruct Hr as [_ ->]. cbn [outcome_bind Z.eqb].
  by exists t1.
Qed.

(** A key without room, when there is a larger buffer at [q]: the line moves there,
    unless the old buffer lies so close to the end of the heap that copying the
    new size from it reads past the end. *)
Lemma readline_grows bs p n live (line : list Z) k keys h t fuel q h1 :
  pending t = k :: keys → line_key k → k ≠ 127 → n = Z.of_nat (S (length line)) → n < 2 ^ 30 - 8 →
  blocks_are bs ((p, n) :: live) h → holds h p line → malloc en base (n * 2) h = Done (q, h1) → q ≠ 0 →
  if p + n * 2 <=? base + HEAP_SIZE then
    ∃ bs' h' t', run (S fuel) (at_line line n p h t) = run fuel (at_line (line ++ [k]) (n * 2) q h' t') ∧
      blocks_are bs' ((q, n * 2) :: live) h' ∧ holds h' q (line ++ [k]) ∧ others_kept live h h' ∧
      pending t' = keys ∧ printed t' = printed t ++ [k]
  else run (S fuel) (at_line line n p h t) = Fault.
Proof.
  intros Ep (Hu & H10 & H13) H127 Hlen Hn Hi Hh Em Hq. rewrite !while_loop_S.
  remember (readline_step garbage en base (at_line line n p h t)) as next eqn:En. unfold readline_step in En.
  destruct (getc_raw_spec garbage t _ _ Ep) as (t1 & E1 & Ep1 & Eq1). rewrite E1 in En.
  rewrite !s8_key, (proj2 (Z.eqb_neq k 13)), (proj2 (Z.eqb_neq k 10)), (proj2 (Z.eqb_neq k 127)) in En by (done || lia).
  cbn [orb] in En. rewrite !u32_id in En by (unfold is_u32; lia). rewrite (proj2 (Z.leb_le _ _)) in En by lia.
  pose proof (realloc_live en base Hbase h p n live (n * 2) (blocks_inv _ _ _ Hi) ltac:(lia)) as Hr.
  rewrite Em in Hr. cbn [returns] in Hr. rewrite (proj2 (Z.eqb_neq q 0)) in Hr by done.
  destruct (p + n * 2 <=? base + HEAP_SIZE); [|by rewrite En, Hr].
  destruct (returns_inv _ _ Hr) as ([r h2] & E2 & -> & (bs' & Hrep & Hc & Hl) & Hb & Ho).
  rewrite E2 in En. cbn [outcome_bind] in En.
  rewrite (proj2 (Z.eqb_neq q 0)) in En by done. cbn [outcome_bind] in En. rewrite u8_s8 in En by done.
  assert (Hh2 : holds h2 q line).
  { intros i c Hc'. pose proof (lookup_lt_Some _ _ _ Hc'). rewrite Hb by lia. by apply Hh. }
  pose proof (holds_snoc bs' h2 q (n * 2) live line k (conj Hrep (conj Hc Hl)) Hh2 ltac:(lia)) as Hs.
  destruct (returns_inv _ _ Hs) as (h3 & E3 & Hi3 & Hh3 & Ho3). rewrite E3 in En. cbn [outcome_bind] in En. rewrite En.
  destruct (putc_spec (s8 k) t1) as [Ep2 Eq2]. rewrite u8_s8 in Eq2 by done. cbn [outcome_bind].
  exists bs', h3, (snd (putc (s8 k) t1)). rewrite length_app. cbn [length].
  split_and!; [by rewrite Nat2Z.inj_add|done|done| |congruence|congruence].
  eapply others_kept_trans; [|exact Ho3]. intros x j i. apply Ho.
Qed.

(** What [readline] reads of the keys of a line with its first buffer at [p] and room
    for a larger one at [q] ([0] if there is none): the line, what is shown, and
    the keys left when no buffer has room for the next one, which is lost.
    [None] is a read past the end of the heap. *)
Definition line_read (p q : Z) (keys : list Z) : option (list Z * list Z * option (list Z)) :=
  let '(line, out, more) := take_line 63 [] keys in
  match more with
  | None => Some (line, out, None)
  | Some ks =>
      if q =? 0 then Some (line, out, Some (tail ks))
      else if p + BUFSIZE * 2 <=? base + HEAP_SIZE then
        let '(line, out, more) := take_line 127 [] keys in Some (line, out, tail <$> more)
      else None
  end.

(** While there is room the line is what the editor makes of all the keys. *)
Lemma line_read_edits p q keys :
  (snd (take_line 63 [] keys) = None →
    line_read p q keys = Some (foldl (edit 63) [] keys, echoes 63 [] keys, None)) ∧
  (q ≠ 0 → p + BUFSIZE * 2 ≤ base + HEAP_SIZE → snd (take_line 127 [] keys) = None →
    line_read p q keys = Some (foldl (edit 127) [] keys, echoes 127 [] keys, None)).
Proof.
  unfold line_read. pose proof (take_line_edits 63 keys []) as H63. pose proof (take_line_edits 127 keys []) as H127.
  pose proof (take_line_more 63 127 keys [] ltac:(lia)) as Hmore.
  destruct (take_line 63 [] keys) as [[line out] more]. split.
  - cbn [snd]. intros ->. by destruct (H63 eq_refl) as [-> ->].
  - intros Hq Hp Hn. rewrite (proj2 (Z.eqb_neq q 0)), (proj2 (Z.leb_le _ _)) by done.
    destruct (take_line 127 [] keys) as [[line2 out2] more2]. cbn [snd] in Hn. subst more2.
    destruct (H127 eq_refl) as [<- <-]. destruct more; [done|]. by injection Hmore as -> ->.
Qed.

(** The loop as a whole. *)
Lemma readline_loop bs live p q keys e rest h h2 t fuel :
  blocks_are bs ((p, BUFSIZE) :: live) h → malloc en base (BUFSIZE * 2) h = Done (q, h2) →
  pending t = keys ++ e :: rest → Forall line_key keys → line_end e → (length keys < fuel)%nat →
  match line_read p q keys with
  | None => run fuel (at_line ([] : list Z) BUFSIZE p h t) = Fault
  | Some (line, out, more) => ∃ bs' r n h' t',
      run fuel (at_line ([] : list Z) BUFSIZE p h t) = Done (Z.of_nat (length line), r, h', t') ∧
      blocks_are bs' ((r, n) :: live) h' ∧ holds h' r line ∧ Z.of_nat (length line) < n < 2 ^ 31 - 8 ∧
      others_kept live h h' ∧ pending t' = match more with None => rest | Some ks => ks ++ e :: rest end ∧
      printed t' = printed t ++ out ++ line_break more
  end.
Proof.
  intros Hi Em Ep Hk He Hf. change BUFSIZE with (Z.of_nat 64) in *. unfold line_read. change BUFSIZE with (Z.of_nat 64).
  pose proof (readline_run bs p 63 live keys [] h t fuel e rest Ep Hk He Hf ltac:(lia) ltac:(simpl; lia) Hi
    ltac:(intros i c Hc; by rewrite lookup_nil in Hc)) as Hrun.
  pose proof (take_line_more 63 127 keys [] ltac:(lia)) as Hmore.
  destruct (take_line 63 [] keys) as [[line out] [ks|]].
  2: { destruct Hrun as (h1 & t1 & Hi1 & Hh1 & Ho1 & Eq1 & Hl1 & E & Ep1).
       exists bs, p, (Z.of_nat 64), h1, t1. split_and!; try done; lia. }
  destruct Hrun as (h1 & t1 & Hi1 & Hh1 & Ho1 & Eq1 & _ & fuel1 & k & ks1 & -> & -> & H127 & Hkk & Hks & Hf1 & Hl1 & Ep1).
  destruct (malloc_same bs _ h h1 (Z.of_nat 64 * 2) q h2 Hi Hi1 ltac:(lia) Em) as [h3 Em1].
  destruct (Z.eqb_spec q 0) as [Hq|Hq].
  { destruct (readline_stuck bs p (Z.of_nat 64) live line k _ h1 t1 fuel1 q h3 Ep1 Hkk H127 ltac:(lia) ltac:(lia) Hi1 Em1 Hq)
      as (t2 & -> & Ep2 & Eq2).
    exists bs, p, (Z.of_nat 64), h1, t2. split_and!; try done; try lia. by rewrite Eq2, Eq1. }
  pose proof (readline_grows bs p (Z.of_nat 64) live line k _ h1 t1 fuel1 q h3 Ep1 Hkk H127 ltac:(lia) ltac:(lia) Hi1 Hh1 Em1 Hq) as Hg.
  destruct (p + Z.of_nat 64 * 2 <=? base + HEAP_SIZE); [|exact Hg].
  destruct Hg as (bs' & h4 & t4 & -> & Hi4 & Hh4 & Ho4 & Ep4 & Eq4).
  assert (Etl : take_line 127 line (k :: ks1) =
    let '(l, o, r) := take_line 127 (line ++ [k]) ks1 in (l, k :: o, r)).
  { cbn [take_line]. unfold edit, echo. rewrite (proj2 (Nat.leb_gt _ _)), andb_false_r by lia.
    by rewrite (proj2 (Z.eqb_neq k 127)), (proj2 (Nat.ltb_lt _ _)) by (done || lia). }
  rewrite Hmore, Etl. change (Z.of_nat 64 * 2) with (Z.of_nat 128) in *.
  pose proof (readline_run bs' q 127 live ks1 (line ++ [k]) h4 t4 fuel1 e rest Ep4 Hks He Hf1 ltac:(lia)
    ltac:(rewrite length_app; simpl; lia) Hi4 Hh4) as Hrun.
  assert (Eout : printed t4 = printed t ++ out ++ [k]) by (by rewrite Eq4, Eq1, app_nil_r, <- (assoc_L (++))).
  assert (Ho14 : others_kept live h h4) by (by eapply others_kept_trans).
  destruct (take_line 127 (line ++ [k]) ks1) as [[line2 out2] [ks|]].
  2: { destruct Hrun as (h5 & t5 & Hi5 & Hh5 & Ho5 & Eq5 & Hl5 & E & Ep5).
       exists bs', q, (Z.of_nat 128), h5, t5. split_and!; try done; try lia; [by eapply others_kept_trans|].
       by rewrite Eq5, Eout, <- !(assoc_L (++)). }
  destruct Hrun as (h5 & t5 & Hi5 & Hh5 & Ho5 & Eq5 & _ & fuel5 & k5 & ks5 & -> & -> & H5 & Hk5 & _ & _ & Hl5 & Ep5).
  destruct (malloc_too_much bs' _ h5 (Z.of_nat 128 * 2) Hi5 ltac:(unfold HEAP_SIZE; lia)) as [h6 Em6].
  destruct (readline_stuck bs' q (Z.of_nat 128) live line2 k5 _ h5 t5 fuel5 0 h6 Ep5 Hk5 H5 ltac:(lia) ltac:(lia) Hi5 Em6 eq_refl)
    as (t6 & -> & Ep6 & Eq6).
  exists bs', q, (Z.of_nat 128), h5, t6. split_and!; try done; try lia; [by eapply others_kept_trans|].
  rewrite Eq6, Eq5, Eout, <- !(assoc_L (++)). done.
Qed.

(** C36. [readline] for a line of any length, on any heap with room for its first
    buffer of 64 bytes: it prints the prompt, edits the line, and returns a block of
    the heap that starts with the line and a terminator, the blocks of the program
    untouched.  Up to 63 characters the line is the one an editor makes of all the
    keys.  With the 64th the buffer is moved to one of 128 bytes.  If the heap has
    no room for it, the line read so far is returned, that key is lost and the rest
    of the line stays to be read; if the first buffer lies less than 128 bytes
    before the end of the heap, the copy reads past the end; otherwise the line
    goes on up to 127 characters, where it always ends in the first of these ways. *)
Theorem readline_correct live h p h1 q h2 pm prompt keys e rest fuel t :
  heap_inv en base (h, live) → malloc en base BUFSIZE h = Done (p, h1) → p ≠ 0 →
  malloc en base (BUFSIZE * 2) h1 = Done (q, h2) →
  cstr pm prompt → pending t = keys ++ e :: rest → Forall line_key keys → line_end e → (length keys < fuel)%nat →
  (snd (take_line 63 [] keys) = None →
    line_read p q keys = Some (foldl (edit 63) [] keys, echoes 63 [] keys, None)) ∧
  (q ≠ 0 → p + BUFSIZE * 2 ≤ base + HEAP_SIZE → snd (take_line 127 [] keys) = None →
    line_read p q keys = Some (foldl (edit 127) [] keys, echoes 127 [] keys, None)) ∧
  match line_read p q keys with
  | None => readline garbage en base fuel pm h t = Fault
  | Some (line, out, more) => returns (readline garbage en base fuel pm h t) (λ '(r, h', t'),
      (∃ n, heap_inv en base (h', (r, n) :: live) ∧ Z.of_nat (length line) < n) ∧
      holds h' r (line ++ [0]) ∧ others_kept live h h' ∧
      pending t' = match more with None => rest | Some ks => ks ++ e :: rest end ∧
      printed t' = printed t ++ prompt ++ out ++ line_break more)
  end.
Proof.
  intros Hi Em Hp Em2 Hs Ep Hk He Hf. destruct (line_read_edits p q keys) as [Hed1 Hed2].
  split_and!; [done|by auto|]. clear Hed1 Hed2.
  assert (Hi1 : (∃ bs, blocks_are bs ((p, BUFSIZE) :: live) h1) ∧ others_kept live h h1).
  { destruct Hi as (bs & Hrep & Hc & Hl).
    pose proof (malloc_live en base Hbase h bs live BUFSIZE Hrep Hc Hl ltac:(done)) as Hm. rewrite Em in Hm.
    destruct Hm as (bs' & Hrep' & Hc' & Hl' & _ & Hoth). rewrite (proj2 (Z.eqb_neq p 0)) in Hl' by done.
    split; [by exists bs'|]. intros x k j. apply Hoth. }
  destruct Hi1 as [[bs Hi1] Ho1]. unfold readline. rewrite Em. cbn [outcome_bind].
  unfold puts. rewrite (ustrlen_spec _ _ Hs). cbn [outcome_bind].
  rewrite Nat2Z.id. assert (Et : take (length prompt) pm = prompt) by (destruct Hs as [_ [r ->]]; by rewrite take_app_length).
  rewrite Et. destruct (sys_write_spec prompt t) as [Ep1 Eq1]. destruct (sys_write prompt t) as [n t1]. cbn [snd] in Ep1, Eq1.
  rewrite Ep in Ep1. pose proof (readline_loop bs live p q keys e rest h1 h2 t1 fuel Hi1 Em2 Ep1 Hk He Hf) as Hloop.
  change (Z.of_nat (length [])) with 0 in Hloop.
  destruct (line_read p q keys) as [[[line out] more]|]; [|by rewrite Hloop].
  destruct Hloop as (bs' & r & m & h3 & t3 & -> & Hi3 & Hh3 & Hl3 & Ho3 & Ep3 & Eq3). cbn [outcome_bind].
  eapply returns_mono; [apply (readline_finish bs' r m live line h h3 t3 Hi3 Hh3); [lia|lia|by eapply others_kept_trans]|].
  intros [[r' h'] t'] (Hinv & Hh & Ho & ->). split_and!; try done. by rewrite Eq3, Eq1, <- !(assoc_L (++)).
Qed.

(** Without room for the buffer the first key is stored through NULL. *)
Lemma readline_unchecked h h1 pm prompt k rest fuel t :
  malloc en base BUFSIZE h = Done (0, h1) → cstr pm prompt → pending t = k :: rest → line_key k → k ≠ 127 →
  readline garbage en base (S fuel) pm h t = Fault.
Proof.
  intros Em Hs Ep (Hu & H10 & H13) H127. unfold readline. rewrite Em. cbn [outcome_bind].
  unfold puts. rewrite (ustrlen_spec _ _ Hs). cbn [outcome_bind].
  destruct (sys_write_spec (take (Z.to_nat (Z.of_nat (length prompt))) pm) t) as [Ep1 _].
  destruct (sys_write _ t) as [n t1]. cbn [snd] in Ep1. rewrite Ep in Ep1.
  rewrite while_loop_S. unfold readline_step at 2. cbv beta match.
  destruct (getc_raw_spec garbage t1 _ _ Ep1) as (t2 & -> & _).
  rewrite !s8_key, (proj2 (Z.eqb_neq k 13)), (proj2 (Z.eqb_neq k 10)), (proj2 (Z.eqb_neq k 127)) by (done || lia).
  change (u32 (BUFSIZE - 1) <=? 0) with false. cbn [orb outcome_bind].
  unfold set_byte. rewrite awrite_outside; [done|]. lia.
Qed.
End heap.

(** ** A terminal on which the theorems apply: the keys to come and what is printed *)
#[export] Instance demo_console : Console (list Z * list Z) := {
  sys_read t := (head t.1, (tail t.1, t.2));
  sys_write l t := (Z.of_nat (length l), (t.1, t.2 ++ l))
}.

#[export] Instance demo_console_spec : ConsoleSpec (list Z * list Z).
Proof.
  refine {| pending := fst; printed := snd |}.
  - intros [keys out] c l E. simpl in *. by subst keys.
  - done.
Defined.

(** "a", rubbed out, "b", return. *)
Lemma demo_keys : Forall line_key [97; 127; 98].
Proof. repeat constructor; done. Qed.

Lemma readline_static_correct_witness :
  returns (readline_static 0 4 [9; 9; 9] 3 ([97; 127; 98; 13], [])) (λ '(n, s, t),
    n = 1 ∧ s !! 0%nat = Some 98 ∧ printed t = [97; 8; 32; 8; 98; 10]).
Proof.
  eapply returns_mono; [apply (readline_static_correct 0 2 [97; 127; 98] 13 [] 4 [9; 9; 9] ([97; 127; 98; 13], []));
    [done|exact demo_keys|by right|simpl; lia|done|simpl; lia]|].
  intros [[n s] t] (-> & _ & [r ->] & _ & _ & _ & ->). split_and!; done.
Defined.

Lemma gets_off_by_one_witness :
  gets 0 [9; 9; 9] 3 ([97; 98; 99], []) = Fault.
Proof.
  apply (gets_off_by_one 0 [97; 98] [99] [9; 9; 9] ([97; 98; 99], [])); [done|by repeat constructor|done|done].
Defined.

Lemma fresh_inv : heap_inv Big 4096 (fresh, []).
Proof. exists [Blk false 4096 HEAP_SIZE]. split_and!; [exact fresh_rep|done|]. exists []. by split. Qed.

(** A heap with a gap behind a small block: the second buffer fits the gap. *)
Definition gap_heap : heap_t * list (Z * Z) :=
  match (let* '(a, h) := malloc Big 4096 136 fresh in
         let* '(x, h) := malloc Big 4096 8 h in
         let* h := UserHeap.free Big 4096 a h in Done (h, [(x, 8)])) with
  | Done s => s | _ => (fresh, []) end.

Lemma gap_heap_inv : heap_inv Big 4096 gap_heap.
Proof.
  eapply (heap_step_inv Big 4096 demo_base (_, [(4204, 8); (4216, 136)])).
  - eapply (heap_step_inv Big 4096 demo_base (_, [(4216, 136)])).
    + eapply (heap_step_inv Big 4096 demo_base (fresh, [])); [exact fresh_inv|].
      apply (heap_malloc Big 4096 fresh [] 136 4216); [done|]. vm_compute. reflexivity.
    + apply (heap_malloc Big 4096 _ [(4216, 136)] 8 4204); [done|]. vm_compute. reflexivity.
  - apply (heap_free Big 4096 _ _ 4216 136); [apply Permutation_swap|]. vm_compute. reflexivity.
Qed.

Definition gap_heap1 : heap_t :=
  match malloc Big 4096 BUFSIZE (fst gap_heap) with Done (_, h) => h | _ => fresh end.
Definition gap_heap2 : heap_t :=
  match malloc Big 4096 (BUFSIZE * 2) gap_heap1 with Done (_, h) => h | _ => fresh end.

Lemma gap_heap_malloc :
  malloc Big 4096 BUFSIZE (fst gap_heap) = Done (4136, gap_heap1) ∧
  malloc Big 4096 (BUFSIZE * 2) gap_heap1 = Done (4216, gap_heap2).
Proof. by vm_compute. Qed.

(** A line of 64 characters. *)
Lemma long_keys : Forall line_key (replicate 64 97).
Proof. apply Forall_replicate. done. Qed.

Lemma readline_correct_witness :
  returns (readline 0 Big 4096 65 [62; 0] (fst gap_heap) (replicate 64 97 ++ [13], [])) (λ '(r, h, t),
    get_byte 4096 (r + 63) h = Done 97 ∧ get_byte 4096 (r + 64) h = Done 0 ∧
    printed t = 62 :: replicate 64 97 ++ [10]).
Proof.
  pose proof (readline_correct 0 Big 4096 demo_base (snd gap_heap) (fst gap_heap) 4136 gap_heap1 4216 gap_heap2 [62; 0] [62]
    (replicate 64 97) 13 [] 65 (replicate 64 97 ++ [13], []) gap_heap_inv (proj1 gap_heap_malloc) ltac:(lia)
    (proj2 gap_heap_malloc) ltac:(apply cstr_cons; [done|apply cstr_nil]) eq_refl long_keys ltac:(by right) ltac:(simpl; lia))
    as (_ & _ & H).
  assert (E : line_read 4096 4136 4216 (replicate 64 97) = Some (replicate 64 97, replicate 64 97, None)) by (vm_compute; reflexivity).
  rewrite E in H. eapply returns_mono; [exact H|]. intros [[r h] t] (_ & Hh & _ & _ & ->).
  split_and!; [by apply (Hh 63%nat)|by apply (Hh 64%nat)|reflexivity].
Defined.

(** On a fresh heap the first buffer is at its end: the 64th character faults. *)
Example readline_long_line :
  readline 0 Big 4096 65 [62; 0] fresh (replicate 64 97 ++ [13], []) = Fault.
Proof. vm_compute. reflexivity. Qed.
