(* ===== verification/Printf.v ===== *)
(** * Formatted output (lib/xprintf.c and the copy of it in userland/lib.c)

    The engine [vxnprintf] behind [kprintf], [snprintf] and the userland
    [printf], for the MIPS32 machine.  A format is the list of bytes from the
    pointer to the end of its object; arguments are typed values ([parg]), and
    fetching one of another type than was passed is a [Fault].  The two copies
    differ in the size of the temporary buffer of [print_uint] and in the long
    arguments, which only the kernel has: a [variant]. *)

From S2P Require Import Prelude.

Record variant := Variant { rev_size : Z; longs : bool }.
Definition kernel_variant : variant := Variant 22 true.
Definition user_variant : variant := Variant 11 false.

(** An [int] (as a signed number), an [uint64_t], a string. *)
Inductive parg := AInt (z : Z) | ALong (z : Z) | AStr (s : list Z).

Definition FLAG_TTY : Z := 0x8000.
Definition FLAG_SMALLS : Z := 0x01.
Definition FLAG_ALT : Z := 0x02.
Definition FLAG_ZEROPAD : Z := 0x04.
Definition FLAG_LEFT : Z := 0x08.
Definition FLAG_SPACE : Z := 0x10.
Definition FLAG_SIGN : Z := 0x20.

(** [flags & f], as a condition. *)
Definition has (flags f : Z) : bool := negb (Z.land flags f =? 0).

(** Where the output goes: the buffer, the pointer [buf] into it and what has
    been sent to the terminal. *)
Record sink := Sink { buffer : list Z; buf : Z; tty : list Z }.

Definition printc (c flags : Z) (s : sink) : outcome sink :=
  if has flags FLAG_TTY then
    Done (if negb (c =? 0) then Sink (buffer s) (buf s) (tty s ++ [c]) else s)
  else
    let* b := awrite (buffer s) (buf s) c in Done (Sink b (buf s) (tty s)).

Definition move (d : Z) (s : sink) : sink := Sink (buffer s) (buf s + d) (tty s).

(** [printc(buf++, c, flags)]. *)
Definition put (c flags : Z) (s : sink) : outcome sink :=
  let* s := printc c flags s in Done (move 1 s).

(** "0123456789ABCDEF0123456789abcdef" *)
Definition digits : list Z :=
  [48; 49; 50; 51; 52; 53; 54; 55; 56; 57; 65; 66; 67; 68; 69; 70;
   48; 49; 50; 51; 52; 53; 54; 55; 56; 57; 97; 98; 99; 100; 101; 102].

(** The first loop of [print_uint]: the digits of [n] in reverse order.  A
    32-bit number has at most 32 digits. *)
Definition produce (flags base : Z) (rev : list Z) (n : Z) : outcome (Z * list Z) :=
  while_loop 33 (λ '(i, rev, n),
    let* d := aread digits (if has flags FLAG_SMALLS then 16 + n mod base else n mod base) in
    let* rev := awrite rev i d in
    if n / base =? 0 then Done (inr (i + 1, rev)) else Done (inl (i + 1, rev, n / base))) (0, rev, n).

(** [while(i < limit) { rev[i] = c; i++; }] *)
Definition pad (c limit i : Z) (rev : list Z) : outcome (Z * list Z) :=
  let* rev := for_each i limit (λ j rev, awrite rev j c) rev in
  Done (Z.max i limit, rev).

(** The last loop of [print_uint]. *)
Definition emit (flags size : Z) (rev : list Z) (i : Z) (s : sink) : outcome (Z * sink) :=
  while_loop (S (Z.to_nat (i + 1))) (λ '(i, written, s),
    if (0 <=? i) && (written <? size) then
      let* c := aread rev i in
      let* s := put c flags s in
      Done (inl (i - 1, written + 1, s))
    else Done (inr (written, s))) (i, 0, s).

Section engine.
Variable v : variant.

Definition print_uint (size n base flags prec width : Z) (s : sink) : outcome (Z * sink) :=
  if size <=? 0 then Done (0, s)
  else
  let* '(i, rev) := produce flags base (replicate (Z.to_nat (rev_size v)) 0) n in
  let prec := MIN prec (rev_size v) in
  let width := MIN width (rev_size v) in
  let* '(i, rev) := pad 48 prec i rev in
  let* '(i, rev) := pad 32 width i rev in
  emit flags size rev (i - 1) s.

(** [scan_int]: the number and the rest of the string. *)
Fixpoint scan_int (value : Z) (s : list Z) : outcome (Z * list Z) :=
  match s with
  | [] => Fault
  | c :: r =>
      if (48 <? s8 c) && (s8 c <? 57) then scan_int (s32 (10 * value + (s8 c - 48))) r
      else Done (value, s)
  end.

(** One modifier: the new flags, width, precision and format, or [None] for
    another character. *)
Definition modifier (flags width prec ch : Z) (fmt : list Z)
    : outcome (option (Z * Z * Z * list Z)) :=
  if ch =? 35 then Done (Some (Z.lor flags FLAG_ALT, width, prec, fmt))
  else if ch =? 48 then Done (Some (Z.lor flags FLAG_ZEROPAD, width, prec, fmt))
  else if ch =? 32 then Done (Some (Z.lor flags FLAG_SPACE, width, prec, fmt))
  else if ch =? 43 then Done (Some (Z.lor flags FLAG_SIGN, width, prec, fmt))
  else if ch =? 45 then Done (Some (Z.lor flags FLAG_LEFT, width, prec, fmt))
  else if ch =? 46 then
    let* '(prec, fmt) := scan_int 0 fmt in Done (Some (flags, width, prec, fmt))
  else if (49 <=? ch) && (ch <=? 57) then
    let* '(width, fmt) := scan_int 0 (ch :: fmt) in Done (Some (flags, width, prec, fmt))
  else Done None.

(** The loop over the modifiers; [ch] is the character after them. *)
Definition modifiers (fuel : nat) (flags ch : Z) (fmt : list Z)
    : outcome (Z * Z * Z * Z * list Z) :=
  while_loop fuel (λ '(flags, width, prec, ch, fmt),
    let* m := modifier flags width prec ch fmt in
    match m with
    | None => Done (inr (flags, width, prec, ch, fmt))
    | Some (flags, width, prec, fmt) =>
        match fmt with
        | [] => Fault
        | ch :: fmt =>
            if ch =? 0 then Done (inr (flags, width, prec, ch, fmt))
            else Done (inl (flags, width, prec, ch, fmt))
        end
    end) (flags, -1, -1, ch, fmt).

(** [va_arg] *)
Definition va_int (args : list parg) : outcome (Z * list parg) :=
  match args with AInt z :: r => Done (z, r) | _ => Fault end.
Definition va_long (args : list parg) : outcome (Z * list parg) :=
  match args with ALong z :: r => Done (z, r) | _ => Fault end.
Definition va_str (args : list parg) : outcome (list Z * list parg) :=
  match args with AStr s :: r => Done (s, r) | _ => Fault end.

(** The argument of [u], [p], [x] and [X]: a long one if the character at [p] is
    [L] or [l], which is then skipped. *)
Definition va_unsigned (p fmt : list Z) (args : list parg) : outcome (Z * list Z * list parg) :=
  let* c := if longs v then match p with [] => Fault | c :: _ => Done c end else Done 0 in
  if (c =? 76) || (c =? 108) then
    let* '(z, args) := va_long args in Done (u32 z, drop 1 fmt, args)
  else
    let* '(z, args) := va_int args in Done (u32 z, fmt, args).

(** What one conversion leaves: the characters written so far, the format, the
    arguments and the sink. *)
Definition conv : Type := Z * list Z * list parg * sink.

Definition conv_signed (size written flags : Z) (fmt : list Z) (args : list parg) (s : sink)
    : outcome conv :=
  let* '(arg, args) := va_int args in
  let* '(written, arg, s) :=
    if arg <? 0 then
      let* s := put 45 flags s in Done (written + 1, s32 (- arg), s)
    else Done (written, arg, s) in
  let* '(written, s) :=
    if has flags FLAG_SIGN then
      let* s := put 43 flags s in Done (written + 1, s)
    else if has flags FLAG_SPACE then
      let* s := put 32 flags s in Done (written + 1, s)
    else Done (written, s) in
  let* '(w, s) := print_uint (size - written) (u32 arg) 10 flags 0 0 s in
  Done (written + w, fmt, args, s).

(** [if (prec < width && (flags & FLAG_ZEROPAD)) prec = width;] *)
Definition zero_prec (flags prec width : Z) : Z :=
  if (prec <? width) && has flags FLAG_ZEROPAD then width else prec.

Definition conv_octal (size written flags width prec : Z) (fmt : list Z) (args : list parg) (s : sink)
    : outcome conv :=
  let prec := zero_prec flags prec width in
  let* '(z, args) := va_int args in
  let* '(w, s) := print_uint (size - written) (u32 z) 8 flags prec width s in
  Done (written + w, fmt, args, s).

Definition conv_unsigned (size written flags width prec : Z) (p fmt : list Z) (args : list parg)
    (s : sink) : outcome conv :=
  let prec := zero_prec flags prec width in
  let* '(z, fmt, args) := va_unsigned p fmt args in
  let* '(w, s) := print_uint (size - written) z 10 flags prec width s in
  Done (written + w, fmt, args, s).

Definition conv_hex (size written flags width prec : Z) (p fmt : list Z) (args : list parg)
    (s : sink) : outcome conv :=
  let* '(written, width, s) :=
    if has flags FLAG_ALT then
      let* s := put 48 flags s in
      let written := written + 1 in
      let* '(written, s) :=
        if written <? size then let* s := put 120 flags s in Done (written + 1, s)
        else Done (written, s) in
      Done (written, width - 2, s)
    else Done (written, width, s) in
  let prec := zero_prec flags prec width in
  let* '(z, fmt, args) := va_unsigned p fmt args in
  let* '(w, s) := print_uint (size - written) z 16 flags prec width s in
  Done (written + w, fmt, args, s).

Definition conv_char (written flags : Z) (fmt : list Z) (args : list parg) (s : sink) : outcome conv :=
  let* '(z, args) := va_int args in
  let* s := put (u8 z) flags s in
  Done (written + 1, fmt, args, s).

(** [while(written < w && *s != '\0') { printc(buf++, *s++, flags); written++; }] *)
Fixpoint put_string (w written flags : Z) (str : list Z) (s : sink) : outcome (Z * sink) :=
  if written <? w then
    match str with
    | [] => Fault
    | c :: str =>
        if c =? 0 then Done (written, s)
        else let* s := put c flags s in put_string w (written + 1) flags str s
    end
  else Done (written, s).

Definition conv_string (size written flags prec : Z) (fmt : list Z) (args : list parg) (s : sink)
    : outcome conv :=
  let* '(str, args) := va_str args in
  let w := if negb (prec =? -1) && (s32 (written + prec) <? size) then s32 (written + prec) else size in
  let* '(written, s) := put_string w written flags str s in
  Done (written, fmt, args, s).

(** The conversions.  The flags that [p], [x] and [X] set are not kept: the next
    directive clears them before it reads them. *)
Definition convert (size written flags width prec ch : Z) (p fmt : list Z) (args : list parg) (s : sink)
    : outcome conv :=
  if (ch =? 105) || (ch =? 100) then conv_signed size written flags fmt args s
  else if ch =? 111 then conv_octal size written flags width prec fmt args s
  else if ch =? 117 then conv_unsigned size written flags width prec p fmt args s
  else if ch =? 112 then
    conv_hex size written (Z.lor (Z.lor flags FLAG_ALT) FLAG_SMALLS) width prec p fmt args s
  else if ch =? 120 then conv_hex size written (Z.lor flags FLAG_SMALLS) width prec p fmt args s
  else if ch =? 88 then conv_hex size written flags width prec p fmt args s
  else if ch =? 99 then conv_char written flags fmt args s
  else if ch =? 115 then conv_string size written flags prec fmt args s
  else let* s := put ch flags s in Done (written + 1, fmt, args, s).

(** The end of [vxnprintf]. *)
Definition finish (size written flags : Z) (s : sink) : outcome (Z * sink) :=
  let '(written, s) := if written =? size then (-1, move (-1) s) else (written, s) in
  let* s := printc 0 flags s in
  Done (written, s).

Definition vxnprintf (fuel : nat) (size : Z) (fmt : list Z) (args : list parg) (flags : Z) (s : sink)
    : outcome (Z * sink) :=
  if size <=? 0 then Done (0, s)
  else
  let* '(written, flags, s) := while_loop fuel (λ '(written, flags, fmt, args, s),
    if negb (written <? size) then Done (inr (written, flags, s))
    else
    match fmt with
    | [] => Fault
    | ch :: fmt =>
    if ch =? 0 then Done (inr (written, flags, s))
    else if negb (ch =? 37) then
      let* s := put ch flags s in Done (inl (written + 1, flags, fmt, args, s))
    else
    match fmt with
    | [] => Fault
    | ch :: fmt =>
    let p := fmt in
    if ch =? 0 then Done (inr (written, flags, s))
    else
    let* '(flags, width, prec, ch, fmt) := modifiers fuel (Z.land flags FLAG_TTY) ch fmt in
    if ch =? 0 then Done (inr (written, flags, s))
    else
    let* '(written, fmt, args, s) := convert size written flags width prec ch p fmt args s in
    Done (inl (written, flags, fmt, args, s))
    end
    end) (0, flags, fmt, args, s) in
  finish size written flags s.
End engine.

(** ** The entry points of the kernel *)

Definition vsnprintf (fuel : nat) (str : list Z) (size : Z) (fmt : list Z) (args : list parg)
    : outcome (Z * list Z) :=
  let* '(written, s) := vxnprintf kernel_variant fuel size fmt args 0 (Sink str 0 []) in
  Done (written, buffer s).

Definition snprintf (fuel : nat) (str : list Z) (size : Z) (fmt : list Z) (args : list parg)
    : outcome (Z * list Z) :=
  let* '(written, s) := vxnprintf kernel_variant fuel size fmt args 0 (Sink str 0 []) in
  Done (written, buffer s).

(** The polled terminal with [kprintf_slock] and the interrupt state of the
    processor that prints. *)
Record console := Console { kprintf_slock : Z; intr_enabled : bool; screen : list Z }.

(** [_interrupt_disable] and [spinlock_acquire]: the old interrupt state.  A lock
    that is held is waited for. *)
Definition console_lock (c : console) : outcome (bool * console) :=
  if kprintf_slock c =? 0 then Done (intr_enabled c, Console 1 false (screen c)) else Blocked.

Definition console_unlock (intr_state : bool) (c : console) : console :=
  Console 0 intr_state (screen c).

Definition kvprintf (fuel : nat) (fmt : list Z) (args : list parg) (c : console)
    : outcome (Z * console) :=
  let* '(intr_state, c) := console_lock c in
  let* '(written, s) :=
    vxnprintf kernel_variant fuel 0x7fffffff fmt args FLAG_TTY (Sink [] 0 (screen c)) in
  Done (written, console_unlock intr_state (Console (kprintf_slock c) (intr_enabled c) (tty s))).

Definition kprintf (fuel : nat) (fmt : list Z) (args : list parg) (c : console)
    : outcome (Z * console) :=
  let* '(intr_state, c) := console_lock c in
  let* '(written, s) :=
    vxnprintf kernel_variant fuel 0x7fffffff fmt args FLAG_TTY (Sink [] 0 (screen c)) in
  Done (written, console_unlock intr_state (Console (kprintf_slock c) (intr_enabled c) (tty s))).

(** ** The copy of the userland library *)
Definition user_print_uint := print_uint user_variant.
Definition user_vxnprintf := vxnprintf user_variant.

(** The output of [printf] is the list of characters [putc] has sent. *)
Definition printf (fuel : nat) (fmt : list Z) (args : list parg) (out : list Z)
    : outcome (Z * list Z) :=
  let* '(written, s) := user_vxnprintf fuel 0x7fffffff fmt args FLAG_TTY (Sink [] 0 out) in
  Done (written, tty s).

Definition user_snprintf (fuel : nat) (str : list Z) (size : Z) (fmt : list Z) (args : list parg)
    : outcome (Z * list Z) :=
  let* '(written, s) := user_vxnprintf fuel size fmt args 0 (Sink str 0 []) in
  Done (written, buffer s).
