(* ===== verification/PrintfSpec.v ===== *)
(** * What formatted output means

    The text of a number ([uint_text]), the abstract syntax of formats ([item])
    with its concrete syntax ([fmt_of]) and its meaning ([render]). *)

From S2P Require Import Prelude Libc Printf.

(** ** Numbers *)

(** The digits of a number, least significant first: at least one. *)
Fixpoint digs (base : Z) (fuel : nat) (n : Z) : list Z :=
  match fuel with
  | O => []
  | S f => n mod base :: (if n / base =? 0 then [] else digs base f (n / base))
  end.
Definition le_digits (base n : Z) : list Z := digs base 33 n.

Fixpoint le_value (base : Z) (ds : list Z) : Z :=
  match ds with [] => 0 | d :: ds => d + base * le_value base ds end.

(** The character of a digit. *)
Definition digit_char (smalls : bool) (d : Z) : Z :=
  if d <? 10 then 48 + d else (if smalls then 87 else 55) + d.

(** The text of a number: at least [prec] digits and [width] characters, as far
    as they fit the temporary buffer of [r] characters. *)
Definition uint_text (r : Z) (smalls : bool) (base prec width n : Z) : list Z :=
  let d := reverse (digit_char smalls <$> le_digits base n) in
  let z := replicate (Z.to_nat (Z.min prec r - Z.of_nat (length d))) 48 ++ d in
  replicate (Z.to_nat (Z.min width r - Z.of_nat (length z))) 32 ++ z.

Lemma digs_value base f n :
  2 ≤ base → 0 ≤ n < base ^ Z.of_nat f → le_value base (digs base f n) = n.
Proof.
  intros Hb. revert n. induction f as [|f IH]; intros n Hn; [simpl in *; lia|].
  cbn [digs le_value]. pose proof (Z.div_mod n base).
  destruct (Z.eqb_spec (n / base) 0) as [E|E]; [simpl; lia|].
  rewrite IH; [lia|]. rewrite Nat2Z.inj_succ, Z.pow_succ_r in Hn by lia.
  split; [apply Z.div_pos; lia|apply Z.div_lt_upper_bound; lia].
Qed.

Lemma digs_range base f n : 2 ≤ base → Forall (λ d, 0 ≤ d < base) (digs base f n).
Proof.
  intros Hb. revert n. induction f as [|f IH]; intros n; [constructor|]. cbn [digs].
  constructor; [apply Z.mod_pos_bound; lia|]. destruct (n / base =? 0); [constructor|apply IH].
Qed.

Lemma digs_length base f k n :
  2 ≤ base → (1 ≤ k)%nat → 0 ≤ n < base ^ Z.of_nat k → (length (digs base f n) ≤ k)%nat.
Proof.
  intros Hb. revert k n. induction f as [|f IH]; intros k n Hk Hn; [simpl; lia|]. cbn [digs].
  destruct (Z.eqb_spec (n / base) 0) as [E|E]; [simpl; lia|]. cbn [length].
  destruct k as [|k]; [lia|]. rewrite Nat2Z.inj_succ, Z.pow_succ_r in Hn by lia.
  destruct k as [|k].
  - exfalso. apply E, Z.div_small. lia.
  - apply le_n_S, IH; [lia|].
    split; [apply Z.div_pos; lia|apply Z.div_lt_upper_bound; lia].
Qed.

Lemma le_digits_value base n : 2 ≤ base → is_u32 n → le_value base (le_digits base n) = n.
Proof.
  intros Hb Hn. apply digs_value; [done|]. kunfold. split; [lia|].
  apply Z.lt_le_trans with (2 ^ 32); [lia|].
  transitivity (2 ^ Z.of_nat 33); [by vm_compute|]. apply Z.pow_le_mono_l. lia.
Qed.

(** ** Sinks *)

(** The sink after the text [l]. *)
Definition wr (flags : Z) (l : list Z) (s : sink) : sink :=
  if has flags FLAG_TTY
  then Sink (buffer s) (buf s + Z.of_nat (length l)) (tty s ++ List.filter (λ c, negb (c =? 0)) l)
  else Sink (take (Z.to_nat (buf s)) (buffer s) ++ l ++
             drop (Z.to_nat (buf s) + length l) (buffer s))
            (buf s + Z.of_nat (length l)) (tty s).

(** There is room for [k] characters. *)
Definition has_room (flags k : Z) (s : sink) : Prop :=
  has flags FLAG_TTY = true ∨ (0 ≤ buf s ∧ buf s + k ≤ Z.of_nat (length (buffer s))).

Lemma wr_nil flags s : wr flags [] s = s.
Proof.
  unfold wr. destruct s as [b p t]; simpl. rewrite !app_nil_r, !Z.add_0_r, Nat.add_0_r, take_drop.
  by destruct (has flags FLAG_TTY).
Qed.

Lemma wr_app flags l1 l2 s :
  has_room flags (Z.of_nat (length l1)) s → wr flags (l1 ++ l2) s = wr flags l2 (wr flags l1 s).
Proof.
  unfold wr, has_room. rewrite length_app. destruct (has flags FLAG_TTY) eqn:E; simpl.
  - intros _. rewrite List.filter_app, app_assoc. f_equal. lia.
  - intros [?|[H1 H2]]; [done|].
    assert (Hl : length (take (Z.to_nat (buf s)) (buffer s)) = Z.to_nat (buf s))
      by (rewrite length_take; lia).
    f_equal; [|lia].
    replace (Z.to_nat (buf s + Z.of_nat (length l1))) with (Z.to_nat (buf s) + length l1)%nat by lia.
    rewrite (app_assoc (take _ _) l1), take_app_length', <- !app_assoc
      by (rewrite length_app; lia).
    do 3 f_equal. rewrite app_assoc, drop_app_ge by (rewrite length_app; lia).
    rewrite drop_drop, length_app, Hl. f_equal. lia.
Qed.

Lemma wr_cons flags c l s :
  has_room flags 1 s → wr flags (c :: l) s = wr flags l (wr flags [c] s).
Proof. apply (wr_app flags [c]). Qed.

Lemma has_room_wr flags l k s :
  0 ≤ k → has_room flags (Z.of_nat (length l) + k) s → has_room flags k (wr flags l s).
Proof.
  intros Hk. unfold has_room, wr. destruct (has flags FLAG_TTY); [by left|].
  intros [?|[H1 H2]]; [done|right]. simpl.
  rewrite !length_app, length_take, length_drop. lia.
Qed.

Lemma has_room_le flags k k' s : k' ≤ k → has_room flags k s → has_room flags k' s.
Proof. unfold has_room. intros ? [?|[? ?]]; [by left|right; lia]. Qed.

Lemma put_spec c flags s : has_room flags 1 s → put c flags s = Done (wr flags [c] s).
Proof.
  unfold has_room, put, printc, wr, move. destruct (has flags FLAG_TTY).
  - intros _. simpl. destruct (c =? 0); simpl; by rewrite ?app_nil_r.
  - intros [?|[H1 H2]]; [done|]. rewrite awrite_in_range by lia. simpl. do 2 f_equal.
    rewrite insert_take_drop by lia. do 3 f_equal. lia.
Qed.

(** The flags a terminal needs are kept. *)
Lemma wr_flags f f' l s : has f FLAG_TTY = has f' FLAG_TTY → wr f l s = wr f' l s.
Proof. unfold wr. by intros ->. Qed.

Lemma has_room_flags f f' k s : has f FLAG_TTY = has f' FLAG_TTY → has_room f k s → has_room f' k s.
Proof. unfold has_room. by intros ->. Qed.

(** ** [print_uint] *)
Lemma digit_lookup smalls d :
  0 ≤ d < 16 → aread digits (if (smalls : bool) then 16 + d else d) = Done (digit_char smalls d).
Proof.
  intros Hd. assert (Hall : forallb (λ d, match aread digits d, aread digits (16 + d) with
    | Done a, Done b => (a =? digit_char false d) && (b =? digit_char true d)
    | _, _ => false end) (seqZ 0 16) = true) by (vm_compute; reflexivity).
  rewrite forallb_forall in Hall. specialize (Hall d).
  assert (Hin : In d (seqZ 0 16)) by (apply list_elem_of_In, elem_of_seqZ; lia).
  specialize (Hall Hin). destruct (aread digits d) eqn:E1; try done.
  destruct (aread digits (16 + d)) eqn:E2; try done.
  apply andb_prop in Hall as [Ha Hb]. apply Z.eqb_eq in Ha, Hb. subst.
  by destruct smalls; rewrite ?E1, ?E2.
Qed.

(** The digits written from position [i] on. *)
Lemma produce_loop flags base f : 2 ≤ base ≤ 16 → ∀ i rev n,
  0 ≤ i → i + Z.of_nat (length (digs base f n)) ≤ Z.of_nat (length rev) →
  0 ≤ n < base ^ Z.of_nat f →
  (f ≠ 0)%nat →
  while_loop f (λ '(i, rev, n),
    let* d := aread digits (if has flags FLAG_SMALLS then 16 + n mod base else n mod base) in
    let* rev := awrite rev i d in
    if n / base =? 0 then Done (inr (i + 1, rev)) else Done (inl (i + 1, rev, n / base))) (i, rev, n) =
  Done (i + Z.of_nat (length (digs base f n)),
        take (Z.to_nat i) rev ++ (digit_char (has flags FLAG_SMALLS) <$> digs base f n) ++
        drop (Z.to_nat i + length (digs base f n)) rev).
Proof.
  intros Hb. induction f as [|f IH]; intros i rev n Hi Hlen Hn Hf; [done|].
  cbn [while_loop digs] in *. pose proof (Z.mod_pos_bound n base).
  rewrite digit_lookup by lia. cbn [outcome_bind length] in *.
  rewrite awrite_in_range by lia. cbn [outcome_bind].
  assert (Hrev : <[Z.to_nat i := digit_char (has flags FLAG_SMALLS) (n mod base)]> rev =
    take (Z.to_nat i) rev ++ digit_char (has flags FLAG_SMALLS) (n mod base) :: drop (S (Z.to_nat i)) rev)
    by (apply insert_take_drop; lia).
  destruct (Z.eqb_spec (n / base) 0) as [E|E].
  { rewrite Hrev. cbn [length fmap list_fmap app]. by rewrite Nat.add_1_r. }
  destruct f as [|f]; [simpl in Hn; exfalso; apply E, Z.div_small; lia|].
  rewrite Nat2Z.inj_succ, Z.pow_succ_r in Hn by lia.
  rewrite IH; [|lia|rewrite length_insert; lia| |lia].
  - rewrite Hrev. set (c := digit_char _ (n mod base)).
    assert (Hl : length (take (Z.to_nat i) rev ++ [c]) = Z.to_nat (i + 1))
      by (rewrite length_app, length_take; simpl; lia).
    replace (take (Z.to_nat i) rev ++ c :: drop (S (Z.to_nat i)) rev)
      with ((take (Z.to_nat i) rev ++ [c]) ++ drop (S (Z.to_nat i)) rev) by by rewrite <- app_assoc.
    rewrite take_app_length', drop_app_ge, drop_drop, Hl by lia.
    rewrite <- app_assoc. cbn [fmap list_fmap app length]. fold c.
    do 2 f_equal; [lia|]. do 4 f_equal. lia.
  - split; [apply Z.div_pos; lia|apply Z.div_lt_upper_bound; lia].
Qed.

Lemma pad_spec c limit i rev :
  0 ≤ i → i ≤ Z.of_nat (length rev) → limit ≤ Z.of_nat (length rev) →
  pad c limit i rev = Done (Z.max i limit,
    take (Z.to_nat i) rev ++ replicate (Z.to_nat (limit - i)) c ++
    drop (Z.to_nat i + Z.to_nat (limit - i)) rev).
Proof.
  intros Hi Hr Hl. unfold pad. destruct (decide (limit ≤ i)).
  - unfold for_each, for_loop. replace (Z.to_nat (limit - i)) with 0%nat by lia. simpl.
    rewrite Nat.add_0_r, take_drop. done.
  - match goal with |- outcome_bind _ ?m = _ => destruct (returns_inv m (λ r, r =
      take (Z.to_nat i) rev ++ replicate (Z.to_nat (limit - i)) c ++
      drop (Z.to_nat i + Z.to_nat (limit - i)) rev)) as (r & -> & ->); [|done] end.
    apply (for_each_inv (λ j r, r = take (Z.to_nat i) rev ++ replicate (Z.to_nat (j - i)) c ++
      drop (Z.to_nat i + Z.to_nat (j - i)) rev)); [lia| |].
    { replace (Z.to_nat (i - i)) with 0%nat by lia. simpl. by rewrite Nat.add_0_r, take_drop. }
    intros j r Hj ->. rewrite awrite_in_range by (rewrite !length_app, length_take,
      length_replicate, length_drop; lia). simpl.
    rewrite app_assoc, insert_app_r_alt by (rewrite length_app, length_take, length_replicate; lia).
    rewrite length_app, length_take, length_replicate.
    replace (Z.to_nat j - _)%nat with 0%nat by lia.
    destruct (lookup_lt_is_Some_2 rev (Z.to_nat i + Z.to_nat (j - i))) as [x Hx]; [lia|].
    rewrite (drop_S _ _ _ Hx). cbn [insert list_insert].
    replace (Z.to_nat (j + 1 - i)) with (S (Z.to_nat (j - i))) by lia.
    rewrite replicate_S_end, <- !app_assoc. cbn [app]. do 4 f_equal. lia.
Qed.

Lemma pad_app c limit (X J : list Z) :
  limit ≤ Z.of_nat (length (X ++ J)) →
  let X' := X ++ replicate (Z.to_nat (limit - Z.of_nat (length X))) c in
  pad c limit (Z.of_nat (length X)) (X ++ J) =
  Done (Z.of_nat (length X'), X' ++ drop (Z.to_nat (limit - Z.of_nat (length X))) J).
Proof.
  intros Hl X'. rewrite length_app in Hl. rewrite pad_spec by (rewrite ?length_app; lia).
  rewrite Nat2Z.id, take_app_length, drop_app_ge by lia. do 2 f_equal.
  - unfold X'. rewrite length_app, length_replicate. lia.
  - unfold X'. rewrite <- app_assoc. do 3 f_equal. lia.
Qed.

Lemma emit_loop flags size rev k : ∀ i written s,
  i = Z.of_nat k - 1 → i < Z.of_nat (length rev) → 0 ≤ written ≤ size →
  has_room flags (size - written) s →
  while_loop (S k) (λ '(i, written, s),
    if (0 <=? i) && (written <? size) then
      let* c := aread rev i in
      let* s := put c flags s in
      Done (inl (i - 1, written + 1, s))
    else Done (inr (written, s))) (i, written, s) =
  let l := take (Z.to_nat (size - written)) (reverse (take k rev)) in
  Done (written + Z.of_nat (length l), wr flags l s).
Proof.
  induction k as [|k IH]; intros i written s -> Hi Hw Hroom; cbv zeta; rewrite while_loop_S.
  - rewrite firstn_O, reverse_nil, take_nil. simpl. by rewrite wr_nil, Z.add_0_r.
  - destruct (Z.leb_spec 0 (Z.of_nat (S k) - 1)); [|lia].
    destruct (Z.ltb_spec written size); cbn [andb].
    + destruct (aread_in_range rev (Z.of_nat (S k) - 1)) as (c & Hc & ->); [lia|].
      cbn [outcome_bind]. rewrite put_spec by (eapply has_room_le; [|exact Hroom]; lia).
      cbn [outcome_bind]. rewrite IH; [|lia|lia|lia|].
      * replace (Z.to_nat (Z.of_nat (S k) - 1)) with k in Hc by lia.
        rewrite (take_S_r _ _ _ Hc), reverse_snoc.
        replace (Z.to_nat (size - written)) with (S (Z.to_nat (size - (written + 1)))) by lia.
        cbn [take]. rewrite (wr_cons flags c (take _ _)) by (eapply has_room_le; [|exact Hroom]; lia).
        cbv zeta. cbn [length]. do 2 f_equal. lia.
      * apply (has_room_wr flags [c]); [lia|]. eapply has_room_le; [|exact Hroom]. simpl. lia.
    + replace (size - written) with 0 by lia. simpl. by rewrite wr_nil, Z.add_0_r.
Qed.

(** [print_uint] writes the text of the number, cut off at [size]. *)
Lemma print_uint_spec v size n base flags prec width s :
  2 ≤ base ≤ 16 → is_u32 n → Z.of_nat (length (le_digits base n)) ≤ rev_size v →
  has_room flags (Z.max 0 size) s →
  let l := take (Z.to_nat size)
             (uint_text (rev_size v) (has flags FLAG_SMALLS) base prec width n) in
  print_uint v size n base flags prec width s = Done (Z.of_nat (length l), wr flags l s).
Proof.
  intros Hb Hn Hr Hroom l. unfold print_uint.
  destruct (Z.leb_spec size 0) as [Hs|Hs].
  { subst l. replace (Z.to_nat size) with 0%nat by lia. simpl. by rewrite wr_nil. }
  unfold produce. rewrite produce_loop; [|done|lia|rewrite length_replicate; unfold le_digits in Hr; lia
    | |done].
  2:{ kunfold. split; [lia|]. apply Z.lt_le_trans with (2 ^ 32); [lia|].
      transitivity (2 ^ Z.of_nat 33); [by vm_compute|]. apply Z.pow_le_mono_l. lia. }
  fold (le_digits base n). set (d := le_digits base n) in *. change (Z.to_nat 0) with 0%nat.
  rewrite firstn_O. cbn [app outcome_bind]. set (sm := has flags FLAG_SMALLS) in *. rewrite Z.add_0_l, drop_replicate.
  rewrite !MIN_spec. set (R := rev_size v) in *.
  set (X := digit_char sm <$> d). set (J := replicate _ 0).
  assert (HXJ : Z.of_nat (length (X ++ J)) = R).
  { unfold X, J. rewrite length_app, length_fmap, length_replicate. lia. }
  replace (Z.of_nat (length d)) with (Z.of_nat (length X)) by (unfold X; by rewrite length_fmap).
  rewrite pad_app by lia. cbn [outcome_bind].
  set (X1 := X ++ _). set (J1 := drop _ J).
  assert (HX1 : Z.of_nat (length (X1 ++ J1)) = R).
  { unfold X1, J1. rewrite !length_app, length_replicate, length_drop. rewrite length_app in HXJ. lia. }
  rewrite pad_app by lia. cbn [outcome_bind]. set (X2 := X1 ++ _). set (J2 := drop _ J1).
  assert (HX2 : Z.of_nat (length (X2 ++ J2)) = R).
  { unfold X2, J2. rewrite !length_app, length_replicate, length_drop. rewrite length_app in HX1. lia. }
  unfold emit. replace (Z.to_nat (Z.of_nat (length X2) - 1 + 1)) with (length X2) by lia.
  rewrite emit_loop; [|lia|rewrite length_app in HX2 |- *; lia|lia|by rewrite Z.sub_0_r, Z.max_r in * by lia].
  cbv zeta. rewrite take_app_length, Z.sub_0_r, Z.add_0_l.
  assert (El : take (Z.to_nat size) (reverse X2) = l); [|by rewrite El].
  unfold l, uint_text. f_equal. fold d. fold X. unfold X2, X1.
  rewrite !reverse_app, !reverse_replicate, !length_app, !length_replicate, length_reverse.
  rewrite (Nat.add_comm (length X)). done.
Qed.
