(* ===== verification/PrintfRender.v ===== *)
(** * Formats and their meaning

    The abstract syntax of formats, its concrete syntax, and the text a format
    stands for; that the engine writes this text, cut off at the size of the
    buffer. *)

From S2P Require Import Prelude Libc Printf PrintfSpec.

(** ** Abstract syntax *)

(** A conversion: flag characters, digits of the width, digits of the precision
    and the type. *)
Record cspec := CSpec {
  c_flags : list Z;
  c_width : list Z;
  c_prec : option (list Z);
  c_type : Z
}.

Inductive item :=
| Lit (c : Z)
| Conv (c : cspec)
| Long (ty : Z).  (** as in "%uL" *)

Definition prec_chars (p : option (list Z)) : list Z :=
  match p with Some ds => 46 :: ds | None => [] end.
Definition fmt_item (i : item) : list Z :=
  match i with
  | Lit c => [c]
  | Conv c => 37 :: c_flags c ++ c_width c ++ prec_chars (c_prec c) ++ [c_type c]
  | Long ty => [37; ty; 76]
  end.
Definition fmt_of (l : list item) : list Z := concat (fmt_item <$> l).

Definition flag_of (ch : Z) : option Z :=
  if ch =? 35 then Some FLAG_ALT else if ch =? 48 then Some FLAG_ZEROPAD
  else if ch =? 32 then Some FLAG_SPACE else if ch =? 43 then Some FLAG_SIGN
  else if ch =? 45 then Some FLAG_LEFT else None.
Definition add_flag (f ch : Z) : Z := Z.lor f (default 0 (flag_of ch)).
Definition width_of (ds : list Z) : Z := match ds with [] => -1 | _ => digits_value ds end.
Definition prec_of (p : option (list Z)) : Z :=
  match p with Some ds => digits_value ds | None => -1 end.

(** The digits [scan_int] knows: it leaves out 0 and 9. *)
Definition scan_digit (d : Z) : Prop := 48 < d < 57.
Definition is_modifier (ch : Z) : bool :=
  bool_decide (is_Some (flag_of ch)) || (ch =? 46) || ((49 <=? ch) && (ch <=? 57)).

Definition number_type (ty : Z) : bool := (ty =? 117) || (ty =? 112) || (ty =? 120) || (ty =? 88).

Definition cspec_ok (size : Z) (c : cspec) : Prop :=
  Forall (λ ch, is_Some (flag_of ch)) (c_flags c) ∧
  Forall scan_digit (c_width c) ∧ Forall scan_digit (default [] (c_prec c)) ∧
  digits_value (c_width c) < 2 ^ 31 ∧ digits_value (default [] (c_prec c)) < 2 ^ 31 ∧
  (c_type c = 115 → size + digits_value (default [] (c_prec c)) < 2 ^ 31) ∧
  is_u8 (c_type c) ∧ c_type c ≠ 0 ∧ is_modifier (c_type c) = false.

(** ** Meaning *)

(** The contents of a zero-terminated string. *)
Fixpoint c_string (mem : list Z) : option (list Z) :=
  match mem with
  | [] => None
  | c :: mem => if c =? 0 then Some [] else cons c <$> c_string mem
  end.

Definition hex_text (r flags width prec n : Z) : list Z :=
  let width := if has flags FLAG_ALT then width - 2 else width in
  (if has flags FLAG_ALT then [48; 120] else []) ++
  uint_text r (has flags FLAG_SMALLS) 16 (zero_prec flags prec width) width n.

(** The text of a conversion and the remaining arguments; [None] if the argument
    has another type, and for a negative number with the flag + or space, where
    the code writes two signs. *)
Definition conv_text (r flags width prec ch : Z) (args : list parg) : option (list Z * list parg) :=
  if (ch =? 105) || (ch =? 100) then
    match args with
    | AInt z :: args =>
        let mark := if has flags FLAG_SIGN then [43] else if has flags FLAG_SPACE then [32] else [] in
        if z <? 0 then
          match mark with
          | [] => Some (45 :: uint_text r (has flags FLAG_SMALLS) 10 0 0 (- z), args)
          | _ => None
          end
        else Some (mark ++ uint_text r (has flags FLAG_SMALLS) 10 0 0 z, args)
    | _ => None
    end
  else if ch =? 111 then
    match args with
    | AInt z :: args => Some (uint_text r (has flags FLAG_SMALLS) 8 (zero_prec flags prec width) width (u32 z), args)
    | _ => None
    end
  else if ch =? 117 then
    match args with
    | AInt z :: args => Some (uint_text r (has flags FLAG_SMALLS) 10 (zero_prec flags prec width) width (u32 z), args)
    | _ => None
    end
  else if number_type ch then
    let flags := if ch =? 112 then Z.lor (Z.lor flags FLAG_ALT) FLAG_SMALLS
                 else if ch =? 120 then Z.lor flags FLAG_SMALLS else flags in
    match args with
    | AInt z :: args => Some (hex_text r flags width prec (u32 z), args)
    | _ => None
    end
  else if ch =? 99 then
    match args with AInt z :: args => Some ([u8 z], args) | _ => None end
  else if ch =? 115 then
    match args with
    | AStr mem :: args =>
        l ← c_string mem;
        Some (if prec =? -1 then l else take (Z.to_nat prec) l, args)
    | _ => None
    end
  else Some ([ch], args).

(** A long argument is printed modulo [2^32], like an [int]. *)
Definition long_text (r ty : Z) (args : list parg) : option (list Z * list parg) :=
  match args with ALong z :: args => conv_text r 0 (-1) (-1) ty (AInt z :: args) | _ => None end.

Fixpoint render (r : Z) (l : list item) (args : list parg) : option (list Z) :=
  match l with
  | [] => Some []
  | Lit c :: l => cons c <$> render r l args
  | Conv c :: l =>
      '(t, args) ← conv_text r (foldl add_flag 0 (c_flags c)) (width_of (c_width c))
                     (prec_of (c_prec c)) (c_type c) args;
      app t <$> render r l args
  | Long ty :: l => '(t, args) ← long_text r ty args; app t <$> render r l args
  end.

(** An L after a number conversion without modifiers makes its argument long. *)
Definition starts_long (l : list item) : bool :=
  match fmt_of l with c :: _ => (c =? 76) || (c =? 108) | [] => false end.

Fixpoint items_ok (v : variant) (size : Z) (l : list item) : Prop :=
  match l with
  | [] => True
  | Lit c :: l => is_u8 c ∧ c ≠ 0 ∧ c ≠ 37 ∧ items_ok v size l
  | Conv c :: l => cspec_ok size c ∧ items_ok v size l ∧
      (longs v = true → c_flags c = [] → c_width c = [] → c_prec c = None →
       number_type (c_type c) = true → starts_long l = false)
  | Long ty :: l => longs v = true ∧ number_type ty = true ∧ items_ok v size l
  end.

Definition arg_ok (a : parg) : Prop :=
  match a with AInt z => is_s32 z | ALong z => 0 ≤ z < 2 ^ 64 | AStr s => Forall is_u8 s end.

(** ** Flags *)
Lemma has_lor f g x : has (Z.lor f g) x = has f x || has g x.
Proof.
  unfold has. rewrite Z.land_lor_distr_l.
  destruct (Z.eqb_spec (Z.land f x) 0), (Z.eqb_spec (Z.land g x) 0),
    (Z.eqb_spec (Z.lor (Z.land f x) (Z.land g x)) 0) as [E|E]; try done.
  - exfalso. apply E. by apply Z.lor_eq_0_iff.
  - apply Z.lor_eq_0_iff in E. naive_solver.
  - apply Z.lor_eq_0_iff in E. naive_solver.
  - apply Z.lor_eq_0_iff in E. naive_solver.
Qed.

Lemma has_tty f : has (Z.land f FLAG_TTY) FLAG_TTY = has f FLAG_TTY.
Proof. unfold has. by rewrite <- Z.land_assoc, Z.land_diag. Qed.

Definition plain_flag (x : Z) : Prop := Z.land FLAG_TTY x = 0.

Lemma has_masked f x : plain_flag x → has (Z.land f FLAG_TTY) x = false.
Proof. unfold has, plain_flag. rewrite <- Z.land_assoc. intros ->. by rewrite Z.land_0_r. Qed.

Lemma foldl_flags f l : foldl add_flag f l = Z.lor f (foldl add_flag 0 l).
Proof.
  revert f. induction l as [|c l IH]; intros f; cbn [foldl]; [by rewrite Z.lor_0_r|].
  rewrite IH, (IH (add_flag 0 c)). unfold add_flag. by rewrite Z.lor_0_l, Z.lor_assoc.
Qed.

(** Flags that agree on what the conversions test. *)
Definition same_flags (f g : Z) : Prop :=
  has f FLAG_SMALLS = has g FLAG_SMALLS ∧ has f FLAG_ALT = has g FLAG_ALT ∧
  has f FLAG_ZEROPAD = has g FLAG_ZEROPAD ∧ has f FLAG_SPACE = has g FLAG_SPACE ∧
  has f FLAG_SIGN = has g FLAG_SIGN.

Lemma same_flags_lor f g x : same_flags f g → same_flags (Z.lor f x) (Z.lor g x).
Proof. intros (? & ? & ? & ? & ?). unfold same_flags. rewrite !has_lor. split_and!; congruence. Qed.

Lemma same_flags_masked f x : same_flags (Z.lor (Z.land f FLAG_TTY) x) x.
Proof. unfold same_flags. rewrite !has_lor, !has_masked by done. done. Qed.

Lemma conv_text_flags r f g width prec ch args :
  same_flags f g → conv_text r f width prec ch args = conv_text r g width prec ch args.
Proof.
  intros H. assert (Hh : ∀ w p n f g, same_flags f g → hex_text r f w p n = hex_text r g w p n).
  { clear. intros w p n f g (E1 & E2 & E3 & E4 & E5). unfold hex_text, zero_prec. by rewrite E1, E2, E3. }
  unfold conv_text. pose proof H as (E1 & E2 & E3 & E4 & E5).
  unfold zero_prec. rewrite E1, E3, E4, E5.
  repeat (case_match; try done); (do 2 f_equal; apply Hh; repeat apply same_flags_lor; done).
Qed.

(** ** Conversions *)

(** [m] has written the text [T] as far as it fits. *)
Definition outputs (m : outcome conv) (size written flags : Z) (s : sink)
    (T : list Z) (fmt : list Z) (args : list parg) : Prop :=
  let T' := take (Z.to_nat (size - written)) T in
  m = Done (written + Z.of_nat (length T'), fmt, args, wr flags T' s).

Section conversions.
Variables (v : variant) (size written flags : Z) (s : sink).
Hypothesis (Hv : 11 ≤ rev_size v) (Hw : 0 ≤ written < size).
Hypothesis Hroom : has_room flags (size - written) s.

Lemma le_digits_short base n : base = 8 ∨ base = 10 ∨ base = 16 → is_u32 n →
  Z.of_nat (length (le_digits base n)) ≤ rev_size v.
Proof.
  intros Hb Hn. pose proof (digs_length base 33 11 n) as H. unfold le_digits.
  assert ((length (digs base 33 n) ≤ 11)%nat); [|lia].
  apply H; [lia|lia|]. kunfold. split; [lia|]. apply Z.lt_le_trans with (8 ^ Z.of_nat 11).
  - change (8 ^ Z.of_nat 11) with (2 ^ 33). lia.
  - apply Z.pow_le_mono_l. lia.
Qed.

(** A number after the characters [P]. *)
Lemma print_after P n base prec width f :
  Z.of_nat (length P) ≤ size - written → is_u32 n → base = 8 ∨ base = 10 ∨ base = 16 →
  has f FLAG_TTY = has flags FLAG_TTY →
  let T' := take (Z.to_nat (size - written))
    (P ++ uint_text (rev_size v) (has f FLAG_SMALLS) base prec width n) in
  ∃ w, print_uint v (size - (written + Z.of_nat (length P))) n base f prec width (wr flags P s)
    = Done (w, wr flags T' s) ∧ written + Z.of_nat (length P) + w = written + Z.of_nat (length T').
Proof.
  intros HP Hn Hb Hf T'. eexists. split.
  - rewrite print_uint_spec; [|lia|done|by apply le_digits_short|].
    + rewrite (wr_flags f flags) by done. rewrite <- wr_app.
      * f_equal. f_equal. f_equal. unfold T'. rewrite take_app. f_equal; [|f_equal; lia].
        by rewrite take_ge by lia.
      * eapply has_room_le; [|exact Hroom]. lia.
    + apply (has_room_flags flags); [done|]. apply has_room_wr; [lia|].
      eapply has_room_le; [|exact Hroom]. lia.
  - unfold T'. rewrite take_app, (take_ge P), length_app by lia.
    replace (Z.to_nat (size - (written + Z.of_nat (length P)))) with
      (Z.to_nat (size - written) - length P)%nat by lia. lia.
Qed.

Lemma put1 c f : has f FLAG_TTY = has flags FLAG_TTY → put c f s = Done (wr flags [c] s).
Proof.
  intros E. rewrite put_spec.
  - by rewrite (wr_flags f flags).
  - apply (has_room_flags flags); [done|]. eapply has_room_le; [|exact Hroom]. lia.
Qed.

Lemma conv_signed_spec fmt args T args' ch :
  (ch =? 105) || (ch =? 100) = true → Forall arg_ok args →
  conv_text (rev_size v) flags (-1) (-1) ch args = Some (T, args') →
  outputs (conv_signed v size written flags fmt args s) size written flags s T fmt args'.
Proof.
  intros Hch Hargs. unfold conv_text. rewrite Hch.
  destruct args as [|[z| |] args]; try done. apply Forall_cons in Hargs as [Hz _]. simpl in Hz.
  unfold conv_signed. cbn [va_int outcome_bind].
  destruct (Z.ltb_spec z 0) as [Hneg|Hpos].
  - destruct (has flags FLAG_SIGN), (has flags FLAG_SPACE); try done. intros [= <- <-].
    rewrite put1 by done. cbn [outcome_bind]. rewrite u32_s32, (u32_id (- z)) by klia.
    destruct (print_after [45] (- z) 10 0 0 flags) as (w & E & Ew); [simpl; lia|klia|auto|done|].
    cbn [length] in E, Ew. change (Z.of_nat 1) with 1 in E, Ew.
    rewrite E. unfold outputs. simpl in Ew |- *. by rewrite Ew.
  - cbn [outcome_bind]. rewrite (u32_id z) by klia.
    destruct (has flags FLAG_SIGN); [|destruct (has flags FLAG_SPACE)];
      intros [= <- <-]; rewrite ?put1 by done; cbn [outcome_bind].
    1: destruct (print_after [43] z 10 0 0 flags) as (w & E & Ew); [simpl; lia|klia|auto|done|].
    2: destruct (print_after [32] z 10 0 0 flags) as (w & E & Ew); [simpl; lia|klia|auto|done|].
    3: destruct (print_after [] z 10 0 0 flags) as (w & E & Ew); [simpl; lia|klia|auto|done|].
    3: rewrite wr_nil in E.
    all: cbn [length] in E, Ew; change (Z.of_nat 1) with 1 in *; change (Z.of_nat 0) with 0 in *.
    all: rewrite ?Z.add_0_r in E, Ew; rewrite E; unfold outputs; cbn [outcome_bind app] in *; by rewrite Ew.
Qed.

Lemma put_string_spec w mem l : ∀ wr0 s0,
  wr0 ≤ w → c_string mem = Some l → has_room flags (w - wr0) s0 →
  put_string w wr0 flags mem s0 =
  let T := take (Z.to_nat (w - wr0)) l in Done (wr0 + Z.of_nat (length T), wr flags T s0).
Proof.
  clear Hroom Hw. revert l. induction mem as [|c mem IH]; intros l wr0 s0 Hle Hl Hr; [done|].
  cbn [put_string c_string] in *. destruct (Z.ltb_spec wr0 w).
  - destruct (Z.eqb_spec c 0); simplify_eq/=.
    + rewrite take_nil. simpl. by rewrite wr_nil, Z.add_0_r.
    + apply fmap_Some in Hl as (l' & Hl' & ->).
      rewrite put_spec by (eapply has_room_le; [|exact Hr]; lia). cbn [outcome_bind].
      rewrite (IH l'); [|lia|done|].
      * replace (Z.to_nat (w - wr0)) with (S (Z.to_nat (w - (wr0 + 1)))) by lia.
        cbv zeta. cbn [take length]. rewrite (wr_cons flags c (take _ _))
          by (eapply has_room_le; [|exact Hr]; lia). do 2 f_equal. lia.
      * apply (has_room_wr flags [c]); [lia|]. eapply has_room_le; [|exact Hr]. simpl. lia.
  - replace (Z.to_nat (w - wr0)) with 0%nat by lia. simpl. by rewrite wr_nil, Z.add_0_r.
Qed.

(** The argument of a number conversion: an [int], or a long one that is skipped
    with its mark. *)
Lemma va_unsigned_int p fmt z args :
  (longs v = true → ∃ c r, p = c :: r ∧ c ≠ 76 ∧ c ≠ 108) →
  va_unsigned v p fmt (AInt z :: args) = Done (u32 z, fmt, args).
Proof.
  intros Hp. unfold va_unsigned. destruct (longs v); [|done].
  destruct Hp as (c & r & -> & ? & ?); [done|]. cbn [outcome_bind].
  destruct (Z.eqb_spec c 76), (Z.eqb_spec c 108); done.
Qed.

Lemma va_unsigned_long p fmt z args :
  longs v = true → va_unsigned v (76 :: p) fmt (ALong z :: args) = Done (u32 z, drop 1 fmt, args).
Proof. intros Hl. unfold va_unsigned. by rewrite Hl. Qed.

Lemma u32_fits z : is_u32 (u32 z).
Proof. apply u32_range. Qed.

Lemma conv_hex_spec f width prec p fmt args z fmt' args' :
  has f FLAG_TTY = has flags FLAG_TTY → va_unsigned v p fmt args = Done (u32 z, fmt', args') →
  outputs (conv_hex v size written f width prec p fmt args s) size written flags s
    (hex_text (rev_size v) f width prec (u32 z)) fmt' args'.
Proof.
  intros Hf Ha. unfold conv_hex, outputs, hex_text. destruct (has f FLAG_ALT).
  - rewrite put1 by done. cbn [outcome_bind]. destruct (Z.ltb_spec (written + 1) size).
    + rewrite put_spec.
      2:{ apply (has_room_flags flags); [done|]. apply has_room_wr; [lia|].
          eapply has_room_le; [|exact Hroom]. simpl. lia. }
      cbn [outcome_bind]. rewrite Ha. cbn [outcome_bind].
      rewrite (wr_flags f flags), <- wr_cons by (done || (eapply has_room_le; [|exact Hroom]; lia)).
      destruct (print_after [48; 120] (u32 z) 16 (zero_prec f prec (width - 2)) (width - 2) f)
        as (w & E & Ew); [simpl; lia|apply u32_fits|auto|done|].
      cbn [length] in E, Ew. change (Z.of_nat 2) with 2 in *.
      replace (written + 1 + 1) with (written + 2) by lia. rewrite E. cbn [outcome_bind].
      by rewrite Ew.
    + cbn [outcome_bind]. rewrite Ha. cbn [outcome_bind].
      destruct (print_after [48] (u32 z) 16 (zero_prec f prec (width - 2)) (width - 2) f)
        as (w & E & Ew); [simpl; lia|apply u32_fits|auto|done|].
      cbn [length] in E, Ew. change (Z.of_nat 1) with 1 in *. rewrite E. cbn [outcome_bind].
      rewrite Ew. replace (Z.to_nat (size - written)) with 1%nat by lia. done.
  - cbn [outcome_bind]. rewrite Ha. cbn [outcome_bind].
    destruct (print_after [] (u32 z) 16 (zero_prec f prec width) width f)
      as (w & E & Ew); [simpl; lia|apply u32_fits|auto|done|].
    rewrite wr_nil in E. cbn [length] in E, Ew. change (Z.of_nat 0) with 0 in *.
    rewrite Z.add_0_r in E, Ew. rewrite E. cbn [outcome_bind app] in *. by rewrite Ew.
Qed.

(** A number without a prefix. *)
Lemma conv_number_spec base prec width z fmt args :
  base = 8 ∨ base = 10 →
  outputs (let* '(w, s) := print_uint v (size - written) (u32 z) base flags prec width s in
           Done (written + w, fmt, args, s)) size written flags s
    (uint_text (rev_size v) (has flags FLAG_SMALLS) base prec width (u32 z)) fmt args.
Proof.
  intros Hb. destruct (print_after [] (u32 z) base prec width flags) as (w & E & Ew);
    [simpl; lia|apply u32_fits|tauto|done|].
  rewrite wr_nil in E. cbn [length] in E, Ew. change (Z.of_nat 0) with 0 in *.
  rewrite Z.add_0_r in E, Ew. rewrite E. unfold outputs. cbn [outcome_bind app] in *. by rewrite Ew.
Qed.

Lemma take_one (c : Z) : take (Z.to_nat (size - written)) [c] = [c].
Proof. apply take_ge. simpl. lia. Qed.

Lemma convert_spec width prec ch p fmt args T args' :
  (number_type ch = true → longs v = true → ∃ c r, p = c :: r ∧ c ≠ 76 ∧ c ≠ 108) →
  Forall arg_ok args → (ch = 115 → prec = -1 ∨ 0 ≤ prec ∧ size + prec < 2 ^ 31) →
  conv_text (rev_size v) flags width prec ch args = Some (T, args') →
  outputs (convert v size written flags width prec ch p fmt args s) size written flags s T fmt args'.
Proof.
  intros Hp Hargs Hprec. unfold convert.
  destruct ((ch =? 105) || (ch =? 100)) eqn:Ed.
  { intros HT. apply (conv_signed_spec _ _ _ _ ch); [done|done|].
    unfold conv_text in *. by rewrite Ed in *. }
  unfold conv_text. rewrite Ed.
  destruct (Z.eqb_spec ch 111).
  { destruct args as [|[z| |] args]; try done. intros [= <- <-]. unfold conv_octal.
    cbn [va_int outcome_bind]. apply conv_number_spec. auto. }
  destruct (Z.eqb_spec ch 117) as [->|].
  { destruct args as [|[z| |] args]; try done. intros [= <- <-]. unfold conv_unsigned.
    rewrite va_unsigned_int by (by apply Hp). cbn [outcome_bind]. apply conv_number_spec. auto. }
  unfold number_type in *. destruct (Z.eqb_spec ch 117); [done|]. cbn [orb] in *.
  destruct (Z.eqb_spec ch 112) as [->|].
  { cbn [orb]. destruct args as [|[z| |] args]; try done. intros [= <- <-].
    apply conv_hex_spec; [by rewrite !has_lor, !orb_false_r|]. by apply va_unsigned_int, Hp. }
  destruct (Z.eqb_spec ch 120) as [->|].
  { cbn [orb]. destruct args as [|[z| |] args]; try done. intros [= <- <-].
    apply conv_hex_spec; [by rewrite !has_lor, !orb_false_r|]. by apply va_unsigned_int, Hp. }
  destruct (Z.eqb_spec ch 88) as [->|].
  { cbn [orb]. destruct args as [|[z| |] args]; try done. intros [= <- <-].
    apply conv_hex_spec; [done|]. by apply va_unsigned_int, Hp. }
  cbn [orb]. destruct (Z.eqb_spec ch 99).
  { destruct args as [|[z| |] args]; try done. intros [= <- <-]. unfold conv_char, outputs.
    cbn [va_int outcome_bind]. rewrite put1 by done. by rewrite take_one. }
  destruct (Z.eqb_spec ch 115).
  { destruct args as [|[| |mem] args]; try done. intros (l & Hl & [= <- <-])%bind_Some.
    unfold conv_string, outputs. cbn [va_str outcome_bind].
    assert (Hs : ∀ w, written ≤ w ≤ size → put_string w written flags mem s =
      let T := take (Z.to_nat (w - written)) l in Done (written + Z.of_nat (length T), wr flags T s)).
    { intros w Hw'. apply put_string_spec; [lia|done|]. eapply has_room_le; [|exact Hroom]. lia. }
    destruct (Z.eqb_spec prec (-1)) as [->|Hne]; cbn [negb andb].
    - rewrite Hs by lia. done.
    - destruct Hprec as [?|[? ?]]; [done..|]. rewrite s32_id by klia.
      destruct (Z.ltb_spec (written + prec) size).
      + rewrite Hs by lia. cbv zeta. rewrite take_take.
        replace (Z.to_nat (written + prec - written)) with
          (Z.to_nat (size - written) `min` Z.to_nat prec)%nat by lia. done.
      + rewrite Hs by lia. cbv zeta. rewrite take_take, Nat.min_l by lia. done. }
  intros [= <- <-]. unfold outputs. rewrite put1 by done. by rewrite take_one.
Qed.

(** A conversion with a long argument. *)
Lemma convert_long_spec ty p fmt args T args' :
  longs v = true → number_type ty = true → Forall arg_ok args → same_flags flags 0 →
  long_text (rev_size v) ty args = Some (T, args') →
  outputs (convert v size written flags (-1) (-1) ty (76 :: p) fmt args s) size written flags s T
    (drop 1 fmt) args'.
Proof.
  intros Hl Hty Hargs Hf. destruct args as [|[|z|] args]; try done. cbn [long_text].
  rewrite <- (conv_text_flags _ flags) by done.
  pose proof (va_unsigned_long p fmt z args Hl) as Hva.
  unfold number_type in Hty. unfold convert, conv_text.
  destruct (Z.eqb_spec ty 117) as [->|].
  { cbn [Z.eqb orb]. intros [= <- <-]. unfold conv_unsigned. rewrite Hva. cbn [outcome_bind].
    apply conv_number_spec. auto. }
  cbn [orb] in Hty. destruct (Z.eqb_spec ty 112) as [->|].
  { intros [= <- <-]. apply conv_hex_spec; [by rewrite !has_lor, !orb_false_r|done]. }
  cbn [orb] in Hty. destruct (Z.eqb_spec ty 120) as [->|].
  { intros [= <- <-]. apply conv_hex_spec; [by rewrite !has_lor, !orb_false_r|done]. }
  cbn [orb] in Hty. apply Z.eqb_eq in Hty as ->. intros [= <- <-]. by apply conv_hex_spec.
Qed.
End conversions.

(** ** Modifiers *)
Lemma scan_int_digits ds c rest : ∀ v0,
  Forall scan_digit ds → is_u8 c → ¬ scan_digit c → 0 ≤ v0 →
  fold_left (λ v c, 10 * v + (c - 48)) ds v0 < 2 ^ 31 →
  scan_int v0 (ds ++ c :: rest) = Done (fold_left (λ v c, 10 * v + (c - 48)) ds v0, c :: rest).
Proof.
  unfold scan_digit. induction ds as [|d ds IH]; intros v0 Hds Hc Hn H0 Hb; cbn [app scan_int fold_left] in *.
  - rewrite s8_spec by done. kunfold.
    destruct (Z.ltb_spec c 128); destruct (Z.ltb_spec 48 c), (Z.ltb_spec c 57);
      destruct (Z.ltb_spec 48 (c - 256)); simpl; done || lia.
  - apply Forall_cons in Hds as [Hd Hds]. rewrite s8_spec by klia.
    destruct (Z.ltb_spec d 128), (Z.ltb_spec 48 d), (Z.ltb_spec d 57); try lia. cbn [andb].
    assert (10 * v0 + (d - 48) ≤ fold_left (λ v c, 10 * v + (c - 48)) ds (10 * v0 + (d - 48))).
    { apply digits_fold_mono; [|lia]. eapply Forall_impl; [exact Hds|]. unfold is_digit. simpl. lia. }
    rewrite s32_id by klia. apply IH; done || lia.
Qed.

Definition mods_run (fuel : nat) (flags width prec : Z) (l : list Z) : outcome (Z * Z * Z * Z * list Z) :=
  match l with
  | [] => Fault
  | ch :: fmt => while_loop fuel (λ '(flags, width, prec, ch, fmt),
      let* m := modifier flags width prec ch fmt in
      match m with
      | None => Done (inr (flags, width, prec, ch, fmt))
      | Some (flags, width, prec, fmt) =>
          match fmt with
          | [] => Fault
          | ch :: fmt =>
              if ch =? 0 then Done (inr (flags, width, prec, ch, fmt))
              else Done (inl (flags, width, prec, ch, fmt))
          end
      end) (flags, width, prec, ch, fmt)
  end.

Lemma mods_step fuel f w p ch fmt f' w' p' c l :
  modifier f w p ch fmt = Done (Some (f', w', p', c :: l)) → c ≠ 0 →
  mods_run (S fuel) f w p (ch :: fmt) = mods_run fuel f' w' p' (c :: l).
Proof.
  intros E Hc. unfold mods_run at 1. rewrite while_loop_S, E. cbn [outcome_bind].
  by destruct (Z.eqb_spec c 0).
Qed.

Lemma modifier_None f w p ch fmt : is_modifier ch = false → modifier f w p ch fmt = Done None.
Proof.
  unfold is_modifier, modifier, flag_of. intros H.
  destruct (ch =? 35), (ch =? 48), (ch =? 32), (ch =? 43), (ch =? 45); try done.
  simpl in H. destruct (ch =? 46), ((49 <=? ch) && (ch <=? 57)); done.
Qed.

Lemma modifier_flag f w p ch fmt : is_Some (flag_of ch) →
  modifier f w p ch fmt = Done (Some (add_flag f ch, w, p, fmt)).
Proof.
  unfold modifier, add_flag, flag_of. intros [x Hx].
  destruct (ch =? 35), (ch =? 48), (ch =? 32), (ch =? 43), (ch =? 45); simplify_eq/=; done.
Qed.

Lemma not_modifier_digit ch : is_modifier ch = false → ¬ scan_digit ch.
Proof.
  unfold is_modifier, scan_digit. intros H ?. apply orb_false_iff in H as [_ H].
  destruct (Z.leb_spec 49 ch), (Z.leb_spec ch 57); simpl in H; done || lia.
Qed.

Section modifiers.
Variables (ty : Z) (rest : list Z).
Hypothesis (Hu8 : is_u8 ty) (Hty : ty ≠ 0) (Hnm : is_modifier ty = false).

Lemma mods_type fuel f w p : (0 < fuel)%nat →
  mods_run fuel f w p (ty :: rest) = Done (f, w, p, ty, rest).
Proof.
  intros Hf. destruct fuel as [|fuel]; [lia|]. unfold mods_run. rewrite while_loop_S.
  by rewrite modifier_None.
Qed.

Lemma mods_prec fuel f w p :
  Forall scan_digit (default [] p) → digits_value (default [] p) < 2 ^ 31 → (1 < fuel)%nat →
  mods_run fuel f w (-1) (prec_chars p ++ ty :: rest) = Done (f, w, prec_of p, ty, rest).
Proof.
  intros Hds Hv Hf. destruct p as [ds|]; cbn [prec_chars prec_of default app] in *;
    [|apply mods_type; lia].
  destruct fuel as [|fuel]; [lia|]. erewrite mods_step; [apply mods_type; lia| |done].
  unfold modifier. cbn [Z.eqb]. change (46 =? 35) with false. cbn.
  rewrite (scan_int_digits ds ty rest 0); [done|done|done|by apply not_modifier_digit|lia|done].
Qed.

Lemma mods_width fuel f ds p :
  Forall scan_digit ds → digits_value ds < 2 ^ 31 →
  Forall scan_digit (default [] p) → digits_value (default [] p) < 2 ^ 31 → (2 < fuel)%nat →
  mods_run fuel f (-1) (-1) (ds ++ prec_chars p ++ ty :: rest)
  = Done (f, width_of ds, prec_of p, ty, rest).
Proof.
  intros Hds Hv Hdp Hvp Hf. destruct ds as [|d ds]; [by apply mods_prec; [..|lia]|].
  destruct fuel as [|fuel]; [lia|].
  assert (Hnext : ∃ c l, prec_chars p ++ ty :: rest = c :: l ∧ c ≠ 0 ∧ is_u8 c ∧ ¬ scan_digit c).
  { destruct p as [dp|]; simpl; eexists _, _; (split; [done|]).
    - split_and!; [done|klia|unfold scan_digit; lia].
    - split_and!; [done|done|by apply not_modifier_digit]. }
  destruct Hnext as (c & l & E & Hc & Hcu & Hcd).
  pose proof (Forall_inv Hds) as Hd. unfold scan_digit in Hd.
  rewrite <- (mods_prec fuel f (width_of (d :: ds)) p) by (done || lia). rewrite E.
  change ((d :: ds) ++ c :: l) with (d :: (ds ++ c :: l)).
  apply mods_step; [|done]. unfold modifier.
  destruct (Z.eqb_spec d 35), (Z.eqb_spec d 48), (Z.eqb_spec d 32), (Z.eqb_spec d 43),
    (Z.eqb_spec d 45), (Z.eqb_spec d 46); try lia.
  destruct (Z.leb_spec 49 d), (Z.leb_spec d 57); try lia. cbn [andb].
  pose proof (scan_int_digits (d :: ds) c l 0 Hds Hcu Hcd ltac:(done) Hv) as Hs.
  cbn [app] in Hs. by rewrite Hs.
Qed.

Lemma mods_all fuel f fl ds p :
  Forall (λ ch, is_Some (flag_of ch)) fl → Forall scan_digit ds → digits_value ds < 2 ^ 31 →
  Forall scan_digit (default [] p) → digits_value (default [] p) < 2 ^ 31 →
  (length fl + 2 < fuel)%nat →
  mods_run fuel f (-1) (-1) (fl ++ ds ++ prec_chars p ++ ty :: rest)
  = Done (foldl add_flag f fl, width_of ds, prec_of p, ty, rest).
Proof.
  intros Hfl Hds Hv Hdp Hvp. revert f fuel. induction Hfl as [|ch fl Hch Hfl IH]; intros f fuel Hf.
  { by apply mods_width; [..|simpl in Hf; lia]. }
  cbn [length] in Hf. destruct fuel as [|fuel]; [lia|]. cbn [foldl].
  rewrite <- (IH (add_flag f ch) fuel) by lia.
  destruct (fl ++ ds ++ prec_chars p ++ ty :: rest) as [|c l] eqn:E.
  { apply (f_equal length) in E. rewrite !length_app in E. simpl in E. lia. }
  cbn [app]. rewrite E. apply mods_step; [by apply modifier_flag|].
  intros ->. destruct fl as [|x fl].
  - destruct ds as [|x ds].
    + destruct p as [dp|]; simplify_eq/=.
    + simplify_eq/=. apply Forall_inv in Hds. unfold scan_digit in Hds. lia.
  - simplify_eq/=. apply Forall_inv in Hfl. by destruct Hfl.
Qed.
End modifiers.
