(* ===== verification/PrintfProps.v ===== *)
(** * Properties of formatted output

    That the engine writes what the format means, then the theorems on the entry
    points. *)


From S2P Require Import Prelude Libc Printf PrintfSpec PrintfRender.

(** ** The engine writes what the format means *)

Lemma add_flag_plain l : Forall (λ ch, is_Some (flag_of ch)) l → has (foldl add_flag 0 l) FLAG_TTY = false.
Proof.
  induction 1 as [|c l [x Hx] _ IH]; [done|]. cbn [foldl]. rewrite foldl_flags, has_lor, IH.
  unfold add_flag. rewrite Hx. cbn [default from_option]. rewrite orb_false_r, Z.lor_0_l.
  unfold flag_of in Hx. repeat case_match; by simplify_eq.
Qed.

Lemma take_app_split {A} (k : nat) (t u : list A) :
  take k (t ++ u) = take k t ++ take (k - length (take k t)) u.
Proof.
  rewrite take_app, length_take. destruct (decide (k ≤ length t)%nat).
  - by rewrite !(proj2 (Nat.sub_0_le _ _)) by lia.
  - by rewrite Nat.min_r by lia.
Qed.

Section engine.
Variables (v : variant) (size : Z) (fuel0 : nat).
Hypothesis (Hv : 11 ≤ rev_size v).

Definition step : Z * Z * list Z * list parg * sink → outcome (Z * Z * list Z * list parg * sink + Z * Z * sink) :=
  λ '(written, flags, fmt, args, s),
    if negb (written <? size) then Done (inr (written, flags, s))
    else
    match fmt with
    | [] => Fault
    | ch :: fmt =>
    if ch =? 0 then Done (inr (written, flags, s))
    else if negb (ch =? 37) then
      let* s := put ch flags s in Done (inl (written + 1, flags, fmt, args, s))
    else
    match fmt with
    | [] => Fault
    | ch :: fmt =>
    let p := fmt in
    if ch =? 0 then Done (inr (written, flags, s))
    else
    let* '(flags, width, prec, ch, fmt) := modifiers fuel0 (Z.land flags FLAG_TTY) ch fmt in
    if ch =? 0 then Done (inr (written, flags, s))
    else
    let* '(written, fmt, args, s) := convert v size written flags width prec ch p fmt args s in
    Done (inl (written, flags, fmt, args, s))
    end
    end.

(** One directive: it has written [t] as far as it fits. *)
Definition does (written flags : Z) (fmt : list Z) (args : list parg) (s : sink)
    (t rest : list Z) (args' : list parg) : Prop :=
  ∃ flags', has flags' FLAG_TTY = has flags FLAG_TTY ∧
    let t' := take (Z.to_nat (size - written)) t in
    step (written, flags, fmt, args, s) =
    Done (inl (written + Z.of_nat (length t'), flags', rest, args', wr flags t' s)).

Lemma step_lit c written flags rest args s :
  c ≠ 0 → c ≠ 37 → 0 ≤ written < size → has_room flags (size - written) s →
  does written flags (c :: rest) args s [c] rest args.
Proof.
  intros H0 H37 Hw Hr. exists flags. split; [done|]. unfold step.
  destruct (Z.ltb_spec written size); [|lia]. cbn [negb].
  destruct (Z.eqb_spec c 0), (Z.eqb_spec c 37); try done. cbn [negb].
  rewrite (put1 size written flags s Hw Hr) by done. cbn [outcome_bind].
  by rewrite (take_one size written Hw).
Qed.

Lemma not_long_head c rest :
  cspec_ok size c → number_type (c_type c) = true →
  (c_flags c = [] → c_width c = [] → c_prec c = None → ∃ x r, rest = x :: r ∧ x ≠ 76 ∧ x ≠ 108) →
  ∀ c0 p, c_flags c ++ c_width c ++ prec_chars (c_prec c) ++ c_type c :: rest = c0 :: p →
  ∃ x r, p = x :: r ∧ x ≠ 76 ∧ x ≠ 108.
Proof.
  intros (Hfl & Hw & Hp & _) Hty Hno c0 p.
  assert (Hflag : ∀ x, is_Some (flag_of x) → x ≠ 76 ∧ x ≠ 108).
  { intros x Hx. split; intros ->; by destruct Hx. }
  assert (Ht : c_type c ≠ 76 ∧ c_type c ≠ 108).
  { unfold number_type in Hty. split; intros E; rewrite E in Hty; done. }
  assert (Hd : ∀ x, scan_digit x → x ≠ 76 ∧ x ≠ 108) by (unfold scan_digit; lia).
  (** every character before [rest] is harmless *)
  assert (Hhd : ∀ (fl ds : list Z) pr, Forall (λ ch, is_Some (flag_of ch)) fl → Forall scan_digit ds →
    ∃ x r, fl ++ ds ++ prec_chars pr ++ c_type c :: rest = x :: r ∧ x ≠ 76 ∧ x ≠ 108).
  { intros [|x fl] ds pr HF HD; [|apply Forall_inv in HF; simpl; eauto].
    destruct ds as [|x ds]; [|apply Forall_inv in HD; simpl; eauto].
    destruct pr as [dp|]; simpl; [eexists _, _; split_and!; [done|lia..]|eauto]. }
  destruct (c_flags c) as [|x fl] eqn:Efl.
  - destruct (c_width c) as [|x ds] eqn:Ew.
    + destruct (c_prec c) as [[|x dp]|] eqn:Ep; simpl; intros [= <- <-]; [by eauto| |by apply Hno].
      apply Forall_inv in Hp. eauto.
    + intros [= <- <-]. apply (Hhd [] ds (c_prec c)); [constructor|by apply Forall_cons in Hw as [_ ?]].
  - intros [= <- <-]. apply (Hhd fl (c_width c) (c_prec c)); [by apply Forall_cons in Hfl as [_ ?]|done].
Qed.

Lemma modifiers_run fuel f ch fmt :
  modifiers fuel f ch fmt = mods_run fuel f (-1) (-1) (ch :: fmt).
Proof. done. Qed.

Lemma digits_value_nonneg ds : Forall scan_digit ds → 0 ≤ digits_value ds.
Proof.
  intros H. unfold digits_value. apply (digits_fold_mono ds 0); [|lia].
  eapply Forall_impl; [exact H|]. unfold scan_digit, is_digit. simpl. lia.
Qed.

Lemma step_conv c written flags rest args s t args' :
  cspec_ok size c → (length (fmt_item (Conv c)) < fuel0)%nat →
  (longs v = true → c_flags c = [] → c_width c = [] → c_prec c = None →
   number_type (c_type c) = true → ∃ x r, rest = x :: r ∧ x ≠ 76 ∧ x ≠ 108) →
  Forall arg_ok args → 0 ≤ written < size → has_room flags (size - written) s →
  conv_text (rev_size v) (foldl add_flag 0 (c_flags c)) (width_of (c_width c)) (prec_of (c_prec c))
    (c_type c) args = Some (t, args') →
  does written flags (fmt_item (Conv c) ++ rest) args s t rest args'.
Proof.
  intros Hok Hf Hno Hargs Hw Hr Ht. pose proof Hok as (Hfl & Hwd & Hpd & Hwv & Hpv & Hps & Hu8 & H0 & Hm).
  pose proof (digits_value_nonneg _ Hpd) as Hpn.
  cbn [fmt_item]. cbn [app]. rewrite <- !app_assoc. cbn [app].
  destruct (c_flags c ++ c_width c ++ prec_chars (c_prec c) ++ c_type c :: rest) as [|c0 p] eqn:E.
  { apply (f_equal length) in E. rewrite !length_app in E. simpl in E. lia. }
  set (f' := foldl add_flag (Z.land flags FLAG_TTY) (c_flags c)).
  assert (Hf' : has f' FLAG_TTY = has flags FLAG_TTY).
  { unfold f'. by rewrite foldl_flags, has_lor, has_tty, add_flag_plain, orb_false_r. }
  exists f'. split; [done|]. unfold step. destruct (Z.ltb_spec written size); [|lia]. cbn [negb Z.eqb].
  assert (Hc0 : c0 ≠ 0).
  { intros ->. destruct (c_flags c) as [|x fl]; [|simplify_eq/=; by apply Forall_inv in Hfl as []].
    destruct (c_width c) as [|x ds]; [|simplify_eq/=; apply Forall_inv in Hwd; unfold scan_digit in Hwd; lia].
    destruct (c_prec c); by simplify_eq/=. }
  change (37 =? 0) with false. change (37 =? 37) with true. cbn [negb].
  destruct (Z.eqb_spec c0 0); [done|]. rewrite modifiers_run, <- E.
  rewrite mods_all; [|done|done|done|done|done|done|done|done|].
  2:{ cbn [fmt_item length] in Hf. rewrite !length_app in Hf. simpl in Hf. lia. }
  fold f'. cbn [outcome_bind]. destruct (Z.eqb_spec (c_type c) 0); [done|].
  assert (HT : conv_text (rev_size v) f' (width_of (c_width c)) (prec_of (c_prec c)) (c_type c) args
    = Some (t, args')).
  { rewrite <- Ht. apply conv_text_flags. unfold f'. rewrite foldl_flags. apply same_flags_masked. }
  pose proof (convert_spec v size written f' s Hv Hw (has_room_flags flags f' _ s (eq_sym Hf') Hr)
    (width_of (c_width c)) (prec_of (c_prec c)) (c_type c) p rest args t args') as Hcv.
  rewrite Hcv; [|..|done].
  - cbn [outcome_bind]. by rewrite (wr_flags f' flags).
  - intros Hty Hlong. by eapply (not_long_head c rest); [..|exact E]; eauto.
  - done.
  - intros E115. specialize (Hps E115). destruct (c_prec c); simpl in *; [right; lia|by left].
Qed.

Lemma step_long ty written flags rest args s t args' :
  longs v = true → number_type ty = true → (1 < fuel0)%nat →
  Forall arg_ok args → 0 ≤ written < size → has_room flags (size - written) s →
  long_text (rev_size v) ty args = Some (t, args') →
  does written flags (37 :: ty :: 76 :: rest) args s t rest args'.
Proof.
  intros Hl Hty Hf Hargs Hw Hr Ht.
  assert (Hnm : ty ≠ 0 ∧ is_modifier ty = false).
  { unfold number_type in Hty. destruct (Z.eqb_spec ty 117) as [->|]; [done|].
    destruct (Z.eqb_spec ty 112) as [->|]; [done|]. destruct (Z.eqb_spec ty 120) as [->|]; [done|].
    by apply Z.eqb_eq in Hty as ->. }
  destruct Hnm as [H0 Hnm]. exists (Z.land flags FLAG_TTY). split; [apply has_tty|].
  unfold step. destruct (Z.ltb_spec written size); [|lia]. cbn [negb].
  change (37 =? 0) with false. change (37 =? 37) with true. cbn [negb].
  destruct (Z.eqb_spec ty 0); [done|]. rewrite modifiers_run, mods_type by (done || lia).
  cbn [outcome_bind]. destruct (Z.eqb_spec ty 0); [done|].
  pose proof (convert_long_spec v size written (Z.land flags FLAG_TTY) s Hv Hw
    (has_room_flags flags _ _ s (eq_sym (has_tty flags)) Hr) ty rest (76 :: rest) args t args' Hl Hty Hargs) as Hcv.
  rewrite Hcv; [|by unfold same_flags; rewrite !has_masked|done].
  cbn [outcome_bind drop]. by rewrite (wr_flags (Z.land flags FLAG_TTY) flags) by apply has_tty.
Qed.

Lemma conv_text_args r f w p ch args t args' :
  conv_text r f w p ch args = Some (t, args') → Forall arg_ok args → Forall arg_ok args'.
Proof.
  intros H HF. unfold conv_text in H.
  repeat case_match; simplify_eq/=; try done;
    try (match goal with H : _ ≫= _ = _ |- _ => apply bind_Some in H as (? & _ & ?); simplify_eq end);
    by apply Forall_cons in HF as [_ ?].
Qed.

Lemma long_text_args r ty args t args' :
  number_type ty = true → long_text r ty args = Some (t, args') → Forall arg_ok args → Forall arg_ok args'.
Proof.
  destruct args as [|[|z|] args]; try done. cbn [long_text]. intros Hty H HF.
  apply Forall_cons in HF as [_ HF]. unfold conv_text in H.
  repeat case_match; simplify_eq/=; try done.
Qed.

Lemma step_full written flags fmt args s :
  size ≤ written → step (written, flags, fmt, args, s) = Done (inr (written, flags, s)).
Proof. intros H. unfold step. by destruct (Z.ltb_spec written size); [lia|]. Qed.

(** The loop of [vxnprintf] writes the meaning of the format, as far as it fits. *)
Lemma engine_loop items : ∀ fuel written flags args s T tail,
  items_ok v size items → Forall arg_ok args → render (rev_size v) items args = Some T →
  0 ≤ written ≤ size → has_room flags (size - written) s →
  (length (fmt_of items) < fuel0)%nat → (length items < fuel)%nat →
  ∃ flags', has flags' FLAG_TTY = has flags FLAG_TTY ∧
    let T' := take (Z.to_nat (size - written)) T in
    while_loop fuel step (written, flags, fmt_of items ++ 0 :: tail, args, s) =
    Done (written + Z.of_nat (length T'), flags', wr flags T' s).
Proof.
  induction items as [|it items IH]; intros fuel written flags args s T tail Hok Hargs HT Hw Hr Hf0 Hf;
    (destruct fuel as [|fuel]; [simpl in Hf; lia|]); rewrite while_loop_S;
    (destruct (decide (written = size)) as [->|Hne];
      [exists flags; split; [done|]; rewrite step_full by lia; rewrite Z.sub_diag; simpl;
       by rewrite wr_nil, Z.add_0_r|]).
  { simplify_eq/=. exists flags. split; [done|]. destruct (Z.ltb_spec written size); [|lia]. simpl.
    by rewrite take_nil, wr_nil, Z.add_0_r. }
  (** it is enough that the first item writes its text [t] *)
  assert (Hrest : ∀ t T2 args', T = t ++ T2 → items_ok v size items → Forall arg_ok args' →
    render (rev_size v) items args' = Some T2 →
    does written flags (fmt_item it ++ fmt_of items ++ 0 :: tail) args s t
      (fmt_of items ++ 0 :: tail) args' →
    ∃ flags', has flags' FLAG_TTY = has flags FLAG_TTY ∧
      let T' := take (Z.to_nat (size - written)) T in
      (let* r := step (written, flags, fmt_of (it :: items) ++ 0 :: tail, args, s) in
       match r with inl s' => while_loop fuel step s' | inr r => Done r end) =
      Done (written + Z.of_nat (length T'), flags', wr flags T' s)).
  { intros t T2 args' -> Hok' Hargs' HT2 (f1 & Hf1 & E).
    unfold fmt_of. cbn [fmap list_fmap concat]. rewrite <- app_assoc. fold (fmt_of items).
    rewrite E. cbn [outcome_bind]. set (t' := take (Z.to_nat (size - written)) t) in *.
    assert (Hlt : (length t' ≤ Z.to_nat (size - written))%nat) by (unfold t'; rewrite length_take; lia).
    destruct (IH fuel (written + Z.of_nat (length t')) f1 args' (wr flags t' s) T2 tail)
      as (f2 & Hf2 & E2); [done|done|done|lia| | |simpl in Hf; lia|].
    - apply (has_room_flags flags); [done|]. apply has_room_wr; [lia|].
      eapply has_room_le; [|exact Hr]. lia.
    - unfold fmt_of in Hf0 |- *. cbn [fmap list_fmap concat] in Hf0. rewrite length_app in Hf0.
      unfold fmap in *. lia.
    - exists f2. split; [congruence|]. rewrite E2. cbv zeta. rewrite take_app_split. fold t'.
      replace (Z.to_nat (size - (written + Z.of_nat (length t'))))
        with (Z.to_nat (size - written) - length t')%nat by lia.
      rewrite (wr_flags f1 flags) by done. rewrite wr_app.
      + rewrite length_app. do 2 f_equal. f_equal. lia.
      + eapply has_room_le; [|exact Hr]. lia. }
  assert (Hfi : (length (fmt_item it) < fuel0)%nat).
  { unfold fmt_of in Hf0. cbn [fmap list_fmap concat] in Hf0. rewrite length_app in Hf0. lia. }
  destruct it as [c|c|ty]; cbn [render items_ok] in *.
  - apply fmap_Some in HT as (T2 & HT2 & ->). destruct Hok as (_ & H0 & H37 & Hok).
    apply (Hrest [c] T2 args); try done. apply step_lit; [done|done|lia|done].
  - apply bind_Some in HT as ([t args'] & Ht & HT). apply fmap_Some in HT as (T2 & HT2 & ->).
    destruct Hok as (Hc & Hok & Hlong).
    apply (Hrest t T2 args'); try done; [by eapply conv_text_args|].
    apply step_conv; [done|done| |done|lia|done|done].
    intros H1 H2 H3 H4 H5. specialize (Hlong H1 H2 H3 H4 H5). unfold starts_long in Hlong.
    destruct (fmt_of items) as [|x l]; [by exists 0, tail|].
    exists x, (l ++ 0 :: tail). split; [done|]. apply orb_false_iff in Hlong as [?%Z.eqb_neq ?%Z.eqb_neq].
    done.
  - apply bind_Some in HT as ([t args'] & Ht & HT). apply fmap_Some in HT as (T2 & HT2 & ->).
    destruct Hok as (Hl & Hty & Hok).
    apply (Hrest t T2 args'); try done; [by eapply long_text_args|].
    apply step_long; [done|done|simpl in Hfi; lia|done|lia|done|done].
Qed.
End engine.

(** ** Formatted output: properties *)

Lemma fmt_of_length items : (length items ≤ length (fmt_of items))%nat.
Proof.
  induction items as [|it items IH]; [done|]. unfold fmt_of in *. cbn [fmap list_fmap concat length].
  rewrite length_app. assert (1 ≤ length (fmt_item it))%nat by (destruct it; simpl; lia).
  unfold fmap in *. lia.
Qed.

(** What is left to [finish] is the text, as far as it fits. *)
Lemma vxnprintf_text v fuel size items args flags s T tail :
  11 ≤ rev_size v → 0 < size → items_ok v size items → Forall arg_ok args →
  render (rev_size v) items args = Some T → has_room flags size s →
  (length (fmt_of items) < fuel)%nat →
  ∃ flags', has flags' FLAG_TTY = has flags FLAG_TTY ∧
    let T' := take (Z.to_nat size) T in
    vxnprintf v fuel size (fmt_of items ++ 0 :: tail) args flags s =
    finish size (Z.of_nat (length T')) flags' (wr flags T' s).
Proof.
  intros Hv Hs Hok Hargs HT Hr Hf.
  destruct (engine_loop v size fuel Hv items fuel 0 flags args s T tail) as (f' & Hf' & E);
    [done|done|done|lia|by rewrite Z.sub_0_r|done|pose proof (fmt_of_length items); lia|].
  exists f'. split; [done|]. unfold vxnprintf. destruct (Z.leb_spec size 0); [lia|].
  change (while_loop fuel _ _) with
    (while_loop fuel (step v size fuel) (0, flags, fmt_of items ++ 0 :: tail, args, s)).
  rewrite E. cbn [outcome_bind]. by rewrite Z.sub_0_r.
Qed.

(** The result of the engine and the buffer it leaves. *)
Definition printed (size : Z) (T : list Z) : Z :=
  if Z.of_nat (length T) <? size then Z.of_nat (length T) else -1.
Definition printed_into (size : Z) (T str : list Z) : list Z :=
  let T' := take (Z.to_nat (size - 1)) T in T' ++ 0 :: drop (S (length T')) str.

Lemma vxnprintf_buffer v fuel size items args str T tail :
  11 ≤ rev_size v → 0 < size ≤ Z.of_nat (length str) → items_ok v size items → Forall arg_ok args →
  render (rev_size v) items args = Some T → (length (fmt_of items) < fuel)%nat →
  ∃ s, vxnprintf v fuel size (fmt_of items ++ 0 :: tail) args 0 (Sink str 0 []) =
    Done (printed size T, s) ∧ buffer s = printed_into size T str.
Proof.
  intros Hv Hs Hok Hargs HT Hf.
  destruct (vxnprintf_text v fuel size items args 0 (Sink str 0 []) T tail) as (f' & Hf' & E);
    [done|lia|done|done|done|right; simpl; lia|done|].
  rewrite E. unfold finish, printed, printed_into, printc, wr. change (has 0 FLAG_TTY) with false in *.
  cbn [buffer buf tty]. change (Z.to_nat 0) with 0%nat. rewrite take_0, Z.add_0_l, Nat.add_0_l.
  cbn [app]. rewrite length_take. destruct (Z.ltb_spec (Z.of_nat (length T)) size) as [Hlt|Hge].
  - rewrite Nat.min_r, !(take_ge T) by lia. destruct (Z.eqb_spec (Z.of_nat (length T)) size); [lia|].
    rewrite Hf'. cbn [buffer buf tty]. rewrite awrite_in_range by (rewrite length_app, length_drop; lia).
    cbn [outcome_bind]. eexists. split; [done|]. cbn [buffer].
    rewrite insert_take_drop by (rewrite length_app, length_drop; lia).
    rewrite Nat2Z.id, take_app_length, drop_app_ge, drop_drop by lia. do 3 f_equal. lia.
  - rewrite Nat.min_l by lia. rewrite Z2Nat.id by lia. rewrite Z.eqb_refl.
    rewrite Hf'. cbn [buffer buf tty move].
    rewrite awrite_in_range by (rewrite length_app, length_drop, length_take; lia).
    cbn [outcome_bind]. eexists. split; [done|]. cbn [buffer].
    rewrite insert_take_drop by (rewrite length_app, length_drop, length_take; lia).
    replace (Z.to_nat (size + -1)) with (Z.to_nat (size - 1)) by lia.
    rewrite take_app_le, take_take by (rewrite length_take; lia).
    rewrite drop_app_ge, drop_drop by (rewrite length_take; lia).
    rewrite Nat.min_l by lia. rewrite !length_take. do 3 f_equal. lia.
Qed.

Lemma vxnprintf_tty v fuel items args out T tail :
  11 ≤ rev_size v → items_ok v 0x7fffffff items → Forall arg_ok args →
  render (rev_size v) items args = Some T → Z.of_nat (length T) < 0x7fffffff →
  (length (fmt_of items) < fuel)%nat →
  ∃ s, vxnprintf v fuel 0x7fffffff (fmt_of items ++ 0 :: tail) args FLAG_TTY (Sink [] 0 out) =
    Done (Z.of_nat (length T), s) ∧ tty s = out ++ List.filter (λ c, negb (c =? 0)) T.
Proof.
  intros Hv Hok Hargs HT Hlt Hf.
  destruct (vxnprintf_text v fuel 0x7fffffff items args FLAG_TTY (Sink [] 0 out) T tail)
    as (f' & Hf' & E); [done|lia|done|done|done|by left|done|].
  rewrite E. unfold finish, printc, wr. change (has FLAG_TTY FLAG_TTY) with true in *.
  rewrite take_ge by lia. destruct (Z.eqb_spec (Z.of_nat (length T)) 0x7fffffff); [lia|].
  rewrite Hf'. cbn. eauto.
Qed.


(** [kprintf] and [kvprintf] send the text of the format to the terminal, without
    its zero characters, and return its length; they take the lock of the
    terminal with interrupts disabled and leave the lock free and the interrupt
    state as it was. *)
Theorem kprintf_renders fuel items args intr out T tail :
  items_ok kernel_variant 0x7fffffff items → Forall arg_ok args →
  render 22 items args = Some T → Z.of_nat (length T) < 0x7fffffff →
  (length (fmt_of items) < fuel)%nat →
  let shown := Console 0 intr (out ++ List.filter (λ c, negb (c =? 0)) T) in
  kprintf fuel (fmt_of items ++ 0 :: tail) args (Console 0 intr out) =
    Done (Z.of_nat (length T), shown) ∧
  kvprintf fuel (fmt_of items ++ 0 :: tail) args (Console 0 intr out) =
    Done (Z.of_nat (length T), shown).
Proof.
  intros Hok Ha HT Hlt Hf.
  destruct (vxnprintf_tty kernel_variant fuel items args out T tail) as (s & E & Hb); try done.
  unfold kprintf, kvprintf. cbn [console_lock kprintf_slock Z.eqb outcome_bind screen].
  rewrite E. cbn [outcome_bind]. by rewrite Hb.
Qed.

(** [printf] and [snprintf] of the userland library write the text of the format
    too; their numbers have at most 11 characters and there are no long
    arguments. *)
Theorem user_printf_renders fuel size items args str out T tail :
  0 < size ≤ Z.of_nat (length str) → items_ok user_variant size items →
  items_ok user_variant 0x7fffffff items → Forall arg_ok args →
  render 11 items args = Some T → Z.of_nat (length T) < 0x7fffffff →
  (length (fmt_of items) < fuel)%nat →
  user_snprintf fuel str size (fmt_of items ++ 0 :: tail) args =
    Done (printed size T, printed_into size T str) ∧
  printf fuel (fmt_of items ++ 0 :: tail) args out =
    Done (Z.of_nat (length T), out ++ List.filter (λ c, negb (c =? 0)) T).
Proof.
  intros Hs Hok Hok' Ha HT Hlt Hf. unfold user_snprintf, printf, user_vxnprintf. split.
  - destruct (vxnprintf_buffer user_variant fuel size items args str T tail) as (s & E & Hb); try done.
    rewrite E. cbn [outcome_bind]. by rewrite Hb.
  - destruct (vxnprintf_tty user_variant fuel items args out T tail) as (s & E & Hb); try done.
    rewrite E. cbn [outcome_bind]. by rewrite Hb.
Qed.

(** [scan_int] stops at a 9 at once, so the loop over the modifiers reads it
    again and again. *)
Lemma modifiers_nine fuel : ∀ f w p tail, mods_run fuel f w p (57 :: tail) = OutOfFuel.
Proof.
  induction fuel as [|fuel IH]; intros f w p tail; [done|].
  rewrite (mods_step fuel f w p 57 tail f 0 p 57 tail); [apply IH|done|done].
Qed.

(** [scan_int] takes the digits from 1 to 8 only.  A directive whose width starts
    with 9 keeps both engines in the loop over the modifiers for ever, whatever
    the arguments and the rest of the format: no number of steps is enough. *)
Theorem printf_nine_diverges v fuel size tail args flags s :
  0 < size → vxnprintf v fuel size (37 :: 57 :: tail) args flags s = OutOfFuel.
Proof.
  intros Hs. unfold vxnprintf. destruct (Z.leb_spec size 0); [lia|].
  change (while_loop fuel _ _) with
    (while_loop fuel (step v size fuel) (0, flags, 37 :: 57 :: tail, args, s)).
  destruct fuel as [|fuel]; [done|]. rewrite while_loop_S. unfold step.
  destruct (Z.ltb_spec 0 size); [|lia]. cbn [negb]. change (37 =? 0) with false.
  change (negb (37 =? 37)) with false. change (57 =? 0) with false. cbv iota.
  by rewrite modifiers_run, modifiers_nine.
Qed.

(** A negative number printed with the flag + gets two signs, and the second one is
    written without a check of the size: into a buffer of one byte [snprintf]
    writes past its end, in the kernel and in the userland library. *)
Theorem printf_sign_overflow fuel b z args tail :
  z < 0 → (1 < fuel)%nat →
  snprintf fuel [b] 1 (37 :: 43 :: 100 :: tail) (AInt z :: args) = Fault ∧
  user_snprintf fuel [b] 1 (37 :: 43 :: 100 :: tail) (AInt z :: args) = Fault.
Proof.
  intros Hz Hf.
  assert (Hgen : ∀ v, vxnprintf v fuel 1 (37 :: 43 :: 100 :: tail) (AInt z :: args) 0 (Sink [b] 0 []) = Fault).
  { intros v. unfold vxnprintf. change (1 <=? 0) with false. cbv iota.
    change (while_loop fuel _ _) with
      (while_loop fuel (step v 1 fuel) (0, 0, 37 :: 43 :: 100 :: tail, AInt z :: args, Sink [b] 0 [])).
    destruct fuel as [|[|fuel]]; [lia..|]. rewrite while_loop_S. unfold step.
    change (negb (0 <? 1)) with false. change (37 =? 0) with false.
    change (negb (37 =? 37)) with false. change (43 =? 0) with false. cbv iota.
    rewrite modifiers_run.
    rewrite (mods_step (S fuel) _ _ _ 43 (100 :: tail) FLAG_SIGN (-1) (-1) 100 tail) by done.
    rewrite mods_type by (done || lia). cbn [outcome_bind]. change (100 =? 0) with false. cbv iota.
    unfold convert, conv_signed. change ((100 =? 105) || (100 =? 100)) with true. cbv iota.
    cbn [va_int outcome_bind]. destruct (Z.ltb_spec z 0); [|lia]. done. }
  unfold snprintf, user_snprintf, user_vxnprintf. by rewrite !Hgen.
Qed.

(** ** Witnesses *)

(** "n=%4u %s:%.8x\n" *)
Definition demo_items : list item :=
  [Lit 110; Lit 61; Conv (CSpec [] [52] None 117); Lit 32; Conv (CSpec [] [] None 115); Lit 58;
   Conv (CSpec [] [] (Some [56]) 120); Lit 10].
Definition demo_args : list parg := [AInt 42; AStr [111; 107; 0]; AInt (-2)].
(** "n=  42 ok:fffffffe\n" *)
Definition demo_text : list Z :=
  [110; 61; 32; 32; 52; 50; 32; 111; 107; 58; 102; 102; 102; 102; 102; 102; 102; 101; 10].

Lemma demo_items_ok v size : 0 ≤ size < 2 ^ 31 → items_ok v size demo_items.
Proof.
  intros Hs. cbn [items_ok demo_items]. unfold cspec_ok. cbn [c_flags c_width c_prec c_type default].
  split_and!; repeat constructor; try done; try lia; cbn; intros; lia || done.
Qed.
Lemma demo_args_ok : Forall arg_ok demo_args.
Proof. repeat constructor; kunfold; done || lia. Qed.


Lemma kprintf_renders_witness :
  kprintf 30 (fmt_of demo_items ++ [0]) demo_args (Console 0 true [36]) =
    Done (19, Console 0 true (36 :: demo_text)) ∧
  kvprintf 30 (fmt_of demo_items ++ [0]) demo_args (Console 0 true [36]) =
    Done (19, Console 0 true (36 :: demo_text)).
Proof.
  apply (kprintf_renders 30 demo_items demo_args true [36] demo_text []).
  - apply demo_items_ok. split; [discriminate|reflexivity].
  - exact demo_args_ok.
  - vm_compute. reflexivity.
  - vm_compute. reflexivity.
  - apply Nat.ltb_lt. vm_compute. reflexivity.
Defined.

Lemma user_printf_renders_witness :
  user_snprintf 30 (replicate 12 7) 12 (fmt_of demo_items ++ [0]) demo_args =
    Done (-1, [110; 61; 32; 32; 52; 50; 32; 111; 107; 58; 102; 0]) ∧
  printf 30 (fmt_of demo_items ++ [0]) demo_args [] = Done (19, demo_text).
Proof.
  apply (user_printf_renders 30 12 demo_items demo_args (replicate 12 7) [] demo_text []).
  - split; [reflexivity|vm_compute; discriminate].
  - apply demo_items_ok. split; [discriminate|reflexivity].
  - apply demo_items_ok. split; [discriminate|reflexivity].
  - exact demo_args_ok.
  - vm_compute. reflexivity.
  - vm_compute. reflexivity.
  - apply Nat.ltb_lt. vm_compute. reflexivity.
Defined.

Lemma printf_nine_diverges_witness :
  vxnprintf kernel_variant 1000 80 [37; 57; 117; 0] [AInt 5] 0 (Sink (replicate 80 0) 0 []) = OutOfFuel.
Proof. apply (printf_nine_diverges kernel_variant 1000 80). reflexivity. Defined.

Lemma printf_sign_overflow_witness :
  snprintf 10 [0] 1 [37; 43; 100; 0] [AInt (-5)] = Fault ∧
  user_snprintf 10 [0] 1 [37; 43; 100; 0] [AInt (-5)] = Fault.
Proof.
  apply (printf_sign_overflow 10 0 (-5) [] [0]); [reflexivity|]. apply Nat.ltb_lt. reflexivity.
Defined.
