(* ===== verification/UserShell.v ===== *)
(** * The shell (userland/oldshell.c)

    The commands of the shell and its command line.  A [char *] into the command
    line is an offset; the array [argv] starts uninitialised ([None]).  The system
    calls are a parameter: the class [Console] of UserInput.v for the terminal, the
    class [Syscalls] for files and processes.  The loops that read until the end
    of a file, or until a key comes, take fuel. *)

From S2P Require Import Prelude Libc Printf PrintfSpec PrintfRender PrintfProps UserString UserInput.

Definition BUFFER_SIZE : Z := 100.
Definition PATH_LENGTH : Z := 256.

(** Path names are given as texts ([None] is NULL), buffers as the bytes that are
    stored or written. *)
Class Syscalls (T : Type) := {
  sc_open : list Z → T → Z * T;
  sc_close : Z → T → Z * T;
  sc_read : Z → Z → T → Z * list Z * T;
  sc_write : Z → list Z → T → Z * T;
  sc_create : list Z → Z → T → Z * T;
  sc_delete : list Z → T → Z * T;
  sc_filecount : option (list Z) → T → Z * T;
  sc_file : option (list Z) → Z → T → Z * list Z * T;
  sc_spawn : list Z → T → Z * T;
  sc_join : Z → T → Z * T;
  sc_exit : Z → T → outcome T
}.

(** ** Text *)
Definition chars (s : string) : list Z := (λ a, Z.of_N (Ascii.N_of_ascii a)) <$> String.list_ascii_of_string s.
Definition line (s : string) : list Z := chars s ++ [10].

Definition string_at (mem : list Z) : outcome (list Z) :=
  match c_string mem with Some s => Done s | None => Fault end.

(** Bytes that are stored at the start of a buffer. *)
Definition stored (bytes buffer : list Z) : outcome (list Z) :=
  if (length bytes <=? length buffer)%nat then Done (over buffer bytes) else Fault.

(** The bytes [n] bytes from [i] on. *)
Definition slice (buffer : list Z) (i n : Z) : outcome (list Z) :=
  if i + n <=? Z.of_nat (length buffer) then Done (take (Z.to_nat n) (drop (Z.to_nat i) buffer)) else Fault.

Definition arg (argv : list (option Z)) (i : Z) : outcome Z :=
  let* a := aread argv i in match a with Some o => Done o | None => Fault end.
Definition arg_mem (cmdline : list Z) (argv : list (option Z)) (i : Z) : outcome (list Z) :=
  let* o := arg argv i in Done (drop (Z.to_nat o) cmdline).
Definition arg_text (cmdline : list Z) (argv : list (option Z)) (i : Z) : outcome (list Z) :=
  let* m := arg_mem cmdline argv i in string_at m.

Section shell.
Context {T : Type} {console : Console T} {sc : Syscalls T}.
Implicit Types (t : T) (cmdline : list Z) (argv : list (option Z)).
(** What uninitialised characters (two of them in [cmd_cmp]) and an uninitialised
    [int] hold. *)
Variables (garbage garbage2 garbage_int : Z).

Definition put_all (out : list Z) t : T := foldl (λ t c, snd (putc c t)) t out.

(** [printf]. *)
Definition print (fmt : list Z) (args : list parg) t : outcome T :=
  let fmt := fmt ++ [0] in
  let* '(_, out) := printf (length fmt) fmt args [] in
  Done (put_all out t).

Definition does_file_exist (file : list Z) t : outcome (bool * T) :=
  let* s := string_at file in
  let '(fd, t) := sc_open s t in
  let '(_, t) := sc_close fd t in
  Done (0 <=? fd, t).

Definition clearline t : T := put_all (13 :: replicate 50 32 ++ [13]) t.

(** ** Commands *)
Definition cmd_ls (argc : Z) argv cmdline t : outcome (Z * T) :=
  let* dir :=
    if argc =? 2 then
      let* a := arg_mem cmdline argv 1 in
      let* d := strcpy (replicate (Z.to_nat PATH_LENGTH) garbage) a in
      Done (Some d)
    else Done None in
  let* path := match dir with Some d => let* s := string_at d in Done (Some s) | None => Done None end in
  let '(n, t) := sc_filecount path t in
  if n <? 0 then
    match dir with
    | Some d =>
        let* t := print (line "Error reading %s (Reason: %d)") [AStr d; AInt n] t in Done (n, t)
    | None => Fault
    end
  else
    let* r := for_loop 0 n (λ i '(buffer, t),
      let '(r, bytes, t) := sc_file path i t in
      let* buffer := stored bytes buffer in
      if negb (r =? 0) then Done (inr (2, t))
      else
        let* t := print (line "%s") [AStr buffer] t in
        Done (inl (buffer, t))) (replicate (Z.to_nat PATH_LENGTH) garbage, t) in
    Done (match r with inl (_, t) => (0, t) | inr r => r end).

(** The inner loop of [cmd_cp]: whether a write failed, and [totalwritten]. *)
Definition cp_write_step (fd2 : Z) (buffer : list Z) (rd totalread : Z) :
    Z * Z * T → outcome (Z * Z * T + bool * Z * T) :=
  λ '(i, totalwritten, t),
    if i <? rd then
      let* bytes := slice buffer i (rd - i) in
      let '(wr, t) := sc_write fd2 bytes t in
      if wr <=? 0 then
        let* t := print (10 :: line "Call to syscall_write() failed.  Reason: %d.") [AInt wr] t in
        let* t := if wr =? 0
          then print (line "Did you remember to make the destination file big enough?") [] t else Done t in
        Done (inr (true, totalwritten, t))
      else
        let totalwritten := s32 (totalwritten + wr) in
        let* t := print (chars "Read %d bytes, wrote %d bytes.") [AInt totalread; AInt totalwritten] (clearline t) in
        Done (inl (i + wr, totalwritten, t))
    else Done (inr (false, totalwritten, t)).

Definition cp_write (fd2 : Z) (buffer : list Z) (rd totalread totalwritten : Z) t : outcome (bool * Z * T) :=
  while_loop (S (Z.to_nat rd)) (cp_write_step fd2 buffer rd totalread) (0, totalwritten, t).

Definition cp_step (fd1 fd2 : Z) :
    list Z * Z * Z * T → outcome (list Z * Z * Z * T + Z * T) :=
  λ '(buffer, totalread, totalwritten, t),
    let '(rd, bytes, t) := sc_read fd1 BUFFER_SIZE t in
    let* buffer := stored bytes buffer in
    if rd =? 0 then Done (inr (garbage_int, t))
    else
      let totalread := s32 (totalread + rd) in
      let* t := print (chars "Read %d bytes, wrote %d bytes.") [AInt totalread; AInt totalwritten] (clearline t) in
      let* '(failed, totalwritten, t) := cp_write fd2 buffer rd totalread totalwritten t in
      if failed : bool then Done (inr (1, t)) else Done (inl (buffer, totalread, totalwritten, t)).

(** [ret] is set when a write fails only. *)
Definition cmd_cp (fuel : nat) (argc : Z) argv cmdline t : outcome (Z * T) :=
  if negb (argc =? 3) && negb (argc =? 4) then
    let* t := print (line "Usage: cp <from> <to> [size]") [] t in Done (1, t)
  else
    let* size := if argc =? 4 then let* a := arg_mem cmdline argv 3 in UserString.atoi a else Done 0 in
    let* m1 := arg_mem cmdline argv 1 in
    let* s1 := string_at m1 in
    let '(fd1, t) := sc_open s1 t in
    if fd1 <? 0 then
      let* t := print (line "Could not open %s.  Reason: %d") [AStr m1; AInt fd1] t in Done (1, t)
    else
    let* m2 := arg_mem cmdline argv 2 in
    let* s2 := string_at m2 in
    let '(fd2, t) := sc_create s2 size t in
    if fd2 <? 0 then
      let* t := print (line "Could not create %s with initial size %d.  Reason: %d")
                  [AStr m2; AInt size; AInt fd2] t in
      let '(_, t) := sc_close fd1 t in Done (1, t)
    else
    let '(fd2, t) := sc_open s2 t in
    if fd2 <? 0 then
      let* t := print (line "Could not open newly created file %s.  Reason: %d") [AStr m2; AInt fd2] t in
      let '(_, t) := sc_close fd1 t in Done (1, t)
    else
    let* '(ret, t) := while_loop fuel (cp_step fd1 fd2)
      (replicate (Z.to_nat BUFFER_SIZE) garbage, 0, 0, t) in
    let* t := print [10] [] t in
    let '(_, t) := sc_close fd1 t in
    let '(_, t) := sc_close fd2 t in
    Done (ret, t).

Definition cmd_touch (argc : Z) argv cmdline t : outcome (Z * T) :=
  if argc <? 2 then
    let* t := print (line "Usage: touch <file> [size]") [] t in Done (1, t)
  else
    let* a := arg_mem cmdline argv 2 in
    let* size := UserString.atoi a in
    let* m := arg_mem cmdline argv 1 in
    let* s := string_at m in
    let '(ret, t) := sc_create s size t in
    if ret <? 0 then
      let* t := print (line "Could not create %s with initial size %d.  Reason: %d")
                  [AStr m; AInt size; AInt ret] t in
      Done (1, t)
    else Done (0, t).

Definition cmd_rm (argc : Z) argv cmdline t : outcome (Z * T) :=
  if argc <? 2 then
    let* t := print (line "Usage: rm <files>...") [] t in Done (1, t)
  else
    for_each 1 argc (λ i '(ret, t),
      let* s := arg_text cmdline argv i in
      let '(res, t) := sc_delete s t in
      if negb (res =? 0) then
        let* m := arg_mem cmdline argv (i + 1) in
        let* t := print (line "Failed to remove %s, reason %d.") [AStr m; AInt res] t in
        Done (1, t)
      else Done (ret, t)) (0, t).

(** Each of the commands that start or await processes gives the new
    [background_proc]. *)
Definition cmd_wait (argc background_proc : Z) t : outcome (Z * Z * T) :=
  if negb (argc =? 1) then
    let* t := print (line "Usage: wait") [] t in Done (1, background_proc, t)
  else if background_proc =? -1 then
    let* t := print (line "No background process to wait for.") [] t in Done (1, background_proc, t)
  else
    let '(retval, t) := sc_join background_proc t in
    Done (retval, 1, t).

Definition cmp_step (fd1 fd2 : Z) : Z * Z * Z * T → outcome (Z * Z * Z * T + T) :=
  λ '(c1, c2, i, t),
    let '(rd1, b1, t) := sc_read fd1 1 t in
    let* b1 := stored b1 [c1] in
    let '(rd2, b2, t) := sc_read fd2 1 t in
    let* b2 := stored b2 [c2] in
    let* c1 := aread b1 0 in
    let* c2 := aread b2 0 in
    let* t := print (chars "Comparing byte %d... ") [AInt i] (clearline t) in
    if negb (rd1 =? rd2) then
      let* t := print (line "Files differ: not the same size.") [] t in Done (inr t)
    else if negb (s8 c1 =? s8 c2) then
      let* t := print (line "Files differ at position %d.") [AInt i] t in Done (inr t)
    else if negb (rd1 =? 0) then Done (inl (c1, c2, s32 (i + 1), t)) else Done (inr t).

Definition cmd_cmp (fuel : nat) (argc : Z) argv cmdline t : outcome (Z * T) :=
  if negb (argc =? 3) && negb (argc =? 4) then
    let* t := print (line "Usage: cmp <file1> <file2>") [] t in Done (1, t)
  else
    let* m1 := arg_mem cmdline argv 1 in
    let* s1 := string_at m1 in
    let '(fd1, t) := sc_open s1 t in
    if fd1 <? 0 then
      let* t := print (line "Could not open %s.  Reason: %d") [AStr m1; AInt fd1] t in Done (1, t)
    else
    let* m2 := arg_mem cmdline argv 2 in
    let* s2 := string_at m2 in
    let '(fd2, t) := sc_open s2 t in
    if fd2 <? 0 then
      let* t := print (line "Could not open file %s.  Reason: %d") [AStr m2; AInt fd2] t in
      let '(_, t) := sc_close fd1 t in Done (1, t)
    else
    let* t := while_loop fuel (cmp_step fd1 fd2) (garbage, garbage2, 0, t) in
    let* t := print [10] [] t in
    let '(_, t) := sc_close fd1 t in
    let '(_, t) := sc_close fd2 t in
    Done (0, t).

Definition cmd_echo (argc : Z) argv cmdline t : outcome (Z * T) :=
  let* t := for_each 1 argc (λ i t,
    let* m := arg_mem cmdline argv i in print (chars "%s ") [AStr m] t) t in
  let* '(_, t) := puts [10; 0] t in
  Done (0, t).

(** The inner loop of [cmd_show]: [Some wr] is what had been written when a write
    failed. *)
Definition show_write_step (buffer : list Z) (rd : Z) : Z * T → outcome (Z * T + option Z * T) :=
  λ '(wr, t),
    if wr <? rd then
      let* bytes := slice buffer wr (rd - wr) in
      let '(thiswr, t) := sys_write bytes t in
      if thiswr <=? 0 then Done (inr (Some wr, t)) else Done (inl (wr + thiswr, t))
    else Done (inr (None, t)).

Definition show_write (buffer : list Z) (rd : Z) t : outcome (option Z * T) :=
  while_loop (S (Z.to_nat rd)) (show_write_step buffer rd) (0, t).

Definition show_step (fd : Z) : list Z * T → outcome (list Z * T + Z * T) :=
  λ '(buffer, t),
    let '(rd, bytes, t) := sc_read fd BUFFER_SIZE t in
    let* buffer := stored bytes buffer in
    if rd =? 0 then let '(_, t) := sc_close fd t in Done (inr (0, t))
    else
      let* '(failed, t) := show_write buffer rd t in
      match failed with
      | Some wr =>
          let* t := print (10 :: line "Call to syscall_write() failed.  Reason: %d.") [AInt wr] t in
          let '(_, t) := sc_close fd t in Done (inr (1, t))
      | None => Done (inl (buffer, t))
      end.

Definition cmd_show (fuel : nat) (argc : Z) argv cmdline t : outcome (Z * T) :=
  if negb (argc =? 2) then
    let* t := print (line "Usage: show <file>") [] t in Done (1, t)
  else
    let* m := arg_mem cmdline argv 1 in
    let* s := string_at m in
    let '(fd, t) := sc_open s t in
    if fd <? 0 then
      let* t := print (line "Could not open %s.  Reason: %d") [AStr m; AInt fd] t in Done (1, t)
    else while_loop fuel (show_step fd) (replicate (Z.to_nat BUFFER_SIZE) garbage, t).

Definition cmd_run (prog : list Z) t : outcome (Z * T) :=
  let* '(exists_, t) := does_file_exist prog t in
  if exists_ : bool then
    let* s := string_at prog in
    let '(pid, t) := sc_spawn s t in
    Done (sc_join pid t)
  else
    let* t := print (line "No such program: %s.") [AStr prog] t in Done (1, t).

Definition background_run (prog : list Z) (background_proc : Z) t : outcome (Z * Z * T) :=
  if negb (background_proc =? -1) then
    let* t := print (line "Error: Can only run one background process at a time.") [] t in
    let* t := print (line "Use 'wait' to block until it stops.") [] t in
    Done (1, background_proc, t)
  else
    let* '(exists_, t) := does_file_exist prog t in
    if exists_ : bool then
      let* s := string_at prog in
      let '(background_proc, t) := sc_spawn s t in
      let* t := print (line "Background process spawned with PID %d") [AInt background_proc] t in
      Done (0, background_proc, t)
    else
      let* t := print (line "No such program: %s.") [AStr prog] t in Done (1, background_proc, t).

Definition print_prompt (last_retval : Z) t : outcome T := print (chars "%d> ") [AInt last_retval] t.

(** ** The command line *)

(** The command line and [argv] change; [p] is where the current word starts. *)
Definition tokenize_step :
    Z * Z * bool * Z * list Z * list (option Z) →
    outcome (Z * Z * bool * Z * list Z * list (option Z) + Z * bool * Z * list Z * list (option Z)) :=
  λ '(s, p, inword, argc, cmdline, argv),
    let* c := aread cmdline s in
    if c =? 0 then Done (inr (p, inword, argc, cmdline, argv))
    else if (c =? 32) && inword then
      let* argv := awrite argv argc (Some p) in
      let* cmdline := awrite cmdline s 0 in
      Done (inl (s + 1, p, false, argc + 1, cmdline, argv))
    else if negb (c =? 32) && negb inword then Done (inl (s + 1, s, true, argc, cmdline, argv))
    else Done (inl (s + 1, p, inword, argc, cmdline, argv)).

Definition tokenize cmdline argv : outcome (Z * list Z * list (option Z)) :=
  let* '(p, inword, argc, cmdline, argv) :=
    while_loop (S (length cmdline)) tokenize_step (0, 0, false, 0, cmdline, argv) in
  if inword : bool then let* argv := awrite argv argc (Some p) in Done (argc + 1, cmdline, argv)
  else Done (argc, cmdline, argv).

Definition is_command cmdline argv (name : string) : outcome bool :=
  let* m := arg_mem cmdline argv 0 in
  let* d := strcmp m (chars name ++ [0]) in
  Done (d =? 0).

(** The result, the command line, [background_proc] and the state. *)
Definition run_words (fuel : nat) (argc : Z) argv cmdline (background_proc : Z) t
    : outcome (Z * list Z * Z * T) :=
  let plain (m : outcome (Z * T)) :=
    let* '(r, t) := m in Done (r, cmdline, background_proc, t) in
  if argc =? 0 then Done (0, cmdline, background_proc, t) else
  let* b := is_command cmdline argv "wait" in
  if b : bool then let* '(r, bg, t) := cmd_wait argc background_proc t in Done (r, cmdline, bg, t) else
  let* b := is_command cmdline argv "ls" in
  if b : bool then plain (cmd_ls argc argv cmdline t) else
  let* b := is_command cmdline argv "touch" in
  if b : bool then plain (cmd_touch argc argv cmdline t) else
  let* b := is_command cmdline argv "cp" in
  if b : bool then plain (cmd_cp fuel argc argv cmdline t) else
  let* b := is_command cmdline argv "show" in
  if b : bool then plain (cmd_show fuel argc argv cmdline t) else
  let* b := is_command cmdline argv "rm" in
  if b : bool then plain (cmd_rm argc argv cmdline t) else
  let* b := is_command cmdline argv "cmp" in
  if b : bool then plain (cmd_cmp fuel argc argv cmdline t) else
  let* b := is_command cmdline argv "echo" in
  if b : bool then plain (cmd_echo argc argv cmdline t) else
  let* b := is_command cmdline argv "exit" in
  if b : bool then let* t := sc_exit 0 t in Done (1, cmdline, background_proc, t) else
  let* o := arg argv (argc - 1) in
  let* k := UserString.strlen (drop (Z.to_nat o) cmdline) in
  let* c := aread cmdline (o + (k - 1)) in
  if c =? 38 then
    let* cmdline := awrite cmdline (o + (k - 1)) 0 in
    let* '(r, bg, t) := background_run cmdline background_proc t in
    Done (r, cmdline, bg, t)
  else plain (cmd_run cmdline t).

Definition run_command (fuel : nat) cmdline (background_proc : Z) t : outcome (Z * list Z * Z * T) :=
  let* '(argc, cmdline, argv) := tokenize cmdline (replicate (Z.to_nat BUFFER_SIZE) None) in
  run_words fuel argc argv cmdline background_proc t.

(** The body of the loop of [main]; the prompt shows the 0 that [ret] keeps. *)
Definition main_step (fuel : nat) : list Z * Z * T → outcome (list Z * Z * T) :=
  λ '(cmdline, background_proc, t),
    let* t := print_prompt 0 t in
    let* '(_, cmdline, t) := readline_static garbage fuel cmdline BUFFER_SIZE t in
    let* '(_, cmdline, background_proc, t) := run_command fuel cmdline background_proc t in
    Done (cmdline, background_proc, t).
End shell.

(** ** What the commands rely on *)

(** Files are a map from names to contents, handles one to names and positions; an
    open succeeds while there is a handle left.  A file keeps its size. *)
Class Files (T : Type) {console : Console T} {spec : ConsoleSpec T} {sc : Syscalls T} := {
  files : T → gmap (list Z) (list Z);
  handles : T → gmap Z (list Z * nat);
  max_open : nat;
  can_create : gmap (list Z) (list Z) → list Z → Z → Prop;
  obs : T → gmap (list Z) (list Z) * gmap Z (list Z * nat) * list Z * list Z :=
    λ t, (files t, handles t, pending t, printed t);
  write_spec l t : fst (sys_write l t) = Z.of_nat (length l) ∧
    files (snd (sys_write l t)) = files t ∧ handles (snd (sys_write l t)) = handles t;
  open_spec s c t : files t !! s = Some c → (size (handles t) < max_open)%nat →
    ∃ h t', sc_open s t = (h, t') ∧ 0 ≤ h < 2 ^ 31 ∧ handles t !! h = None ∧
      obs t' = (files t, <[h := (s, 0%nat)]> (handles t), pending t, printed t);
  open_fails s t : files t !! s = None → ∃ e t', sc_open s t = (e, t') ∧ - 2 ^ 31 ≤ e < 0 ∧ obs t' = obs t;
  read_spec h n s p c t : handles t !! h = Some (s, p) → files t !! s = Some c → 0 ≤ n →
    let bs := take (Z.to_nat n) (drop p c) in
    ∃ t', sc_read h n t = (Z.of_nat (length bs), bs, t') ∧
      obs t' = (files t, <[h := (s, (p + length bs)%nat)]> (handles t), pending t, printed t);
  file_write_spec h s p c l t : handles t !! h = Some (s, p) → files t !! s = Some c → Forall is_u8 l →
    let k := (length l `min` (length c - p))%nat in
    ∃ t', sc_write h l t = (Z.of_nat k, t') ∧
      obs t' = (<[s := take p c ++ take k l ++ drop (p + k) c]> (files t), <[h := (s, (p + k)%nat)]> (handles t),
        pending t, printed t);
  close_spec h t : (h < 0 ∨ is_Some (handles t !! h)) → ∃ r t', sc_close h t = (r, t') ∧
    obs t' = (files t, delete h (handles t), pending t, printed t);
  create_spec s n t : files t !! s = None → can_create (files t) s n → 0 ≤ n →
    ∃ t', sc_create s n t = (0, t') ∧
      obs t' = (<[s := replicate (Z.to_nat n) 0]> (files t), handles t, pending t, printed t)
}.

(** ** Printing *)

(** The text of a format with %d and %s. *)
Definition number (z : Z) : list Z := (if z <? 0 then [45] else []) ++ uint_text 11 false 10 0 0 (Z.abs z).

Fixpoint say (fmt : list Z) (args : list parg) : list Z :=
  match fmt with
  | [] => []
  | c :: fmt =>
      if c =? 37 then
        match fmt, args with
        | _ :: fmt, AInt z :: args => number z ++ say fmt args
        | _ :: fmt, AStr m :: args => default [] (c_string m) ++ say fmt args
        | _, _ => []
        end
      else c :: say fmt args
  end.

(** The arguments are those the format asks for. *)
Fixpoint fits (fmt : list Z) (args : list parg) : Prop :=
  match fmt with
  | [] => args = []
  | c :: fmt =>
      if c =? 37 then
        match fmt, args with
        | ty :: fmt, AInt z :: args => ty = 100 ∧ is_s32 z ∧ fits fmt args
        | ty :: fmt, AStr m :: args =>
            ty = 115 ∧ (is_Some (c_string m) ∧ Forall is_u8 m ∧ (length m ≤ 1000)%nat) ∧ fits fmt args
        | _, _ => False
        end
      else is_u8 c ∧ c ≠ 0 ∧ fits fmt args
  end.

Fixpoint items_of (fmt : list Z) : list item :=
  match fmt with
  | [] => []
  | c :: fmt =>
      if c =? 37 then
        match fmt with
        | ty :: fmt => Conv (CSpec [] [] None ty) :: items_of fmt
        | [] => []
        end
      else Lit c :: items_of fmt
  end.

(** A concrete format and its arguments. *)
Ltac fits_tac :=
  match goal with |- fits ?f _ => let f' := eval vm_compute in f in change f with f' end;
  cbn [fits Z.eqb Pos.eqb]; unfold is_u8, is_s32 in *; split_and!; done || lia.

(** Induction over formats. *)
Lemma fits_ind (P : list Z → list parg → Prop) :
  P [] [] →
  (∀ c fmt args, c ≠ 37 → is_u8 c → c ≠ 0 → fits fmt args → P fmt args → P (c :: fmt) args) →
  (∀ z fmt args, is_s32 z → fits fmt args → P fmt args → P (37 :: 100 :: fmt) (AInt z :: args)) →
  (∀ m s fmt args, c_string m = Some s → Forall is_u8 m → (length m ≤ 1000)%nat → fits fmt args →
    P fmt args → P (37 :: 115 :: fmt) (AStr m :: args)) →
  ∀ fmt args, fits fmt args → P fmt args.
Proof.
  intros H1 H2 H3 H4 fmt. remember (length fmt) as n eqn:En.
  revert fmt En. induction (lt_wf n) as [n _ IH]. intros fmt -> args Hf.
  destruct fmt as [|c fmt]; [by rewrite Hf|]. cbn [fits] in Hf. destruct (Z.eqb_spec c 37) as [->|Hc].
  - destruct fmt as [|ty fmt]; [done|]. destruct args as [|[z|z|m] args]; try done.
    + destruct Hf as (-> & Hz & Hf). apply H3; [done|done|]. eapply IH; [|done|done]. simpl. lia.
    + destruct Hf as (-> & ([s Hs] & Hm & Hl) & Hf). apply (H4 m s); [done|done|done|done|].
      eapply IH; [|done|done]. simpl. lia.
  - destruct Hf as (Hu & H0 & Hf). apply H2; [done|done|done|done|]. eapply IH; [|done|done]. simpl. lia.
Qed.

Lemma c_string_sub m s : c_string m = Some s → Forall is_u8 m →
  Forall (λ c, is_u8 c ∧ c ≠ 0) s ∧ (length s ≤ length m)%nat.
Proof.
  revert s. induction m as [|c m IH]; intros s Hs Hm; [done|]. cbn [c_string] in Hs.
  apply Forall_cons in Hm as [Hc Hm]. destruct (Z.eqb_spec c 0) as [->|H0].
  - injection Hs as <-. simpl. split; [constructor|lia].
  - destruct (c_string m) as [s'|] eqn:E; [|done]. injection Hs as <-. destruct (IH s' eq_refl Hm) as [H1 H2].
    simpl. split; [by constructor|lia].
Qed.

Lemma number_chars z : is_s32 z → Forall (λ c, is_u8 c ∧ c ≠ 0) (number z) ∧ (length (number z) ≤ 34)%nat.
Proof.
  intros Hz. unfold number, uint_text. set (ds := le_digits 10 (Z.abs z)).
  assert (Hd : Forall (λ d, 0 ≤ d < 10) ds) by (apply digs_range; lia).
  assert (Hl : ∀ f n, (length (digs 10 f n) ≤ f)%nat).
  { induction f as [|f IH]; intros n; [simpl; lia|]. cbn [digs]. destruct (n / 10 =? 0); simpl; [lia|].
    specialize (IH (n / 10)). lia. }
  pose proof (Hl 33%nat (Z.abs z)) as Hl'. change (digs 10 33 (Z.abs z)) with ds in Hl'.
  clearbody ds. clear Hl. set (d := reverse (digit_char false <$> ds)).
  assert (Hlen : length d = length ds) by (unfold d; by rewrite length_reverse, length_fmap).
  assert (Hz0 : Z.to_nat (Z.min 0 11 - Z.of_nat (length d)) = 0%nat) by lia.
  rewrite Hz0. cbn [replicate app]. rewrite Hz0. cbn [replicate app].
  rewrite length_app, Hlen. split.
  - apply Forall_app. split; [by destruct (z <? 0); repeat constructor|].
    unfold d. rewrite Forall_reverse, Forall_fmap. eapply Forall_impl; [exact Hd|]. intros x Hx.
    cbn beta in *. unfold compose, digit_char, is_u8. destruct (Z.ltb_spec x 10); lia.
  - destruct (z <? 0); cbn [length]; lia.
Qed.

Lemma items_spec fmt args : fits fmt args →
  fmt_of (items_of fmt) = fmt ∧ items_ok user_variant 0x7fffffff (items_of fmt) ∧
  render 11 (items_of fmt) args = Some (say fmt args).
Proof.
  revert fmt args. apply fits_ind.
  - done.
  - intros c fmt args Hc Hu H0 _ (E1 & E2 & E3). cbn [items_of say]. rewrite (proj2 (Z.eqb_neq c 37)) by done.
    cbn [items_ok render]. rewrite E3. split_and!; try done. change (c :: fmt_of (items_of fmt) = c :: fmt). by rewrite E1.
  - intros z fmt args Hz _ (E1 & E2 & E3). cbn [items_of say]. rewrite Z.eqb_refl.
    cbn [items_ok render]. split_and!; try done.
    + change (37 :: 100 :: fmt_of (items_of fmt) = 37 :: 100 :: fmt). by rewrite E1.
    + assert (E : conv_text 11 0 (-1) (-1) 100 (AInt z :: args) = Some (number z, args)).
      { unfold conv_text, number. change (has 0 FLAG_SIGN) with false. change (has 0 FLAG_SPACE) with false.
        change (has 0 FLAG_SMALLS) with false. cbn [Z.eqb orb app Pos.eqb].
        destruct (Z.ltb_spec z 0); [by rewrite Z.abs_neq by lia|by rewrite Z.abs_eq by lia]. }
      change (foldl add_flag 0 _) with 0. cbn [c_type c_width c_prec width_of prec_of]. rewrite E.
      cbn [mbind option_bind]. by rewrite E3.
  - intros m s fmt args Hs Hm Hl _ (E1 & E2 & E3). cbn [items_of say]. rewrite Z.eqb_refl.
    cbn [items_ok render]. split_and!; try done.
    + change (37 :: 115 :: fmt_of (items_of fmt) = 37 :: 115 :: fmt). by rewrite E1.
    + assert (E : conv_text 11 0 (-1) (-1) 115 (AStr m :: args) = Some (s, args))
        by (unfold conv_text; cbn; by rewrite Hs).
      change (foldl add_flag 0 _) with 0. cbn [c_type c_width c_prec width_of prec_of]. rewrite E, Hs.
      cbn [mbind option_bind]. by rewrite E3.
Qed.

Lemma filter_nonzero l : Forall (λ c, is_u8 c ∧ c ≠ 0) l → List.filter (λ c, negb (c =? 0)) l = l.
Proof.
  induction 1 as [|c l [_ Hc] _ IH]; [done|]. cbn [List.filter]. rewrite (proj2 (Z.eqb_neq c 0)) by done.
  cbn [negb]. by rewrite IH.
Qed.

Lemma say_chars fmt args : fits fmt args →
  Forall (λ c, is_u8 c ∧ c ≠ 0) (say fmt args) ∧ (length (say fmt args) ≤ 1000 * length fmt)%nat ∧
  Forall arg_ok args.
Proof.
  revert fmt args. apply fits_ind.
  - split_and!; [constructor|simpl; lia|constructor].
  - intros c fmt args Hc Hu H0 _ (E1 & E2 & E3). cbn [say]. rewrite (proj2 (Z.eqb_neq c 37)) by done.
    split_and!; [by constructor|cbn [length]; lia|done].
  - intros z fmt args Hz _ (E1 & E2 & E3). cbn [say]. rewrite Z.eqb_refl.
    destruct (number_chars z Hz) as [H1 H2]. split_and!.
    + by apply Forall_app.
    + rewrite length_app. cbn [length]. lia.
    + by constructor.
  - intros m s fmt args Hs Hm Hl _ (E1 & E2 & E3). cbn [say]. rewrite Z.eqb_refl, Hs. change (default [] (Some s)) with s.
    destruct (c_string_sub m s Hs Hm) as [H1 H2]. split_and!.
    + by apply Forall_app.
    + rewrite length_app. cbn [length]. lia.
    + by constructor.
Qed.

(** ** The command line *)

(** The words of a line; [cur] is the word before it. *)
Fixpoint words_from (cur l : list Z) : list (list Z) :=
  match l with
  | [] => match cur with [] => [] | _ => [cur] end
  | c :: l =>
      if c =? 32 then match cur with [] => words_from [] l | _ => cur :: words_from [] l end
      else words_from (cur ++ [c]) l
  end.
Definition words (l : list Z) : list (list Z) := words_from [] l.

(** The [i]-th argument is the word [w]. *)
Definition word_at (cmdline : list Z) (argv : list (option Z)) (i : nat) (w : list Z) : Prop :=
  ∃ o, argv !! i = Some (Some (Z.of_nat o)) ∧ w ≠ [] ∧ cstr (drop o cmdline) w.

(** The words found so far end before position [s]. *)
Definition found (cmdline : list Z) (s : nat) (e : nat * list Z) : Prop :=
  e.2 ≠ [] ∧ 0 ∉ e.2 ∧ (e.1 + S (length e.2) ≤ s)%nat ∧
  take (S (length e.2)) (drop e.1 cmdline) = e.2 ++ [0].

Record scanning (cmdline0 l : list Z) (m : nat) (s p : nat) (inword : bool) (argc : Z) (cmdline : list Z)
    (argv : list (option Z)) : Prop := {
  sc_pos : (s ≤ length l)%nat;
  sc_len : length cmdline = length cmdline0;
  sc_rest : drop s cmdline = drop s cmdline0;
  sc_u8 : Forall is_u8 cmdline0 → Forall is_u8 cmdline;
  sc_words : ∃ dn cur, argc = Z.of_nat (length dn) ∧ Forall (found cmdline (s - length cur)) dn ∧
    argv = ((λ e : nat * list Z, Some (Z.of_nat e.1)) <$> dn) ++ replicate (m - length dn) None ∧
    words l = dn.*2 ++ words_from cur (drop s l) ∧ (inword = true ↔ cur ≠ []) ∧ 0 ∉ cur ∧
    (2 * length dn + length cur ≤ s)%nat ∧ (cur ≠ [] → (p + length cur = s)%nat) ∧
    take (length cur) (drop (s - length cur) cmdline) = cur
}.

Lemma found_cstr cmdline s e : found cmdline s e → cstr (drop e.1 cmdline) e.2.
Proof.
  intros (_ & H0 & _ & Ht). split; [done|]. exists (drop (S (length e.2)) (drop e.1 cmdline)).
  rewrite <- (take_drop (S (length e.2)) (drop e.1 cmdline)) at 1. rewrite Ht.
  by rewrite <- (assoc_L (++)).
Qed.

Lemma found_insert cmdline s s' e c :
  (s ≤ s')%nat → found cmdline s e → found (<[s' := c]> cmdline) s e.
Proof.
  intros Hs (H1 & H2 & H3 & H4). split_and!; [done|done|done|].
  rewrite <- H4. rewrite !take_drop_commute. f_equal. apply take_insert_ge. lia.
Qed.

Lemma found_later cmdline s s' e : (s ≤ s')%nat → found cmdline s e → found cmdline s' e.
Proof. intros Hs (H1 & H2 & H3 & H4). split_and!; [done|done|lia|done]. Qed.

(** The word [cur] that ends at [s], followed by a NUL. *)
Lemma found_last cmdline s p cur :
  cur ≠ [] → 0 ∉ cur → (p + length cur = s)%nat → take (length cur) (drop p cmdline) = cur →
  cmdline !! s = Some 0 → found cmdline (S s) (p, cur).
Proof.
  intros Hne H0 Hp Hcur Hs. split_and!; [done|done|simpl; lia|]. cbn [fst snd].
  rewrite (take_S_r _ _ 0) by (by rewrite lookup_drop, Hp). by rewrite Hcur.
Qed.

Lemma found_words cmdline s dn r i w : Forall (found cmdline s) dn → dn.*2 !! i = Some w →
  word_at cmdline (((λ e : nat * list Z, Some (Z.of_nat e.1)) <$> dn) ++ r) i w.
Proof.
  intros Hd Hi. rewrite list_lookup_fmap in Hi. destruct (dn !! i) as [e|] eqn:Ei; [|done].
  injection Hi as <-. pose proof (proj1 (Forall_lookup _ _) Hd _ _ Ei) as He. exists e.1. split_and!.
  - apply lookup_app_l_Some. by rewrite list_lookup_fmap, Ei.
  - by destruct He.
  - eapply found_cstr, He.
Qed.

Lemma offsets_snoc dn p cur k :
  ((λ e : nat * list Z, Some (Z.of_nat e.1)) <$> dn) ++ Some (Z.of_nat p) :: replicate k None =
  ((λ e : nat * list Z, Some (Z.of_nat e.1)) <$> dn ++ [(p, cur)]) ++ replicate k (None : option Z).
Proof. by rewrite fmap_app, <- (assoc_L (++)). Qed.

(** What is ahead of the scan is as it was. *)
Lemma same_ahead (a b : list Z) s i : drop s a = drop s b → (s ≤ i)%nat → a !! i = b !! i.
Proof.
  intros E Hi. replace i with (s + (i - s))%nat by lia. by rewrite <- !lookup_drop, E.
Qed.

Lemma same_further (a b : list Z) s : drop s a = drop s b → drop (S s) a = drop (S s) b.
Proof. intros E. change (S s) with (1 + s)%nat. rewrite Nat.add_comm, <- !drop_drop. by rewrite E. Qed.

Section scan.
Context (cmdline0 l : list Z) (m s p : nat) (argc : Z) (cmdline : list Z) (argv : list (option Z)).
Context (Hl : cstr cmdline0 l) (Hm : (length l < m)%nat).

Lemma scan_end_word :
  l !! s = Some 32 → scanning cmdline0 l m s p true argc cmdline argv →
  ∃ argv', awrite argv argc (Some (Z.of_nat p)) = Done argv' ∧
    scanning cmdline0 l m (S s) p false (argc + 1) (<[s := 0]> cmdline) argv'.
Proof using Hl Hm.
  intros Hc [Hpos Hlen Hrest Hu8 (dn & cur & -> & Hdn & -> & Hw & Hin & H0 & Hbound & Hp & Hcur)].
  pose proof (lookup_lt_Some _ _ _ Hc) as Hs. pose proof (cstr_length _ _ Hl) as Hl0.
  assert (Hne : cur ≠ []) by (by apply Hin). specialize (Hp Hne).
  assert (0 < length cur)%nat by (destruct cur; [done|simpl; lia]).
  rewrite (drop_S _ _ _ Hc) in Hw. cbn [words_from Z.eqb Pos.eqb] in Hw.
  replace (m - length dn)%nat with (S (m - length (dn ++ [(p, cur)]))) by (rewrite length_app; simpl; lia).
  cbn [replicate]. rewrite awrite_middle by (by rewrite length_fmap). eexists. split; [done|].
  split; [lia|by rewrite length_insert| |intros Hu; by apply Forall_insert; [apply Hu8|]|].
  { rewrite drop_insert_lt by lia. by apply same_further. }
  exists (dn ++ [(p, cur)]), []. split_and!.
  - rewrite length_app. simpl. lia.
  - apply Forall_app. cbn [length]. rewrite Nat.sub_0_r. split.
    + eapply Forall_impl; [exact Hdn|]. intros e He. eapply found_later; [|apply found_insert, He]; simpl; lia.
    + constructor; [|constructor]. apply found_last; [done|done|done| |apply list_lookup_insert_eq; lia].
      rewrite take_drop_commute, take_insert_ge, <- take_drop_commute by lia.
      by replace p with (s - length cur)%nat by lia.
  - apply offsets_snoc.
  - rewrite Hw, fmap_app, <- (assoc_L (++)). by destruct cur.
  - done.
  - set_solver.
  - rewrite length_app. simpl. lia.
  - done.
  - done.
Qed.

Lemma scan_space :
  l !! s = Some 32 → scanning cmdline0 l m s p false argc cmdline argv →
  scanning cmdline0 l m (S s) p false argc cmdline argv.
Proof.
  intros Hc [Hpos Hlen Hrest Hu8 (dn & cur & -> & Hdn & -> & Hw & Hin & H0 & Hbound & Hp & Hcur)].
  pose proof (lookup_lt_Some _ _ _ Hc) as Hs.
  assert (cur = []) as -> by (destruct cur; [done|]; by discriminate (proj2 Hin)).
  rewrite (drop_S _ _ _ Hc) in Hw. cbn [words_from Z.eqb Pos.eqb] in Hw.
  split; [lia|done|by apply same_further|done|].
  exists dn, []. split_and!; try done; [|simpl in *; lia].
  eapply Forall_impl; [exact Hdn|]. intros e. apply found_later. simpl. lia.
Qed.

Lemma scan_letter inword c :
  l !! s = Some c → c ≠ 32 → scanning cmdline0 l m s p inword argc cmdline argv →
  scanning cmdline0 l m (S s) (if inword then p else s) true argc cmdline argv.
Proof using Hl Hm.
  intros Hc H32 [Hpos Hlen Hrest Hu8 (dn & cur & -> & Hdn & -> & Hw & Hin & H0 & Hbound & Hp & Hcur)].
  pose proof (lookup_lt_Some _ _ _ Hc) as Hs.
  assert (Hc0 : c ≠ 0) by (eapply cstr_elem_ne; done).
  rewrite (drop_S _ _ _ Hc) in Hw. cbn [words_from] in Hw. rewrite (proj2 (Z.eqb_neq c 32)) in Hw by done.
  split; [lia|done|by apply same_further|done|].
  exists dn, (cur ++ [c]). rewrite length_app. cbn [length].
  split_and!; try done.
  - eapply Forall_impl; [exact Hdn|]. intros e. apply found_later. lia.
  - split; [intros _; by destruct cur|done].
  - set_solver.
  - lia.
  - intros _. destruct inword; [rewrite <- Hp by (by apply Hin); lia|].
    assert (cur = []) as -> by (destruct cur; [done|]; by discriminate (proj2 Hin)). simpl. lia.
  - replace (S s - (length cur + 1))%nat with (s - length cur)%nat by lia.
    rewrite Nat.add_1_r, (take_S_r _ _ c); [by rewrite Hcur|].
    rewrite lookup_drop. replace (s - length cur + length cur)%nat with s by lia.
    rewrite (same_ahead _ _ _ _ Hrest) by done. by rewrite (cstr_lookup _ _ _ Hl).
Qed.
End scan.

Lemma tokenize_step_spec cmdline0 l m s p inword argc cmdline argv c :
  cstr cmdline0 l → (length l < m)%nat → l !! s = Some c →
  scanning cmdline0 l m s p inword argc cmdline argv →
  ∃ p' inword' argc' cmdline' argv',
    tokenize_step (Z.of_nat s, Z.of_nat p, inword, argc, cmdline, argv) =
      Done (inl (Z.of_nat (S s), Z.of_nat p', inword', argc', cmdline', argv')) ∧
    scanning cmdline0 l m (S s) p' inword' argc' cmdline' argv'.
Proof.
  intros Hl Hm Hc Hsc. pose proof (lookup_lt_Some _ _ _ Hc) as Hs. pose proof (cstr_length _ _ Hl) as Hl0.
  pose proof (sc_len _ _ _ _ _ _ _ _ _ Hsc) as Hlen.
  assert (Hc0 : c ≠ 0) by (eapply cstr_elem_ne; done).
  assert (Hread : cmdline !! s = Some c).
  { rewrite (same_ahead _ cmdline0 s) by (done || apply Hsc). by rewrite (cstr_lookup _ _ _ Hl). }
  unfold tokenize_step. rewrite (aread_Some cmdline _ c) by (rewrite ?Nat2Z.id; done || lia).
  cbn [outcome_bind]. rewrite (proj2 (Z.eqb_neq c 0)) by done.
  replace (Z.of_nat s + 1) with (Z.of_nat (S s)) by lia.
  destruct (Z.eqb_spec c 32) as [->|H32], inword; cbn [andb negb].
  - destruct (scan_end_word _ _ _ _ _ _ _ _ Hl Hm Hc Hsc) as (argv' & -> & Hsc'). cbn [outcome_bind].
    rewrite awrite_in_range by lia. cbn [outcome_bind]. rewrite Nat2Z.id. eauto 10.
  - eexists _, _, _, _, _. split; [done|]. by apply scan_space.
  - eexists _, _, _, _, _. split; [done|]. by apply (scan_letter _ _ _ _ _ _ _ _ Hl Hm true c).
  - eexists _, _, _, _, _. split; [done|]. by apply (scan_letter _ _ _ _ p _ _ _ Hl Hm false c).
Qed.

Lemma scan_line cmdline0 l m : cstr cmdline0 l → (length l < m)%nat →
  ∀ n s p inword argc cl argv fuel, (s + n = length l)%nat → (n < fuel)%nat →
    scanning cmdline0 l m s p inword argc cl argv →
    ∃ p' inword' argc' cl' argv',
      while_loop fuel tokenize_step (Z.of_nat s, Z.of_nat p, inword, argc, cl, argv) =
        Done (Z.of_nat p', inword', argc', cl', argv') ∧ cl' !! length l = Some 0 ∧
      scanning cmdline0 l m (length l) p' inword' argc' cl' argv'.
Proof.
  intros Hl Hm. pose proof (cstr_length _ _ Hl) as Hlt.
  induction n as [|n IH]; intros s p inword argc cl argv fuel Hs Hf Hsc; (destruct fuel as [|fuel]; [lia|]);
    rewrite while_loop_S.
  - exists p, inword, argc, cl, argv. assert (s = length l) as -> by lia.
    assert (Hend : cl !! length l = Some 0).
    { rewrite (same_ahead _ cmdline0 (length l)) by (done || apply Hsc). by apply (cstr_lookup_end _ _ Hl). }
    split_and!; [|done|done]. pose proof (sc_len _ _ _ _ _ _ _ _ _ Hsc). unfold tokenize_step.
    by rewrite (aread_Some cl _ 0) by (rewrite ?Nat2Z.id; done || lia).
  - destruct (lookup_lt_is_Some_2 l s) as [c Hc]; [lia|].
    destruct (tokenize_step_spec cmdline0 l m s p inword argc cl argv c Hl Hm Hc Hsc)
      as (p' & iw' & ac' & cl' & av' & -> & Hsc'). cbn [outcome_bind].
    apply (IH (S s)); [lia|lia|done].
Qed.

Lemma tokenize_spec cmdline l m :
  cstr cmdline l → (length l < m)%nat →
  returns (tokenize cmdline (replicate m None)) (λ '(argc, cmdline', argv),
    argc = Z.of_nat (length (words l)) ∧ length cmdline' = length cmdline ∧ length argv = m ∧
    (Forall is_u8 cmdline → Forall is_u8 cmdline') ∧
    (∀ i w, words l !! i = Some w → word_at cmdline' argv i w) ∧
    (∀ i, (length (words l) ≤ i < m)%nat → argv !! i = Some None)).
Proof.
  intros Hl Hm. pose proof (cstr_length _ _ Hl) as Hlt.
  destruct (scan_line cmdline l m Hl Hm (length l) 0%nat 0%nat false 0 cmdline (replicate m None) (S (length cmdline)))
    as (p & iw & argc & cl & av & E & Hend & Hsc); [lia|lia| |].
  { split; [lia|done|done|done|]. exists [], []. split_and!; try done; [by rewrite Nat.sub_0_r|set_solver]. }
  unfold tokenize. change 0 with (Z.of_nat 0) at 1 2. rewrite E. cbn [outcome_bind].
  destruct Hsc as [_ Hlen _ Hu8 (dn & cur & -> & Hdn & -> & Hw & Hin & H0 & Hbound & Hp & Hcur)].
  rewrite drop_ge in Hw by done. cbn [words_from] in Hw.
  assert (Hargs : ∀ dn', words l = dn'.*2 → (length dn' ≤ m)%nat → Forall (found cl (S (length l))) dn' →
    returns (Done (Z.of_nat (length dn'), cl,
        ((λ e : nat * list Z, Some (Z.of_nat e.1)) <$> dn') ++ replicate (m - length dn') None)) (λ '(argc, cmdline', argv),
      argc = Z.of_nat (length (words l)) ∧ length cmdline' = length cmdline ∧ length argv = m ∧
      (Forall is_u8 cmdline → Forall is_u8 cmdline') ∧
      (∀ i w, words l !! i = Some w → word_at cmdline' argv i w) ∧
      (∀ i, (length (words l) ≤ i < m)%nat → argv !! i = Some None))).
  { intros dn' -> Hle Hd. cbn [returns]. rewrite length_fmap. split_and!; [done|done| |done| |].
    - rewrite length_app, length_fmap, length_replicate. lia.
    - intros i w. by apply (found_words _ (S (length l))).
    - intros i Hi. rewrite lookup_app_r by (rewrite length_fmap; lia). apply lookup_replicate.
      rewrite length_fmap. split; [done|lia]. }
  assert (Hdn' : Forall (found cl (S (length l))) dn)
    by (eapply Forall_impl; [exact Hdn|]; intros e; apply found_later; lia).
  destruct iw.
  - assert (Hne : cur ≠ []) by (by apply Hin). specialize (Hp Hne).
    assert (0 < length cur)%nat by (destruct cur; [done|simpl; lia]).
    specialize (Hargs (dn ++ [(p, cur)])). rewrite length_app in Hargs. cbn [length] in Hargs.
    replace (m - length dn)%nat with (S (m - (length dn + 1))) by lia.
    cbn [replicate]. rewrite awrite_middle by (by rewrite length_fmap). cbn [outcome_bind].
    rewrite (offsets_snoc _ _ cur). replace (Z.of_nat (length dn) + 1) with (Z.of_nat (length dn + 1)) by lia.
    apply Hargs; [rewrite Hw, fmap_app; by destruct cur|lia|]. apply Forall_app. split; [done|].
    constructor; [|constructor]. apply found_last; [done|done|done| |done].
    by replace p with (length l - length cur)%nat by lia.
  - assert (cur = []) as -> by (destruct cur; [done|]; by discriminate (proj2 Hin)).
    apply Hargs; [by rewrite Hw, app_nil_r|lia|done].
Qed.

(** Reduces a bind without a comparison of what is bound: [print] would be run. *)
Lemma bind_Done {A B} (f : A → outcome B) a : outcome_bind f (Done a) = f a.
Proof. reflexivity. Qed.
Ltac bind_step := repeat (rewrite bind_Done; cbv beta match).

Section proofs.
Context {T : Type} {console : Console T} {spec : ConsoleSpec T} {sc : Syscalls T} {fls : Files T}.
Context (garbage garbage2 garbage_int : Z).
Implicit Types t : T.

Lemma put_all_spec l t : Forall is_u8 l →
  obs (put_all l t) = (files t, handles t, pending t, printed t ++ l).
Proof.
  intros Hl. unfold obs. revert t. induction Hl as [|c l Hc _ IH]; intros t; unfold put_all in *; cbn [foldl].
  - by rewrite app_nil_r.
  - rewrite IH. unfold putc. rewrite u8_id by done. destruct (write_spec [c] t) as (_ & -> & ->).
    destruct (sys_write_spec [c] t) as [-> ->]. by rewrite <- (assoc_L (++)).
Qed.

Lemma print_spec fmt args t : fits fmt args → Z.of_nat (length fmt) < 2 ^ 16 →
  ∃ t', print fmt args t = Done t' ∧ obs t' = (files t, handles t, pending t, printed t ++ say fmt args).
Proof.
  intros Hf Hl. destruct (items_spec fmt args Hf) as (E1 & E2 & E3).
  destruct (say_chars fmt args Hf) as (H1 & H2 & H3).
  unfold print, printf, user_vxnprintf.
  destruct (vxnprintf_tty user_variant (length (fmt ++ [0])) (items_of fmt) args [] (say fmt args) [])
    as (s & E & Es); [done|done|done|done|lia|rewrite E1, length_app; simpl; lia|].
  rewrite E1 in E. rewrite E. cbn [outcome_bind]. eexists. split; [done|].
  rewrite Es, filter_nonzero by done. cbn [app]. apply put_all_spec. eapply Forall_impl; [exact H1|]. by intros c [].
Qed.

(** ** Steps from one view of the state to the next *)
Implicit Types (F : gmap (list Z) (list Z)) (H : gmap Z (list Z * nat)) (K P : list Z).

Lemma obs_at t F H K P : obs t = (F, H, K, P) → files t = F ∧ handles t = H ∧ pending t = K ∧ printed t = P.
Proof. unfold obs. intros E. by simplify_eq. Qed.

Lemma print_at fmt args t F H K P :
  obs t = (F, H, K, P) → fits fmt args → Z.of_nat (length fmt) < 2 ^ 16 →
  ∃ t', print fmt args t = Done t' ∧ obs t' = (F, H, K, P ++ say fmt args).
Proof. intros (<- & <- & <- & <-)%obs_at Hf Hl. by apply print_spec. Qed.

(** What [clearline] shows. *)
Definition blank : list Z := 13 :: replicate 50 32 ++ [13].

Lemma clear_at t F H K P : obs t = (F, H, K, P) → obs (clearline t) = (F, H, K, P ++ blank).
Proof.
  intros (<- & <- & <- & <-)%obs_at. apply put_all_spec. apply (bool_decide_unpack _). vm_compute. done.
Qed.

Lemma open_at s c t F H K P :
  obs t = (F, H, K, P) → F !! s = Some c → (size H < max_open)%nat →
  ∃ h t', sc_open s t = (h, t') ∧ 0 ≤ h < 2 ^ 31 ∧ H !! h = None ∧ obs t' = (F, <[h := (s, 0%nat)]> H, K, P).
Proof. intros (<- & <- & <- & <-)%obs_at. apply open_spec. Qed.

Lemma open_fails_at s t F H K P :
  obs t = (F, H, K, P) → F !! s = None →
  ∃ e t', sc_open s t = (e, t') ∧ - 2 ^ 31 ≤ e < 0 ∧ obs t' = (F, H, K, P).
Proof. intros (<- & <- & <- & <-)%obs_at. apply open_fails. Qed.

Lemma read_at h n s p c t F H K P :
  obs t = (F, H, K, P) → H !! h = Some (s, p) → F !! s = Some c → 0 ≤ n →
  let bs := take (Z.to_nat n) (drop p c) in
  ∃ t', sc_read h n t = (Z.of_nat (length bs), bs, t') ∧ obs t' = (F, <[h := (s, (p + length bs)%nat)]> H, K, P).
Proof. intros (<- & <- & <- & <-)%obs_at. apply read_spec. Qed.

Lemma write_at h s p c l t F H K P :
  obs t = (F, H, K, P) → H !! h = Some (s, p) → F !! s = Some c → Forall is_u8 l →
  let k := (length l `min` (length c - p))%nat in
  ∃ t', sc_write h l t = (Z.of_nat k, t') ∧
    obs t' = (<[s := take p c ++ take k l ++ drop (p + k) c]> F, <[h := (s, (p + k)%nat)]> H, K, P).
Proof. intros (<- & <- & <- & <-)%obs_at. apply file_write_spec. Qed.

Lemma close_at h t F H K P :
  obs t = (F, H, K, P) → (h < 0 ∨ is_Some (H !! h)) → ∃ r t', sc_close h t = (r, t') ∧ obs t' = (F, delete h H, K, P).
Proof. intros (<- & <- & <- & <-)%obs_at. apply close_spec. Qed.

Lemma create_at s n t F H K P :
  obs t = (F, H, K, P) → F !! s = None → can_create F s n → 0 ≤ n →
  ∃ t', sc_create s n t = (0, t') ∧ obs t' = (<[s := replicate (Z.to_nat n) 0]> F, H, K, P).
Proof. intros (<- & <- & <- & <-)%obs_at. apply create_spec. Qed.

Lemma out_at l t F H K P : obs t = (F, H, K, P) → ∃ t',
  sys_write l t = (Z.of_nat (length l), t') ∧ obs t' = (F, H, K, P ++ l).
Proof.
  intros (<- & <- & <- & <-)%obs_at. exists (snd (sys_write l t)).
  destruct (write_spec l t) as (E1 & E2 & E3), (sys_write_spec l t) as [E4 E5].
  split; [rewrite <- E1; apply surjective_pairing|]. unfold obs. by rewrite E2, E3, E4, E5.
Qed.

Lemma c_string_cstr m w : cstr m w → c_string m = Some w.
Proof.
  intros [H0 [r ->]]. induction w as [|c w IH]; [done|]. cbn [c_string app].
  apply not_elem_of_cons in H0 as [Hc H0]. rewrite (proj2 (Z.eqb_neq c 0)) by done. by rewrite (IH H0).
Qed.

Lemma string_at_cstr m w : cstr m w → string_at m = Done w.
Proof. intros Hm. unfold string_at. by rewrite (c_string_cstr _ _ Hm). Qed.

Lemma stored_in (bytes buffer : list Z) : (length bytes ≤ length buffer)%nat → stored bytes buffer = Done (over buffer bytes).
Proof. intros Hl. unfold stored. by rewrite (proj2 (Nat.leb_le _ _)). Qed.

(** The arguments of a tokenized line. *)
Record args_are (cmdline : list Z) (argv : list (option Z)) (ws : list (list Z)) : Prop := {
  ar_words i w : ws !! i = Some w → word_at cmdline argv i w;
  ar_u8 : Forall is_u8 cmdline;
  ar_len : (length cmdline ≤ 100)%nat
}.

Lemma arg_at cmdline argv ws i w : args_are cmdline argv ws → ws !! i = Some w →
  ∃ m, arg_mem cmdline argv (Z.of_nat i) = Done m ∧ cstr m w ∧ Forall is_u8 m ∧ (length m ≤ 100)%nat ∧ string_at m = Done w.
Proof.
  intros [Hw Hu Hl] Hi. destruct (Hw _ _ Hi) as (o & Ho & _ & Hc). exists (drop o cmdline).
  unfold arg_mem, arg. rewrite (aread_Some _ _ (Some (Z.of_nat o))) by (rewrite ?Nat2Z.id; done || lia).
  cbn [outcome_bind]. rewrite Nat2Z.id. split_and!; [done|done|by apply Forall_drop|rewrite length_drop; lia|].
  by apply string_at_cstr.
Qed.

Lemma text_of_cstr m w : cstr m w → Forall is_u8 m → text w.
Proof. intros [H0 [r ->]] Hu. apply Forall_app in Hu as [Hu _]. by split. Qed.

Lemma is_command_spec cmdline argv ws w name :
  args_are cmdline argv ws → ws !! 0%nat = Some w → text (chars name) → (length (chars name) ≤ 100)%nat →
  is_command cmdline argv name = Done (bool_decide (w = chars name)).
Proof.
  intros Ha Hw Hn Hl. destruct (arg_at _ _ _ _ _ Ha Hw) as (m & E & Hc & Hu & Hm & _).
  unfold is_command. change (arg_mem cmdline argv 0) with (arg_mem cmdline argv (Z.of_nat 0)). rewrite E. cbn [outcome_bind].
  pose proof (text_of_cstr _ _ Hc Hu) as Hwt. pose proof (cstr_length _ _ Hc).
  assert (Hn' : ∃ n, 0x7fffffff = Z.of_nat n ∧ (100 ≤ n)%nat) by (exists (Z.to_nat 0x7fffffff); lia).
  destruct Hn' as (n & En & Hn100). unfold strcmp. rewrite En.
  rewrite (strncmp_spec m (chars name ++ [0]) w (chars name)); [|done| |done|done].
  - cbn [outcome_bind]. rewrite !take_ge by lia. f_equal.
    destruct (Z.eqb_spec (order w (chars name)) 0) as [E0|E0]; rewrite order_zero in E0 by done; symmetry;
      [by apply bool_decide_eq_true_2|by apply bool_decide_eq_false_2].
  - split; [by destruct Hn|]. by exists [].
Qed.

(** ** Copying *)

(** The file [d] while [p] bytes of [c] have been copied into [size] bytes. *)
Definition partial (c : list Z) (size p : nat) : list Z := take p c ++ replicate (size - p) 0.

Lemma partial_length c size p : (p ≤ size)%nat → (p ≤ length c)%nat → length (partial c size p) = size.
Proof. intros H1 H2. unfold partial. rewrite length_app, length_take, length_replicate. lia. Qed.

Lemma partial_write c size p k bs rd :
  (p ≤ length c)%nat → (p + k ≤ size)%nat → (k ≤ rd)%nat → bs = take rd (drop p c) → length bs = rd →
  take p (partial c size p) ++ take k bs ++ drop (p + k) (partial c size p) = partial c size (p + k).
Proof.
  intros Hp Hk Hkr -> Hrd. unfold partial. rewrite take_app_length' by (rewrite length_take; lia).
  rewrite take_take, Nat.min_l by done.
  rewrite drop_app_ge by (rewrite length_take; lia). rewrite drop_replicate, length_take, Nat.min_l by done.
  rewrite (assoc_L (++)), take_take_drop. do 2 f_equal. lia.
Qed.

Lemma cp_write_spec fd2 d c size p rd bs buffer tr tw t F H K P :
  obs t = (<[d := partial c size p]> F, H, K, P) → H !! fd2 = Some (d, p) → (p ≤ size)%nat → (p ≤ length c)%nat →
  length bs = rd → (0 < rd)%nat → bs = take rd (drop p c) → (rd ≤ length buffer)%nat → Forall is_u8 bs → is_s32 tr →
  let k := (rd `min` (size - p))%nat in
  ∃ tw' t' P', cp_write fd2 (over buffer bs) (Z.of_nat rd) tr tw t = Done ((k <? rd)%nat, tw', t') ∧
    (is_s32 tw → is_s32 tw') ∧
    obs t' = (<[d := partial c size (p + k)]> F, <[fd2 := (d, (p + k)%nat)]> H, K, P ++ P').
Proof.
  intros Ho Hh Hps Hpc Hbs Hrd Ebs Hbuf Hu Htr k. unfold cp_write. rewrite Nat2Z.id.
  assert (Hov : over buffer bs = bs ++ drop rd buffer) by (unfold over; by rewrite Hbs).
  assert (Hall : (p + rd ≤ length c)%nat)
    by (pose proof Hbs as Hb; rewrite Ebs, length_take, length_drop in Hb; lia).
  destruct rd as [|rd']; [lia|]. set (rd := S rd') in *. rewrite while_loop_S.
  unfold cp_write_step at 2. cbv beta match. rewrite (proj2 (Z.ltb_lt 0 (Z.of_nat rd))) by lia. rewrite Z.sub_0_r.
  unfold slice. rewrite (proj2 (Z.leb_le _ _)) by (rewrite length_over; lia). cbn [outcome_bind].
  rewrite Nat2Z.id, drop_0, Hov, take_app_length' by done.
  destruct (write_at fd2 d p (partial c size p) bs t _ _ _ _ Ho Hh (lookup_insert_eq _ _ _) Hu) as (t1 & E1 & Ho1).
  rewrite partial_length, Hbs in E1, Ho1 by done. fold k in E1, Ho1. rewrite E1.
  rewrite insert_insert_eq, (partial_write c size p k bs rd) in Ho1 by (done || lia).
  destruct (Z.leb_spec (Z.of_nat k) 0) as [Hk|Hk].
  - assert (k = 0%nat) as Ek by lia. rewrite Ek in *. change (Z.of_nat 0) with 0.
    destruct (print_at (10 :: line "Call to syscall_write() failed.  Reason: %d.") [AInt 0] t1 _ _ _ _ Ho1)
      as (t2 & -> & Ho2); [fits_tac|vm_compute; done|]. cbn [outcome_bind]. rewrite Z.eqb_refl.
    destruct (print_at (line "Did you remember to make the destination file big enough?") [] t2 _ _ _ _ Ho2)
      as (t3 & -> & Ho3); [fits_tac|vm_compute; done|]. cbn [outcome_bind].
    eexists tw, t3, _. split; [done|]. split; [done|]. rewrite Ho3, <- (assoc_L (++)). done.
  - destruct (print_at (chars "Read %d bytes, wrote %d bytes.") [AInt tr; AInt (s32 (tw + Z.of_nat k))] (clearline t1)
      _ _ _ _ (clear_at _ _ _ _ _ Ho1)) as (t2 & E2 & Ho2);
      [pose proof (s32_range (tw + Z.of_nat k)); fits_tac|vm_compute; done|].
    rewrite E2. cbn [outcome_bind]. rewrite Z.add_0_l. unfold rd at 1. rewrite while_loop_S.
    unfold cp_write_step at 2. cbv beta match. destruct (Z.ltb_spec (Z.of_nat k) (Z.of_nat rd)) as [Hlt|Hge].
    + rewrite (proj2 (Nat.ltb_lt _ _)) by lia.
      unfold slice. rewrite (proj2 (Z.leb_le _ _)) by (rewrite length_app, length_drop; lia). cbn [outcome_bind].
      assert (Hu2 : Forall is_u8 (take (Z.to_nat (Z.of_nat rd - Z.of_nat k)) (drop (Z.to_nat (Z.of_nat k)) (bs ++ drop rd buffer)))).
      { rewrite drop_app_le by lia. rewrite take_app_le by (rewrite length_drop; lia). by apply Forall_take, Forall_drop. }
      destruct (write_at fd2 d (p + k) (partial c size (p + k)) _ t2 _ _ _ _ Ho2 (lookup_insert_eq _ _ _)
        (lookup_insert_eq _ _ _) Hu2) as (t3 & E3 & Ho3).
      rewrite partial_length in E3, Ho3 by lia. replace (size - (p + k))%nat with 0%nat in E3, Ho3 by lia.
      rewrite Nat.min_0_r in E3, Ho3. change (Z.of_nat 0) with 0 in E3. rewrite E3.
      rewrite Nat.add_0_r, insert_insert_eq, insert_insert_eq in Ho3. rewrite take_0, app_nil_l, take_drop in Ho3.
      destruct (print_at (10 :: line "Call to syscall_write() failed.  Reason: %d.") [AInt 0] t3 _ _ _ _ Ho3)
        as (t4 & -> & Ho4); [fits_tac|vm_compute; done|]. cbn [outcome_bind]. rewrite Z.eqb_refl.
      destruct (print_at (line "Did you remember to make the destination file big enough?") [] t4 _ _ _ _ Ho4)
        as (t5 & -> & Ho5); [fits_tac|vm_compute; done|]. cbn [outcome_bind].
      eexists _, t5, _. split; [done|]. split; [intros; apply s32_range|]. rewrite Ho5, <- !(assoc_L (++)). done.
    + rewrite (proj2 (Nat.ltb_ge _ _)) by lia. cbn [outcome_bind].
      eexists _, t2, _. split; [done|]. split; [intros; apply s32_range|]. rewrite Ho2, <- !(assoc_L (++)). done.
Qed.

Lemma cp_step_spec fd1 fd2 s d c size p buffer tr tw t F H K P :
  obs t = (<[d := partial c size p]> F, H, K, P) → H !! fd1 = Some (s, p) → H !! fd2 = Some (d, p) → fd1 ≠ fd2 →
  s ≠ d → F !! s = Some c → (p ≤ size)%nat → (p ≤ length c)%nat → length buffer = 100%nat →
  is_s32 tw → Forall is_u8 c →
  let rd := (100 `min` (length c - p))%nat in
  let k := (rd `min` (size - p))%nat in
  ∃ x t' P', cp_step garbage_int fd1 fd2 (buffer, tr, tw, t) = Done x ∧
    obs t' = (<[d := partial c size (p + k)]> F, <[fd2 := (d, (p + k)%nat)]> (<[fd1 := (s, (p + rd)%nat)]> H), K, P ++ P') ∧
    match x with
    | inl (buffer', tr', tw', t1) => t1 = t' ∧ length buffer' = 100%nat ∧ is_s32 tw' ∧ (0 < rd)%nat ∧ k = rd
    | inr (r, t1) => t1 = t' ∧ (rd = 0%nat ∧ r = garbage_int ∨ (k < rd)%nat ∧ r = 1)
    end.
Proof.
  intros Ho H1 H2 Hne Hsd Hs Hps Hpc Hbuf Htw Hu8 rd k. unfold cp_step.
  destruct (read_at fd1 BUFFER_SIZE s p c t _ _ _ _ Ho H1) as (t1 & E1 & Ho1); [by rewrite lookup_insert_ne|done|].
  change (Z.to_nat BUFFER_SIZE) with 100%nat in E1, Ho1.
  set (bs := take 100 (drop p c)) in *.
  assert (Hlen : length bs = rd) by (unfold bs, rd; rewrite length_take, length_drop; lia).
  rewrite Hlen in E1, Ho1. rewrite E1. rewrite stored_in by lia. cbn [outcome_bind].
  assert (Hbs : bs = take rd (drop p c)).
  { rewrite <- Hlen. unfold bs at 2. rewrite length_take, length_drop. unfold bs.
    destruct (decide (100 ≤ length c - p)%nat); [by rewrite Nat.min_l by lia|].
    rewrite Nat.min_r by lia. rewrite !take_ge by (rewrite length_drop; lia). done. }
  destruct (Z.eqb_spec (Z.of_nat rd) 0) as [Hz|Hz].
  - assert (rd = 0%nat) as Erd by lia. assert (k = 0%nat) as Ek by lia. rewrite Ek.
    eexists _, t1, []. split; [done|]. rewrite Erd in *. rewrite Nat.add_0_r in *. rewrite app_nil_r. split; [|split; [done|by left]].
    rewrite Ho1. rewrite (insert_id (<[fd1:=_]> H) fd2) by (by rewrite lookup_insert_ne). done.
  - destruct (print_at (chars "Read %d bytes, wrote %d bytes.") [AInt (s32 (tr + Z.of_nat rd)); AInt tw] (clearline t1)
      _ _ _ _ (clear_at _ _ _ _ _ Ho1)) as (t2 & E2 & Ho2);
      [pose proof (s32_range (tr + Z.of_nat rd)); fits_tac|vm_compute; done|].
    rewrite E2. cbn [outcome_bind].
    destruct (cp_write_spec fd2 d c size p rd bs buffer (s32 (tr + Z.of_nat rd)) tw t2 _ _ _ _ Ho2)
      as (tw' & t3 & P' & -> & Htw' & Ho3); try done; [by rewrite lookup_insert_ne|lia|lia| |apply s32_range|].
    { by apply Forall_take, Forall_drop. }
    cbn [outcome_bind]. fold k in Ho3 |- *. exists (if (k <? rd)%nat then inr (1, t3) else inl (over buffer bs, s32 (tr + Z.of_nat rd), tw', t3)), t3.
    eexists. split; [by destruct (k <? rd)%nat|]. split; [rewrite Ho3, <- !(assoc_L (++)); done|].
    destruct (Nat.ltb_spec k rd) as [Hlt|Hge]; (split; [done|]).
    + right. done.
    + split_and!; [rewrite length_over by lia; done|by apply Htw'|lia|lia].
Qed.

Lemma cp_loop fd1 fd2 s d c size : ∀ n p buffer tr tw t F H K P fuel,
  obs t = (<[d := partial c size p]> F, H, K, P) → H !! fd1 = Some (s, p) → H !! fd2 = Some (d, p) → fd1 ≠ fd2 →
  s ≠ d → F !! s = Some c → (p ≤ size)%nat → (p ≤ length c)%nat → length buffer = 100%nat → is_s32 tw →
  Forall is_u8 c → n = (length c - p)%nat → (n < fuel)%nat →
  ∃ t' P' p1 p2, while_loop fuel (cp_step garbage_int fd1 fd2) (buffer, tr, tw, t) =
      Done (if (length c <=? size)%nat then garbage_int else 1, t') ∧
    obs t' = (<[d := partial c size (length c `min` size)]> F, <[fd2 := (d, p2)]> (<[fd1 := (s, p1)]> H), K, P ++ P').
Proof.
  intros n. induction (lt_wf n) as [n _ IH]. intros p buffer tr tw t F H K P fuel Ho H1 H2 Hne Hsd Hs Hps Hpc Hbuf Htw Hu8 -> Hf.
  destruct fuel as [|fuel]; [lia|]. rewrite while_loop_S.
  destruct (cp_step_spec fd1 fd2 s d c size p buffer tr tw t F H K P Ho H1 H2 Hne Hsd Hs Hps Hpc Hbuf Htw Hu8)
    as (x & t1 & P1 & -> & Ho1 & Hx).
  set (rd := (100 `min` (length c - p))%nat) in *. set (k := (rd `min` (size - p))%nat) in *.
  destruct x as [[[[buffer' tr'] tw'] t']|[r t']].
  - destruct Hx as (-> & Hb & Htw' & Hrd & Ek).
    assert (Hless : (length c - (p + k) < length c - p)%nat) by (unfold k, rd in *; lia).
    destruct (IH _ Hless (p + k)%nat buffer' tr' tw' t1 F _ K _ fuel Ho1) as (t2 & P2 & p1 & p2 & E & Ho2);
      [by rewrite lookup_insert_ne, lookup_insert_eq, Ek|by rewrite lookup_insert_eq|done|done|done|lia|lia|done|
       done|done|done|lia|].
    rewrite (insert_insert_ne _ fd1 fd2), insert_insert_eq, insert_insert_eq, <- (assoc_L (++)) in Ho2 by done.
    cbn [outcome_bind]. rewrite E. by exists t2, (P1 ++ P2), p1, p2.
  - destruct Hx as (-> & Hx). cbn [outcome_bind]. exists t1, P1, (p + rd)%nat, (p + k)%nat. split.
    + f_equal. f_equal. destruct Hx as [[Hrd ->]|[Hk ->]].
      * rewrite (proj2 (Nat.leb_le _ _)); [done|unfold rd in *; lia].
      * rewrite (proj2 (Nat.leb_gt _ _)); [done|unfold k, rd in *; lia].
    + rewrite Ho1. do 4 f_equal. unfold k, rd in *. f_equal. lia.
Qed.

(** The file after a copy: the bytes that fit, then the zeros of a new file. *)
Definition copied (c : list Z) (sz : nat) : list Z := take sz c ++ replicate (sz - length c) 0.

Lemma partial_copied c sz : partial c sz (length c `min` sz) = copied c sz.
Proof.
  unfold partial, copied. f_equal; [|f_equal; lia]. destruct (decide (length c ≤ sz)%nat).
  - rewrite Nat.min_l by done. by rewrite !take_ge.
  - by rewrite Nat.min_r by lia.
Qed.

Lemma closed_both h1 h2 x1 x2 y1 y2 H :
  H !! h1 = None → <[h1 := y1]> H !! h2 = None →
  delete h2 (delete h1 (<[h2 := x2]> (<[h1 := x1]> (<[h2 := y2]> (<[h1 := y1]> H))))) = H.
Proof.
  intros H1 H2. apply map_eq. intros k.
  assert (h1 ≠ h2) by (intros ->; by rewrite lookup_insert_eq in H2).
  rewrite lookup_insert_ne in H2 by done.
  destruct (decide (k = h1)) as [->|]; [by rewrite lookup_delete_ne, lookup_delete_eq|].
  destruct (decide (k = h2)) as [->|]; [by rewrite lookup_delete_eq|].
  by rewrite !lookup_delete_ne, !lookup_insert_ne.
Qed.

(** The size a copy is asked for. *)
Definition size_arg (rest : list (list Z)) (sz : Z) : Prop :=
  rest = [] ∧ sz = 0 ∨ ∃ num, rest = [num] ∧ Forall is_digit num ∧ digits_value num = sz ∧ sz < 2 ^ 31.

Lemma size_arg_nonneg rest sz : size_arg rest sz → 0 ≤ sz.
Proof. intros [[_ ->]|(num & _ & Hd & <- & _)]; [done|]. by apply (digits_fold_mono num 0). Qed.

Lemma cmd_cp_spec cmdline argv w s d rest sz c t F H K P fuel :
  args_are cmdline argv (w :: s :: d :: rest) → size_arg rest sz →
  obs t = (F, H, K, P) → F !! s = Some c → F !! d = None → can_create F d sz →
  (S (size H) < max_open)%nat → Forall is_u8 c → (length c < fuel)%nat →
  ∃ t' P', cmd_cp garbage garbage_int fuel (Z.of_nat (length (w :: s :: d :: rest))) argv cmdline t =
      Done (if (length c <=? Z.to_nat sz)%nat then garbage_int else 1, t') ∧
    obs t' = (<[d := copied c (Z.to_nat sz)]> F, H, K, P ++ P').
Proof.
  intros Ha Hsz Ho Hs Hd Hc Hopen Hu8 Hf. pose proof (size_arg_nonneg _ _ Hsz) as Hsz0.
  destruct (arg_at _ _ _ 1 s Ha eq_refl) as (m1 & E1 & _ & _ & _ & Es1).
  destruct (arg_at _ _ _ 2 d Ha eq_refl) as (m2 & E2 & _ & _ & _ & Es2).
  change (Z.of_nat 1) with 1 in E1. change (Z.of_nat 2) with 2 in E2.
  unfold cmd_cp. set (argc := Z.of_nat _).
  assert (Hargc : negb (argc =? 3) && negb (argc =? 4) = false).
  { destruct Hsz as [[-> _]|(num & -> & _)]; done. }
  rewrite Hargc. clear Hargc.
  assert (Hsize : (if argc =? 4 then let* a := arg_mem cmdline argv 3 in UserString.atoi a else Done 0) = Done sz).
  { destruct Hsz as [[-> ->]|(num & -> & Hn & Hv & Hlt)]; [done|]. change (argc =? 4) with true.
    destruct (arg_at _ _ _ 3 num Ha eq_refl) as (m3 & E3 & Hc3 & _). change (Z.of_nat 3) with 3 in E3.
    rewrite E3. cbn [outcome_bind]. rewrite <- Hv. apply (user_atoi_spec _ num []); [by rewrite app_nil_r|done|done|lia]. }
  rewrite Hsize, E1. cbn [outcome_bind]. rewrite Es1. cbn [outcome_bind].
  destruct (open_at s c t F H K P Ho Hs) as (h1 & t1 & -> & Hh1 & Hn1 & Ho1); [lia|].
  rewrite (proj2 (Z.ltb_ge h1 0)), E2 by lia. cbn [outcome_bind]. rewrite Es2. cbn [outcome_bind].
  destruct (create_at d sz t1 _ _ _ _ Ho1 Hd Hc Hsz0) as (t2 & -> & Ho2). change (0 <? 0) with false. cbv iota.
  destruct (open_at d (replicate (Z.to_nat sz) 0) t2 _ _ _ _ Ho2) as (h2 & t3 & -> & Hh2 & Hn2 & Ho3);
    [by rewrite lookup_insert_eq|rewrite map_size_insert_None by done; lia|].
  rewrite (proj2 (Z.ltb_ge h2 0)) by lia.
  assert (Hne : h1 ≠ h2) by (intros ->; by rewrite lookup_insert_eq in Hn2).
  assert (Hsd : s ≠ d) by congruence.
  assert (E0 : replicate (Z.to_nat sz) 0 = partial c (Z.to_nat sz) 0) by (unfold partial; by rewrite Nat.sub_0_r).
  rewrite E0 in Ho3.
  destruct (cp_loop h1 h2 s d c (Z.to_nat sz) (length c) 0 (replicate (Z.to_nat BUFFER_SIZE) garbage) 0 0 t3 F _ K P fuel Ho3)
    as (t4 & P4 & p1 & p2 & -> & Ho4); try done;
    [by rewrite lookup_insert_ne, lookup_insert_eq|by rewrite lookup_insert_eq|lia|lia|lia|].
  cbn [outcome_bind].
  destruct (print_at [10] [] t4 _ _ _ _ Ho4) as (t5 & -> & Ho5); [fits_tac|done|]. cbn [outcome_bind].
  destruct (close_at h1 t5 _ _ _ _ Ho5) as (r1 & t6 & -> & Ho6); [right; rewrite lookup_insert_ne, lookup_insert_eq by done; eauto|].
  destruct (close_at h2 t6 _ _ _ _ Ho6) as (r2 & t7 & -> & Ho7);
    [right; rewrite lookup_delete_ne, lookup_insert_eq by done; eauto|].
  eexists t7, _. split; [done|]. rewrite Ho7, closed_both, partial_copied, <- (assoc_L (++)) by done. done.
Qed.

(** ** Showing *)
Lemma show_write_spec bs buffer rd t F H K P :
  obs t = (F, H, K, P) → length bs = rd → (0 < rd)%nat → (rd ≤ length buffer)%nat →
  ∃ t', show_write (over buffer bs) (Z.of_nat rd) t = Done (None, t') ∧ obs t' = (F, H, K, P ++ bs).
Proof.
  intros Ho Hbs Hrd Hbuf. unfold show_write. rewrite Nat2Z.id, while_loop_S.
  unfold show_write_step at 2. cbv beta match. rewrite (proj2 (Z.ltb_lt 0 (Z.of_nat rd))), Z.sub_0_r by lia.
  unfold slice. rewrite (proj2 (Z.leb_le _ _)) by (rewrite length_over; lia). cbn [outcome_bind].
  assert (Hov : take (Z.to_nat (Z.of_nat rd)) (drop (Z.to_nat 0) (over buffer bs)) = bs).
  { change (Z.to_nat 0) with 0%nat. rewrite Nat2Z.id, drop_0. unfold over. by rewrite take_app_length'. }
  rewrite Hov. destruct (out_at bs t _ _ _ _ Ho) as (t1 & -> & Ho1).
  rewrite (proj2 (Z.leb_gt _ _)) by lia. cbn [outcome_bind]. exists t1. split; [|done].
  destruct rd as [|rd']; [lia|]. rewrite while_loop_S.
  unfold show_write_step at 2. cbv beta match. by rewrite (proj2 (Z.ltb_ge _ _)) by lia.
Qed.

Lemma show_loop fd s c : ∀ n p buffer t F H K P fuel,
  obs t = (F, H, K, P) → H !! fd = Some (s, p) → F !! s = Some c → (p ≤ length c)%nat → length buffer = 100%nat →
  n = (length c - p)%nat → (n < fuel)%nat →
  ∃ t', while_loop fuel (show_step fd) (buffer, t) = Done (0, t') ∧
    obs t' = (F, delete fd H, K, P ++ drop p c).
Proof.
  intros n. induction (lt_wf n) as [n _ IH]. intros p buffer t F H K P fuel Ho Hh Hs Hp Hbuf En Hf.
  destruct fuel as [|fuel]; [lia|]. rewrite while_loop_S. unfold show_step at 2. cbv beta match.
  destruct (read_at fd BUFFER_SIZE s p c t _ _ _ _ Ho Hh Hs) as (t1 & -> & Ho1); [done|].
  change (Z.to_nat BUFFER_SIZE) with 100%nat in *. set (bs := take 100 (drop p c)) in *.
  assert (Hlen : length bs = (100 `min` (length c - p))%nat) by (unfold bs; rewrite length_take, length_drop; lia).
  rewrite stored_in by lia. cbn [outcome_bind]. destruct (Z.eqb_spec (Z.of_nat (length bs)) 0) as [Hz|Hz].
  - destruct (close_at fd t1 _ _ _ _ Ho1) as (r & t2 & -> & Ho2); [right; rewrite lookup_insert_eq; eauto|].
    cbn [outcome_bind]. exists t2. split; [done|]. rewrite Ho2, delete_insert_eq, (drop_ge c), app_nil_r by lia. done.
  - destruct (show_write_spec bs buffer (length bs) t1 _ _ _ _ Ho1 eq_refl) as (t2 & -> & Ho2); [lia|lia|].
    cbn [outcome_bind].
    destruct (IH (n - length bs)%nat ltac:(lia) (p + length bs)%nat (over buffer bs) t2 F _ K _ fuel Ho2)
      as (t3 & -> & Ho3); [by rewrite lookup_insert_eq|done|lia|by rewrite length_over by lia|lia|lia|].
    exists t3. split; [done|]. rewrite Ho3, delete_insert_eq, <- (assoc_L (++)). repeat f_equal.
    rewrite <- drop_drop. rewrite <- (take_drop (length bs) (drop p c)) at 2. f_equal.
    unfold bs at 1. destruct (decide (100 ≤ length c - p)%nat).
    + rewrite Hlen. f_equal. lia.
    + rewrite !take_ge by (rewrite length_drop; lia). done.
Qed.

Lemma cmd_show_spec cmdline argv w s c t F H K P fuel :
  args_are cmdline argv [w; s] → obs t = (F, H, K, P) → F !! s = Some c → (size H < max_open)%nat →
  (length c < fuel)%nat →
  ∃ t', cmd_show garbage fuel 2 argv cmdline t = Done (0, t') ∧ obs t' = (F, H, K, P ++ c).
Proof.
  intros Ha Ho Hs Hopen Hf. destruct (arg_at _ _ _ 1 s Ha eq_refl) as (m1 & E1 & _ & _ & _ & Es1).
  change (Z.of_nat 1) with 1 in E1. unfold cmd_show. change (negb (2 =? 2)) with false. cbv iota.
  rewrite E1. cbn [outcome_bind]. rewrite Es1. cbn [outcome_bind].
  destruct (open_at s c t F H K P Ho Hs Hopen) as (h & t1 & -> & Hh & Hn & Ho1).
  rewrite (proj2 (Z.ltb_ge h 0)) by lia.
  destruct (show_loop h s c (length c) 0 (replicate (Z.to_nat BUFFER_SIZE) garbage) t1 F _ K P fuel Ho1)
    as (t2 & -> & Ho2); [by rewrite lookup_insert_eq|done|lia|done|lia|lia|].
  exists t2. split; [done|]. by rewrite Ho2, delete_insert_id.
Qed.

(** A file that does not exist. *)
Lemma cmd_show_fails cmdline argv w s t F H K P fuel :
  args_are cmdline argv [w; s] → obs t = (F, H, K, P) → F !! s = None →
  ∃ t' P', cmd_show garbage fuel 2 argv cmdline t = Done (1, t') ∧ obs t' = (F, H, K, P ++ P').
Proof.
  intros Ha Ho Hs. destruct (arg_at _ _ _ 1 s Ha eq_refl) as (m1 & E1 & Hc & Hu & Hl & Es1).
  change (Z.of_nat 1) with 1 in E1. unfold cmd_show. change (negb (2 =? 2)) with false. cbv iota.
  rewrite E1. cbn [outcome_bind]. rewrite Es1. cbn [outcome_bind].
  destruct (open_fails_at s t F H K P Ho Hs) as (e & t1 & -> & He & Ho1). rewrite (proj2 (Z.ltb_lt e 0)) by lia.
  destruct (print_at (line "Could not open %s.  Reason: %d") [AStr m1; AInt e] t1 _ _ _ _ Ho1) as (t2 & -> & Ho2).
  - pose proof (c_string_cstr _ _ Hc). fits_tac.
  - vm_compute. done.
  - cbn [outcome_bind]. by eexists t2, _.
Qed.

(** ** Comparing *)
Definition comparing (i : nat) : list Z := blank ++ say (chars "Comparing byte %d... ") [AInt (Z.of_nat i)].

(** What is shown for two files from position [i] on; [a] and [b] are the last
    characters read, and at the start whatever was in memory. *)
Fixpoint verdict (a b : Z) (i : nat) (c1 c2 : list Z) : list Z :=
  comparing i ++
  match c1, c2 with
  | [], [] => if s8 a =? s8 b then [] else say (line "Files differ at position %d.") [AInt (Z.of_nat i)]
  | x :: c1, y :: c2 =>
      if x =? y then verdict x y (S i) c1 c2 else say (line "Files differ at position %d.") [AInt (Z.of_nat i)]
  | _, _ => say (line "Files differ: not the same size.") []
  end.

Lemma verdict_cons a b i x y c1 c2 : verdict a b i (x :: c1) (y :: c2) = comparing i ++
  (if x =? y then verdict x y (S i) c1 c2 else say (line "Files differ at position %d.") [AInt (Z.of_nat i)]).
Proof. reflexivity. Qed.
Lemma verdict_nil a b i : verdict a b i [] [] = comparing i ++
  (if s8 a =? s8 b then [] else say (line "Files differ at position %d.") [AInt (Z.of_nat i)]).
Proof. reflexivity. Qed.
Lemma verdict_short a b i x c :
  verdict a b i (x :: c) [] = comparing i ++ say (line "Files differ: not the same size.") [].
Proof. reflexivity. Qed.
Lemma verdict_long a b i x c :
  verdict a b i [] (x :: c) = comparing i ++ say (line "Files differ: not the same size.") [].
Proof. reflexivity. Qed.

Lemma aread_single (x : Z) : aread [x] 0 = Done x.
Proof. reflexivity. Qed.

Lemma read_one h s p c x l t F H K P :
  obs t = (F, H, K, P) → H !! h = Some (s, p) → F !! s = Some c → drop p c = x :: l → ∀ y,
  ∃ t', sc_read h 1 t = (1, [x], t') ∧ stored [x] [y] = Done [x] ∧ obs t' = (F, <[h := (s, S p)]> H, K, P).
Proof.
  intros Ho Hh Hs Hd y. destruct (read_at h 1 s p c t _ _ _ _ Ho Hh Hs) as (t' & E & Ho'); [done|].
  change (Z.to_nat 1) with 1%nat in *. rewrite Hd in E, Ho'. exists t'. split; [done|]. split; [done|].
  rewrite Ho'. cbn. by rewrite Nat.add_1_r.
Qed.

Lemma read_none h s p c t F H K P :
  obs t = (F, H, K, P) → H !! h = Some (s, p) → F !! s = Some c → drop p c = [] → ∀ y,
  ∃ t', sc_read h 1 t = (0, [], t') ∧ stored [] [y] = Done [y] ∧ obs t' = (F, <[h := (s, p)]> H, K, P).
Proof.
  intros Ho Hh Hs Hd y. destruct (read_at h 1 s p c t _ _ _ _ Ho Hh Hs) as (t' & E & Ho'); [done|].
  rewrite Hd, take_nil in E, Ho'. exists t'. split; [done|]. split; [done|].
  rewrite Ho'. cbn. by rewrite Nat.add_0_r.
Qed.

Lemma comparing_at i t F H K P : obs t = (F, H, K, P) → Z.of_nat i < 2 ^ 31 →
  ∃ t', print (chars "Comparing byte %d... ") [AInt (Z.of_nat i)] (clearline t) = Done t' ∧
    obs t' = (F, H, K, P ++ comparing i).
Proof.
  intros Ho Hi. destruct (print_at (chars "Comparing byte %d... ") [AInt (Z.of_nat i)] (clearline t)
    _ _ _ _ (clear_at _ _ _ _ _ Ho)) as (t' & E & Ho').
  - fits_tac.
  - done.
  - exists t'. split; [done|]. unfold comparing. by rewrite (assoc_L (++)).
Qed.

Lemma differ_at i t F H K P : obs t = (F, H, K, P) → Z.of_nat i < 2 ^ 31 →
  ∃ t', print (line "Files differ at position %d.") [AInt (Z.of_nat i)] t = Done t' ∧
    obs t' = (F, H, K, P ++ say (line "Files differ at position %d.") [AInt (Z.of_nat i)]).
Proof.
  intros Ho Hi. apply print_at; [done|fits_tac|done].
Qed.

Lemma cmp_loop h1 h2 s1 s2 c1 c2 : ∀ l1 l2 p a b t F H K P fuel,
  obs t = (F, H, K, P) → H !! h1 = Some (s1, p) → H !! h2 = Some (s2, p) → h1 ≠ h2 →
  F !! s1 = Some c1 → F !! s2 = Some c2 → Forall is_u8 c1 → Forall is_u8 c2 → drop p c1 = l1 → drop p c2 = l2 →
  Z.of_nat p + Z.of_nat (length l1) < 2 ^ 31 → (length l1 < fuel)%nat →
  ∃ t' q1 q2, while_loop fuel (cmp_step h1 h2) (a, b, Z.of_nat p, t) = Done t' ∧
    obs t' = (F, <[h2 := (s2, q2)]> (<[h1 := (s1, q1)]> H), K, P ++ verdict a b p l1 l2).
Proof.
  intros l1. induction l1 as [|x l1 IH]; intros l2 p a b t F H K P fuel Ho H1 H2 Hne Hf1 Hf2 Hu1 Hu2 Hd1 Hd2 Hsz Hf;
    (destruct fuel as [|fuel]; [simpl in Hf; lia|]); rewrite while_loop_S; unfold cmp_step at 2; cbv beta match;
    cbn [length] in Hsz.
  - destruct (read_none h1 s1 p c1 t _ _ _ _ Ho H1 Hf1 Hd1 a) as (t1 & -> & -> & Ho1). bind_step.
    assert (H2' : (<[h1 := (s1, p)]> H) !! h2 = Some (s2, p)) by (by rewrite lookup_insert_ne).
    destruct l2 as [|y l2].
    + destruct (read_none h2 s2 p c2 t1 _ _ _ _ Ho1 H2' Hf2 Hd2 b) as (t2 & -> & -> & Ho2). bind_step.
      rewrite (aread_single a), (aread_single b). bind_step.
      destruct (comparing_at p t2 _ _ _ _ Ho2) as (t3 & -> & Ho3); [lia|]. bind_step. rewrite verdict_nil.
      rewrite (Z.eqb_refl 0). cbn [negb]. destruct (s8 a =? s8 b); cbn [negb]; bind_step.
      * exists t3, p, p. split; [done|]. by rewrite app_nil_r.
      * destruct (differ_at p t3 _ _ _ _ Ho3) as (t4 & -> & Ho4); [lia|]. bind_step.
        exists t4, p, p. split; [done|]. by rewrite (assoc_L (++)).
    + destruct (read_one h2 s2 p c2 y l2 t1 _ _ _ _ Ho1 H2' Hf2 Hd2 b) as (t2 & -> & -> & Ho2). bind_step.
      rewrite (aread_single a), (aread_single y). bind_step.
      destruct (comparing_at p t2 _ _ _ _ Ho2) as (t3 & -> & Ho3); [lia|]. bind_step. rewrite verdict_long.
      rewrite (proj2 (Z.eqb_neq 0 1)) by done. cbn [negb].
      destruct (print_at (line "Files differ: not the same size.") [] t3 _ _ _ _ Ho3) as (t4 & -> & Ho4);
        [fits_tac|done|]. bind_step. exists t4, p, (S p). split; [done|]. by rewrite (assoc_L (++)).
  - destruct (read_one h1 s1 p c1 x l1 t _ _ _ _ Ho H1 Hf1 Hd1 a) as (t1 & -> & -> & Ho1). bind_step.
    assert (H2' : (<[h1 := (s1, S p)]> H) !! h2 = Some (s2, p)) by (by rewrite lookup_insert_ne).
    destruct l2 as [|y l2].
    + destruct (read_none h2 s2 p c2 t1 _ _ _ _ Ho1 H2' Hf2 Hd2 b) as (t2 & -> & -> & Ho2). bind_step.
      rewrite (aread_single x), (aread_single b). bind_step.
      destruct (comparing_at p t2 _ _ _ _ Ho2) as (t3 & -> & Ho3); [lia|]. bind_step. rewrite verdict_short.
      rewrite (proj2 (Z.eqb_neq 1 0)) by done. cbn [negb].
      destruct (print_at (line "Files differ: not the same size.") [] t3 _ _ _ _ Ho3) as (t4 & -> & Ho4);
        [fits_tac|done|]. bind_step. exists t4, (S p), p. split; [done|]. by rewrite (assoc_L (++)).
    + destruct (read_one h2 s2 p c2 y l2 t1 _ _ _ _ Ho1 H2' Hf2 Hd2 b) as (t2 & -> & -> & Ho2). bind_step.
      rewrite (aread_single x), (aread_single y). bind_step.
      destruct (comparing_at p t2 _ _ _ _ Ho2) as (t3 & -> & Ho3); [lia|]. bind_step. rewrite verdict_cons.
      rewrite (Z.eqb_refl 1), (proj2 (Z.eqb_neq 1 0)) by done. cbn [negb].
      assert (Hx : is_u8 x) by (apply (Forall_drop _ p) in Hu1; rewrite Hd1 in Hu1; by apply Forall_cons in Hu1 as []).
      assert (Hy : is_u8 y) by (apply (Forall_drop _ p) in Hu2; rewrite Hd2 in Hu2; by apply Forall_cons in Hu2 as []).
      destruct (Z.eqb_spec x y) as [->|Hxy].
      * rewrite Z.eqb_refl. cbn [negb]. bind_step. rewrite s32_id by klia.
        replace (Z.of_nat p + 1) with (Z.of_nat (S p)) by lia.
        destruct (IH l2 (S p) y y t3 F _ K _ fuel Ho3) as (t4 & q1 & q2 & -> & Ho4); try done.
        -- by rewrite lookup_insert_ne, lookup_insert_eq.
        -- by rewrite lookup_insert_eq.
        -- by rewrite <- Nat.add_1_r, <- drop_drop, Hd1.
        -- by rewrite <- Nat.add_1_r, <- drop_drop, Hd2.
        -- lia.
        -- simpl in Hf. lia.
        -- exists t4, q1, q2. split; [done|]. rewrite Ho4, <- (assoc_L (++)).
           by rewrite (insert_insert_ne _ h1 h2), insert_insert_eq, insert_insert_eq.
      * destruct (Z.eqb_spec (s8 x) (s8 y)) as [E|_]; [by apply s8_inj in E|]. cbn [negb].
        destruct (differ_at p t3 _ _ _ _ Ho3) as (t4 & -> & Ho4); [lia|]. bind_step.
        exists t4, (S p), (S p). split; [done|]. by rewrite (assoc_L (++)).
Qed.

Lemma cmd_cmp_spec cmdline argv w f1 f2 c1 c2 t F H K P fuel :
  args_are cmdline argv [w; f1; f2] → obs t = (F, H, K, P) → F !! f1 = Some c1 → F !! f2 = Some c2 →
  Forall is_u8 c1 → Forall is_u8 c2 → Z.of_nat (length c1) < 2 ^ 31 →
  (S (size H) < max_open)%nat → (length c1 < fuel)%nat →
  ∃ t', cmd_cmp garbage garbage2 fuel 3 argv cmdline t = Done (0, t') ∧
    obs t' = (F, H, K, P ++ verdict garbage garbage2 0 c1 c2 ++ [10]).
Proof.
  intros Ha Ho H1 H2 Hu1 Hu2 Hlt Hopen Hf.
  destruct (arg_at _ _ _ 1 f1 Ha eq_refl) as (m1 & E1 & _ & _ & _ & Es1).
  destruct (arg_at _ _ _ 2 f2 Ha eq_refl) as (m2 & E2 & _ & _ & _ & Es2).
  change (Z.of_nat 1) with 1 in E1. change (Z.of_nat 2) with 2 in E2.
  unfold cmd_cmp. change (negb (3 =? 3) && negb (3 =? 4)) with false. cbv iota.
  rewrite E1. bind_step. rewrite Es1. bind_step.
  destruct (open_at f1 c1 t F H K P Ho H1) as (h1 & t1 & -> & Hh1 & Hn1 & Ho1); [lia|].
  rewrite (proj2 (Z.ltb_ge h1 0)), E2 by lia. bind_step. rewrite Es2. bind_step.
  destruct (open_at f2 c2 t1 _ _ _ _ Ho1 H2) as (h2 & t2 & -> & Hh2 & Hn2 & Ho2);
    [rewrite map_size_insert_None by done; lia|].
  rewrite (proj2 (Z.ltb_ge h2 0)) by lia.
  assert (Hne : h1 ≠ h2) by (intros ->; by rewrite lookup_insert_eq in Hn2).
  destruct (cmp_loop h1 h2 f1 f2 c1 c2 c1 c2 0 garbage garbage2 t2 F _ K P fuel Ho2) as (t3 & q1 & q2 & E3 & Ho3);
    try done; [by rewrite lookup_insert_ne, lookup_insert_eq|by rewrite lookup_insert_eq|].
  change (Z.of_nat 0) with 0 in E3. rewrite E3. bind_step.
  destruct (print_at [10] [] t3 _ _ _ _ Ho3) as (t4 & -> & Ho4); [fits_tac|done|]. bind_step.
  destruct (close_at h1 t4 _ _ _ _ Ho4) as (r1 & t5 & -> & Ho5); [right; rewrite lookup_insert_ne, lookup_insert_eq by done; eauto|].
  destruct (close_at h2 t5 _ _ _ _ Ho5) as (r2 & t6 & -> & Ho6);
    [right; rewrite lookup_delete_ne, lookup_insert_eq by done; eauto|].
  exists t6. split; [done|]. rewrite Ho6, closed_both, <- (assoc_L (++)) by done. done.
Qed.

(** Equal files: nothing but the progress is shown. *)
(** A file and its copy: they agree as far as both go. *)
Definition copy_verdict (a b : Z) (c : list Z) (sz : nat) : list Z :=
  if decide (length c = sz) then
    if decide (c = [] ∧ s8 a ≠ s8 b) then say (line "Files differ at position %d.") [AInt 0] else []
  else say (line "Files differ: not the same size.") [].

Lemma verdict_same a b c i : c ≠ [] → verdict a b i c c = concat (comparing <$> seq i (S (length c))).
Proof.
  revert a b i. induction c as [|x c IH]; intros a b i Hne; [done|].
  rewrite verdict_cons, Z.eqb_refl. destruct c as [|y c]; [by rewrite verdict_nil, Z.eqb_refl|by rewrite IH].
Qed.

(** The first file goes on where the second, [c] with [z] behind it, ends, or the
    other way round. *)
Lemma verdict_prefix a b p i x l :
  (verdict a b i (p ++ x :: l) p = concat (comparing <$> seq i (S (length p))) ++ say (line "Files differ: not the same size.") []) ∧
  (verdict a b i p (p ++ x :: l) = concat (comparing <$> seq i (S (length p))) ++ say (line "Files differ: not the same size.") []).
Proof.
  revert a b i. induction p as [|y p IH]; intros a b i; cbn [app].
  - rewrite verdict_short, verdict_long. generalize (say (line "Files differ: not the same size.") []). intros differ.
    cbn [length seq fmap list_fmap concat]. by rewrite app_nil_r.
  - rewrite !verdict_cons, Z.eqb_refl. destruct (IH y y (S i)) as [-> ->].
    change (concat (comparing <$> seq i (S (length (y :: p))))) with
      (comparing i ++ concat (comparing <$> seq (S i) (S (length p)))).
    generalize (comparing i), (concat (comparing <$> seq (S i) (S (length p)))),
      (say (line "Files differ: not the same size.") []).
    intros shown further differ. by rewrite (assoc_L (++)).
Qed.

Lemma verdict_copied a b c sz :
  verdict a b 0 c (copied c sz) = concat (comparing <$> seq 0 (S (length c `min` sz))) ++ copy_verdict a b c sz.
Proof.
  unfold copy_verdict, copied. destruct (decide (length c = sz)) as [<-|Hne].
  - rewrite Nat.sub_diag, app_nil_r, firstn_all, Nat.min_id. destruct c as [|x c].
    + rewrite verdict_nil. destruct (Z.eqb_spec (s8 a) (s8 b)); case_decide; try naive_solver; by rewrite ?app_nil_r.
    + rewrite verdict_same by done. rewrite decide_False by (by intros [? _]). by rewrite app_nil_r.
  - destruct (decide (length c < sz)%nat).
    + rewrite take_ge, Nat.min_l by lia. destruct (sz - length c)%nat as [|k] eqn:E; [lia|]. apply verdict_prefix.
    + replace (sz - length c)%nat with 0%nat by lia. rewrite app_nil_r, Nat.min_r by lia.
      destruct (lookup_lt_is_Some_2 c sz) as [x Hx]; [lia|].
      rewrite <- (take_drop sz c) at 1. rewrite (drop_S _ _ _ Hx).
      destruct (verdict_prefix a b (take sz c) 0 x (drop (S sz) c)) as [-> _]. by rewrite length_take, Nat.min_l by lia.
Qed.

Lemma copied_u8 c sz : Forall is_u8 c → Forall is_u8 (copied c sz).
Proof. intros Hc. apply Forall_app. split; [by apply Forall_take|]. apply Forall_replicate. done. Qed.

(** ** Echoing *)
Lemma cmd_echo_spec cmdline argv w ws t F H K P :
  args_are cmdline argv (w :: ws) → obs t = (F, H, K, P) →
  ∃ t', cmd_echo (Z.of_nat (S (length ws))) argv cmdline t = Done (0, t') ∧
    obs t' = (F, H, K, P ++ concat ((λ w, w ++ [32]) <$> ws) ++ [10]).
Proof.
  intros Ha Ho. unfold cmd_echo.
  set (out := λ n : nat, concat ((λ w, w ++ [32]) <$> take n ws)).
  assert (Hloop : returns (for_each 1 (Z.of_nat (S (length ws))) (λ i t,
      let* m := arg_mem cmdline argv i in print (chars "%s ") [AStr m] t) t)
    (λ t', obs t' = (F, H, K, P ++ out (Z.to_nat (Z.of_nat (S (length ws)) - 1))))).
  { apply (for_each_inv (λ j t', obs t' = (F, H, K, P ++ out (Z.to_nat (j - 1))))); [lia| |].
    - unfold out. cbn [Z.to_nat Z.sub]. change (Z.to_nat (1 - 1)) with 0%nat. rewrite take_0. cbn [fmap list_fmap concat]. by rewrite app_nil_r.
    - intros j t1 Hj Ho1. destruct (lookup_lt_is_Some_2 ws (Z.to_nat (j - 1))) as [v Hv]; [lia|].
      destruct (arg_at cmdline argv (w :: ws) (Z.to_nat j) v Ha) as (m & E & Hc & Hu & Hl & _).
      { replace (Z.to_nat j) with (S (Z.to_nat (j - 1))) by lia. done. }
      rewrite Z2Nat.id in E by lia. rewrite E. bind_step. pose proof (c_string_cstr _ _ Hc) as Hcs.
      destruct (print_at (chars "%s ") [AStr m] t1 _ _ _ _ Ho1) as (t2 & -> & Ho2); [fits_tac|done|].
      cbn [returns]. rewrite Ho2. unfold out. replace (Z.to_nat (j + 1 - 1)) with (S (Z.to_nat (j - 1))) by lia.
      rewrite (take_S_r _ _ _ Hv), fmap_app, concat_app. cbn [fmap list_fmap concat]. rewrite app_nil_r, <- (assoc_L (++)).
      assert (Es : say (chars "%s ") [AStr m] = v ++ [32]).
      { change (chars "%s ") with [37; 115; 32]. cbn [say Z.eqb Pos.eqb]. by rewrite Hcs. }
      by rewrite Es. }
  apply returns_inv in Hloop as (t1 & -> & Ho1). bind_step.
  destruct (out_at [10] t1 _ _ _ _ Ho1) as (t2 & E & Ho2). exists t2. split.
  - unfold puts. change (UserString.strlen [10; 0]) with (Done 1). bind_step. change (take (Z.to_nat 1) [10; 0]) with [10].
    rewrite E. done.
  - rewrite Ho2. unfold out. rewrite take_ge by lia. by rewrite <- (assoc_L (++)).
Qed.

(** ** The command line runs the command *)
Lemma run_tokenized fuel cmdline l bg t :
  cstr cmdline l → Forall is_u8 cmdline → length cmdline = 100%nat →
  ∃ cmdline' argv, run_command garbage garbage2 garbage_int fuel cmdline bg t =
      run_words garbage garbage2 garbage_int fuel (Z.of_nat (length (words l))) argv cmdline' bg t ∧
    args_are cmdline' argv (words l) ∧ length cmdline' = 100%nat.
Proof.
  intros Hl Hu Hlen. unfold run_command. change (Z.to_nat BUFFER_SIZE) with 100%nat.
  pose proof (cstr_length _ _ Hl) as Hlt. destruct (returns_inv _ _ (tokenize_spec cmdline l 100 Hl ltac:(lia)))
    as ([[argc cl] argv] & -> & -> & Hcl & _ & Hu' & Hw & _).
  exists cl, argv. bind_step. split; [done|]. split; [|congruence]. split; [done|by apply Hu'|lia].
Qed.

(** The commands of the shell. *)
Definition commands : list string := ["wait"; "ls"; "touch"; "cp"; "show"; "rm"; "cmp"; "echo"; "exit"]%string.

Lemma commands_text : Forall (λ n, text (chars n) ∧ (length (chars n) ≤ 100)%nat) commands.
Proof.
  repeat constructor; try (apply (bool_decide_unpack _); vm_compute; done); simpl; lia.
Qed.

Lemma is_command_known cmdline argv ws w name :
  args_are cmdline argv (w :: ws) → name ∈ commands → is_command cmdline argv name = Done (bool_decide (w = chars name)).
Proof.
  intros Ha Hn. destruct (proj1 (Forall_forall _ _) commands_text _ Hn) as [Ht Hl].
  by apply (is_command_spec _ _ (w :: ws)).
Qed.
End proofs.

(** Decides which command a line starts with. *)
Ltac dispatch Ha :=
  repeat (rewrite (is_command_known _ _ _ _ _ Ha) by (unfold commands; set_solver); bind_step;
    first [rewrite bool_decide_eq_true_2 by reflexivity | rewrite bool_decide_eq_false_2 by (vm_compute; discriminate)];
    cbv iota).

Section commands.
Context {T : Type} {console : Console T} {spec : ConsoleSpec T} {sc : Syscalls T} {fls : Files T}.
Context (garbage garbage2 garbage_int : Z).
Implicit Types (t : T) (F : gmap (list Z) (list Z)) (H : gmap Z (list Z * nat)) (K P : list Z).

(** A command line of the buffer of [main]. *)
Definition typed (cmdline l : list Z) : Prop :=
  cstr cmdline l ∧ Forall is_u8 cmdline ∧ length cmdline = 100%nat.

Lemma run_copy fuel cmdline l s d rest sz c bg t F H K P :
  typed cmdline l → words l = chars "cp" :: s :: d :: rest → size_arg rest sz →
  obs t = (F, H, K, P) → F !! s = Some c → F !! d = None → can_create F d sz → (S (size H) < max_open)%nat →
  Forall is_u8 c → (length c < fuel)%nat →
  ∃ cl t' P', run_command garbage garbage2 garbage_int fuel cmdline bg t =
      Done (if (length c <=? Z.to_nat sz)%nat then garbage_int else 1, cl, bg, t') ∧
    obs t' = (<[d := copied c (Z.to_nat sz)]> F, H, K, P ++ P').
Proof.
  intros (Hl & Hu & Hlen) Hw Hsz Ho Hs Hd Hc Hopen Hu8 Hf.
  destruct (run_tokenized garbage garbage2 garbage_int fuel cmdline l bg t Hl Hu Hlen) as (cl & argv & -> & Ha & _).
  rewrite Hw in *. unfold run_words. rewrite (proj2 (Z.eqb_neq _ 0)) by (simpl; lia). dispatch Ha.
  destruct (cmd_cp_spec garbage garbage_int cl argv _ s d rest sz c t F H K P fuel Ha Hsz Ho Hs Hd Hc Hopen Hu8 Hf)
    as (t' & P' & -> & Ho'). bind_step. by exists cl, t', P'.
Qed.

Lemma run_compare fuel cmdline l s d c1 c2 bg t F H K P :
  typed cmdline l → words l = [chars "cmp"; s; d] → obs t = (F, H, K, P) → F !! s = Some c1 → F !! d = Some c2 →
  (S (size H) < max_open)%nat → Forall is_u8 c1 → Forall is_u8 c2 → Z.of_nat (length c1) < 2 ^ 31 →
  (length c1 < fuel)%nat →
  ∃ cl t', run_command garbage garbage2 garbage_int fuel cmdline bg t = Done (0, cl, bg, t') ∧
    obs t' = (F, H, K, P ++ verdict garbage garbage2 0 c1 c2 ++ [10]).
Proof.
  intros (Hl & Hu & Hlen) Hw Ho Hs Hd Hopen Hu1 Hu2 Hlt Hf.
  destruct (run_tokenized garbage garbage2 garbage_int fuel cmdline l bg t Hl Hu Hlen) as (cl & argv & -> & Ha & _).
  rewrite Hw in *. unfold run_words. rewrite (proj2 (Z.eqb_neq _ 0)) by (simpl; lia). dispatch Ha.
  destruct (cmd_cmp_spec garbage garbage2 cl argv _ s d c1 c2 t F H K P fuel Ha Ho Hs Hd Hu1 Hu2 Hlt Hopen Hf)
    as (t' & E & Ho'). change (Z.of_nat (length [chars "cmp"; s; d])) with 3. rewrite E. bind_step. by exists cl, t'.
Qed.

(** C35. The line "cp s d size" makes the new file [d] with the contents of [s] as
    far as [size] bytes hold them, padded with zeros, and changes no other file
    and no open file; without a size the copy is empty.  When the contents do not
    fit the result is 1, otherwise it is whatever an uninitialised variable holds.
    The line "cmp s d" then shows its progress over the bytes both files have and
    that the sizes differ, if they do.  For a copy of the exact size it shows no
    difference, except that for two empty files it compares two characters that
    were never read. *)
Theorem shell_copy_correct fuel cmdline l s d rest sz c bg t F H K P :
  typed cmdline l → words l = chars "cp" :: s :: d :: rest → size_arg rest sz →
  obs t = (F, H, K, P) → F !! s = Some c → F !! d = None → can_create F d sz → (S (size H) < max_open)%nat →
  Forall is_u8 c → (length c < fuel)%nat →
  returns (run_command garbage garbage2 garbage_int fuel cmdline bg t) (λ '(r, _, bg', t'),
    bg' = bg ∧ r = (if (length c <=? Z.to_nat sz)%nat then garbage_int else 1) ∧
    (∃ P', obs t' = (<[d := copied c (Z.to_nat sz)]> F, H, K, P ++ P')) ∧
    (Z.of_nat (length c) < 2 ^ 31 → ∀ cmdline2 l2, typed cmdline2 l2 → words l2 = [chars "cmp"; s; d] →
      returns (run_command garbage garbage2 garbage_int fuel cmdline2 bg t') (λ '(r2, _, _, t2),
        r2 = 0 ∧ obs t2 = (files t', H, K, printed t' ++
          concat (comparing <$> seq 0 (S (length c `min` Z.to_nat sz))) ++
          copy_verdict garbage garbage2 c (Z.to_nat sz) ++ [10])))).
Proof.
  intros Ht Hw Hsz Ho Hs Hd Hc Hopen Hu8 Hf.
  destruct (run_copy fuel cmdline l s d rest sz c bg t F H K P Ht Hw Hsz Ho Hs Hd Hc Hopen Hu8 Hf)
    as (cl & t' & P' & -> & Ho'). cbn [returns]. split_and!; [done|done|by exists P'|].
  intros Hlt cmdline2 l2 Ht2 Hw2. assert (Hsd : s ≠ d) by congruence.
  destruct (run_compare fuel cmdline2 l2 s d c (copied c (Z.to_nat sz)) bg t' _ H K (P ++ P') Ht2 Hw2 Ho')
    as (cl2 & t2 & -> & Ho2); try done; [by rewrite lookup_insert_ne|by rewrite lookup_insert_eq|by apply copied_u8|].
  cbn [returns]. split; [done|]. rewrite Ho2. apply obs_at in Ho' as (-> & _ & _ & ->).
  by rewrite verdict_copied, <- !(assoc_L (++)).
Qed.

(** [show], [cmp] and [echo] leave the files as they are and show exactly the
    contents of the file, the progress and the first difference of two files, the
    words of the line. *)
Theorem shell_reading_correct fuel cmdline l s d ws c1 c2 bg t F H K P :
  typed cmdline l → obs t = (F, H, K, P) → F !! s = Some c1 → F !! d = Some c2 → (S (size H) < max_open)%nat →
  Forall is_u8 c1 → Forall is_u8 c2 → Z.of_nat (length c1) < 2 ^ 31 → (length c1 < fuel)%nat →
  let run := run_command garbage garbage2 garbage_int fuel cmdline bg t in
  let shows text := returns run (λ '(r, _, bg', t'), r = 0 ∧ bg' = bg ∧ obs t' = (F, H, K, P ++ text)) in
  (words l = [chars "show"; s] → shows c1) ∧
  (words l = [chars "cmp"; s; d] → shows (verdict garbage garbage2 0 c1 c2 ++ [10])) ∧
  (words l = chars "echo" :: ws → shows (concat ((λ w, w ++ [32]) <$> ws) ++ [10])).
Proof.
  intros Ht Ho Hs Hd Hopen Hu1 Hu2 Hlt Hf run shows. unfold shows, run. pose proof Ht as (Hl & Hu & Hlen).
  split_and!; [| |]; intros Hw.
  2: { destruct (run_compare fuel cmdline l s d c1 c2 bg t F H K P Ht Hw Ho Hs Hd Hopen Hu1 Hu2 Hlt Hf)
         as (cl & t' & -> & Ho'). done. }
  all: destruct (run_tokenized garbage garbage2 garbage_int fuel cmdline l bg t Hl Hu Hlen) as (cl & argv & -> & Ha & _);
    rewrite Hw in *; unfold run_words; rewrite (proj2 (Z.eqb_neq _ 0)) by (simpl; lia); dispatch Ha.
  - destruct (cmd_show_spec garbage cl argv _ s c1 t F H K P fuel Ha Ho Hs ltac:(lia) Hf) as (t' & E & Ho').
    change (Z.of_nat (length [chars "show"; s])) with 2. rewrite E. bind_step. done.
  - destruct (cmd_echo_spec cl argv _ ws t F H K P Ha Ho) as (t' & E & Ho').
    change (length (chars "echo" :: ws)) with (S (length ws)). rewrite E. bind_step. done.
Qed.

(** [wait] leaves a background process behind that no program ever was: from then
    on no other can be started. *)
Lemma wait_blocks_background bg t F H K P prog :
  bg ≠ -1 → ∃ r t', cmd_wait 1 bg t = Done (r, 1, t') ∧
    (obs t' = (F, H, K, P) → ∃ t2 P', background_run prog 1 t' = Done (1, 1, t2) ∧ obs t2 = (F, H, K, P ++ P')).
Proof.
  intros Hbg. unfold cmd_wait. change (negb (1 =? 1)) with false. cbv iota.
  rewrite (proj2 (Z.eqb_neq _ _)) by done. destruct (sc_join bg t) as [r t1]. exists r, t1. split; [done|]. intros Ho.
  unfold background_run. change (negb (1 =? -1)) with true. cbv iota.
  destruct (print_at (line "Error: Can only run one background process at a time.") [] t1 _ _ _ _ Ho)
    as (t2 & -> & Ho2); [fits_tac|done|]. bind_step.
  destruct (print_at (line "Use 'wait' to block until it stops.") [] t2 _ _ _ _ Ho2)
    as (t3 & -> & Ho3); [fits_tac|done|]. bind_step. eexists t3, _. split; [done|]. rewrite Ho3, <- (assoc_L (++)). done.
Qed.
End commands.

(** ** An example *)

Record demo_os := DemoOs {
  do_files : gmap (list Z) (list Z); do_handles : gmap Z (list Z * nat); do_keys : list Z; do_shown : list Z
}.

#[export] Instance demo_console : Console demo_os := {
  sys_read t := match do_keys t with
                | [] => (None, t)
                | c :: l => (Some c, DemoOs (do_files t) (do_handles t) l (do_shown t)) end;
  sys_write l t := (Z.of_nat (length l), DemoOs (do_files t) (do_handles t) (do_keys t) (do_shown t ++ l))
}.

#[export, refine] Instance demo_console_spec : ConsoleSpec demo_os := { pending := do_keys; printed := do_shown }.
Proof.
  - intros [f h k p] c l. simpl. by intros ->.
  - done.
Defined.

Definition set_handles (h : gmap Z (list Z * nat)) (t : demo_os) : demo_os :=
  DemoOs (do_files t) h (do_keys t) (do_shown t).
Definition set_files (f : gmap (list Z) (list Z)) (t : demo_os) : demo_os :=
  DemoOs f (do_handles t) (do_keys t) (do_shown t).

(** The lowest free handle from 3 on. *)
Definition free_handle (H : gmap Z (list Z * nat)) : Z :=
  default 3 (head (filter (λ h, H !! h = None) (seqZ 3 100))).

Lemma free_handle_spec H : (size H < 100)%nat → 3 ≤ free_handle H < 103 ∧ H !! free_handle H = None.
Proof.
  intros Hs. unfold free_handle. destruct (filter (λ h, H !! h = None) (seqZ 3 100)) as [|h l] eqn:E.
  - exfalso. assert (Hsub : (list_to_set (seqZ 3 100) : gset Z) ⊆ dom H).
    { intros h Hh. apply elem_of_list_to_set in Hh. apply elem_of_dom. destruct (H !! h) eqn:Eh; [by eexists|].
      assert (Hin : h ∈ filter (λ h, H !! h = None) (seqZ 3 100)) by (by apply list_elem_of_filter).
      rewrite E in Hin. by apply not_elem_of_nil in Hin. }
    apply subseteq_size in Hsub. rewrite size_dom, size_list_to_set in Hsub by apply NoDup_seqZ.
    rewrite length_seqZ in Hsub. lia.
  - assert (Hin : h ∈ filter (λ h, H !! h = None) (seqZ 3 100)) by (rewrite E; left).
    apply list_elem_of_filter in Hin as [Hn Hin]. apply elem_of_seqZ in Hin. simpl. split; [lia|done].
Qed.

#[export] Instance demo_syscalls : Syscalls demo_os := {
  sc_open s t := match do_files t !! s with
    | Some _ => (free_handle (do_handles t), set_handles (<[free_handle (do_handles t) := (s, 0%nat)]> (do_handles t)) t)
    | None => (-1, t) end;
  sc_close h t := (0, set_handles (delete h (do_handles t)) t);
  sc_read h n t := match do_handles t !! h with
    | Some (s, p) =>
        let bs := take (Z.to_nat n) (drop p (default [] (do_files t !! s))) in
        (Z.of_nat (length bs), bs, set_handles (<[h := (s, (p + length bs)%nat)]> (do_handles t)) t)
    | None => (-1, [], t) end;
  sc_write h l t := match do_handles t !! h with
    | Some (s, p) =>
        let c := default [] (do_files t !! s) in
        let k := (length l `min` (length c - p))%nat in
        (Z.of_nat k, set_files (<[s := take p c ++ take k l ++ drop (p + k) c]> (do_files t))
           (set_handles (<[h := (s, (p + k)%nat)]> (do_handles t)) t))
    | None => (-1, t) end;
  sc_create s n t := match do_files t !! s with
    | Some _ => (-1, t)
    | None => (0, set_files (<[s := replicate (Z.to_nat n) 0]> (do_files t)) t) end;
  sc_delete s t := (0, set_files (delete s (do_files t)) t);
  sc_filecount _ t := (Z.of_nat (size (do_files t)), t);
  sc_file _ _ t := (-1, [], t);
  sc_spawn _ t := (7, t);
  sc_join _ t := (0, t);
  sc_exit _ t := Done t
}.

#[export, refine] Instance demo_os_files : Files demo_os := {
  files := do_files; handles := do_handles; max_open := 100%nat; can_create _ _ _ := True
}.
Proof.
  - done.
  - intros s c t Hs Hopen. destruct (free_handle_spec (do_handles t) Hopen) as [Hr Hn].
    eexists _, _. simpl. rewrite Hs. split; [done|]. split; [lia|]. done.
  - intros s t Hs. eexists _, _. simpl. rewrite Hs. split; [done|]. split; [lia|done].
  - intros h n s p c t Hh Hs Hn. simpl. rewrite Hh, Hs. eexists. done.
  - intros h s p c l t Hh Hs Hu. simpl. rewrite Hh, Hs. eexists. done.
  - intros h t _. eexists _, _. done.
  - intros s n t Hs _ _. eexists. simpl. rewrite Hs. done.
Defined.

Definition demo_line (s : string) : list Z := chars s ++ replicate (100 - length (chars s)) 0.
Definition demo_shell : demo_os := DemoOs {[chars "a" := [1; 0; 255]; chars "hw" := [5]]} ∅ [] [].

Lemma demo_typed (s : string) :
  forallb (λ c, (0 <? c) && (c <? 256)) (chars s) = true → (length (chars s) < 100)%nat → typed (demo_line s) (chars s).
Proof.
  intros Hc Hl. apply Is_true_eq_left, forallb_True in Hc.
  assert (Hb : Forall (λ c, is_u8 c ∧ c ≠ 0) (chars s)).
  { eapply Forall_impl; [exact Hc|]. intros c H. apply Is_true_eq_true, andb_true_iff in H as [H1 H2].
    apply Z.ltb_lt in H1, H2. unfold is_u8. lia. }
  split_and!.
  - split; [intros H; by apply (proj1 (Forall_forall _ _) Hb) in H as []|].
    exists (replicate (99 - length (chars s)) 0). unfold demo_line.
    by replace (100 - length (chars s))%nat with (S (99 - length (chars s))) by lia.
  - apply Forall_app. split; [eapply Forall_impl; [exact Hb|]; by intros ? []|]. apply Forall_replicate. done.
  - unfold demo_line. rewrite length_app, length_replicate. lia.
Qed.

Lemma shell_copy_correct_witness :
  returns (run_command 0 0 42 10 (demo_line "cp  a b 3") (-1) demo_shell) (λ '(r, _, bg, t), r = 42 ∧
    files t !! chars "b" = Some [1; 0; 255] ∧
    returns (run_command 0 0 42 10 (demo_line "cmp a b") bg t) (λ '(r2, _, _, t2), r2 = 0 ∧ handles t2 = ∅)).
Proof.
  eapply returns_mono.
  - apply (shell_copy_correct 0 0 42 10 (demo_line "cp  a b 3") (chars "cp  a b 3") (chars "a") (chars "b") [chars "3"] 3
      [1; 0; 255] (-1) demo_shell {[chars "a" := [1; 0; 255]; chars "hw" := [5]]} ∅ [] []); try done.
    + by apply demo_typed; [vm_compute|vm_compute; lia].
    + right. exists (chars "3"). split; [done|]. split; [repeat constructor; vm_compute; done|done].
    + rewrite map_size_empty. simpl. lia.
    + repeat constructor; done.
    + simpl. lia.
  - intros [[[r cl] bg] t] (-> & -> & [P' Ho] & Hcmp). split; [done|]. split.
    + apply obs_at in Ho as (-> & _). vm_compute. done.
    + eapply returns_mono; [apply (Hcmp ltac:(done) (demo_line "cmp a b") (chars "cmp a b"))|].
      * by apply demo_typed; [vm_compute|vm_compute; lia].
      * done.
      * intros [[[r2 cl2] bg2] t2] [-> Ho2]. split; [done|]. by apply obs_at in Ho2 as (_ & -> & _).
Defined.

Lemma shell_reading_correct_witness :
  returns (run_command 0 0 42 10 (demo_line "show a") (-1) demo_shell) (λ '(r, _, _, t), r = 0 ∧ printed t = [1; 0; 255]).
Proof.
  eapply returns_mono.
  - refine (proj1 (shell_reading_correct 0 0 42 10 (demo_line "show a") (chars "show a") (chars "a") (chars "hw") []
      [1; 0; 255] [5] (-1) demo_shell {[chars "a" := [1; 0; 255]; chars "hw" := [5]]} ∅ [] [] _ _ _ _ _ _ _ _ _) eq_refl); try done.
    + by apply demo_typed; [vm_compute|vm_compute; lia].
    + rewrite map_size_empty. simpl. lia.
    + repeat constructor; done.
    + repeat constructor; done.
    + simpl. lia.
  - intros [[[r cl] bg] t] (-> & _ & Ho). split; [done|]. by apply obs_at in Ho as (_ & _ & _ & ->).
Defined.

(** A program is started by the name at the start of the line: with a space
    before it the file is not found, where a command would be. *)
Example leading_space_lost :
  returns (run_command 0 0 42 10 (demo_line " hw") (-1) demo_shell) (λ '(r, _, _, t),
    r = 1 ∧ printed t = line "No such program:  hw.") ∧
  returns (run_command 0 0 42 10 (demo_line "hw") (-1) demo_shell) (λ '(r, _, _, t), r = 0 ∧ printed t = []) ∧
  returns (run_command 0 0 42 10 (demo_line " echo") (-1) demo_shell) (λ '(r, _, _, t), r = 0 ∧ printed t = [10]).
Proof. vm_compute. done. Qed.

(** "touch" without a size and "rm" of files that cannot be removed read arguments
    that are not there. *)
Example touch_without_size : run_command 0 0 42 10 (demo_line "touch b") (-1) demo_shell = Fault.
Proof. vm_compute. done. Qed.
