(* ===== verification/Devices.v ===== *)
(** * Devices (drivers/device.h, drivers/drivers.h, drivers/mips32/device.c)

    The table of devices that the start-up code fills from the descriptors of
    the machine, calling the driver of each device it knows.  The drivers'
    initialisation functions are parameters, as they are function pointers in
    the code: they work on a state [S] of their own. *)

From S2P Require Import Prelude PhysMem.

Definition CONFIG_MAX_DEVICES : Z := 128.
Definition IO_DESCRIPTOR_AREA : Z := 0xb0000000.
Definition sizeof_io_descriptor : Z := 32.

Definition TYPECODE_TTY : Z := 0x201.
Definition TYPECODE_DISK : Z := 0x301.
Definition YAMS_TYPECODE_RTC : Z := 0x102.
Definition YAMS_TYPECODE_MEMINFO : Z := 0x101.
Definition YAMS_TYPECODE_SHUTDOWN : Z := 0x103.
Definition YAMS_TYPECODE_CPUSTATUS : Z := 0xc00.
Definition YAMS_TYPECODE_CPUMASK : Z := 0xffffff00.

Record io_descriptor_t := IoDescriptor {
  io_type : Z;
  io_area_base : Z;
  io_area_len : Z;
  io_irq : Z;
  vendor_string : list Z
}.

(** Pointers to the parts of a driver are addresses. *)
Record device_t := Device {
  real_device : Z;
  generic_device : Z;
  descriptor : Z;
  io_address : Z;
  type : Z
}.
Definition sizeof_device : Z := 20.

Record devices := Devices { device_table : list (option device_t); number_of_devices : Z }.

Section drivers.
Context {S : Type}.

(** [initfunc] is given the address and the contents of a descriptor. *)
Record drivers_available_t := Driver {
  typecode : Z;
  name : string;
  initfunc : Z → io_descriptor_t → S → outcome (option device_t * S)
}.

(** The table of drivers/mips32/drivers.c, closed by an entry with typecode 0. *)
Definition drivers_available
    (tty_init rtc_init meminfo_init shutdown_init cpustatus_init disk_init
       : Z → io_descriptor_t → S → outcome (option device_t * S)) : list drivers_available_t :=
  [ Driver TYPECODE_TTY "Console" tty_init;
    Driver YAMS_TYPECODE_RTC "System RTC" rtc_init;
    Driver YAMS_TYPECODE_MEMINFO "System memory information" meminfo_init;
    Driver YAMS_TYPECODE_SHUTDOWN "System shutdown" shutdown_init;
    Driver YAMS_TYPECODE_CPUSTATUS "CPU status" cpustatus_init;
    Driver TYPECODE_DISK "Disk" disk_init ].

(** The walk over the table, whose end is the end of the list. *)
Fixpoint driver_walk (typecode' : Z) (driver : list drivers_available_t)
    : option drivers_available_t :=
  match driver with
  | [] => None
  | d :: r => if typecode d =? typecode' then Some d else driver_walk typecode' r
  end.

Definition find_driver (drivers : list drivers_available_t) (typecode' : Z)
    : option drivers_available_t :=
  let typecode' := if Z.land typecode' YAMS_TYPECODE_CPUMASK =? YAMS_TYPECODE_CPUSTATUS
                   then YAMS_TYPECODE_CPUSTATUS else typecode' in
  driver_walk typecode' drivers.

(** The body of the loop over the descriptors: [inr] is the [break]. *)
Definition device_step (drivers : list drivers_available_t) (io_desc : list io_descriptor_t)
    (i : Z) '((dv, s) : devices * S) : outcome (devices * S + devices * S) :=
  let* descriptor := aread io_desc i in
  if negb (io_type descriptor =? 0) then
    match find_driver drivers (io_type descriptor) with
    | None => Done (inl (dv, s))
    | Some driver =>
        let* '(dev, s) :=
          initfunc driver (IO_DESCRIPTOR_AREA + sizeof_io_descriptor * i) descriptor s in
        let* t := awrite (device_table dv) (number_of_devices dv) dev in
        match dev with
        | Some _ =>
            let dv := Devices t (number_of_devices dv + 1) in
            if CONFIG_MAX_DEVICES <=? number_of_devices dv then Done (inr (dv, s))
            else Done (inl (dv, s))
        | None => Done (inl (Devices t (number_of_devices dv), s))
        end
    end
  else Done (inl (dv, s)).

Definition device_init (drivers : list drivers_available_t) (io_desc : list io_descriptor_t)
    (dv : devices) (s : S) : outcome (devices * S) :=
  let* r := for_loop 0 YAMS_MAX_DEVICES (device_step drivers io_desc) (dv, s) in
  Done (match r with inl x => x | inr x => x end).
End drivers.

Arguments drivers_available_t : clear implicits.

(** An entry below [number_of_devices] is not NULL; a NULL one would be
    dereferenced. *)
Definition device_get (typecode n : Z) (dv : devices) : outcome (option device_t) :=
  let* r := for_loop 0 (number_of_devices dv) (λ i n,
    let* e := aread (device_table dv) i in
    match e with
    | None => Fault
    | Some dev =>
        if type dev =? typecode then
          if n =? 0 then Done (inr dev) else Done (inl (u32 (n - 1)))
        else Done (inl n)
    end) n in
  Done (match r with inl _ => None | inr dev => Some dev end).

(** ** What they do *)

(** The devices of a list of descriptors, from the [i]-th on: each one with a
    driver is initialised, and kept if the driver answers a device. *)
Fixpoint probe {S} (drivers : list (drivers_available_t S)) (i : Z)
    (io_desc : list io_descriptor_t) (s : S) : outcome (list device_t * S) :=
  match io_desc with
  | [] => Done ([], s)
  | d :: r =>
      match (if io_type d =? 0 then None else find_driver drivers (io_type d)) with
      | None => probe drivers (i + 1) r s
      | Some driver =>
          let* '(dev, s) := initfunc driver (IO_DESCRIPTOR_AREA + sizeof_io_descriptor * i) d s in
          let* '(l, s) := probe drivers (i + 1) r s in
          Done (option_list dev ++ l, s)
      end
  end.

(** The devices in a table. *)
Definition table_of (found : list device_t) (dv : devices) : Prop :=
  number_of_devices dv = Z.of_nat (length found) ∧
  Z.of_nat (length (device_table dv)) = CONFIG_MAX_DEVICES ∧
  take (length found) (device_table dv) = Some <$> found.

Lemma table_of_snoc found dv dev :
  table_of found dv → number_of_devices dv < CONFIG_MAX_DEVICES →
  ∃ t, awrite (device_table dv) (number_of_devices dv) dev = Done t ∧
    match dev with
    | Some d => table_of (found ++ [d]) (Devices t (number_of_devices dv + 1))
    | None => table_of found (Devices t (number_of_devices dv))
    end.
Proof.
  intros (Hn & Hl & Ht) Hlt. eexists. split; [apply awrite_in_range; lia|].
  rewrite Hn, Nat2Z.id. destruct dev as [d|]; (split_and!; cbn [number_of_devices device_table]).
  - rewrite length_app. simpl. lia.
  - by rewrite length_insert.
  - rewrite length_app. simpl. rewrite Nat.add_1_r, fmap_app.
    rewrite (take_S_r _ _ (Some d)) by (apply list_lookup_insert_eq; lia).
    by rewrite take_insert_ge, Ht by lia.
  - lia.
  - by rewrite length_insert.
  - by rewrite take_insert_ge, Ht by lia.
Qed.

Lemma device_get_spec found dv t n :
  table_of found dv → is_u32 n →
  device_get t n dv = Done (List.filter (λ d, type d =? t) found !! Z.to_nat n).
Proof.
  intros (Hn & _ & Ht) Hu. unfold device_get, for_loop. rewrite Hn, Z.sub_0_r, Nat2Z.id.
  assert (H : ∀ l k n, is_u32 n → (∀ j, (j < length l)%nat →
      aread (device_table dv) (k + Z.of_nat j) = Done (l !! j)) →
    ∃ r, for_from (length l) k (λ i n,
      let* e := aread (device_table dv) i in
      match e with
      | None => Fault
      | Some dev => if type dev =? t then if n =? 0 then Done (inr dev) else Done (inl (u32 (n - 1)))
          else Done (inl n)
      end) n = Done r ∧
      match r with inl _ => None | inr dev => Some dev end
        = List.filter (λ d, type d =? t) l !! Z.to_nat n).
  2: { destruct (H found 0 n Hu) as (r & -> & Er).
       - intros j Hj. destruct (lookup_lt_is_Some_2 found j Hj) as [d Hd]. rewrite Hd.
         apply aread_Some; [lia|]. replace (Z.to_nat (0 + Z.of_nat j)) with j by lia.
         rewrite <- (lookup_take_lt _ (length found)), Ht, list_lookup_fmap, Hd by done. done.
       - cbn [outcome_bind]. by rewrite Er. }
  clear. induction l as [|d l IH]; intros k n Hu Hr; simpl.
  - eexists. by split.
  - pose proof (Hr 0%nat ltac:(simpl; lia)) as E0. rewrite Z.add_0_r in E0. rewrite E0.
    cbn [outcome_bind lookup list_lookup].
    assert (Hr' : ∀ j, (j < length l)%nat →
        aread (device_table dv) (k + 1 + Z.of_nat j) = Done (l !! j)).
    { intros j Hj. etrans; [|exact (Hr (S j) ltac:(simpl; lia))]. f_equal. lia. }
    destruct (type d =? t).
    + destruct (Z.eqb_spec n 0) as [->|Hn]; [eexists; by split|].
      unfold is_u32 in Hu. rewrite u32_id by (unfold is_u32; lia).
      destruct (IH (k + 1) (n - 1)) as (r & Er & Ev); [unfold is_u32; lia|exact Hr'|].
      exists r. split; [exact Er|]. rewrite Ev. replace (Z.to_nat n) with (S (Z.to_nat (n - 1))) by lia.
      done.
    + by apply (IH (k + 1) n Hu Hr').
Qed.

Section spec.
Context {S : Type} (drivers : list (drivers_available_t S)).

(** The loop over the descriptors, as long as there is room. *)
Lemma device_loop (io_desc rest : list io_descriptor_t) pre dv s found l s' :
  io_desc = pre ++ rest →
  table_of found dv → probe drivers (Z.of_nat (length pre)) rest s = Done (l, s') →
  Z.of_nat (length found + length rest) ≤ CONFIG_MAX_DEVICES →
  ∃ r, for_from (length rest) (Z.of_nat (length pre)) (device_step drivers io_desc) (dv, s) = Done r ∧
    ∃ dv', match r with inl x => x | inr x => x end = (dv', s') ∧ table_of (found ++ l) dv'.
Proof.
  revert pre dv s found l. induction rest as [|d rest IH]; intros pre dv s found l E Ht Ep Hlen; simpl; [|unfold device_step at 1].
  - injection Ep as <- <-. eexists. split; [done|]. exists dv. by rewrite app_nil_r.
  - assert (Ed : aread io_desc (Z.of_nat (length pre)) = Done d).
    { apply aread_Some; [lia|]. rewrite Nat2Z.id, E. by apply list_lookup_middle. }
    rewrite Ed. cbn [outcome_bind].
    assert (Enext : Z.of_nat (length pre) + 1 = Z.of_nat (length (pre ++ [d])))
      by (rewrite length_app; simpl; lia).
    assert (Epre : io_desc = (pre ++ [d]) ++ rest) by (by rewrite <- app_assoc).
    simpl in Ep, Hlen. rewrite Enext in Ep |- *.
    destruct (io_type d =? 0); cbn [negb]; [by apply (IH _ _ _ _ _ Epre); [| |lia]|].
    destruct (find_driver drivers (io_type d)) as [driver|]; [|by apply (IH _ _ _ _ _ Epre); [| |lia]].
    apply bind_Done_inv in Ep as ([dev s1] & Ei & Ep).
    apply bind_Done_inv in Ep as ([l1 s2] & Ep & El). simplify_eq. rewrite Ei. cbn [outcome_bind].
    pose proof Ht as (Hn & _).
    destruct (table_of_snoc found dv dev Ht) as (t & Et & Ht'); [lia|]. rewrite Et.
    cbn [outcome_bind]. destruct dev as [dev|]; [|by apply (IH _ _ _ _ _ Epre); [| |lia]].
    cbn [number_of_devices]. change (option_list (Some dev)) with [dev]. rewrite (app_assoc found).
    destruct (Z.leb_spec CONFIG_MAX_DEVICES (number_of_devices dv + 1)).
    + eexists. split; [done|]. assert (rest = []) as -> by (destruct rest; [done|]; simpl in *; lia).
      injection Ep as <- <-. exists (Devices t (number_of_devices dv + 1)). by rewrite app_nil_r.
    + apply (IH _ _ _ _ _ Epre); [done|done|]. rewrite length_app. simpl. lia.
Qed.

Lemma device_init_spec io_desc dv s l s' :
  Z.of_nat (length io_desc) = YAMS_MAX_DEVICES → table_of [] dv →
  probe drivers 0 io_desc s = Done (l, s') →
  ∃ dv', device_init drivers io_desc dv s = Done (dv', s') ∧ table_of l dv'.
Proof.
  intros Hlen Ht Ep. unfold device_init, for_loop.
  replace (Z.to_nat (YAMS_MAX_DEVICES - 0)) with (length io_desc) by lia.
  destruct (device_loop io_desc io_desc [] dv s [] l s') as (r & Er & dv' & Edv & Hdv);
    [done|done|done|simpl; unfold YAMS_MAX_DEVICES, CONFIG_MAX_DEVICES in *; lia|].
  change (Z.of_nat (length [])) with 0 in Er. rewrite Er. cbn [outcome_bind]. exists dv'. by rewrite Edv.
Qed.
End spec.
