(* ===== verification/Interrupts.v ===== *)
(** * Interrupts (kernel/mips32/interrupt.c, kernel/interrupt.h)

    The table of interrupt handlers and the routine that serves an interrupt.
    A handler is a function pointer: [call] gives the function at an address.
    Handlers work on any state that contains the kernel's ([HasKernel]), so that
    each driver brings its own. *)

From S2P Require Import Prelude PhysMem Threads PageTable Devices.

Definition INTERRUPT_CAUSE_SOFTWARE_0 : Z := Z.shiftl 1 8.
Definition INTERRUPT_CAUSE_HARDWARE_5 : Z := Z.shiftl 1 15.
Definition INTERRUPT_MASK_MASTER : Z := 0x1.
Definition INTERRUPT_MASK_ALL : Z := 0xff00.
Definition INTERRUPT_VECTOR_LENGTH : Z := 8.
Definition INTERRUPT_VECTOR_ADDRESS1 : Z := 0x80000000.
Definition INTERRUPT_VECTOR_ADDRESS2 : Z := 0x80000180.
Definition INTERRUPT_VECTOR_ADDRESS3 : Z := 0x80000200.

(** A state with a kernel in it. *)
Class HasKernel (S : Type) := {
  get_kernel : S → kernel;
  put_kernel : kernel → S → S;
  get_put_kernel k s : get_kernel (put_kernel k s) = k
}.

#[export] Instance kernel_has_kernel : HasKernel kernel := {
  get_kernel k := k; put_kernel k _ := k; get_put_kernel _ _ := eq_refl }.

Record interrupt_entry_t := IntEntry { device : option device_t; irq : Z; handler : Z }.

(** The interrupt stacks of the CPUs, the handler table, and the words of memory
    the vectors are in. *)
Record interrupts := Interrupts {
  interrupt_stacks : list Z;
  interrupt_handlers : list interrupt_entry_t;
  vector_memory : Z → Z
}.

Definition set_word (a w : Z) (m : Z → Z) : Z → Z := λ b, if b =? a then w else m b.

(** [vector_code] is the code at [_cswitch_vector_code]. *)
Definition interrupt_init (num_cpus : Z) (vector_code : list Z) (st : stalloc_t) (it : interrupts)
    : outcome (interrupts * stalloc_t) :=
  if (num_cpus <? 1) || (CONFIG_MAX_CPUS <? num_cpus) then Panic "Too few or many CPUs found"
  else
    let* '(stacks, st) := for_each 0 num_cpus (λ i '(stacks, st),
      let* '(ret, st) := stalloc PAGE_SIZE st in
      if ret =? 0 then Panic "Unable to allocate interrupt stacks"
      else
        let* stacks := awrite stacks i (u32 (ret + PAGE_SIZE - 4)) in
        Done (stacks, st)) (interrupt_stacks it, st) in
    let* mem := for_each 0 INTERRUPT_VECTOR_LENGTH (λ i mem,
      let* w := aread vector_code i in
      Done (set_word (INTERRUPT_VECTOR_ADDRESS3 + 4 * i) w
           (set_word (INTERRUPT_VECTOR_ADDRESS2 + 4 * i) w
           (set_word (INTERRUPT_VECTOR_ADDRESS1 + 4 * i) w mem)))) (vector_memory it) in
    let* table := for_each 0 CONFIG_MAX_DEVICES (λ i t, awrite t i (IntEntry None 0 0))
                    (interrupt_handlers it) in
    Done (Interrupts stacks table mem, st).

(** The walk to the first empty entry reads the entry before it compares the
    index with the size of the table. *)
Definition interrupt_register (irq handler : Z) (device' : device_t) (table : list interrupt_entry_t)
    : outcome (list interrupt_entry_t) :=
  if negb (Z.land irq (Z.lxor INTERRUPT_MASK_ALL 0xffffffff) =? 0) then Panic "interrupt_register"
  else
    let* i := while_loop (S (S (Z.to_nat CONFIG_MAX_DEVICES))) (λ i,
      let* e := aread table i in
      match device e with
      | Some _ => if i <? CONFIG_MAX_DEVICES then Done (inl (i + 1)) else Done (inr i)
      | None => Done (inr i)
      end) 0 in
    if CONFIG_MAX_DEVICES <=? i then Panic "Interrupt handler table is full"
    else awrite table i (IntEntry (Some device') irq handler).

(** The Cause register and the TLB of the CPU that serves the interrupt. *)
Record cpu_state := Cpu { cp0_cause : Z; cpu_tlb : tlb }.

Definition _interrupt_clear_sw0 (c : cpu_state) : cpu_state :=
  Cpu (Z.land (cp0_cause c) 0xfffffeff) (cpu_tlb c).

Section handle.
Context {S : Type} `{HasKernel S}.
Variable call : Z → device_t → S → outcome S.
(** The page table at an address, [None] at NULL. *)
Variable pagetable_at : Z → S → option pagetable_t.

(** The loop over the handler table. *)
Definition run_handlers (cause : Z) (table : list interrupt_entry_t) (s : S) : outcome S :=
  let* r := for_loop 0 CONFIG_MAX_DEVICES (λ i s,
    let* e := aread table i in
    match device e with
    | None => Done (inr s)
    | Some dev =>
        if negb (Z.land cause (irq e) =? 0) then
          let* s := call (handler e) dev s in Done (inl s)
        else Done (inl s)
    end) s in
  Done (match r with inl s => s | inr s => s end).

(** [this_cpu] is the answer of [_interrupt_getcpu], [rnd] of the random number
    that sets the next time slice. *)
Definition interrupt_handle (cause this_cpu rnd : Z) (table : list interrupt_entry_t)
    (c : cpu_state) (s : S) : outcome (cpu_state * S) :=
  let c := if negb (Z.land cause INTERRUPT_CAUSE_SOFTWARE_0 =? 0)
           then _interrupt_clear_sw0 c else c in
  if negb (Z.land cause 0x0000007c =? 0) then Panic "Exception in interrupt_handle"
  else
    let* s := run_handlers cause table s in
    let* switch :=
      if negb (Z.land cause (Z.lor INTERRUPT_CAUSE_SOFTWARE_0 INTERRUPT_CAUSE_HARDWARE_5) =? 0)
      then Done true
      else
        let* cur := aread (scheduler_current_thread (get_kernel s)) this_cpu in
        Done (cur =? IDLE_THREAD_TID) in
    if switch : bool then
      let* k := scheduler_schedule this_cpu rnd (get_kernel s) in
      let s := put_kernel k s in
      let* th := thread_get_current_thread_entry this_cpu (get_kernel s) in
      let* t := tlb_fill (pagetable_at (pagetable th) s) (cpu_tlb c) in
      Done (Cpu (cp0_cause c) t, s)
    else Done (c, s).
End handle.

(** [intr_state] is the Status register. *)
Definition _interrupt_is_disabled (intr_state : Z) : Z :=
  if (Z.land intr_state INTERRUPT_MASK_ALL =? 0)
     || (Z.land intr_state INTERRUPT_MASK_MASTER =? 0) then 1 else 0.

(** ** The handler table *)

(** The handlers that are registered, in the order of their registration. *)
Record registration := Registration { r_device : device_t; r_irq : Z; r_handler : Z }.

Definition entry_of (r : registration) : interrupt_entry_t :=
  IntEntry (Some (r_device r)) (r_irq r) (r_handler r).

Definition table_holds (regs : list registration) (table : list interrupt_entry_t) : Prop :=
  ∃ empty, table = (entry_of <$> regs) ++ empty ∧ Forall (λ e, device e = None) empty ∧
    Z.of_nat (length table) = CONFIG_MAX_DEVICES.

(** A mask the registration accepts. *)
Definition irq_ok (irq : Z) : Prop := Z.land irq (Z.lxor INTERRUPT_MASK_ALL 0xffffffff) = 0.

Lemma holds_entry regs table i r :
  table_holds regs table → regs !! i = Some r → aread table (Z.of_nat i) = Done (entry_of r).
Proof.
  intros (e & -> & _ & _) Hr. apply aread_Some; [lia|]. rewrite Nat2Z.id, lookup_app_l.
  - by rewrite list_lookup_fmap, Hr.
  - rewrite length_fmap. by eapply lookup_lt_Some.
Qed.

Lemma holds_end regs table :
  table_holds regs table → (length regs < Z.to_nat CONFIG_MAX_DEVICES)%nat →
  ∃ e, aread table (Z.of_nat (length regs)) = Done e ∧ device e = None.
Proof.
  intros (l & -> & He & Hl) Hlt. rewrite length_app, length_fmap in Hl.
  destruct l as [|e l]; [simpl in Hl; lia|]. apply Forall_cons in He as [He _]. exists e.
  split; [|done]. apply aread_Some; [lia|]. rewrite Nat2Z.id.
  apply list_lookup_middle. by rewrite length_fmap.
Qed.

Lemma holds_length regs table :
  table_holds regs table → Z.of_nat (length regs) ≤ CONFIG_MAX_DEVICES.
Proof. intros (l & -> & _ & Hl). rewrite length_app, length_fmap in Hl. lia. Qed.

Lemma interrupt_register_bad irq handler dev table :
  ¬ irq_ok irq → interrupt_register irq handler dev table = Panic "interrupt_register".
Proof. intros H%Z.eqb_neq. unfold interrupt_register. by rewrite H. Qed.

Lemma interrupt_register_spec regs irq handler dev table :
  table_holds regs table → irq_ok irq → Z.of_nat (length regs) < CONFIG_MAX_DEVICES →
  returns (interrupt_register irq handler dev table)
    (table_holds (regs ++ [Registration dev irq handler])).
Proof.
  intros Ht Hirq Hlt. unfold interrupt_register. rewrite Hirq. cbn [Z.eqb negb].
  apply returns_bind. eapply returns_mono; [apply (while_loop_inv
    (λ i, 0 ≤ i ≤ Z.of_nat (length regs)) (λ i, Z.to_nat (CONFIG_MAX_DEVICES - i))
    (λ i, i = Z.of_nat (length regs)))|].
  - lia.
  - lia.
  - intros i Hi. destruct (decide (i = Z.of_nat (length regs))) as [->|Hne].
    + destruct (holds_end regs table Ht) as (e & -> & He); [lia|]. cbn [outcome_bind]. by rewrite He.
    + destruct (lookup_lt_is_Some_2 regs (Z.to_nat i)) as [r Hr]; [lia|].
      pose proof (holds_entry _ _ _ _ Ht Hr) as E. rewrite Z2Nat.id in E by lia. rewrite E.
      cbn [outcome_bind entry_of device]. rewrite (proj2 (Z.ltb_lt _ _)) by lia. simpl. lia.
  - intros i ->. rewrite (proj2 (Z.leb_gt _ _)) by done. destruct Ht as (l & -> & He & Hl).
    rewrite awrite_in_range by lia. rewrite length_app, length_fmap in Hl.
    destruct l as [|e l]; [simpl in Hl; lia|]. apply Forall_cons in He as [_ He].
    exists l. split_and!; [|done|].
    + rewrite Nat2Z.id, insert_app_r_alt by (rewrite length_fmap; lia).
      rewrite length_fmap, Nat.sub_diag, fmap_app. simpl. by rewrite <- app_assoc.
    + rewrite length_insert, length_app, length_fmap. simpl in *. lia.
Qed.

(** The walk over a full table runs past its end. *)
Lemma interrupt_register_full regs irq handler dev table :
  table_holds regs table → irq_ok irq → Z.of_nat (length regs) = CONFIG_MAX_DEVICES →
  interrupt_register irq handler dev table = Fault.
Proof.
  intros Ht Hirq Hl. unfold interrupt_register. rewrite Hirq. cbn [Z.eqb negb].
  assert (Hend : aread table CONFIG_MAX_DEVICES = Fault).
  { destruct Ht as (l & _ & _ & Hlen). unfold aread. simpl. rewrite (proj2 (lookup_ge_None table _)); [done|].
    unfold CONFIG_MAX_DEVICES in *. lia. }
  assert (H : ∀ n fuel, (n < fuel)%nat → Z.of_nat n ≤ CONFIG_MAX_DEVICES →
    while_loop fuel (λ i, let* e := aread table i in
      match device e with
      | Some _ => if i <? CONFIG_MAX_DEVICES then Done (inl (i + 1)) else Done (inr i)
      | None => Done (inr i)
      end) (CONFIG_MAX_DEVICES - Z.of_nat n) = Fault).
  { induction n as [|n IH]; intros [|fuel] Hf Hn; try lia; cbn [while_loop].
    - by rewrite Z.sub_0_r, Hend.
    - destruct (lookup_lt_is_Some_2 regs (Z.to_nat (CONFIG_MAX_DEVICES - Z.of_nat (S n)))) as [r Hr]; [lia|].
      pose proof (holds_entry _ _ _ _ Ht Hr) as E. rewrite Z2Nat.id in E by lia. rewrite E.
      cbn [outcome_bind entry_of device]. rewrite (proj2 (Z.ltb_lt _ _)) by lia.
      replace (CONFIG_MAX_DEVICES - Z.of_nat (S n) + 1) with (CONFIG_MAX_DEVICES - Z.of_nat n) by lia.
      apply IH; lia. }
  specialize (H (Z.to_nat CONFIG_MAX_DEVICES) (S (S (Z.to_nat CONFIG_MAX_DEVICES)))).
  rewrite Z2Nat.id, Z.sub_diag in H by done. rewrite H; [done|lia|lia].
Qed.

(** ** Dispatch *)

(** The handlers registered for a cause run in the order of registration. *)
Fixpoint dispatch {S} (call : Z → device_t → S → outcome S) (cause : Z)
    (regs : list registration) (s : S) : outcome S :=
  match regs with
  | [] => Done s
  | r :: l =>
      if Z.land cause (r_irq r) =? 0 then dispatch call cause l s
      else let* s := call (r_handler r) (r_device r) s in dispatch call cause l s
  end.

Lemma run_handlers_spec {T} (call : Z → device_t → T → outcome T) cause regs table s :
  table_holds regs table → run_handlers call cause table s = dispatch call cause regs s.
Proof.
  intros Ht. pose proof (holds_length _ _ Ht) as Hlen. unfold run_handlers, for_loop.
  assert (H : ∀ l i n s, regs = take i regs ++ l → (i ≤ length regs)%nat →
    (length l ≤ n)%nat → Z.of_nat (i + n) = CONFIG_MAX_DEVICES →
    outcome_bind (λ r : T + T, Done (match r with inl s => s | inr s => s end))
      (for_from n (Z.of_nat i) (λ i s, let* e := aread table i in
        match device e with
        | None => Done (inr s)
        | Some dev =>
            if negb (Z.land cause (irq e) =? 0) then
              let* s := call (handler e) dev s in Done (inl s)
            else Done (inl s)
        end) s) = dispatch call cause l s).
  2: { apply (H regs 0%nat (Z.to_nat (CONFIG_MAX_DEVICES - 0)) s); [done|lia|lia|lia]. }
  induction l as [|r l IH]; intros i n s' E Hi Hn HnD.
  - assert (Ei : i = length regs).
    { apply (f_equal length) in E. rewrite app_nil_r, length_take in E. lia. }
    destruct n as [|n]; [done|]. cbn [for_from dispatch].
    destruct (holds_end regs table Ht) as (e & Er & He); [lia|]. rewrite Ei, Er. cbn [outcome_bind].
    by rewrite He.
  - destruct n as [|n]; [simpl in Hn; lia|]. cbn [for_from dispatch].
    assert (Hr : regs !! i = Some r).
    { rewrite E. apply list_lookup_middle. rewrite length_take. lia. }
    pose proof (lookup_lt_Some _ _ _ Hr) as Hlt.
    rewrite (holds_entry _ _ _ _ Ht Hr). cbn [outcome_bind entry_of device irq handler].
    assert (E' : regs = take (S i) regs ++ l).
    { rewrite (take_S_r _ _ _ Hr), <- app_assoc. done. }
    destruct (Z.eqb_spec (Z.land cause (r_irq r)) 0); cbn [negb].
    + replace (Z.of_nat i + 1) with (Z.of_nat (S i)) by lia. apply IH; [done|lia|simpl in Hn; lia|lia].
    + destruct (call (r_handler r) (r_device r) s'); cbn [outcome_bind]; try done.
      replace (Z.of_nat i + 1) with (Z.of_nat (S i)) by lia. apply IH; [done|lia|simpl in Hn; lia|lia].
Qed.

(** ** Start-up *)
Lemma stalloc_page st :
  room st PAGE_SIZE → free_area_start st mod 4 = 0 →
  returns (stalloc PAGE_SIZE st) (λ '(res, st'), res = free_area_start st ∧
    free_area_start st' = free_area_start st + PAGE_SIZE).
Proof.
  intros Hr Hal. eapply returns_mono; [by apply stalloc_spec|]. intros [res st'] (-> & Hb & Hm).
  split; [done|]. unfold PAGE_SIZE in *.
  pose proof (Z.div_mod (free_area_start st) 4). pose proof (Z.div_mod (free_area_start st') 4). lia.
Qed.

Lemma interrupt_stacks_spec num_cpus stacks st :
  1 ≤ num_cpus ≤ CONFIG_MAX_CPUS → Z.of_nat (length stacks) = CONFIG_MAX_CPUS →
  room st (num_cpus * PAGE_SIZE) → free_area_start st mod 4 = 0 →
  returns (for_each 0 num_cpus (λ i '(stacks, st),
      let* '(ret, st) := stalloc PAGE_SIZE st in
      if ret =? 0 then Panic "Unable to allocate interrupt stacks"
      else
        let* stacks := awrite stacks i (u32 (ret + PAGE_SIZE - 4)) in
        Done (stacks, st)) (stacks, st)) (λ '(stacks', st'),
    Z.of_nat (length stacks') = CONFIG_MAX_CPUS ∧
    free_area_start st' = free_area_start st + num_cpus * PAGE_SIZE ∧
    ∀ i, 0 ≤ i < num_cpus →
      stacks' !! Z.to_nat i = Some (free_area_start st + (i + 1) * PAGE_SIZE - 4)).
Proof.
  intros Hn Hl (Hr1 & _ & Hr2) Hal. unfold PAGE_SIZE in *. apply (for_each_inv (λ n '(stacks', st'),
    Z.of_nat (length stacks') = CONFIG_MAX_CPUS ∧
    free_area_start st' = free_area_start st + n * 4096 ∧
    ∀ i, 0 ≤ i < n → stacks' !! Z.to_nat i = Some (free_area_start st + (i + 1) * 4096 - 4))).
  - lia.
  - split_and!; [done|lia|lia].
  - intros j [stacks1 st1] Hj (Hl1 & Hf & Hs). apply returns_bind.
    eapply returns_mono; [apply stalloc_page|].
    { unfold room, PAGE_SIZE. lia. }
    { rewrite Hf, <- Z.add_mod_idemp_r by done. replace (j * 4096) with (j * 1024 * 4) by lia.
      by rewrite Z.mod_mul, Z.add_0_r. }
    intros [ret st2] (-> & Hst). unfold PAGE_SIZE in *.
    destruct (Z.eqb_spec (free_area_start st1) 0); [lia|].
    rewrite awrite_in_range by lia. cbn [outcome_bind returns].
    rewrite u32_id by (unfold is_u32; lia). split_and!; [by rewrite length_insert|lia|].
    intros i Hi. destruct (decide (i = j)) as [->|Hne].
    + rewrite list_lookup_insert_eq by lia. f_equal. lia.
    + rewrite list_lookup_insert_ne by lia. apply Hs. lia.
Qed.

Definition vector_addresses : list Z :=
  [INTERRUPT_VECTOR_ADDRESS1; INTERRUPT_VECTOR_ADDRESS2; INTERRUPT_VECTOR_ADDRESS3].

Lemma vectors_spec vector_code mem :
  INTERRUPT_VECTOR_LENGTH ≤ Z.of_nat (length vector_code) →
  returns (for_each 0 INTERRUPT_VECTOR_LENGTH (λ i mem,
      let* w := aread vector_code i in
      Done (set_word (INTERRUPT_VECTOR_ADDRESS3 + 4 * i) w
           (set_word (INTERRUPT_VECTOR_ADDRESS2 + 4 * i) w
           (set_word (INTERRUPT_VECTOR_ADDRESS1 + 4 * i) w mem)))) mem) (λ mem',
    ∀ v i w, v ∈ vector_addresses → 0 ≤ i < INTERRUPT_VECTOR_LENGTH →
      vector_code !! Z.to_nat i = Some w → mem' (v + 4 * i) = w).
Proof.
  intros Hl. apply (for_each_inv (λ n mem', ∀ v i w, v ∈ vector_addresses → 0 ≤ i < n →
      vector_code !! Z.to_nat i = Some w → mem' (v + 4 * i) = w)).
  - done.
  - lia.
  - intros j m Hj Hm. destruct (aread_in_range vector_code j) as (w & Hw & ->); [lia|]. cbn [outcome_bind returns]. intros v i w' Hv Hi Hw'.
    unfold set_word, vector_addresses, INTERRUPT_VECTOR_ADDRESS1, INTERRUPT_VECTOR_ADDRESS2,
      INTERRUPT_VECTOR_ADDRESS3, INTERRUPT_VECTOR_LENGTH in *.
    destruct (decide (i = j)) as [->|Hne].
    + assert (w' = w) as -> by congruence. rewrite !elem_of_cons, elem_of_nil in Hv.
      repeat case_match; try done. exfalso. lia.
    + specialize (Hm v i w' Hv ltac:(lia) Hw'). rewrite !elem_of_cons, elem_of_nil in Hv.
      by rewrite !(proj2 (Z.eqb_neq _ _)) by lia.
Qed.

Lemma interrupt_init_spec num_cpus vector_code st it :
  1 ≤ num_cpus ≤ CONFIG_MAX_CPUS → INTERRUPT_VECTOR_LENGTH ≤ Z.of_nat (length vector_code) →
  Z.of_nat (length (interrupt_stacks it)) = CONFIG_MAX_CPUS →
  Z.of_nat (length (interrupt_handlers it)) = CONFIG_MAX_DEVICES →
  room st (num_cpus * PAGE_SIZE) → free_area_start st mod 4 = 0 →
  returns (interrupt_init num_cpus vector_code st it) (λ '(it', st'),
    table_holds [] (interrupt_handlers it') ∧
    free_area_start st' = free_area_start st + num_cpus * PAGE_SIZE ∧
    (∀ i, 0 ≤ i < num_cpus →
      interrupt_stacks it' !! Z.to_nat i = Some (free_area_start st + (i + 1) * PAGE_SIZE - 4)) ∧
    (∀ v i w, v ∈ vector_addresses → 0 ≤ i < INTERRUPT_VECTOR_LENGTH →
      vector_code !! Z.to_nat i = Some w → vector_memory it' (v + 4 * i) = w)).
Proof.
  intros Hn Hv Hs Ht Hr Hal. unfold interrupt_init.
  rewrite (proj2 (Z.ltb_ge _ _)), (proj2 (Z.ltb_ge _ _)) by lia. cbn [orb].
  apply returns_bind. eapply returns_mono; [by apply interrupt_stacks_spec|].
  intros [stacks st'] (_ & Hf & Hst). apply returns_bind.
  eapply returns_mono; [by apply vectors_spec|]. intros mem Hmem. apply returns_bind.
  eapply returns_mono; [apply (for_each_inv (λ n t, Z.of_nat (length t) = CONFIG_MAX_DEVICES ∧
    ∀ i e, (i < Z.to_nat n)%nat → t !! i = Some e → device e = None))|].
  - done.
  - split; [done|]. lia.
  - intros j t Hj [Hlt He]. rewrite awrite_in_range by lia. cbn [returns].
    split; [by rewrite length_insert|]. intros i e Hi Hie.
    destruct (decide (i = Z.to_nat j)) as [->|Hne].
    + rewrite list_lookup_insert_eq in Hie by lia. by simplify_eq.
    + rewrite list_lookup_insert_ne in Hie by done. apply (He i e); [lia|done].
  - intros t [Hlt He]. cbn [returns interrupt_handlers interrupt_stacks vector_memory].
    split_and!; [|done|done|done]. exists t. split_and!; [done| |done].
    apply Forall_lookup. intros i e Hie. apply (He i e); [|done].
    apply lookup_lt_Some in Hie. lia.
Qed.

(** ** Drivers at start-up *)

(** The handlers of a longer list. *)
Lemma dispatch_app {T} (call : Z → device_t → T → outcome T) cause regs regs' s :
  dispatch call cause (regs ++ regs') s =
  let* s := dispatch call cause regs s in dispatch call cause regs' s.
Proof.
  revert s. induction regs as [|r regs IH]; intros s; simpl; [done|].
  destruct (_ =? 0); [apply IH|]. destruct (call _ _ s); simpl; [apply IH|done..].
Qed.

(** The objects of a driver lie one after the other. *)
Lemma stalloc_word st n :
  room st n → n mod 4 = 0 → free_area_start st mod 4 = 0 →
  ∃ st', stalloc n st = Done (free_area_start st, st') ∧ free_area_start st' = free_area_start st + n.
Proof.
  intros Hr Hn Hal. pose proof (stalloc_spec st n Hr Hal) as Hs.
  destruct (returns_inv _ _ Hs) as ([res st'] & E & -> & Hb & Hm). exists st'. split; [done|].
  pose proof (Z.div_mod (free_area_start st) 4). pose proof (Z.div_mod (free_area_start st') 4).
  pose proof (Z.div_mod n 4). lia.
Qed.

(** A handler registered for one of the six hardware lines runs on each interrupt
    of that line, after those registered before. *)
Lemma register_line_spec regs table dev handler line :
  table_holds regs table → Z.of_nat (length regs) < CONFIG_MAX_DEVICES → 0 ≤ line ≤ 5 →
  let mask := u32 (Z.shiftl 1 (line + 10)) in
  returns (interrupt_register mask handler dev table) (λ table',
    table_holds (regs ++ [Registration dev mask handler]) table' ∧
    ∀ T (call : Z → device_t → T → outcome T) cause s s1,
      Z.testbit cause (line + 10) = true → dispatch call cause regs s = Done s1 →
      run_handlers call cause table' s = call handler dev s1).
Proof.
  intros Ht Hlen Hline mask.
  assert (Hmask : mask = 2 ^ (line + 10) ∧ irq_ok mask).
  { unfold mask, irq_ok, u32. rewrite Z.shiftl_1_l.
    assert (line = 0 ∨ line = 1 ∨ line = 2 ∨ line = 3 ∨ line = 4 ∨ line = 5)
      as [->|[->|[->|[->|[->| ->]]]]] by lia; done. }
  destruct Hmask as [Hmask Hok].
  eapply returns_mono; [by apply interrupt_register_spec|]. intros table' Ht'. split; [done|].
  intros T call cause s s1 Hbit Hd. rewrite (run_handlers_spec _ _ _ _ _ Ht'), dispatch_app, Hd.
  cbn [outcome_bind dispatch r_irq r_handler r_device]. rewrite (proj2 (Z.eqb_neq _ _)).
  - by destruct (call _ dev s1).
  - intros E0. apply (f_equal (λ z, Z.testbit z (line + 10))) in E0.
    rewrite Z.land_spec, Hbit, Hmask, Z.pow2_bits_true, Z.testbit_0_l in E0 by lia. done.
Qed.
