(* ===== verification/Disk.v ===== *)
(** * The disk controller (drivers/mips32/_disk.h)

    The driver sees the controller through the registers of [disk_io_area_t].
    [DiskHw] is this interface: reading and writing each register, and the
    moment at which the controller has moved a block between the disk and
    memory.  [DiskHwSpec] is what the driver relies on: the controller is, for
    the commands the driver gives, the simple machine [controller].  Commands
    given in another state are left unspecified. *)

From S2P Require Import Prelude ByteMem Threads Semaphore PhysMem Devices Interrupts.

Definition DISK_COMMAND_READ : Z := 0x1.
Definition DISK_COMMAND_WRITE : Z := 0x2.
Definition DISK_COMMAND_RIRQ : Z := 0x3.
Definition DISK_COMMAND_WIRQ : Z := 0x4.
Definition DISK_COMMAND_BLOCKS : Z := 0x5.
Definition DISK_COMMAND_BLOCKSIZE : Z := 0x6.

Definition DISK_STATUS_RBUSY (status : Z) : Z := Z.land status 0x00000001.
Definition DISK_STATUS_WBUSY (status : Z) : Z := Z.land status 0x00000002.
Definition DISK_STATUS_RIRQ (status : Z) : Z := Z.land status 0x00000004.
Definition DISK_STATUS_WIRQ (status : Z) : Z := Z.land status 0x00000008.
Definition DISK_STATUS_ERRORS (status : Z) : Z := Z.land status 0xf8000000.

(** The registers; [hw_transfer] is the end of the transfer under way. *)
Class DiskHw (H : Type) := {
  io_status : H → Z;
  io_data : H → Z;
  io_command : Z → H → H;
  io_tsector : Z → H → H;
  io_dmaaddr : Z → H → H;
  hw_transfer : H → (Z → Z) → H * (Z → Z)
}.

(** ** The machine the driver relies on *)

(** A transfer: its direction, its sector and its address in memory. *)
Record transfer := Transfer { t_write : bool; t_sector : Z; t_addr : Z }.

#[global] Instance transfer_eq_dec : EqDecision transfer.
Proof. solve_decision. Defined.

Inductive disk_phase := Idle | Busy (t : transfer) | Finished (w : bool).

#[global] Instance disk_phase_eq_dec : EqDecision disk_phase.
Proof. solve_decision. Defined.

Record controller := Controller {
  c_phase : disk_phase;
  c_tsector : Z;
  c_dmaaddr : Z;
  c_data : Z;
  c_errors : Z;
  c_bsize : nat;
  c_memsize : Z;
  c_blocks : list (list Z)
}.

Definition set_phase (p : disk_phase) (e : Z) (c : controller) : controller :=
  Controller p (c_tsector c) (c_dmaaddr c) (c_data c) e (c_bsize c) (c_memsize c) (c_blocks c).

(** The transfer the registers describe, and whether the controller accepts it:
    the sector is on the disk and the block in memory. *)
Definition described (w : bool) (c : controller) : transfer :=
  Transfer w (c_tsector c) (c_dmaaddr c).
Definition accepts (bsize : nat) (memsize nblocks : Z) (t : transfer) : bool :=
  (0 <=? t_sector t) && (t_sector t <? nblocks) &&
  (0 <=? t_addr t) && (t_addr t + Z.of_nat bsize <=? memsize).

Definition start (w : bool) (c : controller) : option controller :=
  if decide (c_phase c = Idle) then
    if accepts (c_bsize c) (c_memsize c) (Z.of_nat (length (c_blocks c))) (described w c)
    then Some (set_phase (Busy (described w c)) 0 c) else None
  else None.

Definition reset_irq (w : bool) (c : controller) : option controller :=
  match c_phase c with
  | Idle => Some (set_phase Idle 0 c)
  | Finished w' => Some (set_phase (if bool_decide (w' = w) then Idle else Finished w') 0 c)
  | Busy _ => None
  end.

Definition set_data (d : Z) (c : controller) : controller :=
  Controller (c_phase c) (c_tsector c) (c_dmaaddr c) d (c_errors c) (c_bsize c) (c_memsize c)
    (c_blocks c).

Definition command (cmd : Z) (c : controller) : option controller :=
  if cmd =? DISK_COMMAND_READ then start false c
  else if cmd =? DISK_COMMAND_WRITE then start true c
  else if cmd =? DISK_COMMAND_RIRQ then reset_irq false c
  else if cmd =? DISK_COMMAND_WIRQ then reset_irq true c
  else if cmd =? DISK_COMMAND_BLOCKS then Some (set_data (Z.of_nat (length (c_blocks c))) c)
  else if cmd =? DISK_COMMAND_BLOCKSIZE then Some (set_data (Z.of_nat (c_bsize c)) c)
  else None.

(** What a transfer does to the blocks and to memory. *)
Definition run_transfer (bsize : nat) (t : transfer) (s : list (list Z) * (Z → Z))
    : list (list Z) * (Z → Z) :=
  let '(blocks, mem) := s in
  if t_write t then (<[Z.to_nat (t_sector t) := mem_slice (t_addr t) bsize mem]> blocks, mem)
  else (blocks, mem_write (t_addr t) (default [] (blocks !! Z.to_nat (t_sector t))) mem).

Definition set_blocks (b : list (list Z)) (c : controller) : controller :=
  Controller (c_phase c) (c_tsector c) (c_dmaaddr c) (c_data c) (c_errors c) (c_bsize c)
    (c_memsize c) b.

(** ** What the driver relies on *)
Class DiskHwSpec (H : Type) {hw : DiskHw H} := {
  hw_view : H → controller;
  hw_rbusy h : DISK_STATUS_RBUSY (io_status h) ≠ 0 ↔
    ∃ t, c_phase (hw_view h) = Busy t ∧ t_write t = false;
  hw_wbusy h : DISK_STATUS_WBUSY (io_status h) ≠ 0 ↔
    ∃ t, c_phase (hw_view h) = Busy t ∧ t_write t = true;
  hw_rirq h : DISK_STATUS_RIRQ (io_status h) ≠ 0 ↔ c_phase (hw_view h) = Finished false;
  hw_wirq h : DISK_STATUS_WIRQ (io_status h) ≠ 0 ↔ c_phase (hw_view h) = Finished true;
  hw_errors h : c_errors (hw_view h) = 0 → DISK_STATUS_ERRORS (io_status h) = 0;
  hw_data h : io_data h = c_data (hw_view h);
  hw_tsector s h : c_phase (hw_view h) = Idle → hw_view (io_tsector s h) =
    let c := hw_view h in
    Controller Idle s (c_dmaaddr c) (c_data c) (c_errors c) (c_bsize c) (c_memsize c) (c_blocks c);
  hw_dmaaddr a h : c_phase (hw_view h) = Idle → hw_view (io_dmaaddr a h) =
    let c := hw_view h in
    Controller Idle (c_tsector c) a (c_data c) (c_errors c) (c_bsize c) (c_memsize c) (c_blocks c);
  hw_command cmd h c : command cmd (hw_view h) = Some c → hw_view (io_command cmd h) = c;
  hw_transfers h mem t : c_phase (hw_view h) = Busy t →
    hw_view (fst (hw_transfer h mem)) =
      set_phase (Finished (t_write t)) 0
        (set_blocks (fst (run_transfer (c_bsize (hw_view h)) t (c_blocks (hw_view h), mem)))
           (hw_view h)) ∧
    snd (hw_transfer h mem) =
      snd (run_transfer (c_bsize (hw_view h)) t (c_blocks (hw_view h), mem))
}.

(** ** An instance: the machine itself, with a counter of its commands *)
Record demo_hw := DemoHw { d_ctl : controller; d_commands : nat }.

(** The errors the registers can show. *)
Definition demo_errors (c : controller) : Z := Z.land (c_errors c) 0xf8000000.

#[export] Instance demo_disk_hw : DiskHw demo_hw := {
  io_status h := Z.lor (demo_errors (d_ctl h))
    match c_phase (d_ctl h) with
    | Idle => 0
    | Busy t => if t_write t then 2 else 1
    | Finished w => if w then 8 else 4
    end;
  io_data h := c_data (d_ctl h);
  io_command cmd h := match command cmd (d_ctl h) with
    | Some c => DemoHw c (S (d_commands h))
    | None => DemoHw (set_phase (c_phase (d_ctl h)) 0x80000000 (d_ctl h)) (S (d_commands h))
    end;
  io_tsector s h := let c := d_ctl h in DemoHw
    (Controller (c_phase c) s (c_dmaaddr c) (c_data c) (c_errors c) (c_bsize c) (c_memsize c)
       (c_blocks c)) (d_commands h);
  io_dmaaddr a h := let c := d_ctl h in DemoHw
    (Controller (c_phase c) (c_tsector c) a (c_data c) (c_errors c) (c_bsize c) (c_memsize c)
       (c_blocks c)) (d_commands h);
  hw_transfer h mem := match c_phase (d_ctl h) with
    | Busy t => let c := d_ctl h in
        let r := run_transfer (c_bsize c) t (c_blocks c, mem) in
        (DemoHw (set_phase (Finished (t_write t)) 0 (set_blocks (fst r) c)) (d_commands h), snd r)
    | _ => (h, mem)
    end
}.

(** The bits of the status word. *)
Lemma demo_status_bits e f m :
  Z.land 0xf8000000 m = 0 → Z.land (Z.lor (Z.land e 0xf8000000) f) m = Z.land f m.
Proof. intros E. by rewrite Z.land_lor_distr_l, <- Z.land_assoc, E, Z.land_0_r, Z.lor_0_l. Qed.

#[local] Ltac demo_bit :=
  intros h; unfold DISK_STATUS_RBUSY, DISK_STATUS_WBUSY, DISK_STATUS_RIRQ, DISK_STATUS_WIRQ;
  cbn [io_status demo_disk_hw]; unfold demo_errors; rewrite demo_status_bits by done;
  destruct (c_phase (d_ctl h)) as [|[[] ? ?]|[]]; naive_solver.

#[export, refine] Instance demo_disk_hw_spec : DiskHwSpec demo_hw := {
  hw_view := d_ctl
}.
Proof.
  1-4: demo_bit.
  - intros h E. unfold DISK_STATUS_ERRORS. cbn [io_status demo_disk_hw]. unfold demo_errors. rewrite E.
    by destruct (c_phase (d_ctl h)) as [|[[] s a]|[]].
  - done.
  - intros s h E. simpl. by rewrite E.
  - intros a h E. simpl. by rewrite E.
  - intros cmd h c E. simpl. by rewrite E.
  - intros h mem t E. simpl. by rewrite E.
Defined.

(** ** The disk driver (drivers/mips32/disk.c, drivers/disksched.c, drivers/disk.h, drivers/gbd.h)

    Requests are objects in memory, designated by their addresses and linked
    through their [next] fields; 0 is NULL.  The driver runs in the kernel of
    Semaphore.v and on any controller ([DiskHw]).

    The code of [disk_submit_request] is cut at the two points where other code
    can run in between: before [semaphore_P], when interrupts are enabled again,
    and after it, when the caller may have slept. *)

Definition GBD_OPERATION_READ : Z := 0.
Definition GBD_OPERATION_WRITE : Z := 1.

Record gbd_request_t := Request {
  block : Z;
  buf : Z;
  sem : option Z;
  operation : Z;
  internal : Z;
  next : Z;
  return_value : Z
}.

Record disk_real_device_t := DiskReal { dslock : Z; request_queue : Z; request_served : Z }.

(** Generic block devices; the function pointers are addresses. *)
Record gbd_t := Gbd {
  gbd_device : Z;
  gbd_read_block : Z;
  gbd_write_block : Z;
  gbd_block_size : Z;
  gbd_total_blocks : Z
}.

(** The state the driver works on: the kernel, the requests in memory, the
    driver's data, the controller and the physical memory it reads and writes. *)
Record dstate (H : Type) := DState {
  skern : skernel;
  requests : gmap Z gbd_request_t;
  real : disk_real_device_t;
  io : H;
  memory : Z → Z
}.
Arguments DState {H}.
Arguments skern {H}.
Arguments requests {H}.
Arguments real {H}.
Arguments io {H}.
Arguments memory {H}.

Definition set_op (o : Z) (r : gbd_request_t) : gbd_request_t :=
  Request (block r) (buf r) (sem r) o (internal r) (next r) (return_value r).
Definition set_next_request (n : Z) (r : gbd_request_t) : gbd_request_t :=
  Request (block r) (buf r) (sem r) (operation r) (internal r) n (return_value r).
Definition set_sem (s : option Z) (r : gbd_request_t) : gbd_request_t :=
  Request (block r) (buf r) s (operation r) (internal r) (next r) (return_value r).
Definition set_return (v : Z) (r : gbd_request_t) : gbd_request_t :=
  Request (block r) (buf r) (sem r) (operation r) (internal r) (next r) v.

Section driver.
Context {H : Type} {hw : DiskHw H}.
Implicit Types d : dstate H.

Definition set_skern (k : skernel) d : dstate H := DState k (requests d) (real d) (io d) (memory d).
Definition set_real (r : disk_real_device_t) d : dstate H :=
  DState (skern d) (requests d) r (io d) (memory d).
Definition set_io (h : H) d : dstate H := DState (skern d) (requests d) (real d) h (memory d).
Definition set_dintr (b : bool) d : dstate H :=
  set_skern (SKernel (set_intr b (kern (skern d))) (sem_state (skern d))) d.
Definition dintr d : bool := intr (kern (skern d)).

Definition get_request (p : Z) d : outcome gbd_request_t :=
  match requests d !! p with Some r => Done r | None => Fault end.
Definition upd_request (p : Z) (f : gbd_request_t → gbd_request_t) d : outcome (dstate H) :=
  let* r := get_request p d in
  Done (DState (skern d) (<[p := f r]> (requests d)) (real d) (io d) (memory d)).

Definition acquire d : outcome (dstate H) :=
  let* l := spin (dslock (real d)) in
  Done (set_real (DiskReal l (request_queue (real d)) (request_served (real d))) d).
Definition release d : dstate H :=
  set_real (DiskReal 0 (request_queue (real d)) (request_served (real d))) d.
Definition set_queue (q : Z) d : dstate H :=
  set_real (DiskReal (dslock (real d)) q (request_served (real d))) d.
Definition set_served (p : Z) d : dstate H :=
  set_real (DiskReal (dslock (real d)) (request_queue (real d)) p) d.

(** drivers/disksched.c: the walk along the queue visits each request once. *)
Definition disksched_schedule (request : Z) d : outcome (dstate H) :=
  let q := request_queue (real d) in
  if negb (q =? 0) then
    let* q := while_loop (S (size (requests d))) (λ q,
      let* r := get_request q d in
      if negb (next r =? 0) then Done (inl (next r)) else Done (inr q)) q in
    upd_request q (set_next_request request) d
  else Done (set_queue request d).

Definition disk_next_request d : outcome (dstate H) :=
  kassert ((DISK_STATUS_RBUSY (io_status (io d)) =? 0)
           && (DISK_STATUS_WBUSY (io_status (io d)) =? 0)) ;*
  kassert (request_served (real d) =? 0) ;*
  let req := request_queue (real d) in
  if req =? 0 then Done d
  else
    let* r := get_request req d in
    let d := set_queue (next r) d in
    let* d := upd_request req (set_next_request 0) d in
    let d := set_served req d in
    let* r := get_request req d in
    let d := set_io (io_tsector (block r) (io d)) d in
    let d := set_io (io_dmaaddr (u32 (buf r)) (io d)) d in
    let* d :=
      if operation r =? GBD_OPERATION_READ then Done (set_io (io_command DISK_COMMAND_READ (io d)) d)
      else if operation r =? GBD_OPERATION_WRITE then
        Done (set_io (io_command DISK_COMMAND_WRITE (io d)) d)
      else Panic "disk_next_request: Unknown gbd operation." in
    if negb (DISK_STATUS_ERRORS (io_status (io d)) =? 0) then Panic "disk error occured"
    else Done d.

Definition disk_interrupt_handle (base : Z) d : outcome (dstate H) :=
  let* d := acquire d in
  if (DISK_STATUS_RIRQ (io_status (io d)) =? 0) && (DISK_STATUS_WIRQ (io_status (io d)) =? 0)
  then Done (release d)
  else
    let d := set_io (io_command DISK_COMMAND_WIRQ (io d)) d in
    let d := set_io (io_command DISK_COMMAND_RIRQ (io d)) d in
    let p := request_served (real d) in
    kassert (negb (p =? 0)) ;*
    let* d := upd_request p (set_return 0) d in
    let* r := get_request p d in
    match sem r with
    | None => Fault
    | Some i =>
        let* k := semaphore_V base i (skern d) in
        let d := set_served 0 (set_skern k d) in
        let* d := disk_next_request d in
        Done (release d)
    end.

(** The part of [disk_submit_request] between disabling and enabling interrupts. *)
Definition disk_enqueue (p : Z) d : outcome (dstate H) :=
  let intr_status := dintr d in
  let d := set_dintr false d in
  let* d := acquire d in
  let* d := disksched_schedule p d in
  let* d := if request_served (real d) =? 0 then disk_next_request d else Done d in
  let d := release d in
  Done (set_dintr intr_status d).

(** [disk_submit_request] up to the point where interrupts are enabled again:
    [inl] is an early return, [inr] tells whether the call has to wait. *)
Definition disk_submit_queue (cpu p : Z) d : outcome ((Z + bool) * dstate H) :=
  let* d := upd_request p (λ r,
    Request (block r) (buf r) (sem r) (operation r) 0 0 (-1)) d in
  let* r := get_request p d in
  let sem_null := bool_decide (sem r = None) in
  let* '(ok, d) :=
    if sem_null then
      let* '(s, k) := semaphore_create cpu 0 (skern d) in
      let* d := upd_request p (set_sem s) (set_skern k d) in
      Done (bool_decide (is_Some s), d)
    else Done (true, d) in
  if negb ok then Done (inl 0, d)
  else let* d := disk_enqueue p d in Done (inr sem_null, d).

(** [semaphore_P(request->sem)]: [true] if the caller went to sleep. *)
Definition disk_submit_wait (base cpu rnd p : Z) d : outcome (bool * dstate H) :=
  let* r := get_request p d in
  match sem r with
  | None => Fault
  | Some i =>
      let* '(slept, k) := semaphore_P base cpu rnd i (skern d) in
      Done (slept, set_skern k d)
  end.

(** The rest of a synchronous request, once [semaphore_P] has returned. *)
Definition disk_submit_finish (p : Z) d : outcome (Z * dstate H) :=
  let* r := get_request p d in
  match sem r with
  | None => Fault
  | Some i =>
      let* k := semaphore_destroy i (skern d) in
      let* d := upd_request p (set_sem None) (set_skern k d) in
      let* r := get_request p d in
      Done (if return_value r =? 0 then 1 else 0, d)
  end.

(** The call without anything in between: [None] if the caller sleeps, which
    [disk_submit_finish] ends when it is woken up. *)
Definition disk_submit_request (base cpu rnd p : Z) d : outcome (option Z * dstate H) :=
  let* '(r, d) := disk_submit_queue cpu p d in
  match r with
  | inl v => Done (Some v, d)
  | inr false => Done (Some 1, d)
  | inr true =>
      let* '(slept, d) := disk_submit_wait base cpu rnd p d in
      if slept : bool then Done (None, d)
      else let* '(v, d) := disk_submit_finish p d in Done (Some v, d)
  end.

Definition disk_read_block (base cpu rnd p : Z) d : outcome (option Z * dstate H) :=
  let* d := upd_request p (set_op GBD_OPERATION_READ) d in
  disk_submit_request base cpu rnd p d.

Definition disk_write_block (base cpu rnd p : Z) d : outcome (option Z * dstate H) :=
  let* d := upd_request p (set_op GBD_OPERATION_WRITE) d in
  disk_submit_request base cpu rnd p d.

(** A command whose answer is in the data register. *)
Definition disk_block_size d : outcome (Z * dstate H) :=
  let intr_status := dintr d in
  let d := set_dintr false d in
  let* d := acquire d in
  let d := set_io (io_command DISK_COMMAND_BLOCKSIZE (io d)) d in
  let ret := io_data (io d) in
  let d := release d in
  Done (ret, set_dintr intr_status d).

Definition disk_total_blocks d : outcome (Z * dstate H) :=
  let intr_status := dintr d in
  let d := set_dintr false d in
  let* d := acquire d in
  let d := set_io (io_command DISK_COMMAND_BLOCKS (io d)) d in
  let ret := io_data (io d) in
  let d := release d in
  Done (ret, set_dintr intr_status d).
End driver.

(** The controller finishes the transfer under way. *)
Definition disk_transfer {H} {hw : DiskHw H} (d : dstate H) : dstate H :=
  let '(h, m) := hw_transfer (io d) (memory d) in
  DState (skern d) (requests d) (real d) h m.

(** A program or a driver stores bytes into memory. *)
Definition store {H} (a : Z) (bytes : list Z) (d : dstate H) : dstate H :=
  DState (skern d) (requests d) (real d) (io d) (mem_write a bytes (memory d)).

#[export] Instance dstate_has_kernel {H} : HasKernel (dstate H) := {
  get_kernel d := kern (skern d);
  put_kernel k d := DState (SKernel k (sem_state (skern d))) (requests d) (real d) (io d) (memory d);
  get_put_kernel _ _ := eq_refl }.

(** ** Start-up *)
Definition sizeof_gbd : Z := 20.
Definition sizeof_disk_real_device : Z := 12.

(** The addresses of the driver's functions. *)
Record disk_code := DiskCode {
  a_interrupt_handle : Z;
  a_read_block : Z;
  a_write_block : Z;
  a_block_size : Z;
  a_total_blocks : Z
}.

(** What [disk_init] sets up; a shift by more than 31 places is undefined. *)
Definition disk_init (code : disk_code) (desc : Z) (io_desc : io_descriptor_t) (st : stalloc_t)
    (table : list interrupt_entry_t)
    : outcome (device_t * gbd_t * disk_real_device_t * stalloc_t * list interrupt_entry_t) :=
  let* '(dev, st) := stalloc sizeof_device st in
  let* '(gbd, st) := stalloc sizeof_gbd st in
  let* '(real_dev, st) := stalloc sizeof_disk_real_device st in
  if (dev =? 0) || (gbd =? 0) || (real_dev =? 0)
  then Panic "Could not allocate memory for disk driver."
  else
    let device := Device real_dev gbd desc (io_area_base io_desc) (io_type io_desc) in
    let g := Gbd dev (a_read_block code) (a_write_block code) (a_block_size code)
               (a_total_blocks code) in
    let r := DiskReal 0 0 0 in
    let shift := u32 (io_irq io_desc + 10) in
    if 32 <=? shift then Fault
    else
      let irq_mask := u32 (Z.shiftl 1 shift) in
      let* table := interrupt_register irq_mask (a_interrupt_handle code) device table in
      Done (device, g, r, st, table).
