(* ===== verification/DiskSpec.v ===== *)
(** * The disk as a queue: specification of the driver

    The linked list of requests, the abstract disk, and the facts about requests
    and semaphores that relate them, with their preservation. *)


From S2P Require Import Prelude ByteMem Threads Semaphore Disk.

(** ** The queue of requests (drivers/disksched.c)

    [linked R q l]: in the requests [R] the list that starts at [q] and follows
    the [next] fields is [l].  Requests that differ in their [next] fields only
    are [≈]: everything else about them survives the queue operations. *)

Fixpoint linked (R : gmap Z gbd_request_t) (q : Z) (l : list Z) : Prop :=
  match l with
  | [] => q = 0
  | p :: l => q = p ∧ p ≠ 0 ∧ ∃ r, R !! p = Some r ∧ linked R (next r) l
  end.

(** A request without its link, and the table of requests seen so. *)
Definition unlink (r : gbd_request_t) : gbd_request_t := set_next_request 0 r.

Definition same_but_next (R R' : gmap Z gbd_request_t) : Prop :=
  ∀ x, unlink <$> R !! x = unlink <$> R' !! x.

#[global] Instance same_but_next_equiv : Equivalence same_but_next.
Proof.
  split.
  - intros R x. done.
  - intros R R' E x. done.
  - intros R1 R2 R3 E1 E2 x. by rewrite E1.
Qed.

Lemma same_lookup R R' x r :
  same_but_next R R' → R !! x = Some r → ∃ r', R' !! x = Some r' ∧ unlink r' = unlink r.
Proof.
  intros E Hr. specialize (E x). rewrite Hr in E. destruct (R' !! x) as [r'|] eqn:Er; [|done].
  apply (inj Some) in E. eauto.
Qed.

#[global] Instance insert_proper p r :
  Proper (same_but_next ==> same_but_next) (insert p r : gmap Z gbd_request_t → _).
Proof.
  intros R R' E x. destruct (decide (x = p)) as [->|Hne].
  - by rewrite !lookup_insert_eq.
  - by rewrite !lookup_insert_ne by done.
Qed.

Lemma same_insert_link R p r n :
  R !! p = Some r → same_but_next (<[p := set_next_request n r]> R) R.
Proof.
  intros Hr x. destruct (decide (x = p)) as [->|Hne].
  - by rewrite lookup_insert_eq, Hr.
  - by rewrite lookup_insert_ne by done.
Qed.

Lemma linked_insert_other R q l p r :
  p ∉ l → linked R q l → linked (<[p := r]> R) q l.
Proof.
  revert q. induction l as [|x l IH]; intros q Hp; simpl; [done|].
  apply not_elem_of_cons in Hp as [Hne Hp]. intros (-> & Hx & r' & Hr & Hl).
  split_and!; [done|done|]. exists r'. rewrite lookup_insert_ne by done. eauto.
Qed.

(** Changes that keep the links. *)
Lemma linked_insert_same R q l p r r' :
  R !! p = Some r → next r' = next r → linked R q l → linked (<[p := r']> R) q l.
Proof.
  intros Hp Hn. revert q. induction l as [|x l IH]; intros q; simpl; [done|].
  intros (-> & Hx & rx & Hr & Hl). split_and!; [done|done|]. destruct (decide (x = p)) as [->|Hne].
  - exists r'. rewrite lookup_insert_eq. split; [done|]. rewrite Hn. apply IH. congruence.
  - exists rx. rewrite lookup_insert_ne by done. eauto.
Qed.

Lemma linked_elem R q l p : linked R q l → p ∈ l → p ≠ 0 ∧ is_Some (R !! p).
Proof.
  revert q. induction l as [|x l IH]; intros q; simpl; [set_solver|].
  intros (-> & Hx & rx & Hr & Hl) [->|Hin]%elem_of_cons; [eauto|by eapply IH].
Qed.

Lemma linked_length R q l : linked R q l → NoDup l → (length l ≤ size R)%nat.
Proof.
  intros Hl Hnd. rewrite <- (size_list_to_set (C := gset Z) l) by done. rewrite <- size_dom.
  apply subseteq_size. intros x Hx%elem_of_list_to_set. apply elem_of_dom.
  by eapply linked_elem.
Qed.

(** The last element of a queue is linked to one more request. *)
Lemma linked_snoc R q l z p r rp :
  linked R q (l ++ [z]) → NoDup (l ++ [z]) → R !! z = Some r →
  p ≠ 0 → p ∉ l ++ [z] → R !! p = Some rp → next rp = 0 →
  linked (<[z := set_next_request p r]> R) q (l ++ [z; p]).
Proof.
  intros Hl Hnd Hz Hp0 Hp Hrp Hn. revert q Hl. induction l as [|x l IH]; intros q; simpl in *.
  - intros (-> & Hz0 & _). split_and!; [done|done|]. exists (set_next_request p r).
    rewrite lookup_insert_eq. split_and!; [done|done|done|]. exists rp.
    rewrite lookup_insert_ne by set_solver. done.
  - intros (-> & Hx & rx & Hr & Hl). apply NoDup_cons in Hnd as [Hx' Hnd].
    split_and!; [done|done|]. exists rx. rewrite lookup_insert_ne by set_solver.
    split; [done|]. apply IH; [done|set_solver|done].
Qed.

Section schedule.
Context {H : Type}.
Implicit Types d : dstate H.

(** The walk stops at the last request. *)
Lemma last_request d q l z fuel :
  linked (requests d) q (l ++ [z]) → (length l < fuel)%nat →
  while_loop fuel (λ q, let* r := get_request q d in
    if negb (next r =? 0) then Done (inl (next r)) else Done (inr q)) q = Done z.
Proof.
  revert q fuel. induction l as [|x l IH]; intros q fuel Hl Hf; destruct fuel as [|fuel]; try lia;
    simpl in Hl; cbn [while_loop]; destruct Hl as (-> & Hx & r & Hr & Hl);
    unfold get_request; rewrite Hr; cbn [outcome_bind].
  - simpl in Hl. by rewrite Hl.
  - destruct (Z.eqb_spec (next r) 0) as [E|Hne]; cbn [negb].
    + exfalso. destruct l; simpl in Hl; naive_solver.
    + apply IH; [done|simpl in Hf; lia].
Qed.

Lemma disksched_schedule_spec d l p r :
  linked (requests d) (request_queue (real d)) l → NoDup l → p ∉ l → p ≠ 0 →
  requests d !! p = Some r → next r = 0 →
  ∃ q R, disksched_schedule p d =
      Done (DState (skern d) R (DiskReal (dslock (real d)) q (request_served (real d))) (io d)
        (memory d)) ∧
    linked R q (l ++ [p]) ∧ same_but_next R (requests d).
Proof.
  intros Hl Hnd Hp Hp0 Hr Hn. unfold disksched_schedule. pose proof (linked_length _ _ _ Hl Hnd) as Hlen.
  destruct l as [|z l _] using rev_ind.
  - simpl in Hl. rewrite Hl. cbn [Z.eqb negb]. exists p, (requests d). split_and!; [done| |done].
    split_and!; [done|done|]. exists r. by rewrite Hr.
  - destruct (linked_elem _ _ _ z Hl) as [Hz0 [rz Hz]]; [set_solver|].
    rewrite (proj2 (Z.eqb_neq _ _)).
    2: { destruct l; simpl in Hl; naive_solver. }
    cbn [negb]. rewrite length_app in Hlen. simpl in Hlen.
    rewrite (last_request d _ l z) by (done || lia). cbn [outcome_bind].
    unfold upd_request, get_request. rewrite Hz. cbn [outcome_bind].
    exists (request_queue (real d)), (<[z := set_next_request p rz]> (requests d)). split_and!.
    + by destruct d as [k R [s q v] h m].
    + rewrite <- app_assoc. by apply (linked_snoc _ _ l z p rz r).
    + by apply same_insert_link.
Qed.
End schedule.

(** ** The disk as a queue (specification of drivers/mips32/disk.c)

    [adisk] is the disk its clients rely on: a queue of transfers, the first of
    which is under way, and the contents of the disk and of memory.  [drep]
    relates it to the state of the driver: the linked list of requests, the
    controller, and the semaphores on which clients are told that a request is
    done. *)

(** [a_sync] are the synchronous requests that have not returned, with whether
    their [semaphore_P] has been called. *)
Record adisk := ADisk {
  a_queue : list (Z * transfer);
  a_finished : bool;
  a_sync : gmap Z bool;
  a_blocks : list (list Z);
  a_memory : Z → Z
}.

Inductive event :=
| ESubmit (p : Z) (t : transfer) (sync : bool)
| ETransfer
| EComplete
| EWait (p : Z)
| EFinish (p : Z)
| EStore (a : Z) (bytes : list Z).

(** What an event does to the abstract disk, where it can occur. *)
Definition astep (bsize : nat) (e : event) (a : adisk) : option adisk :=
  match e with
  | ESubmit p t sync =>
      Some (ADisk (a_queue a ++ [(p, t)]) (a_finished a)
        (if sync then <[p := false]> (a_sync a) else a_sync a) (a_blocks a) (a_memory a))
  | ETransfer =>
      match a_queue a with
      | (_, t) :: _ =>
          if a_finished a then None
          else let s := run_transfer bsize t (a_blocks a, a_memory a) in
               Some (ADisk (a_queue a) true (a_sync a) (fst s) (snd s))
      | [] => None
      end
  | EComplete =>
      match a_queue a with
      | _ :: q =>
          if a_finished a then Some (ADisk q false (a_sync a) (a_blocks a) (a_memory a)) else None
      | [] => None
      end
  | EWait p => Some (ADisk (a_queue a) (a_finished a) (<[p := true]> (a_sync a)) (a_blocks a) (a_memory a))
  | EFinish p => Some (ADisk (a_queue a) (a_finished a) (delete p (a_sync a)) (a_blocks a) (a_memory a))
  | EStore x bytes =>
      Some (ADisk (a_queue a) (a_finished a) (a_sync a) (a_blocks a) (mem_write x bytes (a_memory a)))
  end.

Fixpoint aexec (bsize : nat) (es : list event) (a : adisk) : option adisk :=
  match es with
  | [] => Some a
  | e :: es => astep bsize e a ≫= aexec bsize es
  end.

(** ** The requests and their semaphores *)

(** Requests without their links. *)
Definition unlinked (R : gmap Z gbd_request_t) : gmap Z gbd_request_t := unlink <$> R.

Lemma same_unlinked R R' : same_but_next R R' ↔ unlinked R = unlinked R'.
Proof.
  unfold unlinked. split.
  - intros E. apply map_eq. intros x. rewrite !lookup_fmap. apply E.
  - intros E x. by rewrite <- !lookup_fmap, E.
Qed.

Lemma unlinked_lookup R p r : R !! p = Some r → unlinked R !! p = Some (unlink r).
Proof. intros Hr. unfold unlinked. by rewrite lookup_fmap, Hr. Qed.

Lemma unlinked_inv R p u :
  unlinked R !! p = Some u → ∃ r, R !! p = Some r ∧ u = unlink r.
Proof. unfold unlinked. rewrite lookup_fmap. destruct (R !! p); intros; simplify_eq/=; eauto. Qed.

Lemma unlinked_insert R p r : unlinked (<[p := r]> R) = <[p := unlink r]> (unlinked R).
Proof. apply fmap_insert. Qed.

(** The transfer a request asks for. *)
Definition asks (t : transfer) (r : gbd_request_t) : Prop :=
  operation r = (if t_write t then GBD_OPERATION_WRITE else GBD_OPERATION_READ) ∧
  block r = t_sector t ∧ u32 (buf r) = t_addr t.

(** Semaphore [i] is in use. *)
Definition row (T : list semaphore_t) (i : Z) (x : semaphore_t) : Prop :=
  0 ≤ i ∧ T !! Z.to_nat i = Some x ∧ creator x ≠ -1.

Lemma row_fun T i x y : row T i x → row T i y → x = y.
Proof. intros (_ & Hx & _) (_ & Hy & _). congruence. Qed.

Lemma row_insert_eq T i x y : row T i x → creator y ≠ -1 → row (<[Z.to_nat i := y]> T) i y.
Proof. intros (? & Hx & _) ?. split_and!; [done| |done]. apply list_lookup_insert_eq. by eapply lookup_lt_Some. Qed.

Lemma row_insert_ne T i j x y : 0 ≤ i → j ≠ i → row T j x ↔ row (<[Z.to_nat i := y]> T) j x.
Proof.
  intros Hi Hne. unfold row. split; intros (? & Hx & ?); split_and!; try done.
  - by rewrite list_lookup_insert_ne by lia.
  - by rewrite list_lookup_insert_ne in Hx by lia.
Qed.

Definition sem_of (U : gmap Z gbd_request_t) (p : Z) : option Z := U !! p ≫= sem.

(** The requests of the queue that signal semaphore [i]. *)
Definition pending (U : gmap Z gbd_request_t) (q : list Z) (i : Z) : nat :=
  length (List.filter (λ p, bool_decide (sem_of U p = Some i)) q).

Definition queued (a : adisk) (p : Z) : Prop := p ∈ (a_queue a).*1.

#[global] Instance queued_dec a p : Decision (queued a p).
Proof. unfold queued. apply _. Defined.

(** The requests [U] and the semaphore table [T] are those of [a]. *)
Record rfacts (accepted : transfer → bool) (U : gmap Z gbd_request_t) (T : list semaphore_t) (a : adisk)
    : Prop := {
  rf_null : U !! 0 = None;
  rf_nodup : NoDup (a_queue a).*1;
  rf_reqs : ∀ p t, (p, t) ∈ a_queue a →
    ∃ r i x, U !! p = Some r ∧ asks t r ∧ accepted t = true ∧ return_value r = -1 ∧
      sem r = Some i ∧ row T i x;
  rf_sync : ∀ p w, a_sync a !! p = Some w →
    ∃ r i x, U !! p = Some r ∧ sem r = Some i ∧ row T i x ∧
      return_value r = (if decide (queued a p) then -1 else 0) ∧
      value x = (if decide (queued a p) then 0 else 1) - Z.b2z w;
  rf_private : ∀ p w p', a_sync a !! p = Some w → p' ≠ p →
    queued a p' ∨ is_Some (a_sync a !! p') → sem_of U p ≠ sem_of U p';
  rf_bound : ∀ i x, row T i x →
    value x + Z.of_nat (pending U (a_queue a).*1 i) < 2 ^ 31 - 1
}.

Lemma pending_agree U U' q i :
  (∀ p, p ∈ q → sem_of U' p = sem_of U p) → pending U' q i = pending U q i.
Proof.
  intros H. unfold pending. induction q as [|p q IH]; simpl; [done|].
  rewrite H by set_solver. assert (E : ∀ p, p ∈ q → sem_of U' p = sem_of U p) by set_solver.
  destruct (bool_decide _); simpl; by rewrite IH.
Qed.

Lemma pending_app U q q' i : pending U (q ++ q') i = (pending U q i + pending U q' i)%nat.
Proof. unfold pending. by rewrite List.filter_app, length_app. Qed.

Lemma pending_cons U p q i :
  pending U (p :: q) i = ((if decide (sem_of U p = Some i) then 1 else 0) + pending U q i)%nat.
Proof.
  unfold pending. simpl. destruct (decide _); [rewrite bool_decide_eq_true_2 by done|
    rewrite bool_decide_eq_false_2 by done]; done.
Qed.

Lemma sem_of_insert_ne U p p' r : p' ≠ p → sem_of (<[p := r]> U) p' = sem_of U p'.
Proof. intros. unfold sem_of. by rewrite lookup_insert_ne by done. Qed.

Lemma sem_of_insert U p r : sem_of (<[p := r]> U) p = sem r.
Proof. unfold sem_of. by rewrite lookup_insert_eq. Qed.

Lemma sem_of_lookup U p r : U !! p = Some r → sem_of U p = sem r.
Proof. intros Hr. unfold sem_of. by rewrite Hr. Qed.

Lemma sem_of_same U p r r' p' :
  U !! p = Some r → sem r' = sem r → sem_of (<[p := r']> U) p' = sem_of U p'.
Proof.
  intros Hr E. destruct (decide (p' = p)) as [->|Hne]; [|by apply sem_of_insert_ne].
  by rewrite sem_of_insert, E, (sem_of_lookup _ _ _ Hr).
Qed.

(** ** The requests of the disk driver across its operations

    Each operation of the driver keeps [rfacts]: what is known of the requests
    and of their semaphores.  The lemmas are about the tables only. *)

Section facts.
Context (acc : transfer → bool).
Implicit Types (U : gmap Z gbd_request_t) (T : list semaphore_t) (q : list (Z * transfer)).

Lemma pending_none U (q : list Z) i :
  (∀ p, p ∈ q → sem_of U p ≠ Some i) → pending U q i = 0%nat.
Proof.
  unfold pending. induction q as [|p q IH]; intros Hq; simpl; [done|].
  rewrite bool_decide_eq_false_2 by (apply Hq; by left). apply IH.
  intros p' Hp'. apply Hq. by right.
Qed.

Lemma rfacts_head U T p t q f s b m :
  rfacts acc U T (ADisk ((p, t) :: q) f s b m) →
  ∃ r i x, U !! p = Some r ∧ asks t r ∧ acc t = true ∧ sem r = Some i ∧ row T i x ∧
    value x < 2 ^ 31 - 2.
Proof.
  intros F. destruct (rf_reqs _ _ _ _ F p t) as (r & i & x & Hr & Ha & Hacc & _ & Hs & Hrow); [by left|].
  exists r, i, x. split_and!; try done. pose proof (rf_bound _ _ _ _ F i x Hrow) as Hb. cbn [a_queue] in Hb.
  rewrite fmap_cons, (pending_cons _ p), decide_True in Hb by (by rewrite (sem_of_lookup _ _ _ Hr)). lia.
Qed.

(** The first request is done. *)
Lemma rfacts_complete U T p t q f f' s b b' m m' r i x :
  rfacts acc U T (ADisk ((p, t) :: q) f s b m) →
  U !! p = Some r → sem r = Some i → row T i x →
  rfacts acc (<[p := set_return 0 r]> U) (<[Z.to_nat i := Sem 0 (value x + 1) (creator x)]> T)
    (ADisk q f' s b' m').
Proof.
  intros F Hr Hs Hrow. pose proof (rf_nodup _ _ _ _ F) as Hnd. cbn [a_queue] in Hnd. rewrite fmap_cons in Hnd.
  apply NoDup_cons in Hnd as [Hp Hnd].
  assert (Hsem : ∀ p', sem_of (<[p := set_return 0 r]> U) p' = sem_of U p')
    by (intros; by eapply sem_of_same).
  pose proof Hrow as (Hi & _ & Hc).
  assert (Hrow' : row (<[Z.to_nat i := Sem 0 (value x + 1) (creator x)]> T) i
    (Sem 0 (value x + 1) (creator x))) by (by eapply row_insert_eq).
  split; simpl.
  - rewrite lookup_insert_ne; [apply F|]. intros ->. pose proof (rf_null _ _ _ _ F). congruence.
  - done.
  - intros p' t' Hin. destruct (rf_reqs _ _ _ _ F p' t') as (r' & i' & x' & Hr' & ? & ? & ? & ? & ?); [by right|].
    assert (p' ≠ p) by (intros ->; apply Hp, list_elem_of_fmap; by exists (p, t')).
    destruct (decide (i' = i)) as [->|Hne].
    + exists r', i, (Sem 0 (value x + 1) (creator x)). by rewrite lookup_insert_ne.
    + exists r', i', x'. rewrite lookup_insert_ne by done. split_and!; try done. by apply row_insert_ne.
  - intros p' w Hw. destruct (rf_sync _ _ _ _ F p' w Hw) as (r' & i' & x' & Hr' & Hs' & Hrow2 & Hret & Hv).
    unfold queued in *. simpl in *. destruct (decide (p' = p)) as [->|Hne].
    + assert (r' = r) as -> by congruence. assert (i' = i) as -> by congruence.
      rewrite (row_fun _ _ _ _ Hrow2 Hrow) in Hv. rewrite decide_True in Hv by (by left).
      exists (set_return 0 r), i, (Sem 0 (value x + 1) (creator x)).
      rewrite lookup_insert_eq, !decide_False by done. split_and!; try done. simpl. lia.
    + assert (i' ≠ i).
      { intros ->. apply (rf_private _ _ _ _ F p' w p Hw); [done|left; by left|].
        by rewrite (sem_of_lookup _ _ _ Hr'), (sem_of_lookup _ _ _ Hr), Hs, Hs'. }
      exists r', i', x'. rewrite lookup_insert_ne by done. split_and!; try done.
      * by apply row_insert_ne.
      * rewrite Hret. apply decide_ext. set_solver.
      * rewrite Hv. f_equal. apply decide_ext. set_solver.
  - intros p' w p'' Hw Hne Hq. rewrite !Hsem. apply (rf_private _ _ _ _ F p' w p'' Hw Hne).
    destruct Hq as [Hq|Hq]; [left; by right|by right].
  - intros j y Hy. rewrite (pending_agree U) by (intros; apply Hsem).
    destruct (decide (j = i)) as [->|Hne].
    + rewrite (row_fun _ _ _ _ Hy Hrow'). pose proof (rf_bound _ _ _ _ F i x Hrow) as Hb. cbn [a_queue] in Hb.
      rewrite fmap_cons, (pending_cons _ p), decide_True in Hb by (by rewrite (sem_of_lookup _ _ _ Hr)). simpl. lia.
    + apply row_insert_ne in Hy; [|done..]. pose proof (rf_bound _ _ _ _ F j y Hy) as Hb. cbn [a_queue] in Hb.
      rewrite fmap_cons, (pending_cons _ p), decide_False in Hb; [lia|].
      rewrite (sem_of_lookup _ _ _ Hr). congruence.
Qed.

(** Changes of the semaphore table that do not disturb the requests: the
    semaphores of synchronous requests stay as they are, the others stay in use,
    and no counter gets near its bound. *)
Definition sem_frame U T T' (a : adisk) : Prop :=
  (∀ p w i x, a_sync a !! p = Some w → sem_of U p = Some i → row T i x → row T' i x) ∧
  (∀ p i x, queued a p → sem_of U p = Some i → row T i x → ∃ x', row T' i x') ∧
  (∀ i x, row T' i x → value x + Z.of_nat (pending U (a_queue a).*1 i) < 2 ^ 31 - 1).

Lemma rfacts_frame U T T' a : rfacts acc U T a → sem_frame U T T' a → rfacts acc U T' a.
Proof.
  intros F (Hsync & Hq & Hb). split; try apply F; [| |done].
  - intros p t Hin. destruct (rf_reqs _ _ _ _ F p t Hin) as (r & i & x & Hr & ? & ? & ? & Hs & Hrow).
    destruct (Hq p i x) as [x' Hx']; [apply list_elem_of_fmap; by exists (p, t)| |done|].
    { by rewrite (sem_of_lookup _ _ _ Hr). }
    by exists r, i, x'.
  - intros p w Hw. destruct (rf_sync _ _ _ _ F p w Hw) as (r & i & x & Hr & Hs & Hrow & ? & ?).
    exists r, i, x. split_and!; try done. apply (Hsync p w i x); try done.
    by rewrite (sem_of_lookup _ _ _ Hr).
Qed.

(** A new request, with the semaphore it is given. *)
Lemma rfacts_submit U T q f f' s b b' m m' p t r i x (sync : bool) :
  rfacts acc U T (ADisk q f s b m) →
  p ≠ 0 → ¬ queued (ADisk q f s b m) p → s !! p = None →
  asks t r → acc t = true → return_value r = -1 → sem r = Some i → row T i x →
  (∀ p' w, s !! p' = Some w → sem_of U p' ≠ Some i) →
  (if sync then value x = 0 ∧ ∀ p', queued (ADisk q f s b m) p' → sem_of U p' ≠ Some i
   else value x + Z.of_nat (pending U q.*1 i) < 2 ^ 31 - 2) →
  rfacts acc (<[p := r]> U) T
    (ADisk (q ++ [(p, t)]) f' (if sync then <[p := false]> s else s) b' m').
Proof.
  intros F Hp0 Hp Hps Ha Hacc Hret Hs Hrow Hpriv Hsy.
  assert (Hsem : ∀ p', p' ≠ p → sem_of (<[p := r]> U) p' = sem_of U p')
    by (intros; by apply sem_of_insert_ne).
  assert (Hsp : sem_of (<[p := r]> U) p = Some i) by (by rewrite sem_of_insert).
  assert (Hqd : ∀ p' s', queued (ADisk (q ++ [(p, t)]) f' s' b' m') p' ↔
    queued (ADisk q f s b m) p' ∨ p' = p).
  { intros p' s'. unfold queued. simpl. rewrite fmap_app. set_solver. }
  assert (Hpend : ∀ j, pending (<[p := r]> U) (q ++ [(p, t)]).*1 j =
    (pending U q.*1 j + if decide (i = j) then 1 else 0)%nat).
  { intros j. rewrite fmap_app, pending_app. simpl. rewrite pending_cons, Hsp.
    rewrite (pending_agree U).
    - destruct (decide (i = j)), (decide (Some i = Some j)); try done; congruence.
    - intros p' Hp'. apply Hsem. intros ->. done. }
  assert (Hsy0 : sync = true → ∀ j, i = j → pending U q.*1 j = 0%nat).
  { intros -> j <-. apply pending_none, Hsy. }
  split; simpl.
  - rewrite lookup_insert_ne by done. apply F.
  - rewrite fmap_app. apply NoDup_app. split_and!; [apply F| |apply NoDup_singleton].
    intros y Hy ->%list_elem_of_singleton. by apply Hp.
  - intros p' t' [Hin|[= -> ->]%list_elem_of_singleton]%elem_of_app.
    + destruct (rf_reqs _ _ _ _ F p' t' Hin) as (r' & i' & x' & ?).
      exists r', i', x'. rewrite lookup_insert_ne; [done|]. intros ->. apply Hp.
      apply list_elem_of_fmap. by exists (p', t').
    + exists r, i, x. rewrite lookup_insert_eq. done.
  - intros p' w Hw. rewrite !(decide_ext _ _ _ _ (Hqd p' _)).
    destruct (decide (p' = p)) as [->|Hne].
    + destruct sync; [|congruence]. rewrite lookup_insert_eq in Hw. injection Hw as <-.
      exists r, i, x. rewrite lookup_insert_eq, !decide_True by (by right). split_and!; try done.
      simpl. lia.
    + assert (Hw' : s !! p' = Some w) by (destruct sync; [by rewrite lookup_insert_ne in Hw by done|done]).
      destruct (rf_sync _ _ _ _ F p' w Hw') as (r' & i' & x' & ? & ? & ? & Hr2 & Hv2).
      exists r', i', x'. rewrite lookup_insert_ne by done. split_and!; try done.
      * rewrite Hr2. apply decide_ext. naive_solver.
      * rewrite Hv2. f_equal. apply decide_ext. naive_solver.
  - intros p' w p'' Hw Hne Hq. rewrite Hqd in Hq.
    assert (Hsy' : p'' = p ∨ (queued (ADisk q f s b m) p'' ∨ is_Some (s !! p''))).
    { destruct (decide (p'' = p)); [by left|right]. destruct Hq as [[?|?]|Hq]; [by left|done|right].
      destruct sync; [by rewrite lookup_insert_ne in Hq by done|done]. }
    destruct (decide (p' = p)) as [->|Hne'].
    + rewrite Hsp, Hsem by done. destruct Hsy' as [->|Hsy']; [done|]. intros E.
      destruct Hsy' as [Hq'|[w' Hw']]; [|by apply (Hpriv p'' w' Hw')].
      destruct sync; [|congruence]. by apply (proj2 Hsy p'' Hq').
    + assert (Hw' : s !! p' = Some w) by (destruct sync; [by rewrite lookup_insert_ne in Hw by done|done]).
      rewrite (Hsem p') by done. destruct (decide (p'' = p)) as [->|Hne''].
      * rewrite Hsp. by apply (Hpriv p' w).
      * rewrite Hsem by done. destruct Hsy' as [?|Hsy']; [done|]. by apply (rf_private _ _ _ _ F p' w p'').
  - intros j y Hy. rewrite Hpend. pose proof (rf_bound _ _ _ _ F j y Hy) as Hb. simpl in Hb.
    destruct (decide (i = j)) as [<-|]; [|lia]. rewrite (row_fun _ _ _ _ Hy Hrow) in *.
    destruct sync; [|lia]. rewrite (Hsy0 eq_refl i eq_refl). lia.
Qed.

(** A semaphore that is not in use belongs to no request. *)
Lemma fresh_semaphore U T a i p :
  rfacts acc U T a → queued a p ∨ is_Some (a_sync a !! p) →
  (∀ x, ¬ row T i x) → sem_of U p ≠ Some i.
Proof.
  intros F Hp Hi Es.
  assert (∃ r i x, U !! p = Some r ∧ sem r = Some i ∧ row T i x) as (r & j & x & Hr & Hs & Hx).
  { destruct Hp as [([p' t] & -> & Hin)%list_elem_of_fmap|[w Hw]].
    - destruct (rf_reqs _ _ _ _ F p' t Hin) as (r & j & x & ?). exists r, j, x. naive_solver.
    - destruct (rf_sync _ _ _ _ F p w Hw) as (r & j & x & ?). exists r, j, x. naive_solver. }
  rewrite (sem_of_lookup _ _ _ Hr), Hs in Es. injection Es as ->. by apply (Hi x).
Qed.

Lemma fresh_frame U T a i y :
  rfacts acc U T a → 0 ≤ i → (∀ x, ¬ row T i x) → value y < 2 ^ 31 - 1 → creator y ≠ -1 →
  sem_frame U T (<[Z.to_nat i := y]> T) a.
Proof.
  intros F Hi Hfr Hv Hc. split_and!.
  - intros p w j x Hw Hs Hx. destruct (decide (j = i)) as [->|Hne]; [by destruct (Hfr x)|].
    by apply row_insert_ne.
  - intros p j x Hw Hs Hx. destruct (decide (j = i)) as [->|Hne]; [by destruct (Hfr x)|].
    exists x. by apply row_insert_ne.
  - intros j x Hx. destruct (decide (j = i)) as [->|Hne].
    + rewrite pending_none.
      * assert (x = y) as ->; [|lia]. destruct Hx as (_ & Hx & _).
        pose proof (lookup_lt_Some _ _ _ Hx) as Hlt. rewrite length_insert in Hlt.
        rewrite list_lookup_insert_eq in Hx by done. congruence.
      * intros p Hp. apply (fresh_semaphore _ _ _ _ _ F); [by left|done].
    + apply row_insert_ne in Hx; [|done..]. by apply (rf_bound _ _ _ _ F).
Qed.

(** The semaphore of a synchronous request is its own. *)
Lemma sync_others U T a p w r i p' :
  rfacts acc U T a → a_sync a !! p = Some w → U !! p = Some r → sem r = Some i → p' ≠ p →
  queued a p' ∨ is_Some (a_sync a !! p') → sem_of U p' ≠ Some i.
Proof.
  intros F Hw Hr Hs Hne Hq E. apply (rf_private _ _ _ _ F p w p' Hw Hne Hq).
  by rewrite (sem_of_lookup _ _ _ Hr), Hs, E.
Qed.

Lemma rfacts_wait U T q f f' s b b' m m' p r i x :
  rfacts acc U T (ADisk q f s b m) → s !! p = Some false →
  U !! p = Some r → sem r = Some i → row T i x →
  rfacts acc U (<[Z.to_nat i := Sem 0 (value x - 1) (creator x)]> T)
    (ADisk q f' (<[p := true]> s) b' m').
Proof.
  intros F Hw Hr Hs Hrow. pose proof Hrow as (Hi & _ & Hc).
  assert (Hrow' : row (<[Z.to_nat i := Sem 0 (value x - 1) (creator x)]> T) i
    (Sem 0 (value x - 1) (creator x))) by (by eapply row_insert_eq).
  assert (Hoth : ∀ p' w, p' ≠ p → s !! p' = Some w → sem_of U p' ≠ Some i).
  { intros p' w' Hne Hw'. apply (sync_others _ _ _ _ _ _ _ _ F Hw Hr Hs Hne). right. simpl. eauto. }
  split; simpl; try apply F.
  - intros p' t' Hin. destruct (rf_reqs _ _ _ _ F p' t' Hin) as (r' & j & x' & ? & ? & ? & ? & ? & Hx').
    destruct (decide (j = i)) as [->|Hne]; [by eexists _, _, _|].
    exists r', j, x'. split_and!; try done. by apply row_insert_ne.
  - intros p' w Hw'. destruct (decide (p' = p)) as [->|Hne].
    + rewrite lookup_insert_eq in Hw'. injection Hw' as <-.
      destruct (rf_sync _ _ _ _ F p false Hw) as (r' & j & x' & Hr' & Hs' & Hx' & Hret & Hv).
      assert (r' = r) as -> by congruence. assert (j = i) as -> by congruence.
      rewrite (row_fun _ _ _ _ Hx' Hrow) in Hv. eexists _, _, _. split_and!; try done.
      simpl. rewrite Hv. simpl. change (queued (ADisk q f s b m)) with (queued (ADisk q f' (<[p:=true]> s) b' m')).
      destruct (decide _); lia.
    + rewrite lookup_insert_ne in Hw' by done.
      destruct (rf_sync _ _ _ _ F p' w Hw') as (r' & j & x' & Hr' & Hs' & Hx' & Hret & Hv).
      exists r', j, x'. split_and!; try done. apply row_insert_ne; try done.
      intros ->. apply (Hoth p' w Hne Hw'). by rewrite (sem_of_lookup _ _ _ Hr').
  - intros p' w p'' Hw' Hne Hq.
    assert (Hs' : ∀ y, is_Some (<[p := true]> s !! y) → is_Some (s !! y)).
    { intros y. destruct (decide (y = p)) as [->|]; [eauto|by rewrite lookup_insert_ne by done]. }
    destruct (Hs' p') as [w' Hw'']; [eauto|]. apply (rf_private _ _ _ _ F p' w' p'' Hw'' Hne).
    destruct Hq as [Hq|Hq]; [by left|right; by apply Hs'].
  - intros j y Hy. destruct (decide (j = i)) as [->|Hne].
    + rewrite (row_fun _ _ _ _ Hy Hrow'). pose proof (rf_bound _ _ _ _ F i x Hrow). simpl in *. lia.
    + apply row_insert_ne in Hy; [|done..]. by apply (rf_bound _ _ _ _ F).
Qed.

(** The end of a synchronous request: nothing of it is left. *)
Lemma rfacts_finish U T q f f' s b b' m m' p r i x :
  rfacts acc U T (ADisk q f s b m) → s !! p = Some true →
  U !! p = Some r → sem r = Some i → row T i x → 0 ≤ value x →
  return_value r = 0 ∧
  rfacts acc (<[p := set_sem None r]> U) (<[Z.to_nat i := Sem (slock x) (value x) (-1)]> T)
    (ADisk q f' (delete p s) b' m').
Proof.
  intros F Hw Hr Hs Hrow Hv. pose proof Hrow as (Hi & Hxl & Hc).
  destruct (rf_sync _ _ _ _ F p true Hw) as (r' & j & x' & Hr' & Hs' & Hx' & Hret & Hvx).
  assert (r' = r) as -> by congruence. assert (j = i) as -> by congruence.
  rewrite (row_fun _ _ _ _ Hx' Hrow) in Hvx. simpl in Hvx.
  assert (Hnq : ¬ queued (ADisk q f s b m) p) by (intros ?; rewrite decide_True in Hvx by done; lia).
  rewrite decide_False in Hret by done. split; [done|].
  assert (Hoth : ∀ p', p' ≠ p → queued (ADisk q f s b m) p' ∨ is_Some (s !! p') → sem_of U p' ≠ Some i).
  { intros p' Hne Hq. by apply (sync_others _ _ _ _ _ _ _ _ F Hw Hr Hs Hne). }
  assert (Hqne : ∀ p', queued (ADisk q f s b m) p' → p' ≠ p) by (by intros p' Hq ->).
  assert (Hnew : ∀ y, ¬ row (<[Z.to_nat i := Sem (slock x) (value x) (-1)]> T) i y).
  { intros y (_ & Hy & Hcy). pose proof (lookup_lt_Some _ _ _ Hxl).
    rewrite list_lookup_insert_eq in Hy by done. naive_solver. }
  split; simpl; try apply F.
  - rewrite lookup_insert_ne; [apply F|]. intros ->. pose proof (rf_null _ _ _ _ F). congruence.
  - intros p' t' Hin. destruct (rf_reqs _ _ _ _ F p' t' Hin) as (r' & j & x2 & Hr2 & ? & ? & ? & Hs2 & ?).
    assert (Hq : queued (ADisk q f s b m) p') by (apply list_elem_of_fmap; by exists (p', t')).
    exists r', j, x2. rewrite lookup_insert_ne by (intros ->; by apply (Hqne p')). split_and!; try done.
    apply row_insert_ne; try done. intros ->. apply (Hoth p'); [by apply Hqne|by left|].
    by rewrite (sem_of_lookup _ _ _ Hr2).
  - intros p' w [Hne Hw']%lookup_delete_Some.
    destruct (rf_sync _ _ _ _ F p' w Hw') as (r' & j & x2 & Hr2 & Hs2 & ? & ? & ?).
    exists r', j, x2. rewrite lookup_insert_ne by done. split_and!; try done.
    apply row_insert_ne; try done. intros ->. apply (Hoth p'); [done|right; simpl; eauto|].
    by rewrite (sem_of_lookup _ _ _ Hr2).
  - intros p' w p'' [Hne' Hw']%lookup_delete_Some Hne Hq.
    assert (p'' ≠ p ∧ (queued (ADisk q f s b m) p'' ∨ is_Some (s !! p''))) as [Hne2 Hq2].
    { destruct Hq as [Hq|[w2 [Hn2 Hw2]%lookup_delete_Some]]; [split; [by apply Hqne|by left]|].
      split; [done|right; eauto]. }
    rewrite !sem_of_insert_ne by done. by apply (rf_private _ _ _ _ F p' w p'').
  - intros j y Hy. rewrite (pending_agree U).
    2: { intros p' Hp'. apply sem_of_insert_ne. by apply Hqne. }
    destruct (decide (j = i)) as [->|Hne]; [by destruct (Hnew y)|].
    apply row_insert_ne in Hy; [|done..]. by apply (rf_bound _ _ _ _ F).
Qed.

(** A request the driver does not have can change. *)
Lemma rfacts_other U T a p r :
  rfacts acc U T a → p ≠ 0 → ¬ queued a p → a_sync a !! p = None → rfacts acc (<[p := r]> U) T a.
Proof.
  intros F Hp0 Hq Hs.
  assert (Hne : ∀ p', queued a p' ∨ is_Some (a_sync a !! p') → p' ≠ p)
    by (intros p' [?|[w ?]] ->; congruence).
  split; try apply F.
  - rewrite lookup_insert_ne by done. apply F.
  - intros p' t Hin. rewrite lookup_insert_ne; [by apply (rf_reqs _ _ _ _ F)|].
    apply not_eq_sym, Hne. left. apply list_elem_of_fmap. by exists (p', t).
  - intros p' w Hw. rewrite lookup_insert_ne; [by apply (rf_sync _ _ _ _ F)|].
    apply not_eq_sym, Hne. right. eauto.
  - intros p' w p'' Hw Hn Hq2. rewrite !sem_of_insert_ne by (apply Hne; eauto).
    by apply (rf_private _ _ _ _ F p' w).
  - intros i x Hx. rewrite (pending_agree U); [by apply (rf_bound _ _ _ _ F)|].
    intros p' Hp'. apply sem_of_insert_ne, Hne. by left.
Qed.
End facts.
