(* ===== verification/DiskOps.v ===== *)
(** * The disk driver refines the queue (proofs for drivers/mips32/disk.c)

    [drep d a]: the state [d] of the driver stands for the abstract disk [a].
    Each operation of the driver returns and does to [a] what its event says. *)

From S2P Require Import Prelude ByteMem Threads ThreadsRef SchedRef SchedInv SchedSteps.
From S2P Require Import Semaphore Disk DiskSpec.

(** What the controller does while [a] is the abstract disk. *)
Definition phase_of (a : adisk) : disk_phase :=
  match a_queue a with
  | [] => Idle
  | (_, t) :: _ => if a_finished a then Finished (t_write t) else Busy t
  end.

(** The request being served and the list of the others. *)
Definition serves (R : gmap Z gbd_request_t) (r : disk_real_device_t) (l : list Z) : Prop :=
  match l with
  | [] => request_served r = 0 ∧ request_queue r = 0
  | p :: l => request_served r = p ∧ p ≠ 0 ∧ linked R (request_queue r) l
  end.

Section ops.
Context {H : Type} {hw : DiskHw H} {spec : DiskHwSpec H}.
Context (base : Z) (Hbase : 0 < base) (Htop : base + sizeof_semaphore * CONFIG_MAX_SEMAPHORES ≤ 2 ^ 32).
Context (bsize : nat) (memsize : Z) (nblocks : nat).
Implicit Types (d : dstate H) (a : adisk).

Definition acc : transfer → bool := accepts bsize memsize (Z.of_nat nblocks).

(** The controller [h] is in phase [ph] and holds the blocks [b]. *)
Definition ctl (h : H) (ph : disk_phase) (b : list (list Z)) : Prop :=
  c_phase (hw_view h) = ph ∧ c_errors (hw_view h) = 0 ∧ c_bsize (hw_view h) = bsize ∧
  c_memsize (hw_view h) = memsize ∧ c_blocks (hw_view h) = b ∧ length b = nblocks.

Definition table d : list semaphore_t := semaphore_table (sem_state (skern d)).

Record drep d a : Prop := {
  dr_sk : skinv base (skern d);
  dr_lock : dslock (real d) = 0;
  dr_serves : serves (requests d) (real d) (a_queue a).*1;
  dr_facts : rfacts acc (unlinked (requests d)) (table d) a;
  dr_idle : a_queue a = [] → a_finished a = false;
  dr_ctl : ctl (io d) (phase_of a) (a_blocks a);
  dr_memory : memory d = a_memory a
}.

Lemma idle_status h b : ctl h Idle b →
  DISK_STATUS_RBUSY (io_status h) = 0 ∧ DISK_STATUS_WBUSY (io_status h) = 0.
Proof.
  intros (Hp & _). split; apply dec_stable; [intros (t & Ht & _)%hw_rbusy|intros (t & Ht & _)%hw_wbusy]; congruence.
Qed.

Lemma irq_status h ph b : ctl h ph b →
  (DISK_STATUS_RIRQ (io_status h) =? 0) && (DISK_STATUS_WIRQ (io_status h) =? 0) =
  match ph with Finished _ => false | _ => true end.
Proof.
  intros (Hp & _). pose proof (hw_rirq h) as Hr. pose proof (hw_wirq h) as Hw. rewrite Hp in Hr, Hw.
  destruct (Z.eqb_spec (DISK_STATUS_RIRQ (io_status h)) 0), (Z.eqb_spec (DISK_STATUS_WIRQ (io_status h)) 0);
    destruct ph as [| |[]]; simpl; naive_solver.
Qed.

(** Starting the transfer of a request. *)
Lemma start_transfer h b t op :
  ctl h Idle b → acc t = true →
  op = (if t_write t then DISK_COMMAND_WRITE else DISK_COMMAND_READ) →
  let h' := io_command op (io_dmaaddr (t_addr t) (io_tsector (t_sector t) h)) in
  ctl h' (Busy t) b.
Proof.
  intros (Hp & He & Hb & Hm & Hbl & Hn) Ha ->. simpl.
  set (h1 := io_tsector (t_sector t) h). set (h2 := io_dmaaddr (t_addr t) h1).
  pose proof (hw_tsector (t_sector t) h Hp) as E1. fold h1 in E1. simpl in E1.
  pose proof (hw_dmaaddr (t_addr t) h1 ltac:(by rewrite E1)) as E2. fold h2 in E2. rewrite E1 in E2.
  simpl in E2.
  assert (Ec : command (if t_write t then DISK_COMMAND_WRITE else DISK_COMMAND_READ) (hw_view h2)
    = Some (set_phase (Busy t) 0 (hw_view h2))).
  { assert (Es : start (t_write t) (hw_view h2) = Some (set_phase (Busy t) 0 (hw_view h2))).
    { unfold start. rewrite E2. simpl. rewrite Hb, Hm, Hbl, Hn. unfold described. simpl.
      destruct t as [w s x]. simpl. unfold acc in Ha. by rewrite Ha. }
    unfold command. by destruct (t_write t). }
  unfold ctl. rewrite (hw_command _ _ _ Ec), E2. done.
Qed.

Lemma reset_irqs h b w :
  ctl h (Finished w) b → ctl (io_command DISK_COMMAND_RIRQ (io_command DISK_COMMAND_WIRQ h)) Idle b.
Proof.
  intros (Hp & He & Hb & Hm & Hbl & Hn).
  assert (E1 : hw_view (io_command DISK_COMMAND_WIRQ h) =
    set_phase (if bool_decide (w = true) then Idle else Finished w) 0 (hw_view h)).
  { apply hw_command. unfold command, reset_irq. simpl. by rewrite Hp. }
  assert (E2 : hw_view (io_command DISK_COMMAND_RIRQ (io_command DISK_COMMAND_WIRQ h)) =
    set_phase Idle 0 (hw_view (io_command DISK_COMMAND_WIRQ h))).
  { apply hw_command. unfold command, reset_irq. simpl. rewrite E1. by destruct w. }
  unfold ctl. rewrite E2, E1. done.
Qed.

(** [disk_next_request] on an idle controller. *)
Lemma next_request_spec d p l t b r :
  request_served (real d) = 0 → linked (requests d) (request_queue (real d)) (p :: l) → p ∉ l →
  requests d !! p = Some r → asks t r → acc t = true → ctl (io d) Idle b →
  ∃ q h R, disk_next_request d =
      Done (DState (skern d) R (DiskReal (dslock (real d)) q p) h (memory d)) ∧
    linked R q l ∧ same_but_next R (requests d) ∧ ctl h (Busy t) b.
Proof.
  intros Hs (Hq & Hp0 & r' & Hr' & Hl) Hp Hr (Hop & Hbk & Hbf) Ha Hc.
  assert (r' = r) as -> by congruence. destruct (idle_status _ _ Hc) as [E1 E2].
  unfold disk_next_request. rewrite E1, E2, Hs. cbn [Z.eqb andb kassert outcome_bind].
  rewrite Hq. destruct (Z.eqb_spec p 0); [done|]. unfold upd_request, get_request.
  rewrite Hr. cbn [outcome_bind requests set_queue set_real set_served real io skern memory
    dslock request_queue request_served]. rewrite Hr. cbn [outcome_bind requests set_queue set_real
    set_served real io skern memory dslock request_queue request_served].
  rewrite lookup_insert_eq. cbn [outcome_bind]. set (r1 := set_next_request 0 r).
  change (operation r1) with (operation r). change (block r1) with (block r). change (buf r1) with (buf r).
  cbn [set_io io requests real skern memory]. rewrite Hop, Hbk, Hbf.
  pose proof (start_transfer (io d) b t _ Hc Ha eq_refl) as Hst. simpl in Hst.
  exists (next r), (io_command (if t_write t then DISK_COMMAND_WRITE else DISK_COMMAND_READ)
    (io_dmaaddr (t_addr t) (io_tsector (t_sector t) (io d)))), (<[p := r1]> (requests d)).
  split_and!; [|by apply linked_insert_other|by apply same_insert_link|done].
  pose proof Hst as (_ & He & _). apply hw_errors in He.
  destruct (t_write t); cbn [Z.eqb Pos.eqb GBD_OPERATION_READ GBD_OPERATION_WRITE outcome_bind io set_io];
    by rewrite He.
Qed.

Lemma next_request_none d b :
  request_served (real d) = 0 → request_queue (real d) = 0 → ctl (io d) Idle b →
  disk_next_request d = Done d.
Proof.
  intros Hs Hq Hc. destruct (idle_status _ _ Hc) as [E1 E2].
  unfold disk_next_request. by rewrite E1, E2, Hs, Hq.
Qed.

(** ** The interrupt handler *)

(** Facts about the first request, in the state. *)
Lemma drep_head d a p t q :
  drep d a → a_queue a = (p, t) :: q →
  ∃ r i x, requests d !! p = Some r ∧ asks t r ∧ acc t = true ∧ sem r = Some i ∧
    row (table d) i x ∧ value x < 2 ^ 31 - 2 ∧ p ∉ q.*1 ∧ p ≠ 0.
Proof.
  intros [Hk Hl Hs F Hi Hc Hm] E. destruct a as [q0 f s b m]. simpl in E. subst q0.
  destruct (rfacts_head _ _ _ _ _ _ _ _ _ _ F) as (u & i & x & Hu & Ha & Hacc & Hsem & Hrow & Hv).
  apply unlinked_inv in Hu as (r & Hr & ->). exists r, i, x. split_and!; try done.
  - pose proof (rf_nodup _ _ _ _ F) as Hnd. by apply NoDup_cons in Hnd as [? _].
  - simpl in Hs. naive_solver.
Qed.

Lemma interrupt_idle d a :
  drep d a → (∀ w, phase_of a ≠ Finished w) → disk_interrupt_handle base d = Done d.
Proof.
  intros [Hk Hl Hs F Hi Hc Hm] Hp. unfold disk_interrupt_handle, acquire. rewrite Hl.
  cbn [spin Z.eqb outcome_bind]. rewrite (irq_status _ (phase_of a) (a_blocks a)) by done.
  destruct d as [k R [l q v] h m]. simpl in Hl. subst l.
  destruct (phase_of a) as [| |w]; [done|done|]. by destruct (Hp w).
Qed.

(** The request that is done is taken off the queue, its return value is 0, its
    semaphore is signalled, and the next transfer is started. *)
Lemma interrupt_spec d a p t q :
  drep d a → a_queue a = (p, t) :: q → a_finished a = true →
  returns (disk_interrupt_handle base d) (λ d',
    drep d' (ADisk q false (a_sync a) (a_blocks a) (a_memory a)) ∧
    ∃ r i x, requests d !! p = Some r ∧ sem r = Some i ∧ row (table d) i x ∧
      table d' = <[Z.to_nat i := Sem 0 (value x + 1) (creator x)]> (table d) ∧
      ∃ r', requests d' !! p = Some r' ∧ return_value r' = 0).
Proof.
  intros Hd E Ef. destruct (drep_head _ _ _ _ _ Hd E) as (r & i & x & Hr & Ha & Hacc & Hsem & Hrow & Hv & Hpq & Hp0).
  destruct a as [q0 f s b m]. simpl in E, Ef. subst q0 f. destruct Hd as [Hk Hl Hs F Hi Hc Hm].
  cbn [a_queue a_finished a_blocks a_memory] in *. cbn [phase_of a_queue a_finished] in Hc.
  destruct Hs as (Hs & _ & Hlk). cbn [fst] in Hs.
  assert (F' : rfacts acc (unlinked (<[p := set_return 0 r]> (requests d)))
      (<[Z.to_nat i := Sem 0 (value x + 1) (creator x)]> (table d)) (ADisk q false s b m)).
  { rewrite unlinked_insert. change (unlink (set_return 0 r)) with (set_return 0 (unlink r)).
    eapply rfacts_complete; [exact F|by apply unlinked_lookup|done|done]. }
  unfold disk_interrupt_handle, acquire. rewrite Hl. cbn [spin Z.eqb outcome_bind io set_real].
  rewrite (irq_status _ _ _ Hc). cbn [set_io set_real io real request_served]. rewrite Hs.
  rewrite kassert_bind by (by destruct (Z.eqb_spec p 0)).
  unfold upd_request, get_request. cbn [requests set_real set_io]. rewrite Hr. cbn [outcome_bind].
  cbn [requests]. rewrite lookup_insert_eq. cbn [outcome_bind sem set_return skern]. rewrite Hsem.
  destruct Hrow as (Hi0 & Hx & Hcr). destruct (ki_rep _ (sk_kinv _ _ Hk)) as (ath & Hath & _).
  apply returns_bind. eapply returns_mono.
  { eapply semaphore_V_spec; try done. lia. }
  intros k' (Hk' & _ & HT). apply (reset_irqs _ b) in Hc.
  set (R1 := <[p := set_return 0 r]> (requests d)) in *.
  assert (Hlk1 : linked R1 (request_queue (real d)) q.*1) by (by apply linked_insert_other).
  cbn [set_skern set_served set_real requests real io memory dslock request_queue].
  assert (Hfin : ∀ R', same_but_next R' R1 → ∃ r0 i0 x0, Some r = Some r0 ∧ sem r0 = Some i0 ∧
      row (table d) i0 x0 ∧ semaphore_table (sem_state k') =
        <[Z.to_nat i0 := Sem 0 (value x0 + 1) (creator x0)]> (table d) ∧
      ∃ r', R' !! p = Some r' ∧ return_value r' = 0).
  { intros R' HR'. exists r, i, x. split_and!; try done.
    destruct (same_lookup _ _ p (set_return 0 r) (symmetry HR')) as (r' & Hr' & Eu).
    { unfold R1. by rewrite lookup_insert_eq. }
    exists r'. split; [done|]. change (return_value r') with (return_value (unlink r')). by rewrite Eu. }
  match goal with |- context [disk_next_request ?x] => set (d1 := x) end.
  destruct q as [|[p2 t2] q].
  - simpl in Hlk1. rewrite (next_request_none d1 b) by done. cbn [outcome_bind returns].
    split; [|exact (Hfin R1 (reflexivity R1))]. split; try done. unfold table. simpl. rewrite HT. exact F'.
  - destruct (rfacts_head _ _ _ _ _ _ _ _ _ _ F') as (u & i2 & x2 & Hu & Ha2 & Hacc2 & Hsem2 & _).
    apply unlinked_inv in Hu as (r2 & Hr2 & ->).
    assert (Hnd2 : p2 ∉ q.*1) by (pose proof (rf_nodup _ _ _ _ F') as Hnd; by apply NoDup_cons in Hnd as [? _]).
    destruct (next_request_spec d1 p2 q.*1 t2 b r2) as (qq & h & R' & -> & Hl' & Hsame & Hctl); try done.
    cbn [outcome_bind returns]. split; [|exact (Hfin R' Hsame)]. split; try done.
    + simpl. split_and!; [done| |done]. by destruct Hlk1 as (_ & ? & _).
    + simpl. rewrite (proj1 (same_unlinked R' R1) Hsame). unfold table. simpl. rewrite HT. exact F'.
Qed.
End ops.

(** ** The clients' side of the disk driver (proofs for drivers/mips32/disk.c)

    Submitting requests, waiting for them and what happens between the calls:
    each keeps [drep] and does to the abstract disk what its event says. *)

Section client.
Context {H : Type} {hw : DiskHw H} {spec : DiskHwSpec H}.
Context (base : Z) (Hbase : 0 < base) (Htop : base + sizeof_semaphore * CONFIG_MAX_SEMAPHORES ≤ 2 ^ 32).
Context (bsize : nat) (memsize : Z) (nblocks : nat).
Implicit Types (d : dstate H) (a : adisk).

Notation drep := (drep base bsize memsize nblocks).
Notation acc := (acc bsize memsize nblocks).
Notation ctl := (ctl bsize memsize nblocks).

(** A request that has been prepared for the queue. *)
Record prepared (t : transfer) (i : Z) (r : gbd_request_t) : Prop := {
  pr_asks : asks t r;
  pr_next : next r = 0;
  pr_return : return_value r = -1;
  pr_sem : sem r = Some i
}.

(** The abstract disk with one more request. *)
Definition with_request (p : Z) (t : transfer) (sync : bool) a : adisk :=
  ADisk (a_queue a ++ [(p, t)]) (a_finished a)
    (if sync then <[p := false]> (a_sync a) else a_sync a) (a_blocks a) (a_memory a).

(** The semaphore [i] can be used for a new request. *)
Definition usable d a (sync : bool) (i : Z) (x : semaphore_t) : Prop :=
  let U := unlinked (requests d) in
  (∀ p' w, a_sync a !! p' = Some w → sem_of U p' ≠ Some i) ∧
  (if sync then value x = 0 ∧ ∀ p', queued a p' → sem_of U p' ≠ Some i
   else value x + Z.of_nat (pending U (a_queue a).*1 i) < 2 ^ 31 - 2).

Lemma phase_snoc p t q f s s' b m :
  q ≠ [] → phase_of (ADisk (q ++ [(p, t)]) f s' b m) = phase_of (ADisk q f s b m).
Proof. by destruct q as [|[]]. Qed.

Lemma dstate_eta (d : dstate H) : DState (skern d) (requests d) (real d) (io d) (memory d) = d.
Proof. by destruct d. Qed.

Lemma skernel_intr_eta k :
  SKernel (set_intr (intr (kern k)) (set_intr false (kern k))) (sem_state k) = k.
Proof. destruct k. simpl. by rewrite kernel_intr_eta. Qed.

(** Releasing the lock and restoring the interrupt state. *)
Lemma release_eta d R r (h : H) m :
  set_dintr (dintr d) (release (DState (SKernel (set_intr false (kern (skern d))) (sem_state (skern d)))
    R r h m)) = DState (skern d) R (DiskReal 0 (request_queue r) (request_served r)) h m.
Proof. unfold set_dintr, release, dintr, set_skern, set_real. simpl. by rewrite skernel_intr_eta. Qed.

Lemma enqueue_spec d a p t r i x (sync : bool) :
  drep d a → requests d !! p = Some r → prepared t i r → acc t = true →
  ¬ queued a p → a_sync a !! p = None →
  row (table d) i x → usable d a sync i x →
  returns (disk_enqueue p d) (λ d', drep d' (with_request p t sync a) ∧ skern d' = skern d).
Proof using Type.
  clear Hbase Htop. intros [Hk Hl Hs F Hi Hc Hm] Hr [Ha Hn Hret Hsem] Hacc Hq Hsy Hrow [Hu1 Hu2].
  assert (Hp0 : p ≠ 0).
  { intros ->. pose proof (rf_null _ _ _ _ F) as H0. by rewrite (unlinked_lookup _ _ _ Hr) in H0. }
  assert (F' : rfacts acc (unlinked (requests d)) (table d) (with_request p t sync a)).
  { rewrite <- (insert_id (unlinked (requests d)) p (unlink r)) by (by apply unlinked_lookup).
    destruct a as [q f s b m]. by apply (rfacts_submit acc _ _ _ f _ _ b _ m _ _ _ _ i x). }
  pose proof (rf_nodup _ _ _ _ F) as Hnd.
  set (Q := (a_queue a).*1) in *.
  assert (Hpre : ∃ l, linked (requests d) (request_queue (real d)) l ∧ NoDup l ∧ p ∉ l ∧
    match Q with [] => l = [] ∧ request_served (real d) = 0
               | p0 :: l' => l = l' ∧ request_served (real d) = p0 ∧ p0 ≠ 0 end).
  { unfold queued in Hq. fold Q in Hq. destruct Q as [|p0 l]; simpl in Hs.
    - destruct Hs as [? ?]. exists []. split_and!; [done|constructor|set_solver|done|done].
    - apply NoDup_cons in Hnd as [_ Hnd]. exists l. split_and!; try naive_solver. set_solver. }
  destruct Hpre as (l & Hlk & Hndl & Hpl & HQ).
  unfold disk_enqueue, acquire. cbn [real set_dintr set_skern]. rewrite Hl. cbn [spin Z.eqb outcome_bind].
  set (d1 := DState (SKernel (set_intr false (kern (skern d))) (sem_state (skern d))) (requests d)
    (DiskReal 1 (request_queue (real d)) (request_served (real d))) (io d) (memory d)).
  change (set_real _ (set_dintr false d)) with d1.
  destruct (disksched_schedule_spec d1 l p r) as (q' & R & -> & Hlk' & Hsame); try done.
  subst d1. cbn [outcome_bind real request_served dslock skern io memory requests] in *.
  pose proof (proj1 (same_unlinked _ _) Hsame) as HU. simpl in HU.
  destruct (a_queue a) as [|[p0 t0] q0] eqn:Eq; simpl in Q, HQ.
  - destruct HQ as [-> Hs0]. rewrite Hs0. cbn [Z.eqb]. simpl in Hlk'.
    destruct (same_lookup _ _ p r (symmetry Hsame) Hr) as (r' & Hr' & Er').
    unfold phase_of in Hc. rewrite Eq in Hc.
    match goal with |- context [disk_next_request ?x] => set (d1 := x) end.
    destruct (next_request_spec bsize memsize nblocks d1 p [] t (a_blocks a) r')
      as (q2 & h & R2 & -> & Hl2 & Hsame2 & Hctl2); try done.
    { destruct Ha as (? & ? & ?). change (asks t (unlink r')). by rewrite Er'. }
    subst d1. cbn [outcome_bind returns skern requests real io memory dslock] in *.
    rewrite release_eta. split; [|done]. split; simpl; try done.
    + unfold with_request. rewrite Eq. done.
    + unfold with_request in F' |- *. rewrite Eq in F' |- *. rewrite (proj1 (same_unlinked R2 R) Hsame2), HU. exact F'.
    + unfold with_request. rewrite Eq. done.
    + unfold with_request, phase_of. rewrite Eq. simpl. by rewrite (Hi eq_refl).
  - destruct HQ as (-> & Hs0 & Hp00). rewrite Hs0. destruct (Z.eqb_spec p0 0); [done|].
    cbn [outcome_bind returns]. rewrite release_eta. split; [|done]. split; simpl; try done.
    + unfold with_request. rewrite Eq. simpl. rewrite fmap_app. done.
    + unfold with_request in F' |- *. rewrite Eq in F' |- *. by rewrite HU.
    + unfold with_request. rewrite Eq. done.
    + unfold with_request, phase_of in Hc |- *. by rewrite Eq in Hc |- *.
Qed.

(** ** Submitting a request *)

(** The request as the driver prepares it. *)
Definition prepare (s : option Z) (r : gbd_request_t) : gbd_request_t :=
  Request (block r) (buf r) s (operation r) 0 0 (-1).

Lemma serves_insert d a p r :
  serves (requests d) (real d) (a_queue a).*1 → ¬ queued a p →
  serves (<[p := r]> (requests d)) (real d) (a_queue a).*1.
Proof.
  unfold queued. destruct ((a_queue a).*1) as [|p0 l]; [done|]. intros (? & ? & Hl) Hp. split_and!; try done.
  apply linked_insert_other; [|done]. intros Hin. apply Hp. by right.
Qed.

(** A request the driver does not have can be written. *)
Lemma drep_write d a p r k :
  drep d a → ¬ queued a p → a_sync a !! p = None → p ≠ 0 →
  skinv base k → rfacts acc (unlinked (requests d)) (semaphore_table (sem_state k)) a →
  drep (DState k (<[p := r]> (requests d)) (real d) (io d) (memory d)) a.
Proof.
  intros [Hk Hl Hs F Hi Hc Hm] Hq Hsy Hp0 Hk' F'. split; try done.
  - by apply (serves_insert d).
  - unfold table. simpl. rewrite unlinked_insert. by apply rfacts_other.
Qed.

Lemma drep_null d a p r : drep d a → requests d !! p = Some r → p ≠ 0.
Proof.
  intros Hd Hr ->. pose proof (rf_null _ _ _ _ (dr_facts _ _ _ _ _ _ Hd)) as H0.
  by rewrite (unlinked_lookup _ _ _ Hr) in H0.
Qed.

Lemma usable_insert d a sync i x p r k :
  ¬ queued a p → a_sync a !! p = None → usable d a sync i x →
  usable (DState k (<[p := r]> (requests d)) (real d) (io d) (memory d)) a sync i x.
Proof.
  intros Hq Hs [Hu1 Hu2]. split; simpl; rewrite unlinked_insert.
  - intros p' w Hw. rewrite sem_of_insert_ne by congruence. by eapply Hu1.
  - destruct sync.
    + destruct Hu2 as [? Hu2]. split; [done|]. intros p' Hp'.
      rewrite sem_of_insert_ne by (intros ->; done). by apply Hu2.
    + rewrite (pending_agree (unlinked (requests d))); [done|].
      intros p' Hp'. apply sem_of_insert_ne. intros ->. done.
Qed.

Lemma submit_async d a cpu p t r i x :
  drep d a → requests d !! p = Some r → asks t r → acc t = true →
  ¬ queued a p → a_sync a !! p = None →
  sem r = Some i → row (table d) i x → usable d a false i x →
  returns (disk_submit_queue cpu p d) (λ '(res, d'),
    res = inr false ∧ drep d' (with_request p t false a) ∧ skern d' = skern d).
Proof using Type.
  clear Hbase Htop.
  intros Hd Hr Ha Hacc Hq Hsy Hsem Hrow Hus. pose proof (drep_null _ _ _ _ Hd Hr) as Hp0.
  unfold disk_submit_queue, upd_request, get_request. rewrite Hr. cbn [outcome_bind requests].
  rewrite lookup_insert_eq. cbn [outcome_bind sem]. rewrite Hsem, bool_decide_eq_false_2 by done.
  cbn [outcome_bind negb]. apply returns_bind. eapply returns_mono.
  - apply (enqueue_spec _ a p t (prepare (Some i) r) i x false); try done.
    + apply (drep_write d a p _ (skern d)); try done; apply Hd.
    + simpl. by rewrite lookup_insert_eq.
    + by apply usable_insert.
  - intros d' [Hd' Hk']. by split_and!.
Qed.

(** A synchronous request gets a semaphore of its own, or is refused when there
    is none left. *)
Lemma submit_sync d a cpu p t r tid :
  drep d a → requests d !! p = Some r → asks t r → acc t = true →
  ¬ queued a p → a_sync a !! p = None → sem r = None →
  thread_get_current_thread cpu (kern (skern d)) = Done tid → 0 ≤ tid →
  returns (disk_submit_queue cpu p d) (λ '(res, d'),
    kern (skern d') = kern (skern d) ∧
    match res with
    | inr b => b = true ∧ drep d' (with_request p t true a)
    | inl v => v = 0 ∧ drep d' a ∧ ∀ j x, table d !! j = Some x → creator x ≠ -1
    end).
Proof using Type.
  clear Hbase Htop.
  intros Hd Hr Ha Hacc Hq Hsy Hsem Htid Htid0. pose proof (drep_null _ _ _ _ Hd Hr) as Hp0.
  unfold disk_submit_queue, upd_request, get_request. rewrite Hr. cbn [outcome_bind requests].
  rewrite lookup_insert_eq. cbn [outcome_bind sem]. rewrite Hsem, bool_decide_eq_true_2 by done.
  pose proof (dr_sk _ _ _ _ _ _ Hd) as Hk. pose proof (dr_facts _ _ _ _ _ _ Hd) as F.
  destruct (ki_rep _ (sk_kinv _ _ Hk)) as (ath & Hath & _).
  cbn [skern set_skern requests real io memory]. rewrite <- (bind_assoc (semaphore_create cpu 0 (skern d))).
  apply returns_bind. eapply returns_mono; [by eapply semaphore_create_spec|].
  intros [[i|] k'] (Hk' & Hkern & Hres); cbn [outcome_bind skern set_skern requests real io memory];
    rewrite lookup_insert_eq; cbn [outcome_bind]; rewrite insert_insert_eq;
    change (set_sem ?s (Request (block r) _ _ _ _ _ _)) with (prepare s r).
  - rewrite bool_decide_eq_true_2 by eauto. cbn [negb]. destruct Hres as (Hi & (x & Hx & Hxc) & HT).
    assert (Hfr : ∀ y, ¬ row (table d) i y).
    { intros y (_ & Hy & Hyc). unfold table in Hy. congruence. }
    assert (Hrow : row (semaphore_table (sem_state k')) i (Sem 0 0 tid)).
    { split_and!; [lia| |simpl; lia]. rewrite HT. apply list_lookup_insert_eq. by eapply lookup_lt_Some. }
    assert (F' : rfacts acc (unlinked (requests d)) (semaphore_table (sem_state k')) a).
    { eapply rfacts_frame; [exact F|]. rewrite HT. eapply fresh_frame; try done; simpl; lia. }
    apply returns_bind. eapply returns_mono.
    + apply (enqueue_spec _ a p t (prepare (Some i) r) i (Sem 0 0 tid) true); try done.
      * by apply (drep_write d a p _ k').
      * simpl. by rewrite lookup_insert_eq.
      * apply usable_insert; [done..|]. split; [|split; [done|]].
        -- intros p' w Hw. eapply fresh_semaphore; [exact F|right; eauto|done].
        -- intros p' Hp'. eapply fresh_semaphore; [exact F|by left|done].
    + intros d' [Hd' Hk2]. cbn [returns]. by rewrite Hk2.
  - rewrite bool_decide_eq_false_2 by (by intros []). cbn [negb returns skern]. destruct Hres as [HT Hall].
    split_and!; try done. apply (drep_write d a p _ k'); try done. by rewrite HT.
Qed.

(** ** Waiting *)

(** A synchronous request in the state. *)
Lemma drep_sync d a p w :
  drep d a → a_sync a !! p = Some w →
  ∃ r i x, requests d !! p = Some r ∧ sem r = Some i ∧ row (table d) i x ∧
    value x = (if decide (queued a p) then 0 else 1) - Z.b2z w ∧ p ≠ 0.
Proof.
  intros Hd Hw. destruct (rf_sync _ _ _ _ (dr_facts _ _ _ _ _ _ Hd) p w Hw)
    as (u & i & x & Hu & Hs & Hrow & _ & Hv).
  apply unlinked_inv in Hu as (r & Hr & ->). exists r, i, x. split_and!; try done. by eapply drep_null.
Qed.

(** No thread sleeps until the request is done. *)
Definition nobody_waits d (p : Z) : Prop :=
  ∀ r i ath, requests d !! p = Some r → sem r = Some i → krep (kern (skern d)) ath →
    waiters ath (sem_addr base i) = 0%nat.

(** The caller sleeps exactly when its request is still in the queue. *)
Lemma submit_wait_spec d a cpu rnd p tid :
  drep d a → a_sync a !! p = Some false → caller (kern (skern d)) cpu tid →
  returns (disk_submit_wait base cpu rnd p d) (λ '(slept, d'),
    drep d' (ADisk (a_queue a) (a_finished a) (<[p := true]> (a_sync a)) (a_blocks a) (a_memory a)) ∧
    slept = bool_decide (queued a p) ∧
    if slept then ∃ r i th, requests d !! p = Some r ∧ sem r = Some i ∧
      thread_table (kern (skern d')) !! Z.to_nat tid = Some th ∧
      state th = THREAD_SLEEPING ∧ sleeps_on th = sem_addr base i
    else kern (skern d') = kern (skern d)).
Proof.
  intros Hd Hw (Hcur & Hne & Htid & ath & th & Hath & Hth & Hst & Hsl).
  destruct (drep_sync _ _ _ _ Hd Hw) as (r & i & x & Hr & Hsem & Hrow & Hv & Hp0).
  unfold disk_submit_wait, get_request. rewrite Hr. cbn [outcome_bind]. rewrite Hsem.
  destruct Hrow as (Hi & Hx & Hc). apply returns_bind. eapply returns_mono.
  { eapply (semaphore_P_spec base Hbase Htop); try done. apply Hd. }
  intros [slept k'] (Hk' & Es & HT & Hsleep). cbn [returns set_skern].
  destruct Hd as [Hk Hl Hs F Hidle Hctl Hm]. split; [split; try done|split].
  - unfold table. simpl. rewrite HT. destruct a as [q f s b m].
    eapply rfacts_wait; [exact F|exact Hw|by apply unlinked_lookup|done|done].
  - rewrite Es, Hv. case_bool_decide; [by rewrite decide_True by done|by rewrite decide_False by done].
  - destruct slept; [|done]. destruct Hsleep as (th' & ? & ? & ?). by exists r, i, th'.
Qed.

(** Once the request is done nobody waits for it. *)
Lemma done_nobody_waits d a p :
  drep d a → a_sync a !! p = Some true → ¬ queued a p → nobody_waits d p.
Proof using Type.
  clear Hbase Htop. intros Hd Hw Hnq r i ath Hr Hs Hath.
  destruct (drep_sync _ _ _ _ Hd Hw) as (r' & i' & x & Hr' & Hs' & (Hi & Hx & Hc) & Hv & _).
  assert (r' = r) as -> by congruence. assert (i' = i) as -> by congruence.
  rewrite decide_False in Hv by done. simpl in Hv.
  destruct (si_sem _ _ _ (sk_sem _ _ (dr_sk _ _ _ _ _ _ Hd) ath Hath) _ _ Hx) as (_ & _ & Hwt).
  rewrite Z2Nat.id, Hv, (proj2 (Z.eqb_neq _ _)) in Hwt by done. done.
Qed.

(** When the caller goes on its request is done, and it reports success. *)
Lemma submit_finish_spec d a p :
  drep d a → a_sync a !! p = Some true → nobody_waits d p →
  ¬ queued a p ∧
  returns (disk_submit_finish p d) (λ '(v, d'), v = 1 ∧
    drep d' (ADisk (a_queue a) (a_finished a) (delete p (a_sync a)) (a_blocks a) (a_memory a)) ∧
    kern (skern d') = kern (skern d)).
Proof.
  intros Hd Hw Hnw. destruct (drep_sync _ _ _ _ Hd Hw) as (r & i & x & Hr & Hsem & Hrow & Hvx & Hp0).
  pose proof (dr_sk _ _ _ _ _ _ Hd) as Hk. destruct (ki_rep _ (sk_kinv _ _ Hk)) as (ath & Hath & _).
  pose proof Hrow as (Hi & Hx & Hc).
  assert (Hv : 0 ≤ value x).
  { destruct (si_sem _ _ _ (sk_sem _ _ Hk ath Hath) _ _ Hx) as (_ & _ & Hwt).
    rewrite Z2Nat.id, (Hnw r i ath Hr Hsem Hath) in Hwt by done.
    rewrite (proj2 (Z.eqb_neq _ _)) in Hwt by done. unfold sem_waiters in Hwt. lia. }
  assert (Hnq : ¬ queued a p).
  { intros Hq. rewrite decide_True in Hvx by done. simpl in Hvx. lia. }
  split; [done|]. destruct a as [q f s b m].
  destruct (rfacts_finish _ _ _ _ _ f _ _ b _ m _ _ _ _ (dr_facts _ _ _ _ _ _ Hd) Hw
    (unlinked_lookup _ _ _ Hr) Hsem Hrow Hv) as [Hret F'].
  destruct Hd as [_ Hl Hs F Hidle Hctl Hm].
  unfold disk_submit_finish, get_request. rewrite Hr. cbn [outcome_bind]. rewrite Hsem.
  pose proof (semaphore_destroy_spec _ _ _ _ _ Hk Hath Hi Hx Hv) as Hds.
  unfold semaphore_destroy in Hds |- *. rewrite (upd_sem_in_range _ _ _ x) in Hds |- * by done.
  cbn [outcome_bind returns] in Hds |- *. unfold upd_request, get_request.
  cbn [set_skern requests skern]. rewrite Hr. cbn [outcome_bind requests]. rewrite lookup_insert_eq.
  cbn [outcome_bind returns]. change (return_value (set_sem None r)) with (return_value (unlink r)).
  rewrite Hret. cbn [Z.eqb]. split_and!; [done| |done]. split; try done.
  - simpl. by apply (serves_insert d (ADisk q f s b m)).
  - cbn [requests]. rewrite unlinked_insert. exact F'.
Qed.

(** ** What happens between the calls *)
Lemma transfer_spec d a p t q :
  drep d a → a_queue a = (p, t) :: q → a_finished a = false →
  let s := run_transfer bsize t (a_blocks a, a_memory a) in
  drep (disk_transfer d) (ADisk (a_queue a) true (a_sync a) (fst s) (snd s)).
Proof using Type.
  clear Hbase Htop.
  intros [Hk Hl Hs F Hi Hc Hm] Eq Ef. simpl. unfold phase_of in Hc. rewrite Eq, Ef in Hc.
  destruct Hc as (Hp & He & Hb & Hms & Hbl & Hn). unfold disk_transfer.
  destruct (hw_transfers (io d) (memory d) t Hp) as [Ev Em].
  rewrite Hb, Hbl, Hm in Ev, Em. destruct (hw_transfer (io d) (memory d)) as [h m'] eqn:Eh.
  rewrite Hm in Eh. rewrite Eh in Ev, Em. simpl in Ev, Em. split; simpl; try done.
  - destruct a. split; try apply F.
  - by rewrite Eq.
  - unfold ctl. rewrite Ev. simpl. unfold phase_of. rewrite Eq. split_and!; try done.
    unfold run_transfer. destruct (t_write t); simpl; [by rewrite length_insert|done].
Qed.

Lemma disk_store_spec d a x bytes :
  drep d a →
  drep (store x bytes d)
    (ADisk (a_queue a) (a_finished a) (a_sync a) (a_blocks a) (mem_write x bytes (a_memory a))).
Proof using Type.
  clear Hbase Htop. intros [Hk Hl Hs F Hi Hc Hm]. split; simpl; try done.
  - destruct a. split; try apply F.
  - by rewrite Hm.
Qed.

(** The rest of the kernel, which leaves the semaphores of the requests alone. *)
Lemma other_spec d a k :
  drep d a → skinv base k →
  sem_frame (unlinked (requests d)) (table d) (semaphore_table (sem_state k)) a →
  drep (set_skern k d) a.
Proof using Type.
  clear Hbase Htop. intros [Hk Hl Hs F Hi Hc Hm] Hk' Hfr. split; try done. by eapply rfacts_frame.
Qed.

(** ** Inquiries *)
Lemma inquiry_spec d a cmd data :
  drep d a → command cmd (hw_view (io d)) = Some (set_data data (hw_view (io d))) →
  let d' := set_io (io_command cmd (io d)) d in drep d' a ∧ io_data (io d') = data.
Proof using Type.
  clear Hbase Htop. intros [Hk Hl Hs F Hi Hc Hm] Ecmd. pose proof (hw_command _ _ _ Ecmd) as Ev.
  split; [|simpl; by rewrite hw_data, Ev]. split; try done.
  unfold ctl in Hc |- *. simpl. rewrite Ev. done.
Qed.

Lemma sizes_spec d a :
  drep d a →
  returns (disk_block_size d) (λ '(v, d'), v = Z.of_nat bsize ∧ drep d' a ∧ skern d' = skern d) ∧
  returns (disk_total_blocks d) (λ '(v, d'), v = Z.of_nat nblocks ∧ drep d' a ∧ skern d' = skern d).
Proof using Type.
  clear Hbase Htop. intros Hd. pose proof (dr_ctl _ _ _ _ _ _ Hd) as (_ & _ & Hb & _ & Hbl & Hn).
  pose proof (dr_lock _ _ _ _ _ _ Hd) as Hl.
  destruct (inquiry_spec d a DISK_COMMAND_BLOCKSIZE (Z.of_nat bsize) Hd) as [H1 H2].
  { unfold command. simpl. by rewrite Hb. }
  destruct (inquiry_spec d a DISK_COMMAND_BLOCKS (Z.of_nat nblocks) Hd) as [H3 H4].
  { unfold command. simpl. by rewrite Hbl, Hn. }
  unfold disk_block_size, disk_total_blocks, acquire.
  cbn [set_dintr set_skern real]. rewrite Hl. cbn [spin Z.eqb outcome_bind returns].
  assert (E : ∀ h, set_dintr (dintr d) (release (set_io h (set_real (DiskReal 1 (request_queue (real d))
    (request_served (real d))) (set_dintr false d)))) = set_io h d).
  { intros h. etrans; [apply release_eta|]. unfold set_io. f_equal. simpl in Hl.
    destruct (real d). simpl in *. by rewrite Hl. }
  split; (split_and!; [done| |]); rewrite E; done.
Qed.
End client.
