(* ===== verification/DiskHistory.v ===== *)
(** * Histories of the disk driver

    [dsteps] are the executions of the driver with its clients, the controller
    and the rest of the kernel in any order, as far as the clients keep the rules
    of drivers/gbd.h: a request belongs to the driver from the call until it is
    done, and its semaphore stays in use.  Each execution is one of the
    abstract disk. *)

From S2P Require Import Prelude Threads ThreadsRef SchedInv Semaphore.
From S2P Require Import ByteMem Disk DiskSpec DiskOps.

(** ** Executions of the abstract disk *)
Definition submitted (es : list event) : list (Z * transfer) :=
  omap (λ e, match e with ESubmit p t _ => Some (p, t) | _ => None end) es.

Definition completions (es : list event) : nat :=
  length (List.filter (λ e, match e with EComplete => true | _ => false end) es).

(** The transfers [ts] one after the other, each at its [ETransfer], among the
    stores of programs. *)
Fixpoint serial (bsize : nat) (ts : list transfer) (es : list event)
    (s : list (list Z) * (Z → Z)) : list (list Z) * (Z → Z) :=
  match es with
  | [] => s
  | ETransfer :: es =>
      match ts with
      | [] => serial bsize [] es s
      | t :: ts => serial bsize ts es (run_transfer bsize t s)
      end
  | EStore a bytes :: es => serial bsize ts es (fst s, mem_write a bytes (snd s))
  | _ :: es => serial bsize ts es s
  end.

(** The transfers that are still to be done. *)
Definition remaining (a : adisk) : list transfer :=
  if a_finished a then tail (a_queue a).*2 else (a_queue a).*2.

Lemma submitted_cons e es :
  submitted (e :: es) = (match e with ESubmit p t _ => [(p, t)] | _ => [] end) ++ submitted es.
Proof. by destruct e. Qed.

(** Requests leave the queue in the order they came. *)
Lemma aexec_fifo bsize es : ∀ a a', aexec bsize es a = Some a' →
  (completions es ≤ length (a_queue a ++ submitted es))%nat ∧
  a_queue a' = drop (completions es) (a_queue a ++ submitted es).
Proof.
  induction es as [|e es IH]; intros a a' E.
  - simpl in E. simplify_eq. unfold submitted. simpl. rewrite app_nil_r. split; [apply Nat.le_0_l|done].
  - simpl in E. apply bind_Some in E as (a1 & E1 & E). apply IH in E as [Hle Eq]. rewrite submitted_cons.
    destruct e as [p t sy| | |p|p|x bytes]; cbn [astep] in E1.
    + simplify_eq. cbn [a_queue] in *. rewrite <- app_assoc in Hle, Eq. done.
    + destruct (a_queue a) as [|[p t] q] eqn:Ea; [done|]. destruct (a_finished a); [done|].
      simplify_eq. done.
    + destruct (a_queue a) as [|[p t] q] eqn:Ea; [done|]. destruct (a_finished a); [|done].
      simplify_eq. cbn [a_queue] in *. change (completions (EComplete :: es)) with (S (completions es)).
      split; [exact (le_n_S _ _ Hle)|exact Eq].
    + simplify_eq. done.
    + simplify_eq. done.
    + simplify_eq. done.
Qed.

(** Their transfers have the effect of the serial execution in that order. *)
Lemma aexec_serial bsize es : ∀ a a', aexec bsize es a = Some a' →
  (a_queue a = [] → a_finished a = false) →
  (a_blocks a', a_memory a') =
    serial bsize (remaining a ++ (submitted es).*2) es (a_blocks a, a_memory a).
Proof.
  induction es as [|e es IH]; intros a a' E Hi.
  - simpl in E. by simplify_eq.
  - simpl in E. apply bind_Some in E as (a1 & E1 & E). rewrite submitted_cons.
    unfold remaining. destruct e as [p t sy| | |p|p|x bytes]; cbn [astep] in E1.
    + simplify_eq. rewrite (IH _ _ E) by (by intros [_ [=]]%app_nil). unfold remaining. simpl.
      destruct (a_finished a) eqn:Ef.
      * destruct (a_queue a) as [|q0 q] eqn:Ea; [by specialize (Hi eq_refl)|]. simpl.
        rewrite fmap_app, <- app_assoc. done.
      * rewrite !fmap_app, <- app_assoc. done.
    + destruct (a_queue a) as [|[p t] q] eqn:Ea; [done|]. destruct (a_finished a) eqn:Ef; [done|].
      simplify_eq. rewrite (IH _ _ E) by done. unfold remaining. simpl. by rewrite <- surjective_pairing.
    + destruct (a_queue a) as [|[p t] q] eqn:Ea; [done|]. destruct (a_finished a) eqn:Ef; [|done].
      simplify_eq. by rewrite (IH _ _ E) by done.
    + simplify_eq. by rewrite (IH _ _ E) by done.
    + simplify_eq. by rewrite (IH _ _ E) by done.
    + simplify_eq. by rewrite (IH _ _ E) by done.
Qed.

(** ** Executions of the driver *)
Section history.
Context {H : Type} {hw : DiskHw H} {spec : DiskHwSpec H}.
Context (base : Z) (Hbase : 0 < base) (Htop : base + sizeof_semaphore * CONFIG_MAX_SEMAPHORES ≤ 2 ^ 32).
Context (bsize : nat) (memsize : Z) (nblocks : nat).
Implicit Types (d : dstate H) (a : adisk).

Notation drep := (drep base bsize memsize nblocks).
Notation acc := (acc bsize memsize nblocks).

(** The rules for submitting request [p]. *)
Record may_submit d a (cpu p : Z) (t : transfer) (sync : bool) (r : gbd_request_t) : Prop := {
  ms_request : requests d !! p = Some r;
  ms_asks : asks t r;
  ms_acc : acc t = true;
  ms_queued : ¬ queued a p;
  ms_sync : a_sync a !! p = None;
  ms_sem : if sync
    then sem r = None ∧ ∃ tid, thread_get_current_thread cpu (kern (skern d)) = Done tid ∧ 0 ≤ tid
    else ∃ i x, sem r = Some i ∧ row (table d) i x ∧ usable d a false i x
}.

Inductive dstep d a : option event → dstate H → Prop :=
| st_submit cpu p t sync r d' :
    may_submit d a cpu p t sync r → disk_submit_queue cpu p d = Done (inr sync, d') →
    dstep d a (Some (ESubmit p t sync)) d'
| st_refused cpu p t sync r v d' :
    may_submit d a cpu p t sync r → disk_submit_queue cpu p d = Done (inl v, d') →
    dstep d a None d'
| st_wait cpu rnd p tid slept d' :
    a_sync a !! p = Some false → caller (kern (skern d)) cpu tid →
    disk_submit_wait base cpu rnd p d = Done (slept, d') → dstep d a (Some (EWait p)) d'
| st_finish p v d' :
    a_sync a !! p = Some true → nobody_waits base d p →
    disk_submit_finish p d = Done (v, d') → dstep d a (Some (EFinish p)) d'
| st_transfer t :
    c_phase (hw_view (io d)) = Busy t → dstep d a (Some ETransfer) (disk_transfer d)
| st_interrupt d' :
    disk_interrupt_handle base d = Done d' →
    dstep d a (match phase_of a with Finished _ => Some EComplete | _ => None end) d'
| st_sizes v d' :
    disk_block_size d = Done (v, d') ∨ disk_total_blocks d = Done (v, d') → dstep d a None d'
| st_store x bytes : dstep d a (Some (EStore x bytes)) (store x bytes d)
| st_request p r :
    p ≠ 0 → ¬ queued a p → a_sync a !! p = None →
    dstep d a None (DState (skern d) (<[p := r]> (requests d)) (real d) (io d) (memory d))
| st_other k :
    skinv base k → sem_frame (unlinked (requests d)) (table d) (semaphore_table (sem_state k)) a →
    dstep d a None (set_skern k d).

Definition after (e : option event) a : adisk :=
  default a (e ≫= λ e, astep bsize e a).

Inductive dsteps : dstate H → adisk → list event → dstate H → Prop :=
| dsteps_nil d a : dsteps d a [] d
| dsteps_cons d a e d1 es d' :
    dstep d a e d1 → dsteps d1 (after e a) es d' → dsteps d a (option_list e ++ es) d'.

Lemma phase_finished a w : phase_of a = Finished w → ∃ p t q, a_queue a = (p, t) :: q ∧ a_finished a = true.
Proof. unfold phase_of. destruct (a_queue a) as [|[p t] q], (a_finished a); naive_solver. Qed.

Lemma phase_busy a t : phase_of a = Busy t → ∃ p q, a_queue a = (p, t) :: q ∧ a_finished a = false.
Proof. unfold phase_of. destruct (a_queue a) as [|[p t'] q], (a_finished a); naive_solver. Qed.

Lemma dstep_refines d a e d' :
  drep d a → dstep d a e d' →
  ∃ a', match e with Some e => astep bsize e a | None => Some a end = Some a' ∧ drep d' a'.
Proof.
  intros Hd Hst. destruct Hst as [cpu p t sync r d' [Hr Ha Hacc Hq Hs Hsem] E
    |cpu p t sync r v d' [Hr Ha Hacc Hq Hs Hsem] E|cpu rnd p tid slept d' Hs Hc E|p v d' Hs Hn E
    |t Hp|d' E|v d' E|x bytes|p r Hp Hq Hs|k Hk Hfr].
  - eexists. split; [done|]. destruct sync.
    + destruct Hsem as (Hn & tid & Hc & Ht).
      pose proof (submit_sync _ _ _ _ d a cpu p t r tid Hd Hr Ha Hacc Hq Hs Hn Hc Ht) as Hx.
      rewrite E in Hx. by destruct Hx as (_ & _ & ?).
    + destruct Hsem as (i & x & Hi & Hrow & Hu).
      pose proof (submit_async _ _ _ _ d a cpu p t r i x Hd Hr Ha Hacc Hq Hs Hi Hrow Hu) as Hx.
      rewrite E in Hx. by destruct Hx as (_ & ? & _).
  - exists a. split; [done|]. destruct sync.
    + destruct Hsem as (Hn & tid & Hc & Ht).
      pose proof (submit_sync _ _ _ _ d a cpu p t r tid Hd Hr Ha Hacc Hq Hs Hn Hc Ht) as Hx.
      rewrite E in Hx. by destruct Hx as (_ & _ & ? & _).
    + destruct Hsem as (i & x & Hi & Hrow & Hu).
      pose proof (submit_async _ _ _ _ d a cpu p t r i x Hd Hr Ha Hacc Hq Hs Hi Hrow Hu) as Hx.
      rewrite E in Hx. by destruct Hx as (? & _).
  - eexists. split; [done|].
    pose proof (submit_wait_spec base Hbase Htop _ _ _ d a cpu rnd p tid Hd Hs Hc) as Hx. rewrite E in Hx.
    by destruct Hx as (? & _).
  - eexists. split; [done|]. destruct (submit_finish_spec base _ _ _ d a p Hd Hs Hn) as [_ Hx].
    rewrite E in Hx. by destruct Hx as (_ & ? & _).
  - pose proof (dr_ctl _ _ _ _ _ _ Hd) as (Hp' & _). rewrite Hp in Hp'.
    destruct (phase_busy a t (symmetry Hp')) as (p & q & Eq & Ef). simpl. rewrite Eq, Ef.
    eexists. split; [done|]. rewrite <- Eq. by eapply transfer_spec.
  - destruct (phase_of a) as [|t|w] eqn:Ep.
    1-2: exists a; split; [done|]; rewrite (interrupt_idle base bsize memsize nblocks d a Hd) in E
      by (by rewrite Ep); by simplify_eq.
    destruct (phase_finished a w Ep) as (p & t & q & Eq & Ef). simpl. rewrite Eq, Ef.
    eexists. split; [done|]. pose proof (interrupt_spec base bsize memsize nblocks d a p t q Hd Eq Ef) as Hx.
    rewrite E in Hx. by destruct Hx as (? & _).
  - exists a. split; [done|]. destruct (sizes_spec _ _ _ _ d a Hd) as [H1 H2].
    destruct E as [E|E]; [rewrite E in H1; by destruct H1 as (_ & ? & _)
                         |rewrite E in H2; by destruct H2 as (_ & ? & _)].
  - eexists. split; [done|]. by apply disk_store_spec.
  - exists a. split; [done|]. apply drep_write; try done; apply Hd.
  - exists a. split; [done|]. by apply other_spec.
Qed.

Lemma dsteps_refines d a es d' :
  drep d a → dsteps d a es d' → ∃ a', aexec bsize es a = Some a' ∧ drep d' a'.
Proof.
  intros Hd Hs. induction Hs as [d a|d a e d1 es d' Hst Hs IH]; [eauto|].
  destruct (dstep_refines d a e d1 Hd Hst) as (a1 & E1 & Hd1).
  destruct e as [e|]; simpl in *.
  - unfold after in *. simpl in IH. rewrite E1 in IH |- *. simpl in IH |- *. by apply IH.
  - simplify_eq. by apply IH.
Qed.
End history.
