(* ===== verification/DiskProps.v ===== *)
(** * Properties of devices, interrupts and the disk driver

    The theorems on drivers/mips32/device.c, kernel/mips32/interrupt.c and
    drivers/mips32/disk.c, with a machine on which they apply. *)

From S2P Require Import Prelude PhysMem Threads ThreadsRef SchedRef SchedInv SchedSteps SchedProps.
From S2P Require Import Semaphore SemProps PageTable Devices Interrupts.
From S2P Require Import ByteMem Disk DiskSpec DiskOps DiskHistory.

Section disk.
Context {H : Type} {hw : DiskHw H} {spec : DiskHwSpec H}.
Context (base : Z) (bsize : nat) (memsize : Z) (nblocks : nat).
Implicit Types (d : dstate H) (a : adisk).

(** What a disk does for a request: the contents of the disk and of memory. *)
Definition served (t : transfer) d d' : Prop :=
  let blocks := c_blocks (hw_view (io d)) in
  let blocks' := c_blocks (hw_view (io d')) in
  if t_write t then
    blocks' = <[Z.to_nat (t_sector t) := mem_slice (t_addr t) bsize (memory d)]> blocks ∧
    memory d' = memory d
  else
    blocks' = blocks ∧
    blocks !! Z.to_nat (t_sector t) = Some (mem_slice (t_addr t) bsize (memory d')).

(** The request [p] of the caller, for [t]. *)
Definition fills_in (t : transfer) (r : gbd_request_t) : Prop :=
  sem r = None ∧ block r = t_sector t ∧ u32 (buf r) = t_addr t.

Definition disk_transfer_block (t : transfer) (cpu rnd p : Z) d : outcome (option Z * dstate H) :=
  if t_write t then disk_write_block base cpu rnd p d else disk_read_block base cpu rnd p d.

(** The block that is read ends up in the buffer. *)
Lemma run_read t blocks mem bl :
  t_write t = false → blocks !! Z.to_nat (t_sector t) = Some bl → length bl = bsize →
  mem_slice (t_addr t) bsize (snd (run_transfer bsize t (blocks, mem))) = bl.
Proof. intros Hw Hb Hl. unfold run_transfer. rewrite Hw, Hb. simpl. rewrite <- Hl. apply mem_slice_write. Qed.

Lemma asks_op t r :
  fills_in t r → asks t (set_op (if t_write t then GBD_OPERATION_WRITE else GBD_OPERATION_READ) r).
Proof. intros (_ & ? & ?). by split_and!. Qed.

(** The rest of a request once its caller sleeps. *)
Lemma request_rest d d1 p t b m s :
  0 < base → base + sizeof_semaphore * CONFIG_MAX_SEMAPHORES ≤ 2 ^ 32 →
  b = c_blocks (hw_view (io d)) → m = memory d →
  Forall (λ l, length l = bsize) b → length b = nblocks → acc bsize memsize nblocks t = true →
  s !! p = Some true → drep base bsize memsize nblocks d1 (ADisk [(p, t)] false s b m) →
  returns (disk_interrupt_handle base (disk_transfer d1)) (λ d2,
    returns (disk_submit_finish p d2) (λ '(v, d3), v = 1 ∧ served t d d3 ∧
      ∃ b' m', drep base bsize memsize nblocks d3 (ADisk [] false (delete p s) b' m'))).
Proof.
  intros Hb Ht -> -> Hbl Hn Hacc Hs Hd.
  pose proof (transfer_spec base bsize memsize nblocks d1 _ p t [] Hd eq_refl eq_refl) as Hd1.
  cbv zeta in Hd1. cbn [a_queue a_sync a_blocks a_memory] in Hd1.
  set (r := run_transfer bsize t (c_blocks (hw_view (io d)), memory d)) in Hd1.
  eapply returns_mono; [by eapply (interrupt_spec base)|]. intros d2 [Hd2 _]. simpl in Hd2.
  assert (Hnq : ¬ queued (ADisk [] false s (fst r) (snd r)) p) by apply not_elem_of_nil.
  destruct (submit_finish_spec base bsize memsize nblocks d2 _ p Hd2 Hs) as [_ Hfin].
  { by eapply done_nobody_waits. }
  eapply returns_mono; [exact Hfin|]. intros [v d3] (-> & Hd3 & _). simpl in Hd3.
  split; [done|]. split; [|eauto].
  destruct (dr_ctl _ _ _ _ _ _ Hd3) as (_ & _ & _ & _ & Eb & _). pose proof (dr_memory _ _ _ _ _ _ Hd3) as Em.
  simpl in Eb, Em. unfold served. rewrite Eb, Em. subst r. destruct (t_write t) eqn:Ew.
  - unfold run_transfer. by rewrite Ew.
  - assert (Hlt : (Z.to_nat (t_sector t) < length (c_blocks (hw_view (io d))))%nat).
    { unfold acc, accepts in Hacc. lia. }
    destruct (lookup_lt_is_Some_2 _ _ Hlt) as [bl Hl].
    rewrite (run_read t _ _ bl Ew Hl).
    + unfold run_transfer. by rewrite Ew.
    + rewrite Forall_forall in Hbl. apply Hbl. by eapply list_elem_of_lookup_2.
Qed.

(** C16. Under any interleaving of clients that submit requests (synchronous or
    not), wait for them and go on, stores of programs, inquiries, interrupts,
    transfers of the controller and activity of the rest of the kernel, requests
    are served exactly once and in the order they were submitted: those that
    are not completed are still queued in that order, and the disk and memory are
    what the serial execution of the transfers makes them. *)
Theorem disk_serves_in_order d a es d' :
  0 < base → base + sizeof_semaphore * CONFIG_MAX_SEMAPHORES ≤ 2 ^ 32 →
  drep base bsize memsize nblocks d a → a_queue a = [] →
  dsteps base bsize memsize nblocks d a es d' →
  (completions es ≤ length (submitted es))%nat ∧
  serves (requests d') (real d') (drop (completions es) (submitted es)).*1 ∧
  (c_blocks (hw_view (io d')), memory d') =
    serial bsize (submitted es).*2 es (c_blocks (hw_view (io d)), memory d) ∧
  ∃ a', aexec bsize es a = Some a' ∧ drep base bsize memsize nblocks d' a'.
Proof.
  intros Hb Ht Hd Hq Hs.
  destruct (dsteps_refines base Hb Ht bsize memsize nblocks d a es d' Hd Hs) as (a' & E & Hd').
  destruct (aexec_fifo bsize es a a' E) as [Hle Eq]. rewrite Hq in Hle, Eq. simpl in Hle, Eq.
  split_and!; [done| | |by exists a'].
  - rewrite <- Eq. apply (dr_serves _ _ _ _ _ _ Hd').
  - pose proof (aexec_serial bsize es a a' E (dr_idle _ _ _ _ _ _ Hd)) as Es.
    unfold remaining in Es. rewrite Hq in Es. simpl in Es.
    assert (E0 : (if a_finished a then [] else []) = [] :> list transfer) by by destruct (a_finished a).
    rewrite E0 in Es. simpl in Es.
    destruct (dr_ctl _ _ _ _ _ _ Hd) as (_ & _ & _ & _ & Eb & _).
    destruct (dr_ctl _ _ _ _ _ _ Hd') as (_ & _ & _ & _ & Eb' & _).
    by rewrite Eb, Eb', (dr_memory _ _ _ _ _ _ Hd), (dr_memory _ _ _ _ _ _ Hd').
Qed.

(** [disk_interrupt_handle] returns: an interrupt of another device changes
    nothing, and the end of a transfer takes its request off the queue with
    return value 0, raises its semaphore by one and starts the next transfer. *)
Theorem disk_interrupt_correct d a :
  drep base bsize memsize nblocks d a →
  returns (disk_interrupt_handle base d) (λ d',
    match a_queue a with
    | (p, t) :: q =>
        if a_finished a then
          drep base bsize memsize nblocks d' (ADisk q false (a_sync a) (a_blocks a) (a_memory a)) ∧
          ∃ r i x, requests d !! p = Some r ∧ sem r = Some i ∧ row (table d) i x ∧
            table d' = <[Z.to_nat i := Sem 0 (value x + 1) (creator x)]> (table d) ∧
            ∃ r', requests d' !! p = Some r' ∧ return_value r' = 0
        else d' = d
    | [] => d' = d
    end).
Proof.
  intros Hd.
  assert (Hidle : (∀ w, phase_of a ≠ Finished w) → disk_interrupt_handle base d = Done d)
    by (intros; by eapply interrupt_idle).
  unfold phase_of in Hidle. destruct (a_queue a) as [|[p t] q] eqn:Eq; [by rewrite Hidle|].
  destruct (a_finished a) eqn:Ef; [|by rewrite Hidle]. by eapply (interrupt_spec base).
Qed.

(** C17. A call of [disk_read_block] or [disk_write_block] without a semaphore, on
    an idle disk, fails only if no semaphore is left; otherwise its caller
    sleeps, and once the controller has done the transfer and its interrupt has
    been handled the call returns success with the block moved, and nothing else
    changed on the disk. *)
Theorem disk_request_completes d a cpu rnd p t r tid :
  0 < base → base + sizeof_semaphore * CONFIG_MAX_SEMAPHORES ≤ 2 ^ 32 →
  drep base bsize memsize nblocks d a → a_queue a = [] → a_sync a !! p = None →
  Forall (λ l, length l = bsize) (a_blocks a) →
  requests d !! p = Some r → fills_in t r → acc bsize memsize nblocks t = true →
  caller (kern (skern d)) cpu tid →
  returns (disk_transfer_block t cpu rnd p d) (λ '(res, d1),
    match res with
    | Some v => v = 0 ∧ ∀ j x, table d !! j = Some x → creator x ≠ -1
    | None =>
        (∃ th, thread_table (kern (skern d1)) !! Z.to_nat tid = Some th ∧ state th = THREAD_SLEEPING) ∧
        returns (disk_interrupt_handle base (disk_transfer d1)) (λ d2,
          returns (disk_submit_finish p d2) (λ '(v, d3), v = 1 ∧ served t d d3 ∧
            ∃ b' m', drep base bsize memsize nblocks d3 (ADisk [] false (delete p (<[p := true]> (a_sync a))) b' m')))
    end).
Proof.
  intros Hb Ht Hd Hq Hs Hbl Hr Hfill Hacc Hcall.
  set (op := if t_write t then GBD_OPERATION_WRITE else GBD_OPERATION_READ).
  assert (E : disk_transfer_block t cpu rnd p d =
    let* d := upd_request p (set_op op) d in disk_submit_request base cpu rnd p d)
    by (unfold disk_transfer_block, op; by destruct (t_write t)).
  rewrite E. unfold upd_request, get_request. rewrite Hr. cbn [outcome_bind]. clear E.
  assert (Hnq : ¬ queued a p) by (unfold queued; rewrite Hq; apply not_elem_of_nil).
  pose proof (drep_null base bsize memsize nblocks _ _ _ _ Hd Hr) as Hp0.
  set (d0 := DState _ (<[p := set_op op r]> _) _ _ _).
  assert (Hd0 : drep base bsize memsize nblocks d0 a) by (apply drep_write; try done; apply Hd).
  assert (Hid : a_finished a = false) by (by apply (dr_idle _ _ _ _ _ _ Hd)).
  destruct (dr_ctl _ _ _ _ _ _ Hd) as (_ & _ & _ & _ & Eb & Hn).
  destruct Hcall as (Hcur & Hcall). pose proof Hcall as (_ & Htid & _).
  unfold disk_submit_request. apply returns_bind. eapply returns_mono.
  { apply (submit_sync base bsize memsize nblocks d0 a cpu p t (set_op op r) tid); try done.
    - simpl. by rewrite lookup_insert_eq.
    - by apply asks_op.
    - apply Hfill. }
  intros [[v|b] d1] (Hk & Hres); [by destruct Hres as (-> & _ & ?)|]. destruct Hres as [-> Hd1].
  apply returns_bind. eapply returns_mono.
  { eapply (submit_wait_spec base Hb Ht); [exact Hd1|by apply lookup_insert_eq|].
    rewrite Hk. split; [exact Hcur|exact Hcall]. }
  intros [slept d2] (Hd2 & -> & Hsleep). unfold with_request in Hd2, Hsleep |- *.
  cbn [a_queue a_finished a_sync a_blocks a_memory] in Hd2.
  assert (Hqd : queued (with_request p t true a) p).
  { unfold queued, with_request. simpl. rewrite fmap_app. apply elem_of_app. right. by left. }
  rewrite bool_decide_eq_true_2 in Hsleep |- * by exact Hqd. cbn [returns].
  split; [destruct Hsleep as (_ & _ & th & _ & _ & ? & ? & _); by exists th|].
  rewrite Hq, Hid, insert_insert_eq in Hd2. simpl in Hd2.
  eapply (request_rest d d2 p t); [done|done|by symmetry|by symmetry; apply Hd|done|done|done| |exact Hd2].
  by rewrite lookup_insert_eq.
Qed.

(** Submitting a request returns and appends it to the queue, starting it
    if the disk is idle; a synchronous one gets a semaphore of its own and is
    refused only if none is left. *)
Theorem disk_submit_correct d a cpu p t sync r :
  drep base bsize memsize nblocks d a → may_submit bsize memsize nblocks d a cpu p t sync r →
  returns (disk_submit_queue cpu p d) (λ '(res, d'),
    kern (skern d') = kern (skern d) ∧
    match res with
    | inr b => b = sync ∧ drep base bsize memsize nblocks d' (with_request p t sync a)
    | inl v => v = 0 ∧ sync = true ∧ drep base bsize memsize nblocks d' a ∧
        ∀ j x, table d !! j = Some x → creator x ≠ -1
    end).
Proof.
  intros Hd [Hr Ha Hacc Hq Hs Hsem]. destruct sync.
  - destruct Hsem as (Hn & tid & Hc & Ht).
    eapply returns_mono; [by apply (submit_sync base bsize memsize nblocks d a cpu p t r tid)|].
    intros [[v|b] d'] (Hk & Hres); naive_solver.
  - destruct Hsem as (i & x & Hi & Hrow & Hu).
    eapply returns_mono; [by apply (submit_async base bsize memsize nblocks d a cpu p t r i x)|].
    intros [res d'] (-> & Hd' & ->). done.
Qed.
End disk.

(** ** Interrupts and devices *)

(** Whether the scheduler runs at the end of an interrupt. *)
Definition reschedules {S} `{HasKernel S} (cause cpu : Z) (s : S) : Prop :=
  Z.land cause (Z.lor INTERRUPT_CAUSE_SOFTWARE_0 INTERRUPT_CAUSE_HARDWARE_5) ≠ 0 ∨
  aread (scheduler_current_thread (get_kernel s)) cpu = Done IDLE_THREAD_TID.

Lemma current_row k cpu :
  kinv k → 0 ≤ cpu < CONFIG_MAX_CPUS → ∃ th, thread_get_current_thread_entry cpu k = Done th.
Proof.
  intros Hk Hcpu. destruct (kinv_cpu _ cpu Hk Hcpu) as [t Ht]. destruct Hk as [(a & Ha & Hi) _ _ _ _].
  pose proof (ai_curs _ _ _ Hi) as Hok. rewrite Forall_lookup in Hok.
  pose proof Ht as [_ Hl]%aread_Done. specialize (Hok _ _ Hl). unfold tid_ok in Hok.
  destruct (aread_in_range (thread_table k) t) as (th & _ & Hth); [rewrite (kr_len _ _ Ha); done|].
  exists th. unfold thread_get_current_thread_entry, thread_get_thread_entry. by rewrite Ht.
Qed.

(** C20. [interrupt_handle] panics on an exception; otherwise the handlers
    registered for the cause run in the order of their registration, and if they
    return it returns: exactly on a timer interrupt, a requested switch or an
    idle CPU it runs the scheduler and fills the TLB with the page table of the
    thread that was chosen. *)
Theorem interrupt_handle_correct {S} `{HasKernel S} (call : Z → device_t → S → outcome S)
    (pagetable_at : Z → S → option pagetable_t) cause cpu rnd regs table c (s : S) :
  table_holds regs table →
  (Z.land cause 0x7c ≠ 0 → interrupt_handle call pagetable_at cause cpu rnd table c s =
     Panic "Exception in interrupt_handle") ∧
  (∀ s1, Z.land cause 0x7c = 0 → dispatch call cause regs s = Done s1 →
    kinv (get_kernel s1) → 0 ≤ cpu < CONFIG_MAX_CPUS →
    (∀ a s pt, pagetable_at a s = Some pt →
      pt_ok pt ∧ valid_count pt ≤ Z.of_nat (length (tlb_entries (cpu_tlb c)))) →
    returns (interrupt_handle call pagetable_at cause cpu rnd table c s) (λ '(c', s'),
      kinv (get_kernel s') ∧
      cp0_cause c' = (if Z.land cause INTERRUPT_CAUSE_SOFTWARE_0 =? 0 then cp0_cause c
                      else Z.land (cp0_cause c) 0xfffffeff) ∧
      (¬ reschedules cause cpu s1 → s' = s1 ∧ cpu_tlb c' = cpu_tlb c) ∧
      (reschedules cause cpu s1 → ∃ k th,
         scheduler_schedule cpu rnd (get_kernel s1) = Done k ∧ s' = put_kernel k s1 ∧
         thread_get_current_thread_entry cpu k = Done th ∧
         ∀ pt, pagetable_at (pagetable th) s' = Some pt →
           tlb_asid (cpu_tlb c') = ASID pt ∧
           take (Z.to_nat (valid_count pt)) (tlb_entries (cpu_tlb c')) =
             take (Z.to_nat (valid_count pt)) (entries pt)))).
Proof.
  intros Ht. split.
  { intros Hc. unfold interrupt_handle. by rewrite (proj2 (Z.eqb_neq _ _) Hc). }
  intros s1 Hc Hd Hk Hcpu Hpt. unfold interrupt_handle. rewrite Hc. cbn [Z.eqb negb].
  rewrite (run_handlers_spec _ _ _ _ _ Ht), Hd. cbn [outcome_bind].
  set (c1 := if negb (Z.land cause INTERRUPT_CAUSE_SOFTWARE_0 =? 0) then _ else c).
  assert (Hc1 : cpu_tlb c1 = cpu_tlb c ∧ cp0_cause c1 =
    (if Z.land cause INTERRUPT_CAUSE_SOFTWARE_0 =? 0 then cp0_cause c else Z.land (cp0_cause c) 0xfffffeff))
    by (unfold c1; by destruct (_ =? 0)).
  destruct Hc1 as [Htlb Hcause]. destruct (kinv_cpu _ cpu Hk Hcpu) as [cur Hcur].
  assert (Hsw : ∃ b, (if negb (Z.land cause (Z.lor INTERRUPT_CAUSE_SOFTWARE_0 INTERRUPT_CAUSE_HARDWARE_5) =? 0)
      then Done true
      else let* cur := aread (scheduler_current_thread (get_kernel s1)) cpu in Done (cur =? IDLE_THREAD_TID))
      = Done b ∧ (b = true ↔ reschedules cause cpu s1)).
  { unfold reschedules. rewrite Hcur. cbn [outcome_bind].
    destruct (Z.eqb_spec (Z.land cause (Z.lor INTERRUPT_CAUSE_SOFTWARE_0 INTERRUPT_CAUSE_HARDWARE_5)) 0);
      cbn [negb]; eexists; (split; [done|]); [|naive_solver].
    rewrite Z.eqb_eq. naive_solver. }
  destruct Hsw as (b & -> & Hb). cbn [outcome_bind]. destruct b.
  - apply returns_bind. pose proof (schedule_returns cpu rnd _ Hk Hcpu) as Hs.
    destruct (scheduler_schedule cpu rnd (get_kernel s1)) as [k| | | |] eqn:Ek; try done. simpl in Hs |- *.
    rewrite get_put_kernel.
    destruct (current_row k cpu Hs Hcpu) as [th Hth]. rewrite Hth. cbn [outcome_bind].
    apply returns_bind.
    assert (Htf : returns (tlb_fill (pagetable_at (pagetable th) (put_kernel k s1)) (cpu_tlb c1)) (λ t,
      ∀ pt, pagetable_at (pagetable th) (put_kernel k s1) = Some pt → tlb_asid t = ASID pt ∧
        take (Z.to_nat (valid_count pt)) (tlb_entries t) = take (Z.to_nat (valid_count pt)) (entries pt))).
    { unfold tlb_fill. destruct (pagetable_at _ _) as [pt|] eqn:Ept; [|done].
      rewrite kassert_bind by (apply Z.leb_le; rewrite Htlb; by eapply Hpt). cbn [returns].
      intros ? [= <-]. split; [done|]. destruct (Hpt _ _ _ Ept) as [[Hl Hcnt _ _ _] _]. simpl.
      rewrite take_app_le by (rewrite length_take; lia). by rewrite take_take, Nat.min_id. }
    eapply returns_mono; [exact Htf|]. intros t' Ht'. cbn [returns]. rewrite get_put_kernel.
    split_and!; [done|done| |].
    + intros Hn. destruct Hn. by apply Hb.
    + intros _. by exists k, th.
  - cbn [returns]. split_and!; [done|done|done|]. intros Hr%Hb. done.
Qed.

(** [disk_init] returns for a disk on one of the six interrupt lines: its
    objects are new memory, its queue is empty, and from then on an interrupt on
    its line runs [disk_interrupt_handle] on this device, after the handlers
    registered before. *)
Theorem disk_init_correct code desc iod st regs table :
  table_holds regs table → Z.of_nat (length regs) < CONFIG_MAX_DEVICES →
  0 ≤ io_irq iod ≤ 5 → room st 52 → free_area_start st mod 4 = 0 →
  returns (disk_init code desc iod st table) (λ '(dev, g, r, st', table'),
    let a := free_area_start st in
    gbd_device g = a ∧ generic_device dev = a + sizeof_device ∧
    real_device dev = a + sizeof_device + sizeof_gbd ∧ free_area_start st' = a + 52 ∧
    io_address dev = io_area_base iod ∧ r = DiskReal 0 0 0 ∧
    ∃ mask, table_holds (regs ++ [Registration dev mask (a_interrupt_handle code)]) table' ∧
      ∀ T (call : Z → device_t → T → outcome T) cause s s1,
        Z.testbit cause (io_irq iod + 10) = true → dispatch call cause regs s = Done s1 →
        run_handlers call cause table' s = call (a_interrupt_handle code) dev s1).
Proof.
  intros Ht Hlen Hirq (Hf & _ & Hr) Hal. unfold disk_init.
  destruct (stalloc_word st sizeof_device) as (st1 & -> & E1); [unfold room, sizeof_device; lia|done|done|].
  cbn [outcome_bind].
  destruct (stalloc_word st1 sizeof_gbd) as (st2 & -> & E2); [unfold room, sizeof_gbd, sizeof_device in *; lia|done| |].
  { rewrite E1, <- Z.add_mod_idemp_l, Hal by done. done. }
  cbn [outcome_bind].
  destruct (stalloc_word st2 sizeof_disk_real_device) as (st3 & -> & E3);
    [unfold room, sizeof_disk_real_device, sizeof_gbd, sizeof_device in *; lia|done| |].
  { rewrite E2, E1, <- Z.add_assoc, <- Z.add_mod_idemp_l, Hal by done. done. }
  cbn [outcome_bind]. unfold sizeof_disk_real_device, sizeof_gbd, sizeof_device in *.
  rewrite !(proj2 (Z.eqb_neq _ _)) by lia. cbn [orb].
  rewrite u32_id by (unfold is_u32; lia). rewrite (proj2 (Z.leb_gt _ _)) by lia.
  set (dev := Device _ _ _ _ _). apply returns_bind.
  eapply returns_mono; [by apply (register_line_spec regs)|]. intros table' [Ht' Hrun]. cbn [returns].
  split; [done|]. split; [cbn; lia|]. split; [cbn; lia|]. split; [lia|]. split; [done|]. split; [done|].
  by eexists.
Qed.

(** [device_init] initialises the devices that have a driver, in the order of
    their descriptors, and [device_get] then answers the [n]-th of those of a
    type, or NULL. *)
Theorem device_init_correct {T} (drivers : list (drivers_available_t T)) io_desc dv s found s' :
  Z.of_nat (length io_desc) = YAMS_MAX_DEVICES →
  Z.of_nat (length (device_table dv)) = CONFIG_MAX_DEVICES → number_of_devices dv = 0 →
  probe drivers 0 io_desc s = Done (found, s') →
  returns (device_init drivers io_desc dv s) (λ '(dv', s2), s2 = s' ∧
    number_of_devices dv' = Z.of_nat (length found) ∧
    ∀ t n, is_u32 n →
      device_get t n dv' = Done (List.filter (λ d, type d =? t) found !! Z.to_nat n)).
Proof.
  intros Hlen Ht Hn Hp.
  destruct (device_init_spec drivers io_desc dv s found s' Hlen) as (dv' & -> & Hdv); [|done|].
  { by split_and!. }
  split; [done|]. split; [apply Hdv|]. intros t n Hu. by apply device_get_spec.
Qed.

(** Registering a handler accepts the eight interrupt lines, keeps the
    handlers registered before and adds the new one behind them; with a full
    table the code does not reach its panic but reads past the end of the table. *)
Theorem interrupt_register_correct regs irq handler dev table :
  table_holds regs table →
  (¬ irq_ok irq → interrupt_register irq handler dev table = Panic "interrupt_register") ∧
  (irq_ok irq → Z.of_nat (length regs) < CONFIG_MAX_DEVICES →
    returns (interrupt_register irq handler dev table)
      (table_holds (regs ++ [Registration dev irq handler]))) ∧
  (irq_ok irq → Z.of_nat (length regs) = CONFIG_MAX_DEVICES →
    interrupt_register irq handler dev table = Fault).
Proof.
  intros Ht. split_and!.
  - apply interrupt_register_bad.
  - by apply interrupt_register_spec.
  - by apply interrupt_register_full with (regs := regs).
Qed.

(** ** A machine on which the theorems apply: a disk of two blocks of two bytes
    and a request for the second block, by the thread of the semaphore example *)
Definition demo_transfer : transfer := Transfer false 1 8.
Definition demo_request : gbd_request_t := Request 1 8 None GBD_OPERATION_READ 0 0 0.
Definition demo_blocks : list (list Z) := [[1; 2]; [3; 4]].
Definition demo_disk : dstate demo_hw :=
  DState demo_sk {[ 0x100 := demo_request ]} (DiskReal 0 0 0)
    (DemoHw (Controller Idle 0 0 0 0 2 64 demo_blocks) 0) (λ _, 0).
Definition demo_adisk : adisk := ADisk [] false ∅ demo_blocks (λ _, 0).

Lemma demo_disk_no_row i x : ¬ row (table demo_disk) i x.
Proof.
  intros (_ & Hx & Hc). change (table demo_disk) with (replicate 128 (Sem 0 0 (-1))) in Hx.
  apply lookup_replicate in Hx as [-> _]. done.
Qed.

Lemma demo_facts : rfacts (acc 2 64 2) (unlinked (requests demo_disk)) (table demo_disk) demo_adisk.
Proof.
  split.
  - reflexivity.
  - constructor.
  - intros p t []%not_elem_of_nil.
  - intros p w Hw. discriminate Hw.
  - intros p w p' Hw. discriminate Hw.
  - intros i x Hx. destruct (demo_disk_no_row i x Hx).
Qed.

Lemma demo_drep : drep 0x9000 2 64 2 demo_disk demo_adisk.
Proof.
  split.
  - exact demo_skinv.
  - reflexivity.
  - split; reflexivity.
  - exact demo_facts.
  - reflexivity.
  - repeat split; reflexivity.
  - reflexivity.
Qed.

Lemma demo_top : 0x9000 + sizeof_semaphore * CONFIG_MAX_SEMAPHORES ≤ 2 ^ 32.
Proof. by vm_compute. Qed.

Lemma demo_sizes : Forall (λ l, length l = 2%nat) (a_blocks demo_adisk).
Proof. by repeat constructor. Qed.

Lemma demo_fills : fills_in demo_transfer demo_request.
Proof. by split_and!. Qed.

Lemma disk_request_completes_witness :
  returns (disk_transfer_block 0x9000 demo_transfer 0 5 0x100 demo_disk) (λ '(res, d1),
    res = Some 0 ∨ returns (disk_interrupt_handle 0x9000 (disk_transfer d1)) (λ d2,
      returns (disk_submit_finish 0x100 d2) (λ '(v, d3), v = 1 ∧ mem_slice 8 2 (memory d3) = [3; 4]))).
Proof.
  eapply returns_mono; [exact (disk_request_completes 0x9000 2 64 2 demo_disk demo_adisk 0 5 0x100
    demo_transfer demo_request 1 eq_refl demo_top demo_drep eq_refl eq_refl demo_sizes eq_refl
    demo_fills eq_refl demo_caller)|].
  intros [[v|] d1]; [by intros [-> _]; left|]. intros [_ H1]. right.
  eapply returns_mono; [exact H1|]. intros d2 H2. eapply returns_mono; [exact H2|].
  intros [v d3] (-> & [_ Hm] & _). split; [done|]. apply (inj Some). symmetry. exact Hm.
Defined.

Lemma demo_may_submit : may_submit 2 64 2 demo_disk demo_adisk 0 0x100 demo_transfer true demo_request.
Proof.
  split; [reflexivity|by split_and!|reflexivity|apply not_elem_of_nil|reflexivity|].
  split; [reflexivity|]. exists 1. split; [exact demo_run_current|done].
Qed.

Lemma disk_submit_correct_witness :
  returns (disk_submit_queue 0 0x100 demo_disk) (λ '(res, d'),
    res = inl 0 ∨ serves (requests d') (real d') [0x100]).
Proof.
  eapply returns_mono; [apply (disk_submit_correct 0x9000 2 64 2 demo_disk demo_adisk 0 0x100
    demo_transfer true demo_request demo_drep demo_may_submit)|].
  intros [[v|b] d'] (_ & Hres); [left; by destruct Hres as [-> _]|right].
  destruct Hres as [_ Hd]. exact (dr_serves _ _ _ _ _ _ Hd).
Defined.

(** The request submitted, then its transfer done. *)
Definition demo_disk1 : dstate demo_hw :=
  match disk_submit_queue 0 0x100 demo_disk with Done (_, d) => d | _ => demo_disk end.
Definition demo_disk2 : dstate demo_hw := disk_transfer demo_disk1.
Definition demo_events : list event := [ESubmit 0x100 demo_transfer true; ETransfer].

Lemma demo_disk_steps : dsteps 0x9000 2 64 2 demo_disk demo_adisk demo_events demo_disk2.
Proof.
  apply (dsteps_cons _ _ _ _ _ _ (Some (ESubmit 0x100 demo_transfer true)) demo_disk1 [ETransfer]).
  { apply (st_submit _ _ _ _ _ _ 0 0x100 demo_transfer true demo_request); [exact demo_may_submit|].
    vm_compute. reflexivity. }
  apply (dsteps_cons _ _ _ _ _ _ (Some ETransfer) demo_disk2 []); [|constructor].
  apply (st_transfer _ _ _ _ _ _ demo_transfer). vm_compute. reflexivity.
Qed.

Lemma disk_serves_in_order_witness :
  serves (requests demo_disk2) (real demo_disk2) [0x100] ∧
  c_blocks (hw_view (io demo_disk2)) = demo_blocks ∧ mem_slice 8 2 (memory demo_disk2) = [3; 4].
Proof.
  destruct (disk_serves_in_order 0x9000 2 64 2 demo_disk demo_adisk demo_events demo_disk2
    eq_refl demo_top demo_drep eq_refl demo_disk_steps) as (_ & Hs & E & _).
  split; [exact Hs|].
  assert (E' : (c_blocks (hw_view (io demo_disk2)), memory demo_disk2) =
    (demo_blocks, mem_write 8 [3; 4] (λ _, 0))) by (rewrite E; reflexivity).
  apply pair_eq in E' as [Eb Em]. split; [exact Eb|]. rewrite Em. reflexivity.
Defined.

Lemma disk_interrupt_correct_witness :
  returns (disk_interrupt_handle 0x9000 demo_disk2) (λ d', serves (requests d') (real d') []).
Proof.
  destruct (dsteps_refines 0x9000 eq_refl demo_top 2 64 2 demo_disk demo_adisk demo_events demo_disk2
    demo_drep demo_disk_steps) as (a' & E & Hd).
  apply (inj Some) in E as <-. pose proof (disk_interrupt_correct 0x9000 2 64 2 demo_disk2 _ Hd) as Hi.
  eapply returns_mono; [exact Hi|]. intros d' [Hd' _]. exact (dr_serves _ _ _ _ _ _ Hd').
Defined.

Definition demo_device : device_t := Device 0x200 0x300 0x400 0x500 TYPECODE_DISK.
Definition demo_regs : list registration := [Registration demo_device 0x2000 0x700].
Definition demo_table : list interrupt_entry_t :=
  (entry_of <$> demo_regs) ++ replicate 127 (IntEntry None 0 0).

Lemma demo_table_holds : table_holds demo_regs demo_table.
Proof.
  exists (replicate 127 (IntEntry None 0 0)). split_and!; [done| |done].
  apply Forall_replicate. done.
Qed.

Lemma kinv_timer x k : kinv k → kinv (get_kernel (set_timer x k)).
Proof.
  change (get_kernel (set_timer x k)) with (set_timer x k).
  intros [(a & Ha & Hi) H1 H2 H3 H4]. split; try done. exists a. split; [|exact Hi].
  destruct Ha. by split.
Qed.

Lemma demo_dispatch k :
  dispatch (λ _ _ k, Done (set_timer 7 k)) 0x2000 demo_regs k = Done (set_timer 7 k).
Proof. reflexivity. Qed.

Lemma interrupt_handle_correct_witness :
  returns (interrupt_handle (λ _ _ k, Done (set_timer 7 k)) (λ _ _, None) 0x2000 0 5 demo_table
    (Cpu 0 (Tlb [] 0)) demo_running) (λ '(_, k), k = set_timer 7 demo_running).
Proof.
  generalize demo_run_kinv demo_run_current. generalize demo_running. intros k Hk Hr.
  destruct (interrupt_handle_correct (λ _ _ k, Done (set_timer 7 k)) (λ _ _, None) 0x2000 0 5 demo_regs
    demo_table (Cpu 0 (Tlb [] 0)) k demo_table_holds) as [_ Hi].
  specialize (Hi (set_timer 7 k) eq_refl (demo_dispatch k) (kinv_timer 7 k Hk) ltac:(done) ltac:(discriminate)).
  eapply returns_mono; [exact Hi|].
  intros [c' k'] (_ & _ & Hn & _). apply Hn. intros [Hc|Hc]; [by destruct Hc|].
  change (thread_get_current_thread 0 k = Done 0) in Hc. congruence.
Defined.

Lemma interrupt_register_correct_witness :
  interrupt_register 0x10000 0x700 demo_device demo_table = Panic "interrupt_register" ∧
  returns (interrupt_register 0x400 0x700 demo_device demo_table)
    (table_holds (demo_regs ++ [Registration demo_device 0x400 0x700])).
Proof.
  split.
  - by apply (interrupt_register_correct demo_regs 0x10000 0x700 demo_device demo_table demo_table_holds).
  - by apply (interrupt_register_correct demo_regs 0x400 0x700 demo_device demo_table demo_table_holds).
Defined.

Definition demo_descriptor : io_descriptor_t := IoDescriptor TYPECODE_DISK 0x500 20 3 [].

Lemma disk_init_correct_witness :
  returns (disk_init (DiskCode 1 2 3 4 5) 0xb0000000 demo_descriptor (Stalloc 0x80020000 0) demo_table)
    (λ '(dev, g, r, _, _), r = DiskReal 0 0 0 ∧ gbd_device g = 0x80020000).
Proof.
  eapply returns_mono; [apply (disk_init_correct (DiskCode 1 2 3 4 5) 0xb0000000 demo_descriptor
    (Stalloc 0x80020000 0) demo_regs demo_table demo_table_holds); done|].
  intros [[[[dev g] r] st'] table'] (Hg & _ & _ & _ & _ & Hr & _). split; [exact Hr|exact Hg].
Defined.

(** A driver for disks, on a machine with one disk among its descriptors. *)
Definition demo_drivers : list (drivers_available_t nat) :=
  [Driver TYPECODE_DISK "Disk" (λ desc d n, Done (Some (Device 0 0 desc (io_area_base d) (io_type d)), S n))].
Definition demo_descriptors : list io_descriptor_t :=
  IoDescriptor 0x999 0 0 0 [] :: demo_descriptor :: replicate 126 (IoDescriptor 0 0 0 0 []).

Lemma device_init_correct_witness :
  returns (device_init demo_drivers demo_descriptors (Devices (replicate 128 None) 0) 0%nat)
    (λ '(dv, n), n = 1%nat ∧ device_get TYPECODE_DISK 0 dv
       = Done (Some (Device 0 0 0xb0000020 0x500 TYPECODE_DISK))).
Proof.
  eapply returns_mono; [apply (device_init_correct demo_drivers demo_descriptors
    (Devices (replicate 128 None) 0) 0%nat [Device 0 0 0xb0000020 0x500 TYPECODE_DISK] 1%nat);
    by vm_compute|].
  intros [dv n] (-> & _ & Hg). split; [done|]. by apply (Hg TYPECODE_DISK 0).
Defined.
