(* ===== verification/Tty.v ===== *)
(** * The terminal driver (drivers/mips32/tty.c, tty.h, drivers/gcd.h)

    The interrupt-driven terminal: a ring buffer for each direction, filled and
    emptied by the interrupt handler on one side and by [tty_read] and
    [tty_write] on the other, which sleep on the buffer when they cannot go on.

    The code of the two calls is cut where the caller has queued itself to sleep
    and released the lock, just before [thread_switch]: [Sleeps] says so.  The
    rest of the kernel may run there, also on other CPUs; [tty_write_resume] and
    [tty_read_resume] are what follows the switch. *)

From S2P Require Import Prelude PhysMem Threads Devices Interrupts.

(** ** The registers of the terminal *)
Definition TTY_STATUS_RAVAIL (status : Z) : Z := Z.land status 0x00000001.
Definition TTY_STATUS_WBUSY (status : Z) : Z := Z.shiftr (Z.land status 0x00000002) 1.
Definition TTY_STATUS_RIRQ (status : Z) : Z := Z.shiftr (Z.land status 0x00000004) 2.
Definition TTY_STATUS_WIRQ (status : Z) : Z := Z.shiftr (Z.land status 0x00000008) 3.
Definition TTY_STATUS_ERROR (status : Z) : Z := Z.shiftr (Z.land status 0x80000000) 31.

Definition TTY_COMMAND_RIRQ : Z := 0x01.
Definition TTY_COMMAND_WIRQ : Z := 0x02.
Definition TTY_COMMAND_WIRQE : Z := 0x03.
Definition TTY_COMMAND_WIRQD : Z := 0x04.

Definition TTY_BUF_SIZE : Z := 2048.

(** Reading the data register takes the character out of the device. *)
Class TtyHw (H : Type) := {
  tty_status : H → Z;
  tty_command : Z → H → H;
  tty_get : H → Z * H;
  tty_put : Z → H → H
}.

(** What the driver relies on: the device keeps the characters that were typed
    ([typed]) until they are read, and shows those it is given ([shown]); once it
    has been given a character it is busy or has raised the write interrupt; a
    command for one interrupt does not lower the other. *)
Class TtyHwSpec (H : Type) {hw : TtyHw H} := {
  typed : H → list Z;
  shown : H → list Z;
  tty_ravail h : TTY_STATUS_RAVAIL (tty_status h) ≠ 0 ↔ typed h ≠ [];
  tty_get_spec h c l : typed h = c :: l →
    fst (tty_get h) = c ∧ typed (snd (tty_get h)) = l ∧ shown (snd (tty_get h)) = shown h ∧
    TTY_STATUS_WBUSY (tty_status (snd (tty_get h))) = TTY_STATUS_WBUSY (tty_status h) ∧
    TTY_STATUS_WIRQ (tty_status (snd (tty_get h))) = TTY_STATUS_WIRQ (tty_status h);
  tty_put_spec h c : TTY_STATUS_WBUSY (tty_status h) = 0 →
    typed (tty_put c h) = typed h ∧ shown (tty_put c h) = shown h ++ [u8 c] ∧
    TTY_STATUS_RIRQ (tty_status (tty_put c h)) = TTY_STATUS_RIRQ (tty_status h) ∧
    (TTY_STATUS_WBUSY (tty_status (tty_put c h)) ≠ 0 ∨
     TTY_STATUS_WIRQ (tty_status (tty_put c h)) ≠ 0);
  tty_command_spec h c : typed (tty_command c h) = typed h ∧ shown (tty_command c h) = shown h ∧
    TTY_STATUS_WBUSY (tty_status (tty_command c h)) = TTY_STATUS_WBUSY (tty_status h) ∧
    (c ≠ TTY_COMMAND_RIRQ →
     TTY_STATUS_RIRQ (tty_status (tty_command c h)) = TTY_STATUS_RIRQ (tty_status h)) ∧
    (c ≠ TTY_COMMAND_WIRQ → TTY_STATUS_WIRQ (tty_status h) ≠ 0 →
     TTY_STATUS_WIRQ (tty_status (tty_command c h)) ≠ 0);
  tty_rirq_accepted h : TTY_STATUS_ERROR (tty_status (tty_command TTY_COMMAND_RIRQ h)) = 0
}.

(** ** The driver *)
Record tty_real_device_t := TtyReal {
  tty_slock : Z;
  read_buf : list Z;
  read_head : Z;
  read_count : Z;
  write_buf : list Z;
  write_head : Z;
  write_count : Z
}.

Record tstate (H : Type) := TState { tkern : kernel; tty : tty_real_device_t; tio : H }.
Arguments TState {H}.
Arguments tkern {H}.
Arguments tty {H}.
Arguments tio {H}.

(** The end of a piece of a call: it has returned, or its caller is about to
    switch to another thread. *)
Inductive progress (A : Type) := Returns (a : A) | Sleeps (i : Z).
Arguments Returns {A} a.
Arguments Sleeps {A} i.

Section driver.
Context {H : Type} {hw : TtyHw H}.
(** The addresses of the two buffers, on which threads sleep. *)
Variables read_addr write_addr : Z.
Implicit Types d : tstate H.

Definition set_tkern (k : kernel) d : tstate H := TState k (tty d) (tio d).
Definition set_tty (t : tty_real_device_t) d : tstate H := TState (tkern d) t (tio d).
Definition set_tio (h : H) d : tstate H := TState (tkern d) (tty d) h.

Definition set_tslock (l : Z) d : tstate H :=
  let t := tty d in
  set_tty (TtyReal l (read_buf t) (read_head t) (read_count t) (write_buf t) (write_head t)
    (write_count t)) d.
Definition tty_acquire d : outcome (tstate H) :=
  let* l := spin (tty_slock (tty d)) in Done (set_tslock l d).
Definition tty_release d : tstate H := set_tslock 0 d.

Definition set_write (b : list Z) (h c : Z) d : tstate H :=
  let t := tty d in
  set_tty (TtyReal (tty_slock t) (read_buf t) (read_head t) (read_count t) b h c) d.
Definition set_read (b : list Z) (h c : Z) d : tstate H :=
  let t := tty d in
  set_tty (TtyReal (tty_slock t) b h c (write_buf t) (write_head t) (write_count t)) d.

(** The character at the head of the write buffer, a signed [char], goes to the
    device. *)
Definition tty_put_head d : outcome (tstate H) :=
  let t := tty d in
  let* c := aread (write_buf t) (write_head t) in
  let d := set_tio (tty_put (u32 (s8 c)) (tio d)) d in
  Done (set_write (write_buf t) ((write_head t + 1) `rem` TTY_BUF_SIZE) (write_count t - 1) d).

(** The loop of the handler that empties the write buffer. *)
Definition tty_drain d : outcome (tstate H) :=
  while_loop (S (Z.to_nat (write_count (tty d)))) (λ d,
    if (TTY_STATUS_WBUSY (tty_status (tio d)) =? 0) && (0 <? write_count (tty d)) then
      let d := set_tio (tty_command TTY_COMMAND_WIRQ (tio d)) d in
      let* d := tty_put_head d in
      Done (inl d)
    else Done (inr d)) d.

(** The loop of the handler that empties the device; [fuel] bounds the number of
    characters that wait in it. *)
Definition tty_receive (fuel : nat) d : outcome (tstate H) :=
  while_loop fuel (λ d,
    if negb (TTY_STATUS_RAVAIL (tty_status (tio d)) =? 0) then
      let '(data, h) := tty_get (tio d) in
      let d := set_tio h d in
      let t := tty d in
      if TTY_BUF_SIZE <? read_count t then Done (inl d)
      else
        let index := (read_head t + read_count t) `rem` TTY_BUF_SIZE in
        let* b := awrite (read_buf t) index (u8 data) in
        Done (inl (set_read b (read_head t) (read_count t + 1) d))
    else Done (inr d)) d.

Definition tty_write_interrupt d : outcome (tstate H) :=
  let* d := tty_acquire d in
  let d := set_tio (tty_command TTY_COMMAND_WIRQD (tio d)) d in
  let d := set_tio (tty_command TTY_COMMAND_WIRQ (tio d)) d in
  let* d := tty_drain d in
  let d := set_tio (tty_command TTY_COMMAND_WIRQE (tio d)) d in
  let* d := if write_count (tty d) =? 0 then
              let* k := sleepq_wake_all write_addr (tkern d) in Done (set_tkern k d)
            else Done d in
  Done (tty_release d).

Definition tty_read_interrupt (fuel : nat) d : outcome (tstate H) :=
  let* d := tty_acquire d in
  let d := set_tio (tty_command TTY_COMMAND_RIRQ (tio d)) d in
  if negb (TTY_STATUS_ERROR (tty_status (tio d)) =? 0) then Panic "Could not issue RIRQ to TTY."
  else
    let* d := tty_receive fuel d in
    let d := tty_release d in
    let* k := sleepq_wake_all read_addr (tkern d) in
    Done (set_tkern k d).

Definition tty_interrupt_handle (fuel : nat) d : outcome (tstate H) :=
  let* d := if negb (TTY_STATUS_WIRQ (tty_status (tio d)) =? 0) then tty_write_interrupt d
            else Done d in
  if negb (TTY_STATUS_RIRQ (tty_status (tio d)) =? 0) then tty_read_interrupt fuel d
  else Done d.

(** [while (write_count < TTY_BUF_SIZE && i < len)]: the buffer takes what it can
    of [buf] from [i] on. *)
Definition tty_fill (buf : list Z) (i : Z) d : outcome (Z * tstate H) :=
  while_loop (S (length buf)) (λ '(i, d),
    let t := tty d in
    if (write_count t <? TTY_BUF_SIZE) && (i <? Z.of_nat (length buf)) then
      let index := (write_head t + write_count t) `rem` TTY_BUF_SIZE in
      let* c := aread buf i in
      let* b := awrite (write_buf t) index c in
      Done (inl (i + 1, set_write b (write_head t) (write_count t + 1) d))
    else Done (inr (i, d))) (i, d).

(** [tty_write] from a point at which it holds the lock and [i] characters are in
    the buffer; [len] is the length of [buf]. *)
Definition tty_write_loop (cpu : Z) (intr_status : bool) (buf : list Z) (i : Z) d
    : outcome (progress Z * tstate H) :=
  while_loop (S (length buf)) (λ '(i, d),
    if i <? Z.of_nat (length buf) then
      if 0 <? write_count (tty d) then
        let* k := sleepq_add cpu write_addr (tkern d) in
        Done (inr (Sleeps i, tty_release (set_tkern k d)))
      else
        let* '(i, d) := tty_fill buf i d in
        let* d := if TTY_STATUS_WBUSY (tty_status (tio d)) =? 0 then tty_put_head d else Done d in
        Done (inl (i, d))
    else
      let d := tty_release d in
      Done (inr (Returns i, set_tkern (set_intr intr_status (tkern d)) d))) (i, d).

Definition tty_write (cpu : Z) (buf : list Z) d : outcome (progress Z * tstate H) :=
  let intr_status := intr (tkern d) in
  let d := set_tkern (set_intr false (tkern d)) d in
  let* d := tty_acquire d in
  tty_write_loop cpu intr_status buf 0 d.

(** After [thread_switch], which returns with interrupts disabled as before. *)
Definition tty_write_resume (cpu : Z) (intr_status : bool) (buf : list Z) (i : Z) d
    : outcome (progress Z * tstate H) :=
  let d := set_tkern (set_intr false (tkern d)) d in
  let* d := tty_acquire d in
  tty_write_loop cpu intr_status buf i d.

(** [while (read_count > 0 && i < len)]: at most [len] characters of the buffer. *)
Definition tty_take (len : Z) d : outcome (list Z * tstate H) :=
  while_loop (S (Z.to_nat len)) (λ '(out, d),
    let t := tty d in
    if (0 <? read_count t) && (Z.of_nat (length out) <? len) then
      let* c := aread (read_buf t) (read_head t) in
      Done (inl (out ++ [c], set_read (read_buf t) ((read_head t + 1) `rem` TTY_BUF_SIZE)
        (read_count t - 1) d))
    else Done (inr (out, d))) ([], d).

(** [tty_read] from a point at which it holds the lock: the characters it
    answers, or sleep. *)
Definition tty_read_loop (cpu : Z) (intr_status : bool) (len : Z) d
    : outcome (progress (list Z) * tstate H) :=
  if read_count (tty d) =? 0 then
    let* k := sleepq_add cpu read_addr (tkern d) in
    Done (Sleeps 0, tty_release (set_tkern k d))
  else
    let* '(out, d) := tty_take len d in
    let d := tty_release d in
    Done (Returns out, set_tkern (set_intr intr_status (tkern d)) d).

Definition tty_read (cpu len : Z) d : outcome (progress (list Z) * tstate H) :=
  let intr_status := intr (tkern d) in
  let d := set_tkern (set_intr false (tkern d)) d in
  let* d := tty_acquire d in
  tty_read_loop cpu intr_status len d.

Definition tty_read_resume (cpu : Z) (intr_status : bool) (len : Z) d
    : outcome (progress (list Z) * tstate H) :=
  let d := set_tkern (set_intr false (tkern d)) d in
  let* d := tty_acquire d in
  tty_read_loop cpu intr_status len d.
End driver.

#[export] Instance tstate_has_kernel {H} : HasKernel (tstate H) := {
  get_kernel := tkern; put_kernel k d := TState k (tty d) (tio d); get_put_kernel _ _ := eq_refl }.

(** ** Start-up *)
Definition sizeof_gcd : Z := 12.
Definition sizeof_tty_real_device : Z := 4 + (2048 + 8) + (2048 + 8).

Record gcd_t := Gcd { gcd_device : Z; gcd_write : Z; gcd_read : Z }.

(** The addresses of the driver's functions and of [kprintf_slock]. *)
Record tty_code := TtyCode {
  a_tty_interrupt_handle : Z; a_tty_write : Z; a_tty_read : Z; a_kprintf_slock : Z
}.

(** The objects of a terminal: the address of its lock besides the device.  The
    [descriptor] field of the device stays as the memory was ([descriptor0]). *)
Definition tty_init (code : tty_code) (num_of_inits descriptor0 : Z) (io_desc : io_descriptor_t)
    (old : tty_real_device_t) (st : stalloc_t) (table : list interrupt_entry_t)
    : outcome (device_t * gcd_t * Z * tty_real_device_t * Z * stalloc_t * list interrupt_entry_t) :=
  let* '(dev, st) := stalloc sizeof_device st in
  if dev =? 0 then Panic "Could not reserve memory for tty driver." else
  let* '(gcd, st) := stalloc sizeof_gcd st in
  if gcd =? 0 then Panic "Could not reserve memory for tty driver." else
  let g := Gcd dev (a_tty_write code) (a_tty_read code) in
  let* '(tty_rd, st) := stalloc sizeof_tty_real_device st in
  if tty_rd =? 0 then Panic "Could not reserve memory for tty driver." else
  let* '(lock, st) :=
    if num_of_inits =? 0 then Done (a_kprintf_slock code, st)
    else
      let* '(slock, st) := stalloc 4 st in
      if slock =? 0 then Panic "Could not reserve memory for tty driver spinlock."
      else Done (slock, st) in
  let r := TtyReal (if num_of_inits =? 0 then tty_slock old else 0)
             (read_buf old) 0 0 (write_buf old) 0 0 in
  let device := Device tty_rd gcd descriptor0 (io_area_base io_desc) (io_type io_desc) in
  let shift := u32 (io_irq io_desc + 10) in
  if 32 <=? shift then Fault
  else
    let* table := interrupt_register (u32 (Z.shiftl 1 shift)) (a_tty_interrupt_handle code) device table in
    Done (device, g, lock, r, num_of_inits + 1, st, table).
