(* ===== verification/TtySpec.v ===== *)
(** * The terminal as two queues (specification of drivers/mips32/tty.c)

    The ring buffers stand for lists ([ring]); [trep] relates the state of the
    driver to the characters that wait in each direction, and says who may sleep.
    Every operation returns and keeps [trep]. *)

From S2P Require Import Prelude Threads ThreadsRef SchedRef SchedInv SchedSteps Semaphore Tty.

(** ** Ring buffers *)

(** The [n] characters from [head] on, around the end. *)
Definition ring (buf : list Z) (head : Z) (n : nat) : list Z :=
  (λ i, default 0 (buf !! Z.to_nat ((head + Z.of_nat i) mod TTY_BUF_SIZE))) <$> seq 0 n.

Record ring_ok (buf : list Z) (head count : Z) (q : list Z) : Prop := {
  ro_length : Z.of_nat (length buf) = TTY_BUF_SIZE;
  ro_head : 0 ≤ head < TTY_BUF_SIZE;
  ro_count : count = Z.of_nat (length q);
  ro_ring : ring buf head (length q) = q
}.

Lemma rem_size x : 0 ≤ x → x `rem` TTY_BUF_SIZE = x mod TTY_BUF_SIZE.
Proof. intros. by apply Z.rem_mod_nonneg. Qed.

Lemma mod_size x : 0 ≤ x mod TTY_BUF_SIZE < TTY_BUF_SIZE.
Proof. by apply Z.mod_pos_bound. Qed.

Lemma ring_insert buf head n k c :
  Z.of_nat (length buf) = TTY_BUF_SIZE →
  (∀ i, (i < n)%nat → (head + Z.of_nat i) mod TTY_BUF_SIZE ≠ k) → 0 ≤ k →
  ring (<[Z.to_nat k := c]> buf) head n = ring buf head n.
Proof.
  intros Hl Hne Hk. unfold ring. apply list_fmap_ext. intros i x Hx. apply lookup_seq in Hx as [-> Hi].
  rewrite list_lookup_insert_ne; [done|]. specialize (Hne _ Hi).
  pose proof (mod_size (head + Z.of_nat i)). simpl. lia.
Qed.

(** Different places of the window are different places of the buffer. *)
Lemma window_ne head i j :
  0 ≤ i < j → j < i + TTY_BUF_SIZE → (head + i) mod TTY_BUF_SIZE ≠ (head + j) mod TTY_BUF_SIZE.
Proof.
  intros Hi Hj E. unfold TTY_BUF_SIZE in *.
  pose proof (Z.div_mod (head + i) 2048). pose proof (Z.div_mod (head + j) 2048). lia.
Qed.

Lemma ring_push buf head count q c :
  ring_ok buf head count q → count < TTY_BUF_SIZE →
  awrite buf ((head + count) `rem` TTY_BUF_SIZE) c =
    Done (<[Z.to_nat ((head + count) mod TTY_BUF_SIZE) := c]> buf) ∧
  ring_ok (<[Z.to_nat ((head + count) mod TTY_BUF_SIZE) := c]> buf) head (count + 1) (q ++ [c]).
Proof.
  intros [Hl Hh -> Hr] Hc. pose proof (mod_size (head + Z.of_nat (length q))) as Hm.
  rewrite rem_size by lia. split; [apply awrite_in_range; lia|]. split.
  - by rewrite length_insert.
  - done.
  - rewrite length_app. simpl. lia.
  - rewrite length_app, Nat.add_1_r. unfold ring. rewrite seq_S, fmap_app. f_equal.
    + etrans; [|exact Hr]. apply ring_insert; [done| |lia]. intros i Hi. apply window_ne; lia.
    + simpl. by rewrite list_lookup_insert_eq by lia.
Qed.

Lemma ring_head buf head count c q :
  ring_ok buf head count (c :: q) →
  aread buf head = Done c ∧
  ring_ok buf ((head + 1) `rem` TTY_BUF_SIZE) (count - 1) q.
Proof.
  intros [Hl Hh -> Hr]. unfold ring in Hr. cbn [length seq] in Hr. rewrite fmap_cons in Hr.
  injection Hr as Hc Hr. rewrite Z.add_0_r, Z.mod_small in Hc by done.
  destruct (aread_in_range buf head) as (x & Hx & E); [lia|]. rewrite Hx in Hc. simpl in Hc. subst x.
  split; [done|]. rewrite rem_size by lia. split; [done|apply mod_size|cbn [length]; lia|].
  etrans; [|exact Hr]. unfold ring. rewrite <- fmap_S_seq, <- list_fmap_compose.
  apply list_fmap_ext. intros i y Hy. apply lookup_seq in Hy as [-> Hi].
  unfold compose. rewrite Z.add_mod_idemp_l by done.
  by replace (head + 1 + Z.of_nat (0 + i)) with (head + Z.of_nat (S (0 + i))) by lia.
Qed.

(** One character too many goes over the oldest one, and counts. *)
Lemma ring_overflow buf head q c0 c :
  ring_ok buf head TTY_BUF_SIZE (c0 :: q) →
  awrite buf ((head + TTY_BUF_SIZE) `rem` TTY_BUF_SIZE) c = Done (<[Z.to_nat head := c]> buf) ∧
  ring_ok (<[Z.to_nat head := c]> buf) head (TTY_BUF_SIZE + 1) (c :: q ++ [c]).
Proof.
  intros [Hl Hh Hc Hr]. rewrite rem_size by lia.
  rewrite <- (Z.mul_1_l TTY_BUF_SIZE) at 1. rewrite Z.mod_add, Z.mod_small by done.
  split; [apply awrite_in_range; lia|].
  assert (Hq : length q = 2047%nat) by (unfold TTY_BUF_SIZE in Hc; simpl in Hc; lia).
  split.
  - by rewrite length_insert.
  - done.
  - simpl. rewrite length_app, Hq. done.
  - change (length (c :: q ++ [c])) with (S (length (q ++ [c]))). rewrite length_app, Nat.add_1_r.
    change (length (c0 :: q)) with (S (length q)) in Hr.
    unfold ring in Hr |- *. rewrite <- cons_seq, fmap_cons in Hr |- *.
    injection Hr as _ Hr. rewrite Z.add_0_r, Z.mod_small, list_lookup_insert_eq by lia.
    cbn [default from_option]. unfold id. f_equal. rewrite seq_S, fmap_app. f_equal.
    + etrans; [|exact Hr]. apply list_fmap_ext. intros i x Hx. apply lookup_seq in Hx as [-> Hi].
      rewrite list_lookup_insert_ne; [done|]. pose proof (mod_size (head + Z.of_nat (1 + i))).
      pose proof (window_ne head 0 (Z.of_nat (1 + i))) as Hw. rewrite Z.add_0_r, Z.mod_small in Hw by done.
      unfold TTY_BUF_SIZE in *. lia.
    + simpl. rewrite Hq. change (Z.of_nat (S 2047)) with TTY_BUF_SIZE.
      rewrite <- (Z.mul_1_l TTY_BUF_SIZE) at 1. rewrite Z.mod_add, Z.mod_small by done.
      by rewrite list_lookup_insert_eq by lia.
Qed.

(** The input queue when a character arrives: with 2048 characters in it the new
    one takes the place of the oldest and is queued again behind the others. *)
Definition arrive (q : list Z) (c : Z) : list Z :=
  if (Z.of_nat (length q) <? TTY_BUF_SIZE) then q ++ [c]
  else if Z.of_nat (length q) =? TTY_BUF_SIZE then c :: tail q ++ [c] else q.

Lemma u8_char c : u8 (u32 (s8 c)) = u8 c.
Proof.
  unfold u8, u32, s8. rewrite Z.mod_mod_divide by (by exists (2 ^ 24)).
  rewrite Zminus_mod, Z.mod_mod, <- Zminus_mod by done. f_equal. lia.
Qed.

Section loops.
Context {H : Type} {hw : TtyHw H} {spec : TtyHwSpec H}.
Implicit Types d : tstate H.

Notation busy h := (TTY_STATUS_WBUSY (tty_status h) ≠ 0).
Notation raised h := (TTY_STATUS_WIRQ (tty_status h) ≠ 0).

Definition out_ok d (q : list Z) : Prop :=
  ring_ok (write_buf (tty d)) (write_head (tty d)) (write_count (tty d)) q.
Definition in_ok d (q : list Z) : Prop :=
  ring_ok (read_buf (tty d)) (read_head (tty d)) (read_count (tty d)) q.

(** [d'] differs from [d] in the write buffer and the device only. *)
Definition writes d d' : Prop :=
  ∃ wb wh wc h, d' = set_tio h (set_write wb wh wc d).
Definition reads d d' : Prop :=
  ∃ rb rh rc h, d' = set_tio h (set_read rb rh rc d).

#[global] Instance writes_refl : Reflexive writes.
Proof. intros d. exists (write_buf (tty d)), (write_head (tty d)), (write_count (tty d)), (tio d). by destruct d as [k [] h]. Qed.
#[global] Instance writes_trans : Transitive writes.
Proof. intros d1 d2 d3 (? & ? & ? & ? & ->) (wb & wh & wc & h & ->). by exists wb, wh, wc, h. Qed.
#[global] Instance reads_refl : Reflexive reads.
Proof. intros d. exists (read_buf (tty d)), (read_head (tty d)), (read_count (tty d)), (tio d). by destruct d as [k [] h]. Qed.
#[global] Instance reads_trans : Transitive reads.
Proof. intros d1 d2 d3 (? & ? & ? & ? & ->) (wb & wh & wc & h & ->). by exists wb, wh, wc, h. Qed.

Lemma writes_set d b hd n : writes d (set_write b hd n d).
Proof. exists b, hd, n, (tio d). by destruct d. Qed.
Lemma reads_set d b hd n : reads d (set_read b hd n d).
Proof. exists b, hd, n, (tio d). by destruct d. Qed.
Lemma reads_io d h : reads d (set_tio h d).
Proof. exists (read_buf (tty d)), (read_head (tty d)), (read_count (tty d)), h. by destruct d as [k [] h1]. Qed.

Lemma writes_in d d' q : writes d d' → in_ok d q → in_ok d' q.
Proof. by intros (? & ? & ? & ? & ->). Qed.
Lemma writes_kern d d' : writes d d' → tkern d' = tkern d ∧ tty_slock (tty d') = tty_slock (tty d).
Proof. by intros (? & ? & ? & ? & ->). Qed.
Lemma reads_out d d' q : reads d d' → out_ok d q → out_ok d' q.
Proof. by intros (? & ? & ? & ? & ->). Qed.
Lemma reads_kern d d' : reads d d' → tkern d' = tkern d ∧ tty_slock (tty d') = tty_slock (tty d).
Proof. by intros (? & ? & ? & ? & ->). Qed.
Lemma writes_command d c : writes d (set_tio (tty_command c (tio d)) d).
Proof. exists (write_buf (tty d)), (write_head (tty d)), (write_count (tty d)), (tty_command c (tio d)). by destruct d as [k [] h]. Qed.

(** The first character of the buffer goes out. *)
Lemma put_head_spec d c q :
  out_ok d (c :: q) → TTY_STATUS_WBUSY (tty_status (tio d)) = 0 →
  ∃ d', tty_put_head d = Done d' ∧ writes d d' ∧ out_ok d' q ∧
    typed (tio d') = typed (tio d) ∧ shown (tio d') = shown (tio d) ++ [u8 c] ∧
    TTY_STATUS_RIRQ (tty_status (tio d')) = TTY_STATUS_RIRQ (tty_status (tio d)) ∧
    (busy (tio d') ∨ raised (tio d')).
Proof.
  intros Ho Hb. destruct (ring_head _ _ _ _ _ Ho) as [E Ho']. unfold tty_put_head. rewrite E.
  cbn [outcome_bind]. eexists. split; [done|].
  destruct (tty_put_spec (tio d) (u32 (s8 c)) Hb) as (Ht & Hs & Hr & Hp). rewrite u8_char in Hs.
  split; [|done]. eexists _, _, _, _. done.
Qed.

Lemma drain_spec d q :
  out_ok d q →
  returns (tty_drain d) (λ d', writes d d' ∧ ∃ l q', q = l ++ q' ∧ out_ok d' q' ∧
    typed (tio d') = typed (tio d) ∧ shown (tio d') = shown (tio d) ++ (u8 <$> l) ∧
    TTY_STATUS_RIRQ (tty_status (tio d')) = TTY_STATUS_RIRQ (tty_status (tio d)) ∧
    (l = [] → TTY_STATUS_WBUSY (tty_status (tio d')) = TTY_STATUS_WBUSY (tty_status (tio d))) ∧
    (q' ≠ [] → busy (tio d'))).
Proof.
  intros Ho. unfold tty_drain. apply (while_loop_inv (λ d', writes d d' ∧ ∃ l q', q = l ++ q' ∧
    out_ok d' q' ∧ typed (tio d') = typed (tio d) ∧ shown (tio d') = shown (tio d) ++ (u8 <$> l) ∧
    TTY_STATUS_RIRQ (tty_status (tio d')) = TTY_STATUS_RIRQ (tty_status (tio d)) ∧
    (l = [] → TTY_STATUS_WBUSY (tty_status (tio d')) = TTY_STATUS_WBUSY (tty_status (tio d))))
    (λ d', Z.to_nat (write_count (tty d')))).
  - split; [done|]. exists [], q. split_and!; try done. by rewrite app_nil_r.
  - lia.
  - intros d1 (Hw & l & q' & Eq & Ho1 & Ht & Hs & Hrq & Hbq).
    destruct (Z.eqb_spec (TTY_STATUS_WBUSY (tty_status (tio d1))) 0) as [Hb|Hb]; cbn [andb].
    2: { split; [done|]. exists l, q'. by split_and!. }
    pose proof (ro_count _ _ _ _ Ho1) as Hc. destruct q' as [|c q'].
    { rewrite Hc. cbn [length Z.of_nat Z.ltb Z.compare]. split; [done|]. exists l, []. by split_and!. }
    rewrite (proj2 (Z.ltb_lt _ _)) by (rewrite Hc; cbn [length]; lia).
    destruct (tty_command_spec (tio d1) TTY_COMMAND_WIRQ) as (Ht1 & Hs1 & Hb1 & Hr1 & _).
    set (d2 := set_tio (tty_command TTY_COMMAND_WIRQ (tio d1)) d1).
    destruct (put_head_spec d2 c q') as (d3 & -> & Hw3 & Ho3 & Ht3 & Hs3 & Hr3 & _); [done|simpl; congruence|].
    cbn [outcome_bind returns]. split.
    + split.
      * etrans; [exact Hw|]. etrans; [apply writes_command|exact Hw3].
      * exists (l ++ [c]), q'. rewrite <- app_assoc. split_and!; [done|done|simpl in Ht3; congruence| | |by intros [_ [=]]%app_eq_nil].
        { rewrite Hs3. simpl. rewrite Hs1, Hs, fmap_app, <- app_assoc. done. }
        rewrite Hr3. simpl. by rewrite Hr1.
    + pose proof (ro_count _ _ _ _ Ho3). rewrite Hc. cbn [length] in *. lia.
Qed.

Lemma arrive_ok d q c :
  in_ok d q → Z.of_nat (length q) ≤ TTY_BUF_SIZE + 1 →
  ∃ d', (if TTY_BUF_SIZE <? read_count (tty d) then Done (@inl _ (tstate H) d)
      else
        let* b := awrite (read_buf (tty d)) ((read_head (tty d) + read_count (tty d)) `rem` TTY_BUF_SIZE) c in
        Done (inl (set_read b (read_head (tty d)) (read_count (tty d) + 1) d)))
      = Done (inl d') ∧
    reads d d' ∧ tio d' = tio d ∧ in_ok d' (arrive q c) ∧
    Z.of_nat (length (arrive q c)) ≤ TTY_BUF_SIZE + 1.
Proof.
  intros Hi Hl. pose proof (ro_count _ _ _ _ Hi) as Hc. unfold arrive. rewrite Hc.
  destruct (Z.ltb_spec (Z.of_nat (length q)) TTY_BUF_SIZE) as [Hlt|Hge].
  - rewrite (proj2 (Z.ltb_ge _ _)) by lia. destruct (ring_push _ _ _ _ c Hi) as [E Ho]; [lia|].
    rewrite <- Hc, E. cbn [outcome_bind]. eexists. split_and!; [done|apply reads_set|done|exact Ho|].
    rewrite length_app. simpl. lia.
  - destruct (Z.eqb_spec (Z.of_nat (length q)) TTY_BUF_SIZE) as [He|He].
    + rewrite (proj2 (Z.ltb_ge _ _)) by lia. destruct q as [|c0 q]; [done|]. rewrite He in *.
      unfold in_ok in Hi. rewrite Hc in Hi. destruct (ring_overflow _ _ _ _ c Hi) as [E Ho].
      rewrite E. cbn [outcome_bind]. eexists. split_and!; [done|apply reads_set|done|exact Ho|].
      cbn [tail length] in *. rewrite length_app. simpl. lia.
    + rewrite (proj2 (Z.ltb_lt _ _)) by lia. exists d. by split_and!.
Qed.

Lemma receive_spec fuel d q :
  in_ok d q → Z.of_nat (length q) ≤ TTY_BUF_SIZE + 1 → (length (typed (tio d)) < fuel)%nat →
  returns (tty_receive fuel d) (λ d', reads d d' ∧
    in_ok d' (foldl arrive q (u8 <$> typed (tio d))) ∧
    Z.of_nat (length (foldl arrive q (u8 <$> typed (tio d)))) ≤ TTY_BUF_SIZE + 1 ∧
    typed (tio d') = [] ∧ shown (tio d') = shown (tio d) ∧
    TTY_STATUS_WBUSY (tty_status (tio d')) = TTY_STATUS_WBUSY (tty_status (tio d)) ∧
    (raised (tio d) → raised (tio d'))).
Proof.
  intros Hi Hl Hf. unfold tty_receive. apply (while_loop_inv (λ d', reads d d' ∧ ∃ q',
      in_ok d' q' ∧ Z.of_nat (length q') ≤ TTY_BUF_SIZE + 1 ∧
      foldl arrive q' (u8 <$> typed (tio d')) = foldl arrive q (u8 <$> typed (tio d)) ∧
      shown (tio d') = shown (tio d) ∧
      TTY_STATUS_WBUSY (tty_status (tio d')) = TTY_STATUS_WBUSY (tty_status (tio d)) ∧ (raised (tio d) → raised (tio d')))
    (λ d', length (typed (tio d')))).
  - split; [done|]. by exists q.
  - done.
  - intros d1 (Hr & q' & Hi1 & Hl1 & Efold & Hs & Hb & Hw).
    destruct (Z.eqb_spec (TTY_STATUS_RAVAIL (tty_status (tio d1))) 0) as [E|E]; cbn [negb].
    + assert (Ht : typed (tio d1) = []).
      { apply dec_stable. intros Hne%tty_ravail. done. }
      rewrite Ht in Efold. simpl in Efold. rewrite <- Efold. by split_and!.
    + apply tty_ravail in E. destruct (typed (tio d1)) as [|c l] eqn:Et; [done|].
      destruct (tty_get_spec (tio d1) c l Et) as (Hc & Ht & Hs1 & Hb1 & Hw1).
      destruct (tty_get (tio d1)) as [data h] eqn:Eg. simpl in Hc, Ht, Hs1, Hb1, Hw1. subst data.
      destruct (arrive_ok (set_tio h d1) q' (u8 c)) as (d2 & E2 & Hr2 & Htio & Hi2 & Hl2); [done|done|].
      cbn [set_tio tty tkern] in E2 |- *. rewrite E2. cbn [returns]. rewrite Htio. cbn [set_tio tio].
      split; [|rewrite Ht; simpl; lia]. split.
      * etrans; [exact Hr|]. etrans; [|exact Hr2]. apply reads_io.
      * exists (arrive q' (u8 c)). rewrite Ht, Hb1, Hw1, Hs1. split_and!; try done.
Qed.

(** The buffer takes what it has room for. *)
Lemma fill_spec buf i d q :
  out_ok d q → 0 ≤ i ≤ Z.of_nat (length buf) → Z.of_nat (length q) ≤ TTY_BUF_SIZE →
  returns (tty_fill buf i d) (λ '(i', d'), writes d d' ∧ tio d' = tio d ∧ ∃ l,
    i' = i + Z.of_nat (length l) ∧ drop (Z.to_nat i) buf = l ++ drop (Z.to_nat i') buf ∧
    i' ≤ Z.of_nat (length buf) ∧
    out_ok d' (q ++ l) ∧ Z.of_nat (length (q ++ l)) ≤ TTY_BUF_SIZE ∧
    (i' = Z.of_nat (length buf) ∨ Z.of_nat (length (q ++ l)) = TTY_BUF_SIZE)).
Proof.
  intros Ho Hi Hl. unfold tty_fill. apply (while_loop_inv (λ '(i', d'), writes d d' ∧ tio d' = tio d ∧ ∃ l,
    i' = i + Z.of_nat (length l) ∧ drop (Z.to_nat i) buf = l ++ drop (Z.to_nat i') buf ∧
    i' ≤ Z.of_nat (length buf) ∧ out_ok d' (q ++ l) ∧ Z.of_nat (length (q ++ l)) ≤ TTY_BUF_SIZE)
    (λ '(i', _), Z.to_nat (Z.of_nat (length buf) - i'))).
  - split; [done|]. split; [done|]. exists []. rewrite app_nil_r, Z.add_0_r. split_and!; try done; lia.
  - lia.
  - intros [i1 d1] (Hw & Ht & l & Ei & El & Hi1 & Ho1 & Hl1).
    pose proof (ro_count _ _ _ _ Ho1) as Hc. rewrite Hc.
    destruct (Z.ltb_spec (Z.of_nat (length (q ++ l))) TTY_BUF_SIZE) as [Hlt|Hge]; cbn [andb].
    2: { cbn [returns]. split; [done|]. split; [done|]. exists l. split_and!; [done..|right; lia]. }
    destruct (Z.ltb_spec i1 (Z.of_nat (length buf))) as [Hlt1|Hge1].
    2: { cbn [returns]. split; [done|]. split; [done|]. exists l. split_and!; [done..|left; lia]. }
    destruct (aread_in_range buf i1) as (c & Hx & E); [lia|]. rewrite E. cbn [outcome_bind].
    destruct (ring_push _ _ _ _ c Ho1) as [E2 Ho2]; [lia|]. rewrite <- Hc, E2. cbn [outcome_bind returns].
    rewrite <- (assoc_L (++)) in Ho2. split; [|lia]. split; [|split; [done|]].
    + etrans; [exact Hw|]. apply writes_set.
    + exists (l ++ [c]). rewrite (assoc_L (++)), !(length_app _ [c]). cbn [length].
      split_and!; [lia| |lia|by rewrite <- (assoc_L (++))|lia].
      rewrite El, <- (assoc_L (++)). f_equal. rewrite (drop_S buf c (Z.to_nat i1)) by done.
      simpl. do 2 f_equal. lia.
Qed.

(** At most [len] characters leave the read buffer. *)
Lemma take_spec len d q :
  in_ok d q →
  returns (tty_take len d) (λ '(out, d'), reads d d' ∧ tio d' = tio d ∧
    out = take (Z.to_nat len) q ∧ in_ok d' (drop (Z.to_nat len) q)).
Proof.
  intros Hi. unfold tty_take. apply (while_loop_inv (λ '(out, d'), reads d d' ∧ tio d' = tio d ∧
      ∃ q', q = out ++ q' ∧ in_ok d' q' ∧ (length out ≤ Z.to_nat len)%nat)
    (λ '(out, _), Z.to_nat (len - Z.of_nat (length out)))).
  - split; [done|]. split; [done|]. exists q. split_and!; [done|done|simpl; lia].
  - simpl. lia.
  - intros [out d1] (Hr & Ht & q' & Eq & Hi1 & Hl).
    pose proof (ro_count _ _ _ _ Hi1) as Hc. rewrite Hc.
    destruct q' as [|c q'].
    { cbn [length Z.of_nat Z.ltb Z.compare andb returns]. rewrite app_nil_r in Eq. subst out.
      split_and!; [done|done|by rewrite take_ge|by rewrite drop_ge]. }
    rewrite (proj2 (Z.ltb_lt _ _)) by (cbn [length]; lia). cbn [andb].
    destruct (Z.ltb_spec (Z.of_nat (length out)) len) as [Hlt|Hge]; cbn [returns].
    + destruct (ring_head _ _ _ _ _ Hi1) as [E Hi2]. rewrite E. cbn [outcome_bind returns].
      rewrite length_app. cbn [length]. split; [|lia]. split; [|split; [done|]].
      * etrans; [exact Hr|]. apply reads_set.
      * exists q'. rewrite <- (assoc_L (++)). split_and!; [done| |].
        { rewrite Hc in Hi2. exact Hi2. }
        rewrite ?length_app; cbn [length]; lia.
    + assert (El : Z.to_nat len = length out) by lia. rewrite El, Eq, take_app_length, drop_app_length.
      by split_and!.
Qed.
End loops.
