(* ===== verification/TtyOps.v ===== *)
(** * The operations of the terminal driver

    [trep] is the invariant of the driver: what waits in the two ring buffers,
    that output never waits without an interrupt to come, and that nobody sleeps
    on a buffer that could serve him.  Each operation returns and keeps it. *)

From S2P Require Import Prelude Threads ThreadsRef SchedRef SchedInv SchedSteps Semaphore Interrupts Tty TtySpec.

(** ** Sleepers *)

(** [n] threads wait for the resource [r]. *)
Definition waiting (k : kernel) (r : Z) (n : nat) : Prop := ∃ a, krep k a ∧ waiters a r = n.

Lemma waiting_fun k r n m : waiting k r n → waiting k r m → n = m.
Proof. intros (a & Ha & <-) (b & Hb & <-). by rewrite (krep_functional _ _ _ Ha Hb). Qed.

Lemma waiting_intr k r n x : waiting (set_intr x k) r n ↔ waiting k r n.
Proof. unfold waiting. by setoid_rewrite krep_intr. Qed.

Lemma caller_intr k cpu t x : caller (set_intr x k) cpu t ↔ caller k cpu t.
Proof. unfold caller. by setoid_rewrite krep_intr. Qed.

(** Waking all threads on a resource leaves nobody there. *)
Lemma wake_all_waiting k res :
  kinv k → returns (sleepq_wake_all res k) (λ k', kinv k' ∧ kframe k k' ∧ waiting k' res 0 ∧
    ∀ r n, r ≠ res → waiting k r n → waiting k' r n).
Proof.
  intros Hk. pose proof (ki_rep _ Hk) as (a & Ha & _).
  assert (Hw := wake_all_returns res k Hk).
  assert (Hr := sleepq_wake_all_refines k a res Ha (ki_sslock _ Hk) (ki_tslock _ Hk)).
  unfold refines in Hr. destruct (sleepq_wake_all res k) as [k'| | | |]; try done. cbn [returns] in *.
  destruct Hr as [Ha' Hf]. split_and!; [done|done| |].
  - exists (a_wake_all res a). split; [done|]. by rewrite (waiters_wake_all k), decide_True.
  - intros r n Hne (b & Hb & <-). rewrite (krep_functional _ _ _ Hb Ha).
    exists (a_wake_all res a). split; [done|]. by rewrite (waiters_wake_all k), decide_False.
Qed.

(** The caller queues itself. *)
Lemma sleep_waiting k cpu t res :
  kinv k → intr k = false → caller k cpu t → is_u32 res → res ≠ 0 →
  returns (sleepq_add cpu res k) (λ k', kinv k' ∧ kframe k k' ∧
    (∀ n, waiting k res n → waiting k' res (S n)) ∧
    (∀ r n, r ≠ res → waiting k r n → waiting k' r n) ∧
    ∃ a th, krep k' a ∧ a_thread a t = Some th ∧ sleeps_on th = res).
Proof.
  intros Hk Hin (Hc & Hne & Ht & a & th & Ha & El & Hst & Hsl) Hu Hr.
  pose proof (kinv_ainv k a Hk Ha) as Hai. unfold IDLE_THREAD_TID in Hne.
  assert (Hc' := Hc). unfold thread_get_current_thread in Hc'. apply aread_Done in Hc' as [_ Hcl].
  pose proof (ai_curs _ _ _ Hai) as Hok. rewrite Forall_lookup in Hok. specialize (Hok _ _ Hcl).
  unfold tid_ok in Hok.
  assert (Hni : t ∉ concat (queues a)).
  { eapply not_queued; [done|done|done|lia|congruence|done]. }
  assert (Hs : refines (sleepq_add cpu res k) k (a_sleep_add t res a)).
  { apply sleepq_add_refines; try done; [apply Hk|lia]. }
  assert (Hi : returns (sleepq_add cpu res k) kinv).
  { eapply (refines_kinv _ _ (a_sleep_add t res a)); [done|eapply sleep_add_inv; try done; lia|done]. }
  unfold refines in Hs. destruct (sleepq_add cpu res k) as [k'| | | |]; try done. cbn [returns] in *.
  destruct Hs as [Ha' Hf].
  assert (Hwait : ∀ r n, waiting k r n → waiting k' r ((if decide (res = r) then 1 else 0) + n)).
  { intros r n (b & Hb & <-). rewrite (krep_functional _ _ _ Hb Ha).
    exists (a_sleep_add t res a). split; [done|]. apply (waiters_sleep_add k); [done|lia|eauto|done]. }
  split_and!; [done|done| | |].
  - intros n Hn%Hwait. by rewrite decide_True in Hn.
  - intros r n Hn Hw%Hwait. by rewrite decide_False in Hw by congruence.
  - exists (a_sleep_add t res a), (set_sleeps_on res th). split_and!; [done| |done].
    change (a_thread (a_sleep_add t res a) t) with (a_thread (a_upd t (set_sleeps_on res) a) t).
    by rewrite a_thread_upd, decide_True, El by (done || lia).
Qed.

(** ** The invariant *)
Section ops.
Context {H : Type} {hw : TtyHw H} {spec : TtyHwSpec H}.
Context (read_addr write_addr : Z).
Context (Hread : is_u32 read_addr ∧ read_addr ≠ 0) (Hwrite : is_u32 write_addr ∧ write_addr ≠ 0).
Context (Hne : read_addr ≠ write_addr).
Implicit Types d : tstate H.

Notation busy h := (TTY_STATUS_WBUSY (tty_status h) ≠ 0).
Notation raised h := (TTY_STATUS_WIRQ (tty_status h) ≠ 0).

(** The lock is [l]; [qi] is the input that waits for readers, [qo] the output
    that waits for the device. *)
Record tinv (l : Z) d (qi qo : list Z) : Prop := {
  ti_kinv : kinv (tkern d);
  ti_lock : tty_slock (tty d) = l;
  ti_in : in_ok d qi;
  ti_in_len : Z.of_nat (length qi) ≤ TTY_BUF_SIZE + 1;
  ti_out : out_ok d qo;
  ti_out_len : Z.of_nat (length qo) ≤ TTY_BUF_SIZE;
  ti_sent : qo ≠ [] → busy (tio d) ∨ raised (tio d);
  ti_writers : qo = [] → waiting (tkern d) write_addr 0;
  ti_readers : qi ≠ [] → waiting (tkern d) read_addr 0
}.

Definition trep d qi qo : Prop := tinv 0 d qi qo.

Definition stop {A} (f : A → Z) (p : progress A) : Z := match p with Returns a => f a | Sleeps i => i end.

(** The lock, taken and given back. *)
Lemma trep_intr d qi qo x : trep d qi qo → trep (set_tkern (set_intr x (tkern d)) d) qi qo.
Proof. intros []. split; try done; simpl; [by apply kinv_intr|intros E; apply waiting_intr; auto..]. Qed.

Lemma tty_acquire_spec d qi qo :
  trep d qi qo → ∃ d', tty_acquire d = Done d' ∧ tinv 1 d' qi qo ∧ tkern d' = tkern d ∧ tio d' = tio d.
Proof.
  intros []. unfold tty_acquire. rewrite ti_lock0. cbn [spin Z.eqb outcome_bind].
  eexists. by split_and!.
Qed.

Lemma tty_release_spec d qi qo x :
  tinv 1 d qi qo → trep (set_tkern (set_intr x (tkern d)) (tty_release d)) qi qo.
Proof.
  intros []. split; try done; simpl; [by apply kinv_intr|intros E; apply waiting_intr; auto..].
Qed.

(** ** Writing *)

(** With room for it, a chunk of the text goes into the buffer, and its first
    character to the device if that is idle. *)
Lemma chunk_spec d qi buf i :
  tinv 1 d qi [] → 0 ≤ i < Z.of_nat (length buf) →
  returns (let* '(i, d) := tty_fill buf i d in
           let* d := if TTY_STATUS_WBUSY (tty_status (tio d)) =? 0 then tty_put_head d else Done d in
           Done (i, d)) (λ '(i', d'), ∃ l qo, tinv 1 d' qi qo ∧ tkern d' = tkern d ∧
    l = take (Z.to_nat TTY_BUF_SIZE) (drop (Z.to_nat i) buf) ∧ i' = i + Z.of_nat (length l) ∧ drop (Z.to_nat i) buf = l ++ drop (Z.to_nat i') buf ∧
    i' ≤ Z.of_nat (length buf) ∧ (qo = [] → i' = Z.of_nat (length buf)) ∧
    typed (tio d') = typed (tio d) ∧ shown (tio d') ++ (u8 <$> qo) = shown (tio d) ++ (u8 <$> l)).
Proof.
  intros Ht Hi. eapply returns_bind, returns_mono; [apply (fill_spec buf i d []); [apply Ht|lia|done]|].
  intros [i1 d1] (Hw & Eio & l & Ei & El & Hle & Ho & Hlen & Hend). rewrite app_nil_l in *.
  pose proof (writes_kern _ _ Hw) as [Ek Esl].
  assert (Hl : l ≠ []).
  { intros ->. destruct Hend as [?|E]; [cbn [length] in *; lia|done]. }
  assert (Echunk : l = take (Z.to_nat TTY_BUF_SIZE) (drop (Z.to_nat i) buf)).
  { rewrite El. destruct Hend as [E|E].
    - rewrite (drop_ge buf) by lia. rewrite app_nil_r, take_ge by lia. done.
    - rewrite <- E, Nat2Z.id. by rewrite take_app_length. }
  assert (H1 : ∀ d2 qo, writes d1 d2 → out_ok d2 qo → Z.of_nat (length qo) ≤ TTY_BUF_SIZE →
    (busy (tio d2) ∨ raised (tio d2)) → tinv 1 d2 qi qo ∧ tkern d2 = tkern d).
  { intros d2 qo Hw2 Ho2 Hq2 Hs2. destruct (writes_kern _ _ Hw2) as [Ek2 Esl2].
    destruct Ht. split; [|congruence]. split; try done.
    - congruence.
    - congruence.
    - apply (writes_in d1); [done|]. by apply (writes_in d).
    - intros _. rewrite Ek2, Ek. auto.
    - rewrite Ek2, Ek. auto. }
  destruct (Z.eqb_spec (TTY_STATUS_WBUSY (tty_status (tio d1))) 0) as [Hb|Hb].
  - destruct l as [|c l]; [done|]. destruct (put_head_spec d1 c l Ho Hb) as (d2 & -> & Hw2 & Ho2 & Et & Es & _ & Hp).
    cbn [outcome_bind returns]. exists (c :: l), l. cbn [length] in Hlen.
    destruct (H1 d2 l) as [Hti Ek2]; [done|done|lia|done|]. split_and!; try done.
    + intros ->. destruct Hend as [?|E]; [done|]. cbn [length] in E. done.
    + congruence.
    + rewrite Es, Eio. rewrite <- (assoc_L (++)). done.
  - cbn [outcome_bind returns]. exists l, l. destruct (H1 d1 l) as [Hti Ek2]; [done|done|done|by left|].
    split_and!; try done; congruence.
Qed.

(** What a piece of [tty_write] has done between [i] and where it stops. *)
Definition write_piece (buf : list Z) (i : Z) (t : Z) (st : bool) d qo
    (p : progress Z) d' qo' : Prop :=
  let j := stop id p in
  ∃ l, l = (if decide (qo = []) then take (Z.to_nat TTY_BUF_SIZE) (drop (Z.to_nat i) buf) else []) ∧
    j = i + Z.of_nat (length l) ∧ drop (Z.to_nat i) buf = l ++ drop (Z.to_nat j) buf ∧
    typed (tio d') = typed (tio d) ∧
    shown (tio d') ++ (u8 <$> qo') = shown (tio d) ++ (u8 <$> (qo ++ l)) ∧
    match p with
    | Returns n => n = Z.of_nat (length buf) ∧ tkern d' = set_intr st (tkern d)
    | Sleeps _ => j < Z.of_nat (length buf) ∧ qo' ≠ [] ∧
        ∃ a th, krep (tkern d') a ∧ a_thread a t = Some th ∧ sleeps_on th = write_addr
    end.

(** The text is out, or the buffer is not empty and the caller queues up. *)
Lemma write_wait d qi qo cpu t :
  tinv 1 d qi qo → qo ≠ [] → intr (tkern d) = false → caller (tkern d) cpu t →
  returns (let* k := sleepq_add cpu write_addr (tkern d) in Done (tty_release (set_tkern k d)))
    (λ d', trep d' qi qo ∧ tio d' = tio d ∧
      ∃ a th, krep (tkern d') a ∧ a_thread a t = Some th ∧ sleeps_on th = write_addr).
Proof.
  intros Ht Hq Hin Hc. eapply returns_bind, returns_mono.
  { apply (sleep_waiting _ cpu t write_addr); try done; try apply Hwrite. apply Ht. }
  intros k (Hk & _ & Hw & Hr & Hrow). cbn [returns]. split_and!; [|done|done].
  destruct Ht. split; try done. intros E. simpl. apply Hr; auto.
Qed.

Lemma tty_write_loop_spec cpu t st buf i d qi qo :
  tinv 1 d qi qo → 0 ≤ i ≤ Z.of_nat (length buf) → intr (tkern d) = false → caller (tkern d) cpu t →
  returns (tty_write_loop write_addr cpu st buf i d) (λ '(p, d'), ∃ qo',
    trep d' qi qo' ∧ write_piece buf i t st d qo p d' qo').
Proof.
  intros Ht Hi Hin Hc. unfold tty_write_loop.
  assert (Hret : ∀ d1 q1, tinv 1 d1 qi q1 → trep (set_tkern (set_intr st (tkern d1)) (tty_release d1)) qi q1)
    by (intros; by apply tty_release_spec).
  cbn [while_loop]. destruct (Z.ltb_spec i (Z.of_nat (length buf))) as [Hlt|Hge].
  2: { cbn [outcome_bind returns]. exists qo. split; [apply (Hret d qo Ht)|].
    exists []. rewrite app_nil_r. split_and!; simpl; try done; [|lia..].
    rewrite (drop_ge buf) by lia. by case_decide. }
  rewrite (ro_count _ _ _ _ (ti_out _ _ _ _ Ht)).
  destruct qo as [|c qo].
  - change (0 <? Z.of_nat (length [])) with false. cbn match. pose proof (chunk_spec d qi buf i Ht ltac:(lia)) as Hch.
    destruct (tty_fill buf i d) as [[i1 d1]| | | |]; try done. cbn [outcome_bind] in Hch |- *.
    destruct (if _ =? 0 then tty_put_head d1 else Done d1) as [d2| | | |]; try done.
    cbn [outcome_bind returns] in Hch |- *.
    destruct Hch as (l & qo2 & Ht2 & Ek & Ech & Ei & El & Hle & Hend & Ety & Esh).
    destruct (length buf) as [|n] eqn:En; [lia|]. cbn [while_loop].
    destruct (Z.ltb_spec i1 (Z.of_nat (S n))) as [Hlt1|Hge1].
    + assert (Hq2 : qo2 ≠ []) by (intros E; apply Hend in E; lia).
      rewrite (ro_count _ _ _ _ (ti_out _ _ _ _ Ht2)), (proj2 (Z.ltb_lt _ _)) by (destruct qo2; [done|cbn [length]; lia]).
      pose proof (write_wait d2 qi qo2 cpu t Ht2 Hq2 ltac:(congruence) ltac:(by rewrite Ek)) as Hs.
      destruct (sleepq_add cpu write_addr (tkern d2)) as [k| | | |]; try done.
      cbn [outcome_bind returns] in *. destruct Hs as (Hs & Eio & Hrow). exists qo2. split; [done|].
      exists l. rewrite Eio. cbn [stop id]. rewrite En. split_and!; done.
    + cbn [outcome_bind returns]. exists qo2. split; [apply (Hret d2 qo2 Ht2)|]. exists l.
      split_and!; simpl; try done; [lia|congruence].
  - rewrite (proj2 (Z.ltb_lt _ _)) by (cbn [length]; lia).
    pose proof (write_wait d qi (c :: qo) cpu t Ht ltac:(done) Hin Hc) as Hs.
    destruct (sleepq_add cpu write_addr (tkern d)) as [k| | | |]; try done.
    cbn [outcome_bind returns] in *. destruct Hs as (Hs & Eio & Hrow). exists (c :: qo). split; [done|].
    exists []. rewrite app_nil_r. split_and!; simpl; try done; lia.
Qed.

Lemma write_resume_spec cpu t st buf i d qi qo :
  trep d qi qo → 0 ≤ i ≤ Z.of_nat (length buf) → caller (tkern d) cpu t →
  returns (tty_write_resume write_addr cpu st buf i d) (λ '(p, d'), ∃ qo',
    trep d' qi qo' ∧ write_piece buf i t st d qo p d' qo').
Proof.
  intros Ht Hi Hc. unfold tty_write_resume.
  destruct (tty_acquire_spec _ _ _ (trep_intr d qi qo false Ht)) as (d1 & -> & Ht1 & Ek & Eio). cbn [outcome_bind].
  eapply returns_mono; [apply (tty_write_loop_spec cpu t st buf i d1 qi qo Ht1 Hi)|].
  - by rewrite Ek.
  - rewrite Ek. by apply caller_intr.
  - intros [p d'] (qo' & Ht' & Hp). exists qo'. split; [done|]. unfold write_piece in *.
    rewrite Ek, Eio in Hp. exact Hp.
Qed.

(** ** Reading *)

(** [tty_read] sleeps when there is no input, else it answers the oldest
    characters, at most [len]. *)
Lemma read_resume_spec cpu t st len d qi qo :
  trep d qi qo → caller (tkern d) cpu t →
  returns (tty_read_resume read_addr cpu st len d) (λ '(p, d'), tio d' = tio d ∧
    match p with
    | Returns out => qi ≠ [] ∧ out = take (Z.to_nat len) qi ∧ trep d' (drop (Z.to_nat len) qi) qo ∧
        tkern d' = set_intr st (tkern d)
    | Sleeps _ => qi = [] ∧ trep d' [] qo ∧
        ∃ a th, krep (tkern d') a ∧ a_thread a t = Some th ∧ sleeps_on th = read_addr
    end).
Proof.
  intros Ht Hc. unfold tty_read_resume.
  destruct (tty_acquire_spec _ _ _ (trep_intr d qi qo false Ht)) as (d1 & -> & Ht1 & Ek & Eio). cbn [outcome_bind].
  unfold tty_read_loop. rewrite (ro_count _ _ _ _ (ti_in _ _ _ _ Ht1)). destruct qi as [|c qi].
  - change (Z.of_nat (length []) =? 0) with true. cbn match. eapply returns_bind, returns_mono.
    { apply (sleep_waiting _ cpu t read_addr); [apply Ht1|by rewrite Ek| |apply Hread..].
      rewrite Ek. by apply caller_intr. }
    intros k (Hk & _ & Hw & Hr & Hrow). cbn [returns]. split_and!; [done|done| |done].
    destruct Ht1. split; try done. intros E. simpl. apply Hr; auto.
  - rewrite (proj2 (Z.eqb_neq _ _)) by (cbn [length]; lia). eapply returns_bind, returns_mono.
    { apply (take_spec len d1 (c :: qi)), Ht1. }
    intros [out d2] (Hr & Eio2 & -> & Hi2). destruct (reads_kern _ _ Hr) as [Ek2 Esl2]. cbn [returns].
    split; [simpl in *; congruence|]. split_and!; [done|done| |].
    + apply (tty_release_spec d2). destruct Ht1. split; try done.
      * congruence.
      * congruence.
      * rewrite length_drop. lia.
      * by apply (reads_out d1).
      * intros E. rewrite Eio2. auto.
      * intros E. rewrite Ek2. auto.
      * intros E. rewrite Ek2. auto.
    + simpl. by rewrite Ek2, Ek.
Qed.

(** ** The interrupt handler *)

(** The write interrupt: the device takes what it can, and the writers are woken
    when the buffer is empty. *)
Lemma write_interrupt_spec d qi qo :
  trep d qi qo →
  returns (tty_write_interrupt write_addr d) (λ d', ∃ l qo', qo = l ++ qo' ∧ trep d' qi qo' ∧
    typed (tio d') = typed (tio d) ∧ shown (tio d') = shown (tio d) ++ (u8 <$> l) ∧
    TTY_STATUS_RIRQ (tty_status (tio d')) = TTY_STATUS_RIRQ (tty_status (tio d)) ∧
    kframe (tkern d) (tkern d') ∧ (qo' ≠ [] → busy (tio d')) ∧
    (l = [] → TTY_STATUS_WBUSY (tty_status (tio d')) = TTY_STATUS_WBUSY (tty_status (tio d)))).
Proof.
  intros Ht. unfold tty_write_interrupt.
  destruct (tty_acquire_spec d qi qo Ht) as (d0 & -> & Ht0 & Ek0 & Eio0). cbn [outcome_bind].
  rewrite <- Ek0, <- Eio0.
  pose proof (tty_command_spec (tio d0) TTY_COMMAND_WIRQD) as (Et1 & Es1 & Eb1 & Er1 & _).
  set (d1 := set_tio (tty_command TTY_COMMAND_WIRQD (tio d0)) d0).
  pose proof (tty_command_spec (tio d1) TTY_COMMAND_WIRQ) as (Et2 & Es2 & Eb2 & Er2 & _).
  set (d2 := set_tio (tty_command TTY_COMMAND_WIRQ (tio d1)) d1).
  eapply returns_bind, returns_mono; [apply (drain_spec d2 qo), Ht0|].
  intros d3 (Hw3 & l & qo' & -> & Ho3 & Et3 & Es3 & Er3 & Hl3 & Hb3).
  pose proof (tty_command_spec (tio d3) TTY_COMMAND_WIRQE) as (Et4 & Es4 & Eb4 & Er4 & _).
  set (d4 := set_tio (tty_command TTY_COMMAND_WIRQE (tio d3)) d3).
  assert (Hw4 : writes d0 d4).
  { do 2 (etrans; [apply writes_command|]). etrans; [exact Hw3|]. apply writes_command. }
  destruct (writes_kern _ _ Hw4) as [Ek4 Esl4].
  assert (Hb4 : qo' ≠ [] → busy (tio d4)) by (intros E; simpl; rewrite Eb4; auto).
  assert (Hfin : ∀ k', kinv k' → (qo' = [] → waiting k' write_addr 0) →
    (∀ n, waiting (tkern d0) read_addr n → waiting k' read_addr n) →
    trep (tty_release (set_tkern k' d4)) qi qo').
  { intros k' Hk' Hwk Hrk. pose proof (writes_in _ _ qi Hw4 (ti_in _ _ _ _ Ht0)) as Hin.
    destruct Ht0. split; try done.
    - rewrite length_app in ti_out_len0. lia.
    - intros E. left. by apply Hb4.
    - intros E. simpl. auto. }
  change (write_count (tty d4)) with (write_count (tty d3)).
  rewrite (ro_count _ _ _ _ Ho3).
  assert (Hio : typed (tio d4) = typed (tio d0) ∧ shown (tio d4) = shown (tio d0) ++ (u8 <$> l) ∧
    TTY_STATUS_RIRQ (tty_status (tio d4)) = TTY_STATUS_RIRQ (tty_status (tio d0))).
  { simpl. rewrite Et4, Es4, Er4, Et3, Es3, Er3 by done. simpl. simpl in Et2, Es2, Er2.
    rewrite Et2, Es2, Er2, Et1, Es1, Er1 by done. done. }
  destruct Hio as (Ety & Esh & Erq).
  assert (Hl4 : l = [] → TTY_STATUS_WBUSY (tty_status (tio d4)) = TTY_STATUS_WBUSY (tty_status (tio d0))).
  { intros E. simpl. rewrite Eb4, Hl3 by done. simpl. simpl in Eb2. by rewrite Eb2, Eb1. }
  destruct (Z.eqb_spec (Z.of_nat (length qo')) 0) as [E|E].
  - assert (qo' = []) as -> by (destruct qo'; [done|cbn [length] in E; lia]).
    rewrite <- bind_assoc. eapply returns_bind, returns_mono.
    { apply (wake_all_waiting (tkern d4) write_addr). rewrite Ek4. apply Ht0. }
    intros k' (Hk' & Hf & Hz & Hoth). cbn [outcome_bind returns]. exists l, [].
    split_and!; try done.
    + apply Hfin; [done|done|]. intros n Hn. apply Hoth; [done|]. by rewrite Ek4.
    + change (kframe (tkern d0) k'). by rewrite <- Ek4.
  - cbn [outcome_bind returns]. exists l, qo'. split_and!; try done.
    + assert (Ed : set_tkern (tkern d0) d4 = d4) by (rewrite <- Ek4; by destruct d4).
      rewrite <- Ed. apply Hfin; [apply Ht0| |done]. intros ->. done.
    + change (tkern (tty_release d4)) with (tkern d4). by rewrite Ek4.
Qed.

(** The read interrupt: all that was typed goes into the buffer, and the readers
    are woken. *)
Lemma read_interrupt_spec fuel d qi qo :
  trep d qi qo → (length (typed (tio d)) < fuel)%nat →
  returns (tty_read_interrupt read_addr fuel d) (λ d',
    trep d' (foldl arrive qi (u8 <$> typed (tio d))) qo ∧ typed (tio d') = [] ∧
    shown (tio d') = shown (tio d) ∧ kframe (tkern d) (tkern d') ∧
    waiting (tkern d') read_addr 0 ∧
    TTY_STATUS_WBUSY (tty_status (tio d')) = TTY_STATUS_WBUSY (tty_status (tio d))).
Proof.
  intros Ht Hf. unfold tty_read_interrupt.
  destruct (tty_acquire_spec d qi qo Ht) as (d0 & -> & Ht0 & Ek0 & Eio0). cbn [outcome_bind].
  rewrite <- Eio0 in *. rewrite <- Ek0. cbn [tio set_tio]. rewrite tty_rirq_accepted. cbn [Z.eqb negb].
  pose proof (tty_command_spec (tio d0) TTY_COMMAND_RIRQ) as (Et1 & Es1 & Eb1 & _ & Ew1).
  specialize (Ew1 ltac:(done)). set (d1 := set_tio (tty_command TTY_COMMAND_RIRQ (tio d0)) d0).
  eapply returns_bind, returns_mono.
  { apply (receive_spec fuel d1 qi); [apply Ht0|apply Ht0|simpl; by rewrite Et1]. }
  change (tio d1) with (tty_command TTY_COMMAND_RIRQ (tio d0)). rewrite Et1, Es1. intros d2 (Hr2 & Hi2 & Hl2 & Ety & Esh & Hb2 & Hw2).
  destruct (reads_kern _ _ Hr2) as [Ek2 _]. simpl tkern in Ek2. eapply returns_bind, returns_mono.
  { apply (wake_all_waiting (tkern (tty_release d2)) read_addr). simpl. rewrite Ek2. apply Ht0. }
  change (tkern (tty_release d2)) with (tkern d2). rewrite Ek2. intros k' (Hk' & Hkf & Hz & Hoth). cbn [returns].
  split_and!; try done.
  - pose proof (reads_out _ _ qo Hr2 (ti_out _ _ _ _ Ht0)) as Hout. destruct Ht0. split; try done.
    + intros E. destruct (ti_sent0 E) as [Hb|Hw]; [left|right]; simpl.
      * by rewrite Hb2, <- Eb1 in *.
      * apply Hw2. by apply Ew1.
    + intros E. simpl. apply Hoth; [done|]. auto.
  - simpl. by rewrite Hb2, <- Eb1.
Qed.

(** The whole handler: the part for each interrupt that is raised. *)
Lemma handle_spec fuel d qi qo :
  trep d qi qo → (length (typed (tio d)) < fuel)%nat →
  returns (tty_interrupt_handle read_addr write_addr fuel d) (λ d', ∃ l qo', qo = l ++ qo' ∧
    trep d' (if TTY_STATUS_RIRQ (tty_status (tio d)) =? 0 then qi
             else foldl arrive qi (u8 <$> typed (tio d))) qo' ∧
    typed (tio d') = (if TTY_STATUS_RIRQ (tty_status (tio d)) =? 0 then typed (tio d) else []) ∧
    shown (tio d') = shown (tio d) ++ (u8 <$> l) ∧ kframe (tkern d) (tkern d') ∧
    (raised (tio d) → qo' ≠ [] → busy (tio d')) ∧
    (raised (tio d) → ¬ busy (tio d) → qo ≠ [] → l ≠ []) ∧ (¬ raised (tio d) → l = []) ∧
    (TTY_STATUS_RIRQ (tty_status (tio d)) ≠ 0 → waiting (tkern d') read_addr 0)).
Proof.
  intros Ht Hf. unfold tty_interrupt_handle. eapply returns_bind, (returns_mono _ (λ d', ∃ l qo',
    qo = l ++ qo' ∧ trep d' qi qo' ∧ typed (tio d') = typed (tio d) ∧
    shown (tio d') = shown (tio d) ++ (u8 <$> l) ∧
    TTY_STATUS_RIRQ (tty_status (tio d')) = TTY_STATUS_RIRQ (tty_status (tio d)) ∧
    kframe (tkern d) (tkern d') ∧ (raised (tio d) → qo' ≠ [] → busy (tio d')) ∧
    (raised (tio d) → ¬ busy (tio d) → qo ≠ [] → l ≠ []) ∧ (¬ raised (tio d) → l = []))).
  { destruct (Z.eqb_spec (TTY_STATUS_WIRQ (tty_status (tio d))) 0) as [E|E]; cbn [negb].
    - exists [], qo. rewrite app_nil_r. by split_and!.
    - eapply returns_mono; [by apply write_interrupt_spec|].
      intros d' (l & qo' & Eq & Ht1 & Ety & Esh & Erq & Hkf & Hb & Hl). exists l, qo'.
      split_and!; try done. intros Hra Hnb Hq ->. apply Hnb. rewrite <- Hl by done. apply Hb. by subst qo. }
  intros d1 (l & qo' & -> & Ht1 & Ety & Esh & Erq & Hkf & Hb & Hl & Hnl). rewrite Erq.
  destruct (Z.eqb_spec (TTY_STATUS_RIRQ (tty_status (tio d))) 0) as [E|E]; cbn [negb].
  - exists l, qo'. by split_and!.
  - eapply returns_mono; [apply read_interrupt_spec; [exact Ht1|by rewrite Ety]|].
    intros d2 (Ht2 & Ety2 & Esh2 & Hkf2 & Hz & Hb2). rewrite Ety in Ht2. exists l, qo'.
    split_and!; try done; [congruence|by etrans|]. intros Hr Hq. rewrite Hb2. by apply Hb.
Qed.

(** ** Any history

    Text that was accepted for output, characters that came in, characters that
    readers took. *)
Inductive tevent := Accept (l : list Z) | Arrive (l : list Z) | Take (l : list Z).

(** The input queue after a history, if every reader took its oldest characters. *)
Fixpoint replay (q : list Z) (es : list tevent) : option (list Z) :=
  match es with
  | [] => Some q
  | Accept _ :: es => replay q es
  | Arrive l :: es => replay (foldl arrive q l) es
  | Take l :: es => if decide (l = take (length l) q) then replay (drop (length l) q) es else None
  end.

Definition accepted (es : list tevent) : list Z :=
  concat ((λ e, match e with Accept l => l | _ => [] end) <$> es).
Definition arrived (es : list tevent) : list Z :=
  concat ((λ e, match e with Arrive l => l | _ => [] end) <$> es).
Definition taken (es : list tevent) : list Z :=
  concat ((λ e, match e with Take l => l | _ => [] end) <$> es).

(** Calls of the driver, and what the rest of the kernel and the device do
    between them. *)
Inductive tstep : tstate H → list tevent → tstate H → Prop :=
| ts_write cpu t buf d p d' :
    caller (tkern d) cpu t → tty_write write_addr cpu buf d = Done (p, d') →
    tstep d [Accept (take (Z.to_nat (stop id p)) buf)] d'
| ts_write_resume cpu t st buf i d p d' :
    caller (tkern d) cpu t → 0 ≤ i ≤ Z.of_nat (length buf) →
    tty_write_resume write_addr cpu st buf i d = Done (p, d') →
    tstep d [Accept (take (Z.to_nat (stop id p - i)) (drop (Z.to_nat i) buf))] d'
| ts_read cpu t len d p d' :
    caller (tkern d) cpu t → tty_read read_addr cpu len d = Done (p, d') →
    tstep d (match p with Returns out => [Take out] | Sleeps _ => [] end) d'
| ts_read_resume cpu t st len d p d' :
    caller (tkern d) cpu t → tty_read_resume read_addr cpu st len d = Done (p, d') →
    tstep d (match p with Returns out => [Take out] | Sleeps _ => [] end) d'
| ts_interrupt fuel d d' :
    (length (typed (tio d)) < fuel)%nat →
    tty_interrupt_handle read_addr write_addr fuel d = Done d' →
    tstep d (if TTY_STATUS_RIRQ (tty_status (tio d)) =? 0 then [] else [Arrive (u8 <$> typed (tio d))]) d'
| ts_kernel d k :
    kinv k → (∀ r, r = read_addr ∨ r = write_addr → waiting (tkern d) r 0 → waiting k r 0) →
    tstep d [] (set_tkern k d)
| ts_device d h l :
    typed h = typed (tio d) ++ l → shown h = shown (tio d) →
    (busy (tio d) ∨ raised (tio d) → busy h ∨ raised h) →
    tstep d [] (set_tio h d).

Inductive tsteps (d0 : tstate H) : list tevent → tstate H → Prop :=
| tsteps_nil : tsteps d0 [] d0
| tsteps_snoc es d e d' : tsteps d0 es d → tstep d e d' → tsteps d0 (es ++ e) d'.
End ops.
