(* ===== verification/TtyProps.v ===== *)
(** * Properties of the terminal driver *)

From S2P Require Import Prelude Threads ThreadsRef Semaphore SchedRef SchedInv SchedSteps SchedProps SemProps PhysMem Devices Interrupts Tty TtySpec TtyOps.

(** ** Histories *)
Lemma replay_app q es es' : replay q (es ++ es') = replay q es ≫= λ q', replay q' es'.
Proof.
  revert q. induction es as [|[l|l|l] es IH]; intros q; simpl; [done|apply IH|apply IH|].
  case_decide; [apply IH|done].
Qed.

Lemma accepted_app es es' : accepted (es ++ es') = accepted es ++ accepted es'.
Proof. unfold accepted. by rewrite fmap_app, concat_app. Qed.

(** There is room for every character that comes in when [n] wait at first. *)
Fixpoint fits (n : Z) (es : list tevent) : bool :=
  match es with
  | [] => true
  | Accept _ :: es => fits n es
  | Arrive l :: es => (n + Z.of_nat (length l) <=? TTY_BUF_SIZE) && fits (n + Z.of_nat (length l)) es
  | Take l :: es => fits (n - Z.of_nat (length l)) es
  end.

Lemma arrive_room q l :
  Z.of_nat (length q) + Z.of_nat (length l) ≤ TTY_BUF_SIZE → foldl arrive q l = q ++ l.
Proof.
  revert q. induction l as [|c l IH]; intros q Hl; [by rewrite app_nil_r|]. cbn [length] in Hl. simpl.
  unfold arrive at 2. rewrite (proj2 (Z.ltb_lt _ _)) by lia. rewrite IH by (rewrite length_app; simpl; lia).
  by rewrite <- (assoc_L (++)).
Qed.

(** With room for all of it, no input is lost, changed or reordered. *)
Lemma replay_room q es q' :
  fits (Z.of_nat (length q)) es = true → replay q es = Some q' → q ++ arrived es = taken es ++ q'.
Proof.
  unfold arrived, taken. revert q. induction es as [|[l|l|l] es IH]; intros q; simpl.
  - intros _ [= ->]. by rewrite app_nil_r.
  - apply IH.
  - intros [Hl%Z.leb_le Hr]%andb_true_iff. rewrite arrive_room by done. intros E.
    rewrite (assoc_L (++)). apply IH; [|done]. by rewrite length_app, Nat2Z.inj_add.
  - case_decide as E; [|done]. intros Hr Hq. rewrite <- (take_drop (length l) q), <- E, <- !(assoc_L (++)).
    f_equal. apply IH; [|done]. rewrite length_drop.
    assert (length l ≤ length q)%nat by (rewrite E, length_take; lia).
    by replace (Z.of_nat (length q - length l)) with (Z.of_nat (length q) - Z.of_nat (length l)) by lia.
Qed.

Section props.
Context {H : Type} {hw : TtyHw H} {spec : TtyHwSpec H}.
Context (read_addr write_addr : Z).
Context (Hread : is_u32 read_addr ∧ read_addr ≠ 0) (Hwrite : is_u32 write_addr ∧ write_addr ≠ 0).
Context (Hne : read_addr ≠ write_addr).
Implicit Types d : tstate H.

Notation busy h := (TTY_STATUS_WBUSY (tty_status h) ≠ 0).
Notation raised h := (TTY_STATUS_WIRQ (tty_status h) ≠ 0).

(** A driver as [tty_init] leaves it: empty buffers, nobody asleep on them. *)
Record started d : Prop := {
  st_kinv : kinv (tkern d);
  st_nobody : waiting (tkern d) read_addr 0 ∧ waiting (tkern d) write_addr 0;
  st_tty : ∃ rb wb, tty d = TtyReal 0 rb 0 0 wb 0 0 ∧
    Z.of_nat (length rb) = TTY_BUF_SIZE ∧ Z.of_nat (length wb) = TTY_BUF_SIZE
}.

Lemma started_trep d : started d → trep read_addr write_addr d [] [].
Proof.
  intros [Hk [Hr Hw] (rb & wb & E & Hlr & Hlw)].
  split; unfold in_ok, out_ok; rewrite ?E; try done; split; done.
Qed.

(** What a step does to the queues. *)
Definition moves d qi qo (es : list tevent) d' qi' qo' : Prop :=
  replay qi es = Some qi' ∧
  shown (tio d') ++ (u8 <$> qo') = shown (tio d) ++ (u8 <$> (qo ++ accepted es)).

Lemma write_moves d qi qo cpu t st buf i p d' :
  trep read_addr write_addr d qi qo → caller (tkern d) cpu t → 0 ≤ i ≤ Z.of_nat (length buf) →
  tty_write_resume write_addr cpu st buf i d = Done (p, d') →
  ∃ qo', trep read_addr write_addr d' qi qo' ∧
    moves d qi qo [Accept (take (Z.to_nat (stop id p - i)) (drop (Z.to_nat i) buf))] d' qi qo'.
Proof.
  intros Ht Hc Hi E. pose proof (write_resume_spec read_addr write_addr Hread Hwrite Hne cpu t st buf i d qi qo Ht Hi Hc) as Hs.
  rewrite E in Hs. destruct Hs as (qo' & Ht' & l & _ & Ej & El & _ & Esh & _). exists qo'. split; [done|].
  split; [done|]. unfold accepted. simpl. rewrite app_nil_r, Esh. do 3 f_equal.
  rewrite El, Ej. replace (Z.to_nat (i + Z.of_nat (length l) - i)) with (length l) by lia.
  by rewrite take_app_length.
Qed.

Lemma read_moves d qi qo cpu t st len p d' :
  trep read_addr write_addr d qi qo → caller (tkern d) cpu t →
  tty_read_resume read_addr cpu st len d = Done (p, d') →
  ∃ qi', trep read_addr write_addr d' qi' qo ∧
    moves d qi qo (match p with Returns out => [Take out] | Sleeps _ => [] end) d' qi' qo.
Proof.
  intros Ht Hc E. pose proof (read_resume_spec read_addr write_addr Hread Hwrite Hne cpu t st len d qi qo Ht Hc) as Hs.
  rewrite E in Hs. destruct Hs as [Eio Hs]. destruct p as [out|n].
  - destruct Hs as (_ & -> & Ht' & _). exists (drop (Z.to_nat len) qi). split; [done|].
    unfold moves, accepted. simpl. rewrite app_nil_r, Eio, length_take.
    rewrite decide_True.
    + split; [|done]. f_equal. destruct (decide (Z.to_nat len ≤ length qi)%nat).
      * by rewrite Nat.min_l.
      * rewrite Nat.min_r, !drop_ge by lia. done.
    + destruct (decide (Z.to_nat len ≤ length qi)%nat); [by rewrite Nat.min_l|].
      rewrite Nat.min_r, !take_ge by lia. done.
  - destruct Hs as (-> & Ht' & _). exists []. split; [done|]. unfold moves, accepted. simpl.
    by rewrite app_nil_r, Eio.
Qed.

Lemma tstep_moves d es d' qi qo :
  trep read_addr write_addr d qi qo → tstep read_addr write_addr d es d' →
  ∃ qi' qo', trep read_addr write_addr d' qi' qo' ∧ moves d qi qo es d' qi' qo'.
Proof.
  intros Ht Hs. destruct Hs as [cpu t buf d p d' Hc E|cpu t st buf i d p d' Hc Hi E|cpu t len d p d' Hc E|
    cpu t st len d p d' Hc E|fuel d d' Hf E|d k Hk Hw|d h l Ety Esh Hb].
  - destruct (write_moves d qi qo cpu t (intr (tkern d)) buf 0 p d') as (qo' & ? & Hm); [done|done|lia|done|].
    rewrite Z.sub_0_r in Hm. eauto.
  - destruct (write_moves d qi qo cpu t st buf i p d') as (qo' & ? & Hm); eauto.
  - destruct (read_moves d qi qo cpu t (intr (tkern d)) len p d') as (qi' & ? & Hm); eauto.
  - destruct (read_moves d qi qo cpu t st len p d') as (qi' & ? & Hm); eauto.
  - pose proof (handle_spec read_addr write_addr Hread Hwrite Hne fuel d qi qo Ht Hf) as Hs.
    rewrite E in Hs. destruct Hs as (l & qo' & -> & Ht' & _ & Esh & _). eexists _, qo'. split; [exact Ht'|].
    unfold moves, accepted. rewrite Esh, fmap_app, fmap_app, <- !(assoc_L (++)).
    destruct (_ =? 0); simpl; by rewrite ?app_nil_r.
  - exists qi, qo. split; [|split; [done|]; unfold accepted; simpl; by rewrite app_nil_r].
    destruct Ht. split; try done; simpl; eauto.
  - exists qi, qo. split; [|split; [done|]; unfold accepted; simpl; by rewrite app_nil_r, Esh].
    destruct Ht. split; try done; simpl; eauto.
Qed.

Lemma tsteps_moves d0 es d qi0 qo0 :
  trep read_addr write_addr d0 qi0 qo0 → tsteps read_addr write_addr d0 es d →
  ∃ qi qo, trep read_addr write_addr d qi qo ∧ moves d0 qi0 qo0 es d qi qo.
Proof.
  intros Ht. induction 1 as [|es d e d' _ (qi & qo & Ht1 & Hr1 & Hm1) Hs].
  - exists qi0, qo0. split; [done|]. split; [done|]. unfold accepted. simpl. by rewrite app_nil_r.
  - destruct (tstep_moves d e d' qi qo Ht1 Hs) as (qi' & qo' & Ht2 & Hr2 & Hm2). exists qi', qo'.
    split; [done|]. split; [by rewrite replay_app, Hr1|].
    by rewrite Hm2, fmap_app, (assoc_L (++)), Hm1, accepted_app, !fmap_app, !(assoc_L (++)).
Qed.

(** C18. Whatever the threads that write and read, the device and the rest of the
    kernel do after the start: the text the calls accepted is shown in the order
    in which it was accepted, up to the last characters, which wait in the write
    buffer; each reader takes the oldest input; output never waits without an
    interrupt to come, and nobody sleeps on a buffer that could serve him.  While
    no more than 2048 characters wait, the input is taken as it came. *)
Theorem tty_history_correct d0 es d :
  started d0 → tsteps read_addr write_addr d0 es d →
  ∃ qi qo, trep read_addr write_addr d qi qo ∧
    shown (tio d) ++ (u8 <$> qo) = shown (tio d0) ++ (u8 <$> accepted es) ∧
    replay [] es = Some qi ∧ (fits 0 es = true → arrived es = taken es ++ qi) ∧
    (qo ≠ [] → busy (tio d) ∨ raised (tio d)) ∧
    (qo = [] → waiting (tkern d) write_addr 0) ∧ (qi ≠ [] → waiting (tkern d) read_addr 0).
Proof.
  intros Hst Hs. destruct (tsteps_moves d0 es d [] []) as (qi & qo & Ht & Hr & Hm);
    [by apply started_trep|done|].
  exists qi, qo. split_and!; [done|done|done| |apply Ht|apply Ht|apply Ht].
  intros Hroom. by apply (replay_room []).
Qed.

(** A call of [tty_write] returns or sleeps.  With an empty buffer it accepts
    the first 2048 characters of the text, with a non-empty one none; what it
    accepted follows the output that waited.  It returns the length of the text
    when all of it is accepted, with the kernel as it was, and else sleeps on the
    buffer, which is not empty then. *)
Theorem tty_write_correct cpu t buf d qi qo :
  trep read_addr write_addr d qi qo → caller (tkern d) cpu t →
  returns (tty_write write_addr cpu buf d) (λ '(p, d'), ∃ l qo',
    l = (if decide (qo = []) then take (Z.to_nat TTY_BUF_SIZE) buf else []) ∧
    stop id p = Z.of_nat (length l) ∧ trep read_addr write_addr d' qi qo' ∧
    shown (tio d') ++ (u8 <$> qo') = shown (tio d) ++ (u8 <$> (qo ++ l)) ∧
    match p with
    | Returns _ => l = buf ∧ tkern d' = tkern d
    | Sleeps _ => l ≠ buf ∧ qo' ≠ [] ∧
        ∃ a th, krep (tkern d') a ∧ a_thread a t = Some th ∧ sleeps_on th = write_addr
    end).
Proof.
  intros Ht Hc.
  eapply returns_mono; [apply (write_resume_spec read_addr write_addr Hread Hwrite Hne cpu t (intr (tkern d))
    buf 0 d qi qo Ht); [lia|done]|].
  intros [p d'] (qo' & Ht' & l & El & Ej & Ed & _ & Esh & Hp). rewrite drop_0 in El, Ed. exists l, qo'.
  split_and!; try done. destruct p as [n|n]; simpl in Ej, Ed, Hp; unfold id in *.
  - destruct Hp as [En Ek]. split; [|rewrite Ek; by destruct (tkern d)].
    rewrite drop_ge, app_nil_r in Ed by lia. done.
  - destruct Hp as (Hlt & Hq & Hrow). split_and!; try done. intros ->. lia.
Qed.

(** A call of [tty_read] sleeps on the buffer when there is no input; else it
    answers the oldest characters, as many as there are up to [len], removes them
    from the buffer, and leaves the device and the kernel as they were. *)
Theorem tty_read_correct cpu t len d qi qo :
  trep read_addr write_addr d qi qo → caller (tkern d) cpu t →
  returns (tty_read read_addr cpu len d) (λ '(p, d'), tio d' = tio d ∧
    match p with
    | Returns out => qi ≠ [] ∧ out = take (Z.to_nat len) qi ∧
        trep read_addr write_addr d' (drop (Z.to_nat len) qi) qo ∧ tkern d' = tkern d
    | Sleeps _ => qi = [] ∧ trep read_addr write_addr d' [] qo ∧
        ∃ a th, krep (tkern d') a ∧ a_thread a t = Some th ∧ sleeps_on th = read_addr
    end).
Proof.
  intros Ht Hc.
  eapply returns_mono; [apply (read_resume_spec read_addr write_addr Hread Hwrite Hne cpu t (intr (tkern d))
    len d qi qo Ht Hc)|].
  intros [[out|n] d'] [Eio Hp]; split; try done. destruct Hp as (? & ? & ? & Ek). split_and!; try done.
  rewrite Ek. by destruct (tkern d).
Qed.

(** The interrupt handler returns.  A raised write interrupt takes output to
    the device until it is busy or the buffer is empty, at least one character if
    the device was not busy; a raised read interrupt takes all the input there is
    and wakes the readers.  An interrupt that is not raised has no effect. *)
Theorem tty_interrupt_correct fuel d qi qo :
  trep read_addr write_addr d qi qo → (length (typed (tio d)) < fuel)%nat →
  returns (tty_interrupt_handle read_addr write_addr fuel d) (λ d', ∃ l qo', qo = l ++ qo' ∧
    trep read_addr write_addr d'
      (if TTY_STATUS_RIRQ (tty_status (tio d)) =? 0 then qi
       else foldl arrive qi (u8 <$> typed (tio d))) qo' ∧
    typed (tio d') = (if TTY_STATUS_RIRQ (tty_status (tio d)) =? 0 then typed (tio d) else []) ∧
    shown (tio d') = shown (tio d) ++ (u8 <$> l) ∧ kframe (tkern d) (tkern d') ∧
    (raised (tio d) → qo' ≠ [] → busy (tio d')) ∧
    (raised (tio d) → ¬ busy (tio d) → qo ≠ [] → l ≠ []) ∧ (¬ raised (tio d) → l = []) ∧
    (TTY_STATUS_RIRQ (tty_status (tio d)) ≠ 0 → waiting (tkern d') read_addr 0)).
Proof. apply (handle_spec read_addr write_addr Hread Hwrite Hne). Qed.

(** C19. With 2048 characters in the read buffer the next one does not find it
    full: it takes the place of the oldest character, which is lost, and is
    delivered a second time behind the others. *)
Theorem tty_full_buffer_overwrites fuel d c0 q c qo :
  trep read_addr write_addr d (c0 :: q) qo → Z.of_nat (length (c0 :: q)) = TTY_BUF_SIZE →
  typed (tio d) = [c] → TTY_STATUS_RIRQ (tty_status (tio d)) ≠ 0 → (1 < fuel)%nat →
  returns (tty_interrupt_handle read_addr write_addr fuel d) (λ d', ∃ qo',
    trep read_addr write_addr d' (u8 c :: q ++ [u8 c]) qo').
Proof.
  intros Ht Hl Ety Hr Hf.
  eapply returns_mono; [apply (handle_spec read_addr write_addr Hread Hwrite Hne fuel d _ _ Ht); by rewrite Ety|].
  intros d' (l & qo' & _ & Ht' & _). exists qo'. rewrite Ety in Ht'.
  rewrite (proj2 (Z.eqb_neq _ _)) in Ht' by done. simpl foldl in Ht'. unfold arrive in Ht'.
  rewrite (proj2 (Z.ltb_ge _ _)), (proj2 (Z.eqb_eq _ _)) in Ht' by lia. done.
Qed.
End props.

(** ** Start-up *)

(** [tty_init] returns for a terminal on one of the six interrupt lines: its
    objects are new memory and its buffers empty, the first terminal shares the
    lock of [kprintf], and from then on an interrupt on its line runs
    [tty_interrupt_handle] on this device, after the handlers registered before.
    The [descriptor] of the device is what the memory held. *)
Theorem tty_init_correct code n descriptor0 iod old st regs table :
  table_holds regs table → Z.of_nat (length regs) < CONFIG_MAX_DEVICES →
  0 ≤ io_irq iod ≤ 5 → room st 4152 → free_area_start st mod 4 = 0 →
  returns (tty_init code n descriptor0 iod old st table) (λ '(dev, g, lock, r, n', st', table'),
    let a := free_area_start st in
    g = Gcd a (a_tty_write code) (a_tty_read code) ∧ generic_device dev = a + 20 ∧
    real_device dev = a + 32 ∧ io_address dev = io_area_base iod ∧ descriptor dev = descriptor0 ∧
    r = TtyReal (if n =? 0 then tty_slock old else 0) (read_buf old) 0 0 (write_buf old) 0 0 ∧
    lock = (if n =? 0 then a_kprintf_slock code else a + 4148) ∧ n' = n + 1 ∧
    free_area_start st' = a + (if n =? 0 then 4148 else 4152) ∧
    ∃ mask, table_holds (regs ++ [Registration dev mask (a_tty_interrupt_handle code)]) table' ∧
      ∀ T (call : Z → device_t → T → outcome T) cause s s1,
        Z.testbit cause (io_irq iod + 10) = true → dispatch call cause regs s = Done s1 →
        run_handlers call cause table' s = call (a_tty_interrupt_handle code) dev s1).
Proof.
  intros Ht Hlen Hirq (Hf & _ & Hr) Hal. unfold tty_init.
  assert (Hmod : ∀ m, m mod 4 = 0 → (free_area_start st + m) mod 4 = 0).
  { intros m Hm. by rewrite <- Z.add_mod_idemp_l, Hal. }
  destruct (stalloc_word st sizeof_device) as (st1 & -> & E1); [unfold room, sizeof_device; lia|done|done|].
  cbn [outcome_bind]. unfold sizeof_device in E1. rewrite (proj2 (Z.eqb_neq _ _)) by lia.
  destruct (stalloc_word st1 sizeof_gcd) as (st2 & -> & E2); [unfold room, sizeof_gcd; lia|done|by rewrite E1; apply Hmod|].
  cbn [outcome_bind]. unfold sizeof_gcd in E2. rewrite (proj2 (Z.eqb_neq _ _)) by lia.
  destruct (stalloc_word st2 sizeof_tty_real_device) as (st3 & -> & E3);
    [unfold room, sizeof_tty_real_device; lia|done|by rewrite E2, E1, <- Z.add_assoc; apply Hmod|].
  cbn [outcome_bind]. unfold sizeof_tty_real_device in E3. rewrite (proj2 (Z.eqb_neq _ _)) by lia.
  apply returns_bind, (returns_mono _ (λ '(lock, st'),
    lock = (if n =? 0 then a_kprintf_slock code else free_area_start st + 4148) ∧
    free_area_start st' = free_area_start st + (if n =? 0 then 4148 else 4152))).
  { destruct (n =? 0); [cbn [returns]; split; [done|lia]|].
    destruct (stalloc_word st3 4) as (st4 & -> & E4); [unfold room; lia|done|
      by rewrite E3, E2, E1, <- !Z.add_assoc; apply Hmod|].
    cbn [outcome_bind]. rewrite (proj2 (Z.eqb_neq _ _)) by lia. cbn [returns]. split; lia. }
  intros [lock st4] [-> E4]. rewrite u32_id by (unfold is_u32; lia). rewrite (proj2 (Z.leb_gt _ _)) by lia.
  set (dev := Device _ _ _ _ _). apply returns_bind.
  eapply returns_mono; [by apply (register_line_spec regs)|]. intros table' [Ht' Hrun]. cbn [returns].
  cbv zeta. split; [done|]. split; [cbn; lia|]. split; [cbn; lia|]. do 6 (split; [done|]). by eexists.
Qed.

(** ** A terminal on which the theorems apply *)
Record demo_tty := DemoTty {
  dt_typed : list Z;
  dt_shown : list Z;
  dt_busy : bool;
  dt_wirq : bool;
  dt_rirq : bool
}.

#[export] Instance demo_tty_hw : TtyHw demo_tty := {
  tty_status h := (if bool_decide (dt_typed h = []) then 0 else 1) + 2 * Z.b2z (dt_busy h) +
    4 * Z.b2z (dt_rirq h) + 8 * Z.b2z (dt_wirq h);
  tty_command c h := DemoTty (dt_typed h) (dt_shown h) (dt_busy h)
    (dt_wirq h && negb (c =? TTY_COMMAND_WIRQ)) (dt_rirq h && negb (c =? TTY_COMMAND_RIRQ));
  tty_get h := (default 0 (head (dt_typed h)),
    DemoTty (tail (dt_typed h)) (dt_shown h) (dt_busy h) (dt_wirq h) (dt_rirq h));
  tty_put c h := DemoTty (dt_typed h) (dt_shown h ++ [u8 c]) true (dt_wirq h) (dt_rirq h)
}.

#[export] Instance demo_tty_spec : TtyHwSpec demo_tty.
Proof.
  refine {| typed := dt_typed; shown := dt_shown |}.
  - intros [l o [] [] []]; simpl; case_bool_decide; simpl; split; done || naive_solver.
  - intros [l o [] [] []] c l' E; simpl in *; subst l; by destruct l'.
  - intros [[|x l] o [] [] []] c; simpl; intros E; split_and!; try done; by left.
  - intros [[|x l] o [] [] []] c; split_and!; try done; simpl;
      destruct (Z.eqb_spec c TTY_COMMAND_WIRQ), (Z.eqb_spec c TTY_COMMAND_RIRQ); simpl; done || (intros; congruence).
  - intros [[|x l] o [] [] []]; done.
Defined.

Definition demo_term (h : demo_tty) : tstate demo_tty :=
  TState demo_running (TtyReal 0 (replicate 2048 0) 0 0 (replicate 2048 0) 0 0) h.

Lemma demo_nobody r : waiting demo_running r 0.
Proof.
  exists demo_run_abs. split; [exact demo_run_krep|]. unfold waiters, a_bucket.
  change (a_sleep demo_run_abs) with (replicate 127 ([] : list Z)).
  destruct (replicate 127 [] !! _) as [l|] eqn:El; [|done]. by apply lookup_replicate in El as [-> _].
Qed.

Lemma demo_started h : started 0x100 0x200 (demo_term h).
Proof.
  split; simpl; [exact demo_run_kinv|split; apply demo_nobody|].
  exists (replicate 2048 0), (replicate 2048 0). by rewrite length_replicate.
Qed.

Definition idle_tty : demo_tty := DemoTty [] [] false false false.

Lemma demo_trep h : trep 0x100 0x200 (demo_term h) [] [].
Proof. apply started_trep, demo_started. Qed.

Lemma demo_addresses : (is_u32 0x100 ∧ 0x100 ≠ 0) ∧ (is_u32 0x200 ∧ 0x200 ≠ 0) ∧ 0x100 ≠ 0x200.
Proof. split_and!; done. Qed.

Lemma tty_history_correct_witness :
  ∃ es d, tsteps 0x100 0x200 (demo_term idle_tty) es d ∧ accepted es = [104; 105] ∧
    ∃ qo, shown (tio d) ++ (u8 <$> qo) = [104; 105].
Proof.
  destruct demo_addresses as (Hr & Hw & Hne).
  pose proof (write_resume_spec 0x100 0x200 Hr Hw Hne 0 1 (intr demo_running) [104; 105] 0
    (demo_term idle_tty) [] [] (demo_trep _) ltac:(split; discriminate) demo_caller) as Hs.
  destruct (returns_inv _ _ Hs) as ([p d] & E & qo' & _ & l & -> & Ej & _). simpl in Ej.
  assert (Hst : tsteps 0x100 0x200 (demo_term idle_tty) ([] ++ [Accept (take (Z.to_nat (stop id p)) [104; 105])]) d).
  { eapply tsteps_snoc; [apply tsteps_nil|]. apply (ts_write _ _ 0 1); [exact demo_caller|exact E]. }
  rewrite Ej in Hst. exists [Accept [104; 105]], d. split; [exact Hst|]. split; [reflexivity|].
  destruct (tty_history_correct 0x100 0x200 Hr Hw Hne _ _ _ (demo_started idle_tty) Hst)
    as (_ & qo & _ & Hsh & _).
  exists qo. exact Hsh.
Defined.

Lemma tty_write_correct_witness :
  returns (tty_write 0x200 0 [104; 105] (demo_term idle_tty)) (λ '(p, d'), stop id p = 2).
Proof.
  destruct demo_addresses as (Hr & Hw & Hne).
  eapply returns_mono; [exact (tty_write_correct 0x100 0x200 Hr Hw Hne 0 1 [104; 105]
    (demo_term idle_tty) [] [] (demo_trep _) demo_caller)|].
  intros [p d'] (l & qo' & -> & Ej & _). exact Ej.
Defined.

Lemma tty_read_correct_witness :
  returns (tty_read 0x100 0 5 (demo_term idle_tty)) (λ '(p, d'), match p with Returns _ => False | Sleeps _ => True end).
Proof.
  destruct demo_addresses as (Hr & Hw & Hne).
  eapply returns_mono; [exact (tty_read_correct 0x100 0x200 Hr Hw Hne 0 1 5
    (demo_term idle_tty) [] [] (demo_trep _) demo_caller)|].
  intros [[out|n] d'] [_ Hp]; [|exact I]. destruct Hp as [Hq _]. by apply Hq.
Defined.

Lemma tty_interrupt_correct_witness :
  returns (tty_interrupt_handle 0x100 0x200 2 (demo_term (DemoTty [65] [] false false true)))
    (λ d', trep 0x100 0x200 d' [65] [] ∧ typed (tio d') = []).
Proof.
  destruct demo_addresses as (Hr & Hw & Hne).
  eapply returns_mono; [refine (tty_interrupt_correct 0x100 0x200 Hr Hw Hne 2
    (demo_term (DemoTty [65] [] false false true)) [] [] (demo_trep _) _); simpl; lia|].
  intros d' (l & qo' & Eq & Ht & Ety & _). symmetry in Eq. apply app_eq_nil in Eq as [_ ->].
  split; [exact Ht|exact Ety].
Defined.

(** The read buffer holds 2048 times the letter A. *)
Definition demo_full (h : demo_tty) : tstate demo_tty :=
  TState demo_running (TtyReal 0 (replicate 2048 65) 0 2048 (replicate 2048 0) 0 0) h.

Lemma demo_full_trep h : trep 0x100 0x200 (demo_full h) (65 :: replicate 2047 65) [].
Proof.
  split; unfold in_ok, out_ok; cbn [tkern tty tio demo_full tty_slock read_buf read_head read_count
    write_buf write_head write_count].
  - exact demo_run_kinv.
  - reflexivity.
  - split; by vm_compute.
  - by vm_compute.
  - split; by vm_compute.
  - by vm_compute.
  - done.
  - intros _. apply demo_nobody.
  - intros _. apply demo_nobody.
Qed.

Lemma tty_full_buffer_overwrites_witness :
  returns (tty_interrupt_handle 0x100 0x200 2 (demo_full (DemoTty [66] [] false false true)))
    (λ d', ∃ qo', trep 0x100 0x200 d' (66 :: replicate 2047 65 ++ [66]) qo').
Proof.
  destruct demo_addresses as (Hr & Hw & Hne).
  refine (tty_full_buffer_overwrites 0x100 0x200 Hr Hw Hne 2 (demo_full (DemoTty [66] [] false false true))
    65 (replicate 2047 65) 66 [] (demo_full_trep _) _ _ _ _).
  - by vm_compute.
  - reflexivity.
  - by vm_compute.
  - lia.
Defined.

Lemma empty_table : table_holds [] (replicate 128 (IntEntry None 0 0)).
Proof. exists (replicate 128 (IntEntry None 0 0)). split_and!; [done|by apply Forall_replicate|done]. Qed.

Lemma tty_init_correct_witness :
  returns (tty_init (TtyCode 1 2 3 4) 0 7 (IoDescriptor TYPECODE_TTY 0x500 20 3 [])
      (TtyReal 0 [] 5 5 [] 5 5) (Stalloc 0x80020000 0) (replicate 128 (IntEntry None 0 0)))
    (λ '(dev, g, lock, r, n, st', table'), lock = 4 ∧ descriptor dev = 7).
Proof.
  eapply returns_mono; [apply (tty_init_correct (TtyCode 1 2 3 4) 0 7 (IoDescriptor TYPECODE_TTY 0x500 20 3 [])
    (TtyReal 0 [] 5 5 [] 5 5) (Stalloc 0x80020000 0) [] _ empty_table); done|].
  intros [[[[[[dev g] lock] r] n] st'] table'] (_ & _ & _ & _ & Hd & _ & Hl & _). split; [exact Hl|exact Hd].
Defined.
