(* ===== verification/X86Keyboard.v ===== *)
(** * The keyboard of the x86-64 machine (drivers/x86_64/keyboard.c)

    The scan codes of the keyboard and its controller, and the [tty_read] the
    kernel makes of them (drivers/x86_64/tty.c).  Port input and output are
    those of X86Cpu.v (the class [Ports]); what the properties rely on of the controller
    is the class [Controller]. *)

From S2P Require Import Prelude X86Cpu.

Definition PS2_KEYBOARD_DATA : Z := 0x60.
Definition PS2_KEYBOARD_STATUS : Z := 0x64.
Definition PS2_KB_STATUS_OUTPUT_BUSY : Z := 0x1.
Definition PS2_KB_STATUS_INPUT_BUSY : Z := 0x2.
Definition PS2_KB_INTERFACETEST : Z := 0xAB.
Definition PS2_KB_SETLEDS : Z := 0xED.
Definition PS2_KB_IDENTIFY : Z := 0xF2.
Definition PS2_KB_ENABLESCAN : Z := 0xF4.
Definition PS2_KB_RESETWAIT : Z := 0xF5.
Definition PS2_KB_ACK : Z := 0xFA.
Definition INVALID_SCANCODE : Z := 0xFFFF.

(** ** The keyboard (keyboard.c) *)
Record keyboard := Keyboard {
  kb_shift : Z;
  kb_ctrl : Z;
  kb_numlock : Z;
  kb_capslock : Z;
  kb_scrolllock : Z;
  kb_code : Z
}.

Definition set_code (c : Z) (kb : keyboard) : keyboard :=
  Keyboard (kb_shift kb) (kb_ctrl kb) (kb_numlock kb) (kb_capslock kb) (kb_scrolllock kb) c.

Definition kb_map : list Z :=
  [0; 0; 49; 50;
   51; 52; 53; 54;
   55; 56; 57; 48;
   45; 61; 8; 9;
   113; 119; 101; 114;
   116; 121; 117; 105;
   111; 112; 91; 93;
   10; 0; 97; 115;
   100; 102; 103; 104;
   106; 107; 108; 59;
   39; 96; 0; 92;
   122; 120; 99; 118;
   98; 110; 109; 44;
   46; 47; 0; 42;
   0; 32; 0; 0;
   0; 0; 0; 0;
   0; 0; 0; 0;
   0; 0; 0; 55;
   56; 57; 45; 52;
   53; 54; 43; 49;
   50; 51; 48; 46].

Definition kb_map_shift : list Z :=
  [0; 0; 33; 64;
   35; 36; 37; 94;
   38; 42; 40; 41;
   95; 43; 8; 9;
   81; 87; 69; 82;
   84; 89; 85; 73;
   79; 80; 123; 125;
   10; 0; 65; 83;
   68; 70; 71; 72;
   74; 75; 76; 58;
   34; 126; 0; 124;
   90; 88; 67; 86;
   98; 78; 77; 60;
   62; 63; 0; 42;
   0; 32; 0; 0;
   0; 0; 0; 0;
   0; 0; 0; 0;
   0; 0; 0; 55;
   56; 57; 45; 52;
   53; 54; 43; 49;
   50; 51; 48; 46].

(** What [keyboard_key_int] does with the scan code [kcode] it has read. *)
Definition keyboard_key (kcode : Z) (kb : keyboard) : outcome keyboard :=
  if (kcode =? 0xE0) || (kcode =? 0xE1) then Done kb
  else
    let '(kcode, xt) := if negb (Z.land kcode 0x80 =? 0) then (kcode - 0x80, 1) else (kcode, 0) in
    let toggle (b : Z) := if b =? 0 then 1 else 0 in
    if (kcode =? 0x2a) || (kcode =? 0x36) then
      Done (Keyboard (toggle (kb_shift kb)) (kb_ctrl kb) (kb_numlock kb) (kb_capslock kb)
        (kb_scrolllock kb) (kb_code kb))
    else if kcode =? 0x1d then
      Done (Keyboard (kb_shift kb) (toggle (kb_ctrl kb)) (kb_numlock kb) (kb_capslock kb)
        (kb_scrolllock kb) (kb_code kb))
    else if kcode =? 0x3a then
      Done (Keyboard (kb_shift kb) (kb_ctrl kb) (kb_numlock kb) xt (kb_scrolllock kb) (kb_code kb))
    else if kcode =? 0x45 then
      Done (Keyboard (kb_shift kb) (kb_ctrl kb) xt (kb_capslock kb) (kb_scrolllock kb) (kb_code kb))
    else if kcode =? 0x46 then
      Done (Keyboard (kb_shift kb) (kb_ctrl kb) (kb_numlock kb) (kb_capslock kb) xt (kb_code kb))
    else if xt =? 0 then
      let* c := if kb_shift kb =? 0 then aread kb_map kcode else aread kb_map_shift kcode in
      Done (set_code c kb)
    else Done kb.

(** The byte [keyboard_updateLED] sends. *)
Definition keyboard_leds (kb : keyboard) : Z :=
  let led_data := 0 in
  let led_data := if kb_scrolllock kb =? 1 then Z.lor led_data 1 else Z.land led_data 1 in
  let led_data := if kb_numlock kb =? 1 then Z.lor led_data 2 else Z.land led_data 2 in
  if kb_capslock kb =? 1 then Z.lor led_data 4 else Z.land led_data 4.

Section ports.
Context {T : Type} {ports : Ports T}.
Implicit Types t : T.

Definition keyboard_getstatus t : Z * T := inb PS2_KEYBOARD_STATUS t.

Definition keyboard_test t : bool * T :=
  let '(s, t) := keyboard_getstatus t in
  if negb (Z.land s PS2_KB_STATUS_OUTPUT_BUSY =? 0) then (true, snd (inb PS2_KEYBOARD_DATA t))
  else (false, t).

(** The waits for the controller take fuel. *)
Definition wait_status (fuel : nat) (mask : Z) (busy : bool) t : outcome T :=
  while_loop fuel (λ t,
    let '(s, t) := keyboard_getstatus t in
    if Bool.eqb (negb (Z.land s mask =? 0)) busy then Done (inl t) else Done (inr t)) t.

Definition keyboard_readdata (fuel : nat) t : outcome (Z * T) :=
  let* t := wait_status fuel PS2_KB_STATUS_OUTPUT_BUSY false t in
  Done (inb PS2_KEYBOARD_DATA t).

Definition keyboard_sendencoder (fuel : nat) (command : Z) t : outcome (Z * T) :=
  let* t := wait_status fuel PS2_KB_STATUS_INPUT_BUSY true t in
  let t := outb PS2_KEYBOARD_DATA command t in
  keyboard_readdata fuel t.

Definition keyboard_updateLED (fuel : nat) (kb : keyboard) t : outcome T :=
  let* '(_, t) := keyboard_sendencoder fuel PS2_KB_SETLEDS t in
  let* '(_, t) := keyboard_sendencoder fuel (keyboard_leds kb) t in
  Done t.

Definition keyboard_key_int (fuel : nat) (kb : keyboard) t : outcome (keyboard * T) :=
  let '(s, t) := keyboard_getstatus t in
  if negb (Z.land s PS2_KB_STATUS_OUTPUT_BUSY =? 0) then
    let* '(kcode, t) := keyboard_readdata fuel t in
    let* kb := keyboard_key kcode kb in
    Done (kb, t)
  else Done (kb, t).

(** [true]: a keyboard was found, and its interrupt is to be installed. *)
Definition keyboard_init (fuel : nat) (kb : keyboard) t : outcome (bool * keyboard * T) :=
  let* t := while_loop fuel (λ t,
    let '(b, t) := keyboard_test t in if b : bool then Done (inl t) else Done (inr t)) t in
  let* '(a, t) := keyboard_sendencoder fuel PS2_KB_RESETWAIT t in
  if negb (a =? PS2_KB_ACK) then Done (false, kb, t) else
  let* '(a, t) := keyboard_sendencoder fuel PS2_KB_IDENTIFY t in
  if negb (a =? PS2_KB_ACK) then Done (false, kb, t) else
  let* '(a, t) := keyboard_readdata fuel t in
  if negb (a =? PS2_KB_INTERFACETEST) then Done (false, kb, t) else
  let* '(_, t) := keyboard_readdata fuel t in
  let* '(a, t) := keyboard_sendencoder fuel PS2_KB_ENABLESCAN t in
  if negb (a =? PS2_KB_ACK) then Done (false, kb, t) else
  let* t := keyboard_updateLED fuel kb t in
  Done (true, Keyboard 0 0 (kb_numlock kb) (kb_capslock kb) (kb_scrolllock kb) INVALID_SCANCODE, t).
End ports.

(** The wait of [keyboard_getkey] ends when the interrupts have stored a key;
    [codes] are the scan codes of the interrupts that come, and those it did not
    wait for are left. *)
Fixpoint keyboard_getkey (codes : list Z) (kb : keyboard) : outcome (Z * list Z * keyboard) :=
  if kb_code kb =? INVALID_SCANCODE then
    match codes with
    | [] => Blocked
    | c :: codes => let* kb := keyboard_key c kb in keyboard_getkey codes kb
    end
  else Done (s8 (kb_code kb), codes, set_code INVALID_SCANCODE kb).

(** [tty_read] of this machine: up to the end of the line. *)
Definition tty_read64 (buf : list Z) (len : Z) (codes : list Z) (kb : keyboard)
    : outcome (Z * list Z * list Z * keyboard) :=
  while_loop (S (Z.to_nat len)) (λ '(i, buf, codes, kb),
    if negb (len - i =? 0) then
      let* '(key, codes, kb) := keyboard_getkey codes kb in
      if key =? 10 then Done (inr (i, buf, codes, kb))
      else
        let* buf := awrite buf i (u8 key) in
        Done (inl (i + 1, buf, codes, kb))
    else Done (inr (i, buf, codes, kb))) (0, buf, codes, kb).

(** ** Keystrokes *)

(** The keys that have no character of their own. *)
Definition is_modifier (k : Z) : bool := bool_decide (k ∈ [0x1d; 0x2a; 0x36; 0x3a; 0x45; 0x46]).

(** What the keyboard sends when [c] is typed: the key is pressed and released,
    with a shift key held where the character needs it. *)
Definition strokes (c : Z) : list Z :=
  match list_find (c =.) kb_map with
  | Some (k, _) => [Z.of_nat k; Z.of_nat k + 0x80]
  | None =>
      match list_find (c =.) kb_map_shift with
      | Some (k, _) => [0x2a; Z.of_nat k; Z.of_nat k + 0x80; 0xaa]
      | None => []
      end
  end.

Definition typeable (c : Z) : bool :=
  negb (c =? 0) && bool_decide (strokes c ≠ []).

(** No shift key is held and no key waits to be read. *)
Definition idle (kb : keyboard) : Prop := kb_shift kb = 0 ∧ kb_code kb = INVALID_SCANCODE.

(** The codes still to come bring the keyboard from [kb'] back to [kb]. *)
Definition settled (codes : list Z) (kb' kb : keyboard) : Prop :=
  ∀ more, keyboard_getkey (codes ++ more) kb' = keyboard_getkey more kb.

(** The release of a key is its code with bit 7 set. *)
Lemma release_bit k :
  0 ≤ k < 84 → Z.land k 0x80 = 0 ∧ Z.land (k + 0x80) 0x80 ≠ 0.
Proof.
  intros Hk.
  pose proof (forallb_seqZ (λ k, (Z.land k 0x80 =? 0) && negb (Z.land (k + 0x80) 0x80 =? 0)) 0 84
    k ltac:(reflexivity) Hk) as Hall. cbv beta in Hall.
  by apply andb_prop in Hall as [?%Z.eqb_eq ?%negb_true_iff%Z.eqb_neq].
Qed.

Lemma keyboard_key_press k c kb :
  0 ≤ k < 84 → is_modifier k = false →
  aread (if kb_shift kb =? 0 then kb_map else kb_map_shift) k = Done c →
  keyboard_key k kb = Done (set_code c kb).
Proof.
  intros Hk Hm%bool_decide_eq_false Hc. unfold keyboard_key.
  rewrite !not_elem_of_cons in Hm. destruct Hm as (?&?&?&?&?&?&_).
  rewrite (proj2 (Z.eqb_neq k 0xE0)), (proj2 (Z.eqb_neq k 0xE1)) by lia. cbn [orb].
  destruct (release_bit k) as [Hbit _]; [done|].
  rewrite Hbit. cbn [Z.eqb negb].
  repeat match goal with |- context [k =? ?n] => rewrite (proj2 (Z.eqb_neq k n)) by done end.
  cbn [orb]. destruct (kb_shift kb =? 0); by rewrite Hc.
Qed.

Lemma keyboard_key_release k kb :
  0 ≤ k < 84 → is_modifier k = false → keyboard_key (k + 0x80) kb = Done kb.
Proof.
  intros Hk Hm%bool_decide_eq_false. unfold keyboard_key.
  rewrite !not_elem_of_cons in Hm. destruct Hm as (?&?&?&?&?&?&_).
  rewrite (proj2 (Z.eqb_neq (k + 0x80) 0xE0)), (proj2 (Z.eqb_neq (k + 0x80) 0xE1)) by lia.
  cbn [orb].
  destruct (release_bit k) as [_ Hland]; [done|].
  rewrite (proj2 (Z.eqb_neq _ _) Hland). cbn [negb].
  replace (k + 0x80 - 0x80) with k by lia.
  repeat match goal with |- context [k =? ?n] => rewrite (proj2 (Z.eqb_neq k n)) by done end.
  done.
Qed.

(** Every character of the maps is at the place of a key that is no modifier. *)
Lemma find_key map c k x :
  map = kb_map ∨ map = kb_map_shift → c ≠ 0 → list_find (c =.) map = Some (k, x) →
  0 ≤ Z.of_nat k < 84 ∧ is_modifier (Z.of_nat k) = false ∧ aread map (Z.of_nat k) = Done c ∧
  0 < c < 128.
Proof.
  intros Hmap Hc (Hk & -> & _)%list_find_Some.
  assert (Hall : forallb (λ k, match map !! k with
      | Some c => (c =? 0) || ((k <? 84)%nat && negb (is_modifier (Z.of_nat k)) && (0 <? c) && (c <? 128))
      | None => true end) (seq 0 (length map)) = true)
    by (destruct Hmap as [-> | ->]; reflexivity).
  pose proof (lookup_lt_Some _ _ _ Hk) as Hlt.
  rewrite forallb_forall in Hall. specialize (Hall k (proj2 (in_seq _ _ _) (conj (Nat.le_0_l _) Hlt))).
  rewrite Hk, (proj2 (Z.eqb_neq _ _) Hc) in Hall. cbn [orb] in Hall.
  apply andb_prop in Hall as [[[? Hm%negb_true_iff]%andb_prop ?]%andb_prop ?].
  rewrite ?Nat.ltb_lt, ?Z.ltb_lt in *.
  split_and!; try lia; [done|]. apply aread_Done. rewrite Nat2Z.id. split; [lia|done].
Qed.

Lemma getkey_wait c codes kb kb' :
  kb_code kb = INVALID_SCANCODE → keyboard_key c kb = Done kb' →
  keyboard_getkey (c :: codes) kb = keyboard_getkey codes kb'.
Proof. intros Hi Hk. cbn [keyboard_getkey]. by rewrite Hi, Hk. Qed.

Lemma getkey_ready codes kb c :
  0 ≤ c < 128 → keyboard_getkey codes (set_code c kb) =
    Done (c, codes, set_code INVALID_SCANCODE kb).
Proof.
  intros Hc. assert (Hne : (c =? INVALID_SCANCODE) = false)
    by (apply Z.eqb_neq; unfold INVALID_SCANCODE; lia).
  destruct codes; cbn [keyboard_getkey set_code kb_code]; rewrite Hne, s8_spec by klia;
    by rewrite (proj2 (Z.ltb_lt c 128)) by lia.
Qed.

Lemma set_code_idle c kb : kb_code kb = INVALID_SCANCODE →
  set_code INVALID_SCANCODE (set_code c kb) = kb.
Proof. destruct kb. simpl. by intros ->. Qed.

(** Typing a character delivers it; the codes left to come release the keys. *)
Lemma getkey_stroke c kb :
  idle kb → typeable c = true →
  0 < c < 128 ∧ ∃ pending kb', settled pending kb' kb ∧
    ∀ more, keyboard_getkey (strokes c ++ more) kb = Done (c, pending ++ more, kb').
Proof.
  intros [Hs Hi] (Hc%negb_true_iff%Z.eqb_neq & Hk%bool_decide_eq_true)%andb_true_iff.
  unfold strokes in *.
  destruct (list_find (c =.) kb_map) as [[k x]|] eqn:E;
    [|destruct (list_find (c =.) kb_map_shift) as [[k x]|] eqn:E'; [|done]].
  - destruct (find_key kb_map c k x) as (Hk84 & Hm & Hr & Hb); [by left|done..|].
    split; [done|]. exists [Z.of_nat k + 0x80], kb. split.
    + intros more. cbn [app]. apply getkey_wait; [done|]. by apply keyboard_key_release.
    + intros more. cbn [app]. rewrite (getkey_wait _ _ _ (set_code c kb)); [|done|].
      * rewrite getkey_ready by lia. do 2 f_equal. destruct kb; simpl in *; by subst.
      * apply keyboard_key_press; [done..|]. by rewrite Hs.
  - destruct (find_key kb_map_shift c k x) as (Hk84 & Hm & Hr & Hb); [by right|done..|].
    set (held := Keyboard 1 (kb_ctrl kb) (kb_numlock kb) (kb_capslock kb) (kb_scrolllock kb)
      INVALID_SCANCODE).
    assert (Hup : keyboard_key 0xaa held = Done kb).
    { destruct kb; simpl in *; subst. reflexivity. }
    assert (Hdown : keyboard_key 0x2a kb = Done held).
    { destruct kb; simpl in *; subst. reflexivity. }
    split; [done|]. exists [Z.of_nat k + 0x80; 0xaa], held. split.
    + intros more. cbn [app]. rewrite (getkey_wait _ _ _ held), (getkey_wait _ _ _ kb); [done..|].
      by apply keyboard_key_release.
    + intros more. cbn [app]. rewrite (getkey_wait _ _ _ held), (getkey_wait _ _ _ (set_code c held));
        [|done| |done..].
      * by rewrite getkey_ready by lia.
      * by apply keyboard_key_press.
Qed.

(** ** Every scan code *)

Lemma map_chars k (plain : bool) :
  0 ≤ k < 84 → ∃ c, aread (if plain then kb_map else kb_map_shift) k = Done c ∧
    0 ≤ c < 128 ∧ c ≠ 66.
Proof.
  intros Hk.
  pose proof (forallb_seqZ (λ k, match aread (if plain then kb_map else kb_map_shift) k with
    | Done c => (0 <=? c) && (c <? 128) && negb (c =? 66) | _ => false end) 0 84) as Hall.
  specialize (Hall k ltac:(by destruct plain) Hk). cbv beta in Hall.
  destruct aread as [c| | | |]; try done. exists c. split; [done|].
  apply andb_prop in Hall as [[?%Z.leb_le ?%Z.ltb_lt]%andb_prop ?%negb_true_iff%Z.eqb_neq]. done.
Qed.

Lemma keyboard_key_past k kb : 84 ≤ k < 128 → keyboard_key k kb = Fault.
Proof.
  intros Hk. destruct kb as [sh ct nu ca sc co].
  pose proof (forallb_seqZ (λ k, match aread kb_map k, aread kb_map_shift k with
    | Fault, Fault => negb ((k =? 0xE0) || (k =? 0xE1)) && (Z.land k 0x80 =? 0) && negb (is_modifier k)
    | _, _ => false end) 84 44 k ltac:(reflexivity) Hk) as Hall. cbv beta in Hall.
  unfold keyboard_key.
  destruct (aread kb_map k) eqn:E1, (aread kb_map_shift k) eqn:E2; try done.
  apply andb_prop in Hall as [[Hx%negb_true_iff ->]%andb_prop Hm%negb_true_iff%bool_decide_eq_false].
  rewrite Hx. cbn [negb]. rewrite !not_elem_of_cons in Hm. destruct Hm as (?&?&?&?&?&?&_).
  repeat match goal with |- context [k =? ?n] => rewrite (proj2 (Z.eqb_neq k n)) by done end.
  cbn [orb Z.eqb]. simpl. by destruct (sh =? 0); rewrite ?E1, ?E2.
Qed.

Lemma keyboard_key_up k kb :
  128 ≤ k < 256 → is_modifier (k - 128) = false → keyboard_key k kb = Done kb.
Proof.
  intros Hk Hm%bool_decide_eq_false.
  pose proof (forallb_seqZ (λ k, negb (Z.land k 0x80 =? 0)) 128 128 k ltac:(reflexivity) Hk) as Hx.
  cbv beta in Hx. unfold keyboard_key. rewrite Hx. change 128 with 0x80 in Hm.
  rewrite !not_elem_of_cons in Hm. destruct Hm as (?&?&?&?&?&?&_).
  destruct ((k =? 0xE0) || (k =? 0xE1)); [done|].
  repeat match goal with |- context [k - 0x80 =? ?n] =>
    rewrite (proj2 (Z.eqb_neq (k - 0x80) n)) by done end.
  done.
Qed.

(** ** Reading a line *)
Lemma read_line_loop text : ∀ fuel pre suf pending kb0 kb rest len,
  idle kb → settled pending kb0 kb → Forall (λ c, typeable c = true ∧ c ≠ 10) text →
  (length text < fuel)%nat → (length text ≤ length suf)%nat →
  Z.of_nat (length pre + length text) ≤ len →
  let enter := if Z.of_nat (length pre + length text) <? len then strokes 10 else [] in
  ∃ pending' kb', settled pending' kb' kb ∧
  while_loop fuel (λ '(i, buf, codes, kb),
    if negb (len - i =? 0) then
      let* '(key, codes, kb) := keyboard_getkey codes kb in
      if key =? 10 then Done (inr (i, buf, codes, kb))
      else
        let* buf := awrite buf i (u8 key) in
        Done (inl (i + 1, buf, codes, kb))
    else Done (inr (i, buf, codes, kb)))
    (Z.of_nat (length pre), pre ++ suf, pending ++ concat (strokes <$> text) ++ enter ++ rest, kb0) =
  Done (Z.of_nat (length pre + length text), pre ++ text ++ drop (length text) suf,
    pending' ++ rest, kb').
Proof.
  induction text as [|c text IH]; intros fuel pre suf pending kb0 kb rest len
    Hidle Hset Htext Hfuel Hsuf Hlen enter; (destruct fuel as [|fuel]; [simpl in *; lia|]);
    rewrite while_loop_S; cbn [fmap list_fmap concat app length drop].
  - subst enter. rewrite Nat.add_0_r in *.
    destruct (Z.ltb_spec (Z.of_nat (length pre)) len) as [Hlt|Hge].
    + rewrite (proj2 (Z.eqb_neq _ _)) by lia. cbn [negb]. rewrite Hset.
      destruct (getkey_stroke 10 kb) as (_ & pending' & kb' & Hset' & Hkey); [done|reflexivity|].
      exists pending', kb'. split; [done|]. rewrite Hkey. cbn. by rewrite Nat.add_0_r.
    + rewrite (proj2 (Z.eqb_eq _ _)) by lia. cbn [negb]. exists pending, kb0. by rewrite Nat.add_0_r.
  - subst enter. apply Forall_cons in Htext as [[Hc Hne] Htext].
    destruct suf as [|x suf]; [simpl in *; lia|]. cbn [length drop] in *.
    rewrite (proj2 (Z.eqb_neq _ _)) by lia. cbn [negb]. rewrite Hset.
    destruct (getkey_stroke c kb) as (Hb & pending' & kb' & Hset' & Hkey); [done..|].
    rewrite <- app_assoc, Hkey. cbn [outcome_bind]. rewrite (proj2 (Z.eqb_neq c 10)) by done.
    rewrite u8_id by klia. rewrite awrite_middle by done. cbn [outcome_bind].
    destruct (IH fuel (pre ++ [c]) suf pending' kb' kb rest len) as (pending2 & kb2 & Hset2 & Hrun);
      [done..|lia|lia|rewrite length_app; simpl; lia|].
    exists pending2, kb2. split; [done|].
    rewrite length_app in Hrun. cbn [length] in Hrun.
    rewrite <- !(assoc_L (++)) in Hrun. cbn [app] in Hrun.
    replace (Z.of_nat (length pre) + 1) with (Z.of_nat (length pre + 1)) by lia.
    replace (length pre + S (length text))%nat with (length pre + 1 + length text)%nat in * by lia.
    exact Hrun.
Qed.

(** ** Properties *)

(** C28. [tty_read] of the x86-64 machine returns the line that was typed: for
    every text the maps of the keyboard can produce, read from the scan codes of
    its keystrokes (shift keys included) followed by Enter, the buffer holds the
    text and the length is returned; a full buffer ends the read without waiting
    for Enter.  The keyboard is left idle once the last key is released, so that
    the next read starts afresh. *)
Theorem tty_read64_correct text buf rest len kb :
  idle kb → Forall (λ c, typeable c = true ∧ c ≠ 10) text →
  Z.of_nat (length text) ≤ len ≤ Z.of_nat (length buf) →
  let enter := if Z.of_nat (length text) <? len then strokes 10 else [] in
  ∃ pending kb', settled pending kb' kb ∧
    tty_read64 buf len (concat (strokes <$> text) ++ enter ++ rest) kb =
      Done (Z.of_nat (length text), text ++ drop (length text) buf, pending ++ rest, kb').
Proof.
  intros Hidle Htext Hlen enter.
  apply (read_line_loop text (S (Z.to_nat len)) [] buf [] kb kb rest len);
    [done|by intros more|done|lia|lia|simpl; lia].
Qed.

Definition kb_start : keyboard := Keyboard 0 0 0 0 0 INVALID_SCANCODE.

(** Hi! and Enter. *)
Lemma tty_read64_correct_witness :
  concat (strokes <$> [72; 105; 33]) ++ strokes 10 =
    [0x2a; 0x23; 0xa3; 0xaa; 0x17; 0x97; 0x2a; 0x02; 0x82; 0xaa; 0x1c; 0x9c] ∧
  ∃ pending kb', settled pending kb' kb_start ∧
    tty_read64 [0; 0; 0; 7; 7] 5 (concat (strokes <$> [72; 105; 33]) ++ strokes 10 ++ []) kb_start =
      Done (3, [72; 105; 33; 7; 7], pending ++ [], kb').
Proof.
  split; [reflexivity|].
  apply (tty_read64_correct [72; 105; 33] [0; 0; 0; 7; 7] [] 5 kb_start); [done| |simpl; lia].
  repeat constructor; discriminate.
Defined.

(** C29. The interrupt of the keyboard on every scan code.  The press of a key
    with a place in the maps stores its character whether or not the key before
    it has been read, and no key stores a capital B; the press of a code from 84
    up, among them those of F11 and F12, reads past the end of the maps; a
    release and the codes 0xE0 and 0xE1 change nothing; and a modifier leaves the
    waiting key alone. *)
Theorem keyboard_key_correct kcode kb :
  is_u8 kcode →
  (kcode < 84 → is_modifier kcode = false → ∃ c,
     keyboard_key kcode kb = Done (set_code c kb) ∧ 0 ≤ c < 128 ∧ c ≠ 66) ∧
  (84 ≤ kcode < 128 → keyboard_key kcode kb = Fault) ∧
  (128 ≤ kcode → is_modifier (kcode - 128) = false → keyboard_key kcode kb = Done kb) ∧
  (is_modifier (kcode mod 128) = true → ∃ kb',
     keyboard_key kcode kb = Done kb' ∧ kb_code kb' = kb_code kb).
Proof.
  intros Hu. split_and!.
  - intros Hk Hm.
    destruct (map_chars kcode (kb_shift kb =? 0)) as (c & Hc & Hb); [klia|].
    exists c. split; [|done]. apply keyboard_key_press; [klia|done|].
    by destruct (kb_shift kb =? 0).
  - intros Hk. by apply keyboard_key_past.
  - intros Hk Hm. by apply keyboard_key_up; [klia|].
  - intros Hm%bool_decide_eq_true. rewrite !elem_of_cons in Hm.
    assert (Hsplit : kcode = kcode mod 128 ∨ kcode = kcode mod 128 + 128)
      by (kunfold; Z.to_euclidean_division_equations; lia).
    destruct Hm as [E|[E|[E|[E|[E|[E|[]%elem_of_nil]]]]]]; rewrite E in Hsplit;
      destruct Hsplit as [-> | ->]; by eexists.
Qed.

Lemma keyboard_key_correct_witness :
  is_u8 0x57 ∧ keyboard_key 0x57 kb_start = Fault.
Proof.
  assert (Hu : is_u8 0x57) by (compute; split; congruence).
  split; [exact Hu|].
  destruct (keyboard_key_correct 0x57 kb_start Hu) as (_ & Hp & _).
  apply Hp. lia.
Defined.

(** ** Start-up of the keyboard *)

(** What the driver relies on of the controller: bit 0 of the status tells that
    a byte can be read, bit 1 stays clear, bytes are read in order, and a
    command sent when nothing waits is recorded and [answer]ed. *)
Class Controller (T : Type) `{Ports T} := {
  output : T → list Z;
  sent : T → list Z;
  answer : Z → list Z;
  status_law t : ∃ s t', inb PS2_KEYBOARD_STATUS t = (s, t') ∧
    output t' = output t ∧ sent t' = sent t ∧
    (Z.land s PS2_KB_STATUS_OUTPUT_BUSY = 0 ↔ output t = []) ∧
    Z.land s PS2_KB_STATUS_INPUT_BUSY = 0;
  data_law t x l : output t = x :: l → ∃ t', inb PS2_KEYBOARD_DATA t = (x, t') ∧
    output t' = l ∧ sent t' = sent t;
  send_law t c : output t = [] →
    output (outb PS2_KEYBOARD_DATA c t) = answer c ∧
    sent (outb PS2_KEYBOARD_DATA c t) = sent t ++ [c]
}.

Section startup.
Context `{Controller T}.
Implicit Types t : T.

(** The controller answers [c] with [x], and then has [l] to read. *)
Definition heard (l : list Z) (cs : list Z) t : Prop := output t = l ∧ sent t = cs.

Lemma readdata_spec fuel t x l cs :
  (0 < fuel)%nat → heard (x :: l) cs t →
  ∃ t', keyboard_readdata fuel t = Done (x, t') ∧ heard l cs t'.
Proof.
  intros Hf [Ho Hs]. destruct fuel as [|fuel]; [lia|].
  destruct (status_law t) as (s & t' & Hin & Ho' & Hs' & Hbusy & _).
  destruct (data_law t' x l) as (t2 & Hd & Ho2 & Hs2); [by rewrite Ho'|].
  exists t2. split; [|split; [done|by rewrite Hs2, Hs']].
  unfold keyboard_readdata, wait_status, keyboard_getstatus. rewrite while_loop_S, Hin.
  rewrite (proj2 (Z.eqb_neq _ 0)) by (intros E; apply Hbusy in E; congruence).
  simpl. by rewrite Hd.
Qed.

Lemma sendencoder_spec fuel t c x l cs :
  (0 < fuel)%nat → heard [] cs t → answer c = x :: l →
  ∃ t', keyboard_sendencoder fuel c t = Done (x, t') ∧ heard l (cs ++ [c]) t'.
Proof.
  intros Hf [Ho Hs] Ha. destruct fuel as [|fuel]; [lia|].
  destruct (status_law t) as (s & t' & Hin & Ho' & Hs' & _ & Hfree).
  destruct (send_law t' c) as [Ho2 Hs2]; [by rewrite Ho'|].
  destruct (readdata_spec (S fuel) (outb PS2_KEYBOARD_DATA c t') x l (cs ++ [c]))
    as (t3 & Hr & Hh); [lia|split; congruence|].
  exists t3. split; [|done].
  unfold keyboard_sendencoder, wait_status, keyboard_getstatus. rewrite while_loop_S, Hin, Hfree.
  simpl. exact Hr.
Qed.

Lemma keyboard_drain_spec l : ∀ fuel t cs,
  (length l < fuel)%nat → heard l cs t →
  ∃ t', while_loop fuel (λ t,
    let '(b, t) := keyboard_test t in if b : bool then Done (inl t) else Done (inr t)) t = Done t' ∧
    heard [] cs t'.
Proof.
  induction l as [|x l IH]; intros fuel t cs Hf [Ho Hs];
    (destruct fuel as [|fuel]; [simpl in *; lia|]);
    destruct (status_law t) as (s & t' & Hin & Ho' & Hs' & Hbusy & _).
  - exists t'. rewrite while_loop_S. unfold keyboard_test, keyboard_getstatus. cbv beta.
    rewrite Hin, (proj2 Hbusy Ho). split; [done|]. split; congruence.
  - destruct (data_law t' x l) as (t2 & Hd & Ho2 & Hs2); [by rewrite Ho'|].
    destruct (IH fuel t2 cs) as (t3 & Hrun & Hh); [simpl in *; lia|split; congruence|].
    exists t3. split; [|done].
    assert (Ht : keyboard_test t = (true, t2)).
    { unfold keyboard_test, keyboard_getstatus.
      rewrite Hin, (proj2 (Z.eqb_neq _ 0)) by (intros E; apply Hbusy in E; congruence).
      cbn [negb]. by rewrite Hd. }
    rewrite while_loop_S, Ht. exact Hrun.
Qed.

Lemma updateLED_spec fuel kb t cs :
  (0 < fuel)%nat → heard [] cs t →
  answer PS2_KB_SETLEDS = [PS2_KB_ACK] → answer (keyboard_leds kb) = [PS2_KB_ACK] →
  ∃ t', keyboard_updateLED fuel kb t = Done t' ∧
    heard [] (cs ++ [PS2_KB_SETLEDS; keyboard_leds kb]) t'.
Proof.
  intros Hf Hh Ha Hl.
  destruct (sendencoder_spec fuel t PS2_KB_SETLEDS PS2_KB_ACK [] cs) as (t2 & E2 & H2); [done..|].
  destruct (sendencoder_spec fuel t2 (keyboard_leds kb) PS2_KB_ACK [] (cs ++ [PS2_KB_SETLEDS]))
    as (t3 & E3 & H3); [done..|].
  exists t3. unfold keyboard_updateLED. rewrite E2. cbn [outcome_bind]. rewrite E3.
  split; [done|]. by rewrite <- (assoc_L (++)) in H3.
Qed.

(** The driver drops what waited, and talks to the keyboard in the order of the
    protocol; it enables the keyboard only when each command was acknowledged. *)
Theorem keyboard_init_correct fuel kb t l cs a l' id :
  (length l < fuel)%nat → heard l cs t → answer PS2_KB_RESETWAIT = a :: l' →
  (a ≠ PS2_KB_ACK → ∃ t', keyboard_init fuel kb t = Done (false, kb, t') ∧
     heard l' (cs ++ [PS2_KB_RESETWAIT]) t') ∧
  (a = PS2_KB_ACK → l' = [] →
   answer PS2_KB_IDENTIFY = [PS2_KB_ACK; PS2_KB_INTERFACETEST; id] →
   answer PS2_KB_ENABLESCAN = [PS2_KB_ACK] → answer PS2_KB_SETLEDS = [PS2_KB_ACK] →
   answer (keyboard_leds kb) = [PS2_KB_ACK] →
   ∃ t', keyboard_init fuel kb t = Done (true,
       Keyboard 0 0 (kb_numlock kb) (kb_capslock kb) (kb_scrolllock kb) INVALID_SCANCODE, t') ∧
     heard [] (cs ++ [PS2_KB_RESETWAIT; PS2_KB_IDENTIFY; PS2_KB_ENABLESCAN;
                      PS2_KB_SETLEDS; keyboard_leds kb]) t').
Proof.
  intros Hf Hh Ha. destruct (keyboard_drain_spec l fuel t cs) as (t1 & E1 & H1); [done..|].
  destruct (sendencoder_spec fuel t1 PS2_KB_RESETWAIT a l' cs) as (t2 & E2 & H2); [lia|done..|].
  unfold keyboard_init. rewrite E1. cbn [outcome_bind]. rewrite E2. cbn [outcome_bind].
  split; [intros Hne; rewrite (proj2 (Z.eqb_neq _ _) Hne); by exists t2|].
  intros -> -> Hid Hen Hset Hled.
  destruct (sendencoder_spec fuel t2 PS2_KB_IDENTIFY PS2_KB_ACK [PS2_KB_INTERFACETEST; id]
    (cs ++ [PS2_KB_RESETWAIT])) as (t3 & E3 & H3); [lia|done..|].
  destruct (readdata_spec fuel t3 PS2_KB_INTERFACETEST [id]
    ((cs ++ [PS2_KB_RESETWAIT]) ++ [PS2_KB_IDENTIFY])) as (t4 & E4 & H4); [lia|done|].
  destruct (readdata_spec fuel t4 id [] ((cs ++ [PS2_KB_RESETWAIT]) ++ [PS2_KB_IDENTIFY]))
    as (t5 & E5 & H5); [lia|done|].
  destruct (sendencoder_spec fuel t5 PS2_KB_ENABLESCAN PS2_KB_ACK []
    ((cs ++ [PS2_KB_RESETWAIT]) ++ [PS2_KB_IDENTIFY])) as (t6 & E6 & H6); [lia|done..|].
  destruct (updateLED_spec fuel kb t6
    (((cs ++ [PS2_KB_RESETWAIT]) ++ [PS2_KB_IDENTIFY]) ++ [PS2_KB_ENABLESCAN]))
    as (t7 & E7 & H7); [lia|done..|].
  exists t7. rewrite Z.eqb_refl. cbn [negb].
  rewrite E3. cbn [outcome_bind]. rewrite Z.eqb_refl. cbn [negb].
  rewrite E4. cbn [outcome_bind]. rewrite Z.eqb_refl. cbn [negb].
  rewrite E5. cbn [outcome_bind]. rewrite E6. cbn [outcome_bind]. rewrite Z.eqb_refl. cbn [negb].
  rewrite E7. split; [done|]. by rewrite <- !(assoc_L (++)) in H7.
Qed.
End startup.

(** The byte that sets the lights has the bit of each lock only when all locks
    above it are on: without caps lock no light is ever lit. *)
Lemma keyboard_leds_lost kb :
  keyboard_leds kb =
    if kb_capslock kb =? 1 then
      4 + (if kb_numlock kb =? 1 then 2 + (if kb_scrolllock kb =? 1 then 1 else 0) else 0)
    else 0.
Proof.
  unfold keyboard_leds.
  by destruct (kb_scrolllock kb =? 1), (kb_numlock kb =? 1), (kb_capslock kb =? 1).
Qed.

(** A controller as a queue of bytes. *)
Record demo_kbd := DemoKbd { dk_out : list Z; dk_sent : list Z }.

Definition demo_answer (c : Z) : list Z :=
  if c =? PS2_KB_IDENTIFY then [PS2_KB_ACK; PS2_KB_INTERFACETEST; 0x83] else [PS2_KB_ACK].

#[global] Instance demo_kbd_ports : Ports demo_kbd := {|
  inb p t := if p =? PS2_KEYBOARD_STATUS then (match dk_out t with [] => 0 | _ => 1 end, t)
    else match dk_out t with [] => (0, t) | x :: l => (x, DemoKbd l (dk_sent t)) end;
  outb p c t := DemoKbd (dk_out t ++ demo_answer c) (dk_sent t ++ [c])
|}.

#[global, refine] Instance demo_kbd_controller : Controller demo_kbd := {|
  output := dk_out; sent := dk_sent; answer := demo_answer
|}.
Proof.
  - intros [[|x l] cs]; [exists 0 | exists 1]; eexists; (split; [reflexivity|]);
      repeat split; try done.
  - intros [o cs] x l Hx. simpl in Hx. subst o. eexists. split; [reflexivity|]. done.
  - intros [o cs] c Ho. simpl in Ho. subst o. done.
Defined.

Lemma keyboard_init_correct_witness :
  ∃ t', keyboard_init 3 (Keyboard 1 1 1 1 0 7) (DemoKbd [9; 9] []) =
      Done (true, Keyboard 0 0 1 1 0 INVALID_SCANCODE, t') ∧
    heard [] ([] ++ [PS2_KB_RESETWAIT; PS2_KB_IDENTIFY; PS2_KB_ENABLESCAN; PS2_KB_SETLEDS; 6]) t'.
Proof.
  destruct (keyboard_init_correct 3 (Keyboard 1 1 1 1 0 7) (DemoKbd [9; 9] []) [9; 9] []
    PS2_KB_ACK [] 0x83) as [_ Hok]; [simpl; lia|done|reflexivity|].
  apply Hok; reflexivity.
Defined.
