(* ===== verification/X86Screen.v ===== *)
(** * The screen of the x86-64 machine (drivers/x86_64/tty.c, polltty.c)

    The text screen in video memory with its cursor, [tty_write] and the polling
    writer on top of it, and the screen of 25 lines of 80 characters they
    implement.  The interrupt state is saved and restored and left out. *)

From S2P Require Import Prelude PhysMem Threads Devices Tty X86Phys X86Boot.

(** ** The screen (tty.c) *)
Definition VIDEO_MEMORY_COLUMNS : Z := 80.
Definition VIDEO_MEMORY_ROWS : Z := 25.
Definition COLOR_WHITE : Z := 0x0F.

(** [video] are the 16-bit cells of video memory, [cursor_loc] is where the
    hardware shows the cursor. *)
Record tty64_t := Tty64 {
  cursor_x : Z;
  cursor_y : Z;
  slock64 : Z;
  video : list Z;
  cursor_loc : Z
}.

Definition t_attrib : Z := Z.shiftl COLOR_WHITE 8.

(** One character, before the checks of the cursor. *)
Definition tty_char (c : Z) (tty : tty64_t) : outcome tty64_t :=
  let '(Tty64 x y l v h) := tty in
  let offset := y * VIDEO_MEMORY_COLUMNS + x in
  if c =? 8 then
    if negb (x =? 0) then
      let* v := awrite v (offset - 1) (Z.lor 32 t_attrib) in
      Done (Tty64 (x - 1) y l v h)
    else Done tty
  else if c =? 13 then Done (Tty64 0 y l v h)
  else if c =? 10 then Done (Tty64 0 (y + 1) l v h)
  else
    let* v := awrite v offset (Z.lor t_attrib c) in
    Done (Tty64 (x + 1) y l v h).

Definition tty_wrap (tty : tty64_t) : tty64_t :=
  let '(Tty64 x y l v h) := tty in
  if VIDEO_MEMORY_COLUMNS <=? x then Tty64 0 (y + 1) l v h else tty.

Definition tty_scroll (tty : tty64_t) : outcome tty64_t :=
  let '(Tty64 x y l v h) := tty in
  if VIDEO_MEMORY_ROWS <=? y then
    let* v := for_each 0 ((VIDEO_MEMORY_ROWS - 1) * VIDEO_MEMORY_COLUMNS) (λ i v,
      let* c := aread v (i + VIDEO_MEMORY_COLUMNS) in awrite v i c) v in
    let* v := for_each ((VIDEO_MEMORY_ROWS - 1) * VIDEO_MEMORY_COLUMNS)
      (VIDEO_MEMORY_ROWS * VIDEO_MEMORY_COLUMNS) (λ i v, awrite v i (Z.lor 32 t_attrib)) v in
    Done (Tty64 0 (y - 1) l v h)
  else Done tty.

(** [tty_write] for [len] characters of [buf]; a zero ends the output. *)
Definition tty_write64 (buf : list Z) (len : Z) (tty : tty64_t) : outcome (Z * tty64_t) :=
  let* l := spin (slock64 tty) in
  let tty := Tty64 (cursor_x tty) (cursor_y tty) l (video tty) (cursor_loc tty) in
  let* tty := while_loop (S (Z.to_nat len)) (λ '(i, tty),
    if negb (len - i =? 0) then
      let* c := aread buf i in
      if c =? 0 then Done (inr tty)
      else
        let* tty := tty_char c tty in
        let tty := tty_wrap tty in
        let* tty := tty_scroll tty in
        Done (inl (i + 1, tty))
    else Done (inr tty)) (0, tty) in
  let loc := (cursor_y tty * VIDEO_MEMORY_COLUMNS + cursor_x tty) mod 2 ^ 16 in
  Done (len, Tty64 (cursor_x tty) (cursor_y tty) 0 (video tty) loc).

Definition polltty_putchar64 (c : Z) (tty : tty64_t) : outcome tty64_t :=
  let* '(_, tty) := tty_write64 [u8 c] 1 tty in Done tty.

(** [tty_init]: the objects it allocates, and the terminal on the video memory as
    it is found.  The sizes are those of the 64-bit structures, the [descriptor]
    of the device is what its memory held, and the lock is not tested. *)
Definition sizeof_device64 : Z := 32.
Definition sizeof_gcd64 : Z := 24.
Definition sizeof_tty64 : Z := 32.
Definition VIDEO_MEMORY_BASE : Z := 0xB8000.

Definition tty_init64 (a_write a_read descriptor0 : Z) (video0 : list Z) (loc : Z) (st : stalloc_t)
    : outcome (Z * device_t * gcd_t * tty64_t * stalloc_t) :=
  let* '(dev, st) := stalloc64 sizeof_device64 st in
  if dev =? 0 then Panic "Could not reserve memory for tty driver." else
  let* '(gcd, st) := stalloc64 sizeof_gcd64 st in
  if gcd =? 0 then Panic "Could not reserve memory for tty driver." else
  let* '(tty, st) := stalloc64 sizeof_tty64 st in
  if tty =? 0 then Panic "Could not reserve memory for tty driver." else
  let* '(slock, st) := stalloc64 4 st in
  Done (dev, Device tty gcd descriptor0 VIDEO_MEMORY_BASE TYPECODE_TTY, Gcd dev a_write a_read,
    Tty64 0 0 0 video0 loc, st).

(** ** The screen as lines *)
Record screen := Screen { rows : list (list Z); row : nat; col : nat }.

Definition blank : Z := Z.lor 32 t_attrib.
Definition blank_line : list Z := replicate 80 blank.

Definition newline (s : screen) : screen :=
  if (row s =? 24)%nat then Screen (tail (rows s) ++ [blank_line]) 24 0
  else Screen (rows s) (S (row s)) 0.

(** A cell of the line of the cursor is set, and the cursor moves to column [n]. *)
Definition put (k : nat) (x : Z) (n : nat) (s : screen) : screen :=
  Screen (alter (<[k := x]>) (row s) (rows s)) (row s) n.

(** What a character does: 8 erases to the left, 13 returns, 10 starts a line. *)
Definition show (s : screen) (c : Z) : screen :=
  if c =? 8 then (if decide (col s = 0%nat) then s else put (col s - 1) blank (col s - 1) s)
  else if c =? 13 then Screen (rows s) (row s) 0
  else if c =? 10 then newline s
  else
    let s := put (col s) (Z.lor t_attrib c) (S (col s)) s in
    if (col s =? 80)%nat then newline s else s.

Definition screen_ok (s : screen) : Prop :=
  length (rows s) = 25%nat ∧ Forall (λ l, length l = 80%nat) (rows s) ∧
  (row s < 25)%nat ∧ (col s < 80)%nat.

(** The driver's state stands for the screen. *)
Definition srep (s : screen) (tty : tty64_t) : Prop :=
  cursor_x tty = Z.of_nat (col s) ∧ cursor_y tty = Z.of_nat (row s) ∧
  video tty = concat (rows s).

(** The text a call writes: up to [len] characters, or up to a zero. *)
Fixpoint until_zero (l : list Z) : list Z :=
  match l with [] => [] | c :: l => if c =? 0 then [] else c :: until_zero l end.

(** ** Video memory *)
Lemma length_lines w (ls : list (list Z)) :
  Forall (λ l, length l = w) ls → length (concat ls) = (length ls * w)%nat.
Proof. induction 1 as [|l ls Hl _ IH]; simpl; [done|]. rewrite length_app. lia. Qed.

Lemma concat_insert w (ls : list (list Z)) r c x :
  Forall (λ l, length l = w) ls → (r < length ls)%nat → (c < w)%nat →
  <[(r * w + c)%nat := x]> (concat ls) = concat (alter (<[c := x]>) r ls).
Proof.
  intros Hw. revert r. induction Hw as [|l ls Hl _ IH]; intros [|r] Hr Hc; simpl in *; try lia.
  - by rewrite insert_app_l by lia.
  - replace (w + r * w + c)%nat with (length l + (r * w + c))%nat by lia.
    rewrite insert_app_r. by rewrite IH by lia.
Qed.

Lemma awrite_cell (ls : list (list Z)) r c x i :
  Forall (λ l, length l = 80%nat) ls → (r < length ls)%nat → (c < 80)%nat →
  i = Z.of_nat r * 80 + Z.of_nat c →
  awrite (concat ls) i x = Done (concat (alter (<[c := x]>) r ls)).
Proof.
  intros Hw Hr Hc ->. rewrite awrite_in_range by (rewrite (length_lines 80) by done; nia).
  f_equal. rewrite <- (concat_insert 80) by done. f_equal. lia.
Qed.

(** A loop whose state is a function of its counter. *)
Lemma for_each_exact {S} (f : Z → S) body lo hi :
  lo ≤ hi → (∀ j, lo ≤ j < hi → body j (f j) = Done (f (j + 1))) →
  for_each lo hi body (f lo) = Done (f hi).
Proof.
  intros Hle Hbody.
  destruct (returns_inv (for_each lo hi body (f lo)) (λ s, s = f hi)) as (? & -> & ->); [|done].
  apply (for_each_inv (λ i s, s = f i)); [done..|].
  intros j s Hj ->. by rewrite Hbody.
Qed.

(** The lines move up by a copy from low to high addresses. *)
Lemma shift_loop (v : list Z) n k :
  0 ≤ n → 0 < k → n + k ≤ Z.of_nat (length v) →
  for_each 0 n (λ i v, let* c := aread v (i + k) in awrite v i c) v =
    Done (take (Z.to_nat n) (drop (Z.to_nat k) v) ++ drop (Z.to_nat n) v).
Proof.
  intros Hn Hk Hlen.
  apply (for_each_exact (λ i, take (Z.to_nat i) (drop (Z.to_nat k) v) ++ drop (Z.to_nat i) v));
    [done|].
  intros j Hj. cbv beta.
  destruct (drop (Z.to_nat j) v) as [|x r] eqn:Ed.
  { apply (f_equal length) in Ed. rewrite length_drop in Ed. simpl in Ed. lia. }
  destruct (lookup_lt_is_Some_2 v (Z.to_nat (j + k))) as [y Hy]; [lia|].
  assert (Hlt : length (take (Z.to_nat j) (drop (Z.to_nat k) v)) = Z.to_nat j)
    by (rewrite length_take, length_drop; lia).
  rewrite (aread_Some _ _ y); [|lia|].
  2:{ rewrite lookup_app_r, Hlt, <- Ed, lookup_drop by lia. rewrite <- Hy. f_equal. lia. }
  cbn [outcome_bind]. rewrite awrite_middle by lia. f_equal.
  rewrite Z2Nat.inj_add by lia. rewrite Nat.add_1_r.
  rewrite (take_S_r _ _ y), <- (assoc_L (++)).
  - cbn [app]. by rewrite (drop_tail _ _ _ _ Ed).
  - rewrite lookup_drop, <- Hy. f_equal. lia.
Qed.

Lemma blank_loop (v : list Z) lo hi x :
  0 ≤ lo ≤ hi → Z.of_nat (length v) = hi →
  for_each lo hi (λ i v, awrite v i x) v =
    Done (take (Z.to_nat lo) v ++ replicate (Z.to_nat (hi - lo)) x).
Proof.
  intros Hlo Hlen.
  pose proof (for_each_exact (λ i, take (Z.to_nat lo) v ++ replicate (Z.to_nat (i - lo)) x ++
    drop (Z.to_nat i) v) (λ i v, awrite v i x) lo hi) as Hrun.
  cbv beta in Hrun. rewrite Z.sub_diag in Hrun. change (replicate (Z.to_nat 0) x) with (@nil Z) in Hrun. cbn [app] in Hrun.
  rewrite take_drop, (drop_ge v (Z.to_nat hi)), app_nil_r in Hrun by lia.
  apply Hrun; [lia|]. intros j Hj.
    destruct (drop (Z.to_nat j) v) as [|y r] eqn:Ed.
    { apply (f_equal length) in Ed. rewrite length_drop in Ed. simpl in Ed. lia. }
    rewrite (assoc_L (++)), awrite_middle
      by (rewrite length_app, length_take, length_replicate; lia).
    f_equal. replace (Z.to_nat (j + 1)) with (S (Z.to_nat j)) by lia.
    replace (Z.to_nat (j + 1 - lo)) with (Z.to_nat (j - lo) + 1)%nat by lia.
    rewrite replicate_add, (drop_tail _ _ _ _ Ed). by rewrite <- !(assoc_L (++)).
Qed.

(** ** One character *)
Lemma scroll_spec s l h :
  length (rows s) = 25%nat → Forall (λ l, length l = 80%nat) (rows s) →
  tty_scroll (Tty64 0 25 l (concat (rows s)) h) =
    Done (Tty64 0 24 l (concat (tail (rows s) ++ [blank_line])) h).
Proof.
  intros Hn Hw. unfold tty_scroll.
  destruct (rows s) as [|top ls] eqn:E; [done|]. apply Forall_cons in Hw as [Ht Hw].
  pose proof (length_lines 80 ls Hw) as Hls. cbn [length] in Hn.
  assert (Hlen : Z.of_nat (length (concat (top :: ls))) = 2000)
    by (cbn [concat]; rewrite length_app; lia).
  change ((VIDEO_MEMORY_ROWS - 1) * VIDEO_MEMORY_COLUMNS) with 1920.
  change (VIDEO_MEMORY_ROWS * VIDEO_MEMORY_COLUMNS) with 2000.
  change (VIDEO_MEMORY_ROWS <=? 25) with true. cbv iota.
  rewrite shift_loop by (unfold VIDEO_MEMORY_COLUMNS; lia). cbn [outcome_bind].
  assert (Hup : drop (Z.to_nat VIDEO_MEMORY_COLUMNS) (concat (top :: ls)) = concat ls).
  { cbn [concat]. apply drop_app_length'. by rewrite Ht. }
  rewrite Hup, (take_ge (concat ls)) by lia.
  rewrite blank_loop; [|lia|rewrite length_app, length_drop, Hls; lia].
  cbn [outcome_bind tail]. rewrite concat_app, (take_app_length' _ _ (Z.to_nat 1920)) by lia.
  cbn [concat]. by rewrite app_nil_r.
Qed.

Lemma newline_ok s :
  length (rows s) = 25%nat → Forall (λ l, length l = 80%nat) (rows s) → (row s < 25)%nat →
  screen_ok (newline s).
Proof.
  intros Hn Hw Hr. unfold newline. destruct (Nat.eqb_spec (row s) 24).
  - split_and!; simpl; [|apply Forall_app; split|lia..].
    + rewrite length_app. destruct (rows s); simpl in *; lia.
    + by destruct Hw.
    + by repeat constructor.
  - split_and!; simpl; [done..|lia|lia].
Qed.

Lemma newline_spec s l h :
  length (rows s) = 25%nat → Forall (λ l, length l = 80%nat) (rows s) → (row s < 25)%nat →
  tty_scroll (Tty64 0 (Z.of_nat (row s) + 1) l (concat (rows s)) h) =
    Done (Tty64 (Z.of_nat (col (newline s))) (Z.of_nat (row (newline s))) l
      (concat (rows (newline s))) h).
Proof.
  intros Hn Hw Hr. unfold newline. destruct (Nat.eqb_spec (row s) 24) as [E|Hne].
  - rewrite E. by apply scroll_spec.
  - unfold tty_scroll, VIDEO_MEMORY_ROWS. destruct (Z.leb_spec 25 (Z.of_nat (row s) + 1)); [lia|].
    do 2 f_equal. simpl. lia.
Qed.

Lemma put_ok k x n s :
  screen_ok s → length (rows (put k x n s)) = 25%nat ∧
  Forall (λ l, length l = 80%nat) (rows (put k x n s)) ∧ (row (put k x n s) < 25)%nat.
Proof.
  intros (Hn & Hw & Hr & _). split_and!; [simpl; by rewrite length_alter| |done].
  apply Forall_alter; [done|]. intros l _ Hl. by rewrite length_insert.
Qed.

(** A cursor on the screen stays where it is. *)
Lemma stay_spec l h s :
  screen_ok s →
  tty_scroll (tty_wrap (Tty64 (Z.of_nat (col s)) (Z.of_nat (row s)) l (concat (rows s)) h)) =
  Done (Tty64 (Z.of_nat (col s)) (Z.of_nat (row s)) l (concat (rows s)) h).
Proof.
  intros (_ & _ & Hr & Hk). unfold tty_wrap, VIDEO_MEMORY_COLUMNS.
  destruct (Z.leb_spec 80 (Z.of_nat (col s))); [lia|].
  unfold tty_scroll, VIDEO_MEMORY_ROWS.
  destruct (Z.leb_spec 25 (Z.of_nat (row s))); [lia|done].
Qed.

Lemma tty_char_spec s c tty :
  screen_ok s → srep s tty → is_u8 c →
  screen_ok (show s c) ∧
  ∃ tty', (let* tty := tty_char c tty in tty_scroll (tty_wrap tty)) = Done tty' ∧
    srep (show s c) tty' ∧ slock64 tty' = slock64 tty.
Proof.
  intros Hok (Hx & Hy & Hv) Hc. destruct tty as [x y l v h]. simpl in Hx, Hy, Hv. subst x y v.
  pose proof Hok as (Hn & Hw & Hr & Hk).
  pose proof (stay_spec l h) as Hstay.
  unfold tty_char, show.
  destruct (c =? 8).
  { destruct (decide (col s = 0%nat)) as [E|Hne].
    - split; [done|]. rewrite (proj2 (Z.eqb_eq _ _)) by lia. cbn [negb outcome_bind].
      rewrite Hstay by done. by eexists.
    - rewrite (proj2 (Z.eqb_neq _ _)) by lia. cbn [negb].
      rewrite (awrite_cell _ (row s) (col s - 1)) by (done || lia || (unfold VIDEO_MEMORY_COLUMNS; lia)).
      destruct (put_ok (col s - 1) blank (col s - 1) s Hok) as (Hn' & Hw' & Hr').
      assert (Hok' : screen_ok (put (col s - 1) blank (col s - 1) s)) by (split_and!; [done..|simpl; lia]).
      split; [done|]. cbn [outcome_bind].
      replace (Z.of_nat (col s) - 1) with (Z.of_nat (col s - 1)) by lia.
      specialize (Hstay _ Hok'). cbn [put row col rows] in Hstay. unfold blank in Hstay.
      rewrite Hstay. by eexists. }
  destruct (c =? 13).
  { assert (Hok' : screen_ok (Screen (rows s) (row s) 0)) by (split_and!; [done..|simpl; lia]).
    split; [done|]. cbn [outcome_bind]. specialize (Hstay _ Hok'). cbn [row col rows] in Hstay.
    change (Z.of_nat 0) with 0 in Hstay. rewrite Hstay.
    by eexists. }
  destruct (c =? 10).
  { split; [by apply newline_ok|]. cbn [outcome_bind].
    unfold tty_wrap at 1. cbn [Z.leb]. change (VIDEO_MEMORY_COLUMNS <=? 0) with false. cbv iota.
    rewrite newline_spec by done. by eexists. }
  set (s1 := put (col s) (Z.lor t_attrib c) (S (col s)) s).
  destruct (put_ok (col s) (Z.lor t_attrib c) (S (col s)) s Hok) as (Hn' & Hw' & Hr').
  fold s1 in Hn', Hw', Hr'.
  rewrite (awrite_cell _ (row s) (col s)) by (done || lia || (unfold VIDEO_MEMORY_COLUMNS; lia)).
  cbn [outcome_bind]. replace (Z.of_nat (col s) + 1) with (Z.of_nat (col s1)) by (simpl; lia).
  change (alter _ _ (rows s)) with (rows s1). change (row s) with (row s1).
  destruct (Nat.eqb_spec (col s1) 80) as [E|Hne].
  - split; [by apply newline_ok|]. unfold tty_wrap at 1. rewrite E.
    change (VIDEO_MEMORY_COLUMNS <=? Z.of_nat 80) with true. cbv iota.
    rewrite newline_spec by done. by eexists.
  - assert (Hok' : screen_ok s1) by (split_and!; [done..|simpl in *; lia]).
    split; [done|]. rewrite Hstay by done. by eexists.
Qed.

(** ** Writing *)
Lemma write_loop rest : ∀ fuel pre s tty n,
  screen_ok s → srep s tty → Forall is_u8 rest → (n < fuel)%nat →
  ((n ≤ length rest)%nat ∨ 0 ∈ rest) →
  let s' := fold_left show (until_zero (take n rest)) s in
  screen_ok s' ∧ ∃ tty', srep s' tty' ∧ slock64 tty' = slock64 tty ∧
  while_loop fuel (λ '(i, tty),
    if negb (Z.of_nat (length pre + n) - i =? 0) then
      let* c := aread (pre ++ rest) i in
      if c =? 0 then Done (inr tty)
      else
        let* tty := tty_char c tty in
        let tty := tty_wrap tty in
        let* tty := tty_scroll tty in
        Done (inl (i + 1, tty))
    else Done (inr tty)) (Z.of_nat (length pre), tty) = Done tty'.
Proof.
  induction rest as [|c rest IH]; intros fuel pre s tty n Hok Hs Hu Hf Hn;
    (destruct fuel as [|fuel]; [lia|]); (destruct n as [|n];
      [cbn [take until_zero fold_left]; split; [done|]; exists tty; split_and!; [done..|];
       rewrite while_loop_S, Nat.add_0_r, Z.sub_diag; done|]); rewrite while_loop_S.
  { simpl in Hn. destruct Hn as [?|?%elem_of_nil]; [lia|done]. }
  apply Forall_cons in Hu as [Hc Hu].
  rewrite (proj2 (Z.eqb_neq _ _)) by lia. cbn [negb]. rewrite aread_middle by done.
  cbn [outcome_bind take until_zero].
  destruct (Z.eqb_spec c 0) as [->|Hc0].
  { cbn [fold_left]. split; [done|]. by exists tty. }
  cbn [fold_left].
  destruct (tty_char_spec s c tty) as (Hok' & tty1 & Hrun & Hs1 & Hl1); [done..|].
  destruct (IH fuel (pre ++ [c]) (show s c) tty1 n) as (Hok2 & tty2 & Hs2 & Hl2 & Hloop);
    [done..|lia| |].
  { destruct Hn as [?|[<-|?]%elem_of_cons]; [left; simpl in *; lia|done|by right]. }
  split; [done|]. exists tty2. split_and!; [done|congruence|].
  rewrite <- Hloop. rewrite length_app, <- (assoc_L (++)). cbn [length app].
  replace (length pre + S n)%nat with (length pre + 1 + n)%nat by lia.
  replace (Z.of_nat (length pre + 1)) with (Z.of_nat (length pre) + 1) by lia.
  destruct (tty_char c tty) as [t1| | | |]; cbn [outcome_bind] in *; try done.
  by rewrite Hrun.
Qed.

(** C27. [tty_write] of the x86-64 machine implements a screen of 25 lines of 80
    characters: it shows the characters of the buffer in order, up to its length
    or up to the first zero byte, starting a new line at the right edge and
    scrolling at the bottom; the cursor stays on the screen, video memory is
    never written outside its 2000 cells, and the hardware cursor follows.  The
    result is the length it was given even where a zero byte cut the text
    short. *)
Theorem tty_write64_correct s tty buf len :
  screen_ok s → srep s tty → slock64 tty = 0 → Forall is_u8 buf →
  0 ≤ len → (len ≤ Z.of_nat (length buf) ∨ 0 ∈ buf) →
  let s' := fold_left show (until_zero (take (Z.to_nat len) buf)) s in
  screen_ok s' ∧ ∃ tty', tty_write64 buf len tty = Done (len, tty') ∧ srep s' tty' ∧
    slock64 tty' = 0 ∧ cursor_loc tty' = 80 * Z.of_nat (row s') + Z.of_nat (col s').
Proof.
  intros Hok Hs Hl Hu Hlen Hend s'.
  set (tty1 := Tty64 (cursor_x tty) (cursor_y tty) 1 (video tty) (cursor_loc tty)).
  destruct (write_loop buf (S (Z.to_nat len)) [] s tty1 (Z.to_nat len))
    as (Hok' & tty2 & (Hx & Hy & Hv) & _ & Hloop); [done|exact Hs|done|lia|destruct Hend; [left; lia|by right]|].
  split; [done|]. cbn [length plus] in Hloop. rewrite Z2Nat.id in Hloop by lia.
  change (Z.of_nat 0) with 0 in Hloop. cbn [app] in Hloop.
  unfold tty_write64, spin. rewrite Hl. cbn [Z.eqb outcome_bind]. fold tty1. rewrite Hloop.
  cbn [outcome_bind]. eexists. split; [done|].
  split; [split_and!; done|]. split; [done|]. cbn [cursor_loc].
  destruct Hok' as (_ & _ & Hr & Hk). rewrite Hx, Hy.
  fold s' in Hr, Hk |- *. unfold VIDEO_MEMORY_COLUMNS. rewrite Z.mod_small; lia.
Qed.

Definition demo_screen : screen := Screen (replicate 25 blank_line) 24 79.
Definition demo_tty64 : tty64_t := Tty64 79 24 0 (replicate 2000 blank) 0.

(** A character in the last cell scrolls; a zero ends the text, not the count. *)
Lemma tty_write64_correct_witness :
  (∃ tty', tty_write64 [65; 66; 0; 67] 4 demo_tty64 = Done (4, tty') ∧
     cursor_x tty' = 1 ∧ cursor_y tty' = 24) ∧
  screen_ok (fold_left show [65; 66] demo_screen).
Proof.
  destruct (tty_write64_correct demo_screen demo_tty64 [65; 66; 0; 67] 4)
    as (Hok & tty' & Hrun & (Hx & Hy & _) & _).
  - apply (bool_decide_unpack _). vm_compute. exact I.
  - split_and!; reflexivity.
  - reflexivity.
  - repeat constructor; discriminate.
  - lia.
  - left. reflexivity.
  - split; [|exact Hok]. exists tty'. split; [exact Hrun|]. rewrite Hx, Hy. vm_compute. by split.
Defined.

(** The polling writer shows one character; a zero shows nothing. *)
Lemma polltty_putchar64_spec s tty c :
  screen_ok s → srep s tty → slock64 tty = 0 →
  ∃ tty', polltty_putchar64 c tty = Done tty' ∧
    srep (if u8 c =? 0 then s else show s (u8 c)) tty' ∧ slock64 tty' = 0.
Proof.
  intros Hok Hs Hl.
  destruct (write_loop [u8 c] 2 [] s (Tty64 (cursor_x tty) (cursor_y tty) 1 (video tty) (cursor_loc tty)) 1)
    as (_ & tty2 & (Hx & Hy & Hv) & _ & Hloop); [done|exact Hs| |lia|by left; simpl; lia|].
  { repeat constructor; apply u8_range. }
  unfold polltty_putchar64, tty_write64, spin. rewrite Hl. cbn [Z.eqb outcome_bind].
  cbn [length plus app] in Hloop. change (Z.of_nat 0) with 0 in Hloop.
  change (Z.of_nat 1) with 1 in Hloop. change (S (Z.to_nat 1)) with 2%nat. rewrite Hloop.
  cbn [outcome_bind]. eexists. split; [done|]. cbn [take until_zero] in *.
  by destruct (u8 c =? 0).
Qed.

(** ** Start-up *)
Lemma tty_init64_spec a_write a_read descriptor0 s loc st :
  screen_ok s → row s = 0%nat → col s = 0%nat → room64 st 112 →
  returns (tty_init64 a_write a_read descriptor0 (concat (rows s)) loc st)
    (λ '(dev, device, gcd, tty, st'),
      srep s tty ∧ slock64 tty = 0 ∧ gcd = Gcd dev a_write a_read ∧
      free_area_start st ≤ dev ∧ dev + 32 ≤ generic_device device ∧
      generic_device device + 24 ≤ real_device device ∧
      real_device device + 36 ≤ free_area_start st').
Proof.
  intros Hok Hr Hc (H1 & _ & H3). unfold tty_init64, sizeof_device64, sizeof_gcd64, sizeof_tty64.
  apply returns_bind. eapply returns_mono; [apply stalloc64_spec; split_and!; lia|].
  intros [dev st1] (-> & Hst1). rewrite (proj2 (Z.eqb_neq _ _)) by lia.
  apply returns_bind. eapply returns_mono; [apply stalloc64_spec; split_and!; lia|].
  intros [gcd st2] (-> & Hst2). rewrite (proj2 (Z.eqb_neq _ _)) by lia.
  apply returns_bind. eapply returns_mono; [apply stalloc64_spec; split_and!; lia|].
  intros [tty st3] (-> & Hst3). rewrite (proj2 (Z.eqb_neq _ _)) by lia.
  apply returns_bind. eapply returns_mono; [apply stalloc64_spec; split_and!; lia|].
  intros [lock st4] (-> & Hst4). cbn [returns generic_device real_device].
  split_and!; try done; try lia; [|simpl; lia..]. unfold srep. by rewrite Hr, Hc.
Qed.
