(* ===== verification/X86Disk.v ===== *)
(** * The disk driver of x86-64 (drivers/x86_64/disk.c, _disk.h)

    Discovery of drives and transfers by programmed input and output, over any
    ports.  [device_register] is that of drivers/x86_64/device.c. *)

From S2P Require Import Prelude X86Cpu Devices.

(** ** Ports of words *)
Class WordPorts (T : Type) := { inw : Z → T → Z * T; outw : Z → Z → T → T }.

Definition IDE_CHANNELS_PER_CTRL : Z := 0x2.
Definition IDE_DEVICES_PER_CHANNEL : Z := 0x2.
Definition IDE_PRIMARY_CMD_BASE : Z := 0x1F0.
Definition IDE_PRIMARY_CTRL_BASE : Z := 0x3F6.
Definition IDE_PRIMARY_IRQ : Z := 14.
Definition IDE_SECONDARY_CMD_BASE : Z := 0x170.
Definition IDE_SECONDARY_CTRL_BASE : Z := 0x376.
Definition IDE_SECONDARY_IRQ : Z := 15.
Definition IDE_PRIMARY : Z := 0.
Definition IDE_SECONDARY : Z := 1.
Definition IDE_REGISTER_DATA : Z := 0x00.
Definition IDE_REGISTER_FEATURES : Z := 0x01.
Definition IDE_REGISTER_SECCOUNT0 : Z := 0x02.
Definition IDE_REGISTER_LBA0 : Z := 0x03.
Definition IDE_REGISTER_LBA1 : Z := 0x04.
Definition IDE_REGISTER_LBA2 : Z := 0x05.
Definition IDE_REGISTER_HDDSEL : Z := 0x06.
Definition IDE_REGISTER_COMMAND : Z := 0x07.
Definition IDE_REGISTER_STATUS : Z := 0x07.
Definition IDE_REGISTER_CTRL : Z := 0x0C.
Definition IDE_COMMAND_PIO_READ : Z := 0x20.
Definition IDE_COMMAND_PIO_WRITE : Z := 0x30.
Definition IDE_COMMAND_PACKET : Z := 0xA1.
Definition IDE_COMMAND_FLUSH : Z := 0xE7.
Definition IDE_COMMAND_IDENTIFY : Z := 0xEC.
Definition IDE_ERROR_GENERIC : Z := 0x01.
Definition IDE_ERROR_DRQ : Z := 0x08.
Definition IDE_ERROR_FAULT : Z := 0x20.
Definition IDE_ATA_BUSY : Z := 0x80.
Definition IDE_ATA_DRQ : Z := 0x08.
Definition IDE_READ : Z := 0x00.
Definition IDE_WRITE : Z := 0x01.

(** ** State *)
Record ide_channel_t := IdeChannel {
  ch_base : Z; ch_ctrl : Z; ch_busm : Z; ch_irq : Z; ch_irq_wait : Z;
  ch_dma_phys : Z; ch_dma_virt : Z; ch_dma_buf_phys : Z; ch_dma_buf_virt : Z
}.

Record ide_device_t := IdeDevice {
  dv_present : Z; dv_channel : Z; dv_drive : Z; dv_flags : Z; dv_type : Z; dv_signature : Z;
  dv_capabilities : Z; dv_commandset : Z; dv_cylinders : Z; dv_headspercylinder : Z;
  dv_secsperhead : Z; dv_totalsectors : Z
}.

Record ide := Ide { ide_channels : list ide_channel_t; ide_devices : list ide_device_t }.

(** [irq_wait] of a channel is set to 0. *)
Definition reset_irq_wait (channel : Z) (s : ide) : outcome ide :=
  let* ch := aread (ide_channels s) channel in
  let* chs := awrite (ide_channels s) channel
    (IdeChannel (ch_base ch) (ch_ctrl ch) (ch_busm ch) (ch_irq ch) 0 (ch_dma_phys ch) (ch_dma_virt ch)
      (ch_dma_buf_phys ch) (ch_dma_buf_virt ch)) in
  Done (Ide chs (ide_devices s)).

Section driver.
Context {T : Type} {ports : Ports T} {words : WordPorts T}.
Implicit Types (t : T) (s : ide) (ch : ide_channel_t).

(** ** Registers *)

(** The port of a register of a channel. *)
Definition ide_port ch (reg : Z) : option Z :=
  if reg <? 0x08 then Some (u16 (ch_base ch + reg))
  else if reg <? 0x0C then Some (u16 (ch_base ch + reg - 0x06))
  else if reg <? 0x0E then Some (u16 (ch_ctrl ch + reg - 0x0A))
  else if reg <? 0x16 then Some (u16 (ch_busm ch + reg - 0x0E))
  else None.

Definition ide_out ch (reg data : Z) t : T :=
  match ide_port ch reg with Some p => outb p data t | None => t end.

(** The registers from 8 to 11 are reached with bit 7 of the control register
    set. *)
Definition ide_write (channel reg data : Z) s t : outcome T :=
  let* ch := aread (ide_channels s) channel in
  let high := (0x07 <? reg) && (reg <? 0x0C) in
  let t := if high then ide_out ch IDE_REGISTER_CTRL (u8 (Z.lor 0x80 (ch_irq ch))) t else t in
  let t := ide_out ch reg data t in
  Done (if high then ide_out ch IDE_REGISTER_CTRL (ch_irq ch) t else t).

Definition ide_read (channel reg : Z) s t : outcome (Z * T) :=
  let* ch := aread (ide_channels s) channel in
  let high := (0x07 <? reg) && (reg <? 0x0C) in
  let t := if high then ide_out ch IDE_REGISTER_CTRL (u8 (Z.lor 0x80 (ch_irq ch))) t else t in
  let '(data, t) := match ide_port ch reg with Some p => inb p t | None => (0, t) end in
  Done (data, if high then ide_out ch IDE_REGISTER_CTRL (ch_irq ch) t else t).

Definition ide_delay (channel : Z) s t : outcome T :=
  let* '(_, t) := ide_read channel IDE_REGISTER_STATUS s t in
  let* '(_, t) := ide_read channel IDE_REGISTER_STATUS s t in
  let* '(_, t) := ide_read channel IDE_REGISTER_STATUS s t in
  let* '(_, t) := ide_read channel IDE_REGISTER_STATUS s t in
  Done t.

(** The wait for the drive takes fuel. *)
Definition ide_wait (fuel : nat) (channel : Z) (advanced : bool) s t : outcome (Z * T) :=
  let* t := ide_delay channel s t in
  let* ch := aread (ide_channels s) channel in
  let status_port := u16 (ch_base ch + IDE_REGISTER_STATUS) in
  let* t := while_loop fuel (λ t,
    let '(status, t) := inb status_port t in
    if negb (Z.land status IDE_ATA_BUSY =? 0) then Done (inl t) else Done (inr t)) t in
  if advanced then
    let '(status, t) := inb status_port t in
    if negb (Z.land status IDE_ERROR_FAULT =? 0) then Done (-1, t)
    else if negb (Z.land status IDE_ERROR_GENERIC =? 0) then Done (-2, t)
    else if Z.land status IDE_ERROR_DRQ =? 0 then Done (-3, t)
    else Done (0, t)
  else Done (0, t).

(** ** Transfers *)

(** [_insw] and [_outsw]: [n] words from and to a port, low byte first. *)
Definition insw (port n : Z) (buf : list Z) t : outcome (list Z * T) :=
  for_each 0 n (λ i '(buf, t),
    let '(w, t) := inw port t in
    let* buf := awrite buf (2 * i) (w mod 256) in
    let* buf := awrite buf (2 * i + 1) (u8 (w / 256)) in
    Done (buf, t)) (buf, t).

Definition outsw (port n : Z) (buf : list Z) t : outcome T :=
  for_each 0 n (λ i t,
    let* lo := aread buf (2 * i) in
    let* hi := aread buf (2 * i + 1) in
    Done (outw port (lo + 256 * hi) t)) t.

(** The registers of a command for sectors from [addr] on, with 48-bit or with
    28-bit addresses. *)
Definition send_lba48 (fuel : nat) (channel slave addr : Z) s t : outcome T :=
  let* t := ide_write channel IDE_REGISTER_HDDSEL (u8 (Z.lor 0x40 (Z.shiftl slave 4))) s t in
  let* '(_, t) := ide_wait fuel channel false s t in
  let* t := ide_write channel IDE_REGISTER_SECCOUNT0 0 s t in
  let* t := ide_write channel IDE_REGISTER_LBA0 (u8 (Z.land (Z.shiftr addr 24) 0xFF)) s t in
  let* t := ide_write channel IDE_REGISTER_LBA1 (u8 (Z.land (Z.shiftr addr 32) 0xFF)) s t in
  ide_write channel IDE_REGISTER_LBA2 (u8 (Z.land (Z.shiftr addr 40) 0xFF)) s t.

Definition send_lba28 (fuel : nat) (channel slave addr : Z) s t : outcome T :=
  let* t := ide_write channel IDE_REGISTER_HDDSEL
    (u8 (Z.lor (Z.lor 0xE0 (Z.shiftl slave 4)) (Z.shiftr (Z.land addr 0x0F000000) 24))) s t in
  let* '(_, t) := ide_wait fuel channel false s t in
  ide_write channel IDE_REGISTER_FEATURES 0 s t.

Definition send_rest (channel addr numsectors cmd : Z) s t : outcome T :=
  let* t := ide_write channel IDE_REGISTER_SECCOUNT0 (u8 numsectors) s t in
  let* t := ide_write channel IDE_REGISTER_LBA0 (u8 (Z.land addr 0xFF)) s t in
  let* t := ide_write channel IDE_REGISTER_LBA1 (u8 (Z.land (Z.shiftr addr 8) 0xFF)) s t in
  let* t := ide_write channel IDE_REGISTER_LBA2 (u8 (Z.land (Z.shiftr addr 16) 0xFF)) s t in
  ide_write channel IDE_REGISTER_COMMAND cmd s t.

(** The answer, the buffer ([None] is NULL), and the states. *)
Definition ide_pio_readwrite (fuel : nat) (rw drive lba : Z) (buf : option (list Z)) (numsectors : Z) s t
    : outcome (Z * option (list Z) * ide * T) :=
  match buf with
  | None => Done (0, buf, s, t)
  | Some b =>
      if 1 <? rw then Done (0, buf, s, t) else
      let* dv := aread (ide_devices s) drive in
      let channel := dv_channel dv in
      let slave := dv_drive dv in
      let* ch := aread (ide_channels s) channel in
      let bus := ch_base ch in
      let words := u32 (numsectors * 512) / 2 in
      let t := outb (u16 (bus + IDE_REGISTER_CTRL)) 0x02 t in
      let* '(_, t) := ide_wait fuel channel false s t in
      let wide := negb (Z.land (dv_flags dv) 0x1 =? 0) in
      let cmd := if rw =? IDE_READ then IDE_COMMAND_PIO_READ else IDE_COMMAND_PIO_WRITE in
      let* s := reset_irq_wait channel s in
      let cmd := if wide then cmd + 0x04 else cmd in
      let* t := if wide then send_lba48 fuel channel slave lba s t
                else send_lba28 fuel channel slave lba s t in
      let* t := send_rest channel lba numsectors cmd s t in
      let* '(r, t) := ide_wait fuel channel true s t in
      if negb (r =? 0) then Done (0, buf, s, t)
      else
        let* '(b, t) :=
          if rw =? IDE_READ then insw (u16 (bus + IDE_REGISTER_DATA)) (256 * numsectors) b t
          else
            let* t := outsw (u16 (bus + IDE_REGISTER_DATA)) (256 * numsectors) b t in
            Done (b, outb (u16 (bus + IDE_REGISTER_COMMAND)) IDE_COMMAND_FLUSH t) in
        let* '(_, t) := ide_wait fuel channel false s t in
        Done (u32 (words * 2), Some b, s, t)
  end.

(** [io_address] is that of the device of the request. *)
Definition ide_get_sectorsize (io_address : Z) s : outcome Z :=
  let* dv := aread (ide_devices s) (u8 io_address) in
  Done (if dv_type dv =? 0 then 512 else 2048).

Definition ide_get_sectorcount (io_address : Z) s : outcome Z :=
  let* dv := aread (ide_devices s) (u8 io_address) in Done (u32 (dv_totalsectors dv)).

Definition ide_block (rw no_drive refused : Z) (fuel : nat) (io_address sector : Z)
    (buf : option (list Z)) s t : outcome (Z * option (list Z) * ide * T) :=
  let drive := u8 io_address in
  if 3 <? drive then Done (no_drive, buf, s, t) else
  let* dv := aread (ide_devices s) drive in
  if dv_present dv =? 0 then Done (no_drive, buf, s, t)
  else if (dv_totalsectors dv <? sector) || negb (dv_type dv =? 0) then Done (refused, buf, s, t)
  else ide_pio_readwrite fuel rw drive sector buf 1 s t.

Definition ide_read_block := ide_block IDE_READ (-6) (-5).
Definition ide_write_block := ide_block IDE_WRITE (-1) (-2).
End driver.

(** ** A drive *)

(** The command registers of a drive of unit [d_unit] on its channel, each with
    the value written before; the words it has to give ([d_out]) and the sector
    it is taking ([d_in]: its number, how many sectors are left, the words so
    far); whether the last command failed; its sectors of 256 words. *)
Record drive := Drive {
  d_unit : Z; d_sel : Z; d_count : Z * Z; d_lba0 : Z * Z; d_lba1 : Z * Z; d_lba2 : Z * Z;
  d_out : list Z; d_in : option (Z * Z * list Z); d_err : bool; d_disk : list (list Z)
}.

Definition set_transfer (o : list Z) (i : option (Z * Z * list Z)) (e : bool) (d : drive) : drive :=
  Drive (d_unit d) (d_sel d) (d_count d) (d_lba0 d) (d_lba1 d) (d_lba2 d) o i e (d_disk d).
Definition set_disk (l : list (list Z)) (d : drive) : drive :=
  Drive (d_unit d) (d_sel d) (d_count d) (d_lba0 d) (d_lba1 d) (d_lba2 d) (d_out d) (d_in d) (d_err d) l.

Definition lba28 (d : drive) : Z :=
  fst (d_lba0 d) + 2 ^ 8 * fst (d_lba1 d) + 2 ^ 16 * fst (d_lba2 d) + 2 ^ 24 * (d_sel d mod 16).
Definition lba48 (d : drive) : Z :=
  fst (d_lba0 d) + 2 ^ 8 * fst (d_lba1 d) + 2 ^ 16 * fst (d_lba2 d) +
  2 ^ 24 * (snd (d_lba0 d) + 2 ^ 8 * snd (d_lba1 d) + 2 ^ 16 * snd (d_lba2 d)).
Definition count28 (d : drive) : Z := if fst (d_count d) =? 0 then 256 else fst (d_count d).
Definition count48 (d : drive) : Z :=
  let n := fst (d_count d) + 256 * snd (d_count d) in if n =? 0 then 65536 else n.

Definition start_read (a n : Z) (d : drive) : drive :=
  if a + n <=? Z.of_nat (length (d_disk d))
  then set_transfer (concat (take (Z.to_nat n) (drop (Z.to_nat a) (d_disk d)))) None false d
  else set_transfer [] None true d.
Definition start_write (a n : Z) (d : drive) : drive :=
  if a + n <=? Z.of_nat (length (d_disk d)) then set_transfer [] (Some (a, n, [])) false d
  else set_transfer [] None true d.

(** Reading and writing with 28-bit and with 48-bit addresses, and flushing. *)
Definition drive_command (c : Z) (d : drive) : drive :=
  if negb ((d_sel d / 16) mod 2 =? d_unit d) then d
  else if c =? 0x20 then start_read (lba28 d) (count28 d) d
  else if c =? 0x24 then start_read (lba48 d) (count48 d) d
  else if c =? 0x30 then start_write (lba28 d) (count28 d) d
  else if c =? 0x34 then start_write (lba48 d) (count48 d) d
  else set_transfer [] None (negb (c =? 0xE7)) d.

Definition drive_out (reg v : Z) (d : drive) : drive :=
  let 'Drive u s c l0 l1 l2 o i e k := d in
  if reg =? 2 then Drive u s (v, fst c) l0 l1 l2 o i e k
  else if reg =? 3 then Drive u s c (v, fst l0) l1 l2 o i e k
  else if reg =? 4 then Drive u s c l0 (v, fst l1) l2 o i e k
  else if reg =? 5 then Drive u s c l0 l1 (v, fst l2) o i e k
  else if reg =? 6 then Drive u v c l0 l1 l2 o i e k
  else if reg =? 7 then drive_command v d
  else d.

(** A word of a sector that is written; the last one stores the sector. *)
Definition drive_word (w : Z) (d : drive) : drive :=
  match d_in d with
  | Some (a, n, acc) =>
      if (length acc =? 255)%nat then
        set_disk (<[Z.to_nat a := acc ++ [w]]> (d_disk d))
          (set_transfer (d_out d) (if n =? 1 then None else Some (a + 1, n - 1, [])) (d_err d) d)
      else set_transfer (d_out d) (Some (a, n, acc ++ [w])) (d_err d) d
  | None => d
  end.

Definition d_drq (d : drive) : bool :=
  match d_out d, d_in d with [], None => false | _, _ => true end.

(** What the driver relies on: behind the ports from [bus] on there is a drive,
    which is busy for at most [max_busy] looks at its status.  When it is not,
    it takes registers and words and shows its state; when it is, it ignores
    what is written to its registers.  Other ports do not reach it. *)
Class IdeBus (T : Type) {ports : Ports T} {words : WordPorts T} (bus : Z) := {
  drv : T → drive;
  busy : T → nat;
  max_busy : nat;
  busy_bound t : (busy t ≤ max_busy)%nat;
  ide_status t : ∃ st t', inb (bus + 7) t = (st, t') ∧ drv t' = drv t ∧ busy t' = pred (busy t) ∧
    (Z.land st IDE_ATA_BUSY = 0 ↔ busy t = 0%nat) ∧
    (busy t = 0%nat → Z.land st IDE_ERROR_FAULT = 0 ∧
       (Z.land st IDE_ERROR_GENERIC = 0 ↔ d_err (drv t) = false) ∧
       (Z.land st IDE_ERROR_DRQ = 0 ↔ d_drq (drv t) = false));
  ide_outb p v t : bus ≤ p < bus + 8 → busy t = 0%nat →
    drv (outb p v t) = drive_out (p - bus) v (drv t) ∧
    (p ≠ bus + 6 → p ≠ bus + 7 → busy (outb p v t) = 0%nat);
  ide_outb_busy p v t : bus ≤ p < bus + 8 → busy t ≠ 0%nat → drv (outb p v t) = drv t;
  ide_other p v t : ¬ bus ≤ p < bus + 8 → drv (outb p v t) = drv t ∧ busy (outb p v t) = busy t;
  ide_inw t w l : busy t = 0%nat → d_out (drv t) = w :: l →
    fst (inw bus t) = w ∧ drv (snd (inw bus t)) = set_transfer l (d_in (drv t)) (d_err (drv t)) (drv t) ∧
    (l ≠ [] → busy (snd (inw bus t)) = 0%nat);
  ide_outw t w : busy t = 0%nat → drv (outw bus w t) = drive_word w (drv t) ∧
    (∀ a n acc, d_in (drv t) = Some (a, n, acc) → length acc ≠ 255%nat → busy (outw bus w t) = 0%nat)
}.

Section proofs.
Context {T : Type} {ports : Ports T} {words : WordPorts T} {bus : Z} {ib : IdeBus T bus}.
Hypothesis bus_range : 0 ≤ bus < 2 ^ 15.
Implicit Types (t : T) (s : ide) (d : drive).

Definition on_bus s (channel : Z) : Prop :=
  ∃ ch, aread (ide_channels s) channel = Done ch ∧ ch_base ch = bus.

Definition at_rest d t : Prop := drv t = d ∧ busy t = 0%nat.

Lemma port_u16 k : 0 ≤ k < 16 → u16 (bus + k) = bus + k.
Proof. intros Hk. unfold u16. apply Z.mod_small. lia. Qed.

(** ** Waiting *)
Lemma status_read channel s t :
  on_bus s channel → ∃ st t', ide_read channel IDE_REGISTER_STATUS s t = Done (st, t') ∧
    drv t' = drv t ∧ busy t' = pred (busy t).
Proof.
  intros (ch & Hch & Hb). destruct (ide_status t) as (st & t' & Hin & Hd & Hbu & _).
  exists st, t'. unfold ide_read, ide_port. rewrite Hch. cbn [outcome_bind].
  rewrite Hb. change (IDE_REGISTER_STATUS <? 0x08) with true.
  change ((0x07 <? IDE_REGISTER_STATUS) && (IDE_REGISTER_STATUS <? 0x0C)) with false. cbv iota.
  rewrite port_u16 by (unfold IDE_REGISTER_STATUS; lia). change IDE_REGISTER_STATUS with 7.
  by rewrite Hin.
Qed.

Lemma delay_spec channel s t :
  on_bus s channel → ∃ t', ide_delay channel s t = Done t' ∧ drv t' = drv t ∧ (busy t' ≤ busy t)%nat.
Proof.
  intros Hc. unfold ide_delay.
  destruct (status_read channel s t Hc) as (? & t1 & -> & D1 & B1). cbn [outcome_bind].
  destruct (status_read channel s t1 Hc) as (? & t2 & -> & D2 & B2). cbn [outcome_bind].
  destruct (status_read channel s t2 Hc) as (? & t3 & -> & D3 & B3). cbn [outcome_bind].
  destruct (status_read channel s t3 Hc) as (? & t4 & -> & D4 & B4). cbn [outcome_bind].
  exists t4. split; [done|]. split; [congruence|lia].
Qed.

Lemma busy_loop fuel t :
  (busy t < fuel)%nat →
  ∃ t', while_loop fuel (λ t, let '(status, t) := inb (bus + 7) t in
      if negb (Z.land status IDE_ATA_BUSY =? 0) then Done (inl t) else Done (inr t)) t = Done t' ∧
    at_rest (drv t) t'.
Proof.
  revert t. induction fuel as [|fuel IH]; intros t Hf; [lia|]. rewrite while_loop_S. cbv beta.
  destruct (ide_status t) as (st & t' & -> & Hd & Hbu & Hbusy & _).
  destruct (Z.eqb_spec (Z.land st IDE_ATA_BUSY) 0) as [E|E]; cbn [negb outcome_bind].
  - exists t'. split; [done|]. split; [done|]. apply Hbusy in E. lia.
  - destruct (IH t') as (t2 & Hrun & Hr); [|exists t2; rewrite <- Hd; done].
    assert (busy t ≠ 0%nat) by (intros H0; by apply E, Hbusy). lia.
Qed.

Definition wait_result (d : drive) : Z := if d_err d then -2 else if d_drq d then 0 else -3.

Lemma wait_spec fuel channel (advanced : bool) s t :
  on_bus s channel → (max_busy < fuel)%nat →
  ∃ t', ide_wait fuel channel advanced s t =
      Done (if advanced then wait_result (drv t) else 0, t') ∧ at_rest (drv t) t'.
Proof.
  intros Hc Hf. destruct (delay_spec channel s t Hc) as (t1 & E1 & D1 & B1).
  destruct (busy_loop fuel t1) as (t2 & E2 & D2 & B2); [pose proof (busy_bound t1); lia|].
  destruct Hc as (ch & Hch & Hb). unfold ide_wait. rewrite E1. cbn [outcome_bind]. rewrite Hch.
  cbn [outcome_bind]. rewrite Hb. change IDE_REGISTER_STATUS with 7.
  rewrite port_u16 by lia. rewrite E2. cbn [outcome_bind].
  destruct advanced; [|exists t2; split; [done|]; by rewrite <- D1].
  destruct (ide_status t2) as (st & t3 & -> & D3 & B3 & _ & Hst).
  destruct (Hst B2) as (Hfault & Herr & Hdrq). rewrite Hfault. cbn [negb Z.eqb].
  assert (Hr3 : at_rest (drv t) t3) by (split; [congruence|lia]).
  rewrite D2, D1 in Herr, Hdrq. unfold wait_result. exists t3.
  destruct (Z.eqb_spec (Z.land st IDE_ERROR_GENERIC) 0) as [E|E]; cbn [negb].
  - apply Herr in E. rewrite E.
    destruct (Z.eqb_spec (Z.land st IDE_ERROR_DRQ) 0) as [F|F].
    + apply Hdrq in F. by rewrite F.
    + destruct (d_drq (drv t)); [done|]. exfalso. by apply F, Hdrq.
  - destruct (d_err (drv t)); [done|]. exfalso. by apply E, Herr.
Qed.

(** ** Registers *)
Lemma write_reg channel reg v s t :
  on_bus s channel → 0 ≤ reg < 8 → ide_write channel reg v s t = Done (outb (bus + reg) v t).
Proof.
  intros (ch & Hch & Hb) Hr. unfold ide_write, ide_out, ide_port. rewrite Hch. cbn [outcome_bind].
  rewrite (proj2 (Z.ltb_ge 0x07 reg)), (proj2 (Z.ltb_lt reg 0x08)) by lia. cbn [andb].
  by rewrite Hb, port_u16 by lia.
Qed.

Lemma write_reg_spec channel reg v s t d :
  on_bus s channel → 0 ≤ reg < 6 → at_rest d t →
  ∃ t', ide_write channel reg v s t = Done t' ∧ at_rest (drive_out reg v d) t'.
Proof.
  intros Hc Hr [<- Hb]. eexists. rewrite write_reg by (done || lia). split; [done|].
  destruct (ide_outb (bus + reg) v t) as [Hd Hb']; [lia|done|].
  replace (bus + reg - bus) with reg in Hd by lia. split; [done|]. apply Hb'; lia.
Qed.

Lemma write_slow_spec channel reg v s t d :
  on_bus s channel → 6 ≤ reg < 8 → at_rest d t →
  ∃ t', ide_write channel reg v s t = Done t' ∧ drv t' = drive_out reg v d.
Proof.
  intros Hc Hr [<- Hb]. eexists. rewrite write_reg by (done || lia). split; [done|].
  destruct (ide_outb (bus + reg) v t) as [Hd _]; [lia|done|].
  by replace (bus + reg - bus) with reg in Hd by lia.
Qed.
(** ** Commands *)

(** The byte of an address that goes into a register. *)
Lemma addr_byte addr n : 0 ≤ n → u8 (Z.land (Z.shiftr addr n) 0xFF) = (addr / 2 ^ n) mod 2 ^ 8.
Proof.
  intros Hn. change 0xFF with (Z.ones 8). rewrite Z.land_ones, Z.shiftr_div_pow2 by lia.
  unfold u8. apply Zmod_mod.
Qed.

Lemma addr_byte0 addr : u8 (Z.land addr 0xFF) = addr mod 2 ^ 8.
Proof. change 0xFF with (Z.ones 8). rewrite Z.land_ones by lia. apply Zmod_mod. Qed.

(** The drive after a command for [addr] was sent: its registers hold it. *)
Definition addressed (wide : bool) (addr : Z) (d dd : drive) : Prop :=
  d_disk dd = d_disk d ∧ d_unit dd = d_unit d ∧ (d_sel dd / 16) mod 2 = d_unit d ∧
  if wide then lba48 dd = addr ∧ count48 dd = 1 else lba28 dd = addr ∧ count28 dd = 1.

Definition is_unit (u : Z) : Prop := u = 0 ∨ u = 1.

Lemma select28 u n :
  is_unit u → 0 ≤ n < 16 →
  let sel := u8 (Z.lor (Z.lor 0xE0 (Z.shiftl u 4)) n) in (sel / 16) mod 2 = u ∧ sel mod 16 = n.
Proof.
  intros Hu Hn sel.
  assert (H : forallb (λ n, let sel := u8 (Z.lor (Z.lor 0xE0 (Z.shiftl u 4)) n) in
    ((sel / 16) mod 2 =? u) && (sel mod 16 =? n)) (seqZ 0 16) = true) by (by destruct Hu as [-> | ->]).
  apply (forallb_seqZ _ 0 16 n) in H; [|lia]. by apply andb_prop in H as [?%Z.eqb_eq ?%Z.eqb_eq].
Qed.

Lemma send28_spec fuel channel slave addr cmd s t d :
  on_bus s channel → (max_busy < fuel)%nat → at_rest d t → d_unit d = slave → is_unit slave →
  0 ≤ addr < 2 ^ 28 →
  ∃ t' dd, (let* t := send_lba28 fuel channel slave addr s t in send_rest channel addr 1 cmd s t) =
      Done t' ∧ drv t' = drive_command cmd dd ∧ addressed false addr d dd.
Proof.
  intros Hc Hf Hr Hu Hs Ha. unfold send_lba28, send_rest.
  destruct (write_slow_spec channel IDE_REGISTER_HDDSEL
    (u8 (Z.lor (Z.lor 0xE0 (Z.shiftl slave 4)) (Z.shiftr (Z.land addr 0x0F000000) 24))) s t d)
    as (t1 & -> & D1); [done|done|done|]. cbn [outcome_bind].
  destruct (wait_spec fuel channel false s t1) as (t2 & -> & R2); [done..|]. cbn [outcome_bind].
  rewrite D1 in R2.
  destruct (write_reg_spec channel IDE_REGISTER_FEATURES 0 s t2 _ Hc ltac:(done) R2)
    as (t3 & -> & R3). cbn [outcome_bind].
  destruct (write_reg_spec channel IDE_REGISTER_SECCOUNT0 (u8 1) s t3 _ Hc ltac:(done) R3)
    as (t4 & -> & R4). cbn [outcome_bind].
  destruct (write_reg_spec channel IDE_REGISTER_LBA0 (u8 (Z.land addr 0xFF)) s t4 _ Hc ltac:(done) R4)
    as (t5 & -> & R5). cbn [outcome_bind].
  destruct (write_reg_spec channel IDE_REGISTER_LBA1 (u8 (Z.land (Z.shiftr addr 8) 0xFF)) s t5 _ Hc
    ltac:(done) R5) as (t6 & -> & R6). cbn [outcome_bind].
  destruct (write_reg_spec channel IDE_REGISTER_LBA2 (u8 (Z.land (Z.shiftr addr 16) 0xFF)) s t6 _ Hc
    ltac:(done) R6) as (t7 & -> & R7). cbn [outcome_bind].
  destruct (write_slow_spec channel IDE_REGISTER_COMMAND cmd s t7 _ Hc ltac:(done) R7) as (t8 & -> & D8).
  destruct d as [u sel c l0 l1 l2 o i e k]. simpl in Hu. subst u.
  exists t8. eexists. split; [done|]. split; [exact D8|].
  change 0x0F000000 with (Z.shiftl (Z.ones 4) 24). rewrite land_shift by lia.
  destruct (select28 slave ((addr / 2 ^ 24) mod 2 ^ 4) Hs) as [Hsel Hlow];
    [apply Z.mod_pos_bound; lia|].
  split_and!; [done|done|exact Hsel| |done].
  unfold lba28. cbn [d_lba0 d_lba1 d_lba2 d_sel fst]. cbv zeta in Hlow.
  change (d_sel _) with (u8 (Z.lor (Z.lor 0xE0 (Z.shiftl slave 4)) ((addr / 2 ^ 24) mod 2 ^ 4))).
  rewrite Hlow. cbn. rewrite addr_byte0, !addr_byte by lia.
  Z.to_euclidean_division_equations. lia.
Qed.

Lemma send48_spec fuel channel slave addr cmd s t d :
  on_bus s channel → (max_busy < fuel)%nat → at_rest d t → d_unit d = slave → is_unit slave →
  0 ≤ addr < 2 ^ 48 →
  ∃ t' dd, (let* t := send_lba48 fuel channel slave addr s t in send_rest channel addr 1 cmd s t) =
      Done t' ∧ drv t' = drive_command cmd dd ∧ addressed true addr d dd.
Proof.
  intros Hc Hf Hr Hu Hs Ha. unfold send_lba48, send_rest.
  destruct (write_slow_spec channel IDE_REGISTER_HDDSEL (u8 (Z.lor 0x40 (Z.shiftl slave 4))) s t d)
    as (t1 & -> & D1); [done|done|done|]. cbn [outcome_bind].
  destruct (wait_spec fuel channel false s t1) as (t2 & -> & R2); [done..|]. cbn [outcome_bind].
  rewrite D1 in R2.
  destruct (write_reg_spec channel IDE_REGISTER_SECCOUNT0 0 s t2 _ Hc ltac:(done) R2)
    as (t3 & -> & R3). cbn [outcome_bind].
  destruct (write_reg_spec channel IDE_REGISTER_LBA0 (u8 (Z.land (Z.shiftr addr 24) 0xFF)) s t3 _ Hc
    ltac:(done) R3) as (t4 & -> & R4). cbn [outcome_bind].
  destruct (write_reg_spec channel IDE_REGISTER_LBA1 (u8 (Z.land (Z.shiftr addr 32) 0xFF)) s t4 _ Hc
    ltac:(done) R4) as (t5 & -> & R5). cbn [outcome_bind].
  destruct (write_reg_spec channel IDE_REGISTER_LBA2 (u8 (Z.land (Z.shiftr addr 40) 0xFF)) s t5 _ Hc
    ltac:(done) R5) as (t6 & -> & R6). cbn [outcome_bind].
  destruct (write_reg_spec channel IDE_REGISTER_SECCOUNT0 (u8 1) s t6 _ Hc ltac:(done) R6)
    as (t7 & -> & R7). cbn [outcome_bind].
  destruct (write_reg_spec channel IDE_REGISTER_LBA0 (u8 (Z.land addr 0xFF)) s t7 _ Hc ltac:(done) R7)
    as (t8 & -> & R8). cbn [outcome_bind].
  destruct (write_reg_spec channel IDE_REGISTER_LBA1 (u8 (Z.land (Z.shiftr addr 8) 0xFF)) s t8 _ Hc
    ltac:(done) R8) as (t9 & -> & R9). cbn [outcome_bind].
  destruct (write_reg_spec channel IDE_REGISTER_LBA2 (u8 (Z.land (Z.shiftr addr 16) 0xFF)) s t9 _ Hc
    ltac:(done) R9) as (t10 & -> & R10). cbn [outcome_bind].
  destruct (write_slow_spec channel IDE_REGISTER_COMMAND cmd s t10 _ Hc ltac:(done) R10)
    as (t11 & -> & D11).
  destruct d as [u sel c l0 l1 l2 o i e k]. simpl in Hu. subst u.
  exists t11. eexists. split; [done|]. split; [exact D11|].
  split_and!; [done|done|by destruct Hs as [-> | ->]| |done].
  unfold lba48. cbn. rewrite addr_byte0, !addr_byte by lia.
  Z.to_euclidean_division_equations. lia.
Qed.

(** ** Data *)
Definition word_bytes (w : Z) : list Z := [w mod 256; u8 (w / 256)].
Definition sector_bytes (ws : list Z) : list Z := concat (word_bytes <$> ws).

Lemma length_sector_bytes ws : length (sector_bytes ws) = (2 * length ws)%nat.
Proof.
  unfold sector_bytes. induction ws as [|w ws IH]; [done|]. rewrite fmap_cons.
  cbn [concat word_bytes app length]. rewrite IH. lia.
Qed.

Lemma sector_bytes_app ws ws' : sector_bytes (ws ++ ws') = sector_bytes ws ++ sector_bytes ws'.
Proof. unfold sector_bytes. by rewrite fmap_app, concat_app. Qed.

Lemma insw_spec n buf t ws :
  busy t = 0%nat → d_out (drv t) = ws → length ws = n → (2 * n ≤ length buf)%nat →
  ∃ t', insw bus (Z.of_nat n) buf t = Done (sector_bytes ws ++ drop (2 * n) buf, t') ∧
    drv t' = set_transfer [] (d_in (drv t)) (d_err (drv t)) (drv t).
Proof.
  intros Hb Ho Hn Hl. set (d := drv t).
  pose proof (for_each_inv (λ i '(b, t'), b = sector_bytes (take (Z.to_nat i) ws) ++ drop (2 * Z.to_nat i) buf ∧
      drv t' = set_transfer (drop (Z.to_nat i) ws) (d_in d) (d_err d) d ∧
      (i < Z.of_nat n → busy t' = 0%nat))
    (λ i '(buf, t), let '(w, t) := inw bus t in
      let* buf := awrite buf (2 * i) (w mod 256) in
      let* buf := awrite buf (2 * i + 1) (u8 (w / 256)) in Done (buf, t)) 0 (Z.of_nat n) (buf, t)) as Hinv.
  destruct (returns_inv (insw bus (Z.of_nat n) buf t) (λ '(b, t'),
    b = sector_bytes ws ++ drop (2 * n) buf ∧ drv t' = set_transfer [] (d_in d) (d_err d) d))
    as ([b t'] & E & -> & Hd); [|by exists t'].
  eapply returns_mono; [apply Hinv; [lia| |]|].
  - split_and!; [done|subst d; by destruct (drv t); simpl in *; subst|done].
  - intros i [b t1] Hi (-> & Hd1 & Hb1). specialize (Hb1 ltac:(lia)).
    destruct (drop (Z.to_nat i) ws) as [|w l] eqn:Ed.
    { apply (f_equal length) in Ed. rewrite length_drop in Ed. simpl in Ed. lia. }
    destruct (ide_inw t1 w l Hb1) as (Hw & Hd2 & Hb2); [by rewrite Hd1|].
    destruct (inw bus t1) as [w' t2]. simpl in Hw, Hd2, Hb2. subst w'.
    assert (Hws : ws !! Z.to_nat i = Some w) by (by rewrite <- (Nat.add_0_r (Z.to_nat i)), <- lookup_drop, Ed).
    assert (Hlen : length (sector_bytes (take (Z.to_nat i) ws)) = (2 * Z.to_nat i)%nat)
      by (rewrite length_sector_bytes, length_take; lia).
    destruct (drop (2 * Z.to_nat i) buf) as [|x [|y r]] eqn:Eb;
      try (apply (f_equal length) in Eb; rewrite length_drop in Eb; simpl in Eb; lia).
    rewrite (awrite_middle _ (y :: r)) by lia. cbn [outcome_bind].
    rewrite (cons_middle (w mod 256)), (assoc_L (++)), awrite_middle by (rewrite length_app; simpl; lia).
    cbn [outcome_bind returns].
    replace (Z.to_nat (i + 1)) with (S (Z.to_nat i)) by lia.
    replace (2 * S (Z.to_nat i))%nat with (S (S (2 * Z.to_nat i))) by lia.
    split_and!.
    + rewrite (take_S_r _ _ _ Hws), sector_bytes_app.
      rewrite (drop_tail buf r (S (2 * Z.to_nat i)) y) by (by apply drop_tail with x).
      by rewrite <- !(assoc_L (++)).
    + rewrite Hd2, Hd1. rewrite (drop_tail _ _ _ _ Ed). by destruct d.
    + intros Hlt. apply Hb2. intros ->. apply (f_equal length) in Ed. rewrite length_drop in Ed.
      simpl in Ed. lia.
  - intros [b t'] (-> & Hd & _). rewrite Nat2Z.id, take_ge by lia. split; [done|].
    by rewrite Hd, drop_ge by lia.
Qed.

Fixpoint bytes_words (b : list Z) : list Z :=
  match b with lo :: hi :: r => (lo + 256 * hi) :: bytes_words r | _ => [] end.

Lemma bytes_words_lookup i : ∀ b lo hi,
  b !! (2 * i)%nat = Some lo → b !! (2 * i + 1)%nat = Some hi → bytes_words b !! i = Some (lo + 256 * hi).
Proof.
  induction i as [|i IH]; intros b lo hi Hlo Hhi.
  - destruct b as [|x [|y b]]; simpl in *; try done. by simplify_eq.
  - replace (2 * S i)%nat with (S (S (2 * i))) in Hlo by lia.
    replace (2 * S i + 1)%nat with (S (S (2 * i + 1))) in Hhi by lia.
    destruct b as [|x [|y b]]; try done. by apply IH.
Qed.

Lemma length_bytes_words n : ∀ b, (2 * n <= length b)%nat → (n <= length (bytes_words b))%nat.
Proof.
  induction n as [|n IH]; intros b Hb; [lia|]. destruct b as [|x [|y b]]; simpl in Hb; try lia.
  cbn [bytes_words length]. specialize (IH b). lia.
Qed.

Lemma bytes_words_take n : ∀ b, bytes_words (take (2 * n) b) = take n (bytes_words b).
Proof.
  induction n as [|n IH]; intros b; [done|].
  destruct b as [|x [|y b]]; [done|by replace (2 * S n)%nat with (S (S (2 * n))) by lia|].
  replace (2 * S n)%nat with (S (S (2 * n))) by lia. cbn [take bytes_words]. by rewrite IH.
Qed.

Lemma bytes_words_sector b :
  Forall is_u8 b → Nat.Even (length b) → sector_bytes (bytes_words b) = b.
Proof.
  intros Hu [k Hk]. revert b Hu Hk. induction k as [|k IH]; intros b Hu Hk.
  - by destruct b; simpl in *.
  - destruct b as [|x [|y b]]; simpl in Hk; try lia.
    apply Forall_cons in Hu as [Hx Hu]. apply Forall_cons in Hu as [Hy Hu].
    cbn [bytes_words]. change (sector_bytes ?l) with (word_bytes (x + 256 * y) ++ sector_bytes (bytes_words b)).
    rewrite IH by (done || lia). unfold word_bytes, u8. kunfold. cbn [app].
    f_equal; [|f_equal]; Z.to_euclidean_division_equations; lia.
Qed.

(** Writing one sector. *)
Lemma outsw_spec buf t d a :
  at_rest d t → d_in d = Some (a, 1, []) → (512 <= length buf)%nat →
  ∃ t', outsw bus 256 buf t = Done t' ∧
    drv t' = set_disk (<[Z.to_nat a := bytes_words (take 512 buf)]> (d_disk d))
      (set_transfer (d_out d) None (d_err d) d).
Proof.
  intros [Hd Hb] Hin Hl. unfold outsw.
  set (so_far i := if i <? 256
    then set_transfer (d_out d) (Some (a, 1, take (Z.to_nat i) (bytes_words buf))) (d_err d) d
    else set_disk (<[Z.to_nat a := take 256 (bytes_words buf)]> (d_disk d))
      (set_transfer (d_out d) None (d_err d) d)).
  change 512%nat with (2 * 256)%nat. rewrite bytes_words_take.
  change (set_disk _ _) with (so_far 256).
  apply returns_inv. eapply returns_mono; [apply (for_each_inv (λ i t', drv t' = so_far i ∧
    (i < 256 → busy t' = 0%nat)))|by intros t' [? _]]; [lia| |].
  { split; [|done]. rewrite Hd. unfold so_far. cbn. destruct d; simpl in *; by subst. }
  intros i t1 Hi [Hd1 Hb1]. specialize (Hb1 ltac:(lia)).
  destruct (lookup_lt_is_Some_2 buf (Z.to_nat (2 * i))) as [lo Hlo]; [lia|].
  destruct (lookup_lt_is_Some_2 buf (Z.to_nat (2 * i + 1))) as [hi Hhi]; [lia|].
  rewrite (aread_Some buf (2 * i) lo), (aread_Some buf (2 * i + 1) hi) by (done || lia).
  cbn [outcome_bind returns].
  assert (Hw : bytes_words buf !! Z.to_nat i = Some (lo + 256 * hi)).
  { apply bytes_words_lookup; [rewrite <- Hlo|rewrite <- Hhi]; f_equal; lia. }
  assert (Hlen : length (take (Z.to_nat i) (bytes_words buf)) = Z.to_nat i)
    by (apply length_take_le; apply lookup_lt_Some in Hw; lia).
  destruct (ide_outw t1 (lo + 256 * hi) Hb1) as [Hd2 Hb2]. rewrite Hd1 in Hd2, Hb2.
  unfold so_far in Hd2, Hb2. rewrite (proj2 (Z.ltb_lt i 256)) in Hd2, Hb2 by lia.
  unfold drive_word in Hd2. cbn [d_in set_transfer] in Hd2, Hb2. rewrite Hlen in Hd2.
  split.
  - rewrite Hd2. unfold so_far.
    destruct (Nat.eqb_spec (Z.to_nat i) 255) as [Ei|Ei], (Z.ltb_spec (i + 1) 256); try lia.
    + rewrite <- (take_S_r _ _ _ Hw), Ei. by destruct d.
    + replace (Z.to_nat (i + 1)) with (S (Z.to_nat i)) by lia.
      rewrite (take_S_r _ _ _ Hw). by destruct d.
  - intros Hlt. eapply Hb2; [reflexivity|]. rewrite Hlen. lia.
Qed.

(** ** Transfers of one sector *)
Definition disk_of t : list (list Z) := d_disk (drv t).

(** Entry [drive] of the driver's table describes the drive behind the ports. *)
Record attached (drive : Z) (dv : ide_device_t) s t : Prop := {
  at_entry : aread (ide_devices s) drive = Done dv;
  at_bus : on_bus s (dv_channel dv);
  at_present : dv_present dv ≠ 0;
  at_type : dv_type dv = 0;
  at_unit : d_unit (drv t) = dv_drive dv ∧ is_unit (dv_drive dv);
  at_total : dv_totalsectors dv = Z.of_nat (length (disk_of t));
  at_size : dv_totalsectors dv < (if Z.land (dv_flags dv) 0x1 =? 0 then 2 ^ 28 else 2 ^ 48);
  at_sectors : Forall (λ ws, length ws = 256%nat) (disk_of t)
}.

Lemma reset_irq_spec channel s :
  on_bus s channel → ∃ s', reset_irq_wait channel s = Done s' ∧ ide_devices s' = ide_devices s ∧
    on_bus s' channel.
Proof.
  intros (ch & Hch & Hb). unfold reset_irq_wait. rewrite Hch. cbn [outcome_bind].
  pose proof (proj1 (aread_Done _ _ _) Hch) as [Hc Hl]. pose proof (lookup_lt_Some _ _ _ Hl) as Hlt.
  rewrite awrite_in_range by lia. cbn [outcome_bind]. eexists. split; [done|]. split; [done|].
  eexists. split; [apply aread_Some; [done|]; simpl; by apply list_lookup_insert_eq|exact Hb].
Qed.

Lemma command_spec fuel (writing wide : bool) channel slave lba s t :
  on_bus s channel → (max_busy < fuel)%nat → busy t = 0%nat → d_unit (drv t) = slave → is_unit slave →
  0 ≤ lba < (if wide then 2 ^ 48 else 2 ^ 28) →
  let cmd := (if writing then IDE_COMMAND_PIO_WRITE else IDE_COMMAND_PIO_READ) + (if wide then 4 else 0) in
  ∃ t' dd, (let* t := if wide then send_lba48 fuel channel slave lba s t
                      else send_lba28 fuel channel slave lba s t in
            send_rest channel lba 1 cmd s t) = Done t' ∧
    drv t' = (if writing then start_write lba 1 dd else start_read lba 1 dd) ∧
    d_disk dd = disk_of t ∧ d_unit dd = d_unit (drv t).
Proof.
  intros Hc Hf Hb Hu Hs Hlba cmd.
  assert (H : ∃ t' dd, (let* t := if wide then send_lba48 fuel channel slave lba s t
                      else send_lba28 fuel channel slave lba s t in
            send_rest channel lba 1 cmd s t) = Done t' ∧ drv t' = drive_command cmd dd ∧
            addressed wide lba (drv t) dd).
  { destruct wide; [by apply (send48_spec fuel channel slave lba cmd s t (drv t))|
      by apply (send28_spec fuel channel slave lba cmd s t (drv t))]. }
  destruct H as (t' & dd & Hrun & Hd & Hdisk & Hunit & Hsel & Ha). exists t', dd. split; [exact Hrun|].
  split; [|done]. rewrite Hd. unfold drive_command. rewrite Hsel, Hunit, Z.eqb_refl. cbn [negb].
  subst cmd. destruct writing, wide; destruct Ha as [<- Hn]; simpl; by rewrite Hn.
Qed.

Lemma wait_start_read lba dd :
  Forall (λ ws, length ws = 256%nat) (d_disk dd) → 0 ≤ lba ≤ Z.of_nat (length (d_disk dd)) →
  match d_disk dd !! Z.to_nat lba with
  | Some ws => wait_result (start_read lba 1 dd) = 0 ∧ d_out (start_read lba 1 dd) = ws ∧ length ws = 256%nat
  | None => wait_result (start_read lba 1 dd) = -2
  end ∧ d_disk (start_read lba 1 dd) = d_disk dd.
Proof.
  intros Hok Hlba. unfold start_read, wait_result.
  destruct (d_disk dd !! Z.to_nat lba) as [ws|] eqn:E.
  - pose proof (lookup_lt_Some _ _ _ E) as Hlt. rewrite (proj2 (Z.leb_le _ _)) by lia.
    split; [|done]. cbn [set_transfer d_err d_out]. unfold d_drq. cbn [d_out d_in].
    rewrite (drop_S _ _ _ E). change (Z.to_nat 1) with 1%nat. cbn [take concat].
    rewrite take_0. cbn [concat]. rewrite app_nil_r.
    rewrite Forall_lookup in Hok. pose proof (Hok _ _ E) as Hws. by destruct ws.
  - apply lookup_ge_None in E. by rewrite (proj2 (Z.leb_gt _ _)) by lia.
Qed.

Lemma wait_start_write lba dd :
  0 ≤ lba ≤ Z.of_nat (length (d_disk dd)) →
  match d_disk dd !! Z.to_nat lba with
  | Some _ => wait_result (start_write lba 1 dd) = 0 ∧ d_in (start_write lba 1 dd) = Some (lba, 1, [])
  | None => wait_result (start_write lba 1 dd) = -2
  end ∧ d_disk (start_write lba 1 dd) = d_disk dd.
Proof.
  intros Hlba. unfold start_write, wait_result. destruct (d_disk dd !! Z.to_nat lba) as [ws|] eqn:E.
  - pose proof (lookup_lt_Some _ _ _ E) as Hlt. by rewrite (proj2 (Z.leb_le _ _)) by lia.
  - apply lookup_ge_None in E. by rewrite (proj2 (Z.leb_gt _ _)) by lia.
Qed.

(** A flush leaves the contents, whether the drive takes it or is still busy. *)
Lemma flush_spec t : d_disk (drv (outb (u16 (bus + IDE_REGISTER_COMMAND)) IDE_COMMAND_FLUSH t)) = disk_of t ∧
  d_unit (drv (outb (u16 (bus + IDE_REGISTER_COMMAND)) IDE_COMMAND_FLUSH t)) = d_unit (drv t).
Proof.
  change IDE_REGISTER_COMMAND with 7. rewrite port_u16 by lia. unfold disk_of.
  destruct (decide (busy t = 0%nat)) as [Hb|Hb].
  - destruct (ide_outb (bus + 7) IDE_COMMAND_FLUSH t) as [-> _]; [lia|done|].
    replace (bus + 7 - bus) with 7 by lia. destruct (drv t). simpl.
    unfold drive_command. by destruct (negb _).
  - by rewrite (ide_outb_busy (bus + 7)) by (done || lia).
Qed.

(** The state after a transfer still describes the drive. *)
Lemma attached_after drive dv s t s' t' :
  attached drive dv s t → ide_devices s' = ide_devices s → on_bus s' (dv_channel dv) →
  d_unit (drv t') = d_unit (drv t) → length (disk_of t') = length (disk_of t) →
  Forall (λ ws, length ws = 256%nat) (disk_of t') → attached drive dv s' t'.
Proof. intros [] Hs Hb Hu Hl Hd. split; try done; [by rewrite Hs|by rewrite Hu|by rewrite Hl]. Qed.

(** The part of a transfer before the data: the drive is ready, or has refused. *)
Lemma pio_command fuel (writing : bool) drive dv lba b s t :
  attached drive dv s t → (max_busy < fuel)%nat → 0 ≤ lba ≤ dv_totalsectors dv →
  ∃ s' t' dd, ide_devices s' = ide_devices s ∧ on_bus s' (dv_channel dv) ∧
    at_rest (if writing then start_write lba 1 dd else start_read lba 1 dd) t' ∧
    d_disk dd = disk_of t ∧ d_unit dd = d_unit (drv t) ∧
    ide_pio_readwrite fuel (if writing then IDE_WRITE else IDE_READ) drive lba (Some b) 1 s t =
      (let r := wait_result (if writing then start_write lba 1 dd else start_read lba 1 dd) in
       if negb (r =? 0) then Done (0, Some b, s', t')
       else
         let* '(b, t) :=
           if (if writing then IDE_WRITE else IDE_READ) =? IDE_READ then insw bus 256 b t'
           else
             let* t := outsw bus 256 b t' in
             Done (b, outb (u16 (bus + IDE_REGISTER_COMMAND)) IDE_COMMAND_FLUSH t) in
         let* '(_, t) := ide_wait fuel (dv_channel dv) false s' t in
         Done (512, Some b, s', t)).
Proof.
  intros [Hdv Hbus _ _ [Hu Hs] Htot Hsize Hok] Hf Hlba. pose proof Hbus as (ch & Hch & Hb).
  destruct (ide_other (bus + 12) 0x02 t) as [Hd0 _]; [lia|].
  set (t0 := outb (bus + 12) 0x02 t) in *.
  destruct (wait_spec fuel (dv_channel dv) false s t0 Hbus Hf) as (t1 & E1 & Hd1 & Hb1).
  destruct (reset_irq_spec _ s Hbus) as (s' & Es & Hdevs & Hbus').
  set (wide := negb (Z.land (dv_flags dv) 0x1 =? 0)).
  destruct (command_spec fuel writing wide (dv_channel dv) (dv_drive dv) lba s' t1)
    as (t2 & dd & E2 & Hd2 & Hdisk & Hunit); [done|done|done|by rewrite Hd1, Hd0|done| |].
  { subst wide. destruct (Z.land (dv_flags dv) 0x1 =? 0); simpl; lia. }
  destruct (wait_spec fuel (dv_channel dv) true s' t2 Hbus' Hf) as (t3 & E3 & Hr3).
  rewrite Hd2 in E3, Hr3.
  exists s', t3, dd. split; [done|]. split; [done|]. split; [done|].
  split; [by rewrite Hdisk; unfold disk_of; rewrite Hd1, Hd0|].
  split; [by rewrite Hunit, Hd1, Hd0|].
  unfold ide_pio_readwrite.
  replace (1 <? (if writing then IDE_WRITE else IDE_READ)) with false by (by destruct writing).
  rewrite Hdv. cbn [outcome_bind]. rewrite Hch. cbn [outcome_bind]. rewrite Hb. cbv zeta.
  change IDE_REGISTER_CTRL with 12. change IDE_REGISTER_DATA with 0.
  rewrite (port_u16 12), (port_u16 0) by lia.
  rewrite Z.add_0_r. fold t0. rewrite E1. cbn [outcome_bind]. rewrite Es. cbn [outcome_bind].
  fold wide. apply bind_Done_inv in E2 as (t5 & EA & EB). rewrite EA. cbn [outcome_bind].
  match goal with |- context [send_rest _ _ _ ?c _ _] => replace c with
    ((if writing then IDE_COMMAND_PIO_WRITE else IDE_COMMAND_PIO_READ) + (if wide then 4 else 0))
    by (by destruct writing, wide) end.
  rewrite EB. cbn [outcome_bind]. rewrite E3. reflexivity.
Qed.

(** What a transfer of one sector does to the disk and to the buffer. *)
Lemma pio_spec fuel (writing : bool) drive dv lba b s t :
  attached drive dv s t → (max_busy < fuel)%nat → 0 ≤ lba ≤ dv_totalsectors dv →
  (512 <= length b)%nat →
  ∃ s' t', attached drive dv s' t' ∧
    match disk_of t !! Z.to_nat lba with
    | Some ws =>
        ide_pio_readwrite fuel (if writing then IDE_WRITE else IDE_READ) drive lba (Some b) 1 s t =
          Done (512, Some (if writing then b else sector_bytes ws ++ drop 512 b), s', t') ∧
        disk_of t' = (if writing then <[Z.to_nat lba := bytes_words (take 512 b)]> (disk_of t) else disk_of t)
    | None =>
        ide_pio_readwrite fuel (if writing then IDE_WRITE else IDE_READ) drive lba (Some b) 1 s t =
          Done (0, Some b, s', t') ∧ disk_of t' = disk_of t
    end.
Proof.
  intros Hat Hf Hlba Hb.
  destruct (pio_command fuel writing drive dv lba b s t Hat Hf Hlba)
    as (s' & t1 & dd & Hdevs & Hbus & Hr & Hdisk & Hunit & ->).
  pose proof Hat as [_ _ _ _ _ Htot _ Hok]. cbv zeta.
  assert (Hin : 0 ≤ lba ≤ Z.of_nat (length (d_disk dd))) by (rewrite Hdisk; lia).
  rewrite <- Hdisk in Hok |- *.
  assert (Hsame : ∀ t', d_disk (drv t') = d_disk dd → d_unit (drv t') = d_unit dd → attached drive dv s' t').
  { intros t' Hd' Hu'. apply (attached_after drive dv s t); try done; [congruence| |];
      unfold disk_of at 1; rewrite Hd'; [by rewrite Hdisk|done]. }
  destruct writing.
  - destruct (wait_start_write lba dd Hin) as [Hw Hwd].
    assert (Hwu : d_unit (start_write lba 1 dd) = d_unit dd) by (unfold start_write; by destruct (_ <=? _)).
    destruct (d_disk dd !! Z.to_nat lba) as [ws|] eqn:Ews.
    + destruct Hw as [-> Hq]. cbn [negb Z.eqb]. change (IDE_WRITE =? IDE_READ) with false. cbv iota.
      destruct (outsw_spec b t1 _ lba Hr Hq Hb) as (t2 & -> & Hd2). cbn [outcome_bind].
      destruct (flush_spec t2) as [Hfd Hfu].
      destruct (wait_spec fuel (dv_channel dv) false s' (outb (u16 (bus + IDE_REGISTER_COMMAND))
        IDE_COMMAND_FLUSH t2) Hbus Hf) as (t3 & -> & Hd3 & _).
      cbn [outcome_bind]. exists s', t3.
      assert (Hd : disk_of t3 = <[Z.to_nat lba := bytes_words (take 512 b)]> (d_disk dd)).
      { unfold disk_of. rewrite Hd3, Hfd. unfold disk_of. rewrite Hd2. simpl. by rewrite Hwd. }
      split; [|done]. apply (attached_after drive dv s t); try done.
      * rewrite Hd3, Hfu, Hd2. simpl. congruence.
      * by rewrite Hd, length_insert, Hdisk.
      * rewrite Hd. apply Forall_insert; [done|]. rewrite <- (Nat.mul_1_r 512).
        change (512 * 1)%nat with (2 * 256)%nat. rewrite bytes_words_take.
        apply length_take_le. by apply length_bytes_words.
    + rewrite Hw. cbn [negb Z.eqb]. destruct Hr as [Hd1 _]. exists s', t1.
      split; [apply Hsame; by rewrite Hd1|]. split; [done|]. unfold disk_of. by rewrite Hd1.
  - destruct (wait_start_read lba dd Hok Hin) as [Hw Hwd].
    assert (Hwu : d_unit (start_read lba 1 dd) = d_unit dd) by (unfold start_read; by destruct (_ <=? _)).
    destruct (d_disk dd !! Z.to_nat lba) as [ws|] eqn:Ews.
    + destruct Hw as (-> & Ho & Hlen). cbn [negb Z.eqb]. change (IDE_READ =? IDE_READ) with true. cbv iota.
      destruct Hr as [Hd1 Hb1].
      destruct (insw_spec 256 b t1 ws) as (t2 & E2 & Hd2); [done|by rewrite Hd1|done|lia|].
      change (Z.of_nat 256) with 256 in E2. rewrite E2. cbn [outcome_bind].
      destruct (wait_spec fuel (dv_channel dv) false s' t2 Hbus Hf) as (t3 & -> & Hd3 & _).
      cbn [outcome_bind]. exists s', t3.
      assert (Hd : d_disk (drv t3) = d_disk dd) by (rewrite Hd3, Hd2; simpl; by rewrite Hd1).
      split; [apply Hsame; [done|]|by split].
      rewrite Hd3, Hd2. simpl. by rewrite Hd1.
    + rewrite Hw. cbn [negb Z.eqb]. destruct Hr as [Hd1 _]. exists s', t1.
      split; [apply Hsame; by rewrite Hd1|]. split; [done|]. unfold disk_of. by rewrite Hd1.
Qed.

Lemma block_transfer fuel (writing : bool) no_drive refused io_address dv b s t sector :
  u8 io_address ≤ 3 → attached (u8 io_address) dv s t → sector ≤ dv_totalsectors dv →
  ide_block (if writing then IDE_WRITE else IDE_READ) no_drive refused fuel io_address sector (Some b) s t =
  ide_pio_readwrite fuel (if writing then IDE_WRITE else IDE_READ) (u8 io_address) sector (Some b) 1 s t.
Proof.
  intros Hio [Hdv _ Hp Ht _ _ _ _] Hs. unfold ide_block. rewrite (proj2 (Z.ltb_ge _ _)) by lia.
  rewrite Hdv. cbn [outcome_bind]. rewrite (proj2 (Z.eqb_neq _ _) Hp), Ht.
  by rewrite (proj2 (Z.ltb_ge _ _)) by lia.
Qed.

(** C30. Reading and writing blocks of an IDE disk, with 28-bit and with 48-bit
    addresses and whatever time the drive takes.  A read of a sector of the disk
    returns 512 with the sector in the first 512 bytes of the buffer; a write
    returns 512, and from then on the sector holds the buffer, as a read returns
    it, and the other sectors are as before.  The sector one past the end passes
    the test, and the drive's error makes the result 0; a sector beyond that is
    refused with a negative number, which is not the 0 that file systems take for
    a failure, and the buffer is left as it was. *)
Theorem ide_blocks_correct fuel io_address dv b s t sector :
  (max_busy < fuel)%nat → u8 io_address ≤ 3 → attached (u8 io_address) dv s t →
  (512 <= length b)%nat → Forall is_u8 b → 0 ≤ sector →
  let total := dv_totalsectors dv in
  (sector < total → ∃ ws s' t', disk_of t !! Z.to_nat sector = Some ws ∧
     ide_read_block fuel io_address sector (Some b) s t =
       Done (512, Some (sector_bytes ws ++ drop 512 b), s', t') ∧
     attached (u8 io_address) dv s' t' ∧ disk_of t' = disk_of t) ∧
  (sector < total → ∃ s' t', ide_write_block fuel io_address sector (Some b) s t =
       Done (512, Some b, s', t') ∧ attached (u8 io_address) dv s' t' ∧
     (∀ k, k ≠ Z.to_nat sector → disk_of t' !! k = disk_of t !! k) ∧
     ∃ s2 t2, ide_read_block fuel io_address sector (Some b) s' t' =
       Done (512, Some (take 512 b ++ drop 512 b), s2, t2)) ∧
  (sector = total → ∃ s' t', ide_read_block fuel io_address sector (Some b) s t = Done (0, Some b, s', t') ∧
     attached (u8 io_address) dv s' t' ∧ disk_of t' = disk_of t) ∧
  (total < sector → ide_read_block fuel io_address sector (Some b) s t = Done (-5, Some b, s, t) ∧
     ide_write_block fuel io_address sector (Some b) s t = Done (-2, Some b, s, t)).
Proof.
  intros Hf Hio Hat Hb Hu Hs total.
  pose proof (at_total _ _ _ _ Hat) as Htot. fold total in Htot.
  assert (Hsec : sector < total → ∃ ws, disk_of t !! Z.to_nat sector = Some ws)
    by (intros Hlt; apply lookup_lt_is_Some_2; lia).
  assert (Hread : ∀ s1 t1, attached (u8 io_address) dv s1 t1 → sector ≤ total → 
    ∃ s' t', attached (u8 io_address) dv s' t' ∧ disk_of t' = disk_of t1 ∧
      ide_read_block fuel io_address sector (Some b) s1 t1 =
      match disk_of t1 !! Z.to_nat sector with
      | Some ws => Done (512, Some (sector_bytes ws ++ drop 512 b), s', t')
      | None => Done (0, Some b, s', t') end).
  { intros s1 t1 Hat1 Hle.
    destruct (pio_spec fuel false (u8 io_address) dv sector b s1 t1) as (s' & t' & Hat' & Hrun); [done|done|fold total; lia|done|].
    exists s', t'. split; [done|]. unfold ide_read_block.
    rewrite (block_transfer fuel false (-6) (-5) io_address dv b s1 t1 sector) by done.
    by destruct (disk_of t1 !! Z.to_nat sector); destruct Hrun as [-> ->]. }
  split_and!.
  - intros Hlt. destruct (Hsec Hlt) as [ws Hws]. destruct (Hread s t Hat) as (s' & t' & Hat' & Hd & Hrun); [lia|].
    rewrite Hws in Hrun. by exists ws, s', t'.
  - intros Hlt. destruct (Hsec Hlt) as [ws Hws].
    destruct (pio_spec fuel true (u8 io_address) dv sector b s t) as (s' & t' & Hat' & Hrun); [done|done|fold total; lia|done|].
    rewrite Hws in Hrun. destruct Hrun as [Hrun Hd].
    exists s', t'. unfold ide_write_block.
    rewrite (block_transfer fuel true (-1) (-2) io_address dv b s t sector) by (done || (fold total; lia)).
    split; [done|]. split; [done|]. split.
    { intros k Hk. rewrite Hd. by apply list_lookup_insert_ne. }
    destruct (Hread s' t' Hat') as (s2 & t2 & _ & _ & Hrun2); [lia|]. exists s2, t2.
    rewrite Hrun2, Hd, list_lookup_insert_eq by (by eapply lookup_lt_Some).
    rewrite bytes_words_sector; [done|by apply Forall_take|].
    rewrite length_take_le by done. by exists 256%nat.
  - intros ->. destruct (Hread s t Hat) as (s' & t' & Hat' & Hd & Hrun); [lia|].
    rewrite (proj2 (lookup_ge_None _ _)) in Hrun by lia. by exists s', t'.
  - intros Hgt. destruct Hat as [Hdv _ Hp _ _ _ _ _]. unfold ide_read_block, ide_write_block, ide_block.
    rewrite (proj2 (Z.ltb_ge 3 _)) by lia. rewrite Hdv. cbn [outcome_bind].
    rewrite (proj2 (Z.eqb_neq _ _) Hp), (proj2 (Z.ltb_lt _ _)) by (fold total; lia). done.
Qed.
End proofs.

(** ** An example *)

(** A drive at the first channel that is busy for one look after a command. *)
Record demo_ata := DemoAta { da_drive : drive; da_busy : bool }.

Definition demo_status (t : demo_ata) : Z :=
  if da_busy t then 0x80 else (if d_err (da_drive t) then 1 else 0) + (if d_drq (da_drive t) then 8 else 0).

#[export] Instance demo_ata_ports : Ports demo_ata := {
  inb p t := if p =? 0x1F7 then (demo_status t, DemoAta (da_drive t) false) else (0, t);
  outb p v t := if (0x1F0 <=? p) && (p <? 0x1F8) && negb (da_busy t)
    then DemoAta (drive_out (p - 0x1F0) v (da_drive t)) (p =? 0x1F7) else t
}.

#[export] Instance demo_ata_words : WordPorts demo_ata := {
  inw p t := match d_out (da_drive t) with
    | w :: l => (w, DemoAta (set_transfer l (d_in (da_drive t)) (d_err (da_drive t)) (da_drive t)) false)
    | [] => (0, t) end;
  outw p w t := DemoAta (drive_word w (da_drive t)) false
}.

#[export, refine] Instance demo_ata_bus : IdeBus demo_ata 0x1F0 := {|
  drv := da_drive; busy t := if da_busy t then 1%nat else 0%nat; max_busy := 1%nat
|}.
Proof.
  - intros t. destruct (da_busy t); lia.
  - intros t. exists (demo_status t), (DemoAta (da_drive t) false).
    change (inb (0x1F0 + 7) t) with (demo_status t, DemoAta (da_drive t) false).
    unfold demo_status. destruct (da_busy t), (d_err (da_drive t)), (d_drq (da_drive t));
      split_and!; try done; intros; split_and!; done.
  - intros p v t Hp Hb. simpl. destruct (da_busy t); [done|].
    rewrite (proj2 (Z.leb_le _ _)), (proj2 (Z.ltb_lt _ _)) by lia. simpl. split; [done|].
    intros _ H7. rewrite (proj2 (Z.eqb_neq _ _)); [done|lia].
  - intros p v t Hp Hb. simpl. destruct (da_busy t); [|done]. by rewrite andb_false_r.
  - intros p v t Hp. simpl.
    destruct (Z.leb_spec 0x1F0 p), (Z.ltb_spec p 0x1F8); try (by split); lia.
  - intros t w l Hb Ho. simpl. by rewrite Ho.
  - done.
Defined.

Definition demo_ide : ide :=
  Ide [IdeChannel 0x1F0 0x3F6 0 14 0 0 0 0 0; IdeChannel 0x170 0x376 0 15 0 0 0 0 0]
    [IdeDevice 1 0 0 1 0 0 0 0 0 0 0 2; IdeDevice 0 0 0 0 0 0 0 0 0 0 0 0].

Definition demo_drive : demo_ata :=
  DemoAta (Drive 0 0 (0, 0) (0, 0) (0, 0) (0, 0) [] None false [replicate 256 0x0201; replicate 256 0x0403]) true.

Lemma demo_attached :
  attached (bus := 0x1F0) (u8 0) (IdeDevice 1 0 0 1 0 0 0 0 0 0 0 2) demo_ide demo_drive.
Proof.
  split; try done.
  - eexists. by split.
  - split; [done|by left].
  - by repeat constructor.
Qed.

Lemma ide_blocks_correct_witness :
  ∃ s' t', ide_read_block 2 0 1 (Some (replicate 513 7)) demo_ide demo_drive =
    Done (512, Some (sector_bytes (replicate 256 0x0403) ++ [7]), s', t').
Proof.
  destruct (ide_blocks_correct (bus := 0x1F0) ltac:(lia) 2 0 (IdeDevice 1 0 0 1 0 0 0 0 0 0 0 2)
    (replicate 513 7) demo_ide demo_drive 1) as (Hr & _).
  - simpl. lia.
  - by compute.
  - exact demo_attached.
  - apply (bool_decide_unpack _). vm_compute. exact I.
  - apply (bool_decide_unpack _). vm_compute. exact I.
  - lia.
  - destruct Hr as (ws & s' & t' & Hws & Hrun & _); [reflexivity|].
    injection Hws as <-. exists s', t'. exact Hrun.
Defined.
